(* ===== verification/_CoqProject ===== *)
-Q . S2P
Prelude.v
Varint.v
Bytes.v
FileIO.v
OpenAddr.v
Bitvec.v
WalBase.v
WalFrame.v
WalIndex.v
WalIter.v
WalHdr.v
WalCkpt.v
WalRecover.v
WalRead.v
WalWrite.v
WalTxn.v
WalCommit.v
Text.v
Hash.v
Ints.v
NumText.v
Literals.v
RowSet.v
RowList.v
RowTree.v
RowForest.v
RowSpec.v
BtBase.v
BtCell.v
BtPage.v
BtLayout.v
BtSpace.v
BtRep.v
BtDefrag.v
BtSpec.v
BtRefine.v
BtSafe.v
MemJournal.v
MemJrnlRep.v
MemJrnlSpec.v
Mem5.v
Mem5Inv.v
Mem5Spec.v
Mem5Heap.v
ShmLock.v
ShmSpec.v
WalLive.v
BtFree.v
BtFreeWp.v
BtFreeList.v
BtFreeOps.v
BtFreeSpec.v
Double.v
VdbeMem.v
VdbeRec.v
RecSpec.v
RecMake.v
VdbeCmp.v
RecCmp.v
RecSafe.v
