(* ===== verification/Prelude.v ===== *)
(** * SQL Anywhere, the C storage engine: a verification development

    The repository is a fork of SQLite with Rust services around it.  This
    development covers the engine in C under [src/sqlanywhere-sqlite3/src/]:
    its write-ahead log, from single frames up to crashes and concurrent readers,
    the space on the pages of its B-trees and the list of free pages, the records in
    the cells and their order, its journals in memory and one of its allocators, and
    the data structures and conversions the engine is built on.

    ** The program

    A database is a file of pages.  A commit appends frames, one for each
    changed page, to a log file ([walFrames] in [wal.c]); frames carry salts and a running
    checksum, so that the committed prefix can be told from the rest after a crash
    ([walIndexRecover]).  A hash index in shared memory finds the latest frame of a
    page ([walIndexAppend], [walFindFrame]); its header is read without locks ([walIndexTryHdr]).
    A reader fixes a read mark ([walTryBeginRead]) and sees the frames up to it; a
    checkpoint ([walCheckpoint]) copies pages back to the database file as far as no
    reader needs the old ones; the call of the interface ([sqlite3WalCheckpoint]) takes the
    locks around it and may wait for readers.  The locks are those of [unixShmLock] in
    [os_unix.c], counted in a process and advisory locks of a file between processes.

    The pages belong to B-trees ([btree.c]).  A page has a header, an array of
    pointers to cells, and the cells; the space between is a gap, a list of free
    blocks and fragments of up to three bytes ([allocateSpace], [freeSpace],
    [defragmentPage]).  Pages of no B-tree are on a list of trunks and leaves
    ([allocateBtreePage], [freePage2]); with auto-vacuum, pointer maps have an entry for
    each page.  The cells hold records, which OP_MakeRecord of [vdbe.c] makes from values;
    [vdbeaux.c] reads them back and compares them with the keys of searches, by one of three
    functions.  Statement journals and those of temporary databases start in
    memory as lists of chunks and become files when they grow ([memjournal.c]).
    With [SQLITE_ENABLE_MEMSYS5] all memory comes from a buddy allocator on one static
    buffer ([mem5.c]).  All parts use the helpers of [util.c], [hash.c],
    [bitvec.c] and [rowset.c].

    ** The files

    - [Prelude.v]: C operators, machine integers with their wrap-around, arrays,
      the option monad, allocation outcomes, tactics and hints.
    - [Varint.v], [Bytes.v]: variable-length integers and big-endian words ([util.c]).
    - [FileIO.v], [OpenAddr.v]: files as byte lists with failing and torn writes;
      open addressing, shared by [Bitvec.v] and [WalIndex.v].
    - [Bitvec.v]: [bitvec.c], sets of page numbers.
    - [WalBase.v], [WalFrame.v]: constants and structures of the log, checksums,
      the frame codec.
    - [WalIndex.v]: hash tables of the wal-index.  [WalIter.v]: merge sort of frames and
      the two iterators.  [WalHdr.v]: header publication and the lock-free read,
      byte by byte.
    - [WalCkpt.v]: the checkpoint.  [WalRecover.v]: recovery.  [WalRead.v]: read
      transactions, and [readDbPage] of [pager.c].
    - [ShmLock.v], [ShmSpec.v]: locks on the wal-index ([os_unix.c]), and that they are
      readers-writer locks.  [WalLive.v]: [sqlite3WalCheckpoint], and that it does not wait for
      ever.
    - [WalWrite.v], [WalTxn.v], [WalCommit.v]: write transactions, their invariant, and
      commit, rollback and savepoints with crashes.
    - [Text.v], [Ints.v], [NumText.v], [Literals.v]: characters, checked arithmetic, numbers,
      blobs and names as text ([util.c], [global.c]).
    - [Hash.v]: [hash.c], symbol tables.
    - [RowSet.v]: [rowset.c], with [RowList.v] (lists and sorting), [RowTree.v]
      (trees), [RowForest.v] (the forest) and [RowSpec.v] (invariant and theorems).
    - [BtBase.v], [BtCell.v], [BtPage.v]: constants and structures of B-tree pages, the cell
      parsers and the operations on one page ([btree.c]).  [BtLayout.v], [BtSpace.v],
      [BtRep.v], [BtDefrag.v], [BtSpec.v]: regions of a page, free blocks, the
      representation of a page, and the lemmas of each operation.  [BtRefine.v]: pages refine
      sequences of cells.  [BtSafe.v]: pages with arbitrary bytes.
    - [BtFree.v]: free pages and pointer maps ([btree.c]), in a state monad.  [BtFreeWp.v]: its
      rules, and corrupt lists.  [BtFreeList.v], [BtFreeOps.v]: the list on its pages and what the
      operations do to it.  [BtFreeSpec.v]: free pages are a set.
    - [Double.v]: floating point numbers as their 64 bits.  [VdbeMem.v]: cells of values and
      their comparison.  [VdbeRec.v]: serial types, records and OP_MakeRecord.  [RecSpec.v]: the
      format of records.  [RecMake.v]: the round trip.  [VdbeCmp.v]: comparisons of records.
      [RecCmp.v]: their order and equivalence.  [RecSafe.v]: records with arbitrary bytes.
    - [MemJournal.v]: [memjournal.c] and the wrappers of [os.c].  [MemJrnlRep.v]: chunks
      and their contents.  [MemJrnlSpec.v]: journals refine files.
    - [Mem5.v]: [mem5.c].  [Mem5Inv.v]: free lists, blocks and buddies.  [Mem5Spec.v]: the lemmas
      of each operation.  [Mem5Heap.v]: the allocator refines a heap.

    ** How code is modelled

    Each C function is a function of the same name; a loop is a function of its own.
    Integers are [Z] with the wrap-around of their type written out; bytes are [Z]
    between 0 and 255.  Arrays are lists; an access outside of an array, or through a
    pointer to nothing live, makes the whole function return [None], so that every
    theorem that gives a result also shows that no such access happens.  Linked
    structures are finite maps from addresses to records, and are changed in place
    as the code changes them.  What comes from outside is an input: results of locks
    and allocations, outcomes of reads, writes and syncs, contents of shared memory at
    each look, random numbers, callbacks.  Loops that are not structural run on fuel
    that the definition computes from its data (the number of entries in a heap, of
    slots in a table, the hundred retries of the code); the theorems show a result,
    hence that it is enough.

    ** What is proved

    - Log: a successful commit is in the log and is found by recovery whatever
      follows it in the file ([walFrames_commit], [walFrames_durable]), pages spilled
      before the commit are not ([walFrames_spill]), rollback and savepoints restore
      index and file ([sqlite3WalUndo_restores], [sqlite3WalSavepointUndo_restores]),
      recovery takes exactly the committed frames of a log
      ([walIndexRecover_committed]) and nothing without a valid header
      ([walIndexRecover_rejects]).
    - Isolation: a reader keeps reading the same contents ([readDbPage_isolated]) and a
      checkpoint never takes them away ([walCheckpoint_isolates_readers],
      [walCheckpoint_preserves_content]), and completes without obstacles
      ([walCheckpoint_completes]); a lock-free read of the header is never torn
      ([walIndexTryHdr_not_torn]); with a wal-index in shared memory, whatever its
      contents, the retry loop ends ([walBeginReadTransaction_ends]).
    - Locks: those of all processes refine readers-writer locks
      ([unixShmLock_refines_rwlock]); a checkpoint that waits for readers is done at some time if
      each reader that is waited for ends, nothing else hinders it, and a read mark stands at the end
      of the log ([sqlite3WalCheckpoint_live]).
    - Index: the wal-index refines the list of logged pages ([walIndex_refines_log]),
      sorting and iterators give the latest frames ([walMergesort_latest],
      [walIteratorRevInit_records]).
    - Formats: round trips and equivalences of checksums, frames, varints, words and
      texts, on hosts of both byte orders where it matters; an alteration of one
      unit of a frame is detected ([walDecodeFrame_detects]).
    - Structures: symbol tables refine maps and row sets refine sets whatever
      allocations fail ([sqlite3Hash_refines_map], [sqlite3RowSet_refines_set]); bit
      vectors refine sets as long as none fails ([bitvec_refines_set]), and an
      insertion that fails adds nothing else ([sqlite3BitvecSet_any_heap]).  Symbol
      tables stay well formed, trees balanced, and all memory of a row set is given back.
    - Pages: a page under insertions and removals of cells is a sequence of cells and
      refuses one only if it does not fit ([btreePage_refines_cells]);
      defragmentation leaves one gap ([defragmentPage_compacts]); on corrupt pages the
      operations stay in the page and return ([freeblocks_safe]); the two parsers of
      cells agree ([xCellSize_parse]).
    - Free pages: allocation takes from a set, and freeing adds to it, while pages in use keep
      their contents ([btreeFreelist_refines_set]); with corrupt lists the operations return,
      stay in the pages and give all references back ([freelist_safe]).
    - Records: what OP_MakeRecord makes is read back ([OP_MakeRecord_roundtrip]); values have a
      total order in which integers and floating point numbers are compared exactly
      ([sqlite3MemCompare_orders]), records are compared by it, column by column
      ([sqlite3VdbeRecordCompare_orders]), the faster functions and that of debug builds give
      the same ([sqlite3VdbeFindCompare_equiv]), and none reads beyond 74 bytes after a
      record ([sqlite3VdbeRecord_safe]).
    - Memory: a journal is a file, before and after it is spilled
      ([sqlite3Journal_refines_file]); the buddy allocator is a heap of disjoint
      blocks, and fails only without an aligned place ([memsys5_refines_heap]).
    - Flaws: a rollback to a savepoint can lose a later commit, since [iReCksum]
      stays as it is, also beyond the first frame after the savepoint
      ([sqlite3WalSavepointUndo_loses_commit]); the reverse iterator of a checkpoint
      skips pages below a stale [minFrame] ([walIteratorRevInit_minFrame]);
      [sqlite3GetUInt32] takes the text of 2^32 for 0 ([sqlite3GetUInt32_value]).

    ** Bounds

    Whole log files have a page size that is a power of two from 512 to 65536, as
    the code checks; single frames need a multiple of 8.  Frame and page numbers
    are 32 bits wide.  Pages of B-trees have up to 65536 bytes.  Records are shorter than 2^31
    bytes, those compared by the faster functions not longer than the limit of 10^9; the loops over
    the fields of a key have the number of its cells as fuel.  The buffer of the buddy
    allocator has fewer than 2^31 bytes and its least request is at most 4096, as
    [sqlite3_config] ensures; its loops run over the 31 sizes of blocks.  A row set has
    fewer than 2^40 rowids, for the 40 buckets of its sort; a 64-bit host and its pointer size are assumed where a size of a
    structure matters ([hash.c], [bitvec.c], [rowset.c]).

    ** Not modelled

    Arithmetic of floating point numbers and their conversion from and to text ([sqlite3AtoF],
    [sqlite3FpDecode], the vector types): only their comparison and the conversion of integers
    are.  Opening and closing of the log, which are calls of the VFS; the build options for
    snapshots, lock timeouts and encryption, which are off; the pager (but for
    [readDbPage]; free pages use it by its contract), cursors, balancing and incremental vacuum
    of B-trees, the other allocators.  Of the virtual machine only records and values are modelled:
    not the affinities that OP_MakeRecord applies first, nor the other opcodes; collating
    sequences and the conversion of text encodings are parameters.  Parser and code
    generation are not modelled, nor are the Rust services, which are asynchronous I/O around
    the engine.  Memory ordering is that of the barriers in the code, with every
    interleaving of single bytes between them ([WalHdr.v]). *)

From stdpp Require Export base list gmap sets sorting.
From Stdlib Require Export ZArith Lia.
From Stdlib Require Import Btauto.

(** ** Scope and notations *)

Declare Scope c_scope.
Delimit Scope c_scope with C.
Open Scope Z_scope.

(** The C operators on integers, with the precedences of C between them and
    above [+]; every use writes its own wrap-around. *)
Infix "<<" := Z.shiftl (at level 52, left associativity) : c_scope.
Infix ">>" := Z.shiftr (at level 52, left associativity) : c_scope.
Infix ".&" := Z.land (at level 54, left associativity) : c_scope.
Infix ".|" := Z.lor (at level 56, left associativity) : c_scope.
Open Scope c_scope.

(** ** Machine-width integers *)

Definition u8 (x : Z) : Z := x mod 2 ^ 8.
Definition u16 (x : Z) : Z := x mod 2 ^ 16.
Definition u32 (x : Z) : Z := x mod 2 ^ 32.
Definition u64 (x : Z) : Z := x mod 2 ^ 64.

(** Conversion to a signed type of [w] bits, as gcc and clang define it. *)
Definition swrap (w x : Z) : Z := (x + 2 ^ (w - 1)) mod 2 ^ w - 2 ^ (w - 1).
Definition i32 (x : Z) : Z := swrap 32 x.
Definition i64 (x : Z) : Z := swrap 64 x.

Definition is_u8 (x : Z) : Prop := 0 <= x < 2 ^ 8.
Definition is_u16 (x : Z) : Prop := 0 <= x < 2 ^ 16.
Definition is_u32 (x : Z) : Prop := 0 <= x < 2 ^ 32.
Definition is_u64 (x : Z) : Prop := 0 <= x < 2 ^ 64.
Definition is_i64 (x : Z) : Prop := - 2 ^ 63 <= x < 2 ^ 63.

Lemma u8_range x : is_u8 (u8 x).
Proof. apply Z.mod_pos_bound. lia. Qed.
Lemma u16_range x : is_u16 (u16 x).
Proof. apply Z.mod_pos_bound. lia. Qed.
Lemma u32_range x : is_u32 (u32 x).
Proof. apply Z.mod_pos_bound. lia. Qed.
Lemma u64_range x : is_u64 (u64 x).
Proof. apply Z.mod_pos_bound. lia. Qed.
Lemma u8_id x : is_u8 x -> u8 x = x.
Proof. apply Z.mod_small. Qed.
Lemma u32_id x : is_u32 x -> u32 x = x.
Proof. apply Z.mod_small. Qed.
Lemma i32_id x : - 2 ^ 31 <= x < 2 ^ 31 -> i32 x = x.
Proof. intros H. unfold i32, swrap. change (32 - 1) with 31. rewrite Z.mod_small by lia. lia. Qed.
Lemma u64_id x : is_u64 x -> u64 x = x.
Proof. apply Z.mod_small. Qed.

Create HintDb cint.
#[export] Hint Resolve u8_range u16_range u32_range u64_range : cint.

(** [div]/[mod] goals for [lia]. *)
Ltac zdm := Z.div_mod_to_equations; lia.

(** ** Bit fields as arithmetic *)

Lemma lor_add_low k x y :
  0 <= k -> 0 <= y < 2 ^ k -> (x * 2 ^ k) .| y = x * 2 ^ k + y.
Proof.
  intros Hk Hy. symmetry.
  rewrite <- Z.shiftl_mul_pow2 by lia.
  assert (Hland : Z.land (Z.shiftl x k) y = 0).
  { apply Z.bits_inj'. intros n Hn. rewrite Z.land_spec, Z.bits_0.
    destruct (decide (n < k)).
    - rewrite Z.shiftl_spec_low by lia. done.
    - rewrite <- (Z.mod_small y (2 ^ k)) by lia.
      rewrite Z.mod_pow2_bits_high by lia. apply andb_false_r. }
  rewrite Z.add_nocarry_lxor by done.
  by apply Z.lxor_lor.
Qed.

Lemma land_split k x y m n :
  0 <= k -> 0 <= y < 2 ^ k -> 0 <= n < 2 ^ k ->
  (x * 2 ^ k + y) .& (m * 2 ^ k + n) = (x .& m) * 2 ^ k + (y .& n).
Proof.
  intros Hk Hy Hn.
  assert (Hyn : 0 <= y .& n < 2 ^ k).
  { split; [apply Z.land_nonneg; lia|].
    rewrite <- (Z.mod_small y (2 ^ k)), <- (Z.mod_small n (2 ^ k)) by lia.
    rewrite <- !Z.land_ones by lia.
    replace ((y .& Z.ones k) .& (n .& Z.ones k)) with ((y .& n) .& Z.ones k).
    - rewrite Z.land_ones by lia. apply Z.mod_pos_bound. lia.
    - apply Z.bits_inj'. intros i Hi. rewrite !Z.land_spec. btauto. }
  rewrite <- !lor_add_low by lia.
  rewrite <- !Z.shiftl_mul_pow2 by lia.
  apply Z.bits_inj'. intros i Hi.
  rewrite !Z.land_spec, !Z.lor_spec, !Z.land_spec.
  destruct (decide (i < k)).
  - rewrite !Z.shiftl_spec_low by lia. btauto.
  - rewrite !Z.shiftl_spec by lia. rewrite Z.land_spec.
    rewrite <- (Z.mod_small y (2 ^ k)), <- (Z.mod_small n (2 ^ k)) by lia.
    rewrite !Z.mod_pow2_bits_high by lia. btauto.
Qed.

Lemma land_ones_mod x k m : 0 <= k -> m = 2 ^ k - 1 -> x .& m = x mod 2 ^ k.
Proof.
  intros ? ->. rewrite <- Z.land_ones by lia. f_equal. rewrite Z.ones_equiv. lia.
Qed.

Lemma lor_split k x y m n :
  0 <= k -> 0 <= y < 2 ^ k -> 0 <= n < 2 ^ k ->
  (x * 2 ^ k + y) .| (m * 2 ^ k + n) = (x .| m) * 2 ^ k + (y .| n).
Proof.
  intros Hk Hy Hn.
  assert (Hyn : 0 <= y .| n < 2 ^ k).
  { split; [apply Z.lor_nonneg; lia|].
    rewrite <- (Z.mod_small y (2 ^ k)), <- (Z.mod_small n (2 ^ k)) by lia.
    rewrite <- !Z.land_ones, <- Z.land_lor_distr_l by lia.
    rewrite Z.land_ones by lia. apply Z.mod_pos_bound. lia. }
  rewrite <- !lor_add_low by lia.
  rewrite <- !Z.shiftl_mul_pow2, Z.shiftl_lor by lia.
  apply Z.bits_inj'. intros i Hi. rewrite !Z.lor_spec. btauto.
Qed.

Lemma land_0x7f x : x .& 0x7f = x mod 128.
Proof. by apply (land_ones_mod x 7). Qed.

Lemma land_0xff x : x .& 0xff = x mod 256.
Proof. by apply (land_ones_mod x 8). Qed.

(** The test [!(x & 0x80)] reads bit 7 of the low byte. *)
Lemma bit7_clear x : (x .& 0x80 =? 0) = (x mod 256 <? 128).
Proof.
  assert (H : x .& 0x80 = (x / 128) mod 2 * 128).
  { replace (x .& 0x80) with ((x / 128 * 2 ^ 7 + x mod 128) .& (1 * 2 ^ 7 + 0))
      by (f_equal; zdm).
    rewrite land_split by (try apply Z.mod_pos_bound; lia).
    rewrite Z.land_0_r, (land_ones_mod _ 1), Z.add_0_r by done. done. }
  rewrite H. destruct (Z.ltb_spec (x mod 256) 128); [apply Z.eqb_eq|apply Z.eqb_neq]; zdm.
Qed.

(** Testing a bit with a shifted mask. *)
Lemma bit_test b k : 0 <= k -> negb (b .& (1 << k) =? 0) = Z.testbit b k.
Proof.
  intros Hk. rewrite Z.shiftl_1_l. destruct (Z.testbit b k) eqn:E.
  - apply negb_true_iff, Z.eqb_neq. intros H. apply (f_equal (fun x => Z.testbit x k)) in H.
    rewrite Z.land_spec, Z.pow2_bits_true, E, Z.bits_0 in H by lia. done.
  - apply negb_false_iff, Z.eqb_eq. apply Z.bits_inj'. intros n Hn.
    rewrite Z.land_spec, Z.bits_0, Z.pow2_bits_eqb by lia.
    destruct (Z.eqb_spec k n) as [->|]; [by rewrite E|apply andb_false_r].
Qed.

(** A step of the option monad. *)
Lemma bind_eq {A C} (x : option A) a (f : A -> option C) : x = Some a -> x ≫= f = f a.
Proof. by intros ->. Qed.

(** ** Result codes *)

Definition SQLITE_OK : Z := 0.
Definition SQLITE_ERROR : Z := 1.
Definition SQLITE_BUSY : Z := 5.
Definition SQLITE_NOMEM : Z := 7.
Definition SQLITE_READONLY : Z := 8.
Definition SQLITE_INTERRUPT : Z := 9.
Definition SQLITE_IOERR : Z := 10.
Definition SQLITE_CORRUPT : Z := 11.
Definition SQLITE_CANTOPEN : Z := 14.
Definition SQLITE_PROTOCOL : Z := 15.

(** ** Arrays

    A C array is the list of its elements; an index out of range is [None]. *)

Section Arrays.
Context {A : Type}.
Implicit Types (l : list A) (i j : Z) (v : A).

Definition aget l i : option A := if 0 <=? i then l !! Z.to_nat i else None.

Definition aset l i v : option (list A) :=
  if (0 <=? i) && (i <? Z.of_nat (length l)) then Some (<[Z.to_nat i := v]> l) else None.

Definition alen l : Z := Z.of_nat (length l).

Lemma aget_is_Some l i : 0 <= i < alen l -> is_Some (aget l i).
Proof.
  unfold aget, alen. intros. destruct (Z.leb_spec 0 i); [|lia]. apply lookup_lt_is_Some. lia.
Qed.

Lemma aget_range l i v : aget l i = Some v -> 0 <= i < alen l.
Proof.
  unfold aget, alen. destruct (Z.leb_spec 0 i); [|done]. intros H1%lookup_lt_Some. lia.
Qed.

Lemma aget_of_nat l (k : nat) : aget l (Z.of_nat k) = l !! k.
Proof. unfold aget. destruct (Z.leb_spec 0 (Z.of_nat k)); [|lia]. by rewrite Nat2Z.id. Qed.

Lemma aget_elem l v : v ∈ l <-> exists i, aget l i = Some v.
Proof.
  split.
  - intros [k Hk]%list_elem_of_lookup. exists (Z.of_nat k). by rewrite aget_of_nat.
  - intros [i Hi]. unfold aget in Hi. destruct (0 <=? i); [|done].
    by apply list_elem_of_lookup_2 in Hi.
Qed.

Lemma aset_in l i v : 0 <= i < alen l -> aset l i v = Some (<[Z.to_nat i := v]> l).
Proof.
  unfold aset, alen. intros. destruct (Z.leb_spec 0 i), (Z.ltb_spec i (Z.of_nat (length l))); lia || done.
Qed.

Lemma aset_Some l i v l' :
  aset l i v = Some l' -> 0 <= i < alen l /\ l' = <[Z.to_nat i := v]> l.
Proof.
  unfold aset, alen. destruct (Z.leb_spec 0 i), (Z.ltb_spec i (Z.of_nat (length l))); naive_solver.
Qed.

Lemma aset_alen l i v l' : aset l i v = Some l' -> alen l' = alen l.
Proof. intros [_ ->]%aset_Some. unfold alen. by rewrite length_insert. Qed.

Lemma aget_aset_eq l i v l' : aset l i v = Some l' -> aget l' i = Some v.
Proof.
  intros [? ->]%aset_Some. unfold aget, alen in *. destruct (Z.leb_spec 0 i); [|lia].
  apply list_lookup_insert_eq. lia.
Qed.

Lemma aget_aset_ne l i j v l' : aset l i v = Some l' -> i <> j -> aget l' j = aget l j.
Proof.
  intros [? ->]%aset_Some ?. unfold aget in *. destruct (Z.leb_spec 0 j); [|done].
  apply list_lookup_insert_ne. lia.
Qed.

Lemma aget_aset l i j v l' :
  aset l i v = Some l' -> aget l' j = if decide (j = i) then Some v else aget l j.
Proof.
  intros H. case_decide; subst; [by eapply aget_aset_eq|by eapply aget_aset_ne].
Qed.

Lemma aset_Forall (P : A -> Prop) l i v l' :
  aset l i v = Some l' -> Forall P l -> P v -> Forall P l'.
Proof. intros [_ ->]%aset_Some. apply Forall_insert. Qed.

Lemma aget_Forall (P : A -> Prop) l i v : Forall P l -> aget l i = Some v -> P v.
Proof. intros HF Hg. eapply Forall_forall; [done|]. apply aget_elem. eauto. Qed.

Lemma alen_nonneg l : 0 <= alen l.
Proof. unfold alen. lia. Qed.

Lemma alen_app l k : alen (l ++ k) = alen l + alen k.
Proof. unfold alen. rewrite length_app. lia. Qed.

Lemma alen_cons x l : alen (x :: l) = alen l + 1.
Proof. unfold alen. cbn [length]. lia. Qed.

Lemma aget_app_l l k i : i < alen l -> aget (l ++ k) i = aget l i.
Proof. unfold aget, alen. intros. destruct (Z.leb_spec 0 i); [|done]. apply lookup_app_l. lia. Qed.

Lemma aget_app_r l k i : alen l <= i -> aget (l ++ k) i = aget k (i - alen l).
Proof.
  unfold aget, alen. intros. destruct (Z.leb_spec 0 i), (Z.leb_spec 0 (i - Z.of_nat (length l))); try lia.
  rewrite lookup_app_r by lia. f_equal. lia.
Qed.

Lemma aget_at l x r : aget (l ++ x :: r) (alen l) = Some x.
Proof. rewrite aget_app_r by lia. by rewrite Z.sub_diag. Qed.

Lemma aset_at l x y r : aset (l ++ x :: r) (alen l) y = Some (l ++ y :: r).
Proof.
  rewrite aset_in by (rewrite alen_app, alen_cons; pose proof (alen_nonneg l); pose proof (alen_nonneg r); lia). f_equal. unfold alen.
  rewrite Nat2Z.id, insert_app_r_alt, Nat.sub_diag by lia. done.
Qed.

Lemma aget_snoc l v : aget (l ++ [v]) (alen l) = Some v.
Proof. rewrite aget_app_r by lia. by rewrite Z.sub_diag. Qed.

Lemma alen_take l n : 0 <= n <= alen l -> alen (take (Z.to_nat n) l) = n.
Proof. unfold alen. rewrite length_take. lia. Qed.

Lemma aget_take l n i : i < n -> aget (take (Z.to_nat n) l) i = aget l i.
Proof. unfold aget. intros. destruct (Z.leb_spec 0 i); [|done]. apply lookup_take_lt. lia. Qed.

Lemma aget_drop l n i : 0 <= n -> 0 <= i -> aget (drop (Z.to_nat n) l) i = aget l (n + i).
Proof.
  unfold aget. intros. destruct (Z.leb_spec 0 i), (Z.leb_spec 0 (n + i)); try lia.
  rewrite lookup_drop. f_equal. lia.
Qed.

Lemma aget_replicate (n : nat) i v : 0 <= i < Z.of_nat n -> aget (replicate n v) i = Some v.
Proof.
  intros. unfold aget. destruct (Z.leb_spec 0 i); [|lia]. apply lookup_replicate. split; [done|lia].
Qed.
End Arrays.

(** ** Allocation

    The outcomes of the successive allocations of a run, in order; an empty
    list stands for a heap that is never exhausted. *)
Definition alloc := list bool.

Definition malloc (al : alloc) : bool * alloc :=
  match al with [] => (true, []) | b :: al => (b, al) end.

Definition never_fails (al : alloc) : Prop := Forall (fun b => b = true) al.

Lemma malloc_never_fails al : never_fails al -> exists al', malloc al = (true, al') /\ never_fails al'.
Proof. intros H. destruct H as [|b al' -> H]; simpl; eexists; split; done || constructor. Qed.

(** ** Heaps *)

(** The number of distinct live addresses. *)
Lemma live_size {A} (h : gmap Z A) ps : NoDup ps -> (forall x, x ∈ ps -> exists e, h !! x = Some e) -> (length ps <= size h)%nat.
Proof.
  intros Hnd Hl. rewrite <- size_dom. transitivity (size (list_to_set ps : gset Z)); [by rewrite size_list_to_set|].
  apply subseteq_size. intros x Hx%elem_of_list_to_set. apply elem_of_dom. destruct (Hl x Hx) as [e E]. by eexists.
Qed.
