(* ===== verification/Varint.v ===== *)
(** * Variable-length integers ([src/util.c])

    [sqlite3PutVarint], [sqlite3GetVarint], [sqlite3GetVarint32] and
    [sqlite3VarintLen], the encoding of every record header, cell and rowid of
    the database file.  Memory from a pointer is the list of its bytes; a read
    past the list is [None]. *)
From S2P Require Import Prelude.

(** ** Encoder *)

(** The loop [do{ buf[n++] = (v&0x7f)|0x80; v >>= 7; }while( v!=0 )]. *)
Fixpoint putVarint64_buf (fuel : nat) (v : Z) : list Z :=
  match fuel with
  | O => []
  | S fuel =>
      let b := (v .& 0x7f) .| 0x80 in
      let v := v >> 7 in
      b :: (if v =? 0 then [] else putVarint64_buf fuel v)
  end.

(** The loop [for(i=7; i>=0; i--){ p[i] = (v&0x7f)|0x80; v >>= 7; }], whose
    [n] bytes are built from the last one back. *)
Fixpoint putVarint64_nine (n : nat) (v : Z) (tail : list Z) : list Z :=
  match n with
  | O => tail
  | S n => putVarint64_nine n (v >> 7) (u8 ((v .& 0x7f) .| 0x80) :: tail)
  end.

(** The return value and the bytes written from [p[0]] on. *)
Definition putVarint64 (v : Z) : Z * list Z :=
  if negb ((v .& (0xff000000 << 32)) =? 0) then
    (9, putVarint64_nine 8 (v >> 8) [u8 v])
  else
    let buf := putVarint64_buf 10 v in
    let buf := match buf with b :: r => (b .& 0x7f) :: r | [] => [] end in
    (Z.of_nat (length buf), rev buf).

Definition sqlite3PutVarint (v : Z) : Z * list Z :=
  if v <=? 0x7f then (1, [v .& 0x7f])
  else if v <=? 0x3fff then (2, [((v >> 7) .& 0x7f) .| 0x80; v .& 0x7f])
  else putVarint64 v.

(** ** Decoder *)

Definition SLOT_2_0 : Z := 0x001fc07f.
Definition SLOT_4_2_0 : Z := 0xf01fc07f.

(** The value stored in [*v] and the number of bytes read. *)
Definition sqlite3GetVarint (p : list Z) : option (Z * Z) :=
  p0 ← p !! 0%nat;
  if p0 <? 0x80 then Some (p0, 1) else
  p1 ← p !! 1%nat;
  if p1 <? 0x80 then Some ((u32 ((p0 .& 0x7f) << 7)) .| p1, 2) else
  let a := u32 (p0 << 14) in
  let b := p1 in
  p2 ← p !! 2%nat;
  let a := a .| p2 in
  if a .& 0x80 =? 0 then
    let a := a .& SLOT_2_0 in
    let b := b .& 0x7f in
    let b := u32 (b << 7) in
    let a := a .| b in
    Some (a, 3)
  else
  let a := a .& SLOT_2_0 in
  p3 ← p !! 3%nat;
  let b := u32 (b << 14) in
  let b := b .| p3 in
  if b .& 0x80 =? 0 then
    let b := b .& SLOT_2_0 in
    let a := u32 (a << 7) in
    let a := a .| b in
    Some (a, 4)
  else
  let b := b .& SLOT_2_0 in
  let s := a in
  p4 ← p !! 4%nat;
  let a := u32 (a << 14) in
  let a := a .| p4 in
  if a .& 0x80 =? 0 then
    let b := u32 (b << 7) in
    let a := a .| b in
    let s := s >> 18 in
    Some ((u64 (s << 32)) .| a, 5)
  else
  let s := u32 (s << 7) in
  let s := s .| b in
  p5 ← p !! 5%nat;
  let b := u32 (b << 14) in
  let b := b .| p5 in
  if b .& 0x80 =? 0 then
    let a := a .& SLOT_2_0 in
    let a := u32 (a << 7) in
    let a := a .| b in
    let s := s >> 18 in
    Some ((u64 (s << 32)) .| a, 6)
  else
  p6 ← p !! 6%nat;
  let a := u32 (a << 14) in
  let a := a .| p6 in
  if a .& 0x80 =? 0 then
    let a := a .& SLOT_4_2_0 in
    let b := b .& SLOT_2_0 in
    let b := u32 (b << 7) in
    let a := a .| b in
    let s := s >> 11 in
    Some ((u64 (s << 32)) .| a, 7)
  else
  let a := a .& SLOT_2_0 in
  p7 ← p !! 7%nat;
  let b := u32 (b << 14) in
  let b := b .| p7 in
  if b .& 0x80 =? 0 then
    let b := b .& SLOT_4_2_0 in
    let a := u32 (a << 7) in
    let a := a .| b in
    let s := s >> 4 in
    Some ((u64 (s << 32)) .| a, 8)
  else
  p8 ← p !! 8%nat;
  let a := u32 (a << 15) in
  let a := a .| p8 in
  let b := b .& SLOT_2_0 in
  let b := u32 (b << 8) in
  let a := a .| b in
  let s := u32 (s << 4) in
  let b := p4 in
  let b := b .& 0x7f in
  let b := b >> 3 in
  let s := s .| b in
  Some ((u64 (s << 32)) .| a, 9).

Definition SQLITE_MAX_U32 : Z := 2 ^ 32 - 1.

(** Called only when bit 7 of [p[0]] is set: the [getVarint32] macro handles
    the one-byte case. *)
Definition sqlite3GetVarint32 (p : list Z) : option (Z * Z) :=
  p0 ← p !! 0%nat;
  p1 ← p !! 1%nat;
  if p1 .& 0x80 =? 0 then Some (((p0 .& 0x7f) << 7) .| p1, 2) else
  p2 ← p !! 2%nat;
  if p2 .& 0x80 =? 0 then
    Some ((((p0 .& 0x7f) << 14) .| ((p1 .& 0x7f) << 7)) .| p2, 3) else
  '(v64, n) ← sqlite3GetVarint p;
  if negb (v64 .& SQLITE_MAX_U32 =? v64) then Some (0xffffffff, n)
  else Some (u32 v64, n).

(** The loop [for(i=1; (v >>= 7)!=0; i++)]. *)
Fixpoint sqlite3VarintLen_loop (fuel : nat) (i v : Z) : Z :=
  match fuel with
  | O => i
  | S fuel =>
      let v := v >> 7 in
      if v =? 0 then i else sqlite3VarintLen_loop fuel (i + 1) v
  end.

Definition sqlite3VarintLen (v : Z) : Z := sqlite3VarintLen_loop 10 1 v.

(** ** Reference decoder

    The encoding as the comment in [util.c] states it: up to eight bytes carry
    seven bits each, high bit set on all but the last; a ninth byte carries
    eight bits. *)
Fixpoint varint_ref (k : nat) (n acc : Z) (p : list Z) : option (Z * Z) :=
  match k, p with
  | _, [] => None
  | O, c :: _ => Some (acc * 256 + c, n + 1)
  | S k, b :: p =>
      if b <? 128 then Some (acc * 128 + b, n + 1)
      else varint_ref k (n + 1) (acc * 128 + (b - 128)) p
  end.

Definition varint_spec (p : list Z) : option (Z * Z) := varint_ref 8 0 0 p.

(** ** Numbers written in base 128 *)

Definition hz (x : Z) (l : list Z) : Z := fold_left (fun acc d => acc * 128 + d) l x.

Definition digit (d : Z) : Prop := 0 <= d < 128.

Lemma lor_hz l1 l2 : forall x y,
  length l1 = length l2 -> Forall digit l1 -> Forall digit l2 ->
  hz x l1 .| hz y l2 = hz (x .| y) (zip_with Z.lor l1 l2).
Proof.
  revert l2. induction l1 as [|d l1 IH]; intros [|e l2] x y Hlen H1 H2; simpl in *;
    try (lia || done).
  inversion H1; inversion H2; subst.
  unfold hz in *; simpl. rewrite IH by (done || lia).
  f_equal. by apply (lor_split 7).
Qed.

Lemma land_hz l1 l2 : forall x y,
  length l1 = length l2 -> Forall digit l1 -> Forall digit l2 ->
  hz x l1 .& hz y l2 = hz (x .& y) (zip_with Z.land l1 l2).
Proof.
  revert l2. induction l1 as [|d l1 IH]; intros [|e l2] x y Hlen H1 H2; simpl in *;
    try (lia || done).
  inversion H1; inversion H2; subst.
  unfold hz in *; simpl. rewrite IH by (done || lia).
  f_equal. by apply (land_split 7).
Qed.

Lemma mask_2_0 x y :
  0 <= y < 256 -> (x * 2 ^ 14 + y) .& SLOT_2_0 = x mod 128 * 2 ^ 14 + y mod 128.
Proof.
  intros Hy. change SLOT_2_0 with (127 * 2 ^ 14 + 127).
  rewrite land_split, !land_0x7f by lia. done.
Qed.

Lemma mask_4_2_0 x y z :
  0 <= x < 16 -> 0 <= y < 256 -> 0 <= z < 256 ->
  ((x * 2 ^ 14 + y) * 2 ^ 14 + z) .& SLOT_4_2_0
  = (x * 2 ^ 14 + y mod 128) * 2 ^ 14 + z mod 128.
Proof.
  intros Hx Hy Hz.
  change SLOT_4_2_0 with ((15 * 2 ^ 14 + 127) * 2 ^ 14 + 127).
  rewrite !land_split, !land_0x7f by lia.
  rewrite (land_ones_mod x 4), !(Z.mod_small x) by lia. lia.
Qed.

(** [u32 (x << k)] drops the bits above the word. *)
Lemma u32_shl x k : 0 <= k <= 32 -> u32 (x << k) = x mod 2 ^ (32 - k) * 2 ^ k.
Proof.
  intros Hk. unfold u32. rewrite Z.shiftl_mul_pow2 by lia.
  replace (2 ^ 32) with (2 ^ (32 - k) * 2 ^ k).
  - rewrite Z.mul_mod_distr_r by lia. done.
  - rewrite <- Z.pow_add_r by lia. f_equal. lia.
Qed.

(** A word of the decoder shifted by 14 with the next byte ored in. *)
Lemma shl14_or x y : 0 <= y < 256 -> u32 (x << 14) .| y = x mod 2 ^ 18 * 2 ^ 14 + y.
Proof. intros. rewrite u32_shl by lia. apply lor_add_low; lia. Qed.

Lemma shl14_pair x y z :
  0 <= y < 256 -> 0 <= z < 256 ->
  u32 ((x * 2 ^ 14 + y) << 14) .| z = (x mod 16 * 2 ^ 14 + y) * 2 ^ 14 + z.
Proof. intros. rewrite shl14_or by lia. zdm. Qed.

Lemma bit7_field x y : 0 <= y < 256 -> ((x * 2 ^ 14 + y) .& 0x80 =? 0) = (y <? 128).
Proof. intros. rewrite bit7_clear. replace ((x * 2 ^ 14 + y) mod 256) with y by zdm. done. Qed.

Lemma high_word s k a :
  0 <= k -> 0 <= s < 2 ^ 32 -> 0 <= a < 2 ^ 32 ->
  u64 ((s >> k) << 32) .| a = s / 2 ^ k * 2 ^ 32 + a.
Proof.
  intros Hk Hs Ha. rewrite Z.shiftr_div_pow2, Z.shiftl_mul_pow2 by lia.
  assert (0 <= s / 2 ^ k < 2 ^ 32)
    by (split; [apply Z.div_pos|apply Z.div_lt_upper_bound]; nia).
  rewrite u64_id by (unfold is_u64; lia). apply lor_add_low; lia.
Qed.

Lemma or_digits x y l1 l2 a b :
  a = hz x l1 -> b = hz y l2 ->
  length l1 = length l2 -> Forall digit l1 -> Forall digit l2 ->
  a .| b = hz (x .| y) (zip_with Z.lor l1 l2).
Proof. intros -> ->. apply lor_hz. Qed.

(** ** The words of each exit of the decoder

    [d0 .. d7] are the low seven bits of the bytes with the high bit set, [c]
    is the last byte. *)

Ltac hz_eq := unfold hz; cbn [fold_left]; lia.
Ltac hz_zdm := unfold hz, digit in *; cbn [fold_left]; zdm.
Ltac digits := repeat constructor; unfold digit in *; lia.
Ltac ored x l1 y l2 b :=
  rewrite (or_digits x y l1 l2 _ b) by (done || hz_eq || digits);
  cbn [zip_with]; rewrite ?Z.lor_0_r, ?Z.lor_0_l.

Section Exits.
Context (c d0 d1 : Z) (B0 : digit d0) (B1 : digit d1).

Lemma exit3 : digit c ->
  (d0 * 2 ^ 14 + c) .| u32 (d1 << 7) = hz 0 [d0; d1; c].
Proof.
  unfold digit in *. intros. rewrite u32_shl, Z.mod_small by lia.
  ored d0 [0; c] 0 [d1; 0] (d1 * 2 ^ 7). hz_eq.
Qed.

Context (d2 : Z) (B2 : digit d2).

Lemma exit4 : digit c ->
  u32 ((d0 * 2 ^ 14 + d2) << 7) .| (d1 * 2 ^ 14 + c) = hz d0 [d1; d2; c].
Proof.
  unfold digit in *. intros. rewrite u32_shl, Z.mod_small by lia.
  ored d0 [0; d2; 0] 0 [d1; 0; c] (d1 * 2 ^ 14 + c). done.
Qed.

Context (d3 : Z) (B3 : digit d3).

Lemma exit5 : digit c ->
  u64 ((d0 * 2 ^ 14 + d2) >> 18 << 32)
  .| ((d0 mod 16 * 2 ^ 14 + d2) * 2 ^ 14 + c .| u32 ((d1 * 2 ^ 14 + d3) << 7))
  = hz 0 [d0; d1; d2; d3; c].
Proof.
  unfold digit in *. intros. rewrite u32_shl, (Z.mod_small (_ + _)) by lia.
  ored (d0 mod 16) [0; d2; 0; c] 0 [d1; 0; d3; 0] ((d1 * 2 ^ 14 + d3) * 2 ^ 7).
  rewrite high_word by hz_zdm. hz_zdm.
Qed.

Context (d4 : Z) (B4 : digit d4).

Lemma exit6 : digit c ->
  u64 (hz d0 [d1; d2; d3] >> 18 << 32)
  .| (u32 ((d2 * 2 ^ 14 + d4) << 7) .| ((d1 mod 16 * 2 ^ 14 + d3) * 2 ^ 14 + c))
  = hz 0 [d0; d1; d2; d3; d4; c].
Proof.
  unfold digit in *. intros. rewrite u32_shl, (Z.mod_small (_ + _)) by lia.
  ored 0 [d2; 0; d4; 0] (d1 mod 16) [0; d3; 0; c]
    ((d1 mod 16 * 2 ^ 14 + d3) * 2 ^ 14 + c).
  rewrite high_word by hz_zdm. hz_zdm.
Qed.

Context (d5 : Z) (B5 : digit d5).

Lemma exit7 : digit c ->
  u64 (hz d0 [d1; d2; d3] >> 11 << 32)
  .| ((d2 mod 16 * 2 ^ 14 + d4) * 2 ^ 14 + c .| u32 ((d3 * 2 ^ 14 + d5) << 7))
  = hz 0 [d0; d1; d2; d3; d4; d5; c].
Proof.
  unfold digit in *. intros. rewrite u32_shl, (Z.mod_small (_ + _)) by lia.
  ored (d2 mod 16) [0; d4; 0; c] 0 [d3; 0; d5; 0] ((d3 * 2 ^ 14 + d5) * 2 ^ 7).
  rewrite high_word by hz_zdm. hz_zdm.
Qed.

Context (d6 : Z) (B6 : digit d6).

Lemma exit8 : digit c ->
  u64 (hz d0 [d1; d2; d3] >> 4 << 32)
  .| (u32 ((d4 * 2 ^ 14 + d6) << 7) .| ((d3 mod 16 * 2 ^ 14 + d5) * 2 ^ 14 + c))
  = hz 0 [d0; d1; d2; d3; d4; d5; d6; c].
Proof.
  unfold digit in *. intros. rewrite u32_shl, (Z.mod_small (_ + _)) by lia.
  ored 0 [d4; 0; d6; 0] (d3 mod 16) [0; d5; 0; c]
    ((d3 mod 16 * 2 ^ 14 + d5) * 2 ^ 14 + c).
  rewrite high_word by hz_zdm. hz_zdm.
Qed.

Context (d7 : Z) (B7 : digit d7).

Lemma exit9 : 0 <= c < 256 ->
  u64 ((u32 (hz d0 [d1; d2; d3] << 4) .| d4 >> 3) << 32)
  .| (u32 ((d4 * 2 ^ 14 + d6) << 15) .| c .| u32 ((d5 * 2 ^ 14 + d7) << 8))
  = hz 0 [d0; d1; d2; d3; d4; d5; d6; d7] * 256 + c.
Proof.
  intros Hc.
  replace (u32 ((d4 * 2 ^ 14 + d6) << 15) .| c)
    with (hz (d4 mod 8) [0; d6; 0] * 2 ^ 8 + c)
    by (rewrite u32_shl, lor_add_low by lia; hz_zdm).
  replace (u32 ((d5 * 2 ^ 14 + d7) << 8)) with (hz 0 [d5; 0; d7] * 2 ^ 8 + 0)
    by (unfold digit in *; rewrite u32_shl, Z.mod_small by lia; hz_eq).
  rewrite lor_split, lor_hz by (done || digits || lia).
  cbn [zip_with]. rewrite ?Z.lor_0_r, ?Z.lor_0_l.
  replace (u32 (hz d0 [d1; d2; d3] << 4) .| d4 >> 3)
    with (hz d0 [d1; d2; d3] * 2 ^ 4 + d4 / 2 ^ 3)
    by (rewrite u32_shl, Z.mod_small, Z.shiftr_div_pow2, lor_add_low by hz_zdm; done).
  rewrite <- (Z.shiftr_0_r (_ * 2 ^ 4 + _)), high_word by hz_zdm. hz_zdm.
Qed.
End Exits.

(** ** The unrolled decoder computes the reference decoding *)

(** Exposes the next byte [q] of [p], reads it and unfolds the reference. *)
Ltac expose p q Hq :=
  lazymatch goal with
  | H : Forall is_u8 p |- _ =>
      destruct p as [|q p]; [done|];
      let H' := fresh in
      inversion H as [|? ? Hq H']; subst; clear H; rename H' into H; unfold is_u8 in Hq
  end;
  lazymatch goal with
  | |- mbind ?k _ = ?r =>
      let r' := eval cbn [varint_ref] in r in change (k q = r'); cbv beta zeta
  end.

(** Names the low seven bits [d] of a byte [q] whose high bit is set. *)
Ltac name_digit q d B :=
  set (d := q - 128); assert (B : digit d) by (unfold digit, d; lia);
  replace (q mod 128) with d by (unfold d; zdm).

Ltac exit_by E :=
  rewrite E by (done || (unfold digit; lia)); f_equal; f_equal; hz_eq.

Lemma getvarint_is_spec p : Forall is_u8 p -> sqlite3GetVarint p = varint_spec p.
Proof.
  intros Hp. unfold sqlite3GetVarint, varint_spec.
  expose p p0 H0. destruct (Z.ltb_spec p0 128) as [L0|L0]; [done|].
  expose p p1 H1. rewrite !land_0x7f. name_digit p0 d0 B0.
  destruct (Z.ltb_spec p1 128) as [L1|L1].
  { rewrite u32_shl, Z.mod_small, lor_add_low by (unfold digit in *; lia).
    f_equal; f_equal; hz_eq. }
  name_digit p1 d1 B1.
  expose p p2 H2. rewrite shl14_or, (Z.mod_small p0), bit7_field, mask_2_0 by lia.
  replace (p0 mod 128) with d0 by (unfold d0; zdm).
  destruct (Z.ltb_spec p2 128) as [L2|L2].
  { rewrite Z.mod_small by lia. exit_by exit3. }
  name_digit p2 d2 B2.
  expose p p3 H3. rewrite shl14_or, (Z.mod_small p1), bit7_field, mask_2_0 by lia.
  replace (p1 mod 128) with d1 by (unfold d1; zdm).
  destruct (Z.ltb_spec p3 128) as [L3|L3].
  { rewrite Z.mod_small by lia. exit_by exit4. }
  name_digit p3 d3 B3.
  expose p p4 H4. rewrite shl14_pair, bit7_field by (unfold digit in *; lia).
  destruct (Z.ltb_spec p4 128) as [L4|L4]; [exit_by exit5|].
  rewrite exit4 by done.
  expose p p5 H5. rewrite shl14_pair, bit7_field, !mask_2_0 by (unfold digit in *; lia).
  name_digit p4 d4 B4.
  replace ((d0 mod 16 * 2 ^ 14 + d2) mod 128) with d2 by (unfold digit in *; zdm).
  destruct (Z.ltb_spec p5 128) as [L5|L5]; [exit_by exit6|].
  expose p p6 H6. rewrite shl14_pair, bit7_field, !mask_2_0 by (unfold digit in *; lia).
  replace ((d0 mod 16 * 2 ^ 14 + d2) mod 16) with (d2 mod 16) by zdm.
  name_digit p5 d5 B5.
  replace ((d1 mod 16 * 2 ^ 14 + d3) mod 128) with d3 by (unfold digit in *; zdm).
  replace ((d2 mod 16 * 2 ^ 14 + p4) mod 128) with d4 by (unfold d4; zdm).
  destruct (Z.ltb_spec p6 128) as [L6|L6].
  { rewrite mask_4_2_0, (Z.mod_small p6) by zdm.
    replace (p4 mod 128) with d4 by (unfold d4; zdm). exit_by exit7. }
  name_digit p6 d6 B6.
  expose p p7 H7. rewrite shl14_pair, bit7_field, !mask_2_0 by (unfold digit in *; lia).
  replace ((d1 mod 16 * 2 ^ 14 + d3) mod 16) with (d3 mod 16) by zdm.
  replace ((d3 mod 16 * 2 ^ 14 + p5) mod 128) with d5 by (unfold d5; zdm).
  destruct (Z.ltb_spec p7 128) as [L7|L7].
  { rewrite mask_4_2_0, (Z.mod_small p7) by zdm.
    replace (p5 mod 128) with d5 by (unfold d5; zdm). exit_by exit8. }
  name_digit p7 d7 B7.
  expose p p8 H8. rewrite land_0x7f.
  replace (p4 mod 128) with d4 by (unfold d4; zdm). exit_by exit9.
Qed.

(** ** The encoder in base 128 *)

(** The [n] low digits of [v], most significant first. *)
Fixpoint be (n : nat) (v : Z) : list Z :=
  match n with O => [] | S n => be n (v / 128) ++ [v mod 128] end.

Definition cont (ds : list Z) : list Z := map (fun d => d + 128) ds.

Lemma be_digits n v : Forall digit (be n v).
Proof.
  revert v. induction n as [|n IH]; intros v; simpl; [done|].
  apply Forall_app; split; [apply IH|]. repeat constructor; zdm.
Qed.

Lemma be_length n v : length (be n v) = n.
Proof. revert v. induction n as [|n IH]; intros v; simpl; [done|]. rewrite length_app, IH. simpl. lia. Qed.

Lemma hz_be n v acc : hz acc (be n v) = acc * 128 ^ Z.of_nat n + v mod 128 ^ Z.of_nat n.
Proof.
  revert v. induction n as [|n IH]; intros v; [cbn; rewrite Z.mod_1_r; lia|].
  cbn [be]. unfold hz in *. rewrite fold_left_app, IH. cbn [fold_left].
  rewrite Nat2Z.inj_succ, Z.pow_succ_r by lia.
  rewrite (Z.mul_comm 128 (128 ^ _)), (Z.mul_comm (128 ^ _) 128), Z.rem_mul_r by lia. lia.
Qed.

Lemma ref_cont ds rest : Forall digit ds -> forall k n acc,
  varint_ref (length ds + k) n acc (cont ds ++ rest)
  = varint_ref k (n + Z.of_nat (length ds)) (hz acc ds) rest.
Proof.
  induction 1 as [|d ds Hd _ IH]; intros k n acc; cbn [length cont map app plus varint_ref].
  - f_equal. lia.
  - unfold digit in Hd. destruct (Z.ltb_spec (d + 128) 128); [lia|].
    fold (cont ds). rewrite IH. cbn [hz fold_left]. f_equal; [lia|]. unfold hz. f_equal. lia.
Qed.

Lemma byte_cont v : 0 <= v -> (v .& 0x7f) .| 0x80 = v mod 128 + 128.
Proof.
  intros. rewrite land_0x7f, Z.lor_comm.
  change 0x80 with (1 * 2 ^ 7). rewrite lor_add_low by zdm. lia.
Qed.

Lemma shr7 v : v >> 7 = v / 128.
Proof. by rewrite Z.shiftr_div_pow2. Qed.

Lemma nine_be n v tail : 0 <= v -> putVarint64_nine n v tail = cont (be n v) ++ tail.
Proof.
  revert v tail. induction n as [|n IH]; intros v tail Hv; [done|].
  cbn [putVarint64_nine be]. rewrite shr7, IH, byte_cont by zdm.
  unfold cont. rewrite map_app, <- app_assoc. simpl.
  rewrite u8_id by (unfold is_u8; zdm). done.
Qed.

Lemma buf_be fuel v : 0 <= v < 128 ^ Z.of_nat fuel -> (0 < fuel)%nat -> exists m,
  (S m <= fuel)%nat /\ v < 128 ^ Z.of_nat (S m) /\ (m = O \/ 128 ^ Z.of_nat m <= v) /\
  putVarint64_buf fuel v = rev (cont (be (S m) v)).
Proof.
  revert v. induction fuel as [|fuel IH]; intros v Hv Hf; [lia|].
  cbn [putVarint64_buf]. rewrite shr7, byte_cont by lia.
  rewrite Nat2Z.inj_succ, Z.pow_succ_r in Hv by lia.
  destruct (Z.eqb_spec (v / 128) 0) as [E|E].
  - exists O. split_and!; [lia|change (128 ^ Z.of_nat 1) with 128; zdm|by left|].
    cbn. rewrite Z.mod_small by zdm. done.
  - destruct (IH (v / 128)) as (m & Hm & Hlt & Hge & ->).
    { zdm. }
    { destruct fuel; [|lia]. cbn in Hv. zdm. }
    exists (S m). rewrite !Nat2Z.inj_succ, !Z.pow_succ_r in * by lia.
    split_and!; [lia|zdm| |].
    + right. destruct Hge as [->|Hge]; [change (128 ^ Z.of_nat 0) with 1|]; zdm.
    + cbn [be]. unfold cont. rewrite !map_app, !rev_app_distr. cbn. done.
Qed.

(** [nb] bytes encode [v]: the two shapes the encoder writes. *)
Definition short_form (m : nat) (v : Z) : list Z := cont (be m (v / 128)) ++ [v mod 128].
Definition long_form (v : Z) : list Z := cont (be 8 (v / 256)) ++ [v mod 256].

Lemma top_byte_test v : is_u64 v -> (v .& (0xff000000 << 32) =? 0) = (v <? 2 ^ 56).
Proof.
  unfold is_u64. intros Hv.
  replace (v .& (0xff000000 << 32)) with (v / 2 ^ 56 * 2 ^ 56).
  - destruct (Z.ltb_spec v (2 ^ 56)); [apply Z.eqb_eq|apply Z.eqb_neq]; zdm.
  - change (0xff000000 << 32) with (255 * 2 ^ 56 + 0).
    rewrite (Z.div_mod v (2 ^ 56)) at 2 by lia. rewrite (Z.mul_comm (2 ^ 56)).
    rewrite land_split by zdm. rewrite land_0xff, Z.land_0_r, (Z.mod_small (_ / _) 256) by zdm. lia.
Qed.

Lemma put_shape v : is_u64 v ->
  (exists m, (m <= 7)%nat /\ v < 128 ^ Z.of_nat (S m) /\ (m = O \/ 128 ^ Z.of_nat m <= v) /\
     sqlite3PutVarint v = (Z.of_nat (S m), short_form m v))
  \/ (2 ^ 56 <= v /\ sqlite3PutVarint v = (9, long_form v)).
Proof.
  intros Hv. pose proof (top_byte_test v Hv) as Ht. unfold is_u64 in Hv.
  unfold sqlite3PutVarint, short_form, long_form.
  destruct (Z.leb_spec v 0x7f).
  { left. exists O. split_and!; [lia|change (128 ^ Z.of_nat 1) with 128; lia|by left|]. by rewrite land_0x7f. }
  destruct (Z.leb_spec v 0x3fff).
  { left. exists 1%nat. change (128 ^ Z.of_nat 2) with (128 * 128). change (128 ^ Z.of_nat 1) with 128.
    split_and!; [lia|lia|right; lia|]. rewrite shr7, byte_cont, land_0x7f by zdm. done. }
  unfold putVarint64. rewrite Ht. destruct (Z.ltb_spec v (2 ^ 56)) as [L|L]; cbn [negb].
  - left. destruct (buf_be 10 v) as (m & Hm & Hlt & Hge & ->); [cbn; lia|lia|].
    exists m. rewrite Nat2Z.inj_succ in *.
    assert (m <= 7)%nat.
    { destruct Hge as [->|Hge]; [lia|]. apply Nat.nlt_ge. intros Hm8.
      pose proof (Z.pow_le_mono_r 128 8 (Z.of_nat m)). lia. }
    split_and!; [done|done|done|].
    cbn [be]. unfold cont. rewrite map_app, rev_app_distr. cbn [map rev app].
    rewrite land_0x7f. cbn [length]. rewrite length_rev, length_map, be_length, rev_involutive.
    f_equal; [lia|]. do 2 f_equal. zdm.
  - right. split; [done|]. f_equal. rewrite nine_be, Z.shiftr_div_pow2 by (try rewrite Z.shiftr_div_pow2; zdm). done.
Qed.

Lemma short_form_decodes m v rest :
  0 <= v < 128 ^ Z.of_nat (S m) -> (m <= 7)%nat ->
  varint_spec (short_form m v ++ rest) = Some (v, Z.of_nat (S m)).
Proof.
  intros Hv Hm. unfold varint_spec, short_form. rewrite <- app_assoc.
  replace 8%nat with (length (be m (v / 128)) + S (7 - m))%nat by (rewrite be_length; lia).
  rewrite ref_cont by apply be_digits. rewrite be_length, hz_be. cbn [app varint_ref].
  rewrite Nat2Z.inj_succ, Z.pow_succ_r in * by lia.
  destruct (Z.ltb_spec (v mod 128) 128); [|zdm].
  rewrite (Z.mod_small (v / 128)) by zdm. do 2 f_equal; zdm.
Qed.

Lemma long_form_decodes v rest : is_u64 v -> varint_spec (long_form v ++ rest) = Some (v, 9).
Proof.
  unfold is_u64. intros Hv. unfold varint_spec, long_form. rewrite <- app_assoc.
  replace 8%nat with (length (be 8 (v / 256)) + 0)%nat at 1 by (rewrite be_length; lia).
  rewrite ref_cont by apply be_digits. rewrite be_length, hz_be. cbn [app varint_ref].
  change (128 ^ Z.of_nat 8) with (2 ^ 56).
  rewrite (Z.mod_small (v / 256)) by zdm. do 2 f_equal; zdm.
Qed.

Lemma cont_bytes ds : Forall digit ds -> Forall is_u8 (cont ds).
Proof. induction 1; constructor; [unfold digit, is_u8 in *; lia|done]. Qed.

Lemma put_bytes v : is_u64 v ->
  Forall is_u8 (snd (sqlite3PutVarint v)) /\
  Z.of_nat (length (snd (sqlite3PutVarint v))) = fst (sqlite3PutVarint v).
Proof.
  intros Hv. unfold short_form, long_form, is_u64 in *.
  destruct (put_shape v Hv) as [(m & _ & _ & _ & ->)|[_ ->]]; cbn [fst snd];
    unfold short_form, long_form, cont; rewrite length_app, length_map, be_length;
    (split; [apply Forall_app; split; [apply cont_bytes, be_digits|repeat constructor; zdm]|simpl; lia]).
Qed.

Lemma put_decodes v rest : is_u64 v ->
  varint_spec (snd (sqlite3PutVarint v) ++ rest) = Some (v, fst (sqlite3PutVarint v)).
Proof.
  intros Hv. destruct (put_shape v Hv) as [(m & Hm & Hlt & _ & ->)|[_ ->]]; cbn [fst snd].
  - unfold is_u64 in Hv. apply short_form_decodes; lia.
  - by apply long_form_decodes.
Qed.

(** A decoder that consumes fewer than nine bytes yields that many digits. *)
Lemma ref_bound k : forall n acc p v n', Forall is_u8 p ->
  varint_ref k n acc p = Some (v, n') -> 0 <= acc ->
  n < n' <= n + Z.of_nat k + 1 /\
  (n' <= n + Z.of_nat k -> v < (acc + 1) * 128 ^ (n' - n)).
Proof.
  induction k as [|k IH]; intros n acc [|b p] v n' Hp H Ha; cbn [varint_ref] in H; try done.
  - simplify_eq. lia.
  - inversion Hp as [|? ? Hb Hp']; subst. unfold is_u8 in Hb.
    destruct (Z.ltb_spec b 128).
    + simplify_eq. split; [lia|]. intros _. replace (n + 1 - n) with 1 by lia. lia.
    + apply IH in H as [H1 H2]; [|done|lia]. split; [lia|]. intros Hle.
      replace (n' - n) with (Z.succ (n' - (n + 1))) by lia. rewrite Z.pow_succ_r by lia.
      specialize (H2 ltac:(lia)). eapply Z.lt_le_trans; [exact H2|].
      rewrite Z.mul_assoc. apply Z.mul_le_mono_nonneg_r; lia.
Qed.

Lemma len_loop fuel i v m : (S m <= fuel)%nat -> 0 <= v < 128 ^ Z.of_nat (S m) ->
  (m = O \/ 128 ^ Z.of_nat m <= v) -> sqlite3VarintLen_loop fuel i v = i + Z.of_nat m.
Proof.
  revert i v m. induction fuel as [|fuel IH]; intros i v m Hf Hv Hm; [lia|].
  cbn [sqlite3VarintLen_loop]. rewrite shr7. rewrite Nat2Z.inj_succ, Z.pow_succ_r in Hv by lia.
  destruct m as [|m].
  - change (128 ^ Z.of_nat 0) with 1 in *. rewrite Z.div_small by lia. simpl. lia.
  - destruct Hm as [|Hm]; [done|]. rewrite Nat2Z.inj_succ, Z.pow_succ_r in * by lia.
    destruct (Z.eqb_spec (v / 128) 0) as [E|E]; [zdm|].
    rewrite (IH _ _ m); [lia|lia| |right; zdm].
    rewrite Nat2Z.inj_succ, Z.pow_succ_r by lia. zdm.
Qed.

Lemma ref_nonneg k : forall n acc p v n', Forall is_u8 p ->
  varint_ref k n acc p = Some (v, n') -> 0 <= acc -> 0 <= v.
Proof.
  induction k as [|k IH]; intros n acc [|b p] v n' Hp H Ha; cbn [varint_ref] in H; try done;
    inversion Hp as [|? ? Hb Hp']; subst; unfold is_u8 in Hb.
  - simplify_eq. lia.
  - destruct (Z.ltb_spec b 128); [simplify_eq; lia|]. eapply IH in H; [done|done|lia].
Qed.

Lemma ref_step k n acc b p :
  varint_ref (S k) n acc (b :: p)
  = if b <? 128 then Some (acc * 128 + b, n + 1)
    else varint_ref k (n + 1) (acc * 128 + (b - 128)) p.
Proof. done. Qed.

(** ** Properties *)

(** On every byte sequence, short ones included, the unrolled decoder with
    its packed masks computes exactly the documented base-128 reading: the
    same value, the same number of bytes consumed, and a read past the end in
    the same cases. *)
Theorem sqlite3GetVarint_equiv p :
  Forall is_u8 p -> sqlite3GetVarint p = varint_spec p.
Proof. apply getvarint_is_spec. Qed.

Lemma sqlite3GetVarint_equiv_witness :
  sqlite3GetVarint [0xff; 0x80; 0x81; 0x05; 7] = varint_spec [0xff; 0x80; 0x81; 0x05; 7].
Proof. apply (sqlite3GetVarint_equiv [0xff; 0x80; 0x81; 0x05; 7]). repeat constructor; lia. Defined.

(** C40. For every 64-bit value the encoder writes between one and nine bytes
    whose number it returns, the decoder reads back the same value and length
    whatever follows in memory, and no byte sequence that decodes to that value
    is shorter. *)
Theorem varint_roundtrip v rest :
  is_u64 v -> Forall is_u8 rest ->
  let '(n, bytes) := sqlite3PutVarint v in
  1 <= n <= 9 /\ Z.of_nat (length bytes) = n /\ Forall is_u8 bytes /\
  sqlite3GetVarint (bytes ++ rest) = Some (v, n) /\
  (forall p n', Forall is_u8 p -> sqlite3GetVarint p = Some (v, n') -> n <= n').
Proof.
  intros Hv Hr. destruct (put_bytes v Hv) as [Hb Hl]. pose proof (put_decodes v rest Hv) as Hd.
  pose proof (put_shape v Hv) as Hs. destruct (sqlite3PutVarint v) as [n bytes]; cbn [fst snd] in *.
  assert (Hn : 1 <= n <= 9) by (destruct Hs as [(m & ? & _ & _ & [= -> _])|[_ [= -> _]]]; lia).
  split_and!; [lia|lia|done|done| |].
  - rewrite getvarint_is_spec; [done|]. by apply Forall_app.
  - intros p n' Hp. rewrite getvarint_is_spec by done. intros H.
    apply ref_bound in H as [H1 H2]; [|done|lia]. unfold is_u64 in Hv.
    destruct (Z.le_gt_cases n n') as [|Hlt]; [done|exfalso].
    specialize (H2 ltac:(lia)). rewrite Z.sub_0_r in H2.
    destruct Hs as [(m & Hm & _ & Hge & [= -> _])|[Hge [= -> _]]].
    + pose proof (Z.pow_le_mono_r 128 n' (Z.of_nat m)). destruct Hge as [->|?]; lia.
    + pose proof (Z.pow_le_mono_r 128 n' 8). lia.
Qed.

Lemma varint_roundtrip_witness :
  sqlite3PutVarint (2 ^ 64 - 2) = (9, repeat 0xff 8 ++ [0xfe]) /\
  sqlite3GetVarint ((repeat 0xff 8 ++ [0xfe]) ++ [1]) = Some (2 ^ 64 - 2, 9).
Proof.
  pose proof (varint_roundtrip (2 ^ 64 - 2) [1] ltac:(unfold is_u64; lia)
                ltac:(repeat constructor; lia)) as H.
  split; [reflexivity|]. apply H.
Defined.

(** [sqlite3VarintLen] returns the number of bytes the encoder writes for
    every value below [2^63], and ten, one more than the encoder ever writes,
    for every value from [2^63] on. *)
Theorem sqlite3VarintLen_exact v :
  is_u64 v ->
  sqlite3VarintLen v = if v <? 2 ^ 63 then fst (sqlite3PutVarint v) else 10.
Proof.
  intros Hv. unfold sqlite3VarintLen.
  destruct (put_shape v Hv) as [(m & Hm & Hlt & Hge & ->)|[Hge ->]]; cbn [fst];
    unfold is_u64 in Hv.
  - rewrite (len_loop 10 1 v m) by (done || lia).
    assert (128 ^ Z.of_nat (S m) <= 128 ^ 8) by (apply Z.pow_le_mono_r; lia).
    destruct (Z.ltb_spec v (2 ^ 63)); lia.
  - destruct (Z.ltb_spec v (2 ^ 63)).
    + rewrite (len_loop 10 1 v 8); cbn; lia.
    + rewrite (len_loop 10 1 v 9); cbn; lia.
Qed.

Lemma sqlite3VarintLen_exact_witness :
  sqlite3VarintLen (2 ^ 63) = 10 /\ sqlite3VarintLen 16384 = 3.
Proof.
  split; [exact (sqlite3VarintLen_exact (2 ^ 63) ltac:(unfold is_u64; lia))|].
  exact (sqlite3VarintLen_exact 16384 ltac:(unfold is_u64; lia)).
Defined.

(** The 32-bit decoder, when the first byte announces a continuation (the
    only case the [getVarint32] macro calls it in), consumes as many bytes as
    the 64-bit one and yields the same value, saturated at [0xffffffff]. *)
Theorem sqlite3GetVarint32_saturates p :
  Forall is_u8 p -> (exists b r, p = b :: r /\ 128 <= b) ->
  sqlite3GetVarint32 p
  = '(v, n) ← sqlite3GetVarint p; Some (Z.min v 0xffffffff, n).
Proof.
  intros Hp (b & r & -> & Hb). rewrite getvarint_is_spec by done.
  unfold sqlite3GetVarint32. rewrite (getvarint_is_spec (b :: r)) by done.
  inversion Hp as [|? ? Hb8 Hp1]; subst. unfold is_u8 in Hb8. cbn [lookup list_lookup mbind option_bind].
  unfold varint_spec. rewrite ref_step. destruct (Z.ltb_spec b 128); [lia|].
  destruct r as [|p1 r]; [done|]. inversion Hp1 as [|? ? H1 Hp2]; subst. unfold is_u8 in H1.
  cbn [lookup list_lookup mbind option_bind]. rewrite ref_step, bit7_clear, (Z.mod_small p1) by lia.
  destruct (Z.ltb_spec p1 128) as [L1|L1].
  { cbn [mbind option_bind]. rewrite land_0x7f, Z.shiftl_mul_pow2, lor_add_low by zdm.
    do 2 f_equal. zdm. }
  destruct r as [|p2 r]; [done|]. inversion Hp2 as [|? ? H2 Hp3]; subst. unfold is_u8 in H2.
  cbn [lookup list_lookup mbind option_bind]. rewrite ref_step, bit7_clear, (Z.mod_small p2) by lia.
  destruct (Z.ltb_spec p2 128) as [L2|L2].
  { cbn [mbind option_bind]. rewrite !land_0x7f, !Z.shiftl_mul_pow2 by lia.
    rewrite (lor_add_low 14) by zdm.
    replace (b mod 128 * 2 ^ 14 + p1 mod 128 * 2 ^ 7)
      with ((b mod 128 * 2 ^ 7 + p1 mod 128) * 2 ^ 7) by lia.
    rewrite lor_add_low by zdm. do 2 f_equal. zdm. }
  destruct (varint_ref _ _ _ _) as [[v n]|] eqn:E; [|done]. cbn.
  unfold SQLITE_MAX_U32. rewrite (land_ones_mod v 32) by done.
  apply ref_nonneg in E; [|done|lia].
  destruct (Z.eqb_spec (v mod 2 ^ 32) v); cbn; do 2 f_equal; [unfold u32|]; zdm.
Qed.

Lemma sqlite3GetVarint32_saturates_witness :
  sqlite3GetVarint32 [0x90; 0x80; 0x80; 0x80; 0x00] = Some (0xffffffff, 5).
Proof.
  apply (sqlite3GetVarint32_saturates [0x90; 0x80; 0x80; 0x80; 0x00]).
  - repeat constructor; lia.
  - exists 0x90, [0x80; 0x80; 0x80; 0x00]. split; [reflexivity|lia].
Defined.
