(* ===== verification/Bytes.v ===== *)
(** * Bytes and 32-bit words

    Native loads and stores of a [u32] for either byte order of the host, and
    [sqlite3Get4byte]/[sqlite3Put4byte] of [src/util.c], which read and write
    big-endian words whatever the host. *)
From S2P Require Import Prelude.

(** ** Native memory accesses *)

Definition load32 (big : bool) (p : list Z) : option Z :=
  match p with
  | b0 :: b1 :: b2 :: b3 :: _ =>
      Some (if big then ((b0 * 256 + b1) * 256 + b2) * 256 + b3
            else ((b3 * 256 + b2) * 256 + b1) * 256 + b0)
  | _ => None
  end.

Definition store32 (big : bool) (v : Z) : list Z :=
  let be := [v / 2 ^ 24 mod 256; v / 2 ^ 16 mod 256; v / 2 ^ 8 mod 256; v mod 256] in
  if big then be else rev be.

(** [__builtin_bswap32] *)
Definition bswap32 (x : Z) : Z :=
  ((x mod 256 * 256 + x / 2 ^ 8 mod 256) * 256 + x / 2 ^ 16 mod 256) * 256 + x / 2 ^ 24 mod 256.

(** ** Big-endian words *)

(** [SQLITE_BYTEORDER]: 1234, 4321 or not known at compile time. *)
Inductive byteorder : Type := BO_1234 | BO_4321 | BO_UNKNOWN.

Definition sqlite3Get4byte (bo : byteorder) (p : list Z) : option Z :=
  match bo with
  | BO_4321 => load32 true p
  | BO_1234 => x ← load32 false p; Some (bswap32 x)
  | BO_UNKNOWN =>
      match p with
      | p0 :: p1 :: p2 :: p3 :: _ =>
          Some (u32 (p0 << 24) .| (p1 << 16) .| (p2 << 8) .| p3)
      | _ => None
      end
  end.

(** The four bytes written. *)
Definition sqlite3Put4byte (bo : byteorder) (v : Z) : list Z :=
  match bo with
  | BO_4321 => store32 true v
  | BO_1234 => store32 false (bswap32 v)
  | BO_UNKNOWN => [u8 (v >> 24); u8 (v >> 16); u8 (v >> 8); u8 v]
  end.

(** ** Lemmas *)

Lemma load32_swap big p x :
  Forall is_u8 p -> load32 big p = Some x -> load32 (negb big) p = Some (bswap32 x).
Proof.
  destruct p as [|b0 [|b1 [|b2 [|b3 p]]]]; try done. intros HF Hx. unfold is_u8 in HF.
  inversion HF as [|? ? ? HF1]; inversion HF1 as [|? ? ? HF2]; inversion HF2 as [|? ? ? HF3];
    inversion HF3; subst. unfold bswap32. destruct big; cbn in Hx |- *; simplify_eq; f_equal; zdm.
Qed.

Lemma load32_range big p x : Forall is_u8 p -> load32 big p = Some x -> is_u32 x.
Proof.
  destruct p as [|b0 [|b1 [|b2 [|b3 p]]]]; try done. intros HF Hx. unfold is_u8, is_u32 in *.
  inversion HF as [|? ? ? HF1]; inversion HF1 as [|? ? ? HF2]; inversion HF2 as [|? ? ? HF3];
    inversion HF3; subst. destruct big; cbn in Hx; simplify_eq; lia.
Qed.

Lemma load_store big v r : is_u32 v -> load32 big (store32 big v ++ r) = Some v.
Proof. unfold is_u32. intros. unfold store32. destruct big; cbn -[Z.div Z.modulo Z.pow]; f_equal; zdm. Qed.

Lemma store32_bytes big v : Forall is_u8 (store32 big v).
Proof.
  unfold store32. destruct big; cbn -[Z.div Z.modulo Z.pow]; repeat constructor; unfold is_u8; zdm.
Qed.

Lemma bswap32_store big v : is_u32 v -> store32 big (bswap32 v) = store32 (negb big) v.
Proof.
  unfold is_u32. intros. unfold store32, bswap32. destruct big; cbn -[Z.div Z.modulo Z.pow];
    repeat apply (f_equal2 cons); done || zdm.
Qed.

(** The three compile-time variants of the accessors agree. *)
Lemma get4byte_be bo p : Forall is_u8 p -> sqlite3Get4byte bo p = load32 true p.
Proof.
  intros HF. destruct bo; cbn [sqlite3Get4byte]; [|done|].
  - destruct (load32 false p) as [x|] eqn:E; cbn [mbind option_bind].
    + symmetry. by apply (load32_swap false).
    + by destruct p as [|b0 [|b1 [|b2 [|b3 p]]]].
  - destruct p as [|b0 [|b1 [|b2 [|b3 p]]]]; try done. unfold is_u8 in HF.
    inversion HF as [|? ? ? HF1]; inversion HF1 as [|? ? ? HF2]; inversion HF2 as [|? ? ? HF3];
      inversion HF3; subst. cbn [load32]. f_equal.
    rewrite !Z.shiftl_mul_pow2 by lia. unfold u32. rewrite Z.mod_small by lia.
    rewrite (lor_add_low 24) by lia.
    replace (b0 * 2 ^ 24 + b1 * 2 ^ 16) with ((b0 * 256 + b1) * 2 ^ 16) by lia.
    rewrite (lor_add_low 16) by lia.
    replace ((b0 * 256 + b1) * 2 ^ 16 + b2 * 2 ^ 8) with (((b0 * 256 + b1) * 256 + b2) * 2 ^ 8) by lia.
    rewrite (lor_add_low 8) by lia. lia.
Qed.

Lemma put4byte_be bo v : is_u32 v -> sqlite3Put4byte bo v = store32 true v.
Proof.
  intros Hv. destruct bo; cbn [sqlite3Put4byte]; [by rewrite bswap32_store|done|].
  unfold store32, u8. by rewrite !Z.shiftr_div_pow2 by lia.
Qed.

Lemma get_put4byte bo bo' v r :
  is_u32 v -> Forall is_u8 r -> sqlite3Get4byte bo (sqlite3Put4byte bo' v ++ r) = Some v.
Proof.
  intros Hv Hr. rewrite put4byte_be, get4byte_be; [by apply load_store| |done].
  apply Forall_app; split; [apply store32_bytes|done].
Qed.
