(* ===== verification/FileIO.v ===== *)
(** * Files

    The files the engine reads and writes through the VFS ([sqlite3OsRead],
    [sqlite3OsWrite], [sqlite3OsTruncate], [sqlite3OsSync],
    [sqlite3OsFileSize]), as sequences of bytes.  The outcomes of the calls come
    from a list given beforehand: any call may fail, and a write that fails may
    leave any bytes in the range it was to write.  Blocks of memory are byte lists too,
    with accesses that fail outside of them. *)
From S2P Require Import Prelude.

Abbreviation file := (list Z).

Definition SQLITE_IOERR_SHORT_READ : Z := Eval cbv in SQLITE_IOERR .| (2 << 8).

(** What became of one call; the empty list means that all further calls succeed. *)
Inductive io_res : Type := IoOk | IoErr (rc : Z) (junk : list Z).

Definition io_next (io : list io_res) : io_res * list io_res :=
  match io with [] => (IoOk, []) | r :: io => (r, io) end.

(** The byte at an offset; zero past the end. *)
Definition fbyte (f : file) (i : Z) : Z := default 0 (aget f i).

(** [n] bytes from [off] on, zeros past the end. *)
Definition fread (f : file) (off n : Z) : list Z := map (fun i => fbyte f i) (seqZ off n).

Definition fextend (f : file) (n : Z) : file := f ++ replicate (Z.to_nat (n - alen f)) 0.

Definition fwrite (f : file) (off : Z) (d : list Z) : file :=
  take (Z.to_nat off) (fextend f off) ++ d ++ drop (Z.to_nat (off + alen d)) f.

Definition ftruncate (f : file) (n : Z) : file := take (Z.to_nat n) (fextend f n).

Definition os_read (io : list io_res) (f : file) (off n : Z) : Z * list Z * list io_res :=
  match io_next io with
  | (IoOk, io) =>
      (if off + n <=? alen f then SQLITE_OK else SQLITE_IOERR_SHORT_READ, fread f off n, io)
  | (IoErr rc _, io) => (rc, [], io)
  end.

Definition os_write (io : list io_res) (f : file) (off : Z) (d : list Z) : Z * file * list io_res :=
  match io_next io with
  | (IoOk, io) => (SQLITE_OK, fwrite f off d, io)
  | (IoErr rc junk, io) => (rc, fwrite f off (take (length d) junk), io)
  end.

Definition os_truncate (io : list io_res) (f : file) (n : Z) : Z * file * list io_res :=
  match io_next io with
  | (IoOk, io) => (SQLITE_OK, ftruncate f n, io)
  | (IoErr rc _, io) => (rc, f, io)
  end.

Definition os_sync (io : list io_res) : Z * list io_res :=
  match io_next io with
  | (IoOk, io) => (SQLITE_OK, io)
  | (IoErr rc _, io) => (rc, io)
  end.

Definition os_filesize (io : list io_res) (f : file) : Z * Z * list io_res :=
  match io_next io with
  | (IoOk, io) => (SQLITE_OK, alen f, io)
  | (IoErr rc _, io) => (rc, 0, io)
  end.

(** The outcomes are result codes of failures where they are failures. *)
Definition io_ok (io : list io_res) : Prop :=
  Forall (fun r => match r with IoOk => True | IoErr rc _ => rc <> SQLITE_OK end) io.

Lemma io_next_ok io r io' : io_ok io -> io_next io = (r, io') ->
  io_ok io' /\ match r with IoOk => True | IoErr rc _ => rc <> SQLITE_OK end.
Proof. intros H E. destruct H; cbn in E; simplify_eq; [by split; [constructor|]|done]. Qed.

(** ** Bytes of a written file *)

Lemma fbyte_out f i : i < 0 \/ alen f <= i -> fbyte f i = 0.
Proof.
  intros H. unfold fbyte. destruct (aget f i) as [v|] eqn:E; [|done]. apply aget_range in E. lia.
Qed.

Lemma fbyte_app_l f g i : i < alen f -> fbyte (f ++ g) i = fbyte f i.
Proof. intros. unfold fbyte. by rewrite aget_app_l. Qed.

Lemma fbyte_app_r f g i : alen f <= i -> fbyte (f ++ g) i = fbyte g (i - alen f).
Proof. intros. unfold fbyte. by rewrite aget_app_r. Qed.

Lemma fbyte_extend f n i : fbyte (fextend f n) i = fbyte f i.
Proof.
  unfold fextend. destruct (decide (i < alen f)); [by apply fbyte_app_l|].
  rewrite fbyte_app_r, (fbyte_out f) by lia. unfold fbyte.
  destruct (aget (replicate _ 0) _) as [v|] eqn:E; [|done]. cbn.
  pose proof (aget_range _ _ _ E) as Hr. unfold alen in Hr. rewrite length_replicate in Hr.
  rewrite aget_replicate in E by (unfold alen; lia). congruence.
Qed.

Lemma alen_extend f n : alen (fextend f n) = Z.max (alen f) n.
Proof. unfold fextend. rewrite alen_app. unfold alen. rewrite length_replicate. lia. Qed.

Lemma fbyte_take f n i : i < n -> fbyte (take (Z.to_nat n) f) i = fbyte f i.
Proof. intros. unfold fbyte. by rewrite aget_take. Qed.

Lemma fbyte_drop f n i : 0 <= n -> 0 <= i -> fbyte (drop (Z.to_nat n) f) i = fbyte f (n + i).
Proof. intros. unfold fbyte. by rewrite aget_drop. Qed.

Lemma fbyte_write f off d i : 0 <= off -> 0 <= i ->
  fbyte (fwrite f off d) i = if (off <=? i) && (i <? off + alen d) then fbyte d (i - off) else fbyte f i.
Proof.
  intros Ho Hi. unfold fwrite. pose proof (alen_nonneg d).
  assert (Hl : alen (take (Z.to_nat off) (fextend f off)) = off) by (apply alen_take; rewrite alen_extend; lia).
  destruct (Z.leb_spec off i), (Z.ltb_spec i (off + alen d)); cbn [andb]; try lia.
  - rewrite fbyte_app_r, Hl, fbyte_app_l by lia. done.
  - rewrite fbyte_app_r, Hl, fbyte_app_r, fbyte_drop by lia. f_equal. lia.
  - rewrite fbyte_app_l, fbyte_take, fbyte_extend by lia. done.
Qed.

Lemma fbyte_truncate f n i : 0 <= i < n -> fbyte (ftruncate f n) i = fbyte f i.
Proof. intros. unfold ftruncate. rewrite fbyte_take, fbyte_extend by lia. done. Qed.

Lemma fread_ext f g off n : (forall i, off <= i < off + n -> fbyte f i = fbyte g i) -> fread f off n = fread g off n.
Proof.
  intros H. unfold fread. apply map_ext_in. intros i Hi%list_elem_of_In%elem_of_seqZ. apply H. lia.
Qed.

Lemma fread_write_same f off d : 0 <= off -> fread (fwrite f off d) off (alen d) = d.
Proof.
  intros Ho. apply list_eq. intros k. unfold fread.
  change (map ?f ?l) with (f <$> l). rewrite list_lookup_fmap.
  destruct (decide (Z.of_nat k < alen d)) as [Hk|Hk].
  - rewrite (lookup_seqZ_lt off (alen d) k) by lia. cbn [fmap option_fmap option_map].
    rewrite fbyte_write by lia. destruct (Z.leb_spec off (off + Z.of_nat k)); [|lia].
    destruct (Z.ltb_spec (off + Z.of_nat k) (off + alen d)); [|lia]. cbn [andb].
    unfold fbyte. rewrite Z.add_simpl_l, aget_of_nat. destruct (d !! k) eqn:E; [done|].
    apply lookup_ge_None in E. unfold alen in Hk. lia.
  - rewrite lookup_seqZ_ge by lia. cbn. symmetry. apply lookup_ge_None. unfold alen in Hk. lia.
Qed.

Lemma fread_write_other f off d off' n : 0 <= off -> 0 <= off' -> off' + n <= off \/ off + alen d <= off' ->
  fread (fwrite f off d) off' n = fread f off' n.
Proof.
  intros Ho Ho' Hd. apply fread_ext. intros i Hi. rewrite fbyte_write by lia.
  destruct (Z.leb_spec off i), (Z.ltb_spec i (off + alen d)); cbn [andb]; done || lia.
Qed.

(** ** Writing and truncating *)

Lemma alen_write f off d : 0 <= off -> alen (fwrite f off d) = Z.max (alen f) (off + alen d).
Proof.
  intros. unfold fwrite. rewrite !alen_app, (alen_take _ off) by (rewrite alen_extend; lia).
  unfold alen. rewrite length_drop. lia.
Qed.

Lemma fwrite_u8 f off d : Forall is_u8 f -> Forall is_u8 d -> Forall is_u8 (fwrite f off d).
Proof.
  intros Hf Hd. unfold fwrite, fextend. repeat apply Forall_app_2; [|done|by apply Forall_drop].
  apply Forall_take, Forall_app_2; [done|]. apply Forall_replicate. by unfold is_u8.
Qed.

Lemma ftruncate_u8 f n : Forall is_u8 f -> Forall is_u8 (ftruncate f n).
Proof.
  intros Hf. unfold ftruncate, fextend. apply Forall_take, Forall_app_2; [done|]. apply Forall_replicate. by unfold is_u8.
Qed.

Lemma alen_truncate f n : 0 <= n -> alen (ftruncate f n) = n.
Proof. intros. unfold ftruncate. apply alen_take. rewrite alen_extend. lia. Qed.

(** A write in two parts. *)
Lemma fwrite_app f off a b : 0 <= off -> fwrite (fwrite f off a) (off + alen a) b = fwrite f off (a ++ b).
Proof.
  intros Ho. pose proof (alen_nonneg a). unfold fwrite at 1 3.
  assert (E : fextend (fwrite f off a) (off + alen a) = fwrite f off a).
  { unfold fextend. rewrite alen_write by done. replace (Z.to_nat (_ - _)) with 0%nat by lia. apply app_nil_r. }
  rewrite E. unfold fwrite. set (p := take (Z.to_nat off) (fextend f off)).
  assert (Lp : alen p = off) by (apply alen_take; rewrite alen_extend; lia).
  rewrite (app_assoc p a), take_app_length' by (rewrite length_app; unfold alen in *; lia).
  rewrite drop_app_ge by (rewrite length_app; unfold alen in *; lia). rewrite drop_drop, <- !app_assoc.
  do 4 f_equal. rewrite length_app. unfold alen in *. rewrite length_app. lia.
Qed.

(** The first [n] bytes are as they were. *)
Definition keeps (n : Z) (f g : file) : Prop :=
  (forall i, 0 <= i < n -> fbyte g i = fbyte f i) /\ Z.min n (alen f) <= alen g.

Lemma keeps_refl n f : keeps n f f.
Proof. split; [done|lia]. Qed.

Lemma keeps_trans n f g h : keeps n f g -> keeps n g h -> keeps n f h.
Proof. intros [H1 L1] [H2 L2]. split; [intros i Hi; by rewrite H2, H1|lia]. Qed.

Lemma keeps_le n m f g : m <= n -> keeps n f g -> keeps m f g.
Proof. intros Hm [H L]. split; [intros; apply H; lia|lia]. Qed.

Lemma keeps_write n f off d : 0 <= off -> n <= off -> keeps n f (fwrite f off d).
Proof.
  intros Ho Hn. split; [|rewrite alen_write by done; lia]. intros i Hi. rewrite fbyte_write by lia.
  destruct (Z.leb_spec off i); [lia|done].
Qed.

Lemma keeps_truncate n f m : 0 <= n <= m -> keeps n f (ftruncate f m).
Proof. intros Hm. split; [|rewrite alen_truncate; lia]. intros i Hi. apply fbyte_truncate. lia. Qed.

Lemma keeps_fread n f g off k : keeps n f g -> 0 <= off -> off + k <= n -> fread g off k = fread f off k.
Proof. intros [H _] Ho Hk. apply fread_ext. intros i Hi. apply H. lia. Qed.

(** Calls *)
Definition io_clean (io : list io_res) (rc : Z) (io' : list io_res) : Prop := io = [] -> rc = SQLITE_OK /\ io' = [].

Lemma os_write_spec n io f off d rc f' io' : io_ok io -> 0 <= off -> n <= off -> os_write io f off d = (rc, f', io') ->
  io_ok io' /\ keeps n f f' /\ (rc = SQLITE_OK -> f' = fwrite f off d) /\ io_clean io rc io'.
Proof.
  unfold os_write. destruct (io_next io) as [r io1] eqn:En. intros Hio Ho Hn E.
  destruct (io_next_ok _ _ _ Hio En) as [H Hr]. destruct r; simplify_eq; split_and!; try done; try by apply keeps_write.
  - intros ->. cbn in En. by simplify_eq.
  - intros ->. cbn in En. by simplify_eq.
Qed.

Lemma os_sync_spec io rc io' : io_ok io -> os_sync io = (rc, io') -> io_ok io' /\ io_clean io rc io'.
Proof.
  unfold os_sync. destruct (io_next io) as [r io1] eqn:En. intros Hio E.
  destruct (io_next_ok _ _ _ Hio En) as [H Hr].
  destruct r; simplify_eq; (split; [done|]); intros ->; cbn in En; by simplify_eq.
Qed.

Lemma os_read_spec io f off n rc d io' : io_ok io -> os_read io f off n = (rc, d, io') ->
  io_ok io' /\ (rc = SQLITE_OK -> d = fread f off n) /\ (off + n <= alen f -> io_clean io rc io').
Proof.
  unfold os_read. destruct (io_next io) as [r io1] eqn:En. intros Hio E.
  destruct (io_next_ok _ _ _ Hio En) as [H Hr].
  destruct r; simplify_eq; (split_and!; [done|done|]); intros Hl ->; cbn in En; simplify_eq.
  destruct (Z.leb_spec (off + n) (alen f)); [done|lia].
Qed.

Lemma alen_fread f off n : 0 <= n -> alen (fread f off n) = n.
Proof. intros. unfold alen, fread. rewrite length_map, length_seqZ. lia. Qed.

Lemma fbyte_u8 p i : Forall is_u8 p -> is_u8 (fbyte p i).
Proof.
  intros Hp. unfold fbyte. destruct (aget p i) as [x|] eqn:E; cbn; [|unfold is_u8; lia].
  eapply aget_Forall; eauto.
Qed.

Lemma fread_u8 p off n : Forall is_u8 p -> Forall is_u8 (fread p off n).
Proof.
  intros Hp. unfold fread. apply Forall_map, Forall_forall. intros i _. by apply fbyte_u8.
Qed.

(** ** Blocks of memory *)

(** [n] bytes from [off] on, inside of the block. *)
Definition mread (p : list Z) (off n : Z) : option (list Z) :=
  if (0 <=? off) && (0 <=? n) && (off + n <=? alen p) then Some (fread p off n) else None.

(** The block with the bytes [bs] stored from [off] on. *)
Definition mwrite (p : list Z) (off : Z) (bs : list Z) : option (list Z) :=
  if (0 <=? off) && (off + alen bs <=? alen p) then Some (fwrite p off bs) else None.

Lemma aget_fbyte p i : 0 <= i < alen p -> aget p i = Some (fbyte p i).
Proof. intros H. unfold fbyte. by destruct (aget_is_Some p i H) as [x ->]. Qed.

Lemma fbyte_fread p off n i : 0 <= i < n -> fbyte (fread p off n) i = fbyte p (off + i).
Proof.
  intros H. unfold fbyte at 1. unfold aget. rewrite (proj2 (Z.leb_le 0 i)) by lia.
  change (fread p off n) with ((fun j => fbyte p j) <$> seqZ off n).
  rewrite list_lookup_fmap, lookup_seqZ_lt by lia. cbn. f_equal. lia.
Qed.

Lemma mread_ok p off n : 0 <= off -> 0 <= n -> off + n <= alen p -> mread p off n = Some (fread p off n).
Proof. intros. unfold mread. rewrite !(proj2 (Z.leb_le _ _)) by lia. done. Qed.

Lemma list_fbyte_eq (l k : list Z) : alen l = alen k -> (forall i, 0 <= i < alen l -> fbyte l i = fbyte k i) -> l = k.
Proof.
  intros HL H. apply list_eq_same_length with (n := length l); [unfold alen in HL; lia|done|].
  intros i x y Hi Hx Hy. specialize (H (Z.of_nat i) ltac:(unfold alen; lia)). unfold fbyte in H.
  rewrite !aget_of_nat, Hx, Hy in H. done.
Qed.
