(* ===== verification/OpenAddr.v ===== *)
(** * Linear probing

    The search both hash tables of the engine use (the [aHash] form of
    [Bitvec] in [bitvec.c] and the hash tables of the wal-index in [wal.c]):
    from a first slot, one slot at a time around a table of [N] slots, until a
    slot stops the search.  This file holds the arithmetic of the walk and its
    termination, which the two components share. *)
From S2P Require Import Prelude.

Section Walk.
Context (N : Z) (HN : 0 < N).

(** The slot [k] steps after [h], and the steps from [h] to [s]. *)
Definition pos (h k : Z) : Z := (h + k) mod N.
Definition dist (h s : Z) : Z := (s - h) mod N.

Lemma pos_range h k : 0 <= pos h k < N.
Proof. apply Z.mod_pos_bound. lia. Qed.

Lemma dist_range h s : 0 <= dist h s < N.
Proof. apply Z.mod_pos_bound. lia. Qed.

Lemma pos_dist h s : 0 <= s < N -> pos h (dist h s) = s.
Proof.
  intros. unfold pos, dist. rewrite Zplus_mod_idemp_r.
  replace (h + (s - h)) with s by lia. by apply Z.mod_small.
Qed.

Lemma dist_pos h k : 0 <= k < N -> dist h (pos h k) = k.
Proof.
  intros. unfold pos, dist. rewrite Zminus_mod_idemp_l.
  replace (h + k - h) with k by lia. by apply Z.mod_small.
Qed.

Lemma pos_0 h : 0 <= h < N -> pos h 0 = h.
Proof. intros. unfold pos. rewrite Z.add_0_r. by apply Z.mod_small. Qed.

Lemma pos_step h k : pos (pos h 1) k = pos h (k + 1).
Proof. unfold pos. rewrite Zplus_mod_idemp_l. f_equal. lia. Qed.

Lemma pos_inj h j k : 0 <= j < N -> 0 <= k < N -> pos h j = pos h k -> j = k.
Proof. intros Hj Hk E. by rewrite <- (dist_pos h j), E, dist_pos. Qed.

(** The first slot from [h] that satisfies [stop], in at most [fuel] steps. *)
Fixpoint probe (stop : Z -> bool) (fuel : nat) (h : Z) : option Z :=
  match fuel with
  | O => None
  | S fuel => if stop h then Some h else probe stop fuel (pos h 1)
  end.

Lemma probe_least stop d : forall fuel h,
  0 <= h < N -> (d < fuel)%nat -> Z.of_nat d < N ->
  stop (pos h (Z.of_nat d)) = true ->
  (forall j, 0 <= j < Z.of_nat d -> stop (pos h j) = false) ->
  probe stop fuel h = Some (pos h (Z.of_nat d)).
Proof.
  induction d as [|d IH]; intros [|fuel] h Hh Hf Hd Hs Hlt; try lia; cbn [probe].
  - rewrite pos_0 in Hs |- * by done. by rewrite Hs.
  - replace (stop h) with false by (rewrite <- (Hlt 0) by lia; by rewrite pos_0).
    rewrite IH; rewrite ?pos_step; try lia.
    + f_equal. f_equal. lia.
    + apply pos_range.
    + rewrite <- Hs. do 2 f_equal. lia.
    + intros j Hj. rewrite pos_step. apply Hlt. lia.
Qed.

Lemma first_or_none (P : Z -> bool) (n : nat) :
  (forall j, 0 <= j < Z.of_nat n -> P j = false) \/
  (exists d, 0 <= d < Z.of_nat n /\ P d = true /\ forall j, 0 <= j < d -> P j = false).
Proof.
  induction n as [|n [IH|(d & Hd & HP & Hlt)]]; [left; lia| |right; exists d; split_and!; done || lia].
  destruct (P (Z.of_nat n)) eqn:E.
  - right. exists (Z.of_nat n). split_and!; done || lia.
  - left. intros j Hj. destruct (decide (j = Z.of_nat n)) as [->|]; [done|]. apply IH. lia.
Qed.

(** A table in which some slot stops the search has a first such slot, and
    [N] steps find it. *)
Lemma probe_finds stop h s :
  0 <= h < N -> 0 <= s < N -> stop s = true ->
  exists d, 0 <= d < N /\ probe stop (Z.to_nat N) h = Some (pos h d) /\
    stop (pos h d) = true /\ forall j, 0 <= j < d -> stop (pos h j) = false.
Proof.
  intros Hh Hs Hstop.
  destruct (first_or_none (fun d => stop (pos h d)) (Z.to_nat N)) as [Hno|(d & Hd & HP & Hlt)].
  - rewrite <- (pos_dist h s Hs), Hno in Hstop; [done|]. pose proof (dist_range h s). lia.
  - exists d. split_and!; try done; try lia.
    rewrite <- (Z2Nat.id d) by lia. apply probe_least; rewrite ?Z2Nat.id by lia; done || lia.
Qed.
End Walk.
