(* ===== verification/Bitvec.v ===== *)
(** * Bit vectors ([src/bitvec.c])

    The pager's record of which pages are in a journal: a set of integers in
    [1..iSize], held as a bitmap, as an open-addressing hash table or, when the
    table gets crowded, as an array of smaller bit vectors.  The three members
    of the union [u] are the constructors of [BitvecU]; reading a member other
    than the one last written is [None], as is an array access out of range.
    Sizes are those of a machine with 8-byte pointers. *)
From S2P Require Import Prelude OpenAddr.

(** ** Data *)

Definition BITVEC_SZ : Z := 512.
Definition BITVEC_USIZE : Z := Eval cbv in (BITVEC_SZ - 3 * 4) / 8 * 8.
Definition BITVEC_SZELEM : Z := 8.
Definition BITVEC_NELEM : Z := Eval cbv in BITVEC_USIZE / 1.
Definition BITVEC_NBIT : Z := Eval cbv in BITVEC_NELEM * BITVEC_SZELEM.
Definition BITVEC_NINT : Z := Eval cbv in BITVEC_USIZE / 4.
Definition BITVEC_MXHASH : Z := Eval cbv in BITVEC_NINT / 2.
Definition BITVEC_NPTR : Z := Eval cbv in BITVEC_USIZE / 8.
Definition BITVEC_HASH (x : Z) : Z := (x * 1) mod BITVEC_NINT.

Inductive Bitvec : Type :=
  MkBitvec (iSize nSet iDivisor : Z) (u : BitvecU)
with BitvecU : Type :=
| aBitmap (a : list Z)
| aHash (a : list Z)
| apSub (a : list (option Bitvec)).

Definition iSize (p : Bitvec) : Z := let 'MkBitvec sz _ _ _ := p in sz.

(** [sqlite3MallocZero] clears the whole union; the member the code goes on to
    read is the one [iSize] selects. *)
Definition zero_union (sz : Z) : BitvecU :=
  if sz <=? BITVEC_NBIT then aBitmap (replicate (Z.to_nat BITVEC_NELEM) 0)
  else aHash (replicate (Z.to_nat BITVEC_NINT) 0).

Definition sqlite3BitvecCreate (al : alloc) (sz : Z) : option Bitvec * alloc :=
  let '(ok, al) := malloc al in
  (if ok then Some (MkBitvec sz 0 0 (zero_union sz)) else None, al).

(** ** Test *)

(** [while( p->u.aHash[h] ){ if( p->u.aHash[h]==i ) return 1; ... }] *)
Fixpoint test_hash (fuel : nat) (t : list Z) (h i : Z) : option bool :=
  match fuel with
  | O => None
  | S fuel =>
      v ← aget t h;
      if v =? 0 then Some false
      else if v =? i then Some true
      else test_hash fuel t ((h + 1) mod BITVEC_NINT) i
  end.

(** The part of [sqlite3BitvecTestNotNull] from [while( p->iDivisor )] on. *)
Fixpoint test_loop (fuel : nat) (p : Bitvec) (i : Z) : option bool :=
  match fuel with
  | O => None
  | S fuel =>
      let 'MkBitvec sz _ dv u := p in
      if negb (dv =? 0) then
        match u with
        | apSub a =>
            q ← aget a (i / dv);
            match q with
            | None => Some false
            | Some q => test_loop fuel q (i mod dv)
            end
        | _ => None
        end
      else if sz <=? BITVEC_NBIT then
        match u with
        | aBitmap a =>
            b ← aget a (i / BITVEC_SZELEM);
            Some (negb (b .& (1 << (i .& (BITVEC_SZELEM - 1))) =? 0))
        | _ => None
        end
      else
        match u with
        | aHash t => test_hash (Z.to_nat BITVEC_NINT) t (BITVEC_HASH i) (u32 (i + 1))
        | _ => None
        end
  end.

(** Nested bit vectors: five levels reach every [u32] size ([cap_5]). *)
Definition BITVEC_DEPTH : nat := 5.

Definition sqlite3BitvecTestNotNull (p : Bitvec) (i : Z) : option bool :=
  let i := u32 (i - 1) in
  if i >=? iSize p then Some false else test_loop BITVEC_DEPTH p i.

Definition sqlite3BitvecTest (p : option Bitvec) (i : Z) : option bool :=
  match p with
  | None => Some false
  | Some p => sqlite3BitvecTestNotNull p i
  end.

(** ** Set *)

(** [do{ if( p->u.aHash[h]==i ) return SQLITE_OK; h++; ... }while( p->u.aHash[h] )]:
    [Some None] when the value is there, [Some (Some h)] at a free slot. *)
Fixpoint set_probe (fuel : nat) (t : list Z) (h i : Z) : option (option Z) :=
  match fuel with
  | O => None
  | S fuel =>
      v ← aget t h;
      if v =? i then Some None
      else
        let h := h + 1 in
        let h := if h >=? BITVEC_NINT then 0 else h in
        w ← aget t h;
        if w =? 0 then Some (Some h) else set_probe fuel t h i
  end.

Definition set_result : Type := Z * Bitvec * alloc.

(** [for(j=0; j<BITVEC_NINT; j++){ if( aiValues[j] ) rc |= sqlite3BitvecSet(p, aiValues[j]); }] *)
Fixpoint rehash_loop (set : alloc -> Bitvec -> Z -> option set_result)
    (rc : Z) (p : Bitvec) (al : alloc) (aiValues : list Z) : option set_result :=
  match aiValues with
  | [] => Some (rc, p, al)
  | v :: vs =>
      if v =? 0 then rehash_loop set rc p al vs
      else
        '(r, p, al) ← set al p v;
        rehash_loop set (rc .| r) p al vs
  end.

(** [sqlite3BitvecSet] after [i--]; the loop over sub-bitmaps and the calls of
    the re-hash both recurse. *)
Fixpoint set_loop (fuel : nat) (al : alloc) (p : Bitvec) (i : Z) : option set_result :=
  match fuel with
  | O => None
  | S fuel =>
      let 'MkBitvec sz ns dv u := p in
      if (sz >? BITVEC_NBIT) && negb (dv =? 0) then
        match u with
        | apSub a =>
            let bin := i / dv in
            q ← aget a bin;
            let '(q, al) :=
              match q with
              | None => sqlite3BitvecCreate al dv
              | Some q => (Some q, al)
              end in
            match q with
            | None => Some (SQLITE_NOMEM, p, al)
            | Some q =>
                '(rc, q, al) ← set_loop fuel al q (i mod dv);
                a ← aset a bin (Some q);
                Some (rc, MkBitvec sz ns dv (apSub a), al)
            end
        | _ => None
        end
      else if sz <=? BITVEC_NBIT then
        match u with
        | aBitmap a =>
            b ← aget a (i / BITVEC_SZELEM);
            a ← aset a (i / BITVEC_SZELEM)
                  (u8 (b .| (1 << (i .& (BITVEC_SZELEM - 1)))));
            Some (SQLITE_OK, MkBitvec sz ns dv (aBitmap a), al)
        | _ => None
        end
      else
        match u with
        | aHash t =>
            let h := BITVEC_HASH i in
            let i := u32 (i + 1) in
            let set_end h :=
              t ← aset t h i;
              Some (SQLITE_OK, MkBitvec sz (u32 (ns + 1)) dv (aHash t), al) in
            let set_rehash h :=
              if ns >=? BITVEC_MXHASH then
                let '(ok, al) := malloc al in
                if negb ok then Some (SQLITE_NOMEM, p, al)
                else
                  let dv := (sz + BITVEC_NPTR - 1) / BITVEC_NPTR in
                  let p := MkBitvec sz ns dv
                             (apSub (replicate (Z.to_nat BITVEC_NPTR) None)) in
                  let set al p v := set_loop fuel al p (v - 1) in
                  '(rc, p, al) ← set al p i;
                  rehash_loop set rc p al t
              else set_end h in
            v ← aget t h;
            if v =? 0 then
              if ns <? BITVEC_NINT - 1 then set_end h else set_rehash h
            else
              r ← set_probe (Z.to_nat BITVEC_NINT) t h i;
              match r with
              | None => Some (SQLITE_OK, p, al)
              | Some h => set_rehash h
              end
        | _ => None
        end
  end.

Definition sqlite3BitvecSet (al : alloc) (p : Bitvec) (i : Z) : option set_result :=
  set_loop (2 * BITVEC_DEPTH) al p (u32 (i - 1)).

(** ** Clear *)

(** [while( p->u.aHash[h] ){ h++; if( h>=BITVEC_NINT ) h = 0; }] *)
Fixpoint clear_probe (fuel : nat) (t : list Z) (h : Z) : option Z :=
  match fuel with
  | O => None
  | S fuel =>
      v ← aget t h;
      if v =? 0 then Some h
      else
        let h := h + 1 in
        clear_probe fuel t (if h >=? BITVEC_NINT then 0 else h)
  end.

(** The loop of [sqlite3BitvecClear] that rebuilds the table from [aiValues]. *)
Fixpoint clear_rebuild (i : Z) (aiValues : list Z) (ns : Z) (t : list Z) : option (Z * list Z) :=
  match aiValues with
  | [] => Some (ns, t)
  | v :: vs =>
      if negb (v =? 0) && negb (v =? i + 1) then
        h ← clear_probe (Z.to_nat BITVEC_NINT) t (BITVEC_HASH (v - 1));
        t ← aset t h v;
        clear_rebuild i vs (ns + 1) t
      else clear_rebuild i vs ns t
  end.

Fixpoint clear_loop (fuel : nat) (p : Bitvec) (i : Z) : option Bitvec :=
  match fuel with
  | O => None
  | S fuel =>
      let 'MkBitvec sz ns dv u := p in
      if negb (dv =? 0) then
        match u with
        | apSub a =>
            let bin := i / dv in
            q ← aget a bin;
            match q with
            | None => Some p
            | Some q =>
                q ← clear_loop fuel q (i mod dv);
                a ← aset a bin (Some q);
                Some (MkBitvec sz ns dv (apSub a))
            end
        | _ => None
        end
      else if sz <=? BITVEC_NBIT then
        match u with
        | aBitmap a =>
            b ← aget a (i / BITVEC_SZELEM);
            a ← aset a (i / BITVEC_SZELEM)
                  (u8 (b .& Z.lnot (1 << (i .& (BITVEC_SZELEM - 1)))));
            Some (MkBitvec sz ns dv (aBitmap a))
        | _ => None
        end
      else
        match u with
        | aHash t =>
            '(ns, t) ← clear_rebuild i t 0 (replicate (Z.to_nat BITVEC_NINT) 0);
            Some (MkBitvec sz ns dv (aHash t))
        | _ => None
        end
  end.

Definition sqlite3BitvecClear (p : Bitvec) (i : Z) : option Bitvec :=
  clear_loop BITVEC_DEPTH p (u32 (i - 1)).

Definition sqlite3BitvecSize (p : Bitvec) : Z := iSize p.

(** ** The hash table form *)

Definition nz (t : list Z) : Z := alen (filter (fun v => v <> 0) t).

(** The slot where the search for a stored value starts. *)
Definition home (v : Z) : Z := BITVEC_HASH (v - 1).

(** Every slot a search for [v] passes before the one that holds it is taken
    by another value. *)
Definition paths (t : list Z) : Prop := forall s v, aget t s = Some v -> v <> 0 ->
  forall k, 0 <= k < dist BITVEC_NINT (home v) s ->
  exists w, aget t (pos BITVEC_NINT (home v) k) = Some w /\ w <> 0 /\ w <> v.

Definition hash_ok (sz ns : Z) (t : list Z) : Prop :=
  alen t = BITVEC_NINT /\ Forall (fun v => 0 <= v <= sz) t /\
  nz t = ns /\ ns < BITVEC_NINT /\ paths t.

Lemma nz_cons v t : nz (v :: t) = (if decide (v = 0) then 0 else 1) + nz t.
Proof.
  unfold nz, alen. rewrite filter_cons. destruct (decide (v = 0)), (decide (v <> 0)); simpl; lia.
Qed.

Lemma nz_bound t : 0 <= nz t <= alen t.
Proof. unfold nz, alen. pose proof (length_filter (fun v : Z => v <> 0) t). lia. Qed.

Lemma nz_free t : nz t < alen t -> exists s, aget t s = Some 0.
Proof.
  intros H. assert (H0 : 0 ∈ t); [|by apply aget_elem in H0].
  induction t as [|v t IH]; [unfold nz, alen in H; simpl in H; lia|].
  rewrite nz_cons in H. unfold alen in *. simpl in H.
  case_decide; subst; [left|right]. apply IH. unfold alen. lia.
Qed.

Lemma nz_insert t s v t' :
  aget t s = Some 0 -> aset t s v = Some t' -> v <> 0 -> nz t' = nz t + 1.
Proof.
  intros Hg [Hs ->]%aset_Some Hv. unfold aget in Hg. destruct (0 <=? s); [|done].
  revert Hg. generalize (Z.to_nat s) as k. clear Hs. induction t as [|w t IH]; intros [|k] Hg; try done.
  - simpl in Hg. simplify_eq. simpl. rewrite !nz_cons. repeat case_decide; done || lia.
  - simpl. rewrite !nz_cons, IH by done. case_decide; lia.
Qed.

Lemma BITVEC_HASH_range x : 0 <= BITVEC_HASH x < BITVEC_NINT.
Proof. apply Z.mod_pos_bound. done. Qed.

(** What the walk from the home of [v] finds: [v] itself if it is stored, a
    free slot otherwise. *)
Lemma walk_find t v : alen t = BITVEC_NINT -> nz t < BITVEC_NINT -> paths t -> v <> 0 ->
  exists d w, 0 <= d < BITVEC_NINT /\ aget t (pos BITVEC_NINT (home v) d) = Some w /\
    (w = v /\ v ∈ t \/ w = 0 /\ v ∉ t) /\
    forall j, 0 <= j < d -> exists x, aget t (pos BITVEC_NINT (home v) j) = Some x /\ x <> 0 /\ x <> v.
Proof.
  intros Hl Hn Hp Hv. destruct (nz_free t) as [s Hs]; [lia|].
  set (stop s := match aget t s with Some w => (w =? 0) || (w =? v) | None => true end).
  destruct (probe_finds BITVEC_NINT ltac:(done) stop (home v) s) as (d & Hd & _ & Hst & Hlt).
  { apply BITVEC_HASH_range. }
  { rewrite <- Hl. by eapply aget_range. }
  { unfold stop. by rewrite Hs. }
  destruct (aget_is_Some t (pos BITVEC_NINT (home v) d)) as [w Hw].
  { rewrite Hl. by apply pos_range. }
  exists d, w. split_and!; [lia|lia|done| |].
  - unfold stop in Hst. rewrite Hw in Hst. destruct (Z.eqb_spec w v) as [E|Hne].
    { left. split; [done|]. apply aget_elem. rewrite <- E. eauto. }
    right. destruct (Z.eqb_spec w 0) as [E|]; [|done]. split; [done|].
    intros [s' Hs']%aget_elem. pose proof (Hp s' v Hs' Hv) as Hpath.
    assert (Hr : 0 <= s' < BITVEC_NINT) by (rewrite <- Hl; by eapply aget_range).
    destruct (Z.lt_total d (dist BITVEC_NINT (home v) s')) as [H|[->|H]].
    + destruct (Hpath d) as (x & Hx & ? & _); [lia|]. congruence.
    + rewrite pos_dist in Hw by done. congruence.
    + specialize (Hlt (dist BITVEC_NINT (home v) s')). rewrite pos_dist in Hlt by done.
      unfold stop in Hlt. rewrite Hs', Z.eqb_refl, orb_true_r in Hlt.
      discriminate Hlt. pose proof (dist_range BITVEC_NINT ltac:(done) (home v) s'). lia.
  - intros j Hj. specialize (Hlt j Hj). unfold stop in Hlt. case_match eqn:E; [|done].
    apply orb_false_iff in Hlt as [?%Z.eqb_neq ?%Z.eqb_neq]. eauto.
Qed.

(** The value is stored at one slot only. *)
Lemma paths_unique t s s' v : alen t = BITVEC_NINT -> paths t -> v <> 0 ->
  aget t s = Some v -> aget t s' = Some v -> s = s'.
Proof.
  intros Hl Hp Hv Hs Hs'.
  assert (R : 0 <= s < BITVEC_NINT) by (rewrite <- Hl; by eapply aget_range).
  assert (R' : 0 <= s' < BITVEC_NINT) by (rewrite <- Hl; by eapply aget_range).
  pose proof (dist_range BITVEC_NINT ltac:(done) (home v) s).
  pose proof (dist_range BITVEC_NINT ltac:(done) (home v) s').
  destruct (Z.lt_total (dist BITVEC_NINT (home v) s) (dist BITVEC_NINT (home v) s')) as [H1|[E|H1]].
  - destruct (Hp s' v Hs' Hv (dist BITVEC_NINT (home v) s)) as (x & Hx & _ & ?); [lia|].
    rewrite pos_dist in Hx by done. congruence.
  - rewrite <- (pos_dist BITVEC_NINT (home v) s), E by done. by rewrite pos_dist.
  - destruct (Hp s v Hs Hv (dist BITVEC_NINT (home v) s')) as (x & Hx & _ & ?); [lia|].
    rewrite pos_dist in Hx by done. congruence.
Qed.

Lemma paths_insert t d v t' :
  alen t = BITVEC_NINT -> paths t -> v <> 0 -> v ∉ t -> 0 <= d < BITVEC_NINT ->
  aget t (pos BITVEC_NINT (home v) d) = Some 0 ->
  (forall j, 0 <= j < d -> exists x, aget t (pos BITVEC_NINT (home v) j) = Some x /\ x <> 0 /\ x <> v) ->
  aset t (pos BITVEC_NINT (home v) d) v = Some t' -> paths t'.
Proof.
  intros Hl Hp Hv Hni Hd H0 Hlt Hset s w Hw Hw0 k Hk.
  pose proof (aget_aset _ _ (pos BITVEC_NINT (home w) k) _ _ Hset) as Hget.
  rewrite (aget_aset _ _ _ _ _ Hset) in Hw.
  destruct (decide (s = pos BITVEC_NINT (home v) d)) as [->|Hs].
  - simplify_eq. rewrite dist_pos in Hk by done. destruct (Hlt k Hk) as (x & Hx & ? & ?).
    rewrite Hget. case_decide as E; [|eauto]. apply pos_inj in E; lia || done.
  - destruct (Hp s w Hw Hw0 k Hk) as (x & Hx & ? & ?). rewrite Hget.
    case_decide; [|eauto]. exists v. split_and!; [done..|]. intros ->. apply Hni, aget_elem. eauto.
Qed.

(** ** The search loops follow the walk *)

Lemma next_pos h : 0 <= h < BITVEC_NINT ->
  (if h + 1 >=? BITVEC_NINT then 0 else h + 1) = pos BITVEC_NINT h 1.
Proof.
  intros. unfold pos. rewrite Z.geb_leb. destruct (Z.leb_spec BITVEC_NINT (h + 1)).
  - replace (h + 1) with BITVEC_NINT by lia. done.
  - rewrite Z.mod_small by lia. done.
Qed.

Section Loops.
Context (t : list Z) (v : Z).
Local Abbreviation at_ h k := (aget t (pos BITVEC_NINT h k)).

Definition passes (h : Z) (d : nat) : Prop :=
  forall j, 0 <= j < Z.of_nat d -> exists x, at_ h j = Some x /\ x <> 0 /\ x <> v.

Lemma passes_step h d : passes h (S d) -> passes (pos BITVEC_NINT h 1) d.
Proof. intros H j Hj. rewrite pos_step. apply H. lia. Qed.

Lemma passes_first h d : 0 <= h < BITVEC_NINT -> passes h (S d) ->
  exists x, aget t h = Some x /\ x <> 0 /\ x <> v.
Proof. intros Hh H. specialize (H 0 ltac:(lia)). by rewrite pos_0 in H. Qed.

Lemma pos_S h d : pos BITVEC_NINT h (Z.of_nat (S d)) = pos BITVEC_NINT (pos BITVEC_NINT h 1) (Z.of_nat d).
Proof. rewrite pos_step. f_equal. lia. Qed.

Lemma test_hash_walk d : forall fuel h w, (d < fuel)%nat -> 0 <= h < BITVEC_NINT ->
  at_ h (Z.of_nat d) = Some w -> w = v \/ w = 0 -> v <> 0 -> passes h d ->
  test_hash fuel t h v = Some (w =? v).
Proof.
  induction d as [|d IH]; intros [|fuel] h w Hf Hh Hd Hw Hv Hp; try lia.
  - rewrite pos_0 in Hd by done. cbn [test_hash]. rewrite Hd. cbn [mbind option_bind].
    destruct (Z.eqb_spec w 0), (Z.eqb_spec w v); congruence || naive_solver.
  - destruct (passes_first _ _ Hh Hp) as (x & Hx & H0%Z.eqb_neq & H1%Z.eqb_neq).
    cbn [test_hash]. rewrite Hx. cbn [mbind option_bind]. rewrite H0, H1.
    rewrite pos_S in Hd. apply IH; try done; [lia|by apply pos_range|by apply passes_step].
Qed.

Lemma clear_probe_walk d : forall fuel h, (d < fuel)%nat -> 0 <= h < BITVEC_NINT ->
  at_ h (Z.of_nat d) = Some 0 -> passes h d ->
  clear_probe fuel t h = Some (pos BITVEC_NINT h (Z.of_nat d)).
Proof.
  induction d as [|d IH]; intros [|fuel] h Hf Hh Hd Hp; try lia.
  - rewrite pos_0 in Hd |- * by done. cbn [clear_probe]. by rewrite Hd.
  - destruct (passes_first _ _ Hh Hp) as (x & Hx & H0%Z.eqb_neq & _).
    cbn [clear_probe]. rewrite Hx. cbn [mbind option_bind]. rewrite H0, next_pos by done.
    rewrite pos_S in Hd |- *. apply IH; try done; [lia|by apply pos_range|by apply passes_step].
Qed.

Lemma set_probe_walk d : forall fuel h w, (d < fuel)%nat -> 0 <= h < BITVEC_NINT ->
  at_ h (Z.of_nat d) = Some w -> w = v \/ w = 0 /\ d <> O -> v <> 0 -> passes h d ->
  set_probe fuel t h v
  = Some (if w =? v then None else Some (pos BITVEC_NINT h (Z.of_nat d))).
Proof.
  induction d as [|d IH]; intros [|fuel] h w Hf Hh Hd Hw Hv Hp; try lia.
  - rewrite pos_0 in Hd |- * by done. destruct Hw as [->|[_ ?]]; [|done].
    cbn [set_probe]. rewrite Hd. cbn [mbind option_bind]. by rewrite Z.eqb_refl.
  - destruct (passes_first _ _ Hh Hp) as (x & Hx & _ & H1%Z.eqb_neq).
    cbn [set_probe]. rewrite Hx. cbn [mbind option_bind]. rewrite H1, next_pos by done.
    rewrite pos_S in Hd |- *. apply passes_step in Hp. pose proof (pos_range BITVEC_NINT ltac:(done) h 1) as Hr.
    destruct d as [|d].
    + rewrite pos_0 in Hd |- * by done. rewrite Hd. cbn [mbind option_bind].
      destruct Hw as [->|[-> _]].
      * destruct (Z.eqb_spec v 0); [done|]. destruct fuel; [lia|]. cbn [set_probe]. rewrite Hd.
        cbn [mbind option_bind]. by rewrite Z.eqb_refl.
      * destruct (Z.eqb_spec 0 v); [done|]. done.
    + destruct (passes_first _ _ Hr Hp) as (y & Hy & H0%Z.eqb_neq & _). rewrite Hy.
      cbn [mbind option_bind]. rewrite H0. apply IH; try done; [lia|]. naive_solver.
Qed.
End Loops.

(** ** Operations on the hash table form *)

(** Storing [v] in slot [h] adds it to a table with room for it. *)
Definition stores (sz ns : Z) (t : list Z) (v h : Z) : Prop :=
  exists t', aset t h v = Some t' /\
    (ns + 1 < BITVEC_NINT -> hash_ok sz (ns + 1) t') /\
    forall w, w <> 0 -> (w ∈ t' <-> w = v \/ w ∈ t).

Lemma aset_elem t s v t' w :
  aget t s = Some 0 -> aset t s v = Some t' -> w <> 0 -> w ∈ t' <-> w = v \/ w ∈ t.
Proof.
  intros H0 Hset Hw. rewrite !aget_elem. split.
  - intros [i Hi]. rewrite (aget_aset _ _ _ _ _ Hset) in Hi. case_decide; naive_solver.
  - intros [->|[i Hi]]; [exists s; by eapply aget_aset_eq|].
    exists i. rewrite (aget_aset_ne _ _ _ _ _ Hset); [done|]. intros ->. congruence.
Qed.

Section Hashed.
Context (sz ns : Z) (t : list Z) (Hok : hash_ok sz ns t).
Context (v : Z) (Hv : 1 <= v <= sz).

Lemma walk_stores d :
  v ∉ t -> 0 <= d < BITVEC_NINT -> aget t (pos BITVEC_NINT (home v) d) = Some 0 ->
  (forall j, 0 <= j < d -> exists x, aget t (pos BITVEC_NINT (home v) j) = Some x /\ x <> 0 /\ x <> v) ->
  stores sz ns t v (pos BITVEC_NINT (home v) d).
Proof.
  intros Hni Hd H0 Hlt. destruct Hok as (Hl & HF & Hn & Hns & Hp).
  destruct (aset t (pos BITVEC_NINT (home v) d) v) as [t'|] eqn:Hset.
  2:{ rewrite aset_in in Hset; [done|]. rewrite Hl. by apply pos_range. }
  exists t'. split_and!; [done| |].
  - intros Hroom. split_and!.
    + by rewrite (aset_alen _ _ _ _ Hset).
    + eapply aset_Forall; [done..|simpl; lia].
    + rewrite (nz_insert _ _ _ _ H0 Hset); lia.
    + done.
    + apply (paths_insert t d v); done || lia.
  - intros w Hw. by eapply aset_elem.
Qed.

Lemma hash_test : test_hash (Z.to_nat BITVEC_NINT) t (home v) v = Some (bool_decide (v ∈ t)).
Proof.
  destruct Hok as (Hl & HF & Hn & Hns & Hp).
  destruct (walk_find t v) as (d & w & Hd & Hw & Hcase & Hlt); [done|lia|done|lia|].
  rewrite <- (Z2Nat.id d) in Hw, Hlt by lia.
  rewrite (test_hash_walk t v (Z.to_nat d) _ (home v) w);
    [|lia|apply BITVEC_HASH_range|done|naive_solver|lia|done].
  f_equal. destruct Hcase as [[-> ?]|[-> ?]].
  - by rewrite Z.eqb_refl, bool_decide_true.
  - rewrite bool_decide_false by done. apply Z.eqb_neq. lia.
Qed.

(** The home slot is free: it stores the value. *)
Lemma hash_home_free : aget t (home v) = Some 0 -> (v ∉ t) /\ stores sz ns t v (home v).
Proof.
  intros H0. destruct Hok as (Hl & HF & Hn & Hns & Hp).
  pose proof (BITVEC_HASH_range (v - 1)) as Hr. fold (home v) in Hr.
  assert (Hni : v ∉ t).
  { pose proof hash_test as Ht.
    rewrite (test_hash_walk t v 0 _ (home v) 0) in Ht;
      [|lia|done|by rewrite pos_0|by right|lia|intros j; lia].
    case_bool_decide; [|done]. destruct (Z.eqb_spec 0 v); [lia|done]. }
  split; [done|]. rewrite <- (pos_0 BITVEC_NINT (home v)) in H0 |- * by done.
  apply walk_stores; done || lia.
Qed.

(** The home slot is taken: the search finds the value or a slot for it. *)
Lemma hash_probe x : aget t (home v) = Some x -> x <> 0 ->
  exists r, set_probe (Z.to_nat BITVEC_NINT) t (home v) v = Some r /\
    match r with None => v ∈ t | Some h => (v ∉ t) /\ stores sz ns t v h end.
Proof.
  intros Hx Hx0. destruct Hok as (Hl & HF & Hn & Hns & Hp).
  destruct (walk_find t v) as (d & w & Hd & Hw & Hcase & Hlt); [done|lia|done|lia|].
  pose proof (BITVEC_HASH_range (v - 1)) as Hr. fold (home v) in Hr.
  pose proof Hw as Hw'. pose proof Hlt as Hlt'. rewrite <- (Z2Nat.id d) in Hw', Hlt' by lia.
  eexists. split; [apply (set_probe_walk _ _ (Z.to_nat d) _ _ w); try done; try lia|].
  - destruct Hcase as [[-> ?]|[-> ?]]; [by left|right; split; [done|]].
    intros Hd0. assert (d = 0) as -> by lia. rewrite pos_0 in Hw by done. congruence.
  - destruct Hcase as [[-> ?]|[-> ?]]; [by rewrite Z.eqb_refl|].
    destruct (Z.eqb_spec 0 v); [lia|]. rewrite Z2Nat.id by lia. split; [done|]. by apply walk_stores.
Qed.

Lemma hash_clear_probe : v ∉ t ->
  exists h, clear_probe (Z.to_nat BITVEC_NINT) t (home v) = Some h /\ stores sz ns t v h.
Proof.
  intros Hni. destruct Hok as (Hl & HF & Hn & Hns & Hp).
  destruct (walk_find t v) as (d & w & Hd & Hw & Hcase & Hlt); [done|lia|done|lia|].
  destruct Hcase as [[_ ?]|[-> _]]; [done|].
  pose proof Hw as Hw'. pose proof Hlt as Hlt'. rewrite <- (Z2Nat.id d) in Hw', Hlt' by lia.
  exists (pos BITVEC_NINT (home v) d). split; [|by apply walk_stores].
  rewrite <- (Z2Nat.id d) by lia.
  eapply clear_probe_walk; try done; [lia|apply BITVEC_HASH_range].
Qed.
End Hashed.

Lemma hash_ok_empty sz : 0 <= sz -> hash_ok sz 0 (replicate (Z.to_nat BITVEC_NINT) 0).
Proof.
  intros Hsz. split_and!; try done.
  - apply Forall_replicate. simpl. lia.
  - intros s v Hs Hv. pose proof (aget_range _ _ _ Hs) as Hr. rewrite aget_replicate in Hs; [congruence|done].
Qed.

(** The values of a table are distinct. *)
Lemma hash_ok_NoDup sz ns t : hash_ok sz ns t -> NoDup (filter (fun v => v <> 0) t).
Proof.
  intros (Hl & _ & _ & _ & Hp).
  assert (H : forall i j v, t !! i = Some v -> t !! j = Some v -> v <> 0 -> i = j).
  { intros i j v Hi Hj Hv. apply Nat2Z.inj. apply (paths_unique t _ _ v); rewrite ?aget_of_nat; done. }
  clear Hl Hp. induction t as [|v t IH]; [constructor|]. rewrite filter_cons.
  assert (NoDup (filter (fun v => v <> 0) t)).
  { apply IH. intros i j w Hi Hj Hw. assert (S i = S j) by (by eapply (H _ _ w)). lia. }
  case_decide as Hv; [|done]. constructor; [|done].
  intros [_ [k Hk]%list_elem_of_lookup]%list_elem_of_filter. assert (0%nat = S k); [|done]. by eapply (H _ _ v).
Qed.

(** The rebuild of [sqlite3BitvecClear] stores the other values. *)
Lemma clear_rebuild_spec sz i vs : forall ns t,
  hash_ok sz ns t -> Forall (fun v => 0 <= v <= sz) vs -> NoDup (filter (fun v => v <> 0) vs) ->
  (forall v, v ∈ vs -> v <> 0 -> v ∉ t) -> ns + nz vs < BITVEC_NINT ->
  exists ns' t', clear_rebuild i vs ns t = Some (ns', t') /\ hash_ok sz ns' t' /\
    forall w, w <> 0 -> (w ∈ t' <-> w ∈ t \/ (w ∈ vs /\ w <> i + 1)).
Proof.
  induction vs as [|v vs IH]; intros ns t Hok HF Hnd Hfr Hroom.
  { exists ns, t. split_and!; [done..|]. set_solver. }
  inversion HF as [|? ? Hv HF']; subst. rewrite nz_cons in Hroom. rewrite filter_cons in Hnd.
  cbn [clear_rebuild]. destruct (decide (v = 0)) as [->|Hv0].
  { cbn. case_decide; [done|].
    destruct (IH ns t) as (ns' & t' & -> & ? & Hel); try done; [intros; apply Hfr; [by right|done]|].
    exists ns', t'. split_and!; [done..|]. intros w Hw. rewrite Hel, elem_of_cons by done. clear -Hw. naive_solver. }
  rewrite decide_True in Hnd by done. inversion Hnd as [|? ? Hvn Hnd']; subst.
  rewrite list_elem_of_filter in Hvn. pose proof (nz_bound vs).
  destruct (Z.eqb_spec v 0); [done|]. destruct (Z.eqb_spec v (i + 1)) as [->|Hne]; cbn [negb andb].
  { destruct (IH ns t) as (ns' & t' & -> & ? & Hel); try done; [intros; apply Hfr; [by right|done]|lia|].
    exists ns', t'. split_and!; [done..|]. intros w Hw. rewrite Hel, elem_of_cons by done. clear -Hw. naive_solver. }
  destruct (hash_clear_probe sz ns t Hok v) as (h & Hh & t1 & Ht1 & Hok1 & Hel1); [lia|apply Hfr; [by left|done]|].
  unfold home in Hh. rewrite Hh. cbn [mbind option_bind]. rewrite Ht1. cbn [mbind option_bind].
  destruct (IH (ns + 1) t1) as (ns' & t' & -> & ? & Hel); try done; [apply Hok1; lia| |lia|].
  { intros w Hw Hw0. rewrite Hel1 by done. intros [->|Hwt]; [by apply Hvn|].
    revert Hwt. apply Hfr; [by right|done]. }
  exists ns', t'. split_and!; [done..|]. intros w Hw. rewrite Hel, Hel1, elem_of_cons by done. clear -Hw Hne. naive_solver.
Qed.

(** ** The invariant and the contents of a bit vector *)

(** The largest [iSize] that [d] levels of sub-division below a bitmap hold. *)
Fixpoint cap (d : nat) : Z :=
  match d with O => BITVEC_NBIT | S d => BITVEC_NPTR * cap d end.

Fixpoint wf (d : nat) (p : Bitvec) : Prop :=
  match d with
  | O => False
  | S d =>
      let 'MkBitvec sz ns dv u := p in
      0 <= sz < 2 ^ 32 /\ sz <= cap d /\
      match u with
      | aBitmap a =>
          sz <= BITVEC_NBIT /\ dv = 0 /\ alen a = BITVEC_NELEM /\ Forall is_u8 a
      | aHash t => BITVEC_NBIT < sz /\ dv = 0 /\ hash_ok sz ns t
      | apSub a =>
          BITVEC_NBIT < sz /\ dv = (sz + BITVEC_NPTR - 1) / BITVEC_NPTR /\
          alen a = BITVEC_NPTR /\
          Forall (fun o => match o with Some q => wf d q /\ iSize q = dv | None => True end) a
      end
  end.

(** Is the bit with 0-based index [i] set? *)
Fixpoint bits (d : nat) (p : Bitvec) (i : Z) : bool :=
  match d with
  | O => false
  | S d =>
      let 'MkBitvec sz ns dv u := p in
      match u with
      | aBitmap a => match aget a (i / 8) with Some b => Z.testbit b (i mod 8) | None => false end
      | aHash t => bool_decide (i + 1 ∈ t)
      | apSub a =>
          match aget a (i / dv) with Some (Some q) => bits d q (i mod dv) | _ => false end
      end
  end.

Lemma cap_5 sz : sz < 2 ^ 32 -> sz <= cap 4.
Proof. intros. assert (2 ^ 32 <= cap 4) by done. lia. Qed.

Lemma low3 i : i .& (BITVEC_SZELEM - 1) = i mod 8.
Proof. by apply (land_ones_mod i 3). Qed.

Lemma bit_set b k n : is_u8 b -> 0 <= k < 8 -> 0 <= n < 8 ->
  Z.testbit (u8 (b .| (1 << k))) n = (n =? k) || Z.testbit b n.
Proof.
  intros Hb Hk Hn. unfold u8. rewrite Z.mod_pow2_bits_low, Z.lor_spec, Z.shiftl_1_l, Z.pow2_bits_eqb by lia.
  rewrite orb_comm. f_equal. apply Z.eqb_sym.
Qed.

Lemma bit_clear b k n : is_u8 b -> 0 <= k < 8 -> 0 <= n < 8 ->
  Z.testbit (u8 (b .& Z.lnot (1 << k))) n = negb (n =? k) && Z.testbit b n.
Proof.
  intros Hb Hk Hn. unfold u8.
  rewrite Z.mod_pow2_bits_low, Z.land_spec, Z.lnot_spec, Z.shiftl_1_l, Z.pow2_bits_eqb by lia.
  rewrite andb_comm. do 2 f_equal. apply Z.eqb_sym.
Qed.

(** The sub-bitmap of bit [i] and its index there. *)
Lemma bin_range sz i dv : BITVEC_NBIT < sz -> dv = (sz + BITVEC_NPTR - 1) / BITVEC_NPTR ->
  0 <= i < sz -> 0 < dv /\ 0 <= i / dv < BITVEC_NPTR /\ 0 <= i mod dv < dv.
Proof.
  unfold BITVEC_NBIT, BITVEC_NPTR. intros Hsz -> Hi.
  assert (0 < (sz + 62 - 1) / 62) by zdm. split_and!; try done.
  - apply Z.div_pos; lia.
  - apply Z.div_lt_upper_bound; [lia|]. zdm.
  - apply Z.mod_pos_bound; lia.
  - apply Z.mod_pos_bound; lia.
Qed.

Lemma sub_size d sz dv : sz <= cap (S d) -> BITVEC_NBIT < sz -> sz < 2 ^ 32 ->
  dv = (sz + BITVEC_NPTR - 1) / BITVEC_NPTR -> 0 <= dv < 2 ^ 32 /\ dv <= cap d.
Proof. cbn [cap]. unfold BITVEC_NBIT, BITVEC_NPTR. intros. subst. zdm. Qed.

Lemma split_eq i j dv : 0 < dv -> i = j <-> i / dv = j / dv /\ i mod dv = j mod dv.
Proof.
  intros. split; [by intros ->|]. intros [H1 H2].
  rewrite (Z.div_mod i dv), (Z.div_mod j dv), H1, H2 by lia. done.
Qed.

Lemma wf_Sd d p : wf d p -> exists d', d = S d'.
Proof. destruct d; [done|eauto]. Qed.

Lemma test_loop_bits d : forall fuel p i,
  wf d p -> (d <= fuel)%nat -> 0 <= i < iSize p -> test_loop fuel p i = Some (bits d p i).
Proof.
  induction d as [|d IH]; intros fuel [sz ns dv u] i Hwf Hf Hi; [done|].
  destruct fuel as [|fuel]; [lia|]. cbn [iSize] in Hi. cbn [wf] in Hwf. destruct Hwf as (Hsz & Hc & Hu).
  cbn [test_loop bits]. destruct u as [a|t|a].
  - destruct Hu as (Hb & -> & Hl & HF). cbn [negb Z.eqb].
    destruct (Z.leb_spec sz BITVEC_NBIT); [|lia].
    destruct (aget_is_Some a (i / BITVEC_SZELEM)) as [b Hg].
    { rewrite Hl. unfold BITVEC_SZELEM, BITVEC_NELEM, BITVEC_NBIT in *. zdm. }
    rewrite Hg. cbn [mbind option_bind]. unfold BITVEC_SZELEM in Hg. rewrite Hg, low3, bit_test by zdm. done.
  - destruct Hu as (Hb & -> & Hok). cbn [negb Z.eqb].
    destruct (Z.leb_spec sz BITVEC_NBIT); [lia|]. rewrite u32_id by (unfold is_u32; lia).
    rewrite <- (hash_test sz ns t Hok) by lia. unfold home. do 2 f_equal. lia.
  - destruct Hu as (Hb & Hdv & Hl & HF). destruct (bin_range sz i dv) as (? & ? & ?); try done.
    destruct (Z.eqb_spec dv 0); [lia|]. cbn [negb].
    destruct (aget_is_Some a (i / dv)) as [q Hg]; [lia|]. rewrite Hg. cbn [mbind option_bind].
    pose proof (aget_Forall _ _ _ _ HF Hg) as Hq. destruct q as [q|]; [|done].
    destruct Hq as [Hq Hqs]. apply IH; [done|lia|]. rewrite Hqs. lia.
Qed.

Lemma clear_loop_bits d : forall fuel p i,
  wf d p -> (d <= fuel)%nat -> 0 <= i < iSize p ->
  exists p', clear_loop fuel p i = Some p' /\ wf d p' /\ iSize p' = iSize p /\
    forall j, 0 <= j < iSize p -> bits d p' j = negb (j =? i) && bits d p j.
Proof.
  induction d as [|d IH]; intros fuel [sz ns dv u] i Hwf Hf Hi; [done|].
  destruct fuel as [|fuel]; [lia|]. cbn [iSize] in Hi. cbn [wf] in Hwf. destruct Hwf as (Hsz & Hc & Hu).
  cbn [clear_loop]. destruct u as [a|t|a].
  - destruct Hu as (Hb & -> & Hl & HF). cbn [negb Z.eqb].
    destruct (Z.leb_spec sz BITVEC_NBIT); [|lia].
    assert (Hr : 0 <= i / 8 < alen a).
    { rewrite Hl. unfold BITVEC_NELEM, BITVEC_NBIT in *. zdm. }
    rewrite low3. unfold BITVEC_SZELEM. destruct (aget_is_Some a (i / 8)) as [b Hg]; [done|].
    rewrite Hg. cbn [mbind option_bind].
    destruct (aset a (i / 8) _) as [a'|] eqn:Hset; [|by rewrite aset_in in Hset].
    cbn [mbind option_bind]. eexists. split; [done|]. cbn [wf iSize]. split_and!; try done; try lia.
    + by rewrite (aset_alen _ _ _ _ Hset).
    + eapply aset_Forall; [done..|]. apply u8_range.
    + intros j Hj. cbn [bits]. rewrite (aget_aset _ _ _ _ _ Hset). case_decide as E.
      * rewrite E, Hg, bit_clear by (try zdm; by eapply aget_Forall). f_equal. f_equal.
        apply Bool.eq_iff_eq_true. rewrite !Z.eqb_eq, (split_eq j i 8) by lia. naive_solver.
      * destruct (Z.eqb_spec j i) as [->|]; done.
  - destruct Hu as (Hb & -> & Hok). cbn [negb Z.eqb].
    destruct (Z.leb_spec sz BITVEC_NBIT); [lia|].
    pose proof Hok as (Hl & HF & Hn & Hns & Hp).
    destruct (clear_rebuild_spec sz i t 0 (replicate (Z.to_nat BITVEC_NINT) 0)) as (ns' & t' & -> & Hok' & Hel).
    + apply hash_ok_empty. lia.
    + done.
    + by eapply hash_ok_NoDup.
    + intros v _ Hv Hin%elem_of_replicate. naive_solver.
    + lia.
    + cbn [mbind option_bind]. eexists. split; [done|]. cbn [wf iSize]. split_and!; try done; try lia.
      intros j Hj. cbn [bits]. apply Bool.eq_iff_eq_true.
      rewrite andb_true_iff, negb_true_iff, Z.eqb_neq, !bool_decide_eq_true, Hel, elem_of_replicate by lia.
      split; [intros [[??]|[??]]|]; naive_solver lia.
  - destruct Hu as (Hb & Hdv & Hl & HF). destruct (bin_range sz i dv) as (? & ? & ?); try done.
    destruct (Z.eqb_spec dv 0); [lia|]. cbn [negb].
    destruct (aget_is_Some a (i / dv)) as [q Hg]; [lia|]. rewrite Hg. cbn [mbind option_bind].
    pose proof (aget_Forall _ _ _ _ HF Hg) as Hq. destruct q as [q|].
    + destruct Hq as [Hq Hqs]. destruct (IH fuel q (i mod dv)) as (q' & -> & Hq' & Hs' & Hbits); [done|lia|lia|].
      cbn [mbind option_bind].
      destruct (aset a (i / dv) _) as [a'|] eqn:Hset; [|rewrite aset_in in Hset; done || lia].
      cbn [mbind option_bind]. eexists. split; [done|]. cbn [wf iSize]. split_and!; try done; try lia.
      * by rewrite (aset_alen _ _ _ _ Hset).
      * eapply aset_Forall; [done..|]. split; [done|lia].
      * intros j Hj. cbn [bits]. rewrite (aget_aset _ _ _ _ _ Hset). case_decide as E.
        -- rewrite E, Hg, Hbits by (rewrite Hqs; apply Z.mod_pos_bound; lia). do 2 f_equal.
           apply Bool.eq_iff_eq_true. rewrite !Z.eqb_eq, (split_eq j i dv) by lia. naive_solver.
        -- destruct (Z.eqb_spec j i) as [->|]; done.
    + eexists. split; [done|]. cbn [wf iSize]. split_and!; try done; try lia.
      intros j Hj. cbn [bits]. destruct (Z.eqb_spec j i) as [->|]; [|done]. by rewrite Hg.
Qed.

(** ** Setting a bit *)

(** What a call that sets the 0-based bits [add] in [p] may return: the bits
    are added, or an allocation failed and no other bit appeared. *)
Definition set_post (d : nat) (al : alloc) (p : Bitvec) (add : Z -> bool) (r : option set_result) : Prop :=
  exists rc p' al', r = Some (rc, p', al') /\ wf d p' /\ iSize p' = iSize p /\
    (rc = SQLITE_OK \/ rc = SQLITE_NOMEM) /\
    (rc = SQLITE_OK -> forall j, 0 <= j < iSize p -> bits d p' j = add j || bits d p j) /\
    (forall j, 0 <= j < iSize p -> bits d p' j = true -> add j || bits d p j = true) /\
    (never_fails al -> rc = SQLITE_OK /\ never_fails al').

Definition is_sub (p : Bitvec) : bool :=
  match p with MkBitvec _ _ _ (apSub _) => true | _ => false end.

Definition still_sub (r : option set_result) : Prop :=
  match r with Some (_, p, _) => is_sub p = true | None => True end.

Lemma set_post_ok d al p add p' :
  wf d p' -> iSize p' = iSize p ->
  (forall j, 0 <= j < iSize p -> bits d p' j = add j || bits d p j) ->
  set_post d al p add (Some (SQLITE_OK, p', al)).
Proof.
  intros Hwf Hs Hb. exists SQLITE_OK, p', al. split_and!; try done; [by left|].
  intros j Hj. by rewrite Hb.
Qed.

Lemma set_post_nomem d al al' p add :
  wf d p -> (never_fails al -> False) -> set_post d al p add (Some (SQLITE_NOMEM, p, al')).
Proof.
  intros Hwf Hal. exists SQLITE_NOMEM, p, al'. split_and!; try done; [by right|].
  intros j Hj ->. apply orb_true_r.
Qed.

Lemma create_wf d sz : 0 <= sz < 2 ^ 32 -> sz <= cap d -> wf (S d) (MkBitvec sz 0 0 (zero_union sz)).
Proof.
  intros Hsz Hc. cbn [wf]. split_and!; try lia. unfold zero_union.
  destruct (Z.leb_spec sz BITVEC_NBIT).
  - split_and!; try done. apply Forall_replicate. by cbv.
  - split_and!; try done. apply hash_ok_empty. lia.
Qed.

Lemma create_bits d sz i : 0 <= i -> bits d (MkBitvec sz 0 0 (zero_union sz)) i = false.
Proof.
  intros Hi. destruct d; [done|]. cbn [bits]. unfold zero_union. destruct (sz <=? BITVEC_NBIT).
  - case_match eqn:Hg; [|done]. pose proof (aget_range _ _ _ Hg). rewrite aget_replicate in Hg by done.
    simplify_eq. apply Z.bits_0.
  - apply bool_decide_eq_false. intros [? _]%elem_of_replicate. lia.
Qed.

Section SetSub.
Context (d : nat).
Context (IH : forall fuel al p i, wf d p -> (2 * d <= fuel)%nat -> 0 <= i < iSize p ->
  set_post d al p (fun j => j =? i) (set_loop fuel al p i)).

(** The sub-bitmap, created when it is missing. *)
Lemma sub_or_new sz dv al q :
  match q with Some q => wf d q /\ iSize q = dv | None => True end ->
  dv = (sz + BITVEC_NPTR - 1) / BITVEC_NPTR -> BITVEC_NBIT < sz -> sz < 2 ^ 32 -> sz <= cap d ->
  exists o al1,
    (match q with None => sqlite3BitvecCreate al dv | Some q => (Some q, al) end) = (o, al1) /\
    (never_fails al -> never_fails al1 /\ is_Some o) /\
    (forall q', o = Some q' -> wf d q' /\ iSize q' = dv /\
       forall j, 0 <= j -> bits d q' j = match q with Some q => bits d q j | None => false end).
Proof.
  intros Hq Hdv Hb Hsz Hc. destruct q as [q|].
  - exists (Some q), al. split_and!; [done|by eauto|]. intros ? [= <-]. naive_solver.
  - unfold sqlite3BitvecCreate. destruct (malloc al) as [ok al1] eqn:Em.
    eexists _, _. split_and!; [done| |].
    + intros Hal. destruct (malloc_never_fails al Hal) as (al2 & E & ?). rewrite Em in E.
      simplify_eq. split; [done|by eexists].
    + intros q' Hq'. destruct ok; [injection Hq' as <-|done]. split_and!; [|done|].
      * destruct d as [|d0]; [cbn in Hc; lia|]. destruct (sub_size d0 sz dv); try done; try lia.
        by apply create_wf.
      * intros j Hj. by apply create_bits.
Qed.

(** On a sub-divided bit vector the work is done one level below. *)
Lemma set_sub fuel al p i : wf (S d) p -> is_sub p = true -> (2 * d < fuel)%nat -> 0 <= i < iSize p ->
  set_post (S d) al p (fun j => j =? i) (set_loop fuel al p i) /\ still_sub (set_loop fuel al p i).
Proof.
  destruct p as [sz ns dv [| |a]]; intros Hwf Hsub Hf Hi; try done. clear Hsub.
  pose proof Hwf as (Hsz & Hc & Hb & Hdv & Hl & HF). cbn [iSize] in Hi.
  destruct (bin_range sz i dv) as (? & ? & ?); try done.
  destruct fuel as [|fuel]; [lia|]. cbn [set_loop]. rewrite Z.gtb_ltb.
  destruct (Z.ltb_spec BITVEC_NBIT sz); [|lia]. destruct (Z.eqb_spec dv 0); [lia|]. cbn [negb andb].
  destruct (aget_is_Some a (i / dv)) as [q Hg]; [lia|]. rewrite Hg. cbn [mbind option_bind].
  destruct (sub_or_new sz dv al q (aget_Forall _ _ _ _ HF Hg) Hdv Hb ltac:(lia) Hc) as (o & al1 & E & Hal & Ho).
  rewrite E. clear E. destruct o as [q'|].
  2:{ split; [|done]. apply set_post_nomem; [done|]. intros [_ []%is_Some_None]%Hal. }
  destruct (Ho q' eq_refl) as (Hwf' & Hs' & Hb').
  destruct (IH fuel al1 q' (i mod dv)) as (rc & q2 & al2 & -> & Hwf2 & Hs2 & Hrc & Hok2 & Hno2 & Hal2); [done|lia|lia|].
  cbn [mbind option_bind].
  destruct (aset a (i / dv) (Some q2)) as [a'|] eqn:Hset; [|rewrite aset_in in Hset; done || lia].
  cbn [mbind option_bind]. split; [|done].
  assert (Hother : forall j, j / dv <> i / dv ->
    bits (S d) (MkBitvec sz ns dv (apSub a')) j = (j =? i) || bits (S d) (MkBitvec sz ns dv (apSub a)) j).
  { intros j Hj. cbn [bits]. rewrite (aget_aset_ne _ _ _ _ _ Hset) by done.
    destruct (Z.eqb_spec j i); [congruence|done]. }
  assert (Hsame : forall j, j / dv = i / dv ->
    bits (S d) (MkBitvec sz ns dv (apSub a')) j = bits d q2 (j mod dv) /\
    (j =? i) || bits (S d) (MkBitvec sz ns dv (apSub a)) j = (j mod dv =? i mod dv) || bits d q' (j mod dv)).
  { intros j Hj. cbn [bits]. rewrite Hj, (aget_aset_eq _ _ _ _ Hset), Hg. split; [done|].
    rewrite Hb' by (apply Z.mod_pos_bound; lia). replace (j =? i) with (j mod dv =? i mod dv); [by destruct q|].
    apply Bool.eq_iff_eq_true. rewrite !Z.eqb_eq, (split_eq j i dv) by lia. naive_solver. }
  exists rc, (MkBitvec sz ns dv (apSub a')), al2. split_and!; try done.
  - cbn [wf]. split_and!; try done; try lia; [by rewrite (aset_alen _ _ _ _ Hset)|].
    eapply aset_Forall; [done..|]. split; [done|lia].
  - intros Hrc0 j Hj. destruct (decide (j / dv = i / dv)) as [E|E]; [|by apply Hother].
    destruct (Hsame j E) as [-> ->]. apply Hok2; [done|]. rewrite Hs'. apply Z.mod_pos_bound; lia.
  - intros j Hj. destruct (decide (j / dv = i / dv)) as [E|E]; [|by rewrite Hother].
    destruct (Hsame j E) as [-> ->]. apply Hno2. rewrite Hs'. apply Z.mod_pos_bound; lia.
  - intros Hnf. apply Hal2. naive_solver.
Qed.

(** The calls of the re-hash add the values one by one. *)
Lemma rehash_post fuel (vs : list Z) : (2 * d < fuel)%nat -> forall rc p al,
  wf (S d) p -> is_sub p = true -> Forall (fun v => 0 <= v <= iSize p) vs ->
  rc = SQLITE_OK \/ rc = SQLITE_NOMEM ->
  exists rc' p' al',
    rehash_loop (fun al p v => set_loop fuel al p (v - 1)) rc p al vs = Some (rc', p', al') /\
    wf (S d) p' /\ iSize p' = iSize p /\ (rc' = SQLITE_OK \/ rc' = SQLITE_NOMEM) /\
    (rc' = SQLITE_OK -> rc = SQLITE_OK /\ forall j, 0 <= j < iSize p ->
       bits (S d) p' j = bool_decide (j + 1 ∈ vs) || bits (S d) p j) /\
    (forall j, 0 <= j < iSize p -> bits (S d) p' j = true ->
       bool_decide (j + 1 ∈ vs) || bits (S d) p j = true) /\
    (never_fails al -> rc' = rc /\ never_fails al').
Proof.
  intros Hf. induction vs as [|v vs IHvs]; intros rc p al Hwf Hsub HF Hrc.
  { exists rc, p, al. split_and!; done. }
  inversion HF as [|? ? Hv HF']; subst. cbn [rehash_loop].
  assert (Hin : forall j, 0 <= j -> bool_decide (j + 1 ∈ v :: vs) = (j =? v - 1) || bool_decide (j + 1 ∈ vs)).
  { intros j Hj. apply Bool.eq_iff_eq_true.
    rewrite orb_true_iff, !bool_decide_eq_true, Z.eqb_eq, elem_of_cons. intuition lia. }
  destruct (Z.eqb_spec v 0) as [->|Hv0].
  - destruct (IHvs rc p al) as (rc' & p' & al' & -> & ? & ? & ? & Hok & Hno & ?); try done.
    exists rc', p', al'. split_and!; try done.
    + intros H'. destruct (Hok H') as [? Hb]. split; [done|]. intros j Hj. rewrite Hb, Hin by lia.
      destruct (Z.eqb_spec j (0 - 1)); [lia|done].
    + intros j Hj H'. rewrite Hin by lia. destruct (Z.eqb_spec j (0 - 1)); [lia|]. by apply Hno.
  - destruct (set_sub fuel al p (v - 1)) as [(r & p1 & al1 & E1 & Hwf1 & Hs1 & Hr & Hok1 & Hno1 & Hal1) Hsub1]; try done; [lia|].
    rewrite E1 in Hsub1 |- *. cbn [mbind option_bind].
    destruct (IHvs (rc .| r) p1 al1) as (rc' & p' & al' & -> & ? & Hs' & ? & Hok & Hno & Hal); try done.
    { by rewrite Hs1. }
    { destruct Hrc as [->| ->], Hr as [->| ->]; cbv; auto. }
    rewrite Hs1 in Hs', Hok, Hno. exists rc', p', al'. split_and!; try done.
    + intros H'. destruct (Hok H') as [Hz Hb].
      assert (rc = SQLITE_OK /\ r = SQLITE_OK) as [-> ->].
      { destruct Hrc as [->| ->], Hr as [->| ->]; cbv in Hz; naive_solver. }
      split; [done|]. intros j Hj. rewrite Hb, Hok1, Hin, orb_assoc by done || lia. f_equal. apply orb_comm.
    + intros j Hj H'. apply Hno in H'; [|done]. rewrite Hin by lia.
      apply orb_true_iff in H' as [->|H']; [by rewrite orb_true_r|]. apply Hno1 in H'; [|done].
      apply orb_true_iff in H' as [->| ->]; [done|apply orb_true_r].
    + intros Hnf. destruct (Hal1 Hnf) as [-> Hnf1]. destruct (Hal Hnf1) as [-> ?]. split; [|done].
      apply Z.lor_0_r.
Qed.
End SetSub.

Lemma rehash_from_hash d fuel sz ns t i al :
  (forall fuel al p i, wf d p -> (2 * d <= fuel)%nat -> 0 <= i < iSize p ->
     set_post d al p (fun j => j =? i) (set_loop fuel al p i)) ->
  wf (S d) (MkBitvec sz ns 0 (aHash t)) -> (2 * d < fuel)%nat -> 0 <= i < sz ->
  set_post (S d) al (MkBitvec sz ns 0 (aHash t)) (fun j => j =? i)
    (let set al p v := set_loop fuel al p (v - 1) in
     '(rc, p, al) ← set al (MkBitvec sz ns ((sz + BITVEC_NPTR - 1) / BITVEC_NPTR)
                       (apSub (replicate (Z.to_nat BITVEC_NPTR) None))) (i + 1);
     rehash_loop set rc p al t).
Proof.
  intros IH (Hsz & Hc & Hb & _ & Hok) Hf Hi. cbv zeta.
  set (p0 := MkBitvec sz ns _ (apSub (replicate _ None))).
  assert (Hwf0 : wf (S d) p0).
  { cbn [wf p0]. split_and!; try done; try lia. by apply Forall_replicate. }
  assert (H0 : forall j, bits (S d) p0 j = false).
  { intros j. cbn [bits p0]. case_match eqn:E; [|done]. pose proof (aget_range _ _ _ E).
    rewrite aget_replicate in E by done. by simplify_eq. }
  destruct (set_sub d IH fuel al p0 i) as [(r & p1 & al1 & E1 & Hwf1 & Hs1 & Hr & Hok1 & Hno1 & Hal1) Hsub1]; try done.
  replace (i + 1 - 1) with i by lia. rewrite E1 in Hsub1 |- *. cbn [mbind option_bind].
  destruct Hok as (Hl & HF & _).
  destruct (rehash_post d IH fuel t Hf r p1 al1) as (rc & p2 & al2 & -> & Hwf2 & Hs2 & Hrc & Hok2 & Hno2 & Hal2); try done.
  { rewrite Hs1. done. }
  rewrite Hs1 in Hs2, Hok2, Hno2. cbn [iSize p0] in *. exists rc, p2, al2. split_and!; try done.
  - intros H'. destruct (Hok2 H') as [-> Hb2]. intros j Hj. cbn [iSize] in Hj.
    rewrite Hb2, Hok1, H0, orb_false_r by done. cbn [bits]. apply orb_comm.
  - intros j Hj H'. cbn [iSize] in Hj. apply Hno2 in H'; [|done]. cbn [bits].
    apply orb_true_iff in H' as [->|H']; [apply orb_true_r|]. apply Hno1 in H'; [|done].
    by rewrite H0, orb_false_r in H'; rewrite H'.
  - intros Hnf. destruct (Hal1 Hnf) as [-> Hnf1]. destruct (Hal2 Hnf1) as [-> ?]. done.
Qed.

Lemma stores_post d sz ns t i h al :
  wf (S d) (MkBitvec sz ns 0 (aHash t)) -> 0 <= i < sz -> ns + 1 < BITVEC_NINT ->
  stores sz ns t (i + 1) h ->
  set_post (S d) al (MkBitvec sz ns 0 (aHash t)) (fun j => j =? i)
    (t ← aset t h (i + 1); Some (SQLITE_OK, MkBitvec sz (u32 (ns + 1)) 0 (aHash t), al)).
Proof.
  intros (Hsz & Hc & Hb & _ & Hok) Hi Hroom (t' & -> & Hok' & Hel). cbn [mbind option_bind].
  pose proof Hok as (_ & _ & Hn & _). pose proof (nz_bound t).
  rewrite u32_id by (unfold is_u32, BITVEC_NINT in *; lia).
  apply set_post_ok; [|done|].
  - cbn [wf]. split_and!; try done; try lia. by apply Hok'.
  - intros j Hj. cbn [iSize] in Hj. cbn [bits]. apply Bool.eq_iff_eq_true.
    rewrite orb_true_iff, !bool_decide_eq_true, Z.eqb_eq, Hel by lia. intuition lia.
Qed.

Lemma set_hash d fuel sz ns t i al :
  (forall fuel al p i, wf d p -> (2 * d <= fuel)%nat -> 0 <= i < iSize p ->
     set_post d al p (fun j => j =? i) (set_loop fuel al p i)) ->
  wf (S d) (MkBitvec sz ns 0 (aHash t)) -> (2 * S d <= fuel)%nat -> 0 <= i < sz ->
  set_post (S d) al (MkBitvec sz ns 0 (aHash t)) (fun j => j =? i)
    (set_loop fuel al (MkBitvec sz ns 0 (aHash t)) i).
Proof.
  intros IH Hwf Hf Hi. pose proof Hwf as (Hsz & Hc & Hb & _ & Hok).
  destruct fuel as [|fuel]; [lia|]. cbn [set_loop]. rewrite andb_false_r.
  destruct (Z.leb_spec sz BITVEC_NBIT); [lia|]. rewrite (u32_id (i + 1)) by (unfold is_u32; lia).
  replace (BITVEC_HASH i) with (home (i + 1)) by (unfold home; f_equal; lia).
  pose proof Hok as (Hl & _ & Hn & Hns & _).
  assert (Hrehash : forall h, ns + 1 < BITVEC_NINT \/ BITVEC_MXHASH <= ns -> stores sz ns t (i + 1) h ->
    set_post (S d) al (MkBitvec sz ns 0 (aHash t)) (fun j => j =? i)
     (if ns >=? BITVEC_MXHASH then
        let '(ok, al) := malloc al in
        if negb ok then Some (SQLITE_NOMEM, MkBitvec sz ns 0 (aHash t), al)
        else
         let set al p v := set_loop fuel al p (v - 1) in
         '(rc, p, al) ← set al (MkBitvec sz ns ((sz + BITVEC_NPTR - 1) / BITVEC_NPTR)
                       (apSub (replicate (Z.to_nat BITVEC_NPTR) None))) (i + 1);
         rehash_loop set rc p al t
      else t ← aset t h (i + 1); Some (SQLITE_OK, MkBitvec sz (u32 (ns + 1)) 0 (aHash t), al))).
  { intros h Hcase Hst. rewrite Z.geb_leb. destruct (Z.leb_spec BITVEC_MXHASH ns).
    2:{ apply stores_post; try done. lia. }
    destruct (malloc al) as [[] al1] eqn:Em; cbn [negb].
    - destruct (rehash_from_hash d fuel sz ns t i al1 IH Hwf ltac:(lia) Hi)
        as (rc & p' & al' & E1 & ? & ? & ? & ? & ? & Hal).
      exists rc, p', al'. split; [exact E1|]. split_and!; try done. intros Hnf.
      destruct (malloc_never_fails _ Hnf) as (? & E & ?). rewrite Em in E. simplify_eq. by apply Hal.
    - apply set_post_nomem; [done|]. intros Hnf. destruct (malloc_never_fails _ Hnf) as (? & E & ?).
      by rewrite Em in E. }
  destruct (aget_is_Some t (home (i + 1))) as [x Hx]; [rewrite Hl; apply BITVEC_HASH_range|].
  rewrite Hx. cbn [mbind option_bind]. destruct (Z.eqb_spec x 0) as [->|Hx0].
  - destruct (hash_home_free sz ns t Hok (i + 1) ltac:(lia) Hx) as [_ Hst].
    destruct (Z.ltb_spec ns (BITVEC_NINT - 1)); [apply stores_post; done || lia|].
    apply Hrehash; [|done]. right. unfold BITVEC_MXHASH, BITVEC_NINT in *. lia.
  - destruct (hash_probe sz ns t Hok (i + 1) ltac:(lia) x Hx Hx0) as (r & -> & Hr). cbn [mbind option_bind].
    destruct r as [h|].
    + apply Hrehash; [|by apply Hr]. unfold BITVEC_MXHASH, BITVEC_NINT in *. lia.
    + apply set_post_ok; try done. intros j Hj. cbn [bits]. destruct (Z.eqb_spec j i) as [->|]; [|done].
      by apply bool_decide_eq_true.
Qed.

Lemma set_bitmap d fuel sz ns a i al :
  wf (S d) (MkBitvec sz ns 0 (aBitmap a)) -> 0 <= i < sz ->
  set_post (S d) al (MkBitvec sz ns 0 (aBitmap a)) (fun j => j =? i)
    (set_loop (S fuel) al (MkBitvec sz ns 0 (aBitmap a)) i).
Proof.
  intros (Hsz & Hc & Hb & _ & Hl & HF) Hi. cbn [set_loop]. rewrite andb_false_r.
  destruct (Z.leb_spec sz BITVEC_NBIT); [|lia]. rewrite low3. unfold BITVEC_SZELEM.
  assert (Hr : 0 <= i / 8 < alen a).
  { rewrite Hl. unfold BITVEC_NELEM, BITVEC_NBIT in *. zdm. }
  destruct (aget_is_Some a (i / 8)) as [b Hg]; [done|]. rewrite Hg. cbn [mbind option_bind].
  destruct (aset a (i / 8) _) as [a'|] eqn:Hset; [|by rewrite aset_in in Hset].
  cbn [mbind option_bind]. apply set_post_ok; [|done|].
  - cbn [wf]. split_and!; try done; try lia; [by rewrite (aset_alen _ _ _ _ Hset)|].
    eapply aset_Forall; [done..|]. apply u8_range.
  - intros j Hj. cbn [bits]. rewrite (aget_aset _ _ _ _ _ Hset). case_decide as E.
    + rewrite E, Hg, bit_set by (try zdm; by eapply aget_Forall). f_equal.
      apply Bool.eq_iff_eq_true. rewrite !Z.eqb_eq, (split_eq j i 8) by lia. naive_solver.
    + destruct (Z.eqb_spec j i) as [->|]; done.
Qed.

Lemma set_loop_bits d : forall fuel al p i,
  wf d p -> (2 * d <= fuel)%nat -> 0 <= i < iSize p ->
  set_post d al p (fun j => j =? i) (set_loop fuel al p i).
Proof.
  induction d as [|d IH]; intros fuel al p i Hwf Hf Hi; [done|].
  destruct p as [sz ns dv [a|t|a]].
  - assert (dv = 0) as -> by (cbn [wf] in Hwf; naive_solver). destruct fuel; [lia|]. by apply set_bitmap.
  - assert (dv = 0) as -> by (cbn [wf] in Hwf; naive_solver). by apply set_hash.
  - by apply set_sub; [| | |lia|].
Qed.

(** ** A bit vector against a set of integers *)

Definition valid (p : Bitvec) : Prop := wf BITVEC_DEPTH p.

Inductive bv_op : Type := BSet (i : Z) | BClear (i : Z).

Definition op_in (sz : Z) (o : bv_op) : Prop :=
  match o with BSet i | BClear i => 1 <= i <= sz end.

(** The calls in sequence; [None] when one of them fails. *)
Fixpoint run_ops (al : alloc) (p : Bitvec) (ops : list bv_op) : option (Bitvec * alloc) :=
  match ops with
  | [] => Some (p, al)
  | BSet i :: ops =>
      '(rc, p, al) ← sqlite3BitvecSet al p i;
      if rc =? SQLITE_OK then run_ops al p ops else None
  | BClear i :: ops => p ← sqlite3BitvecClear p i; run_ops al p ops
  end.

Definition apply_op (X : gset Z) (o : bv_op) : gset Z :=
  match o with BSet i => {[i]} ∪ X | BClear i => X ∖ {[i]} end.

Definition holds (p : Bitvec) (X : gset Z) : Prop :=
  forall i, is_u32 i -> sqlite3BitvecTestNotNull p i = Some (bool_decide (i ∈ X)).

Lemma u32_pred i : 1 <= i < 2 ^ 32 -> u32 (i - 1) = i - 1.
Proof. intros. apply u32_id. unfold is_u32. lia. Qed.

Lemma u32_pred_0 : u32 (0 - 1) = 2 ^ 32 - 1.
Proof. done. Qed.

Lemma valid_size p : valid p -> 0 <= iSize p < 2 ^ 32.
Proof. destruct p. unfold valid. cbn. lia. Qed.

Lemma test_valid p i : valid p -> is_u32 i ->
  sqlite3BitvecTestNotNull p i
  = Some ((1 <=? i) && (i <=? iSize p) && bits BITVEC_DEPTH p (i - 1)).
Proof.
  intros Hp Hi. pose proof (valid_size p Hp). unfold is_u32 in Hi. unfold sqlite3BitvecTestNotNull.
  rewrite Z.geb_leb. destruct (Z.leb_spec 1 i).
  - rewrite u32_pred by lia. destruct (Z.leb_spec (iSize p) (i - 1)), (Z.leb_spec i (iSize p)); try lia; try done.
    cbn [andb]. apply test_loop_bits; done || lia.
  - replace i with 0 by lia. rewrite u32_pred_0. destruct (Z.leb_spec (iSize p) (2 ^ 32 - 1)); [done|lia].
Qed.

Lemma holds_iff p X : valid p -> holds p X <->
  forall i, is_u32 i -> i ∈ X <-> 1 <= i <= iSize p /\ bits BITVEC_DEPTH p (i - 1) = true.
Proof.
  intros Hp. apply forall_proper. intros i. split; intros H Hi; specialize (H Hi).
  - rewrite test_valid in H by done. injection H as H. apply Bool.eq_iff_eq_true in H.
    rewrite !andb_true_iff, !Z.leb_le, bool_decide_eq_true in H. by rewrite <- H.
  - rewrite test_valid by done. f_equal. apply Bool.eq_iff_eq_true.
    by rewrite !andb_true_iff, !Z.leb_le, bool_decide_eq_true, H.
Qed.

Lemma create_valid sz : 0 <= sz < 2 ^ 32 -> valid (MkBitvec sz 0 0 (zero_union sz)).
Proof. intros. apply create_wf; [done|]. apply cap_5. lia. Qed.

Lemma run_ops_sim ops : forall al p X,
  never_fails al -> valid p -> Forall (op_in (iSize p)) ops -> holds p X ->
  exists p' al', run_ops al p ops = Some (p', al') /\ valid p' /\ holds p' (fold_left apply_op ops X).
Proof.
  induction ops as [|o ops IH]; intros al p X Hal Hp HF HX.
  { exists p, al. done. }
  inversion HF as [|? ? Ho HF']; subst. pose proof (valid_size p Hp) as Hsz.
  assert (Hstep : forall p1, valid p1 -> iSize p1 = iSize p ->
    (forall j, 0 <= j < iSize p -> bits BITVEC_DEPTH p1 j =
       match o with BSet i => (j =? i - 1) || bits BITVEC_DEPTH p j
                  | BClear i => negb (j =? i - 1) && bits BITVEC_DEPTH p j end) ->
    holds p1 (apply_op X o)).
  { intros p1 Hp1 Hs1 Hb. rewrite holds_iff in HX |- * by done. intros i Hi. specialize (HX i Hi).
    rewrite Hs1. destruct (decide (1 <= i <= iSize p)) as [Hin|Hout].
    - rewrite Hb by lia. destruct o as [k|k]; cbn [apply_op op_in] in *; set_unfold;
        rewrite ?orb_true_iff, ?andb_true_iff, ?negb_true_iff, ?Z.eqb_neq, ?Z.eqb_eq; rewrite HX; intuition lia.
    - destruct o as [k|k]; cbn [apply_op op_in] in *; set_unfold; rewrite HX; intuition lia. }
  destruct o as [i|i]; cbn [op_in] in Ho; cbn [run_ops fold_left].
  - unfold sqlite3BitvecSet. rewrite u32_pred by lia.
    destruct (set_loop_bits BITVEC_DEPTH (2 * BITVEC_DEPTH) al p (i - 1))
      as (rc & p1 & al1 & -> & Hp1 & Hs1 & _ & Hok & _ & Hnf); [done|done|lia|].
    destruct (Hnf Hal) as [-> Hal1]. cbn [mbind option_bind Z.eqb].
    apply IH; try done; [by rewrite Hs1|]. by apply Hstep, Hok.
  - unfold sqlite3BitvecClear. rewrite u32_pred by lia.
    destruct (clear_loop_bits BITVEC_DEPTH BITVEC_DEPTH p (i - 1)) as (p1 & -> & Hp1 & Hs1 & Hb); [done|done|lia|].
    cbn [mbind option_bind]. apply IH; try done; [by rewrite Hs1|]. by apply Hstep.
Qed.

(** C37. A bit vector created for any 32-bit size and driven by any sequence of
    in-range Set and Clear calls on a heap that is not exhausted succeeds at
    every call, never leaves an array, and afterwards Test answers for every
    32-bit argument, out-of-range ones included, exactly as the set of integers
    the same calls describe. *)
Theorem bitvec_refines_set sz al ops :
  0 <= sz < 2 ^ 32 -> never_fails al -> Forall (op_in sz) ops ->
  exists p0 al0 p al', sqlite3BitvecCreate al sz = (Some p0, al0) /\
    run_ops al0 p0 ops = Some (p, al') /\ holds p (fold_left apply_op ops ∅).
Proof.
  intros Hsz Hal HF. destruct (malloc_never_fails al Hal) as (al0 & E & Hal0).
  unfold sqlite3BitvecCreate. rewrite E.
  set (p0 := MkBitvec sz 0 0 (zero_union sz)). pose proof (create_valid sz Hsz) as Hp0.
  destruct (run_ops_sim ops al0 p0 ∅) as (p & al' & Hr & _ & Hh); try done.
  { intros i Hi. rewrite test_valid by done. f_equal. rewrite bool_decide_false by set_solver.
    destruct (Z.leb_spec 1 i); [|done]. unfold p0. rewrite create_bits by lia. apply andb_false_r. }
  by exists p0, al0, p, al'.
Qed.

Lemma bitvec_refines_set_witness :
  exists p0 al0 p al', sqlite3BitvecCreate [] 100000 = (Some p0, al0) /\
    run_ops al0 p0 [BSet 5; BSet 99999; BClear 5] = Some (p, al') /\
    holds p (fold_left apply_op [BSet 5; BSet 99999; BClear 5] ∅).
Proof.
  apply (bitvec_refines_set 100000 [] [BSet 5; BSet 99999; BClear 5]).
  - lia.
  - constructor.
  - repeat constructor; lia.
Defined.

(** Whatever the allocator does, Set on a valid bit vector returns OK or
    NOMEM and leaves a valid bit vector of the same size.  OK means that exactly
    the requested bit was added; NOMEM means that some allocation failed, and
    even then (a half-done re-hash included) no bit appears that was neither
    set before nor requested. *)
Theorem sqlite3BitvecSet_any_heap al p i :
  valid p -> 1 <= i <= iSize p ->
  exists rc p' al', sqlite3BitvecSet al p i = Some (rc, p', al') /\
    valid p' /\ iSize p' = iSize p /\
    ((rc = SQLITE_OK /\ forall X, holds p X -> holds p' ({[i]} ∪ X)) \/
     (rc = SQLITE_NOMEM /\ ~ never_fails al /\ forall X, holds p X ->
        exists Y, holds p' Y /\ Y ⊆ {[i]} ∪ X)).
Proof.
  intros Hp Hi. pose proof (valid_size p Hp) as Hsz. unfold sqlite3BitvecSet. rewrite u32_pred by lia.
  destruct (set_loop_bits BITVEC_DEPTH (2 * BITVEC_DEPTH) al p (i - 1))
    as (rc & p1 & al1 & -> & Hp1 & Hs1 & Hrc & Hok & Hno & Hnf); [done|done|lia|].
  exists rc, p1, al1. split_and!; try done. destruct Hrc as [->| ->]; [left|right].
  - split; [done|]. intros X. rewrite !holds_iff by done. intros HX j Hj. specialize (HX j Hj).
    rewrite Hs1. set_unfold. rewrite HX. destruct (decide (1 <= j <= iSize p)); [|intuition lia].
    rewrite Hok, orb_true_iff, Z.eqb_eq by done || lia. intuition lia.
  - split_and!; [done|intros [? _]%Hnf; done|]. intros X HX.
    exists (filter (fun j => 1 <= j <= iSize p /\ bits BITVEC_DEPTH p1 (j - 1) = true) ({[i]} ∪ X)).
    split; [|set_solver]. rewrite holds_iff in HX |- * by done. intros j Hj. specialize (HX j Hj).
    rewrite Hs1, elem_of_filter. split; [naive_solver|]. intros [Hr Hb]. split; [done|].
    apply Hno, orb_true_iff in Hb; [|lia]. destruct Hb as [Hb%Z.eqb_eq|Hb]; set_unfold;
      [left; lia|right; by apply HX].
Qed.

Lemma sqlite3BitvecSet_any_heap_witness :
  let p := MkBitvec 5000 0 0 (zero_union 5000) in
  exists rc p' al', sqlite3BitvecSet [false] p 4000 = Some (rc, p', al') /\
    valid p' /\ iSize p' = iSize p /\
    ((rc = SQLITE_OK /\ forall X, holds p X -> holds p' ({[4000]} ∪ X)) \/
     (rc = SQLITE_NOMEM /\ ~ never_fails [false] /\ forall X, holds p X ->
        exists Y, holds p' Y /\ Y ⊆ {[4000]} ∪ X)).
Proof.
  apply (sqlite3BitvecSet_any_heap [false] (MkBitvec 5000 0 0 (zero_union 5000)) 4000).
  - apply create_valid. lia.
  - simpl. lia.
Defined.
