(* ===== verification/WalBase.v ===== *)
(** * Write-ahead log: data ([src/wal.h], [src/wal.c])

    The wal-index header, the checkpoint information, the pages of the
    wal-index and the connection object, with the constants of the formats.
    [Wal] is the private object of one connection, [Shm] the wal-index that all
    connections of a database share. *)
From S2P Require Import Prelude.

(** ** Constants *)

Definition WAL_MAX_VERSION : Z := 3007000.
Definition WALINDEX_MAX_VERSION : Z := 3007000.

Definition WAL_WRITE_LOCK : Z := 0.
Definition WAL_ALL_BUT_WRITE : Z := 1.
Definition WAL_CKPT_LOCK : Z := 1.
Definition WAL_RECOVER_LOCK : Z := 2.
Definition WAL_READ_LOCK (i : Z) : Z := 3 + i.
Definition SQLITE_SHM_NLOCK : Z := 8.
Definition WAL_NREADER : Z := Eval cbv in SQLITE_SHM_NLOCK - 3.

Definition READMARK_NOT_USED : Z := 0xffffffff.

Definition WAL_FRAME_HDRSIZE : Z := 24.
Definition WAL_HDRSIZE : Z := 32.
Definition WAL_MAGIC : Z := 0x377f0682.

Definition walFrameOffset (iFrame szPage : Z) : Z :=
  WAL_HDRSIZE + (iFrame - 1) * (szPage + WAL_FRAME_HDRSIZE).

(** ** The wal-index header *)

(** [aSalt] is kept as its eight bytes, the form in which the code copies,
    compares and increments it. *)
Record WalIndexHdr : Type := MkHdr {
  iVersion : Z;
  unused : Z;
  iChange : Z;
  isInit : Z;
  bigEndCksum : bool;
  hdr_szPage : Z;
  mxFrame : Z;
  nPage : Z;
  aFrameCksum : Z * Z;
  aSalt : list Z;
  aCksum : Z * Z
}.

(** [memset(&pWal->hdr, 0, sizeof(WalIndexHdr))] *)
Definition zero_hdr : WalIndexHdr :=
  MkHdr 0 0 0 0 false 0 0 0 (0, 0) (replicate 8 0) (0, 0).

Definition set_aFrameCksum (c : Z * Z) (h : WalIndexHdr) : WalIndexHdr :=
  MkHdr (iVersion h) (unused h) (iChange h) (isInit h) (bigEndCksum h) (hdr_szPage h)
    (mxFrame h) (nPage h) c (aSalt h) (aCksum h).

Definition set_mxFrame (n : Z) (h : WalIndexHdr) : WalIndexHdr :=
  MkHdr (iVersion h) (unused h) (iChange h) (isInit h) (bigEndCksum h) (hdr_szPage h)
    n (nPage h) (aFrameCksum h) (aSalt h) (aCksum h).

Definition set_aSalt (s : list Z) (h : WalIndexHdr) : WalIndexHdr :=
  MkHdr (iVersion h) (unused h) (iChange h) (isInit h) (bigEndCksum h) (hdr_szPage h)
    (mxFrame h) (nPage h) (aFrameCksum h) s (aCksum h).

(** ** Checkpoint information

    The lock bytes of [WalCkptInfo] are never read or written and are not
    fields here. *)
Record WalCkptInfo : Type := MkCkpt {
  nBackfill : Z;
  aReadMark : list Z;
  nBackfillAttempted : Z
}.

(** ** Pages of the wal-index *)

Definition HASHTABLE_NPAGE : Z := 4096.
Definition HASHTABLE_HASH_1 : Z := 383.
Definition HASHTABLE_NSLOT : Z := Eval cbv in HASHTABLE_NPAGE * 2.
Definition WALINDEX_HDR_SIZE : Z := Eval cbv in 48 * 2 + (4 + 4 * WAL_NREADER + SQLITE_SHM_NLOCK + 4 + 4).
Definition HASHTABLE_NPAGE_ONE : Z := Eval cbv in HASHTABLE_NPAGE - WALINDEX_HDR_SIZE / 4.
Definition WALINDEX_PGSZ : Z := Eval cbv in 2 * HASHTABLE_NSLOT + HASHTABLE_NPAGE * 4.

(** The page numbers and the hash table of one wal-index page.  On the first
    page the header takes the place of the first 34 page numbers. *)
Record HashPage : Type := MkPage {
  aPgno : list Z;
  aHash : list Z
}.

Definition page_entries (iHash : Z) : Z :=
  if iHash =? 0 then HASHTABLE_NPAGE_ONE else HASHTABLE_NPAGE.

Definition zero_page (iHash : Z) : HashPage :=
  MkPage (replicate (Z.to_nat (page_entries iHash)) 0) (replicate (Z.to_nat HASHTABLE_NSLOT) 0).

(** The pages mapped so far, by number; a page the file is extended by is zero. *)
Abbreviation WiData := (gmap Z HashPage).

Record Shm : Type := MkShm {
  shm_hdr0 : WalIndexHdr;
  shm_hdr1 : WalIndexHdr;
  shm_info : WalCkptInfo;
  shm_pages : WiData
}.
