(* ===== verification/WalFrame.v ===== *)
(** * Write-ahead log: checksums and frames ([src/wal.c])

    [walChecksumBytes], [walEncodeFrame] and [walDecodeFrame].  The section
    parameters are the byte order of the host: [bo] is [SQLITE_BYTEORDER], which
    selects a variant of [sqlite3Get4byte], and [host_big] is
    [SQLITE_BIGENDIAN], the order in which a [u32] lies in memory. *)
From S2P Require Import Prelude Bytes WalBase.

(** ** Checksum *)

Definition BYTESWAP32 (x : Z) : Z :=
  u32 (u32 ((x .& 0x000000FF) << 24) + u32 ((x .& 0x0000FF00) << 8)
       + ((x .& 0x00FF0000) >> 8) + ((x .& 0xFF000000) >> 24)).

(** The bytes of [a] read as an array of [u32], as far as whole words go. *)
Fixpoint words (big : bool) (a : list Z) : list Z :=
  match a with
  | b0 :: b1 :: b2 :: b3 :: r => default 0 (load32 big [b0; b1; b2; b3]) :: words big r
  | _ => []
  end.

(** [s += w + t] in [u32] *)
Definition cksum_add (s w t : Z) : Z := u32 (s + u32 (w + t)).

(** [s1 += w0 + s2; s2 += w1 + s1] *)
Definition cksum_two (s1 s2 w0 w1 : Z) : Z * Z :=
  let s1 := cksum_add s1 w0 s2 in
  let s2 := cksum_add s2 w1 s1 in
  (s1, s2).

(** The [do ... while( aData<aEnd )] loops over two words a round. *)
Fixpoint cksum_loop (f : Z -> Z) (s1 s2 : Z) (aData : list Z) : option (Z * Z) :=
  match aData with
  | w0 :: w1 :: aData =>
      let '(s1, s2) := cksum_two s1 s2 (f w0) (f w1) in
      match aData with
      | [] => Some (s1, s2)
      | _ => cksum_loop f s1 s2 aData
      end
  | _ => None
  end.

(** The loop over sixteen words a round, for lengths divisible by 64. *)
Fixpoint cksum_loop64 (s1 s2 : Z) (aData : list Z) : option (Z * Z) :=
  match aData with
  | w0 :: w1 :: w2 :: w3 :: w4 :: w5 :: w6 :: w7 ::
    w8 :: w9 :: w10 :: w11 :: w12 :: w13 :: w14 :: w15 :: aData =>
      let '(s1, s2) := cksum_two s1 s2 w0 w1 in
      let '(s1, s2) := cksum_two s1 s2 w2 w3 in
      let '(s1, s2) := cksum_two s1 s2 w4 w5 in
      let '(s1, s2) := cksum_two s1 s2 w6 w7 in
      let '(s1, s2) := cksum_two s1 s2 w8 w9 in
      let '(s1, s2) := cksum_two s1 s2 w10 w11 in
      let '(s1, s2) := cksum_two s1 s2 w12 w13 in
      let '(s1, s2) := cksum_two s1 s2 w14 w15 in
      match aData with
      | [] => Some (s1, s2)
      | _ => cksum_loop64 s1 s2 aData
      end
  | _ => None
  end.

(** The bytes from [off] on, [n] of them; [None] past the end. *)
Definition slice (off n : Z) (l : list Z) : option (list Z) :=
  if (0 <=? off) && (0 <=? n) && (off + n <=? alen l)
  then Some (take (Z.to_nat n) (drop (Z.to_nat off) l)) else None.

Section Host.
Context (bo : byteorder) (host_big : bool).

Definition walChecksumBytes (nativeCksum : bool) (a : list Z) (nByte : Z) (aIn : option (Z * Z))
    : option (Z * Z) :=
  aData ← words host_big <$> slice 0 nByte a;
  let '(s1, s2) := default (0, 0) aIn in
  if negb nativeCksum then cksum_loop BYTESWAP32 s1 s2 aData
  else if nByte mod 64 =? 0 then cksum_loop64 s1 s2 aData
  else cksum_loop (fun w => w) s1 s2 aData.

(** ** Frames *)

Definition nativeCksum (h : WalIndexHdr) : bool := Bool.eqb (bigEndCksum h) host_big.

(** The header with its running checksum advanced, and the 24 bytes of the
    frame header. *)
Definition walEncodeFrame (h : WalIndexHdr) (iReCksum szPage iPage nTruncate : Z) (aData : list Z)
    : option (WalIndexHdr * list Z) :=
  let aFrame := sqlite3Put4byte bo iPage ++ sqlite3Put4byte bo nTruncate in
  if iReCksum =? 0 then
    c ← walChecksumBytes (nativeCksum h) aFrame 8 (Some (aFrameCksum h));
    c ← walChecksumBytes (nativeCksum h) aData szPage (Some c);
    Some (set_aFrameCksum c h,
          aFrame ++ aSalt h ++ sqlite3Put4byte bo (fst c) ++ sqlite3Put4byte bo (snd c))
  else Some (h, aFrame ++ replicate 16 0).

(** The page number and size field of a valid frame, and the header, whose
    running checksum a frame with the right salt advances even when it turns
    out to be invalid. *)
Definition walDecodeFrame (h : WalIndexHdr) (szPage : Z) (aData aFrame : list Z)
    : option (option (Z * Z) * WalIndexHdr) :=
  salt ← slice 8 8 aFrame;
  if negb (bool_decide (aSalt h = salt)) then Some (None, h) else
  pgno ← sqlite3Get4byte bo aFrame;
  if pgno =? 0 then Some (None, h) else
  c ← walChecksumBytes (nativeCksum h) aFrame 8 (Some (aFrameCksum h));
  c ← walChecksumBytes (nativeCksum h) aData szPage (Some c);
  let h := set_aFrameCksum c h in
  c0 ← sqlite3Get4byte bo (drop 16 aFrame);
  c1 ← sqlite3Get4byte bo (drop 20 aFrame);
  if negb (fst c =? c0) || negb (snd c =? c1) then Some (None, h) else
  nTruncate ← sqlite3Get4byte bo (drop 4 aFrame);
  Some (Some (pgno, nTruncate), h).
End Host.

(** ** Reference checksum

    The bytes read as words of the byte order the log declares, two at a time. *)
Definition cksum_step (s : Z * Z) (w0 w1 : Z) : Z * Z :=
  let s1 := u32 (fst s + w0 + snd s) in (s1, u32 (snd s + w1 + s1)).

Fixpoint cksum_pairs (s : Z * Z) (ws : list Z) : Z * Z :=
  match ws with
  | w0 :: w1 :: ws => cksum_pairs (cksum_step s w0 w1) ws
  | _ => s
  end.

Definition cksum_spec (big : bool) (s : Z * Z) (a : list Z) : Z * Z := cksum_pairs s (words big a).

(** Byte sequences of whole 8-byte units. *)
Definition units (l : list Z) : Prop := exists n, length l = (8 * n)%nat.

Lemma cksum_add_assoc s w t : cksum_add s w t = u32 (s + w + t).
Proof. unfold cksum_add, u32. rewrite Zplus_mod_idemp_r. f_equal. lia. Qed.

Lemma land_byte x k : 0 <= k -> x .& (255 * 2 ^ k) = x / 2 ^ k mod 256 * 2 ^ k.
Proof.
  intros. rewrite (Z.div_mod x (2 ^ k)) at 1 by lia. rewrite (Z.mul_comm (2 ^ k)).
  rewrite <- (Z.add_0_r (255 * 2 ^ k)).
  rewrite land_split by (try apply Z.mod_pos_bound; lia). rewrite land_0xff, Z.land_0_r. lia.
Qed.

Lemma BYTESWAP32_bswap x : is_u32 x -> BYTESWAP32 x = bswap32 x.
Proof.
  unfold is_u32. intros Hx. unfold BYTESWAP32, bswap32.
  change 0x0000FF00 with (255 * 2 ^ 8). change 0x00FF0000 with (255 * 2 ^ 16).
  change 0xFF000000 with (255 * 2 ^ 24). rewrite land_0xff, !land_byte by lia.
  rewrite !Z.shiftl_mul_pow2, !Z.shiftr_div_pow2 by lia.
  replace (x / 2 ^ 16 mod 256 * 2 ^ 16 / 2 ^ 8) with (x / 2 ^ 16 mod 256 * 2 ^ 8).
  2:{ generalize (x / 2 ^ 16 mod 256). intros. zdm. }
  rewrite Z.div_mul by lia. unfold u32.
  assert (0 <= x mod 256 < 256) by zdm. assert (0 <= x / 2 ^ 8 mod 256 < 256) by zdm.
  assert (0 <= x / 2 ^ 16 mod 256 < 256) by zdm. assert (0 <= x / 2 ^ 24 mod 256 < 256) by zdm.
  generalize dependent (x mod 256). generalize dependent (x / 2 ^ 8 mod 256).
  generalize dependent (x / 2 ^ 16 mod 256). generalize dependent (x / 2 ^ 24 mod 256).
  intros. rewrite !Z.mod_small; rewrite ?Z.mod_small; lia.
Qed.

Lemma words_app big l1 l2 : (exists n, length l1 = (4 * n)%nat) -> words big (l1 ++ l2) = words big l1 ++ words big l2.
Proof.
  intros [n Hn]. revert l1 Hn. induction n as [|n IH]; intros l1 Hn.
  - by destruct l1.
  - destruct l1 as [|a [|b [|c [|d l1]]]]; simpl in Hn; try lia. cbn [app words]. f_equal. apply IH. lia.
Qed.

Lemma units_words l : units l -> exists n, length l = (4 * n)%nat.
Proof. intros [n ->]. exists (2 * n)%nat. lia. Qed.

Lemma words_length big n l : length l = (4 * n)%nat -> length (words big l) = n.
Proof.
  revert l. induction n as [|n IH]; intros l Hl.
  - by destruct l.
  - destruct l as [|a [|b [|c [|d l]]]]; simpl in Hl; try lia. cbn [words length]. f_equal. apply IH. lia.
Qed.

Lemma words_swap big l : Forall is_u8 l -> words (negb big) l = map BYTESWAP32 (words big l).
Proof.
  remember (length l) as n eqn:E. assert (Hn : (length l <= n)%nat) by lia. clear E. revert l Hn.
  induction n as [|n IH]; intros l Hn HF; [by destruct l; simpl in Hn; [|lia]|].
  destruct l as [|b0 [|b1 [|b2 [|b3 l]]]]; try done. cbn [words map].
  assert (HF4 : Forall is_u8 [b0; b1; b2; b3]) by (repeat (inversion HF as [|? ? ? HF']; subst; clear HF; rename HF' into HF; constructor; [done|]); constructor).
  assert (HFl : Forall is_u8 l) by (do 4 (inversion HF as [|? ? ? HF']; subst; clear HF; rename HF' into HF); done).
  f_equal; [|apply IH; [simpl in Hn; lia|done]].
  destruct (load32 big [b0; b1; b2; b3]) as [x|] eqn:Ex; [|done].
  rewrite (load32_swap _ _ _ HF4 Ex). cbn [default]. symmetry. apply BYTESWAP32_bswap. by apply (load32_range big [b0; b1; b2; b3]).
Qed.

Lemma cksum_pairs_cons s1 s2 w0 w1 ws :
  cksum_pairs (s1, s2) (w0 :: w1 :: ws) = cksum_pairs (cksum_two s1 s2 w0 w1) ws.
Proof. unfold cksum_two. by rewrite !cksum_add_assoc. Qed.

Lemma cksum_loop_pairs f n : forall ws s1 s2, length ws = (2 * S n)%nat ->
  cksum_loop f s1 s2 ws = Some (cksum_pairs (s1, s2) (map f ws)).
Proof.
  induction n as [|n IH]; intros ws s1 s2 Hn; do 2 (destruct ws as [|? ws]; [simpl in Hn; lia|]);
    cbn [map cksum_loop]; rewrite cksum_pairs_cons; destruct (cksum_two _ _ _ _) as [a b].
  - destruct ws; [done|simpl in Hn; lia].
  - destruct ws as [|w ws]; [simpl in Hn; lia|]. apply IH. simpl in *. lia.
Qed.

Lemma cksum_loop64_pairs n : forall ws s1 s2, length ws = (16 * S n)%nat ->
  cksum_loop64 s1 s2 ws = Some (cksum_pairs (s1, s2) ws).
Proof.
  induction n as [|n IH]; intros ws s1 s2 Hn; do 16 (destruct ws as [|? ws]; [simpl in Hn; lia|]);
    cbn [cksum_loop64]; do 8 (rewrite cksum_pairs_cons; destruct (cksum_two _ _ _ _) as [? ?]).
  - destruct ws; [done|simpl in Hn; lia].
  - destruct ws as [|w ws]; [simpl in Hn; lia|]. apply IH. simpl in *. lia.
Qed.

Section Host.
Context (bo : byteorder) (host_big : bool).

Lemma slice_take n a : 0 <= n <= alen a -> slice 0 n a = Some (take (Z.to_nat n) a).
Proof.
  intros. unfold slice. rewrite Z.add_0_l, drop_0.
  destruct (Z.leb_spec 0 n), (Z.leb_spec n (alen a)); done || lia.
Qed.

(** Both loops, with or without byte swapping, compute the reference sum. *)
Lemma checksum_ref big a nByte aIn :
  Forall is_u8 a -> 8 <= nByte <= alen a -> nByte mod 8 = 0 ->
  walChecksumBytes host_big (Bool.eqb big host_big) a nByte aIn
  = Some (cksum_spec big (default (0, 0) aIn) (take (Z.to_nat nByte) a)).
Proof.
  intros HF Hn Hm. unfold walChecksumBytes. rewrite slice_take by lia. cbn [fmap option_fmap option_map mbind option_bind].
  set (b := take (Z.to_nat nByte) a). destruct (default (0, 0) aIn) as [s1 s2].
  assert (Hb : exists n, length b = (8 * S n)%nat).
  { exists (Z.to_nat (nByte / 8 - 1)). unfold b, alen in *. rewrite length_take. zdm. }
  destruct Hb as [n Hb].
  assert (Hl : length (words host_big b) = (2 * S n)%nat) by (apply words_length; lia).
  assert (HFb : Forall is_u8 b) by by apply Forall_take.
  unfold cksum_spec. destruct (Bool.eqb_spec big host_big) as [->|Hne]; cbn [negb].
  - destruct (Z.eqb_spec (nByte mod 64) 0) as [H64|_].
    + apply (cksum_loop64_pairs (Z.to_nat (nByte / 64 - 1))). rewrite Hl.
      unfold b, alen in *. rewrite length_take in Hb. zdm.
    + by rewrite (cksum_loop_pairs _ n), map_id.
  - rewrite (cksum_loop_pairs _ n), <- words_swap by done. replace (negb host_big) with big; [done|].
    by destruct big, host_big.
Qed.
End Host.

(** ** The checksum distinguishes *)

Definition is_u32_pair (s : Z * Z) : Prop := is_u32 (fst s) /\ is_u32 (snd s).

Lemma u32_add_inj a b c : is_u32 a -> is_u32 b -> u32 (a + c) = u32 (b + c) -> a = b.
Proof. unfold is_u32, u32. intros. zdm. Qed.

Lemma cksum_step_inj s t w0 w1 :
  is_u32_pair s -> is_u32_pair t -> cksum_step s w0 w1 = cksum_step t w0 w1 -> s = t.
Proof.
  destruct s as [s1 s2], t as [t1 t2]. unfold is_u32_pair, cksum_step. cbn [fst snd].
  intros [? ?] [? ?] [= E1 E2]. rewrite <- E1 in E2. rewrite <- !Z.add_assoc in E2.
  apply u32_add_inj in E2; [subst|done..]. rewrite <- !Z.add_assoc in E1. by apply u32_add_inj in E1; subst.
Qed.

Lemma cksum_step_words_inj s w0 w1 v0 v1 : is_u32 w0 -> is_u32 w1 -> is_u32 v0 -> is_u32 v1 ->
  cksum_step s w0 w1 = cksum_step s v0 v1 -> w0 = v0 /\ w1 = v1.
Proof.
  destruct s as [s1 s2]. unfold cksum_step. cbn [fst snd]. intros ? ? ? ? [= E1 E2].
  rewrite (Z.add_comm s1 w0), (Z.add_comm s1 v0), <- !Z.add_assoc in E1. apply u32_add_inj in E1; [subst|done..].
  rewrite (Z.add_comm s2 w1), (Z.add_comm s2 v1), <- !Z.add_assoc in E2. by apply u32_add_inj in E2.
Qed.

Lemma cksum_step_range s w0 w1 : is_u32_pair (cksum_step s w0 w1).
Proof. split; apply u32_range. Qed.

Lemma cksum_pairs_range ws : forall s, is_u32_pair s -> is_u32_pair (cksum_pairs s ws).
Proof.
  remember (length ws) as n eqn:E. assert (Hn : (length ws <= n)%nat) by lia. clear E. revert ws Hn.
  induction n as [|n IH]; intros [|w0 [|w1 ws]] Hn s Hs; simpl in Hn; try done; try lia.
  cbn [cksum_pairs]. apply IH; [lia|apply cksum_step_range].
Qed.

Lemma cksum_pairs_inj ws : forall s t, is_u32_pair s -> is_u32_pair t ->
  cksum_pairs s ws = cksum_pairs t ws -> s = t.
Proof.
  remember (length ws) as n eqn:E. assert (Hn : (length ws <= n)%nat) by lia. clear E. revert ws Hn.
  induction n as [|n IH]; intros [|w0 [|w1 ws]] Hn s t Hs Ht H; simpl in Hn; try done; try lia.
  cbn [cksum_pairs] in H. apply IH in H; [|lia|apply cksum_step_range..]. by eapply cksum_step_inj.
Qed.

Lemma cksum_pairs_app n : forall l1 l2 s, length l1 = (2 * n)%nat ->
  cksum_pairs s (l1 ++ l2) = cksum_pairs (cksum_pairs s l1) l2.
Proof.
  induction n as [|n IH]; intros l1 l2 s Hn.
  - by destruct l1.
  - destruct l1 as [|w0 [|w1 l1]]; simpl in Hn; try lia. cbn [app cksum_pairs]. apply IH. lia.
Qed.

Lemma cksum_spec_app big l1 l2 s : units l1 ->
  cksum_spec big s (l1 ++ l2) = cksum_spec big (cksum_spec big s l1) l2.
Proof.
  intros Hu. unfold cksum_spec. rewrite words_app by by apply units_words.
  destruct Hu as [n Hn]. apply (cksum_pairs_app n). rewrite (words_length _ (2 * n)); lia.
Qed.

Lemma cksum_spec_range big l s : is_u32_pair s -> is_u32_pair (cksum_spec big s l).
Proof. apply cksum_pairs_range. Qed.

Lemma load32_inj big a b c d a' b' c' d' :
  Forall is_u8 [a; b; c; d] -> Forall is_u8 [a'; b'; c'; d'] ->
  load32 big [a; b; c; d] = load32 big [a'; b'; c'; d'] -> [a; b; c; d] = [a'; b'; c'; d'].
Proof.
  rewrite !Forall_cons. unfold is_u8. intros H H' E. destruct big; cbn in E; injection E as E;
    repeat apply (f_equal2 cons); lia || done.
Qed.

(** One 8-byte unit determines its effect on the sum. *)
Lemma cksum_unit_inj big s x y :
  Forall is_u8 x -> Forall is_u8 y -> length x = 8%nat -> length y = 8%nat ->
  cksum_spec big s x = cksum_spec big s y -> x = y.
Proof.
  intros Hx Hy Lx Ly E.
  destruct x as [|x0 [|x1 [|x2 [|x3 [|x4 [|x5 [|x6 [|x7 [|]]]]]]]]]; try done.
  destruct y as [|y0 [|y1 [|y2 [|y3 [|y4 [|y5 [|y6 [|y7 [|]]]]]]]]]; try done.
  change (x0 :: x1 :: x2 :: x3 :: ?r) with ([x0; x1; x2; x3] ++ r) in *.
  change (y0 :: y1 :: y2 :: y3 :: ?r) with ([y0; y1; y2; y3] ++ r) in *.
  apply Forall_app in Hx as [Hx0 Hx1], Hy as [Hy0 Hy1].
  destruct (load32 big [x0; x1; x2; x3]) as [w0|] eqn:W0; [|done].
  destruct (load32 big [x4; x5; x6; x7]) as [w1|] eqn:W1; [|done].
  destruct (load32 big [y0; y1; y2; y3]) as [v0|] eqn:V0; [|done].
  destruct (load32 big [y4; y5; y6; y7]) as [v1|] eqn:V1; [|done].
  unfold cksum_spec in E. cbn [words app] in E. rewrite W0, W1, V0, V1 in E. cbn [from_option id cksum_pairs] in E.
  apply cksum_step_words_inj in E as [-> ->]; [|eapply load32_range; [|eassumption]; done..].
  rewrite <- V0 in W0. rewrite <- V1 in W1. apply load32_inj in W0, W1; [|done..]. congruence.
Qed.

(** Changing one unit inside a longer sequence changes the sum. *)
Lemma cksum_detects big s p x y r :
  units p -> Forall is_u8 x -> Forall is_u8 y -> length x = 8%nat -> length y = 8%nat -> is_u32_pair s ->
  cksum_spec big s (p ++ x ++ r) = cksum_spec big s (p ++ y ++ r) -> x = y.
Proof.
  intros Hp Hx Hy Lx Ly Hs E. assert (units x) by by exists 1%nat. assert (units y) by by exists 1%nat.
  rewrite !cksum_spec_app in E by done. unfold cksum_spec at 1 4 in E.
  apply cksum_pairs_inj in E; [|apply cksum_spec_range, cksum_spec_range; done..].
  by eapply cksum_unit_inj.
Qed.

(** ** Frames in terms of the reference checksum *)

Record hdr_ok (h : WalIndexHdr) : Prop := {
  ok_salt : length (aSalt h) = 8%nat;
  ok_salt_bytes : Forall is_u8 (aSalt h);
  ok_cksum : is_u32_pair (aFrameCksum h)
}.

Definition page_ok (szPage : Z) (data : list Z) : Prop :=
  alen data = szPage /\ 8 <= szPage /\ szPage mod 8 = 0 /\ Forall is_u8 data.

(** The running checksum after a frame with first header bytes [a]. *)
Definition frame_cksum (h : WalIndexHdr) (a data : list Z) : Z * Z :=
  cksum_spec (bigEndCksum h) (cksum_spec (bigEndCksum h) (aFrameCksum h) a) data.

Definition cksum_bytes (c : Z * Z) : list Z := store32 true (fst c) ++ store32 true (snd c).

Lemma store_load big b0 b1 b2 b3 x :
  Forall is_u8 [b0; b1; b2; b3] -> load32 big [b0; b1; b2; b3] = Some x -> store32 big x = [b0; b1; b2; b3].
Proof.
  rewrite !Forall_cons. unfold is_u8. intros HF E. unfold store32.
  destruct big; cbn in E; injection E as <-; cbn -[Z.div Z.modulo Z.mul Z.add Z.pow];
    repeat apply (f_equal2 cons); zdm || done.
Qed.

Lemma load32_app big a r : length a = 4%nat -> load32 big (a ++ r) = load32 big a.
Proof. destruct a as [|? [|? [|? [|? [|]]]]]; done. Qed.

Lemma load_cksum c x y : Forall is_u8 c -> length c = 8%nat -> is_u32 x -> is_u32 y ->
  load32 true c = Some x /\ load32 true (drop 4 c) = Some y <-> c = cksum_bytes (x, y).
Proof.
  intros HF Hl Hx Hy. split.
  - destruct c as [|c0 [|c1 [|c2 [|c3 [|c4 [|c5 [|c6 [|c7 [|]]]]]]]]]; try done.
    intros [E1 E2]. change [c0; c1; c2; c3; c4; c5; c6; c7] with ([c0; c1; c2; c3] ++ [c4; c5; c6; c7]) in *.
    apply Forall_app in HF as [? ?]. rewrite load32_app in E1 by done.
    apply store_load in E1, E2; [|done..]. unfold cksum_bytes. cbn [fst snd]. by rewrite E1, E2.
  - intros ->. unfold cksum_bytes. cbn [fst snd]. split; [by apply load_store|].
    rewrite drop_app_length' by done. rewrite <- (app_nil_r (store32 true y)). by apply load_store.
Qed.

Lemma load32_is_Some big p : (4 <= length p)%nat -> is_Some (load32 big p).
Proof. destruct p as [|? [|? [|? [|? ?]]]]; simpl; try lia. eauto. Qed.

Section Codec.
Context (bo : byteorder) (host_big : bool) (h : WalIndexHdr) (Hh : hdr_ok h).
Context (szPage : Z) (data : list Z) (Hd : page_ok szPage data).

Lemma checksum_frame a r : Forall is_u8 (a ++ r) -> length a = 8%nat ->
  (c ← walChecksumBytes host_big (nativeCksum host_big h) (a ++ r) 8 (Some (aFrameCksum h));
   walChecksumBytes host_big (nativeCksum host_big h) data szPage (Some c)) = Some (frame_cksum h a data).
Proof.
  intros HF Hl. destruct Hd as (Hlen & H8 & Hm & HFd). unfold nativeCksum.
  rewrite checksum_ref by (done || (unfold alen; rewrite length_app; lia)). cbn [mbind option_bind].
  rewrite checksum_ref by (done || lia). cbn [from_option id].
  rewrite (take_ge data) by (unfold alen in Hlen; lia). rewrite take_app_length' by done. done.
Qed.

Lemma encode_frame iPage nTruncate : is_u32 iPage -> is_u32 nTruncate ->
  let a := store32 true iPage ++ store32 true nTruncate in
  walEncodeFrame bo host_big h 0 szPage iPage nTruncate data
  = Some (set_aFrameCksum (frame_cksum h a data) h, a ++ aSalt h ++ cksum_bytes (frame_cksum h a data)).
Proof.
  intros Hp Hn a. unfold walEncodeFrame. rewrite !put4byte_be by done. fold a. cbn [Z.eqb].
  assert (HFa : Forall is_u8 a) by (apply Forall_app; split; apply store32_bytes).
  pose proof (checksum_frame a [] ltac:(by rewrite app_nil_r) eq_refl) as Hc. rewrite app_nil_r in Hc.
  destruct (walChecksumBytes _ _ a _ _) as [c1|]; [|done]. cbn [mbind option_bind] in Hc |- *. rewrite Hc.
  cbn [mbind option_bind]. unfold cksum_bytes.
  destruct (cksum_spec_range (bigEndCksum h) data (cksum_spec (bigEndCksum h) (aFrameCksum h) a)) as [? ?].
  { apply cksum_spec_range, ok_cksum, Hh. }
  by rewrite !put4byte_be.
Qed.

Lemma decode_frame a b c :
  Forall is_u8 (a ++ b ++ c) -> length a = 8%nat -> length b = 8%nat -> length c = 8%nat ->
  exists pg nt, load32 true a = Some pg /\ load32 true (drop 4 a) = Some nt /\
  walDecodeFrame bo host_big h szPage data (a ++ b ++ c) =
    if negb (bool_decide (aSalt h = b)) || (pg =? 0) then Some (None, h)
    else Some (if bool_decide (c = cksum_bytes (frame_cksum h a data)) then Some (pg, nt) else None,
               set_aFrameCksum (frame_cksum h a data) h).
Proof.
  intros HF La Lb Lc. pose proof HF as [HFa [HFb HFc]%Forall_app]%Forall_app.
  destruct (load32_is_Some true a) as [pg Hpg]; [lia|].
  destruct (load32_is_Some true (drop 4 a)) as [nt Hnt]; [rewrite length_drop; lia|].
  exists pg, nt. split_and!; [done..|]. unfold walDecodeFrame.
  replace (slice 8 8 (a ++ b ++ c)) with (Some b).
  2:{ unfold slice. cbn [Z.leb Z.compare andb]. unfold alen. rewrite !length_app, La, Lb, Lc. cbn.
      rewrite drop_app_length', take_app_length' by done. done. }
  cbn [mbind option_bind]. case_bool_decide as Hs; cbn [negb orb]; [|done].
  rewrite !get4byte_be by (repeat apply Forall_drop; done).
  replace (load32 true (a ++ b ++ c)) with (Some pg).
  2:{ rewrite <- Hpg. by destruct a as [|? [|? [|? [|? ?]]]]. }
  cbn [mbind option_bind]. destruct (Z.eqb_spec pg 0); [done|].
  pose proof (checksum_frame a (b ++ c) HF La) as Hc.
  destruct (walChecksumBytes _ _ (a ++ b ++ c) _ _) as [c1|]; [|done].
  cbn [mbind option_bind] in Hc |- *. rewrite Hc. cbn [mbind option_bind].
  replace (drop 16 (a ++ b ++ c)) with c.
  2:{ rewrite app_assoc, drop_app_length'; [done|]. rewrite length_app. lia. }
  replace (drop 20 (a ++ b ++ c)) with (drop 4 c).
  2:{ change 20%nat with (16 + 4)%nat. rewrite app_assoc, <- drop_drop, drop_app_length'; [done|]. rewrite length_app. lia. }
  destruct (load32_is_Some true c) as [c0 Hc0]; [lia|].
  destruct (load32_is_Some true (drop 4 c)) as [c2 Hc2]; [rewrite length_drop; lia|].
  rewrite Hc0, Hc2. cbn [mbind option_bind].
  destruct (frame_cksum h a data) as [x y] eqn:Exy.
  assert (is_u32_pair (x, y)) as [Hx Hy].
  { rewrite <- Exy. apply cksum_spec_range, cksum_spec_range, ok_cksum, Hh. }
  cbn [fst snd]. pose proof (load_cksum c x y HFc Lc Hx Hy) as Hiff. rewrite Hc0, Hc2 in Hiff.
  destruct (Z.eqb_spec x c0), (Z.eqb_spec y c2); cbn [negb orb].
  - rewrite bool_decide_true by naive_solver. 
    replace (load32 true (drop 4 (a ++ b ++ c))) with (Some nt); [done|].
    rewrite <- Hnt. by do 8 (destruct a as [|? a]; [done|]).
  - rewrite bool_decide_false by naive_solver. done.
  - rewrite bool_decide_false by naive_solver. done.
  - rewrite bool_decide_false by naive_solver. done.
Qed.
End Codec.

(** ** Properties *)

(** The checksum of a buffer of whole 8-byte units is the reference sum
    over words of the byte order the log declares, whatever the byte order of
    the host, through the byte-swapping loop, the sixteen-word unrolled loop
    and the plain loop alike. *)
Theorem walChecksumBytes_portable host_big big a nByte aIn :
  Forall is_u8 a -> 8 <= nByte <= alen a -> nByte mod 8 = 0 ->
  walChecksumBytes host_big (Bool.eqb big host_big) a nByte aIn
  = Some (cksum_spec big (default (0, 0) aIn) (take (Z.to_nat nByte) a)).
Proof. apply checksum_ref. Qed.

Lemma walChecksumBytes_portable_witness :
  walChecksumBytes false (Bool.eqb true false) [1; 2; 3; 4; 5; 6; 7; 8] 8 None
  = Some (cksum_spec true (0, 0) [1; 2; 3; 4; 5; 6; 7; 8]).
Proof.
  apply (walChecksumBytes_portable false true [1; 2; 3; 4; 5; 6; 7; 8] 8 None).
  - repeat constructor; lia.
  - vm_compute. split; discriminate.
  - reflexivity.
Defined.

(** A frame encoded by a connection decodes, on a host of either byte
    order, to the page number and size field it was encoded with, and leaves
    the reader with the running checksum of the writer, so that the next frame
    decodes too. *)
Theorem walFrame_roundtrip bo bo' big big' h szPage data iPage nTruncate :
  hdr_ok h -> page_ok szPage data -> is_u32 iPage -> iPage <> 0 -> is_u32 nTruncate ->
  exists h' aFrame,
    walEncodeFrame bo big h 0 szPage iPage nTruncate data = Some (h', aFrame) /\
    hdr_ok h' /\ alen aFrame = WAL_FRAME_HDRSIZE /\ Forall is_u8 aFrame /\
    walDecodeFrame bo' big' h szPage data aFrame = Some (Some (iPage, nTruncate), h').
Proof.
  intros Hh Hd Hp H0 Hn. rewrite encode_frame by done. eexists _, _. split; [done|].
  set (a := store32 true iPage ++ store32 true nTruncate).
  assert (HF : Forall is_u8 (a ++ aSalt h ++ cksum_bytes (frame_cksum h a data))).
  { unfold a, cksum_bytes. rewrite !Forall_app. split_and!; apply store32_bytes || apply Hh. }
  split; [|split_and!; [|done|]].
  - destruct Hh. constructor; try done. apply cksum_spec_range, cksum_spec_range. done.
  - unfold alen, WAL_FRAME_HDRSIZE. rewrite !length_app, (ok_salt _ Hh). done.
  - destruct (decode_frame bo' big' h Hh szPage data Hd a (aSalt h) (cksum_bytes (frame_cksum h a data)))
      as (pg & nt & E1 & E2 & ->); [done|done|apply Hh|done|].
    unfold a in E1, E2. rewrite load_store in E1 by done.
    rewrite drop_app_length', <- (app_nil_r (store32 true nTruncate)), load_store in E2 by done. simplify_eq.
    rewrite !bool_decide_true by done. apply Z.eqb_neq in H0. by rewrite H0.
Qed.

Definition sample_hdr : WalIndexHdr :=
  MkHdr 0 0 0 0 true 0 0 0 (17, 4000000000) [1; 2; 3; 4; 5; 6; 7; 8] (0, 0).

Lemma walFrame_roundtrip_witness : exists h' aFrame,
  walEncodeFrame BO_1234 false sample_hdr 0 16 7 12 (replicate 16 0xab) = Some (h', aFrame) /\
  hdr_ok h' /\ alen aFrame = WAL_FRAME_HDRSIZE /\ Forall is_u8 aFrame /\
  walDecodeFrame BO_4321 true sample_hdr 16 (replicate 16 0xab) aFrame = Some (Some (7, 12), h').
Proof.
  apply (walFrame_roundtrip BO_1234 BO_4321 false true sample_hdr 16 (replicate 16 0xab) 7 12).
  - constructor; [reflexivity|repeat constructor; lia|split; split; simpl; lia].
  - split_and!; [reflexivity|lia|reflexivity|repeat constructor; lia].
  - split; lia.
  - discriminate.
  - split; lia.
Defined.

Lemma split_units (l : list Z) n : length l = (8 + n)%nat -> exists a r, l = a ++ r /\ length a = 8%nat /\ length r = n.
Proof.
  intros Hl. exists (take 8 l), (drop 8 l). rewrite take_drop, length_take, length_drop. split_and!; [done|lia..].
Qed.

Lemma cksum_bytes_inj c d : is_u32_pair c -> is_u32_pair d -> cksum_bytes c = cksum_bytes d -> c = d.
Proof.
  destruct c as [c1 c2], d as [d1 d2]. unfold cksum_bytes. cbn [fst snd]. intros [? ?] [? ?] E.
  apply app_inj_1 in E as [E1 E2]; [|done]. apply (f_equal (load32 true)) in E1, E2.
  assert (L : forall v, is_u32 v -> load32 true (store32 true v) = Some v)
    by (intros v Hv; rewrite <- (app_nil_r (store32 true v)); by apply load_store).
  rewrite !L in E1, E2 by done. by simplify_eq.
Qed.

(** What acceptance says of the three units of a frame header. *)
Lemma decode_accepts bo big h szPage data hd v h1 :
  hdr_ok h -> page_ok szPage data -> alen hd = WAL_FRAME_HDRSIZE -> Forall is_u8 hd ->
  walDecodeFrame bo big h szPage data hd = Some (Some v, h1) ->
  exists a, hd = a ++ aSalt h ++ cksum_bytes (cksum_spec (bigEndCksum h) (aFrameCksum h) (a ++ data)) /\
    length a = 8%nat.
Proof.
  intros Hh Hd Hl HF. unfold alen, WAL_FRAME_HDRSIZE in Hl.
  destruct (split_units hd 16) as (a & r & -> & La & Lr); [lia|].
  destruct (split_units r 8) as (b & c & -> & Lb & Lc); [lia|].
  destruct (decode_frame bo big h Hh szPage data Hd a b c HF La Lb Lc) as (pg & nt & _ & _ & ->).
  case_bool_decide as Hs; cbn [negb orb]; [|done]. destruct (pg =? 0); [done|].
  case_bool_decide as Hc; [|done]. intros _. exists a. split; [|done].
  rewrite cksum_spec_app by by exists 1%nat. by rewrite Hs, Hc.
Qed.

Lemma decode_total bo big h szPage data hd :
  hdr_ok h -> page_ok szPage data -> alen hd = WAL_FRAME_HDRSIZE -> Forall is_u8 hd ->
  exists o h', walDecodeFrame bo big h szPage data hd = Some (o, h').
Proof.
  intros Hh Hd Hl HF. unfold alen, WAL_FRAME_HDRSIZE in Hl.
  destruct (split_units hd 16) as (a & r & -> & La & Lr); [lia|].
  destruct (split_units r 8) as (b & c & -> & Lb & Lc); [lia|].
  destruct (decode_frame bo big h Hh szPage data Hd a b c HF La Lb Lc) as (pg & nt & _ & _ & ->).
  case_match; eauto.
Qed.

(** Two accepted frames that differ in at most one unit are equal. *)
Lemma accepted_unit h a a' d d' p x y r :
  let F a d := a ++ aSalt h ++ cksum_bytes (cksum_spec (bigEndCksum h) (aFrameCksum h) (a ++ d)) ++ d in
  hdr_ok h -> length a = 8%nat -> length a' = 8%nat -> Forall is_u8 x -> Forall is_u8 y ->
  F a d = p ++ x ++ r -> F a' d' = p ++ y ++ r ->
  units p -> length x = 8%nat -> length y = 8%nat -> x = y.
Proof.
  intros F Hh La La' HFx HFy E E' [k Hk] Lx Ly. unfold F in *. clear F.
  set (C d := cksum_spec (bigEndCksum h) (aFrameCksum h) d) in *.
  assert (HC : forall d, is_u32_pair (C d)) by (intros; apply cksum_spec_range, Hh).
  assert (Lb : forall d, length (cksum_bytes d) = 8%nat) by done. pose proof (ok_salt h Hh) as Ls.
  destruct k as [|[|[|k]]].
  - destruct p; [|done]. cbn [app] in E, E'. apply app_inj_1 in E as [-> E], E' as [-> E']; [|lia..].
    rewrite <- E' in E. apply app_inj_1 in E as [_ E]; [|done]. apply app_inj_1 in E as [E ->]; [|done].
    apply cksum_bytes_inj in E; [|done..].
    apply (cksum_detects (bigEndCksum h) (aFrameCksum h) [] x y d'); try done; [by exists 0%nat|apply Hh].
  - apply app_inj_1 in E as [_ E], E' as [_ E']; [|lia..].
    apply app_inj_1 in E as [<- _], E' as [<- _]; [done|lia..].
  - destruct (split_units p 8) as (p1 & p2 & -> & L1 & L2); [lia|]. rewrite <- app_assoc in E, E'.
    apply app_inj_1 in E as [-> E], E' as [-> E']; [|lia..].
    apply app_inj_1 in E as [_ E], E' as [_ E']; [|lia..].
    apply app_inj_1 in E as [<- <-], E' as [<- ->]; [done|by rewrite Lb..].
  - destruct (split_units p (16 + 8 * k)) as (p1 & p2 & -> & L1 & L2); [lia|].
    destruct (split_units p2 (8 + 8 * k)) as (p3 & p4 & -> & L3 & L4); [lia|].
    destruct (split_units p4 (8 * k)) as (p5 & q & -> & L5 & L6); [lia|]. rewrite <- !app_assoc in E, E'.
    apply app_inj_1 in E as [-> E], E' as [-> E']; [|lia..].
    apply app_inj_1 in E as [_ E], E' as [_ E']; [|lia..].
    apply app_inj_1 in E as [E ->], E' as [E' ->]; [|by rewrite Lb..].
    rewrite <- E' in E. apply cksum_bytes_inj in E; [|done..]. rewrite !(app_assoc p1 q) in E.
    apply (cksum_detects (bigEndCksum h) (aFrameCksum h) (p1 ++ q) x y r); try done; [|apply Hh].
    exists (S k). rewrite length_app. lia.
Qed.

(** C29. A frame that decodes is no longer accepted once any one of its aligned
    8-byte units is altered: page number and size, salt, checksum or page
    data. *)
Theorem walDecodeFrame_detects bo big h szPage hd data hd' data' p x y r v h1 :
  hdr_ok h -> page_ok szPage data -> page_ok szPage data' ->
  alen hd = WAL_FRAME_HDRSIZE -> alen hd' = WAL_FRAME_HDRSIZE ->
  Forall is_u8 hd -> Forall is_u8 hd' ->
  hd ++ data = p ++ x ++ r -> hd' ++ data' = p ++ y ++ r ->
  units p -> length x = 8%nat -> length y = 8%nat -> x <> y ->
  walDecodeFrame bo big h szPage data hd = Some (Some v, h1) ->
  exists h2, walDecodeFrame bo big h szPage data' hd' = Some (None, h2).
Proof.
  intros Hh Hd Hd' Hl Hl' HF HF' E E' Hu Lx Ly Hne Hdec.
  destruct (decode_total bo big h szPage data' hd') as (o & h2 & E2); try done.
  destruct o as [v'|]; [|by exists h2]. exfalso. apply Hne.
  destruct (decode_accepts bo big h szPage data hd v h1) as (a & -> & La); try done.
  destruct (decode_accepts bo big h szPage data' hd' v' h2) as (a' & -> & La'); try done.
  assert (HFx : Forall is_u8 (p ++ x ++ r)) by (rewrite <- E; apply Forall_app; split; [done|apply Hd]).
  assert (HFy : Forall is_u8 (p ++ y ++ r)) by (rewrite <- E'; apply Forall_app; split; [done|apply Hd']).
  rewrite !Forall_app in HFx, HFy. rewrite <- !app_assoc in E, E'.
  by apply (accepted_unit h a a' data data' p x y r); try done; naive_solver.
Qed.

Lemma walDecodeFrame_detects_witness :
  exists h2, walDecodeFrame BO_1234 false sample_hdr 8 [1; 1; 1; 1; 1; 1; 1; 3]
    ([0; 0; 0; 5; 0; 0; 0; 9; 1; 2; 3; 4; 5; 6; 7; 8] ++ cksum_bytes
       (cksum_spec true (17, 4000000000) [0; 0; 0; 5; 0; 0; 0; 9; 1; 1; 1; 1; 1; 1; 1; 2]))
    = Some (None, h2).
Proof.
  set (hd := [0; 0; 0; 5; 0; 0; 0; 9; 1; 2; 3; 4; 5; 6; 7; 8] ++ cksum_bytes
    (cksum_spec true (17, 4000000000) [0; 0; 0; 5; 0; 0; 0; 9; 1; 1; 1; 1; 1; 1; 1; 2])).
  eapply (walDecodeFrame_detects BO_1234 false sample_hdr 8 hd [1; 1; 1; 1; 1; 1; 1; 2] hd
    [1; 1; 1; 1; 1; 1; 1; 3] hd [1; 1; 1; 1; 1; 1; 1; 2] [1; 1; 1; 1; 1; 1; 1; 3] [] (5, 9)).
  - constructor; [reflexivity|repeat constructor; lia|split; split; simpl; lia].
  - split_and!; [reflexivity|lia|reflexivity|repeat constructor; lia].
  - split_and!; [reflexivity|lia|reflexivity|repeat constructor; lia].
  - reflexivity.
  - reflexivity.
  - vm_compute. repeat constructor; discriminate.
  - vm_compute. repeat constructor; discriminate.
  - reflexivity.
  - reflexivity.
  - exists 3%nat. reflexivity.
  - reflexivity.
  - reflexivity.
  - discriminate.
  - vm_compute. reflexivity.
Defined.
