(* ===== verification/WalIndex.v ===== *)
(** * Write-ahead log: the wal-index ([src/wal.c])

    The hash tables that map a database page to the frames holding it:
    [walHashGet], [walFramePage], [walFramePgno], [walCleanupHash],
    [walIndexAppend] and [walFindFrame].  Functions that write through pointers
    into the shared pages return the new pages.  An access outside an array is
    [None]. *)
From S2P Require Import Prelude OpenAddr WalBase.

Definition walHash (iPage : Z) : Z := u32 (iPage * HASHTABLE_HASH_1) .& (HASHTABLE_NSLOT - 1).
Definition walNextHash (iPriorHash : Z) : Z := (iPriorHash + 1) .& (HASHTABLE_NSLOT - 1).

(** The wal-index page that indexes a frame; the sum is of type [size_t]. *)
Definition walFramePage (iFrame : Z) : Z :=
  u64 (iFrame + HASHTABLE_NPAGE - HASHTABLE_NPAGE_ONE - 1) / HASHTABLE_NPAGE.

(** [pLoc->iZero] of [walHashGet]: one less than the first frame a page indexes. *)
Definition hash_iZero (iHash : Z) : Z :=
  if iHash =? 0 then 0 else u32 (HASHTABLE_NPAGE_ONE + (iHash - 1) * HASHTABLE_NPAGE).

(** [shmMap] is the result code with which the VFS maps a page that the
    connection has not mapped yet. *)
Section Index.
Context (shmMap : Z -> Z).

Definition walIndexPage (w : WiData) (iPage : Z) : Z * option HashPage * WiData :=
  match w !! iPage with
  | Some p => (SQLITE_OK, Some p, w)
  | None =>
      if shmMap iPage =? SQLITE_OK then
        (SQLITE_OK, Some (zero_page iPage), <[iPage := zero_page iPage]> w)
      else (shmMap iPage, None, w)
  end.

Definition walHashGet (w : WiData) (iHash : Z) : Z * option (HashPage * Z) * WiData :=
  let '(rc, p, w) := walIndexPage w iHash in
  match p with
  | Some p => (rc, Some (p, hash_iZero iHash), w)
  | None => (rc, None, w)
  end.

Definition walFramePgno (w : WiData) (iFrame : Z) : option Z :=
  let iHash := walFramePage iFrame in
  if iHash =? 0 then
    p ← w !! 0;
    aget (aPgno p) (iFrame - 1)
  else
    match walIndexPage w iHash with
    | (_, Some p, _) => aget (aPgno p) ((iFrame - 1 - HASHTABLE_NPAGE_ONE) mod HASHTABLE_NPAGE)
    | (_, None, _) => Some 0
    end.

(** The loop that zeroes slots above [iLimit], and the [memset] of the page
    numbers from [iLimit] on. *)
Definition cleanup_page (iLimit : Z) (p : HashPage) : HashPage :=
  MkPage
    (take (Z.to_nat iLimit) (aPgno p) ++ replicate (length (aPgno p) - Z.to_nat iLimit) 0)
    (map (fun v => if v >? iLimit then 0 else v) (aHash p)).

Definition walCleanupHash (w : WiData) (mxFrame : Z) : WiData :=
  if mxFrame =? 0 then w else
  let iHash := walFramePage mxFrame in
  match walHashGet w iHash with
  | (_, Some (p, iZero), w) => <[iHash := cleanup_page (mxFrame - iZero) p]> w
  | (_, None, w) => w
  end.

(** [for(iKey=walHash(iPage); sLoc.aHash[iKey]; iKey=walNextHash(iKey)){
       if( (nCollide--)==0 ) return SQLITE_CORRUPT_BKPT; }]:
    [Some None] is the corrupt case. *)
Fixpoint append_probe (nCollide : nat) (aHash : list Z) (iKey : Z) : option (option Z) :=
  v ← aget aHash iKey;
  if v =? 0 then Some (Some iKey)
  else match nCollide with
       | O => Some None
       | S nCollide => append_probe nCollide aHash (walNextHash iKey)
       end.

Definition walIndexAppend (w : WiData) (mxFrame iFrame iPage : Z) : option (Z * WiData) :=
  let iHash := walFramePage iFrame in
  match walHashGet w iHash with
  | (_, Some (p, iZero), w) =>
      let idx := iFrame - iZero in
      let w := if idx =? 1 then <[iHash := zero_page iHash]> w else w in
      p ← w !! iHash;
      v ← aget (aPgno p) (idx - 1);
      let w := if negb (v =? 0) then walCleanupHash w mxFrame else w in
      p ← w !! iHash;
      k ← append_probe (Z.to_nat idx) (aHash p) (walHash iPage);
      match k with
      | None => Some (SQLITE_CORRUPT, w)
      | Some iKey =>
          pg ← aset (aPgno p) (idx - 1) iPage;
          hs ← aset (aHash p) iKey (u16 idx);
          Some (SQLITE_OK, <[iHash := MkPage pg hs]> w)
      end
  | (rc, None, w) => Some (rc, w)
  end.

(** The inner loop of [walFindFrame]: result code and [iRead]. *)
Fixpoint find_probe (nCollide : nat) (p : HashPage) (iZero iLast minFrame pgno iKey iRead : Z)
    : option (Z * Z) :=
  iH ← aget (aHash p) iKey;
  if iH =? 0 then Some (SQLITE_OK, iRead)
  else
    let iFrame := u32 (iH + iZero) in
    iRead ← if (iFrame <=? iLast) && (iFrame >=? minFrame) then
              pg ← aget (aPgno p) (iH - 1);
              Some (if pg =? pgno then iFrame else iRead)
            else Some iRead;
    match nCollide with
    | O => Some (SQLITE_CORRUPT, 0)
    | S nCollide =>
        find_probe nCollide p iZero iLast minFrame pgno (walNextHash iKey) iRead
    end.

(** [for(iHash=walFramePage(iLast); iHash>=iMinHash; iHash--)], over
    [n] tables. *)
Fixpoint find_tables (n : nat) (w : WiData) (iHash iLast minFrame pgno : Z) : option (Z * Z) :=
  match n with
  | O => Some (SQLITE_OK, 0)
  | S n =>
      match walHashGet w iHash with
      | (_, Some (p, iZero), w) =>
          '(rc, iRead) ← find_probe (Z.to_nat HASHTABLE_NSLOT) p iZero iLast minFrame pgno
                           (walHash pgno) 0;
          if negb (rc =? SQLITE_OK) then Some (rc, iRead)
          else if negb (iRead =? 0) then Some (SQLITE_OK, iRead)
          else find_tables n w (iHash - 1) iLast minFrame pgno
      | (rc, None, _) => Some (rc, 0)
      end
  end.

(** [ignoreWal] is the condition [pWal->readLock==0 && pWal->bShmUnreliable==0]. *)
Definition walFindFrame (w : WiData) (ignoreWal : bool) (minFrame pgno iLast : Z) : option (Z * Z) :=
  if (iLast =? 0) || ignoreWal then Some (SQLITE_OK, 0)
  else
    let iMinHash := walFramePage minFrame in
    let iHash := walFramePage iLast in
    find_tables (Z.to_nat (iHash - iMinHash + 1)) w iHash iLast minFrame pgno.
End Index.


(** ** One hash table *)

Local Abbreviation N := HASHTABLE_NSLOT.

Lemma walNextHash_pos k : walNextHash k = pos N k 1.
Proof. unfold walNextHash, pos. by apply (land_ones_mod _ 13). Qed.

Lemma walHash_range pg : 0 <= walHash pg < N.
Proof. unfold walHash. rewrite (land_ones_mod _ 13) by done. apply Z.mod_pos_bound. done. Qed.

(** The table of a wal-index page represents the page numbers [ps] of its
    frames, in order: each frame index has a slot, and the search for its page
    passes only slots of earlier frames before it. *)
Record table_ok (cap : Z) (ps : list Z) (p : HashPage) : Prop := {
  tab_pgno_len : alen (aPgno p) = cap;
  tab_hash_len : alen (aHash p) = N;
  tab_room : alen ps <= cap <= HASHTABLE_NPAGE;
  tab_pgno : forall j, 0 <= j < alen ps -> aget (aPgno p) j = aget ps j;
  tab_tail : forall j, alen ps <= j < cap -> aget (aPgno p) j = Some 0;
  tab_slot : forall s v, aget (aHash p) s = Some v -> v <> 0 -> 1 <= v <= alen ps;
  tab_path : forall s v pg, aget (aHash p) s = Some v -> v <> 0 -> aget ps (v - 1) = Some pg ->
    forall k, 0 <= k < dist N (walHash pg) s ->
    exists w, aget (aHash p) (pos N (walHash pg) k) = Some w /\ 0 < w < v;
  tab_all : forall v, 1 <= v <= alen ps -> exists s, aget (aHash p) s = Some v
}.

Lemma table_ok_zero i : table_ok (page_entries i) [] (zero_page i).
Proof.
  assert (0 <= page_entries i <= HASHTABLE_NPAGE) by (unfold page_entries; by case_match).
  constructor; cbn [aPgno aHash zero_page].
  - unfold alen. rewrite length_replicate. lia.
  - done.
  - unfold alen. simpl. lia.
  - unfold alen. simpl. lia.
  - intros j Hj. apply aget_replicate. unfold alen in Hj. simpl in Hj. lia.
  - intros s v Hs Hv. pose proof (aget_range _ _ _ Hs). rewrite aget_replicate in Hs by done. congruence.
  - intros s v pg Hs Hv. pose proof (aget_range _ _ _ Hs). rewrite aget_replicate in Hs by done. congruence.
  - unfold alen. simpl. lia.
Qed.

Section Table.
Context (cap : Z) (ps : list Z) (p : HashPage) (Hok : table_ok cap ps p).

Lemma slot_range s v : aget (aHash p) s = Some v -> 0 <= s < N.
Proof. intros H%aget_range. by rewrite (tab_hash_len _ _ _ Hok) in H. Qed.

(** A frame index sits in one slot only. *)
Lemma slot_unique s s' v :
  aget (aHash p) s = Some v -> aget (aHash p) s' = Some v -> v <> 0 -> s = s'.
Proof.
  intros Hs Hs' Hv. pose proof (slot_range _ _ Hs) as R. pose proof (slot_range _ _ Hs') as R'.
  destruct (aget_is_Some ps (v - 1)) as [pg Hpg].
  { pose proof (tab_slot _ _ _ Hok s v Hs Hv). lia. }
  pose proof (dist_range N ltac:(done) (walHash pg) s). pose proof (dist_range N ltac:(done) (walHash pg) s').
  destruct (Z.lt_total (dist N (walHash pg) s) (dist N (walHash pg) s')) as [H1|[E|H1]].
  - destruct (tab_path _ _ _ Hok s' v pg Hs' Hv Hpg (dist N (walHash pg) s)) as (x & Hx & ?); [lia|].
    rewrite pos_dist in Hx by done. rewrite Hs in Hx. simplify_eq. lia.
  - rewrite <- (pos_dist N (walHash pg) s), E by done. by rewrite pos_dist.
  - destruct (tab_path _ _ _ Hok s v pg Hs Hv Hpg (dist N (walHash pg) s')) as (x & Hx & ?); [lia|].
    rewrite pos_dist in Hx by done. rewrite Hs' in Hx. simplify_eq. lia.
Qed.

(** A run of taken slots is no longer than the number of frames. *)
Lemma run_bound h m : 0 <= m <= N ->
  (forall j, 0 <= j < m -> exists w, aget (aHash p) (pos N h j) = Some w /\ w <> 0) -> m <= alen ps.
Proof.
  intros Hm Hrun. set (val j := default 0 (aget (aHash p) (pos N h j))).
  assert (Hv : forall j, 0 <= j < m -> aget (aHash p) (pos N h j) = Some (val j) /\ val j <> 0).
  { intros j Hj. destruct (Hrun j Hj) as (w & Hw & ?). unfold val. by rewrite Hw. }
  assert (Hnd : NoDup (val <$> seqZ 0 m)).
  { apply NoDup_fmap_2_strong; [|apply NoDup_seqZ]. intros j j' Hj%elem_of_seqZ Hj'%elem_of_seqZ E.
    destruct (Hv j ltac:(lia)) as [H1 ?], (Hv j' ltac:(lia)) as [H2 _]. rewrite <- E in H2.
    apply (pos_inj N h); [lia|lia|]. by eapply slot_unique. }
  assert (Hsub : (val <$> seqZ 0 m) ⊆+ seqZ 1 (alen ps)).
  { apply NoDup_submseteq; [done|]. intros x (j & -> & Hj%elem_of_seqZ)%list_elem_of_fmap.
    destruct (Hv j ltac:(lia)) as [H1 H2]. apply elem_of_seqZ. pose proof (tab_slot _ _ _ Hok _ _ H1 H2). lia. }
  apply submseteq_length in Hsub. rewrite length_fmap, !length_seqZ in Hsub. unfold alen in *. lia.
Qed.

(** The first free slot from [h]. *)
Lemma first_free h : exists d, 0 <= d <= alen ps /\ aget (aHash p) (pos N h d) = Some 0 /\
  forall j, 0 <= j < d -> exists w, aget (aHash p) (pos N h j) = Some w /\ w <> 0.
Proof.
  set (free d := match aget (aHash p) (pos N h d) with Some 0 => true | _ => false end).
  assert (Hnf : forall j, 0 <= j -> free j = false -> exists w, aget (aHash p) (pos N h j) = Some w /\ w <> 0).
  { intros j Hj Hf. unfold free in Hf. destruct (aget_is_Some (aHash p) (pos N h j)) as [w Hw].
    { rewrite (tab_hash_len _ _ _ Hok). by apply pos_range. }
    rewrite Hw in Hf. exists w. split; [done|]. by intros ->. }
  destruct (first_or_none free (Z.to_nat N)) as [Hno|(d & Hd & Hf & Hlt)].
  - pose proof (run_bound h N) as Hb. pose proof (tab_room _ _ _ Hok). unfold HASHTABLE_NPAGE, N in *.
    assert (8192 <= alen ps); [|lia]. apply Hb; [lia|]. intros j Hj. apply Hnf; [lia|]. apply Hno. lia.
  - exists d. assert (Hrun : forall j, 0 <= j < d -> exists w, aget (aHash p) (pos N h j) = Some w /\ w <> 0).
    { intros j Hj. apply Hnf; [lia|]. by apply Hlt. }
    split_and!; [lia|apply (run_bound h); [lia|done]| |done].
    unfold free in Hf. destruct (aget (aHash p) (pos N h d)) as [[| |]|]; done.
Qed.
End Table.

Lemma append_probe_walk hs d : forall n k, (d <= n)%nat ->
  (forall j, 0 <= j < Z.of_nat d -> exists w, aget hs (pos N k j) = Some w /\ w <> 0) ->
  aget hs (pos N k (Z.of_nat d)) = Some 0 -> 0 <= k < N ->
  append_probe n hs k = Some (Some (pos N k (Z.of_nat d))).
Proof.
  induction d as [|d IH]; intros n k Hn Hrun H0 Hk.
  - rewrite pos_0 in H0 |- * by done. destruct n; cbn [append_probe]; rewrite H0; done.
  - destruct n as [|n]; [lia|]. destruct (Hrun 0 ltac:(lia)) as (w & Hw & Hw0). rewrite pos_0 in Hw by done.
    cbn [append_probe]. rewrite Hw. cbn [mbind option_bind]. apply Z.eqb_neq in Hw0. rewrite Hw0.
    rewrite walNextHash_pos.
    replace (pos N k (Z.of_nat (S d))) with (pos N (pos N k 1) (Z.of_nat d)) in H0 |- *
      by (rewrite pos_step; f_equal; lia).
    apply IH; [lia| |done|by apply pos_range].
    intros j Hj. rewrite pos_step. apply Hrun. lia.
Qed.


Lemma aget_map {A B} (f : A -> B) l i : aget (map f l) i = f <$> aget l i.
Proof. unfold aget. destruct (0 <=? i); [|done]. apply list_lookup_fmap. Qed.

(** Adding the next frame of the table. *)
Lemma table_append cap ps p pg : table_ok cap ps p -> alen ps < cap -> exists k pg' hs',
  append_probe (Z.to_nat (alen ps + 1)) (aHash p) (walHash pg) = Some (Some k) /\
  aset (aPgno p) (alen ps) pg = Some pg' /\ aset (aHash p) k (u16 (alen ps + 1)) = Some hs' /\
  table_ok cap (ps ++ [pg]) (MkPage pg' hs').
Proof.
  intros Hok Hroom. pose proof (tab_room _ _ _ Hok) as Hcap. pose proof (alen_nonneg ps) as Hnn.
  destruct (first_free cap ps p Hok (walHash pg)) as (d & Hd & H0 & Hrun).
  assert (Hu : u16 (alen ps + 1) = alen ps + 1).
  { unfold u16. apply Z.mod_small. unfold HASHTABLE_NPAGE in *. lia. }
  set (k := pos N (walHash pg) d) in *.
  assert (Hpg : exists l, aset (aPgno p) (alen ps) pg = Some l).
  { eexists. apply aset_in. rewrite (tab_pgno_len _ _ _ Hok). lia. }
  assert (Hhs : exists l, aset (aHash p) k (alen ps + 1) = Some l).
  { eexists. apply aset_in. rewrite (tab_hash_len _ _ _ Hok). by apply pos_range. }
  destruct Hpg as [l Hl], Hhs as [hs Hhs]. exists k, l, hs. rewrite Hu. split_and!; try done.
  - unfold k. rewrite <- (Z2Nat.id d) by lia. apply append_probe_walk; rewrite ?Z2Nat.id by lia; try done; [lia|].
    apply walHash_range.
  - assert (Hlen : alen (ps ++ [pg]) = alen ps + 1) by (rewrite alen_app; done).
    constructor; cbn [aPgno aHash]; rewrite ?Hlen.
    + rewrite (aset_alen _ _ _ _ Hl). apply Hok.
    + rewrite (aset_alen _ _ _ _ Hhs). apply Hok.
    + lia.
    + intros j Hj. rewrite (aget_aset _ _ _ _ _ Hl). case_decide as E; [by rewrite E, aget_snoc|].
      rewrite aget_app_l by lia. apply Hok. lia.
    + intros j Hj. rewrite (aget_aset_ne _ _ _ _ _ Hl) by lia. apply Hok. lia.
    + intros s v Hs Hv. rewrite (aget_aset _ _ _ _ _ Hhs) in Hs. case_decide; [simplify_eq; lia|].
      pose proof (tab_slot _ _ _ Hok s v Hs Hv). lia.
    + intros s v pg0 Hs Hv Hpg0 j Hj. rewrite (aget_aset _ _ _ _ _ Hhs) in Hs. rewrite (aget_aset _ _ _ _ _ Hhs).
      destruct (decide (s = k)) as [->|Hsk].
      * simplify_eq. replace (alen ps + 1 - 1) with (alen ps) in Hpg0 by lia.
        rewrite aget_snoc in Hpg0. simplify_eq. unfold k in Hj. rewrite dist_pos in Hj.
        2:{ unfold HASHTABLE_NPAGE, HASHTABLE_NSLOT in *. lia. }
        destruct (Hrun j Hj) as (w & Hw & ?). case_decide as E; [rewrite E, H0 in Hw; congruence|].
        exists w. split; [done|]. pose proof (tab_slot _ _ _ Hok _ w Hw). lia.
      * pose proof (tab_slot _ _ _ Hok s v Hs Hv). rewrite aget_app_l in Hpg0 by lia.
        destruct (tab_path _ _ _ Hok s v pg0 Hs Hv Hpg0 j Hj) as (w & Hw & ?).
        exists w. case_decide as E; [|done]. rewrite E, H0 in Hw. simplify_eq. lia.
    + intros v Hv. destruct (decide (v = alen ps + 1)) as [->|].
      { exists k. by eapply aget_aset_eq. }
      destruct (tab_all _ _ _ Hok v ltac:(lia)) as [s Hs]. exists s.
      rewrite (aget_aset_ne _ _ _ _ _ Hhs); [done|]. intros <-. rewrite H0 in Hs. simplify_eq. lia.
Qed.

(** Forgetting the frames after the first [lim]. *)
Lemma table_cleanup cap ps p lim : table_ok cap ps p -> 0 <= lim <= alen ps ->
  table_ok cap (take (Z.to_nat lim) ps) (cleanup_page lim p).
Proof.
  intros Hok Hlim. pose proof (tab_room _ _ _ Hok) as Hcap. pose proof (tab_pgno_len _ _ _ Hok) as Hpl.
  assert (Hlen : alen (take (Z.to_nat lim) ps) = lim) by by apply alen_take.
  assert (Hget : forall s v, aget (aHash (cleanup_page lim p)) s = Some v -> v <> 0 ->
    aget (aHash p) s = Some v /\ v <= lim).
  { intros s v Hs Hv. cbn [cleanup_page aHash] in Hs. rewrite aget_map in Hs.
    destruct (aget (aHash p) s) as [w|]; cbn in Hs; [|done]. simplify_eq.
    destruct (Z.gtb_spec w lim); [done|]. split; [done|lia]. }
  assert (Hkeep : forall s v, aget (aHash p) s = Some v -> v <= lim ->
    aget (aHash (cleanup_page lim p)) s = Some v).
  { intros s v Hs Hv. cbn [cleanup_page aHash]. rewrite aget_map, Hs. cbn. destruct (Z.gtb_spec v lim); [lia|done]. }
  constructor; rewrite ?Hlen.
  - cbn [cleanup_page aPgno]. rewrite alen_app, alen_take by lia. unfold alen in *. rewrite length_replicate. lia.
  - cbn [cleanup_page aHash]. unfold alen. rewrite length_map. apply Hok.
  - lia.
  - intros j Hj. cbn [cleanup_page aPgno]. rewrite aget_app_l by (rewrite alen_take; lia).
    rewrite !aget_take by lia. apply Hok. lia.
  - intros j Hj. cbn [cleanup_page aPgno]. rewrite aget_app_r by (rewrite alen_take; lia).
    rewrite alen_take by lia. apply aget_replicate. unfold alen in *. lia.
  - intros s v Hs Hv. destruct (Hget s v Hs Hv) as [Hs' ?]. pose proof (tab_slot _ _ _ Hok s v Hs' Hv). lia.
  - intros s v pg Hs Hv Hpg k Hk. destruct (Hget s v Hs Hv) as [Hs' ?]. rewrite aget_take in Hpg by lia.
    destruct (tab_path _ _ _ Hok s v pg Hs' Hv Hpg k Hk) as (w & Hw & ?). exists w. split; [|lia].
    apply Hkeep; [done|lia].
  - intros v Hv. destruct (tab_all _ _ _ Hok v ltac:(lia)) as [s Hs]. exists s. apply Hkeep; [done|lia].
Qed.

(** ** Searching one table *)
Section Find.
Context (cap : Z) (ps : list Z) (p : HashPage) (Hok : table_ok cap ps p).
Context (iZero iLast minFrame pgno : Z) (HiZ : 0 <= iZero /\ iZero + cap < 2 ^ 32).

(** The frame in slot [s] holds the page and is visible. *)
Definition hit (s v : Z) : Prop :=
  aget (aHash p) s = Some v /\ v <> 0 /\ aget ps (v - 1) = Some pgno /\
  minFrame <= v + iZero <= iLast.

Lemma find_probe_walk r : forall n k iRead, (r <= n)%nat -> 0 <= k < N ->
  (forall i, 0 <= i < Z.of_nat r -> exists w, aget (aHash p) (pos N k i) = Some w /\ w <> 0) ->
  aget (aHash p) (pos N k (Z.of_nat r)) = Some 0 ->
  exists R, find_probe n p iZero iLast minFrame pgno k iRead = Some (SQLITE_OK, R) /\
    ((R = iRead /\ forall i v, 0 <= i < Z.of_nat r -> ~ hit (pos N k i) v) \/
     (exists i v, 0 <= i < Z.of_nat r /\ hit (pos N k i) v /\ R = v + iZero /\
        forall i' v', i < i' < Z.of_nat r -> ~ hit (pos N k i') v')).
Proof.
  induction r as [|r IH]; intros n k iRead Hn Hk Hrun H0.
  { rewrite pos_0 in H0 by done. exists iRead. split; [|left; split; [done|lia]].
    destruct n; cbn [find_probe]; rewrite H0; done. }
  destruct n as [|n]; [lia|]. destruct (Hrun 0 ltac:(lia)) as (w & Hw & Hw0). rewrite pos_0 in Hw by done.
  pose proof (tab_slot _ _ _ Hok k w Hw Hw0) as Hwr. pose proof (tab_room _ _ _ Hok) as Hcap.
  destruct (aget_is_Some ps (w - 1)) as [pg Hpg]; [lia|].
  cbn [find_probe]. rewrite Hw. cbn [mbind option_bind]. destruct (Z.eqb_spec w 0) as [|_]; [done|].
  rewrite u32_id by (unfold is_u32; lia).
  assert (Hstep : forall i, pos N k (i + 1) = pos N (pos N k 1) i) by (intros; by rewrite pos_step).
  set (vis := (w + iZero <=? iLast) && (w + iZero >=? minFrame)).
  assert (Hread : exists iRead', (if vis then pg ← aget (aPgno p) (w - 1);
      Some (if pg =? pgno then w + iZero else iRead) else Some iRead) = Some iRead' /\
      (hit k w /\ iRead' = w + iZero \/ ~ hit k w /\ iRead' = iRead)).
  { unfold hit. rewrite Hw, Hpg. unfold vis. rewrite Z.geb_leb.
    destruct (Z.leb_spec (w + iZero) iLast), (Z.leb_spec minFrame (w + iZero)); cbn [andb];
      try (eexists; split; [done|right; split; [naive_solver lia|done]]).
    rewrite (tab_pgno _ _ _ Hok), Hpg by lia. cbn [mbind option_bind]. eexists. split; [done|].
    destruct (Z.eqb_spec pg pgno) as [->|]; [left|right]; naive_solver. }
  destruct Hread as (iRead' & -> & Hcase). cbn [mbind option_bind]. rewrite walNextHash_pos.
  destruct (IH n (pos N k 1) iRead') as (R & -> & HR); [lia|by apply pos_range| | |].
  { intros i Hi. rewrite <- Hstep. apply Hrun. lia. }
  { rewrite <- Hstep. rewrite <- H0. do 2 f_equal. lia. }
  exists R. split; [done|]. destruct HR as [[-> Hno]|(i & v & Hi & Hhit & -> & Hmax)].
  - destruct Hcase as [[Hhit ->]|[Hnh ->]].
    + right. exists 0, w. rewrite pos_0 by done. split_and!; try done; try lia.
      intros i' v' Hi'. replace i' with (i' - 1 + 1) by lia. rewrite Hstep. apply Hno. lia.
    + left. split; [done|]. intros i v Hi. destruct (decide (i = 0)) as [->|].
      * rewrite pos_0 by done. intros Hh. pose proof Hh as (E & _). rewrite Hw in E. simplify_eq.
      * replace i with (i - 1 + 1) by lia. rewrite Hstep. apply Hno. lia.
  - right. exists (i + 1), v. rewrite Hstep. split_and!; try done; try lia.
    intros i' v' Hi'. replace i' with (i' - 1 + 1) by lia. rewrite Hstep. apply Hmax. lia.
Qed.

(** The search of a table finds the latest visible frame of the page in it. *)
Lemma find_in_table : exists R,
  find_probe (Z.to_nat N) p iZero iLast minFrame pgno (walHash pgno) 0 = Some (SQLITE_OK, R) /\
  ((R = 0 /\ forall v, 1 <= v <= alen ps -> minFrame <= v + iZero <= iLast -> aget ps (v - 1) <> Some pgno) \/
   (exists v, 1 <= v <= alen ps /\ R = v + iZero /\ minFrame <= R <= iLast /\ aget ps (v - 1) = Some pgno /\
      forall v', v < v' <= alen ps -> minFrame <= v' + iZero <= iLast -> aget ps (v' - 1) <> Some pgno)).
Proof.
  destruct (first_free cap ps p Hok (walHash pgno)) as (d & Hd & H0 & Hrun).
  pose proof (tab_room _ _ _ Hok) as Hcap. pose proof (walHash_range pgno) as Hh.
  destruct (find_probe_walk (Z.to_nat d) (Z.to_nat N) (walHash pgno) 0) as (R & -> & HR);
    rewrite ?Z2Nat.id by lia; try done.
  { unfold HASHTABLE_NPAGE, HASHTABLE_NSLOT in *. lia. }
  rewrite Z2Nat.id in HR by lia.
  (* a visible frame of the page is a hit before the free slot *)
  assert (Hall : forall v, 1 <= v <= alen ps -> minFrame <= v + iZero <= iLast -> aget ps (v - 1) = Some pgno ->
    exists i, 0 <= i < d /\ hit (pos N (walHash pgno) i) v).
  { intros v Hv Hvis Hpg. destruct (tab_all _ _ _ Hok v Hv) as [s Hs].
    pose proof (slot_range _ _ _ Hok _ _ Hs) as Hr. exists (dist N (walHash pgno) s).
    unfold hit. rewrite pos_dist by done. split; [|split_and!; done || lia].
    pose proof (dist_range N ltac:(done) (walHash pgno) s).
    destruct (Z.lt_trichotomy (dist N (walHash pgno) s) d) as [|[E|Hgt]]; [lia| |].
    - rewrite <- E, pos_dist in H0 by done. rewrite H0 in Hs. simplify_eq; lia.
    - destruct (tab_path _ _ _ Hok s v pgno Hs ltac:(lia) Hpg d) as (w & Hw & ?); [lia|].
      rewrite H0 in Hw. simplify_eq; lia. }
  exists R. split; [done|]. destruct HR as [[-> Hno]|(i & v & Hi & Hhit & -> & Hmax)].
  - left. split; [done|]. intros v Hv Hvis Hpg. destruct (Hall v Hv Hvis Hpg) as (i & Hi & Hhit).
    by eapply Hno.
  - right. pose proof Hhit as (Hs & Hv0 & Hpg & Hvis). pose proof (tab_slot _ _ _ Hok _ _ Hs Hv0).
    exists v. split_and!; try done; try lia. intros v' Hv' Hvis' Hpg'.
    destruct (Hall v' ltac:(lia) Hvis' Hpg') as (i' & Hi' & Hhit'). pose proof Hhit' as (Hs' & _).
    destruct (Z.lt_trichotomy i' i) as [Hlt|[->|Hgt]].
    + destruct (tab_path _ _ _ Hok _ v pgno Hs Hv0 Hpg i') as (w & Hw & ?).
      { rewrite dist_pos; [lia|]. unfold HASHTABLE_NPAGE, HASHTABLE_NSLOT in *. lia. }
      rewrite Hs' in Hw. simplify_eq; lia.
    + rewrite Hs in Hs'. simplify_eq; lia.
    + apply (Hmax i' v'); [lia|done].
Qed.
End Find.

(** ** The whole index *)

(** The frames before those of table [i]. *)
Definition zero_of (i : Z) : Z :=
  if i =? 0 then 0 else HASHTABLE_NPAGE_ONE + (i - 1) * HASHTABLE_NPAGE.

(** The pages of the frames of table [i]. *)
Definition tab (i : Z) (ps : list Z) : list Z :=
  take (Z.to_nat (page_entries i)) (drop (Z.to_nat (zero_of i)) ps).

(** The wal-index represents the log whose frames hold the pages [ps]. *)
Definition index_ok (w : WiData) (ps : list Z) : Prop :=
  alen ps < 2 ^ 32 - 4096 /\ Forall (fun pg => 0 < pg < 2 ^ 32) ps /\
  forall i, 0 <= i -> zero_of i < alen ps ->
    exists p, w !! i = Some p /\ table_ok (page_entries i) (tab i ps) p.

(** The latest of the frames [minFrame..n] that holds [pgno], or zero. *)
Fixpoint latest_frame (n : nat) (ps : list Z) (minFrame pgno : Z) : Z :=
  match n with
  | O => 0
  | S n' =>
      if (minFrame <=? Z.of_nat n) && bool_decide (aget ps (Z.of_nat n - 1) = Some pgno)
      then Z.of_nat n else latest_frame n' ps minFrame pgno
  end.

Ltac page_arith :=
  unfold zero_of, page_entries, HASHTABLE_NPAGE, HASHTABLE_NPAGE_ONE in *;
  repeat match goal with |- context [?i =? 0] => destruct (Z.eqb_spec i 0)
                       | H : context [?i =? 0] |- _ => destruct (Z.eqb_spec i 0) end; subst; try lia; try zdm.

Lemma walFramePage_div f : 0 <= f < 2 ^ 32 -> walFramePage f = (f + 33) / 4096.
Proof.
  intros. unfold walFramePage. rewrite u64_id by (unfold is_u64, HASHTABLE_NPAGE, HASHTABLE_NPAGE_ONE; lia).
  unfold HASHTABLE_NPAGE, HASHTABLE_NPAGE_ONE. f_equal. lia.
Qed.

Lemma walFramePage_range f : 1 <= f < 2 ^ 32 ->
  0 <= walFramePage f /\ zero_of (walFramePage f) < f <= zero_of (walFramePage f) + page_entries (walFramePage f).
Proof. intros. rewrite walFramePage_div by lia. page_arith. Qed.

Lemma walFramePage_unique f i : 0 <= i -> f < 2 ^ 32 ->
  zero_of i < f <= zero_of i + page_entries i -> walFramePage f = i.
Proof. intros Hi Hf Hr. rewrite walFramePage_div; page_arith. Qed.

Lemma walFramePage_mono f g : 0 <= f <= g -> g < 2 ^ 32 -> walFramePage f <= walFramePage g.
Proof. intros. rewrite !walFramePage_div by lia. zdm. Qed.

Lemma zero_of_nonneg i : 0 <= i -> 0 <= zero_of i.
Proof. intros. page_arith. Qed.

Lemma zero_of_succ i : 0 <= i -> zero_of (i + 1) = zero_of i + page_entries i.
Proof. intros. page_arith. Qed.

Lemma zero_of_mono i j : 0 <= i < j -> zero_of i + page_entries i <= zero_of j.
Proof. intros. page_arith. Qed.

Lemma page_entries_range i : 0 < page_entries i <= HASHTABLE_NPAGE.
Proof. page_arith. Qed.

Lemma hash_iZero_eq i : 0 <= i -> zero_of i < 2 ^ 32 -> hash_iZero i = zero_of i.
Proof.
  intros Hi Hz. pose proof (zero_of_nonneg i Hi). unfold hash_iZero, zero_of in *. destruct (i =? 0); [done|].
  by apply u32_id.
Qed.

Lemma alen_tab i ps : 0 <= i -> zero_of i <= alen ps ->
  alen (tab i ps) = Z.min (page_entries i) (alen ps - zero_of i).
Proof.
  intros Hi Hz. pose proof (zero_of_nonneg i Hi). pose proof (page_entries_range i).
  unfold tab, alen in *. rewrite length_take, length_drop. lia.
Qed.

Lemma aget_tab i ps j : 0 <= i -> 0 <= j < page_entries i -> aget (tab i ps) j = aget ps (zero_of i + j).
Proof.
  intros Hi Hj. pose proof (zero_of_nonneg i Hi). unfold tab. rewrite aget_take by lia. apply aget_drop; lia.
Qed.

Lemma walHashGet_mapped shmMap w i p :
  w !! i = Some p -> walHashGet shmMap w i = (SQLITE_OK, Some (p, hash_iZero i), w).
Proof. intros H. unfold walHashGet, walIndexPage. by rewrite H. Qed.

(** What [latest_frame] means. *)
Lemma latest_frame_spec n ps minFrame pgno :
  (latest_frame n ps minFrame pgno = 0 /\
   forall f, 1 <= f <= Z.of_nat n -> minFrame <= f -> aget ps (f - 1) <> Some pgno) \/
  (exists R, latest_frame n ps minFrame pgno = R /\ 1 <= R <= Z.of_nat n /\ minFrame <= R /\
   aget ps (R - 1) = Some pgno /\ forall f, R < f <= Z.of_nat n -> aget ps (f - 1) <> Some pgno).
Proof.
  induction n as [|n IH]; [left; split; [done|lia]|]. cbn [latest_frame].
  destruct (Z.leb_spec minFrame (Z.of_nat (S n))) as [Hm|Hm]; cbn [andb].
  - case_bool_decide as Hpg.
    + right. exists (Z.of_nat (S n)). split_and!; try done; lia.
    + assert (Hstep : forall f, f <= Z.of_nat (S n) -> f <> Z.of_nat (S n) -> f <= Z.of_nat n) by lia.
      destruct IH as [[-> Hno]|(R & -> & HR & Hmin & Hg & Hmax)].
      * left. split; [done|]. intros f Hf Hmf. destruct (decide (f = Z.of_nat (S n))) as [->|]; [done|].
        apply Hno; lia.
      * right. exists R. split_and!; try done; try lia. intros f Hf.
        destruct (decide (f = Z.of_nat (S n))) as [->|]; [done|]. apply Hmax. lia.
  - left. assert (Hz : forall k, (k <= n)%nat -> latest_frame k ps minFrame pgno = 0).
    { induction k as [|k IHk]; intros Hk; [done|]. cbn [latest_frame].
      destruct (Z.leb_spec minFrame (Z.of_nat (S k))); [lia|]. apply IHk. lia. }
    split; [by apply Hz|lia].
Qed.

(** The tables from [iHash] down, [n] of them, hold the frames above
    [zero_of (iHash - n + 1)]. *)
Lemma find_tables_spec shmMap w ps iLast minFrame pgno : index_ok w ps -> 1 <= iLast <= alen ps ->
  forall n iHash, Z.of_nat n <= iHash + 1 -> iHash <= walFramePage iLast ->
  (forall f, zero_of (iHash + 1) < f <= iLast -> minFrame <= f -> aget ps (f - 1) <> Some pgno) ->
  exists R, find_tables shmMap n w iHash iLast minFrame pgno = Some (SQLITE_OK, R) /\
    ((R = 0 /\ forall f, zero_of (iHash + 1 - Z.of_nat n) < f <= iLast -> minFrame <= f -> aget ps (f - 1) <> Some pgno) \/
     (1 <= R <= iLast /\ minFrame <= R /\ aget ps (R - 1) = Some pgno /\
      forall f, R < f <= iLast -> aget ps (f - 1) <> Some pgno)).
Proof.
  intros Hw HL. pose proof Hw as (Hmax & _ & Htab). pose proof (walFramePage_range iLast ltac:(lia)) as HrL.
  induction n as [|n IH]; intros iHash Hn Hi Hno.
  { exists 0. split; [done|]. left. split; [done|]. by rewrite Z.sub_0_r. }
  assert (0 <= iHash) by lia. pose proof (zero_of_nonneg iHash ltac:(done)).
  assert (Hz : zero_of iHash < iLast).
  { destruct (decide (iHash = walFramePage iLast)) as [->|]; [lia|].
    pose proof (zero_of_mono iHash (walFramePage iLast) ltac:(lia)). pose proof (page_entries_range iHash). lia. }
  destruct (Htab iHash) as (p & Hp & Hok); [done|lia|].
  cbn [find_tables]. rewrite (walHashGet_mapped _ _ _ p Hp), hash_iZero_eq by lia.
  pose proof (page_entries_range iHash) as Hpe.
  assert (HT : alen (tab iHash ps) <= page_entries iHash) by (rewrite alen_tab by lia; lia).
  destruct (find_in_table _ _ _ Hok (zero_of iHash) iLast minFrame pgno) as (R & -> & HR).
  { unfold HASHTABLE_NPAGE in *. lia. }
  cbn [mbind option_bind negb Z.eqb SQLITE_OK]. change (SQLITE_OK =? SQLITE_OK) with true. cbn [negb].
  assert (Hget : forall v, 1 <= v <= page_entries iHash -> aget (tab iHash ps) (v - 1) = aget ps (v + zero_of iHash - 1)).
  { intros v Hv. rewrite aget_tab by lia. f_equal. lia. }
  rewrite zero_of_succ in Hno by done.
  destruct HR as [[-> Hnone]|(v & Hv & -> & Hvis & Hpg & Hlast)].
  - cbn [Z.eqb negb]. destruct (IH (iHash - 1)) as (R & -> & HR); [lia|lia| |].
    + intros f Hf Hm Hg. replace (iHash - 1 + 1) with iHash in Hf by lia.
      destruct (decide (f <= zero_of iHash + page_entries iHash)) as [Hin|Hout]; [|by apply (Hno f); [lia|..]].
      apply (Hnone (f - zero_of iHash)).
      * rewrite alen_tab by lia. lia.
      * lia.
      * rewrite Hget by lia. rewrite <- Hg. f_equal. lia.
    + exists R. split; [done|]. replace (iHash + 1 - Z.of_nat (S n)) with (iHash - 1 + 1 - Z.of_nat n) by lia. done.
  - destruct (Z.eqb_spec (v + zero_of iHash) 0); [lia|]. cbn [negb]. eexists. split; [done|]. right.
    rewrite Hget in Hpg by lia. split_and!; try done; try lia. intros f Hf Hg.
    destruct (decide (f <= zero_of iHash + page_entries iHash)) as [Hin|Hout]; [|by apply (Hno f); [lia|lia|]].
    apply (Hlast (f - zero_of iHash)).
    + rewrite alen_tab by lia. lia.
    + lia.
    + rewrite Hget by lia. rewrite <- Hg. f_equal. lia.
Qed.

Lemma find_frame shmMap w ps minFrame pgno iLast :
  index_ok w ps -> 0 <= iLast <= alen ps -> 0 <= minFrame < 2 ^ 32 ->
  walFindFrame shmMap w false minFrame pgno iLast
  = Some (SQLITE_OK, latest_frame (Z.to_nat iLast) ps minFrame pgno).
Proof.
  intros Hw HL Hmin. pose proof Hw as (Hmax & _). unfold walFindFrame. rewrite orb_false_r.
  destruct (Z.eqb_spec iLast 0) as [->|]; [done|].
  destruct (find_tables_spec shmMap w ps iLast minFrame pgno Hw ltac:(lia)
    (Z.to_nat (walFramePage iLast - walFramePage minFrame + 1)) (walFramePage iLast)) as (R & -> & HR).
  { assert (0 <= walFramePage minFrame) by (rewrite walFramePage_div by lia; zdm).
    pose proof (walFramePage_range iLast ltac:(lia)). lia. }
  { lia. }
  { pose proof (walFramePage_range iLast ltac:(lia)). rewrite zero_of_succ by lia. lia. }
  do 2 f_equal. destruct (latest_frame_spec (Z.to_nat iLast) ps minFrame pgno)
    as [[-> Hno]|(R' & -> & HR' & Hm' & Hg' & Hmx')]; rewrite Z2Nat.id in * by lia.
  - destruct HR as [[-> _]|(? & ? & ? & _)]; [done|]. exfalso. by apply (Hno R); try lia.
  - destruct HR as [[-> HnoR]|(? & ? & HgR & HmxR)].
    + exfalso. apply (HnoR R'); try done. split; [|lia].
      pose proof (walFramePage_range R' ltac:(lia)) as HrR.
      destruct (decide (walFramePage minFrame <= walFramePage iLast)) as [Hle|Hgt].
      2:{ pose proof (walFramePage_mono minFrame iLast ltac:(lia) ltac:(lia)). lia. }
      rewrite Z2Nat.id by lia. pose proof (walFramePage_mono minFrame R' ltac:(lia) ltac:(lia)).
      replace (walFramePage iLast + 1 - (walFramePage iLast - walFramePage minFrame + 1)) with (walFramePage minFrame) by lia.
      assert (0 <= walFramePage minFrame) by (rewrite walFramePage_div by lia; zdm).
      destruct (decide (walFramePage minFrame = walFramePage R')) as [->|]; [lia|].
      pose proof (zero_of_mono (walFramePage minFrame) (walFramePage R') ltac:(lia)).
      pose proof (page_entries_range (walFramePage minFrame)). lia.
    + destruct (Z.lt_trichotomy R R') as [Hlt|[->|Hgt]]; [|done|].
      * exfalso. by apply (HmxR R'); [lia|].
      * exfalso. by apply (Hmx' R); [lia|].
Qed.

(** ** Appending to and truncating the index *)

Lemma tab_take i n ps : 0 <= i -> zero_of i <= n ->
  tab i (take (Z.to_nat n) ps) = take (Z.to_nat (n - zero_of i)) (tab i ps).
Proof.
  intros Hi Hn. pose proof (zero_of_nonneg i Hi). unfold tab.
  rewrite skipn_firstn_comm, !take_take, Nat.min_comm. f_equal. lia.
Qed.

(** A table that the first [n] frames fill does not see what follows. *)
Lemma tab_full i n ps r : 0 <= i -> zero_of i + page_entries i <= n <= alen ps ->
  tab i (take (Z.to_nat n) ps ++ r) = tab i ps.
Proof.
  intros Hi Hn. pose proof (zero_of_nonneg i Hi). pose proof (page_entries_range i). unfold alen in Hn.
  unfold tab. rewrite drop_app_le by (rewrite length_take; lia).
  rewrite take_app_le by (rewrite length_drop, length_take; lia).
  rewrite skipn_firstn_comm, take_take. f_equal. lia.
Qed.

Lemma tab_last i n ps pg : 0 <= i -> zero_of i <= n < zero_of i + page_entries i -> n <= alen ps ->
  tab i (take (Z.to_nat n) ps ++ [pg]) = take (Z.to_nat (n - zero_of i)) (tab i ps) ++ [pg].
Proof.
  intros Hi Hn Hl. pose proof (zero_of_nonneg i Hi). unfold alen in Hl.
  rewrite <- tab_take by lia. unfold tab. rewrite drop_app_le by (rewrite length_take; lia).
  rewrite take_ge by (rewrite length_app, length_drop, length_take; simpl; lia).
  f_equal. symmetry. apply take_ge. rewrite length_drop, length_take. lia.
Qed.

Lemma alen_tab_take i n ps : 0 <= i -> zero_of i <= n < zero_of i + page_entries i -> n <= alen ps ->
  alen (take (Z.to_nat (n - zero_of i)) (tab i ps)) = n - zero_of i.
Proof. intros Hi Hn Hl. apply alen_take. rewrite alen_tab by lia. lia. Qed.

Lemma index_cleanup shmMap w ps mx : index_ok w ps -> 0 <= mx <= alen ps ->
  index_ok (walCleanupHash shmMap w mx) (take (Z.to_nat mx) ps).
Proof.
  intros (Hmax & HF & Htab) Hmx.
  assert (Hlen : alen (take (Z.to_nat mx) ps) = mx) by by apply alen_take.
  unfold walCleanupHash. destruct (Z.eqb_spec mx 0) as [->|Hmx0].
  { split_and!; [rewrite Hlen; lia|by constructor|]. intros i Hi. pose proof (zero_of_nonneg i Hi). rewrite Hlen. lia. }
  pose proof (walFramePage_range mx ltac:(lia)) as [Hi0 Hr]. set (i0 := walFramePage mx) in *.
  destruct (Htab i0) as (p0 & Hp0 & Hok0); [done|lia|].
  rewrite (walHashGet_mapped _ _ _ p0 Hp0), hash_iZero_eq by lia. cbv beta iota.
  split_and!; [rewrite Hlen; lia|by apply Forall_take|]. intros i Hi Hz. rewrite Hlen in Hz.
  destruct (decide (i = i0)) as [->|Hne].
  - eexists. split; [apply lookup_insert_eq|]. rewrite tab_take by lia. apply table_cleanup; [done|].
    rewrite alen_tab by lia. lia.
  - destruct (Htab i Hi ltac:(lia)) as (p & Hp & Hok). exists p. rewrite lookup_insert_ne by done. split; [done|].
    assert (i < i0).
    { destruct (Z.lt_trichotomy i i0) as [|[|H]]; [done|done|]. pose proof (zero_of_mono i0 i ltac:(lia)). lia. }
    pose proof (zero_of_mono i i0 ltac:(lia)). rewrite <- (app_nil_r (take _ ps)), tab_full by lia. done.
Qed.

(** The page that [walIndexAppend] is about to fill, after it has zeroed a new
    table or removed what an abandoned transaction left behind. *)
Definition append_ready (w : WiData) (iFrame : Z) (ps : list Z) (w2 : WiData) : Prop :=
  let i0 := walFramePage iFrame in
  (exists p2, w2 !! i0 = Some p2 /\
     table_ok (page_entries i0) (take (Z.to_nat (iFrame - 1 - zero_of i0)) (tab i0 ps)) p2) /\
  (forall i, 0 <= i < i0 -> w2 !! i = w !! i).

Lemma append_prepare shmMap w ps mx iFrame : index_ok w ps -> 0 <= mx <= alen ps ->
  iFrame = alen ps + 1 \/ iFrame = mx + 1 -> iFrame < 2 ^ 32 - 4096 ->
  let i0 := walFramePage iFrame in
  let idx := iFrame - zero_of i0 in
  forall p w1, walHashGet shmMap w i0 = (SQLITE_OK, Some (p, hash_iZero i0), w1) ->
  w1 !! i0 = Some p -> (forall i, i <> i0 -> w1 !! i = w !! i) -> (w !! i0 <> None -> w1 = w) ->
  exists w2 p2 v,
    (if idx =? 1 then <[i0 := zero_page i0]> w1 else w1) !! i0 = Some p2 /\
    aget (aPgno p2) (idx - 1) = Some v /\
    (if negb (v =? 0) then walCleanupHash shmMap (if idx =? 1 then <[i0 := zero_page i0]> w1 else w1) mx
     else if idx =? 1 then <[i0 := zero_page i0]> w1 else w1) = w2 /\
    append_ready w iFrame ps w2.
Proof.
  intros Hw Hmx HiF Hmax i0 idx p w1 Hget Hp1 Hother Hsame.
  pose proof Hw as (_ & HF & Htab). pose proof (walFramePage_range iFrame ltac:(lia)) as [Hi0 Hr].
  fold i0 in Hi0, Hr. pose proof (page_entries_range i0).
  assert (Hcell : forall T p2 j, table_ok (page_entries i0) T p2 -> 0 <= j < page_entries i0 ->
    exists v, aget (aPgno p2) j = Some v /\ (alen T <= j -> v = 0) /\ (j < alen T -> aget T j = Some v)).
  { intros T p2 j Hok Hj. destruct (decide (j < alen T)) as [Hlt|Hge].
    - rewrite (tab_pgno _ _ _ Hok) by lia. destruct (aget_is_Some T j) as [v Hv]; [lia|]. exists v. split_and!; done || lia.
    - rewrite (tab_tail _ _ _ Hok) by lia. exists 0. split_and!; done || lia. }
  unfold append_ready. fold i0. destruct (Z.eqb_spec idx 1) as [E1|E1].
  - pose proof (table_ok_zero i0) as Hz. destruct (Hcell [] _ (idx - 1) Hz ltac:(lia)) as (v & Hv & Hv0 & _).
    exists (<[i0:=zero_page i0]> w1), (zero_page i0), v. rewrite lookup_insert_eq. split_and!; [done|done| |eexists|].
    + rewrite Hv0; [done|]. unfold alen. simpl. lia.
    + split; [done|]. replace (iFrame - 1 - zero_of i0) with 0 by (unfold idx in E1; lia). done.
    + intros i Hi. rewrite lookup_insert_ne by lia. apply Hother. lia.
  - destruct (Htab i0) as (p0 & Hp0 & Hok0); [done|unfold idx in E1; lia|].
    rewrite Hsame in Hp1 by (rewrite Hp0; done). rewrite Hsame in * by (rewrite Hp0; done).
    rewrite Hp0 in Hp1. injection Hp1 as <-.
    destruct (Hcell (tab i0 ps) p0 (idx - 1) Hok0) as (v & Hv & Hv0 & Hv1); [unfold idx; lia|].
    assert (HT : alen (tab i0 ps) = Z.min (page_entries i0) (alen ps - zero_of i0)) by (apply alen_tab; unfold idx in E1; lia).
    eexists _, p0, v. split; [done|split; [done|split; [done|]]]. destruct (decide (iFrame <= alen ps)) as [Hst|Hst].
    + assert (mx = iFrame - 1) as -> by lia.
      assert (Hvn : (v =? 0) = false).
      { apply Z.eqb_neq. specialize (Hv1 ltac:(unfold idx; lia)). rewrite aget_tab in Hv1 by (unfold idx; lia).
        pose proof (aget_Forall _ _ _ _ HF Hv1). simpl in *. lia. }
      rewrite Hvn. cbn [negb]. unfold walCleanupHash.
      destruct (Z.eqb_spec (iFrame - 1) 0) as [|_]; [unfold idx in *; pose proof (zero_of_nonneg i0 Hi0); lia|].
      rewrite (walFramePage_unique (iFrame - 1) i0) by (unfold idx in E1; lia).
      rewrite (walHashGet_mapped _ _ _ p0 Hp0), hash_iZero_eq by lia. split.
      * eexists. split; [apply lookup_insert_eq|]. apply table_cleanup; [done|]. unfold idx in *. lia.
      * intros i Hi. rewrite lookup_insert_ne by lia. done.
    + assert (iFrame = alen ps + 1) as -> by lia.
      rewrite (Hv0 ltac:(unfold idx in *; lia)). cbn [Z.eqb negb]. split; [|done].
      exists p0. split; [done|]. rewrite take_ge by (unfold alen in *; lia). done.
Qed.

Lemma index_append shmMap w ps mx iFrame pg : index_ok w ps -> 0 <= mx <= alen ps ->
  iFrame = alen ps + 1 \/ iFrame = mx + 1 -> iFrame < 2 ^ 32 - 4096 -> 0 < pg < 2 ^ 32 ->
  (w !! walFramePage iFrame = None -> shmMap (walFramePage iFrame) = SQLITE_OK) ->
  exists w', walIndexAppend shmMap w mx iFrame pg = Some (SQLITE_OK, w') /\
    index_ok w' (take (Z.to_nat (iFrame - 1)) ps ++ [pg]).
Proof.
  intros Hw Hmx HiF Hmax Hpg Hmap. pose proof Hw as (_ & HF & Htab).
  pose proof (walFramePage_range iFrame ltac:(lia)) as [Hi0 Hr]. unfold walIndexAppend.
  set (i0 := walFramePage iFrame) in *.
  assert (Hget : exists p w1, walHashGet shmMap w i0 = (SQLITE_OK, Some (p, hash_iZero i0), w1) /\
    w1 !! i0 = Some p /\ (forall i, i <> i0 -> w1 !! i = w !! i) /\ (w !! i0 <> None -> w1 = w)).
  { destruct (w !! i0) as [p|] eqn:E.
    - exists p, w. by rewrite (walHashGet_mapped _ _ _ p E).
    - exists (zero_page i0), (<[i0:=zero_page i0]> w). unfold walHashGet, walIndexPage. rewrite E, Hmap by done.
      split_and!; [done|apply lookup_insert_eq| |done]. intros i Hi. by apply lookup_insert_ne. }
  destruct Hget as (p & w1 & Hget & Hp1 & Hother & Hsame). rewrite Hget, hash_iZero_eq by lia.
  destruct (append_prepare shmMap w ps mx iFrame Hw Hmx HiF Hmax p w1 Hget Hp1 Hother Hsame)
    as (w2 & p2 & v & E1 & E2 & E3 & (p3 & Hp3 & Hok3) & Hlow). fold i0 in E1, E2, E3, Hp3, Hok3, Hlow.
  rewrite E1. cbn [mbind option_bind]. rewrite E2. cbn [mbind option_bind]. rewrite E3, Hp3. cbn [mbind option_bind].
  pose proof (alen_tab_take i0 (iFrame - 1) ps Hi0 ltac:(lia) ltac:(lia)) as HlT.
  set (T := take (Z.to_nat (iFrame - 1 - zero_of i0)) (tab i0 ps)) in *.
  destruct (table_append _ T p3 pg Hok3 ltac:(lia)) as (k & pg' & hs' & A1 & A2 & A3 & Hok4).
  rewrite HlT in A1, A2, A3.
  replace (iFrame - zero_of i0) with (iFrame - 1 - zero_of i0 + 1) by lia. rewrite A1. cbn [mbind option_bind].
  rewrite Z.add_simpl_r, A2. cbn [mbind option_bind]. rewrite A3. cbn [mbind option_bind].
  eexists. split; [done|].
  assert (Hlen : alen (take (Z.to_nat (iFrame - 1)) ps ++ [pg]) = iFrame).
  { rewrite alen_app, alen_take by lia. unfold alen. simpl. lia. }
  split_and!; [lia|apply Forall_app; split; [by apply Forall_take|by apply Forall_singleton]|].
  intros i Hi Hz. rewrite Hlen in Hz. destruct (decide (i = i0)) as [->|Hne].
  - eexists. split; [apply lookup_insert_eq|]. rewrite tab_last by lia. done.
  - assert (i < i0).
    { destruct (Z.lt_trichotomy i i0) as [|[|H]]; [done|done|]. pose proof (zero_of_mono i0 i ltac:(lia)). lia. }
    pose proof (zero_of_mono i i0 ltac:(lia)). pose proof (page_entries_range i).
    destruct (Htab i Hi ltac:(lia)) as (q & Hq & Hok). exists q.
    rewrite lookup_insert_ne, Hlow by done || lia. split; [done|].
    rewrite tab_full by lia. done.
Qed.

(** ** Writers of the index *)

(** The loops at the end of [walFrames] that append a run of frames to the
    index: [mxFrame] stays the value from before the run. *)
Fixpoint index_frames (shmMap : Z -> Z) (w : WiData) (mxFrame iFrame : Z) (pages : list Z) : option (Z * WiData) :=
  match pages with
  | [] => Some (SQLITE_OK, w)
  | pg :: pages =>
      '(rc, w) ← walIndexAppend shmMap w mxFrame (iFrame + 1) pg;
      if rc =? SQLITE_OK then index_frames shmMap w mxFrame (iFrame + 1) pages else Some (rc, w)
  end.

(** What happens to the index: a writer appends frames; a rollback lowers
    [mxFrame] and cleans up; a writer disappears, and the next one starts from
    an earlier [mxFrame] with the index as it was left. *)
Inductive log_op : Type := LFrames (pages : list Z) | LUndo (n : Z) | LCrash (n : Z).

Definition log_step (shmMap : Z -> Z) (s : WiData * Z) (o : log_op) : option (WiData * Z) :=
  let '(w, mx) := s in
  match o with
  | LFrames pages =>
      '(rc, w) ← index_frames shmMap w mx mx pages;
      if rc =? SQLITE_OK then Some (w, mx + alen pages) else None
  | LUndo n => Some (walCleanupHash shmMap w n, n)
  | LCrash n => Some (w, n)
  end.

Fixpoint log_run (shmMap : Z -> Z) (s : WiData * Z) (ops : list log_op) : option (WiData * Z) :=
  match ops with
  | [] => Some s
  | o :: ops => s ← log_step shmMap s o; log_run shmMap s ops
  end.

(** The same on the log itself: the pages of its frames. *)
Definition log_spec (ps : list Z) (o : log_op) : list Z :=
  match o with LFrames pages => ps ++ pages | LUndo n | LCrash n => take (Z.to_nat n) ps end.

Fixpoint ops_ok (ps : list Z) (ops : list log_op) : Prop :=
  match ops with
  | [] => True
  | o :: ops =>
      match o with
      | LFrames pages => Forall (fun pg => 0 < pg < 2 ^ 32) pages /\ alen ps + alen pages < 2 ^ 32 - 4097
      | LUndo n | LCrash n => 0 <= n <= alen ps
      end /\ ops_ok (log_spec ps o) ops
  end.

(** The index holds the log [ps] and perhaps frames that a writer left behind it. *)
Definition represents (s : WiData * Z) (ps : list Z) : Prop :=
  let '(w, mx) := s in
  mx = alen ps /\ exists stale, index_ok w (ps ++ stale) /\ alen (ps ++ stale) < 2 ^ 32 - 4096.

Lemma index_frames_ok shmMap mx pages : (forall i, shmMap i = SQLITE_OK) -> forall w ps stale iFrame,
  index_ok w (ps ++ stale) -> iFrame = alen ps -> 0 <= mx <= alen ps -> (stale <> [] -> iFrame = mx) ->
  Forall (fun pg => 0 < pg < 2 ^ 32) pages -> alen ps + alen pages < 2 ^ 32 - 4096 ->
  exists w' stale', index_frames shmMap w mx iFrame pages = Some (SQLITE_OK, w') /\
    index_ok w' ((ps ++ pages) ++ stale') /\ (stale' = [] \/ pages = [] /\ stale' = stale).
Proof.
  intros Hmap. induction pages as [|pg pages IH]; intros w ps stale iFrame Hw -> Hmx Hst HF Hlen.
  { exists w, stale. rewrite app_nil_r. eauto. }
  inversion HF as [|? ? Hpg HF']; subst. pose proof (alen_nonneg pages). pose proof (alen_nonneg ps).
  change (pg :: pages) with ([pg] ++ pages) in Hlen. rewrite alen_app in Hlen. change (alen [pg]) with 1 in Hlen.
  cbn [index_frames]. destruct (index_append shmMap w (ps ++ stale) mx (alen ps + 1) pg) as (w1 & -> & Hw1); try done.
  - rewrite alen_app. pose proof (alen_nonneg stale). lia.
  - destruct stale as [|x stale]; [left; by rewrite app_nil_r|right]. f_equal. by apply Hst.
  - lia.
  - cbn [mbind option_bind Z.eqb]. change (SQLITE_OK =? SQLITE_OK) with true. cbv iota.
    rewrite Z.add_simpl_r, take_app_le, take_ge in Hw1 by (unfold alen; lia).
    destruct (IH w1 (ps ++ [pg]) [] (alen ps + 1)) as (w' & st' & -> & Hw' & Hc); try done.
    + by rewrite app_nil_r.
    + by rewrite alen_app.
    + rewrite alen_app. unfold alen. simpl. unfold alen in *. lia.
    + rewrite alen_app. change (alen [pg]) with 1. lia.
    + exists w', st'. split; [done|]. rewrite <- (app_assoc ps [pg] pages) in Hw'. split; [done|left]. naive_solver.
Qed.

Lemma index_ok_empty w : index_ok w [].
Proof.
  split_and!; [done|constructor|]. intros i Hi. pose proof (zero_of_nonneg i Hi). unfold alen. simpl. lia.
Qed.

(** The index of a log written in one run. *)
Lemma index_of_pages pages : Forall (fun pg => 0 < pg < 2 ^ 32) pages -> alen pages < 2 ^ 32 - 4096 ->
  exists w, index_frames (fun _ => SQLITE_OK) ∅ 0 0 pages = Some (SQLITE_OK, w) /\ index_ok w pages.
Proof.
  intros HF Hl. destruct (index_frames_ok (fun _ => SQLITE_OK) 0 pages ltac:(done) ∅ [] [] 0)
    as (w & st & E & Hw & Hst); try done; [apply index_ok_empty|].
  exists w. split; [done|]. destruct Hst as [->|[-> ->]]; by rewrite app_nil_r in Hw.
Qed.

Lemma log_step_ok shmMap s ps o : (forall i, shmMap i = SQLITE_OK) -> represents s ps -> ops_ok ps [o] ->
  exists s', log_step shmMap s o = Some s' /\ represents s' (log_spec ps o).
Proof.
  intros Hmap. destruct s as [w mx]. intros (-> & stale & Hw & Hlen) [Ho _].
  pose proof (alen_nonneg ps). destruct o as [pages|n|n]; cbn [log_step log_spec].
  - destruct Ho as [HF Hl].
    destruct (index_frames_ok shmMap (alen ps) pages Hmap w ps stale (alen ps)) as (w' & st' & -> & Hw' & Hst'); try done; try lia.
    cbn [mbind option_bind]. change (SQLITE_OK =? SQLITE_OK) with true. cbv iota.
    eexists. split; [done|]. split; [by rewrite alen_app|]. exists st'. split; [done|].
    destruct Hst' as [->|[-> ->]]; rewrite ?app_nil_r; rewrite ?alen_app in *; lia.
  - eexists. split; [done|]. split; [by rewrite alen_take by lia|]. exists []. rewrite app_nil_r.
    pose proof (index_cleanup shmMap w (ps ++ stale) n Hw) as Hc. rewrite take_app_le in Hc by (unfold alen in *; lia).
    split; [|rewrite alen_take by lia; rewrite alen_app in Hlen; pose proof (alen_nonneg stale); lia].
    apply Hc. rewrite alen_app. pose proof (alen_nonneg stale). lia.
  - eexists. split; [done|]. split; [by rewrite alen_take by lia|].
    exists (drop (Z.to_nat n) ps ++ stale). rewrite app_assoc, take_drop. done.
Qed.

Lemma log_run_ok shmMap ops : (forall i, shmMap i = SQLITE_OK) -> forall s ps,
  represents s ps -> ops_ok ps ops ->
  exists s', log_run shmMap s ops = Some s' /\ represents s' (fold_left log_spec ops ps).
Proof.
  intros Hmap. induction ops as [|o ops IH]; intros s ps Hs Hops; [by exists s|].
  destruct Hops as [Ho Hops]. destruct (log_step_ok shmMap s ps o Hmap Hs) as (s1 & E & Hs1); [done|].
  cbn [log_run fold_left]. rewrite E. cbn [mbind option_bind]. by apply IH.
Qed.

(** C15. Whatever writers do to the wal-index (append runs of frames, roll
    back, or disappear leaving the entries of an unfinished transaction behind
    for the next writer to remove), every operation succeeds, and a reader's
    hash search for a page among the frames [minFrame..iLast] of the log, for
    any [iLast] up to the end, returns the latest such frame, as a linear scan
    of the log would, or zero when there is none. *)
Theorem walIndex_refines_log shmMap w ops :
  (forall i, shmMap i = SQLITE_OK) -> ops_ok [] ops ->
  exists w' mx, log_run shmMap (w, 0) ops = Some (w', mx) /\
    let ps := fold_left log_spec ops [] in mx = alen ps /\
    forall minFrame iLast pgno, 0 <= minFrame < 2 ^ 32 -> 0 <= iLast <= mx ->
      walFindFrame shmMap w' false minFrame pgno iLast
      = Some (SQLITE_OK, latest_frame (Z.to_nat iLast) ps minFrame pgno).
Proof.
  intros Hmap Hops.
  assert (H0 : represents (w, 0) []).
  { split; [done|]. exists []. split; [apply index_ok_empty|done]. }
  destruct (log_run_ok shmMap ops Hmap _ _ H0 Hops) as ([w' mx] & -> & -> & stale & Hw & Hlen).
  exists w', (alen (fold_left log_spec ops [])). split; [done|]. split; [done|].
  intros minFrame iLast pgno Hm HL. rewrite (find_frame shmMap w' _ minFrame pgno iLast Hw) by (done || (rewrite alen_app; pose proof (alen_nonneg stale); lia)).
  do 2 f_equal.
  assert (Hext : forall n, Z.of_nat n <= alen (fold_left log_spec ops []) ->
    latest_frame n (fold_left log_spec ops [] ++ stale) minFrame pgno = latest_frame n (fold_left log_spec ops []) minFrame pgno).
  { induction n as [|n IH]; intros Hn; [done|]. cbn [latest_frame]. rewrite aget_app_l, IH by lia. done. }
  apply Hext. lia.
Qed.

Lemma walIndex_refines_log_witness :
  exists w' mx, log_run (fun _ => SQLITE_OK) (∅, 0) [LFrames [7; 9; 7]; LCrash 2; LFrames [9; 5]] = Some (w', mx) /\
    let ps := fold_left log_spec [LFrames [7; 9; 7]; LCrash 2; LFrames [9; 5]] [] in mx = alen ps /\
    forall minFrame iLast pgno, 0 <= minFrame < 2 ^ 32 -> 0 <= iLast <= mx ->
      walFindFrame (fun _ => SQLITE_OK) w' false minFrame pgno iLast
      = Some (SQLITE_OK, latest_frame (Z.to_nat iLast) ps minFrame pgno).
Proof.
  apply (walIndex_refines_log (fun _ => SQLITE_OK) ∅ [LFrames [7; 9; 7]; LCrash 2; LFrames [9; 5]]).
  - intros. reflexivity.
  - simpl. unfold alen. simpl. repeat split; repeat constructor; lia.
Defined.
