(* ===== verification/WalIter.v ===== *)
(** * Write-ahead log: iterating over the log ([src/wal.c])

    [walMerge] and [walMergesort], which sort the frames of one wal-index page
    by database page and keep the latest frame of each; the iterator over all
    wal-index pages ([walIteratorInit], [walIteratorNext]); and the iterator in
    decreasing frame order the checkpoint uses ([walIteratorRevInit],
    [walIteratorRevNext]). *)
From S2P Require Import Prelude OpenAddr WalBase WalIndex.
From Stdlib Require Import Sorting.Sorted.

(** ** Merge *)

(** The loop of [walMerge]: [aLeft] and [aRight] are what the indices [iLeft]
    and [iRight] have not passed yet; the result is what is written to [aTmp]. *)
Fixpoint walMerge_loop (fuel : nat) (aContent aLeft aRight : list Z) : option (list Z) :=
  match aLeft, aRight with
  | [], [] => Some []
  | _, _ =>
      match fuel with
      | O => None
      | S fuel =>
          left_first ←
            match aLeft, aRight with
            | [], _ => Some false
            | _, [] => Some true
            | l :: _, r :: _ => cl ← aget aContent l; cr ← aget aContent r; Some (cl <? cr)
            end;
          let '(logpage, aLeft, aRight) :=
            match aLeft, aRight with
            | l :: L, _ => if (left_first : bool) then (l, L, aRight)
                           else match aRight with r :: R => (r, aLeft, R) | [] => (l, L, []) end
            | [], r :: R => (r, [], R)
            | [], [] => (0, [], [])
            end in
          dbpage ← aget aContent logpage;
          aLeft ←
            match aLeft with
            | l :: L => cl ← aget aContent l; Some (if cl =? dbpage then L else aLeft)
            | [] => Some []
            end;
          out ← walMerge_loop fuel aContent aLeft aRight;
          Some (logpage :: out)
      end
  end.

Definition walMerge (aContent aLeft aRight : list Z) : option (list Z) :=
  walMerge_loop (length aLeft + length aRight) aContent aLeft aRight.

(** ** Merge sort *)

Definition NSUB : nat := 13.

(** [for(iSub=0; iList & (1<<iSub); iSub++)]: merge the sub-lists of the
    trailing one bits of [iList] into [aMerge]. *)
Fixpoint sort_carry (fuel : nat) (aContent : list Z) (iList iSub : Z) (aSub : list (list Z))
    (aMerge : list Z) : option (Z * list Z) :=
  match fuel with
  | O => None
  | S fuel =>
      if negb (iList .& (1 << iSub) =? 0) then
        p ← aget aSub iSub;
        aMerge ← walMerge aContent p aMerge;
        sort_carry fuel aContent iList (iSub + 1) aSub aMerge
      else Some (iSub, aMerge)
  end.

(** [for(iList=0; iList<nList; iList++)], with the [iSub] and [aMerge] of the
    last round. *)
Fixpoint sort_loop (aContent : list Z) (iList : Z) (aList : list Z) (iSub : Z)
    (aSub : list (list Z)) (aMerge : list Z) : option (Z * list (list Z) * list Z) :=
  match aList with
  | [] => Some (iSub, aSub, aMerge)
  | x :: aList =>
      '(iSub, aMerge) ← sort_carry (S NSUB) aContent iList 0 aSub [x];
      aSub ← aset aSub iSub aMerge;
      sort_loop aContent (iList + 1) aList iSub aSub aMerge
  end.

(** [for(iSub++; iSub<ArraySize(aSub); iSub++)], [n] rounds from [iSub]. *)
Fixpoint sort_finish (n : nat) (aContent : list Z) (nList iSub : Z) (aSub : list (list Z))
    (aMerge : list Z) : option (list Z) :=
  match n with
  | O => Some aMerge
  | S n =>
      aMerge ←
        (if negb (nList .& (1 << iSub) =? 0) then
           p ← aget aSub iSub;
           walMerge aContent p aMerge
         else Some aMerge);
      sort_finish n aContent nList (iSub + 1) aSub aMerge
  end.

Definition walMergesort (aContent aList : list Z) : option (list Z) :=
  '(iSub, aSub, aMerge) ← sort_loop aContent 0 aList 0 (replicate NSUB []) [];
  sort_finish (NSUB - Z.to_nat (iSub + 1)) aContent (alen aList) (iSub + 1) aSub aMerge.

(** ** The iterator in page order *)

Record WalSegment : Type := MkSeg {
  iNext : Z;
  aIndex : list Z;
  seg_aPgno : list Z;
  nEntry : Z;
  seg_iZero : Z
}.

Record WalIterator : Type := MkIter {
  iPrior : Z;
  aSegment : list WalSegment
}.

Definition zero_segment : WalSegment := MkSeg 0 [] [] 0 0.

(** [while( pSegment->iNext<pSegment->nEntry )]: the segment with [iNext] moved
    to its first entry above [iMin], and that entry's page and frame. *)
Fixpoint segment_next (fuel : nat) (iMin : Z) (s : WalSegment) : option (WalSegment * option (Z * Z)) :=
  match fuel with
  | O => None
  | S fuel =>
      if iNext s <? nEntry s then
        x ← aget (aIndex s) (iNext s);
        iPg ← aget (seg_aPgno s) x;
        if iPg >? iMin then Some (s, Some (iPg, seg_iZero s + x))
        else segment_next fuel iMin
               (MkSeg (iNext s + 1) (aIndex s) (seg_aPgno s) (nEntry s) (seg_iZero s))
      else Some (s, None)
  end.

(** [for(i=p->nSegment-1; i>=0; i--)]: segments from the last one back. *)
Fixpoint segments_next (iMin : Z) (segs : list WalSegment) (iRet piFrame : Z)
    : option (list WalSegment * Z * Z) :=
  match segs with
  | [] => Some ([], iRet, piFrame)
  | s :: segs =>
      '(s, r) ← segment_next (S (Z.to_nat (nEntry s - iNext s))) iMin s;
      let '(iRet, piFrame) :=
        match r with
        | Some (iPg, f) => if iPg <? iRet then (iPg, f) else (iRet, piFrame)
        | None => (iRet, piFrame)
        end in
      '(segs, iRet, piFrame) ← segments_next iMin segs iRet piFrame;
      Some (s :: segs, iRet, piFrame)
  end.

(** [None] at the end of the iteration (return value 1), else page and frame. *)
Definition walIteratorNext (p : WalIterator) : option (WalIterator * option (Z * Z)) :=
  '(segs, iRet, f) ← segments_next (iPrior p) (rev (aSegment p)) 0xFFFFFFFF 0;
  Some (MkIter iRet (rev segs), if iRet =? 0xFFFFFFFF then None else Some (iRet, f)).

Section Iterators.
Context (shmMap : Z -> Z).

(** One segment: the frames of wal-index page [i], sorted. *)
Definition init_segment (pg : HashPage) (iZero nSegment iLast i : Z) : option WalSegment :=
  let nEntry := if i + 1 =? nSegment then iLast - iZero else alen (aPgno pg) in
  aIndex ← walMergesort (aPgno pg) (seqZ 0 nEntry);
  Some (MkSeg 0 aIndex (aPgno pg) (alen aIndex) (iZero + 1)).

(** [for(i=walFramePage(nBackfill+1); rc==SQLITE_OK && i<nSegment; i++)], [n]
    segments from [i] on. *)
Fixpoint init_segments (n : nat) (w : WiData) (nSegment iLast i : Z) : option (Z * list WalSegment) :=
  match n with
  | O => Some (SQLITE_OK, [])
  | S n =>
      match walHashGet shmMap w i with
      | (_, Some (pg, iZero), w) =>
          s ← init_segment pg iZero nSegment iLast i;
          '(rc, l) ← init_segments n w nSegment iLast (i + 1);
          Some (rc, s :: l)
      | (rc, None, _) => Some (rc, [])
      end
  end.

(** The first segments, for frames up to [nBackfill], stay zero. *)
Definition walIteratorInit (w : WiData) (mxFrame nBackfill : Z) (al : alloc)
    : option (Z * option WalIterator * alloc) :=
  let iLast := mxFrame in
  let nSegment := walFramePage iLast + 1 in
  let '(ok, al) := malloc al in
  if negb ok then Some (SQLITE_NOMEM, None, al)
  else
    let first := walFramePage (nBackfill + 1) in
    '(rc, segs) ← init_segments (Z.to_nat (nSegment - first)) w nSegment iLast first;
    if negb (rc =? SQLITE_OK) then Some (rc, None, al)
    else Some (SQLITE_OK, Some (MkIter 0 (replicate (Z.to_nat first) zero_segment ++ segs)), al).

(** ** The iterator in decreasing frame order *)

Record WalIteratorRev : Type := MkRev {
  current : Z;
  frames : list Z
}.

(** [while (walIteratorNext(pIter, &iPageno, &iFrame) == 0)] *)
Fixpoint rev_loop (fuel : nat) (w : WiData) (ignoreWal : bool) (minFrame mxSafeFrame : Z)
    (ignoreFrameIfNewerExist : bool) (p : WalIterator) (frames : list Z) : option (Z * list Z) :=
  match fuel with
  | O => None
  | S fuel =>
      '(p, r) ← walIteratorNext p;
      match r with
      | None => Some (SQLITE_OK, frames)
      | Some (iPageno, iFrame) =>
          '(rc, found) ←
            (if (iFrame >? mxSafeFrame) && negb ignoreFrameIfNewerExist then
               '(rc, iFrame) ← walFindFrame shmMap w ignoreWal minFrame iPageno mxSafeFrame;
               Some (rc, if iFrame =? 0 then None else Some iFrame)
             else Some (SQLITE_OK, Some iFrame));
          if negb (rc =? SQLITE_OK) then Some (rc, frames)
          else
            frames ← match found with
                     | None => Some frames
                     | Some iFrame => aset frames iFrame iPageno
                     end;
            rev_loop fuel w ignoreWal minFrame mxSafeFrame ignoreFrameIfNewerExist p frames
      end
  end.

Definition walIteratorRevInit (w : WiData) (ignoreWal : bool)
    (mxFrame minFrame nBackfill mxSafeFrame : Z) (ignoreFrameIfNewerExist : bool) (al : alloc)
    : option (Z * option WalIteratorRev * alloc) :=
  let '(ok, al) := malloc al in
  if negb ok then Some (SQLITE_NOMEM, None, al)
  else
    '(rc, it, al) ← walIteratorInit w mxFrame nBackfill al;
    match it with
    | None => Some (rc, None, al)
    | Some it =>
        '(rc, frames) ← rev_loop (S (S (Z.to_nat mxFrame))) w ignoreWal minFrame mxSafeFrame
                          ignoreFrameIfNewerExist it (replicate (S (Z.to_nat mxFrame)) 0);
        if negb (rc =? SQLITE_OK) then Some (rc, None, al)
        else Some (SQLITE_OK, Some (MkRev mxFrame frames), al)
    end.
End Iterators.

(** [while (p->current > 0 && p->frames[p->current] == 0) p->current -= 1] *)
Fixpoint rev_skip (fuel : nat) (p : WalIteratorRev) : option WalIteratorRev :=
  match fuel with
  | O => None
  | S fuel =>
      if current p >? 0 then
        v ← aget (frames p) (current p);
        if v =? 0 then rev_skip fuel (MkRev (current p - 1) (frames p)) else Some p
      else Some p
  end.

(** [None] at the end (return value 1), else page and frame. *)
Definition walIteratorRevNext (p : WalIteratorRev) : option (WalIteratorRev * option (Z * Z)) :=
  p ← rev_skip (S (Z.to_nat (current p))) p;
  if current p =? 0 then Some (p, None)
  else
    v ← aget (frames p) (current p);
    Some (MkRev (current p - 1) (frames p), Some (v, current p)).

(** ** Merging *)
Section Sort.
Context (aContent : list Z).

(** The database page of a frame index. *)
Definition key (i : Z) : Z := default 0 (aget aContent i).
Definition by_key (i j : Z) : Prop := key i < key j.
Definition valid_index (i : Z) : Prop := 0 <= i < alen aContent.

Lemma aget_key i : valid_index i -> aget aContent i = Some (key i).
Proof. intros Hi. unfold key. by destruct (aget_is_Some aContent i Hi) as [v ->]. Qed.

Lemma sorted_tail x l : StronglySorted by_key (x :: l) -> StronglySorted by_key l.
Proof. by inversion 1. Qed.

Lemma sorted_head x l i : StronglySorted by_key (x :: l) -> i ∈ l -> key x < key i.
Proof. intros H Hi. inversion H as [|? ? ? HF]; subst. rewrite Forall_forall in HF. by apply HF. Qed.

Lemma sorted_cons x l : StronglySorted by_key l -> (forall i, i ∈ l -> key x < key i) -> StronglySorted by_key (x :: l).
Proof. intros Hl Hx. constructor; [done|]. rewrite Forall_forall. done. Qed.

(** Every index of the right list is kept, and those of the left list whose
    page the right list does not have. *)
Definition merged (L R out : list Z) : Prop :=
  StronglySorted by_key out /\
  forall i, i ∈ out <-> i ∈ R \/ (i ∈ L /\ forall j, j ∈ R -> key j <> key i).

Lemma merged_left x L R out :
  StronglySorted by_key (x :: L) -> StronglySorted by_key R -> (forall j, j ∈ R -> key x < key j) ->
  merged L R out -> merged (x :: L) R (x :: out).
Proof.
  intros HL HR Hx [Hs Hm]. split.
  - apply sorted_cons; [done|]. intros i [Hi|[Hi _]]%Hm; [by apply Hx|by eapply sorted_head].
  - intros i. rewrite !elem_of_cons, Hm. split.
    + intros [->|[?|[? ?]]]; [right|by left|right]; split; try (by left); try (by right); [|done].
      intros j Hj E. specialize (Hx j Hj). lia.
    + naive_solver.
Qed.

Lemma merged_right x L L' R out :
  StronglySorted by_key L -> StronglySorted by_key (x :: R) ->
  (forall i, i ∈ L -> key x <= key i) ->
  (forall i, i ∈ L' <-> i ∈ L /\ key i <> key x) ->
  merged L' R out -> merged L (x :: R) (x :: out).
Proof.
  intros HL HR Hx HL' [Hs Hm]. split.
  - apply sorted_cons; [done|]. intros i [Hi|[[Hi ?]%HL' _]]%Hm; [by eapply sorted_head|].
    specialize (Hx i Hi). lia.
  - intros i. rewrite !elem_of_cons, Hm, HL'. split.
    + intros [->|[?|[[? ?] Hn]]]; [by left; left|by left; right|right]. split; [done|].
      intros j [->|Hj]%elem_of_cons; [done|by apply Hn].
    + intros [[->|?]|[Hi Hn]]; [by left|by right; left|]. right. right. split; [split; [done|]|].
      * intros E. apply (Hn x); [by left|done].
      * intros j Hj. apply Hn. by right.
Qed.

(** After a left index is output, the next one has a larger page and stays. *)
Lemma left_kept l L : StronglySorted by_key (l :: L) -> Forall valid_index (l :: L) ->
  (match L with l0 :: L0 => cl ← aget aContent l0; Some (if cl =? key l then L0 else L) | [] => Some [] end) = Some L.
Proof.
  intros HL [_ VL]%Forall_cons. destruct L as [|l0 L0]; [done|]. apply Forall_cons in VL as [Vl0 _].
  rewrite (aget_key l0 Vl0). cbn [mbind option_bind].
  pose proof (sorted_head l (l0 :: L0) l0 HL ltac:(by left)). destruct (Z.eqb_spec (key l0) (key l)); [lia|done].
Qed.

Lemma walMerge_loop_spec fuel : forall L R, (length L + length R <= fuel)%nat ->
  StronglySorted by_key L -> StronglySorted by_key R -> Forall valid_index L -> Forall valid_index R ->
  exists out, walMerge_loop fuel aContent L R = Some out /\ merged L R out.
Proof.
  induction fuel as [|fuel IH]; intros L R Hf HL HR VL VR.
  { destruct L, R; simpl in Hf; try lia. exists []. split; [done|]. split; [done|]. set_solver. }
  destruct L as [|l L], R as [|r R].
  - exists []. split; [done|]. split; [done|]. set_solver.
  - inversion VR as [|? ? Vr VR']; subst. cbn [walMerge_loop mbind option_bind]. rewrite (aget_key r Vr).
    cbn [mbind option_bind]. destruct (IH [] R) as (out & -> & Hm); try done; [simpl in *; lia|by eapply sorted_tail|].
    cbn [mbind option_bind]. exists (r :: out). split; [done|].
    apply (merged_right r [] [] R out); try done; set_solver.
  - inversion VL as [|? ? Vl VL']; subst. cbn [walMerge_loop mbind option_bind]. rewrite (aget_key l Vl).
    cbn [mbind option_bind]. destruct (IH L []) as (out & E & Hm); try done; [simpl in *; lia|by eapply sorted_tail|].
    rewrite (left_kept l L HL VL). cbn [mbind option_bind]. rewrite E. cbn [mbind option_bind]. exists (l :: out). split; [done|].
    apply merged_left; try done. set_solver.
  - inversion VL as [|? ? Vl VL']; inversion VR as [|? ? Vr VR']; subst.
    cbn [walMerge_loop mbind option_bind]. rewrite (aget_key l Vl), (aget_key r Vr). cbn [mbind option_bind].
    destruct (Z.ltb_spec (key l) (key r)) as [Hlt|Hge].
    + rewrite (aget_key l Vl). cbn [mbind option_bind].
      destruct (IH L (r :: R)) as (out & E & Hm); try done; [simpl in *; lia|by eapply sorted_tail|].
      rewrite (left_kept l L HL VL). cbn [mbind option_bind]. rewrite E. cbn [mbind option_bind]. exists (l :: out). split; [done|].
      apply merged_left; try done. intros j [->|Hj]%elem_of_cons; [done|].
      pose proof (sorted_head r R j HR Hj). lia.
    + rewrite (aget_key r Vr). cbn [mbind option_bind]. rewrite (aget_key l Vl). cbn [mbind option_bind].
      set (L' := if key l =? key r then L else l :: L).
      assert (HL'in : forall i, i ∈ L' <-> i ∈ l :: L /\ key i <> key r).
      { intros i. unfold L'. destruct (Z.eqb_spec (key l) (key r)) as [Ek|Ek].
        - split; [intros Hi; split; [by right|]; pose proof (sorted_head l L i HL Hi); lia|].
          intros [[->|?]%elem_of_cons ?]; [lia|done].
        - split; [|naive_solver]. intros Hi. split; [done|].
          apply elem_of_cons in Hi as [->|Hi]; [done|]. pose proof (sorted_head l L i HL Hi). lia. }
      destruct (IH L' R) as (out & E & Hm); try done.
      * unfold L'. case_match; simpl in *; lia.
      * unfold L'. case_match; [by eapply sorted_tail|done].
      * by eapply sorted_tail.
      * unfold L'. by case_match.
      * rewrite E. cbn [mbind option_bind]. exists (r :: out). split; [done|].
        eapply merged_right; try done. intros i [->|Hi]%elem_of_cons; [lia|].
        pose proof (sorted_head l L i HL Hi). lia.
Qed.

Lemma walMerge_spec L R :
  StronglySorted by_key L -> StronglySorted by_key R -> Forall valid_index L -> Forall valid_index R ->
  exists out, walMerge aContent L R = Some out /\ merged L R out.
Proof. intros. by apply walMerge_loop_spec. Qed.

(** ** Merge sort *)

(** [l] holds the latest index of every page among the indices [a..b-1], in
    page order. *)
Definition canon (a b : Z) (l : list Z) : Prop :=
  StronglySorted by_key l /\
  forall i, i ∈ l <-> a <= i < b /\ forall j, i < j < b -> key j <> key i.

Lemma canon_covers a b l i : canon a b l -> a <= i < b -> exists j, j ∈ l /\ key j = key i.
Proof.
  intros [_ Hl] Hi.
  destruct (first_or_none (fun d => key (b - 1 - d) =? key i) (Z.to_nat (b - i))) as [Hno|(d & Hd & HP & Hlt)].
  - specialize (Hno (b - 1 - i) ltac:(lia)). replace (b - 1 - (b - 1 - i)) with i in Hno by lia.
    by rewrite Z.eqb_refl in Hno.
  - apply Z.eqb_eq in HP. exists (b - 1 - d). split; [|done]. apply Hl. split; [lia|].
    intros j Hj E. specialize (Hlt (b - 1 - j) ltac:(lia)). replace (b - 1 - (b - 1 - j)) with j in Hlt by lia.
    apply Z.eqb_neq in Hlt. congruence.
Qed.

Lemma canon_single x : canon x (x + 1) [x].
Proof.
  split; [by repeat constructor|]. intros i. rewrite list_elem_of_singleton. split; [intros ->; split; lia|lia].
Qed.

Lemma canon_valid a b l : canon a b l -> 0 <= a -> b <= alen aContent -> Forall valid_index l.
Proof. intros [_ Hl] Ha Hb. apply Forall_forall. intros i [? _]%Hl. unfold valid_index. lia. Qed.

Lemma canon_merge a b c L R : canon a b L -> canon b c R -> 0 <= a <= b -> b <= c <= alen aContent ->
  exists out, walMerge aContent L R = Some out /\ canon a c out.
Proof.
  intros HL HR Hab Hbc.
  destruct (walMerge_spec L R) as (out & E & Hs & Hm);
    [apply HL|apply HR|eapply canon_valid; [done|lia..]|eapply canon_valid; [done|lia..]|].
  exists out. split; [done|]. split; [done|]. intros i. rewrite Hm.
  pose proof HL as [_ HLin]. pose proof HR as [_ HRin]. rewrite HRin, HLin. split.
  - intros [[Hi Hlast]|[[Hi Hlast] HnR]].
    + split; [lia|]. intros j Hj. apply Hlast. lia.
    + split; [lia|]. intros j Hj Ek. destruct (decide (j < b)); [by apply (Hlast j); [lia|]|].
      destruct (canon_covers b c R j HR ltac:(lia)) as (j' & Hj' & Ek'). apply (HnR j' Hj'). congruence.
  - intros [Hi Hlast]. destruct (decide (i < b)).
    + right. split; [split; [lia|]|].
      * intros j Hj. apply Hlast. lia.
      * intros j [Hj _]%HRin. apply Hlast. lia.
    + left. split; [lia|]. intros j Hj. apply Hlast. lia.
Qed.

(** The first index of the sub-list that bit [b] of a count stands for. *)
Definition start (n b : Z) : Z := n - n mod 2 ^ (b + 1).

(** The sub-lists partition the indices below [n] as its bits do. *)
Definition subs_ok (n : Z) (aSub : list (list Z)) : Prop :=
  alen aSub = Z.of_nat NSUB /\
  forall b, 0 <= b < Z.of_nat NSUB -> Z.testbit n b = true ->
    exists l, aget aSub b = Some l /\ canon (start n b) (start n b + 2 ^ b) l.

Lemma mod_succ_bit n b : 0 <= b -> n mod 2 ^ (b + 1) = n mod 2 ^ b + (if Z.testbit n b then 2 ^ b else 0).
Proof.
  intros Hb. rewrite Z.testbit_eqb by done. rewrite Z.pow_add_r, Z.rem_mul_r by lia.
  change (2 ^ 1) with 2. destruct (Z.eqb_spec ((n / 2 ^ b) mod 2) 1) as [->|E]; [lia|].
  assert ((n / 2 ^ b) mod 2 = 0) as -> by zdm. lia.
Qed.

(** Adding one does not carry past a zero bit. *)
Lemma no_carry n b s : 0 <= s < b -> Z.testbit n s = false ->
  (n + 1) / 2 ^ b = n / 2 ^ b /\ (n + 1) mod 2 ^ b = n mod 2 ^ b + 1.
Proof.
  intros Hs Hbit.
  assert (Hne : n mod 2 ^ b <> 2 ^ b - 1).
  { intros E. apply (f_equal (fun x => Z.testbit x s)) in E. rewrite Z.mod_pow2_bits_low, Hbit in E by lia.
    rewrite Z.sub_1_r, <- Z.ones_equiv, Z.ones_spec_low in E by lia. done. }
  pose proof (Z.mod_pos_bound n (2 ^ b) ltac:(lia)). pose proof (Z.div_mod n (2 ^ b) ltac:(lia)).
  assert (n + 1 = 2 ^ b * (n / 2 ^ b) + (n mod 2 ^ b + 1)) by lia.
  split; [symmetry; eapply Z.div_unique_pos; [|done]; lia|symmetry; eapply Z.mod_unique_pos; [|done]; lia].
Qed.

Lemma sort_carry_spec n aSub : 0 <= n < 2 ^ 12 -> n + 1 <= alen aContent -> subs_ok n aSub ->
  forall fuel s m, 0 <= s -> 14 <= Z.of_nat fuel + s -> n mod 2 ^ s = 2 ^ s - 1 -> canon (n + 1 - 2 ^ s) (n + 1) m ->
  exists s' m', sort_carry fuel aContent n s aSub m = Some (s', m') /\ 0 <= s' <= 12 /\
    n mod 2 ^ s' = 2 ^ s' - 1 /\ Z.testbit n s' = false /\ canon (n + 1 - 2 ^ s') (n + 1) m'.
Proof.
  intros Hn Hlen (Hl & Hsubs). induction fuel as [|fuel IH]; intros s m Hs Hf Hmod Hm;
    (assert (Hs12 : s <= 12); [apply Z.lt_succ_r, (Z.pow_lt_mono_r_iff 2); pose proof (Z.mod_le n (2 ^ s)); lia|]); [lia|].
  cbn [sort_carry]. rewrite bit_test by done. destruct (Z.testbit n s) eqn:Hbit.
  - destruct (Hsubs s) as (l & -> & Hcan); [unfold NSUB; lia|done|]. cbn [mbind option_bind].
    pose proof (mod_succ_bit n s Hs) as Hm1. rewrite Hbit, Hmod in Hm1.
    assert (Hp : 2 ^ (s + 1) = 2 * 2 ^ s) by (rewrite Z.pow_add_r; lia).
    assert (Hst : start n s = n + 1 - 2 ^ (s + 1)) by (unfold start; lia).
    pose proof (Z.mod_le n (2 ^ (s + 1)) ltac:(lia) ltac:(lia)).
    destruct (canon_merge (start n s) (n + 1 - 2 ^ s) (n + 1) l m) as (out & -> & Hout); try lia; try done.
    { replace (n + 1 - 2 ^ s) with (start n s + 2 ^ s) by lia. done. }
    cbn [mbind option_bind]. apply IH; try lia. by rewrite <- Hst.
  - exists s, m. split_and!; done || lia.
Qed.

Lemma subs_ok_step n s m aSub : 0 <= n -> 0 <= s <= 12 -> n mod 2 ^ s = 2 ^ s - 1 -> Z.testbit n s = false ->
  canon (n + 1 - 2 ^ s) (n + 1) m -> subs_ok n aSub ->
  exists aSub', aset aSub s m = Some aSub' /\ subs_ok (n + 1) aSub'.
Proof.
  intros Hn Hs Hmod Hbit Hm [Hl Hsubs].
  destruct (aset aSub s m) as [aSub'|] eqn:E; [|rewrite aset_in in E; [done|]; rewrite Hl; unfold NSUB; lia].
  exists aSub'. split; [done|]. split; [by rewrite (aset_alen _ _ _ _ E)|]. intros b Hb Hbit'.
  rewrite (aget_aset _ _ _ _ _ E). destruct (decide (b = s)) as [->|Hne].
  - exists m. split; [done|]. destruct (no_carry n (s + 1) s ltac:(lia) Hbit) as [_ Hc].
    rewrite (mod_succ_bit n s), Hbit, Hmod in Hc by lia. unfold start. rewrite Hc.
    replace (n + 1 - (2 ^ s - 1 + 0 + 1)) with (n + 1 - 2 ^ s) by lia.
    replace (n + 1 - 2 ^ s + 2 ^ s) with (n + 1) by lia. done.
  - destruct (decide (b < s)) as [Hlt|Hgt].
    + exfalso. assert (H0 : (n + 1) mod 2 ^ s = 0).
      { pose proof (Z.div_mod n (2 ^ s) ltac:(lia)). rewrite Hmod in *.
        replace (n + 1) with ((n / 2 ^ s + 1) * 2 ^ s) by lia. apply Z.mod_mul. lia. }
      rewrite <- (Z.mod_pow2_bits_low _ s), H0, Z.bits_0 in Hbit' by lia. done.
    + destruct (no_carry n b s ltac:(lia) Hbit) as [Hd _]. destruct (no_carry n (b + 1) s ltac:(lia) Hbit) as [_ Hc].
      rewrite Z.testbit_eqb, Hd, <- Z.testbit_eqb in Hbit' by lia.
      destruct (Hsubs b Hb Hbit') as (l & Hg & Hcan). exists l. split; [done|].
      unfold start in *. rewrite Hc. replace (n + 1 - (n mod 2 ^ (b + 1) + 1)) with (n - n mod 2 ^ (b + 1)) by lia. done.
Qed.

Lemma sort_loop_spec k : forall n s aSub m, 0 <= n -> n + Z.of_nat k <= 2 ^ 12 -> n + Z.of_nat k <= alen aContent ->
  subs_ok n aSub -> (n = 0 \/ (0 <= s <= 12 /\ n mod 2 ^ (s + 1) = 2 ^ s /\ canon (n - 2 ^ s) n m)) ->
  exists s' aSub' m', sort_loop aContent n (seqZ n (Z.of_nat k)) s aSub m = Some (s', aSub', m') /\
    subs_ok (n + Z.of_nat k) aSub' /\
    (n + Z.of_nat k = 0 \/ (0 <= s' <= 12 /\ (n + Z.of_nat k) mod 2 ^ (s' + 1) = 2 ^ s' /\
       canon (n + Z.of_nat k - 2 ^ s') (n + Z.of_nat k) m')).
Proof.
  induction k as [|k IH]; intros n s aSub m Hn Hk Hlen Hok Hm.
  { exists s, aSub, m. rewrite Z.add_0_r. done. }
  rewrite seqZ_cons by lia. cbn [sort_loop].
  destruct (sort_carry_spec n aSub ltac:(lia) ltac:(lia) Hok (S NSUB) 0 [n]) as (s1 & m1 & -> & Hs1 & Hmod1 & Hbit1 & Hc1);
    [lia|unfold NSUB; lia|by rewrite Z.pow_0_r, Z.mod_1_r|rewrite Z.pow_0_r, Z.add_simpl_r; apply canon_single|].
  cbn [mbind option_bind].
  destruct (subs_ok_step n s1 m1 aSub Hn Hs1 Hmod1 Hbit1 Hc1 Hok) as (aSub1 & -> & Hok1). cbn [mbind option_bind].
  replace (Z.pred (Z.of_nat (S k))) with (Z.of_nat k) by lia.
  replace (Z.succ n) with (n + 1) by lia. replace (n + Z.of_nat (S k)) with (n + 1 + Z.of_nat k) in * by lia.
  apply IH; try done; try lia. right. split_and!; try lia; [|done].
  destruct (no_carry n (s1 + 1) s1 ltac:(lia) Hbit1) as [_ ->]. rewrite (mod_succ_bit n s1), Hbit1 by lia. lia.
Qed.

Lemma sort_finish_spec n aSub : 0 <= n <= alen aContent -> subs_ok n aSub -> forall k s m,
  0 <= s -> s + Z.of_nat k = 13 -> canon (n - n mod 2 ^ s) n m ->
  exists out, sort_finish k aContent n s aSub m = Some out /\ canon (n - n mod 2 ^ 13) n out.
Proof.
  intros Hn [Hl Hsubs]. induction k as [|k IH]; intros s m Hs Hk Hm.
  { exists m. replace s with 13 in Hm by lia. done. }
  cbn [sort_finish]. rewrite bit_test by done. pose proof (mod_succ_bit n s Hs) as Hm1.
  destruct (Z.testbit n s) eqn:Hbit.
  - destruct (Hsubs s) as (l & -> & Hcan); [unfold NSUB; lia|done|]. cbn [mbind option_bind].
    pose proof (Z.mod_le n (2 ^ (s + 1)) ltac:(lia) ltac:(lia)). unfold start in Hcan.
    pose proof (Z.mod_pos_bound n (2 ^ s) ltac:(lia)).
    destruct (canon_merge (n - n mod 2 ^ (s + 1)) (n - n mod 2 ^ s) n l m) as (out & -> & Hout); try lia; try done.
    { replace (n - n mod 2 ^ s) with (n - n mod 2 ^ (s + 1) + 2 ^ s) by lia. done. }
    cbn [mbind option_bind]. apply IH; [lia|lia|done].
  - cbn [mbind option_bind]. apply IH; [lia|lia|]. by rewrite Hm1, Z.add_0_r.
Qed.

(** The sort keeps the latest index of each page, in page order. *)
Lemma mergesort_canon n : 0 < n <= 2 ^ 12 -> n <= alen aContent ->
  exists out, walMergesort aContent (seqZ 0 n) = Some out /\ canon 0 n out.
Proof.
  intros Hn Hlen. unfold walMergesort.
  destruct (sort_loop_spec (Z.to_nat n) 0 0 (replicate NSUB []) []) as (s & aSub & m & E & Hok & Hm); try lia.
  { split; [done|]. intros b Hb. by rewrite Z.bits_0. }
  rewrite Z2Nat.id, Z.add_0_l in * by lia. rewrite E. cbn [mbind option_bind].
  destruct Hm as [|(Hs & Hmod & Hm)]; [lia|].
  assert (Halen : alen (seqZ 0 n) = n) by (unfold alen; rewrite length_seqZ; lia). rewrite Halen.
  destruct (sort_finish_spec n aSub ltac:(lia) Hok (NSUB - Z.to_nat (s + 1)) (s + 1) m) as (out & -> & Hout).
  - lia.
  - unfold NSUB. lia.
  - by rewrite Hmod.
  - exists out. split; [done|]. rewrite Z.mod_small, Z.sub_diag in Hout by lia. done.
Qed.
End Sort.

(** ** The iterator in page order *)

Definition NO_PAGE : Z := 0xFFFFFFFF.

Section Iterate.
Context (ps : list Z) (Hps : Forall (fun pg => 0 < pg < NO_PAGE) ps).

(** The page of frame [f]. *)
Definition page_at (f : Z) : Z := default 0 (aget ps (f - 1)).

Lemma page_at_range f : 1 <= f <= alen ps -> aget ps (f - 1) = Some (page_at f) /\ 0 < page_at f < NO_PAGE.
Proof.
  intros Hf. unfold page_at. destruct (aget_is_Some ps (f - 1)) as [v Hv]; [lia|]. rewrite Hv.
  split; [done|]. by apply (aget_Forall _ _ _ _ Hps Hv).
Qed.

(** A segment for the frames [z+1..hi], whose entries before [iNext] have pages
    up to [m]. *)
Record seg_ok (m z hi : Z) (s : WalSegment) : Prop := {
  seg_range : 0 <= z <= hi /\ hi <= alen ps;
  seg_zero : z < hi -> seg_iZero s = z + 1;
  seg_pages : forall j, 0 <= j < hi - z -> aget (seg_aPgno s) j = Some (page_at (z + 1 + j));
  seg_canon : canon (seg_aPgno s) 0 (hi - z) (aIndex s);
  seg_len : nEntry s = alen (aIndex s);
  seg_next : 0 <= iNext s <= nEntry s;
  seg_done : forall k x, k < iNext s -> aget (aIndex s) k = Some x -> page_at (z + 1 + x) <= m
}.

(** The smallest page above [m] among the frames [lo+1..hi] and its latest
    frame there. *)
Definition best (m lo hi iRet f : Z) : Prop :=
  (iRet = NO_PAGE /\ forall g, lo < g <= hi -> page_at g <= m) \/
  (m < iRet < NO_PAGE /\ lo < f <= hi /\ page_at f = iRet /\
   (forall g, f < g <= hi -> page_at g <> iRet) /\
   (forall g, lo < g <= hi -> m < page_at g -> iRet <= page_at g)).

Lemma seg_key m z hi s x : seg_ok m z hi s -> 0 <= x < hi - z -> key (seg_aPgno s) x = page_at (z + 1 + x).
Proof. intros Hs Hx. unfold key. by rewrite (seg_pages _ _ _ _ Hs). Qed.

Lemma seg_entry m z hi s k x : seg_ok m z hi s -> aget (aIndex s) k = Some x -> 0 <= x < hi - z.
Proof. intros Hs Hk. apply (seg_canon _ _ _ _ Hs). apply aget_elem. eauto. Qed.

Lemma sorted_lookup c l i j x y : StronglySorted (by_key c) l ->
  aget l i = Some x -> aget l j = Some y -> i < j -> key c x < key c y.
Proof.
  intros Hs. revert i j. induction Hs as [|a l _ IH HF]; intros i j Hi Hj Hij; [by destruct i|].
  pose proof (aget_range _ _ _ Hi) as Hri. pose proof (aget_range _ _ _ Hj) as Hrj.
  change (a :: l) with ([a] ++ l) in *. rewrite aget_app_r in Hj by (unfold alen; simpl; lia).
  change (alen [a]) with 1 in Hj. destruct (decide (i = 0)) as [->|].
  - injection Hi as <-. rewrite Forall_forall in HF. apply HF, aget_elem. eauto.
  - rewrite aget_app_r in Hi by (unfold alen; simpl; lia). change (alen [a]) with 1 in Hi.
    eapply IH; [done|done|lia].
Qed.

Lemma segment_next_spec m z hi fuel : forall s, seg_ok m z hi s -> nEntry s - iNext s < Z.of_nat fuel ->
  exists s' r, segment_next fuel m s = Some (s', r) /\ seg_ok m z hi s' /\
    match r with
    | None => forall g, z < g <= hi -> page_at g <= m
    | Some (pg, f) => m < pg < NO_PAGE /\ z < f <= hi /\ page_at f = pg /\
        (forall g, f < g <= hi -> page_at g <> pg) /\ (forall g, z < g <= hi -> m < page_at g -> pg <= page_at g)
    end.
Proof.
  induction fuel as [|fuel IH]; intros s Hs Hf; [pose proof (seg_next _ _ _ _ Hs); lia|].
  pose proof (seg_range _ _ _ _ Hs) as Hr. pose proof (seg_len _ _ _ _ Hs) as Hlen.
  pose proof (seg_canon _ _ _ _ Hs) as Hc. pose proof (seg_next _ _ _ _ Hs) as Hn.
  (* a page of the segment is that of one of its entries *)
  assert (Hcov : forall g, z < g <= hi -> exists k x, aget (aIndex s) k = Some x /\ page_at (z + 1 + x) = page_at g).
  { intros g Hg. destruct (canon_covers _ _ _ _ (g - z - 1) Hc ltac:(lia)) as (x & Hx & Ek).
    apply aget_elem in Hx as [k Hk]. exists k, x. split; [done|].
    rewrite !(seg_key m z hi s) in Ek by (done || lia || by eapply seg_entry). rewrite Ek. f_equal. lia. }
  cbn [segment_next]. destruct (Z.ltb_spec (iNext s) (nEntry s)) as [Hlt|Hge].
  - destruct (aget_is_Some (aIndex s) (iNext s)) as [x Hx]; [lia|]. rewrite Hx. cbn [mbind option_bind].
    pose proof (seg_entry _ _ _ _ _ _ Hs Hx) as Hxr. rewrite (seg_pages _ _ _ _ Hs) by done. cbn [mbind option_bind].
    destruct (Z.gtb_spec (page_at (z + 1 + x)) m) as [Hgt|Hle].
    + exists s. eexists. split; [done|]. split; [done|]. rewrite (seg_zero _ _ _ _ Hs) by lia.
      destruct (page_at_range (z + 1 + x) ltac:(lia)) as [_ ?]. split_and!; try lia.
      * intros g Hg E. assert (Hlast : x ∈ aIndex s) by (apply aget_elem; eauto).
        apply Hc in Hlast as [_ Hlast]. apply (Hlast (g - z - 1)); [lia|].
        rewrite !(seg_key m z hi s) by (done || lia). rewrite <- E. f_equal. lia.
      * intros g Hg Hmg. destruct (Hcov g Hg) as (k & y & Hk & Ek). rewrite <- Ek in *.
        destruct (Z.lt_trichotomy k (iNext s)) as [Hlt'|[->|Hgt']].
        -- pose proof (seg_done _ _ _ _ Hs k y Hlt' Hk). lia.
        -- rewrite Hx in Hk. simplify_eq. lia.
        -- pose proof (sorted_lookup _ _ _ _ _ _ (proj1 Hc) Hx Hk Hgt') as Hk'.
           rewrite !(seg_key m z hi s) in Hk' by (done || by eapply seg_entry). lia.
    + apply IH; [|cbn; lia]. destruct Hs as [? ? ? ? ? ? Hdone]. constructor; cbn; try done; try lia.
      intros k y Hk Hy. destruct (decide (k < iNext s)); [by eapply Hdone|].
      assert (k = iNext s) as -> by lia. rewrite Hx in Hy. by simplify_eq.
  - exists s, None. split; [done|]. split; [done|]. intros g Hg.
    destruct (Hcov g Hg) as (k & x & Hk & <-). eapply (seg_done _ _ _ _ Hs); [|done].
    pose proof (aget_range _ _ _ Hk). lia.
Qed.

(** Segments from the last one back, for the frames [lo+1..hi]. *)
Fixpoint chain (m lo hi : Z) (segs : list WalSegment) : Prop :=
  match segs with
  | [] => lo = hi
  | s :: segs => exists z, lo <= z /\ seg_ok m z hi s /\ chain m lo z segs
  end.

Lemma seg_ok_mono m m' z hi s : m <= m' -> seg_ok m z hi s -> seg_ok m' z hi s.
Proof.
  intros Hm [? ? ? ? ? ? Hd]. constructor; try done. intros k x Hk Hx. specialize (Hd k x Hk Hx). lia.
Qed.

Lemma chain_mono m m' segs : forall lo hi, m <= m' -> chain m lo hi segs -> chain m' lo hi segs.
Proof.
  induction segs as [|s segs IH]; intros lo hi Hm; [done|]. intros (z & Hz & Hs & Hc).
  exists z. split_and!; [done|by eapply seg_ok_mono|by apply IH].
Qed.

Lemma chain_le m segs : forall lo hi, chain m lo hi segs -> lo <= hi.
Proof.
  induction segs as [|s segs IH]; intros lo hi; [intros ->; lia|]. intros (z & Hz & Hs & Hc).
  pose proof (seg_range _ _ _ _ Hs). lia.
Qed.

Lemma segments_next_spec m mx segs : forall lo hi iRet f, m < NO_PAGE -> chain m lo hi segs -> best m hi mx iRet f ->
  hi <= mx -> exists segs' iRet' f', segments_next m segs iRet f = Some (segs', iRet', f') /\
    chain m lo hi segs' /\ best m lo mx iRet' f'.
Proof.
  induction segs as [|s segs IH]; intros lo hi iRet f Hm Hch Hb Hhi.
  { cbn in Hch. subst. exists [], iRet, f. done. }
  destruct Hch as (z & Hz & Hs & Hch). cbn [segments_next].
  destruct (segment_next_spec m z hi (S (Z.to_nat (nEntry s - iNext s))) s Hs ltac:(lia)) as (s' & r & -> & Hs' & Hr).
  cbn [mbind option_bind].
  set (acc := match r with Some (iPg, f0) => if iPg <? iRet then (iPg, f0) else (iRet, f) | None => (iRet, f) end).
  pose proof (seg_range _ _ _ _ Hs) as Hzr.
  assert (Hacc : best m z mx (fst acc) (snd acc)).
  { unfold acc. destruct r as [[pg f0]|]; [destruct Hr as (Hpg & Hf0 & Epg & Hlast & Hmin); destruct (Z.ltb_spec pg iRet) as [Hlt|Hge]|]; cbn [fst snd].
    - right. split_and!; try done; try lia.
      + intros g Hg E. destruct (decide (g <= hi)); [by apply (Hlast g); [lia|]|].
        destruct Hb as [[-> Hno]|(_ & _ & _ & _ & Hmin')]; [specialize (Hno g ltac:(lia)); lia|].
        specialize (Hmin' g ltac:(lia) ltac:(lia)). lia.
      + intros g Hg Hmg. destruct (decide (g <= hi)); [apply Hmin; [lia|done]|].
        destruct Hb as [[-> Hno]|(_ & _ & _ & _ & Hmin')]; [specialize (Hno g ltac:(lia)); lia|].
        specialize (Hmin' g ltac:(lia) Hmg). lia.
    - right. destruct Hb as [[-> Hno]|(? & ? & ? & Hlast' & Hmin')]; [lia|]. split_and!; try done; try lia.
      intros g Hg Hmg. destruct (decide (g <= hi)); [specialize (Hmin g ltac:(lia) Hmg); lia|apply Hmin'; [lia|done]].
    - destruct Hb as [[-> Hno]|(? & ? & ? & Hlast' & Hmin')].
      + left. split; [done|]. intros g Hg. destruct (decide (g <= hi)); [apply Hr; lia|apply Hno; lia].
      + right. split_and!; try done; try lia. intros g Hg Hmg.
        destruct (decide (g <= hi)); [specialize (Hr g ltac:(lia)); lia|apply Hmin'; [lia|done]]. }
  destruct acc as [iRet1 f1]. cbn [fst snd] in Hacc.
  destruct (IH lo z iRet1 f1 Hm Hch Hacc ltac:(lia)) as (segs' & iRet' & f' & -> & Hch' & Hb').
  cbn [mbind option_bind]. exists (s' :: segs'), iRet', f'. split_and!; try done. exists z. done.
Qed.

Definition iter_ok (lo mx : Z) (p : WalIterator) : Prop :=
  chain (iPrior p) lo mx (rev (aSegment p)) /\ iPrior p < NO_PAGE.

Lemma walIteratorNext_spec lo mx p : iter_ok lo mx p ->
  exists p' r, walIteratorNext p = Some (p', r) /\
    match r with
    | None => forall g, lo < g <= mx -> page_at g <= iPrior p
    | Some (pg, f) => iter_ok lo mx p' /\ iPrior p' = pg /\ best (iPrior p) lo mx pg f /\ pg < NO_PAGE
    end.
Proof.
  intros [Hch Hm]. unfold walIteratorNext. change 0xFFFFFFFF with NO_PAGE.
  destruct (segments_next_spec (iPrior p) mx (rev (aSegment p)) lo mx NO_PAGE 0 Hm Hch) as (segs & iRet & f & -> & Hch' & Hb);
    [left; split; [done|lia]|lia|].
  cbn [mbind option_bind]. eexists _, _. split; [done|]. destruct (Z.eqb_spec iRet NO_PAGE) as [->|Hne].
  - destruct Hb as [[_ Hno]|(? & _)]; [done|lia].
  - pose proof Hb as [[? _]|(? & _)]; [done|]. split_and!; try done; try (cbn; lia).
    split; cbn [iPrior aSegment]; [|lia]. rewrite rev_involutive. eapply chain_mono; [|done]. lia.
Qed.
End Iterate.

(** ** Setting up the iterators *)
Section Init.
Context (shmMap : Z -> Z) (w : WiData) (ps : list Z) (Hw : index_ok w ps).
Context (Hps : Forall (fun pg => 0 < pg < NO_PAGE) ps) (mx : Z) (Hmx : 1 <= mx <= alen ps).

Lemma chain_app m A : forall lo mid hi B, chain ps m mid hi A -> chain ps m lo mid B -> chain ps m lo hi (A ++ B).
Proof.
  induction A as [|s A IH]; intros lo mid hi B HA HB; [by rewrite <- HA|].
  destruct HA as (z & Hz & Hs & HA). pose proof (chain_le _ _ _ _ _ HB).
  exists z. split_and!; [lia|done|by eapply IH].
Qed.

Lemma chain_zero m lo k : 0 <= lo <= alen ps -> chain ps m lo lo (replicate k zero_segment).
Proof.
  intros Hlo. induction k as [|k IH]; [done|]. exists lo. split_and!; [lia| |done].
  constructor; cbn; try done; try lia; [|intros ? ? ? Hx%aget_range; unfold alen in Hx; simpl in Hx; lia]. rewrite Z.sub_diag. split; [constructor|]. intros i. split; [by intros ?%elem_of_nil|lia].
Qed.

Lemma init_segment_spec i p hi : 0 <= i -> zero_of i < mx ->
  hi = (if i + 1 =? walFramePage mx + 1 then mx else zero_of (i + 1)) -> zero_of i < hi <= zero_of i + page_entries i -> hi <= mx ->
  w !! i = Some p -> table_ok (page_entries i) (tab i ps) p ->
  exists s, init_segment p (zero_of i) (walFramePage mx + 1) mx i = Some s /\ seg_ok ps 0 (zero_of i) hi s.
Proof.
  intros Hi Hz Ehi Hhi Hle Hp Hok. pose proof Hw as (Hmax & _). pose proof (page_entries_range i) as Hpe.
  pose proof (zero_of_nonneg i Hi). unfold init_segment. pose proof (tab_pgno_len _ _ _ Hok) as Hpl.
  assert (HT : hi - zero_of i <= alen (tab i ps)) by (rewrite alen_tab by lia; lia).
  replace (if i + 1 =? walFramePage mx + 1 then mx - zero_of i else alen (aPgno p)) with (hi - zero_of i).
  2:{ rewrite Ehi, Hpl. case_match; [done|]. rewrite zero_of_succ by done. lia. }
  destruct (mergesort_canon (aPgno p) (hi - zero_of i)) as (out & -> & Hc); [unfold HASHTABLE_NPAGE in *; lia|lia|].
  cbn [mbind option_bind]. eexists. split; [done|]. constructor; cbn; try done; try lia.
  - intros j Hj. rewrite (tab_pgno _ _ _ Hok), aget_tab by lia.
    destruct (page_at_range ps Hps (zero_of i + 1 + j)) as [<- _]; [lia|]. f_equal. lia.
  - pose proof (alen_nonneg out). lia.
  - intros k x Hk Hx. apply aget_range in Hx. lia.
Qed.

Lemma init_segments_spec n : forall i, 0 <= i -> Z.of_nat (S n) = walFramePage mx + 1 - i ->
  exists segs, init_segments shmMap (S n) w (walFramePage mx + 1) mx i = Some (SQLITE_OK, segs) /\
    chain ps 0 (zero_of i) mx (rev segs).
Proof.
  pose proof Hw as (Hmax & _ & Htab). pose proof (walFramePage_range mx ltac:(lia)) as [H0 Hr].
  induction n as [|n IH]; intros i Hi Hn.
  - assert (i = walFramePage mx) as -> by lia. destruct (Htab (walFramePage mx)) as (p & Hp & Hok); [done|lia|].
    cbn [init_segments]. rewrite (walHashGet_mapped _ _ _ p Hp), hash_iZero_eq by lia.
    destruct (init_segment_spec (walFramePage mx) p mx) as (s & -> & Hs); try done; try lia; [by rewrite Z.eqb_refl|].
    cbn [mbind option_bind]. eexists. split; [done|]. cbn [rev app]. exists (zero_of (walFramePage mx)).
    split_and!; done || lia.
  - pose proof (zero_of_mono i (walFramePage mx) ltac:(lia)) as Hzm. pose proof (page_entries_range i) as Hpe.
    destruct (Htab i) as (p & Hp & Hok); [done|lia|].
    change (init_segments shmMap (S (S n)) w (walFramePage mx + 1) mx i) with
      (match walHashGet shmMap w i with
      | (_, Some (pg, iZero), w) =>
          s ← init_segment pg iZero (walFramePage mx + 1) mx i;
          '(rc, l) ← init_segments shmMap (S n) w (walFramePage mx + 1) mx (i + 1);
          Some (rc, s :: l)
      | (rc, None, _) => Some (rc, [])
      end).
    rewrite (walHashGet_mapped _ _ _ p Hp), hash_iZero_eq by lia.
    destruct (init_segment_spec i p (zero_of (i + 1))) as (s & -> & Hs); try done; try lia.
    { destruct (Z.eqb_spec (i + 1) (walFramePage mx + 1)); [lia|done]. }
    { rewrite zero_of_succ by done. lia. }
    { rewrite zero_of_succ by done. lia. }
    cbn [mbind option_bind]. destruct (IH (i + 1)) as (segs & -> & Hch); [lia|lia|].
    cbn [mbind option_bind]. eexists. split; [done|]. cbn [rev]. eapply chain_app; [done|].
    exists (zero_of i). split_and!; done || lia.
Qed.

Lemma walIteratorInit_spec nBackfill al : never_fails al -> 0 <= nBackfill < mx ->
  exists it al', walIteratorInit shmMap w mx nBackfill al = Some (SQLITE_OK, Some it, al') /\
    never_fails al' /\ iter_ok ps (zero_of (walFramePage (nBackfill + 1))) mx it /\ iPrior it = 0.
Proof.
  intros Hal Hb. pose proof Hw as (Hmax & _). unfold walIteratorInit.
  destruct (malloc_never_fails al Hal) as (al' & -> & Hal'). cbn [negb].
  pose proof (walFramePage_mono (nBackfill + 1) mx ltac:(lia) ltac:(lia)).
  pose proof (walFramePage_range (nBackfill + 1) ltac:(lia)) as [Hf Hfr].
  set (first := walFramePage (nBackfill + 1)) in *.
  destruct (init_segments_spec (Z.to_nat (walFramePage mx - first)) first) as (segs & E & Hch); [lia|lia|].
  replace (Z.to_nat (walFramePage mx + 1 - first)) with (S (Z.to_nat (walFramePage mx - first))) by lia.
  rewrite E. cbn [mbind option_bind]. change (SQLITE_OK =? SQLITE_OK) with true. cbn [negb].
  eexists _, _. split; [done|]. split_and!; try done. split; [|done]. cbn [iPrior aSegment].
  rewrite rev_app_distr. eapply chain_app; [done|]. rewrite rev_alt. fold (reverse (replicate (Z.to_nat first) zero_segment)).
  rewrite reverse_replicate. apply chain_zero.
  pose proof (zero_of_nonneg first Hf). lia.
Qed.
End Init.

(** ** The iterator in decreasing frame order *)
Section Reverse.
Context (shmMap : Z -> Z) (w : WiData) (ps : list Z) (Hw : index_ok w ps).
Context (Hps : Forall (fun pg => 0 < pg < NO_PAGE) ps) (mx : Z) (Hmx : 1 <= mx <= alen ps).
Context (lo minFrame mxSafe : Z) (ignore : bool).
Context (Hlo : 0 <= lo) (Hmin : 0 <= minFrame < 2 ^ 32) (Hsafe : 0 <= mxSafe <= mx).

(** [f] is the latest frame of its page. *)
Definition is_latest (f : Z) : Prop := forall g, f < g <= mx -> page_at ps g <> page_at ps f.

(** The frame under which the page of the latest frame [f] is recorded: [f], or
    the latest frame up to [mxSafe] when [f] is beyond it and a replacement is
    asked for; zero when there is none. *)
Definition target (f : Z) : Z :=
  if (f >? mxSafe) && negb ignore
  then latest_frame (Z.to_nat mxSafe) ps minFrame (page_at ps f) else f.

(** The array records the pages up to [m]. *)
Definition recorded (m : Z) (F : list Z) : Prop :=
  alen F = mx + 1 /\
  (forall x v, aget F x = Some v -> v <> 0 ->
     exists f, lo < f <= mx /\ is_latest f /\ page_at ps f <= m /\ page_at ps f = v /\ target f = x /\ x <> 0) /\
  (forall f, lo < f <= mx -> is_latest f -> page_at ps f <= m -> target f <> 0 ->
     aget F (target f) = Some (page_at ps f)).

Lemma target_page f : lo < f <= mx -> target f <> 0 ->
  1 <= target f <= mx /\ page_at ps (target f) = page_at ps f.
Proof.
  intros Hf. unfold target. destruct (Z.gtb_spec f mxSafe); cbn [andb]; [|lia].
  destruct ignore; cbn [negb]; [lia|].
  destruct (latest_frame_spec (Z.to_nat mxSafe) ps minFrame (page_at ps f)) as [[-> _]|(R & -> & HR & _ & Hg & _)]; [done|].
  intros _. split; [lia|]. unfold page_at at 1. by rewrite Hg.
Qed.

Lemma latest_same_page f g : lo < f <= mx -> lo < g <= mx -> is_latest f -> is_latest g ->
  page_at ps f = page_at ps g -> f = g.
Proof.
  intros Hf Hg Lf Lg E. destruct (Z.lt_trichotomy f g) as [H|[|H]]; [|done|].
  - exfalso. apply (Lf g); [lia|done].
  - exfalso. apply (Lg f); [lia|done].
Qed.

Definition remaining (m : Z) : nat := length (filter (fun g => m < page_at ps g) (seqZ (lo + 1) (mx - lo))).

Lemma remaining_lt m f : lo < f <= mx -> m < page_at ps f -> (remaining (page_at ps f) < remaining m)%nat.
Proof.
  intros Hf Hm. unfold remaining.
  assert (Hin : f ∈ seqZ (lo + 1) (mx - lo)) by (apply elem_of_seqZ; lia).
  apply list_elem_of_split in Hin as (l1 & l2 & ->). rewrite !filter_app, !filter_cons, !length_app.
  rewrite (decide_False (P := page_at ps f < page_at ps f)) by lia. rewrite decide_True by done.
  assert (Hle : forall l, (length (filter (fun g => (page_at ps f < page_at ps g)%Z) l) <= length (filter (fun g => (m < page_at ps g)%Z) l))%nat).
  { induction l as [|a l IH]; [done|]. rewrite !filter_cons. repeat case_decide; simpl; lia. }
  pose proof (Hle l1). pose proof (Hle l2). simpl. lia.
Qed.

(** One page is added to the array. *)
Lemma record_step m f F : recorded m F -> best ps m lo mx (page_at ps f) f -> lo < f <= mx -> page_at ps f < NO_PAGE ->
  exists F', (match (if target f =? 0 then None else Some (target f)) with None => Some F | Some x => aset F x (page_at ps f) end) = Some F' /\
    recorded (page_at ps f) F'.
Proof.
  intros (Hl & HF1 & HF2) Hb Hf HfN. destruct Hb as [[E _]|(Hmf & _ & _ & Hlast & Hleast)]; [lia|].
  assert (Hlat : is_latest f) by (intros g Hg; apply Hlast; lia).
  assert (Hcase : forall g, lo < g <= mx -> is_latest g -> page_at ps g <= page_at ps f -> g = f \/ page_at ps g <= m).
  { intros g Hg Lg Hgf. destruct (decide (page_at ps g <= m)) as [|Hgt]; [by right|left].
    pose proof (Hleast g Hg ltac:(lia)). apply latest_same_page; try done. lia. }
  destruct (Z.eqb_spec (target f) 0) as [E0|E0].
  - exists F. split; [done|]. split; [done|]. split.
    + intros x v Hx Hv. destruct (HF1 x v Hx Hv) as (g & ? & ? & ? & ? & ? & ?). exists g. split_and!; done || lia.
    + intros g Hg Lg Hgf Ht. destruct (Hcase g Hg Lg Hgf) as [->|?]; [done|]. by apply HF2.
  - destruct (target_page f Hf E0) as [Ht Hpt]. destruct (aset F (target f) (page_at ps f)) as [F'|] eqn:Hset.
    2:{ rewrite aset_in in Hset; [done|lia]. }
    exists F'. split; [done|]. split; [by rewrite (aset_alen _ _ _ _ Hset)|]. split.
    + intros x v Hx Hv. rewrite (aget_aset _ _ _ _ _ Hset) in Hx. case_decide as E.
      * simplify_eq. exists f. split_and!; done || lia.
      * destruct (HF1 x v Hx Hv) as (g & ? & ? & ? & ? & ? & ?). exists g. split_and!; done || lia.
    + intros g Hg Lg Hgf Htg. rewrite (aget_aset _ _ _ _ _ Hset). destruct (Hcase g Hg Lg Hgf) as [->|Hgm].
      * by rewrite decide_True.
      * rewrite decide_False; [by apply HF2|]. intros E. destruct (target_page g Hg Htg) as [_ Hpg].
        rewrite E, Hpt in Hpg. lia.
Qed.

Lemma rev_loop_spec fuel : forall it F, (remaining (iPrior it) < fuel)%nat -> iter_ok ps lo mx it -> recorded (iPrior it) F ->
  exists F', rev_loop shmMap fuel w false minFrame mxSafe ignore it F = Some (SQLITE_OK, F') /\ recorded NO_PAGE F'.
Proof.
  induction fuel as [|fuel IH]; intros it F Hfuel Hit HF; [lia|]. cbn [rev_loop].
  destruct (walIteratorNext_spec ps Hps lo mx it Hit) as (it' & r & -> & Hr). cbn [mbind option_bind].
  destruct r as [[pg f]|].
  - destruct Hr as (Hit' & Epr & Hb & HpgN). pose proof Hb as [[? _]|(Hm & Hf & Ef & _)]; [lia|].
    assert (pg = page_at ps f) as -> by done. clear Ef.
    assert (Hfind : (if (f >? mxSafe) && negb ignore then
        '(rc, iFrame) ← walFindFrame shmMap w false minFrame (page_at ps f) mxSafe; Some (rc, if iFrame =? 0 then None else Some iFrame)
      else Some (SQLITE_OK, Some f)) = Some (SQLITE_OK, if target f =? 0 then None else Some (target f))).
    { unfold target. destruct ((f >? mxSafe) && negb ignore).
      - rewrite (find_frame shmMap w ps) by (done || lia). done.
      - destruct (Z.eqb_spec f 0); [lia|done]. }
    rewrite Hfind. cbn [mbind option_bind]. change (SQLITE_OK =? SQLITE_OK) with true. cbn [negb].
    destruct (record_step (iPrior it) f F HF Hb Hf HpgN) as (F1 & -> & HF1). cbn [mbind option_bind].
    rewrite <- Epr in HF1. apply IH; try done. rewrite Epr.
    pose proof (remaining_lt (iPrior it) f Hf ltac:(lia)). lia.
  - exists F. split; [done|]. destruct HF as (Hl & HF1 & HF2). split; [done|]. split.
    + intros x v Hx Hv. destruct (HF1 x v Hx Hv) as (g & ? & ? & ? & ? & ? & ?). exists g. destruct (page_at_range ps Hps g); [lia|].
      split_and!; done || lia.
    + intros f Hf Lf _. apply HF2; try done. by apply Hr.
Qed.
End Reverse.

Lemma walIteratorRevInit_spec shmMap w ps mx minFrame nBackfill mxSafe ignore al :
  index_ok w ps -> Forall (fun pg => 0 < pg < NO_PAGE) ps -> 1 <= mx <= alen ps -> 0 <= minFrame < 2 ^ 32 ->
  0 <= mxSafe <= mx -> 0 <= nBackfill < mx -> never_fails al ->
  exists F al', walIteratorRevInit shmMap w false mx minFrame nBackfill mxSafe ignore al
      = Some (SQLITE_OK, Some (MkRev mx F), al') /\
    recorded ps mx (zero_of (walFramePage (nBackfill + 1))) minFrame mxSafe ignore NO_PAGE F.
Proof.
  intros Hw Hps Hmx Hmin Hsafe Hb Hal. pose proof Hw as (Hmax & _). unfold walIteratorRevInit.
  destruct (malloc_never_fails al Hal) as (al1 & -> & Hal1). cbn [negb].
  destruct (walIteratorInit_spec shmMap w ps Hw Hps mx Hmx nBackfill al1 Hal1 Hb) as (it & al2 & -> & Hal2 & Hit & Hpr).
  cbn [mbind option_bind]. pose proof (walFramePage_range (nBackfill + 1) ltac:(lia)) as [Hf _].
  pose proof (zero_of_nonneg _ Hf) as Hz.
  destruct (rev_loop_spec shmMap w ps Hw Hps mx Hmx (zero_of (walFramePage (nBackfill + 1))) minFrame mxSafe ignore Hz Hmin Hsafe
    (S (S (Z.to_nat mx))) it (replicate (S (Z.to_nat mx)) 0)) as (F & -> & HF).
  - unfold remaining. pose proof (length_filter (fun g => iPrior it < page_at ps g) (seqZ (zero_of (walFramePage (nBackfill + 1)) + 1) (mx - zero_of (walFramePage (nBackfill + 1))))) as Hle.
    rewrite length_seqZ in Hle. lia.
  - done.
  - rewrite Hpr. split; [unfold alen; rewrite length_replicate; lia|]. split.
    + intros x v Hx Hv. pose proof (aget_range _ _ _ Hx) as Hr. unfold alen in Hr. rewrite length_replicate in Hr.
      rewrite aget_replicate in Hx by lia. congruence.
    + intros f Hfr _ Hp0. destruct (page_at_range ps Hps f); lia.
  - cbn [mbind option_bind]. change (SQLITE_OK =? SQLITE_OK) with true. cbn [negb]. eauto.
Qed.

(** ** Properties *)

(** C16. Sorting the frames of one wal-index page (at most 4096 of them)
    returns frame indices in strictly increasing order of their database page,
    and exactly one for each page that occurs: its latest. *)
Theorem walMergesort_latest aContent n :
  0 < n <= HASHTABLE_NPAGE -> n <= alen aContent ->
  exists out, walMergesort aContent (seqZ 0 n) = Some out /\
    StronglySorted (fun i j => key aContent i < key aContent j) out /\
    forall i, i ∈ out <-> 0 <= i < n /\ forall j, i < j < n -> key aContent j <> key aContent i.
Proof.
  intros Hn Hl. destruct (mergesort_canon aContent n) as (out & E & Hs & Hin); [unfold HASHTABLE_NPAGE in *; lia|done|].
  by exists out.
Qed.

Lemma walMergesort_latest_witness :
  walMergesort [5; 3; 5; 2; 3] (seqZ 0 5) = Some [3; 4; 2] /\
  exists out, walMergesort [5; 3; 5; 2; 3] (seqZ 0 5) = Some out /\
    StronglySorted (fun i j => key [5; 3; 5; 2; 3] i < key [5; 3; 5; 2; 3] j) out /\
    forall i, i ∈ out <-> 0 <= i < 5 /\ forall j, i < j < 5 -> key [5; 3; 5; 2; 3] j <> key [5; 3; 5; 2; 3] i.
Proof.
  split; [vm_compute; reflexivity|].
  apply (walMergesort_latest [5; 3; 5; 2; 3] 5).
  - unfold HASHTABLE_NPAGE. lia.
  - unfold alen. simpl. lia.
Defined.



(** When a replacement is asked for, a page whose latest frame is beyond
    [mxSafe] is dropped as soon as none of its frames lies in
    [minFrame..mxSafe], even if earlier frames that are still to be back-filled
    hold it: the search for the replacement starts at the [minFrame] of the
    connection's last read transaction and not at the back-fill point. *)
Theorem walIteratorRevInit_minFrame shmMap w ps mx minFrame nBackfill mxSafe al f :
  index_ok w ps -> Forall (fun pg => 0 < pg < NO_PAGE) ps -> 1 <= mx <= alen ps -> 0 <= minFrame < 2 ^ 32 ->
  0 <= mxSafe <= mx -> 0 <= nBackfill < mx -> never_fails al ->
  mxSafe < f <= mx -> is_latest ps mx f ->
  (forall g, minFrame <= g <= mxSafe -> 1 <= g -> page_at ps g <> page_at ps f) ->
  exists F al', walIteratorRevInit shmMap w false mx minFrame nBackfill mxSafe false al
      = Some (SQLITE_OK, Some (MkRev mx F), al') /\
    forall x, aget F x <> Some (page_at ps f).
Proof.
  intros Hw Hps Hmx Hmin Hsafe Hb Hal Hf Lf Hno.
  destruct (walIteratorRevInit_spec shmMap w ps mx minFrame nBackfill mxSafe false al) as (F & al' & E & Hl & H1 & _); try done.
  exists F, al'. split; [done|]. intros x Hx.
  destruct (page_at_range ps Hps f) as [_ Hpf]; [lia|].
  destruct (H1 x _ Hx ltac:(lia)) as (g & Hg & Lg & _ & Ep & Et & Hx0).
  assert (g = f) as ->.
  { destruct (Z.lt_trichotomy g f) as [H|[|H]]; [|done|]; exfalso.
    - apply (Lg f); [lia|done].
    - apply (Lf g); [lia|done]. }
  unfold target in Et. destruct (Z.gtb_spec f mxSafe); [|lia]. cbn [andb negb] in Et.
  destruct (latest_frame_spec (Z.to_nat mxSafe) ps minFrame (page_at ps f)) as [[E0 _]|(R & ER & HR & HRm & HRg & _)]; [lia|].
  rewrite Z2Nat.id in HR by lia. apply (Hno R); [lia|lia|]. unfold page_at at 1. by rewrite HRg.
Qed.

Lemma walIteratorRevInit_minFrame_witness :
  exists w, index_frames (fun _ => SQLITE_OK) ∅ 0 0 [7; 9; 7] = Some (SQLITE_OK, w) /\
  page_at [7; 9; 7] 1 = 7 /\
  exists F al', walIteratorRevInit (fun _ => SQLITE_OK) w false 3 2 0 2 false []
      = Some (SQLITE_OK, Some (MkRev 3 F), al') /\ forall x, aget F x <> Some (page_at [7; 9; 7] 3).
Proof.
  destruct (index_of_pages [7; 9; 7]) as (w & E & Hw); [repeat constructor; lia|unfold alen; simpl; lia|].
  exists w. split; [exact E|]. split; [reflexivity|].
  apply (walIteratorRevInit_minFrame (fun _ => SQLITE_OK) w [7; 9; 7] 3 2 0 2 [] 3); try lia.
  - exact Hw.
  - unfold NO_PAGE. repeat constructor; lia.
  - unfold alen. simpl. lia.
  - constructor.
  - intros g Hg. lia.
  - intros g Hg _. replace g with 2 by lia. discriminate.
Defined.
