(* ===== verification/WalHdr.v ===== *)
(** * Write-ahead log: the two copies of the header ([src/wal.c])

    The wal-index starts with two copies of the header.  [walIndexWriteHdr]
    writes the second copy and then the first, [walIndexTryHdr] reads the first
    and then the second, without a lock.  The file has the bytes of a header,
    the two functions, and the interleavings of one write with one read, down
    to the single byte. *)
From S2P Require Import Prelude Bytes WalBase WalFrame.

(** ** The bytes of a header *)

Definition load16 (big : bool) (p : list Z) : option Z :=
  match p with
  | b0 :: b1 :: _ => Some (if big then b0 * 256 + b1 else b1 * 256 + b0)
  | _ => None
  end.

Definition store16 (big : bool) (v : Z) : list Z :=
  if big then [v / 2 ^ 8 mod 256; v mod 256] else [v mod 256; v / 2 ^ 8 mod 256].

#[export] Instance WalIndexHdr_eq_dec : EqDecision WalIndexHdr.
Proof. solve_decision. Defined.

Definition NHDR : nat := 48.

(** [szPage] of the connection from the 16 bits of the header, where 1 stands
    for 65536. *)
Definition hdr_pagesize (sz : Z) : Z := (sz .& 0xfe00) + ((sz .& 0x0001) << 16).

Section Host.
Context (host_big : bool).

(** [(u8* )h], up to the checksum and whole *)
Definition hdr_body (h : WalIndexHdr) : list Z :=
  store32 host_big (iVersion h) ++ store32 host_big (unused h) ++ store32 host_big (iChange h)
  ++ [isInit h; Z.b2z (bigEndCksum h)] ++ store16 host_big (hdr_szPage h)
  ++ store32 host_big (mxFrame h) ++ store32 host_big (nPage h)
  ++ store32 host_big (fst (aFrameCksum h)) ++ store32 host_big (snd (aFrameCksum h)) ++ aSalt h.

Definition hdr_bytes (h : WalIndexHdr) : list Z :=
  hdr_body h ++ store32 host_big (fst (aCksum h)) ++ store32 host_big (snd (aCksum h)).

(** [memcpy(&h, p, sizeof(WalIndexHdr))] *)
Definition hdr_of_bytes (p : list Z) : option WalIndexHdr :=
  v ← load32 host_big p;
  un ← load32 host_big (drop 4 p);
  ch ← load32 host_big (drop 8 p);
  ini ← p !! 12%nat;
  be ← p !! 13%nat;
  sz ← load16 host_big (drop 14 p);
  mx ← load32 host_big (drop 16 p);
  np ← load32 host_big (drop 20 p);
  f0 ← load32 host_big (drop 24 p);
  f1 ← load32 host_big (drop 28 p);
  c0 ← load32 host_big (drop 40 p);
  c1 ← load32 host_big (drop 44 p);
  Some (MkHdr v un ch ini (negb (be =? 0)) sz mx np (f0, f1) (take 8 (drop 32 p)) (c0, c1)).

(** ** Writing and reading *)

(** [pWal->hdr] as it is written to [aHdr[1]] and then to [aHdr[0]] *)
Definition walIndexWriteHdr (h : WalIndexHdr) : option WalIndexHdr :=
  let h := MkHdr WALINDEX_MAX_VERSION (unused h) (iChange h) 1 (bigEndCksum h) (hdr_szPage h)
             (mxFrame h) (nPage h) (aFrameCksum h) (aSalt h) (aCksum h) in
  c ← walChecksumBytes host_big true (hdr_bytes h) 40 None;
  Some (MkHdr (iVersion h) (unused h) (iChange h) (isInit h) (bigEndCksum h) (hdr_szPage h)
          (mxFrame h) (nPage h) (aFrameCksum h) (aSalt h) c).

Record try_hdr : Type := MkTry {
  th_rc : Z;
  th_changed : bool;
  th_hdr : WalIndexHdr;
  th_szPage : Z
}.

(** [h1] and [h2] are the bytes read from the first and from the second copy. *)
Definition walIndexTryHdr (hdr : WalIndexHdr) (szPage : Z) (changed : bool) (h1 h2 : list Z)
    : option try_hdr :=
  let bad := MkTry 1 changed hdr szPage in
  if negb (bool_decide (h1 = h2)) then Some bad else
  h ← hdr_of_bytes h1;
  if isInit h =? 0 then Some bad else
  c ← walChecksumBytes host_big true h1 40 None;
  if negb (fst c =? fst (aCksum h)) || negb (snd c =? snd (aCksum h)) then Some bad else
  if negb (bool_decide (hdr_bytes hdr = h1))
  then Some (MkTry 0 true h (hdr_pagesize (hdr_szPage h)))
  else Some (MkTry 0 changed hdr szPage).

(** ** Well-formed headers *)

Record hdr_wf (h : WalIndexHdr) : Prop := {
  wf_version : is_u32 (iVersion h);
  wf_unused : is_u32 (unused h);
  wf_change : is_u32 (iChange h);
  wf_init : is_u8 (isInit h);
  wf_szPage : is_u16 (hdr_szPage h);
  wf_mxFrame : is_u32 (mxFrame h);
  wf_nPage : is_u32 (nPage h);
  wf_frameCksum : is_u32_pair (aFrameCksum h);
  wf_salt : length (aSalt h) = 8%nat /\ Forall is_u8 (aSalt h);
  wf_cksum : is_u32_pair (aCksum h)
}.

Lemma store32_cells v : is_u32 v ->
  exists a b c d, store32 host_big v = [a; b; c; d] /\ forall r, load32 host_big (a :: b :: c :: d :: r) = Some v.
Proof.
  intros Hv. assert (exists a b c d, store32 host_big v = [a; b; c; d]) as (a & b & c & d & E).
  { unfold store32. destruct host_big; cbn; eauto. }
  exists a, b, c, d. split; [done|]. intros r.
  change (load32 host_big ([a; b; c; d] ++ r) = Some v). rewrite <- E. by apply load_store.
Qed.

Lemma store16_cells v : is_u16 v ->
  exists a b, store16 host_big v = [a; b] /\ forall r, load16 host_big (a :: b :: r) = Some v.
Proof.
  unfold is_u16. intros Hv. unfold store16, load16.
  destruct host_big; eexists _, _; (split; [done|]); intros; f_equal; zdm.
Qed.

Lemma hdr_bytes_inv h : hdr_wf h -> hdr_of_bytes (hdr_bytes h) = Some h.
Proof.
  intros []. destruct wf_frameCksum0, wf_salt0 as [Hl _], wf_cksum0. destruct h as [iv un ch ini be sz mx np [f0 f1] sa [c0 c1]]. cbn in *.
  do 8 (destruct sa as [|? sa]; [done|]). destruct sa; [|done].
  unfold hdr_bytes, hdr_body. cbn [iVersion unused iChange isInit bigEndCksum hdr_szPage mxFrame nPage aFrameCksum aSalt aCksum fst snd].
  destruct (store32_cells iv) as (?&?&?&?&->&E1); [done|].
  destruct (store32_cells un) as (?&?&?&?&->&E2); [done|].
  destruct (store32_cells ch) as (?&?&?&?&->&E3); [done|].
  destruct (store16_cells sz) as (?&?&->&E4); [done|].
  destruct (store32_cells mx) as (?&?&?&?&->&E5); [done|].
  destruct (store32_cells np) as (?&?&?&?&->&E6); [done|].
  destruct (store32_cells f0) as (?&?&?&?&->&E7); [done|].
  destruct (store32_cells f1) as (?&?&?&?&->&E8); [done|].
  destruct (store32_cells c0) as (?&?&?&?&->&E9); [done|].
  destruct (store32_cells c1) as (?&?&?&?&->&E10); [done|].
  unfold hdr_of_bytes. cbn [app drop take lookup list_lookup].
  rewrite E1, E2, E3, E4, E5, E6, E7, E8, E9, E10. cbn. destruct be; done.
Qed.

Lemma hdr_bytes_inj h h' : hdr_wf h -> hdr_wf h' -> hdr_bytes h = hdr_bytes h' -> h = h'.
Proof. intros Hh Hh' E. apply (f_equal hdr_of_bytes) in E. rewrite !hdr_bytes_inv in E by done. by simplify_eq. Qed.

Lemma hdr_bytes_length h : hdr_wf h -> length (hdr_bytes h) = NHDR.
Proof.
  intros H. destruct (wf_salt h H) as [Hl _]. unfold hdr_bytes, hdr_body, store32, store16.
  destruct host_big; cbn -[Z.div Z.modulo]; rewrite !length_app, Hl; done.
Qed.

Lemma hdr_bytes_u8 h : hdr_wf h -> Forall is_u8 (hdr_bytes h).
Proof.
  intros H. destruct (wf_salt h H) as [_ Hs]. pose proof (wf_init h H) as Hi. unfold hdr_bytes, hdr_body, store16.
  repeat (apply Forall_app_2; [apply store32_bytes|]).
  apply Forall_app_2; [|by repeat (apply Forall_app_2; [apply store32_bytes|]); apply store32_bytes].
  repeat (apply Forall_app_2; [apply store32_bytes|]).
  apply Forall_app_2; [|apply Forall_app_2].
  - apply Forall_cons_2; [done|]. apply Forall_cons_2; [|done]. destruct (bigEndCksum h); by unfold is_u8.
  - set (v := hdr_szPage h). clearbody v.
    destruct host_big; (apply Forall_cons_2; [|apply Forall_cons_2; [|done]]); unfold is_u8; zdm.
  - by repeat (apply Forall_app_2; [apply store32_bytes|]).
Qed.


Lemma hdr_bytes_body h : hdr_wf h -> take 40 (hdr_bytes h) = hdr_body h.
Proof.
  intros H. destruct (wf_salt h H) as [Hl _]. unfold hdr_bytes. apply take_app_length'.
  unfold hdr_body, store32, store16. destruct host_big; cbn -[Z.div Z.modulo]; by rewrite Hl.
Qed.

Lemma hdr_checksum h : hdr_wf h ->
  walChecksumBytes host_big true (hdr_bytes h) 40 None = Some (cksum_spec host_big (0, 0) (hdr_body h)).
Proof.
  intros H. pose proof (checksum_ref host_big host_big (hdr_bytes h) 40 None) as E.
  rewrite Bool.eqb_reflx in E. rewrite E; [|by apply hdr_bytes_u8| |done].
  - change (Z.to_nat 40) with 40%nat. by rewrite hdr_bytes_body.
  - unfold alen. rewrite hdr_bytes_length by done. done.
Qed.

(** A header that [walIndexWriteHdr] can have written. *)
Record published (h : WalIndexHdr) : Prop := {
  pub_wf : hdr_wf h;
  pub_init : isInit h = 1;
  pub_version : iVersion h = WALINDEX_MAX_VERSION;
  pub_cksum : aCksum h = cksum_spec host_big (0, 0) (hdr_body h)
}.

(** What a write leaves of the fields. *)
Definition same_log (h h' : WalIndexHdr) : Prop :=
  unused h' = unused h /\ iChange h' = iChange h /\ bigEndCksum h' = bigEndCksum h /\ hdr_szPage h' = hdr_szPage h
  /\ mxFrame h' = mxFrame h /\ nPage h' = nPage h /\ aFrameCksum h' = aFrameCksum h /\ aSalt h' = aSalt h.

Lemma write_publishes h : hdr_wf h -> exists h', walIndexWriteHdr h = Some h' /\ published h' /\ same_log h h'.
Proof.
  intros []. unfold walIndexWriteHdr.
  match goal with |- context [hdr_bytes ?x] => set (h1 := x) end.
  assert (Hwf : hdr_wf h1).
  { split; try done; cbn; unfold is_u32, is_u8, WALINDEX_MAX_VERSION; lia. }
  rewrite hdr_checksum by done. cbn [mbind option_bind]. eexists. split; [done|]. split; [|done].
  split; [|done..]. destruct Hwf. split; try done. apply cksum_spec_range. split; split; done.
Qed.

(** Both copies hold a written header: it is read. *)
Lemma try_published hdr szPage changed h : published h -> hdr_wf hdr ->
  walIndexTryHdr hdr szPage changed (hdr_bytes h) (hdr_bytes h)
  = Some (if bool_decide (hdr = h) then MkTry 0 changed hdr szPage
          else MkTry 0 true h (hdr_pagesize (hdr_szPage h))).
Proof.
  intros [Hwf Hi _ Hc] Hwf'. unfold walIndexTryHdr. rewrite bool_decide_true by done. cbn [negb].
  rewrite hdr_bytes_inv by done. cbn [mbind option_bind]. rewrite Hi. cbn [Z.eqb].
  rewrite hdr_checksum by done. cbn [mbind option_bind]. rewrite Hc, !Z.eqb_refl. cbn [negb orb].
  destruct (decide (hdr = h)) as [->|Hne]; [by rewrite !bool_decide_true|].
  rewrite !bool_decide_false; [done|done|]. intros E. by apply Hne, hdr_bytes_inj.
Qed.

Lemma try_success hdr szPage changed h1 h2 r : walIndexTryHdr hdr szPage changed h1 h2 = Some r -> th_rc r = 0 -> h1 = h2.
Proof. unfold walIndexTryHdr. case_bool_decide; [done|]. cbn. intros. by simplify_eq. Qed.
End Host.

(** ** Interleavings

    The shared memory and the two copies of the reader.  A [memcpy] moves its
    bytes in any order and may move a byte more than once; it is over when all
    have been moved.  The barrier of the writer lies between its copies, that
    of the reader between its own. *)
Record race : Type := MkRace {
  m_hdr0 : list Z;
  m_hdr1 : list Z;
  w_done : gset nat;
  w_second : bool;
  r_h1 : list Z;
  r_h2 : list Z;
  r_done : gset nat;
  r_second : bool
}.

Definition all_bytes : gset nat := set_seq 0 NHDR.

(** One step, of the writer of [new] or of the reader. *)
Inductive race_step (new : list Z) : race -> race -> Prop :=
  | step_write1 i v s : new !! i = Some v -> w_second s = false ->
      race_step new s (MkRace (m_hdr0 s) (<[i := v]> (m_hdr1 s)) ({[i]} ∪ w_done s) false
                         (r_h1 s) (r_h2 s) (r_done s) (r_second s))
  | step_write_barrier s : w_second s = false -> all_bytes ⊆ w_done s ->
      race_step new s (MkRace (m_hdr0 s) (m_hdr1 s) ∅ true (r_h1 s) (r_h2 s) (r_done s) (r_second s))
  | step_write0 i v s : new !! i = Some v -> w_second s = true ->
      race_step new s (MkRace (<[i := v]> (m_hdr0 s)) (m_hdr1 s) ({[i]} ∪ w_done s) true
                         (r_h1 s) (r_h2 s) (r_done s) (r_second s))
  | step_read0 i v s : m_hdr0 s !! i = Some v -> r_second s = false ->
      race_step new s (MkRace (m_hdr0 s) (m_hdr1 s) (w_done s) (w_second s)
                         (<[i := v]> (r_h1 s)) (r_h2 s) ({[i]} ∪ r_done s) false)
  | step_read_barrier s : r_second s = false -> all_bytes ⊆ r_done s ->
      race_step new s (MkRace (m_hdr0 s) (m_hdr1 s) (w_done s) (w_second s) (r_h1 s) (r_h2 s) ∅ true)
  | step_read1 i v s : m_hdr1 s !! i = Some v -> r_second s = true ->
      race_step new s (MkRace (m_hdr0 s) (m_hdr1 s) (w_done s) (w_second s)
                         (r_h1 s) (<[i := v]> (r_h2 s)) ({[i]} ∪ r_done s) true).

(** Both copies hold [old]; the buffers of the reader hold anything. *)
Definition race_start (old g1 g2 : list Z) : race := MkRace old old ∅ false g1 g2 ∅ false.

Definition read_over (s : race) : Prop := r_second s = true /\ all_bytes ⊆ r_done s.

Section Race.
Context (old new g1 g2 : list Z).
Context (Hold : length old = NHDR) (Hnew : length new = NHDR) (Hg1 : length g1 = NHDR) (Hg2 : length g2 = NHDR).

(** [l] agrees with [h] on the bytes [D]. *)
Definition agree (D : gset nat) (l h : list Z) : Prop := forall i, i ∈ D -> l !! i = h !! i.

Lemma agree_all D l h : length l = NHDR -> length h = NHDR -> all_bytes ⊆ D -> agree D l h -> l = h.
Proof.
  intros Hl Hh HD Ha. apply list_eq_same_length with NHDR; [done..|]. intros i x y Hi Hx Hy.
  rewrite Ha in Hx; [congruence|]. apply HD. apply elem_of_set_seq. lia.
Qed.

Lemma agree_insert D l h i v : length l = NHDR -> h !! i = Some v -> length h = NHDR ->
  agree D l h -> agree ({[i]} ∪ D) (<[i := v]> l) h.
Proof.
  intros Hl Hv Hh Ha j Hj. apply lookup_lt_Some in Hv as Hlt. destruct (decide (i = j)) as [->|Hne].
  - rewrite list_lookup_insert_eq by lia. done.
  - rewrite list_lookup_insert_ne by done. apply Ha. set_solver.
Qed.

Record race_inv (s : race) : Prop := {
  inv_len : length (m_hdr0 s) = NHDR /\ length (m_hdr1 s) = NHDR /\ length (r_h1 s) = NHDR /\ length (r_h2 s) = NHDR;
  inv_writer : if w_second s then m_hdr1 s = new else m_hdr0 s = old /\ agree (w_done s) (m_hdr1 s) new;
  inv_reader : agree (if r_second s then all_bytes else r_done s) (r_h1 s) old
               \/ w_second s = true /\ (r_second s = true -> agree (r_done s) (r_h2 s) new)
}.

Lemma race_inv_step s s' : race_step new s s' -> race_inv s -> race_inv s'.
Proof.
  intros Hs [(H0 & H1 & H2 & H3) Hw Hr]. destruct Hs as [i v s Hv E|s E Hd|i v s Hv E|i v s Hv E|s E Hd|i v s Hv E];
    rewrite E in *; split; cbn in *; rewrite ?length_insert; try done.
  - destruct Hw. split; [done|]. by apply agree_insert.
  - destruct Hw. by apply (agree_all (w_done s)).
  - destruct Hr as [Hr|[_ Hr]]; [by left|by right].
  - destruct (w_second s); [by right|]. left. destruct Hw as [Hm _]. rewrite Hm in Hv.
    destruct Hr as [Hr|[? _]]; [|done]. by apply agree_insert.
  - destruct Hr as [Hr|[? _]]; [left; intros i Hi; by apply Hr, Hd|right; split; [done|]].
    intros _ i Hi. set_solver.
  - destruct Hr as [Hr|[Hws Hr]]; [by left|right]. split; [done|]. intros _. rewrite Hws in Hw.
    rewrite Hw in Hv. by apply agree_insert; [..|apply Hr].
Qed.

Lemma race_inv_reach s : rtc (race_step new) (race_start old g1 g2) s -> race_inv s.
Proof.
  intros H. assert (race_inv (race_start old g1 g2)) as Hi.
  { split; cbn; [done|split; [done|]|left]; intros i ?; set_solver. }
  induction H as [|s s1 s2 Hs _ IH]; [done|]. apply IH. by eapply race_inv_step.
Qed.

(** The two reads agree only on the old bytes or on the new ones. *)
Lemma race_read s : rtc (race_step new) (race_start old g1 g2) s -> read_over s ->
  r_h1 s = r_h2 s -> r_h1 s = old \/ r_h1 s = new.
Proof.
  intros H%race_inv_reach [Hs Hd] E. destruct H as [(_ & _ & H2 & H3) _ Hr]. rewrite Hs in Hr.
  destruct Hr as [Hr|[_ Hr]].
  - left. by apply (agree_all all_bytes).
  - right. rewrite E. apply (agree_all (r_done s)); [done..|]. by apply Hr.
Qed.
End Race.

(** ** Executable schedules *)

Inductive action : Type := AWrite (i : nat) | AWriteBarrier | ARead (i : nat) | AReadBarrier.

Definition race_act (new : list Z) (s : race) (a : action) : option race :=
  match a with
  | AWrite i =>
      v ← new !! i;
      Some (if w_second s
            then MkRace (<[i := v]> (m_hdr0 s)) (m_hdr1 s) ({[i]} ∪ w_done s) true
                   (r_h1 s) (r_h2 s) (r_done s) (r_second s)
            else MkRace (m_hdr0 s) (<[i := v]> (m_hdr1 s)) ({[i]} ∪ w_done s) false
                   (r_h1 s) (r_h2 s) (r_done s) (r_second s))
  | AWriteBarrier =>
      if w_second s || negb (bool_decide (all_bytes ⊆ w_done s)) then None
      else Some (MkRace (m_hdr0 s) (m_hdr1 s) ∅ true (r_h1 s) (r_h2 s) (r_done s) (r_second s))
  | ARead i =>
      v ← (if r_second s then m_hdr1 s else m_hdr0 s) !! i;
      Some (if r_second s
            then MkRace (m_hdr0 s) (m_hdr1 s) (w_done s) (w_second s)
                   (r_h1 s) (<[i := v]> (r_h2 s)) ({[i]} ∪ r_done s) true
            else MkRace (m_hdr0 s) (m_hdr1 s) (w_done s) (w_second s)
                   (<[i := v]> (r_h1 s)) (r_h2 s) ({[i]} ∪ r_done s) false)
  | AReadBarrier =>
      if r_second s || negb (bool_decide (all_bytes ⊆ r_done s)) then None
      else Some (MkRace (m_hdr0 s) (m_hdr1 s) (w_done s) (w_second s) (r_h1 s) (r_h2 s) ∅ true)
  end.

Fixpoint race_run (new : list Z) (s : race) (l : list action) : option race :=
  match l with
  | [] => Some s
  | a :: l => s ← race_act new s a; race_run new s l
  end.

Lemma race_act_step new s a s' : race_act new s a = Some s' -> race_step new s s'.
Proof.
  destruct a as [i| |i|]; cbn [race_act]; intros H.
  - destruct (new !! i) as [v|] eqn:E; cbn in H; [|done].
    destruct (w_second s) eqn:Es; simplify_eq; by econstructor.
  - destruct (w_second s) eqn:Es; [done|]. case_bool_decide; cbn [negb orb] in H; simplify_eq. by constructor.
  - destruct (r_second s) eqn:Es; destruct (_ !! i) as [v|] eqn:E; cbn in H; simplify_eq; by econstructor.
  - destruct (r_second s) eqn:Es; [done|]. case_bool_decide; cbn [negb orb] in H; simplify_eq. by constructor.
Qed.

Lemma race_run_steps new l : forall s s', race_run new s l = Some s' -> rtc (race_step new) s s'.
Proof.
  induction l as [|a l IH]; intros s s' H; cbn in H; [by simplify_eq|].
  destruct (race_act new s a) as [s1|] eqn:E; cbn in H; [|done].
  eapply rtc_l; [by eapply race_act_step|]. by apply IH.
Qed.

(** ** Properties *)

(** C23. One connection reads the header without a lock while another publishes
    a new one, the bytes of both moving in any order that respects the two
    barriers.  Whatever the interleaving, the read either fails and leaves the
    private header alone, or yields the header that was there before or the new
    one, whole: never a mixture. *)
Theorem walIndexTryHdr_not_torn host_big old0 old new0 new hdr szPage changed g1 g2 s :
  hdr_wf old0 -> walIndexWriteHdr host_big old0 = Some old ->
  hdr_wf new0 -> walIndexWriteHdr host_big new0 = Some new ->
  hdr_wf hdr -> length g1 = NHDR -> length g2 = NHDR ->
  rtc (race_step (hdr_bytes host_big new)) (race_start (hdr_bytes host_big old) g1 g2) s -> read_over s ->
  exists r, walIndexTryHdr host_big hdr szPage changed (r_h1 s) (r_h2 s) = Some r
    /\ (th_rc r = 1 /\ th_hdr r = hdr \/ th_rc r = 0 /\ (th_hdr r = old \/ th_hdr r = new)).
Proof.
  intros Ho Eo Hn En Hh Hg1 Hg2 Hs Hover.
  destruct (write_publishes host_big _ Ho) as (? & ? & Po & _), (write_publishes host_big _ Hn) as (? & ? & Pn & _).
  simplify_eq. destruct (decide (r_h1 s = r_h2 s)) as [E|E].
  - destruct (race_read (hdr_bytes host_big old) (hdr_bytes host_big new) g1 g2) with s as [E'|E'];
      try done; try (apply hdr_bytes_length, pub_wf with host_big; done);
      rewrite <- E, E', try_published by done; case_bool_decide; subst; eauto 10.
  - unfold walIndexTryHdr. rewrite bool_decide_false by done. cbn. eauto 10.
Qed.

Definition old_hdr : WalIndexHdr := MkHdr 0 0 7 0 false 4096 5 9 (11, 12) [1; 2; 3; 4; 5; 6; 7; 8] (0, 0).
Definition new_hdr : WalIndexHdr := MkHdr 0 0 8 0 false 4096 6 10 (13, 14) [1; 2; 3; 4; 5; 6; 7; 8] (0, 0).

(** The writer overtakes the reader in the middle of the first copy. *)
Definition overtaking : list action :=
  map ARead (seq 0 20) ++ map AWrite (seq 0 48) ++ [AWriteBarrier] ++ map AWrite (seq 0 48)
  ++ map ARead (seq 20 28) ++ [AReadBarrier] ++ map ARead (seq 0 48).

Lemma hdr_wf_sample h : h = old_hdr \/ h = new_hdr -> hdr_wf h.
Proof.
  intros [-> | ->]; split; unfold is_u32, is_u16, is_u8, is_u32_pair, is_u32; cbn; try lia;
    (split; [done|]); apply (bool_decide_unpack _); vm_compute; done.
Qed.

Definition old_written : WalIndexHdr := Eval vm_compute in default zero_hdr (walIndexWriteHdr false old_hdr).
Definition new_written : WalIndexHdr := Eval vm_compute in default zero_hdr (walIndexWriteHdr false new_hdr).
Definition overtaken : race :=
  Eval vm_compute in
    let s := race_start (hdr_bytes false old_written) (replicate 48 0) (replicate 48 0) in
    default s (race_run (hdr_bytes false new_written) s overtaking).

Lemma old_written_ok : walIndexWriteHdr false old_hdr = Some old_written.
Proof. vm_compute. reflexivity. Qed.

Lemma new_written_ok : walIndexWriteHdr false new_hdr = Some new_written.
Proof. vm_compute. reflexivity. Qed.

Lemma hdr_published h h' : h = old_hdr \/ h = new_hdr -> walIndexWriteHdr false h = Some h' -> published false h'.
Proof. intros H E. destruct (write_publishes false h (hdr_wf_sample _ H)) as (? & ? & ? & _). by simplify_eq. Qed.

Lemma walIndexTryHdr_not_torn_witness : exists r,
  walIndexTryHdr false old_written 4096 false (r_h1 overtaken) (r_h2 overtaken) = Some r
  /\ (th_rc r = 1 /\ th_hdr r = old_written \/ th_rc r = 0 /\ (th_hdr r = old_written \/ th_hdr r = new_written)).
Proof.
  apply (walIndexTryHdr_not_torn false old_hdr old_written new_hdr new_written old_written 4096 false
           (replicate 48 0) (replicate 48 0) overtaken
           (hdr_wf_sample _ (or_introl eq_refl)) old_written_ok (hdr_wf_sample _ (or_intror eq_refl)) new_written_ok
           (pub_wf _ _ (hdr_published _ _ (or_introl eq_refl) old_written_ok)) eq_refl eq_refl).
  - apply (race_run_steps _ overtaking). vm_compute. reflexivity.
  - split; [reflexivity|]. apply (bool_decide_unpack _). vm_compute. exact I.
Defined.

(** A header that was written is read back exactly, and reported as
    changed when it differs from the private one.  If the writer stops between
    its two copies the header is refused. *)
Theorem walIndexWriteHdr_read host_big old h0 h hdr szPage changed :
  published host_big old -> hdr_wf h0 -> walIndexWriteHdr host_big h0 = Some h -> hdr_wf hdr ->
  same_log h0 h
  /\ walIndexTryHdr host_big hdr szPage changed (hdr_bytes host_big h) (hdr_bytes host_big h)
     = Some (if bool_decide (hdr = h) then MkTry 0 changed hdr szPage
             else MkTry 0 true h (hdr_pagesize (hdr_szPage h)))
  /\ (h <> old -> walIndexTryHdr host_big hdr szPage changed (hdr_bytes host_big old) (hdr_bytes host_big h)
                  = Some (MkTry 1 changed hdr szPage)).
Proof.
  intros Po H0 E Hh. destruct (write_publishes host_big _ H0) as (? & ? & Pn & Hsame). simplify_eq.
  split; [done|]. split; [by apply try_published|]. intros Hne. unfold walIndexTryHdr.
  rewrite bool_decide_false; [done|]. intros Eb. apply Hne. symmetry.
  by apply (hdr_bytes_inj host_big); [apply Po|apply Pn|].
Qed.

Lemma walIndexWriteHdr_read_witness :
  walIndexTryHdr false old_written 4096 false (hdr_bytes false new_written) (hdr_bytes false new_written)
  = Some (MkTry 0 true new_written 4096)
  /\ walIndexTryHdr false old_written 4096 false (hdr_bytes false old_written) (hdr_bytes false new_written)
     = Some (MkTry 1 false old_written 4096).
Proof.
  pose proof (hdr_published _ _ (or_introl eq_refl) old_written_ok) as Po.
  destruct (walIndexWriteHdr_read false old_written new_hdr new_written old_written 4096 false Po
              (hdr_wf_sample _ (or_intror eq_refl)) new_written_ok (pub_wf _ _ Po)) as (_ & Hr & Hd).
  split; [exact Hr|]. apply Hd. discriminate.
Defined.
