(* ===== verification/WalCkpt.v ===== *)
(** * Write-ahead log: checkpoint ([src/wal.c])

    [walBusyLock], [walRestartHdr] and [walCheckpoint].  What the environment
    decides is given beforehand: the results of the lock attempts, the outcomes
    of the file operations and allocations, the interrupt flag at each round of
    the copy loop and the results of the page callback.  The shared header is
    that seen by the check at the end of the copy; another connection may have
    appended to the log since this one read its own copy of the header. *)
From S2P Require Import Prelude Bytes FileIO WalBase WalFrame WalIndex WalIter WalHdr.

Definition SQLITE_CHECKPOINT_PASSIVE : Z := 0.
Definition SQLITE_CHECKPOINT_FULL : Z := 1.
Definition SQLITE_CHECKPOINT_RESTART : Z := 2.
Definition SQLITE_CHECKPOINT_TRUNCATE : Z := 3.

(** The result of the first attempt at a lock and those of the attempts that
    follow as long as the busy handler asks for another. *)
Definition attempts : Type := Z * list Z.

(** [do rc = walLockExclusive(...) while( xBusy && rc==SQLITE_BUSY && xBusy(pBusyArg) )] *)
Fixpoint busy_loop (xBusy : bool) (rc : Z) (again : list Z) : Z :=
  match again with
  | [] => rc
  | rc' :: again => if xBusy && (rc =? SQLITE_BUSY) then busy_loop xBusy rc' again else rc
  end.

Definition walBusyLock (xBusy : bool) (a : attempts) : Z := busy_loop xBusy (fst a) (snd a).

(** A call of the checkpoint callback: the safe frame, and page data, page and
    frame number; no page at the end of the checkpoint. *)
Record cb_call : Type := MkCall {
  cb_mxSafeFrame : Z;
  cb_page : option (list Z * Z * Z)
}.

Record CkptEnv : Type := MkEnv {
  e_mode : Z;
  e_xBusy : bool;
  e_locks : Z -> Z -> attempts;  (** by first byte and number of bytes *)
  e_salt1 : list Z;              (** [sqlite3_randomness(4, &salt1)] *)
  e_only_full : option Z         (** the shared [mxFrame], under [SQLANYWHERE_CHECKPOINT_ONLY_FULL] *)
}.

Record Ckpt : Type := MkCk {
  ck_io : list io_res;
  ck_intr : list (bool * bool);  (** [isInterrupted] and [mallocFailed] at each round *)
  ck_cb : option (list Z);       (** results of [xCb]; [None] when it is null *)
  ck_calls : list cb_call;
  ck_db : file;
  ck_wal : file;
  ck_info : WalCkptInfo;
  ck_hdr : WalIndexHdr;          (** [pWal->hdr] *)
  ck_shm : WalIndexHdr;          (** [*walIndexHdr(pWal)] *)
  ck_nCkpt : Z
}.

Definition ck_set_io (io : list io_res) (s : Ckpt) : Ckpt :=
  MkCk io (ck_intr s) (ck_cb s) (ck_calls s) (ck_db s) (ck_wal s) (ck_info s) (ck_hdr s) (ck_shm s) (ck_nCkpt s).
Definition ck_set_db (io : list io_res) (db : file) (s : Ckpt) : Ckpt :=
  MkCk io (ck_intr s) (ck_cb s) (ck_calls s) db (ck_wal s) (ck_info s) (ck_hdr s) (ck_shm s) (ck_nCkpt s).
Definition ck_set_wal (io : list io_res) (wal : file) (s : Ckpt) : Ckpt :=
  MkCk io (ck_intr s) (ck_cb s) (ck_calls s) (ck_db s) wal (ck_info s) (ck_hdr s) (ck_shm s) (ck_nCkpt s).
Definition ck_set_info (i : WalCkptInfo) (s : Ckpt) : Ckpt :=
  MkCk (ck_io s) (ck_intr s) (ck_cb s) (ck_calls s) (ck_db s) (ck_wal s) i (ck_hdr s) (ck_shm s) (ck_nCkpt s).

(** [db->u1.isInterrupted] and [db->mallocFailed] *)
Definition ck_interrupted (s : Ckpt) : bool * bool * Ckpt :=
  match ck_intr s with
  | [] => (false, false, s)
  | (b, m) :: l =>
      (b, m, MkCk (ck_io s) l (ck_cb s) (ck_calls s) (ck_db s) (ck_wal s) (ck_info s) (ck_hdr s) (ck_shm s) (ck_nCkpt s))
  end.

(** [if( xCb ) rc = xCb(...)] *)
Definition ck_callback (c : cb_call) (s : Ckpt) : Z * Ckpt :=
  match ck_cb s with
  | None => (SQLITE_OK, s)
  | Some l =>
      (default SQLITE_OK (head l),
       MkCk (ck_io s) (ck_intr s) (Some (tail l)) (ck_calls s ++ [c]) (ck_db s) (ck_wal s) (ck_info s)
         (ck_hdr s) (ck_shm s) (ck_nCkpt s))
  end.

Section Host.
Context (bo : byteorder) (host_big : bool) (shmMap : Z -> Z).

(** [for(i=1; i<WAL_NREADER; i++)], with the indices left.  The first component
    of the result is true after [goto walcheckpoint_out]. *)
Fixpoint mark_loop (locks : Z -> Z -> attempts) (xBusy : bool) (rc mxSafeFrame : Z) (marks : list Z)
    (ix : list Z) : option (bool * bool * Z * Z * list Z) :=
  match ix with
  | [] => Some (false, xBusy, rc, mxSafeFrame, marks)
  | i :: ix =>
      y ← aget marks i;
      if mxSafeFrame >? y then
        let rc := walBusyLock xBusy (locks (WAL_READ_LOCK i) 1) in
        if rc =? SQLITE_OK then
          marks ← aset marks i (if i =? 1 then mxSafeFrame else READMARK_NOT_USED);
          mark_loop locks xBusy rc mxSafeFrame marks ix
        else if rc =? SQLITE_BUSY then mark_loop locks false rc y marks ix
        else Some (true, xBusy, rc, mxSafeFrame, marks)
      else mark_loop locks xBusy rc mxSafeFrame marks ix
  end.

(** [while( rc==SQLITE_OK && 0==walIteratorRevNext(...) )] *)
Fixpoint copy_loop (fuel : nat) (szPage nBackfill mxSafeFrame mxPage : Z) (it : WalIteratorRev) (s : Ckpt)
    : option (Z * Ckpt) :=
  match fuel with
  | O => None
  | S fuel =>
      '(it, r) ← walIteratorRevNext it;
      match r with
      | None => Some (SQLITE_OK, s)
      | Some (iDbpage, iFrame) =>
          let '(interrupted, mallocFailed, s) := ck_interrupted s in
          if interrupted then Some (if mallocFailed then SQLITE_NOMEM else SQLITE_INTERRUPT, s)
          else if (iFrame <=? nBackfill) || (iFrame >? mxSafeFrame) || (iDbpage >? mxPage)
          then copy_loop fuel szPage nBackfill mxSafeFrame mxPage it s
          else
            let '(rc, zBuf, io) := os_read (ck_io s) (ck_wal s) (walFrameOffset iFrame szPage + WAL_FRAME_HDRSIZE) szPage in
            let s := ck_set_io io s in
            if negb (rc =? SQLITE_OK) then Some (rc, s)
            else
              let '(rc, db, io) := os_write (ck_io s) (ck_db s) ((iDbpage - 1) * szPage) zBuf in
              let s := ck_set_db io db s in
              if negb (rc =? SQLITE_OK) then Some (rc, s)
              else
                let '(rc, s) := ck_callback (MkCall mxSafeFrame (Some (zBuf, iDbpage, iFrame))) s in
                if negb (rc =? SQLITE_OK) then Some (rc, s)
                else copy_loop fuel szPage nBackfill mxSafeFrame mxPage it s
      end
  end.

(** The size of the database file against what the log can make of it. *)
Definition size_check (szPage mxPage : Z) (s : Ckpt) : Z * Ckpt :=
  let nReq := mxPage * szPage in
  let '(rc, nSize, io) := os_filesize (ck_io s) (ck_db s) in
  (if (rc =? SQLITE_OK) && (nSize <? nReq) && (nSize + 65536 + mxFrame (ck_hdr s) * szPage <? nReq)
   then SQLITE_CORRUPT else rc, ck_set_io io s).

(** The end of a copy: truncation and sync of the database when the whole log
    is in it, and the new back-fill mark. *)
Definition finish_copy (szPage mxSafeFrame : Z) (s : Ckpt) : Z * Ckpt :=
  let '(rc, s) :=
    if mxSafeFrame =? mxFrame (ck_shm s) then
      let '(rc, s) := ck_callback (MkCall mxSafeFrame None) s in
      let '(rc, s) :=
        if rc =? SQLITE_OK then
          let '(rc, db, io) := os_truncate (ck_io s) (ck_db s) (nPage (ck_hdr s) * szPage) in
          (rc, ck_set_db io db s)
        else (rc, s) in
      if rc =? SQLITE_OK then let '(rc, io) := os_sync (ck_io s) in (rc, ck_set_io io s) else (rc, s)
    else (SQLITE_OK, s) in
  if rc =? SQLITE_OK
  then (rc, ck_set_info (MkCkpt mxSafeFrame (aReadMark (ck_info s)) (nBackfillAttempted (ck_info s))) s)
  else (rc, s).

(** What runs under the exclusive lock of the first read mark. *)
Definition backfill (szPage mxSafeFrame mxPage : Z) (it : WalIteratorRev) (s : Ckpt) : option (Z * Ckpt) :=
  let nB := nBackfill (ck_info s) in
  let s := ck_set_info (MkCkpt nB (aReadMark (ck_info s)) mxSafeFrame) s in
  let '(rc, io) := os_sync (ck_io s) in
  let s := ck_set_io io s in
  let '(rc, s) := if rc =? SQLITE_OK then size_check szPage mxPage s else (rc, s) in
  '(rc, s) ← if rc =? SQLITE_OK
             then copy_loop (S (Z.to_nat (current it))) szPage nB mxSafeFrame mxPage it s
             else Some (rc, s);
  Some (if rc =? SQLITE_OK then finish_copy szPage mxSafeFrame s else (rc, s)).

Definition walRestartHdr (salt1 : list Z) (s : Ckpt) : option Ckpt :=
  let h := ck_hdr s in
  v ← sqlite3Get4byte bo (take 4 (aSalt h));
  let h := set_aSalt (sqlite3Put4byte bo (u32 (1 + v)) ++ salt1) (set_mxFrame 0 h) in
  h ← walIndexWriteHdr host_big h;
  marks ← aset (aReadMark (ck_info s)) 1 0;
  let marks := take 2 marks ++ replicate (length marks - 2) READMARK_NOT_USED in
  Some (MkCk (ck_io s) (ck_intr s) (ck_cb s) (ck_calls s) (ck_db s) (ck_wal s) (MkCkpt 0 marks 0) h h
          (u32 (ck_nCkpt s + 1))).

(** The copy, when there are frames to back-fill.  The first component of the
    result is true after [goto walcheckpoint_out]. *)
Definition ckpt_copy (e : CkptEnv) (w : WiData) (minFrame : Z) (al : alloc) (s : Ckpt)
    : option (bool * bool * Z * Ckpt) :=
  let szPage := hdr_pagesize (hdr_szPage (ck_hdr s)) in
  '(out, xBusy, rc, mxSafeFrame, marks) ←
    mark_loop (e_locks e) (e_xBusy e) SQLITE_OK (mxFrame (ck_hdr s)) (aReadMark (ck_info s)) [1; 2; 3; 4];
  let s := ck_set_info (MkCkpt (nBackfill (ck_info s)) marks (nBackfillAttempted (ck_info s))) s in
  if (out : bool) then Some (true, xBusy, rc, s) else
  if match e_only_full e with Some mx => negb (mxSafeFrame =? mx) | None => false end
  then Some (true, xBusy, SQLITE_BUSY, s) else
  '(rc, it) ←
    (if nBackfill (ck_info s) <? mxSafeFrame then
       '(rc, it, _) ← walIteratorRevInit shmMap w false (mxFrame (ck_hdr s)) minFrame (nBackfill (ck_info s))
                        mxSafeFrame (bool_decide (ck_cb s = None)) al;
       Some (rc, it)
     else Some (rc, None) : option (Z * option WalIteratorRev));
  '(rc, s) ←
    (match it with
    | None => Some (rc, s)
    | Some it =>
        let rc := walBusyLock xBusy (e_locks e (WAL_READ_LOCK 0) 1) in
        if rc =? SQLITE_OK then backfill szPage mxSafeFrame (nPage (ck_hdr s)) it s else Some (rc, s)
    end : option (Z * Ckpt));
  Some (false, xBusy, if rc =? SQLITE_BUSY then SQLITE_OK else rc, s).

(** After the copy: the modes that wait for the readers and reset the log. *)
Definition ckpt_restart (e : CkptEnv) (xBusy : bool) (s : Ckpt) : option (Z * Ckpt) :=
  if nBackfill (ck_info s) <? mxFrame (ck_hdr s) then Some (SQLITE_BUSY, s)
  else if SQLITE_CHECKPOINT_RESTART <=? e_mode e then
    let rc := walBusyLock xBusy (e_locks e (WAL_READ_LOCK 1) (WAL_NREADER - 1)) in
    if (rc =? SQLITE_OK) && (e_mode e =? SQLITE_CHECKPOINT_TRUNCATE) then
      s ← walRestartHdr (e_salt1 e) s;
      let '(rc, wal, io) := os_truncate (ck_io s) (ck_wal s) 0 in
      Some (rc, ck_set_wal io wal s)
    else Some (rc, s)
  else Some (SQLITE_OK, s).

Definition walCheckpoint (e : CkptEnv) (w : WiData) (minFrame : Z) (al : alloc) (s : Ckpt) : option (Z * Ckpt) :=
  '(out, xBusy, rc, s) ←
    (if nBackfill (ck_info s) <? mxFrame (ck_hdr s) then ckpt_copy e w minFrame al s
     else Some (false, e_xBusy e, SQLITE_OK, s));
  if (out : bool) then Some (rc, s)
  else if (rc =? SQLITE_OK) && negb (e_mode e =? SQLITE_CHECKPOINT_PASSIVE) then ckpt_restart e xBusy s
  else Some (rc, s).
End Host.

(** ** What readers see *)

Definition frame_data (wal : file) (szPage f : Z) : list Z :=
  fread wal (walFrameOffset f szPage + WAL_FRAME_HDRSIZE) szPage.

Definition page_data (db : file) (szPage p : Z) : list Z := fread db ((p - 1) * szPage) szPage.

(** Page [p] for a reader of the frames [minFrame..mx] of a log with the pages
    [ps]. *)
Definition view (ps : list Z) (szPage : Z) (wal db : file) (minFrame mx p : Z) : list Z :=
  let f := latest_frame (Z.to_nat mx) ps minFrame p in
  if f =? 0 then page_data db szPage p else frame_data wal szPage f.

(** ** File operations *)

Lemma os_write_other io db off d rc db' io' off' n : os_write io db off d = (rc, db', io') ->
  0 <= off -> 0 <= off' -> off' + n <= off \/ off + alen d <= off' -> fread db' off' n = fread db off' n.
Proof.
  unfold os_write. destruct (io_next io) as [[|rc' junk] io1]; intros E Ho Ho' Hd; simplify_eq.
  - by apply fread_write_other.
  - apply fread_write_other; try done. unfold alen in *. rewrite length_take. lia.
Qed.

Lemma os_write_same io db off d db' io' : io_ok io -> os_write io db off d = (SQLITE_OK, db', io') ->
  0 <= off -> fread db' off (alen d) = d.
Proof.
  unfold os_write. destruct (io_next io) as [r io1] eqn:En. intros Hio E Ho.
  destruct (io_next_ok _ _ _ Hio En) as [_ Hr]. destruct r; simplify_eq. by apply fread_write_same.
Qed.

Lemma os_write_io io db off d rc db' io' : io_ok io -> os_write io db off d = (rc, db', io') -> io_ok io'.
Proof.
  unfold os_write. destruct (io_next io) as [r io1] eqn:En. intros Hio E.
  destruct (io_next_ok _ _ _ Hio En) as [H _]. destruct r; by simplify_eq.
Qed.

Lemma os_read_io io f off n rc d io' : io_ok io -> os_read io f off n = (rc, d, io') -> io_ok io'.
Proof.
  unfold os_read. destruct (io_next io) as [r io1] eqn:En. intros Hio E.
  destruct (io_next_ok _ _ _ Hio En) as [H _]. destruct r; by simplify_eq.
Qed.

Lemma os_read_data io f off n d io' : io_ok io -> os_read io f off n = (SQLITE_OK, d, io') -> d = fread f off n.
Proof.
  unfold os_read. destruct (io_next io) as [r io1] eqn:En. intros Hio E.
  destruct (io_next_ok _ _ _ Hio En) as [_ Hr]. destruct r; by simplify_eq.
Qed.

Lemma pages_disjoint szPage p q : 0 < szPage -> 1 <= p -> 1 <= q -> p <> q ->
  (p - 1) * szPage + szPage <= (q - 1) * szPage \/ (q - 1) * szPage + szPage <= (p - 1) * szPage.
Proof. intros. destruct (decide (p < q)); [left|right]; nia. Qed.

(** ** The reverse iterator *)

Lemma rev_skip_spec F : forall fuel c, 0 <= c < alen F -> c < Z.of_nat fuel ->
  exists c', rev_skip fuel (MkRev c F) = Some (MkRev c' F) /\ 0 <= c' <= c
    /\ (forall y, c' < y <= c -> aget F y = Some 0) /\ (c' = 0 \/ exists v, aget F c' = Some v /\ v <> 0).
Proof.
  induction fuel as [|fuel IH]; intros c Hc Hf; [lia|]. cbn [rev_skip current frames].
  destruct (Z.gtb_spec c 0) as [H|H].
  - destruct (aget_is_Some F c ltac:(lia)) as [v Hv]. rewrite Hv. cbn [mbind option_bind].
    destruct (Z.eqb_spec v 0) as [->|Hne].
    + destruct (IH (c - 1) ltac:(lia) ltac:(lia)) as (c' & -> & Hc' & Hz & He). exists c'. split_and!; try done; try lia.
      intros y Hy. destruct (decide (y = c)) as [->|]; [done|apply Hz; lia].
    + exists c. split_and!; try done; try lia. right. eauto.
  - exists c. split_and!; try done; lia.
Qed.

Lemma rev_next_spec F c : 0 <= c < alen F ->
  exists it r, walIteratorRevNext (MkRev c F) = Some (it, r) /\ frames it = F /\ 0 <= current it <= c
    /\ match r with
       | None => forall y, 0 < y <= c -> aget F y = Some 0
       | Some (v, x) => 0 < x <= c /\ current it = x - 1 /\ aget F x = Some v /\ v <> 0
                        /\ forall y, x < y <= c -> aget F y = Some 0
       end.
Proof.
  intros Hc. unfold walIteratorRevNext. cbn [current].
  destruct (rev_skip_spec F (S (Z.to_nat c)) c Hc ltac:(lia)) as (c' & -> & Hc' & Hz & He).
  cbn [mbind option_bind current frames]. destruct (Z.eqb_spec c' 0) as [->|Hne].
  - exists (MkRev 0 F), None. cbn [current frames]. split_and!; try done; lia.
  - destruct He as [?|(v & Hv & Hv0)]; [done|]. rewrite Hv. cbn [mbind option_bind].
    exists (MkRev (c' - 1) F), (Some (v, c')). cbn [current frames]. split_and!; try done; lia.
Qed.

(** ** The copy loop *)

(** What the copy leaves alone. *)
Definition ck_same (s s' : Ckpt) : Prop :=
  ck_wal s' = ck_wal s /\ ck_info s' = ck_info s /\ ck_hdr s' = ck_hdr s /\ ck_shm s' = ck_shm s /\ ck_nCkpt s' = ck_nCkpt s.

#[export] Instance ck_same_preorder : PreOrder ck_same.
Proof. split; [done|]. intros s1 s2 s3 (?&?&?&?&?) (?&?&?&?&?). repeat split; congruence. Qed.

Lemma ck_interrupted_same s b m s' : ck_interrupted s = (b, m, s') ->
  ck_same s s' /\ ck_io s' = ck_io s /\ ck_db s' = ck_db s.
Proof. unfold ck_interrupted. destruct (ck_intr s) as [|[b' m'] l]; intros; by simplify_eq. Qed.

Lemma ck_callback_same c s rc s' : ck_callback c s = (rc, s') -> ck_same s s' /\ ck_io s' = ck_io s /\ ck_db s' = ck_db s.
Proof. unfold ck_callback. destruct (ck_cb s); intros; by simplify_eq. Qed.

Section Copy.
Context (szPage nB mxSafe mxPage : Z) (F : list Z) (Hsz : 0 < szPage).
Context (Hpos : forall x v, aget F x = Some v -> 0 <= v).
Context (Huniq : forall x y v, aget F x = Some v -> aget F y = Some v -> v <> 0 -> x = y).

(** Page [p] is to be copied from frame [x], up to [c]. *)
Definition to_copy (c x p : Z) : Prop :=
  0 < x <= c /\ nB < x <= mxSafe /\ aget F x = Some p /\ 1 <= p <= mxPage.

(** The outcome [rc], [s'] of copying the frames up to [c] from [s]. *)
Definition copied (c : Z) (s : Ckpt) (rc : Z) (s' : Ckpt) : Prop :=
  ck_same s s' /\ io_ok (ck_io s') /\
  (forall p, 1 <= p -> (forall x, ~ to_copy c x p) -> page_data (ck_db s') szPage p = page_data (ck_db s) szPage p) /\
  (rc = SQLITE_OK -> forall x p, to_copy c x p -> page_data (ck_db s') szPage p = frame_data (ck_wal s) szPage x).

Lemma copied_none c s s' rc : ck_same s s' -> io_ok (ck_io s') -> ck_db s' = ck_db s ->
  (rc = SQLITE_OK -> forall x p, ~ to_copy c x p) -> copied c s rc s'.
Proof. intros ? ? E H. split_and!; try done; [by rewrite E|]. intros Hrc x p Hc. by apply H in Hc. Qed.

(** One page, written or half written. *)
Lemma copied_page c s s1 rc io0 d x p io : io_ok io0 -> ck_same s s1 ->
  os_write io0 (ck_db s) ((p - 1) * szPage) d = (rc, ck_db s1, io) -> ck_io s1 = io ->
  d = frame_data (ck_wal s) szPage x -> to_copy c x p ->
  (forall q, 1 <= q -> q <> p -> page_data (ck_db s1) szPage q = page_data (ck_db s) szPage q) /\
  (rc = SQLITE_OK -> page_data (ck_db s1) szPage p = frame_data (ck_wal s) szPage x) /\ io_ok (ck_io s1).
Proof.
  intros Hio Hs E Eio -> (_ & _ & _ & Hp). assert (Hl : alen (frame_data (ck_wal s) szPage x) = szPage).
  { apply alen_fread. lia. }
  split_and!.
  - intros q Hq Hne. eapply os_write_other; [done|nia..|]. rewrite Hl. apply pages_disjoint; done || lia.
  - intros ->. unfold page_data.
    pose proof (os_write_same _ _ _ _ _ _ Hio E ltac:(nia)) as H. by rewrite Hl in H.
  - subst. by eapply os_write_io.
Qed.

Lemma copied_step c x p s s1 s' rc : (forall y, x < y <= c -> aget F y = Some 0) -> to_copy c x p -> ck_same s s1 ->
  (forall q, 1 <= q -> q <> p -> page_data (ck_db s1) szPage q = page_data (ck_db s) szPage q) ->
  page_data (ck_db s1) szPage p = frame_data (ck_wal s) szPage x ->
  copied (x - 1) s1 rc s' -> copied c s rc s'.
Proof.
  intros Hz Hx Hs Hoth Hthis (Hs' & Hio & H1 & H2). pose proof Hx as (Hxc & Hxr & Ex & Hp).
  assert (Hp' : page_data (ck_db s') szPage p = page_data (ck_db s1) szPage p).
  { apply H1; [lia|]. intros y (Hy & _ & Ey & _). assert (x = y) by (apply (Huniq x y p); [done|done|lia]). lia. }
  split_and!; [by etrans|done| |].
  - intros q Hq Hno. assert (q <> p) by (intros ->; by apply (Hno x)). rewrite <- Hoth by done.
    apply H1; [done|]. intros y (Hy & ? & ? & ?). apply (Hno y). split_and!; try done; lia.
  - intros Hrc y q (Hy & Hyr & Ey & Hq). destruct (decide (y = x)) as [->|Hne].
    + assert (q = p) as -> by congruence. congruence.
    + destruct Hs as [Hw _]. rewrite <- Hw. apply H2; [done|]. split_and!; try done; try lia.
      destruct (decide (x < y)); [|lia]. rewrite Hz in Ey by lia. simplify_eq. lia.
Qed.

Lemma copied_skip c x s s1 s' rc : x <= c -> (forall y, x < y <= c -> aget F y = Some 0) ->
  (forall p, ~ to_copy c x p) -> ck_same s s1 -> ck_db s1 = ck_db s -> copied (x - 1) s1 rc s' -> copied c s rc s'.
Proof.
  intros Hxc Hz Hx Hs Edb (Hs' & Hio & H1 & H2).
  split_and!; [by etrans|done| |].
  - intros q Hq Hno. rewrite <- Edb. apply H1; [done|]. intros y (Hy & ? & ? & ?).
    apply (Hno y). split_and!; try done; lia.
  - intros Hrc y q Hc. pose proof Hc as (Hy & Hyr & Ey & Hq). destruct Hs as [Hw _]. rewrite <- Hw. apply H2; [done|].
    split_and!; try done; try lia. destruct (decide (y = x)) as [->|]; [by apply Hx in Hc|].
    destruct (decide (x < y)); [|lia]. rewrite Hz in Ey by lia. simplify_eq. lia.
Qed.

Lemma copy_loop_spec : forall fuel c s, 0 <= c < alen F -> c < Z.of_nat fuel -> io_ok (ck_io s) ->
  exists rc s', copy_loop fuel szPage nB mxSafe mxPage (MkRev c F) s = Some (rc, s') /\ copied c s rc s'.
Proof.
  induction fuel as [|fuel IH]; intros c s Hc Hf Hio; [lia|]. cbn [copy_loop].
  destruct (rev_next_spec F c Hc) as ([c' F'] & r & -> & EF & Hc' & Hr). cbn in EF, Hc'. subst F'. cbn [mbind option_bind].
  destruct r as [[v x]|].
  2:{ eexists _, _. split; [done|]. apply copied_none; try done. intros _ x p (Hx & _ & Ex & Hp).
      rewrite Hr in Ex by done. simplify_eq. lia. }
  destruct Hr as (Hx & Ec & Ex & Hv & Hz). cbn in Ec. subst c'.
  destruct (ck_interrupted s) as [[b m] s1] eqn:Ei. apply ck_interrupted_same in Ei as (Hs1 & Eio1 & Edb1).
  destruct b.
  { eexists _, _. split; [done|]. apply copied_none; try done; [by rewrite Eio1|]. by destruct m. }
  destruct (IH (x - 1)) with s1 as (rc & s2 & E2 & H2); [lia|lia|by rewrite Eio1|].
  destruct ((x <=? nB) || (x >? mxSafe) || (v >? mxPage)) eqn:Eskip.
  { rewrite E2. eexists _, _. split; [done|]. eapply (copied_skip c x); try done; [lia|].
    intros p (_ & Hr & Ep & Hp). assert (p = v) as -> by congruence.
    apply orb_true_iff in Eskip as [[?|?]%orb_true_iff|?]; lia. }
  apply orb_false_iff in Eskip as [[Ha Hb]%orb_false_iff Hd].
  assert (Ht : to_copy c x v).
  { split_and!; try done; try lia. apply Hpos in Ex. lia. }
  clear E2 H2 rc s2.
  destruct (os_read _ _ _ _) as [[rc1 d] io1] eqn:Er.
  assert (Hio1 : io_ok io1) by (eapply os_read_io; [|done]; by rewrite Eio1).
  destruct (Z.eqb_spec rc1 SQLITE_OK) as [->|Hne]; cbn [negb].
  2:{ eexists _, _. split; [done|]. by apply copied_none. }
  apply os_read_data in Er; [|by rewrite Eio1]. 
  destruct (os_write _ _ _ _) as [[rc2 db2] io2] eqn:Ew. cbn [ck_set_io ck_io ck_db] in Ew.
  destruct (copied_page c s (ck_set_db io2 db2 s1) rc2 io1 d x v io2) as (Hoth & Hthis & Hio2); try done.
  { by rewrite <- Edb1. }
  { rewrite Er. by destruct Hs1 as [-> _]. }
  destruct (Z.eqb_spec rc2 SQLITE_OK) as [->|Hne]; cbn [negb].
  2:{ eexists _, _. split; [done|]. split_and!; try done. intros p Hp Hno. apply Hoth; [done|]. intros ->. by apply (Hno x). }
  destruct (ck_callback _ _) as [rc3 s3] eqn:Ecb. apply ck_callback_same in Ecb as (Hs3 & Eio3 & Edb3).
  assert (Hs13 : ck_same s s3) by (etrans; [exact Hs1|exact Hs3]).
  destruct (Z.eqb_spec rc3 SQLITE_OK) as [->|Hne]; cbn [negb].
  2:{ eexists _, _. split; [done|]. split_and!; try done; [by rewrite Eio3|]. intros p Hp Hno. rewrite Edb3. apply Hoth; [done|]. intros ->. by apply (Hno x). }
  destruct (IH (x - 1) s3) as (rc & s4 & -> & H4); [lia|lia|by rewrite Eio3|].
  eexists _, _. split; [done|]. eapply (copied_step c x v); try done; rewrite Edb3; [done|by apply Hthis].
Qed.
End Copy.

(** ** After the copy *)

(** What the whole copy leaves alone. *)
Definition ck_frame (s s' : Ckpt) : Prop :=
  ck_wal s' = ck_wal s /\ ck_hdr s' = ck_hdr s /\ ck_shm s' = ck_shm s /\ ck_nCkpt s' = ck_nCkpt s
  /\ aReadMark (ck_info s') = aReadMark (ck_info s).

Lemma page_data_ext db db' szPage p : (forall i, (p - 1) * szPage <= i < p * szPage -> fbyte db' i = fbyte db i) ->
  page_data db' szPage p = page_data db szPage p.
Proof. intros H. apply fread_ext. intros i Hi. apply H. lia. Qed.

Lemma os_truncate_spec io f n rc f' io' : io_ok io -> os_truncate io f n = (rc, f', io') ->
  io_ok io' /\ (forall i, 0 <= i < n -> fbyte f' i = fbyte f i) /\ (rc = SQLITE_OK -> f' = ftruncate f n)
  /\ (rc <> SQLITE_OK -> f' = f).
Proof.
  unfold os_truncate. destruct (io_next io) as [r io1] eqn:En. intros Hio E.
  destruct (io_next_ok _ _ _ Hio En) as [H Hr]. destruct r; simplify_eq; split_and!; try done.
  by apply fbyte_truncate.
Qed.

Lemma os_sync_io io rc io' : io_ok io -> os_sync io = (rc, io') -> io_ok io'.
Proof.
  unfold os_sync. destruct (io_next io) as [r io1] eqn:En. intros Hio E.
  destruct (io_next_ok _ _ _ Hio En) as [H _]. destruct r; by simplify_eq.
Qed.

Lemma finish_copy_spec szPage mxSafe s rc s' : 0 < szPage -> io_ok (ck_io s) -> finish_copy szPage mxSafe s = (rc, s') ->
  ck_frame s s' /\ io_ok (ck_io s')
  /\ nBackfill (ck_info s') = (if rc =? SQLITE_OK then mxSafe else nBackfill (ck_info s))
  /\ forall p, 1 <= p -> p <= nPage (ck_hdr s) \/ mxSafe <> mxFrame (ck_shm s) ->
       page_data (ck_db s') szPage p = page_data (ck_db s) szPage p.
Proof.
  intros Hsz Hio. unfold finish_copy. destruct (Z.eqb_spec mxSafe (mxFrame (ck_shm s))) as [Emx|Hne].
  2:{ cbn. intros. by simplify_eq. }
  destruct (ck_callback _ s) as [rc1 s1] eqn:Ecb. apply ck_callback_same in Ecb as ((Hw & Hi & Hh & Hm & Hn) & Eio1 & Edb1).
  destruct (Z.eqb_spec rc1 SQLITE_OK) as [->|Hne1].
  2:{ apply Z.eqb_neq in Hne1. do 3 (cbv beta iota; rewrite ?Hne1). intros E. injection E as <- <-. rewrite Hne1.
      unfold ck_frame. rewrite Hi, Edb1, Eio1. done. }
  destruct (os_truncate _ _ _) as [[rc2 db2] io2] eqn:Et. apply os_truncate_spec in Et as (Hio2 & Hb & _); [|by rewrite Eio1].
  assert (Hpages : forall p, 1 <= p -> p <= nPage (ck_hdr s) \/ mxSafe <> mxFrame (ck_shm s) ->
            page_data db2 szPage p = page_data (ck_db s) szPage p).
  { intros p Hp [Hle|?]; [|done]. rewrite <- Edb1. apply page_data_ext. intros i Hir. apply Hb. rewrite Hh. nia. }
  destruct (Z.eqb_spec rc2 SQLITE_OK) as [->|Hne2].
  2:{ apply Z.eqb_neq in Hne2. do 3 (cbv beta iota; rewrite ?Hne2). intros E. injection E as <- <-. rewrite Hne2.
      unfold ck_frame. cbn. rewrite Hi. done. }
  destruct (os_sync _) as [rc3 io3] eqn:Es. apply os_sync_io in Es; [|done].
  cbv beta iota. destruct (Z.eqb_spec rc3 SQLITE_OK) as [->|Hne3]; intros E; injection E as <- <-; unfold ck_frame; cbn; rewrite Hi; [done|].
  apply Z.eqb_neq in Hne3. by rewrite Hne3.
Qed.

Lemma size_check_spec szPage mxPage s rc s' : io_ok (ck_io s) -> size_check szPage mxPage s = (rc, s') ->
  ck_same s s' /\ io_ok (ck_io s') /\ ck_db s' = ck_db s.
Proof.
  intros Hio. unfold size_check, os_filesize. destruct (io_next (ck_io s)) as [r io1] eqn:En.
  destruct (io_next_ok _ _ _ Hio En) as [H _]. destruct r; intros E; simplify_eq; done.
Qed.

Section Backfill.
Context (szPage mxSafe mxPage : Z) (F : list Z) (Hsz : 0 < szPage).
Context (Hpos : forall x v, aget F x = Some v -> 0 <= v).
Context (Huniq : forall x y v, aget F x = Some v -> aget F y = Some v -> v <> 0 -> x = y).

(** Back-filling from [s] with the frames in [F] up to [c]: the mark moves only
    when every page to copy has been copied, and no other page changes. *)
Lemma backfill_spec c s : 0 <= c < alen F -> io_ok (ck_io s) ->
  exists rc s', backfill szPage mxSafe mxPage (MkRev c F) s = Some (rc, s') /\ ck_frame s s' /\ io_ok (ck_io s')
  /\ (forall p, 1 <= p -> p <= nPage (ck_hdr s) \/ mxSafe <> mxFrame (ck_shm s) ->
        (forall x, ~ to_copy (nBackfill (ck_info s)) mxSafe mxPage F c x p) ->
        page_data (ck_db s') szPage p = page_data (ck_db s) szPage p)
  /\ (rc <> SQLITE_OK /\ nBackfill (ck_info s') = nBackfill (ck_info s)
      \/ rc = SQLITE_OK /\ nBackfill (ck_info s') = mxSafe /\
         forall x p, to_copy (nBackfill (ck_info s)) mxSafe mxPage F c x p -> p <= nPage (ck_hdr s) ->
           page_data (ck_db s') szPage p = frame_data (ck_wal s) szPage x).
Proof.
  intros Hc Hio. unfold backfill. set (nB := nBackfill (ck_info s)).
  set (s0 := ck_set_info (MkCkpt nB (aReadMark (ck_info s)) mxSafe) s).
  destruct (os_sync (ck_io s0)) as [rc1 io1] eqn:Es. apply os_sync_io in Es as Hio1; [|done].
  set (s1 := ck_set_io io1 s0).
  assert (Hf1 : ck_frame s s1 /\ ck_db s1 = ck_db s /\ nBackfill (ck_info s1) = nB) by done.
  destruct (if rc1 =? SQLITE_OK then size_check szPage mxPage s1 else (rc1, s1)) as [rc2 s2] eqn:E2.
  assert (ck_same s1 s2 /\ io_ok (ck_io s2) /\ ck_db s2 = ck_db s1) as ((Hw & Hi & Hh & Hm & Hn) & Hio2 & Edb2).
  { destruct (rc1 =? SQLITE_OK); [by apply size_check_spec in E2|by simplify_eq]. }
  destruct (Z.eqb_spec rc2 SQLITE_OK) as [->|Hne].
  2:{ cbn [mbind option_bind]. destruct (Z.eqb_spec rc2 SQLITE_OK); [done|]. eexists _, _. split; [done|].
      unfold ck_frame. rewrite Hw, Hi, Hh, Hm, Hn, Edb2. split_and!; try done. by left. }
  cbn [current].
  destruct (copy_loop_spec szPage nB mxSafe mxPage F Hsz Hpos Huniq (S (Z.to_nat c)) c s2 Hc ltac:(lia) Hio2)
    as (rc3 & s3 & -> & (Hw3 & Hi3 & Hh3 & Hm3 & Hn3) & Hio3 & Hno & Hyes). cbn [mbind option_bind].
  assert (Hf3 : ck_frame s s3) by (unfold ck_frame; rewrite Hw3, Hh3, Hm3, Hn3, Hi3, Hw, Hi, Hh, Hm, Hn; done).
  rewrite Edb2 in Hno. rewrite Hw in Hyes. change (ck_db s1) with (ck_db s) in Hno. change (ck_wal s1) with (ck_wal s) in Hyes.
  destruct (Z.eqb_spec rc3 SQLITE_OK) as [->|Hne].
  2:{ eexists _, _. split; [done|]. split_and!; try done; [by auto|]. left. by rewrite Hi3, Hi. }
  destruct (finish_copy szPage mxSafe s3) as [rc4 s4] eqn:E4.
  apply finish_copy_spec in E4 as ((Hw4 & Hh4 & Hm4 & Hn4 & Hr4) & Hio4 & HB & Hp4); [|done..].
  eexists _, _. split; [done|]. destruct Hf3 as (Hw5 & Hh5 & Hm5 & Hn5 & Hr5).
  assert (Hp : forall p, 1 <= p -> p <= nPage (ck_hdr s) \/ mxSafe <> mxFrame (ck_shm s) ->
    page_data (ck_db s4) szPage p = page_data (ck_db s3) szPage p) by (rewrite <- Hh5, <- Hm5; done).
  split_and!; try done.
  - unfold ck_frame. by rewrite Hw4, Hh4, Hm4, Hn4, Hr4.
  - intros p H1 H2 H3. rewrite Hp by done. by apply Hno.
  - destruct (Z.eqb_spec rc4 SQLITE_OK) as [->|]; [right|left; rewrite HB, Hi3, Hi; done]. split_and!; try done.
    intros x p Hx Hle. pose proof Hx as (_ & _ & _ & ?). rewrite Hp by (lia || by left). by apply Hyes.
Qed.
End Backfill.

(** ** Read marks *)

(** Some connection holds the lock byte [b]: no attempt at it succeeds. *)
Definition held (locks : Z -> Z -> attempts) (b : Z) : Prop :=
  forall xBusy j n, j <= b < j + n -> walBusyLock xBusy (locks j n) <> SQLITE_OK.

Lemma mark_loop_spec locks ix : forall xBusy rc mxSafe marks,
  Forall (fun i => 1 <= i < alen marks) ix -> Forall (fun y => 0 <= y) marks -> 0 <= mxSafe ->
  exists out xBusy' rc' mxSafe' marks',
    mark_loop locks xBusy rc mxSafe marks ix = Some (out, xBusy', rc', mxSafe', marks')
    /\ 0 <= mxSafe' <= mxSafe /\ alen marks' = alen marks /\ Forall (fun y => 0 <= y) marks'
    /\ (forall i, held locks (WAL_READ_LOCK i) -> aget marks' i = aget marks i)
    /\ (out = false -> forall i y, i ∈ ix -> held locks (WAL_READ_LOCK i) -> aget marks i = Some y -> mxSafe' <= y)
    /\ ((forall i y, i ∈ ix -> aget marks i = Some y -> y < mxSafe -> walBusyLock xBusy (locks (WAL_READ_LOCK i) 1) = SQLITE_OK) -> rc = SQLITE_OK ->
        out = false /\ xBusy' = xBusy /\ rc' = SQLITE_OK /\ mxSafe' = mxSafe).
Proof.
  induction ix as [|i ix IH]; intros xBusy rc mxSafe marks Hix Hm Hs.
  { eexists _, _, _, _, _. cbn [mark_loop]. split; [done|]. split_and!; try done; try lia. intros _ i y Hi. by apply elem_of_nil in Hi. }
  apply Forall_cons in Hix as [Hi Hix]. cbn [mark_loop].
  destruct (aget_is_Some marks i ltac:(lia)) as [y Hy]. rewrite Hy. cbn [mbind option_bind].
  pose proof (aget_Forall _ _ _ _ Hm Hy) as Hy0. cbn in Hy0.
  assert (Hheld : forall j z xB, j ∈ i :: ix -> held locks (WAL_READ_LOCK j) -> aget marks j = Some z ->
    j ∈ ix \/ j = i /\ z = y /\ walBusyLock xB (locks (WAL_READ_LOCK i) 1) <> SQLITE_OK).
  { intros j z xB [->|Hj]%elem_of_cons Hh Hz; [right|by left]. split_and!; [done|congruence|apply Hh; lia]. }
  destruct (Z.gtb_spec mxSafe y) as [Hlt|Hge].
  2:{ destruct (IH xBusy rc mxSafe marks Hix Hm Hs) as (out & xB & rc' & ms & mk & -> & Hms & Hl & Hf & Hu & Hb & Hok).
      eexists _, _, _, _, _. split; [done|]. split_and!; try done; try lia.
      - intros Ho j z Hj Hh Hz. destruct (Hheld j z false Hj Hh Hz) as [?|(-> & -> & _)]; [by eapply Hb|lia].
      - intros Hall. apply Hok. intros j z Hj. apply Hall. by right. }
  destruct (Z.eqb_spec (walBusyLock xBusy (locks (WAL_READ_LOCK i) 1)) SQLITE_OK) as [Eok|Hne].
  { rewrite aset_in by lia. cbn [mbind option_bind]. set (v := if i =? 1 then mxSafe else READMARK_NOT_USED).
    pose proof (aset_in marks i v ltac:(lia)) as Ea. set (marks1 := <[Z.to_nat i:=v]> marks) in *.
    assert (Hi' : Forall (fun j => 1 <= j < alen marks1) ix) by (by rewrite (aset_alen _ _ _ _ Ea)).
    assert (Hm' : Forall (fun z => 0 <= z) marks1).
    { eapply aset_Forall; [done|done|]. unfold v, READMARK_NOT_USED. destruct (i =? 1); lia. }
    assert (Hmk : forall j, held locks (WAL_READ_LOCK j) -> aget marks1 j = aget marks j).
    { intros j Hj. eapply aget_aset_ne; [done|]. intros ->. by apply (Hj xBusy (WAL_READ_LOCK j) 1); [lia|]. }
    destruct (IH xBusy (walBusyLock xBusy (locks (WAL_READ_LOCK i) 1)) mxSafe marks1 Hi' Hm' Hs)
      as (out & xB & rc' & ms & mk & -> & Hms & Hl & Hf & Hu & Hb & Hok).
    eexists _, _, _, _, _. split; [done|]. split_and!; try done; try lia.
    - by rewrite Hl, (aset_alen _ _ _ _ Ea).
    - intros j Hj. by rewrite Hu, Hmk.
    - intros Ho j z Hj Hh Hz. destruct (Hheld j z xBusy Hj Hh Hz) as [?|(_ & _ & ?)]; [|done].
      eapply Hb; try done. by rewrite Hmk.
    - intros Hall _. apply Hok; [|done]. intros j z Hj Hz Hlt'. destruct (decide (j = i)) as [->|Hne]; [done|].
      apply (Hall j z); [by right|rewrite <- Hz; symmetry; by eapply aget_aset_ne|done]. }
  destruct (Z.eqb_spec (walBusyLock xBusy (locks (WAL_READ_LOCK i) 1)) SQLITE_BUSY) as [Eb|Hne2].
  - destruct (IH false (walBusyLock xBusy (locks (WAL_READ_LOCK i) 1)) y marks Hix Hm Hy0)
      as (out & xB & rc' & ms & mk & -> & Hms & Hl & Hf & Hu & Hb & Hok).
    eexists _, _, _, _, _. split; [done|]. split_and!; try done; try lia.
    + intros Ho j z Hj Hh Hz. destruct (Hheld j z false Hj Hh Hz) as [?|(-> & -> & _)]; [by eapply Hb|lia].
    + intros Hall. exfalso. apply Hne, (Hall i y); [by left|done|lia].
  - eexists _, _, _, _, _. split; [done|]. split_and!; try done; try lia. intros Hall. exfalso. apply Hne, (Hall i y); [by left|done|lia].
Qed.

(** ** The pages of a copy *)

(** With any heap the iterator is set up as specified or is not there. *)
Lemma revinit_any shmMap w ps mx minFrame nB mxSafe ignore al :
  index_ok w ps -> Forall (fun pg => 0 < pg < NO_PAGE) ps -> 1 <= mx <= alen ps -> 0 <= minFrame < 2 ^ 32 ->
  0 <= mxSafe <= mx -> 0 <= nB < mx ->
  exists rc it al', walIteratorRevInit shmMap w false mx minFrame nB mxSafe ignore al = Some (rc, it, al') /\
    (rc = SQLITE_NOMEM /\ it = None /\ ~ never_fails al \/ rc = SQLITE_OK /\ exists F, it = Some (MkRev mx F) /\
       recorded ps mx (zero_of (walFramePage (nB + 1))) minFrame mxSafe ignore NO_PAGE F).
Proof.
  intros Hw Hps Hmx Hmin Hsafe Hb.
  destruct (walIteratorRevInit_spec shmMap w ps mx minFrame nB mxSafe ignore []) as (F & al0 & E & HF); try done; [by constructor|].
  assert (Hf1 : forall l, ~ never_fails (false :: l)) by (intros l Hl; by inversion Hl).
  assert (Hf2 : forall b l, ~ never_fails (b :: false :: l)) by (intros b l Hl; inversion Hl; by eapply Hf1).
  revert E. unfold walIteratorRevInit, walIteratorInit.
  destruct al as [|ok al]; cbn [malloc negb]; [intros ->; eauto 10|].
  destruct ok; cbn [negb]; [|eauto 10].
  destruct al as [|ok al]; cbn [malloc negb]; [|destruct ok; cbn [negb mbind option_bind]; [|eauto 10]];
    (destruct (init_segments _ _ _ _ _ _) as [[rc segs]|]; cbn [mbind option_bind]; [|done];
     destruct (rc =? SQLITE_OK); cbn [negb mbind option_bind]; [|done];
     destruct (rev_loop _ _ _ _ _ _ _ _ _) as [[rc' F']|]; cbn [mbind option_bind]; [|done];
     destruct (rc' =? SQLITE_OK); cbn [negb]; [|done]; intros; simplify_eq; eauto 10).
Qed.

Section Main.
Context (bo : byteorder) (host_big : bool) (shmMap : Z -> Z).
Context (w : WiData) (ps : list Z) (minFrame : Z).
Context (Hw : index_ok w ps) (Hps : Forall (fun pg => 0 < pg < NO_PAGE) ps) (Hmin : 0 <= minFrame < 2 ^ 32).

(** The state in which a checkpoint starts: the log has the frames of the
    shared header, perhaps more than the private one knows. *)
Record ckpt_ok (s : Ckpt) : Prop := {
  ok_mx : 0 <= mxFrame (ck_hdr s) <= mxFrame (ck_shm s);
  ok_shm : mxFrame (ck_shm s) <= alen ps;
  ok_nB : 0 <= nBackfill (ck_info s) <= mxFrame (ck_hdr s);
  ok_marks : alen (aReadMark (ck_info s)) = WAL_NREADER /\ Forall (fun y => 0 <= y) (aReadMark (ck_info s));
  ok_pagesize : 0 < hdr_pagesize (hdr_szPage (ck_hdr s));
  ok_io : io_ok (ck_io s)
}.

Definition ck_szPage (s : Ckpt) : Z := hdr_pagesize (hdr_szPage (ck_hdr s)).

(** From [s] to [s'] the frames up to [mxSafe] may have been copied: a page
    changes only when it has a frame to back-fill, and the mark moves only when
    the pages whose latest frame is among these are all in the database. *)
Record backfilled (mxSafe : Z) (s s' : Ckpt) : Prop := {
  bf_safe : nBackfill (ck_info s) < mxSafe <= mxFrame (ck_hdr s);
  bf_other : forall p, 1 <= p -> p <= nPage (ck_hdr s) \/ mxSafe <> mxFrame (ck_shm s) ->
    (forall x, nBackfill (ck_info s) < x <= mxSafe -> page_at ps x <> p) ->
    page_data (ck_db s') (ck_szPage s) p = page_data (ck_db s) (ck_szPage s) p;
  bf_mark : nBackfill (ck_info s') = nBackfill (ck_info s) \/
    nBackfill (ck_info s') = mxSafe /\
    forall f, nBackfill (ck_info s) < f <= mxSafe -> is_latest ps (mxFrame (ck_hdr s)) f ->
      page_at ps f <= nPage (ck_hdr s) ->
      page_data (ck_db s') (ck_szPage s) (page_at ps f) = frame_data (ck_wal s) (ck_szPage s) f
}.

Lemma recorded_unique mx lo mxSafe ignore F x y v : 0 <= lo -> mx <= alen ps ->
  recorded ps mx lo minFrame mxSafe ignore NO_PAGE F -> aget F x = Some v -> aget F y = Some v -> v <> 0 -> x = y.
Proof.
  intros Hlo Hmx (_ & H1 & _) Hx Hy Hv.
  destruct (H1 x v Hx Hv) as (f & Hf & Lf & _ & Ef & Et & _), (H1 y v Hy Hv) as (g & Hg & Lg & _ & Eg & Et' & _).
  assert (f = g) as ->; [|congruence].
  destruct (Z.lt_trichotomy f g) as [H|[|H]]; [|done|]; exfalso; [apply (Lf g)|apply (Lg f)]; try congruence; lia.
Qed.

Lemma backfill_pages mxSafe ignore F s : ckpt_ok s -> nBackfill (ck_info s) < mxSafe <= mxFrame (ck_hdr s) ->
  recorded ps (mxFrame (ck_hdr s)) (zero_of (walFramePage (nBackfill (ck_info s) + 1))) minFrame mxSafe ignore NO_PAGE F ->
  exists rc s', backfill (ck_szPage s) mxSafe (nPage (ck_hdr s)) (MkRev (mxFrame (ck_hdr s)) F) s = Some (rc, s')
    /\ ck_frame s s' /\ io_ok (ck_io s') /\ backfilled mxSafe s s' /\ (rc = SQLITE_OK -> nBackfill (ck_info s') = mxSafe).
Proof.
  intros [Hmx Hshm HnB _ Hsz Hio] Hsafe HF. pose proof Hw as (Hmax & _). pose proof HF as (Hl & H1 & H2).
  set (nB := nBackfill (ck_info s)) in *. set (mx := mxFrame (ck_hdr s)) in *.
  pose proof (walFramePage_range (nB + 1) ltac:(lia)) as [Hfp Hz]. pose proof (zero_of_nonneg _ Hfp).
  assert (Hpg : forall x p, aget F x = Some p -> p <> 0 -> 1 <= p /\ page_at ps x = p).
  { intros x p Hx Hp. destruct (H1 x p Hx Hp) as (f & Hf & _ & _ & Ef & Et & Hx0).
    destruct (page_at_range ps Hps f) as [_ ?]; [lia|]. split; [lia|].
    rewrite <- Et, <- Ef. eapply target_page; rewrite ?Et; done || lia. }
  destruct (backfill_spec (ck_szPage s) mxSafe (nPage (ck_hdr s)) F Hsz) with (c := mx) (s := s)
    as (rc & s' & E & Hfr & Hio' & Hoth & Hmark); try done; [| |lia|].
  { intros x v Hx. destruct (decide (v = 0)); [lia|]. destruct (Hpg x v); lia || done. }
  { intros x y v. eapply recorded_unique; [..|done]; lia. }
  exists rc, s'. split_and!; try done.
  - split; [done| |].
    + intros p Hp Hlim Hno. apply Hoth; try done. intros x (Hx & Hr & Ex & Hpr). apply (Hno x); [done|].
      apply Hpg; [done|lia].
    + destruct Hmark as [[_ ?]|(_ & Em & Hall)]; [by left|right]. split; [done|].
      intros f Hf Lf Hle. apply Hall; [|done]. assert (Hfr' : zero_of (walFramePage (nB + 1)) < f <= mx) by lia.
      destruct (page_at_range ps Hps f) as [_ Hpf]; [lia|].
      assert (target ps minFrame mxSafe ignore f = f) as Et by (unfold target; destruct (Z.gtb_spec f mxSafe); [lia|done]).
      split_and!; try done; try lia. rewrite <- Et at 1. apply H2; try done; [|rewrite Et]; lia.
  - intros ->. destruct Hmark as [[? _]|(_ & ? & _)]; done.
Qed.

(** What the copy of a checkpoint does to the readers and the files. *)
Definition copy_outcome (e : CkptEnv) (s s' : Ckpt) : Prop :=
  ck_db s' = ck_db s /\ nBackfill (ck_info s') = nBackfill (ck_info s) \/
  exists mxSafe, ~ held (e_locks e) (WAL_READ_LOCK 0) /\
    (forall i y, 1 <= i <= 4 -> held (e_locks e) (WAL_READ_LOCK i) -> aget (aReadMark (ck_info s)) i = Some y -> mxSafe <= y) /\
    backfilled mxSafe s s'.

Lemma ckpt_copy_spec e al s : ckpt_ok s -> nBackfill (ck_info s) < mxFrame (ck_hdr s) ->
  exists out xBusy rc s', ckpt_copy shmMap e w minFrame al s = Some (out, xBusy, rc, s')
    /\ ck_wal s' = ck_wal s /\ ck_hdr s' = ck_hdr s /\ ck_shm s' = ck_shm s /\ ck_nCkpt s' = ck_nCkpt s /\ io_ok (ck_io s')
    /\ alen (aReadMark (ck_info s')) = WAL_NREADER
    /\ (forall i, held (e_locks e) (WAL_READ_LOCK i) -> aget (aReadMark (ck_info s')) i = aget (aReadMark (ck_info s)) i)
    /\ copy_outcome e s s'.
Proof.
  intros Hok Hlt. pose proof Hok as [Hmx Hshm HnB [Hml Hmf] Hsz Hio]. unfold ckpt_copy.
  destruct (mark_loop_spec (e_locks e) [1; 2; 3; 4] (e_xBusy e) SQLITE_OK (mxFrame (ck_hdr s)) (aReadMark (ck_info s)))
    as (out & xB & rc & mxSafe & mk & -> & Hms & Hl & Hf & Hu & Hb & _); [|done|lia|].
  { rewrite Hml. unfold WAL_NREADER. repeat (apply Forall_cons_2; [lia|]). constructor. }
  cbn [mbind option_bind]. set (s0 := ck_set_info (MkCkpt _ mk _) s).
  assert (Hml' : alen mk = WAL_NREADER) by (by rewrite Hl).
  destruct out; [eexists _, _, _, s0; split; [done|]; split_and!; try done; by left|].
  destruct (match e_only_full e with Some mx => _ | None => _ end);
    [eexists _, _, _, s0; split; [done|]; split_and!; try done; by left|].
  change (nBackfill (ck_info s0)) with (nBackfill (ck_info s)).
  destruct (Z.ltb_spec (nBackfill (ck_info s)) mxSafe) as [Hsafe|_];
    [|cbn [mbind option_bind]; eexists _, _, _, s0; split; [done|]; split_and!; try done; by left].
  change (mxFrame (ck_hdr s0)) with (mxFrame (ck_hdr s)). set (ignore := bool_decide (ck_cb s0 = None)).
  destruct (revinit_any shmMap w ps (mxFrame (ck_hdr s)) minFrame (nBackfill (ck_info s)) mxSafe ignore al) as (rc' & it & al' & -> & Hit); [done|done|lia|done|lia|lia|].
  cbn [mbind option_bind].
  destruct Hit as [(-> & -> & _)|(-> & F & -> & HF)];
    [cbn [mbind option_bind]; eexists _, _, _, s0; split; [done|]; split_and!; try done; by left|].
  destruct (Z.eqb_spec (walBusyLock xB (e_locks e (WAL_READ_LOCK 0) 1)) SQLITE_OK) as [E0|_];
    [|cbn [mbind option_bind]; eexists _, _, _, s0; split; [done|]; split_and!; try done; by left].
  assert (Hok0 : ckpt_ok s0) by (split; try done).
  destruct (backfill_pages mxSafe _ F s0 Hok0 ltac:(cbn; lia) HF) as (rc2 & s2 & E2 & (Hw2 & Hh2 & Hm2 & Hn2 & Hr2) & Hio2 & Hbf & _).
  change (mxFrame (ck_hdr s)) with (mxFrame (ck_hdr s0)). change (hdr_pagesize (hdr_szPage (ck_hdr s))) with (ck_szPage s0).
  rewrite E2. cbn [mbind option_bind].
  eexists _, _, _, s2. split; [done|]. split_and!; try done; [by rewrite Hr2|by rewrite Hr2|].
  right. exists mxSafe. split_and!.
  - intros Hh. by apply (Hh xB (WAL_READ_LOCK 0) 1); [lia|].
  - intros i y Hi Hh Hy. eapply Hb; try done. apply list_elem_of_In. cbn. lia.
  - destruct Hbf. by split.
Qed.

(** ** Views *)

Lemma latest_absent n minF p : (forall f, 1 <= f <= Z.of_nat n -> minF <= f -> aget ps (f - 1) <> Some p) ->
  latest_frame n ps minF p = 0.
Proof.
  intros H. destruct (latest_frame_spec n ps minF p) as [[? _]|(R & _ & HR & HRm & HRg & _)]; [done|].
  exfalso. by apply (H R).
Qed.

Lemma latest_is n minF p R : 1 <= R <= Z.of_nat n -> minF <= R -> aget ps (R - 1) = Some p ->
  (forall f, R < f <= Z.of_nat n -> aget ps (f - 1) <> Some p) -> latest_frame n ps minF p = R.
Proof.
  intros HR Hm Hg Hno. destruct (latest_frame_spec n ps minF p) as [[_ H]|(R' & -> & HR' & HRm' & HRg' & H)].
  - exfalso. by apply (H R).
  - destruct (Z.lt_trichotomy R R') as [?|[|?]]; [exfalso; apply (Hno R')|done|exfalso; apply (H R)]; done || lia.
Qed.

Lemma page_aget x p : 1 <= x <= alen ps -> page_at ps x = p <-> aget ps (x - 1) = Some p.
Proof. intros Hx. destruct (page_at_range ps Hps x Hx) as [-> _]. split; congruence. Qed.

(** A reader of the frames [minF..mxF] that starts at or before the back-fill
    mark and ends at or after the safe frame keeps its view. *)
Lemma backfilled_view mxSafe s s' minF mxF p : ckpt_ok s -> backfilled mxSafe s s' -> ck_wal s' = ck_wal s ->
  1 <= minF <= nBackfill (ck_info s) + 1 -> mxSafe <= mxF <= alen ps -> 1 <= p ->
  p <= nPage (ck_hdr s) \/ mxSafe <> mxFrame (ck_shm s) ->
  view ps (ck_szPage s) (ck_wal s') (ck_db s') minF mxF p = view ps (ck_szPage s) (ck_wal s) (ck_db s) minF mxF p.
Proof.
  intros Hok [Hsafe Hoth _] -> Hminf Hmxf Hp Hlim. unfold view.
  destruct (Z.eqb_spec (latest_frame (Z.to_nat mxF) ps minF p) 0) as [E|]; [|done].
  apply Hoth; try done. intros x Hx Epx. pose proof (ok_nB _ Hok) as HnB.
  destruct (latest_frame_spec (Z.to_nat mxF) ps minF p) as [[_ H]|(R & ER & HR & _)]; [|lia].
  apply (H x); [lia|lia|]. apply page_aget; [lia|done].
Qed.

(** Moving the start of a reader to the new mark changes nothing. *)
Lemma backfilled_new_view mxSafe s s' mxF p : ckpt_ok s -> backfilled mxSafe s s' -> ck_wal s' = ck_wal s ->
  mxFrame (ck_hdr s) <= mxF <= alen ps -> 1 <= p <= nPage (ck_hdr s) ->
  view ps (ck_szPage s) (ck_wal s') (ck_db s') (nBackfill (ck_info s') + 1) mxF p
  = view ps (ck_szPage s) (ck_wal s) (ck_db s) (nBackfill (ck_info s) + 1) mxF p.
Proof.
  intros Hok Hbf Hwal Hmxf Hp. pose proof (ok_nB _ Hok) as HnB. pose proof Hbf as [Hsafe Hoth [E|[E Hall]]].
  { rewrite E. eapply backfilled_view; try done; try lia. }
  rewrite E, Hwal. unfold view. set (nB := nBackfill (ck_info s)) in *.
  destruct (latest_frame_spec (Z.to_nat mxF) ps (nB + 1) p) as [[-> Hno]|(R & -> & HR & HRm & HRg & HRmax)].
  - rewrite latest_absent by (intros f Hf Hm; apply Hno; lia). cbn [Z.eqb]. apply Hoth; [lia|by left; lia|].
    intros x Hx Epx. apply (Hno x); [lia|lia|]. apply page_aget; [lia|done].
  - rewrite Z2Nat.id in HR by lia. destruct (Z.eqb_spec R 0); [lia|]. destruct (decide (mxSafe < R)).
    + rewrite (latest_is _ _ _ R) by (done || lia). destruct (Z.eqb_spec R 0); [lia|done].
    + rewrite latest_absent; [cbn [Z.eqb]|intros f Hf Hm; apply HRmax; lia].
      assert (page_at ps R = p) as Ep by (apply page_aget; [lia|done]). rewrite <- Ep at 1. apply Hall; [lia| |lia].
      intros g Hg. rewrite Ep, page_aget by lia. apply HRmax. lia.
Qed.
End Main.

(** ** Resetting the log *)

Lemma set_aSalt_wf s h : hdr_wf h -> length s = 8%nat -> Forall is_u8 s -> hdr_wf (set_aSalt s (set_mxFrame 0 h)).
Proof. intros [] Hl Hs. split; try done. Qed.

Lemma store32_length big v : length (store32 big v) = 4%nat.
Proof. unfold store32. by destruct big. Qed.

Section Restart.
Context (bo : byteorder) (host_big : bool) (e : CkptEnv).
Context (Hsalt : length (e_salt1 e) = 4%nat /\ Forall is_u8 (e_salt1 e)).

Lemma walRestartHdr_spec s : hdr_wf (ck_hdr s) -> alen (aReadMark (ck_info s)) = WAL_NREADER ->
  exists s' h', walRestartHdr bo host_big (e_salt1 e) s = Some s' /\ published host_big h' /\ ck_hdr s' = h' /\ ck_shm s' = h'
    /\ mxFrame h' = 0 /\ nPage h' = nPage (ck_hdr s) /\ drop 4 (aSalt h') = e_salt1 e
    /\ ck_db s' = ck_db s /\ ck_wal s' = ck_wal s /\ ck_io s' = ck_io s
    /\ ck_info s' = MkCkpt 0 (match aReadMark (ck_info s) with m0 :: _ => [m0; 0; READMARK_NOT_USED; READMARK_NOT_USED; READMARK_NOT_USED] | [] => [] end) 0.
Proof.
  intros Hwf Hm. destruct Hsalt as [Hl Hu]. destruct (wf_salt _ Hwf) as [Hsl Hsu]. unfold walRestartHdr.
  rewrite get4byte_be by (by apply Forall_take).
  destruct (load32_is_Some true (take 4 (aSalt (ck_hdr s)))) as [v Hv]; [rewrite length_take; lia|].
  rewrite Hv. cbn [mbind option_bind].
  rewrite put4byte_be by apply u32_range.
  destruct (write_publishes host_big (set_aSalt (store32 true (u32 (1 + v)) ++ e_salt1 e) (set_mxFrame 0 (ck_hdr s))))
    as (h' & -> & Hp & Hsame).
  { apply set_aSalt_wf; [done|by rewrite length_app, store32_length, Hl|]. apply Forall_app_2; [apply store32_bytes|done]. }
  cbn [mbind option_bind]. destruct Hsame as (_ & _ & _ & _ & Hmx & Hnp & _ & Hsa).
  unfold alen, WAL_NREADER in Hm. destruct (aReadMark (ck_info s)) as [|m0 [|m1 [|m2 [|m3 [|m4 [|]]]]]] eqn:Em; cbn in Hm; try lia.
  cbn [aset length]. cbn. eexists _, h'. split; [done|]. rewrite Hsa, Hmx, Hnp. cbn [aSalt set_aSalt].
  rewrite drop_app_length' by done. done.
Qed.

(** The log is left alone, or reset when it is wholly back-filled and nobody
    reads it. *)
Lemma ckpt_restart_spec xBusy s : hdr_wf (ck_hdr s) -> alen (aReadMark (ck_info s)) = WAL_NREADER -> io_ok (ck_io s) ->
  exists rc s', ckpt_restart bo host_big e xBusy s = Some (rc, s') /\ ck_db s' = ck_db s /\
    (s' = s \/
     mxFrame (ck_hdr s) <= nBackfill (ck_info s) /\ walBusyLock xBusy (e_locks e (WAL_READ_LOCK 1) 4) = SQLITE_OK
     /\ e_mode e = SQLITE_CHECKPOINT_TRUNCATE /\ mxFrame (ck_shm s') = 0 /\ mxFrame (ck_hdr s') = 0
     /\ nBackfill (ck_info s') = 0 /\ (rc = SQLITE_OK -> ck_wal s' = [])).
Proof.
  intros Hwf Hm Hio. unfold ckpt_restart. change (WAL_NREADER - 1) with 4.
  destruct (Z.ltb_spec (nBackfill (ck_info s)) (mxFrame (ck_hdr s))); [eauto 10|].
  destruct (SQLITE_CHECKPOINT_RESTART <=? e_mode e); [|eauto 10].
  destruct (Z.eqb_spec (walBusyLock xBusy (e_locks e (WAL_READ_LOCK 1) 4)) SQLITE_OK) as [Elk|]; cbn [andb]; [|eauto 10].
  destruct (Z.eqb_spec (e_mode e) SQLITE_CHECKPOINT_TRUNCATE) as [Et|]; [|eauto 10].
  destruct (walRestartHdr_spec s Hwf Hm) as (s1 & h' & -> & _ & Hh & Hs & Hmx & _ & _ & Hdb & Hwl & Hio1 & Hi).
  cbn [mbind option_bind]. destruct (os_truncate _ _ _) as [[rc wal] io] eqn:E.
  apply os_truncate_spec in E as (_ & _ & Hok & _); [|by rewrite Hio1].
  eexists _, _. split; [done|]. split; [done|]. right. cbn. rewrite Hh, Hs, Hi. split_and!; try done; try lia.
Qed.
End Restart.

(** ** Whole checkpoints *)
Section Runs.
Context (bo : byteorder) (host_big : bool) (shmMap : Z -> Z) (e : CkptEnv).
Context (w : WiData) (ps : list Z) (minFrame : Z) (al : alloc) (s : Ckpt).

(** The hypotheses under which a checkpoint runs. *)
Definition ckpt_pre : Prop :=
  index_ok w ps /\ Forall (fun pg => 0 < pg < NO_PAGE) ps /\ 0 <= minFrame < 2 ^ 32 /\ ckpt_ok ps s
  /\ hdr_wf (ck_hdr s) /\ length (e_salt1 e) = 4%nat /\ Forall is_u8 (e_salt1 e)
  /\ (e_mode e <> SQLITE_CHECKPOINT_PASSIVE -> mxFrame (ck_shm s) = mxFrame (ck_hdr s)).

(** The run of a checkpoint: the copy and then perhaps the reset. *)
Lemma checkpoint_run : ckpt_pre ->
  exists rc s1 s', walCheckpoint bo host_big shmMap e w minFrame al s = Some (rc, s') /\
    ck_wal s1 = ck_wal s /\ ck_hdr s1 = ck_hdr s /\ ck_shm s1 = ck_shm s /\ copy_outcome ps e s s1 /\
    (forall i, held (e_locks e) (WAL_READ_LOCK i) -> aget (aReadMark (ck_info s1)) i = aget (aReadMark (ck_info s)) i) /\
    ck_db s' = ck_db s1 /\
    (s' = s1 \/
     mxFrame (ck_hdr s) <= nBackfill (ck_info s1) /\ (exists xB, walBusyLock xB (e_locks e (WAL_READ_LOCK 1) 4) = SQLITE_OK)
     /\ e_mode e = SQLITE_CHECKPOINT_TRUNCATE /\ mxFrame (ck_shm s') = 0 /\ mxFrame (ck_hdr s') = 0 /\ nBackfill (ck_info s') = 0).
Proof.
  intros (Hw & Hps & Hmin & Hok & Hwf & Hsl & Hsu & _). pose proof (ok_marks _ _ Hok) as [Hml _]. unfold walCheckpoint.
  assert (exists out xB rc s1, (if nBackfill (ck_info s) <? mxFrame (ck_hdr s) then ckpt_copy shmMap e w minFrame al s
     else Some (false, e_xBusy e, SQLITE_OK, s)) = Some (out, xB, rc, s1)
    /\ ck_wal s1 = ck_wal s /\ ck_hdr s1 = ck_hdr s /\ ck_shm s1 = ck_shm s /\ io_ok (ck_io s1)
    /\ alen (aReadMark (ck_info s1)) = WAL_NREADER
    /\ (forall i, held (e_locks e) (WAL_READ_LOCK i) -> aget (aReadMark (ck_info s1)) i = aget (aReadMark (ck_info s)) i)
    /\ copy_outcome ps e s s1) as (out & xB & rc & s1 & -> & Hw1 & Hh1 & Hs1 & Hio1 & Hm1 & Hu1 & Hc1).
  { destruct (Z.ltb_spec (nBackfill (ck_info s)) (mxFrame (ck_hdr s))).
    - destruct (ckpt_copy_spec shmMap w ps minFrame Hw Hps Hmin e al s Hok) as (out & xB & rc & s1 & -> & ?&?&?&?&?&?&?&?); [done|].
      exists out, xB, rc, s1. done.
    - exists false, (e_xBusy e), SQLITE_OK, s. split_and!; try done; [apply Hok|by left]. }
  cbn [mbind option_bind]. destruct out; [by exists rc, s1, s1; split_and!; try done; left|].
  destruct ((rc =? SQLITE_OK) && negb (e_mode e =? SQLITE_CHECKPOINT_PASSIVE)); [|by exists rc, s1, s1; split_and!; try done; left].
  destruct (ckpt_restart_spec bo host_big e (conj Hsl Hsu) xB s1) as (rc' & s' & -> & Hdb & Hr); [by rewrite Hh1|done|done|].
  exists rc', s1, s'. split_and!; try done. destruct Hr as [->|(?&?&?&?&?&?&?)]; [by left|right].
  rewrite <- Hh1. split_and!; try done. by exists xB.
Qed.

(** What a reader sees that starts now: the frames after the back-fill mark up
    to the shared [mxFrame], and the database. *)
Definition new_view (t : Ckpt) (p : Z) : list Z :=
  view ps (ck_szPage s) (ck_wal t) (ck_db t) (nBackfill (ck_info t) + 1) (mxFrame (ck_shm t)) p.

Lemma outcome_new_view s1 p : ckpt_ok ps s -> Forall (fun pg => 0 < pg < NO_PAGE) ps ->
  copy_outcome ps e s s1 -> ck_wal s1 = ck_wal s -> ck_shm s1 = ck_shm s ->
  1 <= p <= nPage (ck_hdr s) -> new_view s1 p = new_view s p.
Proof.
  intros Hok Hps Hc Hw1 Hs1 Hp. pose proof (ok_mx _ _ Hok). pose proof (ok_shm _ _ Hok). unfold new_view. rewrite Hs1.
  destruct Hc as [(Hdb & HnB)|(mxSafe & _ & _ & Hbf)]; [by rewrite Hdb, HnB, Hw1|].
  apply (backfilled_new_view ps Hps mxSafe); done || lia.
Qed.
End Runs.

(** ** Runs without failures *)

Definition clean (s : Ckpt) : Prop :=
  ck_io s = [] /\ ck_intr s = [] /\ match ck_cb s with None => True | Some l => Forall (fun rc => rc = SQLITE_OK) l end.

Lemma callback_clean c s : clean s -> exists s', ck_callback c s = (SQLITE_OK, s') /\ clean s' /\ ck_same s s' /\ ck_db s' = ck_db s.
Proof.
  intros (Hio & Hi & Hcb). unfold ck_callback, clean. destruct (ck_cb s) as [l|] eqn:E; [|exists s; by rewrite E].
  destruct Hcb as [|rc l ->]; eexists; (split; [done|]); cbn [ck_io ck_intr ck_cb tail]; by split_and!.
Qed.

Lemma copy_clean szPage nB mxSafe mxPage F mx : 0 < szPage -> mxSafe <= mx ->
  forall fuel c s, 0 <= c < alen F -> c < Z.of_nat fuel -> clean s -> walFrameOffset (mx + 1) szPage <= alen (ck_wal s) ->
  exists s', copy_loop fuel szPage nB mxSafe mxPage (MkRev c F) s = Some (SQLITE_OK, s') /\ clean s'.
Proof.
  intros Hsz Hmx. induction fuel as [|fuel IH]; intros c s Hc Hf Hcl Hlen; [lia|]. cbn [copy_loop].
  destruct (rev_next_spec F c Hc) as ([c' F'] & r & -> & EF & Hc' & Hr). cbn in EF, Hc'. subst F'. cbn [mbind option_bind].
  destruct r as [[v x]|]; [|eauto]. destruct Hr as (Hx & Ec & _). cbn in Ec. subst c'.
  pose proof Hcl as (Hio & Hi & Hcb). unfold ck_interrupted. rewrite Hi.
  destruct ((x <=? nB) || (x >? mxSafe) || (v >? mxPage)) eqn:Eskip; [by apply IH; try lia|].
  apply orb_false_iff in Eskip as [[_ ?]%orb_false_iff _].
  unfold os_read. rewrite Hio. cbn [io_next]. unfold walFrameOffset, WAL_HDRSIZE, WAL_FRAME_HDRSIZE in *.
  destruct (Z.leb_spec (32 + (x - 1) * (szPage + 24) + 24 + szPage) (alen (ck_wal s))); [|nia].
  change (SQLITE_OK =? SQLITE_OK) with true. cbn [negb]. unfold os_write. cbn [ck_set_io ck_io io_next].
  change (SQLITE_OK =? SQLITE_OK) with true. cbn [negb].
  match goal with |- context [ck_callback ?c ?t] => destruct (callback_clean c t) as (s1 & -> & Hcl1 & (Hw1 & _) & _) end; [done|].
  change (SQLITE_OK =? SQLITE_OK) with true. cbn [negb]. apply IH; try done; try lia. by rewrite Hw1.
Qed.

Lemma finish_clean szPage mxSafe s : clean s -> exists s', finish_copy szPage mxSafe s = (SQLITE_OK, s') /\ clean s'.
Proof.
  intros Hcl. unfold finish_copy. destruct (mxSafe =? mxFrame (ck_shm s)).
  - destruct (callback_clean (MkCall mxSafe None) s Hcl) as (s1 & -> & (Hio & Hi & Hcb) & _ & _).
    change (SQLITE_OK =? SQLITE_OK) with true. unfold os_truncate. rewrite Hio. cbn [io_next].
    change (SQLITE_OK =? SQLITE_OK) with true. cbn [os_sync io_next ck_set_db ck_io].
    change (SQLITE_OK =? SQLITE_OK) with true. eexists. split; [done|]. done.
  - eexists. split; [done|]. done.
Qed.

Lemma backfill_clean szPage mxSafe mxPage F mx c s : 0 < szPage -> mxSafe <= mx -> 0 <= c < alen F -> clean s ->
  walFrameOffset (mx + 1) szPage <= alen (ck_wal s) -> mxPage * szPage <= alen (ck_db s) + 65536 + mxFrame (ck_hdr s) * szPage ->
  exists s', backfill szPage mxSafe mxPage (MkRev c F) s = Some (SQLITE_OK, s') /\ clean s'.
Proof.
  intros Hsz Hmx Hc (Hio & Hi & Hcb) Hlen Hdb. unfold backfill, os_sync, size_check, os_filesize. cbn [ck_set_info ck_io]. rewrite Hio.
  cbn [io_next]. change (SQLITE_OK =? SQLITE_OK) with true. cbn [andb ck_set_io ck_io io_next ck_db ck_set_info ck_hdr].
  destruct (Z.ltb_spec (alen (ck_db s) + 65536 + mxFrame (ck_hdr s) * szPage) (mxPage * szPage)); [lia|].
  rewrite andb_false_r. change (SQLITE_OK =? SQLITE_OK) with true. cbn [current].
  match goal with |- context [copy_loop _ _ _ _ _ _ ?t] =>
    destruct (copy_clean szPage (nBackfill (ck_info s)) mxSafe mxPage F mx Hsz Hmx (S (Z.to_nat c)) c t) as (s1 & -> & Hcl1) end;
    [done|lia|done|done|].
  cbn [mbind option_bind]. change (SQLITE_OK =? SQLITE_OK) with true.
  destruct (finish_clean szPage mxSafe s1 Hcl1) as (s2 & -> & Hcl2). eauto.
Qed.

(** Memory and the files suffice. *)
Definition suffices (e : CkptEnv) (al : alloc) (s : Ckpt) : Prop :=
  never_fails al /\ clean s
  /\ match e_only_full e with Some mx => mx = mxFrame (ck_hdr s) | None => True end
  /\ mxFrame (ck_shm s) = mxFrame (ck_hdr s)
  /\ walFrameOffset (mxFrame (ck_hdr s) + 1) (ck_szPage s) <= alen (ck_wal s)
  /\ nPage (ck_hdr s) * ck_szPage s <= alen (ck_db s) + 65536 + mxFrame (ck_hdr s) * ck_szPage s.

(** All locks are free, at once or after the busy handler asked again, and memory and the files
    suffice. *)
Definition unhindered (e : CkptEnv) (al : alloc) (s : Ckpt) : Prop :=
  (forall b n, walBusyLock (e_xBusy e) (e_locks e b n) = SQLITE_OK) /\ suffices e al s.

(** The locks a checkpoint waits for: that of a read mark, that of the readers of the database file, and all
    those of the readers of the log. *)
Inductive wait : Type := WMark (i : Z) | WDb | WLog.

Definition wait_lock (w : wait) : Z * Z :=
  match w with
  | WMark i => (WAL_READ_LOCK i, 1)
  | WDb => (WAL_READ_LOCK 0, 1)
  | WLog => (WAL_READ_LOCK 1, WAL_NREADER - 1)
  end.

(** Those that a checkpoint in mode [mode] asks for, up to frame [mx]. *)
Definition asked (mode mx : Z) (info : WalCkptInfo) (w : wait) : bool :=
  match w with
  | WMark i => (nBackfill info <? mx) && match aget (aReadMark info) i with Some y => y <? mx | None => false end
  | WDb => nBackfill info <? mx
  | WLog => SQLITE_CHECKPOINT_RESTART <=? mode
  end.

Definition waits : list wait := [WMark 1; WMark 2; WMark 3; WMark 4; WDb; WLog].

(** The locks that are asked for are granted, at once or after the busy handler asked again. *)
Definition granted (e : CkptEnv) (s : Ckpt) : Prop :=
  forall w, w ∈ waits -> asked (e_mode e) (mxFrame (ck_hdr s)) (ck_info s) w = true ->
  walBusyLock (e_xBusy e) (e_locks e (fst (wait_lock w)) (snd (wait_lock w))) = SQLITE_OK.

Lemma copy_unhindered shmMap e w ps minFrame al s : index_ok w ps -> Forall (fun pg => 0 < pg < NO_PAGE) ps ->
  0 <= minFrame < 2 ^ 32 -> ckpt_ok ps s -> granted e s -> suffices e al s -> nBackfill (ck_info s) < mxFrame (ck_hdr s) ->
  exists s', ckpt_copy shmMap e w minFrame al s = Some (false, e_xBusy e, SQLITE_OK, s') /\
    nBackfill (ck_info s') = mxFrame (ck_hdr s) /\ clean s'.
Proof.
  intros Hw Hps Hmin Hok Hlk (Hal & Hcl & Hfull & Hshm & Hlen & Hsize) Hlt.
  pose proof Hok as [Hmx Hsm HnB [Hml Hmf] Hsz Hio]. unfold ckpt_copy.
  destruct (mark_loop_spec (e_locks e) [1; 2; 3; 4] (e_xBusy e) SQLITE_OK (mxFrame (ck_hdr s)) (aReadMark (ck_info s)))
    as (out & xB & rc & mxSafe & mk & -> & _ & Hl & Hf & _ & _ & Hall); [|done|lia|].
  { rewrite Hml. unfold WAL_NREADER. repeat (apply Forall_cons_2; [lia|]). constructor. }
  destruct Hall as (-> & -> & -> & ->); [|done|].
  { intros i y Hi Hy Hym. apply (Hlk (WMark i)); cbn [asked]; [repeat (apply elem_of_cons in Hi as [->|Hi]; [set_solver|]); by apply elem_of_nil in Hi|].
    rewrite Hy. apply andb_true_iff; split; apply Z.ltb_lt; lia. }
  cbn [mbind option_bind]. set (s0 := ck_set_info (MkCkpt _ mk _) s).
  replace (match e_only_full e with Some mx => _ | None => _ end) with false.
  2:{ destruct (e_only_full e); [|done]. subst. by rewrite Z.eqb_refl. }
  change (nBackfill (ck_info s0)) with (nBackfill (ck_info s)). change (mxFrame (ck_hdr s0)) with (mxFrame (ck_hdr s)).
  destruct (Z.ltb_spec (nBackfill (ck_info s)) (mxFrame (ck_hdr s))) as [_|]; [|lia].
  set (ignore := bool_decide (ck_cb s0 = None)).
  destruct (revinit_any shmMap w ps (mxFrame (ck_hdr s)) minFrame (nBackfill (ck_info s)) (mxFrame (ck_hdr s)) ignore al)
    as (rc' & it & al' & -> & Hit); [done|done|lia|done|lia|lia|]. cbn [mbind option_bind].
  destruct Hit as [(_ & _ & Hnf)|(-> & F & -> & HF)]; [done|]. cbn [mbind option_bind].
  assert (walBusyLock (e_xBusy e) (e_locks e (WAL_READ_LOCK 0) 1) = SQLITE_OK) as -> by (apply (Hlk WDb); [set_solver|by apply Z.ltb_lt]). change (SQLITE_OK =? SQLITE_OK) with true.
  rewrite Hml in Hl. assert (Hok0 : ckpt_ok ps s0) by (split; try done).
  destruct (backfill_pages w ps minFrame Hw Hps (mxFrame (ck_hdr s)) ignore F s0 Hok0 ltac:(cbn; lia) HF)
    as (rc2 & s2 & E2 & _ & _ & _ & Hb).
  destruct (backfill_clean (ck_szPage s) (mxFrame (ck_hdr s)) (nPage (ck_hdr s)) F (mxFrame (ck_hdr s)) (mxFrame (ck_hdr s)) s0)
    as (s3 & E3 & Hcl3); try done; [destruct HF as [-> _]; lia|].
  change (hdr_pagesize (hdr_szPage (ck_hdr s))) with (ck_szPage s). change (nPage (ck_hdr s0)) with (nPage (ck_hdr s)).
  rewrite E3. cbn [mbind option_bind]. eexists. split; [done|]. split; [|done].
  change (ck_szPage s0) with (ck_szPage s) in E2. change (ck_hdr s0) with (ck_hdr s) in E2. rewrite E3 in E2. simplify_eq. by apply Hb.
Qed.

(** A reader of the log keeps its view. *)
Lemma checkpoint_view bo host_big shmMap e w ps minFrame al s i y minF mxF p :
  ckpt_pre e w ps minFrame s -> 1 <= i <= 4 -> held (e_locks e) (WAL_READ_LOCK i) ->
  aget (aReadMark (ck_info s)) i = Some y -> y <= mxF <= mxFrame (ck_shm s) -> 1 <= minF <= nBackfill (ck_info s) + 1 ->
  1 <= p -> p <= nPage (ck_hdr s) \/ mxF <> mxFrame (ck_hdr s) ->
  exists rc s', walCheckpoint bo host_big shmMap e w minFrame al s = Some (rc, s')
    /\ view ps (ck_szPage s) (ck_wal s') (ck_db s') minF mxF p = view ps (ck_szPage s) (ck_wal s) (ck_db s) minF mxF p
    /\ aget (aReadMark (ck_info s')) i = Some y.
Proof.
  intros Hpre Hi Hh Hy HmxF Hminf Hp Hlim. pose proof Hpre as (Hw & Hps & Hmin & Hok & _).
  destruct (checkpoint_run bo host_big shmMap e w ps minFrame al s Hpre) as (rc & s1 & s' & E & Hw1 & Hh1 & Hs1 & Hc & Hu & Hdb & Hr).
  exists rc, s'. split; [done|].
  destruct Hr as [->|(_ & [xB Hlk] & _)]; [|exfalso; by apply (Hh xB (WAL_READ_LOCK 1) 4); [unfold WAL_READ_LOCK; lia|]].
  split; [|by rewrite Hu]. destruct Hc as [(Hdb1 & _)|(mxSafe & _ & Hsafe & Hbf)]; [by rewrite Hdb1, Hw1|].
  specialize (Hsafe i y Hi Hh Hy). pose proof (bf_safe _ _ _ _ Hbf). pose proof (ok_mx _ _ Hok). pose proof (ok_shm _ _ Hok).
  eapply backfilled_view; try done; lia.
Qed.

(** ** Properties *)

(** A log of three frames for the pages 1, 2 and 1. *)
Definition ckpt_pages : list Z := [1; 2; 1].
Definition ckpt_hdr : WalIndexHdr := MkHdr 3007000 0 1 1 false 512 3 2 (1, 2) [1; 2; 3; 4; 5; 6; 7; 8] (0, 0).
Definition ckpt_wal : file :=
  replicate 32 0 ++ (replicate 24 0 ++ replicate 512 1) ++ (replicate 24 0 ++ replicate 512 2) ++ (replicate 24 0 ++ replicate 512 3).
Definition ckpt_start (io : list io_res) (marks : list Z) : Ckpt :=
  MkCk io [] (Some []) [] (replicate 1024 9) ckpt_wal (MkCkpt 0 marks 0) ckpt_hdr ckpt_hdr 0.

(** The locks when one byte is held by another connection. *)
Definition locks_but (b j n : Z) : attempts := if (j <=? b) && (b <? j + n) then (SQLITE_BUSY, []) else (SQLITE_OK, []).

Lemma locks_but_held b : held (locks_but b) b.
Proof. intros xB j n H. unfold locks_but. destruct (Z.leb_spec j b), (Z.ltb_spec b (j + n)); try lia. done. Qed.

Lemma ckpt_start_pre e w io marks : index_ok w ckpt_pages -> io_ok io -> alen marks = 5 -> Forall (fun y => 0 <= y) marks ->
  e_salt1 e = [1; 2; 3; 4] -> ckpt_pre e w ckpt_pages 1 (ckpt_start io marks).
Proof.
  intros Hw Hio Hm Hmf Hs. split_and!; try done.
  - unfold NO_PAGE, ckpt_pages. repeat constructor; lia.
  - split; try done; cbn; unfold is_u32, is_u16; try (cbn; lia). split; [done|]. apply (bool_decide_unpack _). vm_compute. exact I.
  - by rewrite Hs.
  - rewrite Hs. apply (bool_decide_unpack _). vm_compute. exact I.
Qed.

Lemma ckpt_index : exists w, index_frames (fun _ => SQLITE_OK) ∅ 0 0 ckpt_pages = Some (SQLITE_OK, w) /\ index_ok w ckpt_pages.
Proof. apply index_of_pages; [repeat constructor; lia|unfold alen; simpl; lia]. Qed.

(** C1. Readers of the log are isolated from a checkpoint.  A connection that
    holds read lock [i] reads the frames [minF..mxF], where its mark is at most
    [mxF] and its first frame at most the one after the back-fill mark.
    Whatever becomes of the checkpoint (full or partial, a failed or torn
    write, an interrupt, an error of the callback, another lock refused) every
    page of its snapshot reads as before, and its mark is kept. *)
Theorem walCheckpoint_isolates_readers bo host_big shmMap e w ps minFrame al s i y minF mxF p :
  ckpt_pre e w ps minFrame s -> 1 <= i <= 4 -> held (e_locks e) (WAL_READ_LOCK i) ->
  aget (aReadMark (ck_info s)) i = Some y -> y <= mxF <= mxFrame (ck_shm s) -> 1 <= minF <= nBackfill (ck_info s) + 1 ->
  1 <= p -> p <= nPage (ck_hdr s) \/ mxF <> mxFrame (ck_hdr s) ->
  exists rc s', walCheckpoint bo host_big shmMap e w minFrame al s = Some (rc, s')
    /\ view ps (ck_szPage s) (ck_wal s') (ck_db s') minF mxF p = view ps (ck_szPage s) (ck_wal s) (ck_db s) minF mxF p
    /\ aget (aReadMark (ck_info s')) i = Some y.
Proof. apply checkpoint_view. Qed.

(** A reader at frame 2, and a write that fails half way. *)
Lemma walCheckpoint_isolates_readers_witness : exists w,
  index_frames (fun _ => SQLITE_OK) ∅ 0 0 ckpt_pages = Some (SQLITE_OK, w) /\
  let s := ckpt_start [IoOk; IoOk; IoOk; IoErr SQLITE_IOERR [7; 7]] [0; 2; READMARK_NOT_USED; READMARK_NOT_USED; READMARK_NOT_USED] in
  exists rc s', walCheckpoint BO_1234 false (fun _ => SQLITE_OK)
      (MkEnv SQLITE_CHECKPOINT_PASSIVE false (locks_but (WAL_READ_LOCK 1)) [1; 2; 3; 4] None) w 1 [] s = Some (rc, s')
    /\ view ckpt_pages (ck_szPage s) (ck_wal s') (ck_db s') 1 2 1 = view ckpt_pages (ck_szPage s) (ck_wal s) (ck_db s) 1 2 1
    /\ aget (aReadMark (ck_info s')) 1 = Some 2.
Proof.
  destruct ckpt_index as (w & E & Hw). exists w. split; [exact E|].
  apply (walCheckpoint_isolates_readers BO_1234 false (fun _ => SQLITE_OK)
    (MkEnv SQLITE_CHECKPOINT_PASSIVE false (locks_but (WAL_READ_LOCK 1)) [1; 2; 3; 4] None) w ckpt_pages 1 []
    (ckpt_start [IoOk; IoOk; IoOk; IoErr SQLITE_IOERR [7; 7]] [0; 2; READMARK_NOT_USED; READMARK_NOT_USED; READMARK_NOT_USED]) 1 2 1 2 1).
  - apply ckpt_start_pre; [exact Hw|repeat constructor; discriminate|reflexivity|unfold READMARK_NOT_USED; repeat constructor; lia|reflexivity].
  - lia.
  - apply locks_but_held.
  - reflexivity.
  - cbn. lia.
  - cbn. lia.
  - lia.
  - left. cbn. lia.
Defined.

(** Readers that started when the whole log was back-filled hold read lock
    0 and read the database only: while one is there a checkpoint does not
    touch the database file. *)
Theorem walCheckpoint_isolates_db_readers bo host_big shmMap e w ps minFrame al s :
  ckpt_pre e w ps minFrame s -> held (e_locks e) (WAL_READ_LOCK 0) ->
  exists rc s', walCheckpoint bo host_big shmMap e w minFrame al s = Some (rc, s') /\ ck_db s' = ck_db s.
Proof.
  intros Hpre Hh.
  destruct (checkpoint_run bo host_big shmMap e w ps minFrame al s Hpre) as (rc & s1 & s' & E & _ & _ & _ & Hc & _ & Hdb & _).
  exists rc, s'. split; [done|]. rewrite Hdb. destruct Hc as [[? _]|(mxSafe & Hn & _)]; done.
Qed.

Lemma walCheckpoint_isolates_db_readers_witness : exists w,
  index_frames (fun _ => SQLITE_OK) ∅ 0 0 ckpt_pages = Some (SQLITE_OK, w) /\
  let s := ckpt_start [] [0; 3; 3; 3; 3] in
  exists rc s', walCheckpoint BO_1234 false (fun _ => SQLITE_OK)
      (MkEnv SQLITE_CHECKPOINT_PASSIVE false (locks_but (WAL_READ_LOCK 0)) [1; 2; 3; 4] None) w 1 [] s = Some (rc, s')
    /\ ck_db s' = ck_db s.
Proof.
  destruct ckpt_index as (w & E & Hw). exists w. split; [exact E|].
  apply (walCheckpoint_isolates_db_readers BO_1234 false (fun _ => SQLITE_OK)
    (MkEnv SQLITE_CHECKPOINT_PASSIVE false (locks_but (WAL_READ_LOCK 0)) [1; 2; 3; 4] None) w ckpt_pages 1 []
    (ckpt_start [] [0; 3; 3; 3; 3])).
  - apply ckpt_start_pre; [exact Hw|constructor|reflexivity|repeat constructor; lia|reflexivity].
  - apply locks_but_held.
Defined.

(** C2. A checkpoint never changes the content of the database: a reader that
    starts after it, at the back-fill mark and end of log it leaves, sees every
    page as one that started before it did, however the checkpoint ends, be the
    log copied, half copied, or reset and truncated. *)
Theorem walCheckpoint_preserves_content bo host_big shmMap e w ps minFrame al s p :
  ckpt_pre e w ps minFrame s -> 1 <= p <= nPage (ck_hdr s) ->
  exists rc s', walCheckpoint bo host_big shmMap e w minFrame al s = Some (rc, s')
    /\ new_view ps s s' p = new_view ps s s p.
Proof.
  intros Hpre Hp. pose proof Hpre as (Hw & Hps & Hmin & Hok & _ & _ & _ & Hwl).
  destruct (checkpoint_run bo host_big shmMap e w ps minFrame al s Hpre) as (rc & s1 & s' & E & Hw1 & Hh1 & Hs1 & Hc & _ & Hdb & Hr).
  exists rc, s'. split; [done|]. rewrite <- (outcome_new_view e ps s s1) by done.
  destruct Hr as [->|(HnB & _ & Hm & Hs' & _ & HnB')]; [done|]. unfold new_view. rewrite Hs', Hs1, Hdb.
  rewrite Hwl by (by rewrite Hm). unfold view.
  rewrite (latest_absent ps (Z.to_nat 0)) by (intros; lia). rewrite latest_absent; [done|].
  intros f Hf Hfm. pose proof (ok_mx _ _ Hok). lia.
Qed.

Lemma walCheckpoint_preserves_content_witness : exists w,
  index_frames (fun _ => SQLITE_OK) ∅ 0 0 ckpt_pages = Some (SQLITE_OK, w) /\
  let s := ckpt_start [IoOk; IoOk; IoOk; IoErr SQLITE_IOERR [7; 7]] [0; 3; 3; 3; 3] in
  exists rc s', walCheckpoint BO_1234 false (fun _ => SQLITE_OK)
      (MkEnv SQLITE_CHECKPOINT_TRUNCATE false (fun _ _ => (SQLITE_OK, [])) [1; 2; 3; 4] None) w 1 [] s = Some (rc, s')
    /\ new_view ckpt_pages s s' 2 = new_view ckpt_pages s s 2.
Proof.
  destruct ckpt_index as (w & E & Hw). exists w. split; [exact E|].
  apply (walCheckpoint_preserves_content BO_1234 false (fun _ => SQLITE_OK)
    (MkEnv SQLITE_CHECKPOINT_TRUNCATE false (fun _ _ => (SQLITE_OK, [])) [1; 2; 3; 4] None) w ckpt_pages 1 []
    (ckpt_start [IoOk; IoOk; IoOk; IoErr SQLITE_IOERR [7; 7]] [0; 3; 3; 3; 3]) 2).
  - apply ckpt_start_pre; [exact Hw|repeat constructor; discriminate|reflexivity|repeat constructor; lia|reflexivity].
  - cbn. lia.
Defined.

(** A checkpoint without obstacles, to its end. *)
Lemma checkpoint_completes bo host_big shmMap e w ps minFrame al s p :
  ckpt_pre e w ps minFrame s -> granted e s -> suffices e al s -> 1 <= p <= nPage (ck_hdr s) ->
  exists s', walCheckpoint bo host_big shmMap e w minFrame al s = Some (SQLITE_OK, s')
    /\ page_data (ck_db s') (ck_szPage s) p = new_view ps s s p
    /\ (if e_mode e =? SQLITE_CHECKPOINT_TRUNCATE
        then ck_wal s' = [] /\ mxFrame (ck_shm s') = 0 /\ nBackfill (ck_info s') = 0
        else nBackfill (ck_info s') = mxFrame (ck_hdr s)).
Proof.
  intros Hpre Hlk Hun Hp. pose proof Hpre as (Hw & Hps & Hmin & Hok & Hwf & Hsl & Hsu & Hwl). pose proof Hun as (Hal & Hcl & _ & Hshm & _).
  pose proof Hok as [Hmx Hsm HnB [Hml _] Hsz Hio].
  assert (exists s1, (if nBackfill (ck_info s) <? mxFrame (ck_hdr s) then ckpt_copy shmMap e w minFrame al s
     else Some (false, e_xBusy e, SQLITE_OK, s)) = Some (false, e_xBusy e, SQLITE_OK, s1) /\ nBackfill (ck_info s1) = mxFrame (ck_hdr s)
     /\ clean s1 /\ ck_wal s1 = ck_wal s /\ ck_hdr s1 = ck_hdr s /\ ck_shm s1 = ck_shm s
     /\ alen (aReadMark (ck_info s1)) = WAL_NREADER /\ copy_outcome ps e s s1)
    as (s1 & E1 & HnB1 & Hcl1 & Hw1 & Hh1 & Hs1 & Hm1 & Hc1).
  { destruct (Z.ltb_spec (nBackfill (ck_info s)) (mxFrame (ck_hdr s))).
    - destruct (copy_unhindered shmMap e w ps minFrame al s) as (s1 & E & ? & ?); try done. exists s1.
      destruct (ckpt_copy_spec shmMap w ps minFrame Hw Hps Hmin e al s Hok) as (?&?&?&?& E' &?&?&?&?&?&?&?&?); [done|].
      rewrite E in E'. by simplify_eq.
    - exists s. split_and!; try done; [lia|by left]. }
  assert (Hview : page_data (ck_db s1) (ck_szPage s) p = new_view ps s s p).
  { rewrite <- (outcome_new_view e ps s s1) by done. unfold new_view, view. rewrite latest_absent; [done|].
    intros f Hf Hfm. rewrite HnB1, Hs1 in *. lia. }
  unfold walCheckpoint. rewrite E1. cbn [mbind option_bind]. change (SQLITE_OK =? SQLITE_OK) with true. cbn [andb].
  destruct (Z.eqb_spec (e_mode e) SQLITE_CHECKPOINT_PASSIVE) as [Em|Hnp]; cbn [negb].
  { rewrite Em. change (SQLITE_CHECKPOINT_PASSIVE =? SQLITE_CHECKPOINT_TRUNCATE) with false. eauto. }
  unfold ckpt_restart. rewrite Hh1, HnB1, Z.ltb_irrefl. destruct (SQLITE_CHECKPOINT_RESTART <=? e_mode e) eqn:Er.
  2:{ destruct (Z.eqb_spec (e_mode e) SQLITE_CHECKPOINT_TRUNCATE) as [Em|_]; [by rewrite Em in Er|eauto]. }
  assert (walBusyLock (e_xBusy e) (e_locks e (WAL_READ_LOCK 1) (WAL_NREADER - 1)) = SQLITE_OK) as -> by (apply (Hlk WLog); [set_solver|exact Er]).
  change (SQLITE_OK =? SQLITE_OK) with true. cbn [andb]. destruct (Z.eqb_spec (e_mode e) SQLITE_CHECKPOINT_TRUNCATE) as [Em|_]; [|eauto].
  destruct (walRestartHdr_spec bo host_big e (conj Hsl Hsu) s1) as (s2 & h' & -> & _ & _ & Hs & Hmx' & _ & _ & Hdb & Hwl2 & Hio2 & Hi);
    [by rewrite Hh1|done|]. cbn [mbind option_bind]. unfold os_truncate. destruct Hcl1 as [Hio1 _]. rewrite Hio2, Hio1. cbn [io_next].
  eexists. split; [done|]. cbn [ck_set_wal ck_db ck_wal ck_shm ck_info]. by rewrite Hdb, Hs, Hi.
Qed.

(** C3. A checkpoint that nothing hinders succeeds and leaves every page in
    the database file: the mark reaches the end of the log and page [p] of the
    file is what readers saw.  In mode TRUNCATE the log is then empty and marked
    as reset. *)
Theorem walCheckpoint_completes bo host_big shmMap e w ps minFrame al s p :
  ckpt_pre e w ps minFrame s -> unhindered e al s -> 1 <= p <= nPage (ck_hdr s) ->
  exists s', walCheckpoint bo host_big shmMap e w minFrame al s = Some (SQLITE_OK, s')
    /\ page_data (ck_db s') (ck_szPage s) p = new_view ps s s p
    /\ (if e_mode e =? SQLITE_CHECKPOINT_TRUNCATE
        then ck_wal s' = [] /\ mxFrame (ck_shm s') = 0 /\ nBackfill (ck_info s') = 0
        else nBackfill (ck_info s') = mxFrame (ck_hdr s)).
Proof. intros Hpre [Hlk Hs]. apply checkpoint_completes; [done| |done]. intros x _ _. apply Hlk. Qed.

Lemma walCheckpoint_completes_witness : exists w,
  index_frames (fun _ => SQLITE_OK) ∅ 0 0 ckpt_pages = Some (SQLITE_OK, w) /\
  let s := ckpt_start [] [0; 3; 3; 3; 3] in
  exists s', walCheckpoint BO_1234 false (fun _ => SQLITE_OK)
      (MkEnv SQLITE_CHECKPOINT_TRUNCATE false (fun _ _ => (SQLITE_OK, [])) [1; 2; 3; 4] None) w 1 [] s = Some (SQLITE_OK, s')
    /\ page_data (ck_db s') (ck_szPage s) 1 = new_view ckpt_pages s s 1
    /\ ck_wal s' = [] /\ mxFrame (ck_shm s') = 0 /\ nBackfill (ck_info s') = 0.
Proof.
  destruct ckpt_index as (w & E & Hw). exists w. split; [exact E|].
  apply (walCheckpoint_completes BO_1234 false (fun _ => SQLITE_OK)
    (MkEnv SQLITE_CHECKPOINT_TRUNCATE false (fun _ _ => (SQLITE_OK, [])) [1; 2; 3; 4] None) w ckpt_pages 1 []
    (ckpt_start [] [0; 3; 3; 3; 3]) 1).
  - apply ckpt_start_pre; [exact Hw|constructor|reflexivity|repeat constructor; lia|reflexivity].
  - split; [intros b n; reflexivity|]. split; [constructor|]. split; [repeat constructor|]. split; [exact I|].
    split; [reflexivity|]. split; vm_compute; discriminate.
  - cbn. lia.
Defined.
