(* ===== verification/WalRecover.v ===== *)
(** * Write-ahead log: recovery ([src/wal.c])

    [walIndexRecover] rebuilds the wal-index from the bytes of the log file:
    it reads the file header and every frame up to the first that is not valid,
    enters the frames into the hash tables through a private buffer, remembers
    the last commit, and publishes the header.  The buffer comes from the heap
    unset; its initial content is an input. *)
From S2P Require Import Prelude Bytes FileIO WalBase WalFrame WalIndex WalIter WalHdr WalCkpt.

Definition SQLITE_MAX_PAGE_SIZE : Z := 65536.

(** The private copy of a wal-index page, as the words of its page numbers (on
    the first page the header takes the first of them) and its hash slots. *)
Record private : Type := MkPrivate { pr_words : list Z; pr_hash : list Z }.

Definition HDR_WORDS : nat := Eval cbv in Z.to_nat (WALINDEX_HDR_SIZE / 4).

Definition private_page (iPg : Z) (r : private) : HashPage :=
  MkPage (if iPg =? 0 then drop HDR_WORDS (pr_words r) else pr_words r) (pr_hash r).

Definition page_private (iPg : Z) (p : HashPage) (r : private) : private :=
  MkPrivate (if iPg =? 0 then take HDR_WORDS (pr_words r) ++ aPgno p else aPgno p) (aHash p).

(** The fields recovery computes. *)
Record scan : Type := MkScan {
  sc_io : list io_res;
  sc_hdr : WalIndexHdr;    (** [pWal->hdr] *)
  sc_cksum : Z * Z;        (** [aFrameCksum], the sum at the last commit *)
  sc_pages : WiData
}.

(** [pWal->hdr] at a commit *)
Definition commit_hdr (iFrame nTruncate szPage : Z) (h : WalIndexHdr) : WalIndexHdr :=
  MkHdr (iVersion h) (unused h) (iChange h) (isInit h) (bigEndCksum h) (u16 ((szPage .& 0xff00) .| (szPage >> 16)))
    iFrame nTruncate (aFrameCksum h) (aSalt h) (aCksum h).

Section Host.
Context (bo : byteorder) (host_big : bool) (shmMap : Z -> Z).

(** [for(iFrame=iFirst; iFrame<=iLast; iFrame++)], with [n] frames to go.  The
    second component of the result is true when the loop was left early. *)
Fixpoint recover_frames (n : nat) (wal : file) (szPage iFrame : Z) (s : scan) : option (Z * bool * scan) :=
  match n with
  | O => Some (SQLITE_OK, false, s)
  | S n =>
      let szFrame := szPage + WAL_FRAME_HDRSIZE in
      let '(rc, aFrame, io) := os_read (sc_io s) wal (walFrameOffset iFrame szPage) szFrame in
      let s := MkScan io (sc_hdr s) (sc_cksum s) (sc_pages s) in
      if negb (rc =? SQLITE_OK) then Some (rc, true, s)
      else
        '(v, h) ← walDecodeFrame bo host_big (sc_hdr s) szPage (drop 24 aFrame) (take 24 aFrame);
        let s := MkScan (sc_io s) h (sc_cksum s) (sc_pages s) in
        match v with
        | None => Some (SQLITE_OK, true, s)
        | Some (pgno, nTruncate) =>
            '(rc, w) ← walIndexAppend shmMap (sc_pages s) (mxFrame (sc_hdr s)) iFrame pgno;
            let s := MkScan (sc_io s) (sc_hdr s) (sc_cksum s) w in
            if negb (rc =? SQLITE_OK) then Some (rc, true, s)
            else
              let s := if nTruncate =? 0 then s
                       else MkScan (sc_io s) (commit_hdr iFrame nTruncate szPage (sc_hdr s)) (aFrameCksum (sc_hdr s)) (sc_pages s) in
              recover_frames n wal szPage (iFrame + 1) s
        end
  end.

(** [for(iPg=0; iPg<=walFramePage(iLastFrame); iPg++)], with [n] pages to go *)
Fixpoint recover_pages (n : nat) (wal : file) (szPage iLastFrame iPg : Z) (r : private) (s : scan) : option (Z * scan) :=
  match n with
  | O => Some (SQLITE_OK, s)
  | S n =>
      let iLast := Z.min iLastFrame (HASHTABLE_NPAGE_ONE + iPg * HASHTABLE_NPAGE) in
      let iFirst := 1 + (if iPg =? 0 then 0 else HASHTABLE_NPAGE_ONE + (iPg - 1) * HASHTABLE_NPAGE) in
      match walIndexPage shmMap (sc_pages s) iPg with
      | (rc, None, w) => Some (rc, MkScan (sc_io s) (sc_hdr s) (sc_cksum s) w)
      | (_, Some _, w) =>
          let w := <[iPg := private_page iPg r]> w in
          '(rc, early, s) ← recover_frames (Z.to_nat (iLast - iFirst + 1)) wal szPage iFirst
                              (MkScan (sc_io s) (sc_hdr s) (sc_cksum s) w);
          p ← sc_pages s !! iPg;
          if (early : bool) then Some (rc, s)
          else recover_pages n wal szPage iLastFrame (iPg + 1) (page_private iPg p r) s
      end
  end.

Record Recover : Type := MkRecover {
  rv_szPage : Z;
  rv_nCkpt : Z;
  rv_hdr : WalIndexHdr;
  rv_shm : WalIndexHdr;    (** both copies of the shared header *)
  rv_info : WalCkptInfo;
  rv_pages : WiData;
  rv_io : list io_res
}.

(** The page size field of the file header, acceptable or not. *)
Definition pagesize_ok (szPage : Z) : bool :=
  negb (negb (szPage .& (szPage - 1) =? 0) || (szPage >? SQLITE_MAX_PAGE_SIZE) || (szPage <? 512)).

(** From the size of the file to the label [finished].  The first component
    of the result is true after [goto recovery_error]. *)
Definition recover_log (wal : file) (r : private) (al : alloc) (v : Recover) : option (bool * Z * scan * Recover) :=
  let h := zero_hdr in
  let done io := MkScan io h (0, 0) (rv_pages v) in
  let '(rc, nSize, io) := os_filesize (rv_io v) wal in
  if negb (rc =? SQLITE_OK) then Some (true, rc, done io, v)
  else if negb (nSize >? WAL_HDRSIZE) then Some (false, SQLITE_OK, done io, v)
  else
    let '(rc, aBuf, io) := os_read io wal 0 WAL_HDRSIZE in
    if negb (rc =? SQLITE_OK) then Some (true, rc, done io, v)
    else
      magic ← sqlite3Get4byte bo aBuf;
      sz ← sqlite3Get4byte bo (drop 8 aBuf);
      let szPage := i32 sz in
      if negb (magic .& 0xFFFFFFFE =? WAL_MAGIC) || negb (pagesize_ok szPage)
      then Some (false, SQLITE_OK, done io, v)
      else
        nCkpt ← sqlite3Get4byte bo (drop 12 aBuf);
        let v := MkRecover szPage nCkpt (rv_hdr v) (rv_shm v) (rv_info v) (rv_pages v) (rv_io v) in
        let h := MkHdr 0 0 0 0 (negb (magic .& 1 =? 0)) 0 0 0 (0, 0) (take 8 (drop 16 aBuf)) (0, 0) in
        c ← walChecksumBytes host_big (nativeCksum host_big h) aBuf (WAL_HDRSIZE - 8) None;
        let h := set_aFrameCksum c h in
        let done io := MkScan io h (0, 0) (rv_pages v) in
        c0 ← sqlite3Get4byte bo (drop 24 aBuf);
        c1 ← sqlite3Get4byte bo (drop 28 aBuf);
        if negb (fst c =? c0) || negb (snd c =? c1) then Some (false, SQLITE_OK, done io, v)
        else
          version ← sqlite3Get4byte bo (drop 4 aBuf);
          if negb (version =? WAL_MAX_VERSION) then Some (false, SQLITE_CANTOPEN, done io, v)
          else
            let '(ok, al) := malloc al in
            if negb ok then Some (true, SQLITE_NOMEM, done io, v)
            else
              let iLastFrame := u32 ((nSize - WAL_HDRSIZE) / (szPage + WAL_FRAME_HDRSIZE)) in
              '(rc, s) ← recover_pages (Z.to_nat (walFramePage iLastFrame + 1)) wal szPage iLastFrame 0 r (done io);
              Some (false, rc, s, v).

(** [for(i=1; i<WAL_NREADER; i++)], with the indices left; [None] for the rest
    after [goto recovery_error] *)
Fixpoint recover_marks (lock : Z -> Z) (mx rc : Z) (marks : list Z) (ix : list Z) : option (Z * list Z) :=
  match ix with
  | [] => Some (rc, marks)
  | i :: ix =>
      let rc := lock i in
      if rc =? SQLITE_OK then
        marks ← aset marks i (if (i =? 1) && negb (mx =? 0) then mx else READMARK_NOT_USED);
        recover_marks lock mx rc marks ix
      else if negb (rc =? SQLITE_BUSY) then Some (rc, marks)
      else recover_marks lock mx rc marks ix
  end.

(** [lockAll] is the result of locking everything but the write lock, [lock]
    those of the read locks. *)
Definition walIndexRecover (lockAll : Z) (lock : Z -> Z) (wal : file) (r : private) (al : alloc) (v : Recover)
    : option (Z * Recover) :=
  if negb (lockAll =? SQLITE_OK) then Some (lockAll, v)
  else
    '(err, rc, s, v) ← recover_log wal r al v;
    let v := MkRecover (rv_szPage v) (rv_nCkpt v) (sc_hdr s) (rv_shm v) (rv_info v) (sc_pages s) (sc_io s) in
    if (err : bool) || negb (rc =? SQLITE_OK) then Some (rc, v)
    else
      h ← walIndexWriteHdr host_big (set_aFrameCksum (sc_cksum s) (sc_hdr s));
      marks ← aset (aReadMark (rv_info v)) 0 0;
      '(rc, marks) ← recover_marks lock (mxFrame h) rc marks [1; 2; 3; 4];
      Some (rc, MkRecover (rv_szPage v) (rv_nCkpt v) h h (MkCkpt 0 marks (mxFrame h)) (sc_pages s) (sc_io s)).
End Host.

(** ** The format of a log

    A log is the sequence of its frames.  Each frame is chained to the one
    before by the running checksum. *)
Record entry : Type := MkEntry { en_pgno : Z; en_truncate : Z; en_data : list Z }.

Definition entry_ok (szPage : Z) (e : entry) : Prop :=
  0 < en_pgno e < 2 ^ 32 /\ is_u32 (en_truncate e) /\ page_ok szPage (en_data e).

Definition entry_head (e : entry) : list Z := store32 true (en_pgno e) ++ store32 true (en_truncate e).

(** The running checksum after a frame and the bytes of the frame. *)
Definition entry_cksum (big : bool) (ck : Z * Z) (e : entry) : Z * Z :=
  cksum_spec big (cksum_spec big ck (entry_head e)) (en_data e).

Definition entry_bytes (big : bool) (salt : list Z) (ck : Z * Z) (e : entry) : list Z :=
  entry_head e ++ salt ++ cksum_bytes (entry_cksum big ck e) ++ en_data e.

Fixpoint log_cksum (big : bool) (ck : Z * Z) (es : list entry) : Z * Z :=
  match es with [] => ck | e :: es => log_cksum big (entry_cksum big ck e) es end.

(** The file holds the frames [es] from frame [k] on. *)
Fixpoint frames_at (big : bool) (salt : list Z) (szPage : Z) (wal : file) (k : Z) (ck : Z * Z) (es : list entry) : Prop :=
  match es with
  | [] => True
  | e :: es =>
      entry_ok szPage e /\ walFrameOffset (k + 1) szPage <= alen wal
      /\ fread wal (walFrameOffset k szPage) (szPage + WAL_FRAME_HDRSIZE) = entry_bytes big salt ck e
      /\ frames_at big salt szPage wal (k + 1) (entry_cksum big ck e) es
  end.

(** The state of the last commit among the frames from [k] on: frame, size of
    the database and checksum. *)
Fixpoint last_commit (big : bool) (ck : Z * Z) (k : Z) (acc : Z * Z * (Z * Z)) (es : list entry) : Z * Z * (Z * Z) :=
  match es with
  | [] => acc
  | e :: es =>
      let ck := entry_cksum big ck e in
      last_commit big ck (k + 1) (if en_truncate e =? 0 then acc else (k, en_truncate e, ck)) es
  end.

Lemma entry_head_bytes e : Forall is_u8 (entry_head e).
Proof. apply Forall_app_2; apply store32_bytes. Qed.

Lemma entry_head_length e : length (entry_head e) = 8%nat.
Proof. unfold entry_head. by rewrite length_app, !store32_length. Qed.

Lemma frames_at_app big salt szPage wal es : forall k ck es',
  frames_at big salt szPage wal k ck (es ++ es') <->
  frames_at big salt szPage wal k ck es /\ frames_at big salt szPage wal (k + alen es) (log_cksum big ck es) es'.
Proof.
  induction es as [|e es IH]; intros k ck es'; cbn [app frames_at log_cksum].
  - unfold alen. cbn. rewrite Z.add_0_r. tauto.
  - rewrite IH. replace (k + alen (e :: es)) with (k + 1 + alen es) by (unfold alen; cbn [length]; lia). tauto.
Qed.

Lemma last_commit_app big es : forall ck k acc es',
  last_commit big ck k acc (es ++ es') = last_commit big (log_cksum big ck es) (k + alen es) (last_commit big ck k acc es) es'.
Proof.
  induction es as [|e es IH]; intros ck k acc es'; cbn [app last_commit log_cksum].
  - unfold alen. cbn. by rewrite Z.add_0_r.
  - rewrite IH. f_equal. unfold alen. cbn [length]. lia.
Qed.

(** ** One frame *)
Section Decode.
Context (bo : byteorder) (host_big : bool) (h : WalIndexHdr) (Hh : hdr_ok h) (szPage : Z) (Hsz : 8 <= szPage /\ szPage mod 8 = 0).

Lemma decode_entry e : entry_ok szPage e ->
  let b := entry_bytes (bigEndCksum h) (aSalt h) (aFrameCksum h) e in
  walDecodeFrame bo host_big h szPage (drop 24 b) (take 24 b)
  = Some (Some (en_pgno e, en_truncate e), set_aFrameCksum (entry_cksum (bigEndCksum h) (aFrameCksum h) e) h).
Proof.
  intros (Hp & Hn & Hd) b. pose proof (entry_head_length e) as Lh. pose proof (ok_salt h Hh) as Ls.
  set (c := cksum_bytes (entry_cksum (bigEndCksum h) (aFrameCksum h) e)).
  assert (Lc : length c = 8%nat) by done.
  assert (Eb : b = (entry_head e ++ aSalt h ++ c) ++ en_data e) by (unfold b, entry_bytes; by rewrite <- !app_assoc).
  assert (Hl : length (entry_head e ++ aSalt h ++ c) = 24%nat) by (rewrite !length_app; lia).
  rewrite Eb, drop_app_length', take_app_length' by done.
  assert (HF : Forall is_u8 (entry_head e ++ aSalt h ++ c)).
  { apply Forall_app_2; [apply entry_head_bytes|]. apply Forall_app_2; [apply Hh|].
    apply Forall_app_2; apply store32_bytes. }
  destruct (decode_frame bo host_big h Hh szPage (en_data e) Hd _ _ _ HF Lh Ls Lc) as (pg & nt & E1 & E2 & ->).
  unfold entry_head in E1, E2. rewrite load_store in E1 by (unfold is_u32; lia).
  rewrite drop_app_length', <- (app_nil_r (store32 true (en_truncate e))), load_store in E2 by (rewrite ?store32_length; done).
  simplify_eq. rewrite !bool_decide_true by done. destruct (Z.eqb_spec (en_pgno e) 0); [lia|]. done.
Qed.

Lemma decode_entry_inv b v h1 : alen b = szPage + 24 -> Forall is_u8 b ->
  walDecodeFrame bo host_big h szPage (drop 24 b) (take 24 b) = Some (Some v, h1) ->
  exists e, entry_ok szPage e /\ b = entry_bytes (bigEndCksum h) (aSalt h) (aFrameCksum h) e.
Proof.
  intros Hl HF E. assert (Hd : page_ok szPage (drop 24 b)).
  { split_and!; [unfold alen in *; rewrite length_drop; lia|lia|lia|by apply Forall_drop]. }
  assert (alen (take 24 b) = WAL_FRAME_HDRSIZE) as Lh by (unfold alen, WAL_FRAME_HDRSIZE in *; rewrite length_take; lia).
  unfold alen, WAL_FRAME_HDRSIZE in Lh. pose proof (Forall_take _ 24 _ HF) as HFt.
  destruct (split_units (take 24 b) 16) as (a & r & Ea & La & Lr); [lia|].
  destruct (split_units r 8) as (sa & c & -> & Lb & Lc); [lia|]. rewrite Ea in E, HFt.
  destruct (decode_frame bo host_big h Hh szPage _ Hd a sa c HFt La Lb Lc) as (pg & nt & E1 & E2 & E3).
  rewrite E3 in E. case_bool_decide as Hs; cbn [negb orb] in E; [|done]. destruct (Z.eqb_spec pg 0) as [|Hpg]; [done|].
  case_bool_decide as Hc; [|done].
  apply Forall_app in HFt as [HFa _]. do 8 (destruct a as [|? a]; [done|]). destruct a; [|done]. clear La.
  change (drop 4 [z; z0; z1; z2; z3; z4; z5; z6]) with [z3; z4; z5; z6] in E2.
  change (load32 true [z; z0; z1; z2] = Some pg) in E1.
  rewrite !Forall_cons in HFa. destruct HFa as (?&?&?&?&?&?&?&?&_).
  assert (Forall is_u8 [z; z0; z1; z2] /\ Forall is_u8 [z3; z4; z5; z6]) as [HF1 HF2] by (by rewrite !Forall_cons).
  pose proof (load32_range _ _ _ HF1 E1) as R1. pose proof (load32_range _ _ _ HF2 E2) as R2. unfold is_u32 in R1.
  exists (MkEntry pg nt (drop 24 b)). split; [split_and!; cbn [en_pgno en_truncate en_data]; try done; lia|].
  assert (Ehd : entry_head (MkEntry pg nt (drop 24 b)) = [z; z0; z1; z2; z3; z4; z5; z6]).
  { unfold entry_head. cbn [en_pgno en_truncate]. by rewrite (store_load _ _ _ _ _ _ HF1 E1), (store_load _ _ _ _ _ _ HF2 E2). }
  rewrite <- (take_drop 24 b) at 1. rewrite Ea. unfold entry_bytes, entry_cksum. rewrite Ehd. cbn [en_data].
  rewrite Hc, Hs. unfold frame_cksum. by rewrite <- !app_assoc.
Qed.
End Decode.

Lemma entry_cksum_range big ck e : is_u32_pair ck -> is_u32_pair (entry_cksum big ck e).
Proof. intros. by apply cksum_spec_range, cksum_spec_range. Qed.

Lemma log_cksum_range big es : forall ck, is_u32_pair ck -> is_u32_pair (log_cksum big ck es).
Proof. induction es as [|e es IH]; intros ck H; [done|]. by apply IH, entry_cksum_range. Qed.

Lemma log_cksum_app big es : forall ck es', log_cksum big ck (es ++ es') = log_cksum big (log_cksum big ck es) es'.
Proof. induction es as [|e es IH]; intros ck es'; [done|]. apply IH. Qed.

Lemma decode_hdr bo big h szPage data hd :
  hdr_ok h -> page_ok szPage data -> alen hd = WAL_FRAME_HDRSIZE -> Forall is_u8 hd ->
  exists o h', walDecodeFrame bo big h szPage data hd = Some (o, h') /\
    (h' = h \/ exists c, is_u32_pair c /\ h' = set_aFrameCksum c h).
Proof.
  intros Hh Hd Hl HF. unfold alen, WAL_FRAME_HDRSIZE in Hl.
  destruct (split_units hd 16) as (a & r & -> & La & Lr); [lia|].
  destruct (split_units r 8) as (b & c & -> & Lb & Lc); [lia|].
  destruct (decode_frame bo big h Hh szPage data Hd a b c HF La Lb Lc) as (pg & nt & _ & _ & ->).
  destruct (_ || _); eexists _, _; (split; [done|]); [by left|right]. eexists. split; [|done].
  apply cksum_spec_range, cksum_spec_range, Hh.
Qed.

Lemma os_read_clean io f off n rc d io' : os_read io f off n = (rc, d, io') -> io = [] -> off + n <= alen f ->
  rc = SQLITE_OK /\ io' = [].
Proof. intros E -> Hl. unfold os_read in E. cbn in E. destruct (Z.leb_spec (off + n) (alen f)); [by simplify_eq|lia]. Qed.

Lemma index_ok_insert w ps i p : index_ok w ps -> alen ps <= zero_of i -> index_ok (<[i := p]> w) ps.
Proof.
  intros (Hmax & HF & Htab) Hz. split_and!; try done. intros j Hj Hlt. destruct (Htab j Hj Hlt) as (q & Hq & Hok).
  exists q. split; [|done]. rewrite lookup_insert_ne; [done|]. intros ->. lia.
Qed.

Lemma hdr_wf_ok h : hdr_wf h -> hdr_ok h.
Proof. intros H. destruct (wf_salt _ H). constructor; [done..|apply H]. Qed.

Lemma hdr_wf_cksum c h : is_u32_pair c -> hdr_wf h -> hdr_wf (set_aFrameCksum c h).
Proof. intros Hc []. by constructor. Qed.

(** ** The scan *)
Section Scan.
Context (bo : byteorder) (host_big : bool) (shmMap : Z -> Z).
Context (wal : file) (szPage : Z) (big : bool) (salt : list Z) (ck0 : Z * Z).
Context (Hwal : Forall is_u8 wal) (Hsz : 8 <= szPage /\ szPage mod 8 = 0) (Hck0 : is_u32_pair ck0).

Definition size_field : Z := u16 ((szPage .& 0xff00) .| (szPage >> 16)).

(** The scan has found the frames [es]. *)
Record scanned (es : list entry) (s : scan) : Prop := {
  sd_wf : hdr_wf (sc_hdr s);
  sd_log : bigEndCksum (sc_hdr s) = big /\ aSalt (sc_hdr s) = salt;
  sd_commit : (mxFrame (sc_hdr s), nPage (sc_hdr s), sc_cksum s) = last_commit big ck0 1 (0, 0, (0, 0)) es;
  sd_mx : 0 <= mxFrame (sc_hdr s) <= alen es;
  sd_size : mxFrame (sc_hdr s) <> 0 -> hdr_szPage (sc_hdr s) = size_field;
  sd_cksum : is_u32_pair (sc_cksum s);
  sd_frames : frames_at big salt szPage wal 1 ck0 es;
  sd_index : index_ok (sc_pages s) (map en_pgno es);
  sd_io : io_ok (sc_io s)
}.

Definition running (es : list entry) (s : scan) : Prop := aFrameCksum (sc_hdr s) = log_cksum big ck0 es.

(** No valid frame follows. *)
Definition log_end (es : list entry) : Prop := forall e, ~ frames_at big salt szPage wal 1 ck0 (es ++ [e]).

Lemma scanned_io es s io : io_ok io -> scanned es s -> scanned es (MkScan io (sc_hdr s) (sc_cksum s) (sc_pages s)).
Proof. intros Hio []. by constructor. Qed.

Lemma scanned_cksum es s c : is_u32_pair c -> scanned es s ->
  scanned es (MkScan (sc_io s) (set_aFrameCksum c (sc_hdr s)) (sc_cksum s) (sc_pages s)).
Proof. intros Hc []. constructor; try done. by apply hdr_wf_cksum. Qed.

(** A frame that is entered into the index, and perhaps a commit. *)
Definition take_entry (e : entry) (k : Z) (h : WalIndexHdr) (w : WiData) (s : scan) : scan :=
  if en_truncate e =? 0 then MkScan (sc_io s) h (sc_cksum s) w
  else MkScan (sc_io s) (commit_hdr k (en_truncate e) szPage h) (aFrameCksum h) w.

Lemma scanned_entry es s e w : scanned es s -> running es s -> alen es + 1 < 2 ^ 32 ->
  frames_at big salt szPage wal 1 ck0 (es ++ [e]) -> index_ok w (map en_pgno (es ++ [e])) ->
  let h := set_aFrameCksum (entry_cksum big (aFrameCksum (sc_hdr s)) e) (sc_hdr s) in
  let s' := take_entry e (alen es + 1) h w s in
  scanned (es ++ [e]) s' /\ running (es ++ [e]) s'.
Proof.
  intros [Hwf [Hb Hs] Hc Hmx Hsize Hck Hf Hi Hio] Hrun Hlt Hfr Hix h s'.
  assert (Hck' : is_u32_pair (entry_cksum big (aFrameCksum (sc_hdr s)) e)) by apply entry_cksum_range, Hwf.
  pose proof (hdr_wf_cksum _ _ Hck' Hwf) as Hwf'. fold h in Hwf'.
  assert (Hent : entry_ok szPage e) by (apply frames_at_app in Hfr as [_ [H _]]; done).
  assert (Hrun' : aFrameCksum h = log_cksum big ck0 (es ++ [e])) by (rewrite log_cksum_app; cbn; by rewrite Hrun).
  assert (Hl : alen (es ++ [e]) = alen es + 1) by (rewrite alen_app; done).
  unfold s', take_entry. destruct (Z.eqb_spec (en_truncate e) 0) as [Ez|Hnz].
  - split; [|done]. constructor; try done; cbn [sc_hdr sc_cksum sc_pages sc_io]; [|rewrite Hl; cbn; lia].
    rewrite last_commit_app. cbn [last_commit]. rewrite Ez. cbn [Z.eqb]. by rewrite <- Hc.
  - split; [|done]. constructor; try done; cbn [sc_hdr sc_cksum sc_pages sc_io].
    + destruct Hwf'. destruct Hent as (_ & Hn & _). pose proof (alen_nonneg es).
      constructor; try done; cbn; unfold is_u32; try lia. apply u16_range.
    + rewrite last_commit_app. cbn [last_commit]. destruct (Z.eqb_spec (en_truncate e) 0); [done|].
      cbn. rewrite Hrun. do 2 f_equal. lia.
    + rewrite Hl. cbn. pose proof (alen_nonneg es). lia.
Qed.

Lemma scanned_ok es s : scanned es s -> hdr_ok (sc_hdr s).
Proof. intros []. by apply hdr_wf_ok. Qed.

(** The frame after [es] is read; [b] are its bytes. *)
Lemma next_entry es s b : scanned es s -> running es s ->
  b = fread wal (walFrameOffset (alen es + 1) szPage) (szPage + WAL_FRAME_HDRSIZE) ->
  walFrameOffset (alen es + 1 + 1) szPage <= alen wal ->
  exists v h, walDecodeFrame bo host_big (sc_hdr s) szPage (drop 24 b) (take 24 b) = Some (v, h) /\
    match v with
    | None => log_end es /\ (h = sc_hdr s \/ exists c, is_u32_pair c /\ h = set_aFrameCksum c (sc_hdr s))
    | Some (pgno, nTruncate) => exists e, frames_at big salt szPage wal 1 ck0 (es ++ [e]) /\ entry_ok szPage e /\
        pgno = en_pgno e /\ nTruncate = en_truncate e /\ h = set_aFrameCksum (entry_cksum big (aFrameCksum (sc_hdr s)) e) (sc_hdr s)
    end.
Proof.
  intros Hsc Hrun Eb Hlen. pose proof (scanned_ok _ _ Hsc) as Hh. pose proof (sd_log _ _ Hsc) as [Hb Hs].
  assert (Hbl : alen b = szPage + 24) by (subst b; apply alen_fread; unfold WAL_FRAME_HDRSIZE; lia).
  assert (HFb : Forall is_u8 b) by (subst b; by apply fread_u8).
  assert (Hnext : forall e, frames_at big salt szPage wal 1 ck0 (es ++ [e]) <->
            entry_ok szPage e /\ b = entry_bytes (bigEndCksum (sc_hdr s)) (aSalt (sc_hdr s)) (aFrameCksum (sc_hdr s)) e).
  { intros e. rewrite frames_at_app. cbn [frames_at]. rewrite Hb, Hs, Hrun, (Z.add_comm 1 (alen es)), <- Eb.
    pose proof (sd_frames _ _ Hsc). tauto. }
  destruct (decode_hdr bo host_big (sc_hdr s) szPage (drop 24 b) (take 24 b)) as (v & h & E & Hh'); try done.
  { split_and!; [unfold alen in *; rewrite length_drop; lia|lia|lia|by apply Forall_drop]. }
  { unfold alen, WAL_FRAME_HDRSIZE in *. rewrite length_take. lia. }
  { by apply Forall_take. }
  exists v, h. split; [done|]. destruct v as [[pg nt]|].
  - destruct (decode_entry_inv bo host_big _ Hh szPage Hsz b _ _ Hbl HFb E) as (e & He & Ee).
    exists e. split; [by apply Hnext|]. split; [done|].
    pose proof (decode_entry bo host_big _ Hh szPage e He) as Hd. cbv zeta in Hd. rewrite <- Ee, E, Hb in Hd. by simplify_eq.
  - split; [|done]. intros e [He Ee]%Hnext.
    pose proof (decode_entry bo host_big _ Hh szPage e He) as Hd. cbv zeta in Hd. by rewrite <- Ee, E in Hd.
Qed.

(** [n] frames of page [iPg], which is mapped. *)
Lemma recover_frames_spec iPg : 0 <= iPg -> forall n es s,
  scanned es s -> running es s -> is_Some (sc_pages s !! iPg) ->
  zero_of iPg <= alen es -> alen es + Z.of_nat n <= zero_of iPg + page_entries iPg ->
  walFrameOffset (alen es + Z.of_nat n + 1) szPage <= alen wal -> alen es + Z.of_nat n < 2 ^ 32 - 4096 ->
  exists rc early s' es', recover_frames bo host_big shmMap n wal szPage (alen es + 1) s = Some (rc, early, s') /\
    scanned (es ++ es') s' /\ is_Some (sc_pages s' !! iPg) /\
    (if early then rc = SQLITE_OK -> log_end (es ++ es')
     else rc = SQLITE_OK /\ alen es' = Z.of_nat n /\ running (es ++ es') s') /\
    (sc_io s = [] -> rc = SQLITE_OK /\ sc_io s' = []).
Proof.
  intros HiPg. induction n as [|n IH]; intros es s Hsc Hrun Hmap Hz Hcap Hlen Hmax.
  { exists SQLITE_OK, false, s, []. rewrite app_nil_r. done. }
  pose proof (alen_nonneg es) as He0. cbn [recover_frames].
  destruct (os_read _ _ _ _) as [[rc b] io] eqn:Er. pose proof (os_read_io _ _ _ _ _ _ _ (sd_io _ _ Hsc) Er) as Hio.
  assert (Hcl : sc_io s = [] -> rc = SQLITE_OK /\ io = []).
  { intros Eio. apply os_read_clean in Er; [done|done|].
    unfold walFrameOffset, WAL_HDRSIZE, WAL_FRAME_HDRSIZE in *. nia. }
  destruct (Z.eqb_spec rc SQLITE_OK) as [->|Hne]; cbn [negb].
  2:{ exists rc, true. eexists. exists []. split; [done|]. rewrite app_nil_r.
      split_and!; [by apply scanned_io|done|done|by intros ?%Hcl]. }
  apply os_read_data in Er; [|apply Hsc].
  destruct (next_entry es (MkScan io (sc_hdr s) (sc_cksum s) (sc_pages s)) b) as (v & h & -> & Hv); try done.
  { by apply scanned_io. }
  { unfold walFrameOffset, WAL_HDRSIZE, WAL_FRAME_HDRSIZE in *. nia. }
  cbn [mbind option_bind]. destruct v as [[pg nt]|].
  2:{ eexists SQLITE_OK, true, _, []. split; [done|]. rewrite app_nil_r. destruct Hv as [Hend Hh].
      split_and!; try done.
      destruct Hh as [->|(c & Hc & ->)]; [by apply (scanned_io es s io)|].
      apply (scanned_cksum es (MkScan io (sc_hdr s) (sc_cksum s) (sc_pages s))); [done|by apply scanned_io]. }
  destruct Hv as (e & Hfr & Hent & -> & -> & ->). cbn [sc_io sc_hdr sc_cksum sc_pages].
  assert (Hpage : walFramePage (alen es + 1) = iPg) by (apply walFramePage_unique; lia).
  pose proof (sd_mx _ _ Hsc) as Hmx. assert (Hlm : alen (map en_pgno es) = alen es) by (unfold alen; by rewrite length_map).
  destruct (index_append shmMap (sc_pages s) (map en_pgno es) (mxFrame (sc_hdr s)) (alen es + 1) (en_pgno e))
    as (w & Ew & Hw); [apply Hsc|lia|left; lia|lia|apply Hent|rewrite Hpage; destruct Hmap as [? ->]; done|].
  cbn [mxFrame set_aFrameCksum]. rewrite Ew. cbn [mbind option_bind]. change (SQLITE_OK =? SQLITE_OK) with true. cbn [negb].
  rewrite take_ge in Hw by (rewrite length_map; unfold alen; lia). change [en_pgno e] with (map en_pgno [e]) in Hw. rewrite <- map_app in Hw.
  destruct (scanned_entry es (MkScan io (sc_hdr s) (sc_cksum s) (sc_pages s)) e w) as [Hsc' Hrun']; try done;
    [by apply scanned_io|lia|].
  assert (Hl1 : alen (es ++ [e]) = alen es + 1) by (rewrite alen_app; done).
  assert (Hm' : is_Some (w !! iPg)).
  { pose proof Hw as (_ & _ & Htab). destruct (Htab iPg HiPg) as (p & -> & _); [|done].
    unfold alen in *. rewrite length_map. lia. }
  unfold take_entry in Hsc', Hrun'. cbn [sc_io sc_hdr sc_cksum sc_pages] in *.
  match type of Hsc' with scanned _ ?t => set (s2 := t) in * end.
  destruct (IH (es ++ [e]) s2) as (rc & early & s' & es' & E & Hs' & Hm2 & Hr & Hcl'); try (done || rewrite Hl1; lia).
  { unfold s2. by destruct (en_truncate e =? 0). }
  { rewrite Hl1. replace (alen es + 1 + Z.of_nat n + 1) with (alen es + Z.of_nat (S n) + 1) by lia. done. }
  exists rc, early, s', (e :: es'). rewrite Hl1 in E. rewrite <- app_assoc in Hs', Hr. split; [done|]. split_and!; try done.
  - destruct early; [done|]. destruct Hr as (-> & Hl & Hr). split_and!; try done. unfold alen in *. cbn [length]. lia.
  - intros [_ Hi]%Hcl. apply Hcl'. unfold s2. by destruct (en_truncate e =? 0).
Qed.

Lemma log_end_short n es : alen es = n -> alen wal < walFrameOffset (n + 2) szPage -> log_end es.
Proof.
  intros <- Hend e (_ & _ & Ho & _)%frames_at_app. replace (1 + alen es + 1) with (alen es + 2) in Ho by lia. lia.
Qed.

Lemma first_frame iPg : 0 <= iPg -> (if iPg =? 0 then 0 else HASHTABLE_NPAGE_ONE + (iPg - 1) * HASHTABLE_NPAGE) = zero_of iPg.
Proof. done. Qed.

Lemma last_frame iPg : 0 <= iPg -> HASHTABLE_NPAGE_ONE + iPg * HASHTABLE_NPAGE = zero_of (iPg + 1).
Proof. intros. unfold zero_of. destruct (Z.eqb_spec (iPg + 1) 0); [lia|]. f_equal. f_equal. lia. Qed.

Lemma recover_pages_spec iLastFrame : 0 <= iLastFrame < 2 ^ 32 - 4096 -> walFrameOffset (iLastFrame + 1) szPage <= alen wal ->
  alen wal < walFrameOffset (iLastFrame + 2) szPage ->
  forall n iPg es s r, 0 <= iPg -> Z.of_nat n = walFramePage iLastFrame + 1 - iPg ->
  scanned es s -> running es s -> alen es = Z.min iLastFrame (zero_of iPg) ->
  exists rc s' es', recover_pages bo host_big shmMap n wal szPage iLastFrame iPg r s = Some (rc, s') /\ scanned es' s' /\
    (rc = SQLITE_OK -> log_end es') /\ ((forall i, shmMap i = SQLITE_OK) -> sc_io s = [] -> rc = SQLITE_OK).
Proof.
  intros HL Hlen Hend. induction n as [|n IH]; intros iPg es s r HiPg Hn Hsc Hrun Hes.
  { exists SQLITE_OK, s, es. split_and!; try done. intros _. apply (log_end_short iLastFrame); [|done].
    destruct (decide (iLastFrame = 0)) as [->|]; [pose proof (zero_of_nonneg iPg HiPg); lia|].
    pose proof (walFramePage_range iLastFrame ltac:(lia)) as [H0 [_ Hr]]. rewrite <- zero_of_succ in Hr by done.
    replace iPg with (walFramePage iLastFrame + 1) in Hes by lia. lia. }
  assert (Hz : alen es = zero_of iPg).
  { pose proof (zero_of_nonneg iPg HiPg). destruct (decide (iLastFrame = 0)) as [->|].
    - assert (iPg = 0) as -> by (change (walFramePage 0) with 0 in Hn; lia). rewrite Hes. done.
    - pose proof (walFramePage_range iLastFrame ltac:(lia)) as [H0 [Hr _]].
      destruct (decide (iPg = walFramePage iLastFrame)) as [->|]; [lia|].
      pose proof (zero_of_mono iPg (walFramePage iLastFrame) ltac:(lia)). pose proof (page_entries_range iPg). lia. }
  cbn [recover_pages]. rewrite first_frame, last_frame by done.
  assert (Hw0 : forall p, scanned es (MkScan (sc_io s) (sc_hdr s) (sc_cksum s) (<[iPg:=p]> (sc_pages s)))).
  { intros p. destruct Hsc. constructor; try done. apply index_ok_insert; [done|]. unfold alen in *. rewrite length_map. lia. }
  assert (exists rc, walIndexPage shmMap (sc_pages s) iPg = (rc, None, sc_pages s) /\ rc <> SQLITE_OK \/
    exists p w, walIndexPage shmMap (sc_pages s) iPg = (SQLITE_OK, Some p, w) /\ forall q, <[iPg:=q]> w = <[iPg:=q]> (sc_pages s)) as (rc0 & Hp).
  { unfold walIndexPage. destruct (sc_pages s !! iPg) as [p|]; [exists 0; eauto|].
    destruct (Z.eqb_spec (shmMap iPg) SQLITE_OK); [|eauto]. exists 0. right. eexists _, _. split; [done|].
    intros q. by rewrite insert_insert_eq. }
  destruct Hp as [[Ewp Hne]|(p & w & -> & Hq)].
  { rewrite Ewp. eexists _, _, es. split; [done|]. split_and!; [by apply scanned_io; [apply Hsc|]|done|]. intros Hall.
    exfalso. unfold walIndexPage in Ewp. rewrite Hall in Ewp. destruct (sc_pages s !! iPg); [done|].
    change (SQLITE_OK =? SQLITE_OK) with true in Ewp. done. }
  rewrite Hq. set (nf := Z.to_nat (Z.min iLastFrame (zero_of (iPg + 1)) - (1 + zero_of iPg) + 1)).
  pose proof (zero_of_succ iPg HiPg) as Hsu. pose proof (page_entries_range iPg) as Hpe. pose proof (zero_of_nonneg iPg HiPg) as Hz0.
  assert (Hnf : Z.of_nat nf = Z.min iLastFrame (zero_of (iPg + 1)) - zero_of iPg) by (unfold nf; lia).
  replace (1 + zero_of iPg) with (alen es + 1) by lia.
  destruct (recover_frames_spec iPg HiPg nf es (MkScan (sc_io s) (sc_hdr s) (sc_cksum s) (<[iPg:=private_page iPg r]> (sc_pages s))))
    as (rc & early & s' & es' & -> & Hs' & [p' Hp'] & Hr & Hcl); try done; try lia.
  { cbn [sc_pages]. rewrite lookup_insert_eq. eauto. }
  { unfold walFrameOffset, WAL_HDRSIZE, WAL_FRAME_HDRSIZE in *. nia. }
  cbn [mbind option_bind]. rewrite Hp'. cbn [mbind option_bind]. destruct early.
  { exists rc, s', (es ++ es'). split_and!; try done. intros _ Hi. by apply Hcl. }
  destruct Hr as (-> & Hl & Hrun').
  destruct (IH (iPg + 1) (es ++ es') s' (page_private iPg p' r)) as (rc & s2 & es2 & E & Hs2 & Hend2 & Hcl2); try done; try lia.
  { rewrite alen_app. lia. }
  exists rc, s2, es2. split_and!; try done. intros Hall [_ Hi]%Hcl. by apply Hcl2.
Qed.
End Scan.

(** ** The file header *)

Definition file_header (version : Z) (big : bool) (szPage nCkpt : Z) (salt : list Z) : list Z :=
  let b := store32 true (WAL_MAGIC + Z.b2z big) ++ store32 true version ++ store32 true szPage ++ store32 true nCkpt ++ salt in
  b ++ cksum_bytes (cksum_spec big (0, 0) b).

(** The checksum of the header, from which that of the frames runs on. *)
Definition header_cksum (big : bool) (szPage nCkpt : Z) (salt : list Z) : Z * Z :=
  cksum_spec big (0, 0) (take 24 (file_header WAL_MAX_VERSION big szPage nCkpt salt)).

Lemma pow2_test x : 0 < x -> x .& (x - 1) = 0 -> x = 2 ^ Z.log2 x.
Proof.
  intros Hx H. pose proof (Z.log2_spec x Hx) as [H1 H2]. destruct (decide (x = 2 ^ Z.log2 x)) as [|Hne]; [done|]. exfalso.
  pose proof (Z.log2_nonneg x).
  assert (Hb : Z.testbit (x .& (x - 1)) (Z.log2 x) = true).
  { rewrite Z.land_spec, Z.bit_log2 by done. cbn [andb].
    assert (Z.log2 (x - 1) = Z.log2 x) as <- by (apply Z.log2_unique; lia). apply Z.bit_log2. lia. }
  by rewrite H, Z.bits_0 in Hb.
Qed.

Lemma pagesize_ok_pow2 sz : pagesize_ok sz = true -> exists k, 9 <= k <= 16 /\ sz = 2 ^ k.
Proof.
  unfold pagesize_ok, SQLITE_MAX_PAGE_SIZE. rewrite negb_true_iff, !orb_false_iff, negb_false_iff, Z.eqb_eq, Z.gtb_ltb, !Z.ltb_ge.
  intros [[H Hle] Hge]. assert (E : sz = 2 ^ Z.log2 sz) by (apply pow2_test; [lia|done]).
  exists (Z.log2 sz). split; [|done]. pose proof (Z.log2_le_mono 512 sz ltac:(lia)) as L. pose proof (Z.log2_le_mono sz 65536 ltac:(lia)) as U.
  change (Z.log2 512) with 9 in L. change (Z.log2 65536) with 16 in U. lia.
Qed.

Lemma pagesize_cases sz : pagesize_ok sz = true -> sz ∈ [512; 1024; 2048; 4096; 8192; 16384; 32768; 65536].
Proof.
  intros (k & Hk & ->)%pagesize_ok_pow2. apply list_elem_of_In.
  assert (k = 9 \/ k = 10 \/ k = 11 \/ k = 12 \/ k = 13 \/ k = 14 \/ k = 15 \/ k = 16) as H by lia.
  destruct H as [->|[->|[->|[->|[->|[->|[->| ->]]]]]]]; cbn; tauto.
Qed.

(** Properties of the eight page sizes, by computation. *)
Ltac page_sizes H := apply pagesize_cases, list_elem_of_In in H; cbn [In] in H;
  destruct H as [<-|[<-|[<-|[<-|[<-|[<-|[<-|[<-|[]]]]]]]]].

Lemma pagesize_units sz : pagesize_ok sz = true -> 512 <= sz <= 65536 /\ sz mod 8 = 0.
Proof. intros H. page_sizes H; split; done || lia. Qed.

(** The 16-bit field of the header stands for the page size. *)
Lemma size_field_pagesize sz : pagesize_ok sz = true -> hdr_pagesize (size_field sz) = sz.
Proof. intros H. page_sizes H; vm_compute; reflexivity. Qed.

Section Header.
Context (bo : byteorder) (host_big : bool) (version : Z) (big : bool) (szPage nCkpt : Z) (salt : list Z).
Context (Hv : is_u32 version) (Hsz : pagesize_ok szPage = true) (Hn : is_u32 nCkpt) (Hsalt : length salt = 8%nat /\ Forall is_u8 salt).

Let B : list Z := file_header version big szPage nCkpt salt.

Lemma header_u8 : Forall is_u8 B.
Proof.
  destruct Hsalt. unfold B, file_header, cksum_bytes.
  repeat (apply Forall_app_2; try apply store32_bytes); done || apply store32_bytes.
Qed.

Lemma header_body : take 24 B = store32 true (WAL_MAGIC + Z.b2z big) ++ store32 true version ++ store32 true szPage ++ store32 true nCkpt ++ salt.
Proof. destruct Hsalt. unfold B, file_header. apply take_app_length'. rewrite !length_app, !store32_length. lia. Qed.

Lemma header_field (k : nat) v r : drop k B = store32 true v ++ r -> is_u32 v -> sqlite3Get4byte bo (drop k B) = Some v.
Proof. intros E Hu. rewrite get4byte_be by (apply Forall_drop, header_u8). rewrite E. by apply load_store. Qed.

Lemma header_fields :
  sqlite3Get4byte bo B = Some (WAL_MAGIC + Z.b2z big) /\ sqlite3Get4byte bo (drop 4 B) = Some version
  /\ sqlite3Get4byte bo (drop 8 B) = Some szPage /\ sqlite3Get4byte bo (drop 12 B) = Some nCkpt /\ take 8 (drop 16 B) = salt
  /\ sqlite3Get4byte bo (drop 24 B) = Some (fst (cksum_spec big (0, 0) (take 24 B)))
  /\ sqlite3Get4byte bo (drop 28 B) = Some (snd (cksum_spec big (0, 0) (take 24 B))).
Proof.
  pose proof (pagesize_units szPage Hsz) as [? _]. destruct Hsalt as [Hl Hu]. rewrite header_body.
  assert (HC : is_u32_pair (cksum_spec big (0, 0) (take 24 B))) by (apply cksum_spec_range; by split).
  rewrite header_body in HC. destruct HC as [HC1 HC2].
  assert (Hm : is_u32 (WAL_MAGIC + Z.b2z big)) by (unfold is_u32, WAL_MAGIC; destruct big; cbn; lia).
  set (C := cksum_spec big (0, 0) _) in *.
  assert (EB : B = store32 true (WAL_MAGIC + Z.b2z big) ++ store32 true version ++ store32 true szPage ++ store32 true nCkpt ++ salt
                 ++ store32 true (fst C) ++ store32 true (snd C)).
  { unfold B, file_header, cksum_bytes. fold C. by rewrite <- !app_assoc. }
  assert (Hd : forall n m v r, length v = n -> drop m B = v ++ r -> drop (m + n) B = r).
  { intros n m v r Hvl E. rewrite <- drop_drop, E. by apply drop_app_length'. }
  pose proof (Hd 4%nat 0%nat _ _ (store32_length _ _) EB) as E4. pose proof (Hd 4%nat 4%nat _ _ (store32_length _ _) E4) as E8.
  pose proof (Hd 4%nat 8%nat _ _ (store32_length _ _) E8) as E12. pose proof (Hd 4%nat 12%nat _ _ (store32_length _ _) E12) as E16.
  pose proof (Hd 8%nat 16%nat _ _ Hl E16) as E24. pose proof (Hd 4%nat 24%nat _ _ (store32_length _ _) E24) as E28.
  cbn [Nat.add] in *. split_and!.
  - change B with (drop 0 B). eapply header_field; [exact EB|done].
  - eapply header_field; done.
  - eapply header_field; [done|]. unfold is_u32. lia.
  - eapply header_field; done.
  - rewrite E16. by apply take_app_length'.
  - eapply header_field; done.
  - eapply (header_field 28 _ []); [|done]. by rewrite app_nil_r.
Qed.

Lemma header_checksum h : bigEndCksum h = big ->
  walChecksumBytes host_big (nativeCksum host_big h) B 24 None = Some (cksum_spec big (0, 0) (take 24 B)).
Proof.
  intros E. unfold nativeCksum. rewrite E, checksum_ref; [done|apply header_u8| |done].
  unfold B, file_header, alen. destruct Hsalt. rewrite !length_app, !store32_length. cbn. lia.
Qed.
End Header.

(** ** A valid log is determined by its file *)

Lemma store32_inj v v' : is_u32 v -> is_u32 v' -> store32 true v = store32 true v' -> v = v'.
Proof.
  intros Hv Hv' E. apply (f_equal (load32 true)) in E.
  rewrite <- (app_nil_r (store32 true v)), <- (app_nil_r (store32 true v')), !load_store in E by done. by simplify_eq.
Qed.

Lemma entry_bytes_inj szPage big salt ck e e' : length salt = 8%nat -> entry_ok szPage e -> entry_ok szPage e' ->
  entry_bytes big salt ck e = entry_bytes big salt ck e' -> e = e'.
Proof.
  intros Hs (Hp & Hn & _) (Hp' & Hn' & _) E. unfold entry_bytes in E.
  apply app_inj_1 in E as [Eh E]; [|by rewrite !entry_head_length]. apply app_inj_1 in E as [_ E]; [|done].
  apply app_inj_1 in E as [_ Ed]; [|done]. unfold entry_head in Eh.
  apply app_inj_1 in Eh as [E1 E2]; [|by rewrite !store32_length].
  apply store32_inj in E1, E2; try done; try (unfold is_u32; lia). destruct e, e'. cbn in *. congruence.
Qed.

Lemma frames_at_prefix szPage big salt wal : length salt = 8%nat -> forall es es' k ck,
  frames_at big salt szPage wal k ck es -> frames_at big salt szPage wal k ck es' -> es `prefix_of` es' \/ es' `prefix_of` es.
Proof.
  intros Hs. induction es as [|e es IH]; intros es' k ck H H'; [left; apply prefix_nil|].
  destruct es' as [|e' es']; [right; apply prefix_nil|]. destruct H as (He & _ & E & H), H' as (He' & _ & E' & H').
  rewrite E in E'. apply (entry_bytes_inj szPage) in E'; [|done..]. subst e'.
  destruct (IH es' _ _ H H'); [left|right]; by apply prefix_cons.
Qed.

Lemma log_unique szPage big salt wal ck0 es es' : length salt = 8%nat ->
  frames_at big salt szPage wal 1 ck0 es -> log_end wal szPage big salt ck0 es ->
  frames_at big salt szPage wal 1 ck0 es' -> log_end wal szPage big salt ck0 es' -> es = es'.
Proof.
  intros Hs H He H' He'.
  assert (Hp : forall l l', frames_at big salt szPage wal 1 ck0 l' -> log_end wal szPage big salt ck0 l -> l `prefix_of` l' -> l = l').
  { intros l l' Hl' Hl [k ->]. destruct k as [|e k]; [by rewrite app_nil_r|]. exfalso. apply (Hl e).
    change (e :: k) with ([e] ++ k) in Hl'. rewrite app_assoc in Hl'. by apply frames_at_app in Hl' as [? _]. }
  destruct (frames_at_prefix szPage big salt wal Hs es es' 1 ck0 H H'); [by apply Hp|symmetry; by apply Hp].
Qed.

(** ** Page content of a log *)

(** The data of the last of the frames [es] that holds page [p]. *)
Fixpoint log_page (p : Z) (es : list entry) (acc : list Z) : list Z :=
  match es with
  | [] => acc
  | e :: es => log_page p es (if en_pgno e =? p then en_data e else acc)
  end.

Lemma log_page_snoc p es e acc : log_page p (es ++ [e]) acc = if en_pgno e =? p then en_data e else log_page p es acc.
Proof. revert acc. induction es as [|e' es IH]; intros acc; cbn [app log_page]; [done|apply IH]. Qed.

Lemma fread_drop f off k n : 0 <= k -> 0 <= n -> drop (Z.to_nat k) (fread f off (k + n)) = fread f (off + k) n.
Proof.
  intros Hk Hn. unfold fread. rewrite seqZ_app, map_app by done. apply drop_app_length'. rewrite length_map, length_seqZ. done.
Qed.

Lemma entry_bytes_data big salt ck e : length salt = 8%nat -> drop 24 (entry_bytes big salt ck e) = en_data e.
Proof.
  intros Hs. unfold entry_bytes. rewrite (app_assoc (entry_head e)), (app_assoc (_ ++ _)). apply drop_app_length'.
  rewrite !length_app, entry_head_length, Hs. done.
Qed.

Lemma frame_entry big salt szPage wal es : 8 <= szPage -> length salt = 8%nat -> forall k ck f e,
  frames_at big salt szPage wal k ck es -> aget es (f - k) = Some e -> k <= f -> 1 <= k ->
  frame_data wal szPage f = en_data e.
Proof.
  intros Hsz Hs. induction es as [|e' es IH]; intros k ck f e H Hg Hf Hk.
  { apply aget_range in Hg. unfold alen in Hg. cbn in Hg. lia. }
  destruct H as ((_ & _ & Hd) & _ & E & H). destruct (decide (f = k)) as [->|].
  - rewrite Z.sub_diag in Hg. unfold aget in Hg. cbn in Hg. injection Hg as ->.
    apply (f_equal (drop 24)) in E. rewrite entry_bytes_data in E by done. rewrite <- E. unfold frame_data.
    unfold WAL_FRAME_HDRSIZE. rewrite (Z.add_comm szPage 24). symmetry. apply (fread_drop wal _ 24); lia.
  - assert (Hg' : aget es (f - (k + 1)) = Some e).
    { rewrite <- Hg. change (e' :: es) with ([e'] ++ es). rewrite aget_app_r by (change (alen [e']) with 1; lia).
      change (alen [e']) with 1. f_equal. lia. }
    by eapply IH; [done|done|lia|lia].
Qed.

(** Readers of the first [n] frames see the content the frames spell out. *)
Lemma view_log big salt szPage wal db es ck0 p : 8 <= szPage -> length salt = 8%nat -> frames_at big salt szPage wal 1 ck0 es ->
  forall n : nat, (n <= length es)%nat ->
  view (map en_pgno es) szPage wal db 1 (Z.of_nat n) p = log_page p (take n es) (page_data db szPage p).
Proof.
  intros Hsz Hs Hf. unfold view. induction n as [|n IH]; intros Hn; [done|].
  rewrite Nat2Z.id in *. cbn [latest_frame].
  destruct (lookup_lt_is_Some_2 es n) as [e He]; [lia|].
  assert (Hg : aget es (Z.of_nat (S n) - 1) = Some e) by (replace (Z.of_nat (S n) - 1) with (Z.of_nat n) by lia; by rewrite aget_of_nat).
  assert (Hgm : aget (map en_pgno es) (Z.of_nat (S n) - 1) = Some (en_pgno e)).
  { replace (Z.of_nat (S n) - 1) with (Z.of_nat n) by lia. rewrite aget_of_nat. change (map ?g ?l) with (g <$> l).
    rewrite list_lookup_fmap, He. done. }
  rewrite Hgm, (take_S_r _ _ _ He), log_page_snoc. destruct (Z.leb_spec 1 (Z.of_nat (S n))); [|lia]. cbn [andb].
  destruct (Z.eqb_spec (en_pgno e) p) as [->|Hne].
  - rewrite bool_decide_true by done. destruct (Z.eqb_spec (Z.of_nat (S n)) 0); [lia|].
    by eapply (frame_entry big salt szPage wal es Hsz Hs 1); [done|done|lia|lia].
  - rewrite bool_decide_false by congruence. apply IH. lia.
Qed.

(** ** Recovery of a log *)

Lemma magic_bits (big : bool) :
  ((WAL_MAGIC + Z.b2z big) .& 0xFFFFFFFE =? WAL_MAGIC) = true /\ negb ((WAL_MAGIC + Z.b2z big) .& 1 =? 0) = big.
Proof. by destruct big. Qed.

Section Recovery.
Context (bo : byteorder) (host_big : bool) (shmMap : Z -> Z) (wal : file) (big : bool) (szPage nCkpt : Z) (salt : list Z).

(** A file with a valid header, and not too many frames for the wal-index. *)
Record log_file : Prop := {
  lf_bytes : Forall is_u8 wal;
  lf_size : WAL_HDRSIZE < alen wal;
  lf_header : fread wal 0 WAL_HDRSIZE = file_header WAL_MAX_VERSION big szPage nCkpt salt;
  lf_pagesize : pagesize_ok szPage = true;
  lf_nCkpt : is_u32 nCkpt;
  lf_salt : length salt = 8%nat /\ Forall is_u8 salt;
  lf_frames : (alen wal - WAL_HDRSIZE) / (szPage + WAL_FRAME_HDRSIZE) < 2 ^ 32 - 4096
}.
Context (Hlog : log_file).

Let ck0 : Z * Z := header_cksum big szPage nCkpt salt.

Lemma ck0_range : is_u32_pair ck0.
Proof. apply cksum_spec_range. by split. Qed.

Lemma recover_log_spec r al v : io_ok (rv_io v) ->
  exists err rc s v', recover_log bo host_big shmMap wal r al v = Some (err, rc, s, v') /\
    rv_shm v' = rv_shm v /\ rv_info v' = rv_info v /\
    (err = true -> rc <> SQLITE_OK) /\
    (rc = SQLITE_OK -> rv_szPage v' = szPage /\ rv_nCkpt v' = nCkpt /\
       exists es, scanned wal szPage big salt ck0 es s /\ log_end wal szPage big salt ck0 es) /\
    ((forall i, shmMap i = SQLITE_OK) -> never_fails al -> rv_io v = [] -> rc = SQLITE_OK).
Proof.
  destruct Hlog as [Hb Hsize Hhd Hsz Hn Hsalt Hmax]. intros Hio. unfold recover_log.
  pose proof (pagesize_units _ Hsz) as [Hszr Hsz8].
  destruct (os_filesize (rv_io v) wal) as [[rc0 nSize] io0] eqn:E0. unfold os_filesize in E0.
  destruct (io_next (rv_io v)) as [r0 io0'] eqn:En. destruct (io_next_ok _ _ _ Hio En) as [Hio0 Hr0].
  destruct r0 as [|rc' junk]; simplify_eq.
  2:{ destruct (Z.eqb_spec rc0 SQLITE_OK); [done|]. cbn [negb]. eexists _, _, _, v. split; [done|]. split_and!; try done.
      intros _ _ Hnil. by rewrite Hnil in En. }
  change (SQLITE_OK =? SQLITE_OK) with true. cbn [negb].
  replace (alen wal >? WAL_HDRSIZE) with true by (symmetry; apply Z.gtb_lt; lia). cbn [negb].
  destruct (os_read io0 wal 0 WAL_HDRSIZE) as [[rc1 aBuf] io1] eqn:E1.
  pose proof (os_read_io _ _ _ _ _ _ _ Hio0 E1) as Hio1.
  assert (Hcl1 : rv_io v = [] -> rc1 = SQLITE_OK /\ io1 = []).
  { intros Hnil. apply (os_read_clean _ _ _ _ _ _ _ E1); [|lia]. rewrite Hnil in En. cbn in En. congruence. }
  destruct (Z.eqb_spec rc1 SQLITE_OK) as [->|Hne1]; cbn [negb].
  2:{ eexists _, _, _, v. split; [done|]. split_and!; try done. by intros _ _ [? _]%Hcl1. }
  apply os_read_data in E1; [|done]. rewrite Hhd in E1. subst aBuf.
  destruct (header_fields bo WAL_MAX_VERSION big szPage nCkpt salt) as (F0 & F4 & F8 & F12 & F16 & F24 & F28); try done.
  rewrite F0, F8. cbn [mbind option_bind].
  assert (i32 szPage = szPage) as -> by (unfold i32, swrap; zdm). rewrite Hsz.
  destruct (magic_bits big) as [Em Eb]. rewrite Em. cbn [negb orb].
  rewrite F12, F16. cbn [mbind option_bind].
  rewrite Eb.
  set (h := MkHdr 0 0 0 0 big 0 0 0 (0, 0) salt (0, 0)). change (WAL_HDRSIZE - 8) with 24.
  rewrite (header_checksum host_big WAL_MAX_VERSION big szPage nCkpt salt Hsalt h eq_refl).
  cbn [mbind option_bind]. rewrite F24, F28, F4. cbn [mbind option_bind]. rewrite !Z.eqb_refl. cbn [negb orb].
  change (cksum_spec big (0, 0) (take 24 (file_header WAL_MAX_VERSION big szPage nCkpt salt))) with ck0.
  destruct (malloc al) as [ok al'] eqn:Eal. destruct ok; cbn [negb].
  2:{ eexists _, _, _, _. split; [done|]. split_and!; try done. intros _ Hal _. destruct (malloc_never_fails al Hal) as (? & E & _). congruence. }
  set (v1 := MkRecover szPage nCkpt _ _ _ _ _). set (s0 := MkScan io1 (set_aFrameCksum ck0 h) (0, 0) (rv_pages v1)).
  unfold WAL_HDRSIZE, WAL_FRAME_HDRSIZE in *. set (q := (alen wal - 32) / (szPage + 24)) in *.
  assert (0 <= q) by (apply Z.div_pos; lia). rewrite (u32_id q) by (unfold is_u32; lia).
  assert (Hs0 : scanned wal szPage big salt ck0 [] s0).
  { pose proof ck0_range. assert (hdr_wf (set_aFrameCksum ck0 h)) by (apply hdr_wf_cksum; [done|by constructor]).
    constructor; try done. apply index_ok_empty. }
  destruct (recover_pages_spec bo host_big shmMap wal szPage big salt ck0 Hb ltac:(lia)) with (iLastFrame := q) (n := Z.to_nat (walFramePage q + 1)) (iPg := 0) (es := @nil entry) (s := s0) (r := r)
    as (rc & s' & es & -> & Hs' & Hend & Hcl); try done; try lia.
  { unfold walFrameOffset, WAL_HDRSIZE, WAL_FRAME_HDRSIZE. pose proof (Z.mul_div_le (alen wal - 32) (szPage + 24) ltac:(lia)). fold q in H0. lia. }
  { unfold walFrameOffset, WAL_HDRSIZE, WAL_FRAME_HDRSIZE. pose proof (Z.mul_succ_div_gt (alen wal - 32) (szPage + 24) ltac:(lia)) as H0. fold q in H0. lia. }
  { rewrite walFramePage_div by lia. zdm. }
  { change (zero_of 0) with 0. change (alen (@nil entry)) with 0. lia. }
  cbn [mbind option_bind]. exists false, rc, s', v1. split; [done|]. split_and!; try done.
  - intros Hrc. split_and!; try done. exists es. auto.
  - intros Hall _ [_ Hi]%Hcl1. by apply Hcl.
Qed.

(** The wal-index stands for the frames [es]: header, checkpoint information
    and tables, and what readers find. *)
Record recovered (es : list entry) (v : Recover) : Prop := {
  re_shared : rv_shm v = rv_hdr v;
  re_published : published host_big (rv_hdr v);
  re_log : bigEndCksum (rv_hdr v) = big /\ aSalt (rv_hdr v) = salt /\ rv_szPage v = szPage /\ rv_nCkpt v = nCkpt;
  re_commit : (mxFrame (rv_hdr v), nPage (rv_hdr v), aFrameCksum (rv_hdr v)) = last_commit big ck0 1 (0, 0, (0, 0)) es;
  re_pagesize : mxFrame (rv_hdr v) <> 0 -> hdr_pagesize (hdr_szPage (rv_hdr v)) = szPage;
  re_index : index_ok (rv_pages v) (map en_pgno es);
  re_backfill : nBackfill (rv_info v) = 0 /\ nBackfillAttempted (rv_info v) = mxFrame (rv_hdr v);
  re_view : forall db p, view (map en_pgno es) szPage wal db 1 (mxFrame (rv_hdr v)) p
              = log_page p (take (Z.to_nat (mxFrame (rv_hdr v))) es) (page_data db szPage p)
}.

Lemma recover_marks_spec lock mx : forall ix rc marks, Forall (fun i => 0 <= i < alen marks) ix ->
  exists rc' marks', recover_marks lock mx rc marks ix = Some (rc', marks') /\
    ((forall i, lock i = SQLITE_OK) -> rc = SQLITE_OK -> rc' = SQLITE_OK).
Proof.
  induction ix as [|i ix IH]; intros rc marks H; [cbn; eauto|]. apply Forall_cons in H as [Hi H]. cbn [recover_marks].
  destruct (Z.eqb_spec (lock i) SQLITE_OK) as [E|Hne].
  - rewrite aset_in by done. cbn [mbind option_bind].
    match goal with |- context [<[_:=?x]> marks] => pose proof (aset_in marks i x Hi) as Ea end.
    match type of Ea with _ = Some ?m => destruct (IH (lock i) m) as (rc' & m' & -> & Hc) end.
    { by rewrite (aset_alen _ _ _ _ Ea). }
    eexists _, _. split; [done|]. intros Hall _. by apply Hc.
  - destruct (Z.eqb_spec (lock i) SQLITE_BUSY); cbn [negb].
    + destruct (IH (lock i) marks H) as (rc' & m' & -> & Hc). eexists _, _. split; [done|]. intros Hall. by rewrite Hall in Hne.
    + eexists _, _. split; [done|]. intros Hall. by rewrite Hall in Hne.
Qed.

Lemma recover_spec lockAll lock r al v es : io_ok (rv_io v) -> alen (aReadMark (rv_info v)) = WAL_NREADER ->
  frames_at big salt szPage wal 1 ck0 es -> log_end wal szPage big salt ck0 es ->
  exists rc v', walIndexRecover bo host_big shmMap lockAll lock wal r al v = Some (rc, v') /\
    (rc <> SQLITE_OK /\ rv_shm v' = rv_shm v /\ rv_info v' = rv_info v \/ recovered es v') /\
    (lockAll = SQLITE_OK -> (forall i, lock i = SQLITE_OK) -> (forall i, shmMap i = SQLITE_OK) -> never_fails al -> rv_io v = [] ->
     rc = SQLITE_OK).
Proof.
  intros Hio Hm Hfr Hend. unfold walIndexRecover.
  destruct (Z.eqb_spec lockAll SQLITE_OK) as [->|Hne]; cbn [negb]; [|eexists _, _; split; [done|]; split; [by left|done]].
  destruct (recover_log_spec r al v Hio) as (err & rc & s & v1 & -> & Hshm & Hinfo & Herr & Hok & Hcl). cbn [mbind option_bind].
  destruct (err || negb (rc =? SQLITE_OK)) eqn:Ee.
  { assert (rc <> SQLITE_OK). { apply orb_true_iff in Ee as [?|Hx%negb_true_iff%Z.eqb_neq]; auto. }
    eexists _, _. split; [done|]. split; [by left|]. intros _ _ H1 H2 H3. exfalso. auto. }
  apply orb_false_iff in Ee as [_ Hrc%negb_false_iff%Z.eqb_eq]. subst rc.
  destruct (Hok eq_refl) as (Hsz1 & Hn1 & es' & Hs & Hend').
  assert (es' = es) as ->.
  { eapply log_unique; [apply lf_salt, Hlog|apply Hs|done|done|done]. }
  pose proof Hs as [Hwf [Hb Hsa] Hc Hmx Hsize Hck _ Hix _].
  destruct (write_publishes host_big (set_aFrameCksum (sc_cksum s) (sc_hdr s))) as (h & -> & Hp & (_ & _ & Eb & Esz & Emx & Enp & Eck & Esa)).
  { by apply hdr_wf_cksum. }
  cbn [mbind option_bind rv_info]. rewrite Hinfo. unfold WAL_NREADER in Hm.
  pose proof (aset_in (aReadMark (rv_info v)) 0 0 ltac:(lia)) as Ea. rewrite Ea. cbn [mbind option_bind].
  match type of Ea with _ = Some ?m => destruct (recover_marks_spec lock (mxFrame h) [1; 2; 3; 4] SQLITE_OK m) as (rc & m' & -> & Hm') end.
  { rewrite (aset_alen _ _ _ _ Ea), Hm. repeat (apply Forall_cons_2; [lia|]). constructor. }
  cbn [mbind option_bind]. eexists _, _. split; [done|]. split; [right|by auto].
  cbn in Eb, Esz, Emx, Enp, Eck, Esa. pose proof (pagesize_units _ (lf_pagesize Hlog)) as [? _].
  constructor; cbn [rv_shm rv_hdr rv_szPage rv_nCkpt rv_pages rv_info]; try done.
  - by rewrite Eb, Esa.
  - rewrite Emx, Enp, Eck. done.
  - rewrite Emx, Esz. intros Hmx0. rewrite Hsize by done. apply size_field_pagesize, lf_pagesize, Hlog.
  - intros db p. rewrite Emx. rewrite <- (Z2Nat.id (mxFrame (sc_hdr s))) at 1 by lia.
    eapply view_log; [lia|apply lf_salt, Hlog|done|]. unfold alen in Hmx. lia.
Qed.
End Recovery.

(** ** The bytes of a log *)

Fixpoint log_bytes (big : bool) (salt : list Z) (ck : Z * Z) (es : list entry) : list Z :=
  match es with
  | [] => []
  | e :: es => entry_bytes big salt ck e ++ log_bytes big salt (entry_cksum big ck e) es
  end.

Lemma fread_mid (pre d post : list Z) : fread (pre ++ d ++ post) (alen pre) (alen d) = d.
Proof.
  apply list_eq. intros k. unfold fread. change (map ?f ?l) with (f <$> l). rewrite list_lookup_fmap.
  destruct (decide (Z.of_nat k < alen d)) as [Hk|Hk].
  - rewrite (lookup_seqZ_lt (alen pre) (alen d) k) by lia. cbn [fmap option_fmap option_map].
    rewrite fbyte_app_r, Z.add_simpl_l, fbyte_app_l by lia. unfold fbyte. rewrite aget_of_nat.
    destruct (d !! k) eqn:E; [done|]. apply lookup_ge_None in E. unfold alen in Hk. lia.
  - rewrite lookup_seqZ_ge by lia. cbn. symmetry. apply lookup_ge_None. unfold alen in Hk. lia.
Qed.

Lemma entry_bytes_alen big salt ck szPage e : length salt = 8%nat -> entry_ok szPage e ->
  alen (entry_bytes big salt ck e) = szPage + WAL_FRAME_HDRSIZE.
Proof.
  intros Hs (_ & _ & Hl & _). unfold entry_bytes, WAL_FRAME_HDRSIZE, alen in *.
  rewrite !length_app, entry_head_length, Hs. cbn. lia.
Qed.

Lemma walFrameOffset_succ k szPage : walFrameOffset (k + 1) szPage = walFrameOffset k szPage + (szPage + WAL_FRAME_HDRSIZE).
Proof. unfold walFrameOffset. lia. Qed.

(** A file holds the frames that were appended to it, whatever follows. *)
Lemma frames_at_bytes big salt szPage es : length salt = 8%nat -> Forall (entry_ok szPage) es -> forall k ck pre post,
  alen pre = walFrameOffset k szPage -> frames_at big salt szPage (pre ++ log_bytes big salt ck es ++ post) k ck es.
Proof.
  intros Hs. induction 1 as [|e es He _ IH]; intros k ck pre post Hpre; cbn [frames_at log_bytes]; [done|].
  pose proof (entry_bytes_alen big salt ck szPage e Hs He) as Hl. split_and!; [done| | |].
  - rewrite walFrameOffset_succ, !alen_app, Hpre, Hl. pose proof (alen_nonneg (log_bytes big salt (entry_cksum big ck e) es)).
    pose proof (alen_nonneg post). lia.
  - rewrite <- app_assoc, <- Hpre, <- Hl. apply fread_mid.
  - rewrite <- app_assoc, (app_assoc pre). apply IH. rewrite alen_app, Hpre, Hl. by rewrite walFrameOffset_succ.
Qed.

Lemma file_header_alen version big szPage nCkpt salt : length salt = 8%nat -> alen (file_header version big szPage nCkpt salt) = WAL_HDRSIZE.
Proof. intros Hs. unfold file_header, alen. rewrite !length_app, !store32_length, Hs. done. Qed.

(** ** Properties *)

(** C5. Recovery finds exactly the committed transactions.  For a log file with
    a valid header, let [es] be the frames up to the first one that is not
    valid (torn, of an older generation or beyond the end).  Whatever fails on
    the way, recovery either reports an error with the shared header untouched,
    or leaves a wal-index for [es] whose header stands at the last commit among
    them: readers see, for every page, its last committed frame, else the page
    of the database.  If nothing fails it succeeds. *)
Theorem walIndexRecover_committed bo host_big shmMap wal big szPage nCkpt salt lockAll lock r al v es :
  log_file wal big szPage nCkpt salt -> io_ok (rv_io v) -> alen (aReadMark (rv_info v)) = WAL_NREADER ->
  frames_at big salt szPage wal 1 (header_cksum big szPage nCkpt salt) es ->
  log_end wal szPage big salt (header_cksum big szPage nCkpt salt) es ->
  exists rc v', walIndexRecover bo host_big shmMap lockAll lock wal r al v = Some (rc, v') /\
    (rc <> SQLITE_OK /\ rv_shm v' = rv_shm v /\ rv_info v' = rv_info v
     \/ recovered host_big wal big szPage nCkpt salt es v') /\
    (lockAll = SQLITE_OK -> (forall i, lock i = SQLITE_OK) -> (forall i, shmMap i = SQLITE_OK) -> never_fails al -> rv_io v = [] ->
     rc = SQLITE_OK).
Proof. intros. by eapply recover_spec. Qed.

(** A log with a committed frame for page 1 and a frame of an open
    transaction for page 2. *)
Definition rec_salt : list Z := [1; 2; 3; 4; 5; 6; 7; 8].
Definition rec_entries : list entry := [MkEntry 1 2 (replicate 512 7); MkEntry 2 0 (replicate 512 9)].
Definition rec_wal : file :=
  file_header WAL_MAX_VERSION false 512 0 rec_salt ++ log_bytes false rec_salt (header_cksum false 512 0 rec_salt) rec_entries ++ [].

Lemma rec_entries_ok : Forall (entry_ok 512) rec_entries.
Proof.
  assert (Hp : forall n v, is_u8 v -> Forall is_u8 (replicate n v)) by (intros n v Hv; by apply Forall_replicate).
  repeat constructor; cbn; unfold is_u32; try lia; try (apply Hp; unfold is_u8; lia).
Qed.

Lemma rec_log_file : log_file rec_wal false 512 0 rec_salt.
Proof.
  constructor.
  - apply (bool_decide_unpack _). vm_compute. exact I.
  - vm_compute. reflexivity.
  - pose proof (fread_mid [] (file_header WAL_MAX_VERSION false 512 0 rec_salt)
      (log_bytes false rec_salt (header_cksum false 512 0 rec_salt) rec_entries ++ [])) as H.
    rewrite file_header_alen in H by done. exact H.
  - reflexivity.
  - by unfold is_u32.
  - split; [done|]. apply (bool_decide_unpack _). vm_compute. exact I.
  - vm_compute. reflexivity.
Qed.

Lemma walIndexRecover_committed_witness : exists rc v',
  walIndexRecover BO_1234 false (fun _ => SQLITE_OK) SQLITE_OK (fun _ => SQLITE_OK) rec_wal (MkPrivate (replicate (Z.to_nat HASHTABLE_NPAGE) 5) (replicate (Z.to_nat HASHTABLE_NSLOT) 5)) []
    (MkRecover 0 0 zero_hdr zero_hdr (MkCkpt 3 [0; 0; 0; 0; 0] 3) ∅ []) = Some (rc, v') /\
  (rc <> SQLITE_OK /\ rv_shm v' = zero_hdr /\ rv_info v' = MkCkpt 3 [0; 0; 0; 0; 0] 3
   \/ recovered false rec_wal false 512 0 rec_salt rec_entries v') /\ rc = SQLITE_OK.
Proof.
  destruct (walIndexRecover_committed BO_1234 false (fun _ => SQLITE_OK) rec_wal false 512 0 rec_salt SQLITE_OK (fun _ => SQLITE_OK)
    (MkPrivate (replicate (Z.to_nat HASHTABLE_NPAGE) 5) (replicate (Z.to_nat HASHTABLE_NSLOT) 5)) [] (MkRecover 0 0 zero_hdr zero_hdr (MkCkpt 3 [0; 0; 0; 0; 0] 3) ∅ []) rec_entries)
    as (rc & v' & E & H & Hok).
  - exact rec_log_file.
  - constructor.
  - reflexivity.
  - apply frames_at_bytes; [reflexivity|exact rec_entries_ok|reflexivity].
  - apply (log_end_short rec_wal 512 false rec_salt _ 2); [reflexivity|vm_compute; reflexivity].
  - exists rc, v'. split; [exact E|]. split; [exact H|]. apply Hok; try reflexivity. constructor.
Defined.

(** ** Files that are not logs *)

Lemma magic_inv m : is_u32 m -> m .& 0xFFFFFFFE = WAL_MAGIC -> m = WAL_MAGIC + Z.b2z (negb (m .& 1 =? 0)).
Proof.
  unfold is_u32. intros Hm H. rewrite (land_ones_mod m 1 1) by done.
  replace m with (m / 2 * 2 ^ 1 + m mod 2) in H at 1 by zdm. change 0xFFFFFFFE with (0x7FFFFFFF * 2 ^ 1 + 0) in H.
  rewrite land_split in H by (try apply Z.mod_pos_bound; lia). rewrite Z.land_0_r, (land_ones_mod _ 31) in H by done.
  change (2 ^ 1) with 2 in *. unfold WAL_MAGIC in *. rewrite Z.mod_small in H by zdm.
  destruct (Z.eqb_spec (m mod 2) 0); cbn [negb Z.b2z]; zdm.
Qed.

(** Splitting off a word. *)
Lemma word_split p : (4 <= length p)%nat -> Forall is_u8 p ->
  exists v, load32 true p = Some v /\ is_u32 v /\ p = store32 true v ++ drop 4 p.
Proof.
  intros Hl HF. destruct p as [|a [|b [|c [|d p]]]]; cbn [length] in Hl; try lia.
  change (a :: b :: c :: d :: p) with ([a; b; c; d] ++ p) in HF. pose proof HF as [HF4 _]%Forall_app.
  destruct (load32_is_Some true [a; b; c; d]) as [v Hv]; [cbn; lia|]. exists v. split; [done|].
  split; [by eapply load32_range|]. by rewrite (store_load _ _ _ _ _ _ HF4 Hv).
Qed.

(** Bytes that pass the checks of recovery are a header. *)
Lemma header_inv bo host_big b magic sz nCkpt c version :
  alen b = WAL_HDRSIZE -> Forall is_u8 b ->
  sqlite3Get4byte bo b = Some magic -> magic .& 0xFFFFFFFE = WAL_MAGIC ->
  sqlite3Get4byte bo (drop 4 b) = Some version -> sqlite3Get4byte bo (drop 8 b) = Some sz -> pagesize_ok (i32 sz) = true ->
  sqlite3Get4byte bo (drop 12 b) = Some nCkpt ->
  (forall h, bigEndCksum h = negb (magic .& 1 =? 0) -> walChecksumBytes host_big (nativeCksum host_big h) b 24 None = Some c) ->
  sqlite3Get4byte bo (drop 24 b) = Some (fst c) -> sqlite3Get4byte bo (drop 28 b) = Some (snd c) ->
  b = file_header version (negb (magic .& 1 =? 0)) (i32 sz) nCkpt (take 8 (drop 16 b)) /\ is_u32 nCkpt /\ i32 sz = sz.
Proof.
  intros Hl HF Em Hm Ev Es Hsz En Hck E0 E1. unfold alen, WAL_HDRSIZE in Hl.
  assert (HFd : forall n, Forall is_u8 (drop n b)) by (intros; by apply Forall_drop).
  rewrite get4byte_be in Em, Ev, Es, En, E0, E1 by done.
  assert (W : forall n v, (n <= 28)%nat -> load32 true (drop n b) = Some v -> is_u32 v /\ drop n b = store32 true v ++ drop (n + 4) b).
  { intros n v Hn E. destruct (word_split (drop n b)) as (v' & E' & Hv & Ed); [rewrite length_drop; lia|done|].
    rewrite E in E'. injection E' as <-. rewrite drop_drop in Ed. done. }
  destruct (W 0%nat magic ltac:(lia) Em) as [Rm Dm]. destruct (W 4%nat _ ltac:(lia) Ev) as [_ Dv]. destruct (W 8%nat _ ltac:(lia) Es) as [Rs Ds].
  destruct (W 12%nat _ ltac:(lia) En) as [Rn Dn]. destruct (W 24%nat _ ltac:(lia) E0) as [_ D0]. destruct (W 28%nat _ ltac:(lia) E1) as [_ D1].
  assert (Esz : i32 sz = sz).
  { apply pagesize_units in Hsz as [Hr _]. unfold is_u32, i32, swrap in *.
    change (2 ^ (32 - 1)) with 2147483648 in *. zdm. }
  split; [|done]. set (big := negb (magic .& 1 =? 0)) in *.
  assert (Emag : magic = WAL_MAGIC + Z.b2z big) by by apply magic_inv. rewrite Esz.
  assert (D16 : drop 16 b = take 8 (drop 16 b) ++ drop 24 b) by (rewrite <- (take_drop 8 (drop 16 b)) at 1; by rewrite drop_drop).
  assert (Dend : drop 32 b = []) by (apply drop_ge; lia).
  assert (Eb : b = store32 true magic ++ store32 true version ++ store32 true sz ++ store32 true nCkpt ++ take 8 (drop 16 b) ++ cksum_bytes c).
  { rewrite drop_0 in Dm. rewrite Dm at 1. cbn [Nat.add] in *. rewrite Dv at 1. rewrite Ds at 1. rewrite Dn at 1. rewrite D16 at 1.
    rewrite D0, D1, Dend, app_nil_r. done. }
  specialize (Hck (MkHdr 0 0 0 0 big 0 0 0 (0, 0) [] (0, 0)) eq_refl). unfold nativeCksum in Hck. cbn [bigEndCksum] in Hck.
  rewrite checksum_ref in Hck; [|done|unfold alen; lia|done]. cbn [default from_option] in Hck. injection Hck as Hck.
  rewrite Eb at 1. unfold file_header. rewrite <- Emag. rewrite !app_assoc. f_equal. f_equal. rewrite <- Hck.
  f_equal. rewrite Eb at 1. change (Z.to_nat 24) with 24%nat. rewrite !app_assoc. apply take_app_length'.
  rewrite !length_app, !store32_length, length_take, length_drop. lia.
Qed.

Lemma zero_hdr_wf : hdr_wf zero_hdr.
Proof. constructor; try done. split; [done|]. by apply Forall_replicate. Qed.

Section Any.
Context (bo : byteorder) (host_big : bool) (shmMap : Z -> Z) (wal : file) (Hwal : Forall is_u8 wal).
Context (Hmax : (alen wal - WAL_HDRSIZE) / (512 + WAL_FRAME_HDRSIZE) < 2 ^ 32 - 4096).

(** The file starts with a header of the current version. *)
Definition has_header : Prop :=
  exists big szPage nCkpt salt, log_file wal big szPage nCkpt salt.

(** An empty log. *)
Definition scanned_none (s : scan) : Prop :=
  hdr_wf (sc_hdr s) /\ sc_cksum s = (0, 0) /\ mxFrame (sc_hdr s) = 0 /\ nPage (sc_hdr s) = 0.

Lemma recover_log_any r al v : io_ok (rv_io v) ->
  has_header \/
  exists err rc s v', recover_log bo host_big shmMap wal r al v = Some (err, rc, s, v') /\
    rv_shm v' = rv_shm v /\ rv_info v' = rv_info v /\ (err = true -> rc <> SQLITE_OK) /\ (rc = SQLITE_OK -> scanned_none s).
Proof.
  intros Hio. unfold recover_log.
  assert (Hz : forall io, scanned_none (MkScan io zero_hdr (0, 0) (rv_pages v))) by (by split; [apply zero_hdr_wf|]).
  destruct (os_filesize (rv_io v) wal) as [[rc0 nSize] io0] eqn:E0. unfold os_filesize in E0.
  destruct (io_next (rv_io v)) as [r0 io0'] eqn:En. destruct (io_next_ok _ _ _ Hio En) as [Hio0 Hr0].
  destruct r0 as [|rc' junk]; injection E0 as <- <- <-.
  2:{ right. destruct (Z.eqb_spec rc' SQLITE_OK); [done|]. eexists _, _, _, v. by split_and!. }
  change (SQLITE_OK =? SQLITE_OK) with true. cbn [negb].
  destruct (Z.gtb_spec (alen wal) WAL_HDRSIZE) as [Hlen|]; cbn [negb]; [|right; eexists _, _, _, v; by split_and!].
  destruct (os_read io0' wal 0 WAL_HDRSIZE) as [[rc1 b] io1] eqn:E1.
  destruct (Z.eqb_spec rc1 SQLITE_OK) as [->|Hne1]; cbn [negb]; [|right; eexists _, _, _, v; by split_and!].
  apply os_read_data in E1; [|done].
  assert (Hl : alen b = WAL_HDRSIZE) by (rewrite E1; by apply alen_fread). pose proof (fread_u8 wal 0 WAL_HDRSIZE Hwal) as HF. rewrite <- E1 in HF.
  assert (G : forall n, (n <= 28)%nat -> exists x, sqlite3Get4byte bo (drop n b) = Some x).
  { intros n Hn. rewrite get4byte_be by (by apply Forall_drop). apply load32_is_Some. unfold alen, WAL_HDRSIZE in Hl. rewrite length_drop. lia. }
  destruct (G 0%nat ltac:(lia)) as [magic Em]. rewrite drop_0 in Em. destruct (G 8%nat ltac:(lia)) as [sz Es]. destruct (G 12%nat ltac:(lia)) as [nC En'].
  destruct (G 4%nat ltac:(lia)) as [version Ev]. destruct (G 24%nat ltac:(lia)) as [c0 Ec0]. destruct (G 28%nat ltac:(lia)) as [c1 Ec1].
  rewrite Em, Es. cbn [mbind option_bind].
  destruct (Z.eqb_spec (magic .& 0xFFFFFFFE) WAL_MAGIC) as [Hm|_]; cbn [negb orb]; [|right; eexists _, _, _, v; by split_and!].
  destruct (pagesize_ok (i32 sz)) eqn:Hsz; cbn [negb]; [|right; eexists _, _, _, v; by split_and!].
  rewrite En'. cbn [mbind option_bind]. set (big := negb (magic .& 1 =? 0)). set (salt := take 8 (drop 16 b)).
  set (h := MkHdr 0 0 0 0 big 0 0 0 (0, 0) salt (0, 0)). change (WAL_HDRSIZE - 8) with 24.
  set (c := cksum_spec big (0, 0) (take 24 b)).
  assert (Hck : forall h, bigEndCksum h = big -> walChecksumBytes host_big (nativeCksum host_big h) b 24 None = Some c).
  { intros h0 E. unfold nativeCksum. rewrite E, checksum_ref; [done|done|rewrite Hl; unfold WAL_HDRSIZE; lia|done]. }
  rewrite (Hck h eq_refl). cbn [mbind option_bind]. rewrite Ec0, Ec1. cbn [mbind option_bind].
  assert (Hsalt : length salt = 8%nat /\ Forall is_u8 salt).
  { split; [|by apply Forall_take, Forall_drop]. unfold salt, alen, WAL_HDRSIZE in *. rewrite length_take, length_drop. lia. }
  assert (Hcr : is_u32_pair c) by (apply cksum_spec_range; by split).
  assert (Hnone : forall io v1, scanned_none (MkScan io (set_aFrameCksum c h) (0, 0) v1)).
  { intros. split; [|done]. apply hdr_wf_cksum; [done|]. by constructor. }
  destruct (Z.eqb_spec (fst c) c0) as [<-|_]; cbn [negb orb]; [|right; eexists _, _, _, _; split; [done|]; split_and!; try done; intros; apply Hnone].
  destruct (Z.eqb_spec (snd c) c1) as [<-|_]; cbn [negb orb]; [|right; eexists _, _, _, _; split; [done|]; split_and!; try done; intros; apply Hnone].
  rewrite Ev. cbn [mbind option_bind].
  destruct (Z.eqb_spec version WAL_MAX_VERSION) as [->|_]; cbn [negb]; [|right; eexists _, _, _, _; split; [done|]; split_and!; try done; intros; apply Hnone].
  left. destruct (header_inv bo host_big b magic sz nC c WAL_MAX_VERSION) as (Eb & Hn & Esz); try done.
  exists big, (i32 sz), nC, salt. constructor; try done; [by rewrite <- E1|].
  apply pagesize_units in Hsz as [Hr _]. unfold WAL_HDRSIZE, WAL_FRAME_HDRSIZE in *.
  eapply Z.le_lt_trans; [|exact Hmax]. apply Z.div_le_compat_l; lia.
Qed.

(** The tail of recovery, from the label [finished] on. *)
Lemma recover_finish lock rc v (s : scan) : hdr_wf (sc_hdr s) -> is_u32_pair (sc_cksum s) -> alen (aReadMark (rv_info v)) = WAL_NREADER ->
  exists h marks1 rc' marks, walIndexWriteHdr host_big (set_aFrameCksum (sc_cksum s) (sc_hdr s)) = Some h /\
    published host_big h /\ same_log (set_aFrameCksum (sc_cksum s) (sc_hdr s)) h /\
    aset (aReadMark (rv_info v)) 0 0 = Some marks1 /\ recover_marks lock (mxFrame h) rc marks1 [1; 2; 3; 4] = Some (rc', marks).
Proof.
  intros Hwf Hc Hm. destruct (write_publishes host_big (set_aFrameCksum (sc_cksum s) (sc_hdr s))) as (h & E & Hp & Hs).
  { by apply hdr_wf_cksum. }
  unfold WAL_NREADER in Hm. pose proof (aset_in (aReadMark (rv_info v)) 0 0 ltac:(lia)) as Ea.
  match type of Ea with _ = Some ?m => destruct (recover_marks_spec lock (mxFrame h) [1; 2; 3; 4] rc m) as (rc' & m' & Er & _) end.
  { rewrite (aset_alen _ _ _ _ Ea), Hm. repeat (apply Forall_cons_2; [lia|]). constructor. }
  eauto 12.
Qed.

Lemma recover_any lockAll lock r al v : io_ok (rv_io v) -> alen (aReadMark (rv_info v)) = WAL_NREADER ->
  exists rc v', walIndexRecover bo host_big shmMap lockAll lock wal r al v = Some (rc, v') /\
    (has_header \/ rc <> SQLITE_OK /\ rv_shm v' = rv_shm v /\ rv_info v' = rv_info v \/
     rv_shm v' = rv_hdr v' /\ published host_big (rv_hdr v') /\ mxFrame (rv_hdr v') = 0 /\ nPage (rv_hdr v') = 0
     /\ nBackfill (rv_info v') = 0).
Proof.
  intros Hio Hm. unfold walIndexRecover.
  destruct (Z.eqb_spec lockAll SQLITE_OK) as [->|Hne]; cbn [negb]; [|eexists _, _; split; [done|]; right; by left].
  destruct (recover_log_any r al v Hio) as [Hh|(err & rc & s & v1 & -> & Hshm & Hinfo & Herr & Hok)].
  - pose proof Hh as (big & szPage & nCkpt & salt & Hlf).
    destruct (recover_log_spec bo host_big shmMap wal big szPage nCkpt salt Hlf r al v Hio) as (err & rc & s & v1 & -> & _ & Hinfo & Herr & Hok & _).
    cbn [mbind option_bind]. destruct (err || negb (rc =? SQLITE_OK)) eqn:Ee; [eexists _, _; split; [done|by left]|].
    apply orb_false_iff in Ee as [_ Hrc%negb_false_iff%Z.eqb_eq]. subst rc. destruct (Hok eq_refl) as (_ & _ & es & Hs & _).
    destruct (recover_finish lock SQLITE_OK v s) as (h & m1 & rc' & m & E1 & _ & _ & E2 & E3); [apply Hs|apply Hs|done|].
    rewrite E1. cbn [mbind option_bind rv_info]. rewrite Hinfo, E2. cbn [mbind option_bind]. rewrite E3. cbn [mbind option_bind].
    eexists _, _. split; [done|by left].
  - cbn [mbind option_bind]. destruct (err || negb (rc =? SQLITE_OK)) eqn:Ee.
    { assert (rc <> SQLITE_OK). { apply orb_true_iff in Ee as [?|Hx%negb_true_iff%Z.eqb_neq]; auto. }
      eexists _, _. split; [done|]. right. left. by split_and!. }
    apply orb_false_iff in Ee as [_ Hrc%negb_false_iff%Z.eqb_eq]. subst rc. destruct (Hok eq_refl) as (Hwf & Hc & Hmx & Hnp).
    destruct (recover_finish lock SQLITE_OK v s) as (h & m1 & rc' & m & E1 & Hp & Hs & E2 & E3); [done|by rewrite Hc|done|].
    rewrite E1. cbn [mbind option_bind rv_info]. rewrite Hinfo, E2. cbn [mbind option_bind]. rewrite E3. cbn [mbind option_bind].
    eexists _, _. split; [done|]. right. right. cbn [rv_shm rv_hdr rv_info nBackfill].
    destruct Hs as (_ & _ & _ & _ & Emx & Enp & _). cbn in Emx, Enp. rewrite Emx, Enp. done.
Qed.
End Any.

(** What recovery leaves of the I/O to come and of the read marks. *)
Section Keeps.
Context (bo : byteorder) (host_big : bool) (shmMap : Z -> Z) (wal : file).

Lemma recover_frames_io szPage : forall n iFrame s rc early s', io_ok (sc_io s) ->
  recover_frames bo host_big shmMap n wal szPage iFrame s = Some (rc, early, s') -> io_ok (sc_io s').
Proof.
  induction n as [|n IH]; intros iFrame s rc early s' Hio; cbn [recover_frames]; [intros E; by simplify_eq|].
  destruct (os_read _ _ _ _) as [[rc0 b] io] eqn:Er. pose proof (os_read_io _ _ _ _ _ _ _ Hio Er) as Hio1. destruct (negb _); [intros E; by simplify_eq|].
  destruct (walDecodeFrame _ _ _ _ _ _) as [[[[pgno nTruncate]|] h]|]; cbn [mbind option_bind]; [|intros E; by simplify_eq|done].
  destruct (walIndexAppend _ _ _ _ _) as [[rc1 w]|]; cbn [mbind option_bind]; [|discriminate]. destruct (negb _); [intros E; by simplify_eq|].
  apply IH. by destruct (nTruncate =? 0).
Qed.

Lemma recover_pages_io szPage iLast : forall n iPg r s rc s', io_ok (sc_io s) ->
  recover_pages bo host_big shmMap n wal szPage iLast iPg r s = Some (rc, s') -> io_ok (sc_io s').
Proof.
  induction n as [|n IH]; intros iPg r s rc s' Hio; cbn [recover_pages]; [intros E; by simplify_eq|].
  destruct (walIndexPage _ _ _) as [[rc0 [p|]] w]; [|intros E; by simplify_eq].
  destruct (recover_frames _ _ _ _ _ _ _ _) as [[[rc1 early] s1]|] eqn:Ef; cbn [mbind option_bind]; [|discriminate]. apply recover_frames_io in Ef; [|done].
  destruct (sc_pages s1 !! iPg) as [p1|]; cbn [mbind option_bind]; [|discriminate]. destruct early; [intros E; by simplify_eq|]. by apply IH.
Qed.

Lemma recover_log_io r al v err rc s v' : io_ok (rv_io v) -> recover_log bo host_big shmMap wal r al v = Some (err, rc, s, v') ->
  io_ok (sc_io s) /\ rv_io v' = rv_io v /\ rv_info v' = rv_info v.
Proof.
  intros Hio. unfold recover_log. destruct (os_filesize (rv_io v) wal) as [[rc0 nSize] io0] eqn:E0. unfold os_filesize in E0.
  destruct (io_next (rv_io v)) as [r0 io0'] eqn:En. destruct (io_next_ok _ _ _ Hio En) as [Hio0 _]. assert (io0 = io0') as -> by (destruct r0; by simplify_eq).
  intros E. destruct (negb _); [by simplify_eq|]. destruct (negb _); [by simplify_eq|].
  destruct (os_read _ _ _ _) as [[rc1 b] io1] eqn:E1. pose proof (os_read_io _ _ _ _ _ _ _ Hio0 E1) as Hio1. destruct (negb _); [by simplify_eq|].
  do 2 (apply bind_Some in E as (? & _ & E)). destruct (_ || _); [by simplify_eq|].
  do 4 (apply bind_Some in E as (? & _ & E)). destruct (_ || _); [by simplify_eq|].
  apply bind_Some in E as (? & _ & E). destruct (negb _); [by simplify_eq|]. destruct (malloc al) as [ok al']. destruct (negb ok); [by simplify_eq|].
  apply bind_Some in E as ([rc2 s2] & Ep & E). apply recover_pages_io in Ep; [|done]. by simplify_eq.
Qed.

Lemma recover_marks_alen lock mx : forall ix rc marks rc' marks', recover_marks lock mx rc marks ix = Some (rc', marks') -> alen marks' = alen marks.
Proof.
  induction ix as [|i ix IH]; intros rc marks rc' marks'; cbn [recover_marks]; [intros E; by simplify_eq|]. destruct (_ =? SQLITE_OK).
  - destruct (aset _ _ _) as [m|] eqn:Ea; cbn [mbind option_bind]; [|discriminate]. intros E%IH. by rewrite E, (aset_alen _ _ _ _ Ea).
  - destruct (negb _); [intros E; by simplify_eq|apply IH].
Qed.

Lemma recover_keeps lockAll lock r al v rc v' : io_ok (rv_io v) -> alen (aReadMark (rv_info v)) = WAL_NREADER ->
  walIndexRecover bo host_big shmMap lockAll lock wal r al v = Some (rc, v') -> io_ok (rv_io v') /\ alen (aReadMark (rv_info v')) = WAL_NREADER.
Proof.
  intros Hio Hm. unfold walIndexRecover. destruct (negb _); [intros E; by simplify_eq|].
  destruct (recover_log _ _ _ _ _ _ _) as [[[[err rc0] s] v1]|] eqn:El; cbn [mbind option_bind]; [|discriminate]. apply recover_log_io in El as (H1 & _ & H3); [|done].
  rewrite <- H3 in Hm. destruct (_ || _); [intros E; by simplify_eq|]. destruct (walIndexWriteHdr _ _); cbn [mbind option_bind]; [|discriminate]. cbn [rv_info].
  destruct (aset _ _ _) as [m|] eqn:Ea; cbn [mbind option_bind]; [|discriminate].
  destruct (recover_marks _ _ _ _ _) as [[rc2 m2]|] eqn:Em; cbn [mbind option_bind]; [|discriminate]. intros E. simplify_eq. split; [done|].
  cbn [rv_info aReadMark]. by rewrite (recover_marks_alen _ _ _ _ _ _ _ Em), (aset_alen _ _ _ _ Ea).
Qed.
End Keeps.

(** A file that does not start with a valid header of the current version
    (bad magic number, page size, checksum or version, or too short) is never
    read as a log: recovery, whatever fails, reports an error and leaves the
    shared header alone, or publishes an empty log. *)
Theorem walIndexRecover_rejects bo host_big shmMap wal lockAll lock r al v :
  Forall is_u8 wal -> (alen wal - WAL_HDRSIZE) / (512 + WAL_FRAME_HDRSIZE) < 2 ^ 32 - 4096 ->
  io_ok (rv_io v) -> alen (aReadMark (rv_info v)) = WAL_NREADER -> ~ has_header wal ->
  exists rc v', walIndexRecover bo host_big shmMap lockAll lock wal r al v = Some (rc, v') /\
    (rc <> SQLITE_OK /\ rv_shm v' = rv_shm v /\ rv_info v' = rv_info v \/
     rv_shm v' = rv_hdr v' /\ published host_big (rv_hdr v') /\ mxFrame (rv_hdr v') = 0 /\ nPage (rv_hdr v') = 0
     /\ nBackfill (rv_info v') = 0).
Proof.
  intros Hwal Hmax Hio Hm Hno.
  destruct (recover_any bo host_big shmMap wal Hwal Hmax lockAll lock r al v Hio Hm) as (rc & v' & E & [H|H]); [done|eauto].
Qed.

Lemma walIndexRecover_rejects_witness : exists rc v',
  walIndexRecover BO_1234 false (fun _ => SQLITE_OK) SQLITE_OK (fun _ => SQLITE_OK) (replicate 100 0) (MkPrivate [] []) []
    (MkRecover 0 0 zero_hdr zero_hdr (MkCkpt 3 [0; 0; 0; 0; 0] 3) ∅ []) = Some (rc, v') /\
  (rc <> SQLITE_OK /\ rv_shm v' = zero_hdr /\ rv_info v' = MkCkpt 3 [0; 0; 0; 0; 0] 3 \/
   rv_shm v' = rv_hdr v' /\ published false (rv_hdr v') /\ mxFrame (rv_hdr v') = 0 /\ nPage (rv_hdr v') = 0
   /\ nBackfill (rv_info v') = 0).
Proof.
  apply (walIndexRecover_rejects BO_1234 false (fun _ => SQLITE_OK) (replicate 100 0) SQLITE_OK (fun _ => SQLITE_OK) (MkPrivate [] []) []
    (MkRecover 0 0 zero_hdr zero_hdr (MkCkpt 3 [0; 0; 0; 0; 0] 3) ∅ [])).
  - apply Forall_replicate. unfold is_u8. lia.
  - vm_compute. reflexivity.
  - constructor.
  - reflexivity.
  - intros (big & szPage & nCkpt & salt & H). apply lf_header in H. apply (f_equal head) in H.
    destruct big; discriminate H.
Defined.
