(* ===== verification/WalRead.v ===== *)
(** * Write-ahead log: read transactions ([src/wal.c])

    [walIndexReadHdr], [walBeginShmUnreliable], [walTryBeginRead],
    [walBeginReadTransaction] and the functions that read frames and end a
    transaction.  A connection looks at the wal-index several times while others
    change it; the environment records of this file hold what each look finds
    and the result of each lock.  The build options [SQLITE_ENABLE_SNAPSHOT] and
    [SQLITE_ENABLE_SETLK_TIMEOUT] are off, as in the default build. *)
From S2P Require Import Prelude Bytes FileIO WalBase WalFrame WalIndex WalIter WalHdr WalCkpt WalRecover.

Definition WAL_RETRY : Z := -1.
Definition WAL_RETRY_PROTOCOL_LIMIT : Z := 100.
Definition SQLITE_BUSY_RECOVERY : Z := Eval cbv in SQLITE_BUSY .| (1 << 8).
Definition SQLITE_BUSY_SNAPSHOT : Z := Eval cbv in SQLITE_BUSY .| (2 << 8).
Definition SQLITE_READONLY_RECOVERY : Z := Eval cbv in SQLITE_READONLY .| (1 << 8).
Definition SQLITE_READONLY_CANTINIT : Z := Eval cbv in SQLITE_READONLY .| (5 << 8).

(** The connection: its copy of the header and the state of its transaction. *)
Record Conn : Type := MkConn {
  cn_hdr : WalIndexHdr;
  cn_szPage : Z;
  cn_readLock : Z;           (** -1 without a read lock *)
  cn_minFrame : Z;
  cn_writeLock : bool;
  cn_shmRdonly : bool;       (** [readOnly & WAL_SHM_RDONLY] *)
  cn_bShmUnreliable : bool;
  cn_heapmemory : bool       (** [exclusiveMode==WAL_HEAPMEMORY_MODE] *)
}.

Definition cn_set_hdr (h : WalIndexHdr) (szPage : Z) (c : Conn) : Conn :=
  MkConn h szPage (cn_readLock c) (cn_minFrame c) (cn_writeLock c) (cn_shmRdonly c) (cn_bShmUnreliable c) (cn_heapmemory c).
Definition cn_set_lock (l : Z) (c : Conn) : Conn :=
  MkConn (cn_hdr c) (cn_szPage c) l (cn_minFrame c) (cn_writeLock c) (cn_shmRdonly c) (cn_bShmUnreliable c) (cn_heapmemory c).
Definition cn_set_minFrame (m : Z) (c : Conn) : Conn :=
  MkConn (cn_hdr c) (cn_szPage c) (cn_readLock c) m (cn_writeLock c) (cn_shmRdonly c) (cn_bShmUnreliable c) (cn_heapmemory c).
Definition cn_set_write (b : bool) (c : Conn) : Conn :=
  MkConn (cn_hdr c) (cn_szPage c) (cn_readLock c) (cn_minFrame c) b (cn_shmRdonly c) (cn_bShmUnreliable c) (cn_heapmemory c).
Definition cn_set_unreliable (b heap : bool) (c : Conn) : Conn :=
  MkConn (cn_hdr c) (cn_szPage c) (cn_readLock c) (cn_minFrame c) (cn_writeLock c) (cn_shmRdonly c) b heap.

(** ** Reading the header *)

Record HdrEnv : Type := MkHdrEnv {
  he_page0 : Z * bool;               (** [walIndexPage(pWal, 0, &page0)] and [page0!=0] *)
  he_try1 : list Z * list Z;         (** the copies read without a lock *)
  he_lockShared : Z;                 (** shared lock on the write lock byte *)
  he_lockWrite : Z;                  (** exclusive lock on the write lock byte *)
  he_page0' : Z;                     (** [walIndexPage] under that lock *)
  he_try2 : list Z * list Z;         (** the copies read under that lock *)
  he_lockAll : Z;                    (** for recovery: all other locks, *)
  he_lockRead : Z -> Z;              (** the read locks, *)
  he_wal : file;                     (** the log file, *)
  he_heap : private;                 (** the heap buffer *)
  he_alloc : alloc                   (** and its allocation *)
}.

Section Host.
Context (bo : byteorder) (host_big : bool) (shmMap : Z -> Z).

(** The second attempt, under the write lock: header, changed flag and result
    code, and whether the header is still bad. *)
Definition readhdr_locked (e : HdrEnv) (changed : bool) (c : Conn) (v : Recover)
    : option (Z * bool * bool * Conn * Recover) :=
  if negb (he_page0' e =? SQLITE_OK) then Some (he_page0' e, true, changed, c, v)
  else
    t ← walIndexTryHdr host_big (cn_hdr c) (cn_szPage c) changed (fst (he_try2 e)) (snd (he_try2 e));
    if negb (th_rc t =? 0) then
      '(rc, v) ← walIndexRecover bo host_big shmMap (he_lockAll e) (he_lockRead e) (he_wal e) (he_heap e) (he_alloc e)
                   (MkRecover (cn_szPage c) (rv_nCkpt v) (cn_hdr c) (rv_shm v) (rv_info v) (rv_pages v) (rv_io v));
      Some (rc, true, true, cn_set_hdr (rv_hdr v) (rv_szPage v) c, v)
    else Some (SQLITE_OK, false, th_changed t, cn_set_hdr (th_hdr t) (th_szPage t) c, v).

Definition walIndexReadHdr (e : HdrEnv) (changed : bool) (c : Conn) (v : Recover)
    : option (Z * bool * Conn * Recover) :=
  let '(rc, page0) := he_page0 e in
  if negb (rc =? SQLITE_OK) && negb (rc =? SQLITE_READONLY_CANTINIT) then Some (rc, changed, c, v)
  else
    let '(changed, c) :=
      if rc =? SQLITE_READONLY_CANTINIT then (true, cn_set_unreliable true true c) else (changed, c) in
    t ← (if (page0 : bool)
         then walIndexTryHdr host_big (cn_hdr c) (cn_szPage c) changed (fst (he_try1 e)) (snd (he_try1 e))
         else Some (MkTry 1 changed (cn_hdr c) (cn_szPage c)));
    let changed := th_changed t in
    let c := cn_set_hdr (th_hdr t) (th_szPage t) c in
    '(rc, badHdr, changed, c, v) ←
      (if negb (th_rc t =? 0) then
         if negb (cn_bShmUnreliable c) && cn_shmRdonly c then
           Some (if he_lockShared e =? SQLITE_OK then SQLITE_READONLY_RECOVERY else he_lockShared e, true, changed, c, v)
         else
           let bWriteLock := cn_writeLock c in
           let rc := if bWriteLock then SQLITE_OK else he_lockWrite e in
           if negb (rc =? SQLITE_OK) then Some (rc, true, changed, c, v)
           else
             '(rc, badHdr, changed, c, v) ← readhdr_locked e changed (cn_set_write true c) v;
             Some (rc, badHdr, changed, cn_set_write bWriteLock c, v)
       else Some (rc, false, changed, c, v) : option (Z * bool * bool * Conn * Recover));
    let rc := if negb badHdr && negb (iVersion (cn_hdr c) =? WALINDEX_MAX_VERSION) then SQLITE_CANTOPEN else rc in
    if cn_bShmUnreliable c then
      if negb (rc =? SQLITE_OK)
      then Some (if rc =? SQLITE_IOERR_SHORT_READ then WAL_RETRY else rc, changed, cn_set_unreliable false false c, v)
      else Some (rc, changed, cn_set_unreliable true false c, v)
    else Some (rc, changed, c, v).

(** ** A read-only wal-index *)

Record UnreliableEnv : Type := MkUnreliable {
  ue_lock0 : Z;              (** shared lock on read lock 0 *)
  ue_shmMap : Z;             (** [sqlite3OsShmMap] *)
  ue_heapHdr : WalIndexHdr;  (** the header of the wal-index in heap memory *)
  ue_wal : file;
  ue_io : list io_res;
  ue_alloc : alloc
}.

(** [for(iOffset=...; iOffset+szFrame<=szWal; iOffset+=szFrame)] *)
Fixpoint unreliable_loop (fuel : nat) (wal : file) (szWal szPage iOffset : Z) (io : list io_res) (h : WalIndexHdr)
    : option Z :=
  match fuel with
  | O => None
  | S fuel =>
      let szFrame := szPage + WAL_FRAME_HDRSIZE in
      if iOffset + szFrame <=? szWal then
        let '(rc, aFrame, io) := os_read io wal iOffset szFrame in
        if negb (rc =? SQLITE_OK) then Some rc
        else
          '(v, h) ← walDecodeFrame bo host_big h szPage (drop 24 aFrame) (take 24 aFrame);
          match v with
          | None => Some SQLITE_OK
          | Some (_, nTruncate) =>
              if negb (nTruncate =? 0) then Some WAL_RETRY
              else unreliable_loop fuel wal szWal szPage (iOffset + szFrame) io h
          end
      else Some SQLITE_OK
  end.

(** The checks of the log under read lock 0: result code and changed flag, and
    the header. *)
Definition unreliable_checks (e : UnreliableEnv) (changed : bool) (c : Conn) : option (Z * bool * Conn) :=
  if negb (ue_shmMap e =? SQLITE_READONLY_CANTINIT)
  then Some (if ue_shmMap e =? SQLITE_READONLY then WAL_RETRY else ue_shmMap e, changed, c)
  else
    let h := ue_heapHdr e in
    let c := cn_set_hdr h (cn_szPage c) c in
    let '(rc, szWal, io) := os_filesize (ue_io e) (ue_wal e) in
    if negb (rc =? SQLITE_OK) then Some (rc, changed, c)
    else if szWal <? WAL_HDRSIZE then Some (if mxFrame h =? 0 then SQLITE_OK else WAL_RETRY, true, c)
    else
      let '(rc, aBuf, io) := os_read io (ue_wal e) 0 WAL_HDRSIZE in
      if negb (rc =? SQLITE_OK) then Some (rc, changed, c)
      else if negb (bool_decide (aSalt h = take 8 (drop 16 aBuf))) then Some (WAL_RETRY, changed, c)
      else
        let '(ok, _) := malloc (ue_alloc e) in
        if negb ok then Some (SQLITE_NOMEM, changed, c)
        else
          let iOffset := walFrameOffset (mxFrame h + 1) (cn_szPage c) in
          rc ← unreliable_loop (S (Z.to_nat ((szWal - iOffset) / (cn_szPage c + WAL_FRAME_HDRSIZE) + 1)))
                 (ue_wal e) szWal (cn_szPage c) iOffset io h;
          Some (rc, changed, c).

Definition walBeginShmUnreliable (e : UnreliableEnv) (changed : bool) (c : Conn) : option (Z * bool * Conn) :=
  '(rc, changed, c) ←
    (if negb (ue_lock0 e =? SQLITE_OK)
     then Some (if ue_lock0 e =? SQLITE_BUSY then WAL_RETRY else ue_lock0 e, changed, c)
     else unreliable_checks e changed (cn_set_lock 0 c) : option (Z * bool * Conn));
  if negb (rc =? SQLITE_OK)
  then Some (rc, true, cn_set_lock (-1) (cn_set_unreliable false (cn_heapmemory c) c))
  else Some (rc, changed, c).

(** ** Choosing a read mark *)

Record ReadEnv : Type := MkReadEnv {
  re_hdr : HdrEnv;
  re_unreliable : UnreliableEnv;
  re_mapped : bool;                  (** [apWiData[0]!=0] after a BUSY *)
  re_lockRecover : Z;                (** shared lock on the recovery byte *)
  re_nBackfill0 : Z;                 (** the first look at [nBackfill] *)
  re_lock0 : Z;                      (** shared lock on read lock 0 *)
  re_shm0 : WalIndexHdr;             (** the header after that lock *)
  re_marks : list Z;                 (** the read marks *)
  re_lockExcl : Z -> Z;              (** exclusive locks on the read locks *)
  re_lockShared : Z -> Z;            (** shared locks on the read locks *)
  re_nBackfill : Z;                  (** [nBackfill], and then *)
  re_mark : Z -> Z;                  (** the read marks and *)
  re_shm : WalIndexHdr               (** the header, under the shared lock *)
}.

(** [for(i=1; i<WAL_NREADER; i++)], with the indices left: the largest mark up
    to [mxFrame] and its index *)
Fixpoint best_mark (marks : list Z) (mxFrame mxReadMark mxI : Z) (ix : list Z) : option (Z * Z) :=
  match ix with
  | [] => Some (mxReadMark, mxI)
  | i :: ix =>
      thisMark ← aget marks i;
      if (mxReadMark <=? thisMark) && (thisMark <=? mxFrame) then best_mark marks mxFrame thisMark i ix
      else best_mark marks mxFrame mxReadMark mxI ix
  end.

(** The loop that sets a mark nobody uses: [inl] the result code of an error,
    [inr] the last result code and the mark that was set. *)
Fixpoint claim_mark (lock : Z -> Z) (rc : Z) (ix : list Z) : Z + Z * option Z :=
  match ix with
  | [] => inr (rc, None)
  | i :: ix =>
      let rc := lock i in
      if rc =? SQLITE_OK then inr (rc, Some i)
      else if negb (rc =? SQLITE_BUSY) then inl rc
      else claim_mark lock rc ix
  end.

(** After the choice of slot [mxI]: lock it and look again. *)
Definition lock_mark (e : ReadEnv) (mxReadMark mxI : Z) (c : Conn) : Z * Conn :=
  let rc := re_lockShared e mxI in
  if negb (rc =? SQLITE_OK) then (if rc .& 0xFF =? SQLITE_BUSY then WAL_RETRY else rc, c)
  else
    let c := cn_set_minFrame (u32 (re_nBackfill e + 1)) c in
    if negb (re_mark e mxI =? mxReadMark) || negb (bool_decide (re_shm e = cn_hdr c)) then (WAL_RETRY, c)
    else (SQLITE_OK, cn_set_lock mxI c).

(** The part of [walTryBeginRead] that uses the log: result code, connection
    and the mark that was set. *)
Definition begin_wal (e : ReadEnv) (c : Conn) : option (Z * Conn * option (Z * Z)) :=
  let mx := mxFrame (cn_hdr c) in
  '(mxReadMark, mxI) ← best_mark (re_marks e) mx 0 0 [1; 2; 3; 4];
  let claimed :=
    if negb (cn_shmRdonly c) && ((mxReadMark <? mx) || (mxI =? 0))
    then claim_mark (re_lockExcl e) SQLITE_OK [1; 2; 3; 4]
    else inr (SQLITE_OK, None) in
  match claimed with
  | inl rc => Some (rc, c, None)
  | inr (rc, Some i) =>
      let '(rc, c) := lock_mark e mx i c in Some (rc, c, Some (i, mx))
  | inr (rc, None) =>
      if mxI =? 0 then Some (if rc =? SQLITE_BUSY then WAL_RETRY else SQLITE_READONLY_CANTINIT, c, None)
      else let '(rc, c) := lock_mark e mxReadMark mxI c in Some (rc, c, None)
  end.

(** The part for a log that is wholly back-filled; [None] to go on with the
    log. *)
Definition begin_db (e : ReadEnv) (useWal : bool) (c : Conn) : option (Z * Conn) :=
  if negb useWal && (re_nBackfill0 e =? mxFrame (cn_hdr c)) then
    if re_lock0 e =? SQLITE_OK then
      if negb (bool_decide (re_shm0 e = cn_hdr c)) then Some (WAL_RETRY, c)
      else Some (SQLITE_OK, cn_set_lock 0 c)
    else if negb (re_lock0 e =? SQLITE_BUSY) then Some (re_lock0 e, c)
    else None
  else None.

Record read_result : Type := MkRead {
  rr_rc : Z;
  rr_changed : bool;
  rr_conn : Conn;
  rr_recover : Recover;
  rr_mark : option (Z * Z)
}.

(** The first part, when the header is to be read: [inl] when the function
    returns, else the changed flag, the connection and the wal-index. *)
Definition begin_hdr (e : ReadEnv) (changed : bool) (c : Conn) (v : Recover) : option (read_result + bool * Conn * Recover) :=
  '(rc, changed, c, v) ←
    (if cn_bShmUnreliable c then Some (SQLITE_OK, changed, c, v) else walIndexReadHdr (re_hdr e) changed c v);
  let rc :=
    if rc =? SQLITE_BUSY then
      if negb (re_mapped e) then WAL_RETRY
      else if re_lockRecover e =? SQLITE_OK then WAL_RETRY
      else if re_lockRecover e =? SQLITE_BUSY then SQLITE_BUSY_RECOVERY
      else re_lockRecover e
    else rc in
  if negb (rc =? SQLITE_OK) then Some (inl (MkRead rc changed c v None))
  else if cn_bShmUnreliable c then
    '(rc, changed, c) ← walBeginShmUnreliable (re_unreliable e) changed c;
    Some (inl (MkRead rc changed c v None))
  else Some (inr (changed, c, v)).

(** [cnt] is [*pCnt] on entry. *)
Definition walTryBeginRead (e : ReadEnv) (changed useWal : bool) (cnt : Z) (c : Conn) (v : Recover) : option read_result :=
  let cnt := cnt + 1 in
  if (cnt >? 5) && (cnt >? WAL_RETRY_PROTOCOL_LIMIT) then Some (MkRead SQLITE_PROTOCOL changed c v None)
  else
    r ← (if useWal then Some (inr (changed, c, v)) else begin_hdr e changed c v);
    match r with
    | inl r => Some r
    | inr (changed, c, v) =>
        match begin_db e useWal c with
        | Some (rc, c) => Some (MkRead rc changed c v None)
        | None =>
            '(rc, c, m) ← begin_wal e c;
            Some (MkRead rc changed c v m)
        end
    end.

(** [do rc = walTryBeginRead(...) while( rc==WAL_RETRY )], where [env] gives the
    environment of each attempt.  The marks that were set are in order. *)
Fixpoint begin_loop (fuel : nat) (env : Z -> ReadEnv) (useWal : bool) (cnt : Z) (changed : bool) (c : Conn) (v : Recover)
    (marks : list (Z * Z)) : option (read_result * list (Z * Z)) :=
  match fuel with
  | O => None
  | S fuel =>
      r ← walTryBeginRead (env cnt) changed useWal cnt c v;
      let marks := marks ++ match rr_mark r with Some m => [m] | None => [] end in
      if rr_rc r =? WAL_RETRY
      then begin_loop fuel env useWal (cnt + 1) (rr_changed r) (rr_conn r) (rr_recover r) marks
      else Some (r, marks)
  end.

Definition walBeginReadTransaction (env : Z -> ReadEnv) (changed : bool) (c : Conn) (v : Recover)
    : option (read_result * list (Z * Z)) :=
  begin_loop (S (Z.to_nat WAL_RETRY_PROTOCOL_LIMIT)) env false 0 changed c v [].

(** ** Ending and reading *)

Definition sqlite3WalEndWriteTransaction (c : Conn) : Conn := cn_set_write false c.

Definition sqlite3WalEndReadTransaction (c : Conn) : Conn :=
  let c := sqlite3WalEndWriteTransaction c in
  if 0 <=? cn_readLock c then cn_set_lock (-1) c else c.

(** The frame of page [pgno] in the snapshot of the connection, zero for none. *)
Definition sqlite3WalFindFrame (w : WiData) (pgno : Z) (c : Conn) : option (Z * Z) :=
  walFindFrame shmMap w ((cn_readLock c =? 0) && negb (cn_bShmUnreliable c)) (cn_minFrame c) pgno (mxFrame (cn_hdr c)).

Definition sqlite3WalReadFrame (io : list io_res) (wal : file) (iRead nOut : Z) (c : Conn) : Z * list Z * list io_res :=
  let sz := hdr_pagesize (hdr_szPage (cn_hdr c)) in
  os_read io wal (walFrameOffset iRead sz + WAL_FRAME_HDRSIZE) (if nOut >? sz then sz else nOut).

Definition sqlite3WalReadFrameRaw (io : list io_res) (wal : file) (iRead nOut : Z) (c : Conn) : Z * list Z * list io_res :=
  let sz := hdr_pagesize (hdr_szPage (cn_hdr c)) in
  let sz' := sz + WAL_FRAME_HDRSIZE in
  os_read io wal (walFrameOffset iRead sz) (if nOut >? sz' then sz' else nOut).

Definition sqlite3WalDbsize (c : Conn) : Z := if 0 <=? cn_readLock c then nPage (cn_hdr c) else 0.

(** [readDbPage] of [src/pager.c], for a pager in WAL mode: result code, page
    content and [dbFileVers]. *)
Definition readDbPage (io : list io_res) (wal db : file) (w : WiData) (pageSize pgno : Z) (dbFileVers : list Z) (c : Conn)
    : option (Z * list Z * list Z) :=
  '(rc, iFrame) ← sqlite3WalFindFrame w pgno c;
  if negb (rc =? SQLITE_OK) then Some (rc, [], dbFileVers)
  else
    let '(rc, pData, _) :=
      if negb (iFrame =? 0) then sqlite3WalReadFrame io wal iFrame pageSize c
      else
        let '(rc, pData, io) := os_read io db ((pgno - 1) * pageSize) pageSize in
        (if rc =? SQLITE_IOERR_SHORT_READ then SQLITE_OK else rc, pData, io) in
    Some (rc, pData,
          if pgno =? 1 then if negb (rc =? SQLITE_OK) then replicate 16 0xff else take 16 (drop 24 pData) else dbFileVers).
End Host.

(** ** The chosen mark *)

Lemma best_mark_spec marks mx : forall ix mark i m j, (mark <= mx \/ i = 0) -> (i = 0 \/ 1 <= i <= 4) ->
  Forall (fun k => 1 <= k <= 4) ix -> best_mark marks mx mark i ix = Some (m, j) -> (m <= mx \/ j = 0) /\ (j = 0 \/ 1 <= j <= 4).
Proof.
  induction ix as [|k ix IH]; intros mark i m j Hm Hi HF H; cbn in H; [by simplify_eq|].
  apply Forall_cons in HF as [Hk HF]. destruct (aget marks k) as [t|]; cbn in H; [|done].
  destruct (Z.leb_spec mark t), (Z.leb_spec t mx); cbn in H; eapply IH in H; try done; lia.
Qed.

Lemma claim_mark_spec lock : forall ix rc rc' i, Forall (fun k => 1 <= k <= 4) ix ->
  claim_mark lock rc ix = inr (rc', Some i) -> 1 <= i <= 4.
Proof.
  induction ix as [|k ix IH]; intros rc rc' i HF H; cbn in H; [done|]. apply Forall_cons in HF as [Hk HF].
  destruct (lock k =? SQLITE_OK); [by simplify_eq|]. destruct (negb _); [done|]. by eapply IH.
Qed.

(** What a connection knows that has a read lock on the log: the header and
    the mark were in place under the lock. *)
Definition wal_reader (e : ReadEnv) (c : Conn) : Prop :=
  1 <= cn_readLock c <= 4 /\ cn_hdr c = re_shm e /\ re_mark e (cn_readLock c) <= mxFrame (cn_hdr c)
  /\ cn_minFrame c = u32 (re_nBackfill e + 1).

Lemma lock_mark_spec e m i c c' : 1 <= i <= 4 -> m <= mxFrame (cn_hdr c) -> lock_mark e m i c = (SQLITE_OK, c') -> wal_reader e c'.
Proof.
  intros Hi Hm. unfold lock_mark. destruct (negb (re_lockShared e i =? SQLITE_OK)) eqn:El.
  { destruct (_ =? SQLITE_BUSY); [done|]. intros E. injection E as E _. by rewrite E in El. }
  destruct (Z.eqb_spec (re_mark e i) m) as [Em|]; cbn [negb orb]; [|done].
  case_bool_decide as Eh; [|done]. cbn [negb]. intros E. simplify_eq. cbn in Eh. split_and!; cbn; try done; lia.
Qed.

Lemma begin_wal_spec e c c' m : begin_wal e c = Some (SQLITE_OK, c', m) -> wal_reader e c'.
Proof.
  unfold begin_wal. destruct (best_mark _ _ _ _ _) as [[mark j]|] eqn:Eb; cbn [mbind option_bind]; [|done].
  assert (HF : Forall (fun k => 1 <= k <= 4) [1; 2; 3; 4]) by (repeat (apply Forall_cons_2; [lia|]); constructor).
  apply best_mark_spec in Eb as [Hm Hj]; [|by right|by left|done].
  destruct (if _ && _ then _ else _) as [rc|[rc [i|]]] eqn:Ec.
  - intros H. simplify_eq. destruct (_ && _) in Ec; [|done]. exfalso. clear -Ec. revert Ec.
    assert (Hn : forall ix r, claim_mark (re_lockExcl e) r ix <> inl SQLITE_OK).
    { induction ix as [|k ix IH]; intros r; cbn; [done|]. destruct (Z.eqb_spec (re_lockExcl e k) SQLITE_OK); [done|].
      destruct (negb _); [congruence|]. apply IH. }
    apply Hn.
  - destruct (_ && _) in Ec; [|done]. apply claim_mark_spec in Ec; [|done].
    destruct (lock_mark _ _ _ _) as [rc' c''] eqn:El. intros H. simplify_eq. by eapply lock_mark_spec; [..|exact El].
  - destruct (Z.eqb_spec j 0); [by destruct (rc =? SQLITE_BUSY)|].
    destruct (lock_mark _ _ _ _) as [rc' c''] eqn:El. intros H. simplify_eq. eapply lock_mark_spec; [..|exact El]; lia.
Qed.

Lemma begin_wal_flag e c rc c' m : begin_wal e c = Some (rc, c', m) -> cn_bShmUnreliable c' = cn_bShmUnreliable c.
Proof.
  assert (L : forall mk i, cn_bShmUnreliable (snd (lock_mark e mk i c)) = cn_bShmUnreliable c).
  { intros mk i. unfold lock_mark. destruct (negb _); [done|]. by destruct (_ || _). }
  unfold begin_wal. intros E. apply bind_Some in E as ([mk j] & _ & E). destruct (if _ && _ then _ else _) as [rc1|[rc1 [i|]]].
  - by simplify_eq.
  - specialize (L (mxFrame (cn_hdr c)) i). destruct (lock_mark _ _ _ _). by simplify_eq.
  - destruct (j =? 0); [by simplify_eq|]. specialize (L mk j). destruct (lock_mark _ _ _ _). by simplify_eq.
Qed.

Lemma unreliable_checks_flag bo host_big e ch c rc ch' c' : unreliable_checks bo host_big e ch c = Some (rc, ch', c') ->
  cn_bShmUnreliable c' = cn_bShmUnreliable c.
Proof.
  unfold unreliable_checks. destruct (negb (ue_shmMap e =? _)); [intros; by simplify_eq|].
  destruct (os_filesize _ _) as [[rc1 szWal] io1]. destruct (negb (rc1 =? _)); [intros; by simplify_eq|].
  destruct (szWal <? WAL_HDRSIZE); [intros; by simplify_eq|].
  destruct (os_read _ _ _ _) as [[rc2 b] io2]. destruct (negb (rc2 =? _)); [intros; by simplify_eq|].
  destruct (negb (bool_decide _)); [intros; by simplify_eq|]. destruct (malloc _) as [ok al]. destruct (negb ok); [intros; by simplify_eq|].
  destruct (unreliable_loop _ _ _ _ _ _ _ _ _); cbn [mbind option_bind]; intros; by simplify_eq.
Qed.

(** Only a connection with an unreliable wal-index starts in the first part. *)
Lemma begin_hdr_returns bo host_big shmMap e ch c v r : begin_hdr bo host_big shmMap e ch c v = Some (inl r) ->
  rr_rc r = SQLITE_OK -> cn_bShmUnreliable (rr_conn r) = true.
Proof.
  unfold begin_hdr. set (t := if cn_bShmUnreliable c then _ else _). destruct t as [[[[rc ch1] c1] v1]|]; cbn [mbind option_bind]; [|done].
  set (rc' := if rc =? SQLITE_BUSY then _ else _). destruct (Z.eqb_spec rc' SQLITE_OK) as [_|Hne]; cbn [negb].
  2:{ intros E Hrc. injection E as <-. cbn [rr_rc] in Hrc. congruence. }
  destruct (cn_bShmUnreliable c1) eqn:Eu; [|done].
  destruct (walBeginShmUnreliable _ _ _ _ _) as [[[rc2 ch2] c2]|] eqn:Eb; cbn [mbind option_bind]; [|done].
  intros E Hrc. injection E as <-. cbn [rr_rc rr_conn] in *. subst rc2. revert Eb. unfold walBeginShmUnreliable.
  destruct (ue_lock0 (re_unreliable e) =? SQLITE_OK); cbn [negb].
  - destruct (unreliable_checks _ _ _ _ _) as [[[rc3 ch3] c3]|] eqn:E3; cbn [mbind option_bind]; [|done].
    apply unreliable_checks_flag in E3. destruct (Z.eqb_spec rc3 SQLITE_OK); cbn [negb]; intros E; [|congruence].
    injection E as _ _ <-. by rewrite E3.
  - cbn [mbind option_bind]. set (x := if ue_lock0 (re_unreliable e) =? SQLITE_BUSY then _ else _).
    destruct (Z.eqb_spec x SQLITE_OK); cbn [negb]; intros E; [|congruence]. by injection E as _ _ <-.
Qed.

(** A connection whose read transaction has started. *)
Lemma begin_spec bo host_big shmMap e changed useWal cnt c v r :
  walTryBeginRead bo host_big shmMap e changed useWal cnt c v = Some r -> rr_rc r = SQLITE_OK ->
  cn_bShmUnreliable (rr_conn r) = false -> cn_readLock (rr_conn r) = 0 \/ wal_reader e (rr_conn r).
Proof.
  unfold walTryBeginRead. destruct (_ && _); [intros; by simplify_eq|].
  destruct useWal.
  - cbn [mbind option_bind begin_db negb andb].
    destruct (begin_wal e c) as [[[rc c'] m]|] eqn:Ew; cbn [mbind option_bind]; [|done].
    intros E Hrc _. injection E as <-. cbn [rr_rc rr_conn] in *. subst rc. right. by eapply begin_wal_spec.
  - destruct (begin_hdr _ _ _ _ _ _ _) as [[r1|[[ch1 c1] v1]]|] eqn:Eh; cbn [mbind option_bind]; [| |done].
    { intros E Hrc Hu. injection E as <-. apply begin_hdr_returns in Eh; congruence. }
    destruct (begin_db e false c1) as [[rc c']|] eqn:Ed.
    + intros E Hrc _. injection E as <-. cbn [rr_rc rr_conn] in *. subst rc. left. revert Ed. unfold begin_db.
      destruct (_ && _); [|done]. destruct (Z.eqb_spec (re_lock0 e) SQLITE_OK) as [|Hne].
      * case_bool_decide; cbn [negb]; intros; by simplify_eq.
      * destruct (negb _); [|done]. intros E. by injection E as E _.
    + destruct (begin_wal e c1) as [[[rc c'] m]|] eqn:Ew; cbn [mbind option_bind]; [|done].
      intros E Hrc _. injection E as <-. cbn [rr_rc rr_conn] in *. subst rc. right. by eapply begin_wal_spec.
Qed.

(** ** Reading pages *)

Lemma read_page_view shmMap w ps wal db p vers c : index_ok w ps -> cn_bShmUnreliable c = false ->
  0 <= mxFrame (cn_hdr c) <= alen ps -> 0 <= cn_minFrame c < 2 ^ 32 ->
  let sz := hdr_pagesize (hdr_szPage (cn_hdr c)) in
  exists rc vers', readDbPage shmMap [] wal db w sz p vers c
    = Some (rc, if cn_readLock c =? 0 then page_data db sz p else view ps sz wal db (cn_minFrame c) (mxFrame (cn_hdr c)) p, vers').
Proof.
  intros Hw Hu Hmx Hmin sz. unfold readDbPage, sqlite3WalFindFrame. rewrite Hu. cbn [negb]. rewrite andb_true_r.
  destruct (Z.eqb_spec (cn_readLock c) 0) as [E|E].
  - unfold walFindFrame. rewrite orb_true_r. cbn [mbind option_bind]. change (SQLITE_OK =? SQLITE_OK) with true. cbn [negb].
    cbn [Z.eqb]. unfold os_read. cbn [io_next negb]. eauto.
  - rewrite (find_frame shmMap w ps) by done. cbn [mbind option_bind]. change (SQLITE_OK =? SQLITE_OK) with true. cbn [negb].
    unfold view. destruct (Z.eqb_spec (latest_frame (Z.to_nat (mxFrame (cn_hdr c))) ps (cn_minFrame c) p) 0) as [E0|E0]; cbn [negb].
    + unfold os_read. cbn [io_next]. eauto.
    + unfold sqlite3WalReadFrame. fold sz. rewrite Z.gtb_ltb, Z.ltb_irrefl. unfold os_read. cbn [io_next]. eauto.
Qed.

(** ** Properties *)

(** C8. Isolation of a read transaction from checkpoints, through the code on
    both sides.  A connection whose [walTryBeginRead] succeeded reads, through
    [readDbPage], the same content for every page of its snapshot before and
    after any checkpoint that another connection runs while the read lock is
    held, however that checkpoint ends.  The checkpoint may start later: then
    more frames may be in the log and back-filled, but the mark of the reader is
    as it was under its lock. *)
Theorem readDbPage_isolated bo host_big shmMap e changed useWal cnt c v r
    bo' host_big' shmMap' ek w ps minFrame al s p vers :
  walTryBeginRead bo host_big shmMap e changed useWal cnt c v = Some r -> rr_rc r = SQLITE_OK ->
  cn_bShmUnreliable (rr_conn r) = false -> 0 <= cn_minFrame (rr_conn r) < 2 ^ 32 -> 0 <= mxFrame (cn_hdr (rr_conn r)) <= mxFrame (ck_shm s) ->
  hdr_pagesize (hdr_szPage (cn_hdr (rr_conn r))) = ck_szPage s -> 1 <= p <= nPage (cn_hdr (rr_conn r)) ->
  ckpt_pre ek w ps minFrame s -> held (e_locks ek) (WAL_READ_LOCK (cn_readLock (rr_conn r))) ->
  (cn_readLock (rr_conn r) <> 0 ->
     aget (aReadMark (ck_info s)) (cn_readLock (rr_conn r)) = Some (re_mark e (cn_readLock (rr_conn r)))
     /\ 0 <= re_nBackfill e <= nBackfill (ck_info s)
     /\ (mxFrame (ck_hdr s) = mxFrame (re_shm e) -> nPage (ck_hdr s) = nPage (re_shm e))) ->
  exists rc s', walCheckpoint bo' host_big' shmMap' ek w minFrame al s = Some (rc, s') /\
  exists rc1 rc2 d vers1 vers2,
    readDbPage shmMap [] (ck_wal s) (ck_db s) w (ck_szPage s) p vers (rr_conn r) = Some (rc1, d, vers1)
    /\ readDbPage shmMap [] (ck_wal s') (ck_db s') w (ck_szPage s) p vers (rr_conn r) = Some (rc2, d, vers2).
Proof.
  intros Hb Hrc Hu Hmin Hmx Hsz Hp Hpre Hheld Hmark. pose proof Hpre as (Hw & Hps & _ & Hok & _).
  pose proof (ok_mx _ _ Hok) as Hmx0. pose proof (ok_shm _ _ Hok) as Hshm. pose proof (ok_nB _ _ Hok) as HnB. pose proof Hw as (Hmax & _).
  set (rd := rr_conn r) in *.
  assert (R : forall wal db, exists rc vers', readDbPage shmMap [] wal db w (ck_szPage s) p vers rd
    = Some (rc, if cn_readLock rd =? 0 then page_data db (ck_szPage s) p else view ps (ck_szPage s) wal db (cn_minFrame rd) (mxFrame (cn_hdr rd)) p, vers')).
  { intros wal db. rewrite <- Hsz. apply read_page_view; [done|done|lia|lia]. }
  pose proof (begin_spec _ _ _ _ _ _ _ _ _ _ Hb Hrc Hu) as Hbs. fold rd in Hbs. destruct Hbs as [E0|(Hi & Eh & Hy & Em)].
  - rewrite E0 in Hheld.
    destruct (checkpoint_run bo' host_big' shmMap' ek w ps minFrame al s Hpre) as (rc & s1 & s' & E & _ & _ & _ & Hc & _ & Hdb & _).
    exists rc, s'. split; [done|]. assert (ck_db s' = ck_db s) as Ed by (rewrite Hdb; destruct Hc as [[? _]|(mxSafe & Hn & _)]; done).
    destruct (R (ck_wal s) (ck_db s)) as (rc1 & v1 & E1), (R (ck_wal s') (ck_db s')) as (rc2 & v2 & E2).
    rewrite Ed, E0 in *. cbn [Z.eqb] in *. eauto 10.
  - destruct Hmark as (Hmk & Hb0 & Hnp); [lia|].
    destruct (checkpoint_view bo' host_big' shmMap' ek w ps minFrame al s (cn_readLock rd) (re_mark e (cn_readLock rd)) (cn_minFrame rd) (mxFrame (cn_hdr rd)) p)
      as (rc & s' & E & Ev & _); try done; try lia.
    { rewrite Em, u32_id by (unfold is_u32; lia). lia. }
    { rewrite Eh in *. destruct (decide (mxFrame (ck_hdr s) = mxFrame (re_shm e))) as [Hx|]; [left; rewrite Hnp by done; lia|right; lia]. }
    exists rc, s'. split; [done|].
    destruct (R (ck_wal s) (ck_db s)) as (rc1 & v1 & E1), (R (ck_wal s') (ck_db s')) as (rc2 & v2 & E2).
    destruct (Z.eqb_spec (cn_readLock rd) 0); [lia|]. rewrite Ev in E2. eauto 10.
Qed.

Definition quiet_hdr : HdrEnv :=
  MkHdrEnv (SQLITE_OK, true) ([], []) SQLITE_OK SQLITE_OK SQLITE_OK ([], []) SQLITE_OK (fun _ => SQLITE_OK) [] (MkPrivate [] []) [].
Definition quiet_unreliable : UnreliableEnv := MkUnreliable SQLITE_OK SQLITE_OK zero_hdr [] [] [].
Definition quiet_read : ReadEnv :=
  MkReadEnv quiet_hdr quiet_unreliable true SQLITE_OK 0 SQLITE_OK ckpt_hdr [0; 3; READMARK_NOT_USED; READMARK_NOT_USED; READMARK_NOT_USED]
    (fun _ => SQLITE_BUSY) (fun _ => SQLITE_OK) 0 (fun i => if i =? 1 then 3 else READMARK_NOT_USED) ckpt_hdr.
Definition quiet_conn : Conn := MkConn ckpt_hdr 512 (-1) 0 false false false false.
Definition quiet_index : Recover := MkRecover 512 0 ckpt_hdr ckpt_hdr (MkCkpt 0 [0; 0; 0; 0; 0] 0) ∅ [].

Lemma readDbPage_isolated_witness : exists w,
  index_frames (fun _ => SQLITE_OK) ∅ 0 0 ckpt_pages = Some (SQLITE_OK, w) /\
  let s := ckpt_start [IoOk; IoOk; IoOk; IoErr SQLITE_IOERR [7; 7]] [0; 3; 2; 0; 0] in
  exists r, walTryBeginRead BO_1234 false (fun _ => SQLITE_OK) quiet_read false true 0 quiet_conn quiet_index = Some r /\
  exists rc s', walCheckpoint BO_1234 false (fun _ => SQLITE_OK)
      (MkEnv SQLITE_CHECKPOINT_PASSIVE false (locks_but (WAL_READ_LOCK 1)) [1; 2; 3; 4] None) w 1 [] s = Some (rc, s') /\
  exists rc1 rc2 d vers1 vers2,
    readDbPage (fun _ => SQLITE_OK) [] (ck_wal s) (ck_db s) w (ck_szPage s) 1 [] (rr_conn r) = Some (rc1, d, vers1)
    /\ readDbPage (fun _ => SQLITE_OK) [] (ck_wal s') (ck_db s') w (ck_szPage s) 1 [] (rr_conn r) = Some (rc2, d, vers2).
Proof.
  destruct ckpt_index as (w & E & Hw). exists w. split; [exact E|]. eexists. split; [reflexivity|].
  eapply (readDbPage_isolated BO_1234 false (fun _ => SQLITE_OK) quiet_read false true 0 quiet_conn quiet_index _
    BO_1234 false (fun _ => SQLITE_OK) (MkEnv SQLITE_CHECKPOINT_PASSIVE false (locks_but (WAL_READ_LOCK 1)) [1; 2; 3; 4] None)
    w ckpt_pages 1 [] (ckpt_start [IoOk; IoOk; IoOk; IoErr SQLITE_IOERR [7; 7]] [0; 3; 2; 0; 0]) 1 []).
  - reflexivity.
  - reflexivity.
  - reflexivity.
  - vm_compute. split; [discriminate|reflexivity].
  - vm_compute. split; discriminate.
  - reflexivity.
  - vm_compute. split; discriminate.
  - apply ckpt_start_pre; [exact Hw|repeat constructor; discriminate|reflexivity|repeat constructor; lia|reflexivity].
  - apply locks_but_held.
  - intros _. split; [reflexivity|]. split; [vm_compute; split; discriminate|reflexivity].
Defined.

(** ** The retry loop *)

Lemma try_protocol bo host_big shmMap e changed useWal cnt c v : 100 <= cnt ->
  walTryBeginRead bo host_big shmMap e changed useWal cnt c v = Some (MkRead SQLITE_PROTOCOL changed c v None).
Proof.
  intros H. unfold walTryBeginRead, WAL_RETRY_PROTOCOL_LIMIT.
  destruct (Z.gtb_spec (cnt + 1) 5), (Z.gtb_spec (cnt + 1) 100); try lia. done.
Qed.

Lemma best_mark_total marks mx : alen marks = WAL_NREADER -> forall ix m i, Forall (fun k => 1 <= k <= 4) ix ->
  exists r, best_mark marks mx m i ix = Some r.
Proof.
  intros Hm. induction ix as [|k ix IH]; intros m i HF; cbn; [by eexists|]. apply Forall_cons in HF as [Hk HF].
  destruct (aget_is_Some marks k) as [v ->]; [rewrite Hm; unfold WAL_NREADER; lia|]. cbn [mbind option_bind]. destruct (_ && _); by apply IH.
Qed.

Lemma slots_ok : Forall (fun k => 1 <= k <= 4) [1; 2; 3; 4].
Proof. repeat (apply Forall_cons_2; [lia|]). constructor. Qed.

Lemma begin_wal_total e c : alen (re_marks e) = WAL_NREADER ->
  exists rc c' m, begin_wal e c = Some (rc, c', m) /\ (forall i v, m = Some (i, v) -> 1 <= i <= 4 /\ v = mxFrame (cn_hdr c)).
Proof.
  intros Hm. unfold begin_wal. destruct (best_mark_total (re_marks e) (mxFrame (cn_hdr c)) Hm [1; 2; 3; 4] 0 0 slots_ok) as [[mark j] ->].
  cbn [mbind option_bind]. destruct (if _ && _ then _ else _) as [rc|[rc [i|]]] eqn:Ec.
  - eexists _, _, _. by split.
  - destruct (lock_mark _ _ _ _) as [rc' c']. eexists _, _, _. split; [done|]. intros i' v [= <- <-]. split; [|done].
    destruct (_ && _) in Ec; [|done]. by eapply claim_mark_spec in Ec; [|apply slots_ok].
  - destruct (j =? 0); [by eexists _, _, _|]. destruct (lock_mark _ _ _ _) as [rc' c']. by eexists _, _, _.
Qed.

(** Attempts that keep an invariant end. *)
Lemma begin_loop_ends bo host_big shmMap env useWal (I : Conn -> Recover -> Prop) :
  (forall k ch c v, 0 <= k < 100 -> I c v ->
     exists r, walTryBeginRead bo host_big shmMap (env k) ch useWal k c v = Some r /\ I (rr_conn r) (rr_recover r)) ->
  forall fuel cnt changed c v marks, cnt + Z.of_nat fuel = 101 -> 0 <= cnt -> (0 < fuel)%nat -> I c v ->
  exists r marks', begin_loop bo host_big shmMap fuel env useWal cnt changed c v marks = Some (r, marks') /\ rr_rc r <> WAL_RETRY.
Proof.
  intros Htry. induction fuel as [|fuel IH]; intros cnt changed c v marks Hf H0 Hp Hi; [lia|]. cbn [begin_loop].
  destruct (decide (100 <= cnt)) as [H|H].
  - rewrite try_protocol by done. cbn [mbind option_bind rr_rc]. change (SQLITE_PROTOCOL =? WAL_RETRY) with false. cbv iota. eauto.
  - destruct (Htry cnt changed c v ltac:(lia) Hi) as (r & -> & Hi'). cbn [mbind option_bind].
    destruct (Z.eqb_spec (rr_rc r) WAL_RETRY); [|eauto]. apply IH; [lia|lia|lia|done].
Qed.

(** Two copies of the header, whatever their bytes are. *)
Definition hdr_copies (p : list Z * list Z) : Prop :=
  (length (fst p) = NHDR /\ Forall is_u8 (fst p)) /\ length (snd p) = NHDR /\ Forall is_u8 (snd p).

(** What an attempt may find: a wal-index in shared memory, with any bytes where the headers are and
    any read marks, and any log file that is not too large for the wal-index.  Results of locks, the
    heap and all values seen later are arbitrary. *)
Record attempt_ok (e : ReadEnv) : Prop := {
  ao_shared : fst (he_page0 (re_hdr e)) <> SQLITE_READONLY_CANTINIT;
  ao_copies : hdr_copies (he_try1 (re_hdr e)) /\ hdr_copies (he_try2 (re_hdr e));
  ao_bytes : Forall is_u8 (he_wal (re_hdr e));
  ao_size : (alen (he_wal (re_hdr e)) - WAL_HDRSIZE) / (512 + WAL_FRAME_HDRSIZE) < 2 ^ 32 - 4096;
  ao_marks : alen (re_marks e) = WAL_NREADER
}.

(** The connection between attempts: a wal-index in shared memory, an I/O error is not reported as
    success, and the wal-index has its five read marks. *)
Definition attempt_inv (c : Conn) (v : Recover) : Prop :=
  cn_bShmUnreliable c = false /\ io_ok (rv_io v) /\ alen (aReadMark (rv_info v)) = WAL_NREADER.

Section Attempts.
Context (bo : byteorder) (host_big : bool) (shmMap : Z -> Z).

Lemma hdr_of_bytes_total p : length p = NHDR -> exists h, hdr_of_bytes host_big p = Some h.
Proof.
  unfold NHDR. intros Hl. unfold hdr_of_bytes.
  assert (G : forall n, (n <= 44)%nat -> exists x, load32 host_big (drop n p) = Some x) by (intros n Hn; apply load32_is_Some; rewrite length_drop; lia).
  destruct (G 0%nat ltac:(lia)) as [x0 E0]. rewrite drop_0 in E0. rewrite E0. cbn [mbind option_bind].
  do 2 (match goal with |- context [load32 _ (drop ?n p)] => destruct (G n ltac:(lia)) as [? ->] end; cbn [mbind option_bind]).
  do 2 (match goal with |- context [p !! ?n] => destruct (lookup_lt_is_Some_2 p n ltac:(lia)) as [? ->] end; cbn [mbind option_bind]).
  assert (exists x, load16 host_big (drop 14 p) = Some x) as [? ->].
  { destruct (drop 14 p) as [|a [|b l]] eqn:E; [apply (f_equal length) in E; rewrite length_drop in E; cbn in E; lia..|by eexists]. }
  cbn [mbind option_bind].
  do 6 (match goal with |- context [load32 _ (drop ?n p)] => destruct (G n ltac:(lia)) as [? ->] end; cbn [mbind option_bind]).
  by eexists.
Qed.

Lemma try_total hdr szPage changed p : hdr_copies p -> exists t, walIndexTryHdr host_big hdr szPage changed (fst p) (snd p) = Some t.
Proof.
  intros [[Hl HF] _]. unfold walIndexTryHdr. destruct (negb _); [by eexists|]. destruct (hdr_of_bytes_total _ Hl) as [h ->]. cbn [mbind option_bind].
  destruct (_ =? 0); [by eexists|]. pose proof (checksum_ref host_big host_big (fst p) 40 None HF) as Hc. rewrite eqb_reflx in Hc.
  rewrite Hc by (first [done|unfold alen; rewrite Hl; unfold NHDR; lia]). cbn [mbind option_bind]. destruct (_ || _); [by eexists|]. destruct (negb _); by eexists.
Qed.

Lemma readhdr_locked_total e changed c v : attempt_ok e -> attempt_inv c v ->
  exists rc bad ch c' v', readhdr_locked bo host_big shmMap (re_hdr e) changed c v = Some (rc, bad, ch, c', v') /\ attempt_inv c' v'.
Proof.
  intros [_ [_ H2] Hb Hs _] (Hu & Hio & Hm). unfold readhdr_locked. destruct (negb _); [by eexists _, _, _, _, _|].
  destruct (try_total (cn_hdr c) (cn_szPage c) changed _ H2) as [t ->]. cbn [mbind option_bind]. destruct (negb _); [|by eexists _, _, _, _, _].
  match goal with |- context [walIndexRecover _ _ _ _ _ _ _ _ ?w] => set (v0 := w) end.
  destruct (recover_any bo host_big shmMap _ Hb Hs (he_lockAll (re_hdr e)) (he_lockRead (re_hdr e)) (he_heap (re_hdr e)) (he_alloc (re_hdr e)) v0 Hio Hm) as (rc & v1 & E & _).
  rewrite E. cbn [mbind option_bind]. eexists _, _, _, _, _. split; [done|]. split; [done|]. by eapply recover_keeps in E.
Qed.

Lemma readhdr_total e changed c v : attempt_ok e -> attempt_inv c v ->
  exists rc ch c' v', walIndexReadHdr bo host_big shmMap (re_hdr e) changed c v = Some (rc, ch, c', v') /\ attempt_inv c' v'.
Proof.
  intros He Hi. pose proof He as [Hp [H1 _] _ _ _]. unfold walIndexReadHdr. destruct (he_page0 (re_hdr e)) as [rc page0]. cbn [fst] in Hp.
  destruct (_ && _); [by eexists _, _, _, _|]. apply Z.eqb_neq in Hp. rewrite Hp.
  match goal with |- exists _ _ _ _, (?m ≫= _) = _ /\ _ => assert (exists t, m = Some t) as [t ->] end; [destruct page0; [by apply try_total|by eexists]|].
  cbn [mbind option_bind]. set (c1 := cn_set_hdr _ _ c). assert (Hi1 : attempt_inv c1 v) by exact Hi.
  match goal with |- exists _ _ _ _, (?m ≫= _) = _ /\ _ => assert (exists rc bad ch c' v', m = Some (rc, bad, ch, c', v') /\ attempt_inv c' v') as (rc1 & bad & ch & c2 & v2 & -> & Hi2) end.
  { destruct (negb (th_rc t =? 0)); [|by eexists _, _, _, _, _]. destruct (_ && _); [by eexists _, _, _, _, _|]. destruct (negb _); [by eexists _, _, _, _, _|].
    destruct (readhdr_locked_total e (th_changed t) (cn_set_write true c1) v He Hi1) as (rc' & bad & ch & c' & v' & -> & Hi'). cbn [mbind option_bind].
    by eexists _, _, _, _, _. }
  cbn [mbind option_bind]. rewrite (proj1 Hi2). by eexists _, _, _, _.
Qed.

(** Every attempt returns. *)
Lemma attempt_total e changed cnt c v : attempt_ok e -> attempt_inv c v ->
  exists r, walTryBeginRead bo host_big shmMap e changed false cnt c v = Some r /\ attempt_inv (rr_conn r) (rr_recover r).
Proof.
  intros He Hi. unfold walTryBeginRead. destruct (_ && _); [by eexists|]. unfold begin_hdr. rewrite (proj1 Hi).
  destruct (readhdr_total e changed c v He Hi) as (rc & ch & c1 & v1 & -> & Hi1). cbn [mbind option_bind]. destruct (negb _); [by eexists|].
  rewrite (proj1 Hi1). cbn [mbind option_bind]. destruct (begin_db e false c1) as [[rc' c']|] eqn:Ed.
  - eexists. split; [done|]. split; [|apply Hi1]. cbn [rr_conn]. rewrite <- (proj1 Hi1). revert Ed. unfold begin_db.
    destruct (_ && _); [|done]. destruct (re_lock0 e =? SQLITE_OK); [destruct (negb _)|destruct (negb _); [|done]]; intros; by simplify_eq.
  - destruct (begin_wal_total e c1 (ao_marks _ He)) as (rc' & c' & m & E & _). rewrite E. cbn [mbind option_bind]. eexists. split; [done|].
    split; [|apply Hi1]. cbn [rr_conn]. rewrite <- (proj1 Hi1). by eapply begin_wal_flag.
Qed.
End Attempts.

(** C30. The loop that starts a read transaction ends.  For a connection whose
    wal-index is in shared memory, let each attempt find any bytes in the two
    headers, any five read marks, any log file that is not too large and any
    results of locks, allocations and I/O.  Then every attempt returns, also when
    it has to recover the wal-index, and after at most a hundred attempts that
    ask for another the loop returns a final result, if only [SQLITE_PROTOCOL]. *)
Theorem walBeginReadTransaction_ends bo host_big shmMap env changed c v :
  (forall k, attempt_ok (env k)) -> cn_bShmUnreliable c = false -> io_ok (rv_io v) -> alen (aReadMark (rv_info v)) = WAL_NREADER ->
  exists r marks, walBeginReadTransaction bo host_big shmMap env changed c v = Some (r, marks) /\ rr_rc r <> WAL_RETRY.
Proof.
  intros He Hu Hio Hm. apply (begin_loop_ends _ _ _ _ _ attempt_inv); [|reflexivity|lia|lia|by split_and!].
  intros k ch c' v' _ Hi. by apply attempt_total.
Qed.

(** A wal-index that was never written, so that it is recovered, with an empty log, and all of whose read
    locks are taken by others. *)
Definition busy_read : ReadEnv :=
  MkReadEnv (MkHdrEnv (SQLITE_OK, true) (replicate NHDR 0, replicate NHDR 0) SQLITE_OK SQLITE_OK SQLITE_OK (replicate NHDR 0, replicate NHDR 0)
      SQLITE_OK (fun _ => SQLITE_OK) [] (MkPrivate [] []) [])
    quiet_unreliable true SQLITE_OK 0 SQLITE_BUSY zero_hdr [0; READMARK_NOT_USED; READMARK_NOT_USED; READMARK_NOT_USED; READMARK_NOT_USED]
    (fun _ => SQLITE_BUSY) (fun _ => SQLITE_BUSY) 0 (fun _ => 0) zero_hdr.

Lemma walBeginReadTransaction_ends_witness :
  (exists r, walTryBeginRead BO_1234 false (fun _ => SQLITE_OK) busy_read false false 0 quiet_conn quiet_index = Some r /\ rr_rc r = WAL_RETRY) /\
  exists r marks, walBeginReadTransaction BO_1234 false (fun _ => SQLITE_OK) (fun _ => busy_read) false quiet_conn quiet_index = Some (r, marks)
    /\ rr_rc r <> WAL_RETRY.
Proof.
  split; [eexists; split; [vm_compute; reflexivity|reflexivity]|].
  apply (walBeginReadTransaction_ends BO_1234 false (fun _ => SQLITE_OK) (fun _ => busy_read) false quiet_conn quiet_index).
  - intros _. assert (HF : Forall is_u8 (replicate NHDR 0)) by (apply Forall_replicate; by unfold is_u8).
    split; [discriminate|by split_and!|constructor|reflexivity|reflexivity].
  - reflexivity.
  - constructor.
  - reflexivity.
Defined.
