(* ===== verification/WalWrite.v ===== *)
(** * Write-ahead log: write transactions ([src/wal.c])

    [sqlite3WalBeginWriteTransaction], [walRestartLog], [walFrames] with the
    functions it writes through, [sqlite3WalUndo] and the savepoints.  The page
    codec is the identity, as in the default build. *)
From S2P Require Import Prelude Bytes FileIO WalBase WalFrame WalIndex WalIter WalHdr WalCkpt WalRecover WalRead.

(** The connection in a write transaction, the log file and the wal-index. *)
Record Writer : Type := MkWriter {
  w_io : list io_res;
  w_wal : file;
  w_hdr : WalIndexHdr;          (** [pWal->hdr] *)
  w_shm : WalIndexHdr;          (** [*walIndexHdr(pWal)] *)
  w_info : WalCkptInfo;
  w_pages : WiData;
  w_szPage : Z;
  w_nCkpt : Z;
  w_iReCksum : Z;
  w_readLock : Z;
  w_minFrame : Z;
  w_truncateOnCommit : bool;
  w_iCallback : Z
}.

Definition w_set_file (io : list io_res) (wal : file) (s : Writer) : Writer :=
  MkWriter io wal (w_hdr s) (w_shm s) (w_info s) (w_pages s) (w_szPage s) (w_nCkpt s) (w_iReCksum s) (w_readLock s)
    (w_minFrame s) (w_truncateOnCommit s) (w_iCallback s).
Definition w_set_hdr (h : WalIndexHdr) (s : Writer) : Writer :=
  MkWriter (w_io s) (w_wal s) h (w_shm s) (w_info s) (w_pages s) (w_szPage s) (w_nCkpt s) (w_iReCksum s) (w_readLock s)
    (w_minFrame s) (w_truncateOnCommit s) (w_iCallback s).
Definition w_set_pages (p : WiData) (s : Writer) : Writer :=
  MkWriter (w_io s) (w_wal s) (w_hdr s) (w_shm s) (w_info s) p (w_szPage s) (w_nCkpt s) (w_iReCksum s) (w_readLock s)
    (w_minFrame s) (w_truncateOnCommit s) (w_iCallback s).
Definition w_set_recksum (n : Z) (s : Writer) : Writer :=
  MkWriter (w_io s) (w_wal s) (w_hdr s) (w_shm s) (w_info s) (w_pages s) (w_szPage s) (w_nCkpt s) n (w_readLock s)
    (w_minFrame s) (w_truncateOnCommit s) (w_iCallback s).

(** A page of the dirty list. *)
Record PgHdr : Type := MkPg { pg_pgno : Z; pg_data : list Z }.

(** What the environment decides during [walFrames]. *)
Record WriteEnv : Type := MkWEnv {
  we_sync : bool;               (** [WAL_SYNC_FLAGS(sync_flags)!=0] *)
  we_syncHeader : bool;
  we_sector : option Z;         (** the sector size, when [padToSectorBoundary] *)
  we_mxWalSize : Z;
  we_salt : list Z;             (** [sqlite3_randomness(8, pWal->hdr.aSalt)] *)
  we_salt1 : list Z;            (** [sqlite3_randomness(4, &salt1)] *)
  we_lockReaders : Z;           (** exclusive lock on read locks 1 to 4 *)
  we_begin : Z -> ReadEnv       (** the attempts of [walTryBeginRead] *)
}.

(** ** Writing to the log file *)

(** Content and offset; a sync when the write crosses [iSyncPoint]. *)
Definition walWriteToLog (iSyncPoint : Z) (content : list Z) (iOffset : Z) (io : list io_res) (wal : file)
    : Z * file * list io_res :=
  if (iOffset <? iSyncPoint) && (iSyncPoint <=? iOffset + alen content) then
    let iFirstAmt := iSyncPoint - iOffset in
    let '(rc, wal, io) := os_write io wal iOffset (take (Z.to_nat iFirstAmt) content) in
    if negb (rc =? SQLITE_OK) then (rc, wal, io)
    else
      let '(rc, io) := os_sync io in
      if (alen content - iFirstAmt =? 0) || negb (rc =? SQLITE_OK) then (rc, wal, io)
      else os_write io wal (iOffset + iFirstAmt) (drop (Z.to_nat iFirstAmt) content)
  else os_write io wal iOffset content.

Section Host.
Context (bo : byteorder) (host_big : bool) (shmMap : Z -> Z).

Definition walWriteOneFrame (iSyncPoint szPage : Z) (p : PgHdr) (nTruncate iOffset : Z) (s : Writer) : option (Z * Writer) :=
  '(h, aFrame) ← walEncodeFrame bo host_big (w_hdr s) (w_iReCksum s) szPage (pg_pgno p) nTruncate (pg_data p);
  let s := w_set_hdr h s in
  let '(rc, wal, io) := walWriteToLog iSyncPoint aFrame iOffset (w_io s) (w_wal s) in
  let s := w_set_file io wal s in
  if negb (rc =? SQLITE_OK) then Some (rc, s)
  else
    let '(rc, wal, io) := walWriteToLog iSyncPoint (pg_data p) (iOffset + WAL_FRAME_HDRSIZE) (w_io s) (w_wal s) in
    Some (rc, w_set_file io wal s).

(** [for(; rc==SQLITE_OK && iRead<=iLast; iRead++)], [n] frames *)
Fixpoint rewrite_loop (n : nat) (szPage iRead : Z) (s : Writer) : option (Z * Writer) :=
  match n with
  | O => Some (SQLITE_OK, s)
  | S n =>
      let iOff := walFrameOffset iRead szPage in
      let '(rc, aBuf, io) := os_read (w_io s) (w_wal s) iOff (szPage + WAL_FRAME_HDRSIZE) in
      let s := w_set_file io (w_wal s) s in
      if negb (rc =? SQLITE_OK) then Some (rc, s)
      else
        iPgno ← sqlite3Get4byte bo aBuf;
        nDbSize ← sqlite3Get4byte bo (drop 4 aBuf);
        '(h, aFrame) ← walEncodeFrame bo host_big (w_hdr s) (w_iReCksum s) szPage iPgno nDbSize (drop 24 aBuf);
        let s := w_set_hdr h s in
        let '(rc, wal, io) := os_write (w_io s) (w_wal s) iOff aFrame in
        let s := w_set_file io wal s in
        if negb (rc =? SQLITE_OK) then Some (rc, s) else rewrite_loop n szPage (iRead + 1) s
  end.

(** [junk] is the content of the buffer after a read that failed. *)
Definition walRewriteChecksums (al : alloc) (junk : list Z) (iLast : Z) (s : Writer) : option (Z * Writer) :=
  let szPage := w_szPage s in
  let '(ok, _) := malloc al in
  if negb ok then Some (SQLITE_NOMEM, s)
  else
    let iCksumOff := if w_iReCksum s =? 1 then 24 else walFrameOffset (w_iReCksum s - 1) szPage + 16 in
    let '(rc, aBuf, io) := os_read (w_io s) (w_wal s) iCksumOff 8 in
    let aBuf := if rc =? SQLITE_OK then aBuf else junk in
    c0 ← sqlite3Get4byte bo aBuf;
    c1 ← sqlite3Get4byte bo (drop 4 aBuf);
    let s := w_set_hdr (set_aFrameCksum (c0, c1) (w_hdr s)) (w_set_file io (w_wal s) s) in
    let iRead := w_iReCksum s in
    let s := w_set_recksum 0 s in
    if negb (rc =? SQLITE_OK) then Some (rc, s)
    else rewrite_loop (Z.to_nat (iLast - iRead + 1)) szPage iRead s.

(** ** Restarting the log *)

(** [walRestartHdr] on this state *)
Definition restart_hdr (salt1 : list Z) (s : Writer) : option Writer :=
  c ← walRestartHdr bo host_big salt1
        (MkCk (w_io s) [] None [] [] (w_wal s) (w_info s) (w_hdr s) (w_shm s) (w_nCkpt s));
  Some (MkWriter (w_io s) (w_wal s) (ck_hdr c) (ck_shm c) (ck_info c) (w_pages s) (w_szPage s) (ck_nCkpt c) (w_iReCksum s)
          (w_readLock s) (w_minFrame s) (w_truncateOnCommit s) (w_iCallback s)).

(** The read marks that the attempts set. *)
Fixpoint set_marks (marks : list Z) (l : list (Z * Z)) : option (list Z) :=
  match l with
  | [] => Some marks
  | (i, v) :: l => marks ← aset marks i v; set_marks marks l
  end.

(** Result code and [*pRestarted] *)
Definition walRestartLog (e : WriteEnv) (s : Writer) : option (Z * bool * Writer) :=
  if negb (w_readLock s =? 0) then Some (SQLITE_OK, false, s)
  else
    '(err, rc, restarted, s) ←
      (if nBackfill (w_info s) >? 0 then
         let rc := we_lockReaders e in
         if rc =? SQLITE_OK then s ← restart_hdr (we_salt1 e) s; Some (false, rc, true, s)
         else if negb (rc =? SQLITE_BUSY) then Some (true, rc, false, s)
         else Some (false, rc, false, s)
       else Some (false, SQLITE_OK, false, s) : option (bool * Z * bool * Writer));
    if (err : bool) then Some (rc, restarted, s)
    else
      '(r, l) ← begin_loop bo host_big shmMap (S (Z.to_nat WAL_RETRY_PROTOCOL_LIMIT)) (we_begin e) true 0 false
                  (MkConn (w_hdr s) (w_szPage s) (-1) (w_minFrame s) true false false false)
                  (MkRecover (w_szPage s) (w_nCkpt s) (w_hdr s) (w_shm s) (w_info s) (w_pages s) (w_io s)) [];
      marks ← set_marks (aReadMark (w_info s)) l;
      Some (rr_rc r, restarted,
            MkWriter (w_io s) (w_wal s) (w_hdr s) (w_shm s) (MkCkpt (nBackfill (w_info s)) marks (nBackfillAttempted (w_info s)))
              (w_pages s) (w_szPage s) (w_nCkpt s) (w_iReCksum s) (cn_readLock (rr_conn r)) (cn_minFrame (rr_conn r))
              (w_truncateOnCommit s) (w_iCallback s)).

(** ** Writing frames *)

(** The file header, when the first frame is about to be written.  The first
    component of the result is true when the function returns. *)
Definition write_header (e : WriteEnv) (szPage : Z) (s : Writer) : option (bool * Z * Writer) :=
  let salt := if w_nCkpt s =? 0 then we_salt e else aSalt (w_hdr s) in
  let b := sqlite3Put4byte bo (WAL_MAGIC .| Z.b2z host_big) ++ sqlite3Put4byte bo WAL_MAX_VERSION
           ++ sqlite3Put4byte bo szPage ++ sqlite3Put4byte bo (w_nCkpt s) ++ salt in
  c ← walChecksumBytes host_big true b (WAL_HDRSIZE - 8) None;
  let b := b ++ sqlite3Put4byte bo (fst c) ++ sqlite3Put4byte bo (snd c) in
  let h := w_hdr s in
  let h := MkHdr (iVersion h) (unused h) (iChange h) (isInit h) host_big (hdr_szPage h) (mxFrame h) (nPage h) c salt (aCksum h) in
  let s := MkWriter (w_io s) (w_wal s) h (w_shm s) (w_info s) (w_pages s) szPage (w_nCkpt s) (w_iReCksum s) (w_readLock s)
             (w_minFrame s) true (w_iCallback s) in
  let '(rc, wal, io) := os_write (w_io s) (w_wal s) 0 b in
  let s := w_set_file io wal s in
  if negb (rc =? SQLITE_OK) then Some (true, rc, s)
  else if we_syncHeader e then
    let '(rc, io) := os_sync (w_io s) in
    Some (negb (rc =? SQLITE_OK), rc, w_set_file io (w_wal s) s)
  else Some (false, SQLITE_OK, s).

(** The variables of the loop over the dirty list. *)
Record floop : Type := MkLoop {
  fl_iFrame : Z;
  fl_iOffset : Z;
  fl_last : option PgHdr;       (** [pLast] *)
  fl_append : list Z            (** pages flagged [PGHDR_WAL_APPEND], in order *)
}.

(** The frame of this transaction that already holds the page, if there is
    one: [iWrite>=iFirst]. *)
Definition overwritten (iFirst pgno : Z) (s : Writer) : option (option Z) :=
  '(rc, iWrite) ← walFindFrame shmMap (w_pages s) (w_readLock s =? 0) (w_minFrame s) pgno (mxFrame (w_hdr s));
  Some (if (rc =? SQLITE_OK) && (iFirst <=? iWrite) then Some iWrite else None).

(** [for(p=pList; p; p=p->pDirty)] *)
Fixpoint frames_loop (szPage nTruncate iFirst : Z) (isCommit : bool) (L : list PgHdr) (v : floop) (s : Writer)
    : option (Z * floop * Writer) :=
  match L with
  | [] => Some (SQLITE_OK, v, s)
  | p :: L =>
      let isLast := bool_decide (L = []) in
      over ← (if negb (iFirst =? 0) && (negb isLast || negb isCommit) then overwritten iFirst (pg_pgno p) s else Some None);
      match over with
      | Some iWrite =>
          let iOff := walFrameOffset iWrite szPage + WAL_FRAME_HDRSIZE in
          let s := if (w_iReCksum s =? 0) || (iWrite <? w_iReCksum s) then w_set_recksum iWrite s else s in
          let '(rc, wal, io) := os_write (w_io s) (w_wal s) iOff (pg_data p) in
          let s := w_set_file io wal s in
          if negb (rc =? SQLITE_OK) then Some (rc, v, s)
          else frames_loop szPage nTruncate iFirst isCommit L v s
      | None =>
          let nDbSize := if isCommit && isLast then nTruncate else 0 in
          '(rc, s) ← walWriteOneFrame 0 szPage p nDbSize (fl_iOffset v) s;
          if negb (rc =? SQLITE_OK) then Some (rc, v, s)
          else
            frames_loop szPage nTruncate iFirst isCommit L
              (MkLoop (fl_iFrame v + 1) (fl_iOffset v + (szPage + WAL_FRAME_HDRSIZE)) (Some p) (fl_append v ++ [pg_pgno p])) s
      end
  end.

(** [while( iOffset<w.iSyncPoint )]: result code, offset and number of extra
    frames *)
Fixpoint pad_loop (fuel : nat) (iSyncPoint szPage nTruncate iOffset nExtra : Z) (pLast : option PgHdr) (s : Writer)
    : option (Z * Z * Z * Writer) :=
  match fuel with
  | O => None
  | S fuel =>
      if iOffset <? iSyncPoint then
        p ← pLast;
        '(rc, s) ← walWriteOneFrame iSyncPoint szPage p nTruncate iOffset s;
        if negb (rc =? SQLITE_OK) then Some (rc, iOffset, nExtra, s)
        else pad_loop fuel iSyncPoint szPage nTruncate (iOffset + (szPage + WAL_FRAME_HDRSIZE)) (nExtra + 1) pLast s
      else Some (SQLITE_OK, iOffset, nExtra, s)
  end.

(** Padding and the final sync: the first component of the result is true when
    the function returns. *)
Definition pad_and_sync (e : WriteEnv) (szPage nTruncate : Z) (v : floop) (s : Writer) : option (bool * Z * Z * Writer) :=
  '(ret, rc, bSync, nExtra, s) ←
    (match we_sector e with
     | Some sectorSize =>
         let iSyncPoint := (fl_iOffset v + sectorSize - 1) / sectorSize * sectorSize in
         '(rc, _, nExtra, s) ← pad_loop (S (Z.to_nat (iSyncPoint - fl_iOffset v))) iSyncPoint szPage nTruncate (fl_iOffset v) 0 (fl_last v) s;
         Some (negb (rc =? SQLITE_OK), rc, iSyncPoint =? fl_iOffset v, nExtra, s)
     | None => Some (false, SQLITE_OK, true, 0, s)
     end : option (bool * Z * bool * Z * Writer));
  if (ret : bool) then Some (true, rc, nExtra, s)
  else if (bSync : bool) then
    let '(rc, io) := os_sync (w_io s) in
    Some (false, rc, nExtra, w_set_file io (w_wal s) s)
  else Some (false, rc, nExtra, s).

(** [walLimitSize] *)
Definition walLimitSize (nMax : Z) (io : list io_res) (wal : file) : file * list io_res :=
  let '(rx, sz, io) := os_filesize io wal in
  if (rx =? SQLITE_OK) && (sz >? nMax) then let '(_, wal, io) := os_truncate io wal nMax in (wal, io) else (wal, io).

(** The header after the frames are in the wal-index. *)
Definition framed_hdr (isCommit : bool) (szPage iFrame nTruncate : Z) (h : WalIndexHdr) : WalIndexHdr :=
  MkHdr (iVersion h) (unused h) (if isCommit then u32 (iChange h + 1) else iChange h) (isInit h) (bigEndCksum h)
    (u16 ((szPage .& 0xff00) .| (szPage >> 16))) iFrame (if isCommit then nTruncate else nPage h) (aFrameCksum h) (aSalt h) (aCksum h).

(** From the last write on: index and header. *)
Definition publish_frames (szPage nTruncate : Z) (isCommit restarted : bool) (append : list Z) (rc : Z) (s : Writer)
    : option (Z * option Z * Writer) :=
  if negb (rc =? SQLITE_OK) then Some (rc, None, s)
  else
    '(rc, pages) ← index_frames shmMap (w_pages s) (mxFrame (w_hdr s)) (mxFrame (w_hdr s)) append;
    let s := w_set_pages pages s in
    if negb (rc =? SQLITE_OK) then Some (rc, None, s)
    else
      let iFrame := mxFrame (w_hdr s) + alen append in
      let pnFrames := if isCommit then if (restarted : bool) then iFrame else iFrame - mxFrame (w_hdr s) else 0 in
      let h := framed_hdr isCommit szPage iFrame nTruncate (w_hdr s) in
      if isCommit then
        h ← walIndexWriteHdr host_big h;
        Some (SQLITE_OK, Some pnFrames,
              MkWriter (w_io s) (w_wal s) h h (w_info s) (w_pages s) (w_szPage s) (w_nCkpt s) (w_iReCksum s) (w_readLock s)
                (w_minFrame s) (w_truncateOnCommit s) iFrame)
      else Some (SQLITE_OK, Some pnFrames, w_set_hdr h s).

(** The frames are in the file: checksums, padding, syncs and size limit.  The
    first component of the result is true when the function returns. *)
Definition finish_frames (e : WriteEnv) (al : alloc) (junk : list Z) (szPage nTruncate : Z) (isCommit : bool) (v : floop) (s : Writer)
    : option (bool * Z * Z * Writer) :=
  '(rc, s) ← (if isCommit && negb (w_iReCksum s =? 0) then walRewriteChecksums al junk (fl_iFrame v) s else Some (SQLITE_OK, s));
  if negb (rc =? SQLITE_OK) then Some (true, rc, 0, s)
  else
    '(ret, rc, nExtra, s) ← (if isCommit && we_sync e then pad_and_sync e szPage nTruncate v s else Some (false, SQLITE_OK, 0, s));
    if (ret : bool) then Some (true, rc, nExtra, s)
    else if isCommit && w_truncateOnCommit s && (0 <=? we_mxWalSize e) then
      let sz := Z.max (we_mxWalSize e) (walFrameOffset (fl_iFrame v + nExtra + 1) szPage) in
      let '(wal, io) := walLimitSize sz (w_io s) (w_wal s) in
      Some (false, rc, nExtra,
            MkWriter io wal (w_hdr s) (w_shm s) (w_info s) (w_pages s) (w_szPage s) (w_nCkpt s) (w_iReCksum s) (w_readLock s)
              (w_minFrame s) false (w_iCallback s))
    else Some (false, rc, nExtra, s).

(** [walFrames] once the file has its header *)
Definition log_frames (e : WriteEnv) (al : alloc) (junk : list Z) (szPage : Z) (L : list PgHdr) (nTruncate : Z) (isCommit : bool)
    (iFirst : Z) (restarted : bool) (s : Writer) : option (Z * option Z * Writer) :=
  let iFrame := mxFrame (w_hdr s) in
  '(rc, v, s) ← frames_loop szPage nTruncate iFirst isCommit L (MkLoop iFrame (walFrameOffset (iFrame + 1) szPage) None []) s;
  if negb (rc =? SQLITE_OK) then Some (rc, None, s)
  else
    '(ret, rc, nExtra, s) ← finish_frames e al junk szPage nTruncate isCommit v s;
    if (ret : bool) then Some (rc, None, s)
    else
      let extra := match fl_last v with Some p => replicate (Z.to_nat nExtra) (pg_pgno p) | None => [] end in
      publish_frames szPage nTruncate isCommit restarted (fl_append v ++ extra) rc s.

(** [walFrames] after the call of [walRestartLog] *)
Definition write_frames (e : WriteEnv) (al : alloc) (junk : list Z) (szPage : Z) (L : list PgHdr) (nTruncate : Z) (isCommit : bool)
    (iFirst : Z) (restarted : bool) (s : Writer) : option (Z * option Z * Writer) :=
  '(ret, rc, s) ← (if mxFrame (w_hdr s) =? 0 then write_header e szPage s else Some (false, SQLITE_OK, s));
  if (ret : bool) then Some (rc, None, s)
  else if negb (w_szPage s =? szPage) then Some (SQLITE_CORRUPT, None, s)
  else log_frames e al junk szPage L nTruncate isCommit iFirst restarted s.

(** Result code, [*pnFrames] when it is set, and the state. *)
Definition walFrames (e : WriteEnv) (al : alloc) (junk : list Z) (szPage : Z) (L : list PgHdr) (nTruncate : Z) (isCommit : bool) (s : Writer)
    : option (Z * option Z * Writer) :=
  let iFirst := if bool_decide (w_hdr s = w_shm s) then 0 else mxFrame (w_shm s) + 1 in
  '(rc, restarted, s) ← walRestartLog e s;
  if negb (rc =? SQLITE_OK) then Some (rc, None, s)
  else write_frames e al junk szPage L nTruncate isCommit iFirst restarted s.

(** ** Transactions *)

(** [readOnly] and the result of locking the write byte; the new value of
    [writeLock] *)
Definition sqlite3WalBeginWriteTransaction (readOnly : bool) (lock : Z) (s : Writer) : Z * bool :=
  if readOnly then (SQLITE_READONLY, false)
  else if negb (lock =? SQLITE_OK) then (lock, false)
  else if negb (bool_decide (w_hdr s = w_shm s)) then (SQLITE_BUSY_SNAPSHOT, false)
  else (SQLITE_OK, true).

(** [for(iFrame=pWal->hdr.mxFrame+1; iFrame<=iMax; iFrame++)]: the pages given
    to [xUndo], whose results are [rcs] *)
Fixpoint undo_loop (n : nat) (w : WiData) (iFrame : Z) (rcs : list Z) : option (Z * list Z) :=
  match n with
  | O => Some (SQLITE_OK, [])
  | S n =>
      pg ← walFramePgno shmMap w iFrame;
      let rc := default SQLITE_OK (head rcs) in
      if negb (rc =? SQLITE_OK) then Some (rc, [pg])
      else '(rc, l) ← undo_loop n w (iFrame + 1) (tail rcs); Some (rc, pg :: l)
  end.

Definition sqlite3WalUndo (rcs : list Z) (s : Writer) : option (Z * list Z * Writer) :=
  let iMax := mxFrame (w_hdr s) in
  let s := w_set_hdr (w_shm s) s in
  '(rc, l) ← undo_loop (Z.to_nat (iMax - mxFrame (w_hdr s))) (w_pages s) (mxFrame (w_hdr s) + 1) rcs;
  let s := if negb (iMax =? mxFrame (w_hdr s)) then w_set_pages (walCleanupHash shmMap (w_pages s) (mxFrame (w_hdr s))) s else s in
  Some (rc, l, s).

(** [aWalData]: [mxFrame], the two checksums and [nCkpt] *)
Record savepoint : Type := MkSave { sv_mxFrame : Z; sv_cksum : Z * Z; sv_nCkpt : Z }.

Definition sqlite3WalSavepoint (s : Writer) : savepoint :=
  MkSave (mxFrame (w_hdr s)) (aFrameCksum (w_hdr s)) (w_nCkpt s).

Definition sqlite3WalSavepointUndo (v : savepoint) (s : Writer) : savepoint * Writer :=
  let v := if negb (sv_nCkpt v =? w_nCkpt s) then MkSave 0 (sv_cksum v) (w_nCkpt s) else v in
  if sv_mxFrame v <? mxFrame (w_hdr s) then
    let s := w_set_hdr (set_aFrameCksum (sv_cksum v) (set_mxFrame (sv_mxFrame v) (w_hdr s))) s in
    (v, w_set_pages (walCleanupHash shmMap (w_pages s) (mxFrame (w_hdr s))) s)
  else (v, s).
End Host.

(** ** Frames in the file *)

Lemma walWriteToLog_spec n iSync content off io f rc f' io' : io_ok io -> 0 <= off -> n <= off ->
  walWriteToLog iSync content off io f = (rc, f', io') ->
  io_ok io' /\ keeps n f f' /\ (rc = SQLITE_OK -> f' = fwrite f off content) /\ io_clean io rc io'.
Proof.
  intros Hio Ho Hn. unfold walWriteToLog.
  destruct (Z.ltb_spec off iSync) as [H1|]; cbn [andb]; [|by apply os_write_spec].
  destruct (Z.leb_spec iSync (off + alen content)) as [H2|]; [|by apply os_write_spec].
  set (k := iSync - off). assert (Hk : 0 < k <= alen content) by lia.
  assert (Lk : alen (take (Z.to_nat k) content) = k) by (apply alen_take; lia).
  destruct (os_write io f off (take (Z.to_nat k) content)) as [[rc1 f1] io1] eqn:E1.
  apply (os_write_spec n) in E1 as (Hio1 & K1 & W1 & C1); [|done..].
  destruct (Z.eqb_spec rc1 SQLITE_OK) as [->|Hne]; cbn [negb].
  2:{ intros E. simplify_eq. split_and!; try done. }
  specialize (W1 eq_refl). destruct (os_sync io1) as [rc2 io2] eqn:E2. apply os_sync_spec in E2 as [Hio2 C2]; [|done].
  destruct (Z.eqb_spec (alen content - k) 0) as [Hz|Hz]; cbn [orb].
  { intros E. simplify_eq. split_and!; try done.
    - intros _. by rewrite take_ge by (unfold alen in *; lia).
    - intros ->. destruct C1 as [_ ->]; [done|]. by apply C2. }
  destruct (Z.eqb_spec rc2 SQLITE_OK) as [->|Hne]; cbn [negb].
  2:{ intros E. simplify_eq. split_and!; try done. intros ->. destruct C1 as [_ ->]; [done|]. by apply C2. }
  intros E3. apply (os_write_spec n) in E3 as (Hio3 & K3 & W3 & C3); [|done|lia|lia]. split_and!; [done| | |].
  - by eapply keeps_trans.
  - intros Hrc. rewrite (W3 Hrc), W1. replace (off + k) with (off + alen (take (Z.to_nat k) content)) by (by rewrite Lk). rewrite fwrite_app by done. by rewrite take_drop.
  - intros ->. destruct C1 as [_ ->]; [done|]. destruct C2 as [_ ->]; [done|]. by apply C3.
Qed.

(** The bytes of a frame header after the first eight. *)
Definition frame_tail (h : WalIndexHdr) (iReCksum : Z) (e : entry) : list Z :=
  if iReCksum =? 0 then aSalt h ++ cksum_bytes (entry_cksum (bigEndCksum h) (aFrameCksum h) e) else replicate 16 0.

Lemma encode_entry bo host_big h r szPage e : hdr_ok h -> entry_ok szPage e ->
  walEncodeFrame bo host_big h r szPage (en_pgno e) (en_truncate e) (en_data e)
  = Some (if r =? 0 then set_aFrameCksum (entry_cksum (bigEndCksum h) (aFrameCksum h) e) h else h, entry_head e ++ frame_tail h r e).
Proof.
  intros Hh (Hp & Hn & Hd). unfold frame_tail. destruct (Z.eqb_spec r 0) as [->|Hr].
  - rewrite (encode_frame bo host_big h Hh szPage (en_data e) Hd) by (unfold is_u32; done || lia). done.
  - unfold walEncodeFrame. apply Z.eqb_neq in Hr. rewrite Hr, !put4byte_be by (unfold is_u32; done || lia). done.
Qed.

Lemma frame_tail_ok h r e : hdr_ok h -> length (frame_tail h r e) = 16%nat /\ Forall is_u8 (frame_tail h r e).
Proof.
  intros []. unfold frame_tail. destruct (r =? 0).
  - split; [rewrite length_app; unfold cksum_bytes; rewrite length_app, !store32_length; lia|].
    apply Forall_app_2; [done|]. apply Forall_app_2; apply store32_bytes.
  - split; [done|]. apply Forall_replicate. by unfold is_u8.
Qed.

(** A frame as it is before its checksum. *)
Record raw_frame (szPage : Z) (wal : file) (k : Z) (e : entry) : Prop := {
  rf_ok : entry_ok szPage e;
  rf_size : walFrameOffset (k + 1) szPage <= alen wal;
  rf_head : fread wal (walFrameOffset k szPage) 8 = entry_head e;
  rf_data : fread wal (walFrameOffset k szPage + WAL_FRAME_HDRSIZE) szPage = en_data e
}.

Definition raw_at (szPage : Z) (wal : file) (es : list entry) : Prop :=
  forall i e, es !! i = Some e -> raw_frame szPage wal (Z.of_nat i + 1) e.

Lemma walFrameOffset_nonneg k szPage : 1 <= k -> 0 <= szPage -> WAL_HDRSIZE <= walFrameOffset k szPage.
Proof. unfold walFrameOffset, WAL_HDRSIZE, WAL_FRAME_HDRSIZE. nia. Qed.

Lemma walFrameOffset_mono j k szPage : j <= k -> 0 <= szPage -> walFrameOffset j szPage <= walFrameOffset k szPage.
Proof. unfold walFrameOffset, WAL_HDRSIZE, WAL_FRAME_HDRSIZE. nia. Qed.

Lemma raw_frame_keeps szPage f g k e : 1 <= k -> 0 <= szPage -> keeps (walFrameOffset (k + 1) szPage) f g ->
  raw_frame szPage f k e -> raw_frame szPage g k e.
Proof.
  intros Hk Hsz H []. pose proof (walFrameOffset_nonneg k szPage Hk Hsz). pose proof (walFrameOffset_succ k szPage).
  unfold WAL_HDRSIZE, WAL_FRAME_HDRSIZE in *. split; [done| | |].
  - destruct H as [_ H]. lia.
  - rewrite (keeps_fread _ _ _ _ _ H) by lia. done.
  - unfold WAL_FRAME_HDRSIZE in *. rewrite (keeps_fread _ _ _ _ _ H) by lia. done.
Qed.

Lemma frames_at_keeps big salt szPage f g : 0 <= szPage -> forall es k ck, 1 <= k -> keeps (walFrameOffset (k + alen es) szPage) f g ->
  frames_at big salt szPage f k ck es -> frames_at big salt szPage g k ck es.
Proof.
  intros Hsz. induction es as [|e es IH]; intros k ck Hk H; [done|]. intros (He & Hl & Hb & Hr). cbn [frames_at].
  assert (Ha : alen (e :: es) = 1 + alen es) by (unfold alen; cbn [length]; lia). rewrite Ha, Z.add_assoc in H.
  pose proof (alen_nonneg es). pose proof (walFrameOffset_nonneg k szPage Hk Hsz). pose proof (walFrameOffset_succ k szPage).
  pose proof (walFrameOffset_mono (k + 1) (k + 1 + alen es) szPage ltac:(lia) Hsz).
  unfold WAL_HDRSIZE, WAL_FRAME_HDRSIZE in *.
  split_and!; [done| | |apply IH; [lia|done|done]].
  - destruct H as [_ H]. lia.
  - rewrite <- Hb. apply (keeps_fread _ _ _ _ _ H); lia.
Qed.

(** The parts of the bytes of a frame. *)
Lemma fread_split f off a b : 0 <= a -> 0 <= b -> fread f off (a + b) = fread f off a ++ fread f (off + a) b.
Proof. intros. unfold fread. by rewrite seqZ_app, map_app. Qed.

Lemma frame_bytes big salt szPage wal k ck e : length salt = 8%nat -> 0 <= szPage -> raw_frame szPage wal k e ->
  fread wal (walFrameOffset k szPage + 8) 16 = salt ++ cksum_bytes (entry_cksum big ck e) ->
  fread wal (walFrameOffset k szPage) (szPage + WAL_FRAME_HDRSIZE) = entry_bytes big salt ck e.
Proof.
  intros Hs Hsz [_ _ Hh Hd] Ht. unfold WAL_FRAME_HDRSIZE in *.
  replace (szPage + 24) with (8 + (16 + szPage)) by lia. rewrite !fread_split by lia.
  rewrite Hh, Ht, <- !Z.add_assoc. change (8 + 16) with 24. rewrite Hd. unfold entry_bytes. by rewrite <- !app_assoc.
Qed.

Lemma raw_frame_bytes big salt szPage wal k ck e : length salt = 8%nat -> entry_ok szPage e -> walFrameOffset (k + 1) szPage <= alen wal ->
  fread wal (walFrameOffset k szPage) (szPage + WAL_FRAME_HDRSIZE) = entry_bytes big salt ck e -> raw_frame szPage wal k e.
Proof.
  intros Hs He Hl Hb. pose proof He as (_ & _ & _ & ? & _). split; [done|done| |].
  - apply (f_equal (take 8)) in Hb. unfold entry_bytes in Hb. rewrite (take_app_length' (entry_head e)) in Hb by by rewrite entry_head_length.
    rewrite <- Hb. unfold WAL_FRAME_HDRSIZE. replace (szPage + 24) with (8 + (16 + szPage)) by lia.
    rewrite (fread_split _ _ 8) by lia. symmetry. apply take_app_length'. unfold fread. by rewrite length_map, length_seqZ.
  - apply (f_equal (drop 24)) in Hb. rewrite entry_bytes_data in Hb by done. rewrite <- Hb. unfold WAL_FRAME_HDRSIZE.
    rewrite (Z.add_comm szPage). symmetry. apply (fread_drop _ _ 24); lia.
Qed.

(** ** The log of a write transaction *)

(** What no step before the publication changes: the first [n] bytes of the
    file, and all of the state but the file, the running checksum and the mark
    of rewritten frames. *)
Record kept (n : Z) (s s' : Writer) : Prop := {
  kp_file : keeps n (w_wal s) (w_wal s');
  kp_io : io_ok (w_io s');
  kp_hdr : exists c, w_hdr s' = set_aFrameCksum c (w_hdr s);
  kp_rest : (w_shm s', w_info s', w_pages s', w_szPage s', w_nCkpt s', w_readLock s', w_minFrame s')
          = (w_shm s, w_info s, w_pages s, w_szPage s, w_nCkpt s, w_readLock s, w_minFrame s)
}.

Lemma kept_refl n s : io_ok (w_io s) -> kept n s s.
Proof. intros. split; [apply keeps_refl|done| |done]. exists (aFrameCksum (w_hdr s)). by destruct (w_hdr s). Qed.

Lemma kept_trans n s s' s'' : kept n s s' -> kept n s' s'' -> kept n s s''.
Proof.
  intros [F1 I1 [c1 H1] R1] [F2 I2 [c2 H2] R2]. split; [by eapply keeps_trans|done| |congruence].
  exists c2. by rewrite H2, H1.
Qed.

Lemma kept_le n m s s' : m <= n -> kept n s s' -> kept m s s'.
Proof. intros Hm [F I H R]. split; try done. by eapply keeps_le. Qed.

(** The data of frame [R] is replaced. *)
Definition set_data (R : Z) (d : list Z) (es : list entry) : list entry :=
  alter (fun e => MkEntry (en_pgno e) (en_truncate e) d) (Z.to_nat (R - 1)) es.

Lemma alen_set_data R d es : alen (set_data R d es) = alen es.
Proof. unfold alen, set_data. by rewrite length_alter. Qed.

Lemma take_set_data R d es k : (k <= Z.to_nat (R - 1))%nat -> take k (set_data R d es) = take k es.
Proof. intros. unfold set_data. rewrite take_alter. destruct (decide _); [lia|done]. Qed.

Lemma frames_at_take big salt szPage f k ck es j : frames_at big salt szPage f k ck es -> frames_at big salt szPage f k ck (take j es).
Proof. intros H. rewrite <- (take_drop j es) in H. by apply frames_at_app in H as [H _]. Qed.

Lemma rewrite_loop_recksum bo host_big szPage : forall m k s rc s', w_iReCksum s = 0 ->
  rewrite_loop bo host_big m szPage k s = Some (rc, s') -> w_iReCksum s' = 0.
Proof.
  induction m as [|m IH]; intros k s rc s' H0; cbn [rewrite_loop]; [intros E; by simplify_eq|].
  destruct (os_read _ _ _ _) as [[rc1 b] io]. destruct (negb _); [intros E; by simplify_eq|].
  destruct (sqlite3Get4byte bo b); [|done]. destruct (sqlite3Get4byte bo (drop 4 b)); [|done].
  cbn [mbind option_bind]. destruct (walEncodeFrame _ _ _ _ _ _ _ _) as [[h t]|]; [|done]. cbn [mbind option_bind].
  destruct (os_write _ _ _ _) as [[rc2 f] io2]. destruct (negb _); [intros E; by simplify_eq|]. by apply IH.
Qed.

Section Log.
Context (bo : byteorder) (host_big : bool).
Context (big : bool) (szPage nCkpt : Z) (salt : list Z).
Context (Hsz : pagesize_ok szPage = true) (Hsalt : length salt = 8%nat /\ Forall is_u8 salt).

Let ck0 := header_cksum big szPage nCkpt salt.

(** How many frames have their final checksum. *)
Definition valid_frames (s : Writer) (es : list entry) : nat :=
  if w_iReCksum s =? 0 then length es else Z.to_nat (w_iReCksum s - 1).

(** The file holds the frames [es]; those from [iReCksum] on wait for their
    checksums. *)
Record frames_ok (es : list entry) (s : Writer) : Prop := {
  fo_bytes : Forall is_u8 (w_wal s);
  fo_io : io_ok (w_io s);
  fo_wf : hdr_wf (w_hdr s);
  fo_log : bigEndCksum (w_hdr s) = big /\ aSalt (w_hdr s) = salt;
  fo_header : fread (w_wal s) 0 WAL_HDRSIZE = file_header WAL_MAX_VERSION big szPage nCkpt salt;
  fo_size : WAL_HDRSIZE <= alen (w_wal s);
  fo_raw : raw_at szPage (w_wal s) es;
  fo_re : 0 <= w_iReCksum s <= alen es;
  fo_chain : frames_at big salt szPage (w_wal s) 1 ck0 (take (valid_frames s es) es);
  fo_cksum : w_iReCksum s = 0 -> aFrameCksum (w_hdr s) = log_cksum big ck0 es
}.

(** The outcome of a step that was to leave the frames [es']. *)
Definition step_ok (n : Z) (es' : list entry) (s : Writer) (r : option (Z * Writer)) : Prop :=
  exists rc s', r = Some (rc, s') /\ kept n s s' /\ (rc = SQLITE_OK -> frames_ok es' s') /\ io_clean (w_io s) rc (w_io s').

Lemma szPage_range : 512 <= szPage <= 65536 /\ szPage mod 8 = 0.
Proof. by apply pagesize_units. Qed.

Lemma frames_size es s : frames_ok es s -> walFrameOffset (alen es + 1) szPage <= alen (w_wal s).
Proof using.
  clear Hsalt Hsz.
  intros H. destruct (decide (es = [])) as [->|Hne].
  - unfold walFrameOffset, alen at 1. cbn. pose proof (fo_size _ _ H). lia.
  - destruct (lookup_lt_is_Some_2 es (length es - 1)) as [e He].
    { destruct es; [done|cbn; lia]. }
    pose proof (rf_size _ _ _ _ (fo_raw _ _ H _ _ He)) as Hs. replace (alen es + 1) with (Z.of_nat (length es - 1) + 1 + 1); [done|].
    destruct es; [done|]. unfold alen. cbn. lia.
Qed.

(** The frames of a file that grows by one frame. *)
Lemma raw_at_snoc f e t es : raw_at szPage f es -> entry_ok szPage e -> length t = 16%nat ->
  walFrameOffset (alen es + 1) szPage <= alen f ->
  raw_at szPage (fwrite f (walFrameOffset (alen es + 1) szPage) ((entry_head e ++ t) ++ en_data e)) (es ++ [e]).
Proof.
  intros Hr He Ht Hf. pose proof szPage_range as [? _]. pose proof He as (_ & _ & Hd & _). pose proof (alen_nonneg es).
  set (off := walFrameOffset (alen es + 1) szPage).
  assert (Ho : WAL_HDRSIZE <= off) by (apply walFrameOffset_nonneg; lia). unfold WAL_HDRSIZE in Ho.
  assert (La : alen ((entry_head e ++ t) ++ en_data e) = szPage + 24).
  { rewrite !alen_app, Hd. unfold alen. rewrite entry_head_length, Ht. lia. }
  intros i x Hi. apply lookup_snoc_Some in Hi as [[Hlt Hi]|[-> <-]].
  - apply (raw_frame_keeps _ f); [lia|lia| |by apply Hr]. apply keeps_write; [lia|]. apply walFrameOffset_mono; unfold alen; lia.
  - assert (Hsame : fread (fwrite f off ((entry_head e ++ t) ++ en_data e)) off (szPage + 24) = (entry_head e ++ t) ++ en_data e).
    { rewrite <- La. by apply fread_write_same; lia. }
    change (Z.of_nat (length es)) with (alen es). fold off. split; [done| | |].
    + rewrite walFrameOffset_succ, alen_write, La by lia. fold off. unfold WAL_FRAME_HDRSIZE. lia.
    + fold off. apply (f_equal (take 8)) in Hsame. rewrite <- app_assoc, take_app_length' in Hsame by by rewrite entry_head_length.
      rewrite <- Hsame at 2. rewrite <- (app_assoc (entry_head e)). replace (szPage + 24) with (8 + (16 + szPage)) by lia. rewrite fread_split by lia.
      symmetry. apply take_app_length'. unfold fread. by rewrite length_map, length_seqZ.
    + fold off. apply (f_equal (drop 24)) in Hsame. rewrite drop_app_length' in Hsame by by rewrite length_app, entry_head_length, Ht.
      rewrite <- Hsame at 2. unfold WAL_FRAME_HDRSIZE. rewrite (Z.add_comm szPage). symmetry. apply (fread_drop _ _ 24); lia.
Qed.

Lemma written_tail f off e t d : 0 <= off -> length t = 16%nat ->
  fread (fwrite f off ((entry_head e ++ t) ++ d)) (off + 8) 16 = t.
Proof using.
  clear Hsalt Hsz.
  intros Ho Ht. rewrite <- app_assoc. pose proof (alen_nonneg d).
  assert (L : alen (entry_head e ++ t ++ d) = 8 + (16 + alen d)).
  { rewrite !alen_app. unfold alen. rewrite entry_head_length, Ht. lia. }
  pose proof (fread_write_same f off (entry_head e ++ t ++ d) Ho) as Hs. rewrite L in Hs.
  apply (f_equal (drop (Z.to_nat 8))) in Hs. rewrite fread_drop, drop_app_length' in Hs by (lia || by rewrite entry_head_length).
  apply (f_equal (take 16)) in Hs. rewrite (take_app_length' t) in Hs by done. rewrite <- Hs at 2. rewrite fread_split by lia.
  symmetry. apply take_app_length'. unfold fread. by rewrite length_map, length_seqZ.
Qed.

Lemma frames_snoc f es e ck : frames_at big salt szPage f 1 ck es -> raw_frame szPage f (alen es + 1) e ->
  fread f (walFrameOffset (alen es + 1) szPage + 8) 16 = salt ++ cksum_bytes (entry_cksum big (log_cksum big ck es) e) ->
  frames_at big salt szPage f 1 ck (es ++ [e]).
Proof.
  intros Hc Hr Ht. pose proof szPage_range as [? _]. destruct Hsalt. apply frames_at_app. split; [done|]. rewrite (Z.add_comm 1).
  cbn [frames_at]. split_and!; [apply Hr|apply Hr| |done]. by apply frame_bytes; [|lia|..].
Qed.

Lemma frames_appended es e s f io : frames_ok es s -> entry_ok szPage e -> io_ok io ->
  let h := if w_iReCksum s =? 0 then set_aFrameCksum (entry_cksum (bigEndCksum (w_hdr s)) (aFrameCksum (w_hdr s)) e) (w_hdr s) else w_hdr s in
  f = fwrite (w_wal s) (walFrameOffset (alen es + 1) szPage) ((entry_head e ++ frame_tail (w_hdr s) (w_iReCksum s) e) ++ en_data e) ->
  frames_ok (es ++ [e]) (w_set_file io f (w_set_hdr h s)).
Proof.
  intros Hf He Hio h Ef. pose proof szPage_range as [? _]. pose proof (alen_nonneg es). pose proof (frames_size es s Hf) as Hend.
  destruct Hf as [Hb _ Hwf [Hbig Hs] Hhd Hsize Hraw Hre Hch Hck]. pose proof (hdr_wf_ok _ Hwf) as Hok.
  set (off := walFrameOffset (alen es + 1) szPage) in *.
  assert (Ho : WAL_HDRSIZE <= off) by (apply walFrameOffset_nonneg; lia).
  destruct (frame_tail_ok (w_hdr s) (w_iReCksum s) e Hok) as [Lt Bt]. pose proof He as (_ & _ & Hd & _ & _ & Bd).
  assert (Hk : keeps off (w_wal s) f) by (rewrite Ef; apply keeps_write; unfold WAL_HDRSIZE in *; lia).
  assert (Hr : raw_at szPage f (es ++ [e])) by (rewrite Ef; by apply raw_at_snoc).
  assert (Hp : frames_at big salt szPage f 1 ck0 (take (valid_frames s es) es)).
  { apply (frames_at_keeps _ _ _ (w_wal s)); [lia|lia| |done]. eapply keeps_le; [|exact Hk]. apply walFrameOffset_mono; [|lia].
    unfold alen. rewrite length_take. lia. }
  constructor; cbn [w_set_file w_set_hdr w_wal w_io w_hdr w_iReCksum]; try done.
  - rewrite Ef. apply fwrite_u8; [done|]. apply Forall_app_2; [apply Forall_app_2; [apply entry_head_bytes|done]|done].
  - unfold h. destruct (w_iReCksum s =? 0); [|done]. apply hdr_wf_cksum; [|done]. apply entry_cksum_range, Hwf.
  - unfold h. by destruct (w_iReCksum s =? 0).
  - rewrite <- Hhd. apply (keeps_fread _ _ _ _ _ Hk); unfold WAL_HDRSIZE in *; lia.
  - destruct Hk as [_ Hk]. lia.
  - rewrite alen_app. unfold alen at 2. cbn. lia.
  - unfold valid_frames in *. cbn [w_iReCksum w_set_file w_set_hdr]. destruct (Z.eqb_spec (w_iReCksum s) 0) as [E0|E0].
    + rewrite firstn_all in Hp |- *. apply frames_snoc; [done| |].
      * apply (Hr (length es)). by apply list_lookup_middle.
      * fold off. rewrite Ef, written_tail by (unfold WAL_HDRSIZE in *; done || lia). unfold frame_tail. rewrite E0. cbn [Z.eqb].
        by rewrite Hbig, Hs, Hck.
    + rewrite take_app_le by (unfold alen in *; lia). done.
  - intros E0. unfold h. rewrite E0. cbn [Z.eqb set_aFrameCksum aFrameCksum]. rewrite log_cksum_app, Hbig, Hck by done. done.
Qed.

Lemma step_append n iSync es e s : frames_ok es s -> entry_ok szPage e -> n <= walFrameOffset (alen es + 1) szPage ->
  step_ok n (es ++ [e]) s
    (walWriteOneFrame bo host_big iSync szPage (MkPg (en_pgno e) (en_data e)) (en_truncate e) (walFrameOffset (alen es + 1) szPage) s).
Proof.
  intros Hf He Hn. pose proof szPage_range as [? _]. pose proof (alen_nonneg es). pose proof (frames_size es s Hf) as Hend.
  destruct Hf as [Hb Hio Hwf [Hbig Hs] Hhd Hsize Hraw Hre Hch Hck]. pose proof (hdr_wf_ok _ Hwf) as Hok.
  set (off := walFrameOffset (alen es + 1) szPage) in *.
  assert (Ho : WAL_HDRSIZE <= off) by (apply walFrameOffset_nonneg; lia). unfold WAL_HDRSIZE in Ho.
  unfold walWriteOneFrame. cbn [pg_pgno pg_data]. rewrite (encode_entry bo host_big _ _ _ e Hok He). cbn [mbind option_bind].
  set (h' := if w_iReCksum s =? 0 then _ else _). set (t := frame_tail (w_hdr s) (w_iReCksum s) e).
  destruct (frame_tail_ok (w_hdr s) (w_iReCksum s) e Hok) as [Lt Bt]. fold t in Lt, Bt.
  assert (Hh' : exists c, is_u32_pair c /\ h' = set_aFrameCksum c (w_hdr s)).
  { unfold h'. destruct (w_iReCksum s =? 0); [|exists (aFrameCksum (w_hdr s)); split; [apply Hwf|by destruct (w_hdr s)]].
    eexists. split; [|done]. apply entry_cksum_range, Hwf. }
  cbn [w_set_hdr w_set_file w_io w_wal].
  destruct (walWriteToLog iSync (entry_head e ++ t) off (w_io s) (w_wal s)) as [[rc1 f1] io1] eqn:E1.
  apply (walWriteToLog_spec n) in E1 as (Hio1 & K1 & W1 & C1); [|done|lia|lia].
  destruct (Z.eqb_spec rc1 SQLITE_OK) as [->|Hne]; cbn [negb].
  2:{ eexists _, _. split; [done|]. split_and!; [split; try done; naive_solver|done|]. cbn [w_io]. done. }
  specialize (W1 eq_refl).
  destruct (walWriteToLog iSync (en_data e) (off + WAL_FRAME_HDRSIZE) io1 f1) as [[rc2 f2] io2] eqn:E2.
  apply (walWriteToLog_spec n) in E2 as (Hio2 & K2 & W2 & C2); [|done|unfold WAL_FRAME_HDRSIZE; lia..].
  eexists _, _. split; [done|]. split_and!.
  - split; cbn [w_set_hdr w_set_file w_io w_wal w_hdr]; [by eapply keeps_trans|done|naive_solver|done].
  - intros ->. specialize (W2 eq_refl).
    assert (Ef : f2 = fwrite (w_wal s) off ((entry_head e ++ t) ++ en_data e)).
    { rewrite W2, W1. rewrite <- (fwrite_app (w_wal s) off (entry_head e ++ t) (en_data e)) by lia. f_equal. f_equal.
      rewrite alen_app. unfold alen. by rewrite entry_head_length, Lt. }
    apply (frames_appended es e s f2 io2); done.
  - cbn [w_set_hdr w_set_file w_io]. intros Hc. destruct (C1 Hc) as [_ ->]. by apply C2.
Qed.

Lemma raw_at_overwrite f es R d : raw_at szPage f es -> 1 <= R <= alen es -> page_ok szPage d ->
  raw_at szPage (fwrite f (walFrameOffset R szPage + WAL_FRAME_HDRSIZE) d) (set_data R d es).
Proof.
  intros Hr HR Hd. pose proof Hd as (Ld & _). pose proof szPage_range as [? _]. intros i x Hi. unfold set_data in Hi.
  pose proof (walFrameOffset_nonneg R szPage ltac:(lia) ltac:(lia)) as HoR. unfold WAL_HDRSIZE in HoR.
  assert (Hx : exists e, es !! i = Some e /\ x = if decide (i = Z.to_nat (R - 1)) then MkEntry (en_pgno e) (en_truncate e) d else e).
  { destruct (decide (i = Z.to_nat (R - 1))) as [->|Hne].
    - rewrite list_lookup_alter_eq in Hi. destruct (es !! Z.to_nat (R - 1)) as [e|]; [|done]. cbn in Hi. simplify_eq. eauto.
    - rewrite list_lookup_alter_ne in Hi by done. eauto. }
  destruct Hx as (e & He & Hx). destruct (Hr i e He) as [(Hp & Hn & Hde) Hs Hh Hda].
  pose proof (walFrameOffset_nonneg (Z.of_nat i + 1) szPage ltac:(lia) ltac:(lia)) as Hoi. unfold WAL_HDRSIZE in Hoi.
  assert (Hl : walFrameOffset (Z.of_nat i + 1 + 1) szPage <= alen (fwrite f (walFrameOffset R szPage + WAL_FRAME_HDRSIZE) d))
    by (rewrite alen_write; unfold WAL_FRAME_HDRSIZE; lia).
  destruct (decide (i = Z.to_nat (R - 1))) as [->|Hne]; subst x.
  - replace (Z.of_nat (Z.to_nat (R - 1)) + 1) with R in * by lia. split; cbn [en_data]; [done|done| |].
    + unfold entry_head. cbn [en_pgno en_truncate]. rewrite fread_write_other; unfold WAL_FRAME_HDRSIZE; [done|lia..].
    + pose proof (fread_write_same f (walFrameOffset R szPage + WAL_FRAME_HDRSIZE) d) as Hw. rewrite Ld in Hw. apply Hw. unfold WAL_FRAME_HDRSIZE. lia.
  - pose proof (walFrameOffset_succ (Z.of_nat i + 1) szPage). pose proof (walFrameOffset_succ R szPage).
    assert (Hcase : Z.of_nat i + 1 + 1 <= R \/ R + 1 <= Z.of_nat i + 1) by lia. unfold WAL_FRAME_HDRSIZE in *.
    assert (Hdis : walFrameOffset (Z.of_nat i + 1 + 1) szPage <= walFrameOffset R szPage
                   \/ walFrameOffset (R + 1) szPage <= walFrameOffset (Z.of_nat i + 1) szPage).
    { destruct Hcase; [left|right]; apply walFrameOffset_mono; lia. }
    split; [done|done| |]; unfold WAL_FRAME_HDRSIZE; rewrite fread_write_other by lia; done.
Qed.

Lemma step_overwrite n es R d s rc f io : frames_ok es s -> 1 <= R <= alen es -> page_ok szPage d ->
  n <= walFrameOffset R szPage + WAL_FRAME_HDRSIZE ->
  let s1 := if (w_iReCksum s =? 0) || (R <? w_iReCksum s) then w_set_recksum R s else s in
  os_write (w_io s1) (w_wal s1) (walFrameOffset R szPage + WAL_FRAME_HDRSIZE) d = (rc, f, io) ->
  kept n s (w_set_file io f s1) /\ (rc = SQLITE_OK -> frames_ok (set_data R d es) (w_set_file io f s1)) /\ io_clean (w_io s) rc io.
Proof.
  intros Hf HR Hd Hn s1 E. pose proof szPage_range as [? _].
  pose proof (walFrameOffset_nonneg R szPage ltac:(lia) ltac:(lia)) as Ho. unfold WAL_HDRSIZE, WAL_FRAME_HDRSIZE in *.
  assert (Es : w_io s1 = w_io s /\ w_wal s1 = w_wal s) by (unfold s1; by destruct (_ || _)). destruct Es as [Eio Ewal]. rewrite Eio, Ewal in E.
  destruct Hf as [Hb Hio Hwf Hlog Hhd Hsize Hraw Hre Hch Hck].
  apply (os_write_spec n) in E as (Hio' & K & W & C); [|done|lia|lia]. split_and!; [| |done].
  { unfold s1. destruct (_ || _); split; cbn; try done; exists (aFrameCksum (w_hdr s)); by destruct (w_hdr s). }
  intros Hrc. specialize (W Hrc). assert (Hk : keeps (walFrameOffset R szPage) (w_wal s) f) by (rewrite W; apply keeps_write; lia).
  assert (Hs1 : w_hdr s1 = w_hdr s) by (unfold s1; by destruct (_ || _)).
  assert (Hre1 : 1 <= w_iReCksum s1 <= R /\ (w_iReCksum s <> 0 -> w_iReCksum s1 <= w_iReCksum s)).
  { unfold s1. destruct (Z.eqb_spec (w_iReCksum s) 0), (Z.ltb_spec R (w_iReCksum s)); cbn; lia. }
  constructor; cbn [w_set_file w_wal w_io w_hdr w_iReCksum]; rewrite ?Hs1, ?alen_set_data; try done.
  - rewrite W. apply fwrite_u8; [done|apply Hd].
  - rewrite <- Hhd. apply (keeps_fread _ _ _ _ _ Hk); unfold WAL_HDRSIZE; lia.
  - destruct Hk as [_ Hk]. unfold WAL_HDRSIZE in *. lia.
  - rewrite W. by apply raw_at_overwrite.
  - lia.
  - unfold valid_frames in *. cbn [w_iReCksum w_set_file]. destruct (Z.eqb_spec (w_iReCksum s1) 0); [lia|].
    rewrite take_set_data by lia. apply (frames_at_keeps _ _ _ (w_wal s)); [lia|lia| |].
    { eapply keeps_le; [|exact Hk]. apply walFrameOffset_mono; [|lia]. unfold alen. rewrite length_take. lia. }
    apply (frames_at_take _ _ _ _ _ _ _ (Z.to_nat (w_iReCksum s1 - 1))) in Hch. rewrite take_take in Hch.
    rewrite Nat.min_l in Hch; [done|]. unfold alen in *. destruct (Z.eqb_spec (w_iReCksum s) 0); lia.
  - lia.
Qed.

(** *** Rewriting checksums *)

(** The first [j] frames have their checksums, and the sum runs up to them. *)
Record rewriting (j : nat) (es : list entry) (s : Writer) : Prop := {
  rw_bytes : Forall is_u8 (w_wal s);
  rw_io : io_ok (w_io s);
  rw_wf : hdr_wf (w_hdr s);
  rw_log : bigEndCksum (w_hdr s) = big /\ aSalt (w_hdr s) = salt;
  rw_header : fread (w_wal s) 0 WAL_HDRSIZE = file_header WAL_MAX_VERSION big szPage nCkpt salt;
  rw_size : WAL_HDRSIZE <= alen (w_wal s);
  rw_raw : raw_at szPage (w_wal s) es;
  rw_re : w_iReCksum s = 0;
  rw_chain : frames_at big salt szPage (w_wal s) 1 ck0 (take j es);
  rw_cksum : aFrameCksum (w_hdr s) = log_cksum big ck0 (take j es)
}.

Lemma rewriting_all es s : rewriting (length es) es s -> frames_ok es s.
Proof.
  intros []. rewrite firstn_all in *. constructor; try done.
  - pose proof (alen_nonneg es). lia.
  - unfold valid_frames. rewrite rw_re0. cbn [Z.eqb]. by rewrite firstn_all.
Qed.

(** The header of frame [j + 1] is written again. *)
Lemma rewriting_step es j e s io : rewriting j es s -> es !! j = Some e -> io_ok io ->
  let off := walFrameOffset (Z.of_nat j + 1) szPage in
  let h := set_aFrameCksum (entry_cksum big (aFrameCksum (w_hdr s)) e) (w_hdr s) in
  rewriting (S j) es (w_set_file io (fwrite (w_wal s) off (entry_head e ++ frame_tail (w_hdr s) 0 e)) (w_set_hdr h s)).
Proof.
  intros [Hb _ Hwf [Hbig Hs] Hhd Hsize Hraw Hre Hch Hck] He Hio off h. pose proof szPage_range as [? _].
  pose proof (frame_tail_ok (w_hdr s) 0 e (hdr_wf_ok _ Hwf)) as [Lt Bt]. set (t := frame_tail (w_hdr s) 0 e) in *.
  pose proof (walFrameOffset_nonneg (Z.of_nat j + 1) szPage ltac:(lia) ltac:(lia)) as Ho. fold off in Ho.
  set (f := fwrite (w_wal s) off (entry_head e ++ t)).
  assert (L : alen (entry_head e ++ t) = 24) by (unfold alen; rewrite length_app, entry_head_length, Lt; done).
  assert (Hk : keeps off (w_wal s) f) by (apply keeps_write; unfold WAL_HDRSIZE in *; lia).
  assert (Hj : length (take j es) = j) by (rewrite length_take; apply lookup_lt_Some in He; lia).
  assert (Hp : frames_at big salt szPage f 1 ck0 (take j es)).
  { apply (frames_at_keeps _ _ _ (w_wal s)); [lia|lia| |done]. unfold alen. by rewrite Hj, Z.add_comm. }
  assert (Hr : raw_at szPage f es).
  { intros i x Hi. destruct (Hraw i x Hi) as [Hx Hxs Hxh Hxd]. pose proof (walFrameOffset_succ (Z.of_nat i + 1) szPage). unfold WAL_FRAME_HDRSIZE, WAL_HDRSIZE in *.
    pose proof (walFrameOffset_nonneg (Z.of_nat i + 1) szPage ltac:(lia) ltac:(lia)). pose proof (walFrameOffset_succ (Z.of_nat j + 1) szPage).
    unfold WAL_FRAME_HDRSIZE, WAL_HDRSIZE in *.
    assert (Hdis : i = j \/ walFrameOffset (Z.of_nat i + 1 + 1) szPage <= off \/ off + 24 <= walFrameOffset (Z.of_nat i + 1) szPage).
    { destruct (Nat.lt_trichotomy i j) as [Hlt|[->|Hlt]]; [right; left; apply walFrameOffset_mono; lia|by left|right; right].
      pose proof (walFrameOffset_mono (Z.of_nat j + 1 + 1) (Z.of_nat i + 1) szPage ltac:(lia) ltac:(lia)). fold off in H1. lia. }
    split; [done|unfold f; rewrite alen_write by lia; lia| |].
    - destruct Hdis as [->|Hdis]; [|unfold f; rewrite fread_write_other by lia; done]. rewrite He in Hi. simplify_eq.
      pose proof (fread_write_same (w_wal s) off (entry_head x ++ t) ltac:(lia)) as Hsame. rewrite L in Hsame. change 24 with (8 + 16) in Hsame.
      rewrite fread_split in Hsame by lia. apply app_inj_1 in Hsame as [? _]; [done|].
      unfold fread. by rewrite length_map, length_seqZ, entry_head_length.
    - unfold f. unfold WAL_FRAME_HDRSIZE. rewrite fread_write_other; [done|lia|lia|]. destruct Hdis as [->|Hdis]; fold off; lia. }
  constructor; cbn [w_set_file w_set_hdr w_wal w_io w_hdr w_iReCksum]; try done.
  - apply fwrite_u8; [done|]. apply Forall_app_2; [apply entry_head_bytes|done].
  - apply hdr_wf_cksum; [|done]. apply entry_cksum_range, Hwf.
  - rewrite <- Hhd. apply (keeps_fread _ _ _ _ _ Hk); unfold WAL_HDRSIZE in *; lia.
  - destruct Hk as [_ Hk]. lia.
  - erewrite take_S_r by done. apply frames_snoc; [done| |].
    + unfold alen. rewrite Hj. by apply Hr.
    + unfold alen. rewrite Hj. fold off. unfold f. rewrite <- (app_nil_r (entry_head e ++ t)), written_tail by (unfold WAL_HDRSIZE in *; done || lia).
      unfold t, frame_tail. cbn [Z.eqb]. by rewrite Hbig, Hs, Hck.
  - unfold h. cbn [set_aFrameCksum aFrameCksum]. erewrite take_S_r by done. rewrite log_cksum_app, Hck. done.
Qed.

Lemma rewrite_loop_ok n es : forall m j s, rewriting j es s -> (j + m = length es)%nat -> n <= walFrameOffset (Z.of_nat j + 1) szPage ->
  step_ok n es s (rewrite_loop bo host_big m szPage (Z.of_nat j + 1) s).
Proof.
  pose proof szPage_range as [? _].
  induction m as [|m IH]; intros j s Hs Hm Hn; cbn [rewrite_loop].
  { eexists _, _. split; [done|]. split_and!; [apply kept_refl, Hs| |done]. intros _. replace j with (length es) in Hs by lia. by apply rewriting_all. }
  set (off := walFrameOffset (Z.of_nat j + 1) szPage) in *.
  pose proof (walFrameOffset_nonneg (Z.of_nat j + 1) szPage ltac:(lia) ltac:(lia)) as Ho. fold off in Ho. unfold WAL_HDRSIZE in Ho.
  destruct (lookup_lt_is_Some_2 es j) as [e He]; [lia|]. destruct (rw_raw _ _ _ Hs j e He) as [Hok Hxs Hxh Hxd]. fold off in Hxh, Hxd.
  destruct (os_read (w_io s) (w_wal s) off (szPage + WAL_FRAME_HDRSIZE)) as [[rc b] io] eqn:Er.
  apply os_read_spec in Er as (Hio & Hdat & Cr); [|apply Hs]. rewrite walFrameOffset_succ in Hxs. specialize (Cr Hxs).
  assert (K0 : forall f', f' = w_wal s -> kept n s (w_set_file io f' s)).
  { intros f' ->. split; cbn; [apply keeps_refl|done| |done]. exists (aFrameCksum (w_hdr s)). by destruct (w_hdr s). }
  destruct (Z.eqb_spec rc SQLITE_OK) as [->|Hne]; cbn [negb].
  2:{ eexists _, _. split; [done|]. split_and!; [by apply K0|done|]. done. }
  specialize (Hdat eq_refl). unfold WAL_FRAME_HDRSIZE in Hdat, Hxd.
  replace (szPage + 24) with (8 + (16 + szPage)) in Hdat by lia. rewrite !fread_split, Hxh, <- Z.add_assoc in Hdat by lia.
  change (8 + 16) with 24 in Hdat. rewrite Hxd in Hdat. pose proof Hok as (Hp & Hn' & Hpd).
  set (mid := fread (w_wal s) (off + 8) 16) in *.
  assert (Lm : length mid = 16%nat) by (unfold mid, fread; by rewrite length_map, length_seqZ).
  assert (Bb : Forall is_u8 b).
  { rewrite Hdat. apply Forall_app_2; [apply entry_head_bytes|]. apply Forall_app_2; [apply fread_u8, Hs|apply Hpd]. }
  assert (G : sqlite3Get4byte bo b = Some (en_pgno e) /\ sqlite3Get4byte bo (drop 4 b) = Some (en_truncate e) /\ drop 24 b = en_data e).
  { split_and!.
    - rewrite get4byte_be by done. rewrite Hdat. unfold entry_head. rewrite <- !app_assoc. apply load_store. unfold is_u32. lia.
    - rewrite get4byte_be by by apply Forall_drop. rewrite Hdat. unfold entry_head. rewrite <- !app_assoc, drop_app_length' by done. by apply load_store.
    - rewrite Hdat, app_assoc. apply drop_app_length'. rewrite length_app, entry_head_length, Lm. done. }
  destruct G as (-> & -> & ->). cbn [mbind option_bind w_set_file w_hdr w_iReCksum]. rewrite (rw_re _ _ _ Hs).
  rewrite encode_entry; [|apply hdr_wf_ok, Hs|done]. cbn [mbind option_bind Z.eqb w_set_hdr w_io w_wal].
  cbn [w_set_file w_wal w_io]. fold off.
  match goal with |- context [os_write io (w_wal s) off ?x] => destruct (os_write io (w_wal s) off x) as [[rc2 f2] io2] eqn:Ew end.
  apply (os_write_spec n) in Ew as (Hio2 & K2 & W2 & C2); [|done|lia|done].
  destruct (rw_log _ _ _ Hs) as [Hbig _]. rewrite Hbig. set (h := set_aFrameCksum _ (w_hdr s)).
  match goal with |- context [if negb _ then Some (rc2, ?x) else _] => set (s2 := x) end.
  assert (K : kept n s s2) by (split; cbn; try done; by eexists).
  destruct (Z.eqb_spec rc2 SQLITE_OK) as [->|Hne]; cbn [negb].
  2:{ eexists _, _. split; [done|]. split_and!; [done|done|]. cbn [s2 w_io]. intros Hc. destruct (Cr Hc) as [_ ->]. by apply C2. }
  specialize (W2 eq_refl).
  assert (Hs2 : rewriting (S j) es s2) by (pose proof (rewriting_step es j e s io2 Hs He Hio2) as Hx; unfold s2; rewrite W2; exact Hx).
  destruct (IH (S j) s2 Hs2 ltac:(lia)) as (rc3 & s3 & E3 & K3 & F3 & C3).
  { pose proof (walFrameOffset_mono (Z.of_nat j + 1) (Z.of_nat (S j) + 1) szPage ltac:(lia) ltac:(lia)). fold off in H0. lia. }
  replace (Z.of_nat j + 1 + 1) with (Z.of_nat (S j) + 1) by lia.
  exists rc3, s3. split; [exact E3|]. split_and!; [by eapply kept_trans|done|]. intros Hc. destruct (Cr Hc) as [_ ->].
  destruct C2 as [_ E]; [done|]. apply C3. cbn [s2 w_io]. done.
Qed.

(** Where the checksum of a frame is. *)
Lemma chain_cksum f es e : frames_at big salt szPage f 1 ck0 (es ++ [e]) ->
  fread f (walFrameOffset (alen es + 1) szPage + 16) 8 = cksum_bytes (log_cksum big ck0 (es ++ [e])).
Proof.
  intros (_ & He & _ & Hb & _)%frames_at_app. pose proof szPage_range as [? _]. destruct Hsalt as [Ls _]. pose proof (alen_nonneg es).
  rewrite (Z.add_comm 1) in Hb. set (off := walFrameOffset (alen es + 1) szPage) in *. unfold WAL_FRAME_HDRSIZE in Hb.
  rewrite log_cksum_app. cbn [log_cksum]. replace (szPage + 24) with (16 + (8 + szPage)) in Hb by lia.
  rewrite !fread_split in Hb by lia. unfold entry_bytes in Hb. rewrite (app_assoc (entry_head e)) in Hb.
  apply app_inj_1 in Hb as [_ Hb]; [|unfold fread; rewrite length_map, length_seqZ, length_app, entry_head_length, Ls; done].
  apply app_inj_1 in Hb as [Hb _]; [done|]. unfold fread. rewrite length_map, length_seqZ. unfold cksum_bytes.
  by rewrite length_app, !store32_length.
Qed.

Lemma header_tail f : fread f 0 WAL_HDRSIZE = file_header WAL_MAX_VERSION big szPage nCkpt salt -> fread f 24 8 = cksum_bytes ck0.
Proof.
  intros H. unfold ck0, header_cksum. unfold file_header in *. destruct Hsalt as [Ls _].
  set (b := _ ++ _ ++ _ ++ _ ++ salt) in *. assert (Lb : length b = 24%nat) by (unfold b; rewrite !length_app, !store32_length, Ls; done).
  rewrite take_app_length' by done. change WAL_HDRSIZE with (24 + 8) in H. rewrite fread_split in H by lia.
  apply app_inj_1 in H as [_ H]; [done|]. unfold fread. by rewrite length_map, length_seqZ, Lb.
Qed.

(** The sum from which the rewriting starts. *)
Lemma recksum_start es s : frames_ok es s -> w_iReCksum s <> 0 ->
  let off := if w_iReCksum s =? 1 then 24 else walFrameOffset (w_iReCksum s - 1) szPage + 16 in
  fread (w_wal s) off 8 = cksum_bytes (log_cksum big ck0 (take (Z.to_nat (w_iReCksum s - 1)) es)) /\ 0 <= off /\ off + 8 <= alen (w_wal s).
Proof.
  intros Hf Hne off. pose proof szPage_range as [? _]. pose proof (fo_re _ _ Hf) as Hre. unfold off. destruct (Z.eqb_spec (w_iReCksum s) 1) as [->|H1].
  - cbn. split_and!; [by apply header_tail, Hf|lia|]. pose proof (fo_size _ _ Hf). unfold WAL_HDRSIZE in *. lia.
  - pose proof (fo_chain _ _ Hf) as Hch. unfold valid_frames in Hch. apply Z.eqb_neq in Hne as E. rewrite E in Hch.
    set (r := w_iReCksum s) in *. destruct (lookup_lt_is_Some_2 es (Z.to_nat (r - 2))) as [e He]; [unfold alen in *; lia|].
    replace (Z.to_nat (r - 1)) with (S (Z.to_nat (r - 2))) in * by lia. erewrite take_S_r in * by done.
    apply chain_cksum in Hch. assert (La : alen (take (Z.to_nat (r - 2)) es) + 1 = r - 1) by (rewrite alen_take; lia).
    rewrite La in Hch. split; [done|]. pose proof (walFrameOffset_nonneg (r - 1) szPage ltac:(lia) ltac:(lia)).
    pose proof (rf_size _ _ _ _ (fo_raw _ _ Hf _ _ He)) as Hs. replace (Z.of_nat (Z.to_nat (r - 2)) + 1 + 1) with (r - 1 + 1) in Hs by lia.
    rewrite walFrameOffset_succ in Hs. unfold WAL_HDRSIZE, WAL_FRAME_HDRSIZE in *. lia.
Qed.

Lemma get_cksum b c : b = cksum_bytes c -> is_u32_pair c ->
  sqlite3Get4byte bo b = Some (fst c) /\ sqlite3Get4byte bo (drop 4 b) = Some (snd c).
Proof.
  intros -> [H1 H2]. unfold cksum_bytes.
  assert (Forall is_u8 (store32 true (fst c) ++ store32 true (snd c))) by (apply Forall_app_2; apply store32_bytes).
  split.
  - rewrite get4byte_be by done. by apply load_store.
  - rewrite get4byte_be by by apply Forall_drop. rewrite drop_app_length' by done. rewrite <- (app_nil_r (store32 true (snd c))). by apply load_store.
Qed.

Lemma get_any b : Forall is_u8 b -> (8 <= length b)%nat ->
  exists c0 c1, sqlite3Get4byte bo b = Some c0 /\ sqlite3Get4byte bo (drop 4 b) = Some c1.
Proof using.
  clear Hsalt Hsz.
  intros HF Hl. rewrite !get4byte_be by (try apply Forall_drop; done).
  destruct (load32_is_Some true b) as [c0 E0]; [lia|]. destruct (load32_is_Some true (drop 4 b)) as [c1 E1]; [rewrite length_drop; lia|]. eauto.
Qed.

Lemma rewrite_checksums_ok n al junk es s : frames_ok es s -> w_iReCksum s <> 0 -> w_szPage s = szPage -> Forall is_u8 junk -> (8 <= length junk)%nat ->
  n <= walFrameOffset (w_iReCksum s) szPage ->
  exists rc s', walRewriteChecksums bo host_big al junk (alen es) s = Some (rc, s') /\ kept n s s' /\
    (rc = SQLITE_OK -> frames_ok es s' /\ w_iReCksum s' = 0) /\ (never_fails al -> io_clean (w_io s) rc (w_io s')).
Proof.
  intros Hf Hne Hws Hju Hjl Hn. pose proof szPage_range as [? _]. destruct (recksum_start es s Hf Hne) as (Hst & Hoff & Hend).
  unfold walRewriteChecksums. rewrite Hws. destruct (malloc al) as [ok al'] eqn:Em.
  destruct ok; cbn [negb].
  2:{ eexists _, _. split; [done|]. split_and!; [apply kept_refl, Hf|done|]. intros (al2 & Hal & _)%malloc_never_fails. congruence. }
  set (off := if w_iReCksum s =? 1 then _ else _) in *. destruct (os_read (w_io s) (w_wal s) off 8) as [[rc b] io] eqn:Er.
  apply os_read_spec in Er as (Hio & Hdat & Cr); [|apply Hf]. specialize (Cr Hend).
  assert (Hf' := Hf). destruct Hf' as [Hb _ Hwf Hlog Hhd Hsize Hraw Hre Hch Hck].
  assert (Hcr : is_u32_pair (log_cksum big ck0 (take (Z.to_nat (w_iReCksum s - 1)) es))) by (apply log_cksum_range, cksum_spec_range; by split).
  destruct (Z.eqb_spec rc SQLITE_OK) as [->|Hrc].
  - rewrite (Hdat eq_refl), Hst. destruct (get_cksum _ _ eq_refl Hcr) as [-> ->]. cbn [mbind option_bind negb w_set_hdr w_set_file w_iReCksum].
    set (c := log_cksum _ _ _) in *. match goal with |- context [rewrite_loop _ _ _ _ _ ?x] => set (s1 := x) end.
    assert (Hr1 : rewriting (Z.to_nat (w_iReCksum s - 1)) es s1).
    { constructor; cbn [s1 w_set_recksum w_set_hdr w_set_file w_wal w_io w_hdr w_iReCksum set_aFrameCksum bigEndCksum aSalt aFrameCksum]; try done.
      - apply hdr_wf_cksum; [|done]. by destruct Hcr.
      - unfold valid_frames in Hch. apply Z.eqb_neq in Hne. by rewrite Hne in Hch.
      - fold c. by destruct c. }
    assert (K1 : kept n s s1) by (split; cbn; [apply keeps_refl|done|by eexists|done]).
    destruct (rewrite_loop_ok n es (Z.to_nat (alen es - w_iReCksum s + 1)) _ s1 Hr1) as (rc & s' & E & K & F & C).
    { unfold alen in *. lia. } { replace (Z.of_nat (Z.to_nat (w_iReCksum s - 1)) + 1) with (w_iReCksum s) by lia. done. }
    replace (Z.of_nat (Z.to_nat (w_iReCksum s - 1)) + 1) with (w_iReCksum s) in E by lia.
    exists rc, s'. split; [exact E|]. split_and!; [by eapply kept_trans| |].
    + intros Hrc. split; [by apply F|]. by eapply rewrite_loop_recksum; [|exact E].
    + intros _ Hc. destruct (Cr Hc) as [_ E']. apply C. done.
  - destruct (get_any junk Hju Hjl) as (c0 & c1 & -> & ->). cbn [mbind option_bind negb].
    eexists _, _. split; [done|]. split_and!; [|done|by intros _ Hc; destruct (Cr Hc)].
    split; cbn; [apply keeps_refl|done|by eexists|done].
Qed.
End Log.
