(* ===== verification/WalTxn.v ===== *)
(** * Write-ahead log: commit, rollback and savepoints ([src/wal.c])

    What [walFrames] leaves in the log file and in the wal-index, whatever the
    outcomes of the calls to the VFS: the frames of the dirty pages as a valid
    chain with a commit mark, or the committed log as it was.  Then rollback,
    savepoints, and recovery after a commit. *)
From S2P Require Import Prelude Bytes FileIO WalBase WalFrame WalIndex WalIter WalHdr WalCkpt WalRecover WalRead WalWrite.

(** ** The frames a call writes *)

(** The log after the dirty pages [L] were written, where [find] gives the frame
    of this transaction that holds a page. *)
Fixpoint put_pages (find : Z -> option Z) (nTruncate : Z) (isCommit : bool) (L : list PgHdr) (es : list entry) : list entry :=
  match L with
  | [] => es
  | p :: L =>
      let isLast := bool_decide (L = []) in
      match (if negb isLast || negb isCommit then find (pg_pgno p) else None) with
      | Some R => put_pages find nTruncate isCommit L (set_data R (pg_data p) es)
      | None =>
          put_pages find nTruncate isCommit L
            (es ++ [MkEntry (pg_pgno p) (if isCommit && isLast then nTruncate else 0) (pg_data p)])
      end
  end.

(** The pages that get a new frame. *)
Fixpoint new_pages (find : Z -> option Z) (isCommit : bool) (L : list PgHdr) : list Z :=
  match L with
  | [] => []
  | p :: L =>
      match (if negb (bool_decide (L = [])) || negb isCommit then find (pg_pgno p) else None) with
      | Some R => new_pages find isCommit L
      | None => pg_pgno p :: new_pages find isCommit L
      end
  end.

Lemma map_pgno_set_data R d es : map en_pgno (set_data R d es) = map en_pgno es.
Proof.
  unfold set_data. apply list_eq. intros i. change (map en_pgno) with (fmap (M := list) en_pgno). rewrite !list_lookup_fmap.
  rewrite list_lookup_alter. case_decide as E; [|done]. subst i. by destruct (es !! _).
Qed.

Lemma put_pages_pgno find nTruncate isCommit L : forall es,
  map en_pgno (put_pages find nTruncate isCommit L es) = map en_pgno es ++ new_pages find isCommit L.
Proof.
  induction L as [|p L IH]; intros es; cbn [put_pages new_pages]; [by rewrite app_nil_r|].
  destruct (if negb _ || _ then _ else _); rewrite IH; [by rewrite map_pgno_set_data|].
  rewrite map_app, <- app_assoc. done.
Qed.

Lemma put_pages_alen find nTruncate isCommit L es :
  alen (put_pages find nTruncate isCommit L es) = alen es + alen (new_pages find isCommit L).
Proof.
  pose proof (f_equal alen (put_pages_pgno find nTruncate isCommit L es)) as H. rewrite alen_app in H.
  unfold alen in *. by rewrite !length_map in H.
Qed.

(** A commit ends with a frame of the last page. *)
Lemma put_pages_last find nTruncate L : forall p es,
  exists es1, put_pages find nTruncate true (L ++ [p]) es = es1 ++ [MkEntry (pg_pgno p) nTruncate (pg_data p)].
Proof.
  induction L as [|q L IH]; intros p es; cbn [app put_pages]; [by exists es|].
  destruct (if negb _ || _ then _ else _); apply IH.
Qed.

Lemma overwritten_kept n shmMap iFirst s s' pg : kept n s s' -> overwritten shmMap iFirst pg s' = overwritten shmMap iFirst pg s.
Proof.
  intros [_ _ [c Hc] Hr]. unfold overwritten. injection Hr as _ _ Ep _ _ El Em. by rewrite Ep, El, Em, Hc.
Qed.

Lemma one_frame_recksum bo host_big iSync szPage p nt off s rc s' :
  walWriteOneFrame bo host_big iSync szPage p nt off s = Some (rc, s') -> w_iReCksum s' = w_iReCksum s.
Proof.
  unfold walWriteOneFrame. destruct (walEncodeFrame _ _ _ _ _ _ _ _) as [[h t]|]; [|done]. cbn [mbind option_bind].
  destruct (walWriteToLog _ t _ _ _) as [[rc1 f1] io1]. destruct (negb _); [intros E; by simplify_eq|].
  destruct (walWriteToLog _ _ _ _ _) as [[rc2 f2] io2]. intros E. by simplify_eq.
Qed.

Section Frames.
Context (bo : byteorder) (host_big : bool).
Context (big : bool) (szPage nCkpt : Z) (salt : list Z).
Context (Hsz : pagesize_ok szPage = true) (Hsalt : length salt = 8%nat /\ Forall is_u8 salt).
Context (n nTruncate : Z) (isCommit : bool).

Let frames_ok := frames_ok big szPage nCkpt salt.

Definition page_entry_ok (p : PgHdr) : Prop := 0 < pg_pgno p < 2 ^ 32 /\ page_ok szPage (pg_data p).

(** Frames before offset [n] are not rewritten. *)
Definition recksum_after (s : Writer) : Prop := w_iReCksum s = 0 \/ n <= walFrameOffset (w_iReCksum s) szPage.

Lemma frames_loop_ok shmMap iFirst find : is_u32 nTruncate -> forall L v s es,
  frames_ok es s -> recksum_after s -> Forall page_entry_ok L ->
  (forall pg, (if iFirst =? 0 then Some None else overwritten shmMap iFirst pg s) = Some (find pg)) ->
  (forall pg R, find pg = Some R -> 1 <= R <= alen es /\ n <= walFrameOffset R szPage) ->
  n <= walFrameOffset (alen es + 1) szPage ->
  fl_iFrame v = alen es -> fl_iOffset v = walFrameOffset (alen es + 1) szPage ->
  exists rc v' s', frames_loop bo host_big shmMap szPage nTruncate iFirst isCommit L v s = Some (rc, v', s') /\ kept n s s' /\
    (rc = SQLITE_OK ->
       let es' := put_pages find nTruncate isCommit L es in
       frames_ok es' s' /\ recksum_after s' /\ fl_iFrame v' = alen es' /\ fl_iOffset v' = walFrameOffset (alen es' + 1) szPage
       /\ fl_append v' = fl_append v ++ new_pages find isCommit L
       /\ (isCommit = true -> L <> [] -> fl_last v' = last L)) /\ io_clean (w_io s) rc (w_io s').
Proof.
  intros Hnt. pose proof (szPage_range szPage Hsz) as [? _].
  induction L as [|p L IH]; intros v s es Hf Hra HL Hfind Hrange Hn Hv Ho.
  { eexists _, _, _. split; [done|]. split_and!; [apply kept_refl, Hf| |done]. intros _. cbn [put_pages new_pages]. rewrite app_nil_r. done. }
  apply Forall_cons in HL as [Hp HL]. cbn [frames_loop put_pages new_pages]. set (isLast := bool_decide (L = [])).
  assert (E : (if negb (iFirst =? 0) && (negb isLast || negb isCommit) then overwritten shmMap iFirst (pg_pgno p) s else Some None)
              = Some (if negb isLast || negb isCommit then find (pg_pgno p) else None)).
  { specialize (Hfind (pg_pgno p)). destruct (iFirst =? 0); cbn [negb andb]; [|by destruct (negb isLast || negb isCommit)].
    injection Hfind as <-. by destruct (_ || _). }
  rewrite E. cbn [mbind option_bind]. destruct (if negb isLast || negb isCommit then find (pg_pgno p) else None) as [R|] eqn:Ef.
  - assert (Ef' : find (pg_pgno p) = Some R) by (by destruct (negb isLast || negb isCommit)).
    destruct (Hrange _ _ Ef') as [HR HnR].
    set (s1 := if _ || _ then w_set_recksum R s else s).
    destruct (os_write _ _ _ _) as [[rc1 f1] io1] eqn:Ew.
    destruct (step_overwrite big szPage nCkpt salt Hsz Hsalt n es R (pg_data p) s rc1 f1 io1 Hf HR ltac:(apply Hp) ltac:(unfold WAL_FRAME_HDRSIZE; lia) Ew) as (K & F & C).
    fold s1 in K, F. destruct (Z.eqb_spec rc1 SQLITE_OK) as [->|Hne]; cbn [negb].
    2:{ eexists _, _, _. split; [done|]. split_and!; done. }
    specialize (F eq_refl).
    destruct (IH v (w_set_file io1 f1 s1) (set_data R (pg_data p) es)) as (rc & v' & s' & E' & K' & F' & C').
    + done.
    + unfold recksum_after, s1. destruct ((w_iReCksum s =? 0) || (R <? w_iReCksum s)); cbn [w_set_file w_set_recksum w_iReCksum]; [by right|exact Hra].
    + done.
    + intros pg. rewrite <- Hfind. destruct (iFirst =? 0); [done|]. by eapply overwritten_kept.
    + intros pg R'. rewrite alen_set_data. apply Hrange.
    + by rewrite alen_set_data.
    + by rewrite alen_set_data.
    + by rewrite alen_set_data.
    + exists rc, v', s'. split; [done|]. split_and!; [by eapply kept_trans| |].
      * intros Hrc. destruct (F' Hrc) as (G1 & G2 & G3 & G4 & G5 & G6). split_and!; try done. intros Hc _.
        destruct L as [|q L]; [|by apply G6]. exfalso. unfold isLast in Ef. rewrite Hc, bool_decide_true in Ef by done. done.
      * intros Hc. destruct (C Hc) as [_ E1]. apply C'. done.
  - set (e := MkEntry (pg_pgno p) (if isCommit && isLast then nTruncate else 0) (pg_data p)).
    assert (He : entry_ok szPage e).
    { destruct Hp as [Hp1 Hp2]. split; [exact Hp1|]. split; [|exact Hp2]. cbn [en_truncate e]. destruct (isCommit && isLast); [done|]. unfold is_u32. lia. }
    rewrite Ho. destruct (step_append bo host_big big szPage nCkpt salt Hsz Hsalt n 0 es e s Hf He Hn) as (rc1 & s1 & E1 & K1 & F1 & C1).
    cbn [e en_pgno en_data en_truncate] in E1. replace (MkPg (pg_pgno p) (pg_data p)) with p in E1 by (by destruct p).
    rewrite E1. cbn [mbind option_bind]. destruct (Z.eqb_spec rc1 SQLITE_OK) as [->|Hne]; cbn [negb].
    2:{ eexists _, _, _. split; [done|]. split_and!; done. }
    specialize (F1 eq_refl). assert (La : alen (es ++ [e]) = alen es + 1) by (by rewrite alen_app).
    pose proof (alen_nonneg es). pose proof (walFrameOffset_mono (alen es + 1) (alen es + 1 + 1) szPage ltac:(lia) ltac:(lia)).
    match goal with |- context [frames_loop _ _ _ _ _ _ _ _ ?x _] => set (v1 := x) end.
    destruct (IH v1 s1 (es ++ [e])) as (rc & v' & s' & E' & K' & F' & C').
    + done.
    + unfold recksum_after in *. by rewrite (one_frame_recksum _ _ _ _ _ _ _ _ _ _ E1).
    + done.
    + intros pg. rewrite <- Hfind. destruct (iFirst =? 0); [done|]. by eapply overwritten_kept.
    + intros pg R' HR'. destruct (Hrange _ _ HR'). lia.
    + rewrite La. lia.
    + cbn [v1 fl_iFrame]. lia.
    + cbn [v1 fl_iOffset]. rewrite La. by rewrite (walFrameOffset_succ (alen es + 1)).
    + exists rc, v', s'. split; [done|]. split_and!; [by eapply kept_trans| |].
      * intros Hrc. destruct (F' Hrc) as (G1 & G2 & G3 & G4 & G5 & G6). split_and!; try done.
        { rewrite G5. cbn [v1 fl_append]. by rewrite <- app_assoc. }
        intros Hc _. destruct L as [|q L]; [|by apply G6]. cbn in E'. simplify_eq. done.
      * intros Hc. destruct (C1 Hc) as [_ E2]. apply C'. done.
Qed.

(** ** Padding, syncs and the size limit *)

Lemma pad_loop_ok iSync e : entry_ok szPage e -> forall fuel off nExtra s es,
  frames_ok es s -> w_iReCksum s = 0 -> off = walFrameOffset (alen es + 1) szPage -> n <= off -> Z.max 0 (iSync - off) < Z.of_nat fuel ->
  exists rc off' (k : nat) s',
    pad_loop bo host_big fuel iSync szPage (en_truncate e) off nExtra (Some (MkPg (en_pgno e) (en_data e))) s = Some (rc, off', nExtra + Z.of_nat k, s') /\
    kept n s s' /\ (rc = SQLITE_OK -> frames_ok (es ++ replicate k e) s' /\ w_iReCksum s' = 0) /\ io_clean (w_io s) rc (w_io s')
    /\ Z.of_nat k <= Z.max 0 (iSync - off).
Proof.
  intros He. pose proof (szPage_range szPage Hsz) as [? _].
  induction fuel as [|fuel IH]; intros off nExtra s es Hf H0 Ho Hn Hfuel; cbn [pad_loop]; [lia|].
  destruct (Z.ltb_spec off iSync) as [Hlt|Hge]; [|exists SQLITE_OK, off, 0%nat, s; rewrite Z.add_0_r, app_nil_r; split_and!; try done; try lia; apply kept_refl, Hf].
  rewrite Ho. rewrite Ho in Hn.
  destruct (step_append bo host_big big szPage nCkpt salt Hsz Hsalt n iSync es e s Hf He Hn) as (rc1 & s1 & E1 & K1 & F1 & C1).
  cbn [mbind option_bind]. rewrite E1. cbn [mbind option_bind]. destruct (Z.eqb_spec rc1 SQLITE_OK) as [->|Hne]; cbn [negb].
  2:{ exists rc1, (walFrameOffset (alen es + 1) szPage), 0%nat, s1. rewrite Z.add_0_r. split_and!; try done. lia. }
  specialize (F1 eq_refl). pose proof (one_frame_recksum _ _ _ _ _ _ _ _ _ _ E1) as Hr1.
  assert (La : alen (es ++ [e]) = alen es + 1) by (by rewrite alen_app).
  pose proof (walFrameOffset_succ (alen es + 1) szPage) as Hsucc.
  destruct (IH (walFrameOffset (alen es + 1) szPage + (szPage + WAL_FRAME_HDRSIZE)) (nExtra + 1) s1 (es ++ [e])) as (rc & off' & k & s' & E & K & F & C & B).
  - done.
  - congruence.
  - by rewrite La, <- Hsucc.
  - unfold WAL_FRAME_HDRSIZE. lia.
  - unfold WAL_FRAME_HDRSIZE. lia.
  - exists rc, off', (S k), s'. replace (nExtra + Z.of_nat (S k)) with (nExtra + 1 + Z.of_nat k) by lia. split; [exact E|]. split_and!; [by eapply kept_trans| | |].
    + intros Hrc. destruct (F Hrc) as [F' ?]. rewrite <- app_assoc in F'. done.
    + intros Hc. destruct (C1 Hc) as [_ E2]. by apply C.
    + unfold WAL_FRAME_HDRSIZE in B. lia.
Qed.

Lemma frames_ok_file es s f io s' : frames_ok es s -> keeps (walFrameOffset (alen es + 1) szPage) (w_wal s) f -> Forall is_u8 f -> io_ok io ->
  w_wal s' = f -> w_io s' = io -> w_hdr s' = w_hdr s -> w_iReCksum s' = w_iReCksum s -> frames_ok es s'.
Proof.
  intros Hf Hk Hb Hio Ef Eio Eh Er. pose proof (szPage_range szPage Hsz) as [? _]. pose proof (alen_nonneg es).
  pose proof (frames_size _ _ _ _ es s Hf) as Hend.
  pose proof (walFrameOffset_nonneg (alen es + 1) szPage ltac:(lia) ltac:(lia)) as Ho.
  destruct Hf as [_ _ Hwf Hlog Hhd Hsize Hraw Hre Hch Hck]. constructor; rewrite ?Ef, ?Eio, ?Eh, ?Er; [done|done|done|done| | | |done| |done].
  - rewrite <- Hhd. apply (keeps_fread _ _ _ _ _ Hk); unfold WAL_HDRSIZE in *; lia.
  - destruct Hk as [_ Hk]. lia.
  - intros i x Hi. apply (raw_frame_keeps _ (w_wal s)); [lia|lia| |by apply Hraw]. eapply keeps_le; [|exact Hk].
    apply walFrameOffset_mono; [|lia]. apply lookup_lt_Some in Hi. unfold alen. lia.
  - unfold valid_frames in *. rewrite Er. apply (frames_at_keeps _ _ _ (w_wal s)); [lia|lia| |done].
    eapply keeps_le; [|exact Hk]. apply walFrameOffset_mono; [|lia]. unfold alen. rewrite length_take. lia.
Qed.

Lemma limit_size_ok m sz io f f' io' : io_ok io -> 0 <= m <= sz -> walLimitSize sz io f = (f', io') ->
  keeps m f f' /\ io_ok io' /\ (io = [] -> io' = []) /\ (Forall is_u8 f -> Forall is_u8 f').
Proof using.
  clear Hsz Hsalt. intros Hio Hm. unfold walLimitSize, os_filesize. destruct (io_next io) as [r io1] eqn:En. destruct (io_next_ok _ _ _ Hio En) as [H1 _].
  assert (Hc : io = [] -> io1 = []) by (intros ->; cbn in En; by simplify_eq).
  destruct r as [|rc junk].
  - change (SQLITE_OK =? SQLITE_OK) with true. cbn [andb]. destruct (alen f >? sz).
    + unfold os_truncate. destruct (io_next io1) as [r io2] eqn:En2. destruct (io_next_ok _ _ _ H1 En2) as [H2 _].
      assert (Hc2 : io1 = [] -> io2 = []) by (intros ->; cbn in En2; by simplify_eq).
      destruct r; intros E; simplify_eq; (split_and!; [|exact H2|intros Hx; exact (Hc2 (Hc Hx))|]).
      * apply keeps_truncate. lia.
      * apply ftruncate_u8.
      * apply keeps_refl.
      * exact id.
    + intros E. simplify_eq. split_and!; try done. apply keeps_refl.
  - destruct ((rc =? SQLITE_OK) && (0 >? sz)) eqn:E0.
    { exfalso. apply andb_true_iff in E0 as [_ E0]. apply Z.gtb_lt in E0. lia. }
    intros E. simplify_eq. split_and!; try done. apply keeps_refl.
Qed.

(** The last page of a commit and its frame. *)
Context (e : entry) (He : entry_ok szPage e).

Lemma pad_and_sync_ok env v s es : (forall sz, we_sector env = Some sz -> 0 < sz) ->
  frames_ok es s -> w_iReCksum s = 0 -> n <= walFrameOffset (alen es + 1) szPage ->
  fl_iOffset v = walFrameOffset (alen es + 1) szPage -> fl_last v = Some (MkPg (en_pgno e) (en_data e)) ->
  exists ret rc (k : nat) s', pad_and_sync bo host_big env szPage (en_truncate e) v s = Some (ret, rc, Z.of_nat k, s') /\ kept n s s' /\
    (ret = true -> rc <> SQLITE_OK) /\ (rc = SQLITE_OK -> frames_ok (es ++ replicate k e) s' /\ w_iReCksum s' = 0) /\
    io_clean (w_io s) rc (w_io s') /\ Z.of_nat k <= default 0 (we_sector env).
Proof.
  intros Hsec Hf H0 Hn Ho Hl. unfold pad_and_sync. rewrite Ho, Hl.
  match goal with |- exists _ _ _ _, (?m ≫= _) = _ /\ _ => set (pad := m) end.
  assert (Hpad : exists ret rc bSync (k : nat) s', pad = Some (ret, rc, bSync, Z.of_nat k, s') /\ kept n s s' /\
     (ret = true -> rc <> SQLITE_OK) /\ (ret = false -> rc = SQLITE_OK) /\ (rc = SQLITE_OK -> frames_ok (es ++ replicate k e) s' /\ w_iReCksum s' = 0) /\
     io_clean (w_io s) rc (w_io s') /\ Z.of_nat k <= default 0 (we_sector env)).
  { unfold pad. destruct (we_sector env) as [sz|].
    - cbv zeta. set (iSync := _ / _ * _).
      destruct (pad_loop_ok iSync e He (S (Z.to_nat (iSync - walFrameOffset (alen es + 1) szPage))) (walFrameOffset (alen es + 1) szPage) 0 s es)
        as (rc & off' & k & s' & -> & K & F & C & B); try done; try lia.
      assert (Hk : Z.of_nat k <= sz).
      { etrans; [exact B|]. pose proof (Hsec sz eq_refl) as Hp. unfold iSync.
        pose proof (Z.mul_div_le (walFrameOffset (alen es + 1) szPage + sz - 1) sz Hp). lia. }
      cbn [mbind option_bind]. eexists _, _, _, k, s'. split; [done|]. destruct (Z.eqb_spec rc SQLITE_OK); cbn [negb]; split_and!; done.
    - eexists _, _, _, 0%nat, s. split; [done|]. cbn [replicate]. rewrite app_nil_r. split_and!; try done. apply kept_refl, Hf. }
  clearbody pad. destruct Hpad as (ret & rc & bSync & k & s1 & -> & K & Hret & Hret' & F & C & B). cbn [mbind option_bind].
  destruct ret; [eexists _, _, _, _; split_and!; done|]. specialize (Hret' eq_refl). subst rc. destruct (F eq_refl) as [F1 R1].
  destruct bSync; [|eexists _, _, _, _; split_and!; done].
  destruct (os_sync (w_io s1)) as [rc2 io2] eqn:Es. apply os_sync_spec in Es as [Hio2 C2]; [|apply F1].
  eexists _, _, k, _. split; [done|]. split_and!; [|done| | |done].
  - eapply kept_trans; [exact K|]. split; cbn [w_set_file w_wal w_io w_hdr]; [apply keeps_refl|done| |done].
    exists (aFrameCksum (w_hdr s1)). by destruct (w_hdr s1).
  - intros _. split; [|done]. eapply (frames_ok_file _ s1); [done|apply keeps_refl|apply F1|exact Hio2|done..].
  - intros Hc. destruct (C Hc) as [_ E1]. by apply C2.
Qed.

Lemma finish_frames_ok env al junk v s es : (forall sz, we_sector env = Some sz -> 0 < sz) ->
  Forall is_u8 junk -> (8 <= length junk)%nat -> w_szPage s = szPage -> 0 <= n ->
  frames_ok es s -> recksum_after s -> n <= walFrameOffset (alen es + 1) szPage ->
  fl_iFrame v = alen es -> fl_iOffset v = walFrameOffset (alen es + 1) szPage ->
  (isCommit = true -> fl_last v = Some (MkPg (en_pgno e) (en_data e))) -> en_truncate e = nTruncate ->
  exists ret rc (k : nat) s', finish_frames bo host_big env al junk szPage nTruncate isCommit v s = Some (ret, rc, Z.of_nat k, s') /\ kept n s s' /\
    (ret = true -> rc <> SQLITE_OK) /\
    (rc = SQLITE_OK -> frames_ok (es ++ replicate k e) s' /\ recksum_after s' /\ (isCommit = true -> w_iReCksum s' = 0) /\ (isCommit = false -> k = 0%nat)) /\
    (never_fails al -> io_clean (w_io s) rc (w_io s')) /\ Z.of_nat k <= Z.max 0 (default 0 (we_sector env)).
Proof.
  intros Hsec Hju Hjl Hws Hn0 Hf Hra Hn Hv Ho Hl Het. pose proof (alen_nonneg es) as Hnn. pose proof (szPage_range szPage Hsz) as [? _].
  unfold finish_frames. destruct isCommit; cbn [andb].
  2:{ cbn [mbind option_bind negb]. change (SQLITE_OK =? SQLITE_OK) with true. cbn [negb mbind option_bind].
      eexists _, _, 0%nat, s. split; [done|]. cbn [replicate]. rewrite app_nil_r. split_and!; try done; [apply kept_refl, Hf|lia]. }
  assert (H1 : exists rc s', (if negb (w_iReCksum s =? 0) then walRewriteChecksums bo host_big al junk (fl_iFrame v) s else Some (SQLITE_OK, s)) = Some (rc, s') /\
    kept n s s' /\ (rc = SQLITE_OK -> frames_ok es s' /\ w_iReCksum s' = 0) /\ (never_fails al -> io_clean (w_io s) rc (w_io s'))).
  { destruct (Z.eqb_spec (w_iReCksum s) 0) as [E0|E0]; cbn [negb].
    - eexists _, _. split_and!; try done. apply kept_refl, Hf.
    - rewrite Hv. destruct Hra as [?|Hra]; [done|].
      by apply (rewrite_checksums_ok bo host_big big szPage nCkpt salt Hsz Hsalt). }
  destruct H1 as (rc1 & s1 & -> & K1 & F1 & C1). cbn [mbind option_bind].
  destruct (Z.eqb_spec rc1 SQLITE_OK) as [->|Hne]; cbn [negb].
  2:{ eexists _, _, 0%nat, s1. split_and!; try done. lia. }
  destruct (F1 eq_refl) as [Hf1 Hr1].
  assert (H2 : exists ret rc (k : nat) s', (if we_sync env then pad_and_sync bo host_big env szPage nTruncate v s1 else Some (false, SQLITE_OK, 0, s1)) = Some (ret, rc, Z.of_nat k, s') /\
    kept n s1 s' /\ (ret = true -> rc <> SQLITE_OK) /\ (rc = SQLITE_OK -> frames_ok (es ++ replicate k e) s' /\ w_iReCksum s' = 0) /\ io_clean (w_io s1) rc (w_io s')
    /\ Z.of_nat k <= Z.max 0 (default 0 (we_sector env))).
  { destruct (we_sync env).
    - rewrite <- Het. destruct (pad_and_sync_ok env v s1 es) as (ret & rc & k & s' & ? & ? & ? & ? & ? & ?); try done; [by apply Hl|].
      exists ret, rc, k, s'. split_and!; try done. lia.
    - eexists _, _, 0%nat, s1. split; [done|]. cbn [replicate]. rewrite app_nil_r. split_and!; try done; [apply kept_refl, Hf1|lia]. }
  destruct H2 as (ret & rc2 & k & s2 & -> & K2 & Hret & F2 & C2 & B2). cbn [mbind option_bind].
  assert (K : kept n s s2) by (by eapply kept_trans).
  assert (C : never_fails al -> io_clean (w_io s) rc2 (w_io s2)).
  { intros Hal Hc. destruct (C1 Hal Hc) as [_ E1]. by apply C2. }
  destruct ret; [eexists _, _, _, _; split_and!; try done; intros Hx; by specialize (Hret eq_refl)|].
  assert (Hres : rc2 = SQLITE_OK -> frames_ok (es ++ replicate k e) s2 /\ recksum_after s2 /\ w_iReCksum s2 = 0).
  { intros Hrc. destruct (F2 Hrc) as [? ?]. split_and!; try done. by left. }
  destruct (w_truncateOnCommit s2 && (0 <=? we_mxWalSize env)) eqn:Et.
  2:{ eexists _, _, _, _. split_and!; try done. intros Hrc. destruct (Hres Hrc) as (? & ? & ?). split_and!; done. }
  destruct (walLimitSize _ _ _) as [f io] eqn:El. set (m := walFrameOffset (alen (es ++ replicate k e) + 1) szPage).
  assert (Lm : fl_iFrame v + Z.of_nat k + 1 = alen (es ++ replicate k e) + 1).
  { rewrite Hv, alen_app. unfold alen at 3. rewrite length_replicate. lia. }
  assert (Hm : walFrameOffset (alen es + 1) szPage <= m).
  { apply walFrameOffset_mono; [|lia]. rewrite <- Lm. lia. }
  assert (Hmb : 0 <= m <= Z.max (we_mxWalSize env) (walFrameOffset (fl_iFrame v + Z.of_nat k + 1) szPage)) by (rewrite Lm; fold m; lia).
  destruct (limit_size_ok m _ _ _ _ _ (kp_io _ _ _ K2) Hmb El) as (Kl & Hio & Hcl & Hbl).
  eexists _, _, k, _. split; [done|]. split_and!; [|done| | |done].
  - eapply kept_trans; [exact K|]. split; cbn; [eapply keeps_le; [|exact Kl]; lia|done| |done].
    exists (aFrameCksum (w_hdr s2)). by destruct (w_hdr s2).
  - intros Hrc. destruct (Hres Hrc) as (G1 & G2 & G3). split_and!; [|by left|done|done].
    eapply (frames_ok_file _ s2 f io); [done|exact Kl|apply Hbl, G1|done..].
  - intros Hal Hc. destruct (C Hal Hc) as [-> E2]. split; [done|]. cbn. by apply Hcl.
Qed.
End Frames.

(** ** The content of the log *)

(** The content of page [p] after the dirty pages were written over [acc]. *)
Fixpoint write_page (p : Z) (L : list PgHdr) (acc : list Z) : list Z :=
  match L with [] => acc | q :: L => write_page p L (if pg_pgno q =? p then pg_data q else acc) end.

Lemma log_page_app p es es' acc : log_page p (es ++ es') acc = log_page p es' (log_page p es acc).
Proof. revert acc. induction es as [|e es IH]; intros acc; [done|]. apply IH. Qed.

Lemma log_page_absent p es acc : Forall (fun e => en_pgno e <> p) es -> log_page p es acc = acc.
Proof.
  intros H. revert acc. induction H as [|e es He _ IH]; intros acc; [done|]. cbn [log_page].
  apply Z.eqb_neq in He. by rewrite He.
Qed.

Lemma log_page_set_data R d es pg p acc : 1 <= R -> aget (map en_pgno es) (R - 1) = Some pg ->
  (forall f, R < f <= alen es -> aget (map en_pgno es) (f - 1) <> Some pg) ->
  log_page p (set_data R d es) acc = if pg =? p then d else log_page p es acc.
Proof.
  intros HR Hg Hlast. assert (He : exists e, es !! Z.to_nat (R - 1) = Some e /\ en_pgno e = pg).
  { rewrite aget_map in Hg. unfold aget in Hg. destruct (0 <=? R - 1); [|done]. destruct (es !! _) as [e|]; [|done]. cbn in Hg. simplify_eq. eauto. }
  destruct He as (e & He & Hpg). pose proof (list_elem_of_split_length es _ e He) as (a & b & -> & Hlen).
  unfold set_data. rewrite alter_app_r_alt, <- Hlen, Nat.sub_diag by lia. cbn [alter list_alter].
  rewrite !log_page_app. cbn [log_page en_pgno en_data]. rewrite Hpg. destruct (Z.eqb_spec pg p) as [<-|Hne]; [|done].
  rewrite !(log_page_absent pg b); [done|..]; apply Forall_forall; intros x Hx Hxp; apply list_elem_of_lookup in Hx as [i Hi].
  all: apply (Hlast (R + 1 + Z.of_nat i)); [apply lookup_lt_Some in Hi; rewrite alen_app; unfold alen; cbn [length]; lia|].
  all: rewrite aget_map; unfold aget; destruct (Z.leb_spec 0 (R + 1 + Z.of_nat i - 1)); [|lia].
  all: replace (Z.to_nat (R + 1 + Z.of_nat i - 1)) with (length a + S i)%nat by lia; rewrite lookup_app_r by lia.
  all: replace (length a + S i - length a)%nat with (S i) by lia; assert ((e :: b) !! S i = Some x) as -> by exact Hi; cbn; by f_equal.
Qed.

Lemma log_page_repeat p es e (k : nat) acc : log_page p (es ++ [e] ++ replicate k e) acc = log_page p (es ++ [e]) acc.
Proof.
  rewrite app_assoc, log_page_app. generalize (log_page p (es ++ [e]) acc) as x, (log_page_snoc p es e acc). intros x Hx. revert x Hx.
  induction k as [|k IH]; intros x Hx; cbn [replicate log_page]; [done|].
  destruct (Z.eqb_spec (en_pgno e) p) as [|Hne]; [subst x|]; by apply IH.
Qed.

(** A frame of the transaction: the last that holds the page. *)
Definition finds (ps : list Z) (nc : Z) (find : Z -> option Z) : Prop :=
  forall pg R, find pg = Some R -> nc < R <= alen ps /\ aget ps (R - 1) = Some pg /\
    forall f, R < f <= alen ps -> aget ps (f - 1) <> Some pg.

Lemma if_Some {A} (b : bool) (x : option A) r : (if b then x else None) = Some r -> x = Some r.
Proof. by destruct b. Qed.

Section Content.
Context (ps : list Z) (nc : Z) (find : Z -> option Z) (Hfind : finds ps nc find) (Hnc : 0 <= nc <= alen ps).
Context (nTruncate : Z) (isCommit : bool).

Lemma put_pages_page p acc : forall L es tl, map en_pgno es = ps ++ tl -> Forall (fun q => find q = None) tl ->
  log_page p (put_pages find nTruncate isCommit L es) acc = write_page p L (log_page p es acc).
Proof.
  induction L as [|q L IH]; intros es tl Hes Htl; [done|]. cbn [put_pages write_page].
  destruct (if negb (bool_decide (L = [])) || negb isCommit then find (pg_pgno q) else None) as [R|] eqn:E.
  - pose proof (if_Some _ _ _ E) as Ef.
    destruct (Hfind _ _ Ef) as (HR & Hg & Hlast). rewrite (IH _ tl); [|by rewrite map_pgno_set_data|done]. f_equal.
    apply log_page_set_data; [lia| |].
    + rewrite Hes, aget_app_l by lia. done.
    + intros f Hf. rewrite Hes. destruct (decide (f <= alen ps)); [rewrite aget_app_l by lia; apply Hlast; lia|].
      rewrite aget_app_r by lia. intros Hx. apply (aget_Forall _ _ _ _ Htl) in Hx. congruence.
  - destruct (decide (L = [])) as [->|HL].
    + cbn [put_pages write_page]. apply log_page_snoc.
    + rewrite bool_decide_false in E |- * by done. cbn [negb orb] in E.
      rewrite (IH _ (tl ++ [pg_pgno q])).
      * f_equal. apply log_page_snoc.
      * by rewrite map_app, Hes, <- app_assoc.
      * apply Forall_app_2; [done|]. by apply Forall_singleton.
Qed.

Lemma put_pages_prefix : forall L es, alen ps <= alen es ->
  take (Z.to_nat nc) (put_pages find nTruncate isCommit L es) = take (Z.to_nat nc) es.
Proof.
  induction L as [|q L IH]; intros es Hes; [done|]. cbn [put_pages].
  destruct (if negb (bool_decide (L = [])) || negb isCommit then find (pg_pgno q) else None) as [R|] eqn:E.
  - pose proof (if_Some _ _ _ E) as Ef. destruct (Hfind _ _ Ef) as (HR & _).
    rewrite IH by by rewrite alen_set_data. apply take_set_data. lia.
  - rewrite IH by (rewrite alen_app; pose proof (alen_nonneg [MkEntry (pg_pgno q) (if isCommit && bool_decide (L = []) then nTruncate else 0) (pg_data q)]); lia).
    apply take_app_le. unfold alen in *. lia.
Qed.

Lemma set_data_truncate R d es : nc < R -> Forall (fun e => en_truncate e = 0) (drop (Z.to_nat nc) es) ->
  Forall (fun e => en_truncate e = 0) (drop (Z.to_nat nc) (set_data R d es)).
Proof.
  intros HR H. apply Forall_lookup. intros i x. rewrite lookup_drop. unfold set_data. rewrite list_lookup_alter.
  rewrite Forall_lookup in H. case_decide as Hi.
  - rewrite Hi. destruct (es !! (Z.to_nat nc + i)%nat) as [e|] eqn:Ee; [|done]. cbn. intros Hx. simplify_eq. cbn. apply (H i). by rewrite lookup_drop.
  - intros Hx. apply (H i). by rewrite lookup_drop.
Qed.

Lemma put_pages_pending : isCommit = false -> forall L es, alen ps <= alen es ->
  Forall (fun e => en_truncate e = 0) (drop (Z.to_nat nc) es) ->
  Forall (fun e => en_truncate e = 0) (drop (Z.to_nat nc) (put_pages find nTruncate isCommit L es)).
Proof.
  intros Hc. induction L as [|q L IH]; intros es Hes H; [done|]. cbn [put_pages].
  destruct (if negb (bool_decide (L = [])) || negb isCommit then find (pg_pgno q) else None) as [R|] eqn:E.
  - pose proof (if_Some _ _ _ E) as Ef. destruct (Hfind _ _ Ef) as (HR & _).
    apply IH; [by rewrite alen_set_data|]. apply set_data_truncate; [lia|done].
  - apply IH; [rewrite alen_app; unfold alen in *; cbn [length]; lia|]. rewrite drop_app_le by (unfold alen in *; lia).
    apply Forall_app_2; [done|]. apply Forall_singleton. cbn. by rewrite Hc.
Qed.
End Content.

(** ** The index of the log *)

Lemma index_append_any shmMap w ps mx iFrame pg : index_ok w ps -> 0 <= mx <= alen ps ->
  iFrame = alen ps + 1 \/ iFrame = mx + 1 -> iFrame < 2 ^ 32 - 4096 -> 0 < pg < 2 ^ 32 ->
  (exists w', walIndexAppend shmMap w mx iFrame pg = Some (SQLITE_OK, w') /\ index_ok w' (take (Z.to_nat (iFrame - 1)) ps ++ [pg])) \/
  (exists rc, rc <> SQLITE_OK /\ shmMap (walFramePage iFrame) = rc /\ walIndexAppend shmMap w mx iFrame pg = Some (rc, w)).
Proof.
  intros Hw Hmx Hi Hmax Hpg. destruct (w !! walFramePage iFrame) eqn:E.
  { left. apply index_append; try done. congruence. }
  destruct (Z.eqb_spec (shmMap (walFramePage iFrame)) SQLITE_OK) as [Hm|Hm]; [left; by apply index_append|right].
  exists (shmMap (walFramePage iFrame)). split_and!; try done. unfold walIndexAppend, walHashGet, walIndexPage. rewrite E.
  apply Z.eqb_neq in Hm. by rewrite Hm.
Qed.

Lemma index_frames_any shmMap mx pages : forall w ps stale iFrame,
  index_ok w (ps ++ stale) -> iFrame = alen ps -> 0 <= mx <= alen ps -> (stale <> [] -> iFrame = mx) ->
  Forall (fun pg => 0 < pg < 2 ^ 32) pages -> alen ps + alen pages < 2 ^ 32 - 4096 ->
  exists rc w' stale', index_frames shmMap w mx iFrame pages = Some (rc, w') /\ index_ok w' (ps ++ stale') /\
    (rc = SQLITE_OK -> exists stale2, index_ok w' ((ps ++ pages) ++ stale2)) /\ ((forall i, shmMap i = SQLITE_OK) -> rc = SQLITE_OK).
Proof.
  induction pages as [|pg pages IH]; intros w ps stale iFrame Hw -> Hmx Hst HF Hlen.
  { exists SQLITE_OK, w, stale. split_and!; try done. intros _. exists stale. by rewrite app_nil_r. }
  apply Forall_cons in HF as [Hpg HF]. pose proof (alen_nonneg pages). pose proof (alen_nonneg ps). pose proof (alen_nonneg stale).
  change (pg :: pages) with ([pg] ++ pages) in Hlen |- *. rewrite alen_app in Hlen. change (alen [pg]) with 1 in Hlen. cbn [app index_frames].
  destruct (index_append_any shmMap w (ps ++ stale) mx (alen ps + 1) pg) as [(w1 & -> & Hw1)|(rc & Hrc & Hm & ->)]; try done.
  - rewrite alen_app. lia.
  - destruct stale as [|x stale]; [left; by rewrite app_nil_r|right]. f_equal. by apply Hst.
  - lia.
  - cbn [mbind option_bind]. change (SQLITE_OK =? SQLITE_OK) with true. cbv iota.
    rewrite Z.add_simpl_r, take_app_le, take_ge in Hw1 by (unfold alen; lia).
    destruct (IH w1 (ps ++ [pg]) [] (alen ps + 1)) as (rc & w' & st' & -> & Hw' & Hok & Hall); try done.
    + by rewrite app_nil_r.
    + by rewrite alen_app.
    + rewrite alen_app. change (alen [pg]) with 1. lia.
    + rewrite alen_app. change (alen [pg]) with 1. lia.
    + exists rc, w', ([pg] ++ st'). rewrite <- app_assoc in Hw'. split_and!; try done.
      intros Hrc. destruct (Hok Hrc) as [st2 Hst2]. exists st2. by rewrite <- (app_assoc ps [pg] pages) in Hst2.
  - cbn [mbind option_bind]. apply Z.eqb_neq in Hrc as E. rewrite E. exists rc, w, stale. split_and!; try done. intros Hall. by rewrite Hall in Hm.
Qed.

(** ** Publication *)

Lemma framed_hdr_wf isCommit szPage iFrame nTruncate h : hdr_wf h -> is_u32 iFrame -> is_u32 nTruncate ->
  hdr_wf (framed_hdr isCommit szPage iFrame nTruncate h).
Proof.
  intros [] Hi Hn. constructor; cbn; try done.
  - destruct isCommit; [apply u32_range|done].
  - apply Z.mod_pos_bound. done.
  - by destruct isCommit.
Qed.

(** The fields that the publication does not touch. *)
Definition published_rest (s : Writer) :=
  (w_io s, w_wal s, w_info s, w_szPage s, w_nCkpt s, w_iReCksum s, w_readLock s, w_minFrame s).

Lemma publish_frames_ok host_big shmMap szPage nTruncate isCommit restarted append ps stale s :
  index_ok (w_pages s) (ps ++ stale) -> mxFrame (w_hdr s) = alen ps -> hdr_wf (w_hdr s) -> is_u32 nTruncate ->
  Forall (fun pg => 0 < pg < 2 ^ 32) append -> alen ps + alen append < 2 ^ 32 - 4096 ->
  exists rc pn s', publish_frames host_big shmMap szPage nTruncate isCommit restarted append SQLITE_OK s = Some (rc, pn, s') /\
    published_rest s' = published_rest s /\
    (rc <> SQLITE_OK -> w_shm s' = w_shm s /\ w_hdr s' = w_hdr s /\ exists stale', index_ok (w_pages s') (ps ++ stale')) /\
    (rc = SQLITE_OK -> (exists stale', index_ok (w_pages s') ((ps ++ append) ++ stale')) /\ hdr_wf (w_hdr s') /\
       mxFrame (w_hdr s') = alen ps + alen append /\ hdr_szPage (w_hdr s') = size_field szPage /\
       bigEndCksum (w_hdr s') = bigEndCksum (w_hdr s) /\ aSalt (w_hdr s') = aSalt (w_hdr s) /\ aFrameCksum (w_hdr s') = aFrameCksum (w_hdr s) /\
       (isCommit = true -> w_shm s' = w_hdr s' /\ published host_big (w_hdr s') /\ nPage (w_hdr s') = nTruncate
          /\ iChange (w_hdr s') = u32 (iChange (w_hdr s) + 1) /\ w_iCallback s' = alen ps + alen append
          /\ pn = Some (if restarted then alen ps + alen append else alen append)) /\
       (isCommit = false -> w_shm s' = w_shm s /\ nPage (w_hdr s') = nPage (w_hdr s) /\ pn = Some 0)) /\
    ((forall i, shmMap i = SQLITE_OK) -> rc = SQLITE_OK).
Proof.
  intros Hw Hmx Hwf Hnt HF Hlen. unfold publish_frames. change (SQLITE_OK =? SQLITE_OK) with true. cbn [negb].
  pose proof (alen_nonneg ps). pose proof (alen_nonneg append).
  destruct (index_frames_any shmMap (mxFrame (w_hdr s)) append (w_pages s) ps stale (mxFrame (w_hdr s))) as (rc & w' & stale' & -> & Hw' & Hok & Hall);
    try done; try lia.
  cbn [mbind option_bind w_set_pages w_hdr]. destruct (Z.eqb_spec rc SQLITE_OK) as [->|Hne]; cbn [negb].
  2:{ eexists _, _, _. split; [done|]. split_and!; try done. intros _. cbn. split_and!; try done. by eexists. }
  rewrite Hmx. set (h := framed_hdr isCommit szPage (alen ps + alen append) nTruncate (w_hdr s)).
  assert (Hh : hdr_wf h) by (apply framed_hdr_wf; [done|unfold is_u32; lia|done]). destruct isCommit.
  - destruct (write_publishes host_big h Hh) as (h' & -> & Hpub & Hsame). cbn [mbind option_bind].
    pose proof Hsame as (Su & Sc & Sb & Ss & Sm & Sn & Sf & Sa).
    eexists _, _, _. split; [done|]. split_and!; try done. intros _.
    cbn [w_pages w_hdr w_shm w_iCallback]. rewrite Sm, Ss, Sb, Sa, Sf, Sn, Sc. split_and!; try done.
    + by apply Hok.
    + apply Hpub.
    + intros _. split_and!; try done. rewrite Z.add_simpl_l. done.
  - eexists _, _, _. split; [done|]. split_and!; try done. intros _. cbn. split_and!; try done. by apply Hok.
Qed.

(** The frame that [walFrames] overwrites for a page. *)
Definition txn_find (iFirst : Z) (ps : list Z) (minFrame pg : Z) : option Z :=
  if iFirst =? 0 then None
  else let R := latest_frame (length ps) ps minFrame pg in if iFirst <=? R then Some R else None.

Lemma latest_frame_app n ps stale minFrame pg : (n <= length ps)%nat ->
  latest_frame n (ps ++ stale) minFrame pg = latest_frame n ps minFrame pg.
Proof.
  induction n as [|n IH]; intros Hn; [done|]. cbn [latest_frame]. rewrite IH by lia. rewrite aget_app_l by (unfold alen; lia). done.
Qed.

Lemma txn_finds iFirst ps minFrame nc : 0 <= nc -> iFirst = 0 \/ iFirst = nc + 1 -> finds ps nc (txn_find iFirst ps minFrame).
Proof.
  intros Hnc HiF pg R. unfold txn_find. destruct (Z.eqb_spec iFirst 0); [done|].
  destruct (Z.leb_spec iFirst (latest_frame (length ps) ps minFrame pg)) as [Hle|]; [|done]. intros [= <-].
  destruct (latest_frame_spec (length ps) ps minFrame pg) as [[E _]|(R & E & H1 & H2 & H3 & H4)]; [lia|].
  rewrite E in *. split_and!; [lia|unfold alen; lia|done|]. intros f Hf. apply H4. unfold alen in Hf. lia.
Qed.

Lemma overwritten_find shmMap iFirst es stale pg s : iFirst <> 0 ->
  index_ok (w_pages s) (map en_pgno es ++ stale) -> mxFrame (w_hdr s) = alen es -> w_readLock s <> 0 -> 0 <= w_minFrame s < 2 ^ 32 ->
  overwritten shmMap iFirst pg s = Some (txn_find iFirst (map en_pgno es) (w_minFrame s) pg).
Proof.
  intros HiF Hw Hmx Hrl Hmin. unfold overwritten, txn_find. apply Z.eqb_neq in Hrl, HiF. rewrite Hrl, HiF.
  assert (Hl : alen es = alen (map en_pgno es)) by (unfold alen; by rewrite length_map).
  pose proof (alen_nonneg es). pose proof (alen_nonneg stale).
  rewrite (find_frame shmMap _ (map en_pgno es ++ stale)); [|done|rewrite alen_app; lia|done].
  cbn [mbind option_bind]. change (SQLITE_OK =? SQLITE_OK) with true. cbn [andb].
  rewrite Hmx, Hl. unfold alen. rewrite Nat2Z.id, latest_frame_app by lia. done.
Qed.

Lemma frames_ok_hdr big szPage nCkpt salt es s s' : frames_ok big szPage nCkpt salt es s ->
  w_wal s' = w_wal s -> w_io s' = w_io s -> w_iReCksum s' = w_iReCksum s -> hdr_wf (w_hdr s') ->
  bigEndCksum (w_hdr s') = bigEndCksum (w_hdr s) -> aSalt (w_hdr s') = aSalt (w_hdr s) -> aFrameCksum (w_hdr s') = aFrameCksum (w_hdr s) ->
  frames_ok big szPage nCkpt salt es s'.
Proof.
  intros [] Ew Ei Er Hwf Eb Es Ef. constructor; unfold valid_frames in *; rewrite ?Ew, ?Ei, ?Er, ?Eb, ?Es, ?Ef; done.
Qed.

(** What is asked of a call of [walFrames]. *)
Record call_ok (env : WriteEnv) (junk : list Z) (szPage : Z) (L : list PgHdr) (nTruncate : Z) (isCommit : bool) (es : list entry) : Prop := {
  cl_sector : forall sz, we_sector env = Some sz -> 0 < sz;
  cl_junk : Forall is_u8 junk /\ (8 <= length junk)%nat;
  cl_pages : L <> [] /\ Forall (page_entry_ok szPage) L;
  cl_truncate : is_u32 nTruncate /\ (isCommit = true <-> nTruncate <> 0);
  cl_room : alen es + alen L + Z.max 0 (default 0 (we_sector env)) < 2 ^ 32 - 4096
}.

Lemma new_pages_ok find isCommit szPage L : Forall (page_entry_ok szPage) L ->
  Forall (fun pg => 0 < pg < 2 ^ 32) (new_pages find isCommit L) /\ alen (new_pages find isCommit L) <= alen L.
Proof.
  induction 1 as [|p L [Hp _] HL [IH1 IH2]]; [done|]. cbn [new_pages]. unfold alen in *.
  destruct (if _ || _ then _ else _); cbn [length]; [|split; [constructor; done|lia]]. split; [done|lia].
Qed.

(** The frames after the call: the dirty pages, and copies of the last one up to
    the sector boundary. *)
Definition framed (iFirst minFrame nTruncate : Z) (isCommit : bool) (L : list PgHdr) (k : nat) (es : list entry) : list entry :=
  put_pages (txn_find iFirst (map en_pgno es) minFrame) nTruncate isCommit L es
  ++ match last L with Some p => replicate k (MkEntry (pg_pgno p) nTruncate (pg_data p)) | None => [] end.

Lemma framed_pgno iFirst minFrame nTruncate isCommit L k es p : last L = Some p ->
  map en_pgno (framed iFirst minFrame nTruncate isCommit L k es)
  = map en_pgno es ++ new_pages (txn_find iFirst (map en_pgno es) minFrame) isCommit L ++ replicate k (pg_pgno p).
Proof.
  intros Hl. unfold framed. rewrite Hl, map_app, put_pages_pgno, <- app_assoc. do 2 f_equal.
  change (map en_pgno) with (fmap (M := list) en_pgno). by rewrite fmap_replicate.
Qed.

(** The state after a call that succeeded, with the frames [es']. *)
Record logged (host_big big : bool) (szPage nCkpt : Z) (salt : list Z) (nTruncate : Z) (isCommit restarted : bool) (es es' : list entry)
    (pn : option Z) (s s' : Writer) : Prop := {
  lg_frames : frames_ok big szPage nCkpt salt es' s';
  lg_mx : mxFrame (w_hdr s') = alen es';
  lg_index : exists stale, index_ok (w_pages s') (map en_pgno es' ++ stale);
  lg_size : hdr_szPage (w_hdr s') = size_field szPage;
  lg_commit : isCommit = true -> w_iReCksum s' = 0 /\ w_shm s' = w_hdr s' /\ published host_big (w_hdr s') /\ nPage (w_hdr s') = nTruncate
                /\ w_iCallback s' = alen es' /\ pn = Some (if restarted then alen es' else alen es' - alen es);
  lg_spill : isCommit = false -> w_shm s' = w_shm s /\ nPage (w_hdr s') = nPage (w_hdr s) /\ pn = Some 0;
  lg_rest : (w_info s', w_szPage s', w_nCkpt s', w_readLock s', w_minFrame s')
          = (w_info s, w_szPage s, w_nCkpt s, w_readLock s, w_minFrame s)
}.

Section Body.
Context (bo : byteorder) (host_big : bool) (shmMap : Z -> Z).
Context (big : bool) (szPage nCkpt : Z) (salt : list Z).
Context (Hsz : pagesize_ok szPage = true) (Hsalt : length salt = 8%nat /\ Forall is_u8 salt).

Lemma log_frames_ok env al junk L nTruncate isCommit iFirst restarted nc es stale s :
  call_ok env junk szPage L nTruncate isCommit es -> frames_ok big szPage nCkpt salt es s -> mxFrame (w_hdr s) = alen es ->
  index_ok (w_pages s) (map en_pgno es ++ stale) -> w_readLock s <> 0 -> 0 <= w_minFrame s < 2 ^ 32 -> w_szPage s = szPage ->
  0 <= nc <= alen es -> (iFirst = 0 \/ iFirst = nc + 1) -> (w_iReCksum s = 0 \/ nc < w_iReCksum s) ->
  exists rc pn s', log_frames bo host_big shmMap env al junk szPage L nTruncate isCommit iFirst restarted s = Some (rc, pn, s') /\
    keeps (walFrameOffset (nc + 1) szPage) (w_wal s) (w_wal s') /\
    (rc <> SQLITE_OK -> w_shm s' = w_shm s /\ (exists c, w_hdr s' = set_aFrameCksum c (w_hdr s)) /\ exists stale', index_ok (w_pages s') (map en_pgno es ++ stale')) /\
    (rc = SQLITE_OK -> exists k, (isCommit = false -> k = 0%nat) /\
       logged host_big big szPage nCkpt salt nTruncate isCommit restarted es (framed iFirst (w_minFrame s) nTruncate isCommit L k es) pn s s'
       /\ (w_iReCksum s' = 0 \/ nc < w_iReCksum s')) /\
    ((forall i, shmMap i = SQLITE_OK) -> never_fails al -> w_io s = [] -> rc = SQLITE_OK).
Proof.
  intros [Hsec [Hju Hjl] [HL HF] [Hnt Hcm] Hroom] Hf Hmx Hw Hrl Hmin Hws Hnc HiF Hre.
  pose proof (szPage_range szPage Hsz) as [Hszr _]. set (n := walFrameOffset (nc + 1) szPage).
  assert (Hn0 : 0 <= n) by (pose proof (walFrameOffset_nonneg (nc + 1) szPage ltac:(lia) ltac:(lia)); unfold WAL_HDRSIZE in *; lia).
  set (find := txn_find iFirst (map en_pgno es) (w_minFrame s)).
  assert (Hfs : finds (map en_pgno es) nc find) by (apply txn_finds; [lia|done]).
  assert (Hra : forall x, w_iReCksum x = 0 \/ nc < w_iReCksum x -> recksum_after szPage n x).
  { intros x [Hx|Hx]; [by left|right]. apply walFrameOffset_mono; lia. }
  destruct (last L) as [p|] eqn:Hlast; [|by apply last_None in Hlast].
  set (e := MkEntry (pg_pgno p) nTruncate (pg_data p)).
  assert (Hp : page_entry_ok szPage p).
  { rewrite Forall_forall in HF. apply HF. by apply last_Some_elem_of. }
  assert (He : entry_ok szPage e) by (destruct Hp as [Hp1 Hp2]; split; [exact Hp1|split; [exact Hnt|exact Hp2]]).
  unfold log_frames. rewrite Hmx.
  destruct (frames_loop_ok bo host_big big szPage nCkpt salt Hsz Hsalt n nTruncate isCommit shmMap iFirst find Hnt L
    (MkLoop (alen es) (walFrameOffset (alen es + 1) szPage) None []) s es Hf) as (rc1 & v & s1 & -> & K1 & F1 & C1).
  { by apply Hra. } { done. }
  { intros pg. destruct (Z.eqb_spec iFirst 0) as [E|E]; [unfold find, txn_find; by rewrite E|]. by apply (overwritten_find _ _ _ stale). }
  { intros pg R HR. destruct (Hfs _ _ HR) as [HR' _]. unfold alen in HR'. rewrite length_map in HR'. split; [unfold alen; lia|].
    apply walFrameOffset_mono; lia. }
  { apply walFrameOffset_mono; lia. } { done. } { done. }
  cbn [mbind option_bind]. pose proof (kp_rest _ _ _ K1) as Hr1. injection Hr1 as R1 R2 R3 R4 R5 R6 R7. destruct (kp_hdr _ _ _ K1) as [c1 Hc1].
  destruct (Z.eqb_spec rc1 SQLITE_OK) as [->|Hne]; cbn [negb].
  2:{ eexists _, _, _. split; [done|]. split_and!; [apply K1| |done|].
      - intros _. split_and!; [done|by eexists|]. exists stale. by rewrite R3.
      - intros _ _ Hc. by destruct (C1 Hc). }
  destruct (F1 eq_refl) as (G1 & G2 & G3 & G4 & G5 & G6). set (es1 := put_pages find nTruncate isCommit L es) in *.
  assert (Hes1 : alen es <= alen es1) by (unfold es1; rewrite put_pages_alen; pose proof (alen_nonneg (new_pages find isCommit L)); lia).
  destruct (finish_frames_ok bo host_big big szPage nCkpt salt Hsz Hsalt n nTruncate isCommit e He env al junk v s1 es1)
    as (ret & rc2 & k & s2 & -> & K2 & Hret & F2 & C2 & Hk); try done.
  { by rewrite R4. } { apply walFrameOffset_mono; lia. }
  { intros Hc. rewrite G6 by done. rewrite Hlast. by destruct p. }
  cbn [mbind option_bind]. pose proof (kp_rest _ _ _ K2) as Hr2. injection Hr2 as S1 S2 S3 S4 S5 S6 S7. destruct (kp_hdr _ _ _ K2) as [c2 Hc2].
  assert (K : kept n s s2) by (by eapply kept_trans).
  assert (Cl : never_fails al -> w_io s = [] -> rc2 = SQLITE_OK).
  { intros Hal Hc. destruct (C1 Hc) as [_ E1]. by destruct (C2 Hal E1). }
  assert (Hfail : rc2 <> SQLITE_OK -> w_shm s2 = w_shm s /\ (exists c, w_hdr s2 = set_aFrameCksum c (w_hdr s)) /\ exists stale', index_ok (w_pages s2) (map en_pgno es ++ stale')).
  { intros _. split_and!; [congruence|apply K|]. exists stale. by rewrite S3, R3. }
  destruct ret.
  { eexists _, _, _. split; [done|]. split_and!; [apply K|done| |naive_solver]. intros Hrc. by specialize (Hret eq_refl). }
  assert (Hext : match fl_last v with Some p => replicate (Z.to_nat (Z.of_nat k)) (pg_pgno p) | None => [] end = replicate k (pg_pgno p) \/ rc2 <> SQLITE_OK).
  { destruct (decide (rc2 = SQLITE_OK)) as [Hrc|]; [left|by right]. destruct (F2 Hrc) as (_ & _ & _ & Hk0). destruct isCommit.
    - rewrite G6, Hlast, Nat2Z.id by done. done.
    - rewrite Hk0 by done. by destruct (fl_last v). }
  destruct (decide (rc2 = SQLITE_OK)) as [->|Hrc].
  2:{ unfold publish_frames. apply Z.eqb_neq in Hrc as E. rewrite E. eexists _, _, _. split; [done|]. split_and!; [apply K|done|done|]. naive_solver. }
  destruct (F2 eq_refl) as (F3 & F4 & F5 & F6). destruct Hext as [->|]; [|done]. rewrite G5. cbn [fl_append app].
  destruct (new_pages_ok find isCommit szPage L HF) as [Hnp Hnl]. set (app := new_pages find isCommit L ++ replicate k (pg_pgno p)).
  assert (Lapp : alen app = alen (new_pages find isCommit L) + Z.of_nat k) by (unfold app; rewrite alen_app; unfold alen; by rewrite length_replicate).
  assert (Lps : alen (map en_pgno es) = alen es) by (unfold alen; by rewrite length_map).
  destruct (publish_frames_ok host_big shmMap szPage nTruncate isCommit restarted app (map en_pgno es) stale s2)
    as (rc & pn & s' & -> & Hrest & Hbad & Hgood & Hall).
  { by rewrite S3, R3. } { rewrite Hc2, Hc1, Lps. exact Hmx. } { apply F3. } { done. }
  { apply Forall_app_2; [done|]. apply Forall_replicate, Hp. } { lia. }
  injection Hrest as T1 T2 T3 T4 T5 T6 T7 T8. eexists _, _, _. split; [done|]. split_and!.
  - rewrite T2. apply K.
  - intros Hrc. destruct (Hbad Hrc) as (B1 & B2 & B3). split_and!; [congruence|rewrite B2; apply K|done].
  - intros Hrc. destruct (Hgood Hrc) as (A1 & A2 & A3 & A4 & A5 & A6 & A7 & A8 & A9). exists k. split; [done|].
    set (es' := framed iFirst (w_minFrame s) nTruncate isCommit L k es).
    assert (Ees : es' = es1 ++ replicate k e) by (unfold es', framed; by rewrite Hlast).
    assert (Les : alen es' = alen es + alen app).
    { rewrite Ees, alen_app. unfold es1. rewrite put_pages_alen, Lapp. unfold alen. rewrite length_replicate. lia. }
    assert (Pes : map en_pgno es' = map en_pgno es ++ app) by (by apply framed_pgno).
    split.
    + constructor.
      * apply (frames_ok_hdr _ _ _ _ _ s2); try done. by rewrite Ees.
      * by rewrite A3, Les, Lps.
      * by rewrite Pes.
      * done.
      * intros Hc. destruct (A8 Hc) as (B1 & B2 & B3 & B4 & B5 & B6). split_and!; try done; [rewrite T6; by apply F5|by rewrite B5, Les, Lps|].
        rewrite B6, Les, Lps. f_equal. destruct restarted; lia.
      * intros Hc. destruct (A9 Hc) as (B1 & B2 & B3). split_and!; [congruence|rewrite B2, Hc2, Hc1; done|done].
      * congruence.
    + rewrite T6. destruct F4 as [Hz|Hz]; [by left|right]. unfold n, walFrameOffset in Hz. unfold WAL_FRAME_HDRSIZE in Hz. nia.
  - intros Hm _ _. by apply Hall.
Qed.
End Body.

(** ** The header of the file *)

(** The fields that writing the header leaves alone. *)
Definition header_rest (s : Writer) :=
  (w_shm s, w_info s, w_pages s, w_nCkpt s, w_readLock s, w_minFrame s, w_iReCksum s, mxFrame (w_hdr s), nPage (w_hdr s)).

Lemma magic_or (big : bool) : WAL_MAGIC .| Z.b2z big = WAL_MAGIC + Z.b2z big.
Proof. by destruct big. Qed.

Lemma write_header_ok bo host_big env szPage s : pagesize_ok szPage = true -> io_ok (w_io s) -> hdr_wf (w_hdr s) -> Forall is_u8 (w_wal s) ->
  is_u32 (w_nCkpt s) -> length (we_salt env) = 8%nat /\ Forall is_u8 (we_salt env) -> w_iReCksum s = 0 ->
  exists ret rc s', write_header bo host_big env szPage s = Some (ret, rc, s') /\ header_rest s' = header_rest s /\ (ret = true <-> rc <> SQLITE_OK) /\
    (rc = SQLITE_OK -> w_szPage s' = szPage /\ (length (aSalt (w_hdr s')) = 8%nat /\ Forall is_u8 (aSalt (w_hdr s')))
       /\ frames_ok host_big szPage (w_nCkpt s) (aSalt (w_hdr s')) [] s') /\ io_clean (w_io s) rc (w_io s').
Proof.
  intros Hsz Hio Hwf Hb Hnc Hsalt Hre. pose proof (pagesize_units szPage Hsz) as [? _]. unfold write_header.
  set (salt := if w_nCkpt s =? 0 then we_salt env else aSalt (w_hdr s)).
  assert (Hs : length salt = 8%nat /\ Forall is_u8 salt) by (unfold salt; destruct (_ =? 0); [done|apply Hwf]).
  assert (HWM : is_u32 (WAL_MAGIC + Z.b2z host_big) /\ is_u32 WAL_MAX_VERSION) by (by destruct host_big).
  rewrite magic_or, !put4byte_be by (try apply HWM; try done; unfold is_u32; lia).
  set (b := _ ++ _ ++ _ ++ _ ++ salt). destruct Hs as [Ls Bs].
  assert (Lb : length b = 24%nat) by (unfold b; rewrite !length_app, !store32_length, Ls; done).
  assert (Bb : Forall is_u8 b) by (unfold b; repeat (apply Forall_app_2; [apply store32_bytes|]); done).
  assert (Ec : walChecksumBytes host_big true b (WAL_HDRSIZE - 8) None = Some (cksum_spec host_big (0, 0) b)).
  { replace true with (Bool.eqb host_big host_big) by apply eqb_reflx. rewrite checksum_ref; [|done|unfold alen; rewrite Lb; done|done].
    cbn [default]. do 2 f_equal. apply take_ge. rewrite Lb. done. }
  rewrite Ec.
  cbn [mbind option_bind]. set (c := cksum_spec host_big (0, 0) b).
  assert (Hc : is_u32_pair c) by (apply cksum_spec_range; by split). pose proof Hc as [Hc1 Hc2]. rewrite !put4byte_be by done.
  assert (Ehd : b ++ store32 true (fst c) ++ store32 true (snd c) = file_header WAL_MAX_VERSION host_big szPage (w_nCkpt s) salt) by done.
  rewrite Ehd. set (B := file_header _ _ _ _ _) in *.
  assert (LH : alen B = WAL_HDRSIZE) by (rewrite <- Ehd; unfold alen; rewrite !length_app, Lb, !store32_length; done).
  cbn [w_io w_wal]. destruct (os_write (w_io s) (w_wal s) 0 B) as [[rc f] io] eqn:Ew.
  apply (os_write_spec 0) in Ew as (Hio1 & _ & W & C); [|done|lia|lia].
  cbn [w_set_file w_io w_wal].
  destruct (Z.eqb_spec rc SQLITE_OK) as [->|Hne]; cbn [negb].
  2:{ eexists _, _, _. split; [done|]. split_and!; try done. }
  specialize (W eq_refl).
  assert (HF : forall io' s', io_ok io' -> w_wal s' = f -> w_io s' = io' -> w_iReCksum s' = 0 ->
    w_hdr s' = MkHdr (iVersion (w_hdr s)) (unused (w_hdr s)) (iChange (w_hdr s)) (isInit (w_hdr s)) host_big (hdr_szPage (w_hdr s)) (mxFrame (w_hdr s)) (nPage (w_hdr s)) c salt (aCksum (w_hdr s)) ->
    frames_ok host_big szPage (w_nCkpt s) salt [] s').
  { intros io' s' Hio' E1 E2 E3 E4. constructor; rewrite ?E1, ?E2, ?E3, ?E4; [|exact Hio'| |split; reflexivity| | |by intros ? ?|unfold alen; cbn; lia| |].
    - rewrite W. apply fwrite_u8; [done|]. rewrite <- Ehd. apply Forall_app_2; [done|]. apply Forall_app_2; apply store32_bytes.
    - destruct Hwf. by constructor.
    - rewrite W, <- LH. apply fread_write_same. lia.
    - rewrite W, alen_write, LH by lia. lia.
    - by rewrite take_nil.
    - intros _. cbn [aFrameCksum log_cksum]. unfold header_cksum, file_header. fold b. rewrite take_app_length' by done. done. }
  destruct (we_syncHeader env).
  - destruct (os_sync io) as [rc2 io2] eqn:Es. apply os_sync_spec in Es as [Hio2 C2]; [|done].
    eexists _, _, _. split; [done|]. split_and!; [done| | |].
    + destruct (Z.eqb_spec rc2 SQLITE_OK); cbn [negb]; split; [discriminate|congruence|congruence|reflexivity].
    + intros _. split_and!; [done|done|done|]. by apply (HF io2).
    + intros Hx. cbn. destruct (C Hx) as [_ E]. by apply C2.
  - eexists _, _, _. split; [done|]. split_and!; [done|done| |done]. intros _. split_and!; [done|done|done|]. by apply (HF io).
Qed.

(** ** Restarting the log *)

Lemma begin_loop_wal bo host_big shmMap env : (forall k, alen (re_marks (env k)) = WAL_NREADER) -> forall fuel cnt ch c v marks r marks',
  Forall (fun m : Z * Z => 1 <= fst m <= 4) marks -> begin_loop bo host_big shmMap fuel env true cnt ch c v marks = Some (r, marks') ->
  Forall (fun m : Z * Z => 1 <= fst m <= 4) marks' /\
  (rr_rc r = SQLITE_OK -> 1 <= cn_readLock (rr_conn r) <= 4 /\ is_u32 (cn_minFrame (rr_conn r))).
Proof.
  intros Hm. induction fuel as [|fuel IH]; intros cnt ch c v marks r marks' HF; [done|]. cbn [begin_loop].
  unfold walTryBeginRead. destruct (_ && _).
  { cbn [mbind option_bind rr_rc rr_mark]. change (SQLITE_PROTOCOL =? WAL_RETRY) with false. cbv iota. rewrite app_nil_r. intros E. simplify_eq. done. }
  cbn [mbind option_bind begin_db negb andb]. destruct (begin_wal_total (env cnt) c (Hm cnt)) as (rc & c' & m & E & Hmk). rewrite E.
  cbn [mbind option_bind rr_rc rr_mark rr_conn rr_changed rr_recover].
  assert (HF' : Forall (fun m : Z * Z => 1 <= fst m <= 4) (marks ++ match m with Some m => [m] | None => [] end)).
  { apply Forall_app_2; [done|]. destruct m as [[i x]|]; [|done]. apply Forall_singleton. by apply (Hmk i x). }
  destruct (Z.eqb_spec rc WAL_RETRY); [by apply IH|]. intros Er. simplify_eq. split; [done|]. cbn [rr_rc rr_conn]. intros ->.
  apply begin_wal_spec in E as (H1 & _ & _ & ->). split; [done|]. apply u32_range.
Qed.

Lemma set_marks_ok l : Forall (fun m : Z * Z => 1 <= fst m <= 4) l -> forall marks, alen marks = WAL_NREADER ->
  exists marks', set_marks marks l = Some marks' /\ alen marks' = WAL_NREADER.
Proof.
  induction 1 as [|[i x] l Hi HF IH]; intros marks Hm; cbn [set_marks]; [by eexists|].
  rewrite aset_in by (cbn in Hi; rewrite Hm; unfold WAL_NREADER; lia). cbn [mbind option_bind]. apply IH. unfold alen in *. by rewrite length_insert.
Qed.

(** What is asked of the environment of a call. *)
Record env_ok (env : WriteEnv) : Prop := {
  ev_salt : length (we_salt env) = 8%nat /\ Forall is_u8 (we_salt env);
  ev_salt1 : length (we_salt1 env) = 4%nat /\ Forall is_u8 (we_salt1 env);
  ev_marks : forall k, alen (re_marks (we_begin env k)) = WAL_NREADER
}.

Definition restart_rest (s : Writer) := (w_io s, w_wal s, w_pages s, w_szPage s, w_iReCksum s).

Lemma restart_hdr_ok bo host_big env s : env_ok env -> hdr_wf (w_hdr s) -> alen (aReadMark (w_info s)) = WAL_NREADER -> is_u32 (w_nCkpt s) ->
  exists s', restart_hdr bo host_big (we_salt1 env) s = Some s' /\ restart_rest s' = restart_rest s /\ published host_big (w_hdr s') /\ w_shm s' = w_hdr s'
    /\ mxFrame (w_hdr s') = 0 /\ alen (aReadMark (w_info s')) = WAL_NREADER /\ is_u32 (w_nCkpt s').
Proof.
  intros [_ Hs1 _] Hwf Hm Hn. unfold restart_hdr.
  pose proof (walRestartHdr_spec bo host_big (MkEnv 0 false (fun _ _ => (0, [])) (we_salt1 env) None) Hs1
    (MkCk (w_io s) [] None [] [] (w_wal s) (w_info s) (w_hdr s) (w_shm s) (w_nCkpt s)) Hwf Hm) as (s' & h' & E & P & Eh & Es & E0 & _ & _ & _ & _ & _ & Ei).
  cbn [e_salt1] in E. rewrite E. cbn [mbind option_bind]. eexists. split; [done|]. cbn [w_hdr w_shm w_info w_nCkpt]. rewrite Eh, Es, Ei. split_and!; try done.
  - cbn [aReadMark ck_info]. unfold alen, WAL_NREADER in *. destruct (aReadMark (w_info s)); done.
  - revert E. unfold walRestartHdr. destruct (sqlite3Get4byte _ _); [|done]. cbn [mbind option_bind]. destruct (walIndexWriteHdr _ _); [|done]. cbn [mbind option_bind].
    destruct (aset _ _ _); [|done]. cbn [mbind option_bind]. intros E. simplify_eq. apply u32_range.
Qed.

(** Either the header is as it was, or the log was restarted. *)
Definition restart_outcome (host_big : bool) (s : Writer) (restarted : bool) (s' : Writer) : Prop :=
  if restarted then
    w_readLock s = 0 /\ 0 < nBackfill (w_info s) /\ published host_big (w_hdr s') /\ w_shm s' = w_hdr s' /\ mxFrame (w_hdr s') = 0
  else w_hdr s' = w_hdr s /\ w_shm s' = w_shm s /\ w_nCkpt s' = w_nCkpt s /\ nBackfill (w_info s') = nBackfill (w_info s).

Lemma restart_log_ok bo host_big shmMap env s : env_ok env -> hdr_wf (w_hdr s) -> alen (aReadMark (w_info s)) = WAL_NREADER ->
  is_u32 (w_nCkpt s) -> 0 <= w_minFrame s < 2 ^ 32 ->
  exists rc restarted s', walRestartLog bo host_big shmMap env s = Some (rc, restarted, s') /\ restart_rest s' = restart_rest s /\
    restart_outcome host_big s restarted s' /\ alen (aReadMark (w_info s')) = WAL_NREADER /\ is_u32 (w_nCkpt s') /\
    (rc = SQLITE_OK -> w_readLock s' <> 0 /\ 0 <= w_minFrame s' < 2 ^ 32).
Proof.
  intros He Hwf Hm Hn Hmin. unfold walRestartLog. destruct (Z.eqb_spec (w_readLock s) 0) as [Hrl|Hrl]; cbn [negb].
  2:{ eexists _, _, _. split; [done|]. split_and!; try done; lia. }
  match goal with |- exists _ _ _, (?m ≫= _) = _ /\ _ => set (first := m) end.
  assert (H1 : exists err rc restarted s1, first = Some (err, rc, restarted, s1) /\ restart_rest s1 = restart_rest s /\
    restart_outcome host_big s restarted s1 /\ alen (aReadMark (w_info s1)) = WAL_NREADER /\ is_u32 (w_nCkpt s1) /\ (err = true -> rc <> SQLITE_OK)).
  { unfold first. destruct (Z.gtb_spec (nBackfill (w_info s)) 0) as [Hb|Hb]; [|by eexists _, _, _, _; split_and!].
    destruct (Z.eqb_spec (we_lockReaders env) SQLITE_OK) as [|Hlk].
    - destruct (restart_hdr_ok bo host_big env s He Hwf Hm Hn) as (s1 & -> & Hr & Hp & Hsh & H0 & Hm1 & Hn1).
      cbn [mbind option_bind]. by eexists _, _, _, _; split_and!.
    - destruct (negb _); by eexists _, _, _, _; split_and!. }
  clearbody first. destruct H1 as (err & rc & restarted & s1 & -> & Hr & Ho & Hm1 & Hn1 & Herr). cbn [mbind option_bind].
  destruct err.
  { eexists _, _, _. split; [done|]. split_and!; try done; by intros ->; destruct Herr. }
  match goal with |- context [begin_loop _ _ _ _ _ _ _ _ ?c ?v _] => set (conn := c); set (rec := v) end.
  destruct (begin_loop_ends bo host_big shmMap (we_begin env) true (fun _ _ => True)) with (fuel := S (Z.to_nat WAL_RETRY_PROTOCOL_LIMIT)) (cnt := 0) (changed := false)
    (c := conn) (v := rec) (marks := @nil (Z * Z)) as (r & marks & Eb & _); [|reflexivity|lia|lia|done|].
  { intros k ch c v _ _. unfold walTryBeginRead. destruct (_ && _); [by eexists|]. cbn [mbind option_bind begin_db negb andb].
    destruct (begin_wal_total (we_begin env k) c (ev_marks _ He k)) as (? & ? & ? & -> & _). by eexists. }
  rewrite Eb. cbn [mbind option_bind]. apply (begin_loop_wal _ _ _ _ (ev_marks _ He)) in Eb as [HF Hrd]; [|constructor].
  destruct (set_marks_ok marks HF _ Hm1) as (marks' & -> & Hm'). cbn [mbind option_bind].
  eexists _, _, _. split; [done|]. split_and!; try done.
  - intros Hrc. cbn [w_readLock w_minFrame]. destruct (Hrd Hrc) as [? ?]. split; [lia|done].
Qed.

(** ** The writer *)

(** A connection in a write transaction whose log holds the frames [es], of
    which those up to [mxFrame] of the shared header are committed. *)
Record writer_ok (szPage : Z) (es : list entry) (s : Writer) : Prop := {
  wt_wf : hdr_wf (w_hdr s) /\ hdr_wf (w_shm s);
  wt_io : io_ok (w_io s);
  wt_bytes : Forall is_u8 (w_wal s);
  wt_nCkpt : is_u32 (w_nCkpt s);
  wt_mx : mxFrame (w_hdr s) = alen es;
  wt_committed : mxFrame (w_shm s) <= alen es;
  wt_log : es <> [] -> w_szPage s = szPage /\ exists nCkpt, is_u32 nCkpt /\ frames_ok (bigEndCksum (w_hdr s)) szPage nCkpt (aSalt (w_hdr s)) es s
             /\ (mxFrame (w_shm s) <> 0 -> bigEndCksum (w_shm s) = bigEndCksum (w_hdr s) /\ aSalt (w_shm s) = aSalt (w_hdr s)
                 /\ aFrameCksum (w_shm s) = log_cksum (bigEndCksum (w_hdr s)) (header_cksum (bigEndCksum (w_hdr s)) szPage nCkpt (aSalt (w_hdr s)))
                                              (take (Z.to_nat (mxFrame (w_shm s))) es));
  wt_recksum : w_iReCksum s = 0 \/ mxFrame (w_shm s) < w_iReCksum s <= alen es;
  wt_pending : Forall (fun e => en_truncate e = 0) (drop (Z.to_nat (mxFrame (w_shm s))) es);
  wt_index : exists stale, index_ok (w_pages s) (map en_pgno es ++ stale);
  wt_minFrame : 0 <= w_minFrame s < 2 ^ 32;
  wt_marks : alen (aReadMark (w_info s)) = WAL_NREADER;
  wt_readLock : w_readLock s = 0 -> w_hdr s = w_shm s /\ nBackfill (w_info s) = mxFrame (w_hdr s)
}.

(** The log of the file and the checksum it starts from. *)
Definition log_holds (szPage : Z) (h : WalIndexHdr) (wal : file) (es : list entry) : Prop :=
  exists nCkpt, is_u32 nCkpt /\ let ck0 := header_cksum (bigEndCksum h) szPage nCkpt (aSalt h) in
    fread wal 0 WAL_HDRSIZE = file_header WAL_MAX_VERSION (bigEndCksum h) szPage nCkpt (aSalt h) /\
    frames_at (bigEndCksum h) (aSalt h) szPage wal 1 ck0 es /\ aFrameCksum h = log_cksum (bigEndCksum h) ck0 es.

(** The transactions committed before the call are still there. *)
Definition still_committed (szPage : Z) (es : list entry) (s s' : Writer) : Prop :=
  let nc := mxFrame (w_shm s) in
  w_shm s' = w_shm s /\ (nc <> 0 -> log_holds szPage (w_shm s) (w_wal s') (take (Z.to_nat nc) es)) /\
  exists stale, index_ok (w_pages s') (map en_pgno (take (Z.to_nat nc) es) ++ stale).

(** The frames of the log after the call of [walFrames] with the dirty pages [L]. *)
Record framed_ok (L : list PgHdr) (nTruncate nc : Z) (isCommit : bool) (es es' : list entry) : Prop := {
  fd_prefix : take (Z.to_nat nc) es' = take (Z.to_nat nc) es;
  fd_page : forall p acc, log_page p es' acc = write_page p L (log_page p es acc);
  fd_len : alen es <= alen es';
  fd_mark : if isCommit then exists es1 e, es' = es1 ++ [e] /\ en_truncate e = nTruncate
            else Forall (fun e => en_truncate e = 0) (drop (Z.to_nat nc) es')
}.

Lemma framed_framed_ok L nTruncate nc isCommit es iFirst minFrame (k : nat) : L <> [] -> 0 <= nc <= alen es -> iFirst = 0 \/ iFirst = nc + 1 ->
  Forall (fun e => en_truncate e = 0) (drop (Z.to_nat nc) es) -> (isCommit = false -> k = 0%nat) ->
  framed_ok L nTruncate nc isCommit es (framed iFirst minFrame nTruncate isCommit L k es).
Proof.
  intros HL Hnc HiF Hpend Hk. unfold framed. set (find := txn_find iFirst (map en_pgno es) minFrame).
  assert (Hps : alen (map en_pgno es) = alen es) by (unfold alen; by rewrite length_map).
  pose proof (txn_finds iFirst (map en_pgno es) minFrame nc ltac:(lia) HiF) as Hfs. fold find in Hfs.
  destruct (last L) as [p|] eqn:Hl; [|by apply last_None in Hl]. set (e := MkEntry (pg_pgno p) nTruncate (pg_data p)).
  apply last_Some in Hl as [L1 ->]. pose proof (alen_nonneg (new_pages find isCommit (L1 ++ [p]))) as Hnn.
  pose proof (put_pages_alen find nTruncate isCommit (L1 ++ [p]) es) as Hal.
  assert (Hpage : forall q acc, log_page q (put_pages find nTruncate isCommit (L1 ++ [p]) es) acc = write_page q (L1 ++ [p]) (log_page q es acc)).
  { intros q acc. apply (put_pages_page (map en_pgno es) nc find Hfs ltac:(lia) nTruncate isCommit q acc _ _ []); [by rewrite app_nil_r|constructor]. }
  pose proof (put_pages_prefix (map en_pgno es) nc find Hfs ltac:(lia) nTruncate isCommit (L1 ++ [p]) es ltac:(lia)) as Hpre.
  destruct isCommit.
  - destruct (put_pages_last find nTruncate L1 p es) as [es1 Hes1]. fold e in Hes1. split.
    + rewrite take_app_le; [done|]. unfold alen in *. lia.
    + intros q acc. rewrite <- Hpage, Hes1, <- app_assoc. apply log_page_repeat.
    + rewrite alen_app. pose proof (alen_nonneg (replicate k e)). lia.
    + exists (es1 ++ replicate k e), e. split; [|done]. rewrite Hes1, <- !app_assoc. f_equal. clear. induction k as [|k IH]; [done|]. cbn [replicate app] in *. by rewrite IH.
  - rewrite Hk by done. cbn [replicate]. rewrite app_nil_r. split; [done|done|lia|].
    apply (put_pages_pending (map en_pgno es) nc find Hfs ltac:(lia)); [done|lia|done].
Qed.

Section Writer.
Context (bo : byteorder) (host_big : bool) (shmMap : Z -> Z) (szPage : Z) (Hsz : pagesize_ok szPage = true).

(** The outcome of the call. *)
Definition frames_outcome (L : list PgHdr) (nTruncate : Z) (isCommit : bool) (es : list entry) (s s' : Writer) (rc : Z) (pn : option Z) : Prop :=
  (rc <> SQLITE_OK -> still_committed szPage es s s') /\
  (rc = SQLITE_OK -> exists es', framed_ok L nTruncate (mxFrame (w_shm s)) isCommit es es' /\ writer_ok szPage es' s' /\ w_readLock s' <> 0
     /\ hdr_pagesize (hdr_szPage (w_hdr s')) = szPage /\
     (if isCommit then w_shm s' = w_hdr s' /\ published host_big (w_hdr s') /\ nPage (w_hdr s') = nTruncate /\ pn = Some (alen es' - alen es)
                       /\ log_holds szPage (w_hdr s') (w_wal s') es'
      else w_shm s' = w_shm s /\ pn = Some 0)).

Lemma committed_kept nCkpt es s s' : is_u32 nCkpt -> frames_ok (bigEndCksum (w_hdr s)) szPage nCkpt (aSalt (w_hdr s)) es s -> writer_ok szPage es s ->
  (mxFrame (w_shm s) <> 0 -> bigEndCksum (w_shm s) = bigEndCksum (w_hdr s) /\ aSalt (w_shm s) = aSalt (w_hdr s)
       /\ aFrameCksum (w_shm s) = log_cksum (bigEndCksum (w_hdr s)) (header_cksum (bigEndCksum (w_hdr s)) szPage nCkpt (aSalt (w_hdr s)))
                                    (take (Z.to_nat (mxFrame (w_shm s))) es)) ->
  keeps (walFrameOffset (mxFrame (w_shm s) + 1) szPage) (w_wal s) (w_wal s') -> w_shm s' = w_shm s ->
  (exists stale, index_ok (w_pages s') (map en_pgno es ++ stale)) -> still_committed szPage es s s'.
Proof.
  intros HnC Hf Hw Hshm Hk Es [stale Hix]. pose proof (pagesize_units szPage Hsz) as [? _]. pose proof (wt_committed _ _ _ Hw) as Hnc.
  destruct (wt_wf _ _ _ Hw) as [_ Hwf]. pose proof (wf_mxFrame _ Hwf) as Hm0. unfold is_u32 in Hm0. set (nc := mxFrame (w_shm s)) in *.
  pose proof (walFrameOffset_nonneg (nc + 1) szPage ltac:(lia) ltac:(lia)) as Ho. unfold WAL_HDRSIZE in Ho.
  split_and!; [done| |].
  - fold nc. intros H0. unfold log_holds. destruct (Hshm H0) as (-> & -> & ->). exists nCkpt. cbv zeta. split_and!; [done| | |done].
    + rewrite <- (fo_header _ _ _ _ _ _ Hf). apply (keeps_fread _ _ _ _ _ Hk); unfold WAL_HDRSIZE; lia.
    + apply (frames_at_keeps _ _ _ (w_wal s)); [lia|lia| |].
      { eapply keeps_le; [|exact Hk]. apply walFrameOffset_mono; [|lia]. unfold alen. rewrite length_take. lia. }
      pose proof (fo_chain _ _ _ _ _ _ Hf) as Hch. apply (frames_at_take _ _ _ _ _ _ _ (Z.to_nat nc)) in Hch. rewrite take_take in Hch.
      rewrite Nat.min_l in Hch; [done|]. unfold valid_frames, alen in *.
      destruct (wt_recksum _ _ _ Hw) as [->|Hre]; [cbn [Z.eqb]; lia|]. fold nc in Hre. destruct (Z.eqb_spec (w_iReCksum s) 0); lia.
  - exists (map en_pgno (drop (Z.to_nat nc) es) ++ stale). fold nc. by rewrite app_assoc, <- map_app, take_drop.
Qed.

(** The shared header is that of the committed frames. *)
Definition shm_log (nCkpt : Z) (es : list entry) (s : Writer) : Prop :=
  mxFrame (w_shm s) <> 0 -> bigEndCksum (w_shm s) = bigEndCksum (w_hdr s) /\ aSalt (w_shm s) = aSalt (w_hdr s)
    /\ aFrameCksum (w_shm s) = log_cksum (bigEndCksum (w_hdr s)) (header_cksum (bigEndCksum (w_hdr s)) szPage nCkpt (aSalt (w_hdr s)))
                                 (take (Z.to_nat (mxFrame (w_shm s))) es).

Lemma logged_writer nTruncate isCommit restarted nCkpt L es es' pn s s' : is_u32 nCkpt ->
  writer_ok szPage es s -> shm_log nCkpt es s -> w_szPage s = szPage -> w_readLock s <> 0 ->
  framed_ok L nTruncate (mxFrame (w_shm s)) isCommit es es' ->
  logged host_big (bigEndCksum (w_hdr s)) szPage nCkpt (aSalt (w_hdr s)) nTruncate isCommit restarted es es' pn s s' ->
  (w_iReCksum s' = 0 \/ mxFrame (w_shm s) < w_iReCksum s') -> writer_ok szPage es' s'.
Proof.
  intros HnC Hw Hshm Hws Hrl [Hpre _ Hlen Hmark] [Lf Lmx Lix Lsz Lc Ls Lr] Hre. injection Lr as R1 R2 R3 R4 R5.
  destruct (fo_log _ _ _ _ _ _ Lf) as [Lb La]. destruct (wt_wf _ _ _ Hw) as [_ Hwf]. pose proof (fo_re _ _ _ _ _ _ Lf) as Hrr.
  constructor.
  - split; [apply Lf|]. destruct isCommit; [destruct (Lc eq_refl) as (_ & -> & _)|by destruct (Ls eq_refl) as (-> & _)]. apply Lf.
  - apply Lf.
  - apply Lf.
  - rewrite R3. apply Hw.
  - done.
  - destruct isCommit; [destruct (Lc eq_refl) as (_ & -> & _); lia|destruct (Ls eq_refl) as (-> & _)]. pose proof (wt_committed _ _ _ Hw). lia.
  - intros _. split; [congruence|]. exists nCkpt. rewrite Lb, La. split; [done|]. split; [done|]. destruct isCommit.
    + destruct (Lc eq_refl) as (E0 & -> & _). intros _. split_and!; [done|done|]. rewrite (fo_cksum _ _ _ _ _ _ Lf E0), Lmx. f_equal.
      rewrite take_ge; [done|unfold alen; lia].
    + destruct (Ls eq_refl) as (-> & _). intros H0. destruct (Hshm H0) as (-> & -> & ->). by rewrite Hpre.
  - destruct isCommit; [destruct (Lc eq_refl) as (E0 & _); by left|]. destruct (Ls eq_refl) as (-> & _). destruct Hre; [by left|right; lia].
  - destruct isCommit; [destruct (Lc eq_refl) as (_ & -> & _)|by destruct (Ls eq_refl) as (-> & _)].
    rewrite Lmx, drop_ge; [constructor|unfold alen; lia].
  - done.
  - rewrite R5. apply Hw.
  - rewrite R1. apply Hw.
  - intros H0. congruence.
Qed.

Lemma log_frames_writer env al junk L nTruncate isCommit iFirst restarted nCkpt es s : is_u32 nCkpt ->
  call_ok env junk szPage L nTruncate isCommit es -> writer_ok szPage es s ->
  frames_ok (bigEndCksum (w_hdr s)) szPage nCkpt (aSalt (w_hdr s)) es s -> shm_log nCkpt es s ->
  w_szPage s = szPage -> w_readLock s <> 0 -> (iFirst = 0 \/ iFirst = mxFrame (w_shm s) + 1) -> (restarted = true -> es = []) ->
  exists rc pn s', log_frames bo host_big shmMap env al junk szPage L nTruncate isCommit iFirst restarted s = Some (rc, pn, s') /\
    frames_outcome L nTruncate isCommit es s s' rc pn /\
    ((forall i, shmMap i = SQLITE_OK) -> never_fails al -> w_io s = [] -> rc = SQLITE_OK).
Proof.
  intros HnC Hcall Hw Hf Hshm Hws Hrl HiF Hrest. destruct (wt_index _ _ _ Hw) as [stale Hix]. destruct (wt_wf _ _ _ Hw) as [Hwf Hwf2].
  pose proof (wt_committed _ _ _ Hw) as Hnc. pose proof (wf_mxFrame _ Hwf2) as Hm0. unfold is_u32 in Hm0.
  destruct (log_frames_ok bo host_big shmMap (bigEndCksum (w_hdr s)) szPage nCkpt (aSalt (w_hdr s)) Hsz (wf_salt _ Hwf)
    env al junk L nTruncate isCommit iFirst restarted (mxFrame (w_shm s)) es stale s) as (rc & pn & s' & E & K & Bad & Good & Cl); try done.
  { apply Hw. } { apply Hw. } { lia. } { destruct (wt_recksum _ _ _ Hw); lia. }
  exists rc, pn, s'. split; [done|]. split; [|done]. split.
  - intros Hrc. destruct (Bad Hrc) as (B1 & _ & B2). by apply (committed_kept nCkpt).
  - intros Hrc. destruct (Good Hrc) as (k & Hk & G & Hre). set (es' := framed _ _ _ _ _ k es) in G.
    assert (Hfd : framed_ok L nTruncate (mxFrame (w_shm s)) isCommit es es').
    { apply framed_framed_ok; [apply Hcall|lia|done|apply Hw|done]. }
    exists es'. pose proof (logged_writer _ _ _ _ _ _ _ _ _ _ HnC Hw Hshm Hws Hrl Hfd G Hre) as Hw'. split_and!; [done|done| | |].
    + pose proof (lg_rest _ _ _ _ _ _ _ _ _ _ _ _ _ G) as Hr. injection Hr as _ _ _ -> _. done.
    + rewrite (lg_size _ _ _ _ _ _ _ _ _ _ _ _ _ G). by apply size_field_pagesize.
    + pose proof (lg_frames _ _ _ _ _ _ _ _ _ _ _ _ _ G) as Gf. destruct isCommit.
      * destruct (lg_commit _ _ _ _ _ _ _ _ _ _ _ _ _ G eq_refl) as (E0 & E1 & E2 & E3 & E4 & E5). split_and!; try done.
        { rewrite E5. f_equal. destruct restarted; [|done]. rewrite Hrest by done. unfold alen at 3. cbn. lia. }
        exists nCkpt. destruct (fo_log _ _ _ _ _ _ Gf) as [-> ->]. cbv zeta. split_and!; [done|apply Gf| |by apply (fo_cksum _ _ _ _ _ _ Gf)].
        pose proof (fo_chain _ _ _ _ _ _ Gf) as Hch. unfold valid_frames in Hch. rewrite E0 in Hch. cbn [Z.eqb] in Hch. by rewrite firstn_all in Hch.
      * by destruct (lg_spill _ _ _ _ _ _ _ _ _ _ _ _ _ G eq_refl) as (? & _ & ?).
Qed.

Lemma outcome_shm L nTruncate isCommit es s s1 s' rc pn : w_shm s1 = w_shm s ->
  frames_outcome L nTruncate isCommit es s1 s' rc pn -> frames_outcome L nTruncate isCommit es s s' rc pn.
Proof. unfold frames_outcome, still_committed. by intros ->. Qed.

Lemma still_empty s s' : mxFrame (w_shm s) = 0 -> w_shm s' = w_shm s -> still_committed szPage [] s s'.
Proof.
  intros E0 Es. split_and!; [done|done|]. exists []. rewrite take_nil. cbn [map app]. apply index_ok_empty.
Qed.

Lemma writer_empty s : writer_ok szPage [] s -> mxFrame (w_shm s) = 0 /\ mxFrame (w_hdr s) = 0 /\ w_iReCksum s = 0.
Proof.
  intros Hw. destruct (wt_wf _ _ _ Hw) as [_ Hwf]. pose proof (wf_mxFrame _ Hwf) as Hm. pose proof (wt_committed _ _ _ Hw) as Hc.
  pose proof (wt_mx _ _ _ Hw) as Hx. pose proof (wt_recksum _ _ _ Hw) as Hr. change (alen ([] : list entry)) with 0 in *. unfold is_u32 in Hm. lia.
Qed.

Lemma write_frames_writer env al junk L nTruncate isCommit iFirst restarted es s :
  env_ok env -> call_ok env junk szPage L nTruncate isCommit es -> writer_ok szPage es s ->
  w_readLock s <> 0 -> (iFirst = 0 \/ iFirst = mxFrame (w_shm s) + 1) -> (restarted = true -> es = []) ->
  exists rc pn s', write_frames bo host_big shmMap env al junk szPage L nTruncate isCommit iFirst restarted s = Some (rc, pn, s') /\
    frames_outcome L nTruncate isCommit es s s' rc pn /\
    ((forall i, shmMap i = SQLITE_OK) -> never_fails al -> w_io s = [] -> rc = SQLITE_OK).
Proof.
  intros Henv Hcall Hw Hrl HiF Hrest. unfold write_frames. rewrite (wt_mx _ _ _ Hw).
  destruct (decide (es = [])) as [->|Hne].
  - destruct (writer_empty s Hw) as (H0 & H1 & H2). change (alen ([] : list entry) =? 0) with true. cbv iota.
    destruct (write_header_ok bo host_big env szPage s) as (ret & rc & s1 & -> & Hr & Hret & Hok & C); try done; try apply Hw; try apply Henv.
    cbn [mbind option_bind]. injection Hr as R1 R2 R3 R4 R5 R6 R7 R8 R9. destruct ret.
    { assert (rc <> SQLITE_OK) by by apply Hret. eexists _, _, _. split; [done|]. split; [|intros _ _ Hc; by destruct (C Hc)].
      split; [|done]. intros _. apply still_empty; congruence. }
    destruct (decide (rc = SQLITE_OK)) as [->|Hrc]; [|by apply Hret in Hrc]. destruct (Hok eq_refl) as (Es & Hsalt & Hf).
    rewrite Es, Z.eqb_refl. cbn [negb]. destruct (fo_log _ _ _ _ _ _ Hf) as [Hb _].
    assert (Hw1 : writer_ok szPage [] s1).
    { constructor; rewrite ?R1, ?R2, ?R3, ?R4, ?R5, ?R6, ?R7, ?R8; try apply Hw; try done.
      - split; [apply Hf|apply Hw].
      - apply Hf.
      - apply Hf. }
    assert (Hl : shm_log (w_nCkpt s) [] s1) by (intros Hx; congruence).
    rewrite <- Hb in Hf. destruct (log_frames_writer env al junk L nTruncate isCommit iFirst restarted (w_nCkpt s) [] s1) as (rc & pn & s' & E & Ho & Hc); try done.
    { apply Hw. } { congruence. } { by rewrite R1. }
    exists rc, pn, s'. split; [done|]. split; [by apply (outcome_shm _ _ _ _ _ s1)|]. intros Hm Hal Hio. apply Hc; try done. by apply C.
  - destruct (wt_log _ _ _ Hw Hne) as (Es & nCkpt & HnC & Hf & Hl). destruct (Z.eqb_spec (alen es) 0) as [E0|_]; [by destruct es|].
    cbn [mbind option_bind]. rewrite Es, Z.eqb_refl. cbn [negb]. by apply (log_frames_writer _ _ _ _ _ _ _ _ nCkpt).
Qed.

Lemma still_unchanged es s s' : writer_ok szPage es s -> w_shm s' = w_shm s -> w_wal s' = w_wal s -> w_pages s' = w_pages s -> still_committed szPage es s s'.
Proof.
  intros Hw Es Ew Ep. destruct (decide (es = [])) as [->|Hne]; [apply still_empty; [apply (writer_empty s Hw)|done]|].
  destruct (wt_log _ _ _ Hw Hne) as (_ & nCkpt & HnC & Hf & Hl). apply (committed_kept nCkpt); try done; [rewrite Ew; apply keeps_refl|]. rewrite Ep. apply Hw.
Qed.

(** The log was restarted: it was wholly in the database file. *)
Definition log_restarted (s s' : Writer) : Prop :=
  w_readLock s = 0 /\ 0 < nBackfill (w_info s) /\ nBackfill (w_info s) = mxFrame (w_shm s) /\ published host_big (w_shm s').

(** A connection that reads the database file only, not the log, must get a read
    mark before it writes; [walRestartLog] reports no error. *)
Definition restart_succeeds (env : WriteEnv) (s : Writer) : Prop :=
  w_readLock s = 0 -> exists restarted s0, walRestartLog bo host_big shmMap env s = Some (SQLITE_OK, restarted, s0).

Lemma walFrames_run env al junk L nTruncate isCommit es s :
  env_ok env -> call_ok env junk szPage L nTruncate isCommit es -> writer_ok szPage es s ->
  exists rc pn s', walFrames bo host_big shmMap env al junk szPage L nTruncate isCommit s = Some (rc, pn, s') /\
    (frames_outcome L nTruncate isCommit es s s' rc pn \/
     log_restarted s s' /\ exists s1, mxFrame (w_shm s1) = 0 /\ frames_outcome L nTruncate isCommit [] s1 s' rc pn) /\
    (restart_succeeds env s -> (forall i, shmMap i = SQLITE_OK) -> never_fails al -> w_io s = [] -> rc = SQLITE_OK).
Proof.
  intros Henv Hcall Hw. unfold walFrames. destruct (wt_wf _ _ _ Hw) as [Hwf Hwf2].
  set (iFirst := if bool_decide (w_hdr s = w_shm s) then 0 else mxFrame (w_shm s) + 1).
  assert (HiF : iFirst = 0 \/ iFirst = mxFrame (w_shm s) + 1) by (unfold iFirst; case_bool_decide; tauto).
  destruct (restart_log_ok bo host_big shmMap env s Henv Hwf (wt_marks _ _ _ Hw) (wt_nCkpt _ _ _ Hw) (wt_minFrame _ _ _ Hw))
    as (rc & restarted & s1 & E & Hr & Ho & Hm1 & Hn1 & Hok).
  rewrite E. cbn [mbind option_bind]. injection Hr as R1 R2 R3 R4 R5. destruct (Z.eqb_spec rc SQLITE_OK) as [->|Hrc]; cbn [negb].
  2:{ eexists _, _, _. split; [done|]. split.
      - unfold restart_outcome in Ho. destruct restarted.
        + destruct Ho as (O1 & O2 & O3 & O4 & O5). destruct (wt_readLock _ _ _ Hw O1) as [Eh Eb]. right. split; [split_and!; congruence|].
          exists s1. split; [congruence|]. split; [|done]. intros _. apply still_empty; congruence.
        + destruct Ho as (O1 & O2 & O3 & O4). left. split; [|done]. intros _. by apply still_unchanged.
      - intros Hs _ _ _. destruct (Z.eqb_spec (w_readLock s) 0) as [Hrl|Hrl].
        + destruct (Hs Hrl) as (b & s0 & E'). congruence.
        + unfold walRestartLog in E. apply Z.eqb_neq in Hrl. rewrite Hrl in E. cbn in E. simplify_eq. }
  destruct (Hok eq_refl) as [Hrl1 Hmin1]. unfold restart_outcome in Ho. destruct restarted.
  - destruct Ho as (O1 & O2 & O3 & O4 & O5). destruct (wt_readLock _ _ _ Hw O1) as [Eh Eb].
    assert (Hr0 : w_iReCksum s = 0).
    { pose proof (wt_recksum _ _ _ Hw) as Hx. pose proof (wt_mx _ _ _ Hw) as Hy. rewrite Eh in Hy. lia. }
    assert (Hw1 : writer_ok szPage [] s1).
    { assert (Hwf1 : hdr_wf (w_hdr s1)) by apply O3. constructor; rewrite ?R1, ?R2, ?R5, ?O4; try done; try apply Hw.
      - rewrite O5. unfold alen. cbn. lia.
      - by left.
      - by rewrite drop_nil.
      - exists []. apply index_ok_empty. }
    destruct (write_frames_writer env al junk L nTruncate isCommit iFirst true [] s1) as (rc & pn & s' & -> & Hf & Hc); try done.
    { destruct Hcall. split; try done. change (alen ([] : list entry)) with 0. pose proof (alen_nonneg es). lia. }
    { left. unfold iFirst. by rewrite bool_decide_true. }
    exists rc, pn, s'. split; [done|]. split; [right|intros _ Hm Hal Hio; apply Hc; try done; congruence]. split; [|exists s1; split; [congruence|done]].
    split_and!; [done|done|congruence|]. destruct (decide (rc = SQLITE_OK)) as [Hrc|Hrc].
    + destruct (proj2 Hf Hrc) as (es' & _ & _ & _ & _ & Hx). destruct isCommit; [by destruct Hx as (-> & ? & _)|by destruct Hx as (-> & _); rewrite O4].
    + destruct (proj1 Hf Hrc) as (-> & _). by rewrite O4.
  - destruct Ho as (O1 & O2 & O3 & O4).
    assert (Hw1 : writer_ok szPage es s1).
    { constructor; rewrite ?R1, ?R2, ?R3, ?R4, ?R5, ?O1, ?O2, ?O3; try done; try apply Hw. intros Hne. destruct (wt_log _ _ _ Hw Hne) as (? & nc & HnC & Hf & ?). split; [done|].
      exists nc. split; [done|]. split; [|done]. apply (frames_ok_hdr _ _ _ _ _ s); try done; by rewrite O1. }
    destruct (write_frames_writer env al junk L nTruncate isCommit iFirst false es s1) as (rc & pn & s' & -> & Hf & Hc); try done.
    { by rewrite O2. }
    exists rc, pn, s'. split; [done|]. split; [left; by apply (outcome_shm _ _ _ _ _ s1)|]. intros _ Hm Hal Hio. apply Hc; try done. congruence.
Qed.
End Writer.

(** ** Rollback *)

Lemma frame_pgno shmMap w ps f : index_ok w ps -> 1 <= f <= alen ps -> walFramePgno shmMap w f = aget ps (f - 1).
Proof.
  intros (Hmax & _ & Htab) Hf. pose proof (walFramePage_range f ltac:(lia)) as [Hi Hr]. unfold walFramePgno.
  destruct (Htab (walFramePage f) Hi ltac:(lia)) as (p & Hp & Hok).
  assert (Hg : aget (aPgno p) (f - 1 - zero_of (walFramePage f)) = aget ps (f - 1)).
  { rewrite (tab_pgno _ _ _ Hok), aget_tab by (try rewrite alen_tab; lia). f_equal. lia. }
  destruct (Z.eqb_spec (walFramePage f) 0) as [E|E].
  - rewrite E in Hp, Hg. rewrite Hp. cbn [mbind option_bind]. rewrite <- Hg. f_equal. unfold zero_of. cbn. lia.
  - unfold walIndexPage. rewrite Hp. rewrite <- Hg. f_equal. unfold zero_of in *. apply Z.eqb_neq in E. rewrite E in *.
    unfold page_entries in Hr. rewrite E in Hr. unfold HASHTABLE_NPAGE_ONE, HASHTABLE_NPAGE in *.
    symmetry. apply (Z.mod_unique _ _ (walFramePage f - 1)); lia.
Qed.

(** All calls of [xUndo] succeed. *)
Definition undo_ok (rcs : list Z) : Prop := Forall (fun rc => rc = SQLITE_OK) rcs.

Lemma undo_loop_ok shmMap w ps : index_ok w ps -> forall n iFrame rcs, 1 <= iFrame -> iFrame + Z.of_nat n <= alen ps + 1 ->
  exists rc l, undo_loop shmMap n w iFrame rcs = Some (rc, l) /\ l `prefix_of` take n (drop (Z.to_nat (iFrame - 1)) ps) /\
    (undo_ok rcs -> rc = SQLITE_OK /\ l = take n (drop (Z.to_nat (iFrame - 1)) ps)).
Proof.
  intros Hw. induction n as [|n IH]; intros iFrame rcs H1 Hn; cbn [undo_loop]; [by eexists _, _|].
  rewrite (frame_pgno _ _ ps) by (done || lia). destruct (aget_is_Some ps (iFrame - 1)) as [pg Hpg]; [lia|]. rewrite Hpg. cbn [mbind option_bind].
  assert (Hd : drop (Z.to_nat (iFrame - 1)) ps = pg :: drop (Z.to_nat (iFrame + 1 - 1)) ps).
  { unfold aget in Hpg. destruct (0 <=? iFrame - 1); [|done]. erewrite drop_S by done. do 2 f_equal. lia. }
  rewrite Hd. cbn [take]. destruct (Z.eqb_spec (default SQLITE_OK (head rcs)) SQLITE_OK) as [Er|Er]; cbn [negb].
  - destruct (IH (iFrame + 1) (tail rcs) ltac:(lia) ltac:(lia)) as (rc & l & -> & Hp & Hok). cbn [mbind option_bind].
    eexists _, _. split; [done|]. split; [by apply prefix_cons|]. intros Hrcs. destruct Hok as [-> ->]; [|done]. destruct Hrcs; [constructor|done].
  - eexists _, _. split; [done|]. split; [apply prefix_cons, prefix_nil|]. intros Hrcs. exfalso. apply Er. destruct Hrcs as [|x l Hx _]; [done|exact Hx].
Qed.

(** [sqlite3WalEndWriteTransaction] on this state *)
Definition end_write_transaction (s : Writer) : Writer :=
  MkWriter (w_io s) (w_wal s) (w_hdr s) (w_shm s) (w_info s) (w_pages s) (w_szPage s) (w_nCkpt s) 0 (w_readLock s)
    (w_minFrame s) false (w_iCallback s).

Section Rollback.
Context (shmMap : Z -> Z) (szPage : Z) (Hsz : pagesize_ok szPage = true).

(** The log cut down to its first [m] frames: with the running checksum that
    belongs to them, or with the first frame to rewrite among them. *)
Lemma writer_cut es s m h recksum pages info readLock trunc : writer_ok szPage es s -> mxFrame (w_shm s) <= m <= alen es -> hdr_wf h -> mxFrame h = m ->
  (exists stale, index_ok pages (map en_pgno (take (Z.to_nat m) es) ++ stale)) ->
  (m <> 0 -> bigEndCksum h = bigEndCksum (w_hdr s) /\ aSalt h = aSalt (w_hdr s)) ->
  (recksum = 0 /\ (w_iReCksum s = 0 \/ m < w_iReCksum s) \/ recksum = w_iReCksum s /\ w_iReCksum s <= m) ->
  (recksum = 0 -> forall nCkpt, m <> 0 -> frames_ok (bigEndCksum (w_hdr s)) szPage nCkpt (aSalt (w_hdr s)) es s ->
     (mxFrame (w_shm s) <> 0 -> aFrameCksum (w_shm s) = log_cksum (bigEndCksum (w_hdr s)) (header_cksum (bigEndCksum (w_hdr s)) szPage nCkpt (aSalt (w_hdr s)))
                                              (take (Z.to_nat (mxFrame (w_shm s))) es)) ->
     aFrameCksum h = log_cksum (bigEndCksum (w_hdr s)) (header_cksum (bigEndCksum (w_hdr s)) szPage nCkpt (aSalt (w_hdr s))) (take (Z.to_nat m) es)) ->
  alen (aReadMark info) = WAL_NREADER -> (readLock = 0 -> h = w_shm s /\ nBackfill info = m) ->
  writer_ok szPage (take (Z.to_nat m) es)
    (MkWriter (w_io s) (w_wal s) h (w_shm s) info pages (w_szPage s) (w_nCkpt s) recksum readLock (w_minFrame s) trunc (w_iCallback s)).
Proof.
  intros Hw Hm Hwf Hmx Hix Hlog Hre Hck Hmk Hrl. destruct (wt_wf _ _ _ Hw) as [_ Hwf2]. pose proof (wf_mxFrame _ Hwf2) as Hm0. unfold is_u32 in Hm0.
  assert (Lm : alen (take (Z.to_nat m) es) = m) by (apply alen_take; lia).
  assert (Hnil : take (Z.to_nat m) es <> [] -> es <> []) by (intros H ->; by rewrite take_nil in H).
  constructor; cbn [w_io w_wal w_hdr w_shm w_info w_pages w_szPage w_nCkpt w_iReCksum w_readLock w_minFrame]; rewrite ?Lm, ?Hmx; try done; try apply Hw; try lia.
  - intros Hne. assert (Hm1 : m <> 0) by (intros ->; by rewrite take_0 in Hne).
    destruct (wt_log _ _ _ Hw (Hnil Hne)) as (Es & nC & HnC & Hf & Hs). destruct (Hlog Hm1) as [-> ->]. split; [done|]. exists nC. split; [done|]. split.
    + pose proof (fo_re _ _ _ _ _ _ Hf) as Hfr. constructor; cbn [w_wal w_io w_hdr w_iReCksum]; try apply Hf; try done.
      * by apply Hlog.
      * intros i e Hi. apply lookup_take_Some in Hi as [Hi _]. by apply (fo_raw _ _ _ _ _ _ Hf).
      * rewrite Lm. destruct Hre as [[-> _]|[-> ?]]; lia.
      * pose proof (fo_chain _ _ _ _ _ _ Hf) as Hch. unfold valid_frames in *. cbn [w_iReCksum].
        destruct Hre as [[-> Hr0]|[-> Hr1]].
        -- cbn [Z.eqb]. rewrite firstn_all. apply (frames_at_take _ _ _ _ _ _ _ (Z.to_nat m)) in Hch. rewrite take_take, Nat.min_l in Hch; [done|].
           unfold alen in *. destruct (Z.eqb_spec (w_iReCksum s) 0); lia.
        -- destruct (Z.eqb_spec (w_iReCksum s) 0) as [E0|E0]; [rewrite firstn_all; by apply frames_at_take; rewrite firstn_all in Hch|].
           rewrite take_take, Nat.min_l by lia. done.
      * intros E0. apply (Hck E0 nC Hm1 Hf). intros H0. by apply Hs.
    + intros H0. destruct (Hs H0) as (S1 & S2 & S3). split_and!; [done|done|]. rewrite take_take, Nat.min_l by lia. done.
  - pose proof (wt_recksum _ _ _ Hw). lia.
  - rewrite skipn_firstn_comm. apply Forall_take. apply Hw.
Qed.

Lemma undo_run rcs es s : writer_ok szPage es s ->
  exists rc l s', sqlite3WalUndo shmMap rcs s = Some (rc, l, s') /\ w_hdr s' = w_shm s /\ w_shm s' = w_shm s /\ w_wal s' = w_wal s /\
    writer_ok szPage (take (Z.to_nat (mxFrame (w_shm s))) es) (end_write_transaction s') /\
    l `prefix_of` map en_pgno (drop (Z.to_nat (mxFrame (w_shm s))) es) /\
    (undo_ok rcs -> rc = SQLITE_OK /\ l = map en_pgno (drop (Z.to_nat (mxFrame (w_shm s))) es)).
Proof.
  intros Hw. destruct (wt_index _ _ _ Hw) as [stale Hix]. destruct (wt_wf _ _ _ Hw) as [_ Hwf2]. pose proof (wf_mxFrame _ Hwf2) as Hm0. unfold is_u32 in Hm0.
  pose proof (wt_committed _ _ _ Hw) as Hnc. set (nc := mxFrame (w_shm s)) in *.
  assert (Lps : alen (map en_pgno es) = alen es) by (unfold alen; by rewrite length_map). pose proof (alen_nonneg stale) as Hst.
  unfold sqlite3WalUndo. rewrite (wt_mx _ _ _ Hw). cbn [w_set_hdr w_hdr w_pages]. fold nc.
  destruct (undo_loop_ok shmMap (w_pages s) _ Hix (Z.to_nat (alen es - nc)) (nc + 1) rcs) as (rc & l & -> & Hp & Hok); [lia|rewrite alen_app; lia|].
  assert (El : take (Z.to_nat (alen es - nc)) (drop (Z.to_nat (nc + 1 - 1)) (map en_pgno es ++ stale)) = map en_pgno (drop (Z.to_nat nc) es)).
  { rewrite Z.add_simpl_r, drop_app_le by (rewrite length_map; unfold alen in *; lia). rewrite take_app_length' by (rewrite length_drop, length_map; unfold alen in *; lia).
    by rewrite skipn_map. }
  rewrite El in Hp, Hok. cbn [mbind option_bind].
  match goal with |- exists _ _ _, Some (rc, l, ?x) = _ /\ _ => set (s' := x) end. exists rc, l, s'. split; [done|].
  assert (Es : w_hdr s' = w_shm s /\ w_shm s' = w_shm s /\ w_wal s' = w_wal s) by (unfold s'; by destruct (negb _)). destruct Es as (E1 & E2 & E3).
  split_and!; try done.
  assert (Hpre : map en_pgno (take (Z.to_nat nc) es) = take (Z.to_nat nc) (map en_pgno es ++ stale)).
  { rewrite take_app_le by (rewrite length_map; unfold alen in *; lia). by rewrite firstn_map. }
  assert (Hix' : exists stale', index_ok (w_pages s') (map en_pgno (take (Z.to_nat nc) es) ++ stale')).
  { unfold s'. destruct (negb _); cbn [w_set_pages w_set_hdr w_pages].
    - exists []. rewrite app_nil_r, Hpre. apply index_cleanup; [done|]. rewrite alen_app. lia.
    - exists (map en_pgno (drop (Z.to_nat nc) es) ++ stale). by rewrite app_assoc, <- map_app, take_drop. }
  assert (Ee : end_write_transaction s' = MkWriter (w_io s) (w_wal s) (w_shm s) (w_shm s) (w_info s) (w_pages s') (w_szPage s) (w_nCkpt s) 0 (w_readLock s) (w_minFrame s) false (w_iCallback s))
    by (unfold s', end_write_transaction; by destruct (negb _)).
  rewrite Ee. apply writer_cut; try done.
  - intros H0. destruct (decide (es = [])) as [->|Hne]; [unfold alen in Hnc; cbn in Hnc; lia|].
    destruct (wt_log _ _ _ Hw Hne) as (_ & nC & _ & _ & Hs). destruct (Hs H0) as (? & ? & _). done.
  - left. split; [done|]. pose proof (wt_recksum _ _ _ Hw) as Hr. fold nc in Hr. lia.
  - intros _ nC H0 _ Hs. by apply Hs.
  - apply Hw.
  - intros Hrl. split; [done|]. destruct (wt_readLock _ _ _ Hw Hrl) as [Eh ->]. by rewrite Eh.
Qed.

(** The savepoint is one of this transaction: its checksum is that of its
    frames, unless some frame waits for a new checksum. *)
Record savepoint_ok (v : savepoint) (es : list entry) (s : Writer) : Prop := {
  so_nCkpt : sv_nCkpt v = w_nCkpt s;
  so_mx : mxFrame (w_shm s) <= sv_mxFrame v <= alen es;
  so_range : is_u32_pair (sv_cksum v);
  so_cksum : w_iReCksum s = 0 -> forall nCkpt, frames_ok (bigEndCksum (w_hdr s)) szPage nCkpt (aSalt (w_hdr s)) es s ->
    sv_cksum v = log_cksum (bigEndCksum (w_hdr s)) (header_cksum (bigEndCksum (w_hdr s)) szPage nCkpt (aSalt (w_hdr s))) (take (Z.to_nat (sv_mxFrame v)) es)
}.

Lemma savepoint_undo_run v es s : writer_ok szPage es s -> savepoint_ok v es s -> w_iReCksum s <= sv_mxFrame v -> w_readLock s <> 0 ->
  exists s', sqlite3WalSavepointUndo shmMap v s = (v, s') /\ w_shm s' = w_shm s /\ w_wal s' = w_wal s /\
    writer_ok szPage (take (Z.to_nat (sv_mxFrame v)) es) s'.
Proof.
  intros Hw [Hn Hm Hr Hck] Hre Hrl. destruct (wt_index _ _ _ Hw) as [stale Hix]. destruct (wt_wf _ _ _ Hw) as [Hwf Hwf2].
  pose proof (wf_mxFrame _ Hwf2) as Hm0. unfold is_u32 in Hm0. unfold sqlite3WalSavepointUndo. rewrite Hn, Z.eqb_refl. cbn [negb].
  rewrite (wt_mx _ _ _ Hw). set (m := sv_mxFrame v) in *. destruct (Z.ltb_spec m (alen es)) as [Hlt|Hge].
  2:{ exists s. split_and!; try done. rewrite take_ge; [done|]. unfold alen in *. lia. }
  eexists. split; [done|]. split; [done|]. split; [done|].
  set (h := set_aFrameCksum (sv_cksum v) (set_mxFrame m (w_hdr s))). cbn [w_set_hdr w_hdr w_pages]. fold h.
  change (mxFrame h) with m.
  pose proof (wt_mx _ _ _ Hw) as Hmx. pose proof (wf_mxFrame _ Hwf) as Hm1. rewrite Hmx in Hm1. unfold is_u32 in Hm1.
  apply (writer_cut es s m h (w_iReCksum s) _ (w_info s) (w_readLock s) (w_truncateOnCommit s)); try done.
  - destruct Hwf. constructor; try done. unfold is_u32. cbn. lia.
  - exists []. rewrite app_nil_r. rewrite <- firstn_map.
    replace (take (Z.to_nat m) (map en_pgno es)) with (take (Z.to_nat m) (map en_pgno es ++ stale)); [|rewrite take_app_le; [done|rewrite length_map; unfold alen in *; lia]].
    apply index_cleanup; [done|]. rewrite alen_app. pose proof (alen_nonneg stale). unfold alen at 1. rewrite length_map. unfold alen in *. lia.
  - by right.
  - intros E0 nC _ Hf _. by apply (Hck E0).
  - apply Hw.
Qed.
End Rollback.

(** ** Rollback to a savepoint when frames after it were rewritten *)

(** A frame whose salt bytes are zero ends the log. *)
Lemma zero_frame_ends big salt szPage wal nCkpt m es : pagesize_ok szPage = true -> length salt = 8%nat -> salt <> replicate 8 0 -> 0 <= m ->
  fread wal (walFrameOffset (m + 1) szPage + 8) 16 = replicate 16 0 ->
  frames_at big salt szPage wal 1 (header_cksum big szPage nCkpt salt) es -> alen es <= m.
Proof.
  intros Hsz Ls Hne Hm Hz Hf. pose proof (pagesize_units szPage Hsz) as [? _]. destruct (Z.le_gt_cases (alen es) m) as [|Hgt]; [done|]. exfalso.
  destruct (lookup_lt_is_Some_2 es (Z.to_nat m)) as [e He]; [unfold alen in Hgt; lia|].
  apply (frames_at_take _ _ _ _ _ _ _ (S (Z.to_nat m))) in Hf. erewrite take_S_r in Hf by done.
  apply frames_at_app in Hf as (_ & He' & _ & Hb & _). rewrite alen_take in Hb by lia. rewrite (Z.add_comm 1) in Hb.
  unfold WAL_FRAME_HDRSIZE in Hb. replace (szPage + 24) with (8 + (16 + szPage)) in Hb by lia. rewrite !fread_split, Hz in Hb by lia.
  unfold entry_bytes in Hb. apply app_inj_1 in Hb as [_ Hb]; [|unfold fread; by rewrite length_map, length_seqZ, entry_head_length].
  change (replicate 16 0) with (replicate 8 0 ++ replicate 8 0) in Hb. rewrite <- app_assoc in Hb.
  apply app_inj_1 in Hb as [Hb _]; [by apply Hne|]. by rewrite Ls.
Qed.

Section Lost.
Context (bo : byteorder) (host_big : bool) (shmMap : Z -> Z) (Hmap : forall i, shmMap i = SQLITE_OK).
Context (szPage : Z) (Hsz : pagesize_ok szPage = true).

(** The frame of a commit of one page, when the first frame to rewrite lies
    beyond it. *)
Lemma one_frame_lost p nTruncate s : io_ok (w_io s) -> w_io s = [] -> hdr_wf (w_hdr s) -> page_entry_ok szPage p -> is_u32 nTruncate ->
  0 < mxFrame (w_hdr s) -> w_iReCksum s <> 0 ->
  let off := walFrameOffset (mxFrame (w_hdr s) + 1) szPage in
  exists t, length t = 16%nat /\ t = replicate 16 0 /\
  walWriteOneFrame bo host_big 0 szPage p nTruncate off s
  = Some (SQLITE_OK, w_set_file [] (fwrite (w_wal s) off ((entry_head (MkEntry (pg_pgno p) nTruncate (pg_data p)) ++ t) ++ pg_data p)) s).
Proof.
  intros Hio Hc Hwf [Hp Hd] Hnt Hm Hre off. exists (replicate 16 0). split_and!; [done|done|].
  pose proof (pagesize_units szPage Hsz) as [? _]. pose proof (walFrameOffset_nonneg (mxFrame (w_hdr s) + 1) szPage ltac:(lia) ltac:(lia)) as Ho.
  fold off in Ho. unfold WAL_HDRSIZE in Ho. set (e := MkEntry (pg_pgno p) nTruncate (pg_data p)).
  assert (He : entry_ok szPage e) by (split; [exact Hp|split; [exact Hnt|exact Hd]]).
  unfold walWriteOneFrame. pose proof (encode_entry bo host_big (w_hdr s) (w_iReCksum s) szPage e (hdr_wf_ok _ Hwf) He) as Ee. cbn [en_pgno en_truncate en_data e] in Ee.
  rewrite Ee. cbn [mbind option_bind]. apply Z.eqb_neq in Hre. unfold frame_tail. rewrite Hre. fold e.
  unfold walWriteToLog. replace (off <? 0) with false by (symmetry; apply Z.ltb_ge; lia). cbn [andb w_set_hdr w_io w_wal]. rewrite Hc.
  unfold os_write. cbn [io_next]. change (SQLITE_OK =? SQLITE_OK) with true. cbn [negb w_set_file w_io w_wal].
  replace (off + WAL_FRAME_HDRSIZE <? 0) with false by (symmetry; apply Z.ltb_ge; unfold WAL_FRAME_HDRSIZE; lia). cbn [andb io_next].
  change WAL_FRAME_HDRSIZE with (alen (entry_head e ++ replicate 16 0)). rewrite fwrite_app by lia. by destruct s.
Qed.

(** Nothing is rewritten: the first frame to rewrite lies beyond the last. *)
Lemma rewrite_beyond al junk iLast s : never_fails al -> w_io s = [] -> w_szPage s = szPage -> Forall is_u8 (w_wal s) ->
  1 < w_iReCksum s -> iLast < w_iReCksum s -> walFrameOffset (w_iReCksum s) szPage <= alen (w_wal s) ->
  exists c, is_u32_pair c /\ walRewriteChecksums bo host_big al junk iLast s
    = Some (SQLITE_OK, w_set_recksum 0 (w_set_hdr (set_aFrameCksum c (w_hdr s)) s)).
Proof.
  intros Hal Hc Hws Hb Hre Hlast Hend. unfold walRewriteChecksums. destruct (malloc_never_fails al Hal) as (al' & -> & _). cbn [negb].
  replace (w_iReCksum s =? 1) with false by (symmetry; apply Z.eqb_neq; lia). rewrite Hws, Hc.
  set (coff := walFrameOffset (w_iReCksum s - 1) szPage + 16).
  pose proof (walFrameOffset_succ (w_iReCksum s - 1) szPage) as Hsucc. replace (w_iReCksum s - 1 + 1) with (w_iReCksum s) in Hsucc by lia.
  pose proof (pagesize_units szPage Hsz) as [? _]. unfold WAL_FRAME_HDRSIZE in Hsucc.
  unfold os_read. cbn [io_next]. replace (coff + 8 <=? alen (w_wal s)) with true by (symmetry; apply Z.leb_le; unfold coff; lia).
  change (SQLITE_OK =? SQLITE_OK) with true. cbv iota.
  assert (Hfb : Forall is_u8 (fread (w_wal s) coff 8)) by by apply fread_u8.
  assert (Lfb : length (fread (w_wal s) coff 8) = 8%nat) by (unfold fread; by rewrite length_map, length_seqZ).
  destruct (get_any bo (fread (w_wal s) coff 8)) as (c0 & c1 & E0 & E1); [done|lia|]. rewrite E0, E1.
  cbn [mbind option_bind negb]. cbn [w_set_hdr w_set_file w_iReCksum]. replace (Z.to_nat (iLast - w_iReCksum s + 1)) with 0%nat by lia. cbn [rewrite_loop].
  exists (c0, c1). split; [|by destruct s; cbn in *; subst].
  rewrite get4byte_be in E0, E1 by (try apply Forall_drop; done). split; cbn [fst snd]; eapply load32_range; [exact Hfb|exact E0|apply Forall_drop; exact Hfb|exact E1].
Qed.

Lemma finish_lost env al junk p nTruncate iFrame iOffset append s : never_fails al -> w_io s = [] -> we_sector env = None -> w_szPage s = szPage ->
  Forall is_u8 (w_wal s) -> hdr_wf (w_hdr s) -> 0 <= iFrame -> 1 < w_iReCksum s -> iFrame < w_iReCksum s -> walFrameOffset (w_iReCksum s) szPage <= alen (w_wal s) ->
  exists s', finish_frames bo host_big env al junk szPage nTruncate true (MkLoop iFrame iOffset (Some p) append) s = Some (false, SQLITE_OK, 0, s') /\
    (exists c, is_u32_pair c /\ w_hdr s' = set_aFrameCksum c (w_hdr s)) /\ w_pages s' = w_pages s /\
    keeps (walFrameOffset (iFrame + 1) szPage) (w_wal s) (w_wal s').
Proof.
  intros Hal Hc Hns Hws Hb Hwf Hi Hre Hlast Hend. pose proof (pagesize_units szPage Hsz) as [? _]. unfold finish_frames. cbn [andb fl_iFrame].
  replace (w_iReCksum s =? 0) with false by (symmetry; apply Z.eqb_neq; lia). cbn [negb].
  destruct (rewrite_beyond al junk iFrame s) as (c & Hcr & ->); try done. cbn [mbind option_bind]. change (SQLITE_OK =? SQLITE_OK) with true. cbn [negb].
  set (s1 := w_set_recksum 0 _).
  assert (Ep : (if we_sync env then pad_and_sync bo host_big env szPage nTruncate (MkLoop iFrame iOffset (Some p) append) s1 else Some (false, SQLITE_OK, 0, s1))
               = Some (false, SQLITE_OK, 0, s1)).
  { destruct (we_sync env); [|done]. unfold pad_and_sync. rewrite Hns. cbn [mbind option_bind]. unfold os_sync. change (w_io s1) with (w_io s). rewrite Hc. cbn [io_next].
    unfold s1. by destruct s; cbn in *; subst. }
  rewrite Ep. cbn [mbind option_bind]. destruct (w_truncateOnCommit s1 && (0 <=? we_mxWalSize env)).
  2:{ exists s1. split; [done|]. split; [by exists c|]. split; [done|apply keeps_refl]. }
  destruct (walLimitSize _ _ _) as [f io] eqn:El. eexists. split; [done|]. split; [by exists c|]. split; [done|]. cbn [w_wal].
  pose proof (walFrameOffset_nonneg (iFrame + 1) szPage ltac:(lia) ltac:(lia)) as Ho. unfold WAL_HDRSIZE in Ho.
  apply limit_size_ok with (m := walFrameOffset (iFrame + 1) szPage) in El as (Kl & _); [exact Kl|change (w_io s1) with (w_io s); rewrite Hc; constructor|].
  rewrite Z.add_0_r. lia.
Qed.

Lemma commit_lost env al junk p nTruncate es stale s :
  call_ok env junk szPage [p] nTruncate true es -> w_io s = [] -> never_fails al -> we_sector env = None ->
  hdr_wf (w_hdr s) -> w_szPage s = szPage -> w_readLock s <> 0 ->
  0 < mxFrame (w_hdr s) -> mxFrame (w_hdr s) <= alen es -> mxFrame (w_hdr s) + 1 < w_iReCksum s ->
  walFrameOffset (w_iReCksum s) szPage <= alen (w_wal s) ->
  Forall is_u8 (w_wal s) -> index_ok (w_pages s) (take (Z.to_nat (mxFrame (w_hdr s))) (map en_pgno es) ++ stale) ->
  exists pn s', walFrames bo host_big shmMap env al junk szPage [p] nTruncate true s = Some (SQLITE_OK, pn, s') /\
    w_shm s' = w_hdr s' /\ published host_big (w_hdr s') /\ mxFrame (w_hdr s') = mxFrame (w_hdr s) + 1 /\ nPage (w_hdr s') = nTruncate
    /\ aSalt (w_hdr s') = aSalt (w_hdr s) /\ bigEndCksum (w_hdr s') = bigEndCksum (w_hdr s)
    /\ fread (w_wal s') (walFrameOffset (mxFrame (w_hdr s) + 1) szPage + 8) 16 = replicate 16 0.
Proof.
  intros [Hsec [Hju Hjl] [HL HF] [Hnt Hcm] Hroom] Hc Hal Hns Hwf Hws Hrl Hm0 Hmes Hre Hend Hb Hix.
  pose proof (pagesize_units szPage Hsz) as [? _]. set (m := mxFrame (w_hdr s)) in *. set (off := walFrameOffset (m + 1) szPage).
  pose proof (walFrameOffset_nonneg (m + 1) szPage ltac:(lia) ltac:(lia)) as Ho. fold off in Ho. unfold WAL_HDRSIZE in Ho.
  apply Forall_cons in HF as [Hp _]. assert (Hio : io_ok (w_io s)) by (rewrite Hc; constructor).
  destruct (one_frame_lost p nTruncate s Hio Hc Hwf Hp Hnt Hm0 ltac:(lia)) as (t & Lt & Et & Ew). fold m off in Ew.
  set (f := fwrite (w_wal s) off _) in Ew. set (s1 := w_set_file [] f s) in Ew.
  assert (Lf : alen (w_wal s) <= alen f) by (unfold f; rewrite alen_write by lia; lia).
  assert (Hz : fread f (off + 8) 16 = replicate 16 0) by (unfold f; rewrite written_tail by (done || lia); done).
  assert (Bf : Forall is_u8 f).
  { destruct Hp as [_ (_ & _ & _ & Hd)]. unfold f. apply fwrite_u8; [done|]. apply Forall_app_2; [apply Forall_app_2; [apply entry_head_bytes|]|done].
    rewrite Et. apply Forall_replicate. by unfold is_u8. }
  unfold walFrames. set (iFirst := if bool_decide _ then _ else _). unfold walRestartLog. apply Z.eqb_neq in Hrl as Erl. rewrite Erl. cbn [negb mbind option_bind].
  change (SQLITE_OK =? SQLITE_OK) with true. cbn [negb]. unfold write_frames. fold m. replace (m =? 0) with false by (symmetry; apply Z.eqb_neq; lia).
  cbn [mbind option_bind]. rewrite Hws, Z.eqb_refl. cbn [negb]. unfold log_frames. cbn [frames_loop]. fold m off.
  rewrite bool_decide_true by done. cbn [negb andb orb fl_iOffset fl_iFrame fl_append app]. rewrite andb_false_r. cbn [mbind option_bind fl_iOffset]. rewrite Ew. cbn [mbind option_bind].
  change (SQLITE_OK =? SQLITE_OK) with true. cbn [negb mbind option_bind].
  destruct (finish_lost env al junk p nTruncate (m + 1) (off + (szPage + WAL_FRAME_HDRSIZE)) [pg_pgno p] s1) as (s2 & -> & (c & Hcr & Hh) & Hpg & Kf); try done; try lia.
  { cbn [s1 w_set_file w_iReCksum]. lia. } { cbn [s1 w_set_file w_iReCksum w_wal]. lia. }
  cbn [mbind option_bind fl_append fl_last]. change (Z.to_nat 0) with 0%nat. cbn [replicate app].
  assert (Hwf2 : hdr_wf (w_hdr s2)) by (rewrite Hh; by apply hdr_wf_cksum).
  assert (Lm : alen (take (Z.to_nat m) (map en_pgno es)) = m) by (apply alen_take; unfold alen in *; rewrite length_map; lia).
  destruct (publish_frames_ok host_big shmMap szPage nTruncate true false [pg_pgno p] (take (Z.to_nat m) (map en_pgno es)) stale s2)
    as (rc & pn & s' & -> & Hrest & _ & Hgood & Hall); try done.
  { by rewrite Hpg. } { by rewrite Hh, Lm. } { apply Forall_singleton, Hp. } { rewrite Lm. change (alen [pg_pgno p]) with 1. change (alen [p]) with 1 in Hroom. lia. }
  rewrite (Hall Hmap) in *. destruct (Hgood eq_refl) as (_ & _ & A1 & _ & A2 & A3 & _ & A4 & _). destruct (A4 eq_refl) as (B1 & B2 & B3 & _ & _ & _).
  exists pn, s'. split; [done|]. injection Hrest as _ -> _ _ _ _ _ _. split_and!; try done; [by rewrite A1, Lm|by rewrite A3, Hh|by rewrite A2, Hh|].
  transitivity (fread f (off + 8) 16); [|exact Hz]. apply (keeps_fread _ _ _ _ _ Kf); [lia|]. rewrite walFrameOffset_succ. fold off. unfold WAL_FRAME_HDRSIZE. lia.
Qed.
End Lost.
