(* ===== verification/WalCommit.v ===== *)
(** Write transactions of the log as a whole: commit, spill, rollback, savepoints
    and what recovery finds after a crash (wal.c, [walFrames], [sqlite3WalUndo],
    [sqlite3WalSavepointUndo], [walIndexRecover]). *)
From S2P Require Import Prelude Bytes FileIO WalBase WalFrame WalIndex WalIter WalHdr WalCkpt WalRecover WalRead WalWrite WalTxn.

(** ** What a crash leaves *)

(** Every log file has a longest sequence of valid frames. *)
Lemma log_end_exists wal big szPage nCkpt salt : log_file wal big szPage nCkpt salt ->
  exists es, frames_at big salt szPage wal 1 (header_cksum big szPage nCkpt salt) es
    /\ log_end wal szPage big salt (header_cksum big szPage nCkpt salt) es.
Proof.
  intros Hl. set (v := MkRecover 0 0 zero_hdr zero_hdr (MkCkpt 0 [] 0) ∅ []).
  destruct (recover_log_spec BO_1234 false (fun _ => SQLITE_OK) wal big szPage nCkpt salt Hl (MkPrivate [] []) [] v ltac:(constructor))
    as (err & rc & s & v' & _ & _ & _ & _ & Hok & Hcl).
  destruct (Hok (Hcl ltac:(done) ltac:(constructor) ltac:(done))) as (_ & _ & es & Hs & He). exists es. split; [apply Hs|exact He].
Qed.

Lemma last_commit_ge big es : forall ck k acc, fst (fst acc) < k -> fst (fst acc) <= fst (fst (last_commit big ck k acc es)).
Proof.
  induction es as [|e es IH]; intros ck k acc Hk; [done|]. cbn [last_commit]. destruct (en_truncate e =? 0).
  - apply IH. lia.
  - etrans; [|apply IH; cbn; lia]. cbn. lia.
Qed.

(** The last commit of a log that ends in a commit frame. *)
Lemma last_commit_snoc big ck es e : en_truncate e <> 0 ->
  last_commit big ck 1 (0, 0, (0, 0)) (es ++ [e]) = (alen (es ++ [e]), en_truncate e, log_cksum big ck (es ++ [e])).
Proof.
  intros He%Z.eqb_neq. rewrite last_commit_app. cbn [last_commit]. rewrite He, log_cksum_app. cbn [log_cksum]. do 2 f_equal.
  rewrite alen_app. change (alen [e]) with 1. lia.
Qed.

Section Durable.
Context (bo : byteorder) (host_big : bool) (shmMap : Z -> Z) (szPage : Z) (Hsz : pagesize_ok szPage = true).

(** A file that begins with a committed log, whatever follows it. *)
Record crashed (wal wal2 : file) (n : Z) : Prop := {
  cr_keeps : keeps (walFrameOffset (n + 1) szPage) wal wal2;
  cr_bytes : Forall is_u8 wal2;
  cr_frames : (alen wal2 - WAL_HDRSIZE) / (szPage + WAL_FRAME_HDRSIZE) < 2 ^ 32 - 4096
}.

(** What recovery of such a file finds. *)
Definition recovers (h : WalIndexHdr) (wal2 : file) (es : list entry) (v v' : Recover) (rc : Z) : Prop :=
  rc <> SQLITE_OK /\ rv_shm v' = rv_shm v /\ rv_info v' = rv_info v \/
  exists nCkpt tail, recovered host_big wal2 (bigEndCksum h) szPage nCkpt (aSalt h) (es ++ tail) v' /\
    alen es <= mxFrame (rv_hdr v') /\
    (Forall (fun e => en_truncate e = 0) tail ->
       mxFrame (rv_hdr v') = mxFrame h /\ nPage (rv_hdr v') = nPage h /\ aFrameCksum (rv_hdr v') = aFrameCksum h /\
       forall db p, view (map en_pgno (es ++ tail)) szPage wal2 db 1 (mxFrame h) p = log_page p es (page_data db szPage p)).

Lemma last_commit_pending big tail : forall ck k acc, Forall (fun e => en_truncate e = 0) tail -> last_commit big ck k acc tail = acc.
Proof.
  induction tail as [|e tail IH]; intros ck k acc H; [done|]. apply Forall_cons in H as [He H]. cbn [last_commit]. rewrite He. cbn. by apply IH.
Qed.

Lemma crash_recovers h wal wal2 es1 e lockAll lock r al v :
  log_holds szPage h wal (es1 ++ [e]) -> hdr_wf h -> mxFrame h = alen (es1 ++ [e]) -> en_truncate e = nPage h -> nPage h <> 0 ->
  crashed wal wal2 (mxFrame h) -> io_ok (rv_io v) -> alen (aReadMark (rv_info v)) = WAL_NREADER ->
  exists rc v', walIndexRecover bo host_big shmMap lockAll lock wal2 r al v = Some (rc, v') /\ recovers h wal2 (es1 ++ [e]) v v' rc /\
    (lockAll = SQLITE_OK -> (forall i, lock i = SQLITE_OK) -> (forall i, shmMap i = SQLITE_OK) -> never_fails al -> rv_io v = [] -> rc = SQLITE_OK).
Proof.
  intros (nCkpt & HnC & Hh & Hf & Hck) Hwf Hmx Het Hnp [Hk Hb Hfr] Hio Hm. set (es := es1 ++ [e]) in *. set (ck0 := header_cksum _ _ _ _) in *.
  pose proof (pagesize_units szPage Hsz) as [? _].
  assert (Hpos : 1 <= alen es) by (unfold es; rewrite alen_app; change (alen [e]) with 1; pose proof (alen_nonneg es1); lia).
  pose proof (walFrameOffset_mono 2 (alen es + 1) szPage ltac:(lia) ltac:(lia)) as Ho. rewrite Hmx in Hk.
  assert (Ho2 : walFrameOffset 2 szPage = WAL_HDRSIZE + szPage + WAL_FRAME_HDRSIZE) by (unfold walFrameOffset; lia).
  unfold WAL_HDRSIZE, WAL_FRAME_HDRSIZE in Ho2.
  assert (Hf2 : frames_at (bigEndCksum h) (aSalt h) szPage wal2 1 ck0 es).
  { apply (frames_at_keeps _ _ _ wal); [lia|lia| |done]. rewrite Z.add_comm. exact Hk. }
  assert (Hl : log_file wal2 (bigEndCksum h) szPage nCkpt (aSalt h)).
  { constructor; try done; [|rewrite <- Hh; apply (keeps_fread _ _ _ _ _ Hk); unfold WAL_HDRSIZE; lia|apply Hwf].
    unfold WAL_HDRSIZE. destruct es as [|e0 es']; [by change (alen []) with 0 in Hpos|]. destruct Hf2 as (_ & Hl2 & _). change (1 + 1) with 2 in Hl2. lia. }
  destruct (log_end_exists _ _ _ _ _ Hl) as (es2 & Hf3 & Hend).
  assert (exists tail, es2 = es ++ tail) as [tail ->].
  { destruct (frames_at_prefix szPage _ _ wal2 (proj1 (wf_salt _ Hwf)) es es2 1 ck0 Hf2 Hf3) as [[t ->]|[t Et]]; [by exists t|].
    exists []. rewrite app_nil_r. eapply log_unique; [apply Hwf|exact Hf3|exact Hend|exact Hf2|]. intros e2 Hx. rewrite Et in Hx.
    rewrite <- app_assoc in Hx. apply frames_at_app in Hx as [_ Hx]. destruct t as [|e3 t]; cbn [app] in Hx.
    - apply (Hend e2). by apply frames_at_app.
    - apply (Hend e3). apply frames_at_app. split; [done|]. destruct Hx as (A & B & C & _). by split_and!. }
  destruct (recover_spec bo host_big shmMap wal2 _ _ _ _ Hl lockAll lock r al v (es ++ tail) Hio Hm Hf3 Hend) as (rc & v' & E & Ho' & Hcl).
  exists rc, v'. split; [exact E|]. split; [|exact Hcl]. destruct Ho' as [?|Hrec]; [by left|right]. exists nCkpt, tail. split; [exact Hrec|].
  pose proof (re_commit _ _ _ _ _ _ _ _ Hrec) as Hc. fold ck0 in Hc. unfold es in Hc at 1. rewrite last_commit_app, last_commit_snoc in Hc by congruence. fold es in Hc. split.
  - apply (f_equal (fun x => fst (fst x))) in Hc. cbn [fst] in Hc. rewrite Hc. apply (last_commit_ge _ tail _ _ (alen es, _, _)). cbn [fst]. lia.
  - intros Ht. rewrite last_commit_pending in Hc by done. injection Hc as E1 E2 E3. rewrite Hmx. split_and!; [done|congruence|congruence|].
    intros db p. rewrite <- E1. rewrite (re_view _ _ _ _ _ _ _ _ Hrec), E1. f_equal. apply take_app_length'. unfold alen. lia.
Qed.
End Durable.

(** ** Sample write transaction *)

(** Frame 1 is committed; frames 2 and 3 are of the open transaction. *)
Definition txn_entries : list entry := [MkEntry 1 2 (replicate 512 7); MkEntry 2 0 (replicate 512 9); MkEntry 1 0 (replicate 512 11)].
Definition txn_ck0 : Z * Z := header_cksum false 512 0 rec_salt.
Definition txn_wal : file := file_header WAL_MAX_VERSION false 512 0 rec_salt ++ log_bytes false rec_salt txn_ck0 txn_entries ++ [].
Definition txn_hdr (mx np : Z) (es : list entry) : WalIndexHdr := MkHdr 0 0 0 1 false 512 mx np (log_cksum false txn_ck0 es) rec_salt (0, 0).
Definition txn_writer (w : WiData) (re : Z) : Writer :=
  MkWriter [] txn_wal (txn_hdr 3 2 txn_entries) (txn_hdr 1 2 (take 1 txn_entries)) (MkCkpt 0 [0; 0; 0; 0; 0] 0) w 512 0 re 1 1 false 0.

Lemma txn_entries_ok : Forall (entry_ok 512) txn_entries.
Proof.
  assert (Hp : forall n v, is_u8 v -> Forall is_u8 (replicate n v)) by (intros n v Hv; by apply Forall_replicate).
  repeat constructor; cbn; unfold is_u32; try lia; try (apply Hp; unfold is_u8; lia).
Qed.

Lemma txn_frames : frames_at false rec_salt 512 txn_wal 1 txn_ck0 txn_entries.
Proof. apply frames_at_bytes; [reflexivity|exact txn_entries_ok|reflexivity]. Qed.

Lemma txn_ck0_range : is_u32_pair txn_ck0.
Proof. apply cksum_spec_range. by split. Qed.

Lemma txn_hdr_wf mx np es : is_u32 mx -> is_u32 np -> hdr_wf (txn_hdr mx np es).
Proof.
  intros Hm Hn. constructor; try done; try (by unfold is_u32, is_u16, is_u8).
  - apply log_cksum_range, txn_ck0_range.
  - split; [done|]. apply (bool_decide_unpack _). vm_compute. exact I.
Qed.

(** Frames with their checksums are frames. *)
Lemma frames_at_raw big salt szPage wal es : length salt = 8%nat -> forall k ck, frames_at big salt szPage wal (k + 1) ck es ->
  forall i e, es !! i = Some e -> raw_frame szPage wal (k + Z.of_nat i + 1) e.
Proof.
  intros Hs. induction es as [|e0 es IH]; intros k ck H i e Hi; [done|]. destruct H as (He & Hl & Hb & Hr). destruct i as [|i]; cbn in Hi.
  - simplify_eq. replace (k + Z.of_nat 0 + 1) with (k + 1) by lia. by eapply raw_frame_bytes.
  - replace (k + Z.of_nat (S i) + 1) with ((k + 1) + Z.of_nat i + 1) by lia. by eapply IH.
Qed.

Lemma txn_writer_ok w re : index_ok w (map en_pgno txn_entries) -> re = 0 \/ 1 < re <= 3 -> writer_ok 512 txn_entries (txn_writer w re).
Proof.
  intros Hw Hre. assert (Hh : hdr_wf (txn_hdr 3 2 txn_entries)) by (by apply txn_hdr_wf).
  assert (Hb : Forall is_u8 txn_wal) by (apply (bool_decide_unpack _); vm_compute; exact I).
  constructor; cbn [txn_writer w_hdr w_shm w_io w_wal w_nCkpt w_szPage w_iReCksum w_pages w_minFrame w_info w_readLock].
  - split; [exact Hh|by apply txn_hdr_wf].
  - constructor.
  - exact Hb.
  - by unfold is_u32.
  - reflexivity.
  - change (1 <= 3). lia.
  - intros _. split; [reflexivity|]. exists 0. split; [by unfold is_u32|]. split; [|intros _; split_and!; reflexivity].
    constructor; cbn [txn_writer w_hdr w_io w_wal w_iReCksum].
    + exact Hb.
    + constructor.
    + exact Hh.
    + split; reflexivity.
    + pose proof (fread_mid [] (file_header WAL_MAX_VERSION false 512 0 rec_salt) (log_bytes false rec_salt txn_ck0 txn_entries ++ [])) as H.
      rewrite file_header_alen in H by reflexivity. exact H.
    + apply Z.leb_le. vm_compute. reflexivity.
    + intros i e Hi. exact (frames_at_raw false rec_salt 512 txn_wal _ eq_refl 0 txn_ck0 txn_frames i e Hi).
    + change (alen txn_entries) with 3. lia.
    + apply frames_at_take, txn_frames.
    + intros _. reflexivity.
  - change (re = 0 \/ 1 < re <= 3). exact Hre.
  - change (Forall (fun e => en_truncate e = 0) (drop 1 txn_entries)). repeat constructor.
  - exists []. rewrite app_nil_r. exact Hw.
  - lia.
  - reflexivity.
  - intros Hx. discriminate Hx.
Qed.

(** The environment of the sample calls, and the dirty pages of a commit. *)
Definition txn_env : WriteEnv := MkWEnv true true (Some 4096) (-1) rec_salt [1; 2; 3; 4] SQLITE_OK (fun _ => quiet_read).
Definition txn_plain : WriteEnv := MkWEnv false true None (-1) rec_salt [1; 2; 3; 4] SQLITE_OK (fun _ => quiet_read).
Definition txn_pages : list PgHdr := [MkPg 2 (replicate 512 13); MkPg 3 (replicate 512 17)].

Lemma txn_env_ok (b : bool) : env_ok (if b then txn_env else txn_plain).
Proof. destruct b; split; try (split; [reflexivity|apply (bool_decide_unpack _); vm_compute; exact I]); reflexivity. Qed.

Lemma txn_page_ok n v : is_u8 v -> 0 < n < 2 ^ 32 -> page_entry_ok 512 (MkPg n (replicate 512 v)).
Proof. intros Hv Hn. split; [exact Hn|]. split; [done|]. split; [done|]. split; [done|]. by apply Forall_replicate. Qed.

Lemma txn_call_ok (b : bool) nTruncate isCommit : is_u32 nTruncate -> (isCommit = true <-> nTruncate <> 0) ->
  call_ok (if b then txn_env else txn_plain) (replicate 1024 0) 512 txn_pages nTruncate isCommit txn_entries.
Proof.
  intros Hn Hc. split.
  - destruct b; intros sz E; [injection E as <-; lia|discriminate E].
  - split; [apply Forall_replicate; by unfold is_u8|rewrite length_replicate; lia].
  - split; [done|]. repeat (apply Forall_cons_2; [apply txn_page_ok; unfold is_u8; lia|]). constructor.
  - by split.
  - change (alen txn_entries) with 3. change (alen txn_pages) with 2. destruct b; cbn; lia.
Qed.

Lemma txn_index : exists w, index_ok w (map en_pgno txn_entries).
Proof. destruct (index_of_pages (map en_pgno txn_entries)) as (w & _ & Hw); [repeat constructor|reflexivity|by exists w]. Qed.

(** ** Properties *)

(** C6. Commit.  Called with the dirty pages of a transaction, [walFrames]
    always returns.  On success the log holds frames [es'], all with valid
    checksums from the file header on, whose last one is the commit mark: each
    dirty page has its new content, every other page keeps the content it had,
    the frames committed before are untouched; the header published in the
    shared memory stands at the last frame and at the new database size.  On
    error the committed transactions are still there: same shared header, same
    frames, same index.  Both are relative to the log that the frames are added
    to, which is the log as it was, unless this connection reads the database
    file only ([readLock=0]), the whole log had been back-filled and it was
    restarted first: then the log is empty and the shared header is that of the
    empty log, also after an error.  If files, memory and shared memory do not
    fail, it succeeds, provided that, for a connection with [readLock=0],
    [walRestartLog] reports no error. *)
Theorem walFrames_commit bo host_big shmMap szPage env al junk L nTruncate es s :
  pagesize_ok szPage = true -> env_ok env -> call_ok env junk szPage L nTruncate true es -> writer_ok szPage es s ->
  exists rc pn s', walFrames bo host_big shmMap env al junk szPage L nTruncate true s = Some (rc, pn, s') /\
    (exists es0 s0, (es0 = es /\ s0 = s \/ es0 = [] /\ mxFrame (w_shm s0) = 0 /\ log_restarted host_big s s') /\
       (rc <> SQLITE_OK -> still_committed szPage es0 s0 s') /\
       (rc = SQLITE_OK -> exists es', writer_ok szPage es' s' /\ log_holds szPage (w_hdr s') (w_wal s') es' /\
          take (Z.to_nat (mxFrame (w_shm s0))) es' = take (Z.to_nat (mxFrame (w_shm s0))) es0 /\
          (forall p db, log_page p es' db = write_page p L (log_page p es0 db)) /\
          (exists es1 e, es' = es1 ++ [e] /\ en_truncate e = nTruncate) /\
          w_shm s' = w_hdr s' /\ published host_big (w_hdr s') /\ mxFrame (w_hdr s') = alen es' /\ nPage (w_hdr s') = nTruncate /\
          pn = Some (alen es' - alen es0))) /\
    (restart_succeeds bo host_big shmMap env s -> (forall i, shmMap i = SQLITE_OK) -> never_fails al -> w_io s = [] -> rc = SQLITE_OK).
Proof.
  intros Hsz Henv Hcall Hw. destruct (walFrames_run bo host_big shmMap szPage Hsz env al junk L nTruncate true es s Henv Hcall Hw) as (rc & pn & s' & E & Ho & Hcl).
  assert (Hx : exists es0 s0, (es0 = es /\ s0 = s \/ es0 = [] /\ mxFrame (w_shm s0) = 0 /\ log_restarted host_big s s') /\
    frames_outcome host_big szPage L nTruncate true es0 s0 s' rc pn).
  { destruct Ho as [Ho|(Hr & s1 & H0 & Ho)]; [exists es, s; split; [by left|done]|exists [], s1; split; [by right|done]]. }
  exists rc, pn, s'. split; [exact E|]. split; [|exact Hcl]. destruct Hx as (es0 & s0 & H0 & He & Hk). exists es0, s0. split; [exact H0|]. split; [exact He|].
  intros Hrc. destruct (Hk Hrc) as (es' & [F1 F2 _ F4] & Hw' & _ & _ & K1 & K2 & K3 & K4 & K5). exists es'. split_and!; try done. apply Hw'.
Qed.

Lemma walFrames_commit_witness : exists w rc pn s',
  walFrames BO_1234 false (fun _ => SQLITE_OK) txn_env [] (replicate 1024 0) 512 txn_pages 3 true (txn_writer w 0) = Some (rc, pn, s') /\ rc = SQLITE_OK.
Proof.
  destruct txn_index as [w Hw]. exists w.
  destruct (walFrames_commit BO_1234 false (fun _ => SQLITE_OK) 512 txn_env [] (replicate 1024 0) txn_pages 3 txn_entries (txn_writer w 0))
    as (rc & pn & s' & E & _ & Hok).
  - reflexivity.
  - exact (txn_env_ok true).
  - apply (txn_call_ok true); [by unfold is_u32|by split].
  - apply txn_writer_ok; [exact Hw|by left].
  - exists rc, pn, s'. split; [exact E|]. apply Hok; try reflexivity; [intros Hx; discriminate Hx|constructor].
Defined.

(** C7. Durability.  After a successful commit, whatever happens to the shared
    memory and to the bytes of the file beyond the committed frames, recovery of
    the file either reports an error and publishes nothing, or finds at least
    the frames of that commit; and if no later commit mark follows them with
    valid checksums, it finds the header of the commit (frame, database size,
    checksum) and readers see, for every page, the committed content.  If
    nothing fails, recovery succeeds. *)
Theorem walFrames_durable bo host_big shmMap szPage env al junk L nTruncate es s pn s' :
  pagesize_ok szPage = true -> env_ok env -> call_ok env junk szPage L nTruncate true es -> writer_ok szPage es s ->
  walFrames bo host_big shmMap env al junk szPage L nTruncate true s = Some (SQLITE_OK, pn, s') ->
  exists es0 es', (es0 = es \/ es0 = [] /\ log_restarted host_big s s') /\
    (forall p db, log_page p es' db = write_page p L (log_page p es0 db)) /\ mxFrame (w_hdr s') = alen es' /\
    forall wal2 bo2 shmMap2 lockAll lock r al2 v, crashed szPage (w_wal s') wal2 (alen es') -> io_ok (rv_io v) -> alen (aReadMark (rv_info v)) = WAL_NREADER ->
    exists rc v', walIndexRecover bo2 host_big shmMap2 lockAll lock wal2 r al2 v = Some (rc, v') /\
      recovers host_big szPage (w_hdr s') wal2 es' v v' rc /\
      (lockAll = SQLITE_OK -> (forall i, lock i = SQLITE_OK) -> (forall i, shmMap2 i = SQLITE_OK) -> never_fails al2 -> rv_io v = [] -> rc = SQLITE_OK).
Proof.
  intros Hsz Henv Hcall Hw Hrun. destruct (walFrames_run bo host_big shmMap szPage Hsz env al junk L nTruncate true es s Henv Hcall Hw) as (rc & pn' & s2 & E & Ho & _).
  rewrite Hrun in E. injection E as <- <- <-.
  assert (Hx : exists es0 s0, (es0 = es \/ es0 = [] /\ log_restarted host_big s s') /\ frames_outcome host_big szPage L nTruncate true es0 s0 s' SQLITE_OK pn).
  { destruct Ho as [Ho|(Hr & s1 & H0 & Ho)]; [exists es, s; split; [by left|done]|exists [], s1; split; [by right|done]]. }
  destruct Hx as (es0 & s0 & H0 & _ & Hk). destruct (Hk eq_refl) as (es' & [F1 F2 _ F4] & Hw' & _ & _ & K1 & K2 & K3 & K4 & K5).
  pose proof (wt_mx _ _ _ Hw') as Hmx. destruct F4 as (es1 & e & Ees & Het). exists es0, es'. split_and!; try done.
  intros wal2 bo2 shmMap2 lockAll lock r al2 v Hcr Hio Hm. rewrite <- Hmx in Hcr. subst es'.
  eapply crash_recovers; try done; [apply Hw'|congruence|]. rewrite K3. apply (cl_truncate _ _ _ _ _ _ _ Hcall). done.
Qed.

Lemma walFrames_durable_witness : exists w pn s' es',
  walFrames BO_1234 false (fun _ => SQLITE_OK) txn_env [] (replicate 1024 0) 512 txn_pages 3 true (txn_writer w 2) = Some (SQLITE_OK, pn, s') /\
  mxFrame (w_hdr s') = alen es' /\ forall db, log_page 2 es' db = replicate 512 13.
Proof.
  destruct txn_index as [w Hw]. exists w. assert (Hok : writer_ok 512 txn_entries (txn_writer w 2)) by (apply txn_writer_ok; [exact Hw|right; lia]).
  assert (Hc : call_ok txn_env (replicate 1024 0) 512 txn_pages 3 true txn_entries) by (apply (txn_call_ok true); [by unfold is_u32|by split]).
  destruct (walFrames_run BO_1234 false (fun _ => SQLITE_OK) 512 eq_refl txn_env [] (replicate 1024 0) txn_pages 3 true txn_entries (txn_writer w 2) (txn_env_ok true) Hc Hok)
    as (rc & pn & s' & E & _ & Hcl).
  rewrite Hcl in E; [|intros Hx; discriminate Hx|reflexivity|constructor|reflexivity]. exists pn, s'.
  destruct (walFrames_durable BO_1234 false (fun _ => SQLITE_OK) 512 txn_env [] (replicate 1024 0) txn_pages 3 txn_entries (txn_writer w 2) pn s')
    as (es0 & es' & _ & Hp & Hmx & _).
  - reflexivity.
  - exact (txn_env_ok true).
  - exact Hc.
  - exact Hok.
  - exact E.
  - exists es'. split; [exact E|]. split; [exact Hmx|]. intros db. rewrite Hp. reflexivity.
Defined.

(** C24. Spilling dirty pages before the commit ([isCommit=0]) publishes none of
    them, on success and on error: the shared header is untouched and the
    committed frames are kept; on success the log holds the new content of the
    dirty pages for this connection and carries no commit mark beyond the
    committed frames, so the transaction can go on, commit or be undone.  This is
    relative to the log that the frames are added to: the log as it was, unless
    this connection reads the database file only ([readLock=0]), the whole log had
    been back-filled and the log was restarted first, as an empty one.  If
    files, memory and shared memory do not fail, it succeeds, provided that, for
    a connection with [readLock=0], [walRestartLog] reports no error. *)
Theorem walFrames_spill bo host_big shmMap szPage env al junk L es s :
  pagesize_ok szPage = true -> env_ok env -> call_ok env junk szPage L 0 false es -> writer_ok szPage es s ->
  exists rc pn s', walFrames bo host_big shmMap env al junk szPage L 0 false s = Some (rc, pn, s') /\
    (exists es0 s0, (es0 = es /\ s0 = s \/ es0 = [] /\ mxFrame (w_shm s0) = 0 /\ log_restarted host_big s s') /\
       (rc <> SQLITE_OK -> still_committed szPage es0 s0 s') /\
       (rc = SQLITE_OK -> w_shm s' = w_shm s0 /\ exists es', writer_ok szPage es' s' /\
          take (Z.to_nat (mxFrame (w_shm s0))) es' = take (Z.to_nat (mxFrame (w_shm s0))) es0 /\
          (forall p db, log_page p es' db = write_page p L (log_page p es0 db)) /\
          Forall (fun e => en_truncate e = 0) (drop (Z.to_nat (mxFrame (w_shm s0))) es'))) /\
    (restart_succeeds bo host_big shmMap env s -> (forall i, shmMap i = SQLITE_OK) -> never_fails al -> w_io s = [] -> rc = SQLITE_OK).
Proof.
  intros Hsz Henv Hcall Hw. destruct (walFrames_run bo host_big shmMap szPage Hsz env al junk L 0 false es s Henv Hcall Hw) as (rc & pn & s' & E & Ho & Hcl).
  assert (Hx : exists es0 s0, (es0 = es /\ s0 = s \/ es0 = [] /\ mxFrame (w_shm s0) = 0 /\ log_restarted host_big s s') /\
    frames_outcome host_big szPage L 0 false es0 s0 s' rc pn).
  { destruct Ho as [Ho|(Hr & s1 & H0 & Ho)]; [exists es, s; split; [by left|done]|exists [], s1; split; [by right|done]]. }
  exists rc, pn, s'. split; [exact E|]. split; [|exact Hcl]. destruct Hx as (es0 & s0 & H0 & He & Hk). exists es0, s0. split; [exact H0|]. split; [exact He|].
  intros Hrc. destruct (Hk Hrc) as (es' & [F1 F2 _ F4] & Hw' & _ & _ & K1 & _). split; [exact K1|]. exists es'. by split_and!.
Qed.

Lemma walFrames_spill_witness : exists w rc pn s',
  walFrames BO_1234 false (fun _ => SQLITE_OK) txn_plain [] (replicate 1024 0) 512 txn_pages 0 false (txn_writer w 2) = Some (rc, pn, s') /\ rc = SQLITE_OK.
Proof.
  destruct txn_index as [w Hw]. exists w.
  destruct (walFrames_spill BO_1234 false (fun _ => SQLITE_OK) 512 txn_plain [] (replicate 1024 0) txn_pages txn_entries (txn_writer w 2))
    as (rc & pn & s' & E & _ & Hok).
  - reflexivity.
  - exact (txn_env_ok false).
  - apply (txn_call_ok false); [by unfold is_u32|by split].
  - apply txn_writer_ok; [exact Hw|right; lia].
  - exists rc, pn, s'. split; [exact E|]. apply Hok; [intros Hx; discriminate Hx|reflexivity|constructor|reflexivity].
Defined.

(** C25. Rollback.  [sqlite3WalUndo] restores the state of the last commit: the
    header is the shared one again, the file is as it was, the index holds the
    committed frames and no others; the callback is called on the pages of the
    frames of the transaction, in order, on all of them unless it fails.  After
    the end of the write transaction the connection is as after the last
    commit. *)
Theorem sqlite3WalUndo_restores shmMap szPage rcs es s : pagesize_ok szPage = true -> writer_ok szPage es s ->
  let nc := Z.to_nat (mxFrame (w_shm s)) in
  exists rc l s', sqlite3WalUndo shmMap rcs s = Some (rc, l, s') /\ w_hdr s' = w_shm s /\ w_shm s' = w_shm s /\ w_wal s' = w_wal s /\
    writer_ok szPage (take nc es) (end_write_transaction s') /\ l `prefix_of` map en_pgno (drop nc es) /\
    (undo_ok rcs -> rc = SQLITE_OK /\ l = map en_pgno (drop nc es)).
Proof. intros Hsz Hw. by apply undo_run. Qed.

Lemma sqlite3WalUndo_restores_witness : exists w rc s', sqlite3WalUndo (fun _ => SQLITE_OK) [] (txn_writer w 2) = Some (rc, [2; 1], s') /\ rc = SQLITE_OK
  /\ mxFrame (w_hdr s') = 1.
Proof.
  destruct txn_index as [w Hw]. exists w.
  destruct (sqlite3WalUndo_restores (fun _ => SQLITE_OK) 512 [] txn_entries (txn_writer w 2)) as (rc & l & s' & E & Eh & _ & _ & _ & _ & Hok).
  - reflexivity.
  - apply txn_writer_ok; [exact Hw|right; lia].
  - destruct Hok as [-> ->]; [constructor|]. exists SQLITE_OK, s'. split; [exact E|]. split; [reflexivity|]. rewrite Eh. reflexivity.
Defined.

Lemma savepoint_taken szPage es s : writer_ok szPage es s -> savepoint_ok szPage (sqlite3WalSavepoint s) es s.
Proof.
  intros Hw. pose proof (wt_committed _ _ _ Hw). pose proof (wt_mx _ _ _ Hw) as Hm. split; cbn [sqlite3WalSavepoint sv_mxFrame sv_cksum sv_nCkpt]; rewrite ?Hm; [done|lia| |].
  - apply Hw.
  - intros E nCkpt Hf. rewrite take_ge by (unfold alen; lia). by apply Hf.
Qed.

(** A rollback past the first frame to rewrite. *)
Lemma savepoint_undo_beyond shmMap szPage v es s : writer_ok szPage es s -> savepoint_ok szPage v es s -> sv_mxFrame v + 1 < w_iReCksum s ->
  exists s' stale, sqlite3WalSavepointUndo shmMap v s = (v, s') /\ w_io s' = w_io s /\ w_shm s' = w_shm s /\ w_wal s' = w_wal s /\
    w_iReCksum s' = w_iReCksum s /\ w_szPage s' = w_szPage s /\ w_readLock s' = w_readLock s /\ mxFrame (w_hdr s') = sv_mxFrame v /\
    aSalt (w_hdr s') = aSalt (w_hdr s) /\ bigEndCksum (w_hdr s') = bigEndCksum (w_hdr s) /\ hdr_wf (w_hdr s') /\
    index_ok (w_pages s') (take (Z.to_nat (mxFrame (w_hdr s'))) (map en_pgno es) ++ stale).
Proof.
  intros Hw [Hn Hm Hr _] Hre. destruct (wt_index _ _ _ Hw) as [stale Hix]. destruct (wt_wf _ _ _ Hw) as [Hwf Hwf2].
  pose proof (wf_mxFrame _ Hwf2) as Hm0. pose proof (wf_mxFrame _ Hwf) as Hm1. rewrite (wt_mx _ _ _ Hw) in Hm1. unfold is_u32 in Hm0, Hm1. pose proof (wt_recksum _ _ _ Hw).
  unfold sqlite3WalSavepointUndo. rewrite Hn, Z.eqb_refl. cbn [negb]. rewrite (wt_mx _ _ _ Hw). set (m := sv_mxFrame v) in *.
  replace (m <? alen es) with true by (symmetry; apply Z.ltb_lt; lia). eexists _, []. split; [done|]. cbn [w_set_hdr w_set_pages w_io w_shm w_wal w_iReCksum w_szPage w_readLock w_hdr w_pages].
  split_and!; try done.
  - apply hdr_wf_cksum; [done|]. destruct Hwf. constructor; try done. unfold is_u32. cbn. lia.
  - change (mxFrame (set_aFrameCksum _ _)) with m. rewrite app_nil_r.
    replace (take (Z.to_nat m) (map en_pgno es)) with (take (Z.to_nat m) (map en_pgno es ++ stale)); [|rewrite take_app_le; [done|rewrite length_map; unfold alen in *; lia]].
    apply index_cleanup; [done|]. rewrite alen_app. pose proof (alen_nonneg stale). unfold alen at 1. rewrite length_map. unfold alen in *. lia.
Qed.

(** C26. Rollback to a savepoint.  A savepoint holds the frame and checksum of the
    log; in a transaction that uses the log ([readLock] not 0), as long as the
    lowest frame rewritten in place ([iReCksum], 0 for none) is not after the
    savepoint, rolling back to it leaves a log of exactly its frames, with the
    checksum they have, so that the transaction can go on from there. *)
Theorem sqlite3WalSavepointUndo_restores shmMap szPage v es s : pagesize_ok szPage = true ->
  writer_ok szPage es s -> savepoint_ok szPage v es s -> w_iReCksum s <= sv_mxFrame v -> w_readLock s <> 0 ->
  savepoint_ok szPage (sqlite3WalSavepoint s) es s /\
  exists s', sqlite3WalSavepointUndo shmMap v s = (v, s') /\ w_shm s' = w_shm s /\ w_wal s' = w_wal s /\
    writer_ok szPage (take (Z.to_nat (sv_mxFrame v)) es) s'.
Proof. intros Hsz Hw Hv Hre Hrl. split; [by apply savepoint_taken|by apply savepoint_undo_run]. Qed.

Lemma sqlite3WalSavepointUndo_restores_witness : exists w v s', sqlite3WalSavepointUndo (fun _ => SQLITE_OK) v (txn_writer w 2) = (v, s') /\
  writer_ok 512 (take 2 txn_entries) s'.
Proof.
  destruct txn_index as [w Hw]. exists w, (MkSave 2 (0, 0) 0).
  destruct (sqlite3WalSavepointUndo_restores (fun _ => SQLITE_OK) 512 (MkSave 2 (0, 0) 0) txn_entries (txn_writer w 2)) as (_ & s' & E & _ & _ & Hw').
  - reflexivity.
  - apply txn_writer_ok; [exact Hw|right; lia].
  - split; [reflexivity|cbn; change (alen txn_entries) with 3; lia|by split|discriminate].
  - cbn. lia.
  - discriminate.
  - exists s'. split; [exact E|exact Hw'].
Defined.

(** C28. A rollback to a savepoint keeps the mark of frames to rewrite
    ([iReCksum], the lowest frame that was overwritten in place).  Let that mark
    lie beyond the first frame after the savepoint ([sv_mxFrame + 1 < iReCksum]),
    in a transaction that uses the log ([readLock] not 0) of a log that has a
    commit and whose salt is not all zeros.  If no sectors are padded and files,
    memory and shared memory do not fail, the commit of one page after the
    rollback returns success and publishes its frame, but writes that frame
    without salt and checksum and rewrites none: every valid sequence of frames of
    the file ends before it, so that a recovery of the log loses the committed
    transaction. *)
Theorem sqlite3WalSavepointUndo_loses_commit bo host_big shmMap szPage env al junk p nTruncate v es s :
  pagesize_ok szPage = true -> (forall i, shmMap i = SQLITE_OK) -> never_fails al -> we_sector env = None -> w_io s = [] ->
  writer_ok szPage es s -> savepoint_ok szPage v es s -> w_readLock s <> 0 -> aSalt (w_hdr s) <> replicate 8 0 ->
  0 < mxFrame (w_shm s) -> sv_mxFrame v + 1 < w_iReCksum s ->
  call_ok env junk szPage [p] nTruncate true es ->
  exists s1 pn s', sqlite3WalSavepointUndo shmMap v s = (v, s1) /\
    walFrames bo host_big shmMap env al junk szPage [p] nTruncate true s1 = Some (SQLITE_OK, pn, s') /\
    published host_big (w_shm s') /\ mxFrame (w_shm s') = sv_mxFrame v + 1 /\ nPage (w_shm s') = nTruncate /\
    forall nCkpt es', frames_at (bigEndCksum (w_shm s')) (aSalt (w_shm s')) szPage (w_wal s') 1
      (header_cksum (bigEndCksum (w_shm s')) szPage nCkpt (aSalt (w_shm s'))) es' -> alen es' < mxFrame (w_shm s').
Proof.
  intros Hsz Hmap Hal Hns Hc Hw Hv Hrl Hsalt Hnc Hre Hcall.
  destruct (savepoint_undo_beyond shmMap szPage v es s Hw Hv Hre) as (s1 & stale & E & E0 & E1 & E2 & E3 & E4 & E5 & E6 & E7 & E8 & E9 & Hix).
  pose proof (so_mx _ _ _ _ Hv) as Hmx. destruct (wt_wf _ _ _ Hw) as [Hwf Hwf2].
  destruct (wt_log _ _ _ Hw) as (Hws & nC & _ & Hf & _). { intros ->. change (alen []) with 0 in Hmx. lia. }
  pose proof (frames_size _ _ _ _ _ _ Hf) as Hfs. pose proof (wt_recksum _ _ _ Hw) as Hrk. pose proof (pagesize_units szPage Hsz) as [? _].
  rewrite E6 in Hix. destruct (commit_lost bo host_big shmMap Hmap szPage Hsz env al junk p nTruncate es stale s1) as (pn & s' & Er & A1 & A2 & A3 & A4 & A5 & A6 & A7);
    rewrite ?E0, ?E2, ?E3, ?E4, ?E5, ?E6; try done; try lia.
  { pose proof (walFrameOffset_mono (w_iReCksum s) (alen es + 1) szPage ltac:(lia) ltac:(lia)). lia. }
  { apply Hw. }
  exists s1, pn, s'. rewrite A1, A3, E6, A5, A6, E7, E8. rewrite E6 in A7. split_and!; try done.
  intros nCkpt es' Hes. apply (zero_frame_ends _ _ _ _ _ (sv_mxFrame v)) in Hes; try done; [lia|apply Hwf|lia].
Qed.

Lemma sqlite3WalSavepointUndo_loses_commit_witness : exists w s1 pn s',
  sqlite3WalSavepointUndo (fun _ => SQLITE_OK) (MkSave 1 (0, 0) 0) (txn_writer w 3) = (MkSave 1 (0, 0) 0, s1) /\
  walFrames BO_1234 false (fun _ => SQLITE_OK) txn_plain [] (replicate 1024 0) 512 [MkPg 2 (replicate 512 13)] 2 true s1 = Some (SQLITE_OK, pn, s') /\
  mxFrame (w_shm s') = 2.
Proof.
  destruct txn_index as [w Hw]. exists w.
  destruct (sqlite3WalSavepointUndo_loses_commit BO_1234 false (fun _ => SQLITE_OK) 512 txn_plain [] (replicate 1024 0) (MkPg 2 (replicate 512 13)) 2
    (MkSave 1 (0, 0) 0) txn_entries (txn_writer w 3)) as (s1 & pn & s' & E1 & E2 & _ & E3 & _).
  - reflexivity.
  - reflexivity.
  - constructor.
  - reflexivity.
  - reflexivity.
  - apply txn_writer_ok; [exact Hw|right; lia].
  - split; [reflexivity|cbn; change (alen txn_entries) with 3; lia|by split|discriminate].
  - discriminate.
  - discriminate.
  - reflexivity.
  - cbn. lia.
  - destruct (txn_call_ok false 2 true) as [H1 H2 [_ H3] H4 H5]; [by unfold is_u32|by split|]. apply Forall_cons in H3 as [H3 _].
    split; [exact H1|exact H2|split; [discriminate|by constructor]|exact H4|]. change (3 + 1 + 0 < 2 ^ 32 - 4096). lia.
  - exists s1, pn, s'. split; [exact E1|]. split; [exact E2|exact E3].
Defined.
