(* ===== verification/Text.v ===== *)
(** * Characters and strings ([src/global.c], [src/util.c])

    The character tables, the comparison of strings without case and the case
    insensitive hash.  A string is the list of its bytes; in memory a zero byte
    follows it. *)
From S2P Require Import Prelude.

(** ** Character tables *)

Definition sqlite3UpperToLower : list Z :=
  [ 0; 1; 2; 3; 4; 5; 6; 7; 8; 9; 10; 11; 12; 13; 14; 15; 16; 17;
    18; 19; 20; 21; 22; 23; 24; 25; 26; 27; 28; 29; 30; 31; 32; 33; 34; 35;
    36; 37; 38; 39; 40; 41; 42; 43; 44; 45; 46; 47; 48; 49; 50; 51; 52; 53;
    54; 55; 56; 57; 58; 59; 60; 61; 62; 63; 64; 97; 98; 99; 100; 101; 102; 103;
    104; 105; 106; 107; 108; 109; 110; 111; 112; 113; 114; 115; 116; 117; 118; 119; 120; 121;
    122; 91; 92; 93; 94; 95; 96; 97; 98; 99; 100; 101; 102; 103; 104; 105; 106; 107;
    108; 109; 110; 111; 112; 113; 114; 115; 116; 117; 118; 119; 120; 121; 122; 123; 124; 125;
    126; 127; 128; 129; 130; 131; 132; 133; 134; 135; 136; 137; 138; 139; 140; 141; 142; 143;
    144; 145; 146; 147; 148; 149; 150; 151; 152; 153; 154; 155; 156; 157; 158; 159; 160; 161;
    162; 163; 164; 165; 166; 167; 168; 169; 170; 171; 172; 173; 174; 175; 176; 177; 178; 179;
    180; 181; 182; 183; 184; 185; 186; 187; 188; 189; 190; 191; 192; 193; 194; 195; 196; 197;
    198; 199; 200; 201; 202; 203; 204; 205; 206; 207; 208; 209; 210; 211; 212; 213; 214; 215;
    216; 217; 218; 219; 220; 221; 222; 223; 224; 225; 226; 227; 228; 229; 230; 231; 232; 233;
    234; 235; 236; 237; 238; 239; 240; 241; 242; 243; 244; 245; 246; 247; 248; 249; 250; 251;
    252; 253; 254; 255;
    (* aLTb, aEQb and aGTb *)
    1; 0; 0; 1; 1; 0; 0; 1; 0; 1; 0; 1; 1; 0; 1; 0; 0; 1 ].

(** Runs of equal entries are written with their length. *)
Definition sqlite3CtypeMap : list Z :=
  replicate 9 0x00 ++ replicate 5 0x01 ++ replicate 18 0x00 ++
  [ 0x01; 0x00; 0x80; 0x00; 0x40; 0x00; 0x00; 0x80 ] ++ replicate 8 0x00 ++
  replicate 10 0x0c ++ replicate 7 0x00 ++
  replicate 6 0x0a ++ replicate 20 0x02 ++ [ 0x80; 0x00; 0x00; 0x00; 0x40; 0x80 ] ++
  replicate 6 0x2a ++ replicate 20 0x22 ++ replicate 5 0x00 ++
  replicate 128 0x40.

(** The macros index the tables with [(unsigned char)(x)]. *)
Definition ctype (x : Z) : Z := default 0 (aget sqlite3CtypeMap (u8 x)).

Definition sqlite3Isspace (x : Z) : bool := negb (ctype x .& 0x01 =? 0).
Definition sqlite3Isdigit (x : Z) : bool := negb (ctype x .& 0x04 =? 0).
Definition sqlite3Isxdigit (x : Z) : bool := negb (ctype x .& 0x08 =? 0).
Definition sqlite3Isquote (x : Z) : bool := negb (ctype x .& 0x80 =? 0).
Definition sqlite3Tolower (x : Z) : Z := default 0 (aget sqlite3UpperToLower (u8 x)).

(** A property of all bytes, by evaluation. *)
Lemma byte_cases (P : Z -> bool) : forallb P (map Z.of_nat (seq 0 256)) = true -> forall x, is_u8 x -> P x = true.
Proof.
  intros H x Hx. rewrite forallb_forall in H. apply H. apply in_map_iff. exists (Z.to_nat x). unfold is_u8 in Hx.
  split; [lia|]. apply in_seq. lia.
Qed.

Lemma Tolower_spec x : is_u8 x -> sqlite3Tolower x = if (65 <=? x) && (x <=? 90) then x + 32 else x.
Proof. intros H. apply Z.eqb_eq. exact (byte_cases (fun x => sqlite3Tolower x =? if (65 <=? x) && (x <=? 90) then x + 32 else x) eq_refl x H). Qed.

Lemma Isspace_spec x : is_u8 x -> sqlite3Isspace x = (x =? 32) || (9 <=? x) && (x <=? 13).
Proof. intros H. apply eqb_true_iff. exact (byte_cases (fun x => eqb (sqlite3Isspace x) ((x =? 32) || (9 <=? x) && (x <=? 13))) eq_refl x H). Qed.

Lemma Isdigit_spec x : is_u8 x -> sqlite3Isdigit x = (48 <=? x) && (x <=? 57).
Proof. intros H. apply eqb_true_iff. exact (byte_cases (fun x => eqb (sqlite3Isdigit x) ((48 <=? x) && (x <=? 57))) eq_refl x H). Qed.

Lemma Isxdigit_spec x : is_u8 x ->
  sqlite3Isxdigit x = (48 <=? x) && (x <=? 57) || (65 <=? x) && (x <=? 70) || (97 <=? x) && (x <=? 102).
Proof.
  intros H. apply eqb_true_iff.
  exact (byte_cases (fun x => eqb (sqlite3Isxdigit x) ((48 <=? x) && (x <=? 57) || (65 <=? x) && (x <=? 70) || (97 <=? x) && (x <=? 102))) eq_refl x H).
Qed.

Lemma Isquote_spec x : is_u8 x -> sqlite3Isquote x = (x =? 34) || (x =? 39) || (x =? 91) || (x =? 96).
Proof. intros H. apply eqb_true_iff. exact (byte_cases (fun x => eqb (sqlite3Isquote x) ((x =? 34) || (x =? 39) || (x =? 91) || (x =? 96))) eq_refl x H). Qed.

Lemma Tolower_zero x : is_u8 x -> sqlite3Tolower x = 0 <-> x = 0.
Proof. intros H. rewrite Tolower_spec by done. unfold is_u8 in H. destruct (Z.leb_spec 65 x), (Z.leb_spec x 90); cbn; lia. Qed.

(** ** Strings in memory *)

Definition text_ok (s : list Z) : Prop := Forall (fun c => is_u8 c /\ c <> 0) s.

(** The bytes of a string with its terminator. *)
Definition cstr (s : list Z) : list Z := s ++ [0].

Definition lower (s : list Z) : list Z := map sqlite3Tolower s.

(** ** Comparison without case *)

(** [for(;;)]: the bytes at [a] and [b] *)
Fixpoint icmp_loop (a b : list Z) : option Z :=
  match a, b with
  | c :: a, x :: b =>
      if c =? x then if c =? 0 then Some c else icmp_loop a b
      else
        let c := sqlite3Tolower c - sqlite3Tolower x in
        if negb (c =? 0) then Some c else icmp_loop a b
  | _, _ => None
  end.

Definition sqlite3StrICmp (zLeft zRight : list Z) : option Z := icmp_loop (cstr zLeft) (cstr zRight).

(** A null pointer is [None]. *)
Definition sqlite3_stricmp (zLeft zRight : option (list Z)) : option Z :=
  match zLeft, zRight with
  | None, Some _ => Some (-1)
  | None, None => Some 0
  | Some _, None => Some 1
  | Some l, Some r => sqlite3StrICmp l r
  end.

(** [while( N-- > 0 && *a!=0 && UpperToLower[*a]==UpperToLower[*b] )] and the
    result *)
Fixpoint nicmp_loop (N : nat) (a b : list Z) : option Z :=
  match N with
  | O => Some 0
  | S N =>
      match a, b with
      | c :: a, x :: b =>
          if negb (c =? 0) && (sqlite3Tolower c =? sqlite3Tolower x) then nicmp_loop N a b
          else Some (sqlite3Tolower c - sqlite3Tolower x)
      | _, _ => None
      end
  end.

Definition sqlite3_strnicmp (zLeft zRight : option (list Z)) (N : Z) : option Z :=
  match zLeft, zRight with
  | None, Some _ => Some (-1)
  | None, None => Some 0
  | Some _, None => Some 1
  | Some l, Some r => nicmp_loop (Z.to_nat N) (cstr l) (cstr r)
  end.

(** [while( z[0] )] *)
Fixpoint ihash_loop (h : Z) (z : list Z) : Z :=
  match z with [] => h | c :: z => ihash_loop (u8 (h + sqlite3Tolower c)) z end.

Definition sqlite3StrIHash (z : option (list Z)) : Z := match z with None => 0 | Some z => ihash_loop 0 z end.

(** ** The order of strings without case *)

(** Lexicographic order of bytes: -1, 0 or 1. *)
Fixpoint lexcmp (a b : list Z) : Z :=
  match a, b with
  | [], [] => 0
  | [], _ :: _ => -1
  | _ :: _, [] => 1
  | x :: a, y :: b => if x <? y then -1 else if y <? x then 1 else lexcmp a b
  end.

Lemma lexcmp_eq a : forall b, lexcmp a b = 0 <-> a = b.
Proof.
  induction a as [|x a IH]; intros [|y b]; cbn [lexcmp]; try (split; [lia|congruence]); [done|].
  destruct (Z.ltb_spec x y); [split; [lia|intros [= -> ->]; lia]|]. destruct (Z.ltb_spec y x); [split; [lia|intros [= -> ->]; lia]|].
  rewrite IH. split; [intros ->; f_equal; lia|congruence].
Qed.

Lemma Tolower_pos c : is_u8 c -> c <> 0 -> 0 < sqlite3Tolower c.
Proof. intros H Hc. rewrite Tolower_spec by done. unfold is_u8 in H. destruct (_ && _); lia. Qed.

Lemma icmp_loop_order a : text_ok a -> forall b, text_ok b ->
  exists c, icmp_loop (cstr a) (cstr b) = Some c /\ Z.sgn c = lexcmp (lower a) (lower b).
Proof.
  unfold cstr, lower. induction 1 as [|c a [Hc Hc0] Ha IH]; intros b Hb; (destruct Hb as [|x b [Hx Hx0] Hb]; cbn [app map icmp_loop lexcmp]).
  - by exists 0.
  - pose proof (Tolower_pos x Hx Hx0). replace (0 =? x) with false by (symmetry; apply Z.eqb_neq; lia). change (sqlite3Tolower 0) with 0.
    replace (0 - sqlite3Tolower x =? 0) with false by (symmetry; apply Z.eqb_neq; lia). cbn [negb]. eexists. split; [done|]. lia.
  - pose proof (Tolower_pos c Hc Hc0). replace (c =? 0) with false by (symmetry; apply Z.eqb_neq; lia). change (sqlite3Tolower 0) with 0.
    replace (sqlite3Tolower c - 0 =? 0) with false by (symmetry; apply Z.eqb_neq; lia). cbn [negb]. eexists. split; [done|]. lia.
  - destruct (IH b Hb) as (d & Ed & Hd). apply Z.eqb_neq in Hc0 as Ec0. rewrite Ec0.
    destruct (Z.eqb_spec c x) as [->|Hne]; [|destruct (Z.eqb_spec (sqlite3Tolower c - sqlite3Tolower x) 0); cbn [negb]].
    + rewrite Z.ltb_irrefl. by exists d.
    + replace (sqlite3Tolower c <? sqlite3Tolower x) with false by (symmetry; apply Z.ltb_ge; lia).
      replace (sqlite3Tolower x <? sqlite3Tolower c) with false by (symmetry; apply Z.ltb_ge; lia). by exists d.
    + eexists. split; [done|]. destruct (Z.ltb_spec (sqlite3Tolower c) (sqlite3Tolower x)); [lia|].
      destruct (Z.ltb_spec (sqlite3Tolower x) (sqlite3Tolower c)); lia.
Qed.

Lemma nicmp_loop_order a : text_ok a -> forall b N, text_ok b ->
  exists c, nicmp_loop N (cstr a) (cstr b) = Some c /\ Z.sgn c = lexcmp (take N (lower a)) (take N (lower b)).
Proof.
  unfold cstr, lower. induction 1 as [|c a [Hc Hc0] Ha IH]; intros b [|N] Hb; try (by exists 0);
    (destruct Hb as [|x b [Hx Hx0] Hb]; cbn [app map nicmp_loop lexcmp take]).
  - by exists 0.
  - pose proof (Tolower_pos x Hx Hx0). rewrite Z.eqb_refl. cbn [negb andb]. change (sqlite3Tolower 0) with 0. eexists. split; [done|]. lia.
  - pose proof (Tolower_pos c Hc Hc0). change (sqlite3Tolower 0) with 0.
    replace (sqlite3Tolower c =? 0) with false by (symmetry; apply Z.eqb_neq; lia). rewrite andb_false_r. eexists. split; [done|]. lia.
  - apply Z.eqb_neq in Hc0 as ->. cbn [negb andb]. destruct (IH b N Hb) as (d & Ed & Hd).
    destruct (Z.eqb_spec (sqlite3Tolower c) (sqlite3Tolower x)) as [->|Hne]; [rewrite Z.ltb_irrefl; by exists d|].
    eexists. split; [done|]. destruct (Z.ltb_spec (sqlite3Tolower c) (sqlite3Tolower x)); [lia|].
    destruct (Z.ltb_spec (sqlite3Tolower x) (sqlite3Tolower c)); lia.
Qed.

(** What the hash table needs: equality up to case. *)
Lemma StrICmp_eq a b : text_ok a -> text_ok b -> exists c, sqlite3StrICmp a b = Some c /\ (c = 0 <-> lower a = lower b).
Proof.
  intros Ha Hb. destruct (icmp_loop_order a Ha b Hb) as (c & E & Hc). exists c. split; [exact E|]. rewrite <- lexcmp_eq, <- Hc. lia.
Qed.

(** ** Properties *)

(** Comparison of strings without case.  [sqlite3StrICmp] reads no byte past
    the terminators and orders strings as their lower-case bytes are ordered
    lexicographically, and so does [sqlite3_strnicmp] on the first [N] bytes:
    the result is zero exactly when they are equal up to the case of ASCII
    letters; strings that are equal so have the same hash. *)
Theorem sqlite3StrICmp_order a b N : text_ok a -> text_ok b ->
  (exists c, sqlite3StrICmp a b = Some c /\ Z.sgn c = lexcmp (lower a) (lower b) /\ (c = 0 <-> lower a = lower b)) /\
  (exists c, sqlite3_strnicmp (Some a) (Some b) N = Some c /\
     Z.sgn c = lexcmp (take (Z.to_nat N) (lower a)) (take (Z.to_nat N) (lower b))) /\
  (lower a = lower b -> sqlite3StrIHash (Some a) = sqlite3StrIHash (Some b)).
Proof.
  intros Ha Hb. split_and!.
  - destruct (icmp_loop_order a Ha b Hb) as (c & E & Hc). exists c. split; [exact E|]. split; [exact Hc|]. rewrite <- lexcmp_eq, <- Hc. lia.
  - destruct (nicmp_loop_order a Ha b (Z.to_nat N) Hb) as (c & E & Hc). by exists c.
  - intros E. cbn [sqlite3StrIHash]. revert b Hb E. generalize 0. clear Ha. induction a as [|c a IH]; intros h [|x b] Hb E; try done.
    cbn [lower map] in E. injection E as Ex E. cbn [ihash_loop]. rewrite Ex. apply IH; [by apply Forall_cons in Hb as [_ ?]|exact E].
Qed.

Lemma sqlite3StrICmp_order_witness : sqlite3StrICmp [83; 101; 81] [115; 69; 113] = Some 0 /\
  sqlite3StrIHash (Some [83; 101; 81]) = sqlite3StrIHash (Some [115; 69; 113]).
Proof.
  destruct (sqlite3StrICmp_order [83; 101; 81] [115; 69; 113] 2) as ((c & E & _ & Hc) & _ & Hh).
  - repeat constructor; unfold is_u8; lia.
  - repeat constructor; unfold is_u8; lia.
  - split; [rewrite E; f_equal; apply Hc; reflexivity|apply Hh; reflexivity].
Defined.
