(* ===== verification/Hash.v ===== *)
(** * Symbol tables ([src/hash.c], [src/hash.h])

    The generic hash table: all elements are on one doubly linked list, and the
    elements of a bucket are next to each other on it.  The elements live in a
    heap of their own; the table is refined to a finite map from names, up to
    case, to data. *)
From S2P Require Import Prelude Text.

(** ** Data *)

(** A pointer to an element; 0 is the null pointer.  [pKey] is the string it
    points to, [data] a pointer. *)
Record HashElem : Type := MkElem { next : Z; prev : Z; data : Z; pKey : list Z }.

(** A bucket: [count] and [chain] *)
Abbreviation bucket := (Z * Z)%type.

Record Hash : Type := MkHash {
  htsize : Z;
  count : Z;
  first : Z;
  ht : option (list bucket);
  heap : gmap Z HashElem
}.

Definition set_first (p : Z) (s : Hash) : Hash := MkHash (htsize s) (count s) p (ht s) (heap s).
Definition set_count (n : Z) (s : Hash) : Hash := MkHash (htsize s) n (first s) (ht s) (heap s).
Definition set_ht (t : option (list bucket)) (s : Hash) : Hash := MkHash (htsize s) (count s) (first s) t (heap s).
Definition set_elem (p : Z) (e : HashElem) (s : Hash) : Hash := MkHash (htsize s) (count s) (first s) (ht s) (<[p := e]> (heap s)).

(** [p->next = q] and the like: an access through a pointer to no element is an
    error. *)
Definition set_next (p q : Z) (s : Hash) : option Hash :=
  e ← heap s !! p; Some (set_elem p (MkElem q (prev e) (data e) (pKey e)) s).
Definition set_prev (p q : Z) (s : Hash) : option Hash :=
  e ← heap s !! p; Some (set_elem p (MkElem (next e) q (data e) (pKey e)) s).

(** ** Operations *)

Definition sqlite3HashInit (h : gmap Z HashElem) : Hash := MkHash 0 0 0 None h.

(** [while( elem )] of [sqlite3HashClear] *)
Fixpoint hash_clear_loop (fuel : nat) (elem : Z) (s : Hash) : option Hash :=
  match fuel with
  | O => None
  | S fuel =>
      if elem =? 0 then Some s
      else
        e ← heap s !! elem;
        hash_clear_loop fuel (next e) (MkHash (htsize s) (count s) (first s) (ht s) (delete elem (heap s)))
  end.

Definition sqlite3HashClear (s : Hash) : option Hash :=
  let elem := first s in
  s ← hash_clear_loop (S (size (heap s))) elem (MkHash 0 (count s) 0 None (heap s));
  Some (set_count 0 s).

Fixpoint strHash_loop (h : Z) (z : list Z) : Z :=
  match z with [] => h | c :: z => strHash_loop (u32 (u32 (h + sqlite3Tolower c) * 0x9e3779b1)) z end.

Definition strHash (z : list Z) : Z := strHash_loop 0 z.

(** [pEntry] is the index of the bucket, if there is a table. *)
Definition insertElement (s : Hash) (pEntry : option Z) (pNew : Z) : option Hash :=
  '(pHead, s) ←
    (match pEntry with
     | Some h =>
         t ← ht s;
         '(cnt, chain) ← aget t h;
         t ← aset t h (u32 (cnt + 1), pNew);
         Some (if negb (cnt =? 0) then chain else 0, set_ht (Some t) s)
     | None => Some (0, s)
     end : option (Z * Hash));
  if negb (pHead =? 0) then
    s ← set_next pNew pHead s;
    hd ← heap s !! pHead;
    s ← set_prev pNew (prev hd) s;
    s ← (if negb (prev hd =? 0) then set_next (prev hd) pNew s else Some (set_first pNew s));
    set_prev pHead pNew s
  else
    s ← set_next pNew (first s) s;
    s ← (if negb (first s =? 0) then set_prev (first s) pNew s else Some s);
    s ← set_prev pNew 0 s;
    Some (set_first pNew s).

Definition SQLITE_MALLOC_SOFT_LIMIT : Z := 1024.

(** [sizeof(struct _ht)] on a 64-bit host *)
Definition sizeof_ht : Z := 16.

(** [for(elem=pH->first, pH->first=0; elem; elem = next_elem)] *)
Fixpoint hash_rehash_loop (fuel : nat) (new_size elem : Z) (s : Hash) : option Hash :=
  match fuel with
  | O => None
  | S fuel =>
      if elem =? 0 then Some s
      else
        e ← heap s !! elem;
        let h := strHash (pKey e) mod new_size in
        s ← insertElement s (Some h) elem;
        hash_rehash_loop fuel new_size (next e) s
  end.

(** [got] is [sqlite3MallocSize] of the new table, when it can be allocated. *)
Definition rehash (got : Z -> option Z) (s : Hash) (new_size : Z) : option (bool * Hash) :=
  let new_size := if u64 (new_size * sizeof_ht) >? SQLITE_MALLOC_SOFT_LIMIT then SQLITE_MALLOC_SOFT_LIMIT / sizeof_ht else new_size in
  if new_size =? htsize s then Some (false, s)
  else
    match got (new_size * sizeof_ht) with
    | None => Some (false, s)
    | Some bytes =>
        let new_size := u32 (bytes / sizeof_ht) in
        let elem := first s in
        s ← hash_rehash_loop (S (size (heap s))) new_size elem
              (MkHash new_size (count s) 0 (Some (replicate (Z.to_nat new_size) (0, 0))) (heap s));
        Some (true, s)
    end.

(** [while( count )]: the element found, 0 for [nullElement] *)
Fixpoint find_loop (n : nat) (s : Hash) (elem : Z) (key : list Z) : option Z :=
  match n with
  | O => Some 0
  | S n =>
      e ← heap s !! elem;
      c ← sqlite3StrICmp (pKey e) key;
      if c =? 0 then Some elem else find_loop n s (next e) key
  end.

(** The element and [*pHash] *)
Definition findElementWithHash (s : Hash) (key : list Z) : option (Z * Z) :=
  '(h, elem, cnt) ←
    (match ht s with
     | Some t =>
         let h := strHash key mod htsize s in
         '(cnt, chain) ← aget t h;
         Some (h, chain, cnt)
     | None => Some (0, first s, count s)
     end : option (Z * Z * Z));
  elem ← find_loop (Z.to_nat cnt) s elem key;
  Some (elem, h).

Definition removeElementGivenHash (s : Hash) (elem h : Z) : option Hash :=
  e ← heap s !! elem;
  s ← (if negb (prev e =? 0) then set_next (prev e) (next e) s else Some (set_first (next e) s));
  s ← (if negb (next e =? 0) then set_prev (next e) (prev e) s else Some s);
  s ← (match ht s with
       | Some t =>
           '(cnt, chain) ← aget t h;
           t ← aset t h (u32 (cnt - 1), if chain =? elem then next e else chain);
           Some (set_ht (Some t) s)
       | None => Some s
       end);
  let s := MkHash (htsize s) (u32 (count s - 1)) (first s) (ht s) (delete elem (heap s)) in
  if count s =? 0 then sqlite3HashClear s else Some s.

(** The data of an element, of [nullElement] for 0 *)
Definition elem_data (s : Hash) (elem : Z) : option Z :=
  if elem =? 0 then Some 0 else e ← heap s !! elem; Some (data e).

Definition sqlite3HashFind (s : Hash) (key : list Z) : option Z :=
  '(elem, _) ← findElementWithHash s key;
  elem_data s elem.

(** [new_elem] is the result of [sqlite3Malloc(sizeof(HashElem))]. *)
Definition sqlite3HashInsert (got : Z -> option Z) (new_elem : Z) (s : Hash) (key : list Z) (d : Z) : option (Z * Hash) :=
  '(elem, h) ← findElementWithHash s key;
  old_data ← elem_data s elem;
  if negb (old_data =? 0) then
    if d =? 0 then s ← removeElementGivenHash s elem h; Some (old_data, s)
    else e ← heap s !! elem; Some (old_data, set_elem elem (MkElem (next e) (prev e) d key) s)
  else if d =? 0 then Some (0, s)
  else if new_elem =? 0 then Some (d, s)
  else
    let s := set_count (u32 (count s + 1)) (set_elem new_elem (MkElem 0 0 d key) s) in
    '(h, s) ←
      (if (10 <=? count s) && (count s >? u32 (2 * htsize s)) then
         '(done, s) ← rehash got s (u32 (count s * 2));
         Some (if (done : bool) then strHash key mod htsize s else h, s)
       else Some (h, s) : option (Z * Hash));
    s ← insertElement s (match ht s with Some _ => Some h | None => None end) new_elem;
    Some (0, s).

(** ** Doubly linked lists *)

Definition hd_or (n : Z) (ls : list Z) : Z := default n (head ls).
Definition last_or (p : Z) (ls : list Z) : Z := default p (last ls).

(** The elements [ls] are linked, from a predecessor [p] to a successor [n]. *)
Fixpoint linked (m : gmap Z HashElem) (p : Z) (ls : list Z) (n : Z) : Prop :=
  match ls with
  | [] => True
  | l :: ls => (exists e, m !! l = Some e /\ prev e = p /\ next e = hd_or n ls) /\ linked m l ls n
  end.

Lemma hd_or_app n a b : hd_or n (a ++ b) = hd_or (hd_or n b) a.
Proof. by destruct a. Qed.

Lemma last_or_cons p l ls : last_or p (l :: ls) = last_or l ls.
Proof. revert l. induction ls as [|x ls IH]; intros l; [done|]. unfold last_or in *. cbn. destruct ls; [done|]. apply (IH l). Qed.

Lemma last_or_app p a b : last_or p (a ++ b) = last_or (last_or p a) b.
Proof. revert p. induction a as [|x a IH]; intros p; [done|]. cbn [app]. by rewrite !last_or_cons, IH. Qed.

Lemma linked_app m a : forall p b n, linked m p (a ++ b) n <-> linked m p a (hd_or n b) /\ linked m (last_or p a) b n.
Proof.
  induction a as [|x a IH]; intros p b n; cbn [app linked]; [tauto|]. rewrite last_or_cons, IH, hd_or_app. tauto.
Qed.

Lemma linked_frame m m' ls : (forall l, l ∈ ls -> m' !! l = m !! l) -> forall p n, linked m p ls n -> linked m' p ls n.
Proof.
  induction ls as [|x ls IH]; intros Hm p n; [done|]. intros [(e & He & Hp & Hn) H]. split.
  - exists e. split_and!; try done. rewrite Hm; [done|left].
  - apply IH; [|done]. intros l Hl. apply Hm. by right.
Qed.

Lemma linked_insert m ls l e p n : l ∉ ls -> linked m p ls n -> linked (<[l := e]> m) p ls n.
Proof. intros Hl. apply linked_frame. intros x Hx. apply lookup_insert_ne. by intros ->. Qed.

Lemma linked_elem m p ls n l : linked m p ls n -> l ∈ ls -> is_Some (m !! l).
Proof.
  intros H Hl. apply list_elem_of_split in Hl as (a & b & ->). apply linked_app in H as [_ [(e & -> & _) _]]. by eexists.
Qed.

(** Changing the link at an end of a list. *)
Lemma linked_prev m p p' l ls n : l ∉ ls -> linked m p (l :: ls) n ->
  exists e, m !! l = Some e /\ prev e = p /\ linked (<[l := MkElem (next e) p' (data e) (pKey e)]> m) p' (l :: ls) n.
Proof.
  intros Hl [(e & He & Hp & Hn) H]. exists e. split_and!; try done. split; [|by apply linked_insert].
  eexists. rewrite lookup_insert_eq. split; [done|]. by split.
Qed.

Lemma linked_next m p ls l n n' : l ∉ ls -> linked m p (ls ++ [l]) n ->
  exists e, m !! l = Some e /\ next e = n /\ linked (<[l := MkElem n' (prev e) (data e) (pKey e)]> m) p (ls ++ [l]) n'.
Proof.
  intros Hl H. apply linked_app in H as [H1 [(e & He & Hp & Hn) _]]. exists e. split_and!; try done. apply linked_app. split.
  - by apply linked_insert.
  - split; [|done]. eexists. rewrite lookup_insert_eq. split; [done|]. by split.
Qed.

(** Keys and data stay. *)
Definition same_content (m m' : gmap Z HashElem) : Prop :=
  forall l, (fun e => (data e, pKey e)) <$> m !! l = (fun e => (data e, pKey e)) <$> m' !! l.

Lemma same_content_refl m : same_content m m.
Proof. done. Qed.

Lemma same_content_trans a b c : same_content a b -> same_content b c -> same_content a c.
Proof. intros H1 H2 l. by rewrite H1. Qed.

Lemma same_content_insert m l e e' : m !! l = Some e -> data e' = data e -> pKey e' = pKey e -> same_content m (<[l := e']> m).
Proof.
  intros He Hd Hk x. destruct (decide (x = l)) as [->|Hx]; [|by rewrite lookup_insert_ne].
  rewrite lookup_insert_eq, He. cbn. by rewrite Hd, Hk.
Qed.

Lemma same_content_lookup m m' l e : same_content m m' -> m !! l = Some e -> exists e', m' !! l = Some e' /\ data e' = data e /\ pKey e' = pKey e.
Proof. intros H He. specialize (H l). rewrite He in H. destruct (m' !! l) as [e'|]; [|done]. cbn in H. exists e'. by simplify_eq. Qed.

(** ** Linking and unlinking an element *)

(** The list [ls] from [first]. *)
Record dlist (m : gmap Z HashElem) (f : Z) (ls : list Z) : Prop := {
  dl_linked : linked m 0 ls 0;
  dl_nodup : NoDup ls;
  dl_null : 0 ∉ ls;
  dl_first : f = hd_or 0 ls
}.

(** What linking leaves alone. *)
Definition others (s : Hash) := (htsize s, count s, ht s).

Record relinked (s s' : Hash) (touched : list Z) : Prop := {
  rl_others : others s' = others s;
  rl_content : same_content (heap s) (heap s');
  rl_frame : forall l, l ∉ touched -> heap s' !! l = heap s !! l
}.

Ltac lookup_simpl := rewrite ?lookup_insert_ne by (intros ->; first [done | set_solver]); rewrite ?lookup_insert_eq.

Lemma last_or_elem p a : a <> [] -> last_or p a ∈ a /\ exists a', a = a' ++ [last_or p a].
Proof.
  intros Ha. destruct (last a) as [x|] eqn:E; [|by apply last_None in E]. apply last_Some in E as [a' ->].
  unfold last_or. rewrite last_snoc. cbn. split; [set_solver|by exists a'].
Qed.

Lemma set_next_eq p q s e : heap s !! p = Some e -> set_next p q s = Some (set_elem p (MkElem q (prev e) (data e) (pKey e)) s).
Proof. intros H. unfold set_next. by rewrite H. Qed.

Lemma set_prev_eq p q s e : heap s !! p = Some e -> set_prev p q s = Some (set_elem p (MkElem (next e) q (data e) (pKey e)) s).
Proof. intros H. unfold set_prev. by rewrite H. Qed.

Lemma link_before s new x a b e0 : dlist (heap s) (first s) (a ++ x :: b) -> heap s !! new = Some e0 -> new ∉ a ++ x :: b -> new <> 0 ->
  exists s', (s ← set_next new x s; hd ← heap s !! x; s ← set_prev new (prev hd) s;
              s ← (if negb (prev hd =? 0) then set_next (prev hd) new s else Some (set_first new s)); set_prev x new s) = Some s' /\
    dlist (heap s') (first s') (a ++ new :: x :: b) /\ relinked s s' (new :: a ++ x :: b).
Proof.
  intros [Hl Hnd Hnull Hf] Hnew Hni Hn0. apply linked_app in Hl as [Ha Hxb]. cbn [hd_or head default] in Ha.
  apply NoDup_app in Hnd as (Nda & Hdis & Ndb). apply NoDup_cons in Ndb as [Hxb' Ndb].
  assert (Hxa : x ∉ a) by (intros ?; apply (Hdis x); set_solver). assert (Hxn : x <> new) by set_solver.
  destruct (linked_prev _ _ new _ _ _ Hxb' Hxb) as (e & He & Hp & Hxb2). clear Hxb.
  rewrite (set_next_eq _ _ _ _ Hnew). cbn [mbind option_bind set_elem heap]. rewrite lookup_insert_ne, He by done. cbn [mbind option_bind].
  rewrite (set_prev_eq new _ _ (MkElem x (prev e0) (data e0) (pKey e0))) by (cbn [set_elem heap]; by rewrite lookup_insert_eq).
  unfold set_elem. cbn [mbind option_bind heap next prev data pKey htsize count first ht]. rewrite insert_insert_eq, Hp.
  set (m1 := <[new := MkElem x (last_or 0 a) (data e0) (pKey e0)]> (heap s)).
  assert (Hx1 : m1 !! x = Some e) by (unfold m1; by rewrite lookup_insert_ne).
  assert (C1 : same_content (heap s) m1) by (by eapply same_content_insert).
  assert (Hend : forall m2 f, (forall l, l ∈ x :: b -> m2 !! l = m1 !! l) -> linked m2 0 a new -> m2 !! new = m1 !! new -> same_content (heap s) m2 ->
     f = hd_or 0 (a ++ [new]) -> (forall l, l ∉ new :: a ++ x :: b -> m2 !! l = heap s !! l) ->
     exists s', set_prev x new (MkHash (htsize s) (count s) f (ht s) m2) = Some s' /\ dlist (heap s') (first s') (a ++ new :: x :: b) /\ relinked s s' (new :: a ++ x :: b)).
  { intros m2 f H1 H2 H3 H4 H5 H6. rewrite (set_prev_eq _ _ _ e) by (cbn [heap]; rewrite H1 by left; exact Hx1). eexists. split; [done|].
    cbn [set_elem heap first]. split; [split|split].
    - apply linked_app. cbn [hd_or head default]. split; [by apply linked_insert|]. split.
      + exists (MkElem x (last_or 0 a) (data e0) (pKey e0)). split; [|done]. rewrite lookup_insert_ne, H3 by done. unfold m1. by rewrite lookup_insert_eq.
      + eapply linked_frame; [|exact Hxb2]. intros l Hlb. destruct (decide (l = x)) as [->|]; [by rewrite !lookup_insert_eq|].
        rewrite !(lookup_insert_ne _ x) by done. rewrite H1 by done. unfold m1. apply lookup_insert_ne. intros <-. set_solver + Hlb Hni.
    - apply NoDup_app. split_and!; [done| |]; [set_solver + Hdis Hni|]. apply NoDup_cons. split; [set_solver + Hni|]. by apply NoDup_cons.
    - set_solver + Hnull Hn0.
    - rewrite H5, !hd_or_app. done.
    - done.
    - eapply same_content_trans; [exact H4|]. eapply same_content_insert; [rewrite H1 by left; exact Hx1|done|done].
    - intros l Hli. cbn [set_elem heap]. rewrite lookup_insert_ne by (intros <-; set_solver + Hli). by apply H6. }
  destruct (decide (a = [])) as [->|Hane].
  - change (last_or 0 []) with 0. cbn [Z.eqb negb mbind option_bind]. apply Hend; try done. intros l Hli. unfold m1. apply lookup_insert_ne. intros <-. set_solver + Hli.
  - destruct (last_or_elem 0 a Hane) as [Hpa [a' Ea]]. set (p := last_or 0 a) in *.
    assert (Hp0 : p <> 0) by (intros Ez; rewrite Ez in Hpa; set_solver + Hpa Hnull). apply Z.eqb_neq in Hp0 as E0. rewrite E0. cbn [negb].
    rewrite Ea in Ha, Nda. apply NoDup_app in Nda as (_ & Hpd & _).
    destruct (linked_next _ _ _ _ _ new ltac:(intros Hx; apply (Hpd p Hx); by left) Ha) as (ep & Hep & Hpn & Ha2).
    assert (Hep1 : m1 !! p = Some ep) by (unfold m1; rewrite lookup_insert_ne; [done|intros <-; set_solver + Hpa Hni]). rewrite (set_next_eq _ _ _ ep) by exact Hep1. unfold set_elem. cbn [mbind option_bind heap htsize count first ht].
    apply Hend.
    + intros l Hlb. apply lookup_insert_ne. intros <-. by apply (Hdis p).
    + rewrite Ea. eapply linked_frame; [|exact Ha2]. intros l Hla. destruct (decide (l = p)) as [->|]; [by rewrite !lookup_insert_eq|].
      rewrite !(lookup_insert_ne _ p) by done. unfold m1. apply lookup_insert_ne. rewrite <- Ea in Hla. intros <-. set_solver + Hla Hni.
    + apply lookup_insert_ne. intros <-. set_solver + Hpa Hni.
    + eapply same_content_trans; [exact C1|]. eapply same_content_insert; [exact Hep1|done|done].
    + rewrite Hf. destruct a; [done|]. done.
    + intros l Hli. rewrite lookup_insert_ne by (intros <-; set_solver + Hpa Hli). unfold m1. apply lookup_insert_ne. intros <-. set_solver + Hli.
Qed.

Lemma link_front s new ls e0 : dlist (heap s) (first s) ls -> heap s !! new = Some e0 -> new ∉ ls -> new <> 0 ->
  exists s', (s ← set_next new (first s) s; s ← (if negb (first s =? 0) then set_prev (first s) new s else Some s);
              s ← set_prev new 0 s; Some (set_first new s)) = Some s' /\
    dlist (heap s') (first s') (new :: ls) /\ relinked s s' (new :: ls).
Proof.
  intros [Hl Hnd Hnull Hf] Hnew Hni Hn0. rewrite (set_next_eq _ _ _ _ Hnew). unfold set_elem. cbn [mbind option_bind heap first]. rewrite Hf.
  set (m1 := <[new := MkElem (hd_or 0 ls) (prev e0) (data e0) (pKey e0)]> (heap s)).
  assert (C1 : same_content (heap s) m1) by (by eapply same_content_insert).
  assert (Hend : forall m2, linked m2 new ls 0 -> m2 !! new = m1 !! new -> same_content (heap s) m2 -> (forall l, l ∉ new :: ls -> m2 !! l = heap s !! l) ->
     exists s', (s ← set_prev new 0 (MkHash (htsize s) (count s) (hd_or 0 ls) (ht s) m2); Some (set_first new s)) = Some s' /\
       dlist (heap s') (first s') (new :: ls) /\ relinked s s' (new :: ls)).
  { intros m2 H1 H2 H3 H4. rewrite (set_prev_eq _ _ _ (MkElem (hd_or 0 ls) (prev e0) (data e0) (pKey e0)))
      by (cbn [heap]; rewrite H2; unfold m1; by rewrite lookup_insert_eq).
    cbn [mbind option_bind]. eexists. split; [done|]. unfold set_first, set_elem. cbn [heap first next data pKey]. split; [split|split].
    - split; [|by apply linked_insert]. eexists. rewrite lookup_insert_eq. done.
    - by apply NoDup_cons.
    - set_solver + Hnull Hn0.
    - done.
    - done.
    - eapply same_content_trans; [exact H3|]. eapply same_content_insert; [rewrite H2; unfold m1; by rewrite lookup_insert_eq|done|done].
    - intros l Hli. cbn [heap]. rewrite lookup_insert_ne by (intros <-; set_solver + Hli). by apply H4. }
  assert (F1 : forall l, l ∉ new :: ls -> m1 !! l = heap s !! l) by (intros l Hli; unfold m1; apply lookup_insert_ne; intros <-; set_solver + Hli).
  destruct ls as [|x ls]; [by apply Hend|]. change (hd_or 0 (x :: ls)) with x in *.
  assert (Hx0 : x <> 0) by (intros ->; set_solver + Hnull). apply Z.eqb_neq in Hx0 as E0. rewrite E0. cbn [negb]. apply NoDup_cons in Hnd as [Hxl Hnd].
  destruct (linked_prev _ _ new _ _ _ Hxl Hl) as (e & He & Hp & Hl2).
  assert (Hx1 : m1 !! x = Some e) by (unfold m1; rewrite lookup_insert_ne; [done|intros <-; set_solver + Hni]).
  rewrite (set_prev_eq _ _ _ e) by exact Hx1. unfold set_elem. cbn [mbind option_bind heap htsize count first ht]. apply Hend.
  - eapply linked_frame; [|exact Hl2]. intros l Hlb. destruct (decide (l = x)) as [->|]; [by rewrite !lookup_insert_eq|].
    rewrite !(lookup_insert_ne _ x) by done. unfold m1. apply lookup_insert_ne. intros <-. set_solver + Hlb Hni.
  - apply lookup_insert_ne. intros <-. set_solver + Hni.
  - eapply same_content_trans; [exact C1|]. eapply same_content_insert; [exact Hx1|done|done].
  - intros l Hli. rewrite lookup_insert_ne by (intros <-; set_solver + Hli). by apply F1.
Qed.

(** An end of a list of elements. *)
Lemma linked_cut_next m p a x n : x ∉ a -> NoDup a -> linked m p a x ->
  forall s, heap s = m -> 0 ∉ a -> a <> [] ->
  exists s' e, set_next (last_or 0 a) n s = Some s' /\ linked (heap s') p a n /\ heap s !! last_or 0 a = Some e /\
    heap s' = <[last_or 0 a := MkElem n (prev e) (data e) (pKey e)]> (heap s) /\ others s' = others s /\ first s' = first s.
Proof.
  intros Hx Hnd Hl s Hs H0 Hne. destruct (last_or_elem 0 a Hne) as [Hpa [a' Ea]]. set (q := last_or 0 a) in *. rewrite Ea in Hl, Hnd.
  apply NoDup_app in Hnd as (_ & Hpd & _). destruct (linked_next _ _ _ _ _ n ltac:(intros Hq; apply (Hpd q Hq); by left) Hl) as (e & He & _ & Hl2).
  subst m. rewrite (set_next_eq _ _ _ e He). eexists _, e. split; [done|]. unfold set_elem. cbn [heap first others htsize count ht]. rewrite Ea. done.
Qed.

Lemma unlink s x a b e : dlist (heap s) (first s) (a ++ x :: b) -> heap s !! x = Some e ->
  exists s', (s ← (if negb (prev e =? 0) then set_next (prev e) (next e) s else Some (set_first (next e) s));
              (if negb (next e =? 0) then set_prev (next e) (prev e) s else Some s)) = Some s' /\
    dlist (heap s') (first s') (a ++ b) /\ relinked s s' (a ++ b) /\ next e = hd_or 0 b.
Proof.
  intros [Hl Hnd Hnull Hf] He. apply linked_app in Hl as [Ha [(e' & He' & Hp & Hn) Hb]]. rewrite He in He'. injection He' as <-.
  apply NoDup_app in Hnd as (Nda & Hdis & Ndb). apply NoDup_cons in Ndb as [Hxb Ndb]. cbn [hd_or head default] in Ha.
  assert (H0a : (0 ∉ a) /\ (0 ∉ b)) by set_solver + Hnull. destruct H0a as [H0a H0b].
  assert (Hd : forall l, l ∈ a -> l ∉ b) by set_solver + Hdis. assert (Hxa : x ∉ a) by (intros Hx; apply (Hdis x Hx); by left).
  rewrite Hp, Hn. fold (others s).
  assert (Hend : forall s1, linked (heap s1) 0 a (hd_or 0 b) -> (forall l, l ∈ b -> heap s1 !! l = heap s !! l) -> others s1 = others s ->
    first s1 = hd_or 0 (a ++ b) -> same_content (heap s) (heap s1) -> (forall l, l ∉ a -> heap s1 !! l = heap s !! l) ->
    exists s', (if negb (hd_or 0 b =? 0) then set_prev (hd_or 0 b) (last_or 0 a) s1 else Some s1) = Some s' /\
      dlist (heap s') (first s') (a ++ b) /\ relinked s s' (a ++ b) /\ hd_or 0 b = hd_or 0 b).
  { intros s1 H1 H2 H3 H4 H5 H6. assert (Nd : NoDup (a ++ b)) by (apply NoDup_app; by split_and!). assert (N0 : 0 ∉ a ++ b) by set_solver + H0a H0b.
    destruct b as [|y b].
    - exists s1. split; [done|]. rewrite app_nil_r in *. split; [by split|]. split; [|done]. split; [done|done|]. intros l Hl. apply H6. done.
    - change (hd_or 0 (y :: b)) with y in *. assert (y <> 0) as E0%Z.eqb_neq by (intros ->; set_solver + H0b). rewrite E0. cbn [negb].
      apply NoDup_cons in Ndb as [Hyb Ndb]. destruct (linked_prev _ _ (last_or 0 a) _ _ _ Hyb Hb) as (ey & Hey & _ & Hb2).
      assert (Hy1 : heap s1 !! y = Some ey) by (rewrite H2 by left; exact Hey). rewrite (set_prev_eq _ _ _ _ Hy1). eexists. split; [done|].
      unfold set_elem. cbn [heap first]. assert (Hya : y ∉ a) by (intros Hy; apply (Hd y Hy); by left). split; [split; [|done|done|done]|split; [split|done]].
      + apply linked_app. split; [by apply linked_insert|]. eapply linked_frame; [|exact Hb2]. intros l Hlb.
        destruct (decide (l = y)) as [->|]; [by rewrite !lookup_insert_eq|]. rewrite !(lookup_insert_ne _ y) by done. by apply H2.
      + done.
      + eapply same_content_trans; [exact H5|]. eapply same_content_insert; [exact Hy1|done|done].
      + intros l Hli. cbn [heap]. rewrite lookup_insert_ne by (intros <-; set_solver + Hli). apply H6. set_solver + Hli. }
  destruct (decide (a = [])) as [->|Hane].
  - change (last_or 0 []) with 0 in *. cbn [Z.eqb negb mbind option_bind]. by apply Hend.
  - destruct (last_or_elem 0 a Hane) as [Hpa _]. assert (last_or 0 a <> 0) as E0%Z.eqb_neq by (intros Ez; rewrite Ez in Hpa; set_solver + Hpa H0a).
    rewrite E0. cbn [negb]. destruct (linked_cut_next _ _ _ _ (hd_or 0 b) Hxa Nda Ha s eq_refl H0a Hane) as (s1 & ep & -> & Ha2 & Hep & Eh & Eo & Ef).
    cbn [mbind option_bind]. apply Hend; try done.
    + intros l Hlb. rewrite Eh. apply lookup_insert_ne. intros <-. by apply (Hd _ Hpa).
    + rewrite Ef, Hf. by destruct a.
    + rewrite Eh. by eapply same_content_insert.
    + intros l Hla. rewrite Eh. apply lookup_insert_ne. by intros <-.
Qed.

(** ** Buckets *)

Definition elem_hash (m : gmap Z HashElem) (n l h : Z) : Prop := exists e, m !! l = Some e /\ strHash (pKey e) mod n = h.

(** The list is made of the groups [gs], one for each bucket in use. *)
Record table (m : gmap Z HashElem) (t : list bucket) (gs : list (Z * list Z)) : Prop := {
  tb_size : 0 < alen t;
  tb_nodup : NoDup gs.*1;
  tb_in : forall h ls, (h, ls) ∈ gs -> ls <> [] /\ aget t h = Some (alen ls, hd_or 0 ls) /\ forall l, l ∈ ls -> elem_hash m (alen t) l h;
  tb_out : forall h, 0 <= h < alen t -> h ∉ gs.*1 -> exists ch, aget t h = Some (0, ch)
}.

Definition elems (gs : list (Z * list Z)) : list Z := concat gs.*2.

Lemma elems_app g1 g2 : elems (g1 ++ g2) = elems g1 ++ elems g2.
Proof. unfold elems. by rewrite fmap_app, concat_app. Qed.

Lemma elems_cons h ls gs : elems ((h, ls) :: gs) = ls ++ elems gs.
Proof. done. Qed.

Lemma elem_hash_content m m' n l h : same_content m m' -> elem_hash m n l h -> elem_hash m' n l h.
Proof. intros Hc (e & He & Hh). destruct (same_content_lookup _ _ _ _ Hc He) as (e' & He' & _ & Hk). exists e'. by rewrite Hk. Qed.

Lemma table_content m m' t gs : same_content m m' -> table m t gs -> table m' t gs.
Proof.
  intros Hc [H1 H2 H3 H4]. split; try done. intros h ls Hin. destruct (H3 h ls Hin) as (A & B & C). split_and!; try done.
  intros l Hl. eapply elem_hash_content; [exact Hc|]. by apply C.
Qed.

(** The group of a bucket, if there is one. *)
Lemma group_of (gs : list (Z * list Z)) (h : Z) : h ∈ gs.*1 -> exists g1 ls g2, gs = g1 ++ (h, ls) :: g2.
Proof.
  intros Hin. apply list_elem_of_fmap in Hin as ([h' ls] & -> & Hin). apply list_elem_of_split in Hin as (g1 & g2 & ->). by exists g1, ls, g2.
Qed.

(** A table that differs in one bucket and its group. *)
Lemma table_update m t g1 h (old new : list (Z * list Z)) g2 t' c :
  table m t (g1 ++ old ++ g2) -> Forall (fun g => g.1 = h) old -> Forall (fun g => g.1 = h) new -> (length new <= 1)%nat ->
  h ∉ g1.*1 ++ g2.*1 -> aset t h c = Some t' ->
  (forall ls, (h, ls) ∈ new -> ls <> [] /\ c = (alen ls, hd_or 0 ls) /\ forall l, l ∈ ls -> elem_hash m (alen t) l h) ->
  (new = [] -> fst c = 0) -> table m t' (g1 ++ new ++ g2).
Proof.
  intros [H1 H2 H3 H4] Ho Hn Hlen Hni Et Hin Hout. pose proof (aset_alen _ _ _ _ Et) as El. split.
  - lia.
  - rewrite !fmap_app in *. apply NoDup_app in H2 as (N1 & D1 & N2). apply NoDup_app in N2 as (_ & _ & N2).
    assert (Nn : forall x, x ∈ new.*1 -> x = h). { intros x Hx. apply list_elem_of_fmap in Hx as (g & -> & Hg). rewrite Forall_forall in Hn. by apply Hn. }
    apply NoDup_app. split_and!; [done| |].
    + intros x Hx Hx'. apply elem_of_app in Hx' as [Hx'|Hx']; [apply Nn in Hx' as ->; set_solver + Hni Hx|]. apply (D1 x Hx). set_solver + Hx'.
    + apply NoDup_app. split_and!; [|intros x Hx; apply Nn in Hx as ->; set_solver + Hni|done].
      destruct new as [|g [|g' new]]; [constructor|apply NoDup_singleton|cbn in Hlen; lia].
  - intros k ls Hk. rewrite !elem_of_app in Hk. assert (Hcase : k <> h /\ (k, ls) ∈ g1 ++ old ++ g2 \/ k = h /\ (h, ls) ∈ new).
    { destruct Hk as [Hk|[Hk|Hk]].
      - left. split; [|set_solver + Hk]. intros ->. apply Hni, elem_of_app. left. apply list_elem_of_fmap. by exists (h, ls).
      - right. rewrite Forall_forall in Hn. pose proof (Hn _ Hk) as E. cbn in E. by subst k.
      - left. split; [|set_solver + Hk]. intros ->. apply Hni, elem_of_app. right. apply list_elem_of_fmap. by exists (h, ls). }
    rewrite El. destruct Hcase as [[Hne Hk']|[-> Hk']].
    + destruct (H3 _ _ Hk') as (A & B & C). split_and!; try done. by rewrite (aget_aset_ne _ _ _ _ _ Et).
    + destruct (Hin _ Hk') as (A & B & C). split_and!; try done. by rewrite (aget_aset_eq _ _ _ _ Et), B.
  - intros k Hk Hkn. rewrite El in Hk. rewrite !fmap_app, !elem_of_app in Hkn. destruct (decide (k = h)) as [->|Hne].
    + rewrite (aget_aset_eq _ _ _ _ Et). destruct new as [|g new]; [destruct c as [c1 c2]; exists c2; cbn in Hout; by rewrite Hout|].
      exfalso. apply Hkn. right. left. apply Forall_cons in Hn as [Hg _]. cbn. rewrite Hg. left.
    + rewrite (aget_aset_ne _ _ _ _ _ Et) by done. apply H4; [done|]. rewrite !fmap_app, !elem_of_app. intros [?|[Hx|?]]; [tauto| |tauto].
      apply list_elem_of_fmap in Hx as (g & -> & Hg). rewrite Forall_forall in Ho. by apply Hne, Ho.
Qed.

(** What a step on the list of a table with buckets [t] gives: the table [t'] of
    the groups [gs']. *)
Record stepped (s s' : Hash) (t t' : list bucket) (gs' : list (Z * list Z)) (touched : list Z) : Prop := {
  st_ht : ht s' = Some t';
  st_size : alen t' = alen t /\ htsize s' = htsize s /\ count s' = count s;
  st_list : dlist (heap s') (first s') (elems gs');
  st_table : table (heap s') t' gs';
  st_content : same_content (heap s) (heap s');
  st_frame : forall l, l ∉ touched -> heap s' !! l = heap s !! l
}.

#[export] Instance alen_Permutation {A} : Proper (Permutation ==> (=)) (@alen A).
Proof. intros l k H. unfold alen. by rewrite H. Qed.

Lemma insertElement_table s t gs new e0 : ht s = Some t -> dlist (heap s) (first s) (elems gs) -> table (heap s) t gs ->
  heap s !! new = Some e0 -> new ∉ elems gs -> new <> 0 -> alen (elems gs) + 1 < 2 ^ 32 ->
  exists s' t' gs', insertElement s (Some (strHash (pKey e0) mod alen t)) new = Some s' /\ stepped s s' t t' gs' (new :: elems gs) /\
    elems gs' ≡ₚ new :: elems gs.
Proof.
  intros Et Hl Ht Hnew Hni Hn0 Hlen. pose proof (tb_size _ _ _ Ht) as Hsz. set (h := strHash (pKey e0) mod alen t).
  assert (Hh : 0 <= h < alen t) by (apply Z.mod_pos_bound; lia). assert (Hhash : elem_hash (heap s) (alen t) new h) by (by exists e0).
  unfold insertElement. rewrite Et. cbn [mbind option_bind]. destruct (decide (h ∈ gs.*1)) as [Hin|Hout].
  - destruct (group_of _ _ Hin) as (g1 & ls & g2 & ->). destruct (tb_in _ _ _ Ht h ls ltac:(set_solver +)) as (Hne & Hget & Hels). rewrite Hget. cbn [mbind option_bind].
    rewrite aset_in by done. cbn [mbind option_bind]. set (t' := <[Z.to_nat h := _]> t).
    assert (Ea : aset t h (u32 (alen ls + 1), new) = Some t') by (by rewrite aset_in). destruct ls as [|x ls]; [done|].
    rewrite elems_app, elems_cons in *. cbn [app] in *. pose proof (alen_nonneg (elems g1)). pose proof (alen_nonneg (elems g2)). pose proof (alen_nonneg (x :: ls)).
    rewrite alen_app, alen_cons, alen_app in Hlen. rewrite alen_cons in *.
    replace (alen ls + 1 =? 0) with false by (symmetry; apply Z.eqb_neq; pose proof (alen_nonneg ls); lia). cbn [negb]. change (hd_or 0 (x :: ls)) with x.
    assert (Hx0 : x <> 0) by (intros ->; apply (dl_null _ _ _ Hl); set_solver +). apply Z.eqb_neq in Hx0 as ->. cbn [negb].
    destruct (link_before (set_ht (Some t') s) new x (elems g1) (ls ++ elems g2) e0 Hl Hnew Hni Hn0) as (s' & -> & Hl' & [Ho Hc Hfr]).
    injection Ho as Ho1 Ho2 Ho3. exists s', t', (g1 ++ (h, new :: x :: ls) :: g2). split; [done|]. rewrite elems_app, elems_cons. cbn [app]. split.
    + split; try done; [by rewrite (aset_alen _ _ _ _ Ea)|by rewrite elems_app, elems_cons|].
      apply (table_content _ _ _ _ Hc). pose proof (tb_nodup _ _ _ Ht) as Hnd. rewrite fmap_app in Hnd. cbn in Hnd.
      apply (table_update _ t g1 h [(h, x :: ls)] [(h, new :: x :: ls)] g2 t' (u32 (alen ls + 1 + 1), new)); try done.
      * repeat constructor. * repeat constructor.
      * apply NoDup_app in Hnd as (_ & D & N). apply NoDup_cons in N as [N _]. intros Hx. apply elem_of_app in Hx as [Hx|Hx]; [apply (D h Hx); by left|done].
      * intros ls' Hls'. apply list_elem_of_singleton in Hls'. injection Hls' as ->. split_and!; [done| |].
        { rewrite !alen_cons, u32_id; [done|]. unfold is_u32. pose proof (alen_nonneg ls). lia. }
        intros l Hlin. apply elem_of_cons in Hlin as [->|Hlin]; [done|]. by apply Hels.
    + symmetry. apply Permutation_middle.
  - destruct (tb_out _ _ _ Ht h Hh Hout) as [ch Hget]. rewrite Hget. cbn [mbind option_bind]. rewrite aset_in by done. cbn [mbind option_bind Z.eqb negb].
    set (t' := <[Z.to_nat h := _]> t). assert (Ea : aset t h (u32 (0 + 1), new) = Some t') by (by rewrite aset_in).
    destruct (link_front (set_ht (Some t') s) new (elems gs) e0 Hl Hnew Hni Hn0) as (s' & -> & Hl' & [Ho Hc Hfr]).
    injection Ho as Ho1 Ho2 Ho3. exists s', t', ([] ++ [(h, [new])] ++ gs). split; [done|]. split; [|done]. split; try done; [by rewrite (aset_alen _ _ _ _ Ea)|].
    apply (table_content _ _ _ _ Hc). apply (table_update _ t [] h [] [(h, [new])] gs t' (u32 (0 + 1), new)); try done.
    + repeat constructor.
    + intros ls' Hls'. apply list_elem_of_singleton in Hls'. injection Hls' as ->. split_and!; try done. intros l Hlin. by apply list_elem_of_singleton in Hlin as ->.
Qed.

(** ** Growing the table *)

Lemma hash_rehash_loop_ok fuel : forall rest gs t s p, (length rest < fuel)%nat -> ht s = Some t -> dlist (heap s) (first s) (elems gs) -> table (heap s) t gs ->
  linked (heap s) p rest 0 -> NoDup (rest ++ elems gs) -> 0 ∉ rest -> alen (rest ++ elems gs) < 2 ^ 32 ->
  exists s' t' gs', hash_rehash_loop fuel (alen t) (hd_or 0 rest) s = Some s' /\ stepped s s' t t' gs' (rest ++ elems gs) /\ elems gs' ≡ₚ rest ++ elems gs.
Proof.
  induction fuel as [|fuel IH]; intros rest gs t s p Hf Et Hl Ht Hr Hnd H0 Hlen; [lia|]. cbn [hash_rehash_loop]. destruct rest as [|x rest].
  - exists s, t, gs. split; [done|]. split; [by split|done].
  - change (hd_or 0 (x :: rest)) with x. assert (x <> 0) as ->%Z.eqb_neq by (intros ->; set_solver + H0). destruct Hr as [(e & He & _ & Hn) Hr]. rewrite He. cbn [mbind option_bind].
    cbn [app] in Hnd, Hlen. apply NoDup_cons in Hnd as [Hx Hnd]. rewrite alen_cons in Hlen. pose proof (alen_nonneg rest). rewrite alen_app in Hlen.
    destruct (insertElement_table s t gs x e Et Hl Ht He ltac:(set_solver + Hx) ltac:(intros ->; set_solver + H0) ltac:(lia)) as (s1 & t1 & gs1 & -> & [A1 [A2 [A3 A4]] A5 A6 A7 A8] & Hp).
    cbn [mbind option_bind]. rewrite Hn.
    assert (Hnd1 : NoDup (rest ++ elems gs1)). { rewrite Hp. rewrite <- Permutation_middle. by apply NoDup_cons. }
    destruct (IH rest gs1 t1 s1 x) as (s2 & t2 & gs2 & E & [B1 [B2 [B3 B4]] B5 B6 B7 B8] & Hp2); try done.
    + cbn in Hf. lia.
    + eapply linked_frame; [|exact Hr]. intros l Hl'. apply A8. apply not_elem_of_cons. split; [intros ->; set_solver + Hx Hl'|].
      apply NoDup_app in Hnd as (_ & D & _). by apply D.
    + set_solver + H0.
    + rewrite Hp, alen_app, alen_cons. lia.
    + rewrite A2 in E. exists s2, t2, gs2. split; [exact E|]. split; [split; try done; [split_and!; congruence|by eapply same_content_trans|]|].
      * intros l Hni. rewrite B8 by (rewrite Hp; set_solver + Hni). apply A8. set_solver + Hni.
      * rewrite Hp2, Hp. rewrite <- Permutation_middle. done.
Qed.

Lemma linked_size m ls : NoDup ls -> (forall l, l ∈ ls -> is_Some (m !! l)) -> (length ls <= size (m : gmap Z HashElem))%nat.
Proof.
  intros Hnd Hm. rewrite <- size_dom. rewrite <- (size_list_to_set (C := gset Z) ls) by done. apply subseteq_size.
  intros l Hl. apply elem_of_list_to_set in Hl. by apply elem_of_dom, Hm.
Qed.

(** [sqlite3MallocSize] is at least what was asked for, and an [int]. *)
Definition got_ok (got : Z -> option Z) : Prop := forall n b, got n = Some b -> n <= b < 2 ^ 31.

Lemma empty_table m n : 0 < n -> table m (replicate (Z.to_nat n) (0, 0)) [].
Proof.
  intros Hn. assert (El : alen (replicate (Z.to_nat n) (0, 0)) = n) by (unfold alen; rewrite length_replicate; lia).
  split; [lia|constructor|set_solver +|]. intros h Hh _. exists 0. apply aget_replicate. rewrite El in Hh. lia.
Qed.

Lemma rehash_ok got s n ls : got_ok got -> dlist (heap s) (first s) ls -> 0 < n -> alen ls < 2 ^ 32 ->
  exists b s', rehash got s n = Some (b, s') /\ (b = false -> s' = s) /\
    (b = true -> exists t' gs', ht s' = Some t' /\ htsize s' = alen t' /\ count s' = count s /\ dlist (heap s') (first s') (elems gs') /\ table (heap s') t' gs' /\
       same_content (heap s) (heap s') /\ elems gs' ≡ₚ ls /\ forall l, l ∉ ls -> heap s' !! l = heap s !! l).
Proof.
  intros Hgot Hl Hn Hlen. unfold rehash. set (n1 := if _ >? _ then _ else n). assert (Hn1 : 0 < n1) by (unfold n1; destruct (_ >? _); [|done]; by vm_compute).
  destruct (n1 =? htsize s); [by exists false, s|]. destruct (got (n1 * sizeof_ht)) as [b|] eqn:Eg; [|by exists false, s]. apply Hgot in Eg. unfold sizeof_ht in *.
  assert (Hb : 0 < b / 16 < 2 ^ 32) by zdm. rewrite u32_id by (unfold is_u32; lia). set (k := b / 16) in *.
  assert (El : alen (replicate (Z.to_nat k) (0, 0)) = k) by (unfold alen; rewrite length_replicate; lia). pose proof Hl as [Hli Hnd H0 Hf]. rewrite Hf.
  assert (E0 : ls ++ elems [] = ls) by apply app_nil_r.
  destruct (hash_rehash_loop_ok (S (size (heap s))) ls [] (replicate (Z.to_nat k) (0, 0)) (MkHash k (count s) 0 (Some (replicate (Z.to_nat k) (0, 0))) (heap s)) 0)
    as (s' & t' & gs' & E & [B1 [B2 [B3 B4]] B5 B6 B7 B8] & Hp); try done.
  { pose proof (linked_size (heap s) ls Hnd). cut (length ls <= size (heap s))%nat; [lia|]. apply H. intros l Hl'. by eapply linked_elem. }
  { split; [done|constructor|set_solver +|done]. } { apply empty_table. lia. } { by rewrite E0. } { by rewrite E0. }
  rewrite El in E. rewrite E. cbn [mbind option_bind]. exists true, s'. split; [done|]. split; [done|]. intros _. exists t', gs'.
  rewrite E0 in Hp. split_and!; try done; [rewrite B3, B2, El; done|]. intros l Hni. apply B8. by rewrite E0.
Qed.

Lemma hash_clear_loop_ok fuel : forall ls s p, (length ls < fuel)%nat -> linked (heap s) p ls 0 -> NoDup ls -> 0 ∉ ls ->
  exists s', hash_clear_loop fuel (hd_or 0 ls) s = Some s' /\ (htsize s', count s', first s', ht s') = (htsize s, count s, first s, ht s) /\
    forall l, heap s' !! l = if bool_decide (l ∈ ls) then None else heap s !! l.
Proof.
  induction fuel as [|fuel IH]; intros ls s p Hf Hl Hnd H0; [lia|]. cbn [hash_clear_loop]. destruct ls as [|x ls].
  - exists s. split; [done|]. split; [done|]. intros l. by rewrite bool_decide_false by set_solver +.
  - change (hd_or 0 (x :: ls)) with x. assert (x <> 0) as ->%Z.eqb_neq by (intros ->; set_solver + H0). destruct Hl as [(e & He & _ & Hn) Hl]. rewrite He. cbn [mbind option_bind].
    rewrite Hn. apply NoDup_cons in Hnd as [Hx Hnd]. destruct (IH ls (MkHash (htsize s) (count s) (first s) (ht s) (delete x (heap s))) x) as (s' & -> & E & Hh); try done.
    + cbn in Hf. lia.
    + eapply linked_frame; [|exact Hl]. intros l Hl'. apply lookup_delete_ne. by intros ->.
    + set_solver + H0.
    + exists s'. split; [done|]. split; [exact E|]. intros l. rewrite Hh. cbn [heap]. destruct (decide (l = x)) as [->|Hne].
      * rewrite bool_decide_false, bool_decide_true by (done || set_solver +). apply lookup_delete_eq.
      * rewrite lookup_delete_ne by done. case_bool_decide as Hc; [rewrite bool_decide_true by set_solver + Hc|rewrite bool_decide_false by set_solver + Hc Hne]; done.
Qed.

(** ** The invariant *)

(** The elements hold the map [M] from names, in lower case, to data. *)
Record content (m : gmap Z HashElem) (M : gmap (list Z) Z) : Prop := {
  ct_elem : forall l e, m !! l = Some e -> text_ok (pKey e) /\ data e <> 0 /\ M !! lower (pKey e) = Some (data e);
  ct_inj : forall l l' e e', m !! l = Some e -> m !! l' = Some e' -> lower (pKey e) = lower (pKey e') -> l = l';
  ct_map : forall k d, M !! k = Some d -> exists l e, m !! l = Some e /\ lower (pKey e) = k
}.

Definition table_of (s : Hash) (ls : list Z) : Prop :=
  match ht s with Some t => htsize s = alen t /\ exists gs, ls = elems gs /\ table (heap s) t gs | None => True end.

Record inv (M : gmap (list Z) Z) (s : Hash) (ls : list Z) : Prop := {
  iv_list : dlist (heap s) (first s) ls;
  iv_count : count s = alen ls /\ alen ls < 2 ^ 32;
  iv_table : table_of s ls;
  iv_dom : forall l, is_Some (heap s !! l) <-> l ∈ ls;
  iv_content : content (heap s) M
}.

(** The table [s] implements the map [M]. *)
Definition implements (M : gmap (list Z) Z) (s : Hash) : Prop := exists ls, inv M s ls.

Lemma content_same m m' M : same_content m m' -> content m M -> content m' M.
Proof.
  intros Hs [H1 H2 H3]. assert (Hs' : same_content m' m) by (intros l; by rewrite Hs). split.
  - intros l e He. destruct (same_content_lookup _ _ _ _ Hs' He) as (e' & He' & <- & <-). by apply (H1 l).
  - intros l l' e e' He He' Hk. destruct (same_content_lookup _ _ _ _ Hs' He) as (e1 & He1 & _ & E1). destruct (same_content_lookup _ _ _ _ Hs' He') as (e2 & He2 & _ & E2).
    apply (H2 l l' e1 e2); try done. by rewrite E1, E2.
  - intros k d Hk. destruct (H3 k d Hk) as (l & e & He & Ek). destruct (same_content_lookup _ _ _ _ Hs He) as (e' & He' & _ & E'). exists l, e'. by rewrite E'.
Qed.

(** A new element, or a new value in an element. *)
Lemma content_insert m M l e key d : content m M -> text_ok key -> d <> 0 -> data e = d -> pKey e = key ->
  (forall l' e', m !! l' = Some e' -> lower (pKey e') = lower key -> l' = l) -> (forall e', m !! l = Some e' -> lower (pKey e') = lower key) ->
  content (<[l := e]> m) (<[lower key := d]> M).
Proof.
  intros [H1 H2 H3] Hk Hd Ed Ek Hu Hs.
  assert (Hl : forall l' e', <[l := e]> m !! l' = Some e' -> l' = l /\ e' = e \/ l' <> l /\ m !! l' = Some e').
  { intros l' e' He. destruct (decide (l' = l)) as [->|Hne]; [left; rewrite lookup_insert_eq in He; by simplify_eq|right]. by rewrite lookup_insert_ne in He. }
  split.
  - intros l' e' He. destruct (Hl _ _ He) as [[-> ->]|[Hne He']]; [rewrite Ek, Ed, lookup_insert_eq; by split_and!|].
    destruct (H1 _ _ He') as (A & B & C). split_and!; try done. rewrite lookup_insert_ne; [done|]. intros E. by apply Hne, (Hu _ e').
  - intros l1 l2 e1 e2 He1 He2 E. destruct (Hl _ _ He1) as [[-> ->]|[Hn1 He1']], (Hl _ _ He2) as [[-> ->]|[Hn2 He2']]; try done.
    + exfalso. apply Hn2, (Hu _ _ He2'). by rewrite <- E, Ek.
    + exfalso. apply Hn1, (Hu _ _ He1'). by rewrite E, Ek.
    + by apply (H2 l1 l2 e1 e2).
  - intros k d' Hkd. destruct (decide (k = lower key)) as [->|Hne]; [exists l, e; by rewrite lookup_insert_eq, Ek|].
    rewrite lookup_insert_ne in Hkd by done. destruct (H3 _ _ Hkd) as (l' & e' & He' & Ek'). exists l', e'. split; [|done].
    rewrite lookup_insert_ne; [done|]. intros <-. apply Hne. by rewrite <- Ek', (Hs _ He').
Qed.

Lemma content_delete m M l e : content m M -> m !! l = Some e -> content (delete l m) (delete (lower (pKey e)) M).
Proof.
  intros [H1 H2 H3] He. split.
  - intros l' e' He'. apply lookup_delete_Some in He' as [Hne He']. destruct (H1 _ _ He') as (A & B & C). split_and!; try done.
    rewrite lookup_delete_ne; [done|]. intros E. by apply Hne, (H2 l l' e e').
  - intros l1 l2 e1 e2 He1 He2. apply lookup_delete_Some in He1 as [_ He1], He2 as [_ He2]. by apply H2.
  - intros k d Hk. apply lookup_delete_Some in Hk as [Hne Hk]. destruct (H3 _ _ Hk) as (l' & e' & He' & E'). exists l', e'. split; [|done].
    rewrite lookup_delete_ne; [done|]. intros <-. rewrite He in He'. simplify_eq.
Qed.

Lemma content_empty : content ∅ ∅.
Proof. split; intros *; rewrite ?lookup_empty; done. Qed.

(** ** Search *)

Lemma strHash_lower a b : lower a = lower b -> strHash a = strHash b.
Proof.
  unfold strHash. generalize 0. revert b. induction a as [|c a IH]; intros [|x b] h E; try done. cbn [lower map] in E. injection E as Ex E.
  cbn [strHash_loop]. rewrite Ex. by apply IH.
Qed.

Lemma find_loop_ok s key : text_ok key -> (forall l e, heap s !! l = Some e -> text_ok (pKey e)) -> forall x p n, linked (heap s) p x n ->
  exists r, find_loop (length x) s (hd_or n x) key = Some r /\
    (r = 0 /\ (forall l e, l ∈ x -> heap s !! l = Some e -> lower (pKey e) <> lower key) \/
     r ∈ x /\ exists e, heap s !! r = Some e /\ lower (pKey e) = lower key).
Proof.
  intros Hkey Hall. induction x as [|l x IH]; intros p n Hl; cbn [length find_loop].
  - exists 0. split; [done|]. left. split; [done|]. set_solver +.
  - destruct Hl as [(e & He & _ & Hn) Hl]. change (hd_or n (l :: x)) with l. rewrite He. cbn [mbind option_bind].
    destruct (StrICmp_eq (pKey e) key (Hall _ _ He) Hkey) as (c & -> & Hc). cbn [mbind option_bind]. destruct (Z.eqb_spec c 0) as [E|E].
    + exists l. split; [done|]. right. split; [left|]. exists e. tauto.
    + rewrite Hn. destruct (IH l n Hl) as (r & -> & Hr). exists r. split; [done|]. destruct Hr as [[-> Hr]|[Hr1 Hr2]]; [left|right].
      * split; [done|]. intros l' e' Hin He'. apply elem_of_cons in Hin as [->|Hin]; [|by eapply Hr]. rewrite He in He'. simplify_eq. tauto.
      * split; [by right|done].
Qed.

(** A name that is in the table is in its bucket. *)
Lemma group_has s t gs key h l e : table (heap s) t gs -> h = strHash key mod alen t -> (forall l, is_Some (heap s !! l) -> l ∈ elems gs) ->
  heap s !! l = Some e -> lower (pKey e) = lower key -> exists g, (h, g) ∈ gs /\ l ∈ g.
Proof.
  intros Htb Eh Hd He Ek. assert (l ∈ elems gs) as Hin by (apply Hd; by eexists). unfold elems in Hin. apply list_elem_of_In, in_concat in Hin as (g & Hg & Hlg).
  apply list_elem_of_In, list_elem_of_fmap in Hg as ([h' g'] & -> & Hg). apply list_elem_of_In in Hlg. exists g'. split; [|done].
  destruct (tb_in _ _ _ Htb _ _ Hg) as (_ & _ & Hh'). destruct (Hh' l Hlg) as (e' & He' & Eh'). rewrite He in He'. injection He' as <-.
  replace h with h'; [done|]. rewrite <- Eh', Eh. f_equal. by apply strHash_lower.
Qed.

Lemma group_unique m t g1 h g g2 g' : table m t (g1 ++ (h, g) :: g2) -> (h, g') ∈ g1 ++ (h, g) :: g2 -> g' = g.
Proof.
  intros Htb Hg'. pose proof (tb_nodup _ _ _ Htb) as Hnd.
  rewrite fmap_app in Hnd. cbn in Hnd. apply NoDup_app in Hnd as (_ & D & N). apply NoDup_cons in N as [N _]. apply elem_of_app in Hg' as [Hg'|Hg'].
  - exfalso. apply (D h); [apply list_elem_of_fmap; by exists (h, g')|by left].
  - apply elem_of_cons in Hg' as [Hg'|Hg']; [by simplify_eq|]. exfalso. apply N. apply list_elem_of_fmap. by exists (h, g').
Qed.

(** The elements that the search goes through. *)
Lemma bucket_of s t gs key : table (heap s) t gs -> linked (heap s) 0 (elems gs) 0 -> (forall l, is_Some (heap s !! l) -> l ∈ elems gs) ->
  exists x p n c, aget t (strHash key mod alen t) = Some (alen x, c) /\ linked (heap s) p x n /\ (x <> [] -> c = hd_or n x) /\
    (forall l, l ∈ x -> l ∈ elems gs) /\ (forall l e, heap s !! l = Some e -> lower (pKey e) = lower key -> l ∈ x).
Proof.
  intros Htb Hli Hd. pose proof (tb_size _ _ _ Htb) as Hpos. set (h := strHash key mod alen t). assert (Hh : 0 <= h < alen t) by (apply Z.mod_pos_bound; lia).
  assert (Hby : forall l e, heap s !! l = Some e -> lower (pKey e) = lower key -> exists g, (h, g) ∈ gs /\ l ∈ g) by (intros l e; by eapply group_has).
  destruct (decide (h ∈ gs.*1)) as [Hin|Hout].
  - destruct (group_of _ _ Hin) as (g1 & g & g2 & ->). destruct (tb_in _ _ _ Htb h g ltac:(set_solver +)) as (Hne & Hget & _). rewrite elems_app, elems_cons in *.
    apply linked_app in Hli as [_ Hli]. apply linked_app in Hli as [Hli _]. eexists g, _, _, _. split; [exact Hget|]. split; [exact Hli|]. split_and!.
    + intros _. by destruct g.
    + set_solver +.
    + intros l e He Ek. destruct (Hby l e He Ek) as (g' & Hg' & Hlg). by rewrite <- (group_unique _ _ _ _ _ _ _ Htb Hg').
  - destruct (tb_out _ _ _ Htb h Hh Hout) as [ch Hget]. exists [], 0, 0, ch. split; [exact Hget|]. split_and!; try done; [set_solver +|].
    intros l e He Ek. destruct (Hby l e He Ek) as (g' & Hg' & _). exfalso. apply Hout, list_elem_of_fmap. by exists (h, g').
Qed.

(** The element found: the one that holds the name, if there is one. *)
Definition found (M : gmap (list Z) Z) (s : Hash) (ls key : list Z) (r : Z) : Prop :=
  r = 0 /\ M !! lower key = None \/
  r ∈ ls /\ exists e, heap s !! r = Some e /\ lower (pKey e) = lower key /\ M !! lower key = Some (data e).

Lemma find_ok M s ls key : inv M s ls -> text_ok key ->
  exists r h, findElementWithHash s key = Some (r, h) /\ (is_Some (ht s) -> h = strHash key mod htsize s) /\ found M s ls key r.
Proof.
  intros [Hl [Hc _] Ht Hd Hct] Hkey. pose proof (dl_linked _ _ _ Hl) as Hli.
  assert (Hall : forall l e, heap s !! l = Some e -> text_ok (pKey e)) by (intros l e He; by apply (ct_elem _ _ Hct l)).
  assert (Hfin : forall (x : list Z) (r : Z), (forall l, l ∈ x -> l ∈ ls) -> (forall l e, heap s !! l = Some e -> lower (pKey e) = lower key -> l ∈ x) ->
    (r = 0 /\ (forall l e, l ∈ x -> heap s !! l = Some e -> lower (pKey e) <> lower key) \/ r ∈ x /\ exists e, heap s !! r = Some e /\ lower (pKey e) = lower key) ->
    found M s ls key r).
  { intros x r Hx Hin [[-> Hr]|[Hr (e & He & Ek)]]; [left|right].
    - split; [done|]. destruct (M !! lower key) as [d|] eqn:Em; [|done]. destruct (ct_map _ _ Hct _ _ Em) as (l & e & He & Ek). exfalso. eapply Hr; [by eapply Hin|done|done].
    - split; [by apply Hx|]. exists e. split_and!; try done. rewrite <- Ek. by apply (ct_elem _ _ Hct r). }
  unfold findElementWithHash. unfold table_of in Ht. destruct (ht s) as [t|]; cbn [mbind option_bind].
  - destruct Ht as (Hs & gs & -> & Htb). rewrite Hs.
    destruct (bucket_of s t gs key Htb Hli (fun l => proj1 (Hd l))) as (x & p & n & c & -> & Hlx & Hcx & Hsub & Hin). cbn [mbind option_bind].
    destruct (find_loop_ok s key Hkey Hall x p n Hlx) as (r & Er & Hr).
    assert (Er' : find_loop (Z.to_nat (alen x)) s c key = Some r).
    { unfold alen. rewrite Nat2Z.id. destruct x; [exact Er|]. by rewrite Hcx. }
    rewrite Er'. cbn [mbind option_bind]. eexists r, _. split; [done|]. split; [done|]. by apply (Hfin x).
  - rewrite Hc, (dl_first _ _ _ Hl). destruct (find_loop_ok s key Hkey Hall ls 0 0 Hli) as (r & Er & Hr). unfold alen. rewrite Nat2Z.id, Er. cbn [mbind option_bind].
    exists r, 0. split; [done|]. split; [by intros [? ?]|]. apply (Hfin ls); try done. intros l e He _. apply Hd. by eexists.
Qed.

(** ** Removal *)

Lemma bind_Some {A B C} (m : option A) (f : A -> option B) (g : B -> option C) x :
  m ≫= f = Some x -> m ≫= (fun a => f a ≫= g) = g x.
Proof. destruct m; cbn; [|done]. by intros ->. Qed.

Lemma table_frame m m' t gs : (forall l, l ∈ elems gs -> m' !! l = m !! l) -> table m t gs -> table m' t gs.
Proof.
  intros Hm [H1 H2 H3 H4]. split; try done. intros h ls Hin. destruct (H3 h ls Hin) as (A & B & C). split_and!; try done.
  intros l Hl. destruct (C l Hl) as (e & He & Eh). exists e. split; [|done]. rewrite Hm; [done|]. unfold elems. apply list_elem_of_In, in_concat.
  exists ls. split; apply list_elem_of_In; [|done]. apply list_elem_of_fmap. by exists (h, ls).
Qed.

(** The bucket of an element that leaves it. *)
Lemma table_remove m t g1 h x r y g2 : table m t (g1 ++ (h, x ++ r :: y) :: g2) -> NoDup (x ++ r :: y) -> alen (x ++ r :: y) < 2 ^ 32 ->
  exists cnt chain t', aget t h = Some (cnt, chain) /\
    aset t h (u32 (cnt - 1), if chain =? r then hd_or 0 (y ++ elems g2) else chain) = Some t' /\ alen t' = alen t /\
    exists gs', elems gs' = elems g1 ++ x ++ y ++ elems g2 /\ table m t' gs'.
Proof.
  intros Ht Hnd Hlen. destruct (tb_in _ _ _ Ht h (x ++ r :: y) ltac:(set_solver +)) as (_ & Hget & Hels). eexists _, _. pose proof (aget_range _ _ _ Hget) as Hr.
  set (c := if hd_or 0 (x ++ r :: y) =? r then hd_or 0 (y ++ elems g2) else hd_or 0 (x ++ r :: y)).
  eexists. split; [exact Hget|]. fold c. split; [by apply aset_in|]. set (t' := <[_ := _]> t).
  assert (Et : aset t h (u32 (alen (x ++ r :: y) - 1), c) = Some t') by (by apply aset_in). split; [by apply (aset_alen _ _ _ _ Et)|].
  assert (Ec : u32 (alen (x ++ r :: y) - 1) = alen (x ++ y)).
  { pose proof (alen_nonneg x). pose proof (alen_nonneg y). rewrite alen_app, alen_cons in *. rewrite u32_id by (unfold is_u32; lia). rewrite alen_app. lia. }
  rewrite Ec in Et. clearbody t'. set (new := if decide (x ++ y = []) then [] else [(h, x ++ y)]). exists (g1 ++ new ++ g2).
  assert (Hn : elems (new ++ g2) = x ++ y ++ elems g2).
  { unfold new. destruct (decide (x ++ y = [])) as [E|]; [|cbn [app]; by rewrite elems_cons, app_assoc]. apply app_nil in E as [-> ->]. done. }
  split; [by rewrite elems_app, Hn|]. assert (Hni : h ∉ g1.*1 ++ g2.*1).
  { pose proof (tb_nodup _ _ _ Ht) as N. rewrite fmap_app in N. cbn in N. apply NoDup_app in N as (_ & D & N). apply NoDup_cons in N as [N _].
    intros Hx. apply elem_of_app in Hx as [Hx|Hx]; [apply (D h Hx); by left|done]. }
  apply (table_update m t g1 h [(h, x ++ r :: y)] new g2 t' (alen (x ++ y), c)); try done.
  - repeat constructor.
  - unfold new. destruct (decide _); repeat constructor.
  - unfold new. destruct (decide _); cbn; lia.
  - intros ls Hls. unfold new in Hls. destruct (decide (x ++ y = [])) as [|Hne]; [set_solver + Hls|]. apply list_elem_of_singleton in Hls. injection Hls as ->.
    split_and!; [done| |].
    + f_equal. unfold c. destruct x as [|x0 x]; cbn [app] in *.
      * change (hd_or 0 (r :: y)) with r. rewrite Z.eqb_refl. by destruct y.
      * change (hd_or 0 (x0 :: x ++ r :: y)) with x0. apply NoDup_cons in Hnd as [Hx0 _]. by assert (x0 <> r) as ->%Z.eqb_neq by (intros ->; set_solver + Hx0).
    + intros l Hl. apply Hels. set_solver + Hl.
  - unfold new. destruct (decide (x ++ y = [])) as [->|]; [done|done].
Qed.

Lemma clear_ok M s ls : inv M s ls -> exists s', sqlite3HashClear s = Some s' /\ s' = sqlite3HashInit ∅.
Proof.
  intros [[Hli Hnd H0 Hf] _ _ Hd _]. unfold sqlite3HashClear. rewrite Hf.
  destruct (hash_clear_loop_ok (S (size (heap s))) ls (MkHash 0 (count s) 0 None (heap s)) 0) as (s' & -> & E & Hh); try done.
  { pose proof (linked_size (heap s) ls Hnd (fun l Hl => proj2 (Hd l) Hl)). lia. }
  cbn [mbind option_bind]. eexists. split; [done|]. injection E as E1 E2 E3 E4. unfold set_count, sqlite3HashInit. rewrite E1, E3, E4. f_equal.
  apply map_eq. intros l. rewrite Hh, lookup_empty. cbn [heap]. case_bool_decide as Hl; [done|]. destruct (heap s !! l) eqn:E; [|done]. exfalso. apply Hl, Hd. by eexists.
Qed.

Lemma init_ok : inv ∅ (sqlite3HashInit ∅) [].
Proof.
  split; cbn [sqlite3HashInit heap first count].
  - split; [done|constructor|set_solver +|done].
  - done.
  - done.
  - intros l. rewrite lookup_empty. split; [by intros [? ?]|set_solver +].
  - apply content_empty.
Qed.

(** The state after an element of [ls] was taken off the list and freed. *)
Lemma removed_ok M s s1 ls a r b e : inv M s ls -> ls = a ++ r :: b -> heap s !! r = Some e -> dlist (heap s1) (first s1) (a ++ b) ->
  same_content (heap s) (heap s1) -> count s1 = count s -> table_of s1 (a ++ b) ->
  exists s', (let s := MkHash (htsize s1) (u32 (count s1 - 1)) (first s1) (ht s1) (delete r (heap s1)) in
              if count s =? 0 then sqlite3HashClear s else Some s) = Some s' /\ implements (delete (lower (pKey e)) M) s'.
Proof.
  intros [Hl [Hc Hlen] _ Hd Hct] -> He Hl1 Hsc Hc1 Ht. cbv zeta. cbn [count]. rewrite Hc1, Hc.
  assert (En : u32 (alen (a ++ r :: b) - 1) = alen (a ++ b)).
  { pose proof (alen_nonneg a). pose proof (alen_nonneg b). rewrite alen_app, alen_cons in *. rewrite u32_id by (unfold is_u32; lia). rewrite alen_app. lia. }
  rewrite En. destruct (same_content_lookup _ _ _ _ Hsc He) as (e1 & He1 & _ & Ek). rewrite <- Ek.
  pose proof (dl_nodup _ _ _ Hl) as Hnd. assert (Hr : r ∉ a ++ b). { rewrite <- Permutation_middle in Hnd. by apply NoDup_cons in Hnd as [? _]. }
  assert (Hi : inv (delete (lower (pKey e1)) M) (MkHash (htsize s1) (alen (a ++ b)) (first s1) (ht s1) (delete r (heap s1))) (a ++ b)).
  { assert (Hfr : forall l, l ∈ a ++ b -> delete r (heap s1) !! l = heap s1 !! l) by (intros l Hl'; apply lookup_delete_ne; by intros ->).
    split; cbn [heap first count].
    - destruct Hl1. split; try done. by eapply linked_frame.
    - split; [done|]. rewrite alen_app, alen_cons in Hlen. rewrite alen_app. lia.
    - unfold table_of in *. cbn [ht htsize heap]. destruct (ht s1); [|done]. destruct Ht as (E & gs & Eg & Htb). split; [done|]. exists gs. split; [done|].
      eapply table_frame; [|exact Htb]. by rewrite <- Eg.
    - intros l. destruct (decide (l = r)) as [->|Hne]; [rewrite lookup_delete_eq; split; [by intros [? ?]|done]|]. rewrite lookup_delete_ne by done.
      rewrite <- (fmap_is_Some (fun e => (data e, pKey e))), <- Hsc, fmap_is_Some, Hd. set_solver + Hne.
    - apply content_delete; [|done]. by eapply content_same. }
  destruct (Z.eqb_spec (alen (a ++ b)) 0) as [E0|]; [|eexists; split; [done|]; by exists (a ++ b)].
  destruct (clear_ok _ _ _ Hi) as (s' & -> & ->). eexists. split; [done|]. exists []. assert (a ++ b = []) as E by (unfold alen in E0; destruct (a ++ b); cbn in E0; [done|lia]).
  assert (delete (lower (pKey e1)) M = ∅) as ->; [|apply init_ok]. apply map_eq. intros k. rewrite lookup_empty.
  destruct (delete (lower (pKey e1)) M !! k) as [d|] eqn:Ek'; [|done]. destruct (ct_map _ _ (iv_content _ _ _ Hi) _ _ Ek') as (l & e' & He' & _).
  exfalso. assert (l ∈ a ++ b) as Hin by (apply (iv_dom _ _ _ Hi); by eexists). rewrite E in Hin. set_solver + Hin.
Qed.

Lemma elem_decomp {A} (x : A) l : x ∈ l -> exists a b, l = a ++ x :: b.
Proof. apply list_elem_of_split. Qed.

Lemma remove_ok M s ls r h e : inv M s ls -> r ∈ ls -> heap s !! r = Some e -> (is_Some (ht s) -> h = strHash (pKey e) mod htsize s) ->
  exists s', removeElementGivenHash s r h = Some s' /\ implements (delete (lower (pKey e)) M) s'.
Proof.
  intros Hi Hr He Hh. pose proof Hi as [Hl [Hc Hlen] Ht Hd Hct]. unfold removeElementGivenHash. rewrite He. cbn [mbind option_bind].
  assert (Hcase : forall a b, ls = a ++ r :: b ->
    (forall s1, htsize s1 = htsize s -> ht s1 = ht s -> same_content (heap s) (heap s1) ->
       exists t, (match ht s1 with
         | Some t => '(cnt, chain) ← aget t h; t ← aset t h (u32 (cnt - 1), if chain =? r then hd_or 0 b else chain); Some (set_ht (Some t) s1)
         | None => Some s1 end) = Some (set_ht t s1) /\ table_of (set_ht t s1) (a ++ b)) ->
    exists s', (s0 ← (if negb (prev e =? 0) then set_next (prev e) (next e) s else Some (set_first (next e) s));
      s0 ← (if negb (next e =? 0) then set_prev (next e) (prev e) s0 else Some s0);
      s0 ← (match ht s0 with
        | Some t => '(cnt, chain) ← aget t h; t ← aset t h (u32 (cnt - 1), if chain =? r then next e else chain); Some (set_ht (Some t) s0)
        | None => Some s0 end);
      let s := MkHash (htsize s0) (u32 (count s0 - 1)) (first s0) (ht s0) (delete r (heap s0)) in
      if count s =? 0 then sqlite3HashClear s else Some s) = Some s' /\ implements (delete (lower (pKey e)) M) s').
  { intros a b -> Htab. destruct (unlink s r a b e Hl He) as (s1 & E & Hl1 & [Ho Hsc _] & Hn). rewrite (bind_Some _ _ _ _ E). clear E.
    injection Ho as Ho1 Ho2 Ho3. rewrite Hn. destruct (Htab s1 Ho1 Ho3 Hsc) as (t & -> & Ht1). cbn [mbind option_bind]. by eapply removed_ok. }
  unfold table_of in Ht. destruct (ht s) as [t|] eqn:Et.
  - destruct Ht as (Hs & gs & -> & Htb). rewrite (Hh ltac:(by eexists)), Hs in *.
    destruct (group_has s t gs (pKey e) _ r e Htb eq_refl (fun l => proj1 (Hd l)) He eq_refl) as (g & Hg & Hrg).
    destruct (elem_decomp _ _ Hg) as (g1 & g2 & ->). destruct (elem_decomp _ _ Hrg) as (x & y & ->).
    set (h0 := strHash (pKey e) mod alen t) in *. pose proof (dl_nodup _ _ _ Hl) as Hnd. rewrite elems_app, elems_cons in *.
    apply (Hcase (elems g1 ++ x) (y ++ elems g2)); [by rewrite <- !app_assoc|]. intros s1 E1 E2 Hsc. rewrite E2.
    destruct (table_remove (heap s1) t g1 h0 x r y g2) as (cnt & chain & t' & -> & Ea & El & gs' & Eg & Htb').
    + by eapply table_content.
    + apply NoDup_app in Hnd as (_ & _ & Hnd). apply NoDup_app in Hnd as (Hnd & _). exact Hnd.
    + rewrite !alen_app in *. pose proof (alen_nonneg (elems g1)). pose proof (alen_nonneg (elems g2)). lia.
    + cbn [mbind option_bind]. rewrite Ea. cbn [mbind option_bind]. exists (Some t'). split; [done|]. cbn. split; [lia|]. exists gs'. by rewrite Eg, !app_assoc.
  - destruct (elem_decomp _ _ Hr) as (a & b & Els). apply (Hcase a b Els). intros s1 E1 E2 _. rewrite E2. exists None. split; [|done]. by destruct s1; cbn in *; subst.
Qed.

(** ** Insertion *)

(** A new element is in the heap, and not yet on the list. *)
Lemma inserted_ok M m1 s ls new e : content m1 M -> same_content m1 (heap s) -> dlist (heap s) (first s) ls -> table_of s ls ->
  (forall l, is_Some (m1 !! l) <-> l = new \/ l ∈ ls) -> heap s !! new = Some e -> new ∉ ls -> new <> 0 -> count s = alen ls + 1 -> alen ls + 1 < 2 ^ 32 ->
  exists s', insertElement s (match ht s with Some _ => Some (strHash (pKey e) mod htsize s) | None => None end) new = Some s' /\ implements M s'.
Proof.
  intros Hct Hsc Hl Ht Hd He Hni Hn0 Hc Hlen.
  assert (Hfin : forall s' ls', same_content (heap s) (heap s') -> ls' ≡ₚ new :: ls -> dlist (heap s') (first s') ls' -> table_of s' ls' -> count s' = count s -> implements M s').
  { intros s' ls' Hs' Hp Hl' Ht' Hc'. exists ls'. pose proof (same_content_trans _ _ _ Hsc Hs') as Hs2. split; try done.
    - rewrite Hc', Hc, Hp, alen_cons. lia.
    - intros l. rewrite <- (fmap_is_Some (fun e => (data e, pKey e))), <- Hs2, fmap_is_Some, Hd, Hp. set_solver +.
    - by eapply content_same. }
  unfold table_of in Ht. destruct (ht s) as [t|] eqn:Et.
  - destruct Ht as (Hs & gs & -> & Htb). rewrite Hs. destruct (insertElement_table s t gs new e Et Hl Htb He Hni Hn0 Hlen) as (s' & t' & gs' & -> & [A1 [A2 [A3 A4]] A5 A6 A7 _] & Hp).
    exists s'. split; [done|]. apply (Hfin s' (elems gs')); try done. unfold table_of. rewrite A1. split; [lia|]. by exists gs'.
  - unfold insertElement. cbn [mbind option_bind]. destruct (link_front s new ls e Hl He Hni Hn0) as (s' & E & Hl' & [Ho Hsc' _]). injection Ho as Ho1 Ho2 Ho3.
    exists s'. split; [exact E|]. apply (Hfin s' (new :: ls)); try done. unfold table_of. by rewrite Ho3, Et.
Qed.

Lemma dlist_insert m f ls l e : l ∉ ls -> dlist m f ls -> dlist (<[l := e]> m) f ls.
Proof. intros Hl [H1 H2 H3 H4]. split; try done. by apply linked_insert. Qed.

Lemma add_ok got M s ls new key d h : inv M s ls -> got_ok got -> text_ok key -> d <> 0 -> M !! lower key = None -> heap s !! new = None -> new <> 0 ->
  alen ls + 1 < 2 ^ 31 -> (is_Some (ht s) -> h = strHash key mod htsize s) ->
  exists s', (let s := set_count (u32 (count s + 1)) (set_elem new (MkElem 0 0 d key) s) in
    '(h, s) ← (if (10 <=? count s) && (count s >? u32 (2 * htsize s)) then
                 '(done, s) ← rehash got s (u32 (count s * 2));
                 Some (if (done : bool) then strHash key mod htsize s else h, s)
               else Some (h, s) : option (Z * Hash));
    insertElement s (match ht s with Some _ => Some h | None => None end) new) = Some s' /\ implements (<[lower key := d]> M) s'.
Proof.
  intros Hi Hgot Hkey Hd0 Hm Hnew Hn0 Hlen Hh. pose proof Hi as [Hl [Hc _] Ht Hd Hct]. cbv zeta. pose proof (alen_nonneg ls).
  assert (Hni : new ∉ ls) by (intros Hx; apply Hd in Hx as [? ?]; congruence).
  set (e := MkElem 0 0 d key). set (s1 := set_count (u32 (count s + 1)) (set_elem new e s)).
  assert (Ec1 : count s1 = alen ls + 1) by (unfold s1; cbn; rewrite Hc; apply u32_id; unfold is_u32; lia).
  assert (Hl1 : dlist (heap s1) (first s1) ls) by (by apply dlist_insert).
  assert (Ht1 : table_of s1 ls).
  { unfold table_of in *. cbn [s1 set_count set_elem ht htsize heap]. destruct (ht s) as [t|]; [|done]. destruct Ht as (E & gs & -> & Htb). split; [done|]. exists gs. split; [done|].
    eapply table_frame; [|exact Htb]. intros l Hin. apply lookup_insert_ne. by intros <-. }
  assert (Hct1 : content (heap s1) (<[lower key := d]> M)).
  { apply content_insert with (key := key); try done; [|intros e' He'; cbn in He'; congruence].
    intros l' e' He' Ek. apply (ct_elem _ _ Hct) in He' as (_ & _ & Hk). rewrite Ek in Hk. congruence. }
  assert (Hd1 : forall l, is_Some (heap s1 !! l) <-> l = new \/ l ∈ ls).
  { intros l. cbn [s1 set_count set_elem heap]. destruct (decide (l = new)) as [->|Hne]; [rewrite lookup_insert_eq; split; [by left|by eexists]|].
    rewrite lookup_insert_ne, Hd by done. naive_solver. }
  assert (Hmid : forall s2 ls2, ls2 ≡ₚ ls -> same_content (heap s1) (heap s2) -> dlist (heap s2) (first s2) ls2 -> table_of s2 ls2 -> count s2 = count s1 ->
    exists s', insertElement s2 (match ht s2 with Some _ => Some (strHash key mod htsize s2) | None => None end) new = Some s' /\ implements (<[lower key := d]> M) s').
  { intros s2 ls2 Hp Hsc Hl2 Ht2 Hc2. destruct (same_content_lookup (heap s1) (heap s2) new e Hsc) as (e2 & He2 & _ & Ek); [apply lookup_insert_eq|].
    pose proof (inserted_ok (<[lower key := d]> M) (heap s1) s2 ls2 new e2 Hct1 Hsc Hl2 Ht2) as Hx. rewrite Ek in Hx. apply Hx; try done.
    - intros l. by rewrite Hd1, Hp. - by rewrite Hp. - by rewrite Hp, Hc2. - rewrite Hp. lia. }
  assert (Hnone : forall h2, (is_Some (ht s1) -> h2 = strHash key mod htsize s1) -> match ht s1 with Some _ => Some h2 | None => None end
     = match ht s1 with Some _ => Some (strHash key mod htsize s1) | None => None end).
  { intros h2 H2. destruct (ht s1); [|done]. by rewrite H2 by (by eexists). }
  destruct ((10 <=? count s1) && (count s1 >? u32 (2 * htsize s1))); cbn [mbind option_bind].
  - destruct (rehash_ok got s1 (u32 (count s1 * 2)) ls Hgot Hl1) as (b & s2 & -> & Hf & Hb); [rewrite Ec1, u32_id; [lia|unfold is_u32; lia]|lia|]. cbn [mbind option_bind].
    destruct b.
    + destruct (Hb eq_refl) as (t2 & gs2 & B1 & B2 & B3 & B4 & B5 & B6 & B7 & _). apply (Hmid s2 (elems gs2)); try done. unfold table_of. rewrite B1. split; [done|]. by exists gs2.
    + rewrite (Hf eq_refl), Hnone by exact Hh. by apply (Hmid s1 ls).
  - rewrite Hnone by exact Hh. by apply (Hmid s1 ls).
Qed.

(** ** Operations on a table and on a map *)

Inductive hash_op : Type :=
  | HFind (key : list Z)
  | HInsert (got : Z -> option Z) (new_elem : Z) (key : list Z) (d : Z)
  | HClear.

Definition run_op (s : Hash) (o : hash_op) : option (Z * Hash) :=
  match o with
  | HFind key => d ← sqlite3HashFind s key; Some (d, s)
  | HInsert got new_elem key d => sqlite3HashInsert got new_elem s key d
  | HClear => s ← sqlite3HashClear s; Some (0, s)
  end.

(** The promise: a map from names, up to case, to data, where data 0 stands for
    no entry.  An insertion returns the old data; when the element cannot be
    allocated it returns the new data and changes nothing. *)
Definition spec_op (M : gmap (list Z) Z) (o : hash_op) : Z * gmap (list Z) Z :=
  match o with
  | HFind key => (default 0 (M !! lower key), M)
  | HInsert _ new_elem key d =>
      match M !! lower key with
      | Some old => (old, if d =? 0 then delete (lower key) M else <[lower key := d]> M)
      | None => if d =? 0 then (0, M) else if new_elem =? 0 then (d, M) else (0, <[lower key := d]> M)
      end
  | HClear => (0, ∅)
  end.

(** Names are strings; the allocator gives memory that is not in use; the table
    has less than 2^31 - 1 elements. *)
Definition op_ok (s : Hash) (o : hash_op) : Prop :=
  match o with
  | HFind key => text_ok key
  | HInsert got new_elem key d => text_ok key /\ got_ok got /\ heap s !! new_elem = None /\ count s + 1 < 2 ^ 31
  | HClear => True
  end.

Lemma find_data M s ls key : inv M s ls -> text_ok key -> exists r h, findElementWithHash s key = Some (r, h) /\
  (is_Some (ht s) -> h = strHash key mod htsize s) /\ elem_data s r = Some (default 0 (M !! lower key)) /\ found M s ls key r.
Proof.
  intros Hi Hkey. destruct (find_ok M s ls key Hi Hkey) as (r & h & E & Hh & Hf). exists r, h. split_and!; try done. unfold elem_data.
  destruct Hf as [[-> Hm]|[Hr (e & He & Ek & Hm)]]; [by rewrite Hm|]. rewrite He, Hm. cbn [mbind option_bind default].
  assert (r <> 0) as ->%Z.eqb_neq; [|done]. intros ->. by apply (dl_null _ _ _ (iv_list _ _ _ Hi)).
Qed.

Lemma replace_ok M s ls r e key d : inv M s ls -> heap s !! r = Some e -> lower (pKey e) = lower key -> text_ok key -> d <> 0 ->
  implements (<[lower key := d]> M) (set_elem r (MkElem (next e) (prev e) d key) s).
Proof.
  intros [[Hli Hnd H0 Hf] Hc Ht Hd Hct] He Ek Hkey Hd0. exists ls. set (e' := MkElem _ _ _ _).
  assert (Hlink : forall ls p n, linked (heap s) p ls n -> linked (<[r := e']> (heap s)) p ls n).
  { clear - He. induction ls as [|l ls IH]; intros p n; [done|]. intros [(x & Hx & Hp & Hn) Hl]. split; [|by apply IH].
    destruct (decide (l = r)) as [->|Hne]; [|exists x; by rewrite lookup_insert_ne]. rewrite He in Hx. injection Hx as <-. exists e'. by rewrite lookup_insert_eq. }
  split; cbn [set_elem heap first count].
  - split; try done. by apply Hlink.
  - done.
  - unfold table_of in *. cbn [set_elem ht htsize heap]. destruct (ht s); [|done]. destruct Ht as (E & gs & Eg & [T1 T2 T3 T4]). split; [done|]. exists gs. split; [done|].
    split; try done. intros h g Hg. destruct (T3 h g Hg) as (A & B & C). split_and!; try done. intros l' Hl'. destruct (C l' Hl') as (x & Hx & Eh).
    destruct (decide (l' = r)) as [->|Hne]; [|exists x; by rewrite lookup_insert_ne]. rewrite He in Hx. injection Hx as <-. exists e'. rewrite lookup_insert_eq. split; [done|].
    rewrite <- Eh. cbn [e' pKey]. f_equal. by apply strHash_lower.
  - intros l'. rewrite <- Hd. destruct (decide (l' = r)) as [->|Hne]; [rewrite lookup_insert_eq, He; split; by eexists|]. by rewrite lookup_insert_ne.
  - apply content_insert with (key := key); try done; [|intros x Hx; congruence]. intros l' x Hx Ex. apply (ct_inj _ _ Hct l' r x e); congruence.
Qed.

Lemma bind_with_Some {A B} (m : option A) (f : A -> B) x : m = Some x -> m ≫= (fun a => Some (f a)) = Some (f x).
Proof. by intros ->. Qed.

Lemma insert_ok got new M s ls key d : inv M s ls -> op_ok s (HInsert got new key d) ->
  exists r s', sqlite3HashInsert got new s key d = Some (r, s') /\ r = fst (spec_op M (HInsert got new key d)) /\ implements (snd (spec_op M (HInsert got new key d))) s'.
Proof.
  intros Hi (Hkey & Hgot & Hnew & Hcnt). unfold sqlite3HashInsert. cbn [spec_op]. pose proof (iv_count _ _ _ Hi) as [Hc _].
  destruct (find_data M s ls key Hi Hkey) as (r & h & -> & Hh & Ed & Hf). cbn [mbind option_bind]. rewrite Ed. cbn [mbind option_bind].
  destruct Hf as [[-> Hm]|[Hr (e & He & Ek & Hm)]]; rewrite Hm; cbn [default].
  - cbn [Z.eqb negb]. destruct (Z.eqb_spec d 0) as [->|Hd0]; [eexists _, _; split; [done|]; split; [done|]; by exists ls|].
    destruct (Z.eqb_spec new 0) as [->|Hn0]; [eexists _, _; split; [done|]; split; [done|]; by exists ls|].
    destruct (add_ok got M s ls new key d h Hi Hgot Hkey Hd0 Hm Hnew Hn0 ltac:(lia) Hh) as (s' & E & Hs').
    exists 0, s'. split; [|by split]. cbv zeta in E. rewrite <- (bind_with_Some _ (fun s => (0, s)) _ E). by destruct (if _ && _ then _ else _) as [[? ?]|].
  - change (id (data e)) with (data e). destruct (ct_elem _ _ (iv_content _ _ _ Hi) _ _ He) as (_ & Hde & _). apply Z.eqb_neq in Hde as Ede. rewrite Ede. cbn [negb].
    destruct (Z.eqb_spec d 0) as [->|Hd0].
    + destruct (remove_ok M s ls r h e Hi Hr He) as (s' & -> & Hs'); [intros Hx; rewrite (Hh Hx); f_equal; by apply strHash_lower|].
      cbn [mbind option_bind]. eexists _, _. split; [done|]. split; [done|]. by rewrite <- Ek.
    + rewrite He. cbn [mbind option_bind]. eexists _, _. split; [done|]. split; [done|]. by eapply replace_ok.
Qed.

(** One operation of the table does what the map does. *)
Lemma op_sim M s o : implements M s -> op_ok s o ->
  exists r s', run_op s o = Some (r, s') /\ r = fst (spec_op M o) /\ implements (snd (spec_op M o)) s'.
Proof.
  intros [ls Hi] Ho. destruct o as [key|got new key d|]; cbn [run_op].
  - destruct (find_data M s ls key Hi Ho) as (r & h & E & _ & Ed & _). unfold sqlite3HashFind. rewrite E. cbn [mbind option_bind]. rewrite Ed. cbn [mbind option_bind].
    eexists _, _. split; [done|]. split; [done|]. by exists ls.
  - by eapply insert_ok.
  - destruct (clear_ok M s ls Hi) as (s' & -> & ->). cbn [mbind option_bind]. eexists _, _. split; [done|]. split; [done|]. exists []. apply init_ok.
Qed.

(** The tables that operations lead to from an empty one, with the map of their
    entries. *)
Inductive reaches : Hash -> gmap (list Z) Z -> Prop :=
  | reach_init : reaches (sqlite3HashInit ∅) ∅
  | reach_step s M o r s' : reaches s M -> op_ok s o -> run_op s o = Some (r, s') -> reaches s' (snd (spec_op M o)).

Lemma reaches_implements s M : reaches s M -> implements M s.
Proof.
  induction 1 as [|s M o r s' _ IH Ho E]; [exists []; apply init_ok|]. destruct (op_sim M s o IH Ho) as (r2 & s2 & E2 & _ & Hs2). by simplify_eq.
Qed.

(** The elements of a bucket are next to each other. *)
Lemma bucket_elems m t gs h : table m t gs -> 0 <= h < alen t -> exists a g b c, elems gs = a ++ g ++ b /\ aget t h = Some (alen g, c) /\
  (g <> [] -> c = hd_or 0 g) /\ forall l, l ∈ elems gs -> l ∈ g <-> elem_hash m (alen t) l h.
Proof.
  intros Htb Hh. assert (Hel : forall l, l ∈ elems gs -> exists h' g, (h', g) ∈ gs /\ l ∈ g /\ elem_hash m (alen t) l h').
  { intros l Hl. unfold elems in Hl. apply list_elem_of_In, in_concat in Hl as (g & Hg & Hlg). apply list_elem_of_In, list_elem_of_fmap in Hg as ([h' g'] & -> & Hg).
    apply list_elem_of_In in Hlg. exists h', g'. split_and!; try done. by apply (tb_in _ _ _ Htb h' g'). }
  assert (Hfun : forall l h1 h2, elem_hash m (alen t) l h1 -> elem_hash m (alen t) l h2 -> h1 = h2).
  { intros l h1 h2 (e1 & He1 & <-) (e2 & He2 & <-). rewrite He1 in He2. by simplify_eq. }
  destruct (decide (h ∈ gs.*1)) as [Hin|Hout].
  - destruct (group_of _ _ Hin) as (g1 & g & g2 & ->). destruct (tb_in _ _ _ Htb h g ltac:(set_solver +)) as (Hne & Hget & Hels).
    exists (elems g1), g, (elems g2), (hd_or 0 g). rewrite elems_app, elems_cons in *. split_and!; try done. intros l Hl. split; [apply Hels|].
    intros Hlh. destruct (Hel l Hl) as (h' & g' & Hg' & Hlg & Hh'). rewrite (Hfun _ _ _ Hlh Hh') in *. by rewrite <- (group_unique _ _ _ _ _ _ _ Htb Hg').
  - destruct (tb_out _ _ _ Htb h Hh Hout) as [c Hget]. exists [], [], (elems gs), c. split_and!; try done. intros l Hl. split; [set_solver +|].
    intros Hlh. destruct (Hel l Hl) as (h' & g' & Hg' & Hlg & Hh'). rewrite (Hfun _ _ _ Hlh Hh') in *. exfalso. apply Hout, list_elem_of_fmap. by exists (h', g').
Qed.

(** ** Properties *)

(** C31. The hash table is a map.  Whatever operations were run before, a search
    returns the data last inserted under the name, up to the case of letters, an
    insertion returns the data it replaces, an insertion of null removes the
    name, and a failed allocation of an element returns the new data and changes
    nothing; failed or refused growth of the bucket array is never visible.
    Every operation returns. *)
Theorem sqlite3Hash_refines_map s M o : reaches s M -> op_ok s o ->
  exists r s', run_op s o = Some (r, s') /\ r = fst (spec_op M o) /\ reaches s' (snd (spec_op M o)).
Proof.
  intros Hr Ho. destruct (op_sim M s o (reaches_implements s M Hr) Ho) as (r & s' & E & Er & _). exists r, s'. split; [exact E|]. split; [exact Er|].
  by eapply reach_step.
Qed.

(** The name "ab" inserted in an empty table. *)
Definition hash_sample : hash_op := HInsert (fun _ => None) 1 [97; 98] 7.

Lemma hash_sample_reached : exists s, reaches s (snd (spec_op ∅ hash_sample)) /\ heap s !! 2 = None /\ count s = 1.
Proof.
  eexists. split; [|split]; [eapply reach_step; [apply reach_init| |vm_compute; reflexivity]|reflexivity|reflexivity].
  split_and!; [repeat constructor; unfold is_u8; lia|by intros n b|reflexivity|cbn; lia].
Qed.

Lemma sqlite3Hash_refines_map_witness : exists s r s', run_op s (HFind [65; 66]) = Some (r, s') /\ r = 7.
Proof.
  destruct hash_sample_reached as (s & Hr & _ & _). exists s.
  destruct (sqlite3Hash_refines_map s (snd (spec_op ∅ hash_sample)) (HFind [65; 66]) Hr) as (r & s' & E & Er & _).
  - repeat constructor; unfold is_u8; lia.
  - exists r, s'. split; [exact E|]. rewrite Er. vm_compute. reflexivity.
Defined.

(** C32. Every reachable table is well formed: [first] leads through [next] to
    exactly [count] distinct elements, which are all the elements allocated;
    [prev] goes back along the same list; the elements of a bucket are the
    [count] elements from its [chain] on, no two elements have the same name. *)
Theorem sqlite3Hash_wellformed s M : reaches s M ->
  exists ls, linked (heap s) 0 ls 0 /\ first s = hd_or 0 ls /\ NoDup ls /\ count s = alen ls /\ (forall l, is_Some (heap s !! l) <-> l ∈ ls) /\
    (forall t, ht s = Some t -> htsize s = alen t /\ forall h, 0 <= h < alen t ->
       exists a g b c, ls = a ++ g ++ b /\ aget t h = Some (alen g, c) /\ (g <> [] -> c = hd_or 0 g) /\
         forall l, l ∈ ls -> l ∈ g <-> elem_hash (heap s) (alen t) l h) /\
    (forall l l' e e', heap s !! l = Some e -> heap s !! l' = Some e' -> lower (pKey e) = lower (pKey e') -> l = l').
Proof.
  intros Hr. destruct (reaches_implements s M Hr) as [ls [[Hli Hnd H0 Hf] [Hc _] Ht Hd Hct]]. exists ls. split_and!; try done; [|apply Hct].
  intros t Et. unfold table_of in Ht. rewrite Et in Ht. destruct Ht as (Hs & gs & -> & Htb). split; [exact Hs|]. intros h Hh. by apply bucket_elems.
Qed.

Lemma sqlite3Hash_wellformed_witness : exists s ls, linked (heap s) 0 ls 0 /\ first s = hd_or 0 ls /\ alen ls = 1.
Proof.
  destruct hash_sample_reached as (s & Hr & _ & Hc). exists s.
  destruct (sqlite3Hash_wellformed s (snd (spec_op ∅ hash_sample)) Hr) as (ls & Hl & Hf & _ & Hn & _).
  exists ls. split; [exact Hl|]. split; [exact Hf|]. rewrite <- Hn. exact Hc.
Defined.
