(* ===== verification/Ints.v ===== *)
(** * Checked 64-bit arithmetic and logarithmic estimates ([src/util.c])

    [sqlite3AddInt64], [sqlite3SubInt64] and [sqlite3MulInt64] in the two forms
    that the file has, with the compiler's overflow builtins and without,
    [sqlite3AbsInt32], and the [LogEst] arithmetic of the query planner. *)
From S2P Require Import Prelude.

(** ** Checked arithmetic *)

Definition LARGEST_INT64 : Z := 0xffffffff .| (0x7fffffff << 32).
Definition SMALLEST_INT64 : Z := -1 - LARGEST_INT64.

(** The builtins: whether the exact result does not fit, and the result wrapped
    around, which is stored either way. *)
Definition builtin_overflow (exact : Z) : Z * Z := (if i64 exact =? exact then 0 else 1, i64 exact).

(** The return value and [*pA]; [gcc] selects the branch with the builtins. *)
Definition sqlite3AddInt64 (gcc : bool) (pA iB : Z) : Z * Z :=
  if gcc then builtin_overflow (pA + iB)
  else
    let iA := pA in
    if iB >=? 0 then
      if (iA >? 0) && (LARGEST_INT64 - iA <? iB) then (1, pA) else (0, i64 (pA + iB))
    else
      if (iA <? 0) && (- (iA + LARGEST_INT64) >? iB + 1) then (1, pA) else (0, i64 (pA + iB)).

Definition sqlite3SubInt64 (gcc : bool) (pA iB : Z) : Z * Z :=
  if gcc then builtin_overflow (pA - iB)
  else if iB =? SMALLEST_INT64 then
    if pA >=? 0 then (1, pA) else (0, i64 (pA - iB))
  else sqlite3AddInt64 gcc pA (- iB).

(** Division of C truncates. *)
Definition sqlite3MulInt64 (gcc : bool) (pA iB : Z) : Z * Z :=
  if gcc then builtin_overflow (pA * iB)
  else
    let iA := pA in
    let fail :=
      if iB >? 0 then
        if iA >? Z.quot LARGEST_INT64 iB then true
        else iA <? Z.quot SMALLEST_INT64 iB
      else if iB <? 0 then
        if iA >? 0 then iB <? Z.quot SMALLEST_INT64 iA
        else if iA <? 0 then
          if iB =? SMALLEST_INT64 then true
          else if iA =? SMALLEST_INT64 then true
          else - iA >? Z.quot LARGEST_INT64 (- iB)
        else false
      else false in
    if fail then (1, pA) else (0, i64 (iA * iB)).

Definition sqlite3AbsInt32 (x : Z) : Z :=
  if x >=? 0 then x else if x =? i32 0x80000000 then 0x7fffffff else - x.

(** ** Logarithmic estimates *)

Definition i16 (x : Z) : Z := swrap 16 x.

(** [static const unsigned char x[]] of [sqlite3LogEstAdd] *)
Definition logest_add_table : list Z :=
  [10; 10; 9; 9; 8; 8; 7; 7; 7; 6; 6; 6; 5; 5; 5; 4; 4; 4; 4; 3; 3; 3; 3; 3; 3; 2; 2; 2; 2; 2; 2; 2].

Definition sqlite3LogEstAdd (a b : Z) : option Z :=
  if a >=? b then
    if a >? b + 49 then Some a
    else if a >? b + 31 then Some (i16 (a + 1))
    else x ← aget logest_add_table (a - b); Some (i16 (a + x))
  else
    if b >? a + 49 then Some b
    else if b >? a + 31 then Some (i16 (b + 1))
    else x ← aget logest_add_table (b - a); Some (i16 (b + x)).

(** [static LogEst a[]] of [sqlite3LogEst] *)
Definition logest_table : list Z := [0; 2; 3; 5; 6; 7; 8; 9].

(** [while( x<8 ){ y -= 10; x <<= 1; }] *)
Fixpoint small_loop (fuel : nat) (x y : Z) : option (Z * Z) :=
  match fuel with
  | O => None
  | S fuel => if x <? 8 then small_loop fuel (u64 (x << 1)) (i16 (y - 10)) else Some (x, y)
  end.

(** [while( x>lim ){ y += d; x >>= k; }] *)
Fixpoint shift_loop (fuel : nat) (lim d k x y : Z) : option (Z * Z) :=
  match fuel with
  | O => None
  | S fuel => if x >? lim then shift_loop fuel lim d k (x >> k) (i16 (y + d)) else Some (x, y)
  end.

(** [__builtin_clzll] *)
Definition clzll (x : Z) : Z := 63 - Z.log2 x.

Definition sqlite3LogEst (gcc : bool) (x : Z) : option Z :=
  let y := 40 in
  if (x <? 8) && (x <? 2) then Some 0
  else
    '(x, y) ←
      (if x <? 8 then small_loop 64 x y
       else if gcc then let i := 60 - clzll x in Some (x >> i, i16 (y + i * 10))
       else '(x, y) ← shift_loop 64 255 40 4 x y; shift_loop 64 15 10 1 x y);
    a ← aget logest_table (x .& 7);
    Some (i16 (a + y - 10)).

(** [x%10] and [x/=10] of C; [n] is unsigned.  C leaves the result undefined for
    [x] of -610 and less, where the shift is by 64 or more. *)
Definition sqlite3LogEstToInt (x : Z) : Z :=
  let n := u64 (Z.rem x 10) in
  let x := Z.quot x 10 in
  let n := if n >=? 5 then u64 (n - 2) else if n >=? 1 then u64 (n - 1) else n in
  if x >? 60 then LARGEST_INT64
  else if x >=? 3 then u64 ((n + 8) << (x - 3)) else u64 (n + 8) >> (3 - x).

(** ** Lemmas *)

Lemma i64_id x : is_i64 x -> i64 x = x.
Proof. unfold is_i64, i64, swrap. intros H. change (2 ^ (64 - 1)) with (2 ^ 63). rewrite Z.mod_small; lia. Qed.

Lemma i64_range x : is_i64 (i64 x).
Proof. unfold is_i64, i64, swrap. change (2 ^ (64 - 1)) with (2 ^ 63). pose proof (Z.mod_pos_bound (x + 2 ^ 63) (2 ^ 64)). lia. Qed.

Lemma i64_eq x : (i64 x =? x) = true <-> is_i64 x.
Proof. rewrite Z.eqb_eq. split; [intros <-; apply i64_range|apply i64_id]. Qed.

Lemma largest : LARGEST_INT64 = 2 ^ 63 - 1 /\ SMALLEST_INT64 = - 2 ^ 63.
Proof. by vm_compute. Qed.

(** What a checked operation is to do with the exact result. *)
Definition checked (gcc : bool) (pA exact : Z) (r : Z * Z) : Prop :=
  (is_i64 exact -> r = (0, exact)) /\ (~ is_i64 exact -> r = (1, if gcc then i64 exact else pA)).

Lemma builtin_checked pA exact : checked true pA exact (builtin_overflow exact).
Proof.
  unfold checked, builtin_overflow. destruct (i64 exact =? exact) eqn:E; split; intros H.
  - apply Z.eqb_eq in E. by rewrite E.
  - by apply i64_eq in E.
  - apply i64_eq in H. congruence.
  - done.
Qed.

(** A test that decides whether the result fits. *)
Lemma checked_test (fail : bool) pA exact : (fail = true <-> ~ is_i64 exact) -> checked false pA exact (if fail then (1, pA) else (0, i64 exact)).
Proof.
  intros H. unfold checked. destruct fail; split; intros Hx; try done; [by apply H in Hx|by rewrite i64_id|]. exfalso. apply H in Hx. done.
Qed.

Lemma add_checked gcc a b : is_i64 a -> is_i64 b -> checked gcc a (a + b) (sqlite3AddInt64 gcc a b).
Proof.
  intros Ha Hb. destruct gcc; [apply builtin_checked|]. unfold sqlite3AddInt64. destruct largest as [HL _]. rewrite HL. unfold is_i64 in Ha, Hb.
  destruct (Z.geb_spec b 0); apply checked_test; rewrite andb_true_iff; unfold is_i64.
  - rewrite Z.gtb_lt, Z.ltb_lt. lia.
  - rewrite Z.ltb_lt, Z.gtb_lt. lia.
Qed.

Lemma sub_checked gcc a b : is_i64 a -> is_i64 b -> checked gcc a (a - b) (sqlite3SubInt64 gcc a b).
Proof.
  intros Ha Hb. destruct gcc; [apply builtin_checked|]. unfold sqlite3SubInt64. destruct largest as [_ HS]. rewrite HS. unfold is_i64 in Ha, Hb.
  destruct (Z.eqb_spec b (- 2 ^ 63)) as [->|Hne].
  - apply checked_test. rewrite Z.geb_le. unfold is_i64. lia.
  - rewrite <- Z.add_opp_r. apply add_checked; unfold is_i64; lia.
Qed.

(** Bounds of a quotient that truncates. *)
Lemma quot_bounds a b : 0 < b -> (0 <= a -> b * Z.quot a b <= a < b * (Z.quot a b + 1)) /\ (a <= 0 -> b * (Z.quot a b - 1) < a <= b * Z.quot a b).
Proof.
  intros Hb. pose proof (Z.quot_rem a b ltac:(lia)) as E. split; intros Ha.
  - pose proof (Z.rem_bound_pos a b Ha Hb). lia.
  - pose proof (Z.rem_bound_pos (- a) b ltac:(lia) Hb) as H. rewrite Z.rem_opp_l in H by lia. lia.
Qed.

Lemma mul_checked gcc a b : is_i64 a -> is_i64 b -> checked gcc a (a * b) (sqlite3MulInt64 gcc a b).
Proof.
  intros Ha Hb. destruct gcc; [apply builtin_checked|]. unfold sqlite3MulInt64. destruct largest as [HL HS]. rewrite HL, HS. unfold is_i64 in Ha, Hb.
  apply checked_test. unfold is_i64. rewrite !Z.gtb_ltb. destruct (Z.ltb_spec 0 b).
  - destruct (quot_bounds (2 ^ 63 - 1) b) as [Q1 _], (quot_bounds (- 2 ^ 63) b) as [_ Q2]; try lia. specialize (Q1 ltac:(lia)). specialize (Q2 ltac:(lia)).
    destruct (Z.ltb_spec (Z.quot (2 ^ 63 - 1) b) a); [split; [nia|done]|]. rewrite Z.ltb_lt. split; nia.
  - destruct (Z.ltb_spec b 0); [|split; [done|nia]]. destruct (Z.ltb_spec 0 a).
    + destruct (quot_bounds (- 2 ^ 63) a) as [_ Q2]; try lia. specialize (Q2 ltac:(lia)). rewrite Z.ltb_lt. split; nia.
    + destruct (Z.ltb_spec a 0); [|split; [done|nia]]. destruct (Z.eqb_spec b (- 2 ^ 63)); [split; [nia|done]|]. destruct (Z.eqb_spec a (- 2 ^ 63)); [split; [nia|done]|].
      destruct (quot_bounds (2 ^ 63 - 1) (- b)) as [Q1 _]; try lia. specialize (Q1 ltac:(lia)). rewrite Z.ltb_lt. split; nia.
Qed.

(** Checked arithmetic.  On 64-bit operands, [sqlite3AddInt64],
    [sqlite3SubInt64] and [sqlite3MulInt64] return 0 and the exact result when it
    fits in 64 bits, and 1 when it does not; in that case [*pA] is unchanged in
    the portable code, and wrapped around where the compiler's builtins are
    used; [sqlite3AbsInt32] is the absolute value, cut off at 2^31 - 1. *)
Theorem sqlite3Int64_checked gcc a b x : is_i64 a -> is_i64 b -> - 2 ^ 31 <= x < 2 ^ 31 ->
  checked gcc a (a + b) (sqlite3AddInt64 gcc a b) /\ checked gcc a (a - b) (sqlite3SubInt64 gcc a b) /\
  checked gcc a (a * b) (sqlite3MulInt64 gcc a b) /\ sqlite3AbsInt32 x = Z.min (Z.abs x) (2 ^ 31 - 1).
Proof.
  intros Ha Hb Hx. split_and!; [by apply add_checked|by apply sub_checked|by apply mul_checked|]. unfold sqlite3AbsInt32.
  change (i32 0x80000000) with (- 2 ^ 31). destruct (Z.geb_spec x 0); [lia|]. destruct (Z.eqb_spec x (- 2 ^ 31)); lia.
Qed.

Lemma sqlite3Int64_checked_witness :
  sqlite3MulInt64 false 4294967296 2147483648 = (1, 4294967296) /\ sqlite3MulInt64 true 4294967296 2147483648 = (1, - 2 ^ 63).
Proof.
  destruct (sqlite3Int64_checked false 4294967296 2147483648 0) as (_ & _ & [_ H1] & _); [by unfold is_i64..|lia|].
  destruct (sqlite3Int64_checked true 4294967296 2147483648 0) as (_ & _ & [_ H2] & _); [by unfold is_i64..|lia|].
  split; [rewrite H1; [reflexivity|unfold is_i64; lia]|rewrite H2; [reflexivity|unfold is_i64; lia]].
Defined.

(** ** Logarithmic estimates *)

(** Ten times the binary logarithm: its integer part, and a digit for the three
    bits after the highest one. *)
Definition logest_ref (x : Z) : Z :=
  if x <? 2 then 0 else 10 * Z.log2 x + default 0 (aget logest_table (x * 8 / 2 ^ Z.log2 x - 8)).

Lemma i16_id x : - 2 ^ 15 <= x < 2 ^ 15 -> i16 x = x.
Proof. intros H. unfold i16, swrap. change (2 ^ (16 - 1)) with (2 ^ 15). rewrite Z.mod_small; lia. Qed.

Lemma shift_loop_ok lim d k : 1 <= lim -> 1 <= k <= 8 -> 0 <= d -> forall fuel x y, 0 <= x < 2 ^ Z.of_nat fuel -> (1 <= fuel)%nat ->
  0 <= y -> y + d * Z.of_nat fuel < 2 ^ 15 ->
  exists j, 0 <= j /\ shift_loop fuel lim d k x y = Some (x >> (k * j), y + d * j) /\ x >> (k * j) <= lim /\ (j = 0 \/ 0 < j /\ lim < x >> (k * (j - 1))).
Proof.
  intros Hlim Hk Hd. induction fuel as [|fuel IH]; intros x y Hx Hf Hy Hyd; [lia|]. cbn [shift_loop]. rewrite Z.gtb_ltb.
  destruct (Z.ltb_spec lim x) as [Hgt|Hle].
  - assert (Hfu : (1 <= fuel)%nat). { destruct fuel; [|lia]. change (2 ^ Z.of_nat 1) with 2 in Hx. lia. }
    assert (Hsh : 0 <= x >> k < 2 ^ Z.of_nat fuel).
    { rewrite Z.shiftr_div_pow2 by lia. split; [apply Z.div_pos; lia|]. apply Z.div_lt_upper_bound; [lia|].
      rewrite Nat2Z.inj_succ, Z.pow_succ_r in Hx by lia. pose proof (Z.pow_le_mono_r 2 1 k ltac:(lia) ltac:(lia)). pose proof (Z.pow_pos_nonneg 2 (Z.of_nat fuel)). nia. }
    rewrite i16_id by lia. destruct (IH (x >> k) (y + d)) as (j & Hj & -> & Hle & Hprev); [done|done|lia|lia|].
    exists (j + 1). rewrite Z.shiftr_shiftr in Hle |- * by nia. replace (k * (j + 1)) with (k + k * j) by lia. split; [lia|]. split; [do 2 f_equal; lia|]. split; [done|].
    right. split; [lia|]. rewrite Z.add_simpl_r. destruct Hprev as [->|[Hj0 Hp]]; [by rewrite Z.mul_0_r|].
    rewrite Z.shiftr_shiftr in Hp by nia. by replace (k + k * (j - 1)) with (k * j) in Hp by lia.
  - exists 0. rewrite Z.mul_0_r, Z.mul_0_r, Z.shiftr_0_r, Z.add_0_r. split_and!; try done. by left.
Qed.

(** The shift that leaves four bits. *)
Lemma four_bits x m : 0 <= m -> 8 <= x >> m <= 15 -> m = Z.log2 x - 3.
Proof.
  intros Hm H. rewrite Z.shiftr_div_pow2 in H by done. pose proof (Z.pow_pos_nonneg 2 m ltac:(lia) Hm).
  assert (Z.log2 x = m + 3); [|lia]. apply Z.log2_unique; [lia|]. rewrite Z.pow_succ_r, Z.pow_add_r by lia. change (2 ^ 3) with 8.
  pose proof (Z.mul_div_le x (2 ^ m) ltac:(lia)). pose proof (Z.mul_succ_div_gt x (2 ^ m) ltac:(lia)). nia.
Qed.

Lemma logest_finish x y : 8 <= x <= 15 -> 0 <= y < 2 ^ 12 ->
  (a ← aget logest_table (x .& 7); Some (i16 (a + y - 10))) = Some (y - 10 + default 0 (aget logest_table (x - 8))).
Proof.
  intros Hx Hy. rewrite (land_ones_mod x 3) by done. change (2 ^ 3) with 8. replace (x mod 8) with (x - 8) by zdm.
  destruct (aget_is_Some logest_table (x - 8)) as [a Ha]; [change (alen logest_table) with 8; lia|]. rewrite Ha. cbn [mbind option_bind]. f_equal.
  assert (0 <= a <= 9). { apply (aget_Forall (fun a => 0 <= a <= 9)) in Ha; [done|]. repeat constructor; lia. } rewrite i16_id by lia. cbn. lia.
Qed.

Lemma log2_u64 x : 8 <= x -> is_u64 x -> 3 <= Z.log2 x <= 63.
Proof.
  intros H8 [_ Hx]. split; [change 3 with (Z.log2 8); by apply Z.log2_le_mono|]. apply Z.log2_lt_pow2 in Hx; lia.
Qed.

(** The four highest bits. *)
Lemma high_bits x : 8 <= x -> is_u64 x -> 8 <= x >> (Z.log2 x - 3) <= 15 /\ x >> (Z.log2 x - 3) = x * 8 / 2 ^ Z.log2 x.
Proof.
  intros H8 Hu. pose proof (log2_u64 x H8 Hu) as Hl. rewrite Z.shiftr_div_pow2 by lia. set (m := Z.log2 x - 3).
  assert (El : Z.log2 x = m + 3) by lia. pose proof (Z.log2_spec x ltac:(lia)) as Hs. rewrite Z.pow_succ_r, El, Z.pow_add_r in Hs by lia. change (2 ^ 3) with 8 in Hs.
  pose proof (Z.pow_pos_nonneg 2 m ltac:(lia) ltac:(lia)). split.
  - split; [apply Z.div_le_lower_bound; lia|]. cut (x / 2 ^ m < 16); [lia|]. apply Z.div_lt_upper_bound; lia.
  - rewrite El, Z.pow_add_r by lia. change (2 ^ 3) with 8. by rewrite Z.div_mul_cancel_r by lia.
Qed.

Lemma logest_ok gcc x : is_u64 x -> sqlite3LogEst gcc x = Some (logest_ref x).
Proof.
  intros Hu. unfold sqlite3LogEst. destruct (Z.ltb_spec x 8) as [Hs|H8].
  - assert (x ∈ [0; 1; 2; 3; 4; 5; 6; 7]) as Hin. { unfold is_u64 in Hu. assert (x = 0 \/ x = 1 \/ x = 2 \/ x = 3 \/ x = 4 \/ x = 5 \/ x = 6 \/ x = 7) by lia. set_solver. }
    clear Hs Hu. revert x Hin. apply Forall_forall. repeat (apply Forall_cons; split; [reflexivity|]). constructor.
  - cbn [andb]. pose proof (log2_u64 x H8 Hu) as Hl. destruct (high_bits x H8 Hu) as [Hb Eb]. unfold logest_ref. replace (x <? 2) with false by (symmetry; apply Z.ltb_ge; lia).
    assert (Hfin : forall x' y', x' = x >> (Z.log2 x - 3) -> y' = 10 * Z.log2 x + 10 ->
      (a ← aget logest_table (x' .& 7); Some (i16 (a + y' - 10))) = Some (10 * Z.log2 x + default 0 (aget logest_table (x * 8 / 2 ^ Z.log2 x - 8)))).
    { intros x' y' -> ->. rewrite logest_finish by lia. rewrite Eb. do 2 f_equal. lia. }
    destruct gcc; cbn [mbind option_bind].
    + apply Hfin; unfold clzll; [f_equal; lia|]. rewrite i16_id; lia.
    + destruct (shift_loop_ok 255 40 4 ltac:(lia) ltac:(lia) ltac:(lia) 64 x 40) as (j & Hj & -> & Hle & Hp); [unfold is_u64 in Hu; lia|lia|lia|lia|]. cbn [mbind option_bind].
      assert (Hjm : j <= 16).
      { destruct (Z.le_gt_cases j 16); [done|]. destruct Hp as [->|[Hj0 Hp]]; [lia|]. rewrite Z.shiftr_div_pow2 in Hp by lia. rewrite Z.div_small in Hp; [lia|].
        split; [lia|]. eapply Z.lt_le_trans; [apply Hu|]. apply Z.pow_le_mono_r; lia. }
      destruct (shift_loop_ok 15 10 1 ltac:(lia) ltac:(lia) ltac:(lia) 64 (x >> (4 * j)) (40 + 40 * j)) as (i & Hi & -> & Hle2 & Hp2); try lia.
      { split; [apply Z.shiftr_nonneg; lia|]. lia. }
      cbn [mbind option_bind]. rewrite Z.shiftr_shiftr in * by lia.
      assert (E : 4 * j + 1 * i = Z.log2 x - 3).
      { apply four_bits; [lia|]. split; [|done]. destruct Hp2 as [->|[Hi0 Hp2]].
        - rewrite Z.mul_0_r, Z.add_0_r in *. destruct Hp as [->|[Hj0 Hp]]; [by rewrite Z.mul_0_r, Z.shiftr_0_r|].
          rewrite Z.shiftr_div_pow2 in * by lia. replace (4 * j) with (4 * (j - 1) + 4) by lia. rewrite Z.pow_add_r, <- Z.div_div by lia. change (2 ^ 4) with 16. apply Z.div_le_lower_bound; lia.
        - rewrite Z.shiftr_shiftr in Hp2 by lia. rewrite Z.shiftr_div_pow2 in * by lia. replace (4 * j + 1 * i) with (4 * j + 1 * (i - 1) + 1) by lia.
          rewrite Z.pow_add_r, <- Z.div_div by lia. change (2 ^ 1) with 2. apply Z.div_le_lower_bound; lia. }
      rewrite E. apply Hfin; lia.
Qed.

Lemma logest_digit x : 2 <= x -> is_u64 x -> 0 <= x * 8 / 2 ^ Z.log2 x - 8 <= 7.
Proof.
  intros H2 Hu. pose proof (Z.log2_spec x ltac:(lia)) as [H1 H3]. rewrite Z.pow_succ_r in H3 by apply Z.log2_nonneg. set (p := 2 ^ Z.log2 x) in *.
  assert (0 < p) by (apply Z.pow_pos_nonneg; [lia|apply Z.log2_nonneg]). split; [|cut (x * 8 / p < 16); [lia|apply Z.div_lt_upper_bound; lia]].
  cut (8 <= x * 8 / p); [lia|apply Z.div_le_lower_bound; lia].
Qed.

Lemma table_mono i j : 0 <= i <= j -> j <= 7 -> default 0 (aget logest_table i) <= default 0 (aget logest_table j) <= 9 /\ 0 <= default 0 (aget logest_table i).
Proof.
  intros Hij Hj. assert (Hall : forallb (fun i => forallb (fun j => (j <? i) || (default 0 (aget logest_table i) <=? default 0 (aget logest_table j)) && (default 0 (aget logest_table j) <=? 9)
     && (0 <=? default 0 (aget logest_table i))) [0; 1; 2; 3; 4; 5; 6; 7]) [0; 1; 2; 3; 4; 5; 6; 7] = true) by reflexivity.
  assert (Hin : forall k, 0 <= k <= 7 -> In k [0; 1; 2; 3; 4; 5; 6; 7]) by (intros k Hk; cbn; lia).
  rewrite forallb_forall in Hall. specialize (Hall i (Hin i ltac:(lia))). rewrite forallb_forall in Hall. specialize (Hall j (Hin j ltac:(lia))).
  replace (j <? i) with false in Hall by (symmetry; apply Z.ltb_ge; lia). cbn [orb] in Hall. rewrite !andb_true_iff, !Z.leb_le in Hall. lia.
Qed.

Lemma logest_mono x y : is_u64 y -> 0 <= x <= y -> logest_ref x <= logest_ref y.
Proof.
  intros Hy Hxy. assert (Hx : is_u64 x) by (unfold is_u64 in *; lia). unfold logest_ref. destruct (Z.ltb_spec x 2) as [H2|H2].
  - destruct (Z.ltb_spec y 2); [done|]. pose proof (logest_digit y ltac:(lia) Hy). pose proof (Z.log2_nonneg y).
    pose proof (table_mono (y * 8 / 2 ^ Z.log2 y - 8) (y * 8 / 2 ^ Z.log2 y - 8)). lia.
  - replace (y <? 2) with false by (symmetry; apply Z.ltb_ge; lia). pose proof (logest_digit x ltac:(lia) Hx) as Dx. pose proof (logest_digit y ltac:(lia) Hy) as Dy.
    pose proof (Z.log2_le_mono x y ltac:(lia)) as Hl. destruct (Z.eq_dec (Z.log2 x) (Z.log2 y)) as [E|Hne].
    + rewrite E in *. pose proof (Z.div_le_mono (x * 8) (y * 8) (2 ^ Z.log2 y) ltac:(apply Z.pow_pos_nonneg; [lia|apply Z.log2_nonneg]) ltac:(lia)).
      pose proof (table_mono (x * 8 / 2 ^ Z.log2 y - 8) (y * 8 / 2 ^ Z.log2 y - 8) ltac:(lia) ltac:(lia)). lia.
    + pose proof (table_mono (x * 8 / 2 ^ Z.log2 x - 8) (x * 8 / 2 ^ Z.log2 x - 8) ltac:(lia) ltac:(lia)).
      pose proof (table_mono (y * 8 / 2 ^ Z.log2 y - 8) (y * 8 / 2 ^ Z.log2 y - 8) ltac:(lia) ltac:(lia)). lia.
Qed.

Lemma logest_add_ok a b : 0 <= a <= b -> b < 640 -> exists c, sqlite3LogEstAdd a b = Some c /\ sqlite3LogEstAdd b a = Some c /\ b <= c <= b + 10.
Proof.
  intros Hab Hb. unfold sqlite3LogEstAdd. rewrite (Z.geb_leb b a). replace (a <=? b) with true by (symmetry; apply Z.leb_le; lia). rewrite Z.geb_leb.
  assert (Hc : exists c, (if b >? a + 49 then Some b else if b >? a + 31 then Some (i16 (b + 1)) else x ← aget logest_add_table (b - a); Some (i16 (b + x))) = Some c /\ b <= c <= b + 10).
  { rewrite !Z.gtb_ltb. destruct (Z.ltb_spec (a + 49) b); [exists b; split; [done|lia]|]. destruct (Z.ltb_spec (a + 31) b); [exists (b + 1); rewrite i16_id by lia; split; [done|lia]|].
    destruct (aget_is_Some logest_add_table (b - a)) as [x Ex]; [change (alen logest_add_table) with 32; lia|]. rewrite Ex. cbn [mbind option_bind].
    apply (aget_Forall (fun x => 0 <= x <= 10)) in Ex; [|repeat constructor; lia]. exists (b + x). rewrite i16_id by lia. split; [done|lia]. }
  destruct Hc as (c & Ec & Hc). exists c. split; [|by split]. destruct (Z.leb_spec b a); [|done]. replace a with b in * by lia. done.
Qed.

(** The estimate of ten times the binary logarithm.  The shift loops and the
    branch that counts leading zeros agree on every 64-bit number; the result is
    ten times the integer part of the logarithm plus less than ten, monotone,
    and the estimate of a sum is symmetric, at least the larger operand, and at
    most ten more. *)
Theorem sqlite3LogEst_portable x y : is_u64 y -> 0 <= x <= y ->
  sqlite3LogEst true x = sqlite3LogEst false x /\
  (exists a b, sqlite3LogEst false x = Some a /\ sqlite3LogEst false y = Some b /\ 0 <= a <= b /\ b < 640 /\
     (1 <= x -> 10 * Z.log2 x <= a < 10 * Z.log2 x + 10) /\
     exists c, sqlite3LogEstAdd a b = Some c /\ sqlite3LogEstAdd b a = Some c /\ b <= c <= b + 10).
Proof.
  intros Hy Hxy. assert (Hx : is_u64 x) by (unfold is_u64 in *; lia). rewrite !logest_ok by done. split; [done|]. exists (logest_ref x), (logest_ref y).
  pose proof (logest_mono x y Hy Hxy) as Hm. pose proof (logest_mono 0 x Hx ltac:(lia)) as H0. change (logest_ref 0) with 0 in H0.
  assert (Hd : forall z, is_u64 z -> 1 <= z -> 10 * Z.log2 z <= logest_ref z < 10 * Z.log2 z + 10).
  { intros z Hz H1. unfold logest_ref. destruct (Z.ltb_spec z 2); [replace z with 1 by lia; by vm_compute|]. pose proof (logest_digit z ltac:(lia) Hz).
    pose proof (table_mono (z * 8 / 2 ^ Z.log2 z - 8) (z * 8 / 2 ^ Z.log2 z - 8)). lia. }
  assert (Hmax : logest_ref y < 640).
  { destruct (Z.le_gt_cases 1 y) as [H1|]; [|replace y with 0 by lia; by vm_compute]. destruct (Hd y Hy H1). destruct Hy as [_ Hy]. apply Z.log2_lt_pow2 in Hy; lia. }
  split_and!; try done; [by apply Hd|]. set (a := logest_ref x) in *. set (b := logest_ref y) in *. by apply logest_add_ok.
Qed.

Lemma sqlite3LogEst_portable_witness : sqlite3LogEst true 1000 = sqlite3LogEst false 1000 /\ sqlite3LogEst false 1000 = Some 99.
Proof.
  destruct (sqlite3LogEst_portable 1000 5000) as [E _]; [by unfold is_u64|lia|]. split; [exact E|reflexivity].
Defined.
