(* ===== verification/NumText.v ===== *)
(** * Numbers as text ([src/util.c])

    [sqlite3Int64ToText], and [sqlite3Atoi64] for the three encodings.  A pointer into a string is an index
    into its bytes; a read outside of them is an error.  Bytes are compared with
    ASCII characters only, where signed and unsigned [char] agree. *)
From S2P Require Import Prelude Text Ints.

Definition SQLITE_UTF8 : Z := 1.
Definition SQLITE_UTF16LE : Z := 2.
Definition SQLITE_UTF16BE : Z := 3.

(** ** Integers to text *)

(** [while( 1 )]: the buffer and the index of its last digit written *)
Fixpoint digits_out (fuel : nat) (zTemp : list Z) (i x : Z) : option (list Z * Z) :=
  match fuel with
  | O => None
  | S fuel =>
      zTemp ← aset zTemp i (x mod 10 + 48);
      if x / 10 =? 0 then Some (zTemp, i) else digits_out fuel zTemp (i - 1) (x / 10)
  end.

(** The value returned and the bytes copied to [zOut]; [zTemp] is the
    uninitialised buffer of 22 bytes. *)
Definition sqlite3Int64ToText (zTemp : list Z) (v : Z) : option (Z * list Z) :=
  let x := if v <? 0 then if v =? SMALLEST_INT64 then 1 << 63 else u64 (- v) else v in
  let i := 20 in
  zTemp ← aset zTemp 21 0;
  '(zTemp, i) ← digits_out 22 zTemp i x;
  '(zTemp, i) ← (if v <? 0 then zTemp ← aset zTemp (i - 1) 45; Some (zTemp, i - 1) else Some (zTemp, i));
  Some (21 - i, drop (Z.to_nat i) zTemp).

(** ** Text to integers *)

(** The characters 922337203685477580 *)
Definition pow63 : list Z := [57; 50; 50; 51; 51; 55; 50; 48; 51; 54; 56; 53; 52; 55; 55; 53; 56; 48].

(** [for(i=0; c==0 && i<18; i++)], with the characters of [pow63] left *)
Fixpoint cmp63_loop (z : list Z) (zNum incr i c : Z) (l : list Z) : option Z :=
  match l with
  | [] => Some c
  | d :: l =>
      if negb (c =? 0) then Some c
      else x ← aget z (zNum + i * incr); cmp63_loop z zNum incr (i + 1) ((x - d) * 10) l
  end.

Definition compare2pow63 (z : list Z) (zNum incr : Z) : option Z :=
  c ← cmp63_loop z zNum incr 0 0 pow63;
  if c =? 0 then x ← aget z (zNum + 18 * incr); Some (x - 56) else Some c.

(** [while( zNum<zEnd && test applied to the character) zNum+=incr;] *)
Fixpoint skip_while (fuel : nat) (test : Z -> bool) (z : list Z) (incr zEnd zNum : Z) : option Z :=
  match fuel with
  | O => None
  | S fuel =>
      if zNum <? zEnd then
        c ← aget z zNum;
        if test c then skip_while fuel test z incr zEnd (zNum + incr) else Some zNum
      else Some zNum
  end.

(** [for(i=0; &zNum[i]<zEnd && (c=zNum[i])>='0' && c<='9'; i+=incr)] *)
Fixpoint digits_in (fuel : nat) (z : list Z) (incr zEnd zNum i u : Z) : option (Z * Z) :=
  match fuel with
  | O => None
  | S fuel =>
      if zNum + i <? zEnd then
        c ← aget z (zNum + i);
        if (48 <=? c) && (c <=? 57) then digits_in fuel z incr zEnd zNum (i + incr) (u64 (u * 10 + c - 48)) else Some (i, u)
      else Some (i, u)
  end.

(** [do{ ... }while( &zNum[jj]<zEnd )]: true when only spaces follow *)
Fixpoint spaces_only (fuel : nat) (z : list Z) (incr zEnd p : Z) : option bool :=
  match fuel with
  | O => None
  | S fuel =>
      c ← aget z p;
      if negb (sqlite3Isspace c) then Some false
      else if p + incr <? zEnd then spaces_only fuel z incr zEnd (p + incr)
      else Some true
  end.

(** [for(i=3-enc; i<length && zNum[i]==0; i+=2){}] *)
Fixpoint high_bytes (fuel : nat) (z : list Z) (len i : Z) : option Z :=
  match fuel with
  | O => None
  | S fuel =>
      if i <? len then c ← aget z i; if c =? 0 then high_bytes fuel z len (i + 2) else Some i
      else Some i
  end.

(** [incr], [nonNum], [zEnd] and [zNum] for the encoding *)
Definition atoi_encoding (z : list Z) (len enc : Z) : option (Z * bool * Z * Z) :=
  if enc =? SQLITE_UTF8 then Some (1, false, len, 0)
  else
    let len := len - len mod 2 in
    i ← high_bytes (S (length z)) z len (3 - enc);
    Some (2, i <? len, Z.lxor i 1, enc .& 1).

(** From the sign on: [*pNum] and the return value *)
Definition atoi_digits (z : list Z) (incr : Z) (nonNum : bool) (zEnd zNum : Z) (neg : bool) : option (Z * Z) :=
  let fuel := S (length z) in
  let zStart := zNum in
  zNum ← skip_while fuel (fun c => c =? 48) z incr zEnd zNum;
  '(i, u) ← digits_in fuel z incr zEnd zNum 0 0;
  let saturated := if neg then SMALLEST_INT64 else LARGEST_INT64 in
  let pNum := if u >? LARGEST_INT64 then saturated else if neg then - i64 u else i64 u in
  rc ← (if (i =? 0) && (zStart =? zNum) then Some (-1)
        else if nonNum then Some 1
        else if zNum + i <? zEnd then b ← spaces_only fuel z incr zEnd (zNum + i); Some (if (b : bool) then 0 else 1)
        else Some 0);
  if i <? 19 * incr then Some (rc, pNum)
  else
    c ← (if i >? 19 * incr then Some 1 else compare2pow63 z zNum incr);
    if c <? 0 then Some (rc, pNum)
    else if c >? 0 then Some (2, saturated)
    else Some (if neg then rc else 3, saturated).

Definition sqlite3Atoi64 (z : list Z) (len enc : Z) : option (Z * Z) :=
  '(incr, nonNum, zEnd, zNum) ← atoi_encoding z len enc;
  zNum ← skip_while (S (length z)) sqlite3Isspace z incr zEnd zNum;
  '(neg, zNum) ←
    (if zNum <? zEnd then
       c ← aget z zNum;
       Some (if c =? 45 then (true, zNum + incr) else if c =? 43 then (false, zNum + incr) else (false, zNum))
     else Some (false, zNum));
  atoi_digits z incr nonNum zEnd zNum neg.

(** ** Characters of a string *)

(** The characters from [p] up to [zEnd], [incr] bytes apart, are [cs]. *)
Fixpoint chars (z : list Z) (incr zEnd p : Z) (cs : list Z) : Prop :=
  match cs with
  | [] => zEnd <= p
  | c :: cs => p < zEnd /\ aget z p = Some c /\ chars z incr zEnd (p + incr) cs
  end.

Fixpoint take_while (test : Z -> bool) (cs : list Z) : list Z :=
  match cs with [] => [] | c :: cs => if test c then c :: take_while test cs else [] end.

Fixpoint drop_while (test : Z -> bool) (cs : list Z) : list Z :=
  match cs with [] => [] | c :: cs' => if test c then drop_while test cs' else cs end.

Lemma take_drop_while test cs : take_while test cs ++ drop_while test cs = cs.
Proof. induction cs as [|c cs IH]; [done|]. cbn. destruct (test c); [|done]. cbn. by rewrite IH. Qed.

Lemma take_while_all test cs : Forall (fun c => test c = true) (take_while test cs).
Proof. induction cs as [|c cs IH]; cbn; [constructor|]. destruct (test c) eqn:E; by constructor. Qed.

Lemma take_while_app test a b : Forall (fun c => test c = true) a -> take_while test (a ++ b) = a ++ take_while test b /\ drop_while test (a ++ b) = drop_while test b.
Proof. induction 1 as [|c a Hc Ha [IH1 IH2]]; [done|]. cbn. by rewrite Hc, IH1, IH2. Qed.

Lemma drop_while_head test cs c r : drop_while test cs = c :: r -> test c = false.
Proof. induction cs as [|x cs IH]; cbn; [done|]. destruct (test x) eqn:E; [done|]. intros H. by simplify_eq. Qed.

Lemma chars_app z incr zEnd a : forall p b, chars z incr zEnd p (a ++ b) -> chars z incr zEnd (p + incr * alen a) b.
Proof.
  induction a as [|c a IH]; intros p b; cbn [app chars]; [by replace (p + incr * alen []) with p by (unfold alen; cbn; lia)|].
  intros (_ & _ & H). apply IH in H. replace (p + incr * alen (c :: a)) with (p + incr + incr * alen a); [done|]. unfold alen. cbn [length]. lia.
Qed.

Lemma chars_get z incr zEnd p a c b : chars z incr zEnd p (a ++ c :: b) -> p + incr * alen a < zEnd /\ aget z (p + incr * alen a) = Some c.
Proof. intros H. apply chars_app in H as (? & ? & _). done. Qed.

Lemma chars_length z incr zEnd cs : 1 <= incr -> forall p, 0 <= p -> chars z incr zEnd p cs -> (length cs <= length z)%nat.
Proof.
  intros Hi. assert (Hs : forall p, 0 <= p -> chars z incr zEnd p cs -> cs = [] \/ p + alen cs <= alen z).
  { induction cs as [|c cs IH]; intros p Hp; [by left|]. intros (_ & Hg & H). right. pose proof (aget_range _ _ _ Hg) as Hr. unfold alen in *. cbn [length].
    destruct (IH (p + incr) ltac:(lia) H) as [->|Hl]; cbn [length]; lia. }
  intros p Hp H. destruct (Hs p Hp H) as [->|Hl]; unfold alen in *; cbn [length] in *; lia.
Qed.

Section Loops.
Context (z : list Z) (incr zEnd : Z).

Lemma skip_while_ok test cs : forall fuel p, chars z incr zEnd p cs -> (length cs < fuel)%nat ->
  skip_while fuel test z incr zEnd p = Some (p + incr * alen (take_while test cs)).
Proof.
  induction cs as [|c cs IH]; intros [|fuel] p H Hf; cbn [length] in Hf; [lia| |lia|]; cbn [skip_while].
  - cbn in H. replace (p <? zEnd) with false by (symmetry; apply Z.ltb_ge; lia). f_equal. unfold alen. cbn. lia.
  - destruct H as (Hp & Hg & H). apply Z.ltb_lt in Hp as ->. rewrite Hg. cbn [mbind option_bind take_while]. destruct (test c).
    + rewrite (IH fuel (p + incr)) by (done || lia). f_equal. unfold alen. cbn [length]. lia.
    + f_equal. unfold alen. cbn. lia.
Qed.

Definition is_digit (c : Z) : bool := (48 <=? c) && (c <=? 57).

(** The number that the digits [ds] stand for after [u]. *)
Fixpoint dec (u : Z) (ds : list Z) : Z := match ds with [] => u | c :: ds => dec (u * 10 + c - 48) ds end.

Lemma dec_u64 ds : forall u, u64 (dec (u64 u) ds) = u64 (dec u ds).
Proof.
  induction ds as [|c ds IH]; intros u; cbn [dec]; [unfold u64; by rewrite Z.mod_mod by lia|].
  rewrite <- IH. rewrite <- (IH (u * 10 + c - 48)). do 2 f_equal. unfold u64.
  replace (u mod 2 ^ 64 * 10 + c - 48) with ((u mod 2 ^ 64) * 10 + (c - 48)) by lia. replace (u * 10 + c - 48) with (u * 10 + (c - 48)) by lia.
  rewrite <- Z.add_mod_idemp_l by lia. rewrite Z.mul_mod_idemp_l by lia. by rewrite Z.add_mod_idemp_l by lia.
Qed.

Lemma digits_in_ok cs : forall fuel zNum i u, chars z incr zEnd (zNum + i) cs -> (length cs < fuel)%nat -> is_u64 u ->
  digits_in fuel z incr zEnd zNum i u = Some (i + incr * alen (take_while is_digit cs), u64 (dec u (take_while is_digit cs))).
Proof.
  induction cs as [|c cs IH]; intros [|fuel] zNum i u H Hf Hu; cbn [length] in Hf; [lia| |lia|]; cbn [digits_in take_while].
  - cbn in H. replace (zNum + i <? zEnd) with false by (symmetry; apply Z.ltb_ge; lia). cbn [dec]. rewrite u64_id by done. do 2 f_equal. unfold alen. cbn. lia.
  - destruct H as (Hp & Hg & H). apply Z.ltb_lt in Hp as ->. rewrite Hg. cbn [mbind option_bind]. fold (is_digit c). destruct (is_digit c); cbn [dec].
    + rewrite (IH fuel zNum (i + incr)); [|by rewrite Z.add_assoc|lia|apply u64_range]. rewrite dec_u64. do 2 f_equal. unfold alen. cbn [length]. lia.
    + rewrite u64_id by done. do 2 f_equal. unfold alen. cbn. lia.
Qed.

Lemma spaces_only_ok cs : forall c fuel p, chars z incr zEnd p (c :: cs) -> (length cs < fuel)%nat ->
  spaces_only fuel z incr zEnd p = Some (forallb sqlite3Isspace (c :: cs)).
Proof.
  induction cs as [|c' cs IH]; intros c [|fuel] p (Hp & Hg & H) Hf; cbn [length] in Hf; [lia| |lia|]; cbn [spaces_only forallb]; rewrite Hg; cbn [mbind option_bind].
  - destruct (sqlite3Isspace c); [|done]. cbn in H. by replace (p + incr <? zEnd) with false by (symmetry; apply Z.ltb_ge; lia).
  - destruct (sqlite3Isspace c); [|done]. cbn [negb andb]. pose proof H as (Hp' & _). apply Z.ltb_lt in Hp' as ->. rewrite (IH c' fuel) by (done || lia). done.
Qed.
End Loops.

(** ** Decimal numbers *)

Definition digits_ok (ds : list Z) : Prop := Forall (fun c => is_digit c = true) ds.

Lemma digit_range c : is_digit c = true -> 48 <= c <= 57.
Proof. unfold is_digit. rewrite andb_true_iff, !Z.leb_le. done. Qed.

Lemma dec_shift ds : forall u, dec u ds = u * 10 ^ alen ds + dec 0 ds.
Proof.
  induction ds as [|c ds IH]; intros u; cbn [dec]; [change (alen []) with 0; lia|]. rewrite (IH (u * 10 + c - 48)), (IH (0 * 10 + c - 48)).
  replace (alen (c :: ds)) with (alen ds + 1) by (unfold alen; cbn [length]; lia). rewrite Z.pow_add_r by (unfold alen; lia). lia.
Qed.

Lemma dec_cons c ds : dec 0 (c :: ds) = (c - 48) * 10 ^ alen ds + dec 0 ds.
Proof. cbn [dec]. rewrite dec_shift. f_equal. Qed.

Lemma dec_range ds : digits_ok ds -> 0 <= dec 0 ds < 10 ^ alen ds.
Proof.
  induction 1 as [|c ds Hc Hds IH]; [by vm_compute|]. rewrite dec_cons. apply digit_range in Hc.
  replace (alen (c :: ds)) with (alen ds + 1) by (unfold alen; cbn [length]; lia). rewrite Z.pow_add_r by (unfold alen; lia). nia.
Qed.

Lemma dec_zeros zs ds : Forall (fun c => (c =? 48) = true) zs -> dec 0 (zs ++ ds) = dec 0 ds.
Proof. induction 1 as [|c zs Hc Hzs IH]; [done|]. cbn [app]. rewrite dec_cons, IH. apply Z.eqb_eq in Hc as ->. lia. Qed.

Lemma dec_app a : forall u b, dec u (a ++ b) = dec (dec u a) b.
Proof. induction a as [|c a IH]; intros u b; [done|]. cbn [app dec]. apply IH. Qed.

(** ** The comparison with 2^63 *)

Lemma cmp63_loop_ok z zNum incr zEnd l : digits_ok l -> forall a r i c, length a = length l -> digits_ok a -> chars z incr zEnd (zNum + i * incr) (a ++ r) ->
  exists c', cmp63_loop z zNum incr i c l = Some c' /\ (c <> 0 -> c' = c) /\ (c = 0 -> Z.sgn c' = Z.sgn (dec 0 a - dec 0 l)).
Proof.
  induction 1 as [|d l Hd Hl IH]; intros a r i c Hlen Ha Hc.
  - destruct a; [|done]. exists c. split; [done|]. split; [done|]. intros ->. done.
  - destruct a as [|x a]; [done|]. apply Forall_cons in Ha as [Hx Ha]. injection Hlen as Hlen. destruct Hc as (_ & Hg & Hc). cbn [cmp63_loop].
    destruct (Z.eqb_spec c 0) as [->|Hne]; cbn [negb]; [|exists c; split_and!; done]. rewrite Hg. cbn [mbind option_bind].
    destruct (IH a r (i + 1) ((x - d) * 10) Hlen Ha) as (c' & -> & Hnz & Hz); [by replace (zNum + (i + 1) * incr) with (zNum + i * incr + incr) by lia|].
    exists c'. split; [done|]. split; [done|]. intros _. rewrite !dec_cons. replace (alen l) with (alen a) by (unfold alen; by rewrite Hlen).
    pose proof (dec_range a Ha) as Ra. pose proof (dec_range l Hl) as Rl. replace (alen l) with (alen a) in Rl by (unfold alen; by rewrite Hlen).
    set (P := 10 ^ alen a) in *. destruct (Z.eq_dec x d) as [->|Hxd]; [rewrite Hz by lia; f_equal; lia|]. rewrite Hnz by lia.
    destruct (Z.lt_total x d) as [H|[H|H]]; [|done|].
    + rewrite !Z.sgn_neg by nia. done.
    + rewrite !Z.sgn_pos by nia. done.
Qed.

Lemma compare2pow63_ok z zNum incr zEnd ds r : length ds = 19%nat -> digits_ok ds -> chars z incr zEnd zNum (ds ++ r) ->
  exists c, compare2pow63 z zNum incr = Some c /\ Z.sgn c = Z.sgn (dec 0 ds - 2 ^ 63).
Proof.
  intros Hlen Hds Hc. assert (exists a x, ds = a ++ [x] /\ length a = 18%nat) as (a & x & -> & La).
  { destruct (last ds) as [x|] eqn:E; [|apply last_None in E; by subst]. apply last_Some in E as [a ->]. exists a, x. rewrite length_app in Hlen. cbn in Hlen. split; [done|lia]. }
  apply Forall_app in Hds as [Ha Hx]. apply Forall_cons in Hx as [Hx _]. rewrite <- app_assoc in Hc. cbn [app] in Hc. unfold compare2pow63.
  destruct (cmp63_loop_ok z zNum incr zEnd pow63 ltac:(repeat constructor) a (x :: r) 0 0) as (c & -> & _ & Hz); [done|done|by rewrite Z.mul_0_l, Z.add_0_r|].
  cbn [mbind option_bind]. specialize (Hz eq_refl). apply chars_get in Hc as [_ Hg]. replace (incr * alen a) with (18 * incr) in Hg by (unfold alen; rewrite La; lia).
  rewrite dec_app. cbn [dec]. assert (E63 : 2 ^ 63 = dec 0 pow63 * 10 + 8) by (by vm_compute). rewrite E63. apply digit_range in Hx.
  destruct (Z.eqb_spec c 0) as [->|Hne].
  - rewrite Hg. cbn [mbind option_bind]. exists (x - 56). split; [done|]. change (Z.sgn 0) with 0 in Hz. symmetry in Hz. apply Z.sgn_null_iff in Hz. f_equal. lia.
  - exists c. split; [done|]. rewrite Hz. destruct (Z.lt_total (dec 0 a) (dec 0 pow63)) as [H|[H|H]].
    + rewrite !Z.sgn_neg by lia. done.
    + rewrite H, Z.sub_diag in Hz. change (Z.sgn 0) with 0 in Hz. exfalso. apply Hne. by apply Z.sgn_null_iff.
    + rewrite !Z.sgn_pos by lia. done.
Qed.

(** ** The conversion *)

(** What the characters after the sign stand for: the return code and the
    number, cut off at the ends of the 64-bit range. *)
Definition atoi_value (nonNum neg : bool) (cs : list Z) : Z * Z :=
  let ds := take_while is_digit cs in
  let val := dec 0 ds in
  let rc := if bool_decide (ds = []) then -1 else if nonNum then 1 else if forallb sqlite3Isspace (drop_while is_digit cs) then 0 else 1 in
  if val <? 2 ^ 63 then (rc, if neg then - val else val)
  else if neg then (if val =? 2 ^ 63 then rc else 2, - 2 ^ 63)
  else (if val =? 2 ^ 63 then 3 else 2, 2 ^ 63 - 1).

(** The digits without the leading zeros. *)
Lemma significant cs : let sig := take_while is_digit (drop_while (fun c => c =? 48) cs) in
  take_while is_digit cs = take_while (fun c => c =? 48) cs ++ sig /\ drop_while is_digit cs = drop_while is_digit (drop_while (fun c => c =? 48) cs)
  /\ dec 0 (take_while is_digit cs) = dec 0 sig /\ digits_ok sig /\ (sig <> [] -> 10 ^ (alen sig - 1) <= dec 0 sig).
Proof.
  cbv zeta. set (zs := take_while (fun c => c =? 48) cs). set (r := drop_while (fun c => c =? 48) cs).
  assert (Hzs : Forall (fun c => (c =? 48) = true) zs) by apply take_while_all.
  assert (Hzd : Forall (fun c => is_digit c = true) zs). { eapply Forall_impl; [exact Hzs|]. intros c Hc%Z.eqb_eq. by subst. }
  pose proof (take_drop_while (fun c => c =? 48) cs) as E. fold zs r in E. destruct (take_while_app is_digit zs r Hzd) as [E1 E2]. rewrite E in E1, E2.
  split_and!; [done|done|by rewrite E1, dec_zeros|apply take_while_all|]. intros Hne.
  destruct r as [|c r'] eqn:Er; [done|]. cbn [take_while] in *. destruct (is_digit c) eqn:Ec; [|done]. pose proof (drop_while_head _ _ _ _ Er) as H48%Z.eqb_neq.
  apply digit_range in Ec. rewrite dec_cons. pose proof (dec_range (take_while is_digit r') (take_while_all _ _)).
  replace (alen (c :: take_while is_digit r') - 1) with (alen (take_while is_digit r')) by (unfold alen; cbn [length]; lia). nia.
Qed.

Lemma pow10_18 n : 0 <= n <= 18 -> 10 ^ n <= 10 ^ 18.
Proof. intros H. apply Z.pow_le_mono_r; lia. Qed.

Lemma atoi_rc z incr zEnd (nonNum : bool) zStart zNum cs (zs sig rest : list Z) : 1 <= incr -> 0 <= zNum -> zNum = zStart + incr * alen zs ->
  chars z incr zEnd zNum (sig ++ rest) -> (length rest <= length z)%nat ->
  cs = zs ++ sig ->
  (if (incr * alen sig =? 0) && (zStart =? zNum) then Some (-1)
   else if nonNum then Some 1
   else if zNum + incr * alen sig <? zEnd then b ← spaces_only (S (length z)) z incr zEnd (zNum + incr * alen sig); Some (if (b : bool) then 0 else 1)
   else Some 0) = Some (if bool_decide (cs = []) then -1 else if (nonNum : bool) then 1 else if forallb sqlite3Isspace rest then 0 else 1).
Proof.
  intros Hi Hz0 Ez Hc Hl ->. pose proof (alen_nonneg zs). pose proof (alen_nonneg sig).
  assert (E0 : ((incr * alen sig =? 0) && (zStart =? zNum)) = bool_decide (zs ++ sig = [])).
  { case_bool_decide as Hb.
    - apply app_nil in Hb as [-> ->]. change (alen []) with 0 in *. rewrite Z.mul_0_r in *. rewrite Ez, Z.add_0_r, !Z.eqb_refl. done.
    - apply andb_false_iff. destruct sig as [|c sig]; [right|left].
      + apply Z.eqb_neq. destruct zs; [done|]. unfold alen in *. cbn [length] in *. nia.
      + apply Z.eqb_neq. unfold alen in *. cbn [length] in *. nia. }
  rewrite E0. case_bool_decide; [done|]. destruct nonNum; [done|]. apply chars_app in Hc. destruct rest as [|c rest].
  - cbn in Hc. by replace (_ <? zEnd) with false by (symmetry; apply Z.ltb_ge; lia).
  - pose proof Hc as (Hlt & _). apply Z.ltb_lt in Hlt as ->. cbn [length] in Hl. rewrite (spaces_only_ok z incr zEnd rest c) by (done || lia). cbn [mbind option_bind]. by destruct (forallb _ _).
Qed.

Lemma atoi_digits_ok z incr nonNum zEnd zNum neg cs : 1 <= incr -> 0 <= zNum -> chars z incr zEnd zNum cs ->
  atoi_digits z incr nonNum zEnd zNum neg = Some (atoi_value nonNum neg cs).
Proof.
  intros Hi Hz0 Hc. pose proof (chars_length z incr zEnd cs Hi zNum Hz0 Hc) as Hlen. unfold atoi_digits. rewrite (skip_while_ok z incr zEnd _ cs) by (done || lia).
  cbn [mbind option_bind]. destruct (significant cs) as (E1 & E2 & Ev & Hsig & Hlow). set (zs := take_while (fun c => c =? 48) cs) in *. set (r := drop_while (fun c => c =? 48) cs) in *.
  set (sig := take_while is_digit r) in *. set (zNum' := zNum + incr * alen zs). pose proof (alen_nonneg zs).
  assert (Hr : chars z incr zEnd zNum' r). { apply chars_app. unfold zs, r. by rewrite take_drop_while. }
  assert (Lr : (length r <= length cs)%nat). { rewrite <- (take_drop_while (fun c => c =? 48) cs). rewrite length_app. fold r. lia. }
  rewrite (digits_in_ok z incr zEnd r) by (rewrite ?Z.add_0_r; first [done | lia | by unfold is_u64]). fold sig. cbn [mbind option_bind]. rewrite Z.add_0_l.
  assert (Hsr : chars z incr zEnd zNum' (sig ++ drop_while is_digit r)) by (unfold sig; by rewrite take_drop_while).
  rewrite (atoi_rc z incr zEnd nonNum zNum zNum' (take_while is_digit cs) zs sig (drop_while is_digit r)); try done; [|nia|].
  2:{ rewrite <- (take_drop_while is_digit r) in Lr. rewrite length_app in Lr. lia. }
  cbn [mbind option_bind]. unfold atoi_value. rewrite Ev, E2. set (rc := if bool_decide _ then -1 else _). destruct largest as [-> ->]. pose proof (dec_range sig Hsig) as Hd.
  set (v := dec 0 sig) in *. pose proof (alen_nonneg sig) as Hs0.
  assert (Hp : 10 ^ 18 < 2 ^ 63 /\ 10 ^ 19 < 2 ^ 64 /\ 2 ^ 63 < 10 ^ 19) by (by vm_compute).
  destruct (Z.ltb_spec (incr * alen sig) (19 * incr)) as [Hlt|Hge].
  - pose proof (pow10_18 (alen sig) ltac:(nia)). rewrite u64_id by (unfold is_u64; lia). replace (v >? 2 ^ 63 - 1) with false by (rewrite Z.gtb_ltb; symmetry; apply Z.ltb_ge; lia).
    rewrite i64_id by (unfold is_i64; lia). by replace (v <? 2 ^ 63) with true by (symmetry; apply Z.ltb_lt; lia).
  - assert (Hne : sig <> []) by (intros E; rewrite E in Hge; change (alen []) with 0 in Hge; lia). specialize (Hlow Hne). rewrite (Z.gtb_ltb (incr * alen sig)).
    destruct (Z.ltb_spec (19 * incr) (incr * alen sig)) as [Hgt|Hle]; cbn [mbind option_bind].
    + assert (10 ^ 19 <= v). { etrans; [|exact Hlow]. apply Z.pow_le_mono_r; nia. }
      replace (v <? 2 ^ 63) with false by (symmetry; apply Z.ltb_ge; lia). replace (v =? 2 ^ 63) with false by (symmetry; apply Z.eqb_neq; lia). by destruct neg.
    + assert (L19 : alen sig = 19) by nia. rewrite L19 in *. rewrite (u64_id v) by (unfold is_u64; lia).
      destruct (compare2pow63_ok z zNum' incr zEnd sig (drop_while is_digit r)) as (c & -> & Hsg); [unfold alen in L19; lia|done|done|]. cbn [mbind option_bind]. fold v in Hsg.
      rewrite !Z.gtb_ltb. destruct (Z.ltb_spec v (2 ^ 63)) as [Hv|Hv].
      * replace (c <? 0) with true by (symmetry; apply Z.ltb_lt; lia). replace (2 ^ 63 - 1 <? v) with false by (symmetry; apply Z.ltb_ge; lia). by rewrite i64_id by (unfold is_i64; lia).
      * replace (c <? 0) with false by (symmetry; apply Z.ltb_ge; lia). destruct (Z.eqb_spec v (2 ^ 63)) as [Ee|Hn].
        -- replace (0 <? c) with false by (symmetry; apply Z.ltb_ge; lia). by destruct neg.
        -- replace (0 <? c) with true by (symmetry; apply Z.ltb_lt; lia). by destruct neg.
Qed.

(** ** Encodings *)

(** The bytes of a text: of its bytes in UTF-8, of its 16-bit units otherwise. *)
Definition unit_bytes (enc w : Z) : list Z :=
  if enc =? SQLITE_UTF8 then [w] else if enc =? SQLITE_UTF16LE then [w mod 256; w / 256] else [w / 256; w mod 256].

Definition encode (enc : Z) (ws : list Z) : list Z := concat (map (unit_bytes enc) ws).

Definition enc_ok (enc : Z) : Prop := enc = SQLITE_UTF8 \/ enc = SQLITE_UTF16LE \/ enc = SQLITE_UTF16BE.

(** The characters up to the first unit with a high byte, and whether there is
    such a unit. *)
Definition low_units (enc : Z) (ws : list Z) : list Z := if enc =? SQLITE_UTF8 then ws else take_while (fun w => w <? 256) ws.
Definition high_unit (enc : Z) (ws : list Z) : bool := negb (enc =? SQLITE_UTF8) && negb (forallb (fun w => w <? 256) ws).

Lemma encode_cons enc w ws : encode enc (w :: ws) = unit_bytes enc w ++ encode enc ws.
Proof. done. Qed.

Lemma encode_alen enc ws : enc_ok enc -> alen (encode enc ws) = if enc =? SQLITE_UTF8 then alen ws else 2 * alen ws.
Proof.
  intros He. induction ws as [|w ws IH]; [by destruct (enc =? SQLITE_UTF8)|]. rewrite encode_cons, alen_app, IH. unfold unit_bytes.
  destruct He as [->|[->| ->]]; unfold alen; cbn; lia.
Qed.

Lemma chars_utf8 tail ws : forall pre, chars (pre ++ ws ++ tail) 1 (alen pre + alen ws) (alen pre) ws.
Proof.
  induction ws as [|w ws IH]; intros pre; cbn [chars app]; [change (alen []) with 0; lia|].
  replace (alen (w :: ws)) with (1 + alen ws) by (unfold alen; cbn [length]; lia). pose proof (alen_nonneg ws). split_and!; [lia|by rewrite aget_app_r, Z.sub_diag by lia|].
  specialize (IH (pre ++ [w])). rewrite <- app_assoc, alen_app in IH. change (alen [w]) with 1 in IH. by rewrite <- Z.add_assoc in IH.
Qed.

(** One unit of two bytes. *)
Lemma enc_bits enc : enc = SQLITE_UTF16LE \/ enc = SQLITE_UTF16BE -> 0 <= enc .& 1 <= 1 /\ 0 <= 3 - enc <= 1.
Proof. intros [->| ->]; by vm_compute. Qed.

Lemma chars_utf16 enc tail : enc = SQLITE_UTF16LE \/ enc = SQLITE_UTF16BE -> forall ws pre, Forall is_u8 ws ->
  chars (pre ++ encode enc ws ++ tail) 2 (alen pre + 2 * alen ws + (enc .& 1)) (alen pre + (enc .& 1)) ws.
Proof.
  intros He. pose proof (enc_bits enc He) as [Hb1 Hb2]. induction ws as [|w ws IH]; intros pre Hw; [cbn [chars]; change (alen []) with 0; lia|]. apply Forall_cons in Hw as [Hw Hws]. unfold is_u8 in Hw.
  replace (alen (w :: ws)) with (1 + alen ws) by (unfold alen; cbn [length]; lia). pose proof (alen_nonneg ws). pose proof (alen_nonneg pre).
  rewrite encode_cons, <- app_assoc. cbn [chars]. split; [lia|]. split.
  - rewrite aget_app_r by (lia). replace (alen pre + (enc .& 1) - alen pre) with (enc .& 1) by lia.
    transitivity (Some (w mod 256)); [by destruct He as [->| ->]|]. f_equal. apply Z.mod_small. lia.
  - specialize (IH (pre ++ unit_bytes enc w) Hws). rewrite <- !app_assoc, alen_app in IH. replace (alen (unit_bytes enc w)) with 2 in IH by (by destruct He as [->| ->]).
    replace (alen pre + 2 * (1 + alen ws) + (enc .& 1)) with (alen pre + 2 + 2 * alen ws + (enc .& 1)) by lia.
    by replace (alen pre + (enc .& 1) + 2) with (alen pre + 2 + (enc .& 1)) by lia.
Qed.

Lemma high_bytes_ok enc tail : enc = SQLITE_UTF16LE \/ enc = SQLITE_UTF16BE -> forall ws fuel pre, Forall is_u16 ws -> (length ws < fuel)%nat ->
  high_bytes fuel (pre ++ encode enc ws ++ tail) (alen pre + 2 * alen ws) (alen pre + (3 - enc))
  = Some (alen pre + (3 - enc) + 2 * alen (take_while (fun w => w <? 256) ws)).
Proof.
  intros He. pose proof (enc_bits enc He) as [Hb1 Hb2]. induction ws as [|w ws IH]; intros [|fuel] pre Hw Hf; cbn [length] in Hf; [lia| |lia|]; cbn [high_bytes take_while].
  - change (alen []) with 0. replace (_ <? _) with false; [f_equal; lia|]. symmetry. apply Z.ltb_ge. lia.
  - apply Forall_cons in Hw as [Hw Hws]. unfold is_u16 in Hw. replace (alen (w :: ws)) with (1 + alen ws) by (unfold alen; cbn [length]; lia).
    pose proof (alen_nonneg ws). pose proof (alen_nonneg pre). replace (alen pre + (3 - enc) <? alen pre + 2 * (1 + alen ws)) with true by (symmetry; apply Z.ltb_lt; lia).
    rewrite encode_cons, <- app_assoc, aget_app_r by (lia). replace (alen pre + (3 - enc) - alen pre) with (3 - enc) by lia.
    assert (aget (unit_bytes enc w ++ encode enc ws ++ tail) (3 - enc) = Some (w / 256)) as -> by (by destruct He as [->| ->]). cbn [mbind option_bind].
    destruct (Z.ltb_spec w 256) as [Hlt|Hge].
    + rewrite Z.div_small by lia. cbn [Z.eqb]. specialize (IH fuel (pre ++ unit_bytes enc w) Hws ltac:(lia)). rewrite <- !app_assoc, alen_app in IH.
      replace (alen (unit_bytes enc w)) with 2 in IH by (by destruct He as [->| ->]).
      replace (alen pre + 2 * (1 + alen ws)) with (alen pre + 2 + 2 * alen ws) by lia. replace (alen pre + (3 - enc) + 2) with (alen pre + 2 + (3 - enc)) by lia.
      rewrite IH. f_equal. unfold alen. cbn [length]. lia.
    + replace (w / 256 =? 0) with false by (symmetry; apply Z.eqb_neq; assert (1 <= w / 256) by (apply Z.div_le_lower_bound; lia); lia). f_equal. change (alen []) with 0. lia.
Qed.

Lemma take_while_cut (test : Z -> bool) ws : exists rest, ws = take_while test ws ++ rest /\ (forallb test ws = bool_decide (rest = [])).
Proof.
  exists (drop_while test ws). split; [by rewrite take_drop_while|]. induction ws as [|w ws IH]; [done|]. cbn. destruct (test w); [by rewrite IH|]. by rewrite bool_decide_false.
Qed.

Lemma lxor_one n : 0 <= n -> 2 * n + 0 = Z.lxor (1 + 2 * n) 1 /\ 2 * n + 1 = Z.lxor (0 + 2 * n) 1.
Proof.
  intros Hn. split.
  - replace (1 + 2 * n) with (Z.succ_double n) by (rewrite Z.succ_double_spec; lia). replace (2 * n + 0) with (Z.double n) by (rewrite Z.double_spec; lia). by destruct n.
  - replace (0 + 2 * n) with (Z.double n) by (rewrite Z.double_spec; lia). replace (2 * n + 1) with (Z.succ_double n) by (rewrite Z.succ_double_spec; lia). by destruct n.
Qed.

(** The characters that [sqlite3Atoi64] looks at. *)
Lemma atoi_encoding_ok enc ws tail : enc_ok enc -> Forall (if enc =? SQLITE_UTF8 then is_u8 else is_u16) ws ->
  exists incr zEnd zNum, atoi_encoding (encode enc ws ++ tail) (alen (encode enc ws)) enc = Some (incr, high_unit enc ws, zEnd, zNum) /\ 1 <= incr /\ 0 <= zNum /\
    chars (encode enc ws ++ tail) incr zEnd zNum (low_units enc ws).
Proof.
  intros He Hw. unfold atoi_encoding, high_unit, low_units. rewrite encode_alen by done. destruct He as [->|He].
  - change (SQLITE_UTF8 =? SQLITE_UTF8) with true in *. cbv iota in *. assert (Ee : encode SQLITE_UTF8 ws = ws).
    { clear. unfold encode. induction ws as [|w ws IH]; [done|]. cbn. by rewrite IH. }
    exists 1, (alen ws), 0. split; [done|]. split; [lia|]. split; [lia|]. rewrite Ee. apply (chars_utf8 tail ws []).
  - pose proof (enc_bits enc He) as [Hb1 Hb2]. assert (E1 : (enc =? SQLITE_UTF8) = false) by (by destruct He as [->| ->]). rewrite E1 in *. cbn [negb andb]. replace (2 * alen ws - (2 * alen ws) mod 2) with (2 * alen ws) by zdm.
    pose proof (high_bytes_ok enc tail He ws (S (length (encode enc ws ++ tail))) [] Hw) as Hh. cbn [app] in Hh. change (alen []) with 0 in Hh. rewrite !Z.add_0_l in Hh.
    rewrite Hh. 2:{ pose proof (encode_alen enc ws ltac:(unfold enc_ok; tauto)) as El. rewrite E1 in El. rewrite length_app. unfold alen in El. lia. }
    cbn [mbind option_bind]. destruct (take_while_cut (fun w => w <? 256) ws) as (rest & Ews & Ef). set (lo := take_while (fun w => w <? 256) ws) in *. rewrite Ef. pose proof (alen_nonneg lo).
    assert (El : alen ws = alen lo + alen rest) by (rewrite Ews at 1; apply alen_app).
    eexists _, _, _. split; [do 4 f_equal|].
    { rewrite El. case_bool_decide as Hr; cbn [negb]; [subst rest; apply Z.ltb_ge; change (alen []) with 0; lia|].
      apply Z.ltb_lt. destruct rest; [done|]. unfold alen. cbn [length]. lia. }
    split; [lia|]. split; [lia|].
    assert (Hlo : Forall is_u8 lo).
    { assert (Hall : Forall (fun w => (w <? 256) = true) lo) by apply take_while_all. rewrite Ews in Hw. apply Forall_app in Hw as [Hw _].
      rewrite Forall_forall in Hall, Hw |- *. intros w Hin. specialize (Hw w Hin). specialize (Hall w Hin). apply Z.ltb_lt in Hall. unfold is_u16, is_u8 in *. lia. }
    pose proof (chars_utf16 enc (encode enc rest ++ tail) He lo [] Hlo) as Hc. cbn [app] in Hc. change (alen []) with 0 in Hc. rewrite !Z.add_0_l in Hc.
    assert (Ee : encode enc ws = encode enc lo ++ encode enc rest) by (rewrite Ews at 1; unfold encode; by rewrite map_app, concat_app). rewrite Ee, <- app_assoc.
    replace (Z.lxor (3 - enc + 2 * alen lo) 1) with (2 * alen lo + (enc .& 1)); [done|].
    destruct (lxor_one (alen lo) ltac:(lia)) as [L1 L2]. destruct He as [->| ->]; [exact L1|exact L2].
Qed.

(** What a text stands for: spaces, a sign, and the rest. *)
Definition atoi_text (nonNum : bool) (cs : list Z) : Z * Z :=
  match drop_while sqlite3Isspace cs with
  | [] => atoi_value nonNum false []
  | c :: r => if c =? 45 then atoi_value nonNum true r else if c =? 43 then atoi_value nonNum false r else atoi_value nonNum false (c :: r)
  end.

Lemma atoi_ok enc ws tail : enc_ok enc -> Forall (if enc =? SQLITE_UTF8 then is_u8 else is_u16) ws ->
  sqlite3Atoi64 (encode enc ws ++ tail) (alen (encode enc ws)) enc = Some (atoi_text (high_unit enc ws) (low_units enc ws)).
Proof.
  intros He Hw. unfold sqlite3Atoi64. destruct (atoi_encoding_ok enc ws tail He Hw) as (incr & zEnd & zNum & -> & Hi & Hz & Hc). cbn [mbind option_bind].
  set (z := encode enc ws ++ tail) in *. set (cs := low_units enc ws) in *. pose proof (chars_length z incr zEnd cs Hi zNum Hz Hc) as Hl.
  rewrite (skip_while_ok z incr zEnd _ cs) by (done || lia). cbn [mbind option_bind]. set (p := zNum + _).
  assert (Hp : chars z incr zEnd p (drop_while sqlite3Isspace cs)) by (apply chars_app; by rewrite take_drop_while).
  assert (Hp0 : 0 <= p) by (unfold p; pose proof (alen_nonneg (take_while sqlite3Isspace cs)); nia). clearbody p. unfold atoi_text.
  destruct (drop_while sqlite3Isspace cs) as [|c r].
  - cbn in Hp. replace (p <? zEnd) with false by (symmetry; apply Z.ltb_ge; lia). cbn [mbind option_bind]. by apply atoi_digits_ok.
  - pose proof Hp as (Hlt & Hg & Hr). apply Z.ltb_lt in Hlt as ->. rewrite Hg. cbn [mbind option_bind]. destruct (c =? 45); [apply atoi_digits_ok; (done || lia)|].
    destruct (c =? 43); apply atoi_digits_ok; (done || lia).
Qed.

(** ** Digits of a number *)

Lemma digits_out_ok fuel : forall pre post i x, alen pre = i + 1 -> (Z.to_nat (i + 1) <= fuel)%nat -> 0 <= i -> 0 <= x < 10 ^ (i + 1) ->
  exists ds pre', digits_out fuel (pre ++ post) i x = Some (pre' ++ ds ++ post, alen pre') /\ alen pre' + alen ds = i + 1 /\ digits_ok ds /\ dec 0 ds = x /\
    ds <> [] /\ (alen ds = 1 \/ 10 ^ (alen ds - 1) <= x).
Proof.
  induction fuel as [|fuel IH]; intros pre post i x Hl Hf Hi Hx; [lia|]. cbn [digits_out].
  destruct (last pre) as [y|] eqn:El; [|apply last_None in El; subst pre; change (alen []) with 0 in Hl; lia]. apply last_Some in El as [pre0 ->].
  rewrite alen_app in Hl. change (alen [y]) with 1 in Hl. set (d := x mod 10 + 48). assert (Hd : is_digit d = true).
  { unfold d, is_digit. pose proof (Z.mod_pos_bound x 10). rewrite andb_true_iff, !Z.leb_le. lia. }
  assert (Es : aset ((pre0 ++ [y]) ++ post) i d = Some (pre0 ++ [d] ++ post)).
  { rewrite aset_in by (rewrite !alen_app; change (alen [y]) with 1; pose proof (alen_nonneg post); lia). f_equal. rewrite <- app_assoc.
    rewrite insert_app_r_alt by (unfold alen in Hl; lia). replace (Z.to_nat i - length pre0)%nat with 0%nat by (unfold alen in Hl; lia). done. }
  rewrite Es. cbn [mbind option_bind]. destruct (Z.eqb_spec (x / 10) 0) as [E0|Hne].
  - exists [d], pre0. split; [do 2 f_equal; lia|]. split; [change (alen [d]) with 1; lia|]. split; [by repeat constructor|]. split; [cbn [dec]; unfold d; zdm|]. split; [done|by left].
  - assert (Hi1 : 1 <= i). { destruct (Z.eq_dec i 0) as [->|]; [|lia]. change (10 ^ (0 + 1)) with 10 in Hx. exfalso. apply Hne. apply Z.div_small. lia. }
    destruct (IH pre0 ([d] ++ post) (i - 1) (x / 10)) as (ds & pre' & -> & Hal & Hds & Ev & Hnn & Hlow); try lia.
    { split; [apply Z.div_pos; lia|]. apply Z.div_lt_upper_bound; [lia|]. replace (i + 1) with ((i - 1 + 1) + 1) in Hx by lia. rewrite Z.pow_add_r in Hx by lia. lia. }
    exists (ds ++ [d]), pre'. split; [by rewrite <- (app_assoc ds)|]. rewrite alen_app. change (alen [d]) with 1. split; [lia|]. split; [apply Forall_app; split; [done|by repeat constructor]|].
    split; [rewrite dec_app, Ev; cbn [dec]; unfold d; zdm|]. split; [by destruct ds|]. right. rewrite Z.add_simpl_r.
    destruct Hlow as [E1|Hlow]; [rewrite E1; change (10 ^ 1) with 10; assert (1 <= x / 10) by (assert (0 <= x / 10) by (apply Z.div_pos; lia); lia); zdm|].
    replace (alen ds) with (alen ds - 1 + 1) by lia. assert (1 <= alen ds) by (destruct ds; [done|unfold alen; cbn [length]; lia]).
    rewrite Z.pow_add_r by lia. change (10 ^ 1) with 10. pose proof (Z.mul_div_le x 10 ltac:(lia)). lia.
Qed.

Lemma int64_text_ok zTemp v : alen zTemp = 22 -> is_i64 v ->
  exists ds, sqlite3Int64ToText zTemp v = Some (alen (if v <? 0 then 45 :: ds else ds), (if v <? 0 then 45 :: ds else ds) ++ [0]) /\
    digits_ok ds /\ dec 0 ds = Z.abs v /\ ds <> [] /\ alen ds <= 19.
Proof.
  intros Hl Hv. unfold sqlite3Int64ToText. destruct largest as [_ ->]. unfold is_i64 in Hv.
  assert (Ex : (if v <? 0 then if v =? - 2 ^ 63 then 1 << 63 else u64 (- v) else v) = Z.abs v).
  { destruct (Z.ltb_spec v 0); [|lia]. destruct (Z.eqb_spec v (- 2 ^ 63)) as [->|]; [done|]. rewrite u64_id by (unfold is_u64; lia). lia. }
  rewrite Ex. set (x := Z.abs v) in *. assert (Hx : 0 <= x <= 2 ^ 63) by lia.
  destruct (last zTemp) as [y|] eqn:El; [|apply last_None in El; subst zTemp; change (alen []) with 0 in Hl; lia]. apply last_Some in El as [pre ->].
  rewrite alen_app in Hl. change (alen [y]) with 1 in Hl.
  assert (Es : aset (pre ++ [y]) 21 0 = Some (pre ++ [0])).
  { rewrite aset_in by (rewrite alen_app; change (alen [y]) with 1; lia). f_equal. rewrite insert_app_r_alt by (unfold alen in Hl; lia).
    replace (Z.to_nat 21 - length pre)%nat with 0%nat by (unfold alen in Hl; lia). done. }
  rewrite Es. cbn [mbind option_bind]. destruct (digits_out_ok 22 pre [0] 20 x ltac:(lia) ltac:(lia) ltac:(lia)) as (ds & pre' & -> & Hal & Hds & Ev & Hne & Hlow).
  { split; [lia|]. assert (2 ^ 63 < 10 ^ (20 + 1)) by (by vm_compute). lia. }
  assert (L19 : alen ds <= 19).
  { destruct Hlow as [->|Hlow]; [lia|]. destruct (Z.le_gt_cases (alen ds) 19); [done|]. assert (10 ^ 19 <= 10 ^ (alen ds - 1)) by (apply Z.pow_le_mono_r; lia).
    assert (2 ^ 63 < 10 ^ 19) by (by vm_compute). lia. }
  cbn [mbind option_bind]. exists ds. split; [|by split_and!]. destruct (v <? 0).
  - destruct (last pre') as [w|] eqn:El; [|apply last_None in El; subst pre'; change (alen []) with 0 in Hal; lia]. apply last_Some in El as [pre'' ->]. rewrite alen_app in *. change (alen [w]) with 1 in *.
    rewrite aset_in by (rewrite !alen_app; change (alen [w]) with 1; pose proof (alen_nonneg pre''); pose proof (alen_nonneg ds); change (alen [0]) with 1; lia). cbn [mbind option_bind].
    rewrite <- app_assoc, insert_app_r_alt by (unfold alen; lia). replace (Z.to_nat (alen pre'' + 1 - 1) - length pre'')%nat with 0%nat by (unfold alen; lia). cbn [insert list_insert app].
    rewrite drop_app_length' by (unfold alen; lia). do 2 f_equal. unfold alen in *. cbn [length]. lia.
  - cbn [mbind option_bind]. rewrite drop_app_length' by (unfold alen; lia). do 2 f_equal. lia.
Qed.

(** A text of digits is read as a number. *)
Lemma atoi_value_digits neg ds : digits_ok ds -> ds <> [] -> dec 0 ds < 2 ^ 63 \/ neg = true /\ dec 0 ds = 2 ^ 63 ->
  atoi_value false neg ds = (0, if neg then - dec 0 ds else dec 0 ds).
Proof.
  intros Hds Hne Hv. unfold atoi_value. destruct (take_while_app is_digit ds [] Hds) as [E1 E2]. rewrite app_nil_r in E1, E2. rewrite E1, E2. cbn [take_while drop_while forallb].
  rewrite app_nil_r, bool_decide_false by done. destruct Hv as [Hv|[-> Hv]]; [apply Z.ltb_lt in Hv as ->; done|]. rewrite Hv. done.
Qed.

Lemma low_units_text enc s : Forall is_u8 s -> low_units enc s = s /\ high_unit enc s = false.
Proof.
  intros Hs. assert (Hall : Forall (fun w => (w <? 256) = true) s).
  { eapply Forall_impl; [exact Hs|]. intros w Hw. apply Z.ltb_lt. apply Hw. }
  unfold low_units, high_unit. destruct (take_while_app (fun w => w <? 256) s [] Hall) as [E1 _]. rewrite app_nil_r in E1. rewrite E1. cbn [take_while]. rewrite app_nil_r.
  split; [by destruct (enc =? SQLITE_UTF8)|]. replace (forallb (fun w => w <? 256) s) with true; [by rewrite andb_false_r|]. symmetry. apply forallb_forall.
  intros w Hw. rewrite Forall_forall in Hall. apply Hall. by apply list_elem_of_In.
Qed.

Lemma int_text_read v ds : is_i64 v -> digits_ok ds -> dec 0 ds = Z.abs v -> ds <> [] -> atoi_text false (if v <? 0 then 45 :: ds else ds) = (0, v).
Proof.
  intros Hv Hds Ed Hne. unfold is_i64 in Hv. unfold atoi_text. destruct (Z.ltb_spec v 0).
  - change (drop_while sqlite3Isspace (45 :: ds)) with (45 :: ds). cbn [Z.eqb Pos.eqb]. rewrite atoi_value_digits; [f_equal; lia|done|done|lia].
  - destruct ds as [|c r]; [done|]. pose proof Hds as [Hc _]%Forall_cons. apply digit_range in Hc. cbn [drop_while].
    rewrite Isspace_spec by (unfold is_u8; lia). replace (_ || _) with false.
    + replace (c =? 45) with false by (symmetry; apply Z.eqb_neq; lia). replace (c =? 43) with false by (symmetry; apply Z.eqb_neq; lia).
      rewrite atoi_value_digits; [f_equal; lia|done|done|lia].
    + symmetry. apply orb_false_iff. split; [apply Z.eqb_neq; lia|]. apply andb_false_iff. right. apply Z.leb_gt. lia.
Qed.

(** ** Properties *)

(** C38. Integers survive the way through text.  For every 64-bit integer,
    [sqlite3Int64ToText] stays inside its buffer of 22 bytes and gives a
    zero-terminated text of at most 20 characters, and [sqlite3Atoi64] reads that
    text, in UTF-8 and in both UTF-16 encodings and whatever follows it in
    memory, as the integer with return code 0. *)
Theorem sqlite3Int64ToText_roundtrip zTemp v tail enc : alen zTemp = 22 -> is_i64 v -> enc_ok enc ->
  exists s, sqlite3Int64ToText zTemp v = Some (alen s, s ++ [0]) /\ alen s <= 20 /\
    sqlite3Atoi64 (encode enc s ++ tail) (alen (encode enc s)) enc = Some (0, v).
Proof.
  intros Hl Hv He. destruct (int64_text_ok zTemp v Hl Hv) as (ds & E & Hds & Ed & Hne & H19). set (s := if v <? 0 then 45 :: ds else ds) in *.
  assert (Hs : Forall is_u8 s).
  { assert (Forall is_u8 ds) by (eapply Forall_impl; [exact Hds|]; intros c Hc; apply digit_range in Hc; unfold is_u8; lia).
    unfold s. destruct (v <? 0); [by constructor|done]. }
  exists s. split; [exact E|]. split; [unfold s; destruct (v <? 0); unfold alen in *; cbn [length]; lia|]. rewrite atoi_ok; [|done|].
  - destruct (low_units_text enc s Hs) as [-> ->]. f_equal. by apply int_text_read.
  - destruct (enc =? SQLITE_UTF8); [done|]. eapply Forall_impl; [exact Hs|]. intros c Hc. unfold is_u8, is_u16 in *. lia.
Qed.

Lemma sqlite3Int64ToText_roundtrip_witness : exists s, sqlite3Int64ToText (replicate 22 255) (- 2 ^ 63) = Some (alen s, s ++ [0]) /\
  sqlite3Atoi64 (encode 3 s ++ []) (alen (encode 3 s)) 3 = Some (0, - 2 ^ 63).
Proof.
  destruct (sqlite3Int64ToText_roundtrip (replicate 22 255) (- 2 ^ 63) [] 3) as (s & E1 & _ & E2).
  - reflexivity.
  - by unfold is_i64.
  - right. by right.
  - exists s. split; [exact E1|exact E2].
Defined.

(** C39. Text to integer.  On every text in the three encodings,
    [sqlite3Atoi64] returns and reads no byte outside of it: after spaces and
    one sign, the digits stand for their decimal value, cut off at the ends of
    the 64-bit range with return code 2, or 3 for exactly 2^63 without a minus;
    otherwise the code is 0, 1 when other characters than spaces or units with a
    high byte follow, and -1 when there is no digit. *)
Theorem sqlite3Atoi64_value enc ws tail : enc_ok enc -> Forall (if enc =? SQLITE_UTF8 then is_u8 else is_u16) ws ->
  sqlite3Atoi64 (encode enc ws ++ tail) (alen (encode enc ws)) enc = Some (atoi_text (high_unit enc ws) (low_units enc ws)).
Proof. intros He Hw. by apply atoi_ok. Qed.

(** " -9223372036854775809 x" in UTF-16. *)
Lemma sqlite3Atoi64_value_witness :
  let ws := [32; 45; 57; 50; 50; 51; 51; 55; 50; 48; 51; 54; 56; 53; 52; 55; 55; 53; 56; 48; 57; 32; 120] in
  sqlite3Atoi64 (encode 2 ws ++ [1; 2]) (alen (encode 2 ws)) 2 = Some (2, - 2 ^ 63).
Proof.
  cbv zeta. rewrite (sqlite3Atoi64_value 2).
  - vm_compute. reflexivity.
  - right. by left.
  - repeat constructor; unfold is_u16; lia.
Defined.
