(* ===== verification/Literals.v ===== *)
(** * Literals of SQL text ([src/util.c])

    Integer literals in decimal and hexadecimal, blob literals and quoted
    identifiers: [sqlite3HexToInt], [sqlite3HexToBlob],
    [sqlite3DecOrHexToI64], [sqlite3GetInt32], [sqlite3GetUInt32],
    [sqlite3Atoi] and [sqlite3Dequote].  A pointer that walks over a
    zero-terminated string is the list of the bytes from it on; a read beyond
    them is an error. *)
From S2P Require Import Prelude Text Ints NumText.

(** ** Hexadecimal *)

Definition sqlite3HexToInt (h : Z) : Z :=
  let h := h + 9 * (1 .& (h >> 6)) in
  u8 (h .& 0xf).

(** [for(i=0; i<n; i+=2)] and the terminator *)
Fixpoint hex_loop (fuel : nat) (z : list Z) (n : Z) (zBlob : list Z) (i : Z) : option (list Z) :=
  match fuel with
  | O => None
  | S fuel =>
      if i <? n then
        a ← aget z i;
        b ← aget z (i + 1);
        zBlob ← aset zBlob (i / 2) (u8 ((sqlite3HexToInt a << 4) .| sqlite3HexToInt b));
        hex_loop fuel z n zBlob (i + 2)
      else aset zBlob (i / 2) 0
  end.

(** The block at [zBlob], [None] when the allocation fails; [raw] is what the
    allocator leaves in the block. *)
Definition sqlite3HexToBlob (al : alloc) (raw : Z) (z : list Z) (n : Z) : option (option (list Z) * alloc) :=
  let '(ok, al) := malloc al in
  let zBlob := replicate (Z.to_nat (n / 2 + 1)) raw in
  let n := n - 1 in
  if (ok : bool) then l ← hex_loop (S (Z.to_nat n)) z n zBlob 0; Some (Some l, al) else Some (None, al).

(** ** Integers *)

(** [while( z[0]=='0' ) z++;] *)
Fixpoint strip_zeros (z : list Z) : option (list Z) :=
  match z with
  | [] => None
  | c :: r => if c =? 48 then strip_zeros r else Some z
  end.

(** [for(k=i; sqlite3Isxdigit(z[k]); k++)]: the rest of the string, the number of
    digits and their value *)
Fixpoint hex_digits (z : list Z) (k u : Z) : option (list Z * Z * Z) :=
  match z with
  | [] => None
  | c :: r => if sqlite3Isxdigit c then hex_digits r (k + 1) (u64 (u * 16 + sqlite3HexToInt c)) else Some (z, k, u)
  end.

Fixpoint strspn (z accept : list Z) : Z :=
  match z with
  | [] => 0
  | c :: r => if (c =? 0) || bool_decide (c ∉ accept) then 0 else 1 + strspn r accept
  end.

(** The characters "+- \n\t0123456789" *)
Definition int_chars : list Z := [43; 45; 32; 10; 9; 48; 49; 50; 51; 52; 53; 54; 55; 56; 57].

(** The return value and [*pOut] *)
Definition sqlite3DecOrHexToI64 (z : list Z) : option (Z * Z) :=
  z0 ← aget z 0;
  hex ← (if z0 =? 48 then z1 ← aget z 1; Some ((z1 =? 120) || (z1 =? 88)) else Some false);
  if (hex : bool) then
    z ← strip_zeros (drop 2 z);
    '(z, n, u) ← hex_digits z 0 0;
    c ← aget z 0;
    Some (if n >? 16 then 2 else if negb (c =? 0) then 1 else 0, i64 u)
  else
    let n := 0x3fffffff .& strspn z int_chars in
    zn ← aget z n;
    let n := if negb (zn =? 0) then n + 1 else n in
    sqlite3Atoi64 z n SQLITE_UTF8.

(** [for(i=0; i<8 && sqlite3Isxdigit(zNum[i]); i++)], with [n] digits left *)
Fixpoint hex8 (n : nat) (z : list Z) (u : Z) : option (list Z * Z) :=
  match n with
  | O => Some (z, u)
  | S n =>
      match z with
      | [] => None
      | c :: r => if sqlite3Isxdigit c then hex8 n r (u32 (u * 16 + sqlite3HexToInt c)) else Some (z, u)
      end
  end.

(** [for(i=0; i<11 && (c = zNum[i] - '0')>=0 && c<=9; i++)], with [n] digits left *)
Fixpoint dec11 (n : nat) (z : list Z) (i v : Z) : option (Z * Z) :=
  match n with
  | O => Some (i, v)
  | S n =>
      match z with
      | [] => None
      | x :: r => let c := x - 48 in if (c >=? 0) && (c <=? 9) then dec11 n r (i + 1) (v * 10 + c) else Some (i, v)
      end
  end.

(** The decimal digits after a sign *)
Definition get_decimal (zNum : list Z) (neg : bool) : option (Z * option Z) :=
  c ← aget zNum 0;
  if negb (sqlite3Isdigit c) then Some (0, None)
  else
    zNum ← strip_zeros zNum;
    '(i, v) ← dec11 11 zNum 0 0;
    if i >? 10 then Some (0, None)
    else if v - Z.b2z neg >? 2147483647 then Some (0, None)
    else Some (1, Some (i32 (if neg then - v else v))).

(** The return value, and what [*pValue] is set to *)
Definition sqlite3GetInt32 (zNum : list Z) : option (Z * option Z) :=
  z0 ← aget zNum 0;
  if z0 =? 45 then get_decimal (drop 1 zNum) true
  else if z0 =? 43 then get_decimal (drop 1 zNum) false
  else
    hex ← (if z0 =? 48 then
             z1 ← aget zNum 1;
             if (z1 =? 120) || (z1 =? 88) then z2 ← aget zNum 2; Some (sqlite3Isxdigit z2) else Some false
           else Some false);
    if (hex : bool) then
      zNum ← strip_zeros (drop 2 zNum);
      '(zNum, u) ← hex8 8 zNum 0;
      c ← aget zNum 0;
      if (u .& 0x80000000 =? 0) && negb (sqlite3Isxdigit c) then Some (1, Some (i32 u)) else Some (0, None)
    else get_decimal zNum false.

Definition sqlite3Atoi (z : list Z) : option Z :=
  '(_, v) ← sqlite3GetInt32 z; Some (default 0 v).

(** [for(i=0; sqlite3Isdigit(z[i]); i++)] *)
Fixpoint uint_loop (z : list Z) (i v : Z) : option (Z * Z) :=
  match z with
  | [] => None
  | c :: r =>
      if sqlite3Isdigit c then
        let v := u64 (v * 10 + c - 48) in
        if v >? 4294967296 then Some (0, 0) else uint_loop r (i + 1) v
      else if (i =? 0) || negb (c =? 0) then Some (0, 0)
      else Some (1, u32 v)
  end.

(** The return value and [*pI] *)
Definition sqlite3GetUInt32 (z : list Z) : option (Z * Z) := uint_loop z 0 0.

(** ** Quoted identifiers *)

(** [for(i=1, j=0;; i++)] *)
Fixpoint dequote_loop (fuel : nat) (z : list Z) (quote i j : Z) : option (list Z) :=
  match fuel with
  | O => None
  | S fuel =>
      c ← aget z i;
      if c =? quote then
        d ← aget z (i + 1);
        if d =? quote then z ← aset z j quote; dequote_loop fuel z quote (i + 2) (j + 1)
        else aset z j 0
      else z ← aset z j c; dequote_loop fuel z quote (i + 1) (j + 1)
  end.

(** The bytes of the buffer, changed in place; [None] inside is a null pointer. *)
Definition sqlite3Dequote (z : option (list Z)) : option (option (list Z)) :=
  match z with
  | None => Some None
  | Some z =>
      quote ← aget z 0;
      if negb (sqlite3Isquote quote) then Some (Some z)
      else
        let quote := if quote =? 91 then 93 else quote in
        z ← dequote_loop (length z) z quote 1 0;
        Some (Some z)
  end.

(** ** Values of digits *)

Definition hexv (c : Z) : Z := if c <=? 57 then c - 48 else if c <=? 70 then c - 55 else c - 87.

Definition is_xdigit (c : Z) : bool := (48 <=? c) && (c <=? 57) || (65 <=? c) && (c <=? 70) || (97 <=? c) && (c <=? 102).

Fixpoint hex (u : Z) (hs : list Z) : Z := match hs with [] => u | c :: hs => hex (u * 16 + hexv c) hs end.

Lemma xdigit_cases c : is_xdigit c = true -> 48 <= c <= 57 \/ 65 <= c <= 70 \/ 97 <= c <= 102.
Proof. unfold is_xdigit. rewrite !orb_true_iff, !andb_true_iff, !Z.leb_le. lia. Qed.

Lemma hexv_range c : is_xdigit c = true -> 0 <= hexv c < 16.
Proof. intros [?|[?|?]]%xdigit_cases; unfold hexv; destruct (Z.leb_spec c 57), (Z.leb_spec c 70); lia. Qed.

Lemma HexToInt_spec c : is_u8 c -> is_xdigit c = true -> sqlite3HexToInt c = hexv c.
Proof.
  intros Hc Hx. pose proof (byte_cases (fun c => implb (is_xdigit c) (sqlite3HexToInt c =? hexv c)) eq_refl c Hc) as H. cbn beta in H.
  rewrite Hx in H. by apply Z.eqb_eq.
Qed.

Lemma Isxdigit_is c : is_u8 c -> sqlite3Isxdigit c = is_xdigit c.
Proof. apply Isxdigit_spec. Qed.

Lemma Isdigit_is c : is_u8 c -> sqlite3Isdigit c = is_digit c.
Proof. apply Isdigit_spec. Qed.

Lemma hex_shift hs : forall u, hex u hs = u * 16 ^ alen hs + hex 0 hs.
Proof.
  induction hs as [|c r IH]; intros u; cbn [hex]; [unfold alen; cbn; lia|].
  rewrite (IH (u * 16 + hexv c)), (IH (0 * 16 + hexv c)), alen_cons, Z.pow_add_r by (pose proof (alen_nonneg r); lia). lia.
Qed.

Lemma hex_range hs : Forall (fun c => is_xdigit c = true) hs -> 0 <= hex 0 hs < 16 ^ alen hs.
Proof.
  induction hs as [|c r IH]; intros H; [unfold alen; cbn; lia|]. apply Forall_cons in H as [Hc Hr]. specialize (IH Hr). apply hexv_range in Hc.
  cbn [hex]. rewrite hex_shift, alen_cons, Z.pow_add_r by (pose proof (alen_nonneg r); lia). nia.
Qed.

Lemma hex_u64 hs : forall u, u64 (hex (u64 u) hs) = u64 (hex u hs).
Proof.
  induction hs as [|c r IH]; intros u; cbn [hex]; [apply Z.mod_mod; lia|]. rewrite <- (IH (u64 u * 16 + _)), <- (IH (u * 16 + _)). do 2 f_equal.
  unfold u64. by rewrite <- Zplus_mod_idemp_l, Zmult_mod_idemp_l, Zplus_mod_idemp_l.
Qed.

(** ** The loops *)

Lemma text_tail c s : text_ok (c :: s) -> is_u8 c /\ c <> 0 /\ text_ok s.
Proof. intros [[? ?] ?]%Forall_cons. done. Qed.

Lemma strip_zeros_ok s tail : strip_zeros (cstr s ++ tail) = Some (cstr (drop_while (fun c => c =? 48) s) ++ tail).
Proof. induction s as [|c s IH]; [done|]. cbn [cstr app strip_zeros drop_while] in *. by destruct (c =? 48). Qed.

Lemma drop_while_text test s : text_ok s -> text_ok (drop_while test s).
Proof. intros H. rewrite <- (take_drop_while test s) in H. by apply Forall_app in H as [_ H]. Qed.

Lemma hex_digits_ok s tail : text_ok s -> forall k u, is_u64 u ->
  hex_digits (cstr s ++ tail) k u = Some (cstr (drop_while is_xdigit s) ++ tail, k + alen (take_while is_xdigit s), u64 (hex u (take_while is_xdigit s))).
Proof.
  induction s as [|c s IH]; intros Ht k u Hu.
  - cbn [cstr app hex_digits take_while drop_while hex]. change (sqlite3Isxdigit 0) with false. rewrite (u64_id u) by done. change (alen []) with 0. by rewrite Z.add_0_r.
  - apply text_tail in Ht as (Hc & _ & Hs). cbn [cstr app hex_digits take_while drop_while]. rewrite Isxdigit_is by done.
    destruct (is_xdigit c) eqn:Ex.
    + rewrite HexToInt_spec by done. fold (cstr s). rewrite (IH Hs) by apply u64_range. cbn [hex]. rewrite hex_u64, alen_cons. do 2 f_equal. f_equal. lia.
    + cbn [hex]. rewrite (u64_id u) by done. change (alen []) with 0. by rewrite Z.add_0_r.
Qed.

Lemma hex8_ok tail n : forall s u, text_ok s -> 0 <= u -> (u + 1) * 16 ^ Z.of_nat n <= 2 ^ 32 ->
  exists hs rest, s = hs ++ rest /\ Forall (fun c => is_xdigit c = true) hs /\ hex8 n (cstr s ++ tail) u = Some (cstr rest ++ tail, hex u hs) /\
    (length hs = n \/ take_while is_xdigit rest = []) /\ (length hs <= n)%nat.
Proof.
  induction n as [|n IH]; intros s u Hs Hu Hb.
  - exists [], s. split_and!; [done|constructor|by cbn [hex8 hex]|by left|done].
  - destruct s as [|c s].
    + exists [], []. split_and!; [done|constructor| |by right|cbn [length]; lia]. cbn [cstr app hex8]. by change (sqlite3Isxdigit 0) with false.
    + apply text_tail in Hs as (Hc & _ & Hs). cbn [cstr app hex8]. rewrite Isxdigit_is by done. destruct (is_xdigit c) eqn:Ex.
      * rewrite Nat2Z.inj_succ, Z.pow_succ_r in Hb by lia. pose proof (hexv_range c Ex). pose proof (Z.pow_pos_nonneg 16 (Z.of_nat n)).
        rewrite HexToInt_spec, u32_id by (done || unfold is_u32; nia).
        destruct (IH s (u * 16 + hexv c)) as (hs & rest & -> & Hx & E & Ho & Hl); [done|lia|nia|].
        exists (c :: hs), rest. split_and!; [done|by constructor|exact E| |cbn [length]; lia]. destruct Ho as [<-|Ho]; [by left|by right].
      * exists [], (c :: s). split_and!; [done|constructor|done| |cbn [length]; lia]. right. cbn [take_while]. by rewrite Ex.
Qed.

Lemma dec11_ok tail n : forall s i v, text_ok s ->
  exists ds rest, s = ds ++ rest /\ digits_ok ds /\ dec11 n (cstr s ++ tail) i v = Some (i + alen ds, dec v ds) /\
    (length ds = n \/ take_while is_digit rest = []).
Proof.
  induction n as [|n IH]; intros s i v Hs.
  - exists [], s. split_and!; [done|constructor|change (alen []) with 0; by rewrite Z.add_0_r|by left].
  - destruct s as [|c s].
    + exists [], []. split_and!; [done|constructor| |by right]. change (alen []) with 0. by rewrite Z.add_0_r.
    + apply text_tail in Hs as (Hc & _ & Hs). cbn [cstr app dec11]. replace ((c - 48 >=? 0) && (c - 48 <=? 9)) with (is_digit c) by
        (unfold is_digit; f_equal; [destruct (Z.leb_spec 48 c)|destruct (Z.leb_spec c 57)]; symmetry; rewrite ?Z.geb_leb; [apply Z.leb_le|apply Z.leb_gt|apply Z.leb_le|apply Z.leb_gt]; lia).
      destruct (is_digit c) eqn:Ex.
      * destruct (IH s (i + 1) (v * 10 + (c - 48))) as (ds & rest & -> & Hx & E & Ho); [done|].
        exists (c :: ds), rest. split_and!; [done|by constructor| |].
        -- cbn [dec]. rewrite alen_cons. fold (cstr (ds ++ rest)). rewrite E. f_equal. f_equal; [lia|]. f_equal. lia.
        -- destruct Ho as [<-|Ho]; [by left|by right].
      * exists [], (c :: s). split_and!; [done|constructor| |].
        -- change (alen []) with 0. by rewrite Z.add_0_r.
        -- right. cbn [take_while]. by rewrite Ex.
Qed.

Lemma uint_loop_ok tail s : text_ok s -> forall i v, 0 <= i -> 0 <= v <= 2 ^ 32 ->
  uint_loop (cstr s ++ tail) i v =
    Some (if forallb is_digit s && negb (i + alen s =? 0) && (dec v s <=? 2 ^ 32) then (1, u32 (dec v s)) else (0, 0)).
Proof.
  induction s as [|c s IH]; intros Ht i v Hi Hv.
  - cbn [cstr app uint_loop forallb dec]. change (sqlite3Isdigit 0) with false. change (alen []) with 0. rewrite (Z.add_0_r i). change (negb (0 =? 0)) with false. rewrite orb_false_r. cbn [andb].
    replace (v <=? 2 ^ 32) with true by (symmetry; apply Z.leb_le; lia). rewrite andb_true_r. destruct (i =? 0); reflexivity.
  - apply text_tail in Ht as (Hc & Hc0 & Hs). cbn [cstr app uint_loop forallb dec]. rewrite Isdigit_is by done. destruct (is_digit c) eqn:Ec.
    + apply digit_range in Ec. rewrite u64_id by (unfold is_u64; lia). replace (i + alen (c :: s)) with (i + 1 + alen s) by (rewrite alen_cons; lia).
      rewrite Z.gtb_ltb. destruct (Z.ltb_spec 4294967296 (v * 10 + c - 48)) as [Hb|Hb].
      * replace (forallb is_digit s && _ && _) with false; [done|]. symmetry. apply andb_false_iff.
        destruct (forallb is_digit s) eqn:Ed; [right|by left]. apply Z.leb_gt. apply Is_true_true, forallb_True in Ed.
        rewrite dec_shift. assert (digits_ok s) as Hd by (eapply Forall_impl; [exact Ed|]; by intros x ?%Is_true_true).
        pose proof (dec_range s Hd). pose proof (Z.pow_pos_nonneg 10 (alen s)). pose proof (alen_nonneg s). nia.
      * fold (cstr s). apply IH; (done || lia).
    + replace (c =? 0) with false by (symmetry; by apply Z.eqb_neq). by rewrite orb_true_r.
Qed.

(** ** Integers of 32 bits *)

(** The hexadecimal digits without the leading zeros. *)
Lemma significant_hex cs : let sig := take_while is_xdigit (drop_while (fun c => c =? 48) cs) in
  hex 0 (take_while is_xdigit cs) = hex 0 sig /\ (sig <> [] -> 16 ^ (alen sig - 1) <= hex 0 sig).
Proof.
  cbv zeta. induction cs as [|c cs [IH1 IH2]]; [done|]. cbn [drop_while take_while]. destruct (Z.eqb_spec c 48) as [->|Hn]; [done|].
  cbn [take_while]. destruct (is_xdigit c) eqn:Ec; [|done]. split; [done|]. intros _. cbn [hex]. rewrite hex_shift.
  pose proof (hex_range (take_while is_xdigit cs) (take_while_all _ _)). rewrite alen_cons. rewrite Z.add_simpl_r.
  assert (1 <= hexv c) by (apply xdigit_cases in Ec; unfold hexv; destruct (Z.leb_spec c 57), (Z.leb_spec c 70); lia). nia.
Qed.

(** What a text stands for as a 32-bit integer: the digits it starts with, after a
    sign. *)
Definition dec32_text (neg : bool) (s : list Z) : Z * option Z :=
  let ds := take_while is_digit s in
  let v := if neg then - dec 0 ds else dec 0 ds in
  if negb (bool_decide (ds = [])) && (- 2 ^ 31 <=? v) && (v <? 2 ^ 31) then (1, Some v) else (0, None).

Definition hex32_text (s : list Z) : Z * option Z :=
  let v := hex 0 (take_while is_xdigit s) in if v <? 2 ^ 31 then (1, Some v) else (0, None).

Definition hex_prefix (s : list Z) : bool :=
  match s with
  | z0 :: z1 :: z2 :: _ => (z0 =? 48) && ((z1 =? 120) || (z1 =? 88)) && is_xdigit z2
  | _ => false
  end.

Definition int32_text (s : list Z) : Z * option Z :=
  match s with
  | [] => (0, None)
  | c :: r =>
      if c =? 45 then dec32_text true r
      else if c =? 43 then dec32_text false r
      else if hex_prefix s then hex32_text (drop 2 s) else dec32_text false s
  end.

Lemma pow_mono_ge b m n : 1 < b -> 0 <= m <= n -> b ^ m <= b ^ n.
Proof. intros. apply Z.pow_le_mono_r; lia. Qed.

Lemma get_decimal_ok s tail neg : text_ok s -> get_decimal (cstr s ++ tail) neg = Some (dec32_text neg s).
Proof.
  intros Hs. unfold get_decimal, dec32_text.
  assert (E0 : aget (cstr s ++ tail) 0 = Some (default 0 (head s))) by (destruct s; done). rewrite E0. cbn [mbind option_bind].
  assert (Hd : sqlite3Isdigit (default 0 (head s)) = negb (bool_decide (take_while is_digit s = []))).
  { destruct s as [|c s]; [done|]. apply text_tail in Hs as (Hc & _). change (default 0 (head (c :: s))) with c. cbn [take_while]. rewrite Isdigit_is by done.
    destruct (is_digit c); by case_bool_decide. }
  rewrite Hd. destruct (bool_decide _) eqn:Eb; [done|]. cbn [negb]. rewrite andb_true_l, strip_zeros_ok. cbn [mbind option_bind].
  destruct (significant s) as (_ & _ & Ev & _ & Hlow). set (s' := drop_while _ s) in *.
  destruct (dec11_ok tail 11 s' 0 0 (drop_while_text _ _ Hs)) as (ds & rest & E & Hds & -> & Ho). cbn [mbind option_bind].
  rewrite Z.gtb_ltb. destruct (take_while_app is_digit ds rest Hds) as [Et _]. rewrite <- E in Et. rewrite Et in Ev, Hlow.
  pose proof (alen_nonneg ds). destruct (Z.ltb_spec 10 (0 + alen ds)) as [Hl|Hl].
  - assert (10 ^ 10 <= dec 0 (take_while is_digit s)).
    { rewrite Ev. etrans; [|apply Hlow]; [|by destruct ds]. apply pow_mono_ge; [lia|]. rewrite alen_app.
      pose proof (alen_nonneg (take_while is_digit rest)). lia. }
    replace (_ && _) with false; [done|]. symmetry. destruct neg; apply andb_false_iff; [left; apply Z.leb_gt|right; apply Z.ltb_ge]; lia.
  - destruct Ho as [Ho|Ho]; [unfold alen in Hl; lia|]. rewrite Ho, app_nil_r in Ev. rewrite Ev. pose proof (dec_range ds Hds) as Hr.
    rewrite Z.gtb_ltb. set (v := if neg then - dec 0 ds else dec 0 ds).
    replace ((- 2 ^ 31 <=? v) && (v <? 2 ^ 31)) with (negb (2147483647 <? dec 0 ds - Z.b2z neg)).
    + destruct (Z.ltb_spec 2147483647 (dec 0 ds - Z.b2z neg)) as [Hb|Hb]; [done|]. rewrite i32_id; [done|]. unfold v. destruct neg; cbn [Z.b2z] in Hb; lia.
    + unfold v. rewrite <- Z.leb_antisym. apply eq_true_iff_eq. rewrite andb_true_iff, !Z.leb_le, Z.ltb_lt. destruct neg; cbn [Z.b2z]; lia.
Qed.

Lemma land_bit31 u : 0 <= u < 2 ^ 32 -> (u .& 0x80000000 =? 0) = (u <? 2 ^ 31).
Proof.
  intros Hu. change 0x80000000 with (2 ^ 31). destruct (Z.ltb_spec u (2 ^ 31)) as [H|H].
  - apply Z.eqb_eq, Z.bits_inj'. intros k Hk. rewrite Z.land_spec, Z.bits_0, Z.pow2_bits_eqb by lia. destruct (Z.eqb_spec 31 k) as [<-|]; [|by rewrite andb_false_r].
    apply andb_false_iff. left. apply Z.testbit_false; [lia|]. by rewrite Z.div_small by lia.
  - apply Z.eqb_neq. intros E. assert (Hb : Z.testbit (Z.land u (2 ^ 31)) 31 = Z.testbit u 31 && true) by (by rewrite Z.land_spec).
    rewrite E, Z.bits_0, andb_true_r in Hb. symmetry in Hb. rewrite Z.testbit_false in Hb by lia.
    replace (u / 2 ^ 31) with 1 in Hb by (apply (Z.div_unique u (2 ^ 31) 1 (u - 2 ^ 31)); lia). done.
Qed.

Lemma hex32_ok s tail : text_ok s ->
  (zNum ← strip_zeros (cstr s ++ tail);
   '(zNum, u) ← hex8 8 zNum 0;
   c ← aget zNum 0;
   if (u .& 0x80000000 =? 0) && negb (sqlite3Isxdigit c) then Some (1, Some (i32 u)) else Some (0, None)) = Some (hex32_text s).
Proof.
  intros Hs. rewrite strip_zeros_ok. cbn [mbind option_bind]. unfold hex32_text. destruct (significant_hex s) as (Ev & Hlow).
  pose proof (drop_while_text (fun c => c =? 48) s Hs) as Hs'. set (s' := drop_while _ s) in *.
  destruct (hex8_ok tail 8 s' 0 Hs') as (hs & rest & E & Hhs & -> & Ho & Hlen); [lia|by vm_compute|]. cbn [mbind option_bind].
  destruct (take_while_app is_xdigit hs rest Hhs) as [Et _]. rewrite <- E in Et. rewrite Et in Ev, Hlow. rewrite Ev.
  assert (E0 : aget (cstr rest ++ tail) 0 = Some (default 0 (head rest))) by (by destruct rest). rewrite E0. cbn [mbind option_bind].
  rewrite E in Hs'. apply Forall_app in Hs' as [_ Hrest].
  assert (Hx : sqlite3Isxdigit (default 0 (head rest)) = negb (bool_decide (take_while is_xdigit rest = []))).
  { destruct rest as [|c r]; [done|]. apply text_tail in Hrest as (Hc & _). change (default 0 (head (c :: r))) with c. cbn [take_while].
    rewrite Isxdigit_is by done. destruct (is_xdigit c); by case_bool_decide. }
  rewrite Hx, negb_involutive. case_bool_decide as Ht.
  - rewrite Ht, app_nil_r, andb_true_r. assert (Hl : alen hs <= 8) by (clear - Hlen; unfold alen; lia).
    pose proof (hex_range hs Hhs) as Hr. pose proof (pow_mono_ge 16 (alen hs) 8 ltac:(lia) ltac:(pose proof (alen_nonneg hs); lia)).
    rewrite land_bit31 by lia. destruct (Z.ltb_spec (hex 0 hs) (2 ^ 31)); [|done]. by rewrite i32_id by lia.
  - rewrite andb_false_r. destruct Ho as [Ho|Ho]; [|done]. replace (_ <? 2 ^ 31) with false; [done|]. symmetry. apply Z.ltb_ge.
    etrans; [|apply Hlow]; [|by destruct hs]. trans (16 ^ 8); [lia|]. apply pow_mono_ge; [lia|]. rewrite alen_app.
    assert (1 <= alen (take_while is_xdigit rest)) by (destruct (take_while is_xdigit rest); [done|rewrite alen_cons; pose proof (alen_nonneg l); lia]).
    unfold alen in *. lia.
Qed.

Lemma drop_cstr (n : nat) s tail : (n <= length s)%nat -> drop n (cstr s ++ tail) = cstr (drop n s) ++ tail.
Proof. intros H. unfold cstr. rewrite <- !app_assoc. by rewrite drop_app_le. Qed.

Lemma get_int32_ok s tail : text_ok s -> sqlite3GetInt32 (cstr s ++ tail) = Some (int32_text s).
Proof.
  intros Hs. unfold sqlite3GetInt32, int32_text. destruct s as [|c r]; [done|]. pose proof (text_tail _ _ Hs) as (Hc & _ & Hr).
  change (aget (cstr (c :: r) ++ tail) 0) with (Some c). cbn [mbind option_bind]. rewrite drop_cstr by (cbn [length]; lia). change (drop 1 (c :: r)) with r.
  destruct (c =? 45); [by apply get_decimal_ok|]. destruct (c =? 43); [by apply get_decimal_ok|].
  destruct (Z.eqb_spec c 48) as [->|Hn].
  - destruct r as [|x r]; [rewrite get_decimal_ok; done|]. pose proof (text_tail _ _ Hr) as (Hx & _ & Hr').
    change (aget (cstr (48 :: x :: r) ++ tail) 1) with (Some x). cbn [mbind option_bind].
    destruct ((x =? 120) || (x =? 88)) eqn:Ex.
    + destruct r as [|y r]; [rewrite get_decimal_ok; done|]. pose proof (text_tail _ _ Hr') as (Hy & _ & _).
      change (aget (cstr (48 :: x :: y :: r) ++ tail) 2) with (Some y). cbn [mbind option_bind]. rewrite Isxdigit_is by done.
      cbn [hex_prefix]. rewrite Ex. change (48 =? 48) with true. rewrite !andb_true_l. destruct (is_xdigit y).
      * rewrite drop_cstr by (cbn [length]; lia). by apply hex32_ok.
      * by apply get_decimal_ok.
    + cbn [mbind option_bind hex_prefix]. rewrite Ex. destruct r; apply get_decimal_ok; done.
  - cbn [mbind option_bind]. replace (hex_prefix (c :: r)) with false by (destruct r as [|x [|y r]]; cbn [hex_prefix]; try done; by destruct (Z.eqb_spec c 48)).
    by apply get_decimal_ok.
Qed.

(** ** Integers of 64 bits *)

Definition int_char (c : Z) : bool := bool_decide (c ∈ int_chars).

Lemma strspn_ok s tail : text_ok s -> strspn (cstr s ++ tail) int_chars = alen (take_while int_char s).
Proof.
  induction s as [|c s IH]; intros Hs; [done|]. apply text_tail in Hs as (_ & Hc & Hs). cbn [cstr app strspn take_while]. fold (cstr s).
  replace (c =? 0) with false by (symmetry; by apply Z.eqb_neq). rewrite orb_false_l. unfold int_char at 1. repeat case_bool_decide; try done.
  rewrite alen_cons, IH by done. lia.
Qed.

(** The part of a decimal literal that is read: the characters of integers and one
    more. *)
Definition int_part (s : list Z) : list Z := take_while int_char s ++ take 1 (drop_while int_char s).

Definition hex64_text (s : list Z) : Z * Z :=
  let v := hex 0 (take_while is_xdigit s) in
  (if 2 ^ 64 <=? v then 2 else if bool_decide (drop_while is_xdigit s = []) then 0 else 1, i64 (u64 v)).

Definition hex64_prefix (s : list Z) : bool := match s with z0 :: z1 :: _ => (z0 =? 48) && ((z1 =? 120) || (z1 =? 88)) | _ => false end.

Definition int64_text (s : list Z) : Z * Z := if hex64_prefix s then hex64_text (drop 2 s) else atoi_text false (int_part s).

Lemma land_ones30 n : 0 <= n < 2 ^ 30 -> 0x3fffffff .& n = n.
Proof. intros H. change 0x3fffffff with (Z.ones 30). rewrite Z.land_comm, Z.land_ones by lia. by apply Z.mod_small. Qed.

Lemma encode_utf8 s : encode SQLITE_UTF8 s = s.
Proof. induction s as [|c s IH]; [done|]. rewrite encode_cons, IH. done. Qed.

Lemma atoi_utf8 s tail : Forall is_u8 s -> sqlite3Atoi64 (s ++ tail) (alen s) SQLITE_UTF8 = Some (atoi_text false s).
Proof.
  intros Hs. pose proof (atoi_ok SQLITE_UTF8 s tail (or_introl eq_refl) Hs) as E. rewrite encode_utf8 in E. rewrite E.
  destruct (low_units_text SQLITE_UTF8 s Hs) as [-> ->]. done.
Qed.

Lemma dec64_ok s tail : text_ok s -> alen s < 2 ^ 30 ->
  (let n := 0x3fffffff .& strspn (cstr s ++ tail) int_chars in
   zn ← aget (cstr s ++ tail) n;
   let n := if negb (zn =? 0) then n + 1 else n in
   sqlite3Atoi64 (cstr s ++ tail) n SQLITE_UTF8) = Some (atoi_text false (int_part s)).
Proof.
  intros Hs Hl. rewrite strspn_ok by done. pose proof (take_drop_while int_char s) as E. unfold int_part.
  set (ws := take_while int_char s) in *. destruct (drop_while int_char s) as [|c r]; pose proof (alen_nonneg ws);
    rewrite <- E in Hs, Hl |- *; apply Forall_app in Hs as [Hws Hr]; rewrite alen_app in Hl;
    assert (Hw8 : Forall is_u8 ws) by (eapply Forall_impl; [exact Hws|]; by intros ? [? ?]).
  - change (alen []) with 0 in Hl. rewrite land_ones30 by lia. unfold cstr. rewrite app_nil_r, <- app_assoc, aget_app_r by lia.
    rewrite Z.sub_diag. cbn [mbind option_bind]. change (take 1 []) with (@nil Z). rewrite app_nil_r. by apply atoi_utf8.
  - rewrite alen_cons in Hl. pose proof (alen_nonneg r). rewrite land_ones30 by lia. unfold cstr. rewrite <- !app_assoc, aget_app_r by lia.
    rewrite Z.sub_diag. apply Forall_cons in Hr as [[Hc Hc0] _]. change (aget ((c :: r) ++ [0] ++ tail) 0) with (Some c). cbn [mbind option_bind].
    replace (c =? 0) with false by (symmetry; by apply Z.eqb_neq). change (take 1 (c :: r)) with [c].
    replace (alen ws + 1) with (alen (ws ++ [c])) by (rewrite alen_app; done). change ((c :: r) ++ [0] ++ tail) with ([c] ++ r ++ [0] ++ tail).
    rewrite app_assoc. apply atoi_utf8. apply Forall_app. split; [done|]. by constructor.
Qed.

Lemma hex64_ok s tail : text_ok s ->
  (z ← strip_zeros (cstr s ++ tail);
   '(z, n, u) ← hex_digits z 0 0;
   c ← aget z 0;
   Some (if n >? 16 then 2 else if negb (c =? 0) then 1 else 0, i64 u)) = Some (hex64_text s).
Proof.
  intros Hs. rewrite strip_zeros_ok. cbn [mbind option_bind]. unfold hex64_text. destruct (significant_hex s) as (Ev & Hlow).
  pose proof (drop_while_text (fun c => c =? 48) s Hs) as Hs'.
  assert (Er : drop_while is_xdigit (drop_while (fun c => c =? 48) s) = drop_while is_xdigit s).
  { clear. induction s as [|c s IH]; [done|]. cbn [drop_while]. destruct (Z.eqb_spec c 48) as [->|]; [exact IH|done]. }
  set (s' := drop_while (fun c => c =? 48) s) in *. rewrite (hex_digits_ok s' tail Hs' 0 0) by (by unfold is_u64). cbn [mbind option_bind]. rewrite Er, Ev.
  pose proof (drop_while_text is_xdigit s Hs) as Hrest. set (sig := take_while is_xdigit s') in *. set (rest := drop_while is_xdigit s) in *.
  assert (E0 : aget (cstr rest ++ tail) 0 = Some (default 0 (head rest))) by (by destruct rest). rewrite E0. cbn [mbind option_bind].
  assert (Hc : (default 0 (head rest) =? 0) = bool_decide (rest = [])).
  { destruct rest as [|c r]; [done|]. apply text_tail in Hrest as (_ & Hc & _). change (default 0 (head (c :: r))) with c. rewrite bool_decide_eq_false_2 by done.
    by apply Z.eqb_neq. }
  rewrite Hc. pose proof (hex_range sig (take_while_all _ _)) as Hr. rewrite Z.gtb_ltb. pose proof (alen_nonneg sig).
  replace (16 <? 0 + alen sig) with (2 ^ 64 <=? hex 0 sig); [by destruct (2 ^ 64 <=? _), (bool_decide _)|].
  apply eq_true_iff_eq. rewrite Z.leb_le, Z.ltb_lt. split; intros Hx.
  - destruct (Z_lt_le_dec 16 (alen sig)); [lia|]. pose proof (pow_mono_ge 16 (alen sig) 16). lia.
  - assert (Hne : sig <> []) by (intros ->; change (alen []) with 0 in Hx; lia). specialize (Hlow Hne).
    pose proof (pow_mono_ge 16 16 (alen sig - 1)). lia.
Qed.

Lemma dec_or_hex_ok s tail : text_ok s -> alen s < 2 ^ 30 -> sqlite3DecOrHexToI64 (cstr s ++ tail) = Some (int64_text s).
Proof.
  intros Hs Hl. unfold sqlite3DecOrHexToI64, int64_text. destruct s as [|c r]; [exact (dec64_ok [] tail Hs Hl)|].
  change (aget (cstr (c :: r) ++ tail) 0) with (Some c). cbn [mbind option_bind]. destruct (Z.eqb_spec c 48) as [->|Hn].
  - destruct r as [|x r]; [exact (dec64_ok _ tail Hs Hl)|]. change (aget (cstr (48 :: x :: r) ++ tail) 1) with (Some x). cbn [mbind option_bind hex64_prefix].
    change (48 =? 48) with true. rewrite andb_true_l. destruct (_ || _).
    + pose proof (text_tail _ _ Hs) as (_ & _ & Hr). pose proof (text_tail _ _ Hr) as (_ & _ & Hr'). rewrite drop_cstr by (cbn [length]; lia). by apply hex64_ok.
    + exact (dec64_ok _ tail Hs Hl).
  - cbn [mbind option_bind]. replace (hex64_prefix (c :: r)) with false by (destruct r as [|x r]; cbn [hex64_prefix]; [done|]; by destruct (Z.eqb_spec c 48)).
    exact (dec64_ok _ tail Hs Hl).
Qed.

(** ** Quoted names and blobs *)

(** A name with its quotes doubled; [close] is the closing quote. *)
Definition doubled (close : Z) (s : list Z) : list Z := concat (map (fun c => if c =? close then [c; c] else [c]) s).

Definition close_of (q : Z) : Z := if q =? 91 then 93 else q.

Definition quoted (q : Z) (s : list Z) : list Z := q :: doubled (close_of q) s ++ [close_of q].

Lemma aget_gap (dn gap : list Z) x r : aget (dn ++ gap ++ x :: r) (alen dn + alen gap) = Some x.
Proof. by rewrite app_assoc, <- alen_app, aget_at. Qed.

Lemma aget_gap_next (dn gap : list Z) x y r : aget (dn ++ gap ++ x :: y :: r) (alen dn + alen gap + 1) = Some y.
Proof.
  replace (alen dn + alen gap + 1) with (alen dn + alen (gap ++ [x])) by (rewrite alen_app; change (alen [x]) with 1; lia).
  change (x :: y :: r) with ([x] ++ y :: r). rewrite (app_assoc gap [x]). apply aget_gap.
Qed.

Lemma aset_gap (dn : list Z) g gap y r : aset (dn ++ (g :: gap) ++ r) (alen dn) y = Some ((dn ++ [y]) ++ gap ++ r).
Proof. cbn [app]. rewrite aset_at, <- app_assoc. done. Qed.

(** The bytes already read make room for the bytes to be written. *)
Lemma dequote_loop_ok q s : forall fuel dn gap rest, gap <> [] -> (length s < fuel)%nat -> rest <> [] -> head rest <> Some q ->
  exists junk, dequote_loop fuel (dn ++ gap ++ doubled q s ++ q :: rest) q (alen dn + alen gap) (alen dn) = Some (dn ++ s ++ 0 :: junk).
Proof.
  induction s as [|c s IH]; intros fuel dn gap rest Hg Hf Hr Hq; (destruct fuel as [|fuel]; [cbn in Hf; lia|]); cbn [length] in Hf; cbn [dequote_loop].
  - change (doubled q [] ++ q :: rest) with (q :: rest). rewrite aget_gap. cbn [mbind option_bind]. rewrite Z.eqb_refl.
    destruct rest as [|x r]; [done|]. rewrite aget_gap_next. cbn [mbind option_bind]. replace (x =? q) with false by (symmetry; apply Z.eqb_neq; by intros ->).
    destruct gap as [|g gap]; [done|]. rewrite aset_gap, <- app_assoc. eauto.
  - change (doubled q (c :: s)) with ((if c =? q then [c; c] else [c]) ++ doubled q s). rewrite <- app_assoc. destruct (Z.eqb_spec c q) as [->|Hc].
    + change ([q; q] ++ doubled q s ++ q :: rest) with (q :: q :: doubled q s ++ q :: rest). rewrite aget_gap, aget_gap_next. cbn [mbind option_bind]. rewrite Z.eqb_refl.
      destruct gap as [|g gap]; [done|]. rewrite aset_gap. cbn [mbind option_bind].
      destruct (IH fuel (dn ++ [q]) (gap ++ [q; q]) rest) as [junk E]; [by destruct gap|lia|done|done|]. exists junk.
      rewrite !alen_app in E. repeat rewrite <- app_assoc in E. repeat rewrite <- app_assoc. cbn [app] in E |- *. change (alen [q; q]) with 2 in E. change (alen [q]) with 1 in E. rewrite alen_cons.
      replace (alen dn + (alen gap + 1) + 2) with (alen dn + 1 + (alen gap + 2)) by lia. exact E.
    + change ([c] ++ doubled q s ++ q :: rest) with (c :: doubled q s ++ q :: rest). rewrite aget_gap. cbn [mbind option_bind].
      replace (c =? q) with false by (symmetry; by apply Z.eqb_neq). destruct gap as [|g gap]; [done|]. rewrite aset_gap. cbn [mbind option_bind].
      destruct (IH fuel (dn ++ [c]) (gap ++ [c]) rest) as [junk E]; [by destruct gap|lia|done|done|]. exists junk.
      rewrite !alen_app in E. repeat rewrite <- app_assoc in E. repeat rewrite <- app_assoc. cbn [app] in E |- *. change (alen [c]) with 1 in E. rewrite alen_cons.
      replace (alen dn + (alen gap + 1) + 1) with (alen dn + 1 + (alen gap + 1)) by lia. exact E.
Qed.

Lemma doubled_length q s : (length s <= length (doubled q s))%nat.
Proof. induction s as [|c s IH]; [done|]. change (doubled q (c :: s)) with ((if c =? q then [c; c] else [c]) ++ doubled q s). rewrite length_app. destruct (c =? q); cbn [length]; lia. Qed.

Lemma dequote_ok q s rest : is_u8 q -> sqlite3Isquote q = true -> rest <> [] -> head rest <> Some (close_of q) ->
  exists junk, sqlite3Dequote (Some (quoted q s ++ rest)) = Some (Some (s ++ 0 :: junk)).
Proof.
  intros Hq Hi Hr Hh. unfold sqlite3Dequote, quoted. cbn [app]. set (z := q :: _). change (aget z 0) with (Some q). cbn [mbind option_bind]. rewrite Hi. cbn [negb].
  fold (close_of q). destruct (dequote_loop_ok (close_of q) s (length z) [] [q] rest) as [junk E]; [done| |done|done|].
  - unfold z. cbn [length]. rewrite !length_app. pose proof (doubled_length (close_of q) s). lia.
  - exists junk. replace z with ([] ++ [q] ++ doubled (close_of q) s ++ close_of q :: rest) at 2 by (unfold z; by rewrite <- app_assoc). change (alen [] + alen [q]) with 1 in E. change (alen []) with 0 in E. rewrite E. done.
Qed.

(** The bytes as hexadecimal digits, [up] chooses the case of each. *)
Definition hexc (up : bool) (d : Z) : Z := if d <? 10 then d + 48 else if up then d + 55 else d + 87.

Definition hexed (up : bool) (bs : list Z) : list Z := concat (map (fun b => [hexc up (b / 16); hexc up (b mod 16)]) bs).

Lemma HexToInt_hexc up d : 0 <= d < 16 -> sqlite3HexToInt (hexc up d) = d.
Proof.
  intros Hd. assert (Hc : is_u8 (hexc up d) /\ is_xdigit (hexc up d) = true /\ hexv (hexc up d) = d).
  { unfold hexc, is_u8, is_xdigit, hexv. rewrite !orb_true_iff, !andb_true_iff, !Z.leb_le. destruct (Z.ltb_spec d 10), up;
      repeat match goal with |- context [?a <=? ?b] => destruct (Z.leb_spec a b) end; lia. }
  destruct Hc as (Hu & Hx & Hv). by rewrite HexToInt_spec.
Qed.

Lemma byte_nibbles b : is_u8 b -> u8 ((b / 16 << 4) .| (b mod 16)) = b.
Proof. intros H. apply Z.eqb_eq. exact (byte_cases (fun b => u8 ((b / 16 << 4) .| (b mod 16)) =? b) eq_refl b H). Qed.

Lemma hexed_cons up b bs : hexed up (b :: bs) = hexc up (b / 16) :: hexc up (b mod 16) :: hexed up bs.
Proof. done. Qed.

Lemma hexed_alen up bs : alen (hexed up bs) = 2 * alen bs.
Proof. induction bs as [|b bs IH]; [done|]. rewrite hexed_cons, !alen_cons, IH. lia. Qed.

Lemma hex_loop_ok up bs : forall fuel pre dn raw rest, Forall is_u8 bs -> alen pre = 2 * alen dn -> (length bs < fuel)%nat -> alen raw = alen bs + 1 ->
  hex_loop fuel (pre ++ hexed up bs ++ rest) (alen pre + 2 * alen bs) (dn ++ raw) (alen pre) = Some (dn ++ bs ++ [0]).
Proof.
  induction bs as [|b bs IH]; intros fuel pre dn raw rest Hb Hp Hf Hr; (destruct fuel as [|fuel]; [cbn in Hf; lia|]); cbn [length] in Hf; cbn [hex_loop];
    (destruct raw as [|x raw]; [unfold alen in Hr; cbn [length] in Hr; lia|]); rewrite ?alen_cons in Hr; rewrite ?alen_cons.
  - change (alen []) with 0. rewrite Z.mul_0_r, Z.add_0_r, Z.ltb_irrefl. replace (alen pre / 2) with (alen dn) by (rewrite Hp, Z.mul_comm; symmetry; by apply Z.div_mul).
    rewrite aset_at. destruct raw; [done|]. rewrite alen_cons in Hr. pose proof (alen_nonneg raw). change (alen []) with 0 in Hr. lia.
  - apply Forall_cons in Hb as [Hb Hbs]. pose proof (alen_nonneg bs). replace (alen pre <? _) with true by (symmetry; apply Z.ltb_lt; lia).
    rewrite hexed_cons. cbn [app]. rewrite aget_at. pose proof (aget_gap_next pre [] (hexc up (b / 16)) (hexc up (b mod 16)) (hexed up bs ++ rest)) as E1.
    change (alen []) with 0 in E1. rewrite Z.add_0_r in E1. cbn [app] in E1. rewrite E1. cbn [mbind option_bind].
    replace (alen pre / 2) with (alen dn) by (rewrite Hp, Z.mul_comm; symmetry; by apply Z.div_mul). rewrite aset_at. cbn [mbind option_bind].
    unfold is_u8 in Hb. rewrite !HexToInt_hexc by (first [apply Z.mod_pos_bound; lia | split; [apply Z.div_pos; lia|apply Z.div_lt_upper_bound; lia]]).
    rewrite byte_nibbles by done.
    pose proof (IH fuel (pre ++ [hexc up (b / 16); hexc up (b mod 16)]) (dn ++ [b]) raw rest) as E. rewrite !alen_app in E. change (alen [b]) with 1 in E.
    change (alen [hexc up (b / 16); hexc up (b mod 16)]) with 2 in E. repeat rewrite <- app_assoc in E. cbn [app] in E |- *.
    replace (alen pre + 2 * (alen bs + 1)) with (alen pre + 2 + 2 * alen bs) by lia. apply E; [done|lia|lia|lia].
Qed.

Lemma hex_blob_ok up al raw bs rest : never_fails al -> Forall is_u8 bs ->
  exists al', sqlite3HexToBlob al raw (hexed up bs ++ 39 :: rest) (2 * alen bs + 1) = Some (Some (bs ++ [0]), al').
Proof.
  intros Ha Hb. unfold sqlite3HexToBlob. destruct (malloc_never_fails al Ha) as (al' & -> & _). exists al'. pose proof (alen_nonneg bs).
  rewrite Z.add_simpl_r. replace ((2 * alen bs + 1) / 2) with (alen bs) by (apply (Z.div_unique _ 2 _ 1); lia).
  pose proof (hex_loop_ok up bs (S (Z.to_nat (2 * alen bs))) [] [] (replicate (Z.to_nat (alen bs + 1)) raw) (39 :: rest)) as E.
  cbn [app] in E. change (alen []) with 0 in E. rewrite Z.add_0_l in E. rewrite E; [done|done|done|unfold alen; lia|]. unfold alen at 1. rewrite length_replicate. lia.
Qed.

(** ** Properties *)

(** Integers of 32 bits.  On every zero-terminated text [sqlite3GetInt32]
    returns, reads no byte beyond the terminator and answers by the digits the
    text starts with, decimal after a sign or hexadecimal after 0x: it succeeds
    with their value when that value is a 32-bit signed integer, with any number
    of leading zeros, and otherwise fails without an assignment.  [sqlite3Atoi]
    turns the failure into 0. *)
Theorem sqlite3GetInt32_value s tail : text_ok s ->
  sqlite3GetInt32 (cstr s ++ tail) = Some (int32_text s) /\ sqlite3Atoi (cstr s ++ tail) = Some (default 0 (int32_text s).2).
Proof. intros Hs. split; [by apply get_int32_ok|]. unfold sqlite3Atoi. rewrite get_int32_ok by done. cbn [mbind option_bind]. by destruct (int32_text s). Qed.

(** "-0002147483648x" *)
Lemma sqlite3GetInt32_value_witness :
  sqlite3GetInt32 (cstr [45; 48; 48; 48; 50; 49; 52; 55; 52; 56; 51; 54; 52; 56; 120] ++ [7]) = Some (1, Some (- 2 ^ 31)).
Proof. apply (sqlite3GetInt32_value [45; 48; 48; 48; 50; 49; 52; 55; 52; 56; 51; 54; 52; 56; 120] [7]). repeat constructor; unfold is_u8; lia. Defined.

(** Unsigned integers of 32 bits.  [sqlite3GetUInt32] succeeds exactly on the
    non-empty texts of digits alone whose value is at most 2^32, with the value
    modulo 2^32, and otherwise stores 0.  The bound is one too large: the text of
    2^32 is accepted and stores 0, which is not its value. *)
Theorem sqlite3GetUInt32_value s tail : text_ok s ->
  sqlite3GetUInt32 (cstr s ++ tail) =
    Some (if forallb is_digit s && negb (alen s =? 0) && (dec 0 s <=? 2 ^ 32) then (1, u32 (dec 0 s)) else (0, 0)) /\
  sqlite3GetUInt32 (cstr [52; 50; 57; 52; 57; 54; 55; 50; 57; 54]) = Some (1, 0).
Proof. intros Hs. split; [|done]. unfold sqlite3GetUInt32. by rewrite uint_loop_ok by (done || lia). Qed.

Lemma sqlite3GetUInt32_value_witness : sqlite3GetUInt32 (cstr [52; 50; 57; 52; 57; 54; 55; 50; 57; 53] ++ []) = Some (1, 2 ^ 32 - 1).
Proof. apply (sqlite3GetUInt32_value [52; 50; 57; 52; 57; 54; 55; 50; 57; 53] []). repeat constructor; unfold is_u8; lia. Defined.

(** Integer literals.  On every zero-terminated text of less than 2^30 bytes
    [sqlite3DecOrHexToI64] returns and reads no byte beyond the terminator.  After 0x it
    takes the hexadecimal digits as a 64-bit two's complement pattern, with code 2
    for more than 64 bits and 1 for a text that goes on; any other text is read as
    [sqlite3Atoi64] reads its characters "+- \n\t0123456789" and the one after them.
    That one may be another space, which hides what follows it: the text of 12, a
    carriage return and an x has code 0, success, and not 1. *)
Theorem sqlite3DecOrHexToI64_value s tail : text_ok s -> alen s < 2 ^ 30 ->
  sqlite3DecOrHexToI64 (cstr s ++ tail) = Some (int64_text s) /\ sqlite3DecOrHexToI64 (cstr [49; 50; 13; 120]) = Some (0, 12).
Proof. intros Hs Hl. split; [by apply dec_or_hex_ok|done]. Qed.

(** "0x00ffffffffffffffff" *)
Lemma sqlite3DecOrHexToI64_value_witness :
  sqlite3DecOrHexToI64 (cstr ([48; 120; 48; 48] ++ replicate 16 102) ++ []) = Some (0, -1).
Proof.
  apply (sqlite3DecOrHexToI64_value ([48; 120; 48; 48] ++ replicate 16 102) []).
  - cbn [app replicate]. repeat constructor; unfold is_u8; lia.
  - by vm_compute.
Defined.

(** Quoting.  [sqlite3Dequote] undoes quoting in place: for a name in double
    quotes, single quotes, backquotes or brackets with its closing quotes
    doubled, the buffer then holds the name and a terminator, whatever follows the
    closing quote other than a further quote.  [sqlite3HexToBlob] undoes hexadecimal in either case: it fills its
    block exactly with the bytes and a terminator. *)
Theorem sqlite3Dequote_roundtrip q s rest up al raw bs tail : is_u8 q -> sqlite3Isquote q = true -> rest <> [] -> head rest <> Some (close_of q) ->
  never_fails al -> Forall is_u8 bs ->
  (exists junk, sqlite3Dequote (Some (quoted q s ++ rest)) = Some (Some (s ++ 0 :: junk))) /\
  (exists al', sqlite3HexToBlob al raw (hexed up bs ++ 39 :: tail) (2 * alen bs + 1) = Some (Some (bs ++ [0]), al')).
Proof. intros. split; [by apply dequote_ok|by apply hex_blob_ok]. Qed.

Lemma sqlite3Dequote_roundtrip_witness :
  (exists junk, sqlite3Dequote (Some (quoted 91 [97; 93; 98] ++ [0])) = Some (Some ([97; 93; 98] ++ 0 :: junk))) /\
  (exists al', sqlite3HexToBlob [true] 255 (hexed true [0; 171; 255] ++ 39 :: []) 7 = Some (Some [0; 171; 255; 0], al')).
Proof.
  apply (sqlite3Dequote_roundtrip 91 [97; 93; 98] [0] true [true] 255 [0; 171; 255] []).
  - by unfold is_u8.
  - reflexivity.
  - done.
  - done.
  - by repeat constructor.
  - by repeat constructor; unfold is_u8.
Defined.
