(* ===== verification/RowSet.v ===== *)
(** * Row sets ([src/rowset.c])

    The set of rowids of the virtual machine: rowids are appended to a linked
    list; a test first sorts the list into a forest of balanced binary trees, and
    the extraction of the smallest element sorts it once.  Entries come from
    chunks, are linked through [pRight] and [pLeft] and are relinked in place: all
    operations work on an explicit heap, in which an access through a pointer to
    no live entry is an error. *)
From S2P Require Import Prelude.

(** ** Data *)

Definition ROWSET_ALLOCATION_SIZE : Z := 1024.

(** [sizeof(struct RowSetEntry)] and [ROUND8(sizeof(RowSet))] on a 64-bit host, and the offset of
    [aEntry] in a chunk *)
Definition sizeof_entry : Z := 24.
Definition sizeof_rowset : Z := 56.
Definition aEntry : Z := 8.

Definition ROWSET_ENTRY_PER_CHUNK : Z := (ROWSET_ALLOCATION_SIZE - 8) / sizeof_entry.

Definition ROWSET_SORTED : Z := 0x01.
Definition ROWSET_NEXT : Z := 0x02.

(** Pointers are addresses; 0 is the null pointer. *)
Record RowSetEntry : Type := MkEntry { v : Z; pRight : Z; pLeft : Z }.

Record RowSet : Type := MkRowSet {
  pChunk : Z;
  pEntry : Z;
  pLast : Z;
  pFresh : Z;
  pForest : Z;
  nFresh : Z;
  rsFlags : Z;
  iBatch : Z
}.

Abbreviation entries := (gmap Z RowSetEntry).

(** The live entries, and the live chunks with their [pNextChunk]. *)
Record mem : Type := MkMem { ents : entries; chunks : gmap Z Z }.

Definition set_v (x p : Z) (h : entries) : option entries := e ← h !! p; Some (<[p := MkEntry x (pRight e) (pLeft e)]> h).
Definition set_right (q p : Z) (h : entries) : option entries := e ← h !! p; Some (<[p := MkEntry (v e) q (pLeft e)]> h).
Definition set_left (q p : Z) (h : entries) : option entries := e ← h !! p; Some (<[p := MkEntry (v e) (pRight e) q]> h).

(** [*pp = q] where [pp] is the address of a local variable [x], or of the
    [pRight] of an entry *)
Definition put (pp : option Z) (q : Z) (h : entries) (x : Z) : option (entries * Z) :=
  match pp with
  | None => Some (h, q)
  | Some p => h ← set_right q p h; Some (h, x)
  end.

(** The addresses of [n] entries from [base] on. *)
Definition entry_array (base : Z) (n : nat) : list Z := map (fun i => base + sizeof_entry * Z.of_nat i) (seq 0 n).

(** The entries of a block that is allocated, with what the allocator left in
    them, and of one that is freed. *)
Definition raw_entries (raw : Z -> RowSetEntry) (ps : list Z) (h : entries) : entries := foldr (fun p h => <[p := raw p]> h) h ps.
Definition free_entries (ps : list Z) (h : entries) : entries := foldr delete h ps.

Definition chunk_array (c : Z) : list Z := entry_array (c + aEntry) (Z.to_nat ROWSET_ENTRY_PER_CHUNK).

Section Operations.
(** What fresh memory holds. *)
Context (raw : Z -> RowSetEntry).

(** [new] is the block that the allocator gives, if any, and its size. *)
Definition sqlite3RowSetInit (new : option (Z * Z)) (m : mem) : option RowSet * mem :=
  match new with
  | None => (None, m)
  | Some (p, N) =>
      let n := (N - sizeof_rowset) / sizeof_entry in
      (Some (MkRowSet 0 0 0 (sizeof_rowset + p) 0 (u16 n) ROWSET_SORTED 0),
       MkMem (raw_entries raw (entry_array (sizeof_rowset + p) (Z.to_nat n)) (ents m)) (chunks m))
  end.

(** [for(pChunk=p->pChunk; pChunk; pChunk = pNextChunk)] *)
Fixpoint free_chunks (fuel : nat) (c : Z) (m : mem) : option mem :=
  match fuel with
  | O => None
  | S fuel =>
      if c =? 0 then Some m
      else
        pNextChunk ← chunks m !! c;
        free_chunks fuel pNextChunk (MkMem (free_entries (chunk_array c) (ents m)) (delete c (chunks m)))
  end.

Definition sqlite3RowSetClear (p : RowSet) (m : mem) : option (RowSet * mem) :=
  m ← free_chunks (S (size (chunks m))) (pChunk p) m;
  Some (MkRowSet 0 0 0 (pFresh p) 0 0 ROWSET_SORTED (iBatch p), m).

(** The block of the set, at [p] and of [N] bytes, goes with the entries in it. *)
Definition sqlite3RowSetDelete (p N : Z) (s : RowSet) (m : mem) : option mem :=
  '(_, m) ← sqlite3RowSetClear s m;
  Some (MkMem (free_entries (entry_array (sizeof_rowset + p) (Z.to_nat ((N - sizeof_rowset) / sizeof_entry))) (ents m)) (chunks m)).

(** [new] is the chunk that the allocator can give, if any. *)
Definition rowSetEntryAlloc (new : option Z) (p : RowSet) (m : mem) : Z * RowSet * mem :=
  let take p m :=
    (pFresh p, MkRowSet (pChunk p) (pEntry p) (pLast p) (pFresh p + sizeof_entry) (pForest p) (u16 (nFresh p - 1)) (rsFlags p) (iBatch p), m) in
  if nFresh p =? 0 then
    match new with
    | None => (0, p, m)
    | Some pNew =>
        take (MkRowSet pNew (pEntry p) (pLast p) (pNew + aEntry) (pForest p) ROWSET_ENTRY_PER_CHUNK (rsFlags p) (iBatch p))
          (MkMem (raw_entries raw (chunk_array pNew) (ents m)) (<[pNew := pChunk p]> (chunks m)))
    end
  else take p m.

Definition sqlite3RowSetInsert (new : option Z) (p : RowSet) (m : mem) (rowid : Z) : option (RowSet * mem) :=
  let '(pE, p, m) := rowSetEntryAlloc new p m in
  if pE =? 0 then Some (p, m)
  else
    h ← set_v rowid pE (ents m);
    h ← set_right 0 pE h;
    let last := pLast p in
    '(flags, first, h) ←
      (if negb (last =? 0) then
         l ← h !! last;
         h ← set_right pE last h;
         Some (if rowid <=? v l then Z.land (rsFlags p) (Z.lnot ROWSET_SORTED) else rsFlags p, pEntry p, h)
       else Some (rsFlags p, pE, h));
    Some (MkRowSet (pChunk p) first pE (pFresh p) (pForest p) (nFresh p) flags (iBatch p), MkMem h (chunks m)).
End Operations.

(** [for(;;)]; [head] is the [pRight] of the local entry that [pTail] first
    points to. *)
Fixpoint merge_loop (fuel : nat) (h : entries) (head : Z) (pTail : option Z) (pA pB : Z) : option (entries * Z) :=
  match fuel with
  | O => None
  | S fuel =>
      a ← h !! pA;
      b ← h !! pB;
      if v a <=? v b then
        '(h, head, pTail) ←
          (if v a <? v b then '(h, head) ← put pTail pA h head; Some (h, head, Some pA) else Some (h, head, pTail));
        a ← h !! pA;
        let pA := pRight a in
        if pA =? 0 then put pTail pB h head else merge_loop fuel h head pTail pA pB
      else
        '(h, head) ← put pTail pB h head;
        let pTail := Some pB in
        b ← h !! pB;
        let pB := pRight b in
        if pB =? 0 then put pTail pA h head else merge_loop fuel h head pTail pA pB
  end.

Definition rowSetEntryMerge (h : entries) (pA pB : Z) : option (entries * Z) := merge_loop (S (size h)) h 0 None pA pB.

(** [for(i=0; aBucket[i]; i++)] and the assignment after it *)
Fixpoint carry_loop (fuel : nat) (h : entries) (aBucket : list Z) (i pIn : Z) : option (entries * list Z) :=
  match fuel with
  | O => None
  | S fuel =>
      b ← aget aBucket i;
      if b =? 0 then aBucket ← aset aBucket i pIn; Some (h, aBucket)
      else
        '(h, pIn) ← rowSetEntryMerge h b pIn;
        aBucket ← aset aBucket i 0;
        carry_loop fuel h aBucket (i + 1) pIn
  end.

(** [while( pIn )] *)
Fixpoint sort_in (fuel : nat) (h : entries) (aBucket : list Z) (pIn : Z) : option (entries * list Z) :=
  match fuel with
  | O => None
  | S fuel =>
      if pIn =? 0 then Some (h, aBucket)
      else
        e ← h !! pIn;
        let pNext := pRight e in
        h ← set_right 0 pIn h;
        '(h, aBucket) ← carry_loop 41 h aBucket 0 pIn;
        sort_in fuel h aBucket pNext
  end.

(** [for(i=1; i<40; i++)], over the buckets that are left *)
Fixpoint sort_out (h : entries) (pIn : Z) (buckets : list Z) : option (entries * Z) :=
  match buckets with
  | [] => Some (h, pIn)
  | b :: buckets =>
      if b =? 0 then sort_out h pIn buckets
      else
        '(h, pIn) ← (if negb (pIn =? 0) then rowSetEntryMerge h pIn b else Some (h, b));
        sort_out h pIn buckets
  end.

Definition rowSetEntrySort (h : entries) (pIn : Z) : option (entries * Z) :=
  '(h, aBucket) ← sort_in (S (size h)) h (replicate 40 0) pIn;
  b0 ← aget aBucket 0;
  sort_out h b0 (drop 1 aBucket).

(** The heap, the variable of the outermost caller that [ppFirst] may point to,
    and [*ppLast] *)
Fixpoint rowSetTreeToList (fuel : nat) (h : entries) (pAux : Z) (ppFirst : option Z) (pIn : Z) : option (entries * Z * Z) :=
  match fuel with
  | O => None
  | S fuel =>
      e ← h !! pIn;
      '(h, pAux) ←
        (if negb (pLeft e =? 0) then
           '(h, pAux, p) ← rowSetTreeToList fuel h pAux ppFirst (pLeft e);
           h ← set_right pIn p h;
           Some (h, pAux)
         else put ppFirst pIn h pAux);
      e ← h !! pIn;
      if negb (pRight e =? 0) then rowSetTreeToList fuel h pAux (Some pIn) (pRight e) else Some (h, pAux, pIn)
  end.

(** The heap, [*ppList] and the root; [iDepth] counts down to 1. *)
Fixpoint rowSetNDeepTree (iDepth : nat) (h : entries) (pList : Z) : option (entries * Z * Z) :=
  if pList =? 0 then Some (h, pList, 0)
  else
    match iDepth with
    | S ((S _) as d) =>
        '(h, pList, l) ← rowSetNDeepTree d h pList;
        let p := pList in
        if p =? 0 then Some (h, pList, l)
        else
          h ← set_left l p h;
          e ← h !! p;
          let pList := pRight e in
          '(h, pList, r) ← rowSetNDeepTree d h pList;
          h ← set_right r p h;
          Some (h, pList, p)
    | _ =>
        let p := pList in
        e ← h !! p;
        let pList := pRight e in
        h ← set_right 0 p h;
        h ← set_left 0 p h;
        Some (h, pList, p)
    end.

(** [for(iDepth=1; pList; iDepth++)] *)
Fixpoint list_tree_loop (fuel : nat) (iDepth : nat) (h : entries) (p pList : Z) : option (entries * Z) :=
  match fuel with
  | O => None
  | S fuel =>
      if pList =? 0 then Some (h, p)
      else
        let l := p in
        let p := pList in
        e ← h !! p;
        let pList := pRight e in
        h ← set_left l p h;
        '(h, pList, r) ← rowSetNDeepTree iDepth h pList;
        h ← set_right r p h;
        list_tree_loop fuel (S iDepth) h p pList
  end.

Definition rowSetListToTree (h : entries) (pList : Z) : option (entries * Z) :=
  let p := pList in
  e ← h !! p;
  let pList := pRight e in
  h ← set_right 0 p h;
  h ← set_left 0 p h;
  list_tree_loop (S (size h)) 1 h p pList.

(** The return value with [*pRowid] when it is 1 *)
Definition sqlite3RowSetNext (p : RowSet) (m : mem) : option (option Z * RowSet * mem) :=
  '(p, m) ←
    (if rsFlags p .& ROWSET_NEXT =? 0 then
       '(h, first) ← (if rsFlags p .& ROWSET_SORTED =? 0 then rowSetEntrySort (ents m) (pEntry p) else Some (ents m, pEntry p));
       Some (MkRowSet (pChunk p) first (pLast p) (pFresh p) (pForest p) (nFresh p) (rsFlags p .| (ROWSET_SORTED .| ROWSET_NEXT)) (iBatch p), MkMem h (chunks m))
     else Some (p, m));
  if negb (pEntry p =? 0) then
    e ← ents m !! pEntry p;
    let p := MkRowSet (pChunk p) (pRight e) (pLast p) (pFresh p) (pForest p) (nFresh p) (rsFlags p) (iBatch p) in
    '(p, m) ← (if pEntry p =? 0 then sqlite3RowSetClear p m else Some (p, m));
    Some (Some (v e), p, m)
  else Some (None, p, m).

(** [for(pTree = pRowSet->pForest; pTree; pTree=pTree->pRight)]: the heap,
    [ppPrevTree] ([None] for [&pRowSet->pForest]), [pTree] and [p] at the end *)
Fixpoint forest_loop (fuel : nat) (h : entries) (ppPrevTree : option Z) (pTree p : Z) : option (entries * option Z * Z * Z) :=
  match fuel with
  | O => None
  | S fuel =>
      if pTree =? 0 then Some (h, ppPrevTree, pTree, p)
      else
        let ppPrevTree := Some pTree in
        t ← h !! pTree;
        if pLeft t =? 0 then
          '(h, root) ← rowSetListToTree h p;
          h ← set_left root pTree h;
          Some (h, ppPrevTree, pTree, p)
        else
          '(h, pAux, _) ← rowSetTreeToList (S (size h)) h 0 None (pLeft t);
          h ← set_left 0 pTree h;
          '(h, p) ← rowSetEntryMerge h pAux p;
          t ← h !! pTree;
          forest_loop fuel h ppPrevTree (pRight t) p
  end.

(** [while( p )] *)
Fixpoint tree_search (fuel : nat) (h : entries) (p iRowid : Z) : option bool :=
  match fuel with
  | O => None
  | S fuel =>
      if p =? 0 then Some false
      else
        e ← h !! p;
        if v e <? iRowid then tree_search fuel h (pRight e) iRowid
        else if v e >? iRowid then tree_search fuel h (pLeft e) iRowid
        else Some true
  end.

Fixpoint forest_search (fuel : nat) (h : entries) (pTree iRowid : Z) : option Z :=
  match fuel with
  | O => None
  | S fuel =>
      if pTree =? 0 then Some 0
      else
        t ← h !! pTree;
        b ← tree_search (S (size h)) h (pLeft t) iRowid;
        if (b : bool) then Some 1 else forest_search fuel h (pRight t) iRowid
  end.

(** The entries of a new batch are sorted into the forest. *)
Definition test_batch (raw : Z -> RowSetEntry) (new : option Z) (s : RowSet) (m : mem) (batch : Z) : option (RowSet * mem) :=
  if negb (batch =? iBatch s) then
    '(s, m) ←
      (if negb (pEntry s =? 0) then
         '(h, p) ← (if rsFlags s .& ROWSET_SORTED =? 0 then rowSetEntrySort (ents m) (pEntry s) else Some (ents m, pEntry s));
         '(h, ppPrevTree, pTree, p) ← forest_loop (S (size h)) h None (pForest s) p;
         '(s, m) ←
           (if pTree =? 0 then
              let '(pTree, s, m) := rowSetEntryAlloc raw new s (MkMem h (chunks m)) in
              '(h, forest) ← put ppPrevTree pTree (ents m) (pForest s);
              h ← (if negb (pTree =? 0) then
                     h ← set_v 0 pTree h;
                     h ← set_right 0 pTree h;
                     '(h, root) ← rowSetListToTree h p;
                     set_left root pTree h
                   else Some h);
              Some (MkRowSet (pChunk s) (pEntry s) (pLast s) (pFresh s) forest (nFresh s) (rsFlags s) (iBatch s), MkMem h (chunks m))
            else Some (s, MkMem h (chunks m)));
         Some (MkRowSet (pChunk s) 0 0 (pFresh s) (pForest s) (nFresh s) (rsFlags s .| ROWSET_SORTED) (iBatch s), m)
       else Some (s, m));
    Some (MkRowSet (pChunk s) (pEntry s) (pLast s) (pFresh s) (pForest s) (nFresh s) (rsFlags s) batch, m)
  else Some (s, m).

Definition sqlite3RowSetTest (raw : Z -> RowSetEntry) (new : option Z) (s : RowSet) (m : mem) (batch iRowid : Z) : option (Z * RowSet * mem) :=
  '(s, m) ← test_batch raw new s m batch;
  r ← forest_search (S (size (ents m))) (ents m) (pForest s) iRowid;
  Some (r, s, m).
