(* ===== verification/RowList.v ===== *)
(** * The lists of row sets

    Linked lists of [RowSetEntry] in the heap, and the merge sort of
    [src/rowset.c] on them: [rowSetEntryMerge] and [rowSetEntrySort] relink the
    entries of their lists into one list that is sorted and without duplicates,
    and touch nothing else. *)
From S2P Require Import Prelude RowSet.

(** ** Changes of the heap *)

(** Only the entries [ps] may change. *)
Definition outside (ps : list Z) (h h' : entries) : Prop := forall q, q ∉ ps -> h' !! q = h !! q.

(** Only the links of the entries [ps] may change. *)
Record frame (ps : list Z) (h h' : entries) : Prop := {
  fr_dom : dom h' = dom h;
  fr_out : outside ps h h';
  fr_v : forall q, v <$> h' !! q = v <$> h !! q
}.

Definition row_value (h : entries) (p : Z) : Z := default 0 (v <$> h !! p).
Definition vals (h : entries) (ps : list Z) : list Z := map (row_value h) ps.

Lemma frame_refl ps h : frame ps h h.
Proof. by split. Qed.

Lemma frame_trans ps qs rs h1 h2 h3 : frame ps h1 h2 -> frame qs h2 h3 -> ps ⊆ rs -> qs ⊆ rs -> frame rs h1 h3.
Proof.
  intros [D1 O1 V1] [D2 O2 V2] Hp Hq. split; [congruence| |congruence]. intros q Hn.
  rewrite O2 by (intros Hx; by apply Hn, Hq). apply O1. intros Hx. by apply Hn, Hp.
Qed.

Lemma frame_mono ps qs h h' : frame ps h h' -> ps ⊆ qs -> frame qs h h'.
Proof. intros Hf Hp. eapply frame_trans; [exact Hf|apply (frame_refl [])|done|]. intros x Hx. by apply not_elem_of_nil in Hx. Qed.

Lemma frame_size ps h h' : frame ps h h' -> size h' = size h.
Proof. intros [D _ _]. by rewrite <- !size_dom, D. Qed.

Lemma frame_value ps h h' q : frame ps h h' -> row_value h' q = row_value h q.
Proof. intros [_ _ V]. unfold row_value. by rewrite V. Qed.

Lemma frame_vals ps h h' qs : frame ps h h' -> vals h' qs = vals h qs.
Proof. intros Hf. apply map_ext. intros q. by eapply frame_value. Qed.

Lemma vals_outside ds h h' a : outside ds h h' -> (forall x, x ∈ a -> x ∉ ds) -> vals h' a = vals h a.
Proof.
  intros Ho Hd. unfold vals. apply map_ext_in. intros x Hx%list_elem_of_In. unfold row_value. by rewrite (Ho x) by (by apply Hd).
Qed.

Lemma frame_insert p h e e' : h !! p = Some e -> v e' = v e -> frame [p] h (<[p := e']> h).
Proof.
  intros E Ev. split.
  - apply dom_insert_lookup_L. by eexists.
  - intros q Hq. apply lookup_insert_ne. set_solver.
  - intros q. destruct (decide (p = q)) as [<-|Hn]; [rewrite lookup_insert_eq, E; cbn; by f_equal|by rewrite lookup_insert_ne].
Qed.

Lemma set_right_ok q p h e : h !! p = Some e -> exists h', set_right q p h = Some h' /\ frame [p] h h' /\ h' !! p = Some (MkEntry (v e) q (pLeft e)).
Proof. intros E. unfold set_right. rewrite E. cbn [mbind option_bind]. eexists. split; [done|]. split; [by eapply frame_insert|apply lookup_insert_eq]. Qed.

Lemma set_left_ok q p h e : h !! p = Some e -> exists h', set_left q p h = Some h' /\ frame [p] h h' /\ h' !! p = Some (MkEntry (v e) (pRight e) q).
Proof. intros E. unfold set_left. rewrite E. cbn [mbind option_bind]. eexists. split; [done|]. split; [by eapply frame_insert|apply lookup_insert_eq]. Qed.

(** ** Segments *)

(** From [p] the entries [ps] are linked through [pRight], and the last leads to
    [q]. *)
Fixpoint seg (h : entries) (p : Z) (ps : list Z) (q : Z) : Prop :=
  match ps with
  | [] => p = q
  | a :: ps => p = a /\ a <> 0 /\ exists e, h !! a = Some e /\ seg h (pRight e) ps q
  end.

Lemma seg_app h a : forall p b q, seg h p (a ++ b) q <-> exists x, seg h p a x /\ seg h x b q.
Proof.
  induction a as [|c a IH]; intros p b q; cbn [app seg]; [split; [by exists p|by intros (x & -> & H)]|]. split.
  - intros (-> & H0 & e & E & (x & Ha & Hb)%IH). exists x. split; [|done]. split_and!; try done. by exists e.
  - intros (x & (-> & H0 & e & E & Ha) & Hb). split_and!; try done. exists e. split; [done|]. apply IH. by exists x.
Qed.

Lemma seg_outside ds h h' a : outside ds h h' -> (forall x, x ∈ a -> x ∉ ds) -> forall p q, seg h p a q -> seg h' p a q.
Proof.
  intros Ho. induction a as [|c a IH]; intros Hd p q; [done|]. cbn [seg]. intros (-> & H0 & e & E & Hs). split_and!; try done. exists e.
  split; [rewrite Ho; [done|apply Hd; set_solver +]|]. apply IH; [|done]. intros x Hx. apply Hd. set_solver + Hx.
Qed.

Lemma seg_frame ps h h' a : frame ps h h' -> (forall x, x ∈ a -> x ∉ ps) -> forall p q, seg h p a q -> seg h' p a q.
Proof. intros Hf. apply seg_outside, Hf. Qed.

Lemma seg_live h a : forall p q x, seg h p a q -> x ∈ a -> x <> 0 /\ exists e, h !! x = Some e.
Proof.
  induction a as [|c a IH]; intros p q x Hs Hx; [by apply not_elem_of_nil in Hx|]. destruct Hs as (-> & H0 & e & E & Hs).
  apply elem_of_cons in Hx as [->|Hx]; [split; [done|by exists e]|by eapply IH].
Qed.

Lemma seg_null h p ps : seg h p ps 0 -> (p =? 0) = bool_decide (ps = []).
Proof.
  destruct ps as [|a ps]; cbn [seg]; [intros ->; by rewrite bool_decide_eq_true_2|]. intros (-> & H0 & _).
  rewrite bool_decide_eq_false_2 by done. by apply Z.eqb_neq.
Qed.

(** The last of the entries is linked to another. *)
Lemma seg_relink h p a t x q : NoDup (a ++ [t]) -> seg h p (a ++ [t]) x ->
  exists h', set_right q t h = Some h' /\ frame [t] h h' /\ seg h' p (a ++ [t]) q.
Proof.
  intros Hnd (y & Ha & (-> & H0 & e & E & _))%seg_app. destruct (set_right_ok q t h e E) as (h' & Es & Hf & E'). exists h'. split_and!; try done.
  apply seg_app. exists t. split.
  - eapply seg_frame; [exact Hf| |exact Ha]. intros z Hz. apply NoDup_app in Hnd as (_ & Hn & _). intros ->%list_elem_of_singleton. apply (Hn t Hz). set_solver +.
  - cbn [seg]. split_and!; try done. by eexists.
Qed.

(** ** Merging *)

Abbreviation ascending := (StronglySorted Z.lt).

(** What [pTail] points to: the end of the entries [ds] linked from [head]. *)
Definition tail_of (h : entries) (head : Z) (pTail : option Z) (ds : list Z) : Prop :=
  match pTail with None => ds = [] | Some t => exists ds' x, ds = ds' ++ [t] /\ seg h head ds x end.

Lemma put_ok h head pTail ds q : tail_of h head pTail ds -> NoDup ds ->
  exists h' head', put pTail q h head = Some (h', head') /\ seg h' head' ds q /\ frame ds h h'.
Proof.
  destruct pTail as [t|]; cbn [tail_of put].
  - intros (ds' & x & -> & Hs) Hnd. destruct (seg_relink h head ds' t x q Hnd Hs) as (h' & E & Hf & Hs'). rewrite E. cbn [mbind option_bind]. eexists _, _.
    split_and!; [done|done|]. eapply frame_mono; [exact Hf|]. set_solver +.
  - intros -> _. eexists _, _. split_and!; [done|done|apply frame_refl].
Qed.

Lemma tail_of_snoc h head ds a e : seg h head ds a -> a <> 0 -> h !! a = Some e -> tail_of h head (Some a) (ds ++ [a]).
Proof. intros Hs H0 E. exists ds, (pRight e). split; [done|]. apply seg_app. exists a. split; [done|]. cbn [seg]. split_and!; try done. by exists e. Qed.

Lemma tail_of_frame ps h h' head pTail ds : frame ps h h' -> (forall x, x ∈ ds -> x ∉ ps) -> tail_of h head pTail ds -> tail_of h' head pTail ds.
Proof. intros Hf Hd. destruct pTail as [t|]; [|done]. intros (ds' & x & E & Hs). exists ds', x. split; [done|]. by eapply seg_frame. Qed.

Lemma ascending_cons_inv x l : ascending (x :: l) -> ascending l /\ forall y, y ∈ l -> x < y.
Proof. intros [Hs Hf]%StronglySorted_inv. split; [done|]. intros y Hy. rewrite Forall_forall in Hf. by apply Hf. Qed.

Lemma ascending_cons x l : ascending l -> (forall y, y ∈ l -> x < y) -> ascending (x :: l).
Proof. intros Hs Hf. constructor; [done|]. by apply Forall_forall. Qed.

(** The merged list [cs] of two lists. *)
Definition merged_list (h : entries) (cs as_ bs : list Z) : Prop :=
  NoDup cs /\ cs ⊆ as_ ++ bs /\ ascending (vals h cs) /\ forall x, x ∈ vals h cs <-> x ∈ vals h as_ \/ x ∈ vals h bs.

Lemma vals_cons h a l : vals h (a :: l) = row_value h a :: vals h l.
Proof. done. Qed.

Lemma value_entry h a e : h !! a = Some e -> row_value h a = v e.
Proof. intros E. unfold row_value. by rewrite E. Qed.

Lemma merged_less h a as_ bs cs : ascending (vals h (a :: as_)) -> NoDup (a :: as_ ++ bs) -> (forall x, x ∈ vals h bs -> row_value h a < x) ->
  merged_list h cs as_ bs -> merged_list h (a :: cs) (a :: as_) bs.
Proof.
  intros [Ha Hlt]%ascending_cons_inv Hnd Hb (Hn & Hsub & Hs & He). apply NoDup_cons in Hnd as [Hna _]. split_and!.
  - constructor; [|done]. intros Hx. by apply Hna, Hsub.
  - set_solver + Hsub.
  - apply ascending_cons; [done|]. intros y [Hy|Hy]%He; [by apply Hlt|by apply Hb].
  - intros x. rewrite !vals_cons, !elem_of_cons, He. tauto.
Qed.

Lemma merged_sym h as_ bs cs : merged_list h cs as_ bs -> merged_list h cs bs as_.
Proof. intros (Hn & Hsub & Hs & He). split_and!; try done; [set_solver + Hsub|]. intros x. rewrite He. tauto. Qed.

Lemma merged_equal h a b as_ bs cs : row_value h a = row_value h b -> merged_list h cs as_ (b :: bs) -> merged_list h cs (a :: as_) (b :: bs).
Proof.
  intros E (Hn & Hsub & Hs & He). split_and!; try done; [set_solver + Hsub|]. intros x. rewrite He, !vals_cons, !elem_of_cons, E. tauto.
Qed.

Lemma merged_nil h bs : NoDup bs -> ascending (vals h bs) -> merged_list h bs [] bs.
Proof. intros Hn Hs. split_and!; try done. intros x. split; [by right|]. intros [Hx|Hx]; [by apply not_elem_of_nil in Hx|done]. Qed.

Lemma merged_frame ps h h' cs as_ bs : frame ps h h' -> merged_list h' cs as_ bs -> merged_list h cs as_ bs.
Proof. intros Hf (Hn & Hsub & Hs & He). unfold merged_list. rewrite <- !(frame_vals _ _ _ _ Hf). done. Qed.

(** [pTail = pTail->pRight = a] *)
Lemma take_step h head pTail ds a as_ e rest : tail_of h head pTail ds -> NoDup (ds ++ a :: as_ ++ rest) -> a <> 0 -> h !! a = Some e -> seg h (pRight e) as_ 0 ->
  exists h' head', put pTail a h head = Some (h', head') /\ frame ds h h' /\ h' !! a = Some e /\ tail_of h' head' (Some a) (ds ++ [a]) /\ seg h' (pRight e) as_ 0.
Proof.
  intros Ht Hnd H0 E Hs. pose proof (NoDup_app ds (a :: as_ ++ rest)) as [Hx _]. destruct (Hx Hnd) as (Hd & Hn & _). clear Hx.
  destruct (put_ok h head pTail ds a Ht Hd) as (h' & head' & Ep & Hs' & Hf). exists h', head'.
  assert (E' : h' !! a = Some e) by (rewrite (fr_out _ _ _ Hf); [done|]; intros Hx; apply (Hn a Hx); set_solver +).
  split_and!; try done; [by eapply tail_of_snoc|]. eapply seg_frame; [exact Hf| |done]. intros x Hx Hxd. apply (Hn x Hxd). set_solver + Hx.
Qed.

(** The end of the merge: one list is linked as it is. *)
Lemma take_rest h head pTail ds q bs : tail_of h head pTail ds -> NoDup (ds ++ bs) -> seg h q bs 0 ->
  exists h' head', put pTail q h head = Some (h', head') /\ frame ds h h' /\ seg h' head' (ds ++ bs) 0.
Proof.
  intros Ht Hnd Hs. apply NoDup_app in Hnd as (Hd & Hn & _). destruct (put_ok h head pTail ds q Ht Hd) as (h' & head' & Ep & Hs' & Hf).
  exists h', head'. split_and!; try done. apply seg_app. exists q. split; [done|]. eapply seg_frame; [exact Hf| |done]. intros x Hx Hxd. by apply (Hn x Hxd).
Qed.

Lemma seg_frame_app ds h h' rest p q : frame ds h h' -> NoDup (ds ++ rest) -> forall a, a ⊆ rest -> seg h p a q -> seg h' p a q.
Proof. intros Hf Hnd a Ha. apply seg_frame with (ps := ds); [done|]. intros x Hx Hxd. apply NoDup_app in Hnd as (_ & Hn & _). by apply (Hn x Hxd), Ha. Qed.

Lemma merge_loop_ok fuel : forall h head pTail ds pA as_ pB bs, tail_of h head pTail ds -> seg h pA as_ 0 -> seg h pB bs 0 -> as_ <> [] -> bs <> [] ->
  NoDup (ds ++ as_ ++ bs) -> ascending (vals h as_) -> ascending (vals h bs) -> (length as_ + length bs <= fuel)%nat ->
  exists h' p cs, merge_loop fuel h head pTail pA pB = Some (h', p) /\ seg h' p (ds ++ cs) 0 /\ merged_list h cs as_ bs /\ frame (ds ++ as_ ++ bs) h h'.
Proof.
  induction fuel as [|fuel IH]; intros h head pTail ds pA as_ pB bs Ht HA HB Ha0 Hb0 Hnd Sa Sb Hfu.
  { destruct as_; cbn [length] in Hfu; [done|lia]. }
  destruct as_ as [|a as_]; [done|]. destruct bs as [|b bs]; [done|]. cbn [length] in Hfu.
  pose proof HA as (-> & Hane & ea & Ea & HA'). pose proof HB as (-> & Hbne & eb & Eb & HB'). cbn [merge_loop]. rewrite Ea, Eb. cbn [mbind option_bind].
  assert (Va : row_value h a = v ea) by (by apply value_entry). assert (Vb : row_value h b = v eb) by (by apply value_entry).
  pose proof (ascending_cons_inv _ _ Sa) as [Sa' La]. pose proof (ascending_cons_inv _ _ Sb) as [Sb' Lb]. fold (vals h as_) in Sa', La. fold (vals h bs) in Sb', Lb.
  destruct (Z.leb_spec (v ea) (v eb)) as [Hle|Hgt]; [destruct (Z.ltb_spec (v ea) (v eb)) as [Hlt|Hge]|].
  - destruct (take_step h head pTail ds a as_ ea (b :: bs) Ht Hnd Hane Ea HA') as (h1 & hd1 & -> & F1 & E1 & T1 & S1). cbn [mbind option_bind]. rewrite E1. cbn [mbind option_bind].
    assert (Hab : forall x, x ∈ vals h (b :: bs) -> row_value h a < x) by (intros x [->|Hx]%elem_of_cons; [lia|]; specialize (Lb x Hx); lia).
    assert (SB : seg h1 b (b :: bs) 0) by (eapply seg_frame_app; [exact F1|exact Hnd| |exact HB]; set_solver +).
    assert (Hnd' : NoDup ((ds ++ [a]) ++ as_ ++ b :: bs)) by (by rewrite <- app_assoc).
    assert (Hnda : NoDup (a :: as_ ++ b :: bs)) by (by apply NoDup_app in Hnd as (_ & _ & ?)).
    rewrite (seg_null _ _ _ S1). case_bool_decide as Hn.
    + subst as_. destruct (take_rest h1 hd1 (Some a) (ds ++ [a]) b (b :: bs) T1 Hnd' SB) as (h2 & hd2 & E2 & F2 & S2). exists h2, hd2, (a :: b :: bs). split; [done|].
      rewrite <- app_assoc in S2. split; [exact S2|]. split; [|eapply frame_trans; [exact F1|exact F2|set_solver +..]].
      apply merged_less; [done|done|done|]. apply merged_nil; [by apply NoDup_cons in Hnda as [_ ?]|done].
    + destruct (IH h1 hd1 (Some a) (ds ++ [a]) (pRight ea) as_ b (b :: bs)) as (h2 & p & cs & E2 & S2 & M2 & F2); try done;
        [by rewrite (frame_vals _ _ _ _ F1)|by rewrite (frame_vals _ _ _ _ F1)|cbn [length]; lia|].
      exists h2, p, (a :: cs). split; [done|]. rewrite <- app_assoc in S2. split; [exact S2|]. split; [|eapply frame_trans; [exact F1|exact F2|set_solver +..]].
      apply merged_less; [done|done|done|]. by eapply merged_frame.
  - cbn [mbind option_bind]. rewrite Ea. cbn [mbind option_bind].
    assert (Hnd' : NoDup (ds ++ as_ ++ b :: bs)).
    { eapply sublist_NoDup; [exact Hnd|]. apply sublist_app; [done|]. by apply sublist_cons. }
    rewrite (seg_null _ _ _ HA'). case_bool_decide as Hn.
    + subst as_. destruct (take_rest h head pTail ds b (b :: bs) Ht Hnd' HB) as (h2 & hd2 & E2 & F2 & S2). exists h2, hd2, (b :: bs). split; [done|]. split; [exact S2|].
      split; [|eapply frame_mono; [exact F2|set_solver +]]. apply merged_equal; [lia|]. apply merged_nil; [|done]. by apply NoDup_app in Hnd' as (_ & _ & ?).
    + destruct (IH h head pTail ds (pRight ea) as_ b (b :: bs)) as (h2 & p & cs & E2 & S2 & M2 & F2); try done; [cbn [length]; lia|].
      exists h2, p, cs. split; [done|]. split; [exact S2|]. split; [|eapply frame_mono; [exact F2|set_solver +]]. apply merged_equal; [lia|done].
  - assert (HP : ds ++ (b :: bs) ++ a :: as_ ≡ₚ ds ++ (a :: as_) ++ b :: bs) by (apply Permutation_app_head, Permutation_app_comm).
    rewrite <- HP in Hnd. destruct (take_step h head pTail ds b bs eb (a :: as_) Ht Hnd Hbne Eb HB') as (h1 & hd1 & -> & F1 & E1 & T1 & S1). cbn [mbind option_bind].
    rewrite E1. cbn [mbind option_bind].
    assert (Hba : forall x, x ∈ vals h (a :: as_) -> row_value h b < x) by (intros x [->|Hx]%elem_of_cons; [lia|]; specialize (La x Hx); lia).
    assert (SA : seg h1 a (a :: as_) 0) by (eapply seg_frame_app; [exact F1|exact Hnd| |exact HA]; set_solver +).
    assert (Hnd' : NoDup ((ds ++ [b]) ++ bs ++ a :: as_)) by (by rewrite <- app_assoc).
    assert (Hndb : NoDup (b :: bs ++ a :: as_)) by (by apply NoDup_app in Hnd as (_ & _ & ?)).
    rewrite (seg_null _ _ _ S1). case_bool_decide as Hn.
    + subst bs. destruct (take_rest h1 hd1 (Some b) (ds ++ [b]) a (a :: as_) T1 Hnd' SA) as (h2 & hd2 & E2 & F2 & S2). exists h2, hd2, (b :: a :: as_). split; [done|].
      rewrite <- app_assoc in S2. split; [exact S2|]. split; [|eapply frame_trans; [exact F1|exact F2|set_solver +..]].
      apply merged_sym, merged_less; [done|done|done|]. apply merged_nil; [by apply NoDup_cons in Hndb as [_ ?]|done].
    + destruct (IH h1 hd1 (Some b) (ds ++ [b]) a (a :: as_) (pRight eb) bs) as (h2 & p & cs & E2 & S2 & M2 & F2); try done;
        [rewrite (Permutation_app_comm (a :: as_) bs); done|by rewrite (frame_vals _ _ _ _ F1)|by rewrite (frame_vals _ _ _ _ F1)|cbn [length]; lia|].
      exists h2, p, (b :: cs). split; [done|]. rewrite <- app_assoc in S2. split; [exact S2|]. split; [|eapply frame_trans; [exact F1|exact F2|set_solver +..]].
      apply merged_sym, merged_less; [done|done|done|]. apply merged_sym. by eapply merged_frame.
Qed.

(** A list that is sorted and without duplicates. *)
Definition slist (h : entries) (p : Z) (ps : list Z) : Prop := seg h p ps 0 /\ ascending (vals h ps).

Lemma slist_frame ds h h' p ps : frame ds h h' -> (forall x, x ∈ ps -> x ∉ ds) -> slist h p ps -> slist h' p ps.
Proof. intros Hf Hd [Hs Ha]. split; [by eapply seg_frame|by rewrite (frame_vals _ _ _ _ Hf)]. Qed.

Lemma merge_ok h pA as_ pB bs : slist h pA as_ -> slist h pB bs -> as_ <> [] -> bs <> [] -> NoDup (as_ ++ bs) ->
  exists h' p cs, rowSetEntryMerge h pA pB = Some (h', p) /\ slist h' p cs /\ cs <> [] /\ merged_list h cs as_ bs /\ frame (as_ ++ bs) h h'.
Proof.
  intros [HA Sa] [HB Sb] Ha Hb Hnd. unfold rowSetEntryMerge.
  assert (Hsz : (length (as_ ++ bs) <= size h)%nat).
  { apply live_size; [done|]. intros x [Hx|Hx]%elem_of_app; [by destruct (seg_live _ _ _ _ _ HA Hx)|by destruct (seg_live _ _ _ _ _ HB Hx)]. }
  rewrite length_app in Hsz.
  destruct (merge_loop_ok (S (size h)) h 0 None [] pA as_ pB bs) as (h' & p & cs & E & Hs & HM & Hf); try done; [lia|].
  exists h', p, cs. destruct HM as (Hn & Hsub & Hasc & He). split; [done|]. split; [split; [done|by rewrite (frame_vals _ _ _ _ Hf)]|]. split; [|done].
  intros ->. destruct as_ as [|a as_]; [done|]. assert (Hx : row_value h a ∈ vals h []) by (apply He; left; set_solver +). by apply not_elem_of_nil in Hx.
Qed.

(** ** Sorting *)

(** The buckets as a binary counter. *)
Fixpoint weight (l : list Z) : Z := match l with [] => 0 | b :: l => (if b =? 0 then 0 else 1) + 2 * weight l end.

(** The lists of the buckets. *)
Definition buckets (h : entries) (l : list Z) (bk : list (list Z)) : Prop := Forall2 (slist h) l bk /\ NoDup (concat bk).

Lemma buckets_frame ds h h' l bk : frame ds h h' -> (forall x, x ∈ concat bk -> x ∉ ds) -> buckets h l bk -> buckets h' l bk.
Proof.
  intros Hf Hd [Hb Hn]. split; [|done]. clear Hn. induction Hb as [|p ps l bk Hp Hb IH]; [constructor|]. cbn [concat] in Hd. constructor.
  - eapply slist_frame; [exact Hf| |exact Hp]. intros x Hx. apply Hd. set_solver + Hx.
  - apply IH. intros x Hx. apply Hd. set_solver + Hx.
Qed.

Lemma buckets_cons h p l bk : buckets h (p :: l) bk -> exists ps bk', bk = ps :: bk' /\ slist h p ps /\ buckets h l bk' /\ NoDup (ps ++ concat bk').
Proof.
  intros [Hb Hn]. apply Forall2_cons_inv_l in Hb as (ps & bk' & Hp & Hb & ->). cbn [concat] in Hn. exists ps, bk'. split_and!; try done. split; [done|].
  by apply NoDup_app in Hn as (_ & _ & ?).
Qed.

Lemma buckets_intro h p ps l bk : slist h p ps -> buckets h l bk -> NoDup (ps ++ concat bk) -> buckets h (p :: l) (ps :: bk).
Proof. intros Hp [Hb _] Hn. split; [by constructor|done]. Qed.

Lemma slist_nil h : slist h 0 [].
Proof. split; [done|constructor]. Qed.

Lemma weight_nonneg l : 0 <= weight l.
Proof. induction l as [|b l IH]; cbn [weight]; [lia|]. destruct (b =? 0); lia. Qed.

(** A list is added to the buckets from [i] on. *)
Lemma carry_ok suf : forall fuel h pre pIn ins bk, (length suf < fuel)%nat -> buckets h suf bk -> slist h pIn ins -> ins <> [] -> NoDup (ins ++ concat bk) ->
  weight suf + 1 < 2 ^ Z.of_nat (length suf) ->
  exists h' suf' bk', carry_loop fuel h (pre ++ suf) (alen pre) pIn = Some (h', pre ++ suf') /\ length suf' = length suf /\ weight suf' = weight suf + 1 /\
    buckets h' suf' bk' /\ concat bk' ⊆ ins ++ concat bk /\ (forall x, x ∈ vals h (concat bk') <-> x ∈ vals h ins \/ x ∈ vals h (concat bk)) /\
    frame (ins ++ concat bk) h h'.
Proof.
  induction suf as [|b suf IH]; intros fuel h pre pIn ins bk Hfu Hb Hi Hne Hnd Hw; [cbn in Hw; lia|]. destruct fuel as [|fuel]; [lia|]. cbn [length] in Hfu.
  apply buckets_cons in Hb as (ps & bk' & -> & Hp & Hb & Hn). cbn [concat] in Hnd |- *. cbn [carry_loop]. rewrite aget_at. cbn [mbind option_bind].
  rewrite (seg_null _ _ _ (proj1 Hp)). case_bool_decide as Hz.
  - subst ps. destruct Hp as [E0 _]. cbn [seg] in E0. subst b. rewrite aset_at. cbn [mbind option_bind]. exists h, (pIn :: suf), (ins :: bk'). cbn [app] in Hnd.
    destruct Hi as [Hsi Hai]. pose proof (seg_null _ _ _ Hsi) as Hpz. rewrite bool_decide_eq_false_2 in Hpz by done. split_and!; [done|done| | |done| |apply frame_refl].
    + cbn [weight]. rewrite Hpz. cbn [Z.eqb]. lia.
    + by apply buckets_intro.
    + intros x. cbn [concat app]. unfold vals. rewrite map_app, elem_of_app. done.
  - pose proof (Permutation_app_swap_app ins ps (concat bk')) as HP. rewrite HP in Hnd. rewrite app_assoc in Hnd. pose proof Hnd as (Hnm & Hdis & _)%NoDup_app.
    destruct (merge_ok h b ps pIn ins Hp Hi Hz Hne Hnm) as (h1 & p & cs & -> & Hc & Hc0 & (Mn & Ms & _ & Me) & F1). cbn [mbind option_bind]. rewrite aset_at. cbn [mbind option_bind].
    replace (pre ++ 0 :: suf) with ((pre ++ [0]) ++ suf) by (by rewrite <- app_assoc). replace (alen pre + 1) with (alen (pre ++ [0])) by (rewrite alen_app; done).
    assert (Hb1 : buckets h1 suf bk') by (eapply buckets_frame; [exact F1| |exact Hb]; intros x Hx Hx2; by apply (Hdis x Hx2)).
    assert (Hnc : NoDup (cs ++ concat bk')).
    { apply NoDup_app. split_and!; [done| |by destruct Hb]. intros x Hx. by apply Hdis, Ms. }
    assert (Hw' : weight suf + 1 < 2 ^ Z.of_nat (length suf)).
    { cbn [weight length] in Hw. rewrite Nat2Z.inj_succ, Z.pow_succ_r in Hw by lia. rewrite (seg_null _ _ _ (proj1 Hp)), bool_decide_eq_false_2 in Hw by done. lia. }
    destruct (IH fuel h1 (pre ++ [0]) p cs bk' ltac:(lia) Hb1 Hc Hc0 Hnc Hw') as (h2 & suf' & bk2 & -> & El & Ew & Hb2 & Hs2 & He2 & F2).
    exists h2, (0 :: suf'), ([] :: bk2). rewrite !(frame_vals _ _ _ _ F1) in He2. split_and!.
    + by rewrite <- app_assoc.
    + cbn [length]. lia.
    + cbn [weight]. rewrite Ew, (seg_null _ _ _ (proj1 Hp)), bool_decide_eq_false_2 by done. cbn [Z.eqb]. lia.
    + apply buckets_intro; [apply slist_nil|done|]. by destruct Hb2.
    + cbn [concat app]. set_solver + Hs2 Ms.
    + intros x. cbn [concat app]. unfold vals in *. rewrite map_app, elem_of_app, He2, Me. tauto.
    + eapply frame_trans; [exact F1|exact F2|set_solver +|set_solver + Ms].
Qed.

Lemma vals_app h a b : vals h (a ++ b) = vals h a ++ vals h b.
Proof. apply map_app. Qed.

Lemma sort_in_ok rs : forall fuel h l bk pIn, (length rs < fuel)%nat -> length l = 40%nat -> buckets h l bk -> seg h pIn rs 0 -> NoDup (rs ++ concat bk) ->
  weight l + Z.of_nat (length rs) < 2 ^ 40 ->
  exists h' l' bk', sort_in fuel h l pIn = Some (h', l') /\ length l' = 40%nat /\ buckets h' l' bk' /\ concat bk' ⊆ rs ++ concat bk /\
    (forall x, x ∈ vals h (concat bk') <-> x ∈ vals h rs \/ x ∈ vals h (concat bk)) /\ frame (rs ++ concat bk) h h'.
Proof.
  induction rs as [|a rs IH]; intros fuel h l bk pIn Hfu Hl Hb Hs Hnd Hw; (destruct fuel as [|fuel]; [lia|]); cbn [sort_in].
  - cbn [seg] in Hs. subst pIn. cbn [Z.eqb]. exists h, l, bk. split_and!; try done. intros x. split; [by right|]. intros [Hx|Hx]; [by apply not_elem_of_nil in Hx|done].
  - destruct Hs as (-> & H0 & e & E & Hs). cbn [length] in Hfu, Hw. replace (a =? 0) with false by (symmetry; by apply Z.eqb_neq). rewrite E. cbn [mbind option_bind].
    destruct (set_right_ok 0 a h e E) as (h1 & -> & F1 & E1). cbn [mbind option_bind]. cbn [app] in Hnd. apply NoDup_cons in Hnd as [Hna Hnd]. rewrite not_elem_of_app in Hna. destruct Hna as [Hna1 Hna2].
    assert (Hb1 : buckets h1 l bk) by (eapply buckets_frame; [exact F1| |exact Hb]; intros x Hx ->%list_elem_of_singleton; by apply Hna2).
    assert (Hs1 : seg h1 (pRight e) rs 0) by (eapply seg_frame; [exact F1| |exact Hs]; intros x Hx ->%list_elem_of_singleton; by apply Hna1).
    assert (Ha1 : slist h1 a [a]) by (split; [cbn [seg]; split_and!; try done; by eexists|repeat constructor]).
    pose proof Hnd as (Hndr & Hdis & Hndb)%NoDup_app.
    destruct (carry_ok l 41 h1 [] a [a] bk) as (h2 & l2 & bk2 & E2 & El2 & Ew2 & Hb2 & Hsub2 & He2 & F2); try done; [lia| | |].
    + apply NoDup_app. split_and!; [apply NoDup_singleton| |done]. intros x ->%list_elem_of_singleton. by apply Hna2.
    + rewrite Hl. change (Z.of_nat 40) with 40. lia.
    + cbn [app] in E2. change (alen []) with 0 in E2. rewrite E2. cbn [mbind option_bind]. rewrite Hl in El2.
      assert (Hs2 : seg h2 (pRight e) rs 0).
      { eapply seg_frame; [exact F2| |exact Hs1]. intros x Hx [->%list_elem_of_singleton|Hx2]%elem_of_app; [by apply Hna1|by apply (Hdis x Hx)]. }
      assert (Hnd2 : NoDup (rs ++ concat bk2)).
      { apply NoDup_app. split_and!; [done| |by destruct Hb2]. intros x Hx Hx2. apply Hsub2 in Hx2. apply elem_of_app in Hx2 as [->%list_elem_of_singleton|Hx2]; [by apply Hna1|by apply (Hdis x Hx)]. }
      destruct (IH fuel h2 l2 bk2 (pRight e) ltac:(lia) El2 Hb2 Hs2 Hnd2 ltac:(lia)) as (h3 & l3 & bk3 & E3 & El3 & Hb3 & Hsub3 & He3 & F3).
      exists h3, l3, bk3. rewrite !(frame_vals _ _ _ _ F1) in He2. rewrite !(frame_vals _ _ _ _ F2), !(frame_vals _ _ _ _ F1) in He3. split_and!; try done.
      * set_solver + Hsub2 Hsub3.
      * intros x. rewrite He3, He2, !vals_cons, !elem_of_cons. pose proof (not_elem_of_nil x). cbn [vals map] in *. tauto.
      * assert (F13 : frame (a :: rs ++ concat bk) h1 h3) by (eapply frame_trans; [exact F2|exact F3|set_solver +|set_solver + Hsub2]).
        eapply frame_trans; [exact F1|exact F13|set_solver +|set_solver +].
Qed.

(** [slist] of all buckets. *)
Lemma sort_out_ok l : forall h p ps bk, slist h p ps -> buckets h l bk -> NoDup (ps ++ concat bk) ->
  exists h' q qs, sort_out h p l = Some (h', q) /\ slist h' q qs /\ NoDup qs /\ qs ⊆ ps ++ concat bk /\
    (forall x, x ∈ vals h qs <-> x ∈ vals h ps \/ x ∈ vals h (concat bk)) /\ frame (ps ++ concat bk) h h'.
Proof.
  induction l as [|b l IH]; intros h p ps bk Hp Hb Hnd; cbn [sort_out].
  - destruct Hb as [Hb _]. apply Forall2_nil_inv_l in Hb as ->. cbn [concat] in *. rewrite app_nil_r in *. exists h, p, ps. split_and!; try done.
    intros x. split; [by left|]. intros [Hx|Hx]; [done|by apply not_elem_of_nil in Hx].
  - apply buckets_cons in Hb as (bs & bk' & -> & Hbs & Hb & Hn). cbn [concat] in *. rewrite (seg_null _ _ _ (proj1 Hbs)), (seg_null _ _ _ (proj1 Hp)).
    case_bool_decide as Hz; [subst bs; cbn [app] in *; by apply IH|]. case_bool_decide as Hz2; cbn [negb mbind option_bind].
    + subst ps. cbn [app] in *. destruct (IH h b bs bk' Hbs Hb Hn) as (h' & q & qs & E & Hq & Hnq & Hsub & He & Hf). exists h', q, qs. split_and!; try done.
      intros x. rewrite He, vals_app, elem_of_app. pose proof (not_elem_of_nil x). cbn [vals map]. tauto.
    + rewrite app_assoc in Hnd. pose proof Hnd as (Hnm & Hdis & _)%NoDup_app.
      destruct (merge_ok h p ps b bs Hp Hbs Hz2 Hz Hnm) as (h1 & c & cs & -> & Hc & Hc0 & (Mn & Ms & _ & Me) & F1). cbn [mbind option_bind].
      assert (Hb1 : buckets h1 l bk') by (eapply buckets_frame; [exact F1| |exact Hb]; intros x Hx Hx2; by apply (Hdis x Hx2)).
      assert (Hnc : NoDup (cs ++ concat bk')) by (apply NoDup_app; split_and!; [done| |by destruct Hb]; intros x Hx; by apply Hdis, Ms).
      destruct (IH h1 c cs bk' Hc Hb1 Hnc) as (h' & q & qs & E & Hq & Hnq & Hsub & He & Hf). exists h', q, qs. rewrite !(frame_vals _ _ _ _ F1) in He.
      split_and!; try done; [set_solver + Hsub Ms| |eapply frame_trans; [exact F1|exact Hf|set_solver +|set_solver + Ms]].
      intros x. rewrite He, Me, vals_app, elem_of_app. tauto.
Qed.

Lemma buckets_empty h n : buckets h (replicate n 0) (replicate n []).
Proof.
  split; [induction n; constructor; [apply slist_nil|done]|]. replace (concat (replicate n [])) with (@nil Z); [constructor|]. by induction n.
Qed.

Lemma weight_zero n : weight (replicate n 0) = 0.
Proof. induction n as [|n IH]; [done|]. cbn [replicate weight]. rewrite IH. done. Qed.

(** Sorting keeps the set of values. *)
Lemma sort_ok h p ps : seg h p ps 0 -> NoDup ps -> Z.of_nat (length ps) < 2 ^ 40 ->
  exists h' q qs, rowSetEntrySort h p = Some (h', q) /\ slist h' q qs /\ NoDup qs /\ qs ⊆ ps /\ (forall x, x ∈ vals h qs <-> x ∈ vals h ps) /\ frame ps h h'.
Proof.
  intros Hs Hnd Hl. unfold rowSetEntrySort. assert (Hsz : (length ps <= size h)%nat) by (apply live_size; [done|]; intros x Hx; by destruct (seg_live _ _ _ _ _ Hs Hx)).
  assert (Ec : concat (replicate 40 []) = @nil Z) by done.
  destruct (sort_in_ok ps (S (size h)) h (replicate 40 0) (replicate 40 []) p) as (h1 & l & bk & -> & El & Hb & Hsub & He & F1);
    [lia|done|apply buckets_empty|done|by rewrite Ec, app_nil_r|by rewrite weight_zero|]. rewrite Ec, app_nil_r in *. cbn [mbind option_bind].
  destruct l as [|b l]; [done|]. change (aget (b :: l) 0) with (Some b). change (drop 1 (b :: l)) with l. cbn [mbind option_bind].
  apply buckets_cons in Hb as (bs & bk' & -> & Hbs & Hb & Hn). cbn [concat] in Hsub, He.
  destruct (sort_out_ok l h1 b bs bk' Hbs Hb Hn) as (h' & q & qs & -> & Hq & Hnq & Hsub' & He' & F2). exists h', q, qs. rewrite !(frame_vals _ _ _ _ F1) in He'.
  split_and!; try done; [set_solver + Hsub Hsub'| |eapply frame_trans; [exact F1|exact F2|done|done]].
  intros x. rewrite He'. rewrite vals_app in He. specialize (He x). rewrite elem_of_app in He. pose proof (not_elem_of_nil x). cbn [vals map] in He. tauto.
Qed.
