(* ===== verification/RowTree.v ===== *)
(** * The trees of row sets

    The conversions of [src/rowset.c] between sorted lists and binary trees, in
    place: [rowSetListToTree] builds a balanced search tree of the entries of a
    list, [rowSetTreeToList] takes it apart again, and the search of
    [sqlite3RowSetTest] finds exactly the values in it. *)
From S2P Require Import Prelude RowSet RowList.

(** The shape of a tree with the addresses of its entries. *)
Inductive shape : Type := Leaf | Node (l : shape) (a : Z) (r : shape).

Fixpoint inorder (t : shape) : list Z := match t with Leaf => [] | Node l a r => inorder l ++ a :: inorder r end.

Fixpoint height (t : shape) : nat := match t with Leaf => 0 | Node l _ r => S (Nat.max (height l) (height r)) end.

(** The tree in the heap whose root is [p]. *)
Fixpoint tree (h : entries) (p : Z) (t : shape) : Prop :=
  match t with
  | Leaf => p = 0
  | Node l a r => p = a /\ a <> 0 /\ exists e, h !! a = Some e /\ tree h (pLeft e) l /\ tree h (pRight e) r
  end.

Lemma tree_outside ds h h' t : outside ds h h' -> (forall x, x ∈ inorder t -> x ∉ ds) -> forall p, tree h p t -> tree h' p t.
Proof.
  intros Ho. induction t as [|l IHl a r IHr]; intros Hd p; [done|]. cbn [tree inorder] in *. intros (-> & H0 & e & E & Hl & Hr).
  split_and!; try done. exists e. split; [rewrite Ho; [done|apply Hd; set_solver +]|].
  split; [apply IHl|apply IHr]; try done; intros x Hx; apply Hd; set_solver + Hx.
Qed.

Lemma tree_frame ds h h' t : frame ds h h' -> (forall x, x ∈ inorder t -> x ∉ ds) -> forall p, tree h p t -> tree h' p t.
Proof. intros Hf. apply tree_outside, Hf. Qed.

Lemma tree_live h t : forall p x, tree h p t -> x ∈ inorder t -> x <> 0 /\ exists e, h !! x = Some e.
Proof.
  induction t as [|l IHl a r IHr]; intros p x Ht Hx; [by apply not_elem_of_nil in Hx|]. cbn [inorder tree] in *. destruct Ht as (-> & H0 & e & E & Hl & Hr).
  apply elem_of_app in Hx as [Hx|Hx]; [by eapply IHl|]. apply elem_of_cons in Hx as [->|Hx]; [split; [done|by exists e]|by eapply IHr].
Qed.

Lemma tree_null h p t : tree h p t -> (p =? 0) = bool_decide (inorder t = []).
Proof.
  destruct t as [|l a r]; cbn [tree inorder]; [intros ->; by rewrite bool_decide_eq_true_2|]. intros (-> & H0 & _).
  rewrite bool_decide_eq_false_2 by (by destruct (inorder l)). by apply Z.eqb_neq.
Qed.

Lemma inorder_nil t : inorder t = [] -> t = Leaf.
Proof. destruct t as [|l a r]; [done|]. cbn. by destruct (inorder l). Qed.

(** ** Search *)

Lemma ascending_app a b : ascending (a ++ b) <-> ascending a /\ ascending b /\ forall x y, x ∈ a -> y ∈ b -> x < y.
Proof.
  induction a as [|c a IH]; cbn [app].
  - split; [intros H; split_and!; [constructor|done|]; intros x y Hx; by apply not_elem_of_nil in Hx|tauto].
  - split.
    + intros [(Ha & Hb & Hab)%IH Hc]%ascending_cons_inv. split_and!; [apply ascending_cons; [done|]; intros y Hy; apply Hc; set_solver + Hy|done|].
      intros x y [->|Hx]%elem_of_cons Hy; [apply Hc; set_solver + Hy|by apply Hab].
    + intros ([Ha Hc]%ascending_cons_inv & Hb & Hab). apply ascending_cons; [apply IH; split_and!; [done|done|]; intros x y Hx Hy; apply Hab; [set_solver + Hx|done]|].
      intros y [Hy|Hy]%elem_of_app; [by apply Hc|apply Hab; [set_solver +|done]].
Qed.

Lemma tree_search_ok h iRowid t : forall fuel p, tree h p t -> (length (inorder t) < fuel)%nat -> ascending (vals h (inorder t)) ->
  tree_search fuel h p iRowid = Some (bool_decide (iRowid ∈ vals h (inorder t))).
Proof.
  induction t as [|l IHl a r IHr]; intros fuel p Ht Hfu Hs; (destruct fuel as [|fuel]; [lia|]); cbn [tree_search tree] in *.
  - subst p. done.
  - destruct Ht as (-> & H0 & e & E & Hl & Hr). replace (a =? 0) with false by (symmetry; by apply Z.eqb_neq). rewrite E. cbn [mbind option_bind inorder] in *.
    rewrite length_app in Hfu. cbn [length] in Hfu. rewrite vals_app, vals_cons, (value_entry h a e E) in Hs |- *.
    apply ascending_app in Hs as (Sl & [Sr Hra]%ascending_cons_inv & Hla). rewrite Z.gtb_ltb.
    destruct (Z.ltb_spec (v e) iRowid) as [H1|H1]; [|destruct (Z.ltb_spec iRowid (v e)) as [H2|H2]].
    + rewrite IHr by (done || lia). f_equal. apply bool_decide_ext. rewrite elem_of_app, elem_of_cons. split; [tauto|]. intros [Hx|[Hx|Hx]]; [|lia|done].
      specialize (Hla iRowid (v e) Hx ltac:(set_solver +)). lia.
    + rewrite IHl by (done || lia). f_equal. apply bool_decide_ext. rewrite elem_of_app, elem_of_cons. split; [tauto|]. intros [Hx|[Hx|Hx]]; [done|lia|].
      specialize (Hra iRowid Hx). lia.
    + rewrite bool_decide_eq_true_2; [done|]. replace iRowid with (v e) by lia. set_solver +.
Qed.

(** ** Trees to lists *)

Definition pp_target (pp : option Z) : list Z := match pp with Some q => [q] | None => [] end.

(** [*pp] is [first] now. *)
Definition stored (pp : option Z) (first : Z) (h h' : entries) (x x' : Z) : Prop :=
  match pp with
  | None => x' = first
  | Some q => x' = x /\ exists e, h !! q = Some e /\ h' !! q = Some (MkEntry (v e) first (pLeft e))
  end.

Lemma put_stored pp q h x : (forall p, p ∈ pp_target pp -> exists e, h !! p = Some e) ->
  exists h' x', put pp q h x = Some (h', x') /\ stored pp q h h' x x' /\ frame (pp_target pp) h h'.
Proof.
  intros Hp. destruct pp as [p|]; cbn [put pp_target stored] in *.
  - destruct (Hp p) as [e E]; [set_solver +|]. destruct (set_right_ok q p h e E) as (h' & -> & F & E'). eexists _, _. split; [done|]. split; [|done].
    split; [done|]. by exists e.
  - eexists _, _. split_and!; [done|done|apply frame_refl].
Qed.

Lemma stored_frame ds pp first h0 h h' x x' : stored pp first h0 h x x' -> frame ds h h' -> (forall q, q ∈ pp_target pp -> q ∉ ds) -> stored pp first h0 h' x x'.
Proof.
  intros Hs Hf Hd. destruct pp as [q|]; [|done]. destruct Hs as (-> & e & E & E'). split; [done|]. exists e. split; [done|].
  rewrite (fr_out _ _ _ Hf); [done|]. apply Hd. set_solver +.
Qed.

Lemma tree_to_list_ok t : forall fuel h aux pp p, tree h p t -> t <> Leaf -> NoDup (inorder t ++ pp_target pp) ->
  (forall q, q ∈ pp_target pp -> exists e, h !! q = Some e) -> (length (inorder t) <= fuel)%nat ->
  exists h' aux' first ls last, rowSetTreeToList fuel h aux pp p = Some (h', aux', last) /\ inorder t = ls ++ [last] /\ seg h' first (inorder t) 0 /\
    stored pp first h h' aux aux' /\ frame (inorder t ++ pp_target pp) h h'.
Proof.
  induction t as [|l IHl a r IHr]; intros fuel h aux pp p Ht Hne Hnd Hpp Hfu; [done|]. cbn [inorder tree] in *. rewrite length_app in Hfu. cbn [length] in Hfu.
  destruct fuel as [|fuel]; [lia|]. destruct Ht as (-> & H0 & e & E & Hl & Hr). cbn [rowSetTreeToList]. rewrite E. cbn [mbind option_bind].
  rewrite <- app_assoc in Hnd. cbn [app] in Hnd. pose proof Hnd as (Hnl & Hdl & Hnr)%NoDup_app. apply NoDup_cons in Hnr as [Har Hnr]. rewrite not_elem_of_app in Har. destruct Har as [Har Hap].
  pose proof Hnr as (Hndr & Hrp & _)%NoDup_app.
  (* the left subtree *)
  assert (HL : exists h1 aux1 first, (if negb (pLeft e =? 0) then '(h, pAux, p) ← rowSetTreeToList fuel h aux pp (pLeft e); h ← set_right a p h; Some (h, pAux) else put pp a h aux) = Some (h1, aux1) /\
    seg h1 first (inorder l) a /\ stored pp first h h1 aux aux1 /\ frame (inorder l ++ pp_target pp) h h1).
  { rewrite (tree_null _ _ _ Hl). case_bool_decide as Hz; cbn [negb].
    - rewrite Hz. destruct (put_stored pp a h aux Hpp) as (h1 & aux1 & -> & Hs & Hf). exists h1, aux1, a. done.
    - destruct (IHl fuel h aux pp (pLeft e) Hl) as (h1 & aux1 & first & ls & last & -> & El & Hs & Hst & Hf); [by intros ->| |done|lia|].
      { apply NoDup_app. split_and!; [done| |destruct pp; [apply NoDup_singleton|constructor]]. intros x Hx Hxp. apply (Hdl x Hx). set_solver + Hxp. }
      cbn [mbind option_bind]. rewrite El in Hs, Hnl. destruct (seg_relink h1 first ls last 0 a Hnl Hs) as (h2 & -> & F2 & Hs2). cbn [mbind option_bind]. rewrite <- El in Hs2.
      exists h2, aux1, first. split_and!; try done.
      + eapply stored_frame; [exact Hst|exact F2|]. intros q Hq ->%list_elem_of_singleton. apply (Hdl last); [rewrite El; set_solver +|set_solver + Hq].
      + eapply frame_trans; [exact Hf|exact F2|done|]. rewrite El. set_solver +. }
  destruct HL as (h1 & aux1 & first & -> & Hs1 & Hst1 & F1). cbn [mbind option_bind].
  assert (Hal : a ∉ inorder l ++ pp_target pp). { intros [Hx|Hx]%elem_of_app; [|done]. apply (Hdl a Hx). set_solver +. }
  assert (E1 : h1 !! a = Some e) by (by rewrite (fr_out _ _ _ F1)). rewrite E1. cbn [mbind option_bind].
  assert (Hr1 : tree h1 (pRight e) r).
  { eapply tree_frame; [exact F1| |exact Hr]. intros x Hx [Hx2|Hx2]%elem_of_app; [apply (Hdl x Hx2); set_solver + Hx|by apply (Hrp x Hx)]. }
  rewrite (tree_null _ _ _ Hr). case_bool_decide as Hz; cbn [negb].
  - exists h1, aux1, first, (inorder l), a. rewrite Hz. split_and!; try done.
    + apply seg_app. exists a. split; [done|]. cbn [seg]. split_and!; try done. exists e. split; [done|]. pose proof (tree_null _ _ _ Hr) as Hn. rewrite Hz in Hn. by apply Z.eqb_eq.
    + eapply frame_mono; [exact F1|]. set_solver +.
  - destruct (IHr fuel h1 aux1 (Some a) (pRight e) Hr1) as (h2 & aux2 & first2 & ls & last & -> & El & Hs2 & (-> & e2 & Ee2 & Ea2) & F2); [by intros ->| | |lia|].
    { cbn [pp_target]. apply NoDup_app. split_and!; [done| |apply NoDup_singleton]. by intros x Hx ->%list_elem_of_singleton. }
    { cbn [pp_target]. intros q ->%list_elem_of_singleton. by exists e. }
    cbn [pp_target] in F2. exists h2, aux1, first, (inorder l ++ a :: ls), last. split; [done|]. split; [by rewrite El, <- app_assoc|]. split_and!.
    + apply seg_app. exists a. split.
      * eapply seg_frame; [exact F2| |exact Hs1]. intros x Hx Hx2. apply (Hdl x Hx). set_solver + Hx2.
      * cbn [seg]. split_and!; try done. by eexists.
    + eapply stored_frame; [exact Hst1|exact F2|]. intros q Hq [Hx|Hx]%elem_of_app; [by apply (Hrp q Hx)|]. apply list_elem_of_singleton in Hx as ->. done.
    + eapply frame_trans; [exact F1|exact F2|set_solver +|set_solver +].
Qed.

(** ** Lists to trees *)

(** [p] alone becomes a tree. *)
Lemma single_ok h p e : p <> 0 -> h !! p = Some e ->
  exists h', (h ← set_right 0 p h; set_left 0 p h) = Some h' /\ tree h' p (Node Leaf p Leaf) /\ frame [p] h h'.
Proof.
  intros H0 E. destruct (set_right_ok 0 p h e E) as (h1 & -> & F1 & E1). cbn [mbind option_bind]. destruct (set_left_ok 0 p h1 _ E1) as (h2 & -> & F2 & E2).
  exists h2. split; [done|]. split; [cbn [tree]; split_and!; try done; by eexists|by eapply frame_trans].
Qed.

Lemma rowSetNDeepTree_step d h pList : rowSetNDeepTree (S (S d)) h pList =
  if pList =? 0 then Some (h, pList, 0)
  else
    '(h, pList, l) ← rowSetNDeepTree (S d) h pList;
    if pList =? 0 then Some (h, pList, l)
    else
      h' ← set_left l pList h;
      e ← h' !! pList;
      '(h', pList', r) ← rowSetNDeepTree (S d) h' (pRight e);
      h' ← set_right r pList h';
      Some (h', pList', pList).
Proof. reflexivity. Qed.

Lemma deep_tree_ok d : forall h p ps, seg h p ps 0 -> NoDup ps ->
  exists h' p' root t us rs, rowSetNDeepTree (S d) h p = Some (h', p', root) /\ ps = us ++ rs /\ seg h' p' rs 0 /\ tree h' root t /\ inorder t = us /\
    frame us h h' /\ (height t <= S d)%nat /\ (rs = [] \/ length us + 1 = 2 ^ S d)%nat.
Proof.
  induction d as [|d IH]; intros h p ps Hs Hnd.
  - cbn [rowSetNDeepTree]. destruct ps as [|a ps].
    { cbn [seg] in Hs. subst p. exists h, 0, 0, Leaf, [], []. split_and!; try done; [cbn; lia|by left]. }
    destruct Hs as (-> & H0 & e & E & Hs). replace (a =? 0) with false by (symmetry; by apply Z.eqb_neq). rewrite E. cbn [mbind option_bind].
    destruct (single_ok h a e H0 E) as (h' & E' & Ht & F). destruct (set_right 0 a h) as [h1|]; [|done]. cbn [mbind option_bind] in E' |- *. rewrite E'. cbn [mbind option_bind].
    exists h', (pRight e), a, (Node Leaf a Leaf), [a], ps. split_and!; try done; [| by right]. apply NoDup_cons in Hnd as [Hn _].
    eapply seg_frame; [exact F| |exact Hs]. by intros x Hx ->%list_elem_of_singleton.
  - rewrite rowSetNDeepTree_step, (seg_null _ _ _ Hs). case_bool_decide as Hz.
    { subst ps. cbn [seg] in Hs. subst p. exists h, 0, 0, Leaf, [], []. split_and!; try done; [cbn; lia|by left]. }
    destruct (IH h p ps Hs Hnd) as (h1 & p1 & lroot & tl & us & rs & -> & -> & Hs1 & Ht1 & El & F1 & Hh1 & Hc1). cbn [mbind option_bind]. rewrite (seg_null _ _ _ Hs1).
    case_bool_decide as Hz1.
    { subst rs. exists h1, p1, lroot, tl, us, []. split_and!; try done; [lia|by left]. }
    destruct rs as [|a rs]; [done|]. destruct Hs1 as (-> & H0 & e & E & Hs1). destruct (set_left_ok lroot a h1 e E) as (h2 & -> & F2 & E2). cbn [mbind option_bind].
    rewrite E2. cbn [mbind option_bind pRight]. apply NoDup_app in Hnd as (Hnu & Hdu & Hnr). apply NoDup_cons in Hnr as [Har Hnr].
    assert (Hs2 : seg h2 (pRight e) rs 0) by (eapply seg_frame; [exact F2| |exact Hs1]; by intros x Hx ->%list_elem_of_singleton).
    destruct (IH h2 (pRight e) rs Hs2 Hnr) as (h3 & p3 & rroot & tr & us2 & rs2 & -> & -> & Hs3 & Ht3 & Er & F3 & Hh3 & Hc3). cbn [mbind option_bind].
    apply not_elem_of_app in Har as [Ha2 Ha3]. assert (E3 : h3 !! a = Some (MkEntry (v e) (pRight e) lroot)) by (by rewrite (fr_out _ _ _ F3)).
    destruct (set_right_ok rroot a h3 _ E3) as (h4 & -> & F4 & E4). cbn [mbind option_bind v pLeft] in *.
    assert (Hua : forall x, x ∈ us -> (x ∉ [a]) /\ (x ∉ us2)) by (intros x Hx; specialize (Hdu x Hx); set_solver + Hdu). apply NoDup_app in Hnr as (Hn2 & Hd2 & _).
    exists h4, p3, a, (Node tl a tr), (us ++ a :: us2), rs2. split_and!.
    + done.
    + by rewrite <- app_assoc.
    + eapply seg_frame; [exact F4| |exact Hs3]. by intros x Hx ->%list_elem_of_singleton.
    + cbn [tree]. split_and!; try done. eexists. split; [exact E4|]. cbn [pLeft pRight]. split.
      * eapply (tree_frame _ h3); [exact F4|rewrite El; intros x Hx; by apply Hua|]. eapply (tree_frame _ h2); [exact F3|rewrite El; intros x Hx; by apply Hua|].
        eapply (tree_frame _ h1); [exact F2|rewrite El; intros x Hx; by apply Hua|exact Ht1].
      * eapply (tree_frame _ h3); [exact F4| |exact Ht3]. rewrite Er. by intros x Hx ->%list_elem_of_singleton.
    + cbn [inorder]. by rewrite El, Er.
    + assert (F24 : frame (a :: us2) h1 h4).
      { assert (F23 : frame (a :: us2) h1 h3) by (eapply frame_trans; [exact F2|exact F3|set_solver +|set_solver +]). eapply frame_trans; [exact F23|exact F4|done|set_solver +]. }
      eapply frame_trans; [exact F1|exact F24|set_solver +|set_solver +].
    + cbn [height]. lia.
    + destruct Hc3 as [->|Hc3]; [by left|]. destruct Hc1 as [?|Hc1]; [done|]. right. rewrite length_app. cbn [length]. rewrite (Nat.pow_succ_r' 2 (S d)). lia.
Qed.

(** Balanced: the height is at most one more than the logarithm of the number of
    entries. *)
Definition balanced (t : shape) : Prop := (2 ^ height t <= 2 * length (inorder t))%nat.

Lemma list_tree_loop_ok fuel : forall d h p t pList ps, (1 <= d)%nat -> tree h p t -> t <> Leaf -> seg h pList ps 0 -> NoDup (inorder t ++ ps) -> (length ps < fuel)%nat ->
  (height t <= d)%nat -> balanced t -> (ps = [] \/ length (inorder t) + 1 = 2 ^ d)%nat ->
  exists h' root t', list_tree_loop fuel d h p pList = Some (h', root) /\ tree h' root t' /\ inorder t' = inorder t ++ ps /\ frame (inorder t ++ ps) h h' /\ balanced t'.
Proof.
  induction fuel as [|fuel IH]; intros d h p t pList ps Hd Ht Hne Hs Hnd Hfu Hh Hbal Hc; [lia|]. cbn [list_tree_loop]. rewrite (seg_null _ _ _ Hs).
  case_bool_decide as Hz. { subst ps. exists h, p, t. rewrite app_nil_r. split_and!; try done. }
  destruct ps as [|a ps]; [done|]. destruct Hc as [?|Hc]; [done|]. destruct Hs as (-> & H0 & e & E & Hs). rewrite E. cbn [mbind option_bind].
  destruct (set_left_ok p a h e E) as (h1 & -> & F1 & E1). cbn [mbind option_bind]. apply NoDup_app in Hnd as (Hnt & Hdt & Hnr). apply NoDup_cons in Hnr as [Har Hnr].
  assert (Hs1 : seg h1 (pRight e) ps 0) by (eapply seg_frame; [exact F1| |exact Hs]; by intros x Hx ->%list_elem_of_singleton).
  destruct d as [|d]; [lia|]. destruct (deep_tree_ok d h1 (pRight e) ps Hs1 Hnr) as (h2 & p2 & rroot & tr & us & rs & -> & -> & Hs2 & Ht2 & Er & F2 & Hh2 & Hc2). cbn [mbind option_bind].
  apply not_elem_of_app in Har as [Ha2 Ha3]. assert (E2 : h2 !! a = Some (MkEntry (v e) (pRight e) p)) by (by rewrite (fr_out _ _ _ F2)).
  destruct (set_right_ok rroot a h2 _ E2) as (h3 & -> & F3 & E3). cbn [mbind option_bind v pLeft] in *. pose proof Hnr as (Hn2 & Hd2 & Hnrs)%NoDup_app.
  assert (Hta : forall x, x ∈ inorder t -> (x ∉ [a]) /\ (x ∉ us)) by (intros x Hx; specialize (Hdt x Hx); set_solver + Hdt).
  assert (F13 : frame (a :: us) h h3).
  { assert (F12 : frame (a :: us) h h2) by (eapply frame_trans; [exact F1|exact F2|set_solver +|set_solver +]). eapply frame_trans; [exact F12|exact F3|done|set_solver +]. }
  destruct (IH (S (S d)) h3 a (Node t a tr) p2 rs) as (h' & root & t' & E' & Ht' & Ei & F' & Hb'); try done.
  - lia.
  - cbn [tree]. split_and!; try done. eexists. split; [exact E3|]. cbn [pLeft pRight]. split.
    + eapply tree_frame; [exact F13| |exact Ht]. intros x Hx [->|Hx2]%elem_of_cons; destruct (Hta _ Hx) as [A B]; [set_solver + A|done].
    + eapply (tree_frame _ h2); [exact F3| |exact Ht2]. rewrite Er. by intros x Hx ->%list_elem_of_singleton.
  - eapply seg_frame; [exact F3| |exact Hs2]. by intros x Hx ->%list_elem_of_singleton.
  - cbn [inorder]. rewrite Er, <- app_assoc. cbn [app]. apply NoDup_app. split_and!; [done|done|]. constructor; [by rewrite not_elem_of_app|done].
  - cbn [length] in Hfu. rewrite length_app in Hfu. lia.
  - cbn [height]. lia.
  - unfold balanced. cbn [height inorder]. rewrite length_app. cbn [length]. assert (Hm : (Nat.max (height t) (height tr) <= S d)%nat) by lia.
    rewrite Nat.pow_succ_r'. pose proof (Nat.pow_le_mono_r 2 _ _ ltac:(lia) Hm). lia.
  - destruct Hc2 as [->|Hc2]; [by left|]. right. cbn [inorder]. rewrite length_app, Er. cbn [length]. rewrite (Nat.pow_succ_r' 2 (S d)). lia.
  - exists h', root, t'. cbn [inorder] in Ei, F'. rewrite Er in Ei, F'. rewrite <- app_assoc in Ei, F'. cbn [app] in Ei, F'. split_and!; try done.
    eapply frame_trans; [exact F13|exact F'|set_solver +|set_solver +].
Qed.

Lemma list_to_tree_ok h p ps : seg h p ps 0 -> ps <> [] -> NoDup ps ->
  exists h' root t, rowSetListToTree h p = Some (h', root) /\ tree h' root t /\ inorder t = ps /\ frame ps h h' /\ balanced t.
Proof.
  intros Hs Hne Hnd. unfold rowSetListToTree. destruct ps as [|a ps]; [done|]. pose proof Hs as (-> & H0 & e & E & Hs'). rewrite E. cbn [mbind option_bind].
  destruct (single_ok h a e H0 E) as (h1 & E1 & Ht & F1). destruct (set_right 0 a h) as [h0|]; [|done]. cbn [mbind option_bind] in E1 |- *. rewrite E1. cbn [mbind option_bind].
  pose proof Hnd as [Hna Hnp]%NoDup_cons.
  assert (Hs1 : seg h1 (pRight e) ps 0) by (eapply seg_frame; [exact F1| |exact Hs']; by intros x Hx ->%list_elem_of_singleton).
  assert (Hsz : (length (a :: ps) <= size h)%nat) by (apply live_size; [done|]; intros x Hx; by destruct (seg_live _ _ _ _ _ Hs Hx)). cbn [length] in Hsz.
  rewrite (frame_size _ _ _ F1).
  destruct (list_tree_loop_ok (S (size h)) 1 h1 a (Node Leaf a Leaf) (pRight e) ps) as (h' & root & t & E' & Ht' & Ei & F' & Hb); try done; [lia|unfold balanced; cbn; lia|by right|].
  exists h', root, t. cbn [inorder app] in *. split_and!; try done. eapply frame_trans; [exact F1|exact F'|set_solver +|done].
Qed.
