(* ===== verification/RowForest.v ===== *)
(** * The forest of row sets

    The list of trees that [sqlite3RowSetTest] of [src/rowset.c] searches: the
    loop that adds a sorted list to the forest, merging the trees it passes, and
    the search through all trees. *)
From S2P Require Import Prelude RowSet RowList RowTree.

(** A node of the forest with its tree. *)
Abbreviation node := (Z * shape)%type.

Definition nodes (fs : list node) : list Z := map fst fs.
Definition fents (fs : list node) : list Z := concat (map (fun x => inorder (snd x)) fs).
Definition emptied (fs : list node) : list node := map (fun x => (fst x, Leaf)) fs.

Definition node_ok (h : entries) (x : node) : Prop :=
  exists e, h !! fst x = Some e /\ tree h (pLeft e) (snd x) /\ ascending (vals h (inorder (snd x))) /\ (snd x = Leaf \/ balanced (snd x)).

Definition forest (h : entries) (p : Z) (fs : list node) : Prop :=
  seg h p (nodes fs) 0 /\ Forall (node_ok h) fs /\ NoDup (nodes fs ++ fents fs).

(** [ppPrevTree] after the nodes [fs]. *)
Fixpoint final (prev : option Z) (fs : list node) : option Z := match fs with [] => prev | x :: fs => final (Some (fst x)) fs end.

Lemma fents_cons x fs : fents (x :: fs) = inorder (snd x) ++ fents fs.
Proof. done. Qed.

Lemma nodes_cons x fs : nodes (x :: fs) = fst x :: nodes fs.
Proof. done. Qed.

Lemma forest_outside ds h h' p fs : outside ds h h' -> (forall y, y ∈ nodes fs ++ fents fs -> y ∉ ds) -> forest h p fs -> forest h' p fs.
Proof.
  intros Ho Hd (Hs & Hf & Hn). split_and!; [|clear Hs Hn|done].
  - eapply seg_outside; [exact Ho| |exact Hs]. intros x Hx. apply Hd. set_solver + Hx.
  - induction Hf as [|x fs (e & E & Ht & Ha & Hb) Hf IH]; constructor.
    + assert (Hi : forall y, y ∈ inorder (snd x) -> y ∉ ds) by (intros y Hy; apply Hd; rewrite fents_cons; set_solver + Hy).
      exists e. split_and!; [rewrite Ho; [done|apply Hd; rewrite nodes_cons; set_solver +]|by eapply tree_outside|by rewrite (vals_outside _ _ _ _ Ho Hi)|done].
    + apply IH. intros y Hy. apply Hd. rewrite fents_cons, nodes_cons. set_solver + Hy.
Qed.

Lemma forest_frame ds h h' p fs : frame ds h h' -> (forall y, y ∈ nodes fs ++ fents fs -> y ∉ ds) -> forest h p fs -> forest h' p fs.
Proof. intros Hf. apply forest_outside, Hf. Qed.

Lemma forest_cons h p x fs : forest h p (x :: fs) <->
  p = fst x /\ p <> 0 /\ node_ok h x /\ (exists e, h !! p = Some e /\ forest h (pRight e) fs) /\ NoDup (nodes (x :: fs) ++ fents (x :: fs)).
Proof.
  unfold forest. rewrite !nodes_cons. cbn [seg]. rewrite Forall_cons. split.
  - intros ((-> & H0 & e & E & Hs) & [Hx Ho] & Hn). split_and!; try done. exists e. split_and!; try done. rewrite fents_cons in Hn. cbn [app] in Hn.
    apply NoDup_cons in Hn as [_ Hn]. apply NoDup_app in Hn as (H1 & H2 & [_ [_ H3]]%NoDup_app). apply NoDup_app. split_and!; try done.
    intros y Hy Hy2. apply (H2 y Hy). set_solver + Hy2.
  - intros (-> & H0 & Hx & (e & E & Hs & Ho & _) & Hn). split_and!; try done. by exists e.
Qed.

(** ** Search *)

Lemma forest_search_ok h iRowid fs : forall fuel p, forest h p fs -> (length fs < fuel)%nat ->
  forest_search fuel h p iRowid = Some (if bool_decide (iRowid ∈ vals h (fents fs)) then 1 else 0).
Proof.
  induction fs as [|x fs IH]; intros fuel p Hf Hfu; (destruct fuel as [|fuel]; [lia|]); cbn [forest_search].
  - destruct Hf as (-> & _ & _). cbn [Z.eqb]. by rewrite bool_decide_eq_false_2 by apply not_elem_of_nil.
  - apply forest_cons in Hf as (-> & H0 & (e & E & Ht & Ha & _) & (e' & E' & Hf) & Hn). rewrite E in E'. injection E' as <-. cbn [length] in Hfu.
    replace (fst x =? 0) with false by (symmetry; by apply Z.eqb_neq). rewrite E. cbn [mbind option_bind]. rewrite fents_cons in *.
    assert (Hsz : (length (inorder (snd x)) <= size h)%nat).
    { apply live_size; [by apply NoDup_app in Hn as (_ & _ & [? _]%NoDup_app)|]. intros y Hy. by destruct (tree_live _ _ _ _ Ht Hy). }
    rewrite (tree_search_ok h iRowid (snd x)) by (done || lia). cbn [mbind option_bind]. rewrite vals_app.
    destruct (bool_decide (iRowid ∈ vals h (inorder (snd x)))) eqn:Hin; [apply bool_decide_eq_true in Hin|apply bool_decide_eq_false in Hin].
    + rewrite bool_decide_eq_true_2; [done|]. set_solver + Hin.
    + rewrite (IH fuel (pRight e) Hf) by lia. f_equal. erewrite bool_decide_ext; [done|]. rewrite elem_of_app. tauto.
Qed.

(** ** Adding a list *)

Lemma node_nonempty h x e : node_ok h x -> h !! fst x = Some e -> (pLeft e =? 0) = bool_decide (inorder (snd x) = []).
Proof. intros (e' & E' & Ht & _) E. rewrite E in E'. injection E' as <-. by eapply tree_null. Qed.

(** The loop stops at a node without a tree, which gets the list, or empties all
    nodes into the list. *)
Definition added (h h' : entries) (pTree pT' p' : Z) (prev prev' : option Z) (fs : list node) (ps : list Z) : Prop :=
  (pT' <> 0 /\ exists fs', forest h' pTree fs' /\ nodes fs' = nodes fs /\ fents fs' ⊆ fents fs ++ ps /\
     forall x, x ∈ vals h (fents fs') <-> x ∈ vals h ps \/ x ∈ vals h (fents fs)) \/
  (pT' = 0 /\ prev' = final prev fs /\ exists ps', forest h' pTree (emptied fs) /\ slist h' p' ps' /\ ps' <> [] /\ NoDup ps' /\ ps' ⊆ fents fs ++ ps /\
     forall x, x ∈ vals h ps' <-> x ∈ vals h ps \/ x ∈ vals h (fents fs)).

Lemma emptied_nodes fs : nodes (emptied fs) = nodes fs.
Proof. unfold nodes, emptied. rewrite map_map. done. Qed.

Lemma emptied_fents fs : fents (emptied fs) = [].
Proof. induction fs as [|x fs IH]; [done|]. exact IH. Qed.

(** Entering the first node. *)
Lemma node_entered h x fs p : forest h p (x :: fs) -> exists e, h !! fst x = Some e /\ p = fst x /\ fst x <> 0 /\ tree h (pLeft e) (snd x) /\
  forest h (pRight e) fs /\ ascending (vals h (inorder (snd x))) /\ NoDup (fst x :: nodes fs ++ inorder (snd x) ++ fents fs).
Proof. intros (-> & H0 & (e & E & Ht & Ha & _) & (e' & E' & Hf) & Hn)%forest_cons. rewrite E in E'. injection E' as <-. exists e. by split_and!. Qed.

(** A node with a new tree in front of nodes that did not change. *)
Lemma node_replaced h x fs e t : h !! x = Some e -> x <> 0 -> tree h (pLeft e) t -> ascending (vals h (inorder t)) -> (t = Leaf \/ balanced t) -> forest h (pRight e) fs ->
  NoDup (x :: nodes fs ++ inorder t ++ fents fs) -> forest h x ((x, t) :: fs).
Proof.
  intros E H0 Ht Ha Hb Hf Hn. apply forest_cons. cbn [fst]. split_and!; [done|done|exists e; by split_and!|by exists e|done].
Qed.

(** A list becomes the tree of a node that has none. *)
Lemma place_ok h a e fs p ps : h !! a = Some e -> a <> 0 -> forest h (pRight e) fs -> slist h p ps -> ps <> [] -> NoDup (a :: nodes fs ++ fents fs ++ ps) ->
  exists h1 root h2 t, rowSetListToTree h p = Some (h1, root) /\ set_left root a h1 = Some h2 /\ frame (a :: ps) h h2 /\ forest h2 a ((a, t) :: fs) /\ inorder t = ps.
Proof.
  intros E H0 Hf Hp Hne [Hna Hnd]%NoDup_cons. rewrite !not_elem_of_app in Hna. destruct Hna as (Ha1 & Ha3 & Ha4).
  apply NoDup_app in Hnd as (Hnn & Hdn & (Hnf & Hdf & Hnp)%NoDup_app).
  destruct (list_to_tree_ok h p ps (proj1 Hp) Hne Hnp) as (h1 & root & t & -> & Ht1 & Ei & F1 & Hb1).
  assert (E1 : h1 !! a = Some e) by (by rewrite (fr_out _ _ _ F1)). destruct (set_left_ok root a h1 e E1) as (h2 & Es & F2 & E2).
  assert (F12 : frame (a :: ps) h h2) by (eapply frame_trans; [exact F1|exact F2|set_solver +|set_solver +]).
  exists h1, root, h2, t. split; [done|]. split; [done|]. split; [done|]. split; [|done]. eapply node_replaced; [exact E2|done| | |by right| |].
  - cbn [pLeft]. eapply tree_frame; [exact F2| |exact Ht1]. rewrite Ei. by intros y Hy ->%list_elem_of_singleton.
  - rewrite Ei, (frame_vals _ _ _ _ F12). by destruct Hp.
  - cbn [pRight]. eapply forest_frame; [exact F12| |exact Hf].
    intros y [Hy|Hy]%elem_of_app [->|Hy2]%elem_of_cons; [done| |done|]; [apply (Hdn y Hy); set_solver + Hy2|by apply (Hdf y Hy)].
  - rewrite Ei. constructor; [rewrite !not_elem_of_app; done|]. apply NoDup_app.
    split_and!; [done|intros y Hy; specialize (Hdn y Hy); set_solver + Hdn|]. apply NoDup_app. split_and!; [done| |done]. intros y Hy Hy2. by apply (Hdf y Hy2).
Qed.

(** The tree of a node is taken apart and merged into the list. *)
Lemma pass_ok h a e t p ps : h !! a = Some e -> tree h (pLeft e) t -> t <> Leaf -> ascending (vals h (inorder t)) -> slist h p ps -> ps <> [] ->
  NoDup (a :: inorder t ++ ps) ->
  exists h1 aux last h2 h3 q cs, rowSetTreeToList (S (size h)) h 0 None (pLeft e) = Some (h1, aux, last) /\ set_left 0 a h1 = Some h2 /\
    rowSetEntryMerge h2 aux p = Some (h3, q) /\ slist h3 q cs /\ cs <> [] /\ NoDup cs /\ cs ⊆ inorder t ++ ps /\
    (forall y, y ∈ vals h cs <-> y ∈ vals h (inorder t) \/ y ∈ vals h ps) /\ frame (a :: inorder t ++ ps) h h3 /\ h3 !! a = Some (MkEntry (v e) (pRight e) 0).
Proof.
  intros E Ht Hlf Ha Hp Hne [Hna Hnd]%NoDup_cons. pose proof Hna as [Ha2 Ha4]%not_elem_of_app. pose proof Hnd as (Hnt & Hdt & Hnp)%NoDup_app.
  destruct (tree_to_list_ok t (S (size h)) h 0 None (pLeft e) Ht) as (h1 & aux & first & ls & last & E1 & _ & Hs1 & -> & F1);
    [done|by rewrite app_nil_r|by intros q Hq%not_elem_of_nil| |].
  { assert (length (inorder t) <= size h)%nat; [|lia]. apply live_size; [done|]. intros y Hy. by destruct (tree_live _ _ _ _ Ht Hy). }
  cbn [pp_target] in F1. rewrite app_nil_r in F1. assert (Ea : h1 !! a = Some e) by (by rewrite (fr_out _ _ _ F1)).
  destruct (set_left_ok 0 a h1 e Ea) as (h2 & E2 & F2 & Ea2).
  assert (F12 : frame (a :: inorder t) h h2) by (eapply frame_trans; [exact F1|exact F2|set_solver +|set_solver +]).
  assert (Hl2 : slist h2 first (inorder t)).
  { split; [|by rewrite (frame_vals _ _ _ _ F12)]. eapply seg_frame; [exact F2| |exact Hs1]. by intros y Hy ->%list_elem_of_singleton. }
  assert (Hp2 : slist h2 p ps). { eapply slist_frame; [exact F12| |exact Hp]. intros y Hy [->|Hy2]%elem_of_cons; [done|by apply (Hdt y Hy2)]. }
  destruct (merge_ok h2 first (inorder t) p ps Hl2 Hp2) as (h3 & q & cs & E3 & Hc & Hc0 & (Mn & Ms & _ & Me) & F3); [by intros ?%inorder_nil|done|done|].
  exists h1, first, last, h2, h3, q, cs. split_and!; try done.
  - intros y. rewrite <- !(frame_vals _ _ _ _ F12). apply Me.
  - eapply frame_trans; [exact F12|exact F3|set_solver +|set_solver +].
  - by rewrite (fr_out _ _ _ F3).
Qed.

Lemma forest_loop_ok fs : forall fuel h prev pTree p ps, (length fs < fuel)%nat -> forest h pTree fs -> slist h p ps -> ps <> [] -> NoDup (nodes fs ++ fents fs ++ ps) ->
  exists h' prev' pT' p', forest_loop fuel h prev pTree p = Some (h', prev', pT', p') /\ frame (nodes fs ++ fents fs ++ ps) h h' /\ added h h' pTree pT' p' prev prev' fs ps.
Proof.
  induction fs as [|x fs IH]; intros fuel h prev pTree p ps Hfu Hf Hp Hne Hnd; (destruct fuel as [|fuel]; [lia|]); cbn [forest_loop].
  - assert (E0 : pTree = 0) by (by destruct Hf as (Hs & _)). subst pTree. exists h, prev, 0, p. split; [reflexivity|]. split; [apply frame_refl|]. right. split; [done|]. split; [done|]. exists ps. split_and!; try done.
    intros x. split; [by left|]. intros [Hx|Hx]; [done|by apply not_elem_of_nil in Hx].
  - apply node_entered in Hf as (e & E & -> & H0 & Ht & Hf & Ha & Hn). cbn [length] in Hfu. destruct x as [a t]. cbn [fst snd] in *. rewrite fents_cons, nodes_cons in *. cbn [fst snd] in *.
    replace (a =? 0) with false by (symmetry; by apply Z.eqb_neq). rewrite E. cbn [mbind option_bind]. rewrite (tree_null _ _ _ Ht).
    rewrite <- app_assoc in Hnd. cbn [app] in Hnd. apply NoDup_cons in Hnd as [Hna Hnd]. rewrite !not_elem_of_app in Hna. destruct Hna as (Ha1 & Ha2 & Ha3 & Ha4).
    apply NoDup_app in Hnd as (Hnn & Hdn & Hnr). apply NoDup_app in Hnr as (Hnt & Hdt & Hnr). apply NoDup_app in Hnr as (Hnf & Hdf & Hnp).
    case_bool_decide as Hz.
    + apply inorder_nil in Hz as ->. cbn [inorder app] in *.
      destruct (place_ok h a e fs p ps E H0 Hf Hp Hne) as (h1 & root & h2 & t & -> & Es & F12 & Hf2 & Ei).
      { constructor; [by rewrite !not_elem_of_app|]. apply NoDup_app. split_and!; [done|done|]. apply NoDup_app. by split_and!. }
      cbn [mbind option_bind]. rewrite Es. cbn [mbind option_bind]. exists h2, (Some a), a, p. split; [done|]. split; [eapply frame_mono; [exact F12|set_solver +]|].
      left. split; [done|]. exists ((a, t) :: fs). rewrite !fents_cons. cbn [snd inorder app]. rewrite Ei. split_and!; [done|done|set_solver +|].
      intros y. by rewrite vals_app, elem_of_app.
    + destruct (pass_ok h a e t p ps E Ht) as (h1 & aux & last & h2 & h3 & q & cs & -> & Es & Em & Hc & Hc0 & Mn & Ms & Hall & F13 & E3); [by intros ->|done|done|done| |].
      { constructor; [by rewrite not_elem_of_app|]. apply NoDup_app. split_and!; [done| |done]. intros y Hy Hy2. apply (Hdt y Hy). set_solver + Hy2. }
      cbn [mbind option_bind]. rewrite Es. cbn [mbind option_bind]. rewrite Em. cbn [mbind option_bind]. rewrite E3. cbn [mbind option_bind pRight].
      assert (Hf3 : forest h3 (pRight e) fs).
      { eapply forest_frame; [exact F13| |exact Hf]. intros y [Hy|Hy]%elem_of_app [->|[Hy2|Hy2]%elem_of_app]%elem_of_cons; try done;
          [apply (Hdn y Hy); set_solver + Hy2..|apply (Hdt y Hy2); set_solver + Hy|by apply (Hdf y Hy)]. }
      assert (Hnd3 : NoDup (nodes fs ++ fents fs ++ cs)).
      { apply NoDup_app. split_and!; [done|intros y Hy Hy2; apply (Hdn y Hy); set_solver + Hy2 Ms|]. apply NoDup_app. split_and!; [done| |done].
        intros y Hy Hy2. apply Ms in Hy2. apply elem_of_app in Hy2 as [Hy2|Hy2]; [apply (Hdt y Hy2); set_solver + Hy|by apply (Hdf y Hy)]. }
      destruct (IH fuel h3 (Some a) (pRight e) q cs ltac:(lia) Hf3 Hc Hc0 Hnd3) as (h4 & prev' & pT' & p' & -> & F4 & Hadd). exists h4, prev', pT', p'. split; [done|].
      assert (E4 : h4 !! a = Some (MkEntry (v e) (pRight e) 0)) by (rewrite (fr_out _ _ _ F4); [done|]; set_solver + Ha1 Ha2 Ha3 Ha4 Ms).
      split; [eapply frame_trans; [exact F13|exact F4|set_solver +|set_solver + Ms]|].
      assert (Hac : a ∉ fents fs ++ cs) by (set_solver + Ha2 Ha3 Ha4 Ms).
      destruct Hadd as [(Hp0 & fs' & Hf' & En & Hsub & He)|(Hp0 & Epr & ps' & Hf' & Hps & Hps0 & Hnps & Hsub & He)]; [left|right].
      * split; [done|]. exists ((a, Leaf) :: fs'). split_and!.
        -- eapply node_replaced; [exact E4|done|done|constructor|by left|exact Hf'|]. cbn [inorder app]. constructor; [rewrite En; set_solver + Ha1 Hac Hsub|by destruct Hf' as (_ & _ & ?)].
        -- by rewrite !nodes_cons, En.
        -- rewrite !fents_cons. cbn [snd inorder app]. set_solver + Hsub Ms.
        -- intros y. rewrite fents_cons. cbn [snd inorder app]. specialize (He y). rewrite ?(frame_vals _ _ _ _ F13) in He. rewrite ?fents_cons. cbn [snd inorder app]. rewrite He, Hall, vals_app, elem_of_app. tauto.
      * split; [done|]. split; [done|]. exists ps'. split_and!; try done.
        -- cbn [emptied map fst]. eapply node_replaced; [exact E4|done|done|constructor|by left|exact Hf'|]. cbn [inorder app]. rewrite emptied_nodes, emptied_fents, app_nil_r. by constructor.
        -- rewrite fents_cons. cbn [snd]. set_solver + Hsub Ms.
        -- intros y. specialize (He y). rewrite ?(frame_vals _ _ _ _ F13) in He. rewrite ?fents_cons. cbn [snd inorder app]. rewrite He, Hall, vals_app, elem_of_app. tauto.
Qed.
