(* ===== verification/RowSpec.v ===== *)
(** * Row sets are sets

    The memory a row set of [src/rowset.c] owns, the invariant of its
    operations, what each of them does to a set of rowids, and the proof that the
    operations do exactly that and give back all memory in the end. *)
From S2P Require Import Prelude RowSet RowList RowTree RowForest.

(** ** Owned memory *)

Fixpoint cchain (g : gmap Z Z) (p : Z) (cs : list Z) : Prop :=
  match cs with [] => p = 0 | c :: cs => p = c /\ exists n, g !! c = Some n /\ cchain g n cs end.

Lemma cchain_out (g g' : gmap Z Z) cs : (forall x, x ∈ cs -> g' !! x = g !! x) -> forall p, cchain g p cs -> cchain g' p cs.
Proof.
  induction cs as [|c cs IH]; intros Hg p; [done|]. intros (-> & n & E & Hc). cbn [cchain]. split; [done|]. exists n.
  split; [rewrite Hg; [done|set_solver +]|]. apply IH; [|done]. intros x Hx. apply Hg. set_solver + Hx.
Qed.

Lemma cchain_in (g : gmap Z Z) cs : forall p x, cchain g p cs -> x ∈ cs -> exists n, g !! x = Some n.
Proof.
  induction cs as [|c cs IH]; intros p x Hc Hx; [by apply not_elem_of_nil in Hx|]. destruct Hc as (-> & n & E & Hc).
  apply elem_of_cons in Hx as [->|Hx]; [by exists n|by eapply IH].
Qed.

(** The entries of the block of the set and of its chunks. *)
Definition own (blk cs : list Z) : list Z := blk ++ concat (map chunk_array cs).

(** Of the memory [m], the rest is as in [m0], where neither block nor chunks are
    allocated. *)
Record owned (m0 : mem) (blk : list Z) (m : mem) (c : Z) (cs : list Z) : Prop := {
  ow_nodup : NoDup (own blk cs);
  ow_new : forall x, x ∈ own blk cs -> x <> 0 /\ ents m0 !! x = None;
  ow_live : forall x, x ∈ own blk cs -> exists e, ents m !! x = Some e;
  ow_out : forall x, x ∉ own blk cs -> ents m !! x = ents m0 !! x;
  ow_chain : cchain (chunks m) c cs;
  ow_cnodup : NoDup cs;
  ow_cnew : forall x, x ∈ cs -> x <> 0 /\ chunks m0 !! x = None;
  ow_cout : forall x, x ∉ cs -> chunks m !! x = chunks m0 !! x
}.

Lemma entry_array_S b n : entry_array b (S n) = b :: entry_array (b + sizeof_entry) n.
Proof.
  unfold entry_array. cbn [seq map]. f_equal; [unfold sizeof_entry; lia|]. rewrite <- seq_shift, map_map. apply map_ext. intros i. unfold sizeof_entry. lia.
Qed.

Lemma entry_array_ge b n x : x ∈ entry_array b n -> b <= x.
Proof. unfold entry_array. intros (i & -> & _)%list_elem_of_fmap. unfold sizeof_entry. lia. Qed.

Lemma entry_array_NoDup n : forall b, NoDup (entry_array b n).
Proof.
  induction n as [|n IH]; intros b; [constructor|]. rewrite entry_array_S. constructor; [|apply IH]. intros Hx%entry_array_ge. unfold sizeof_entry in Hx. lia.
Qed.

Lemma raw_entries_in raw ps h x : x ∈ ps -> raw_entries raw ps h !! x = Some (raw x).
Proof.
  unfold raw_entries. induction ps as [|p ps IH]; intros Hx; [by apply not_elem_of_nil in Hx|]. cbn [foldr].
  destruct (decide (p = x)) as [->|Hn]; [apply lookup_insert_eq|]. rewrite lookup_insert_ne by done. apply IH. set_solver + Hx Hn.
Qed.

Lemma raw_entries_out raw ps h x : x ∉ ps -> raw_entries raw ps h !! x = h !! x.
Proof. unfold raw_entries. induction ps as [|p ps IH]; [done|]. cbn [foldr]. intros [Hx Hxs]%not_elem_of_cons. rewrite lookup_insert_ne by done. by apply IH. Qed.

Lemma free_entries_in ps h x : x ∈ ps -> free_entries ps h !! x = None.
Proof.
  unfold free_entries. induction ps as [|p ps IH]; intros Hx; [by apply not_elem_of_nil in Hx|]. cbn [foldr].
  destruct (decide (p = x)) as [->|Hn]; [apply lookup_delete_eq|]. rewrite lookup_delete_ne by done. apply IH. set_solver + Hx Hn.
Qed.

Lemma free_entries_out ps h x : x ∉ ps -> free_entries ps h !! x = h !! x.
Proof. unfold free_entries. induction ps as [|p ps IH]; [done|]. cbn [foldr]. intros [Hx Hxs]%not_elem_of_cons. rewrite lookup_delete_ne by done. by apply IH. Qed.

(** Changes inside the owned memory. *)
Lemma owned_change m0 blk m c cs h : owned m0 blk m c cs -> dom h = dom (ents m) -> (forall q, q ∉ own blk cs -> h !! q = ents m !! q) ->
  owned m0 blk (MkMem h (chunks m)) c cs.
Proof.
  intros [A B C D E F G H] Hd Ho. split; try done; cbn [ents].
  - intros x Hx. destruct (C x Hx) as [e Ee]. assert (Hx' : x ∈ dom h) by (rewrite Hd; apply elem_of_dom; by eexists). by apply elem_of_dom in Hx' as [e' ?]; exists e'.
  - intros x Hx. rewrite Ho by done. by apply D.
Qed.

Lemma owned_frame m0 blk m c cs ds h : owned m0 blk m c cs -> frame ds (ents m) h -> ds ⊆ own blk cs -> owned m0 blk (MkMem h (chunks m)) c cs.
Proof. intros Ho [Fd Fo _] Hs. apply owned_change; [done|done|]. intros q Hq. apply Fo. intros Hx. by apply Hq, Hs. Qed.

(** Allocation of a chunk. *)
Definition fresh_chunk (m : mem) (new : option Z) : Prop :=
  forall c, new = Some c -> 0 < c /\ chunks m !! c = None /\ forall x, x ∈ chunk_array c -> ents m !! x = None.

Lemma own_cons blk c cs : own blk (c :: cs) ≡ₚ chunk_array c ++ own blk cs.
Proof. unfold own. cbn [map concat]. by rewrite !app_assoc, (Permutation_app_comm blk). Qed.

Lemma owned_chunk raw m0 blk m c cs new : owned m0 blk m c cs -> fresh_chunk m (Some new) ->
  owned m0 blk (MkMem (raw_entries raw (chunk_array new) (ents m)) (<[new := c]> (chunks m))) new (new :: cs).
Proof.
  intros [A B C D E F G H] Hf. destruct (Hf new eq_refl) as (H0 & Hc & Hx).
  assert (Hdis : forall x, x ∈ chunk_array new -> x ∉ own blk cs) by (intros x Hx1 Hx2; destruct (C x Hx2) as [e Ee]; by rewrite Hx in Ee).
  assert (Hnc : new ∉ cs) by (intros Hin; destruct (cchain_in _ _ _ _ E Hin); congruence).
  split; cbn [ents chunks].
  - rewrite own_cons. apply NoDup_app. split_and!; [apply entry_array_NoDup|done|done].
  - intros x. rewrite own_cons. intros [Hx1|Hx1]%elem_of_app; [|by apply B]. split; [apply entry_array_ge in Hx1; unfold aEntry in Hx1; lia|]. rewrite <- D by (by apply Hdis). by apply Hx.
  - intros x. rewrite own_cons. destruct (decide (x ∈ chunk_array new)) as [Hi|Hi]; [intros _; eexists; by apply raw_entries_in|].
    intros [Hx1|Hx1]%elem_of_app; [done|]. rewrite raw_entries_out by done. by apply C.
  - intros x. rewrite own_cons. intros [Hx1 Hx2]%not_elem_of_app. rewrite raw_entries_out by done. by apply D.
  - cbn [cchain]. split; [done|]. exists c. split; [apply lookup_insert_eq|]. eapply cchain_out; [|exact E]. intros x Hx1. apply lookup_insert_ne. by intros ->.
  - by constructor.
  - intros x [->|Hx1]%elem_of_cons; [|by apply G]. split; [lia|]. by rewrite <- H.
  - intros x [Hn Hx1]%not_elem_of_cons. rewrite lookup_insert_ne by done. by apply H.
Qed.

(** Freeing. *)
Lemma owned_free m0 blk m c cs : owned m0 blk m c (c :: cs) -> exists n, chunks m !! c = Some n /\
  owned m0 blk (MkMem (free_entries (chunk_array c) (ents m)) (delete c (chunks m))) n cs.
Proof.
  intros [A B C D (_ & n & En & E) [Fc F]%NoDup_cons G H]. rewrite own_cons in A. apply NoDup_app in A as (A1 & A2 & A3). exists n. split; [done|]. split; cbn [ents chunks]; try done.
  - intros x Hx. apply B. rewrite own_cons. apply elem_of_app. by right.
  - intros x Hx. rewrite free_entries_out by (intros Hx2; by apply (A2 x Hx2)). apply C. rewrite own_cons. apply elem_of_app. by right.
  - intros x Hx. destruct (decide (x ∈ chunk_array c)) as [Hi|Hi].
    + rewrite free_entries_in by done. symmetry. apply B. rewrite own_cons. apply elem_of_app. by left.
    + rewrite free_entries_out by done. apply D. rewrite own_cons. by intros [?|?]%elem_of_app.
  - eapply cchain_out; [|exact E]. intros x Hx. apply lookup_delete_ne. by intros ->.
  - intros x Hx. apply G. set_solver + Hx.
  - intros x Hx. destruct (decide (c = x)) as [->|Hn]; [rewrite lookup_delete_eq; symmetry; apply G; set_solver +|]. rewrite lookup_delete_ne by done. apply H. by intros [?|?]%elem_of_cons.
Qed.

Lemma free_chunks_ok m0 blk cs : forall fuel m c, owned m0 blk m c cs -> (length cs < fuel)%nat -> exists m', free_chunks fuel c m = Some m' /\ owned m0 blk m' 0 [].
Proof.
  induction cs as [|d cs IH]; intros fuel m c Ho Hfu; (destruct fuel as [|fuel]; [lia|]); cbn [free_chunks].
  - pose proof (ow_chain _ _ _ _ _ Ho) as E. cbn [cchain] in E. subst c. cbn [Z.eqb]. by exists m.
  - pose proof (ow_chain _ _ _ _ _ Ho) as (-> & _). destruct (ow_cnew _ _ _ _ _ Ho d) as [H0 _]; [set_solver +|]. replace (d =? 0) with false by (symmetry; by apply Z.eqb_neq).
    destruct (owned_free _ _ _ _ _ Ho) as (n & -> & Ho'). cbn [mbind option_bind length] in *. apply (IH fuel _ n Ho'). lia.
Qed.

Lemma owned_cs_size m0 blk m c cs : owned m0 blk m c cs -> (length cs <= size (chunks m))%nat.
Proof.
  intros [_ _ _ _ E F _ _]. rewrite <- size_dom. transitivity (size (list_to_set cs : gset Z)); [by rewrite size_list_to_set|].
  apply subseteq_size. intros x Hx%elem_of_list_to_set. apply elem_of_dom. destruct (cchain_in _ _ _ _ E Hx) as [n En]. by eexists.
Qed.

Lemma clear_owned m0 blk s m cs : owned m0 blk m (pChunk s) cs ->
  exists m', sqlite3RowSetClear s m = Some (MkRowSet 0 0 0 (pFresh s) 0 0 ROWSET_SORTED (iBatch s), m') /\ owned m0 blk m' 0 [].
Proof.
  intros Ho. unfold sqlite3RowSetClear. pose proof (owned_cs_size _ _ _ _ _ Ho). destruct (free_chunks_ok m0 blk cs (S (size (chunks m))) m (pChunk s) Ho) as (m' & -> & Ho'); [lia|].
  cbn [mbind option_bind]. by exists m'.
Qed.

(** Without the block, the memory is as it was. *)
Lemma owned_given_back m0 blk m : owned m0 blk m 0 [] -> MkMem (free_entries blk (ents m)) (chunks m) = m0.
Proof.
  intros [_ B _ D _ _ _ H]. unfold own in *. cbn [map concat] in *. rewrite app_nil_r in *. destruct m0 as [e0 c0]. cbn [ents chunks] in *. f_equal; apply map_eq; intros x.
  - destruct (decide (x ∈ blk)) as [Hi|Hi]; [rewrite free_entries_in by done; symmetry; by apply B|rewrite free_entries_out by done; by apply D].
  - apply H. apply not_elem_of_nil.
Qed.


(** ** What the operations do *)

(** The rowids on the list, those that a test finds, and the batch. *)
Record rs_spec : Type := MkSpec { pend : list Z; tested : gset Z; batch : Z }.

Inductive rs_op : Type := RInsert (new : option Z) (rowid : Z) | RTest (new : option Z) (batch rowid : Z) | RNext | RClear.

(** The smallest of a list. *)
Fixpoint smallest (l : list Z) : option Z :=
  match l with [] => None | x :: l => Some (match smallest l with Some y => Z.min x y | None => x end) end.

(** Without memory an insertion may be lost, and a test may lose all rowids. *)
Inductive rs_does (σ : rs_spec) : rs_op -> option Z -> rs_spec -> Prop :=
  | does_insert new x : rs_does σ (RInsert new x) None (MkSpec (pend σ ++ [x]) (tested σ) (batch σ))
  | does_insert_oom x : rs_does σ (RInsert None x) None σ
  | does_test_old new b x : b = batch σ ->
      rs_does σ (RTest new b x) (Some (if bool_decide (x ∈ tested σ) then 1 else 0)) (MkSpec (pend σ) (tested σ) b)
  | does_test_new new b x : b <> batch σ -> let t := tested σ ∪ list_to_set (pend σ) in
      rs_does σ (RTest new b x) (Some (if bool_decide (x ∈ t) then 1 else 0)) (MkSpec [] t b)
  | does_test_oom b x : b <> batch σ -> rs_does σ (RTest None b x) (Some 0) (MkSpec [] ∅ b)
  | does_next : let r := smallest (pend σ) in
      rs_does σ RNext r (MkSpec (filter (fun x => Some x <> r) (pend σ)) (tested σ) (batch σ))
  | does_clear : rs_does σ RClear None (MkSpec [] ∅ (batch σ)).

(** How the operations may be used, by their assertions: no insertion and no test
    during an extraction, and no extraction from a forest; and the allocator gives
    blocks that are not in use. *)
Definition rs_legal (s : RowSet) (m : mem) (o : rs_op) : Prop :=
  match o with
  | RInsert new _ => rsFlags s .& ROWSET_NEXT = 0 /\ fresh_chunk m new
  | RTest new _ _ => rsFlags s .& ROWSET_NEXT = 0 /\ fresh_chunk m new
  | RNext => pForest s = 0
  | RClear => True
  end.

Definition rs_run (raw : Z -> RowSetEntry) (s : RowSet) (m : mem) (o : rs_op) : option (option Z * RowSet * mem) :=
  match o with
  | RInsert new x => '(s, m) ← sqlite3RowSetInsert raw new s m x; Some (None, s, m)
  | RTest new b x => '(r, s, m) ← sqlite3RowSetTest raw new s m b x; Some (Some r, s, m)
  | RNext => sqlite3RowSetNext s m
  | RClear => '(s, m) ← sqlite3RowSetClear s m; Some (None, s, m)
  end.

(** ** Invariant *)

Definition fresh (s : RowSet) : list Z := entry_array (pFresh s) (Z.to_nat (nFresh s)).

Record rs_inv (m0 : mem) (blk : list Z) (σ : rs_spec) (s : RowSet) (m : mem) (ps : list Z) (fs : list node) (cs : list Z) : Prop := {
  ri_own : owned m0 blk m (pChunk s) cs;
  ri_list : seg (ents m) (pEntry s) ps 0;
  ri_forest : forest (ents m) (pForest s) fs;
  ri_apart : NoDup (fresh s ++ ps ++ nodes fs ++ fents fs);
  ri_in : fresh s ++ ps ++ nodes fs ++ fents fs ⊆ own blk cs;
  ri_nfresh : is_u16 (nFresh s);
  ri_flags : rsFlags s = 0 \/ rsFlags s = 1 \/ rsFlags s = 3;
  ri_sorted : rsFlags s <> 0 -> ascending (vals (ents m) ps);
  ri_pend : forall x, x ∈ vals (ents m) ps <-> x ∈ pend σ;
  ri_tested : forall x, x ∈ vals (ents m) (fents fs) <-> x ∈ tested σ;
  ri_batch : iBatch s = batch σ;
  ri_collect : rsFlags s <> 3 -> pLast s = default 0 (last ps) /\ (length ps <= length (pend σ))%nat
}.

(** Fewer than 2^40 entries: the sort has enough buckets. *)
Definition few (σ : rs_spec) : Prop := Z.of_nat (length (pend σ)) < 2 ^ 40.

(** [s] with other chunks and fresh entries. *)
Definition refilled (s : RowSet) (c f n : Z) : RowSet := MkRowSet c (pEntry s) (pLast s) f (pForest s) n (rsFlags s) (iBatch s).

(** An allocated entry is apart from the entries [us] in use, which keep their
    contents. *)
Lemma alloc_ok raw m0 blk s m cs us new : owned m0 blk m (pChunk s) cs -> NoDup (fresh s ++ us) -> fresh s ++ us ⊆ own blk cs -> is_u16 (nFresh s) -> fresh_chunk m new ->
  (rowSetEntryAlloc raw new s m = (0, s, m) /\ new = None) \/
  exists pE m' cs' c f n ds, let s' := refilled s c f n in rowSetEntryAlloc raw new s m = (pE, s', m') /\ owned m0 blk m' c cs' /\ NoDup (pE :: fresh s' ++ us) /\
    pE :: fresh s' ++ us ⊆ own blk cs' /\ is_u16 n /\ outside ds (ents m) (ents m') /\ (forall x, x ∈ us -> x ∉ ds).
Proof.
  intros Ho Hnd Hin Hn Hf. unfold rowSetEntryAlloc. unfold is_u16 in Hn. destruct (Z.eqb_spec (nFresh s) 0) as [E0|Hn0].
  - destruct new as [c|]; [|by left]. right. set (m' := MkMem _ _). exists (c + aEntry), m', (c :: cs), c, (c + aEntry + sizeof_entry), 41, (chunk_array c).
    pose proof (owned_chunk raw _ _ _ _ _ _ Ho Hf) as Ho'. fold m' in Ho'. destruct (Hf c eq_refl) as (_ & _ & Hx).
    assert (Ec : chunk_array c = c + aEntry :: fresh (refilled s c (c + aEntry + sizeof_entry) 41)) by (apply (entry_array_S (c + aEntry) 41)).
    assert (Hus : forall x, x ∈ us -> x ∉ chunk_array c).
    { intros x Hxu Hxc. destruct (ow_live _ _ _ _ _ Ho x) as [e Ee]; [apply Hin; set_solver + Hxu|]. by rewrite Hx in Ee. }
    cbv zeta. split_and!; [done|done| | |unfold is_u16; lia| |done].
    + apply (f_equal (fun l => l ++ us)) in Ec. cbn [app] in Ec. rewrite <- Ec. apply NoDup_app in Hnd as (_ & _ & Hnu). apply NoDup_app.
      split_and!; [apply entry_array_NoDup|intros x Hxc Hxu; by apply (Hus x)|done].
    + apply (f_equal (fun l => l ++ us)) in Ec. cbn [app] in Ec. rewrite <- Ec. intros x Hxx. rewrite own_cons. apply elem_of_app.
      apply elem_of_app in Hxx as [?|Hxu]; [by left|right]. apply Hin. set_solver + Hxu.
    + intros q Hq. cbn [m' ents]. by apply raw_entries_out.
  - right. exists (pFresh s), m, cs, (pChunk s), (pFresh s + sizeof_entry), (nFresh s - 1), [].
    assert (Ef : fresh s = pFresh s :: fresh (refilled s (pChunk s) (pFresh s + sizeof_entry) (nFresh s - 1))).
    { unfold fresh. cbn [refilled pFresh nFresh]. replace (Z.to_nat (nFresh s)) with (S (Z.to_nat (nFresh s - 1))) by lia. apply entry_array_S. }
    assert (Eu : u16 (nFresh s - 1) = nFresh s - 1) by (apply Z.mod_small; lia).
    cbv zeta. rewrite Eu. split_and!; [done|done| | |unfold is_u16; lia|done|intros x _; apply not_elem_of_nil].
    + by rewrite Ef in Hnd.
    + by rewrite Ef in Hin.
Qed.

(** ** Insertion *)

(** The new entry gets its value and a null link. *)
Lemma init_entry h p e x : h !! p = Some e ->
  exists h', (h ← set_v x p h; set_right 0 p h) = Some h' /\ dom h' = dom h /\ outside [p] h h' /\ h' !! p = Some (MkEntry x 0 (pLeft e)).
Proof.
  intros E. unfold set_v, set_right. rewrite E. cbn [mbind option_bind]. rewrite lookup_insert_eq. cbn [mbind option_bind v pLeft]. rewrite insert_insert_eq. eexists. split; [done|].
  split; [apply dom_insert_lookup_L; by eexists|]. split; [|apply lookup_insert_eq]. intros q Hq. apply lookup_insert_ne. set_solver + Hq.
Qed.

(** The entry is appended to the list. *)
Lemma append_ok h first ps l p e : seg h first ps 0 -> NoDup (ps ++ [p]) -> l = default 0 (last ps) -> p <> 0 -> h !! p = Some e -> pRight e = 0 ->
  exists h' , (if l =? 0 then Some h else set_right p l h) = Some h' /\ seg h' (if l =? 0 then p else first) (ps ++ [p]) 0 /\ frame ps h h' /\
    (l = 0 <-> ps = []) /\ (l <> 0 -> exists el, h !! l = Some el /\ row_value h l = v el /\ l ∈ ps).
Proof.
  intros Hs Hnd -> H0 E E0. destruct ps as [|a ps] using rev_ind.
  - cbn [last default Z.eqb app]. exists h. split; [done|]. split; [cbn [seg]; split_and!; try done; by exists e|]. split; [apply frame_refl|]. done.
  - clear IHps. rewrite last_snoc. cbn [default]. change (id a) with a. destruct (seg_live _ _ _ _ a Hs) as [Ha0 [ea Ea]]; [set_solver +|].
    replace (a =? 0) with false by (symmetry; by apply Z.eqb_neq). apply NoDup_app in Hnd as (Hn1 & Hn2 & _).
    destruct (seg_relink h first ps a 0 p Hn1 Hs) as (h' & -> & F & Hs'). exists h'. split; [done|].
    assert (E' : h' !! p = Some e). { rewrite (fr_out _ _ _ F); [done|]. intros ->%list_elem_of_singleton. apply (Hn2 a); set_solver +. }
    split; [apply seg_app; exists p; split; [done|]; cbn [seg]; split_and!; try done; by exists e|]. split; [eapply frame_mono; [exact F|set_solver +]|].
    split; [split; [done|by destruct ps]|]. intros _. exists ea. split; [done|]. split; [by apply value_entry|set_solver +].
Qed.

Lemma land_not_sorted f : f = 0 \/ f = 1 -> Z.land f (Z.lnot ROWSET_SORTED) = 0.
Proof. by intros [-> | ->]. Qed.

Lemma last_value h ps x l : ascending (vals h ps) -> l = default 0 (last ps) -> ps <> [] -> row_value h l < x -> ascending (vals h ps ++ [x]).
Proof.
  intros Ha -> Hne Hx. apply ascending_app. split_and!; [done|repeat constructor|]. intros y z Hy ->%list_elem_of_singleton. destruct ps as [|a ps _] using rev_ind; [done|].
  rewrite last_snoc in Hx. cbn [default] in Hx. change (id a) with a in Hx. rewrite vals_app in Ha, Hy. apply ascending_app in Ha as (_ & _ & Hl).
  apply elem_of_app in Hy as [Hy|Hy]; [specialize (Hl y (row_value h a) Hy ltac:(set_solver +)); lia|]. apply list_elem_of_singleton in Hy as ->. done.
Qed.

(** The link to the new entry, and the flag. *)
Lemma link_ok h s ps pE e x : seg h (pEntry s) ps 0 -> NoDup (ps ++ [pE]) -> pLast s = default 0 (last ps) -> pE <> 0 -> h !! pE = Some e -> v e = x -> pRight e = 0 ->
  rsFlags s = 0 \/ rsFlags s = 1 -> (rsFlags s <> 0 -> ascending (vals h ps)) ->
  exists flags first h', (if negb (pLast s =? 0) then
      l ← h !! pLast s;
      h ← set_right pE (pLast s) h;
      Some (if x <=? v l then Z.land (rsFlags s) (Z.lnot ROWSET_SORTED) else rsFlags s, pEntry s, h)
    else Some (rsFlags s, pE, h)) = Some (flags, first, h') /\
    seg h' first (ps ++ [pE]) 0 /\ frame ps h h' /\ (flags = 0 \/ flags = 1) /\ (flags <> 0 -> ascending (vals h (ps ++ [pE]))).
Proof.
  intros Hs Hnd Hla HpE E Ev Er Hfl Hso. destruct (append_ok h (pEntry s) ps (pLast s) pE e Hs Hnd Hla HpE E Er) as (h' & E' & Hs' & F & Hz & Hlast).
  assert (Vp : row_value h pE = x) by (by rewrite (value_entry h pE e E)). rewrite vals_app, vals_cons, Vp. cbn [vals map].
  destruct (Z.eqb_spec (pLast s) 0) as [E0|H0]; cbn [negb].
  - injection E' as <-. exists (rsFlags s), pE, h. split; [done|]. split_and!; try done. intros _. apply Hz in E0 as ->. repeat constructor.
  - destruct (Hlast H0) as (el & Eel & Vl & Hin). rewrite Eel. cbn [mbind option_bind]. rewrite E'. cbn [mbind option_bind]. rewrite land_not_sorted by done.
    assert (Hne : ps <> []) by (intros ->; by apply not_elem_of_nil in Hin).
    destruct (Z.leb_spec x (v el)) as [Hle|Hgt]; eexists _, _, _; (split; [reflexivity|]); split_and!; try done; [by left|].
    intros Hf. eapply last_value; [by apply Hso|exact Hla|done|lia].
Qed.

Lemma insert_sim raw m0 blk σ s m ps fs cs new x : rs_inv m0 blk σ s m ps fs cs -> rs_legal s m (RInsert new x) ->
  exists s' m' σ', sqlite3RowSetInsert raw new s m x = Some (s', m') /\ rs_does σ (RInsert new x) None σ' /\ exists ps' cs', rs_inv m0 blk σ' s' m' ps' fs cs'.
Proof.
  intros [Ho Hl Hf Hnd Hin Hn Hfl Hso Hpe Hte Hba Hco] (Hnx & Hfr). assert (Hf3 : rsFlags s <> 3) by (by intros Ex; rewrite Ex in Hnx). destruct (Hco Hf3) as (Hla & Hlp). unfold sqlite3RowSetInsert.
  destruct (alloc_ok raw m0 blk s m cs (ps ++ nodes fs ++ fents fs) new Ho Hnd Hin Hn Hfr) as
    [[-> ->]|(pE & m1 & cs1 & c & f & n & ds & -> & Ho1 & Hnd1 & Hin1 & Hn1 & Hout & Hds)].
  { cbn [Z.eqb]. exists s, m, σ. split; [done|]. split; [constructor|]. exists ps, cs. by split. }
  destruct (ow_new _ _ _ _ _ Ho1 pE) as [HpE _]; [apply Hin1; set_solver +|]. destruct (ow_live _ _ _ _ _ Ho1 pE) as [e0 E0]; [apply Hin1; set_solver +|].
  replace (pE =? 0) with false by (symmetry; by apply Z.eqb_neq).
  destruct (init_entry (ents m1) pE e0 x E0) as (h2 & E2 & D2 & O2 & L2). destruct (set_v x pE (ents m1)) as [hv|]; [|done]. cbn [mbind option_bind] in E2 |- *. rewrite E2. cbn [mbind option_bind].
  apply NoDup_cons in Hnd1 as [HnE Hnd1]. set (s1 := refilled s c f n) in *.
  assert (Hps1 : forall y, y ∈ ps -> y ∉ ds) by (intros y Hy; apply Hds; set_solver + Hy).
  assert (Hps2 : forall y, y ∈ ps -> y ∉ [pE]) by (intros y Hy ->%list_elem_of_singleton; apply HnE; set_solver + Hy).
  assert (Hfs1 : forall y, y ∈ nodes fs ++ fents fs -> y ∉ ds) by (intros y Hy; apply Hds; set_solver + Hy).
  assert (Hfs2 : forall y, y ∈ nodes fs ++ fents fs -> y ∉ [pE]) by (intros y Hy ->%list_elem_of_singleton; apply HnE; set_solver + Hy).
  assert (Hs2 : seg h2 (pEntry s) ps 0) by (eapply seg_outside; [exact O2|done|]; eapply seg_outside; [exact Hout|done|done]).
  assert (Hv2 : vals h2 ps = vals (ents m) ps) by (rewrite (vals_outside _ _ _ _ O2 Hps2); by apply (vals_outside _ _ _ _ Hout)).
  apply NoDup_app in Hnd1 as (Hnf & Hdf & (Hnp & Hdp & Hnff)%NoDup_app).
  assert (HndE : NoDup (ps ++ [pE])). { apply NoDup_app. split_and!; [done| |apply NoDup_singleton]. done. }
  assert (Hfl1 : rsFlags s = 0 \/ rsFlags s = 1) by (destruct Hfl as [?|[?|?]]; [by left|by right|done]).
  destruct (link_ok h2 s ps pE _ x Hs2 HndE Hla HpE L2 eq_refl eq_refl Hfl1) as (flags & first & h3 & E3 & Hs3 & F3 & Hfl3 & Hso3); [by rewrite Hv2|].
  change (pLast s1) with (pLast s). change (rsFlags s1) with (rsFlags s). change (pEntry s1) with (pEntry s). rewrite E3. cbn [mbind option_bind].
  assert (Hv3 : vals h3 (ps ++ [pE]) = vals (ents m) ps ++ [x]).
  { rewrite (frame_vals _ _ _ _ F3), vals_app, Hv2. f_equal. cbn [vals map]. by rewrite (value_entry _ _ _ L2). }
  assert (Hout3 : outside (pE :: ps) (ents m1) h3). { intros q [Hq1 Hq2]%not_elem_of_cons. rewrite (fr_out _ _ _ F3) by done. apply O2. by intros ->%list_elem_of_singleton. }
  assert (Hfs3 : forall y, y ∈ nodes fs ++ fents fs -> y ∉ pE :: ps) by (intros y Hy [->|Hy2]%elem_of_cons; [apply HnE; set_solver + Hy|by apply (Hdp y Hy2)]).
  assert (Hf3' : forest h3 (pForest s) fs) by (eapply forest_outside; [exact Hout3|done|]; eapply forest_outside; [exact Hout|done|done]).
  eexists _, _, _. split; [reflexivity|]. split; [apply does_insert|]. exists (ps ++ [pE]), cs1. split; cbn [pChunk pEntry pForest pLast nFresh rsFlags iBatch ents s1 refilled pend tested batch].
  - eapply owned_change; [exact Ho1|by rewrite (fr_dom _ _ _ F3), D2|]. intros q Hq. apply Hout3. intros Hx. apply Hq, Hin1. set_solver + Hx.
  - done.
  - done.
  - change (fresh _) with (fresh s1). apply NoDup_app. split_and!; [done|intros y Hy; specialize (Hdf y Hy); set_solver + Hdf HnE Hy|]. apply NoDup_app. split_and!; [done| |done].
    intros y Hy Hy2. apply (Hfs3 y Hy2). set_solver + Hy.
  - change (fresh _) with (fresh s1). set_solver + Hin1.
  - done.
  - destruct Hfl3 as [-> | ->]; [by left|by right; left].
  - rewrite Hv3. intros Hx. rewrite <- Hv2. specialize (Hso3 Hx). rewrite vals_app in Hso3. cbn [vals map] in Hso3. by rewrite (value_entry _ _ _ L2) in Hso3.
  - intros y. rewrite Hv3, !elem_of_app, Hpe. done.
  - intros y. rewrite <- Hte. rewrite (vals_outside _ _ _ _ Hout3) by (intros z Hz; apply Hfs3; set_solver + Hz). rewrite (vals_outside _ _ _ _ Hout); [done|]. intros z Hz. apply Hfs1. set_solver + Hz.
  - done.
  - intros _. rewrite last_snoc, !length_app. cbn [length default]. split; [done|lia].
Qed.

(** ** Clearing and extraction *)

Lemma clear_sim m0 blk σ s m ps fs cs σ' : rs_inv m0 blk σ s m ps fs cs -> pend σ' = [] -> tested σ' = ∅ -> batch σ' = batch σ ->
  exists s' m', sqlite3RowSetClear s m = Some (s', m') /\ rs_inv m0 blk σ' s' m' [] [] [].
Proof.
  intros Hi Ep Et Eb. destruct (clear_owned m0 blk s m cs (ri_own _ _ _ _ _ _ _ _ Hi)) as (m' & -> & Ho'). eexists _, _. split; [done|].
  split; cbn [pChunk pEntry pForest pLast nFresh rsFlags iBatch]; try done.
  - split_and!; [done|constructor|constructor].
  - constructor.
  - intros x Hx. by apply not_elem_of_nil in Hx.
  - by right; left.
  - intros _. constructor.
  - intros x. by rewrite Ep.
  - intros x. rewrite Et. split; [by intros ?%not_elem_of_nil|set_solver +].
  - rewrite Eb. apply (ri_batch _ _ _ _ _ _ _ _ Hi).
  - intros _. rewrite Ep. by split_and!.
Qed.

Lemma smallest_spec l x : x ∈ l -> (forall y, y ∈ l -> x <= y) -> smallest l = Some x.
Proof.
  intros Hx Hmin. assert (H : forall l, match smallest l with Some y => y ∈ l /\ forall z, z ∈ l -> y <= z | None => l = [] end).
  { clear. induction l as [|a l IH]; [done|]. cbn [smallest]. destruct (smallest l) as [y|].
    - destruct IH as [Hy Hl]. split; [destruct (Z.min_spec a y) as [[_ ->]|[_ ->]]; set_solver + Hy|]. intros z [->|Hz]%elem_of_cons; [lia|]. specialize (Hl z Hz). lia.
    - subst l. split; [set_solver +|]. intros z [->|Hz]%elem_of_cons; [lia|by apply not_elem_of_nil in Hz]. }
  specialize (H l). destruct (smallest l) as [y|]; [|subst l; by apply not_elem_of_nil in Hx]. destruct H as [Hy Hl]. f_equal. specialize (Hl x Hx). specialize (Hmin y Hy). lia.
Qed.

(** The first call sorts the list. *)
Lemma first_next m0 blk σ s m ps fs cs : rs_inv m0 blk σ s m ps fs cs -> few σ ->
  exists s1 m1 ps1, (if rsFlags s .& ROWSET_NEXT =? 0 then
       '(h, first) ← (if rsFlags s .& ROWSET_SORTED =? 0 then rowSetEntrySort (ents m) (pEntry s) else Some (ents m, pEntry s));
       Some (MkRowSet (pChunk s) first (pLast s) (pFresh s) (pForest s) (nFresh s) (rsFlags s .| (ROWSET_SORTED .| ROWSET_NEXT)) (iBatch s), MkMem h (chunks m))
     else Some (s, m)) = Some (s1, m1) /\ rsFlags s1 = 3 /\ rs_inv m0 blk σ s1 m1 ps1 fs cs /\ pForest s1 = pForest s.
Proof.
  intros [Ho Hl Hf Hnd Hin Hn Hfl Hso Hpe Hte Hba Hco] Hfew. unfold few in Hfew. destruct (Z.eqb_spec (rsFlags s) 0) as [E0|H0].
  - rewrite E0. change (0 .& ROWSET_NEXT =? 0) with true. change (0 .& ROWSET_SORTED =? 0) with true. change (0 .| (ROWSET_SORTED .| ROWSET_NEXT)) with 3.
    destruct Hco as (_ & Hlp); [lia|].
    pose proof Hnd as (Hnfr & Hdfr & (Hnp & Hdp & Hnff)%NoDup_app)%NoDup_app.
    destruct (sort_ok (ents m) (pEntry s) ps Hl Hnp ltac:(lia)) as (h' & q & qs & -> & [Hq Ha] & Hnq & Hsub & He & F). cbn [mbind option_bind].
    eexists _, _, qs. split; [reflexivity|]. split; [done|]. split; [|done]. split; cbn [pChunk pEntry pForest pLast nFresh rsFlags iBatch ents pend tested batch]; try done.
    + eapply owned_frame; [exact Ho|exact F|]. set_solver + Hin.
    + eapply forest_frame; [exact F| |exact Hf]. intros y Hy Hy2. by apply (Hdp y Hy2).
    + change (fresh _) with (fresh s). apply NoDup_app. split_and!; [done|intros y Hy; specialize (Hdfr y Hy); set_solver + Hdfr Hsub|]. apply NoDup_app.
      split_and!; [done|intros y Hy; by apply Hdp, Hsub|done].
    + change (fresh _) with (fresh s). set_solver + Hin Hsub.
    + by right; right.
    + intros x. rewrite (frame_vals _ _ _ _ F), He. apply Hpe.
    + intros x. rewrite (frame_vals _ _ _ _ F). apply Hte.
  - destruct Hfl as [?|[E1|E3]]; [done| |].
    + rewrite E1. change (1 .& ROWSET_NEXT =? 0) with true. change (1 .& ROWSET_SORTED =? 0) with false. change (1 .| (ROWSET_SORTED .| ROWSET_NEXT)) with 3. cbn [mbind option_bind].
      eexists _, _, ps. split; [reflexivity|]. split; [done|]. destruct m as [h g]. split; [|done]. split; cbn [pChunk pEntry pForest pLast nFresh rsFlags iBatch ents pend tested batch]; try done.
      * by right; right.
      * intros _. by apply Hso.
    + rewrite E3. change (3 .& ROWSET_NEXT =? 0) with false. exists s, m, ps. split; [done|]. split; [done|]. split; [|done]. split; try done. by right; right.
Qed.

Lemma next_sim m0 blk σ s m ps fs cs : rs_inv m0 blk σ s m ps fs cs -> few σ -> rs_legal s m RNext ->
  exists r s' m' σ', sqlite3RowSetNext s m = Some (r, s', m') /\ rs_does σ RNext r σ' /\ exists ps' fs' cs', rs_inv m0 blk σ' s' m' ps' fs' cs'.
Proof.
  intros Hi Hfew Hpr. cbn [rs_legal] in Hpr. unfold sqlite3RowSetNext. destruct (first_next _ _ _ _ _ _ _ _ Hi Hfew) as (s1 & m1 & ps1 & -> & Efl & Hi1 & Efo). rewrite Hpr in Efo. cbn [mbind option_bind].
  pose proof Hi1 as [Ho Hl Hf Hnd Hin Hn Hfl Hso Hpe Hte Hba Hco]. specialize (Hso ltac:(lia)). assert (fs = []) as ->.
  { destruct fs as [|x fs]; [done|]. rewrite Efo in Hf. by apply forest_cons in Hf as (_ & H0 & _). }
  rewrite (seg_null _ _ _ Hl). case_bool_decide as Hz; cbn [negb].
  - subst ps1. assert (Ep : pend σ = []). { destruct (pend σ) as [|a l] eqn:E; [done|]. exfalso. apply (not_elem_of_nil a). apply Hpe. set_solver +. }
    eexists _, _, _, _. split; [reflexivity|]. pose proof (does_next σ) as Hd. cbv zeta in Hd. rewrite Ep in Hd. split; [exact Hd|]. exists [], [], cs. destruct σ as [q1 q2 q3]. cbn [pend tested batch] in *. by subst q1.
  - destruct ps1 as [|a r]; [done|]. destruct Hl as (Ea & Ha0 & e & E & Hl). rewrite Ea, E. cbn [mbind option_bind]. rewrite vals_cons, (value_entry _ _ _ E) in Hso, Hpe.
    pose proof (ascending_cons_inv _ _ Hso) as [Hsr Hlt].
    assert (Esm : smallest (pend σ) = Some (v e)).
    { apply smallest_spec; [apply Hpe; set_solver +|]. intros y [->|Hy]%Hpe%elem_of_cons; [lia|]. specialize (Hlt y Hy). lia. }
    set (pend' := filter (fun x => Some x <> Some (v e)) (pend σ)). set (σ' := MkSpec pend' (tested σ) (batch σ)).
    assert (Hp' : forall x, x ∈ vals (ents m1) r <-> x ∈ pend').
    { intros x. unfold pend'. rewrite list_elem_of_filter, <- Hpe, elem_of_cons. split; [|intros [Hx [->|Hx2]]; done]. intros Hx. specialize (Hlt x Hx). split; [|by right]. intros [= ->]. lia. }
    set (s2 := MkRowSet (pChunk s1) (pRight e) (pLast s1) (pFresh s1) (pForest s1) (nFresh s1) (rsFlags s1) (iBatch s1)).
    assert (Hi2 : rs_inv m0 blk σ' s2 m1 r [] cs).
    { split; cbn [s2 σ' pChunk pEntry pForest pLast nFresh rsFlags iBatch ents pend tested batch]; try done.
      - change (fresh _) with (fresh s1). eapply sublist_NoDup; [exact Hnd|]. apply sublist_app; [done|]. apply sublist_app; [by apply sublist_cons|done].
      - change (fresh _) with (fresh s1). set_solver + Hin. }
    pose proof (does_next σ) as Hd. cbv zeta in Hd. rewrite Esm in Hd. fold pend' in Hd. fold σ' in Hd. change (pEntry s2) with (pRight e). rewrite (seg_null _ _ _ Hl). case_bool_decide as Hr.
    + destruct (clear_sim m0 blk σ' s2 m1 r [] cs σ' Hi2) as (s3 & m3 & -> & Hi3).
      * cbn [σ' pend]. destruct pend' as [|b l]; [done|]. exfalso. apply (not_elem_of_nil b). rewrite Hr in Hp'. apply Hp'. set_solver +.
      * cbn [σ' tested]. apply set_eq. intros x. rewrite <- Hte. split; [by intros ?%not_elem_of_nil|set_solver +].
      * done.
      * cbn [mbind option_bind]. eexists _, _, _, σ'. split; [reflexivity|]. split; [exact Hd|]. by exists [], [], [].
    + cbn [mbind option_bind]. eexists _, _, _, σ'. split; [reflexivity|]. split; [exact Hd|]. by exists r, [], cs.
Qed.

(** ** Tests *)

Lemma final_last prev fs : final prev fs = match last (nodes fs) with Some a => Some a | None => prev end.
Proof. revert prev. induction fs as [|x fs IH]; intros prev; [done|]. cbn [final]. rewrite IH, nodes_cons, last_cons. by destruct (last (nodes fs)). Qed.

Lemma final_tail h p fs x : seg h p (nodes fs) x -> tail_of h p (final None fs) (nodes fs).
Proof.
  intros Hs. rewrite final_last. destruct (nodes fs) as [|a l _] using rev_ind; [done|]. rewrite last_snoc. cbn [tail_of]. by exists l, x.
Qed.

Lemma put_left pp q h x h' x' p e : put pp q h x = Some (h', x') -> h !! p = Some e -> exists e', h' !! p = Some e' /\ pLeft e' = pLeft e.
Proof.
  destruct pp as [a|]; cbn [put]; [|intros [= <- <-] E; by exists e]. unfold set_right. destruct (h !! a) as [ea|] eqn:Ea; [|done]. cbn [mbind option_bind]. intros [= <- <-] E.
  destruct (decide (a = p)) as [->|Hn]; [rewrite lookup_insert_eq|rewrite lookup_insert_ne by done; by exists e]. rewrite Ea in E. injection E as ->. by eexists.
Qed.

Lemma emptied_ok h fs : Forall (node_ok h) (emptied fs) <-> forall a, a ∈ nodes fs -> exists e, h !! a = Some e /\ pLeft e = 0.
Proof.
  rewrite Forall_forall. split.
  - intros H a Ha. destruct (H (a, Leaf)) as (e & E & Ht & _); [|by exists e]. unfold nodes in Ha. apply list_elem_of_fmap in Ha as (x & -> & Hx).
    unfold emptied. apply list_elem_of_fmap. by exists x.
  - intros H x Hx. unfold emptied in Hx. apply list_elem_of_fmap in Hx as (y & -> & Hy). destruct (H (fst y)) as (e & E & E0); [apply list_elem_of_fmap; by exists y|].
    exists e. cbn [fst snd]. split_and!; [done|done|constructor|by left].
Qed.

Lemma nodes_app a b : nodes (a ++ b) = nodes a ++ nodes b.
Proof. apply map_app. Qed.

Lemma fents_app a b : fents (a ++ b) = fents a ++ fents b.
Proof. unfold fents. by rewrite map_app, concat_app. Qed.

(** A new node at the end of the forest, with the list as its tree. *)
Lemma new_node_ok h p0 fs p ps pE e : forest h p0 (emptied fs) -> slist h p ps -> ps <> [] -> NoDup (pE :: nodes fs ++ ps) -> pE <> 0 -> h !! pE = Some e ->
  exists h1 first h2 h3 root h4 t, put (final None fs) pE h p0 = Some (h1, first) /\ (h ← set_v 0 pE h1; set_right 0 pE h) = Some h2 /\
    rowSetListToTree h2 p = Some (h3, root) /\ set_left root pE h3 = Some h4 /\ forest h4 first (emptied fs ++ [(pE, t)]) /\ inorder t = ps /\
    outside (pE :: nodes fs ++ ps) h h4 /\ dom h4 = dom h /\ vals h4 ps = vals h ps.
Proof.
  intros (Hs & Hok & _) Hp Hne [HnE Hnd]%NoDup_cons H0 E. rewrite emptied_nodes in Hs. rewrite emptied_ok in Hok. pose proof Hnd as (Hnn & Hdn & Hnp)%NoDup_app. apply not_elem_of_app in HnE as [HnE1 HnE2].
  destruct (put_ok h p0 (final None fs) (nodes fs) pE (final_tail _ _ _ _ Hs) Hnn) as (h1 & first & E1 & Hs1 & F1).
  assert (L1 : h1 !! pE = Some e) by (by rewrite (fr_out _ _ _ F1)). destruct (init_entry h1 pE e 0 L1) as (h2 & E2 & D2 & O2 & L2).
  assert (Hpn : forall y, y ∈ ps -> y ∉ nodes fs) by (intros y Hy Hy2; by apply (Hdn y Hy2)).
  assert (HpE : forall y, y ∈ ps -> y ∉ [pE]) by (by intros y Hy ->%list_elem_of_singleton).
  assert (Hv2 : vals h2 ps = vals h ps) by (rewrite (vals_outside _ _ _ _ O2 HpE); by rewrite (frame_vals _ _ _ _ F1)).
  assert (Hp2 : slist h2 p ps).
  { destruct Hp as [Hp Ha]. split; [|by rewrite Hv2]. eapply seg_outside; [exact O2|done|]. by eapply seg_frame. }
  destruct (place_ok h2 pE _ [] p ps L2 H0) as (h3 & root & h4 & t & E3 & E4 & F4 & Hf4 & Ei); [split_and!; [done|constructor|constructor]|done|done|cbn [nodes fents map concat app]; by constructor|].
  assert (Hn4 : forall y, y ∈ nodes fs -> y ∉ pE :: ps) by (intros y Hy [->|Hy2]%elem_of_cons; [done|by apply (Hdn y Hy)]).
  assert (HnE' : forall y, y ∈ nodes fs -> y ∉ [pE]) by (by intros y Hy ->%list_elem_of_singleton).
  exists h1, first, h2, h3, root, h4, t. split_and!; try done.
  - destruct Hf4 as (Sf & Of & Nf). unfold forest. rewrite nodes_app, fents_app, emptied_nodes, emptied_fents. cbn [app]. split_and!.
    + apply seg_app. exists pE. split; [|exact Sf]. eapply seg_frame; [exact F4|done|]. by eapply seg_outside.
    + apply Forall_app. split; [|exact Of]. apply emptied_ok. intros a Ha. destruct (Hok a Ha) as (ea & Ea & Ea0). destruct (put_left _ _ _ _ _ _ _ _ E1 Ea) as (e' & E' & El').
      exists e'. split; [|congruence]. rewrite (fr_out _ _ _ F4) by (by apply Hn4). by rewrite (O2 a) by (by apply HnE').
    + cbn [nodes fents map concat fst snd] in *. rewrite app_nil_r in *. rewrite <- app_assoc. apply NoDup_app. split_and!; [done| |exact Nf]. rewrite Ei. exact Hn4.
  - intros q Hq. rewrite (fr_out _ _ _ F4) by (set_solver + Hq). rewrite (O2 q) by (set_solver + Hq). apply (fr_out _ _ _ F1). set_solver + Hq.
  - by rewrite (fr_dom _ _ _ F4), D2, (fr_dom _ _ _ F1).
  - by rewrite (frame_vals _ _ _ _ F4).
Qed.

Lemma or_sorted f : f = 0 \/ f = 1 -> f .| ROWSET_SORTED = 1.
Proof. by intros [-> | ->]. Qed.

(** The list of a batch, sorted when it is not yet. *)
Lemma batch_sorted m0 blk σ s m ps fs cs : rs_inv m0 blk σ s m ps fs cs -> few σ -> rsFlags s <> 3 -> ps <> [] ->
  exists h p qs, (if rsFlags s .& ROWSET_SORTED =? 0 then rowSetEntrySort (ents m) (pEntry s) else Some (ents m, pEntry s)) = Some (h, p) /\
    slist h p qs /\ qs <> [] /\ NoDup qs /\ qs ⊆ ps /\ (forall x, x ∈ vals (ents m) qs <-> x ∈ pend σ) /\ frame ps (ents m) h.
Proof.
  intros [Ho Hl Hf Hnd Hin Hn Hfl Hso Hpe Hte Hba Hco] Hfew Hf3 Hps. destruct (Hco Hf3) as (_ & Hlp). unfold few in Hfew.
  pose proof Hnd as (_ & _ & (Hnp & _ & _)%NoDup_app)%NoDup_app. destruct Hfl as [E|[E|E]]; [| |done]; rewrite E in *.
  - change (0 .& ROWSET_SORTED =? 0) with true. destruct (sort_ok (ents m) (pEntry s) ps Hl Hnp ltac:(lia)) as (h & p & qs & -> & Hq & Hnq & Hsub & He & F).
    exists h, p, qs. split_and!; try done; [|intros x; by rewrite He]. intros ->. destruct ps as [|a ps]; [done|]. apply (not_elem_of_nil (row_value (ents m) a)). apply He. set_solver +.
  - change (1 .& ROWSET_SORTED =? 0) with false. exists (ents m), (pEntry s), ps. split_and!; try done. split; [done|]. by apply Hso.
Qed.

(** The state after a batch. *)
Lemma batch_done m0 blk t b h g c cs f p0 n fs : owned m0 blk (MkMem h g) c cs -> forest h p0 fs -> let s := MkRowSet c 0 0 f p0 n 1 b in
  NoDup (fresh s ++ nodes fs ++ fents fs) -> fresh s ++ nodes fs ++ fents fs ⊆ own blk cs -> is_u16 n -> (forall x, x ∈ vals h (fents fs) <-> x ∈ t) ->
  rs_inv m0 blk (MkSpec [] t b) s (MkMem h g) [] fs cs.
Proof.
  intros Ho Hf s Hnd Hin Hn Ht. split; cbn [s pChunk pEntry pForest pLast nFresh rsFlags iBatch ents pend tested batch]; try done.
  - by right; left.
  - intros _. constructor.
Qed.

Lemma elem_of_tested (t : gset Z) l x : x ∈ t ∪ list_to_set l <-> x ∈ t \/ x ∈ l.
Proof. by rewrite elem_of_union, elem_of_list_to_set. Qed.

(** All nodes are without a tree; the list becomes the tree of a new one. *)
Lemma batch_node raw m0 blk s h g cs fs p ps new b t : owned m0 blk (MkMem h g) (pChunk s) cs -> forest h (pForest s) (emptied fs) -> slist h p ps -> ps <> [] ->
  NoDup (fresh s ++ nodes fs ++ ps) -> fresh s ++ nodes fs ++ ps ⊆ own blk cs -> is_u16 (nFresh s) -> fresh_chunk (MkMem h g) new -> rsFlags s = 0 \/ rsFlags s = 1 ->
  (forall x, x ∈ vals h ps <-> x ∈ t) ->
  exists s1 m1 t', (let '(pTree, s, m) := rowSetEntryAlloc raw new s (MkMem h g) in
     '(h, first) ← put (final None fs) pTree (ents m) (pForest s);
     h ← (if negb (pTree =? 0) then
            h ← set_v 0 pTree h;
            h ← set_right 0 pTree h;
            '(h, root) ← rowSetListToTree h p;
            set_left root pTree h
          else Some h);
     Some (MkRowSet (pChunk s) (pEntry s) (pLast s) (pFresh s) first (nFresh s) (rsFlags s) (iBatch s), MkMem h (chunks m))) = Some (s1, m1) /\
    (t' = t \/ t' = ∅ /\ new = None) /\
    exists fs' cs', rs_inv m0 blk (MkSpec [] t' b) (MkRowSet (pChunk s1) 0 0 (pFresh s1) (pForest s1) (nFresh s1) (rsFlags s1 .| ROWSET_SORTED) b) m1 [] fs' cs'.
Proof.
  intros Ho Hf Hp Hne Hnd Hin Hn Hfr Hfl Ht. pose proof Hf as (Hs & Hok & _). rewrite emptied_nodes in Hs. pose proof Hnd as (_ & _ & Hnu)%NoDup_app.
  destruct (alloc_ok raw m0 blk s (MkMem h g) cs (nodes fs ++ ps) new Ho Hnd Hin Hn Hfr) as [[-> ->]|(pE & m1 & cs1 & c & f & n & ds & -> & Ho1 & Hnd1 & Hin1 & Hn1 & Hout & Hds)].
  - cbn [ents chunks Z.eqb negb]. apply NoDup_app in Hnu as (Hnn & _). destruct (put_ok h (pForest s) (final None fs) (nodes fs) 0 (final_tail _ _ _ _ Hs) Hnn) as (h1 & first & E1 & Hs1 & F1).
    rewrite E1. cbn [mbind option_bind]. eexists _, _, ∅. split; [reflexivity|]. split; [by right|]. exists (emptied fs), cs. cbn [pChunk pFresh pForest nFresh rsFlags]. rewrite or_sorted by done.
    apply batch_done; try done.
    + eapply (owned_frame _ _ (MkMem h g)); [exact Ho|exact F1|set_solver + Hin].
    + unfold forest. rewrite emptied_nodes, emptied_fents, app_nil_r. split_and!; [done| |done]. rewrite emptied_ok in Hok. apply emptied_ok. intros a Ha.
      destruct (Hok a Ha) as (ea & Ea & Ea0). destruct (put_left _ _ _ _ _ _ _ _ E1 Ea) as (e' & E' & El'). exists e'. split; congruence.
    + rewrite emptied_nodes, emptied_fents, app_nil_r. change (fresh _) with (fresh s). rewrite app_assoc in Hnd. by apply NoDup_app in Hnd as (? & _).
    + rewrite emptied_nodes, emptied_fents, app_nil_r. change (fresh _) with (fresh s). set_solver + Hin.
    + rewrite emptied_fents. intros x. split; [by intros ?%not_elem_of_nil|set_solver +].
  - set (s1 := refilled s c f n) in *. change (pForest s1) with (pForest s). cbn [ents] in Hout.
    destruct (ow_new _ _ _ _ _ Ho1 pE) as [HpE _]; [apply Hin1; set_solver +|]. destruct (ow_live _ _ _ _ _ Ho1 pE) as [e0 E0]; [apply Hin1; set_solver +|].
    assert (Hf1 : forest (ents m1) (pForest s) (emptied fs)).
    { eapply forest_outside; [exact Hout| |exact Hf]. rewrite emptied_nodes, emptied_fents, app_nil_r. intros y Hy. apply Hds. set_solver + Hy. }
    assert (Hpd : forall y, y ∈ ps -> y ∉ ds) by (intros y Hy; apply Hds; set_solver + Hy).
    assert (Hv1 : vals (ents m1) ps = vals h ps) by (by apply (vals_outside _ _ _ _ Hout)).
    assert (Hp1 : slist (ents m1) p ps) by (destruct Hp as [Hp Ha]; split; [by eapply seg_outside|by rewrite Hv1]).
    assert (HnE : NoDup (pE :: nodes fs ++ ps)).
    { apply NoDup_cons in Hnd1 as [Hn1' Hnd1]. constructor; [set_solver + Hn1'|done]. }
    destruct (new_node_ok (ents m1) (pForest s) fs p ps pE e0 Hf1 Hp1 Hne HnE HpE E0) as (h1 & first & h2 & h3 & root & h4 & t4 & -> & E2 & E3 & E4 & Hf4 & Ei & O4 & D4 & V4).
    cbn [mbind option_bind]. replace (pE =? 0) with false by (symmetry; by apply Z.eqb_neq). cbn [negb]. destruct (set_v 0 pE h1) as [hv|]; [|done]. cbn [mbind option_bind] in E2 |- *.
    rewrite E2. cbn [mbind option_bind]. rewrite E3. cbn [mbind option_bind]. rewrite E4. cbn [mbind option_bind]. eexists _, _, t. split; [reflexivity|]. split; [by left|].
    exists (emptied fs ++ [(pE, t4)]), cs1. cbn [pChunk pFresh pForest nFresh rsFlags s1 refilled]. rewrite or_sorted by done.
    assert (EN : nodes (emptied fs ++ [(pE, t4)]) ++ fents (emptied fs ++ [(pE, t4)]) = nodes fs ++ pE :: ps).
    { rewrite nodes_app, fents_app, emptied_nodes, emptied_fents, <- app_assoc. cbn [nodes fents map concat fst snd app]. by rewrite Ei, app_nil_r. }
    assert (EV : fents (emptied fs ++ [(pE, t4)]) = ps) by (rewrite fents_app, emptied_fents; cbn [fents map concat snd app]; by rewrite Ei, app_nil_r).
    apply batch_done; try done.
    + eapply owned_change; [exact Ho1|done|]. intros q Hq. apply O4. intros Hx. apply Hq, Hin1. set_solver + Hx.
    + rewrite EN. change (fresh _) with (fresh s1). by rewrite <- (Permutation_middle (nodes fs)), <- Permutation_middle.
    + rewrite EN. change (fresh _) with (fresh s1). set_solver + Hin1.
    + intros x. by rewrite EV, V4, Hv1.
Qed.

(** A node was free, or all trees were merged. *)
Lemma batch_sim raw m0 blk σ s m ps fs cs new b : rs_inv m0 blk σ s m ps fs cs -> few σ -> rsFlags s <> 3 -> fresh_chunk m new -> b <> batch σ ->
  exists s' m' t, test_batch raw new s m b = Some (s', m') /\ (t = tested σ ∪ list_to_set (pend σ) \/ t = ∅ /\ new = None) /\
    exists fs' cs', rs_inv m0 blk (MkSpec [] t b) s' m' [] fs' cs'.
Proof.
  intros Hi Hfew Hf3 Hfr Hb. pose proof Hi as [Ho Hl Hf Hnd Hin Hn Hfl Hso Hpe Hte Hba Hco]. unfold test_batch. rewrite Hba. replace (b =? batch σ) with false by (symmetry; by apply Z.eqb_neq). cbn [negb].
  destruct (Hco Hf3) as (Hla & Hlp). assert (Hfl1 : rsFlags s = 0 \/ rsFlags s = 1) by (destruct Hfl as [?|[?|?]]; [by left|by right|done]).
  rewrite (seg_null _ _ _ Hl). case_bool_decide as Hz; cbn [negb].
  - subst ps. cbn [mbind option_bind]. eexists _, _, (tested σ ∪ list_to_set (pend σ)). split; [reflexivity|]. split; [by left|]. exists fs, cs.
    split; cbn [pChunk pEntry pForest pLast nFresh rsFlags iBatch ents pend tested batch]; try done.
    intros x. rewrite Hte, elem_of_tested, <- Hpe. split; [by left|]. intros [Hx|Hx]; [done|by apply not_elem_of_nil in Hx].
  - destruct (batch_sorted _ _ _ _ _ _ _ _ Hi Hfew Hf3 Hz) as (h & p & qs & -> & Hq & Hq0 & Hnq & Hsub & Heq & F). cbn [mbind option_bind].
    pose proof Hnd as (Hnfr & Hdfr & (Hnp & Hdp & Hnff)%NoDup_app)%NoDup_app.
    assert (Hf1 : forest h (pForest s) fs) by (eapply forest_frame; [exact F| |exact Hf]; intros y Hy Hy2; by apply (Hdp y Hy2)).
    assert (Hnd1 : NoDup (nodes fs ++ fents fs ++ qs)).
    { rewrite app_assoc. apply NoDup_app. split_and!; [done| |done]. intros y Hy Hy2. apply (Hdp y); [by apply Hsub|done]. }
    assert (Hsz : (length fs <= size h)%nat).
    { replace (length fs) with (length (nodes fs)) by apply length_map. apply live_size; [by apply NoDup_app in Hnff as (? & _)|]. intros x Hx. by destruct (seg_live _ _ _ _ _ (proj1 Hf1) Hx). }
    destruct (forest_loop_ok fs (S (size h)) h None (pForest s) p qs ltac:(lia) Hf1 Hq Hq0 Hnd1) as (h2 & prev & pT & p2 & -> & F2 & Hadd). cbn [mbind option_bind].
    assert (Ho2 : owned m0 blk (MkMem h2 (chunks m)) (pChunk s) cs).
    { assert (F12 : frame (ps ++ nodes fs ++ fents fs ++ qs) (ents m) h2) by (eapply frame_trans; [exact F|exact F2|set_solver +|set_solver +]).
      eapply owned_frame; [exact Ho|exact F12|]. set_solver + Hin Hsub. }
    assert (Hv2 : forall l, vals h2 l = vals (ents m) l) by (intros l; by rewrite (frame_vals _ _ _ _ F2), (frame_vals _ _ _ _ F)).
    destruct Hadd as [(HT & fs' & Hf2 & En & Hsub2 & He2)|(-> & -> & ps' & Hf2 & Hps' & Hps0 & Hnps & Hsub2 & He2)].
    + replace (pT =? 0) with false by (symmetry; by apply Z.eqb_neq). cbn [mbind option_bind pChunk pEntry pLast pFresh pForest nFresh rsFlags iBatch]. rewrite or_sorted by done.
      eexists _, _, (tested σ ∪ list_to_set (pend σ)). split; [reflexivity|]. split; [by left|]. exists fs', cs. pose proof Hf2 as (_ & _ & Hnf2). apply batch_done; try done.
      * change (fresh _) with (fresh s). rewrite En in *. apply NoDup_app. split_and!; [done| |done]. intros y Hy Hy2. apply (Hdfr y Hy). set_solver + Hy2 Hsub2 Hsub.
      * change (fresh _) with (fresh s). rewrite En. intros y [Hy|[Hy|[Hy|Hy%Hsub]%Hsub2%elem_of_app]%elem_of_app]%elem_of_app; apply Hin; rewrite !elem_of_app; tauto.
      * intros x. rewrite Hv2, elem_of_tested, <- Hte, <- Heq. rewrite <- !(frame_vals _ _ _ _ F). rewrite He2. tauto.
    + cbn [Z.eqb].
      destruct (batch_node raw m0 blk s h2 (chunks m) cs fs p2 ps' new b (tested σ ∪ list_to_set (pend σ)) Ho2 Hf2 Hps' Hps0) as (s1 & m1 & t' & E1 & Ht' & fs' & cs' & Hi'); try done.
      * apply NoDup_app. split_and!; [done|intros y Hy Hy2; apply (Hdfr y Hy); set_solver + Hy2 Hsub2 Hsub|]. apply NoDup_app in Hnd1 as (Hn1 & Hd1 & _). apply NoDup_app.
        split_and!; [done|intros y Hy Hy2; by apply (Hd1 y Hy), Hsub2|done].
      * intros y [Hy|[Hy|[Hy|Hy%Hsub]%Hsub2%elem_of_app]%elem_of_app]%elem_of_app; apply Hin; rewrite !elem_of_app; tauto.
      * intros c0 Hc0. destruct (Hfr c0 Hc0) as (A & B & C). split_and!; try done. intros x Hx. specialize (C x Hx). cbn [ents].
        apply not_elem_of_dom. rewrite (fr_dom _ _ _ F2), (fr_dom _ _ _ F). by apply not_elem_of_dom.
      * intros x. rewrite Hv2, elem_of_tested, <- Hte, <- Heq. rewrite <- !(frame_vals _ _ _ _ F). rewrite He2. tauto.
      * rewrite E1. cbn [mbind option_bind]. eexists _, _, t'. split; [reflexivity|]. split; [done|]. by exists fs', cs'.
Qed.

Lemma test_sim raw m0 blk σ s m ps fs cs new b x : rs_inv m0 blk σ s m ps fs cs -> few σ -> rs_legal s m (RTest new b x) ->
  exists r s' m' σ', sqlite3RowSetTest raw new s m b x = Some (r, s', m') /\ rs_does σ (RTest new b x) (Some r) σ' /\ exists ps' fs' cs', rs_inv m0 blk σ' s' m' ps' fs' cs'.
Proof.
  intros Hi Hfew (Hnx & Hfr). assert (Hf3 : rsFlags s <> 3) by (by intros Ex; rewrite Ex in Hnx). unfold sqlite3RowSetTest.
  assert (HB : exists s1 m1 σ1 ps1 fs1 cs1, test_batch raw new s m b = Some (s1, m1) /\ rs_inv m0 blk σ1 s1 m1 ps1 fs1 cs1 /\
    rs_does σ (RTest new b x) (Some (if bool_decide (x ∈ tested σ1) then 1 else 0)) σ1).
  { destruct (decide (b = batch σ)) as [->|Hb].
    - exists s, m, σ, ps, fs, cs. unfold test_batch. rewrite (ri_batch _ _ _ _ _ _ _ _ Hi), Z.eqb_refl. split; [done|]. split; [done|].
      pose proof (does_test_old σ new (batch σ) x eq_refl) as Hd. by destruct σ.
    - destruct (batch_sim raw m0 blk σ s m ps fs cs new b Hi Hfew Hf3 Hfr Hb) as (s1 & m1 & t & -> & Ht & fs1 & cs1 & Hi1). exists s1, m1, (MkSpec [] t b), [], fs1, cs1.
      split; [done|]. split; [done|]. cbn [tested]. destruct Ht as [->|[-> ->]]; [by apply does_test_new|]. rewrite bool_decide_eq_false_2 by set_solver +. by apply does_test_oom. }
  destruct HB as (s1 & m1 & σ1 & ps1 & fs1 & cs1 & -> & Hi1 & Hd). cbn [mbind option_bind]. pose proof (ri_forest _ _ _ _ _ _ _ _ Hi1) as Hf.
  assert (Hsz : (length fs1 <= size (ents m1))%nat).
  { replace (length fs1) with (length (nodes fs1)) by apply length_map. destruct Hf as (Hs & _ & Hn). apply live_size; [by apply NoDup_app in Hn as (? & _)|].
    intros y Hy. by destruct (seg_live _ _ _ _ _ Hs Hy). }
  rewrite (forest_search_ok _ x fs1) by (done || lia). cbn [mbind option_bind]. eexists _, _, _, σ1. split; [reflexivity|]. split; [|by exists ps1, fs1, cs1].
  rewrite (bool_decide_ext _ _ (ri_tested _ _ _ _ _ _ _ _ Hi1 x)). exact Hd.
Qed.

Lemma rs_op_sim raw m0 blk σ s m ps fs cs o : rs_inv m0 blk σ s m ps fs cs -> few σ -> rs_legal s m o ->
  exists r s' m' σ', rs_run raw s m o = Some (r, s', m') /\ rs_does σ o r σ' /\ exists ps' fs' cs', rs_inv m0 blk σ' s' m' ps' fs' cs'.
Proof.
  intros Hi Hfew Hl. destruct o as [new x|new b x| |]; cbn [rs_run].
  - destruct (insert_sim raw _ _ _ _ _ _ _ _ _ _ Hi Hl) as (s' & m' & σ' & -> & Hd & ps' & cs' & Hi'). cbn [mbind option_bind]. eexists _, _, _, σ'. split; [reflexivity|]. split; [done|]. by exists ps', fs, cs'.
  - destruct (test_sim raw _ _ _ _ _ _ _ _ _ _ _ Hi Hfew Hl) as (r & s' & m' & σ' & -> & Hd & Hi'). cbn [mbind option_bind]. eexists _, _, _, σ'. split; [reflexivity|]. by split.
  - by eapply next_sim.
  - destruct (clear_sim m0 blk σ s m ps fs cs (MkSpec [] ∅ (batch σ)) Hi) as (s' & m' & -> & Hi'); try done. cbn [mbind option_bind]. eexists _, _, _, _. split; [reflexivity|].
    split; [apply does_clear|]. by exists [], [], [].
Qed.

(** ** Runs *)

(** The block of a new set: [N] bytes at [p], whose entries are not in use. *)
Definition rs_block (p N : Z) : list Z := entry_array (sizeof_rowset + p) (Z.to_nat ((N - sizeof_rowset) / sizeof_entry)).

Definition fresh_block (m : mem) (p N : Z) : Prop := 0 < p /\ sizeof_rowset <= N /\ forall x, x ∈ rs_block p N -> ents m !! x = None.

Definition rs_empty : rs_spec := MkSpec [] ∅ 0.

(** The states that legal operations lead to from a new set, with the operations
    and their results. *)
Inductive rs_runs (raw : Z -> RowSetEntry) (m0 : mem) (p N : Z) : list (rs_op * option Z) -> RowSet -> mem -> Prop :=
  | runs_init s m : fresh_block m0 p N -> sqlite3RowSetInit raw (Some (p, N)) m0 = (Some s, m) -> rs_runs raw m0 p N [] s m
  | runs_step tr s m o r s' m' : rs_runs raw m0 p N tr s m -> rs_legal s m o -> rs_run raw s m o = Some (r, s', m') -> rs_runs raw m0 p N (tr ++ [(o, r)]) s' m'.

Inductive spec_runs : list (rs_op * option Z) -> rs_spec -> Prop :=
  | spec_init : spec_runs [] rs_empty
  | spec_step tr σ o r σ' : spec_runs tr σ -> rs_does σ o r σ' -> spec_runs (tr ++ [(o, r)]) σ'.

Lemma spec_runs_length tr σ : spec_runs tr σ -> (length (pend σ) <= length tr)%nat.
Proof.
  induction 1 as [|tr σ o r σ' _ IH Hd]; [done|]. rewrite length_app. cbn [length]. destruct Hd; cbn [pend length] in *; try lia; [rewrite length_app; cbn [length]; lia|].
  etrans; [apply length_filter|lia].
Qed.

Lemma entry_array_prefix b k n x : (k <= n)%nat -> x ∈ entry_array b k -> x ∈ entry_array b n.
Proof.
  intros Hk (i & -> & Hi)%list_elem_of_fmap. apply list_elem_of_fmap. exists i. split; [done|]. apply elem_of_seq in Hi. apply elem_of_seq. lia.
Qed.

Lemma init_inv raw m0 p N s m : fresh_block m0 p N -> sqlite3RowSetInit raw (Some (p, N)) m0 = (Some s, m) -> rs_inv m0 (rs_block p N) rs_empty s m [] [] [].
Proof.
  intros (Hp & HN & Hx) [= <- <-]. set (n := (N - sizeof_rowset) / sizeof_entry).
  assert (Hn : 0 <= n) by (apply Z.div_pos; unfold sizeof_entry; lia). assert (Hu : 0 <= u16 n <= n) by (unfold u16; pose proof (Z.mod_pos_bound n (2 ^ 16)); pose proof (Z.mod_le n (2 ^ 16)); lia).
  assert (Eo : own (rs_block p N) [] = rs_block p N) by (unfold own; apply app_nil_r).
  split; cbn [pChunk pEntry pForest pLast nFresh rsFlags iBatch ents rs_empty pend tested batch]; try done.
  - split; rewrite ?Eo; cbn [ents chunks]; try done.
    + apply entry_array_NoDup.
    + intros x Hxb. split; [apply entry_array_ge in Hxb; unfold sizeof_rowset in Hxb; lia|by apply Hx].
    + intros x Hxb. eexists. by apply raw_entries_in.
    + intros x Hxb. by apply raw_entries_out.
    + constructor.
    + intros x Hxb. by apply not_elem_of_nil in Hxb.
  - split_and!; [done|constructor|constructor].
  - rewrite app_nil_r. apply entry_array_NoDup.
  - rewrite app_nil_r, Eo. intros x Hxf. unfold fresh in Hxf. cbn [pFresh nFresh] in Hxf. eapply entry_array_prefix; [|exact Hxf]. fold n. lia.
  - by apply u16_range.
  - by right; left.
  - intros _. constructor.
  - intros x. split; [by intros ?%not_elem_of_nil|set_solver +].
Qed.

Lemma runs_inv raw m0 p N tr s m : rs_runs raw m0 p N tr s m -> Z.of_nat (length tr) < 2 ^ 40 ->
  exists σ ps fs cs, spec_runs tr σ /\ rs_inv m0 (rs_block p N) σ s m ps fs cs.
Proof.
  induction 1 as [s m Hb E|tr s m o r s' m' _ IH Hl E]; intros Hlen.
  - exists rs_empty, [], [], []. split; [constructor|by eapply init_inv].
  - rewrite length_app in Hlen. cbn [length] in Hlen. destruct IH as (σ & ps & fs & cs & Hs & Hi); [lia|]. pose proof (spec_runs_length _ _ Hs).
    destruct (rs_op_sim raw _ _ _ _ _ _ _ _ o Hi ltac:(unfold few; lia) Hl) as (r' & s2 & m2 & σ' & E' & Hd & ps' & fs' & cs' & Hi'). rewrite E in E'. injection E' as -> -> ->.
    exists σ', ps', fs', cs'. split; [by econstructor|done].
Qed.

(** ** A sample *)

Definition raw_zero (p : Z) : RowSetEntry := MkEntry 0 0 0.

(** A set whose block holds one entry, and its states after the insertion of 7, 3
    and 7, and a test. *)
Definition rs_after (o : rs_op) (st : RowSet * mem) : RowSet * mem :=
  match rs_run raw_zero (fst st) (snd st) o with Some (_, s, m) => (s, m) | None => st end.

Definition rs_sample0 : RowSet * mem :=
  match sqlite3RowSetInit raw_zero (Some (1000, 80)) (MkMem ∅ ∅) with (Some s, m) => (s, m) | (None, m) => (MkRowSet 0 0 0 0 0 0 0 0, m) end.
Definition rs_sample1 : RowSet * mem := rs_after (RInsert None 7) rs_sample0.
Definition rs_sample2 : RowSet * mem := rs_after (RInsert (Some 5000) 3) rs_sample1.
Definition rs_sample3 : RowSet * mem := rs_after (RInsert None 7) rs_sample2.
Definition rs_sample4 : RowSet * mem := rs_after (RTest None 1 3) rs_sample3.

Abbreviation sample_runs tr st := (rs_runs raw_zero (MkMem ∅ ∅) 1000 80 tr (fst st) (snd st)).

Lemma rs_sample_inserted : sample_runs [(RInsert None 7, None); (RInsert (Some 5000) 3, None); (RInsert None 7, None)] rs_sample3.
Proof.
  assert (H0 : sample_runs [] rs_sample0).
  { apply runs_init; [|reflexivity]. split; [lia|]. split; [unfold sizeof_rowset; lia|]. intros x _. apply lookup_empty. }
  assert (H1 : sample_runs [(RInsert None 7, None)] rs_sample1).
  { apply (runs_step _ _ _ _ [] _ _ _ None _ _ H0); [by split|vm_compute; reflexivity]. }
  assert (H2 : sample_runs [(RInsert None 7, None); (RInsert (Some 5000) 3, None)] rs_sample2).
  { apply (runs_step _ _ _ _ [(RInsert None 7, None)] _ _ _ None _ _ H1); [|vm_compute; reflexivity]. split; [reflexivity|]. intros c [= <-]. split; [lia|]. split; [reflexivity|].
    intros x Hx%entry_array_ge. unfold aEntry in Hx. replace (ents (snd rs_sample1)) with (<[1056 := MkEntry 7 0 0]> (∅ : entries)) by (vm_compute; reflexivity).
    rewrite lookup_insert_ne by lia. apply lookup_empty. }
  apply (runs_step _ _ _ _ [(RInsert None 7, None); (RInsert (Some 5000) 3, None)] _ _ _ None _ _ H2); [by split|vm_compute; reflexivity].
Qed.

Lemma rs_sample_tested : sample_runs [(RInsert None 7, None); (RInsert (Some 5000) 3, None); (RInsert None 7, None); (RTest None 1 3, Some 1)] rs_sample4.
Proof.
  apply (runs_step _ _ _ _ [(RInsert None 7, None); (RInsert (Some 5000) 3, None); (RInsert None 7, None)] _ _ _ (Some 1) _ _ rs_sample_inserted); [by split|vm_compute; reflexivity].
Qed.

(** ** Properties *)

(** C33. A row set is a set of rowids.  In every run of legal operations from a new
    set, with fewer than 2^40 operations, the results are those of a set: a test
    answers whether the rowid was inserted before the last change of the batch
    number, an extraction gives the smallest rowid left and removes it, each rowid
    once.  The next legal operation returns as well, without an access outside of
    live entries.  Only when the allocator has no memory is an insertion lost, or
    do all rowids vanish in a test. *)
Theorem sqlite3RowSet_refines_set raw m0 p N tr s m : rs_runs raw m0 p N tr s m -> Z.of_nat (length tr) < 2 ^ 40 ->
  exists σ, spec_runs tr σ /\ forall o, rs_legal s m o -> exists r s' m' σ', rs_run raw s m o = Some (r, s', m') /\ rs_does σ o r σ'.
Proof.
  intros Hr Hlen. destruct (runs_inv _ _ _ _ _ _ _ Hr Hlen) as (σ & ps & fs & cs & Hs & Hi). exists σ. split; [exact Hs|]. intros o Ho. pose proof (spec_runs_length _ _ Hs).
  destruct (rs_op_sim raw _ _ _ _ _ _ _ _ o Hi ltac:(unfold few; lia) Ho) as (r & s' & m' & σ' & E & Hd & _). by exists r, s', m', σ'.
Qed.

Lemma sqlite3RowSet_refines_set_witness : exists σ r s' m' σ', rs_run raw_zero (fst rs_sample3) (snd rs_sample3) RNext = Some (r, s', m') /\ rs_does σ RNext r σ' /\ r = Some 3.
Proof.
  destruct (sqlite3RowSet_refines_set _ _ _ _ _ _ _ rs_sample_inserted) as (σ & _ & H); [cbn [length]; lia|]. destruct (H RNext eq_refl) as (r & s' & m' & σ' & E & Hd).
  exists σ, r, s', m', σ'. split; [exact E|]. split; [exact Hd|]. apply (f_equal (fun x => option_map (fun y => fst (fst y)) x)) in E. vm_compute in E. congruence.
Defined.

(** A row set gives back its memory.  After any run [sqlite3RowSetDelete] returns, and the
    memory is exactly what it was before [sqlite3RowSetInit]: every chunk is freed
    once, and no entry of another owner was changed. *)
Theorem sqlite3RowSetDelete_frees raw m0 p N tr s m : rs_runs raw m0 p N tr s m -> Z.of_nat (length tr) < 2 ^ 40 -> sqlite3RowSetDelete p N s m = Some m0.
Proof.
  intros Hr Hlen. destruct (runs_inv _ _ _ _ _ _ _ Hr Hlen) as (σ & ps & fs & cs & _ & Hi). unfold sqlite3RowSetDelete.
  destruct (clear_owned _ _ _ _ _ (ri_own _ _ _ _ _ _ _ _ Hi)) as (m' & -> & Ho). cbn [mbind option_bind]. f_equal. by apply owned_given_back.
Qed.

Lemma sqlite3RowSetDelete_frees_witness : sqlite3RowSetDelete 1000 80 (fst rs_sample4) (snd rs_sample4) = Some (MkMem ∅ ∅).
Proof. apply (sqlite3RowSetDelete_frees _ _ _ _ _ _ _ rs_sample_tested). cbn [length]. lia. Defined.

(** C34. The trees stay balanced.  In every reachable state the forest is a list of
    search trees, and a tree of n rowids has at most 1 + log2 n levels, which
    bounds the search and the recursion of [rowSetTreeToList]. *)
Theorem rowSet_forest_balanced raw m0 p N tr s m : rs_runs raw m0 p N tr s m -> Z.of_nat (length tr) < 2 ^ 40 ->
  exists fs, forest (ents m) (pForest s) fs /\ forall a t, (a, t) ∈ fs -> t <> Leaf -> Z.of_nat (height t) <= 1 + Z.log2 (alen (inorder t)).
Proof.
  intros Hr Hlen. destruct (runs_inv _ _ _ _ _ _ _ Hr Hlen) as (σ & ps & fs & cs & _ & Hi). pose proof (ri_forest _ _ _ _ _ _ _ _ Hi) as Hf. exists fs. split; [exact Hf|].
  intros a t Hat Hlf. destruct Hf as (_ & Hok & _). rewrite Forall_forall in Hok. destruct (Hok _ Hat) as (_ & _ & _ & _ & [?|Hb]); [done|]. cbn [snd] in Hb. unfold balanced in Hb.
  destruct t as [|l b r]; [done|]. set (t := Node l b r) in *. assert (Hh : (1 <= height t)%nat) by (cbn; lia). set (n := length (inorder t)) in *. unfold alen. fold n.
  assert (Z.of_nat (height t) - 1 <= Z.log2 (Z.of_nat n)); [|lia]. apply Z.log2_le_pow2; [unfold n, t; cbn [inorder]; rewrite length_app; cbn [length]; lia|].
  apply inj_le in Hb. rewrite Nat2Z.inj_pow, Nat2Z.inj_mul in Hb. change (Z.of_nat 2) with 2 in Hb.
  replace (Z.of_nat (height t)) with (Z.succ (Z.of_nat (height t) - 1)) in Hb by lia. rewrite Z.pow_succ_r in Hb by lia. lia.
Qed.

Lemma rowSet_forest_balanced_witness : pForest (fst rs_sample4) <> 0 /\ exists fs, forest (ents (snd rs_sample4)) (pForest (fst rs_sample4)) fs.
Proof.
  split; [by vm_compute|]. destruct (rowSet_forest_balanced _ _ _ _ _ _ _ rs_sample_tested) as (fs & Hf & _); [cbn [length]; lia|]. exists fs. exact Hf.
Defined.
