(* ===== verification/BtBase.v ===== *)
(** * B-tree pages: structures and byte accesses ([src/btree.c], [src/btreeInt.h])

    The constants and structures of the B-tree layer, the accesses to 16-bit
    integers of a page image, and the C library's [memcpy], [memmove] and [memset] on
    a page image, which fail on an access outside of it. *)
From S2P Require Import Prelude FileIO.

(** ** Constants *)

Definition PTF_INTKEY : Z := 0x01.
Definition PTF_ZERODATA : Z := 0x02.
Definition PTF_LEAFDATA : Z := 0x04.
Definition PTF_LEAF : Z := 0x08.

Definition BTS_FAST_SECURE : Z := 0x000c.
Definition PTRMAP_OVERFLOW1 : Z := 3.

(** ** Structures *)

(** The fields of [BtShared] that page operations read; [cellSizeCk] is the test
    [db->flags & SQLITE_CellSizeCk]. *)
Record BtShared := {
  pageSize : Z;
  usableSize : Z;
  bt_maxLocal : Z;
  bt_minLocal : Z;
  maxLeaf : Z;
  minLeaf : Z;
  bt_max1bytePayload : Z;
  btsFlags : Z;
  autoVacuum : bool;
  cellSizeCk : bool
}.

(** The functions that the method pointers of [MemPage] point to. *)
Inductive xCellSize_fn : Type :=
  | CellSizePtr | CellSizePtrIdxLeaf | CellSizePtrNoPayload | CellSizePtrTableLeaf.
Inductive xParseCell_fn : Type :=
  | ParseCellPtr | ParseCellPtrIndex | ParseCellPtrNoPayload.

(** [aCellIdx], [aDataOfst] and [aDataEnd] point into [aData] and are given by
    [cellOffset], [childPtrSize] and [pageSize]; [apOvfl] holds the bytes of the
    overflow cells. *)
Record MemPage := {
  isInit : Z;
  intKey : Z;
  intKeyLeaf : Z;
  pgno : Z;
  leaf : Z;
  hdrOffset : Z;
  childPtrSize : Z;
  max1bytePayload : Z;
  nOverflow : Z;
  maxLocal : Z;
  minLocal : Z;
  cellOffset : Z;
  nFree : Z;
  nCell : Z;
  maskPage : Z;
  aiOvfl : list Z;
  apOvfl : list (list Z);
  aData : list Z;
  xCellSize : xCellSize_fn;
  xParseCell : xParseCell_fn
}.

(** [pPayload] is the offset from the start of the cell. *)
Record CellInfo := {
  nKey : Z;
  pPayload : Z;
  nPayload : Z;
  nLocal : Z;
  nSize : Z
}.

Definition MX_CELL (pBt : BtShared) : Z := (pageSize pBt - 8) / 6.

(** ** Accesses to a page image *)

Definition get2byte (p : list Z) (i : Z) : option Z :=
  x ← aget p i; y ← aget p (i + 1); Some ((x << 8) .| y).

Definition get2byteNotZero (p : list Z) (i : Z) : option Z :=
  x ← get2byte p i; Some (((x - 1) .& 0xffff) + 1).

Definition put1byte (p : list Z) (i v : Z) : option (list Z) := mwrite p i [v].
Definition put2byte (p : list Z) (i v : Z) : option (list Z) := mwrite p i [u8 (v >> 8); u8 v].

Definition memmove (p : list Z) (dst src n : Z) : option (list Z) :=
  bs ← mread p src n; mwrite p dst bs.

(** A negative length is a huge [size_t]. *)
Definition memset (p : list Z) (off v n : Z) : option (list Z) :=
  if 0 <=? n then mwrite p off (replicate (Z.to_nat n) v) else None.

(** The bytes from [off] on, as a pointer [&p[off]] gives access to them. *)
Definition mfrom (p : list Z) (off : Z) : option (list Z) :=
  if (0 <=? off) && (off <=? alen p) then Some (drop (Z.to_nat off) p) else None.

(** ** Lemmas *)

(** The big-endian integer at an offset, as a total function. *)
Definition w16 (p : list Z) (i : Z) : Z := fbyte p i * 256 + fbyte p (i + 1).

Lemma w16_range p i : Forall is_u8 p -> is_u16 (w16 p i).
Proof.
  intros Hp. pose proof (fbyte_u8 p i Hp). pose proof (fbyte_u8 p (i + 1) Hp).
  unfold w16, is_u8, is_u16 in *. lia.
Qed.

Lemma get2byte_w16 p i : Forall is_u8 p -> 0 <= i -> i + 2 <= alen p ->
  get2byte p i = Some (w16 p i).
Proof.
  intros Hp H1 H2. unfold get2byte, w16. rewrite !aget_fbyte by lia. cbn [mbind option_bind].
  pose proof (fbyte_u8 p (i + 1) Hp) as Hb. unfold is_u8 in Hb.
  rewrite Z.shiftl_mul_pow2, lor_add_low by lia. done.
Qed.

Lemma get2byteNotZero_w16 p i : Forall is_u8 p -> 0 <= i -> i + 2 <= alen p ->
  get2byteNotZero p i = Some (if w16 p i =? 0 then 65536 else w16 p i).
Proof.
  intros Hp H1 H2. unfold get2byteNotZero. rewrite get2byte_w16 by done. cbn [mbind option_bind].
  pose proof (w16_range p i Hp) as Hw. unfold is_u16 in Hw. rewrite (land_ones_mod _ 16) by lia.
  destruct (Z.eqb_spec (w16 p i) 0) as [->|]; [done|]. f_equal. zdm.
Qed.

Lemma w16_same p q i : (forall j, i <= j < i + 2 -> fbyte q j = fbyte p j) -> w16 q i = w16 p i.
Proof. intros H. unfold w16. rewrite !H by lia. done. Qed.

(** What a store leaves: the bytes of the store in its range, the old ones around it. *)
Definition bytes_stored (p : list Z) (off : Z) (bs : list Z) (q : list Z) : Prop :=
  alen q = alen p /\ (Forall is_u8 p -> Forall is_u8 bs -> Forall is_u8 q) /\
  (forall i, off <= i < off + alen bs -> fbyte q i = fbyte bs (i - off)) /\
  (forall i, i < off \/ off + alen bs <= i -> fbyte q i = fbyte p i).

Lemma mwrite_stored p off bs : 0 <= off -> off + alen bs <= alen p ->
  exists q, mwrite p off bs = Some q /\ bytes_stored p off bs q.
Proof.
  intros H1 H2. unfold mwrite. rewrite !(proj2 (Z.leb_le _ _)) by lia. cbn [andb].
  eexists. split; [done|]. split_and!.
  - rewrite alen_write by lia. lia.
  - intros. by apply fwrite_u8.
  - intros i Hi. rewrite fbyte_write by lia. destruct (Z.leb_spec off i); [|lia].
    destruct (Z.ltb_spec i (off + alen bs)); [done|lia].
  - intros i Hi. destruct (Z.le_gt_cases 0 i).
    + rewrite fbyte_write by lia. destruct (Z.leb_spec off i), (Z.ltb_spec i (off + alen bs)); try done; lia.
    + rewrite !fbyte_out by lia. done.
Qed.

(** A store that changes only the [n] bytes from [off] on. *)
Definition changed (p : list Z) (off n : Z) (q : list Z) : Prop :=
  alen q = alen p /\ (Forall is_u8 p -> Forall is_u8 q) /\
  (forall i, i < off \/ off + n <= i -> fbyte q i = fbyte p i).

Lemma stored_changed p off bs q : Forall is_u8 bs -> bytes_stored p off bs q -> changed p off (alen bs) q.
Proof. intros Hb (H1 & H2 & H3 & H4). split_and!; auto. Qed.

Lemma changed_w16 p off n q i : changed p off n q -> i + 2 <= off \/ off + n <= i -> w16 q i = w16 p i.
Proof. intros (_ & _ & H) Hi. apply w16_same. intros j Hj. apply H. lia. Qed.

Lemma u8_bytes2 a b : Forall is_u8 [u8 a; u8 b].
Proof. repeat constructor; apply u8_range. Qed.

Lemma put2byte_ok p i v : 0 <= i -> i + 2 <= alen p ->
  exists q, put2byte p i v = Some q /\ changed p i 2 q /\ w16 q i = u16 v.
Proof.
  intros H1 H2. unfold put2byte.
  destruct (mwrite_stored p i [u8 (v >> 8); u8 v] H1 ltac:(done)) as (q & -> & Hq).
  exists q. split_and!; [done|by apply (stored_changed p i [u8 (v >> 8); u8 v]); [apply u8_bytes2|]|].
  destruct Hq as (_ & _ & H & _). change (alen [u8 (v >> 8); u8 v]) with 2 in H. unfold w16. rewrite !H by lia.
  replace (i - i) with 0 by lia. replace (i + 1 - i) with 1 by lia.
  change (u8 (v >> 8) * 256 + u8 v = u16 v). unfold u8, u16. rewrite Z.shiftr_div_pow2 by lia. zdm.
Qed.

Lemma put1byte_ok p i v : 0 <= i -> i + 1 <= alen p -> is_u8 v ->
  exists q, put1byte p i v = Some q /\ changed p i 1 q /\ fbyte q i = v.
Proof.
  intros H1 H2 Hv. unfold put1byte. destruct (mwrite_stored p i [v] H1 ltac:(done)) as (q & -> & Hq).
  exists q. split_and!; [done|by apply (stored_changed p i [v]); [repeat constructor; apply Hv|]|].
  destruct Hq as (_ & _ & H & _). change (alen [v]) with 1 in H. rewrite H by lia. by rewrite Z.sub_diag.
Qed.

Lemma alen_replicate (n : nat) (v : Z) : alen (replicate n v) = Z.of_nat n.
Proof. unfold alen. by rewrite length_replicate. Qed.

Lemma memset_ok p off n : 0 <= off -> 0 <= n -> off + n <= alen p ->
  exists q, memset p off 0 n = Some q /\ changed p off n q.
Proof.
  intros H1 H2 H3. unfold memset. rewrite (proj2 (Z.leb_le 0 n)) by lia.
  destruct (mwrite_stored p off (replicate (Z.to_nat n) 0) H1) as (q & -> & Hq).
  { rewrite alen_replicate. lia. }
  exists q. split; [done|]. apply stored_changed in Hq; [|by apply Forall_replicate; unfold is_u8].
  rewrite alen_replicate, Z2Nat.id in Hq by lia. done.
Qed.

Lemma memmove_ok p dst src n : Forall is_u8 p -> 0 <= n -> 0 <= src -> src + n <= alen p -> 0 <= dst -> dst + n <= alen p ->
  exists q, memmove p dst src n = Some q /\ changed p dst n q /\
    (forall i, dst <= i < dst + n -> fbyte q i = fbyte p (src + (i - dst))).
Proof.
  intros Hp Hn H1 H2 H3 H4. unfold memmove. rewrite mread_ok by lia. cbn [mbind option_bind].
  destruct (mwrite_stored p dst (fread p src n)) as (q & -> & Hq); [done|rewrite alen_fread; lia|].
  exists q. split_and!; [done| |].
  - apply stored_changed in Hq; [|by apply fread_u8]. by rewrite alen_fread in Hq.
  - intros i Hi. destruct Hq as (_ & _ & H & _). rewrite alen_fread in H by done. rewrite H by lia.
    apply fbyte_fread. lia.
Qed.
