(* ===== verification/BtCell.v ===== *)
(** * Cells of B-tree pages ([src/btree.c])

    The reading of a cell: [xParseCell] and [xCellSize] for the four kinds of pages,
    with the variable-length integers they decode inline, the split of a payload
    between a page and its overflow pages, and [decodeFlags], which chooses them.
    A cell is read from the list of bytes that its address gives access to. *)
From S2P Require Import Prelude Varint Bytes FileIO BtBase.

(** ** Inlined variable-length integers *)

(** The block at the start of [btreeParseCellPtr], repeated in
    [btreeParseCellPtrIndex], [cellSizePtr], [cellSizePtrIdxLeaf] and
    [cellSizePtrTableLeaf]: the loop, then the value and the number of bytes read. *)
Fixpoint payload_loop (fuel : nat) (p : list Z) (n pIter pEnd : Z) : option (Z * Z) :=
  match fuel with
  | O => None
  | S fuel =>
      let pIter := pIter + 1 in
      x ← aget p pIter;
      let n := u32 (n << 7) .| (x .& 0x7f) in
      if (0x80 <=? x) && (pIter <? pEnd) then payload_loop fuel p n pIter pEnd
      else Some (n, pIter)
  end.

Definition readPayload (p : list Z) : option (Z * Z) :=
  x ← aget p 0;
  '(n, pIter) ← (if 0x80 <=? x then payload_loop 8 p (x .& 0x7f) 0 8 else Some (x, 0));
  Some (n, pIter + 1).

(** The unrolled block of [btreeParseCellPtr] that reads the key. *)
Definition readKey (p : list Z) : option (Z * Z) :=
  iKey ← aget p 0;
  if negb (0x80 <=? iKey) then Some (iKey, 1) else
  x ← aget p 1;
  let iKey := Z.lxor (u64 (iKey << 7)) x in
  if negb (0x80 <=? x) then Some (Z.lxor iKey 0x4000, 2) else
  x ← aget p 2;
  let iKey := Z.lxor (u64 (iKey << 7)) x in
  if negb (0x80 <=? x) then Some (Z.lxor iKey 0x204000, 3) else
  x ← aget p 3;
  let iKey := Z.lxor (Z.lxor (u64 (iKey << 7)) 0x10204000) x in
  if negb (0x80 <=? x) then Some (iKey, 4) else
  x ← aget p 4;
  let iKey := Z.lxor (Z.lxor (u64 (iKey << 7)) 0x4000) x in
  if negb (0x80 <=? x) then Some (iKey, 5) else
  x ← aget p 5;
  let iKey := Z.lxor (Z.lxor (u64 (iKey << 7)) 0x4000) x in
  if negb (0x80 <=? x) then Some (iKey, 6) else
  x ← aget p 6;
  let iKey := Z.lxor (Z.lxor (u64 (iKey << 7)) 0x4000) x in
  if negb (0x80 <=? x) then Some (iKey, 7) else
  x ← aget p 7;
  let iKey := Z.lxor (Z.lxor (u64 (iKey << 7)) 0x4000) x in
  if negb (0x80 <=? x) then Some (iKey, 8) else
  x ← aget p 8;
  Some (Z.lxor (Z.lxor (u64 (iKey << 8)) 0x8000) x, 9).

(** The empty loop of [cellSizePtrNoPayload], which goes on while the byte it steps
    over has its high bit set and [pIter<pEnd]: where it stops. *)
Fixpoint skip_loop (fuel : nat) (p : list Z) (pIter pEnd : Z) : option Z :=
  match fuel with
  | O => None
  | S fuel =>
      x ← aget p pIter;
      let pIter := pIter + 1 in
      if negb (x .& 0x80 =? 0) && (pIter <? pEnd) then skip_loop fuel p pIter pEnd else Some pIter
  end.

(** The condition of [cellSizePtrTableLeaf] that steps over the key: eight tests of
    a byte each, then one byte more, which is not looked at. *)
Fixpoint skip_key (n : nat) (p : list Z) (pIter : Z) : option Z :=
  match n with
  | O => Some (pIter + 1)
  | S n =>
      x ← aget p pIter;
      if negb (x .& 0x80 =? 0) then skip_key n p (pIter + 1) else Some (pIter + 1)
  end.

(** ** Local payload *)

Definition btreeParseCellAdjustSizeForOverflow (pBt : BtShared) (pPage : MemPage) (pInfo : CellInfo)
  : CellInfo :=
  let surplus := i32 (u32 (minLocal pPage
                  + u32 (nPayload pInfo - minLocal pPage) mod u32 (usableSize pBt - 4))) in
  let nLocal := if surplus <=? maxLocal pPage then u16 surplus else u16 (minLocal pPage) in
  {| nKey := nKey pInfo; pPayload := pPayload pInfo; nPayload := nPayload pInfo;
     nLocal := nLocal; nSize := u16 (u16 (pPayload pInfo + nLocal) + 4) |}.

Definition btreePayloadToLocal (pBt : BtShared) (pPage : MemPage) (nPayload : Z) : Z :=
  if nPayload <=? maxLocal pPage then i32 nPayload
  else
    let surplus := i32 (minLocal pPage + Z.rem (nPayload - minLocal pPage) (u32 (usableSize pBt - 4))) in
    if surplus <=? maxLocal pPage then surplus else minLocal pPage.

(** ** [xParseCell] *)

Definition btreeParseCellPtrNoPayload (pCell : list Z) : option CellInfo :=
  p ← mfrom pCell 4;
  '(k, n) ← sqlite3GetVarint p;
  Some {| nKey := i64 k; pPayload := 0; nPayload := 0; nLocal := 0; nSize := u16 (4 + n) |}.

(** The tail that [btreeParseCellPtr] and [btreeParseCellPtrIndex] share. *)
Definition parse_sizes (pBt : BtShared) (pPage : MemPage) (key pIter n : Z) : CellInfo :=
  if n <=? maxLocal pPage then
    let s := u16 (n + u16 pIter) in
    {| nKey := key; pPayload := pIter; nPayload := n; nLocal := u16 n; nSize := if s <? 4 then 4 else s |}
  else
    btreeParseCellAdjustSizeForOverflow pBt pPage
      {| nKey := key; pPayload := pIter; nPayload := n; nLocal := 0; nSize := 0 |}.

Definition btreeParseCellPtr (pBt : BtShared) (pPage : MemPage) (pCell : list Z) : option CellInfo :=
  '(n, pIter) ← readPayload pCell;
  p ← mfrom pCell pIter;
  '(iKey, k) ← readKey p;
  Some (parse_sizes pBt pPage (i64 iKey) (pIter + k) n).

Definition btreeParseCellPtrIndex (pBt : BtShared) (pPage : MemPage) (pCell : list Z) : option CellInfo :=
  p ← mfrom pCell (childPtrSize pPage);
  '(n, k) ← readPayload p;
  Some (parse_sizes pBt pPage n (childPtrSize pPage + k) n).

Definition parseCell (pBt : BtShared) (pPage : MemPage) (pCell : list Z) : option CellInfo :=
  match xParseCell pPage with
  | ParseCellPtr => btreeParseCellPtr pBt pPage pCell
  | ParseCellPtrIndex => btreeParseCellPtrIndex pBt pPage pCell
  | ParseCellPtrNoPayload => btreeParseCellPtrNoPayload pCell
  end.

(** ** [xCellSize] *)

(** The overflow branch that the four size functions share. *)
Definition size_overflow (pBt : BtShared) (pPage : MemPage) (n pIter : Z) : Z :=
  let n := u32 (minLocal pPage + u32 (n - minLocal pPage) mod u32 (usableSize pBt - 4)) in
  let n := if maxLocal pPage <? n then minLocal pPage else n in
  u32 (n + (4 + u16 pIter)).

Definition cellSizePtr (pBt : BtShared) (pPage : MemPage) (pCell : list Z) : option Z :=
  p ← mfrom pCell 4;
  '(n, k) ← readPayload p;
  let pIter := 4 + k in
  Some (u16 (if n <=? maxLocal pPage then u32 (n + u32 pIter) else size_overflow pBt pPage n pIter)).

Definition cellSizePtrIdxLeaf (pBt : BtShared) (pPage : MemPage) (pCell : list Z) : option Z :=
  '(n, pIter) ← readPayload pCell;
  Some (u16 (if n <=? maxLocal pPage then
               let n := u32 (n + u32 pIter) in if n <? 4 then 4 else n
             else size_overflow pBt pPage n pIter)).

Definition cellSizePtrNoPayload (pCell : list Z) : option Z :=
  pIter ← skip_loop 9 pCell 4 13;
  Some (u16 pIter).

Definition cellSizePtrTableLeaf (pBt : BtShared) (pPage : MemPage) (pCell : list Z) : option Z :=
  '(n, pIter) ← readPayload pCell;
  pIter ← skip_key 8 pCell pIter;
  Some (u16 (if n <=? maxLocal pPage then
               let n := u32 (n + u32 pIter) in if n <? 4 then 4 else n
             else size_overflow pBt pPage n pIter)).

Definition cellSize (pBt : BtShared) (pPage : MemPage) (pCell : list Z) : option Z :=
  match xCellSize pPage with
  | CellSizePtr => cellSizePtr pBt pPage pCell
  | CellSizePtrIdxLeaf => cellSizePtrIdxLeaf pBt pPage pCell
  | CellSizePtrNoPayload => cellSizePtrNoPayload pCell
  | CellSizePtrTableLeaf => cellSizePtrTableLeaf pBt pPage pCell
  end.

(** ** The kinds of pages *)

(** The fields that [decodeFlags] assigns; those it leaves alone keep their values. *)
Definition set_kind (pPage : MemPage) (childPtr lf iKey iKeyLeaf max1 : Z) (cs : xCellSize_fn)
    (pc : xParseCell_fn) (mx mn : Z) : MemPage :=
  {| isInit := isInit pPage; intKey := iKey; intKeyLeaf := iKeyLeaf; pgno := pgno pPage;
     leaf := lf; hdrOffset := hdrOffset pPage; childPtrSize := childPtr; max1bytePayload := max1;
     nOverflow := nOverflow pPage; maxLocal := mx; minLocal := mn; cellOffset := cellOffset pPage;
     nFree := nFree pPage; nCell := nCell pPage; maskPage := maskPage pPage;
     aiOvfl := aiOvfl pPage; apOvfl := apOvfl pPage; aData := aData pPage;
     xCellSize := cs; xParseCell := pc |}.

Definition decodeFlags (pBt : BtShared) (pPage : MemPage) (flagByte : Z) : Z * MemPage :=
  let max1 := bt_max1bytePayload pBt in
  if PTF_ZERODATA .| PTF_LEAF <=? flagByte then
    if flagByte =? PTF_LEAFDATA .| PTF_INTKEY .| PTF_LEAF then
      (SQLITE_OK, set_kind pPage 0 1 1 1 max1 CellSizePtrTableLeaf ParseCellPtr
                    (maxLeaf pBt) (minLeaf pBt))
    else if flagByte =? PTF_ZERODATA .| PTF_LEAF then
      (SQLITE_OK, set_kind pPage 0 1 0 0 max1 CellSizePtrIdxLeaf ParseCellPtrIndex
                    (bt_maxLocal pBt) (bt_minLocal pBt))
    else
      (SQLITE_CORRUPT, set_kind pPage 0 1 0 0 max1 CellSizePtrIdxLeaf ParseCellPtrIndex
                         (maxLocal pPage) (minLocal pPage))
  else
    if flagByte =? PTF_ZERODATA then
      (SQLITE_OK, set_kind pPage 4 0 0 0 max1 CellSizePtr ParseCellPtrIndex
                    (bt_maxLocal pBt) (bt_minLocal pBt))
    else if flagByte =? PTF_LEAFDATA .| PTF_INTKEY then
      (SQLITE_OK, set_kind pPage 4 0 1 0 max1 CellSizePtrNoPayload ParseCellPtrNoPayload
                    (maxLeaf pBt) (minLeaf pBt))
    else
      (SQLITE_CORRUPT, set_kind pPage 4 0 0 0 max1 CellSizePtr ParseCellPtrIndex
                         (maxLocal pPage) (minLocal pPage)).

(** The bounds of local payloads that [lockBtree] derives from the usable size
    ([unsigned] arithmetic, stored in 16 bits). *)
Definition set_local_bounds (pBt : BtShared) : BtShared :=
  let mx := u16 (u32 (u32 (u32 (usableSize pBt - 12) * 64) / 255 - 23)) in
  let mn := u16 (u32 (u32 (u32 (usableSize pBt - 12) * 32) / 255 - 23)) in
  {| pageSize := pageSize pBt; usableSize := usableSize pBt;
     bt_maxLocal := mx; bt_minLocal := mn;
     maxLeaf := u16 (u32 (usableSize pBt - 35)); minLeaf := mn;
     bt_max1bytePayload := if 127 <? mx then 127 else u8 mx;
     btsFlags := btsFlags pBt; autoVacuum := autoVacuum pBt; cellSizeCk := cellSizeCk pBt |}.

(** ** Lemmas on the inlined integers *)

Lemma lxor_u64 a b : u64 (Z.lxor a b) = Z.lxor (u64 a) (u64 b).
Proof.
  unfold u64. apply Z.bits_inj'. intros n Hn. rewrite Z.lxor_spec.
  destruct (Z.le_gt_cases 64 n).
  - rewrite !Z.mod_pow2_bits_high by lia. done.
  - rewrite !Z.mod_pow2_bits_low, Z.lxor_spec by lia. done.
Qed.

Lemma lxor_low k x y : 0 <= k -> 0 <= y < 2 ^ k -> Z.lxor (x << k) y = x * 2 ^ k + y.
Proof.
  intros Hk Hy. rewrite <- (lor_add_low k x y) by lia. rewrite Z.shiftl_mul_pow2 by lia.
  apply Z.bits_inj'. intros n Hn. rewrite Z.lxor_spec, Z.lor_spec.
  destruct (Z.le_gt_cases k n).
  - replace (Z.testbit y n) with false; [by destruct (Z.testbit _ _)|].
    symmetry. destruct (Z.eq_dec y 0) as [->|]; [apply Z.bits_0|].
    apply Z.bits_above_log2; [lia|]. apply Z.log2_lt_pow2; [lia|].
    eapply Z.lt_le_trans; [apply Hy|]. apply Z.pow_le_mono_r; lia.
  - rewrite Z.mul_pow2_bits_low by lia. done.
Qed.

Lemma byte_digit x : 128 <= x < 256 -> x = Z.lxor (x - 128) 128.
Proof.
  intros Hx. rewrite Z.lxor_comm. change (Z.lxor 128 (x - 128)) with (Z.lxor (1 << 7) (x - 128)).
  rewrite lxor_low by lia. lia.
Qed.

(** One step of the key decoder: the value so far is [V], with the bits [J] left
    over from the high bits of the bytes before. *)
Lemma key_shift k V J : 0 <= k <= 8 -> 0 <= V < 2 ^ 56 -> 0 <= J < 2 ^ 56 ->
  u64 (Z.lxor V J << k) = Z.lxor (V << k) (J << k).
Proof.
  intros Hk HV HJ. rewrite Z.shiftl_lxor, lxor_u64.
  assert (2 ^ k <= 2 ^ 8) by (apply Z.pow_le_mono_r; lia).
  rewrite !u64_id; [done|unfold is_u64; rewrite Z.shiftl_mul_pow2 by lia; nia..].
Qed.

Lemma key_more V J M x : 0 <= V < 2 ^ 56 -> 0 <= J < 2 ^ 56 -> 128 <= x < 256 ->
  Z.lxor (J << 7) M = 0 ->
  Z.lxor (Z.lxor (u64 (Z.lxor V J << 7)) M) x = Z.lxor (V * 128 + (x - 128)) 128.
Proof.
  intros HV HJ Hx HM. rewrite key_shift by lia. rewrite (Z.lxor_assoc (V << 7)), HM, Z.lxor_0_r.
  rewrite (byte_digit x) at 1 by lia. rewrite <- Z.lxor_assoc, lxor_low by lia. done.
Qed.

Lemma key_last V J M x : 0 <= V < 2 ^ 56 -> 0 <= J < 2 ^ 56 -> 0 <= x < 128 ->
  Z.lxor (J << 7) M = 0 ->
  Z.lxor (Z.lxor (u64 (Z.lxor V J << 7)) M) x = V * 128 + x.
Proof.
  intros HV HJ Hx HM. rewrite key_shift by lia. rewrite (Z.lxor_assoc (V << 7)), HM, Z.lxor_0_r.
  rewrite lxor_low by lia. done.
Qed.

(** Before the third byte the code leaves the bits [J] where they are. *)
Lemma key_keep V J x : 0 <= V < 2 ^ 56 -> 0 <= J < 2 ^ 56 -> 128 <= x < 256 ->
  Z.lxor (u64 (Z.lxor V J << 7)) x = Z.lxor (V * 128 + (x - 128)) (Z.lxor (J << 7) 128).
Proof.
  intros HV HJ Hx. rewrite key_shift by lia. rewrite (byte_digit x) at 1 by lia.
  replace (V * 128 + (x - 128)) with (Z.lxor (V << 7) (x - 128)) by (rewrite lxor_low by lia; lia).
  rewrite !Z.lxor_assoc. f_equal. rewrite <- !Z.lxor_assoc. f_equal. apply Z.lxor_comm.
Qed.

Lemma key_clear V J M x : 0 <= V < 2 ^ 56 -> 0 <= J < 2 ^ 56 -> 0 <= x < 128 -> M = J << 7 ->
  Z.lxor (Z.lxor (u64 (Z.lxor V J << 7)) x) M = V * 128 + x.
Proof.
  intros HV HJ Hx ->. rewrite Z.lxor_assoc, (Z.lxor_comm x), <- Z.lxor_assoc.
  apply key_last; try lia. apply Z.lxor_nilpotent.
Qed.

(** The next byte [x] of the key: the end of the input, the last byte or one more. *)
Ltac key_byte p Hp x Hx :=
  destruct p as [|x p]; [done|]; apply Forall_cons in Hp as [Hx Hp]; unfold is_u8 in Hx;
  cbn [lookup list_lookup mbind option_bind]; rewrite ref_step, Z.leb_antisym, ?negb_involutive;
  destruct (Z.ltb_spec x 128).

Lemma readKey_spec p : Forall is_u8 p -> readKey p = varint_spec p.
Proof.
  intros Hp. unfold readKey, varint_spec.
  repeat match goal with |- context [aget p ?i] =>
    let k := eval compute in (Z.to_nat i) in change (aget p i) with (p !! k) end.
  key_byte p Hp x0 B0; [done|]. replace (x0 << 7) with (Z.lxor (0 * 128 + (x0 - 128)) 128 << 7)
    by (f_equal; symmetry; apply byte_digit; lia).
  key_byte p Hp x1 B1. { rewrite key_clear by (done || lia). done. }
  rewrite (key_keep _ 128) by lia. change (Z.lxor (128 << 7) 128) with 0x4080.
  key_byte p Hp x2 B2. { rewrite key_clear by (done || lia). done. }
  rewrite (key_keep _ 0x4080) by lia. change (Z.lxor (0x4080 << 7) 128) with 0x204080.
  key_byte p Hp x3 B3. { rewrite (key_last _ 0x204080) by (done || lia). done. }
  rewrite (key_more _ 0x204080) by (done || lia).
  key_byte p Hp x4 B4. { rewrite (key_last _ 128) by (done || lia). done. }
  rewrite (key_more _ 128) by (done || lia).
  key_byte p Hp x5 B5. { rewrite (key_last _ 128) by (done || lia). done. }
  rewrite (key_more _ 128) by (done || lia).
  key_byte p Hp x6 B6. { rewrite (key_last _ 128) by (done || lia). done. }
  rewrite (key_more _ 128) by (done || lia).
  key_byte p Hp x7 B7. { rewrite (key_last _ 128) by (done || lia). done. }
  rewrite (key_more _ 128) by (done || lia).
  destruct p as [|x8 p]; [done|]. apply Forall_cons in Hp as [B8 _]. unfold is_u8 in B8.
  cbn [lookup list_lookup mbind option_bind varint_ref].
  rewrite (key_shift 8 _ 128) by lia. change (128 << 8) with 0x8000.
  rewrite (Z.lxor_assoc (_ << 8)), Z.lxor_nilpotent, Z.lxor_0_r, lxor_low by lia. done.
Qed.

Lemma payload_step acc x : u32 (u32 acc << 7) .| (x .& 0x7f) = u32 (acc * 128 + x mod 128).
Proof.
  rewrite land_0x7f. unfold u32. rewrite Z.shiftl_mul_pow2 by lia.
  replace ((acc mod 2 ^ 32 * 2 ^ 7) mod 2 ^ 32) with (acc mod 2 ^ 25 * 2 ^ 7) by zdm.
  rewrite lor_add_low by zdm. zdm.
Qed.

Lemma payload_loop_S fuel p n i e :
  payload_loop (S fuel) p n i e
  = x ← aget p (i + 1);
    if (0x80 <=? x) && (i + 1 <? e) then payload_loop fuel p (u32 (n << 7) .| (x .& 0x7f)) (i + 1) e
    else Some (u32 (n << 7) .| (x .& 0x7f), i + 1).
Proof. done. Qed.

Lemma skip_loop_S fuel p i e :
  skip_loop (S fuel) p i e
  = x ← aget p i;
    if negb (x .& 0x80 =? 0) && (i + 1 <? e) then skip_loop fuel p (i + 1) e else Some (i + 1).
Proof. done. Qed.

(** The value that the inlined block reads for the varint [(v, n)]: seven bits of a
    ninth byte where a varint has eight, and 32 bits of the result. *)
Definition payload_of (vn : Z * Z) : Z * Z :=
  let '(v, n) := vn in (u32 (if n =? 9 then v / 256 * 128 + v mod 128 else v), n).

Lemma payload_loop_spec fuel : forall pre q acc, Forall is_u8 q -> (fuel <= 7)%nat ->
  alen pre = 8 - Z.of_nat fuel ->
  ('(n, k) ← payload_loop (S fuel) (pre ++ q) (u32 acc) (alen pre - 1) 8; Some (n, k + 1))
  = payload_of <$> varint_ref fuel (alen pre) acc q.
Proof.
  induction fuel as [|fuel IH]; intros pre q acc Hq Hf Hl; rewrite payload_loop_S; cbn [varint_ref];
    replace (alen pre - 1 + 1) with (alen pre) by lia;
    (destruct q as [|x q]; [rewrite app_nil_r; destruct (aget pre (alen pre)) eqn:E;
      [apply aget_range in E; lia|done]|]);
    apply Forall_cons in Hq as [Hx Hq]; unfold is_u8 in Hx; rewrite aget_at; cbn [mbind option_bind];
    rewrite payload_step.
  - rewrite (proj2 (Z.ltb_ge (alen pre) 8)), andb_false_r by lia. cbn.
    replace (alen pre + 1) with 9 by lia. cbn. do 3 f_equal. zdm.
  - destruct (Z.leb_spec 128 x), (Z.ltb_spec x 128); try lia; cbn [andb].
    + rewrite (proj2 (Z.ltb_lt (alen pre) 8)) by lia.
      specialize (IH (pre ++ [x]) q (acc * 128 + x mod 128) Hq ltac:(lia)).
      rewrite <- app_assoc, alen_app in IH. change (alen [x]) with 1 in IH.
      replace (alen pre + 1 - 1) with (alen pre) in IH by lia.
      cbn [app] in IH. rewrite IH by lia. replace (x - 128) with (x mod 128) by zdm. done.
    + cbn. rewrite (proj2 (Z.eqb_neq (alen pre + 1) 9)) by lia. rewrite (Z.mod_small x) by lia. done.
Qed.

Lemma readPayload_spec p : Forall is_u8 p -> readPayload p = payload_of <$> varint_spec p.
Proof.
  intros Hp. unfold readPayload, varint_spec. destruct p as [|x p]; [done|].
  apply Forall_cons in Hp as [Hx Hp]. unfold is_u8 in Hx.
  change (aget (x :: p) 0) with (Some x). cbn [mbind option_bind]. rewrite ref_step.
  destruct (Z.leb_spec 128 x), (Z.ltb_spec x 128); try lia.
  - assert (E : x .& 0x7f = u32 (0 * 128 + (x - 128))).
    { rewrite land_0x7f. rewrite u32_id by (unfold is_u32; lia).
      symmetry. apply (Z.mod_unique _ _ 1); lia. }
    rewrite E.
    apply (payload_loop_spec 7 [x] p); [done|lia|done].
  - change (Some (x, 1) = Some (u32 x, 1)). rewrite u32_id by (unfold is_u32; lia). done.
Qed.

Lemma skip_loop_spec fuel : forall pre q m acc, Forall is_u8 q -> 
  skip_loop (S fuel) (pre ++ q) (alen pre) (alen pre + 1 + Z.of_nat fuel)
  = (fun vn => snd vn - m + alen pre) <$> varint_ref fuel m acc q.
Proof.
  induction fuel as [|fuel IH]; intros pre q m acc Hq; rewrite skip_loop_S; cbn [varint_ref];
    (destruct q as [|x q]; [rewrite app_nil_r; destruct (aget pre (alen pre)) eqn:E;
      [apply aget_range in E; lia|done]|]);
    apply Forall_cons in Hq as [Hx Hq]; unfold is_u8 in Hx; rewrite aget_at; cbn [mbind option_bind];
    rewrite bit7_clear, Z.mod_small by lia.
  - rewrite (proj2 (Z.ltb_ge (alen pre + 1) _)), andb_false_r by lia. cbn. f_equal. lia.
  - destruct (Z.ltb_spec x 128); cbn [negb andb]; [cbn; f_equal; lia|].
    rewrite (proj2 (Z.ltb_lt (alen pre + 1) _)) by lia.
    specialize (IH (pre ++ [x]) q (m + 1) (acc * 128 + (x - 128)) Hq).
    rewrite <- app_assoc, alen_app in IH. change (alen [x]) with 1 in IH. cbn [app] in IH.
    replace (alen pre + 1 + Z.of_nat (S fuel)) with (alen pre + 1 + 1 + Z.of_nat fuel) by lia.
    rewrite IH. apply option_fmap_ext. intros [v n]; cbn. lia.
Qed.

(** The eight tests step over the key as far as the decoder reads it. *)
Lemma skip_key_spec k : forall pre q m acc v n, Forall is_u8 q ->
  varint_ref k m acc q = Some (v, n) -> skip_key k (pre ++ q) (alen pre) = Some (alen pre + (n - m)).
Proof.
  induction k as [|k IH]; intros pre [|x q] m acc v n Hq H; cbn [varint_ref skip_key] in *; try done.
  - simplify_eq. f_equal. lia.
  - apply Forall_cons in Hq as [Hx Hq]; unfold is_u8 in Hx. rewrite aget_at. cbn [mbind option_bind].
    rewrite bit7_clear, Z.mod_small by lia. destruct (Z.ltb_spec x 128); cbn [negb].
    + simplify_eq. f_equal. lia.
    + specialize (IH (pre ++ [x]) q _ _ _ _ Hq H).
      rewrite <- app_assoc, alen_app in IH. change (alen [x]) with 1 in IH. cbn [app] in IH.
      rewrite IH. f_equal. lia.
Qed.

(** ** Sizes of cells *)

(** What [decodeFlags] establishes when it accepts the flags. *)
Definition kind_ok (pPage : MemPage) : Prop :=
  match xCellSize pPage, xParseCell pPage with
  | CellSizePtr, ParseCellPtrIndex | CellSizePtrNoPayload, ParseCellPtrNoPayload =>
      childPtrSize pPage = 4 /\ leaf pPage = 0
  | CellSizePtrIdxLeaf, ParseCellPtrIndex | CellSizePtrTableLeaf, ParseCellPtr =>
      childPtrSize pPage = 0 /\ leaf pPage = 1
  | _, _ => False
  end.

Definition local_ok (pBt : BtShared) (pPage : MemPage) : Prop :=
  480 <= usableSize pBt <= 65536 /\ 0 <= minLocal pPage <= maxLocal pPage /\
  maxLocal pPage <= usableSize pBt - 35.

Lemma local_bounds_range pBt : 480 <= usableSize pBt <= 65536 ->
  let b := set_local_bounds pBt in
  0 <= bt_minLocal b <= bt_maxLocal b /\ bt_maxLocal b <= usableSize pBt - 35 /\
  minLeaf b = bt_minLocal b /\ bt_minLocal b <= maxLeaf b /\ maxLeaf b = usableSize pBt - 35.
Proof.
  intros H. cbn. set (us := usableSize pBt) in *.
  assert (E : forall k, 32 <= k <= 64 ->
    u16 (u32 (u32 (u32 (us - 12) * k) / 255 - 23)) = (us - 12) * k / 255 - 23).
  { intros k Hk. rewrite !(u32_id (us - 12)) by (unfold is_u32; lia).
    rewrite (u32_id ((us - 12) * k)) by (unfold is_u32; nia).
    assert (23 <= (us - 12) * k / 255) by (apply Z.div_le_lower_bound; nia).
    assert ((us - 12) * k / 255 < 20000) by (apply Z.div_lt_upper_bound; nia).
    rewrite u32_id by (unfold is_u32; lia). unfold u16. rewrite Z.mod_small by lia. done. }
  rewrite !E by lia. rewrite (u32_id (us - 35)) by (unfold is_u32; lia).
  unfold u16. rewrite Z.mod_small by lia.
  assert ((us - 12) * 32 / 255 <= (us - 12) * 64 / 255) by (apply Z.div_le_mono; lia).
  assert (23 <= (us - 12) * 32 / 255) by (apply Z.div_le_lower_bound; lia).
  assert ((us - 12) * 64 / 255 <= us - 12) by (apply Z.div_le_upper_bound; lia).
  split_and!; lia.
Qed.

Lemma decodeFlags_kind pBt pPage fb pPage' :
  480 <= usableSize pBt <= 65536 -> decodeFlags (set_local_bounds pBt) pPage fb = (SQLITE_OK, pPage') ->
  kind_ok pPage' /\ local_ok (set_local_bounds pBt) pPage'.
Proof.
  intros Hu. pose proof (local_bounds_range pBt Hu) as Hb. cbn zeta in Hb.
  change (usableSize pBt) with (usableSize (set_local_bounds pBt)) in *.
  generalize dependent (set_local_bounds pBt). intros b Hu Hb.
  unfold decodeFlags, SQLITE_OK, SQLITE_CORRUPT.
  repeat case_match; intros [= <-]; (split; [done|]); unfold local_ok; cbn; lia.
Qed.

Section Sizes.
Context (pBt : BtShared) (pPage : MemPage) (Hloc : local_ok pBt pPage).

(** The local part of a payload, without the wrap-around of the code. *)
Definition local_part (n : Z) : Z :=
  if n <=? maxLocal pPage then n
  else
    let surplus := minLocal pPage + (n - minLocal pPage) mod (usableSize pBt - 4) in
    if surplus <=? maxLocal pPage then surplus else minLocal pPage.

Lemma local_part_range n : 0 <= n ->
  0 <= local_part n <= maxLocal pPage /\ local_part n <= n /\
  (maxLocal pPage < n -> minLocal pPage <= local_part n < n).
Proof.
  destruct Hloc as (Hu & Hm & Hx). intros Hn. unfold local_part.
  pose proof (Z.mod_pos_bound (n - minLocal pPage) (usableSize pBt - 4) ltac:(lia)).
  destruct (Z.leb_spec n (maxLocal pPage)); [lia|].
  destruct (Z.leb_spec (minLocal pPage + (n - minLocal pPage) mod (usableSize pBt - 4)) (maxLocal pPage)); lia.
Qed.

(** What is stored elsewhere fills whole overflow pages if it can. *)
Lemma local_part_fills n : maxLocal pPage < n -> local_part n <> minLocal pPage ->
  (n - local_part n) mod (usableSize pBt - 4) = 0.
Proof.
  destruct Hloc as (Hu & Hm & Hx). unfold local_part. intros Hn.
  destruct (Z.leb_spec n (maxLocal pPage)); [lia|].
  case_match; [|done]. intros _.
  replace (n - (minLocal pPage + (n - minLocal pPage) mod (usableSize pBt - 4)))
    with ((n - minLocal pPage) - (n - minLocal pPage) mod (usableSize pBt - 4)) by lia.
  rewrite Zminus_mod_idemp_r, Z.sub_diag. apply Z.mod_0_l. lia.
Qed.

Lemma surplus_u32 n : is_u32 n -> maxLocal pPage < n ->
  u32 (minLocal pPage + u32 (n - minLocal pPage) mod u32 (usableSize pBt - 4))
  = minLocal pPage + (n - minLocal pPage) mod (usableSize pBt - 4).
Proof.
  destruct Hloc as (Hu & Hm & Hx). unfold is_u32. intros Hn Hg.
  rewrite (u32_id (n - _)) by (unfold is_u32; lia). rewrite (u32_id (usableSize pBt - 4)) by (unfold is_u32; lia).
  pose proof (Z.mod_pos_bound (n - minLocal pPage) (usableSize pBt - 4) ltac:(lia)).
  apply u32_id. unfold is_u32. lia.
Qed.

Lemma payloadToLocal_part n : is_u32 n -> btreePayloadToLocal pBt pPage n = local_part n.
Proof.
  intros Hn. unfold is_u32 in Hn. pose proof (local_part_range n ltac:(lia)) as HL.
  destruct Hloc as (Hu & Hm & Hx). unfold btreePayloadToLocal, local_part in *.
  destruct (Z.leb_spec n (maxLocal pPage)); [rewrite i32_id by lia; done|].
  rewrite (u32_id (usableSize pBt - 4)) by (unfold is_u32; lia). rewrite Z.rem_mod_nonneg by lia.
  pose proof (Z.mod_pos_bound (n - minLocal pPage) (usableSize pBt - 4) ltac:(lia)).
  rewrite i32_id by lia. done.
Qed.

(** The size of a cell whose header ends at [pIter]. *)
Definition size_part (pIter n : Z) : Z :=
  if n <=? maxLocal pPage then Z.max 4 (pIter + n) else pIter + local_part n + 4.

Lemma parse_sizes_part key pIter n : is_u32 n -> 0 <= pIter <= 18 ->
  parse_sizes pBt pPage key pIter n
  = {| nKey := key; pPayload := pIter; nPayload := n; nLocal := local_part n; nSize := size_part pIter n |}.
Proof.
  intros Hn Hi. assert (0 <= n) as Hn0 by (unfold is_u32 in Hn; lia).
  pose proof (local_part_range n Hn0) as HL.
  pose proof Hloc as (Hu & Hm & Hx). unfold parse_sizes, size_part, local_part in *.
  destruct (Z.leb_spec n (maxLocal pPage)).
  - unfold u16. rewrite (Z.mod_small pIter), (Z.mod_small n), (Z.mod_small (n + pIter)) by lia.
    f_equal. destruct (Z.ltb_spec (n + pIter) 4); lia.
  - unfold btreeParseCellAdjustSizeForOverflow. cbn [nKey pPayload nPayload].
    pose proof (Z.mod_pos_bound (n - minLocal pPage) (usableSize pBt - 4) ltac:(lia)).
    rewrite surplus_u32 by done. rewrite i32_id by lia. unfold u16.
    set (sp := (n - minLocal pPage) mod (usableSize pBt - 4)) in *. clearbody sp.
    destruct (Z.leb_spec (minLocal pPage + sp) (maxLocal pPage));
      f_equal; repeat rewrite (Z.mod_small (_ + _)) by lia; rewrite ?Z.mod_small by lia; try done; zdm.
Qed.
End Sizes.

Lemma varint_length p v n : Forall is_u8 p -> varint_spec p = Some (v, n) -> 1 <= n <= 9 /\ 0 <= v.
Proof.
  intros Hp H. pose proof (ref_bound _ _ _ _ _ _ Hp H ltac:(lia)) as [H1 _].
  pose proof (ref_nonneg _ _ _ _ _ _ Hp H ltac:(lia)). lia.
Qed.

Lemma varint_fits k : forall m acc p v n, Forall is_u8 p -> varint_ref k m acc p = Some (v, n) ->
  n - m <= alen p.
Proof.
  induction k as [|k IH]; intros m acc [|x p] v n Hp H; cbn [varint_ref] in H; try done.
  - simplify_eq. rewrite alen_cons. pose proof (alen_nonneg p). lia.
  - apply Forall_cons in Hp as [_ Hp]. rewrite alen_cons. pose proof (alen_nonneg p).
    case_match; [simplify_eq; lia|]. apply IH in H; [lia|done].
Qed.

Lemma mfrom_inv p off q : mfrom p off = Some q ->
  0 <= off <= alen p /\ q = drop (Z.to_nat off) p.
Proof.
  unfold mfrom. destruct (Z.leb_spec 0 off), (Z.leb_spec off (alen p)); cbn [andb]; try done.
  intros [= <-]. done.
Qed.

Lemma mfrom_split p off q : mfrom p off = Some q ->
  p = take (Z.to_nat off) p ++ q /\ alen (take (Z.to_nat off) p) = off.
Proof.
  intros [H ->]%mfrom_inv. by rewrite take_drop, alen_take.
Qed.

Lemma mfrom_0 p : mfrom p 0 = Some p.
Proof.
  unfold mfrom. pose proof (alen_nonneg p). rewrite (proj2 (Z.leb_le 0 (alen p))) by lia. done.
Qed.

Lemma mfrom_u8 p off q : Forall is_u8 p -> mfrom p off = Some q -> Forall is_u8 q.
Proof. intros Hp [_ ->]%mfrom_inv. by apply Forall_drop. Qed.

(** The header of a payload cell from [pIter] on: the size read, and where it ends. *)
Lemma readPayload_inv p n k : Forall is_u8 p -> readPayload p = Some (n, k) ->
  exists v, varint_spec p = Some (v, k) /\ is_u32 n /\ 1 <= k <= 9.
Proof.
  intros Hp. rewrite readPayload_spec by done.
  destruct (varint_spec p) as [[v m]|] eqn:E; [|done]. cbn. intros [= <- <-].
  apply varint_length in E as [? _]; [|done]. exists v. split_and!; [done|apply u32_range..|lia|lia].
Qed.

Section CellSizes.
Context (pBt : BtShared) (pPage : MemPage) (Hloc : local_ok pBt pPage) (Hkind : kind_ok pPage).

Abbreviation local_part := (local_part pBt pPage).
Abbreviation size_part := (size_part pBt pPage).

Lemma hdr_u32 pIter n : is_u32 n -> 0 <= pIter <= 18 -> n <= maxLocal pPage ->
  u32 (n + u32 pIter) = n + pIter.
Proof.
  intros Hn Hi Hle. destruct Hloc as (Hu & Hm & Hx). unfold is_u32 in Hn.
  rewrite (u32_id pIter), u32_id by (unfold is_u32; lia). done.
Qed.

Lemma size_part_range pIter n : is_u32 n -> 0 <= pIter <= 18 ->
  4 <= size_part pIter n <= usableSize pBt - 13.
Proof.
  intros Hn Hi. assert (0 <= n) as Hn0 by (unfold is_u32 in Hn; lia).
  pose proof (local_part_range pBt pPage Hloc n Hn0) as HL. destruct Hloc as (Hu & Hm & Hx).
  unfold BtCell.size_part. destruct (Z.leb_spec n (maxLocal pPage)); lia.
Qed.

(** [s] is what the size functions compute where the payload fits. *)
Lemma size_part_u16 pIter n s : is_u32 n -> 0 <= pIter <= 18 ->
  (n <= maxLocal pPage -> s = Z.max 4 (u32 (n + u32 pIter))) ->
  u16 (if n <=? maxLocal pPage then s else size_overflow pBt pPage n pIter) = size_part pIter n.
Proof.
  intros Hn Hi Hs. pose proof (size_part_range pIter n Hn Hi) as HR.
  pose proof Hloc as (Hu & Hm & Hx). unfold BtCell.size_part, BtCell.local_part in *.
  destruct (Z.leb_spec n (maxLocal pPage)) as [Hle|Hgt].
  - rewrite Hs, hdr_u32 by done. unfold u16. rewrite Z.mod_small by lia. lia.
  - unfold size_overflow. rewrite surplus_u32 by done.
    pose proof (Z.mod_pos_bound (n - minLocal pPage) (usableSize pBt - 4) ltac:(lia)).
    set (sp := (n - minLocal pPage) mod (usableSize pBt - 4)) in *. clearbody sp.
    rewrite Z.ltb_antisym. unfold u16. rewrite (Z.mod_small pIter) by lia.
    destruct (Z.leb_spec (minLocal pPage + sp) (maxLocal pPage)); cbn [negb];
      (rewrite u32_id by (unfold is_u32; lia)); rewrite Z.mod_small; lia.
Qed.

(** Sizes are at least four bytes and leave room on a page. *)
Lemma skip_loop_range fuel : forall p i e j, skip_loop fuel p i e = Some j -> i < j <= i + Z.of_nat fuel.
Proof.
  induction fuel as [|fuel IH]; intros p i e j; [done|]. rewrite skip_loop_S.
  destruct (aget p i); [|done]. cbn [mbind option_bind]. case_match; [|intros [= <-]; lia]. intros HI%IH. lia.
Qed.

Lemma skip_key_range k : forall p i j, skip_key k p i = Some j -> i < j <= i + Z.of_nat k + 1.
Proof.
  induction k as [|k IH]; intros p i j; cbn [skip_key]; [intros [= <-]; lia|].
  destruct (aget p i); [|done]. cbn [mbind option_bind]. case_match; [intros HI%IH; lia|intros [= <-]; lia].
Qed.

Lemma cellSize_range pCell n : Forall is_u8 pCell -> cellSize pBt pPage pCell = Some n -> 4 <= n <= usableSize pBt - 13.
Proof.
  intros Hp. pose proof Hloc as (Hu & _ & _). unfold cellSize.
  assert (HS : forall k m s, is_u32 m -> 0 <= k <= 18 -> (m <= maxLocal pPage -> s = Z.max 4 (u32 (m + u32 k))) ->
    Some (u16 (if m <=? maxLocal pPage then s else size_overflow pBt pPage m k)) = Some n -> 4 <= n <= usableSize pBt - 13).
  { intros k m s Hm Hk Hs [= <-]. rewrite (size_part_u16 k m s Hm Hk Hs). by apply size_part_range. }
  destruct (xCellSize pPage).
  - unfold cellSizePtr. destruct (mfrom pCell 4) as [p|] eqn:Ep; [|done]. cbn [mbind option_bind].
    destruct (readPayload p) as [[m k]|] eqn:E; [|done]. cbn [mbind option_bind].
    apply readPayload_inv in E as (v & _ & Hm & Hk); [|by eapply mfrom_u8]. apply HS; [done|lia|].
    intros Hle. rewrite hdr_u32 by (done || lia). unfold is_u32 in Hm. lia.
  - unfold cellSizePtrIdxLeaf. destruct (readPayload pCell) as [[m k]|] eqn:E; [|done]. cbn [mbind option_bind].
    apply readPayload_inv in E as (v & _ & Hm & Hk); [|done]. apply HS; [done|lia|].
    intros Hle. destruct (Z.ltb_spec (u32 (m + u32 k)) 4); lia.
  - unfold cellSizePtrNoPayload. destruct (skip_loop 9 pCell 4 13) as [j|] eqn:E; [|done]. apply skip_loop_range in E.
    cbn [mbind option_bind]. unfold u16. rewrite Z.mod_small by lia. intros [= <-]. lia.
  - unfold cellSizePtrTableLeaf. destruct (readPayload pCell) as [[m k]|] eqn:E; [|done]. cbn [mbind option_bind].
    apply readPayload_inv in E as (v & _ & Hm & Hk); [|done].
    destruct (skip_key 8 pCell k) as [j|] eqn:Ej; [|done]. apply skip_key_range in Ej. cbn [mbind option_bind].
    apply HS; [done|lia|]. intros Hle. destruct (Z.ltb_spec (u32 (m + u32 j)) 4); lia.
Qed.

(** A parsed cell, in terms of the header and the sizes above. *)
Definition parsed (pCell : list Z) (info : CellInfo) : Prop :=
  cellSize pBt pPage pCell = Some (nSize info) /\ is_u32 (nPayload info) /\ 0 <= pPayload info <= 18 /\
  nLocal info = local_part (nPayload info) /\
  (nSize info = size_part (pPayload info) (nPayload info) \/
   xParseCell pPage = ParseCellPtrNoPayload /\ nPayload info = 0 /\ pPayload info = 0 /\
   5 <= nSize info <= 13).

Lemma parsed_sizes pCell key pIter n : is_u32 n -> 0 <= pIter <= 18 ->
  cellSize pBt pPage pCell = Some (size_part pIter n) ->
  parsed pCell (parse_sizes pBt pPage key pIter n).
Proof. intros Hn Hi Hs. rewrite parse_sizes_part by done. split_and!; cbn; auto; lia. Qed.

Lemma parse_noPayload_inv pCell info : Forall is_u8 pCell ->
  xCellSize pPage = CellSizePtrNoPayload -> xParseCell pPage = ParseCellPtrNoPayload ->
  btreeParseCellPtrNoPayload pCell = Some info -> parsed pCell info.
Proof.
  intros Hp Ec Ex.
  unfold btreeParseCellPtrNoPayload. destruct (mfrom pCell 4) as [p|] eqn:Ep; [|done].
  pose proof (mfrom_u8 _ _ _ Hp Ep) as Hp'. pose proof Ep as [Es El]%mfrom_split. cbn [mbind option_bind].
  rewrite getvarint_is_spec by done. destruct (varint_spec p) as [[v n]|] eqn:E; [|done].
  cbn [mbind option_bind]. intros [= <-]. pose proof E as [Hn _]%varint_length; [|done].
  unfold parsed, cellSize. rewrite Ec. unfold cellSizePtrNoPayload.
  pose proof (skip_loop_spec 8 (take (Z.to_nat 4) pCell) p 0 0 Hp') as Hsk.
  rewrite <- Es, El in Hsk. change (4 + 1 + Z.of_nat 8) with 13 in Hsk. rewrite Hsk.
  unfold varint_spec in E. rewrite E. cbn [fmap option_fmap option_map mbind option_bind snd nSize nPayload pPayload nLocal].
  replace (n - 0 + 4) with (4 + n) by lia. unfold u16. rewrite Z.mod_small by lia.
  split_and!; try done; try lia. { unfold local_part. destruct Hloc as (_ & ? & _).
    rewrite (proj2 (Z.leb_le 0 (maxLocal pPage))) by lia. done. }
  right. split_and!; try done; lia.
Qed.

Lemma parse_tableLeaf_inv pCell info : Forall is_u8 pCell -> xCellSize pPage = CellSizePtrTableLeaf ->
  btreeParseCellPtr pBt pPage pCell = Some info -> parsed pCell info.
Proof.
  intros Hp Ec.
  unfold btreeParseCellPtr. destruct (readPayload pCell) as [[n k]|] eqn:E; [|done]. cbn [mbind option_bind].
  destruct (mfrom pCell k) as [p|] eqn:Ep; [|done]. pose proof (mfrom_u8 _ _ _ Hp Ep) as Hp'.
  pose proof Ep as [Es El]%mfrom_split. cbn [mbind option_bind]. rewrite readKey_spec by done.
  destruct (varint_spec p) as [[key j]|] eqn:Ek; [|done]. cbn [mbind option_bind]. intros [= <-].
  pose proof E as (v & _ & Hn & Hk)%readPayload_inv; [|done]. pose proof Ek as [Hj _]%varint_length; [|done].
  apply parsed_sizes; [done|lia|]. unfold cellSize. rewrite Ec. unfold cellSizePtrTableLeaf. rewrite E.
  cbn [mbind option_bind]. pose proof (skip_key_spec 8 (take (Z.to_nat k) pCell) p 0 0 key j Hp' Ek) as Hsk.
  rewrite <- Es, El in Hsk. rewrite Hsk. cbn [mbind option_bind]. rewrite Z.sub_0_r.
  rewrite size_part_u16; [done|done|lia|]. intros Hle. destruct (Z.ltb_spec (u32 (n + u32 (k + j))) 4); lia.
Qed.

Lemma parse_inv pCell info : Forall is_u8 pCell -> parseCell pBt pPage pCell = Some info ->
  parsed pCell info.
Proof.
  intros Hp. pose proof Hloc as (Hu & _ & _). unfold parseCell. pose proof Hkind as Hk. unfold kind_ok in Hk.
  destruct (xCellSize pPage) eqn:Ec, (xParseCell pPage) eqn:Ex; try done; destruct Hk as [Hc _].
  - unfold btreeParseCellPtrIndex. rewrite Hc. destruct (mfrom pCell 4) as [p|] eqn:Ep; [|done].
    pose proof (mfrom_u8 _ _ _ Hp Ep) as Hp'. cbn [mbind option_bind].
    destruct (readPayload p) as [[n k]|] eqn:E; [|done]. cbn [mbind option_bind]. intros [= <-].
    pose proof E as (v & _ & Hn & Hk)%readPayload_inv; [|done]. apply parsed_sizes; [done|lia|].
    unfold cellSize. rewrite Ec. unfold cellSizePtr. rewrite Ep. cbn [mbind option_bind]. rewrite E.
    cbn [mbind option_bind]. rewrite size_part_u16; [done|done|lia|]. intros Hle.
    rewrite hdr_u32 by (done || lia). unfold is_u32 in Hn. lia.
  - unfold btreeParseCellPtrIndex. rewrite Hc, mfrom_0. cbn [mbind option_bind].
    destruct (readPayload pCell) as [[n k]|] eqn:E; [|done]. cbn [mbind option_bind]. intros [= <-].
    pose proof E as (v & _ & Hn & Hk)%readPayload_inv; [|done]. rewrite Z.add_0_l.
    apply parsed_sizes; [done|lia|]. unfold cellSize. rewrite Ec. unfold cellSizePtrIdxLeaf. rewrite E. cbn [mbind option_bind].
    rewrite size_part_u16; [done|done|lia|]. intros Hle. destruct (Z.ltb_spec (u32 (n + u32 k)) 4); lia.
  - by apply parse_noPayload_inv.
  - by apply parse_tableLeaf_inv.
Qed.
End CellSizes.

(** A size found in the bytes of a cell does not depend on the bytes after it. *)
Lemma aget_more {A} (p r : list A) i x : aget p i = Some x -> aget (p ++ r) i = Some x.
Proof. intros H. pose proof (aget_range _ _ _ H). rewrite aget_app_l by lia. done. Qed.

Lemma mfrom_more p r off q : mfrom p off = Some q -> mfrom (p ++ r) off = Some (q ++ r).
Proof.
  intros [H ->]%mfrom_inv. unfold mfrom. rewrite alen_app. pose proof (alen_nonneg r).
  rewrite !(proj2 (Z.leb_le _ _)) by lia. cbn [andb]. f_equal. apply drop_app_le. unfold alen in H. lia.
Qed.

Lemma payload_loop_more fuel r e : forall p n i y,
  payload_loop fuel p n i e = Some y -> payload_loop fuel (p ++ r) n i e = Some y.
Proof.
  induction fuel as [|fuel IH]; intros p n i y; [done|]. rewrite !payload_loop_S.
  destruct (aget p (i + 1)) as [x|] eqn:E; [|done]. rewrite (aget_more _ r _ _ E). cbn [mbind option_bind].
  case_match; [apply IH|done].
Qed.

Lemma readPayload_more p r y : readPayload p = Some y -> readPayload (p ++ r) = Some y.
Proof.
  unfold readPayload. destruct (aget p 0) as [x|] eqn:E; [|done]. rewrite (aget_more _ r _ _ E).
  cbn [mbind option_bind]. case_match; [|done].
  destruct (payload_loop _ p _ _ _) as [z|] eqn:El; [|done]. by rewrite (payload_loop_more _ r _ _ _ _ _ El).
Qed.

Lemma skip_loop_more fuel r e : forall p i y,
  skip_loop fuel p i e = Some y -> skip_loop fuel (p ++ r) i e = Some y.
Proof.
  induction fuel as [|fuel IH]; intros p i y; [done|]. rewrite !skip_loop_S.
  destruct (aget p i) as [x|] eqn:E; [|done]. rewrite (aget_more _ r _ _ E). cbn [mbind option_bind].
  case_match; [apply IH|done].
Qed.

Lemma skip_key_more k r : forall p i y, skip_key k p i = Some y -> skip_key k (p ++ r) i = Some y.
Proof.
  induction k as [|k IH]; intros p i y; [done|]. cbn [skip_key].
  destruct (aget p i) as [x|] eqn:E; [|done]. rewrite (aget_more _ r _ _ E). cbn [mbind option_bind].
  case_match; [apply IH|done].
Qed.

Lemma cellSize_more pBt pPage p r n :
  cellSize pBt pPage p = Some n -> cellSize pBt pPage (p ++ r) = Some n.
Proof.
  unfold cellSize. destruct (xCellSize pPage).
  - unfold cellSizePtr. destruct (mfrom p 4) as [q|] eqn:E; [|done]. rewrite (mfrom_more _ _ _ _ E).
    cbn [mbind option_bind]. destruct (readPayload q) as [y|] eqn:Ey; [|done]. by rewrite (readPayload_more _ r _ Ey).
  - unfold cellSizePtrIdxLeaf. destruct (readPayload p) as [y|] eqn:Ey; [|done]. by rewrite (readPayload_more _ r _ Ey).
  - unfold cellSizePtrNoPayload. destruct (skip_loop 9 p 4 13) as [y|] eqn:Ey; [|done].
    by rewrite (skip_loop_more _ r _ _ _ _ Ey).
  - unfold cellSizePtrTableLeaf. destruct (readPayload p) as [[m k]|] eqn:Ey; [|done].
    rewrite (readPayload_more _ r _ Ey). cbn [mbind option_bind].
    destruct (skip_key 8 p k) as [z|] eqn:Ez; [|done]. by rewrite (skip_key_more _ r _ _ _ Ez).
Qed.

(** ** Properties *)

(** C14. On every page whose flags are accepted, for every usable size of a
    database and for every cell, the size that [xCellSize] computes with its own
    scan of the header is the [nSize] of the full parse; the local part is the one
    [btreePayloadToLocal] gives; header, local payload and the overflow page number
    fit in the size, and the size in a page.  A payload that does not fit keeps at
    least [minLocal] and at most [maxLocal] bytes, and either the minimum or as much
    as fills its overflow pages completely. *)
Theorem xCellSize_parse pBt pPage0 flags pPage pCell info :
  480 <= usableSize pBt <= 65536 ->
  decodeFlags (set_local_bounds pBt) pPage0 flags = (SQLITE_OK, pPage) ->
  Forall is_u8 pCell ->
  parseCell (set_local_bounds pBt) pPage pCell = Some info ->
  cellSize (set_local_bounds pBt) pPage pCell = Some (nSize info) /\
  nLocal info = btreePayloadToLocal (set_local_bounds pBt) pPage (nPayload info) /\
  0 <= nLocal info <= nPayload info /\ 0 <= pPayload info <= 18 /\
  pPayload info + nLocal info + (if nLocal info <? nPayload info then 4 else 0) <= nSize info /\
  4 <= nSize info <= usableSize pBt - 13 /\
  (nLocal info < nPayload info ->
   minLocal pPage <= nLocal info <= maxLocal pPage /\
   (nLocal info = minLocal pPage \/ (nPayload info - nLocal info) mod (usableSize pBt - 4) = 0)).
Proof.
  intros Hu Hd Hp Hi. apply decodeFlags_kind in Hd as [Hk Hl]; [|done].
  apply parse_inv in Hi as (Hs & Hn & HP & HL & Hsz); [|done..].
  rewrite (payloadToLocal_part _ _ Hl) by done. change (usableSize pBt) with (usableSize (set_local_bounds pBt)).
  pose proof Hn as Hn0. unfold is_u32 in Hn0.
  pose proof (local_part_range _ _ Hl (nPayload info) ltac:(lia)) as HR. rewrite HL.
  assert (HS : pPayload info + local_part (set_local_bounds pBt) pPage (nPayload info)
    + (if local_part (set_local_bounds pBt) pPage (nPayload info) <? nPayload info then 4 else 0) <= nSize info /\
    4 <= nSize info <= usableSize (set_local_bounds pBt) - 13).
  { destruct Hsz as [->|(_ & E0 & E1 & E2)].
    - pose proof (size_part_range _ _ Hl (pPayload info) (nPayload info) Hn HP) as HZ. split; [|done].
      unfold size_part. destruct (Z.leb_spec (nPayload info) (maxLocal pPage)) as [Hle|Hgt].
      + unfold local_part. rewrite (proj2 (Z.leb_le _ _) Hle), (Z.ltb_irrefl (nPayload info)). lia.
      + rewrite (proj2 (Z.ltb_lt _ _)) by lia. lia.
    - rewrite E0, E1 in *. rewrite (proj2 (Z.ltb_ge _ _)) by lia. destruct Hl as (? & _). lia. }
  split_and!; try done; try lia. intros Hlt.
  destruct (Z.le_gt_cases (nPayload info) (maxLocal pPage)) as [Hle|Hgt].
  { unfold local_part in Hlt. rewrite (proj2 (Z.leb_le _ _) Hle) in Hlt. lia. }
  split; [lia|]. destruct (decide (local_part (set_local_bounds pBt) pPage (nPayload info) = minLocal pPage)); [by left|].
  right. by apply local_part_fills.
Qed.

(** A database with pages of 512 bytes and a fresh page, for the examples. *)
Definition bt512 : BtShared :=
  set_local_bounds {| pageSize := 512; usableSize := 512; bt_maxLocal := 0; bt_minLocal := 0; maxLeaf := 0;
    minLeaf := 0; bt_max1bytePayload := 0; btsFlags := 0; autoVacuum := false; cellSizeCk := false |}.

Definition fresh_page (no : Z) (data : list Z) : MemPage :=
  {| isInit := 0; intKey := 0; intKeyLeaf := 0; pgno := no; leaf := 0;
     hdrOffset := if no =? 1 then 100 else 0; childPtrSize := 0; max1bytePayload := 0; nOverflow := 0;
     maxLocal := 0; minLocal := 0; cellOffset := 0; nFree := 0; nCell := 0; maskPage := 0;
     aiOvfl := replicate 4 0; apOvfl := replicate 4 []; aData := data; xCellSize := CellSizePtr; xParseCell := ParseCellPtrIndex |}.

(** A table leaf cell with 600 bytes of payload and the key 5: 92 bytes stay. *)
Lemma xCellSize_parse_witness :
  let pPage := snd (decodeFlags bt512 (fresh_page 2 []) 13) in
  cellSize bt512 pPage [0x84; 0x58; 5; 1; 2; 3] = Some 99 /\ 92 = btreePayloadToLocal bt512 pPage 600.
Proof.
  pose proof (xCellSize_parse bt512 (fresh_page 2 []) 13
    (snd (decodeFlags bt512 (fresh_page 2 []) 13)) [0x84; 0x58; 5; 1; 2; 3]
    {| nKey := 5; pPayload := 3; nPayload := 600; nLocal := 92; nSize := 99 |}
    ltac:(vm_compute; split; discriminate) eq_refl ltac:(repeat constructor; lia) ltac:(vm_compute; reflexivity)) as H.
  split; apply H.
Defined.
