(* ===== verification/BtPage.v ===== *)
(** * Space management on B-tree pages ([src/btree.c])

    A page holds, after its header, an array of cell pointers, then a gap, then
    the cell content area with cells, freeblocks (a list in ascending order, each
    with the offset of the next and its size) and fragments of at most three bytes.  This
    file models the operations on the page image: [defragmentPage],
    [pageFindSlot], [allocateSpace], [freeSpace], [btreeComputeFreeSpace],
    [btreeCellSizeCheck], [btreeInitPage], [zeroPage], [dropCell], [insertCell] and
    [insertCellFast].  [BtLayout.v] to [BtSpec.v] prove them. *)
From S2P Require Import Prelude Varint Bytes FileIO BtBase BtCell.

(** ** Assignments to fields *)

Definition set_page (pPage : MemPage) (data : list Z) (free cells : Z) : MemPage :=
  {| isInit := isInit pPage; intKey := intKey pPage; intKeyLeaf := intKeyLeaf pPage; pgno := pgno pPage;
     leaf := leaf pPage; hdrOffset := hdrOffset pPage; childPtrSize := childPtrSize pPage;
     max1bytePayload := max1bytePayload pPage; nOverflow := nOverflow pPage; maxLocal := maxLocal pPage;
     minLocal := minLocal pPage; cellOffset := cellOffset pPage; nFree := free; nCell := cells;
     maskPage := maskPage pPage; aiOvfl := aiOvfl pPage; apOvfl := apOvfl pPage; aData := data;
     xCellSize := xCellSize pPage; xParseCell := xParseCell pPage |}.

Definition set_aData (pPage : MemPage) (data : list Z) : MemPage :=
  set_page pPage data (nFree pPage) (nCell pPage).
Definition set_nFree (pPage : MemPage) (n : Z) : MemPage := set_page pPage (aData pPage) n (nCell pPage).
Definition set_nCell (pPage : MemPage) (n : Z) : MemPage := set_page pPage (aData pPage) (nFree pPage) n.

(** [SQLITE_CORRUPT_PAGE]: the image as it is at that point. *)
Definition corrupt (pPage : MemPage) (data : list Z) : option (Z * MemPage) :=
  Some (SQLITE_CORRUPT, set_aData pPage data).

(** ** Defragmentation *)

(** The end of [defragmentPage], from [defragment_out] on. *)
Definition defragment_out (pPage : MemPage) (data : list Z) (cbrk iCellFirst : Z) : option (Z * MemPage) :=
  let hdr := hdrOffset pPage in
  frag ← aget data (hdr + 7);
  if negb (frag + cbrk - iCellFirst =? nFree pPage) then corrupt pPage data else
  data ← put2byte data (hdr + 5) cbrk;
  data ← put1byte data (hdr + 1) 0;
  data ← put1byte data (hdr + 2) 0;
  data ← memset data iCellFirst 0 (cbrk - iCellFirst);
  Some (SQLITE_OK, set_aData pPage data).

(** The loop that adds the offsets to the [n] cell pointers from [pAddr] on. *)
Fixpoint shift_ptrs (n : nat) (data : list Z) (pAddr iFree iFree2 sz sz2 : Z) : option (list Z) :=
  match n with
  | O => Some data
  | S n =>
      pc ← get2byte data pAddr;
      data ← (if pc <? iFree then put2byte data pAddr (pc + sz)
              else if pc <? iFree2 then put2byte data pAddr (pc + sz2) else Some data);
      shift_ptrs n data (pAddr + 2) iFree iFree2 sz sz2
  end.

(** The block for one or two freeblocks, once it is known to apply: the moves, then
    the pointers. *)
Definition defragment_move (pBt : BtShared) (pPage : MemPage) (data : list Z)
    (iFree iFree2 iCellFirst : Z) : option (Z * MemPage) :=
  let hdr := hdrOffset pPage in
  sz ← get2byte data (iFree + 2);
  top ← get2byte data (hdr + 5);
  if iFree <=? top then corrupt pPage data else
  let finish data sz sz2 :=
    let cbrk := top + sz in
    data ← memmove data cbrk top (iFree - top);
    data ← shift_ptrs (Z.to_nat (nCell pPage)) data (cellOffset pPage) iFree iFree2 sz sz2;
    defragment_out pPage data cbrk iCellFirst in
  if negb (iFree2 =? 0) then
    if iFree2 <? iFree + sz then corrupt pPage data else
    sz2 ← get2byte data (iFree2 + 2);
    if usableSize pBt <? iFree2 + sz2 then corrupt pPage data else
    data ← memmove data (iFree + sz + sz2) (iFree + sz) (iFree2 - (iFree + sz));
    finish data (sz + sz2) sz2
  else if usableSize pBt <? iFree + sz then corrupt pPage data
  else finish data sz 0.

(** The loop that packs the cells from the end of the page down: [n] cells are
    left, [src] is the copy in the temporary space. *)
Fixpoint pack_cells (pBt : BtShared) (pPage : MemPage) (src : list Z) (iCellStart : Z)
    (n : nat) (i cbrk : Z) (data : list Z) : option (Z * Z * list Z) :=
  match n with
  | O => Some (SQLITE_OK, cbrk, data)
  | S n =>
      let pAddr := cellOffset pPage + i * 2 in
      pc ← get2byte data pAddr;
      if usableSize pBt - 4 <? pc then Some (SQLITE_CORRUPT, cbrk, data) else
      p ← mfrom src pc;
      size ← cellSize pBt pPage p;
      let cbrk := cbrk - size in
      if (cbrk <? iCellStart) || (usableSize pBt <? pc + size) then Some (SQLITE_CORRUPT, cbrk, data) else
      data ← put2byte data pAddr cbrk;
      cell ← mread src pc size;
      data ← mwrite data cbrk cell;
      pack_cells pBt pPage src iCellStart n (i + 1) cbrk data
  end.

(** The general case. *)
Definition defragment_pack (pBt : BtShared) (pPage : MemPage) (data : list Z) (iCellFirst : Z)
  : option (Z * MemPage) :=
  let hdr := hdrOffset pPage in
  iCellStart ← get2byte data (hdr + 5);
  '(rc, cbrk, data) ←
    (if 0 <? nCell pPage then
       src ← mread data 0 (usableSize pBt);
       pack_cells pBt pPage src iCellStart (Z.to_nat (nCell pPage)) 0 (usableSize pBt) data
     else Some (SQLITE_OK, usableSize pBt, data));
  if negb (rc =? SQLITE_OK) then corrupt pPage data else
  data ← put1byte data (hdr + 7) 0;
  defragment_out pPage data cbrk iCellFirst.

Definition defragmentPage (pBt : BtShared) (pPage : MemPage) (nMaxFrag : Z) : option (Z * MemPage) :=
  let data := aData pPage in
  let hdr := hdrOffset pPage in
  let iCellFirst := cellOffset pPage + 2 * nCell pPage in
  frag ← aget data (hdr + 7);
  if negb (frag <=? nMaxFrag) then defragment_pack pBt pPage data iCellFirst else
  iFree ← get2byte data (hdr + 1);
  if usableSize pBt - 4 <? iFree then corrupt pPage data else
  if iFree =? 0 then defragment_pack pBt pPage data iCellFirst else
  iFree2 ← get2byte data iFree;
  if usableSize pBt - 4 <? iFree2 then corrupt pPage data else
  few ← (if iFree2 =? 0 then Some true
         else x ← aget data iFree2;
              if x =? 0 then y ← aget data (iFree2 + 1); Some (y =? 0) else Some false);
  if (few : bool) then defragment_move pBt pPage data iFree iFree2 iCellFirst
  else defragment_pack pBt pPage data iCellFirst.

(** ** Allocation *)

(** The loop of [pageFindSlot]: the slot or [None], [*pRc], and the image. *)
Fixpoint slot_loop (fuel : nat) (hdr nByte maxPC : Z) (aData : list Z) (iAddr pc : Z)
  : option (option Z * Z * list Z) :=
  match fuel with
  | O => None
  | S fuel =>
      if negb (pc <=? maxPC) then
        if maxPC + nByte - 4 <? pc then Some (None, SQLITE_CORRUPT, aData)
        else Some (None, SQLITE_OK, aData)
      else
      size ← get2byte aData (pc + 2);
      let x := size - nByte in
      if 0 <=? x then
        if x <? 4 then
          frag ← aget aData (hdr + 7);
          if 57 <? frag then Some (None, SQLITE_OK, aData) else
          next ← mread aData pc 2;
          aData ← mwrite aData iAddr next;
          frag ← aget aData (hdr + 7);
          aData ← put1byte aData (hdr + 7) (u8 (frag + u8 x));
          Some (Some pc, SQLITE_OK, aData)
        else if maxPC <? x + pc then Some (None, SQLITE_CORRUPT, aData)
        else
          aData ← put2byte aData (pc + 2) x;
          Some (Some (pc + x), SQLITE_OK, aData)
      else
        let iAddr := pc in
        pc ← get2byte aData iAddr;
        if pc <=? iAddr then Some (None, if pc =? 0 then SQLITE_OK else SQLITE_CORRUPT, aData)
        else slot_loop fuel hdr nByte maxPC aData iAddr pc
  end.

Definition pageFindSlot (pBt : BtShared) (pPg : MemPage) (nByte : Z) : option (option Z * Z * list Z) :=
  let hdr := hdrOffset pPg in
  let iAddr := hdr + 1 in
  pc ← get2byte (aData pPg) iAddr;
  slot_loop (S (Z.to_nat (usableSize pBt))) hdr nByte (usableSize pBt - nByte) (aData pPg) iAddr pc.

(** The end of [allocateSpace]: defragmentation if the gap is too small, then the
    space at the end of the gap. *)
Definition allocate_gap (pBt : BtShared) (pPage : MemPage) (nByte gap top : Z) : option (Z * Z * MemPage) :=
  let hdr := hdrOffset pPage in
  '(rc, top, pPage) ←
    (if top <? gap + 2 + nByte then
       '(rc, pPage) ← defragmentPage pBt pPage (Z.min 4 (nFree pPage - (2 + nByte)));
       if negb (rc =? SQLITE_OK) then Some (rc, top, pPage) else
       top ← get2byteNotZero (aData pPage) (hdr + 5);
       Some (SQLITE_OK, top, pPage)
     else Some (SQLITE_OK, top, pPage));
  if negb (rc =? SQLITE_OK) then Some (rc, 0, pPage) else
  let top := top - nByte in
  data ← put2byte (aData pPage) (hdr + 5) top;
  Some (SQLITE_OK, top, set_aData pPage data).

(** The return code, [*pIdx] and the page. *)
Definition allocateSpace (pBt : BtShared) (pPage : MemPage) (nByte : Z) : option (Z * Z * MemPage) :=
  let hdr := hdrOffset pPage in
  let data := aData pPage in
  let gap := cellOffset pPage + 2 * nCell pPage in
  top ← get2byte data (hdr + 5);
  let bad := if top <? gap then negb ((top =? 0) && (usableSize pBt =? 65536))
             else usableSize pBt <? top in
  if bad then Some (SQLITE_CORRUPT, 0, pPage) else
  let top := if top <? gap then 65536 else top in
  b1 ← aget data (hdr + 2);
  b2 ← aget data (hdr + 1);
  if (negb (b1 =? 0) || negb (b2 =? 0)) && (gap + 2 <=? top) then
    '(pSpace, rc, data) ← pageFindSlot pBt pPage nByte;
    let pPage := set_aData pPage data in
    match pSpace with
    | Some g2 => if g2 <=? gap then Some (SQLITE_CORRUPT, g2, pPage) else Some (SQLITE_OK, g2, pPage)
    | None =>
        if negb (rc =? SQLITE_OK) then Some (rc, 0, pPage) else allocate_gap pBt pPage nByte gap top
    end
  else allocate_gap pBt pPage nByte gap top.

(** ** Release *)

(** The search for the place in the list of freeblocks: [iPtr] and [iFreeBlk], or
    [None] for a list that is out of order. *)
Fixpoint free_search (fuel : nat) (data : list Z) (iStart iPtr : Z) : option (option (Z * Z)) :=
  match fuel with
  | O => None
  | S fuel =>
      iFreeBlk ← get2byte data iPtr;
      if iFreeBlk <? iStart then
        if iFreeBlk <=? iPtr then Some (if iFreeBlk =? 0 then Some (iPtr, iFreeBlk) else None)
        else free_search fuel data iStart iFreeBlk
      else Some (Some (iPtr, iFreeBlk))
  end.

(** The part of [freeSpace] after the list: secure deletion, then the start of the
    content area or a new freeblock. *)
Definition free_store (pBt : BtShared) (pPage : MemPage) (data : list Z)
    (iStart iSize iEnd iPtr iFreeBlk iOrigSize : Z) : option (Z * MemPage) :=
  let hdr := hdrOffset pPage in
  x ← get2byte data (hdr + 5);
  data ← (if negb (btsFlags pBt .& BTS_FAST_SECURE =? 0) then memset data iStart 0 iSize else Some data);
  if iStart <=? x then
    if iStart <? x then corrupt pPage data else
    if negb (iPtr =? hdr + 1) then corrupt pPage data else
    data ← put2byte data (hdr + 1) iFreeBlk;
    data ← put2byte data (hdr + 5) iEnd;
    Some (SQLITE_OK, set_page pPage data (nFree pPage + iOrigSize) (nCell pPage))
  else
    data ← put2byte data iPtr iStart;
    data ← put2byte data iStart iFreeBlk;
    data ← put2byte data (iStart + 2) iSize;
    Some (SQLITE_OK, set_page pPage data (nFree pPage + iOrigSize) (nCell pPage)).

(** Coalescing with the freeblock after the region: [nFrag], [iEnd], [iSize] and
    [iFreeBlk], or [None] for corruption. *)
Definition coalesce_next (pBt : BtShared) (data : list Z) (iStart iSize iEnd iFreeBlk : Z)
  : option (option (Z * Z * Z * Z)) :=
  if negb (iFreeBlk =? 0) && (iFreeBlk <=? u32 (iEnd + 3)) then
    let nFrag := u8 (iFreeBlk - iEnd) in
    if iFreeBlk <? iEnd then Some None else
    sz ← get2byte data (iFreeBlk + 2);
    let iEnd := u32 (iFreeBlk + sz) in
    if usableSize pBt <? iEnd then Some None else
    next ← get2byte data iFreeBlk;
    Some (Some (nFrag, iEnd, u16 (iEnd - iStart), next))
  else Some (Some (0, iEnd, iSize, iFreeBlk)).

(** Coalescing with the freeblock at [iPtr]: [nFrag], [iStart] and [iSize]. *)
Definition coalesce_prev (hdr : Z) (data : list Z) (iPtr iStart iSize iEnd nFrag : Z)
  : option (option (Z * Z * Z)) :=
  if hdr + 1 <? iPtr then
    sz ← get2byte data (iPtr + 2);
    let iPtrEnd := iPtr + sz in
    if iStart <=? iPtrEnd + 3 then
      if iStart <? iPtrEnd then Some None
      else Some (Some (u8 (nFrag + (iStart - iPtrEnd)), iPtr, u16 (iEnd - iPtr)))
    else Some (Some (nFrag, iStart, iSize))
  else Some (Some (nFrag, iStart, iSize)).

Definition freeSpace (pBt : BtShared) (pPage : MemPage) (iStart iSize : Z) : option (Z * MemPage) :=
  let data := aData pPage in
  let hdr := hdrOffset pPage in
  let iPtr := hdr + 1 in
  let iEnd := iStart + iSize in
  b1 ← aget data (iPtr + 1);
  b0 ← aget data iPtr;
  if (b1 =? 0) && (b0 =? 0) then free_store pBt pPage data iStart iSize iEnd iPtr 0 iSize
  else
    found ← free_search (S (Z.to_nat iStart)) data iStart iPtr;
    match found with
    | None => corrupt pPage data
    | Some (iPtr, iFreeBlk) =>
        if usableSize pBt - 4 <? iFreeBlk then corrupt pPage data else
        next ← coalesce_next pBt data iStart iSize iEnd iFreeBlk;
        match next with
        | None => corrupt pPage data
        | Some (nFrag, iEnd, iSize', iFreeBlk) =>
            prev ← coalesce_prev hdr data iPtr iStart iSize' iEnd nFrag;
            match prev with
            | None => corrupt pPage data
            | Some (nFrag, iStart, iSize') =>
                frag ← aget data (hdr + 7);
                if frag <? nFrag then corrupt pPage data else
                data ← put1byte data (hdr + 7) (frag - nFrag);
                free_store pBt pPage data iStart iSize' iEnd iPtr iFreeBlk iSize
            end
        end
    end.

(** ** Initialisation *)

(** The loop over the freeblocks: [pc], [size] and [next] of the last one and the sum
    so far, or [None] for a freeblock off the end of the page. *)
Fixpoint free_sum (fuel : nat) (data : list Z) (iCellLast pc nFree : Z) : option (option (Z * Z * Z * Z)) :=
  match fuel with
  | O => None
  | S fuel =>
      if iCellLast <? pc then Some None else
      next ← get2byte data pc;
      size ← get2byte data (pc + 2);
      let nFree := nFree + size in
      if next <=? u32 (pc + size + 3) then Some (Some (pc, size, next, nFree))
      else free_sum fuel data iCellLast next nFree
  end.

Definition btreeComputeFreeSpace (pBt : BtShared) (pPage : MemPage) : option (Z * MemPage) :=
  let us := usableSize pBt in
  let hdr := hdrOffset pPage in
  let data := aData pPage in
  top ← get2byteNotZero data (hdr + 5);
  let iCellFirst := hdr + 8 + childPtrSize pPage + 2 * nCell pPage in
  let iCellLast := us - 4 in
  pc ← get2byte data (hdr + 1);
  frag ← aget data (hdr + 7);
  let free := frag + top in
  sum ← (if 0 <? pc then
           if pc <? top then Some None else
           r ← free_sum (S (Z.to_nat us)) data iCellLast pc free;
           Some (match r with
                 | Some (pc, size, next, free) =>
                     if 0 <? next then None else if us <? u32 (pc + size) then None else Some free
                 | None => None
                 end)
         else Some (Some free));
  match sum with
  | None => corrupt pPage data
  | Some free =>
      if (us <? free) || (free <? iCellFirst) then corrupt pPage data
      else Some (SQLITE_OK, set_nFree pPage (u16 (free - iCellFirst)))
  end.

Fixpoint cell_size_check (pBt : BtShared) (pPage : MemPage) (iCellFirst iCellLast : Z) (n : nat) (i : Z)
  : option Z :=
  match n with
  | O => Some SQLITE_OK
  | S n =>
      pc ← get2byte (aData pPage) (cellOffset pPage + i * 2);
      if (pc <? iCellFirst) || (iCellLast <? pc) then Some SQLITE_CORRUPT else
      p ← mfrom (aData pPage) pc;
      sz ← cellSize pBt pPage p;
      if usableSize pBt <? pc + sz then Some SQLITE_CORRUPT
      else cell_size_check pBt pPage iCellFirst iCellLast n (i + 1)
  end.

Definition btreeCellSizeCheck (pBt : BtShared) (pPage : MemPage) : option Z :=
  let iCellFirst := cellOffset pPage + 2 * nCell pPage in
  let iCellLast := usableSize pBt - 4 in
  let iCellLast := if leaf pPage =? 0 then iCellLast - 1 else iCellLast in
  cell_size_check pBt pPage iCellFirst iCellLast (Z.to_nat (nCell pPage)) 0.

(** The other fields that [btreeInitPage] and [zeroPage] assign. *)
Definition set_init (pPage : MemPage) (init ovfl cellOfst free cells mask : Z) (data : list Z) : MemPage :=
  {| isInit := init; intKey := intKey pPage; intKeyLeaf := intKeyLeaf pPage; pgno := pgno pPage;
     leaf := leaf pPage; hdrOffset := hdrOffset pPage; childPtrSize := childPtrSize pPage;
     max1bytePayload := max1bytePayload pPage; nOverflow := ovfl; maxLocal := maxLocal pPage;
     minLocal := minLocal pPage; cellOffset := cellOfst; nFree := free; nCell := cells;
     maskPage := mask; aiOvfl := aiOvfl pPage; apOvfl := apOvfl pPage; aData := data;
     xCellSize := xCellSize pPage; xParseCell := xParseCell pPage |}.

Definition btreeInitPage (pBt : BtShared) (pPage : MemPage) : option (Z * MemPage) :=
  let data := aData pPage in
  let hdr := hdrOffset pPage in
  flags ← aget data hdr;
  let '(rc, pPage) := decodeFlags pBt pPage flags in
  if negb (rc =? SQLITE_OK) then Some (SQLITE_CORRUPT, pPage) else
  let cellOfst := hdr + 8 + childPtrSize pPage in
  let mask := u16 (pageSize pBt - 1) in
  cells ← get2byte data (hdr + 3);
  if MX_CELL pBt <? cells then
    Some (SQLITE_CORRUPT, set_init pPage (isInit pPage) 0 cellOfst (nFree pPage) cells mask data)
  else
  let pPage := set_init pPage 1 0 cellOfst (-1) cells mask data in
  if cellSizeCk pBt then rc ← btreeCellSizeCheck pBt pPage; Some (rc, pPage)
  else Some (SQLITE_OK, pPage).

Definition zeroPage (pBt : BtShared) (pPage : MemPage) (flags : Z) : option MemPage :=
  let data := aData pPage in
  let hdr := hdrOffset pPage in
  data ← (if negb (btsFlags pBt .& BTS_FAST_SECURE =? 0) then memset data hdr 0 (usableSize pBt - hdr)
          else Some data);
  data ← put1byte data hdr (u8 flags);
  let first := u16 (hdr + (if flags .& PTF_LEAF =? 0 then 12 else 8)) in
  data ← memset data (hdr + 1) 0 4;
  data ← put1byte data (hdr + 7) 0;
  data ← put2byte data (hdr + 5) (usableSize pBt);
  let '(_, pPage) := decodeFlags pBt pPage flags in
  Some (set_init pPage 1 0 first (u16 (usableSize pBt - first)) 0 (u16 (pageSize pBt - 1)) data).

(** ** Cells *)

(** The new [*pRC] and the page. *)
Definition dropCell (pBt : BtShared) (pPage : MemPage) (idx sz rc : Z) : option (Z * MemPage) :=
  if negb (rc =? SQLITE_OK) then Some (rc, pPage) else
  let hdr := hdrOffset pPage in
  let ptr := cellOffset pPage + 2 * idx in
  pc ← get2byte (aData pPage) ptr;
  if usableSize pBt <? u32 (pc + sz) then Some (SQLITE_CORRUPT, pPage) else
  '(rc, pPage) ← freeSpace pBt pPage (u16 pc) (u16 sz);
  if negb (rc =? SQLITE_OK) then Some (rc, pPage) else
  let cells := u16 (nCell pPage - 1) in
  let data := aData pPage in
  if cells =? 0 then
    data ← memset data (hdr + 1) 0 4;
    data ← put1byte data (hdr + 7) 0;
    data ← put2byte data (hdr + 5) (usableSize pBt);
    Some (SQLITE_OK, set_page pPage data (i32 (u32 (usableSize pBt - hdr - childPtrSize pPage - 8))) cells)
  else
    data ← memmove data ptr (ptr + 2) (2 * (cells - idx));
    data ← put2byte data (hdr + 3) cells;
    Some (SQLITE_OK, set_page pPage data (nFree pPage + 2) cells).

(** Writes of the pointer map go to another page; [ptrmapPut] gives their result for a key,
    a type and a parent, and [writeRc] is the result of [sqlite3PagerWrite].
    [aDataEnd] and [cellAddr] are the addresses that [SQLITE_OVERFLOW] compares. *)
Section Insertion.
Context (bo : byteorder) (ptrmapPut : Z -> Z -> Z -> Z) (writeRc aDataEnd cellAddr : Z).

Definition ptrmapPutOvflPtr (pBt : BtShared) (pPage : MemPage) (pCell : list Z) (rc : Z) : option Z :=
  if negb (rc =? SQLITE_OK) then Some rc else
  info ← parseCell pBt pPage pCell;
  if nLocal info <? nPayload info then
    if (cellAddr <? aDataEnd) && (aDataEnd <? cellAddr + nLocal info) then Some SQLITE_CORRUPT else
    p ← mfrom pCell (nSize info - 4);
    ovfl ← sqlite3Get4byte bo p;
    Some (ptrmapPut ovfl PTRMAP_OVERFLOW1 (pgno pPage))
  else Some rc.

(** A cell that does not fit becomes the next overflow cell. *)
Definition push_overflow (pPage : MemPage) (i : Z) (pCell : list Z) : option MemPage :=
  let j := nOverflow pPage in
  ap ← aset (apOvfl pPage) j pCell;
  ai ← aset (aiOvfl pPage) j (u16 i);
  Some {| isInit := isInit pPage; intKey := intKey pPage; intKeyLeaf := intKeyLeaf pPage; pgno := pgno pPage;
     leaf := leaf pPage; hdrOffset := hdrOffset pPage; childPtrSize := childPtrSize pPage;
     max1bytePayload := max1bytePayload pPage; nOverflow := u8 (j + 1); maxLocal := maxLocal pPage;
     minLocal := minLocal pPage; cellOffset := cellOffset pPage; nFree := nFree pPage; nCell := nCell pPage;
     maskPage := maskPage pPage; aiOvfl := ai; apOvfl := ap; aData := aData pPage;
     xCellSize := xCellSize pPage; xParseCell := xParseCell pPage |}.

(** The last part of the insertions: the pointer at [i], the cell count and the
    pointer map. *)
Definition insert_pointer (pBt : BtShared) (pPage : MemPage) (data : list Z) (i idx sz : Z) (pCell : list Z)
  : option (Z * MemPage) :=
  let hdr := hdrOffset pPage in
  let pIns := cellOffset pPage + i * 2 in
  data ← memmove data (pIns + 2) pIns (2 * (nCell pPage - i));
  data ← put2byte data pIns idx;
  lo ← aget data (hdr + 4);
  let lo := u8 (lo + 1) in
  data ← put1byte data (hdr + 4) lo;
  data ← (if lo =? 0 then hi ← aget data (hdr + 3); put1byte data (hdr + 3) (u8 (hi + 1)) else Some data);
  let pPage := set_page pPage data (nFree pPage - u16 (2 + sz)) (u16 (nCell pPage + 1)) in
  if autoVacuum pBt then rc ← ptrmapPutOvflPtr pBt pPage pCell SQLITE_OK; Some (rc, pPage)
  else Some (SQLITE_OK, pPage).

(** [pTemp] tells whether the caller gives a buffer for a cell that does not fit. *)
Definition insertCell (pBt : BtShared) (pPage : MemPage) (i : Z) (pCell : list Z) (sz : Z) (pTemp : bool)
    (iChild : Z) : option (Z * MemPage) :=
  if negb (nOverflow pPage =? 0) || (nFree pPage <? sz + 2) then
    pCell ← (if pTemp then mread pCell 0 sz else Some pCell);
    pCell ← mwrite pCell 0 (sqlite3Put4byte bo iChild);
    pPage ← push_overflow pPage i pCell;
    Some (SQLITE_OK, pPage)
  else if negb (writeRc =? SQLITE_OK) then Some (writeRc, pPage)
  else
    '(rc, idx, pPage) ← allocateSpace pBt pPage sz;
    if negb (rc =? SQLITE_OK) then Some (rc, pPage) else
    rest ← mread pCell 4 (sz - 4);
    data ← mwrite (aData pPage) (idx + 4) rest;
    data ← mwrite data idx (sqlite3Put4byte bo iChild);
    insert_pointer pBt pPage data i idx sz pCell.

Definition insertCellFast (pBt : BtShared) (pPage : MemPage) (i : Z) (pCell : list Z) (sz : Z)
  : option (Z * MemPage) :=
  if nFree pPage <? sz + 2 then
    pPage ← push_overflow pPage i pCell;
    Some (SQLITE_OK, pPage)
  else if negb (writeRc =? SQLITE_OK) then Some (writeRc, pPage)
  else
    '(rc, idx, pPage) ← allocateSpace pBt pPage sz;
    if negb (rc =? SQLITE_OK) then Some (rc, pPage) else
    cell ← mread pCell 0 sz;
    data ← mwrite (aData pPage) idx cell;
    insert_pointer pBt pPage data i idx sz pCell.
End Insertion.
