(* ===== verification/BtLayout.v ===== *)
(** * The layout of a B-tree page

    Regions of a page, the list of freeblocks in its bytes, and the invariant of
    the cell content area: cells and freeblocks do not overlap, freeblocks ascend
    and are separated, and all other bytes of the area are counted as fragments. *)
From S2P Require Import Prelude FileIO BtBase.

(** ** Regions *)

(** A region is an offset and a size. *)
Abbreviation region := (Z * Z)%type.

Definition apart (a b : region) : Prop := a.1 + a.2 <= b.1 \/ b.1 + b.2 <= a.1.

Definition in_region (r : region) (i : Z) : Prop := r.1 <= i < r.1 + r.2.

Definition within (lo hi : Z) (r : region) : Prop := lo <= r.1 /\ 0 <= r.2 /\ r.1 + r.2 <= hi.

Definition total (rs : list region) : Z := foldr (fun r n => r.2 + n) 0 rs.

Lemma apart_sym a b : apart a b -> apart b a.
Proof. unfold apart. lia. Qed.

Lemma apart_out a b i : apart a b -> in_region a i -> ~ in_region b i.
Proof. unfold apart, in_region. lia. Qed.

(** A region of at least four bytes does not fit between regions closer than that. *)
Lemma apart_merge r a b : apart r a -> apart r b -> a.1 + a.2 <= b.1 <= a.1 + a.2 + 3 -> 4 <= r.2 ->
  0 <= a.2 -> 0 <= b.2 -> apart r (a.1, b.1 + b.2 - a.1).
Proof. unfold apart. cbn. lia. Qed.

Lemma total_app a b : total (a ++ b) = total a + total b.
Proof. unfold total. induction a as [|r a IH]; cbn [foldr app]; [done|]. rewrite IH. lia. Qed.

Lemma total_nonneg lo hi rs : Forall (within lo hi) rs -> 0 <= total rs.
Proof. unfold total. induction 1 as [|r rs (_ & ? & _) _ IH]; cbn [foldr]; lia. Qed.

Lemma total_perm a b : a ≡ₚ b -> total a = total b.
Proof. unfold total. induction 1; cbn [foldr]; lia. Qed.

Lemma FOP_app {A} (R : A -> A -> Prop) a b :
  ForallOrdPairs R (a ++ b) <-> ForallOrdPairs R a /\ ForallOrdPairs R b /\ (forall x y, x ∈ a -> y ∈ b -> R x y).
Proof.
  induction a as [|z a IH]; cbn.
  - split; [|tauto]. intros H. split_and!; [constructor|done|]. intros x y H1%elem_of_nil. done.
  - split.
    + inversion 1 as [|? ? Hz Hr]; subst. apply IH in Hr as (H1 & H2 & H3). apply Forall_app in Hz as [Hz1 Hz2].
      split_and!; [by constructor|done|]. intros x y [->|Hx]%elem_of_cons Hy; [|by apply H3].
      rewrite Forall_forall in Hz2. by apply Hz2.
    + intros (H1 & H2 & H3). inversion H1 as [|? ? Hz Hr]; subst. constructor.
      * apply Forall_app. split; [done|]. apply Forall_forall. intros y Hy. apply H3; [apply elem_of_cons; by left|done].
      * apply IH. split_and!; [done..|]. intros x y Hx Hy. apply H3; [apply elem_of_cons; by right|done].
Qed.

Lemma FOP_perm {A} (R : A -> A -> Prop) a b : (forall x y, R x y -> R y x) -> a ≡ₚ b ->
  ForallOrdPairs R a -> ForallOrdPairs R b.
Proof.
  intros HR. induction 1 as [|x a b P IH|x y a|a b c P1 IH1 P2 IH2]; intros H.
  - done.
  - inversion H; subst. constructor; [by rewrite <- P|by apply IH].
  - inversion H as [|? ? Hy Hr]; subst. inversion Hr as [|? ? Hx Hr']; subst.
    apply Forall_cons in Hy as [Hxy Hy]. constructor; [constructor; [by apply HR|done]|by constructor].
  - by apply IH2, IH1.
Qed.

(** Regions that do not overlap fill at most the space they are in. *)
Definition bytes_of (r : region) : gset Z := list_to_set (seqZ r.1 r.2).

Lemma elem_of_bytes r i : i ∈ bytes_of r <-> in_region r i.
Proof. unfold bytes_of, in_region. rewrite elem_of_list_to_set, elem_of_seqZ. lia. Qed.

Lemma size_bytes r : 0 <= r.2 -> Z.of_nat (size (bytes_of r)) = r.2.
Proof.
  intros H. unfold bytes_of. rewrite size_list_to_set by apply NoDup_seqZ. rewrite length_seqZ. lia.
Qed.

Lemma total_size lo hi rs : Forall (within lo hi) rs -> ForallOrdPairs apart rs ->
  exists X : gset Z, (forall i, i ∈ X <-> exists r, r ∈ rs /\ in_region r i) /\ Z.of_nat (size X) = total rs.
Proof.
  induction rs as [|r rs IH]; intros Hw Hp.
  - exists ∅. split; [|done]. intros i. split; [set_solver|]. intros (r & Hr%elem_of_nil & _). done.
  - apply Forall_cons in Hw as [(_ & Hr & _) Hw]. inversion Hp as [|? ? Ha Hp']; subst.
    destruct (IH Hw Hp') as (X & HX & HS). exists (bytes_of r ∪ X). split.
    + intros i. rewrite elem_of_union, elem_of_bytes, HX. split.
      * intros [Hi|(r' & H1 & H2)]; [exists r|exists r']; rewrite elem_of_cons; auto.
      * intros (r' & [->|H1]%elem_of_cons & H2); [by left|right; eauto].
    + rewrite size_union; [rewrite Nat2Z.inj_add, size_bytes, HS by done; done|].
      intros i. rewrite elem_of_bytes, HX. intros Hi (r' & H1 & H2).
      rewrite Forall_forall in Ha. by apply (apart_out r r' i (Ha r' H1)).
Qed.

Lemma total_le lo hi rs : lo <= hi -> Forall (within lo hi) rs -> ForallOrdPairs apart rs ->
  total rs <= hi - lo.
Proof.
  intros Hlh Hw Hp. destruct (total_size lo hi rs Hw Hp) as (X & HX & <-).
  transitivity (Z.of_nat (size (bytes_of (lo, hi - lo)))); [|rewrite size_bytes; cbn; lia].
  apply inj_le, subseteq_size. intros i. rewrite HX, elem_of_bytes. intros (r & Hr & Hi).
  rewrite Forall_forall in Hw. destruct (Hw r Hr) as (? & ? & ?). unfold in_region in *. cbn. lia.
Qed.

(** ** The list of freeblocks *)

(** The blocks [l] follow the pointer at [p]: each one's first word points to the next. *)
Fixpoint fchain (data : list Z) (p : Z) (l : list region) : Prop :=
  match l with
  | [] => True
  | b :: l => w16 data p = b.1 /\ w16 data (b.1 + 2) = b.2 /\ fchain data b.1 l
  end.

(** The address of the pointer after the blocks [l]. *)
Fixpoint lastp (p : Z) (l : list region) : Z :=
  match l with [] => p | b :: l => lastp b.1 l end.

Definition freelist (data : list Z) (p : Z) (l : list region) : Prop :=
  fchain data p l /\ w16 data (lastp p l) = 0.

(** Freeblocks come after [lo] and are more than three bytes apart. *)
Fixpoint ascending (us lo : Z) (l : list region) : Prop :=
  match l with
  | [] => True
  | b :: l => lo < b.1 /\ 4 <= b.2 /\ b.1 + b.2 <= us /\ ascending us (b.1 + b.2 + 3) l
  end.

Lemma lastp_app p a b : lastp p (a ++ b) = lastp (lastp p a) b.
Proof. revert p. induction a as [|x a IH]; intros p; cbn; [done|apply IH]. Qed.

Lemma fchain_app data p a b :
  fchain data p (a ++ b) <-> fchain data p a /\ fchain data (lastp p a) b.
Proof. revert p. induction a as [|x a IH]; intros p; cbn; [tauto|]. rewrite IH. tauto. Qed.

Lemma ascending_le us lo lo' l : lo' <= lo -> ascending us lo l -> ascending us lo' l.
Proof. destruct l; cbn; [done|]. intros ? (? & ? & ? & ?). split_and!; try done; lia. Qed.

Lemma ascending_lb us lo l b : ascending us lo l -> b ∈ l -> lo < b.1 /\ 4 <= b.2 /\ b.1 + b.2 <= us.
Proof.
  revert lo. induction l as [|x l IH]; intros lo H Hb; [by apply elem_of_nil in Hb|].
  destruct H as (H1 & H2 & H3 & H4). apply elem_of_cons in Hb as [->|Hb]; [lia|].
  specialize (IH _ H4 Hb). lia.
Qed.

Lemma ascending_apart us lo l : ascending us lo l -> ForallOrdPairs apart l.
Proof.
  revert lo. induction l as [|x l IH]; intros lo H; [constructor|].
  destruct H as (H1 & H2 & H3 & H4). constructor; [|by eapply IH].
  apply Forall_forall. intros y Hy. pose proof (ascending_lb _ _ _ _ H4 Hy). unfold apart. lia.
Qed.

(** The end of the last block. *)
Fixpoint lastend (lo : Z) (l : list region) : Z :=
  match l with [] => lo | b :: l => lastend (b.1 + b.2 + 3) l end.

Lemma regions_asc_app us lo a b :
  ascending us lo (a ++ b) <-> ascending us lo a /\ ascending us (lastend lo a) b.
Proof. revert lo. induction a as [|x a IH]; intros lo; cbn; [tauto|]. rewrite IH. tauto. Qed.

Lemma lastend_snoc lo a b : lastend lo (a ++ [b]) = b.1 + b.2 + 3.
Proof. revert lo. induction a as [|x a IH]; intros lo; cbn; [done|apply IH]. Qed.

Lemma lastp_snoc p a b : lastp p (a ++ [b]) = b.1.
Proof. rewrite lastp_app. done. Qed.

Lemma lastp_case p l : l = [] \/ exists l0 b, l = l0 ++ [b] /\ lastp p l = b.1.
Proof.
  destruct l as [|b l0 _] using rev_ind; [by left|right]. exists l0, b. split; [done|apply lastp_snoc].
Qed.

(** The pointers and sizes of a list do not change if its words do not. *)
Lemma fchain_frame data data' p l :
  (l <> [] -> w16 data' p = w16 data p) ->
  (forall b i, b ∈ l -> b.1 <= i < b.1 + 4 -> fbyte data' i = fbyte data i) ->
  fchain data p l -> fchain data' p l.
Proof.
  revert p. induction l as [|b l IH]; intros p Hp Hb; cbn; [done|]. intros (H1 & H2 & H3).
  assert (Hw : forall k, 0 <= k <= 2 -> w16 data' (b.1 + k) = w16 data (b.1 + k)).
  { intros k Hk. apply w16_same. intros j Hj. apply (Hb b); [apply elem_of_cons; by left|lia]. }
  split_and!.
  - by rewrite Hp.
  - by rewrite Hw.
  - apply IH; [|intros c i Hc; apply Hb, elem_of_cons; by right|done].
    intros _. specialize (Hw 0 ltac:(lia)). by rewrite Z.add_0_r in Hw.
Qed.

(** A word of the list other than the one at [q] keeps its value: [q] is the last
    pointer, which may change. *)
Lemma fchain_frame_last data data' p l :
  (l <> [] -> w16 data' p = w16 data p) ->
  (forall b i, b ∈ l -> b.1 <= i < b.1 + 4 -> ~ lastp p l <= i < lastp p l + 2 -> fbyte data' i = fbyte data i) ->
  ForallOrdPairs apart l -> Forall (fun b => 4 <= b.2) l ->
  fchain data p l -> fchain data' p l.
Proof.
  revert p. induction l as [|b l IH]; intros p Hp Hb Ha Hs; cbn; [done|]. intros (H1 & H2 & H3).
  inversion Ha as [|? ? Hx Ha']; subst. apply Forall_cons in Hs as [Hs1 Hs].
  assert (Hnl : forall i, b.1 <= i < b.1 + 4 -> (l <> [] \/ b.1 + 2 <= i) -> ~ lastp b.1 l <= i < lastp b.1 l + 2).
  { intros i Hi Hor. destruct (lastp_case b.1 l) as [->|(l0 & c & -> & ->)].
    - cbn. destruct Hor; [done|lia].
    - rewrite Forall_forall in Hx, Hs. assert (Hc : c ∈ l0 ++ [c]) by (apply elem_of_app; right; by constructor).
      specialize (Hx c Hc). specialize (Hs c Hc). unfold apart in Hx. lia. }
  split_and!.
  - by rewrite Hp.
  - rewrite <- H2. apply w16_same. intros j Hj. apply (Hb b); [apply elem_of_cons; by left|lia|].
    apply Hnl; [lia|lia].
  - apply IH; [| |done..].
    + intros Hne. apply w16_same. intros j Hj. apply (Hb b); [apply elem_of_cons; by left|lia|]. apply Hnl; [lia|by left].
    + intros c i Hc Hi. apply (Hb c); [apply elem_of_cons; by right|done].
Qed.

(** ** The content area

    [rs] are the allocated regions, [fbs] the freeblocks; what is left of the area
    from [top] to [us] are [frag] bytes of fragments. *)
Record layout (us top frag : Z) (rs fbs : list region) : Prop := {
  la_asc : ascending us top fbs;
  la_rs : Forall (fun r => 4 <= r.2 /\ top <= r.1 /\ r.1 + r.2 <= us) rs;
  la_pw : ForallOrdPairs apart rs;
  la_cross : forall r b, r ∈ rs -> b ∈ fbs -> apart r b;
  la_frag : 0 <= frag;
  la_total : total rs + total fbs + frag = us - top
}.

Lemma layout_perm us top frag rs rs' fbs : rs ≡ₚ rs' -> layout us top frag rs fbs -> layout us top frag rs' fbs.
Proof.
  intros P [H1 H2 H3 H4 H5 H6]. split; try done.
  - by rewrite <- P.
  - eapply FOP_perm; [apply apart_sym|done|done].
  - intros r b Hr. apply H4. by rewrite P.
  - by rewrite <- (total_perm _ _ P).
Qed.

(** What is allocated and what is listed as free fits in the area. *)
Lemma regions_fit us top rs fbs : top <= us -> ascending us top fbs ->
  Forall (fun r => 4 <= r.2 /\ top <= r.1 /\ r.1 + r.2 <= us) rs -> ForallOrdPairs apart rs ->
  (forall r b, r ∈ rs -> b ∈ fbs -> apart r b) -> total rs + total fbs <= us - top.
Proof.
  intros Ht Ha Hr Hp Hc. rewrite <- total_app. apply total_le; [done| |].
  - apply Forall_app. split.
    + eapply Forall_impl; [exact Hr|]. intros r (? & ? & ?). unfold within. lia.
    + apply Forall_forall. intros b Hb. pose proof (ascending_lb _ _ _ _ Ha Hb). unfold within. lia.
  - apply FOP_app. split_and!; [done|by eapply ascending_apart|done].
Qed.

(** The freeblock after a freed region that ends at [e] is merged if it is close: [g] bytes
    between them, [e'] the new end. *)
Definition merge_next (e : Z) (r : list region) (g e' : Z) (r' : list region) : Prop :=
  (r' = r /\ g = 0 /\ e' = e /\ (forall b, head r = Some b -> e + 3 < b.1)) \/
  (exists b, r = b :: r' /\ e <= b.1 <= e + 3 /\ g = b.1 - e /\ e' = b.1 + b.2).

(** The freeblock before one that starts at [s], likewise: [s'] the new start. *)
Definition merge_prev (s : Z) (l : list region) (g s' : Z) (l' : list region) : Prop :=
  (l' = l /\ g = 0 /\ s' = s /\ (forall b, last l = Some b -> b.1 + b.2 + 3 < s)) \/
  (exists b, l = l' ++ [b] /\ b.1 + b.2 <= s <= b.1 + b.2 + 3 /\ g = s - (b.1 + b.2) /\ s' = b.1).

Section Release.
Context (us top frag s n : Z) (rs l r : list region).
Context (Hl : layout us top frag ((s, n) :: rs) (l ++ r)).
Context (Hbefore : Forall (fun b => b.1 < s) l).
Context (g1 e' : Z) (r' : list region) (Hn : merge_next (s + n) r g1 e' r').
Context (g2 s' : Z) (l' : list region) (Hp : merge_prev s l g2 s' l').

Lemma release_parts : 4 <= n /\ top <= s /\ s + n <= us /\ Forall (apart (s, n)) rs /\
  ForallOrdPairs apart rs /\ (forall b, b ∈ l \/ b ∈ r -> apart (s, n) b).
Proof.
  destruct Hl as [H1 H2 H3 H4 H5 H6]. apply Forall_cons in H2 as [Hs H2]. cbn in Hs.
  inversion H3; subst. split_and!; try done; try lia.
  intros b Hb. apply H4; [by constructor|]. by apply elem_of_app.
Qed.

(** The merged block is apart from the other regions. *)
Lemma release_apart x : x ∈ rs -> apart x (s', e' - s').
Proof.
  intros Hx. destruct release_parts as (Hn4 & Ht & Hu & Ha & _ & Hb).
  destruct Hl as [H1 H2 H3 H4 _ _]. apply regions_asc_app in H1 as [Hal Har].
  apply Forall_cons in H2 as [_ H2]. rewrite Forall_forall in Ha, H2.
  specialize (Ha x Hx). specialize (H2 x Hx). apply apart_sym in Ha.
  assert (H4' : forall b, b ∈ l ++ r -> apart x b) by (intros b; apply H4, elem_of_cons; by right).
  assert (HN : apart x (s, e' - s)).
  { destruct Hn as [(_ & _ & -> & _)|(b & -> & Hbb & _ & ->)].
    - by replace (s + n - s) with n by lia.
    - destruct Har as (? & ? & ? & _). apply (apart_merge x (s, n) b); cbn; try lia.
      + done.
      + apply H4', elem_of_app. right. by constructor. }
  destruct Hp as [(_ & _ & -> & _)|(b & -> & Hbb & _ & ->)]; [done|].
  apply regions_asc_app in Hal as [_ (? & ? & ? & _)].
  assert (0 <= e' - s) by (destruct Hn as [(_ & _ & -> & _)|(c & -> & ? & _ & ->)]; [lia|destruct Har; lia]).
  assert (Hm : apart x (b.1, s + (e' - s) - b.1)).
  { apply (apart_merge x b (s, e' - s)); cbn; try lia; [|done]. apply H4', elem_of_app. left. apply elem_of_app.
    right. by constructor. }
  by replace (s + (e' - s) - b.1) with (e' - b.1) in Hm by lia.
Qed.

(** The new freeblock between the others. *)
Lemma release_ascending : top < s' -> ascending us top (l' ++ (s', e' - s') :: r').
Proof.
  intros Hts. destruct release_parts as (Hn4 & Ht & Hu & _ & _ & Hb).
  destruct Hl as [H1 _ _ _ _ _]. apply regions_asc_app in H1 as [Hal Har].
  assert (HR : e' <= us /\ s + n <= e' /\ ascending us (e' + 3) r').
  { destruct Hn as [(-> & _ & -> & Hh)|(b & -> & Hbb & _ & ->)].
    - split_and!; try lia. destruct r as [|b r0]; [done|]. specialize (Hh b eq_refl).
      destruct Har as (? & ? & ? & ?). split_and!; try done; lia.
    - destruct Har as (? & ? & ? & ?). split_and!; try done; lia. }
  destruct HR as (He & Hse & Har').
  destruct Hp as [(-> & _ & -> & Hh)|(b & -> & Hbb & _ & ->)].
  - apply regions_asc_app. split; [done|]. cbn. replace (s + (e' - s) + 3) with (e' + 3) by lia.
    split_and!; try done; try lia. destruct (lastp_case 0 l) as [->|(l0 & b & -> & _)]; [done|].
    rewrite lastend_snoc. apply Hh, last_snoc.
  - apply regions_asc_app in Hal as [Hal (? & ? & ? & _)]. apply regions_asc_app. split; [done|]. cbn.
    replace (b.1 + (e' - b.1) + 3) with (e' + 3) by lia. split_and!; try done; lia.
Qed.

Lemma release_total : total l' + (e' - s') + total r' = total l + total r + n + g1 + g2.
Proof.
  destruct Hn as [(-> & -> & -> & _)|(b & -> & _ & -> & ->)], Hp as [(-> & -> & -> & _)|(c & -> & _ & -> & ->)];
    rewrite ?total_app; unfold total; cbn [foldr]; lia.
Qed.

Lemma elem_of_release b : b ∈ l' \/ b ∈ r' -> b ∈ l ++ r.
Proof.
  rewrite elem_of_app. destruct Hn as [(-> & _)|(x & -> & _)], Hp as [(-> & _)|(c & -> & _)];
    rewrite ?elem_of_cons, ?elem_of_app; tauto.
Qed.

Lemma release_cross x b : x ∈ rs -> b ∈ l' \/ b ∈ r' -> apart x b.
Proof.
  intros Hx Hb. destruct Hl as [_ _ _ H4 _ _]. apply H4; [apply elem_of_cons; by right|by apply elem_of_release].
Qed.

(** A region inside of the area becomes a freeblock. *)
Lemma layout_release : top < s' ->
  g1 + g2 <= frag /\ layout us top (frag - (g1 + g2)) rs (l' ++ (s', e' - s') :: r').
Proof.
  intros Hts. destruct release_parts as (Hn4 & Ht & Hu & _ & Hpw & _). pose proof (release_ascending Hts) as Ha.
  pose proof (la_rs _ _ _ _ _ Hl) as Hr. apply Forall_cons in Hr as [_ Hr].
  assert (Hc : forall x b, x ∈ rs -> b ∈ l' ++ (s', e' - s') :: r' -> apart x b).
  { intros x b Hx. rewrite elem_of_app, elem_of_cons. intros [?|[->|?]]; [|by apply release_apart|];
      apply release_cross; auto. }
  pose proof (regions_fit us top rs _ ltac:(lia) Ha Hr Hpw Hc) as Hf.
  pose proof (la_total _ _ _ _ _ Hl) as Htot. pose proof release_total as HT.
  assert (HT' : total (l' ++ (s', e' - s') :: r') = total l + total r + n + g1 + g2)
    by (rewrite total_app; unfold total in *; cbn [foldr snd]; lia).
  rewrite total_app in Htot. change (total ((s, n) :: rs)) with (n + total rs) in Htot.
  split; [lia|]. split; try done; lia.
Qed.

(** A region at the start of the area is taken out of it. *)
Lemma layout_release_top : s = top ->
  l = [] /\ s' = s /\ g2 = 0 /\ g1 <= frag /\ top < e' <= us /\ layout us e' (frag - g1) rs r'.
Proof.
  intros Est. destruct release_parts as (Hn4 & Ht & Hu & Hap & Hpw & _).
  pose proof (la_asc _ _ _ _ _ Hl) as Ha. pose proof (la_rs _ _ _ _ _ Hl) as Hr.
  pose proof (la_total _ _ _ _ _ Hl) as Htot. pose proof release_total as HT.
  pose proof release_apart as HA. pose proof release_cross as HC.
  assert (El : l = []).
  { destruct l as [|b l0]; [done|]. apply Forall_cons in Hbefore as [? _]. destruct Ha as [? _]. lia. }
  rewrite El in *. cbn [app] in *.
  assert (HP : g2 = 0 /\ s' = s).
  { destruct Hp as [(_ & -> & -> & _)|(b & E & _)]; [done|]. by destruct l'. }
  destruct HP as [-> ->].
  assert (He : top < e' <= us /\ ascending us (e' + 3) r').
  { destruct Hn as [(-> & _ & -> & Hh)|(b & E & Hbb & _ & ->)].
    - split; [lia|]. destruct r as [|b r0]; [done|]. specialize (Hh b eq_refl).
      destruct Ha as (? & ? & ? & ?). split_and!; try done; lia.
    - rewrite E in Ha. destruct Ha as (? & ? & ? & ?). split_and!; try done; lia. }
  destruct He as [He Ha'].
  assert (Hr' : Forall (fun r => 4 <= r.2 /\ e' <= r.1 /\ r.1 + r.2 <= us) rs).
  { apply Forall_cons in Hr as [_ Hr]. apply Forall_forall. intros x Hx. rewrite Forall_forall in Hr.
    destruct (Hr x Hx) as (? & ? & ?). pose proof (HA x Hx) as Hx'. unfold apart in Hx'. cbn in Hx'. lia. }
  pose proof (regions_fit us e' rs r' ltac:(lia) (ascending_le us (e' + 3) e' r' ltac:(lia) Ha') Hr' Hpw
    ltac:(intros; apply HC; auto)) as Hf.
  change (total ((s, n) :: rs)) with (n + total rs) in Htot.
  assert (total l' = 0) by (destruct Hp as [(-> & _)|(b & E & _)]; [done|by destruct l']).
  change (total []) with 0 in *. split_and!; try done; try lia.
  split; try done; [by apply (ascending_le us (e' + 3)); [lia|]|intros; apply HC; auto|lia|lia].
Qed.
End Release.
