(* ===== verification/BtSpace.v ===== *)
(** * Allocation and release of space on a B-tree page

    The invariant that ties the bytes of a page to its layout, and that
    [freeSpace], [pageFindSlot] and [btreeComputeFreeSpace] work on every page that
    satisfies it: they return [SQLITE_OK], keep the bytes of all other regions,
    and account for every byte. *)
From S2P Require Import Prelude FileIO BtBase BtCell BtPage BtLayout.

(** ** The invariant *)

(** The page image [data] has the layout: [hdr] is the offset of the header, [gap]
    the end of the cell pointers. *)
Record space (us hdr gap : Z) (data : list Z) (top frag : Z) (rs fbs : list region) : Prop := {
  sp_u8 : Forall is_u8 data;
  sp_us : us <= alen data /\ us <= 65536;
  sp_gap : 0 <= hdr /\ hdr + 8 <= gap <= top /\ top <= us;
  sp_top : w16 data (hdr + 5) = u16 top;
  sp_free : freelist data (hdr + 1) fbs;
  sp_frag : fbyte data (hdr + 7) = frag /\ frag <= 60;
  sp_layout : layout us top frag rs fbs
}.

(** What the operations leave alone: the bytes before the header, the flags, the
    cell count, the bytes from the end of the header to the gap, and the regions. *)
Definition bytes_kept (hdr gap : Z) (rs : list region) (data data' : list Z) : Prop :=
  alen data' = alen data /\
  forall i, i < hdr + 1 \/ hdr + 3 <= i < hdr + 5 \/ hdr + 8 <= i < gap \/
            (exists r, r ∈ rs /\ in_region r i) -> fbyte data' i = fbyte data i.

Lemma bytes_kept_refl hdr gap rs data : bytes_kept hdr gap rs data data.
Proof. done. Qed.

Lemma bytes_kept_trans hdr gap rs a b c : bytes_kept hdr gap rs a b -> bytes_kept hdr gap rs b c -> bytes_kept hdr gap rs a c.
Proof. intros [L1 H1] [L2 H2]. split; [lia|]. intros i Hi. rewrite H2, H1; done. Qed.

Lemma kept_changed hdr gap rs a b off n : changed a off n b ->
  (hdr + 1 <= off /\ off + n <= hdr + 3) \/ (hdr + 5 <= off /\ off + n <= hdr + 8) \/
  (gap <= off /\ hdr + 8 <= gap /\ Forall (fun r => apart r (off, n)) rs) ->
  hdr + 8 <= gap -> Forall (fun r => gap <= r.1) rs -> bytes_kept hdr gap rs a b.
Proof.
  intros (L & _ & H) Hr Hg Hrs. split; [done|]. intros i Hi. apply H. rewrite Forall_forall in Hrs.
  destruct Hi as [?|[?|[?|(r & Hin & Hi)]]]; [lia..|].
  specialize (Hrs r Hin). unfold in_region in Hi. destruct Hr as [?|[?|(? & _ & Ha)]]; [lia..|].
  rewrite Forall_forall in Ha. specialize (Ha r Hin). unfold apart in Ha. cbn in Ha. lia.
Qed.

Lemma space_rs_gap us hdr gap data top frag rs fbs :
  space us hdr gap data top frag rs fbs -> Forall (fun r => gap <= r.1) rs.
Proof.
  intros Hs. destruct (sp_gap _ _ _ _ _ _ _ _ Hs) as (_ & ? & _).
  eapply Forall_impl; [exact (la_rs _ _ _ _ _ (sp_layout _ _ _ _ _ _ _ _ Hs))|]. intros r (? & ? & ?). lia.
Qed.

Definition headp (l : list region) : Z := match l with [] => 0 | b :: _ => b.1 end.

Lemma freelist_head data p l : freelist data p l -> w16 data p = headp l.
Proof. intros [H1 H2]. destruct l; [done|]. by destruct H1. Qed.

Lemma freelist_app data p a b : freelist data p (a ++ b) <-> fchain data p a /\ freelist data (lastp p a) b.
Proof. unfold freelist. rewrite fchain_app, lastp_app. tauto. Qed.

(** ** The search for a place in the list *)

Lemma free_search_ok us data s : Forall is_u8 data -> us <= alen data ->
  forall fbs p lo fuel, freelist data p fbs -> ascending us lo fbs -> p <= lo -> 0 <= p -> p + 2 <= alen data ->
  s - p < Z.of_nat fuel -> (0 < fuel)%nat -> 0 < s ->
  exists l r, fbs = l ++ r /\ Forall (fun b => b.1 < s) l /\ (forall b, head r = Some b -> s <= b.1) /\
    free_search fuel data s p = Some (Some (lastp p l, headp r)).
Proof.
  intros Hd Hu. induction fbs as [|b fbs IH]; intros p lo fuel Hf Ha Hp H0 H1 Hfu Hf0 Hs;
    (destruct fuel as [|fuel]; [lia|]); cbn [free_search]; rewrite get2byte_w16 by done;
    cbn [mbind option_bind]; rewrite (freelist_head _ _ _ Hf); cbn [headp].
  - exists [], []. split_and!; [done|constructor|done|]. cbn [lastp headp].
    rewrite (proj2 (Z.ltb_lt 0 s)) by lia. rewrite (proj2 (Z.leb_le 0 p)) by lia. done.
  - pose proof Ha as (Ha1 & Ha2 & Ha3 & Ha4). destruct (Z.ltb_spec b.1 s).
    + rewrite (proj2 (Z.leb_gt _ _)) by lia. apply (freelist_app _ _ [b]) in Hf as [_ Hf]. cbn [lastp] in Hf.
      destruct (IH b.1 (b.1 + b.2 + 3) fuel) as (l & r & -> & Hl & Hr & Hfs); [done|done|lia..|].
      exists (b :: l), r. split_and!; [done|by constructor|done|done].
    + exists [], (b :: fbs). split_and!; [done|constructor| |done]. by intros c [= <-].
Qed.

(** ** Release *)

Lemma headp_pos us lo r : ascending us lo r -> 0 <= lo -> r <> [] -> 0 < headp r.
Proof. destruct r; [done|]. cbn. lia. Qed.

Lemma coalesce_next_ok pBt data s n p lo r :
  Forall is_u8 data -> usableSize pBt <= alen data -> usableSize pBt <= 65536 ->
  freelist data p r -> ascending (usableSize pBt) lo r -> 0 <= lo -> 0 < s -> 4 <= n -> s + n <= usableSize pBt ->
  (forall b, head r = Some b -> s + n <= b.1) ->
  exists g e' r', merge_next (s + n) r g e' r' /\
    coalesce_next pBt data s n (s + n) (headp r) = Some (Some (g, e', e' - s, headp r')).
Proof.
  intros Hd Hu Hu' Hf Ha Hlo Hs Hn Hsn Hh. unfold coalesce_next. rewrite (u32_id (s + n + 3)) by (unfold is_u32; lia).
  destruct r as [|b r].
  { exists 0, (s + n), []. split; [left; split_and!; done|]. cbn. do 4 f_equal. lia. }
  specialize (Hh b eq_refl). pose proof Ha as (Ha1 & Ha2 & Ha3 & Ha4). cbn [headp].
  rewrite (proj2 (Z.eqb_neq b.1 0)) by lia. cbn [negb andb].
  destruct (Z.leb_spec b.1 (s + n + 3)) as [Hle|Hgt].
  - exists (b.1 - (s + n)), (b.1 + b.2), r. split; [right; exists b; split_and!; try done; lia|].
    rewrite (proj2 (Z.ltb_ge b.1 (s + n))) by lia. rewrite (get2byte_w16 data (b.1 + 2)) by (done || lia).
    cbn [mbind option_bind]. destruct Hf as [(H1 & H2 & H3) H4]. rewrite H2. rewrite (u32_id (b.1 + b.2)) by (unfold is_u32; lia).
    rewrite (proj2 (Z.ltb_ge _ (b.1 + b.2))) by lia. rewrite get2byte_w16 by (done || lia).
    cbn [mbind option_bind]. rewrite u8_id by (unfold is_u8; lia). unfold u16. rewrite Z.mod_small by lia.
    rewrite (freelist_head data b.1 r) by done. done.
  - exists 0, (s + n), (b :: r). split; [left; split_and!; try done; intros c [= <-]; lia|].
    cbn [headp]. do 4 f_equal. lia.
Qed.

Lemma coalesce_prev_ok hdr data us top s e g1 l :
  Forall is_u8 data -> us <= alen data -> us <= 65536 -> 0 <= hdr -> hdr + 8 <= top ->
  fchain data (hdr + 1) l -> ascending us top l -> 0 < s -> s <= e <= us -> 0 <= g1 <= 3 ->
  Forall (fun b => b.1 + b.2 <= s) l ->
  exists g2 s' l', merge_prev s l g2 s' l' /\ 0 <= g2 <= 3 /\
    coalesce_prev hdr data (lastp (hdr + 1) l) s (e - s) e g1 = Some (Some (g1 + g2, s', e - s')).
Proof.
  intros Hd Hu Hu' Hh Ht Hf Ha Hs He Hg Hl. unfold coalesce_prev.
  destruct (lastp_case (hdr + 1) l) as [->|(l0 & b & -> & ->)].
  { exists 0, s, []. cbn [lastp]. rewrite (proj2 (Z.ltb_ge _ _)) by lia.
    split; [left; split_and!; done|]. split; [lia|]. do 4 f_equal; lia. }
  pose proof (ascending_lb _ _ _ b Ha ltac:(apply elem_of_app; right; by constructor)) as (Ha1 & Ha2 & Ha3).
  apply fchain_app in Hf as [_ (_ & Hf & _)]. apply Forall_app in Hl as [_ Hl]. apply Forall_cons in Hl as [Hl _].
  rewrite (proj2 (Z.ltb_lt (hdr + 1) b.1)) by lia. rewrite get2byte_w16 by (done || lia).
  cbn [mbind option_bind]. rewrite Hf. destruct (Z.leb_spec s (b.1 + b.2 + 3)) as [Hle|Hgt].
  - exists (s - (b.1 + b.2)), b.1, l0. split; [right; exists b; split_and!; try done; lia|]. split; [lia|].
    rewrite (proj2 (Z.ltb_ge _ _)) by lia. rewrite u8_id by (unfold is_u8; lia). unfold u16.
    rewrite Z.mod_small by lia. done.
  - exists 0, s, (l0 ++ [b]). split; [left; split_and!; try done|].
    { intros c. rewrite last_snoc. intros [= <-]. lia. }
    split; [lia|]. do 4 f_equal; lia.
Qed.

(** The list with the new block in it, in an image where only the block and the
    pointer to it differ. *)
Lemma freelist_move data data' q q' r : freelist data q r -> w16 data' q' = headp r ->
  (forall b i, b ∈ r -> b.1 <= i < b.1 + 4 -> fbyte data' i = fbyte data i) -> freelist data' q' r.
Proof.
  intros [H1 H2] Hw Hb. destruct r as [|b r]; [done|]. destruct H1 as (H3 & H4 & H5).
  assert (HW : forall c k, c ∈ b :: r -> 0 <= k <= 2 -> w16 data' (c.1 + k) = w16 data (c.1 + k)).
  { intros c k Hc Hk. apply w16_same. intros j Hj. apply (Hb c); [done|lia]. }
  split.
  - split_and!; [done|rewrite HW by (lia || by constructor); done|].
    apply (fchain_frame data); [|intros c i Hc; apply Hb, elem_of_cons; by right|done].
    intros _. specialize (HW b 0 ltac:(by constructor) ltac:(lia)). by rewrite Z.add_0_r in HW.
  - cbn [lastp] in *. rewrite <- H2. destruct (lastp_case b.1 r) as [->|(l0 & c & -> & ->)].
    + specialize (HW b 0 ltac:(by constructor) ltac:(lia)). by rewrite Z.add_0_r in HW.
    + specialize (HW c 0). rewrite Z.add_0_r in HW. apply HW; [|lia]. apply elem_of_cons. right.
      apply elem_of_app. right. by constructor.
Qed.

Lemma ascending_before us lo a c r : ascending us lo (a ++ c :: r) ->
  forall b, b ∈ a -> lo < b.1 /\ 4 <= b.2 /\ b.1 + b.2 + 3 < c.1.
Proof.
  revert lo. induction a as [|x a IH]; intros lo H b Hb; [by apply elem_of_nil in Hb|].
  destruct H as (H1 & H2 & H3 & H4). apply elem_of_cons in Hb as [->|Hb].
  - apply ascending_lb with (b := c) in H4; [lia|]. apply elem_of_app. right. by constructor.
  - specialize (IH _ H4 b Hb). lia.
Qed.

Lemma freelist_insert data data' us top p l r g1 e e' r' g2 s s' l' :
  freelist data p (l ++ r) -> ascending us top (l' ++ (s', e' - s') :: r') ->
  merge_next e r g1 e' r' -> merge_prev s l g2 s' l' -> p + 2 <= top ->
  (forall i, ~ s' <= i < e' -> ~ lastp p l' <= i < lastp p l' + 2 -> fbyte data' i = fbyte data i) ->
  w16 data' (lastp p l') = s' -> w16 data' s' = headp r' -> w16 data' (s' + 2) = e' - s' ->
  freelist data' p (l' ++ (s', e' - s') :: r').
Proof.
  intros Hf Ha Hn Hp Hpt Hfr Hw1 Hw2 Hw3. apply freelist_app in Hf as [Hf1 Hf2].
  pose proof (ascending_before _ _ _ _ _ Ha) as Hl'. cbn in Hl'.
  apply regions_asc_app in Ha as [Ha1 (Ha2 & Ha3 & Ha4 & Ha5)]. cbn in Ha2, Ha3, Ha4, Ha5.
  assert (Hts : top < s').
  { destruct (lastp_case p l') as [->|(l0 & b & -> & _)]; [done|].
    specialize (Hl' b ltac:(apply elem_of_app; right; by constructor)). lia. }
  assert (Hlast : lastp p l' + 2 <= s' /\ (l' <> [] -> top < lastp p l')).
  { destruct (lastp_case p l') as [->|(l0 & b & -> & ->)]; [split; [cbn; lia|done]|].
    specialize (Hl' b ltac:(apply elem_of_app; right; by constructor)). lia. }
  assert (HR : freelist data' s' r').
  { assert (HF : exists q, freelist data q r').
    { destruct Hn as [(-> & _)|(b & -> & _)]; [eauto|]. exists b.1. by apply (freelist_app data _ [b]) in Hf2 as [_ ?]. }
    destruct HF as [q HF]. apply (freelist_move data data' q s'); [done|done|].
    intros b i Hb Hi. pose proof (ascending_lb _ _ _ _ Ha5 Hb). apply Hfr; lia. }
  apply freelist_app. split; [|split; [split_and!; [done|done|]|]].
  - apply (fchain_frame_last data).
    + intros Hne. apply w16_same. intros j Hj. destruct Hlast as [_ Hlast]. specialize (Hlast Hne). apply Hfr; lia.
    + intros b i Hb Hi Hni. specialize (Hl' b Hb). apply Hfr; [lia|done].
    + by eapply ascending_apart.
    + apply Forall_forall. intros b Hb. by apply Hl'.
    + destruct Hp as [(-> & _)|(b & -> & _)]; [done|]. by apply fchain_app in Hf1 as [? _].
  - apply HR.
  - apply HR.
Qed.

(** Secure deletion only writes inside of the block. *)
Lemma secure_ok pBt data s n : 0 <= s -> 0 <= n -> s + n <= alen data ->
  exists d, (if negb (btsFlags pBt .& BTS_FAST_SECURE =? 0) then memset data s 0 n else Some data) = Some d /\
    changed data s n d.
Proof.
  intros. destruct (negb _); [by apply memset_ok|]. exists data. done.
Qed.

Lemma headp_u16 us lo r : ascending us lo r -> 0 <= lo -> us <= 65536 -> u16 (headp r) = headp r.
Proof. intros Ha Hlo Hu. unfold u16. apply Z.mod_small. destruct r; cbn in *; lia. Qed.

Section FreeStore.
Context (pBt : BtShared) (pPage : MemPage) (hdr gap top frag : Z) (data : list Z).
Context (s n : Z) (rs l r : list region) (g1 e' : Z) (r' : list region) (g2 s' : Z) (l' : list region).
Abbreviation us := (usableSize pBt).
Context (Hhdr : hdrOffset pPage = hdr) (Hd : Forall is_u8 data) (Hu : us <= alen data /\ us <= 65536).
Context (Hg : 0 <= hdr /\ hdr + 8 <= gap <= top /\ top <= us) (Htop : w16 data (hdr + 5) = u16 top).
Context (Hf : freelist data (hdr + 1) (l ++ r)).
Context (Hfrag : fbyte data (hdr + 7) = frag - (g1 + g2)) (Hf60 : frag <= 60) (Hg12 : 0 <= g1 /\ 0 <= g2).
Context (Hl : layout us top frag ((s, n) :: rs) (l ++ r)) (Hbefore : Forall (fun b => b.1 < s) l).
Context (Hn : merge_next (s + n) r g1 e' r') (Hp : merge_prev s l g2 s' l').

Lemma store_bounds : top <= s' /\ s' <= s /\ s + n <= e' /\ e' <= us /\ (s' = top -> s = top) /\ 4 <= n.
Proof.
  destruct (release_parts _ _ _ _ _ _ _ _ Hl) as (H1 & H2 & H3 & _ & _ & _).
  pose proof (la_asc _ _ _ _ _ Hl) as Ha. apply regions_asc_app in Ha as [Hal Har].
  assert (s + n <= e' <= us).
  { destruct Hn as [(_ & _ & -> & _)|(b & -> & ? & _ & ->)]; [lia|]. destruct Har as (? & ? & ? & _). lia. }
  destruct Hp as [(_ & _ & -> & _)|(b & -> & ? & _ & ->)]; [lia|].
  pose proof (ascending_lb _ _ _ b Hal ltac:(apply elem_of_app; right; by constructor)). lia.
Qed.

Lemma rs_gap : Forall (fun x => gap <= x.1) rs.
Proof.
  pose proof (la_rs _ _ _ _ _ Hl) as H. apply Forall_cons in H as [_ H].
  eapply Forall_impl; [exact H|]. intros x (? & ? & ?). lia.
Qed.

Lemma rs_apart : Forall (fun x => apart x (s', e' - s')) rs.
Proof.
  apply Forall_forall. intros x Hx. eapply release_apart; eauto.
Qed.

(** The region was the first of the content area. *)
Lemma free_store_top : s' = top ->
  exists data', free_store pBt pPage data s' (e' - s') e' (lastp (hdr + 1) l) (headp r') n
    = Some (SQLITE_OK, set_page pPage data' (nFree pPage + n) (nCell pPage)) /\
  space us hdr gap data' e' (frag - (g1 + g2)) rs r' /\ bytes_kept hdr gap rs data data'.
Proof.
  intros Est. destruct store_bounds as (B1 & B2 & B3 & B4 & B5 & B6). specialize (B5 Est).
  destruct (layout_release_top _ _ _ _ _ _ _ _ Hl Hbefore _ _ _ Hn _ _ _ Hp B5) as (El & Es & Eg & Hgf & He & HL).
  unfold free_store. rewrite Hhdr, get2byte_w16, Htop by (done || lia). cbn [mbind option_bind].
  destruct (secure_ok pBt data s' (e' - s')) as (d1 & -> & C1); [lia..|]. cbn [mbind option_bind].
  unfold u16. rewrite (Z.mod_small top) by lia. rewrite Est, Z.leb_refl, Z.ltb_irrefl, El. cbn [lastp].
  rewrite Z.eqb_refl. cbn [negb]. destruct C1 as (L1 & U1 & C1).
  destruct (put2byte_ok d1 (hdr + 1) (headp r')) as (d2 & -> & C2 & W2); [lia..|]. cbn [mbind option_bind].
  pose proof C2 as (L2 & U2 & _).
  destruct (put2byte_ok d2 (hdr + 5) e') as (d3 & -> & C3 & W3); [lia..|]. cbn [mbind option_bind].
  pose proof C3 as (L3 & U3 & _). exists d3. split; [done|].
  pose proof (la_asc _ _ _ _ _ HL) as Har.
  assert (Hsame : forall i, e' <= i \/ hdr + 7 <= i < top -> fbyte d3 i = fbyte data i).
  { intros i Hi. destruct C2 as (_ & _ & C2), C3 as (_ & _ & C3). rewrite C3, C2, C1 by lia. done. }
  split.
  - split; [auto|lia|lia|done| |rewrite Hsame by lia; split; [done|lia]|by rewrite Eg, Z.add_0_r].
    assert (HF : exists q, freelist data q r').
    { rewrite El in Hf. destruct Hn as [(-> & _)|(b & Er & _)]; [eauto|]. exists b.1. rewrite Er in Hf.
      by apply (freelist_app data _ [b]) in Hf as [_ ?]. }
    destruct HF as [q HF]. apply (freelist_move data d3 q); [done| |].
    + rewrite (changed_w16 _ _ _ _ _ C3) by lia. rewrite W2. eapply headp_u16; [done|lia|lia].
    + intros b i Hb Hi. pose proof (ascending_lb _ _ _ _ Har Hb). apply Hsame. lia.
  - apply (bytes_kept_trans _ _ _ _ d1); [|apply (bytes_kept_trans _ _ _ _ d2)].
    + eapply kept_changed; [split_and!; [exact L1|exact U1|exact C1]|right; right; split_and!; [lia|lia|exact rs_apart]|lia|exact rs_gap].
    + eapply kept_changed; [exact C2|left; lia|lia|exact rs_gap].
    + eapply kept_changed; [exact C3|right; left; lia|lia|exact rs_gap].
Qed.

(** Where the pointer to the new block is. *)
Lemma store_ptr : top < s' ->
  hdr + 1 <= lastp (hdr + 1) l /\ (lastp (hdr + 1) l = s' \/
      lastp (hdr + 1) l = lastp (hdr + 1) l') /\ lastp (hdr + 1) l' + 2 <= s' /\
      (lastp (hdr + 1) l = hdr + 1 \/ top < lastp (hdr + 1) l).
Proof.
  intros Hts. destruct (layout_release us top frag s n rs l r Hl Hbefore g1 e' r' Hn g2 s' l' Hp Hts) as (_ & HL).
  pose proof (la_asc _ _ _ _ _ HL) as Ha. pose proof (ascending_before _ _ _ _ _ Ha) as Hl'. cbn in Hl'.
  assert (H2 : lastp (hdr + 1) l' + 2 <= s' /\ (l' = [] \/ top < lastp (hdr + 1) l')).
    { destruct (lastp_case (hdr + 1) l') as [->|(l0 & b & -> & ->)]; [split; [cbn; lia|by left]|].
      specialize (Hl' b ltac:(apply elem_of_app; right; by constructor)). split; [|right]; lia. }
    destruct Hp as [(<- & _ & _)|(b & -> & _ & _ & ->)]; [|rewrite lastp_snoc; lia].
    destruct H2 as [? [E|?]]; [rewrite E; cbn [lastp]|]; split_and!; auto; lia.
Qed.

Lemma ptr_outside x i : x ∈ rs -> in_region x i -> ~ lastp (hdr + 1) l <= i < lastp (hdr + 1) l + 2.
Proof.
  intros Hx Hxi. pose proof rs_gap as Hrg. rewrite Forall_forall in Hrg. specialize (Hrg x Hx). unfold in_region in Hxi.
  destruct (lastp_case (hdr + 1) l) as [E|(l0 & b & E & ->)]; [rewrite E; cbn; lia|].
  pose proof (la_cross _ _ _ _ _ Hl x b) as Hc. pose proof (la_asc _ _ _ _ _ Hl) as Hla. rewrite E in Hc, Hla.
  specialize (Hc ltac:(apply elem_of_cons; by right) ltac:(rewrite !elem_of_app; left; right; by constructor)).
  pose proof (ascending_lb _ _ _ b Hla ltac:(rewrite !elem_of_app; left; right; by constructor)).
  unfold apart in Hc. lia.
Qed.

(** The region becomes a freeblock or part of one. *)
Lemma free_store_block : top < s' ->
  exists data', free_store pBt pPage data s' (e' - s') e' (lastp (hdr + 1) l) (headp r') n
    = Some (SQLITE_OK, set_page pPage data' (nFree pPage + n) (nCell pPage)) /\
  space us hdr gap data' top (frag - (g1 + g2)) rs (l' ++ (s', e' - s') :: r') /\ bytes_kept hdr gap rs data data'.
Proof.
  intros Hts. destruct store_bounds as (B1 & B2 & B3 & B4 & B5 & B6).
  destruct (layout_release us top frag s n rs l r Hl Hbefore g1 e' r' Hn g2 s' l' Hp Hts) as (Hgf & HL).
  pose proof (la_asc _ _ _ _ _ HL) as Ha. pose proof (ascending_before _ _ _ _ _ Ha) as Hl'. cbn in Hl'.
  pose proof (store_ptr Hts) as Hq.
  set (q := lastp (hdr + 1) l) in *.
  assert (Har : u16 (headp r') = headp r').
  { apply regions_asc_app in Ha as [_ (_ & _ & _ & Ha)]. eapply headp_u16; [exact Ha|cbn; lia|lia]. }
  unfold free_store. rewrite Hhdr, get2byte_w16, Htop by (done || lia). cbn [mbind option_bind].
  destruct (secure_ok pBt data s' (e' - s')) as (d1 & -> & C1); [lia..|]. cbn [mbind option_bind].
  unfold u16 at 1. rewrite (Z.mod_small top) by lia. rewrite (proj2 (Z.leb_gt s' top)) by lia.
  pose proof C1 as (L1 & U1 & F1).
  destruct (put2byte_ok d1 q s') as (d2 & -> & C2 & W2); [lia..|]. cbn [mbind option_bind].
  pose proof C2 as (L2 & U2 & F2).
  destruct (put2byte_ok d2 s' (headp r')) as (d3 & -> & C3 & W3); [lia..|]. cbn [mbind option_bind].
  pose proof C3 as (L3 & U3 & F3).
  destruct (put2byte_ok d3 (s' + 2) (e' - s')) as (d4 & -> & C4 & W4); [lia..|]. cbn [mbind option_bind].
  pose proof C4 as (L4 & U4 & F4). exists d4. split; [done|].
  assert (Hsame : forall i, ~ s' <= i < e' -> ~ q <= i < q + 2 -> fbyte d4 i = fbyte data i).
  { intros i H1 H2. rewrite F4, F3, F2, F1 by lia. done. }
  split.
  - split; [auto|lia|lia| | |split; [rewrite <- Hfrag; apply Hsame|]|done]; try lia.
    + rewrite <- Htop. apply w16_same. intros j Hj. apply Hsame; lia.
    + eapply (freelist_insert data); [exact Hf|exact Ha|exact Hn|exact Hp|lia| | | |].
      * intros i H1 H2. destruct (decide (q <= i < q + 2)); [|by apply Hsame].
        destruct Hq as (_ & [Hq|Hq] & _); lia.
      * destruct Hq as (_ & [Hq|Hq] & Hq' & _).
        -- rewrite (w16_same data) by (intros j Hj; apply Hsame; lia).
           apply freelist_app in Hf as [Hf _].
           destruct Hp as [(E & _)|(b & E & _ & _ & ->)]; [rewrite E in Hq'; subst q; lia|].
           rewrite E in Hf. by apply fchain_app in Hf as [_ (? & _)].
        -- rewrite <- Hq. rewrite (changed_w16 _ _ _ _ _ C4), (changed_w16 _ _ _ _ _ C3), W2 by lia.
           unfold u16. rewrite Z.mod_small; lia.
      * by rewrite (changed_w16 _ _ _ _ _ C4), W3 by lia.
      * rewrite W4. unfold u16. rewrite Z.mod_small; lia.
  - split; [lia|]. intros i Hi. pose proof rs_apart as Hra. rewrite Forall_forall in Hra.
    destruct Hi as [?|[?|[?|(x & Hx & Hxi)]]]; [apply Hsame; lia..|]. apply Hsame; [|by apply (ptr_outside x)].
    specialize (Hra x Hx). unfold apart, in_region in *. cbn in Hra. lia.
Qed.
End FreeStore.

Lemma layout_top_le us top frag s n rs fbs : layout us top frag ((s, n) :: rs) fbs -> top <= s /\ 4 <= n /\ s + n <= us.
Proof. intros H. pose proof (la_rs _ _ _ _ _ H) as Hr. apply Forall_cons in Hr as [Hr _]. cbn in Hr. lia. Qed.

(** The two cases of the store together. *)
Lemma free_store_ok pBt pPage hdr gap top frag data s n rs l r g1 e' r' g2 s' l' :
  hdrOffset pPage = hdr -> Forall is_u8 data -> usableSize pBt <= alen data /\ usableSize pBt <= 65536 ->
  0 <= hdr /\ hdr + 8 <= gap <= top /\ top <= usableSize pBt -> w16 data (hdr + 5) = u16 top ->
  freelist data (hdr + 1) (l ++ r) -> fbyte data (hdr + 7) = frag - (g1 + g2) -> frag <= 60 -> 0 <= g1 /\ 0 <= g2 ->
  layout (usableSize pBt) top frag ((s, n) :: rs) (l ++ r) -> Forall (fun b => b.1 < s) l ->
  merge_next (s + n) r g1 e' r' -> merge_prev s l g2 s' l' ->
  exists data' top' fbs', free_store pBt pPage data s' (e' - s') e' (lastp (hdr + 1) l) (headp r') n
    = Some (SQLITE_OK, set_page pPage data' (nFree pPage + n) (nCell pPage)) /\
  space (usableSize pBt) hdr gap data' top' (frag - (g1 + g2)) rs fbs' /\ bytes_kept hdr gap rs data data'.
Proof.
  intros A1 A2 A3 A4 A5 A6 A7 A8 A9 A10 A11 A12 A13.
  destruct (store_bounds pBt hdr top frag data s n rs l r g1 e' r' g2 s' l' A6 A10 A11 A12 A13) as (Hs & _).
  destruct (decide (s' = top)) as [E|E].
  - destruct (free_store_top pBt pPage hdr gap top frag data s n rs l r g1 e' r' g2 s' l'
      A1 A2 A3 A4 A5 A6 A7 A8 A9 A10 A11 A12 A13 E) as (d & ?). eauto.
  - destruct (free_store_block pBt pPage hdr gap top frag data s n rs l r g1 e' r' g2 s' l'
      A1 A2 A3 A4 A5 A6 A7 A8 A9 A10 A11 A12 A13 ltac:(lia)) as (d & ?). eauto.
Qed.

Lemma merge_g_nonneg e r g e' r' : merge_next e r g e' r' -> 0 <= g <= 3.
Proof. intros [(_ & -> & _)|(b & _ & ? & -> & _)]; lia. Qed.

Lemma freelist_nil us lo data p fbs : freelist data p fbs -> ascending us lo fbs -> 0 <= lo ->
  (w16 data p = 0 <-> fbs = []).
Proof.
  intros Hf Ha Hlo. rewrite (freelist_head _ _ _ Hf). destruct fbs as [|b fbs]; [done|].
  destruct Ha as [? _]. split; [cbn; lia|done].
Qed.

Lemma ascending_drop us lo a b : ascending us lo (a ++ b) -> ascending us lo b.
Proof.
  revert lo. induction a as [|x a IH]; intros lo H; [done|]. destruct H as (? & ? & ? & H).
  apply IH in H. eapply ascending_le; [|exact H]. lia.
Qed.

(** The search on a page that satisfies the invariant. *)
Lemma space_search us hdr gap data top frag s n rs fbs :
  space us hdr gap data top frag ((s, n) :: rs) fbs ->
  exists l r, fbs = l ++ r /\ Forall (fun b => b.1 < s) l /\ Forall (fun b => b.1 + b.2 <= s) l /\
    (forall b, head r = Some b -> s + n <= b.1) /\ headp r <= us - 4 /\
    free_search (S (Z.to_nat s)) data s (hdr + 1) = Some (Some (lastp (hdr + 1) l, headp r)).
Proof.
  intros [Hd [Hu Hu'] (Hh & Hg & Ht) Htop Hf [Hfr Hf60] Hl].
  destruct (layout_top_le _ _ _ _ _ _ _ Hl) as (B1 & B2 & B3). pose proof (la_asc _ _ _ _ _ Hl) as Ha.
  destruct (free_search_ok us data s Hd Hu fbs (hdr + 1) top (S (Z.to_nat s)))
    as (l & r & -> & Hlt & Hge & Hfs); [done|done|lia..|].
  exists l, r. assert (Hc : forall b, b ∈ l ++ r -> apart (s, n) b) by (intros b; apply (la_cross _ _ _ _ _ Hl); by constructor).
  pose proof (fun b => ascending_lb us top (l ++ r) b Ha) as HA.
  split_and!; try done.
  - apply Forall_forall. intros b Hb. rewrite Forall_forall in Hlt. specialize (Hlt b Hb).
    specialize (Hc b ltac:(apply elem_of_app; by left)). unfold apart in Hc. cbn in Hc. lia.
  - intros b Hb. specialize (Hge b Hb). destruct r as [|c r]; [done|]. injection Hb as ->.
    specialize (Hc b ltac:(apply elem_of_app; right; by constructor)). specialize (HA b ltac:(apply elem_of_app; right; by constructor)).
    unfold apart in Hc. cbn in Hc. lia.
  - destruct r as [|c r]; [cbn; lia|]. specialize (HA c ltac:(apply elem_of_app; right; by constructor)). cbn. lia.
Qed.

Lemma release_frag_le pBt hdr top frag data s n rs l r g1 e' r' g2 s' l' :
  freelist data (hdr + 1) (l ++ r) -> layout (usableSize pBt) top frag ((s, n) :: rs) (l ++ r) ->
  Forall (fun b => b.1 < s) l -> merge_next (s + n) r g1 e' r' -> merge_prev s l g2 s' l' -> g1 + g2 <= frag.
Proof.
  intros Hf Hl Hlt Hn Hp.
  destruct (store_bounds pBt hdr top frag data s n rs l r g1 e' r' g2 s' l' Hf Hl Hlt Hn Hp) as (Hs & _ & _ & _ & Hst & _).
  destruct (decide (s' = top)) as [E|E].
  - destruct (layout_release_top _ top frag s n rs l r Hl Hlt g1 e' r' Hn g2 s' l' Hp (Hst E)) as (_ & _ & ? & ? & _). lia.
  - apply (layout_release _ top frag s n rs l r Hl Hlt g1 e' r' Hn g2 s' l' Hp). lia.
Qed.

(** The shortcut for an empty list. *)
Lemma free_store_empty pBt pPage gap top frag s n rs :
  space (usableSize pBt) (hdrOffset pPage) gap (aData pPage) top frag ((s, n) :: rs) [] ->
  exists data' top' frag' fbs',
    free_store pBt pPage (aData pPage) s n (s + n) (hdrOffset pPage + 1) 0 n
    = Some (SQLITE_OK, set_page pPage data' (nFree pPage + n) (nCell pPage)) /\
    space (usableSize pBt) (hdrOffset pPage) gap data' top' frag' rs fbs' /\
    bytes_kept (hdrOffset pPage) gap rs (aData pPage) data'.
Proof.
  intros [Hd Hu Hg Htop Hf [Hfr Hf60] Hl].
  pose proof (free_store_ok pBt pPage _ gap top frag (aData pPage) s n rs [] [] 0 (s + n) [] 0 s []
    eq_refl Hd Hu Hg Htop Hf ltac:(lia) Hf60 ltac:(lia) Hl) as HS.
  cbn [lastp headp] in HS. replace (s + n - s) with n in HS by lia.
  destruct HS as (d & t & f & HS); [constructor|left; split_and!; done|left; split_and!; done|].
  exists d, t, (frag - (0 + 0)), f. done.
Qed.

(** Fragments that become part of a block are no longer counted. *)
Lemma space_set_frag us hdr gap data top frag rs fbs v : space us hdr gap data top frag rs fbs -> is_u8 v ->
  exists d, put1byte data (hdr + 7) v = Some d /\ Forall is_u8 d /\ alen d = alen data /\
    w16 d (hdr + 5) = u16 top /\ freelist d (hdr + 1) fbs /\ fbyte d (hdr + 7) = v /\ bytes_kept hdr gap rs data d.
Proof.
  intros Hsp Hv. pose proof (space_rs_gap _ _ _ _ _ _ _ _ Hsp) as Hrg.
  destruct Hsp as [Hd [Hu Hu'] (Hh & Hg & Ht) Htop Hf [Hfr Hf60] Hl].
  destruct (put1byte_ok data (hdr + 7) v) as (d & -> & C & W); [lia..|done|]. pose proof C as (L & U & F).
  exists d. split_and!; try done; [auto| | |].
  - rewrite <- Htop. apply (changed_w16 _ _ _ _ _ C). lia.
  - apply (freelist_move data d (hdr + 1)); [done| |].
    + rewrite (changed_w16 _ _ _ _ _ C) by lia. by apply freelist_head.
    + intros b i Hb Hi. pose proof (ascending_lb _ _ _ _ (la_asc _ _ _ _ _ Hl) Hb). apply F. lia.
  - eapply kept_changed; [exact C|right; left; lia|lia|done].
Qed.

(** The freeing of a region: it succeeds, gives the space back and touches nothing
    else that is in use. *)
Lemma freeSpace_ok pBt pPage gap top frag s n rs fbs :
  space (usableSize pBt) (hdrOffset pPage) gap (aData pPage) top frag ((s, n) :: rs) fbs ->
  exists data' top' frag' fbs',
    freeSpace pBt pPage s n = Some (SQLITE_OK, set_page pPage data' (nFree pPage + n) (nCell pPage)) /\
    space (usableSize pBt) (hdrOffset pPage) gap data' top' frag' rs fbs' /\
    bytes_kept (hdrOffset pPage) gap rs (aData pPage) data'.
Proof.
  intros Hsp. pose proof Hsp as [Hd [Hu Hu'] (Hh & Hg & Ht) Htop Hf [Hfr Hf60] Hl].
  destruct (layout_top_le _ _ _ _ _ _ _ Hl) as (B1 & B2 & B3). pose proof (la_asc _ _ _ _ _ Hl) as Ha.
  unfold freeSpace. rewrite !aget_fbyte by lia. cbn [mbind option_bind].
  destruct ((fbyte (aData pPage) (hdrOffset pPage + 1 + 1) =? 0) && (fbyte (aData pPage) (hdrOffset pPage + 1) =? 0)) eqn:Ez.
  { assert (fbs = []) as ->.
    { apply (freelist_nil _ _ _ _ _ Hf Ha ltac:(lia)). unfold w16. lia. }
    by apply (free_store_empty _ _ _ top frag). }
  destruct (space_search _ _ _ _ _ _ _ _ _ _ Hsp) as (l & r & -> & Hlt & Hle & Hge & Hhp & ->).
  cbn [mbind option_bind]. rewrite (proj2 (Z.ltb_ge _ _)) by lia.
  pose proof Hf as [Hf1 Hf2]%freelist_app. pose proof (ascending_drop _ _ _ _ Ha) as Ha2.
  destruct (coalesce_next_ok pBt (aData pPage) s n _ _ r Hd Hu Hu' Hf2 Ha2)
    as (g1 & e' & r' & Hn & ->); [lia..|done|]. cbn [mbind option_bind].
  pose proof (merge_g_nonneg _ _ _ _ _ Hn) as Hg1.
  assert (He : s <= e' <= usableSize pBt).
  { destruct Hn as [(_ & _ & -> & _)|(b & -> & ? & _ & ->)]; [lia|]. destruct Ha2 as (? & ? & ? & _). lia. }
  pose proof Ha as [Ha1 _]%regions_asc_app.
  destruct (coalesce_prev_ok (hdrOffset pPage) (aData pPage) (usableSize pBt) top s e' g1 l) as (g2 & s' & l' & Hp & Hg2 & ->);
    [done|lia..|done|done|lia|done|lia|done|]. cbn [mbind option_bind].
  pose proof (release_frag_le pBt _ top frag _ s n rs l r g1 e' r' g2 s' l' Hf Hl Hlt Hn Hp) as Hgf.
  rewrite Hfr. rewrite (proj2 (Z.ltb_ge _ _)) by lia.
  destruct (space_set_frag _ _ _ _ _ _ _ _ (frag - (g1 + g2)) Hsp) as (d & -> & U & L & Htop' & Hf' & Hfr' & K).
  { pose proof (fbyte_u8 (aData pPage) (hdrOffset pPage + 7) Hd). unfold is_u8 in *. lia. }
  cbn [mbind option_bind].
  destruct (free_store_ok pBt pPage (hdrOffset pPage) gap top frag d s n rs l r g1 e' r' g2 s' l')
    as (d' & t & f & H1 & H2 & H3); try done; [lia..|].
  exists d', t, (frag - (g1 + g2)), f. split_and!; [done|done|]. eapply bytes_kept_trans; [|exact H3].
  destruct K as [K1 K2]. split; [done|]. intros i Hi. apply K2. destruct Hi as [?|[?|[?|(x & Hx & Hxi)]]]; auto.
  do 3 right. exists x. split; [apply elem_of_cons; by right|done].
Qed.

(** ** Allocation from the list of freeblocks *)

Lemma ascending_remove us lo l b r : ascending us lo (l ++ b :: r) -> ascending us lo (l ++ r).
Proof.
  intros [H1 (H2 & H3 & H4 & H5)]%regions_asc_app. apply regions_asc_app. split; [done|].
  eapply ascending_le; [|exact H5]. lia.
Qed.

Lemma ascending_shrink us lo l b r m : 4 <= m <= b.2 ->
  ascending us lo (l ++ b :: r) -> ascending us lo (l ++ (b.1, m) :: r).
Proof.
  intros Hm [H1 (H2 & H3 & H4 & H5)]%regions_asc_app. apply regions_asc_app. split; [done|]. cbn.
  split_and!; try lia. eapply ascending_le; [|exact H5]. lia.
Qed.

(** Any region inside of a freeblock is apart from the other freeblocks. *)
Lemma ascending_others us lo l b r c x : ascending us lo (l ++ b :: r) -> c ∈ l \/ c ∈ r ->
  b.1 <= x.1 -> x.1 + x.2 <= b.1 + b.2 -> apart x c.
Proof.
  intros Ha Hc H1 H2. unfold apart. destruct Hc as [Hc|Hc].
  - pose proof (ascending_before _ _ _ _ _ Ha c Hc). lia.
  - apply regions_asc_app in Ha as [_ (? & ? & ? & Ha)]. pose proof (ascending_lb _ _ _ _ Ha Hc). lia.
Qed.

Section Take.
Context (us top frag : Z) (rs l r : list region) (b : region) (n : Z).
Context (Hl : layout us top frag rs (l ++ b :: r)) (Hn : 4 <= n <= b.2).

Lemma take_inside x : b.1 <= x.1 -> x.1 + x.2 <= b.1 + b.2 -> Forall (apart x) rs.
Proof.
  intros H1 H2. apply Forall_forall. intros y Hy.
  pose proof (la_cross _ _ _ _ _ Hl y b Hy ltac:(apply elem_of_app; right; by constructor)).
  pose proof (la_rs _ _ _ _ _ Hl) as Hr. rewrite Forall_forall in Hr. specialize (Hr y Hy). unfold apart in *. lia.
Qed.

Lemma take_bounds : top < b.1 /\ b.1 + b.2 <= us.
Proof.
  pose proof (ascending_lb _ _ _ b (la_asc _ _ _ _ _ Hl) ltac:(apply elem_of_app; right; by constructor)). lia.
Qed.

(** The whole block is taken; what is too small for a block becomes a fragment. *)
Lemma layout_take : layout us top (frag + (b.2 - n)) ((b.1, n) :: rs) (l ++ r).
Proof.
  pose proof take_bounds as HB. destruct Hl as [H1 H2 H3 H4 H5 H6]. split.
  - by eapply ascending_remove.
  - constructor; [cbn; lia|done].
  - constructor; [apply take_inside; cbn; lia|done].
  - intros x c [->|Hx]%elem_of_cons Hc%elem_of_app.
    + eapply ascending_others; [exact H1|done|cbn; lia..].
    + apply H4; [done|]. rewrite elem_of_app, elem_of_cons. tauto.
  - lia.
  - rewrite total_app in *. unfold total in *. cbn [foldr snd] in *. lia.
Qed.

(** The end of the block is taken. *)
Lemma layout_split : n + 4 <= b.2 ->
  layout us top frag ((b.1 + (b.2 - n), n) :: rs) (l ++ (b.1, b.2 - n) :: r).
Proof.
  intros H. pose proof take_bounds as HB. destruct Hl as [H1 H2 H3 H4 H5 H6]. split.
  - eapply ascending_shrink; [|exact H1]. lia.
  - constructor; [cbn; lia|done].
  - constructor; [apply take_inside; cbn; lia|done].
  - intros x c Hx. rewrite elem_of_app, elem_of_cons. intros Hc.
    assert (Hc' : (c = (b.1, b.2 - n)) \/ c ∈ l \/ c ∈ r) by tauto. clear Hc.
    apply elem_of_cons in Hx as [->|Hx].
    + destruct Hc' as [->|Hc']; [unfold apart; cbn; lia|]. eapply ascending_others; [exact H1|done|cbn; lia..].
    + destruct Hc' as [->|Hc'].
      * pose proof (take_inside (b.1, b.2 - n) ltac:(cbn; lia) ltac:(cbn; lia)) as Hi. rewrite Forall_forall in Hi.
        by apply apart_sym, Hi.
      * apply H4; [done|]. rewrite elem_of_app, elem_of_cons. tauto.
  - lia.
  - rewrite total_app in *. unfold total in *. cbn [foldr snd] in *. lia.
Qed.
End Take.

(** A block leaves the list: only the pointer to it changes. *)
Lemma freelist_unlink data data' us top p l b r : freelist data p (l ++ b :: r) -> ascending us top (l ++ b :: r) ->
  p + 2 <= top -> (forall i, top < i -> ~ lastp p l <= i < lastp p l + 2 -> fbyte data' i = fbyte data i) ->
  (l <> [] -> w16 data' p = w16 data p) -> w16 data' (lastp p l) = headp r -> freelist data' p (l ++ r).
Proof.
  intros [Hf1 Hf2]%freelist_app Ha Hp Hfr Hw0 Hw. pose proof (ascending_before _ _ _ _ _ Ha) as Hb.
  apply regions_asc_app in Ha as [Ha1 (Ha2 & Ha3 & Ha4 & Ha5)]. apply freelist_app. split.
  - apply (fchain_frame_last data); [done| |by eapply ascending_apart| |done].
    + intros c i Hc Hi Hni. specialize (Hb c Hc). apply Hfr; [lia|done].
    + apply Forall_forall. intros c Hc. by apply Hb.
  - apply (freelist_move data data' b.1); [by apply (freelist_app data _ [b]) in Hf2 as [_ ?]|done|].
    intros c i Hc Hi. pose proof (ascending_lb _ _ _ _ Ha5 Hc).
    assert (top < c.1 /\ lastp p l + 2 <= c.1); [|apply Hfr; lia].
    destruct (lastp_case p l) as [->|(l0 & d & -> & ->)]; cbn in *; [lia|].
    specialize (Hb d ltac:(apply elem_of_app; right; by constructor)). lia.
Qed.

(** A block becomes smaller: only its size changes. *)
Lemma freelist_resize data data' us top p l b r m : freelist data p (l ++ b :: r) -> ascending us top (l ++ b :: r) ->
  p + 2 <= top -> (forall i, ~ b.1 + 2 <= i < b.1 + 4 -> fbyte data' i = fbyte data i) ->
  w16 data' (b.1 + 2) = m -> freelist data' p (l ++ (b.1, m) :: r).
Proof.
  intros [Hf1 Hf2]%freelist_app Ha Hp Hfr Hw. pose proof (ascending_before _ _ _ _ _ Ha) as Hb.
  apply regions_asc_app in Ha as [Ha1 (Ha2 & Ha3 & Ha4 & Ha5)].
  assert (Hlast : top < b.1 /\ lastp p l + 2 <= b.1).
  { destruct (lastp_case p l) as [->|(l0 & d & -> & ->)]; cbn in *; [lia|].
    specialize (Hb d ltac:(apply elem_of_app; right; by constructor)). lia. }
  assert (HR : freelist data' b.1 r).
  { apply (freelist_app data _ [b]) in Hf2 as [_ Hf2]. cbn [lastp] in Hf2.
    apply (freelist_move data data' b.1); [done| |].
    - rewrite (w16_same data) by (intros j Hj; apply Hfr; lia). by apply freelist_head.
    - intros c i Hc Hi. pose proof (ascending_lb _ _ _ _ Ha5 Hc). apply Hfr. lia. }
  apply freelist_app. split; [|split; [split_and!; [|done|apply HR]|apply HR]].
  - apply (fchain_frame data); [|intros c i Hc Hi; specialize (Hb c Hc); apply Hfr; lia|done].
    intros _. apply w16_same. intros j Hj. apply Hfr. lia.
  - rewrite (w16_same data) by (intros j Hj; apply Hfr; lia). destruct Hf2 as [(? & _) _]. done.
Qed.

(** What [pageFindSlot] finds: nothing, and nothing is changed, or a region. *)
Definition slot_found (us hdr gap : Z) (data : list Z) (top frag n : Z) (rs : list region)
    (res : option Z * Z * list Z) : Prop :=
  exists found data', res = (found, SQLITE_OK, data') /\
  match found with
  | None => data' = data
  | Some idx => top < idx /\ bytes_kept hdr gap rs data data' /\
      exists frag' fbs', space us hdr gap data' top frag' ((idx, n) :: rs) fbs'
  end.

Section Slots.
Context (us hdr gap : Z) (data : list Z) (top frag n : Z) (rs l r : list region) (b : region).
Context (Hsp : space us hdr gap data top frag rs (l ++ b :: r)) (Hn : 4 <= n).

Lemma slot_bounds : top < b.1 /\ b.1 + b.2 <= us /\ 4 <= b.2 /\ w16 data (b.1 + 2) = b.2 /\ w16 data b.1 = headp r /\
  hdr + 1 <= lastp (hdr + 1) l /\ lastp (hdr + 1) l + 2 <= b.1 /\ (lastp (hdr + 1) l = hdr + 1 \/ top < lastp (hdr + 1) l).
Proof.
  destruct Hsp as [Hd [Hu Hu'] (Hh & Hg & Ht) Htop Hf [Hfr Hf60] Hl]. pose proof (la_asc _ _ _ _ _ Hl) as Ha.
  pose proof (ascending_before _ _ _ _ _ Ha) as Hb.
  pose proof (ascending_lb _ _ _ b Ha ltac:(apply elem_of_app; right; by constructor)) as HB.
  apply freelist_app in Hf as [_ Hf]. pose proof Hf as [(_ & Hs & _) _].
  apply (freelist_app data _ [b]) in Hf as [_ Hf]. cbn [lastp] in Hf. apply freelist_head in Hf.
  split_and!; try lia; try done; destruct (lastp_case (hdr + 1) l) as [->|(l0 & d & -> & ->)]; cbn; try lia;
    specialize (Hb d ltac:(apply elem_of_app; right; by constructor)); lia.
Qed.

(** A slot that is at most three bytes too large. *)
Lemma slot_take : n <= b.2 < n + 4 -> frag <= 57 ->
  exists d1 d2, mwrite data (lastp (hdr + 1) l) (fread data b.1 2) = Some d1 /\ alen d1 = alen data /\ fbyte d1 (hdr + 7) = frag /\
    put1byte d1 (hdr + 7) (u8 (frag + u8 (b.2 - n))) = Some d2 /\
    bytes_kept hdr gap rs data d2 /\ space us hdr gap d2 top (frag + (b.2 - n)) ((b.1, n) :: rs) (l ++ r).
Proof.
  intros Hx H57. destruct slot_bounds as (B1 & B2 & B3 & B4 & B5 & B6 & B7 & B8).
  pose proof (space_rs_gap _ _ _ _ _ _ _ _ Hsp) as Hrg.
  destruct Hsp as [Hd [Hu Hu'] (Hh & Hg & Ht) Htop Hf [Hfr Hf60] Hl].
  destruct (mwrite_stored data (lastp (hdr + 1) l) (fread data b.1 2)) as (d1 & E1 & S1);
    [lia|rewrite alen_fread; lia|].
  assert (W1 : w16 d1 (lastp (hdr + 1) l) = headp r).
  { destruct S1 as (_ & _ & S1 & _). rewrite alen_fread in S1 by lia. rewrite <- B5. unfold w16. rewrite !S1 by lia.
    rewrite !fbyte_fread by lia. f_equal; [do 2 f_equal|f_equal]; lia. }
  pose proof (stored_changed _ _ _ _ (fread_u8 _ _ _ Hd) S1) as C1. rewrite alen_fread in C1 by lia.
  pose proof C1 as (L1 & U1 & F1).
  pose proof (la_frag _ _ _ _ _ Hl) as Hf0. rewrite (u8_id (b.2 - n)) by (unfold is_u8; lia).
  rewrite (u8_id (frag + (b.2 - n))) by (unfold is_u8; lia).
  destruct (put1byte_ok d1 (hdr + 7) (frag + (b.2 - n))) as (d2 & E2 & C2 & W2); [lia|lia|unfold is_u8; lia|].
  pose proof C2 as (L2 & U2 & F2). exists d1, d2. split_and!; try done.
  - rewrite F1 by lia. done.
  - apply (bytes_kept_trans _ _ _ _ d1); [|eapply kept_changed; [exact C2|right; left; lia|lia|done]].
    eapply kept_changed; [exact C1| |lia|done].
    destruct B8 as [->|B8]; [left; lia|right; right]. split_and!; [lia|lia|].
    destruct (lastp_case (hdr + 1) l) as [E|(l0 & d & E & ->)]; [rewrite E in B8; cbn in B8; lia|].
    apply Forall_forall. intros x Hin. pose proof (la_cross _ _ _ _ _ Hl x d Hin) as Hc. rewrite E in Hc.
    specialize (Hc ltac:(rewrite !elem_of_app; left; right; by constructor)).
    pose proof (ascending_lb _ _ _ d (la_asc _ _ _ _ _ Hl)) as Hd4. rewrite E in Hd4.
    specialize (Hd4 ltac:(rewrite !elem_of_app; left; right; by constructor)). unfold apart in *. cbn. lia.
  - split; [auto|lia|lia| | |split; [done|lia]|apply layout_take; [done|lia]].
    + rewrite (changed_w16 _ _ _ _ _ C2), (changed_w16 _ _ _ _ _ C1) by lia. done.
    + eapply (freelist_unlink data d2 us top); [exact Hf|apply Hl|lia| | |].
      * intros i Hi Hni. rewrite F2, F1 by lia. done.
      * intros Hne. destruct B8 as [E|B8].
        -- destruct (lastp_case (hdr + 1) l) as [?|(l0 & d & -> & E')]; [done|]. rewrite E' in E.
           pose proof (ascending_lb _ _ _ d (la_asc _ _ _ _ _ Hl)) as Hd4.
           specialize (Hd4 ltac:(rewrite !elem_of_app; left; right; by constructor)). lia.
        -- rewrite (changed_w16 _ _ _ _ _ C2), (changed_w16 _ _ _ _ _ C1) by lia. done.
      * rewrite (changed_w16 _ _ _ _ _ C2) by lia. done.
Qed.

(** A larger slot is cut. *)
Lemma slot_split : n + 4 <= b.2 ->
  exists d, put2byte data (b.1 + 2) (b.2 - n) = Some d /\ bytes_kept hdr gap rs data d /\
    space us hdr gap d top frag ((b.1 + (b.2 - n), n) :: rs) (l ++ (b.1, b.2 - n) :: r).
Proof.
  intros Hx. destruct slot_bounds as (B1 & B2 & B3 & B4 & B5 & B6 & B7 & B8).
  pose proof (space_rs_gap _ _ _ _ _ _ _ _ Hsp) as Hrg.
  destruct Hsp as [Hd [Hu Hu'] (Hh & Hg & Ht) Htop Hf [Hfr Hf60] Hl].
  destruct (put2byte_ok data (b.1 + 2) (b.2 - n)) as (d & E1 & C1 & W1); [lia|lia|].
  pose proof C1 as (L1 & U1 & F1). exists d. split_and!; try done.
  - eapply kept_changed; [exact C1| |lia|done]. right; right. split_and!; [lia|lia|].
    eapply Forall_impl; [|intros x; apply apart_sym].
    eapply (take_inside _ _ _ _ _ _ _ Hl); cbn; lia.
  - split; [auto|lia|lia| | |split; [rewrite F1 by lia; done|done]|apply layout_split; [done|lia|done]].
    + rewrite (changed_w16 _ _ _ _ _ C1) by lia. done.
    + eapply (freelist_resize data d us top); [exact Hf|apply Hl|lia| |].
      * intros i Hi. apply F1. lia.
      * rewrite W1. unfold u16. apply Z.mod_small. lia.
Qed.
End Slots.

Lemma slot_loop_ok us hdr gap data top frag n rs : 4 <= n <= us ->
  forall fuel l b r, space us hdr gap data top frag rs (l ++ b :: r) -> us - b.1 < Z.of_nat fuel ->
  exists res, slot_loop fuel hdr n (us - n) data (lastp (hdr + 1) l) b.1 = Some res /\
    slot_found us hdr gap data top frag n rs res.
Proof.
  intros Hn. induction fuel as [|fuel IH]; intros l b r Hsp Hfu.
  { destruct (slot_bounds _ _ _ _ _ _ _ _ _ _ Hsp) as (_ & B2 & B3 & _). lia. }
  destruct (slot_bounds _ _ _ _ _ _ _ _ _ _ Hsp) as (B1 & B2 & B3 & B4 & B5 & B6 & B7 & B8).
  pose proof Hsp as [Hd [Hu Hu'] (Hh & Hg & Ht) _ _ [Hfr Hf60] Hl]. cbn [slot_loop].
  assert (HN : forall res, res = (None, SQLITE_OK, data) ->
    exists res', Some res = Some res' /\ slot_found us hdr gap data top frag n rs res').
  { intros res ->. eexists. split; [done|]. by exists None, data. }
  destruct (Z.leb_spec b.1 (us - n)); cbn [negb].
  2: { rewrite (proj2 (Z.ltb_ge _ _)) by lia. by apply HN. }
  rewrite (get2byte_w16 data (b.1 + 2)) by (done || lia). cbn [mbind option_bind]. rewrite B4.
  destruct (Z.leb_spec 0 (b.2 - n)).
  - destruct (Z.ltb_spec (b.2 - n) 4).
    + rewrite aget_fbyte by lia. cbn [mbind option_bind]. rewrite Hfr. destruct (Z.ltb_spec 57 frag); [by apply HN|].
      rewrite mread_ok by lia. cbn [mbind option_bind].
      destruct (slot_take _ _ _ _ _ _ n _ _ _ _ Hsp) as (d1 & d2 & -> & L & F & E2 & K & S2); [lia..|].
      cbn [mbind option_bind]. rewrite aget_fbyte, F by lia. cbn [mbind option_bind]. rewrite E2. cbn [mbind option_bind].
      eexists. split; [done|]. exists (Some b.1), d2. split_and!; eauto.
    + rewrite (proj2 (Z.ltb_ge _ _)) by lia.
      destruct (slot_split _ _ _ _ _ _ n _ _ _ _ Hsp) as (d & -> & K & S2); [lia..|]. cbn [mbind option_bind].
      eexists. split; [done|]. exists (Some (b.1 + (b.2 - n))), d. split_and!; eauto. lia.
  - rewrite get2byte_w16 by (done || lia). cbn [mbind option_bind]. rewrite B5. destruct r as [|c r].
    + cbn [headp]. rewrite (proj2 (Z.leb_le 0 b.1)) by lia. by apply HN.
    + pose proof (la_asc _ _ _ _ _ Hl) as Ha. apply regions_asc_app in Ha as [_ (_ & _ & _ & (? & _))].
      cbn [headp]. rewrite (proj2 (Z.leb_gt c.1 b.1)) by lia.
      replace (l ++ b :: c :: r) with ((l ++ [b]) ++ c :: r) in Hsp by by rewrite <- app_assoc.
      specialize (IH (l ++ [b]) c r Hsp ltac:(lia)). by rewrite lastp_snoc in IH.
Qed.

Lemma pageFindSlot_ok pBt pPage gap top frag n rs fbs :
  space (usableSize pBt) (hdrOffset pPage) gap (aData pPage) top frag rs fbs -> fbs <> [] ->
  4 <= n <= usableSize pBt ->
  exists res, pageFindSlot pBt pPage n = Some res /\
    slot_found (usableSize pBt) (hdrOffset pPage) gap (aData pPage) top frag n rs res.
Proof.
  intros Hsp Hne Hn. destruct fbs as [|b r]; [done|].
  pose proof (slot_bounds _ _ _ _ _ _ _ [] r b Hsp) as (B1 & B2 & B3 & _).
  pose proof Hsp as [Hd [Hu Hu'] (Hh & Hg & Ht) _ Hf _ _]. unfold pageFindSlot.
  rewrite get2byte_w16 by (done || lia). cbn [mbind option_bind]. rewrite (freelist_head _ _ _ Hf).
  apply (slot_loop_ok _ _ gap _ top frag n rs Hn _ [] b r Hsp). cbn. lia.
Qed.
