(* ===== verification/BtRep.v ===== *)
(** * Pages as lists of cells

    The abstract view of a B-tree page: the list of its cells, in the order of the
    pointers, whatever their place on the page.  [page_rep] ties a page to such a
    list; this file proves that [defragmentPage] keeps it, whichever of its two
    methods it uses, and leaves all free space in the gap but for a bounded number
    of fragment bytes. *)
From S2P Require Import Prelude FileIO BtBase BtCell BtPage BtLayout BtSpace.

(** ** The representation *)

(** A cell with its place. *)
Abbreviation placed := (Z * list Z)%type.

Definition regs (ls : list placed) : list region := map (fun p => (p.1, alen p.2)) ls.

Definition cells_size (cs : list (list Z)) : Z := foldr (fun c n => alen c + n) 0 cs.

(** The pointers from [off] on and the bytes they point to. *)
Definition contents (data : list Z) (off : Z) (ls : list placed) : Prop :=
  forall i p, ls !! i = Some p -> w16 data (off + 2 * Z.of_nat i) = p.1 /\ fread data p.1 (alen p.2) = p.2.

(** A cell whose own bytes give its size. *)
Definition cell_ok (pBt : BtShared) (pPage : MemPage) (c : list Z) : Prop :=
  Forall is_u8 c /\ cellSize pBt pPage c = Some (alen c).

Definition gap_of (pPage : MemPage) : Z := cellOffset pPage + 2 * nCell pPage.

Record page_cells_at (pBt : BtShared) (pPage : MemPage) (ls : list placed) (top frag : Z) (fbs : list region) : Prop := {
  pa_hdr : 0 <= hdrOffset pPage <= 100;
  pa_off : cellOffset pPage = hdrOffset pPage + 8 + childPtrSize pPage /\ 0 <= childPtrSize pPage <= 4;
  pa_count : nCell pPage = alen ls /\ w16 (aData pPage) (hdrOffset pPage + 3) = alen ls;
  pa_cells : contents (aData pPage) (cellOffset pPage) ls;
  pa_ok : Forall (fun p => cell_ok pBt pPage p.2) ls;
  pa_space : space (usableSize pBt) (hdrOffset pPage) (gap_of pPage) (aData pPage) top frag (regs ls) fbs;
  pa_free : nFree pPage = usableSize pBt - gap_of pPage - total (regs ls)
}.

(** The page holds the cells [cs]. *)
Definition page_rep (pBt : BtShared) (pPage : MemPage) (cs : list (list Z)) : Prop :=
  exists ls top frag fbs, map snd ls = cs /\ page_cells_at pBt pPage ls top frag fbs.

Lemma total_regs ls : total (regs ls) = cells_size (map snd ls).
Proof. unfold total, cells_size, regs. induction ls as [|p ls IH]; cbn [map foldr fst snd]; [done|]. by rewrite IH. Qed.

Lemma regs_lookup ls i p : ls !! i = Some p -> (p.1, alen p.2) ∈ regs ls.
Proof. intros H. apply list_elem_of_fmap. exists p. split; [done|]. by eapply list_elem_of_lookup_2. Qed.

Lemma elem_of_regs ls x : x ∈ regs ls -> exists i p, ls !! i = Some p /\ x = (p.1, alen p.2).
Proof.
  intros (p & -> & Hp)%list_elem_of_fmap. apply list_elem_of_lookup in Hp as [i Hi]. eauto.
Qed.

(** The free bytes are those of the gap, of the freeblocks and of the fragments. *)
Lemma page_free pBt pPage ls top frag fbs : page_cells_at pBt pPage ls top frag fbs ->
  nFree pPage = (top - gap_of pPage) + total fbs + frag.
Proof.
  intros H. rewrite (pa_free _ _ _ _ _ _ H). pose proof (la_total _ _ _ _ _ (sp_layout _ _ _ _ _ _ _ _ (pa_space _ _ _ _ _ _ H))). lia.
Qed.

Lemma fread_same p q off n : (forall i, off <= i < off + n -> fbyte q i = fbyte p i) -> fread q off n = fread p off n.
Proof. intros H. by apply fread_ext. Qed.

Lemma fread_shift p q off off' n : 0 <= n -> (forall k, 0 <= k < n -> fbyte q (off' + k) = fbyte p (off + k)) ->
  fread q off' n = fread p off n.
Proof.
  intros Hn H. apply list_fbyte_eq; [by rewrite !alen_fread|]. rewrite alen_fread by done.
  intros i Hi. rewrite !fbyte_fread by lia. by apply H.
Qed.

(** Cells whose bytes and pointers are kept stay where they are. *)
Lemma contents_kept hdr gap rs d d' off ls : contents d off ls -> bytes_kept hdr gap rs d d' ->
  hdr + 8 <= off -> off + 2 * alen ls <= gap -> (forall x, x ∈ regs ls -> x ∈ rs) -> contents d' off ls.
Proof.
  intros Hc [_ Hk] Ho Hg Hr i p Hi. destruct (Hc i p Hi) as [H1 H2]. pose proof (lookup_lt_Some _ _ _ Hi) as Hlt.
  unfold alen in Hg. split.
  - rewrite <- H1. apply w16_same. intros j Hj. apply Hk. right; right; left. lia.
  - rewrite <- H2 at 2. apply fread_same. intros j Hj. apply Hk. do 3 right.
    exists (p.1, alen p.2). split; [by eapply Hr, regs_lookup|done].
Qed.

(** What no operation changes: the bytes before the header, the flags, and the
    pointer to the rightmost child. *)
Definition hdr_kept (pPage : MemPage) (d d' : list Z) : Prop :=
  alen d' = alen d /\
  forall i, i < hdrOffset pPage + 1 \/ hdrOffset pPage + 8 <= i < cellOffset pPage -> fbyte d' i = fbyte d i.

Lemma hdr_kept_trans pPage a b c : hdr_kept pPage a b -> hdr_kept pPage b c -> hdr_kept pPage a c.
Proof. intros [L1 H1] [L2 H2]. split; [lia|]. intros i Hi. by rewrite H2, H1. Qed.

Lemma hdr_kept_changed pPage a b off n : changed a off n b ->
  hdrOffset pPage + 1 <= off -> off + n <= hdrOffset pPage + 8 \/ cellOffset pPage <= off -> hdr_kept pPage a b.
Proof. intros (L & _ & H) H1 H2. split; [done|]. intros i Hi. apply H. lia. Qed.

Lemma kept_hdr pPage gap rs d d' : bytes_kept (hdrOffset pPage) gap rs d d' -> cellOffset pPage <= gap -> hdr_kept pPage d d'.
Proof. intros [L H] Hg. split; [done|]. intros i Hi. apply H. lia. Qed.

(** ** Lists of cells *)

Lemma contents_app d off a b :
  contents d off (a ++ b) <-> contents d off a /\ contents d (off + 2 * alen a) b.
Proof.
  unfold contents. split.
  - intros H. split; intros i p Hi.
    + apply H. by apply lookup_app_l_Some.
    + specialize (H (length a + i)%nat p). rewrite lookup_app_r in H by lia.
      replace (length a + i - length a)%nat with i in H by lia. specialize (H Hi).
      replace (off + 2 * alen a + 2 * Z.of_nat i) with (off + 2 * Z.of_nat (length a + i)) by (unfold alen; lia). done.
  - intros [H1 H2] i p Hi. apply lookup_app_Some in Hi as [Hi|[Hl Hi]]; [by apply H1|].
    specialize (H2 _ _ Hi). replace (off + 2 * Z.of_nat i) with (off + 2 * alen a + 2 * Z.of_nat (i - length a)) by (unfold alen; lia).
    done.
Qed.

Lemma contents_one d off p : contents d off [p] <-> w16 d off = p.1 /\ fread d p.1 (alen p.2) = p.2.
Proof.
  unfold contents. split.
  - intros H. specialize (H 0%nat p eq_refl). by rewrite Z.mul_0_r, Z.add_0_r in H.
  - intros H [|i] q Hi; [|done]. cbn in Hi. simplify_eq. by rewrite Z.mul_0_r, Z.add_0_r.
Qed.

Lemma contents_same d d' off ls : contents d off ls ->
  (forall i, off <= i < off + 2 * alen ls -> fbyte d' i = fbyte d i) ->
  (forall x i, x ∈ regs ls -> in_region x i -> fbyte d' i = fbyte d i) -> contents d' off ls.
Proof.
  intros H Hp Hr i p Hi. destruct (H i p Hi) as [H1 H2]. pose proof (lookup_lt_Some _ _ _ Hi) as Hlt. split.
  - rewrite <- H1. apply w16_same. intros j Hj. apply Hp. unfold alen. lia.
  - rewrite <- H2 at 2. apply fread_same. intros j Hj. eapply Hr; [by eapply regs_lookup|done].
Qed.

Lemma stored_fread p off bs q : bytes_stored p off bs q -> fread q off (alen bs) = bs.
Proof.
  intros (_ & _ & H & _). pose proof (alen_nonneg bs). apply list_fbyte_eq; [by rewrite alen_fread|].
  rewrite alen_fread by done. intros i Hi. rewrite fbyte_fread, H by lia. f_equal. lia.
Qed.

Lemma cells_size_nonneg cs : 0 <= cells_size cs.
Proof. unfold cells_size. induction cs as [|c cs IH]; cbn; [lia|]. pose proof (alen_nonneg c). lia. Qed.

(** A cell read through the copy of the page. *)
Lemma copy_cell data us o c : 0 <= o -> o + alen c <= us -> us <= alen data -> fread data o (alen c) = c ->
  exists rest, mfrom (fread data 0 us) o = Some (c ++ rest) /\ mread (fread data 0 us) o (alen c) = Some c.
Proof.
  intros Ho Hu Hd Hc. pose proof (alen_nonneg c) as Hn. exists (drop (Z.to_nat (alen c)) (drop (Z.to_nat o) (fread data 0 us))).
  assert (HL : alen (fread data 0 us) = us) by (apply alen_fread; lia). split.
  - unfold mfrom. rewrite HL, !(proj2 (Z.leb_le _ _)) by lia. cbn [andb]. f_equal.
    rewrite <- (take_drop (Z.to_nat (alen c)) (drop (Z.to_nat o) (fread data 0 us))) at 1. f_equal.
    assert (HD : alen (drop (Z.to_nat o) (fread data 0 us)) = us - o).
    { unfold alen in *. rewrite length_drop. lia. }
    apply list_fbyte_eq; [apply alen_take; lia|]. rewrite alen_take by lia. intros i Hi.
    rewrite fbyte_take, fbyte_drop, fbyte_fread by lia. replace (fbyte c i) with (fbyte (fread data o (alen c)) i) by (by rewrite Hc).
    rewrite fbyte_fread by lia. f_equal; lia.
  - rewrite mread_ok by lia. f_equal. transitivity (fread data o (alen c)); [|done].
    apply fread_same. intros i Hi. rewrite fbyte_fread by lia. f_equal; lia.
Qed.

(** ** Defragmentation *)

Section Defragment.
Context (pBt : BtShared) (pPage : MemPage) (ls : list placed) (top frag : Z) (fbs : list region).
Context (Hpg : page_cells_at pBt pPage ls top frag fbs).
Abbreviation us := (usableSize pBt).
Abbreviation hdr := (hdrOffset pPage).
Abbreviation off := (cellOffset pPage).
Abbreviation data := (aData pPage).
Abbreviation gap := (gap_of pPage).

Lemma page_bounds : 0 <= hdr /\ hdr + 8 <= off /\ off + 2 * alen ls = gap /\ gap <= top <= us /\ us <= alen data /\
  us <= 65536 /\ 0 <= frag <= 60 /\ w16 data (hdr + 3) = alen ls /\ nCell pPage = alen ls /\ 0 <= alen ls.
Proof.
  destruct Hpg as [H1 [H2 H2'] [H3 H3'] H4 H5 [S1 [S2 S2'] (S3 & S3' & S3'') S4 S5 [S6 S6'] S7] H7].
  pose proof (la_frag _ _ _ _ _ S7). pose proof (alen_nonneg ls). unfold gap_of in *. rewrite H3 in *. lia.
Qed.

(** The common end. *)
Lemma defragment_out_ok ls' d cbrk frag' :
  map snd ls' = map snd ls -> Forall is_u8 d -> hdr_kept pPage data d -> w16 d (hdr + 3) = alen ls ->
  contents d off ls' -> fbyte d (hdr + 7) = frag' -> frag' <= 60 -> layout us cbrk frag' (regs ls') [] ->
  gap <= cbrk <= us ->
  exists d', defragment_out pPage d cbrk gap = Some (SQLITE_OK, set_aData pPage d') /\
    page_cells_at pBt (set_aData pPage d') ls' cbrk frag' [] /\ hdr_kept pPage data d'.
Proof.
  intros Hm Hd Hk Hc3 Hct Hf Hf60 Hl Hcb. destruct page_bounds as (B1 & B2 & B3 & B4 & B5 & B6 & B7 & B8 & B9 & B10).
  pose proof Hk as [L _]. pose proof (la_total _ _ _ _ _ Hl) as Htot. change (total []) with 0 in Htot.
  assert (Hln : alen ls' = alen ls) by (unfold alen; rewrite <- (length_map snd ls'), Hm, length_map; done).
  assert (Hrs : Forall (fun r => gap <= r.1) (regs ls'))
    by (eapply Forall_impl; [exact (la_rs _ _ _ _ _ Hl)|intros r (? & ? & ?); lia]).
  unfold defragment_out. rewrite aget_fbyte by lia. cbn [mbind option_bind]. rewrite Hf.
  assert (HnF : frag' + cbrk - gap = nFree pPage).
  { rewrite (pa_free _ _ _ _ _ _ Hpg), total_regs, <- Hm, <- total_regs. lia. }
  rewrite (proj2 (Z.eqb_eq _ _) HnF). cbn [negb].
  destruct (put2byte_ok d (hdr + 5) cbrk) as (d1 & -> & C1 & W1); [lia..|]. cbn [mbind option_bind]. pose proof C1 as (L1 & U1 & F1).
  destruct (put1byte_ok d1 (hdr + 1) 0) as (d2 & -> & C2 & W2); [lia|lia|unfold is_u8; lia|]. cbn [mbind option_bind]. pose proof C2 as (L2 & U2 & F2).
  destruct (put1byte_ok d2 (hdr + 2) 0) as (d3 & -> & C3 & W3); [lia|lia|unfold is_u8; lia|]. cbn [mbind option_bind]. pose proof C3 as (L3 & U3 & F3).
  destruct (memset_ok d3 gap (cbrk - gap)) as (d4 & -> & C4); [lia..|]. cbn [mbind option_bind]. pose proof C4 as (L4 & U4 & F4).
  exists d4. split; [done|].
  assert (Hkd : bytes_kept hdr gap (regs ls') d d4).
  { apply (bytes_kept_trans _ _ _ _ d1); [eapply kept_changed; [exact C1|right; left; lia|lia|done]|].
    apply (bytes_kept_trans _ _ _ _ d2); [eapply kept_changed; [exact C2|left; lia|lia|done]|].
    apply (bytes_kept_trans _ _ _ _ d3); [eapply kept_changed; [exact C3|left; lia|lia|done]|].
    eapply kept_changed; [exact C4| |lia|done]. right; right. split_and!; [lia|lia|].
    eapply Forall_impl; [exact (la_rs _ _ _ _ _ Hl)|]. intros r (? & ? & ?). unfold apart. cbn. lia. }
  split; [|eapply hdr_kept_trans; [exact Hk|eapply kept_hdr; [exact Hkd|lia]]].
  assert (W0 : w16 d4 (hdr + 1) = 0).
  { unfold w16. replace (hdr + 1 + 1) with (hdr + 2) by lia.
    rewrite (F4 (hdr + 1)), (F4 (hdr + 2)), (F3 (hdr + 1)), W2, W3 by lia. done. }
  assert (Hok : Forall (fun p => cell_ok pBt pPage p.2) ls').
  { pose proof (pa_ok _ _ _ _ _ _ Hpg) as H. rewrite <- (Forall_map snd (cell_ok pBt pPage)) in H |- *. by rewrite Hm. }
  pose proof (pa_hdr _ _ _ _ _ _ Hpg). pose proof (pa_off _ _ _ _ _ _ Hpg). pose proof (pa_free _ _ _ _ _ _ Hpg) as HF.
  split; try done.
  - split; [by rewrite Hln|]. change (w16 d4 (hdr + 3) = alen ls'). rewrite Hln, <- Hc3.
    apply w16_same. intros j Hj. apply Hkd. lia.
  - apply (contents_kept hdr gap (regs ls') d d4 off ls'); [done|done|lia|lia|done].
  - change (space us hdr gap d4 cbrk frag' (regs ls') []). split; try done; [auto|lia|lia| |].
    + rewrite (changed_w16 _ _ _ _ _ C4), (changed_w16 _ _ _ _ _ C3), (changed_w16 _ _ _ _ _ C2) by lia. done.
    + split; [|done]. rewrite <- Hf. rewrite F4, F3, F2, F1 by lia. done.
  - rewrite total_regs, Hm, <- total_regs. done.
Qed.

(** Cells packed from [cbrk] downwards. *)
Fixpoint pack (cbrk : Z) (cs : list (list Z)) : list placed :=
  match cs with [] => [] | c :: cs => (cbrk - alen c, c) :: pack (cbrk - alen c) cs end.

Lemma pack_snd cbrk cs : map snd (pack cbrk cs) = cs.
Proof. revert cbrk. induction cs as [|c cs IH]; intros cbrk; cbn; [done|]. by rewrite IH. Qed.

Lemma pack_within cbrk cs x : x ∈ regs (pack cbrk cs) -> cbrk - cells_size cs <= x.1 /\ x.1 + x.2 <= cbrk.
Proof.
  revert cbrk. induction cs as [|c cs IH]; intros cbrk; cbn [pack regs map]; [by intros ?%elem_of_nil|].
  pose proof (cells_size_nonneg cs). pose proof (alen_nonneg c). change (cells_size (c :: cs)) with (alen c + cells_size cs).
  intros [->|Hx]%elem_of_cons; [cbn; lia|]. apply IH in Hx. lia.
Qed.

Lemma pack_apart cbrk cs : ForallOrdPairs apart (regs (pack cbrk cs)).
Proof.
  revert cbrk. induction cs as [|c cs IH]; intros cbrk; cbn [pack regs map]; [constructor|]. constructor; [|apply IH].
  apply Forall_forall. intros x Hx. apply pack_within in Hx. unfold apart. cbn. lia.
Qed.

Lemma layout_pack cbrk cs : Forall (fun c => 4 <= alen c) cs -> 
  layout cbrk (cbrk - cells_size cs) 0 (regs (pack cbrk cs)) [].
Proof.
  intros H4. split; try done.
  - apply Forall_forall. intros x Hx. pose proof (pack_within _ _ _ Hx). split_and!; try lia.
    apply elem_of_regs in Hx as (i & p & Hi & ->). cbn. rewrite Forall_forall in H4. apply H4.
    rewrite <- (pack_snd cbrk cs). apply list_elem_of_fmap. exists p. split; [done|]. by eapply list_elem_of_lookup_2.
  - apply pack_apart.
  - intros r b _ Hb%elem_of_nil. done.
  - rewrite total_regs, pack_snd. change (total []) with 0. lia.
Qed.

(** The loop of the general case: the cells [done] are in their new places, [rest] are
    the old ones. *)
Lemma pack_cells_ok rest : forall dn d cbrk,
  map snd ls = map snd dn ++ map snd rest -> contents data (off + 2 * alen dn) rest ->
  Forall (fun p => cell_ok pBt pPage p.2 /\ 4 <= alen p.2 /\ top <= p.1 /\ p.1 + alen p.2 <= us) rest ->
  Forall is_u8 d -> alen d = alen data -> (forall i, i < off -> fbyte d i = fbyte data i) ->
  (forall i, off + 2 * alen dn <= i < gap -> fbyte d i = fbyte data i) ->
  contents d off dn -> (forall x, x ∈ regs dn -> cbrk <= x.1) -> off + 2 * alen dn + 2 * alen rest = gap ->
  top <= cbrk - cells_size (map snd rest) -> cbrk <= us ->
  exists d', pack_cells pBt pPage (fread data 0 us) top (length rest) (alen dn) cbrk d
      = Some (SQLITE_OK, cbrk - cells_size (map snd rest), d') /\
    Forall is_u8 d' /\ alen d' = alen data /\ (forall i, i < off -> fbyte d' i = fbyte data i) /\
    contents d' off (dn ++ pack cbrk (map snd rest)).
Proof.
  destruct page_bounds as (B1 & B2 & B3 & B4 & B5 & B6 & B7 & B8 & B9 & B10).
  induction rest as [|p rest IH]; intros dn d cbrk Hls Hct Hr Hd HL Hh Hp Hdn Hcb Hgap Htop Hus; cbn [length map pack].
  { exists d. cbn [pack_cells]. change (cells_size []) with 0. rewrite Z.sub_0_r, app_nil_r. done. }
  apply Forall_cons in Hr as [((Hpu & Hsz) & H4 & Hpt & Hpe) Hr].
  apply (contents_app data _ [p]) in Hct as [[Hw Hc]%contents_one Hct]. change (alen [p]) with 1 in Hct.
  rewrite alen_cons in Hgap. pose proof (alen_nonneg rest). pose proof (alen_nonneg dn).
  change (map snd (p :: rest)) with (p.2 :: map snd rest) in *.
  change (cells_size (p.2 :: map snd rest)) with (alen p.2 + cells_size (map snd rest)) in *.
  pose proof (cells_size_nonneg (map snd rest)).
  cbn [pack_cells]. replace (off + alen dn * 2) with (off + 2 * alen dn) by lia.
  rewrite get2byte_w16 by (done || lia). cbn [mbind option_bind].
  rewrite (w16_same data) by (intros j Hj; apply Hp; lia). rewrite Hw.
  rewrite (proj2 (Z.ltb_ge _ _)) by lia.
  destruct (copy_cell data us p.1 p.2) as (tl & -> & Hmr); [lia..|done|]. cbn [mbind option_bind].
  rewrite (cellSize_more _ _ _ tl _ Hsz). cbn [mbind option_bind].
  rewrite (proj2 (Z.ltb_ge (cbrk - alen p.2) top)), (proj2 (Z.ltb_ge us _)) by lia. cbn [orb].
  destruct (put2byte_ok d (off + 2 * alen dn) (cbrk - alen p.2)) as (d1 & -> & C1 & W1); [lia..|].
  cbn [mbind option_bind]. pose proof C1 as (L1 & U1 & F1). rewrite Hmr. cbn [mbind option_bind].
  destruct (mwrite_stored d1 (cbrk - alen p.2) p.2) as (d2 & -> & S2); [lia..|]. cbn [mbind option_bind].
  pose proof (stored_changed _ _ _ _ Hpu S2) as (L2 & U2 & F2). apply stored_fread in S2.
  set (x := (cbrk - alen p.2, p.2)).
  assert (Hdn' : contents d2 off (dn ++ [x])).
  { apply contents_app. split.
    - apply (contents_same d); [done| |].
      + intros i Hi. rewrite F2, F1 by lia. done.
      + intros y i Hy Hi. apply Hcb in Hy as Hy'. unfold in_region in Hi. rewrite F2, F1 by lia. done.
    - apply contents_one. split; [|done]. rewrite (w16_same d1) by (intros; apply F2; lia). rewrite W1.
      cbn [x fst]. unfold u16. rewrite Z.mod_small by lia. done. }
  destruct (IH (dn ++ [x]) d2 (cbrk - alen p.2)) as (d' & E & HR).
  - by rewrite Hls, map_app, <- app_assoc.
  - rewrite alen_app. change (alen [x]) with 1. by replace (off + 2 * (alen dn + 1)) with (off + 2 * alen dn + 2 * 1) by lia.
  - done.
  - auto.
  - lia.
  - intros i Hi. rewrite F2, F1 by lia. by apply Hh.
  - rewrite alen_app. change (alen [x]) with 1. intros i Hi. rewrite F2, F1 by lia. apply Hp. lia.
  - done.
  - intros y. unfold regs. rewrite map_app, elem_of_app. intros [Hy|Hy%list_elem_of_singleton]; [apply Hcb in Hy; lia|subst y; cbn; lia].
  - rewrite alen_app. change (alen [x]) with 1. lia.
  - lia.
  - lia.
  - exists d'. rewrite alen_app in E. change (alen [x]) with 1 in E. rewrite E. rewrite <- app_assoc in HR.
    replace (cbrk - alen p.2 - cells_size (map snd rest)) with (cbrk - (alen p.2 + cells_size (map snd rest))) by lia. done.
Qed.

Lemma page_cells : Forall (fun p => cell_ok pBt pPage p.2 /\ 4 <= alen p.2 /\ top <= p.1 /\ p.1 + alen p.2 <= us) ls.
Proof.
  pose proof (pa_ok _ _ _ _ _ _ Hpg) as Hok.
  pose proof (la_rs _ _ _ _ _ (sp_layout _ _ _ _ _ _ _ _ (pa_space _ _ _ _ _ _ Hpg))) as Hrs.
  unfold regs in Hrs. rewrite Forall_map in Hrs. rewrite !Forall_forall in *. intros p Hp.
  specialize (Hok p Hp). specialize (Hrs p Hp). cbn in Hrs. split; [done|lia].
Qed.

Lemma page_total : total (regs ls) = cells_size (map snd ls) /\ top <= us - cells_size (map snd ls).
Proof.
  split; [apply total_regs|]. rewrite <- total_regs.
  pose proof (la_total _ _ _ _ _ (sp_layout _ _ _ _ _ _ _ _ (pa_space _ _ _ _ _ _ Hpg))) as Ht.
  pose proof (la_frag _ _ _ _ _ (sp_layout _ _ _ _ _ _ _ _ (pa_space _ _ _ _ _ _ Hpg))).
  pose proof (la_asc _ _ _ _ _ (sp_layout _ _ _ _ _ _ _ _ (pa_space _ _ _ _ _ _ Hpg))) as Ha.
  assert (0 <= total fbs); [|lia]. apply (total_nonneg top us). apply Forall_forall. intros b Hb.
  pose proof (ascending_lb _ _ _ _ Ha Hb). unfold within. lia.
Qed.

Lemma defragment_pack_ok : exists d', defragment_pack pBt pPage data gap = Some (SQLITE_OK, set_aData pPage d') /\
  page_cells_at pBt (set_aData pPage d') (pack us (map snd ls)) (us - cells_size (map snd ls)) 0 [] /\ hdr_kept pPage data d'.
Proof.
  destruct page_bounds as (B1 & B2 & B3 & B4 & B5 & B6 & B7 & B8 & B9 & B10). destruct page_total as [T1 T2].
  pose proof page_cells as Hcs. pose proof (cells_size_nonneg (map snd ls)).
  pose proof (sp_u8 _ _ _ _ _ _ _ _ (pa_space _ _ _ _ _ _ Hpg)) as Hd.
  assert (Hloop : exists d1, (if 0 <? nCell pPage then
       src ← mread data 0 us; pack_cells pBt pPage src (u16 top) (Z.to_nat (nCell pPage)) 0 us data
     else Some (SQLITE_OK, us, data)) = Some (SQLITE_OK, us - cells_size (map snd ls), d1) /\
     Forall is_u8 d1 /\ alen d1 = alen data /\ (forall i, i < off -> fbyte d1 i = fbyte data i) /\
     contents d1 off (pack us (map snd ls))).
  { rewrite B9. destruct (Z.ltb_spec 0 (alen ls)) as [Hpos|H0].
    - rewrite mread_ok by lia. cbn [mbind option_bind]. unfold alen at 1. rewrite Nat2Z.id.
      assert (E : u16 top = top).
      { destruct ls as [|p ls0]; [change (alen []) with 0 in Hpos; lia|]. apply Forall_cons in Hcs as [(_ & ? & ? & ?) _].
        unfold u16. apply Z.mod_small. lia. }
      rewrite E. apply (pack_cells_ok ls [] data us); try done; try (change (alen []) with 0); try lia.
      + rewrite Z.mul_0_r, Z.add_0_r. apply (pa_cells _ _ _ _ _ _ Hpg).
      + intros x Hx%elem_of_nil. done.
    - assert (ls = []) as E by (apply length_zero_iff_nil; unfold alen in *; lia).
      exists data. rewrite E. change (cells_size (map snd [])) with 0. rewrite Z.sub_0_r. done. }
  destruct Hloop as (d1 & HE & U1 & L1 & F1 & Hct). unfold defragment_pack.
  rewrite get2byte_w16 by (done || lia). cbn [mbind option_bind].
  rewrite (sp_top _ _ _ _ _ _ _ _ (pa_space _ _ _ _ _ _ Hpg)), HE. cbn [mbind option_bind].
  change (negb (SQLITE_OK =? SQLITE_OK)) with false. cbn match.
  destruct (put1byte_ok d1 (hdr + 7) 0) as (d2 & -> & C2 & W2); [lia|lia|unfold is_u8; lia|]. cbn [mbind option_bind].
  pose proof C2 as (L2 & U2 & F2).
  apply defragment_out_ok; try done; try lia.
  - apply pack_snd.
  - auto.
  - split; [lia|]. intros i Hi. rewrite F2, F1 by lia. done.
  - rewrite (changed_w16 _ _ _ _ _ C2) by lia. rewrite (w16_same data) by (intros; apply F1; lia). done.
  - apply (contents_same d1); [done| |].
    + intros i Hi. apply F2. lia.
    + intros x i Hx Hi. apply pack_within in Hx. unfold in_region in Hi. apply F2. lia.
  - apply layout_pack. rewrite Forall_map. eapply Forall_impl; [exact Hcs|]. intros p (_ & ? & _). done.
Qed.
End Defragment.
