(* ===== verification/BtDefrag.v ===== *)
(** * Defragmentation by moving blocks of cells

    The first method of [defragmentPage], for pages with one or two freeblocks: cells
    before the freeblocks move towards the end by the sizes of the freeblocks
    after them, and the pointers with them. *)
From S2P Require Import Prelude FileIO BtBase BtCell BtPage BtLayout BtSpace BtRep.

(** ** The new places *)

(** Where the code moves the cell at [pc]; without a second freeblock [iFree2] and
    [sz2] are zero. *)
Definition moved (iFree iFree2 sz sz2 pc : Z) : Z :=
  if pc <? iFree then pc + sz else if pc <? iFree2 then pc + sz2 else pc.

(** The one or two freeblocks that the code looks at. *)
Definition few_blocks (f1 z1 f2 z2 : Z) (fbs : list region) : Prop :=
  (fbs = [(f1, z1)] /\ f2 = 0 /\ z2 = 0) \/ fbs = [(f1, z1); (f2, z2)].

Lemma FOP_map {A B} (R : A -> A -> Prop) (S : B -> B -> Prop) (f : A -> B) l :
  (forall x y, x ∈ l -> y ∈ l -> R x y -> S (f x) (f y)) -> ForallOrdPairs R l -> ForallOrdPairs S (map f l).
Proof.
  intros H. induction 1 as [|x l Hx Hl IH]; cbn; [constructor|]. constructor.
  - rewrite Forall_map. rewrite Forall_forall in *. intros y Hy. apply H; [by constructor|apply elem_of_cons; by right|by apply Hx].
  - apply IH. intros a b Ha Hb. apply H; apply elem_of_cons; by right.
Qed.

Section Moved.
Context (us top frag : Z) (ls : list placed) (fbs : list region) (f1 z1 f2 z2 : Z).
Context (Hl : layout us top frag (regs ls) fbs) (Hfew : few_blocks f1 z1 f2 z2 fbs) (Htop : 0 <= top).
Abbreviation sh := (moved f1 f2 (z1 + z2) z2).
Definition move (p : placed) : placed := (sh p.1, p.2).

(** The three parts of the content area a cell can be in, and its new place. *)
Lemma moved_cases x : x ∈ regs ls ->
  4 <= x.2 /\ top <= x.1 /\ x.1 + x.2 <= us /\ 0 < z1 /\ 0 <= z2 /\ top < f1 /\ f1 + z1 <= us /\
  ((x.1 + x.2 <= f1 /\ sh x.1 = x.1 + (z1 + z2) /\ (f2 = 0 /\ z2 = 0 \/ f1 + z1 < f2 /\ f2 + z2 <= us)) \/
   (f1 + z1 <= x.1 /\ x.1 + x.2 <= f2 /\ sh x.1 = x.1 + z2 /\ f2 + z2 <= us) \/
   (f1 + z1 <= x.1 /\ sh x.1 = x.1 /\ (f2 = 0 /\ z2 = 0 \/ f1 + z1 < f2 /\ f2 + z2 <= x.1))).
Proof.
  intros Hx. destruct Hl as [Ha Hr _ Hc _ _]. rewrite Forall_forall in Hr. specialize (Hr x Hx). unfold moved.
  destruct Hfew as [(-> & -> & ->)| ->].
  - specialize (Hc x (f1, z1) Hx ltac:(by constructor)). destruct Ha as (? & ? & ? & _). unfold apart in Hc. cbn in *.
    destruct (Z.ltb_spec x.1 f1), (Z.ltb_spec x.1 0); lia.
  - pose proof (Hc x (f1, z1) Hx ltac:(by constructor)) as Hc1.
    pose proof (Hc x (f2, z2) Hx ltac:(by right; constructor)) as Hc2.
    destruct Ha as (? & ? & ? & ? & ? & ? & _). unfold apart in *. cbn in *.
    destruct (Z.ltb_spec x.1 f1), (Z.ltb_spec x.1 f2); lia.
Qed.

Lemma regs_move : regs (map move ls) = map (fun x => (sh x.1, x.2)) (regs ls).
Proof. unfold regs. rewrite !map_map. done. Qed.

Lemma layout_moved : layout us (top + (z1 + z2)) frag (regs (map move ls)) [].
Proof.
  rewrite regs_move. split; try done.
  - rewrite Forall_map. apply Forall_forall. intros x Hx. pose proof (moved_cases x Hx). cbn. lia.
  - eapply FOP_map; [|exact (la_pw _ _ _ _ _ Hl)]. intros x y Hx Hy.
    pose proof (moved_cases x Hx). pose proof (moved_cases y Hy). unfold apart. cbn. lia.
  - intros r b _ Hb%elem_of_nil. done.
  - apply Hl.
  - rewrite <- regs_move, total_regs, map_map. change (map (fun x => (move x).2) ls) with (map snd ls).
    rewrite <- total_regs.
    pose proof (la_total _ _ _ _ _ Hl) as Ht. change (total []) with 0.
    destruct Hfew as [(-> & -> & ->)| ->]; cbn in Ht; lia.
Qed.
End Moved.

(** ** The pointers *)

Lemma shift_ptrs_ok iFree iFree2 sz sz2 ls : forall d a, Forall is_u8 d -> 0 <= a -> a + 2 * alen ls <= alen d ->
  (forall i p, ls !! i = Some p -> w16 d (a + 2 * Z.of_nat i) = p.1) ->
  Forall (fun p : placed => is_u16 (moved iFree iFree2 sz sz2 p.1)) ls ->
  exists d', shift_ptrs (length ls) d a iFree iFree2 sz sz2 = Some d' /\ changed d a (2 * alen ls) d' /\
    (forall i p, ls !! i = Some p -> w16 d' (a + 2 * Z.of_nat i) = moved iFree iFree2 sz sz2 p.1).
Proof.
  induction ls as [|p ls IH]; intros d a Hd Ha HL Hp Hu; cbn [length shift_ptrs].
  { exists d. split_and!; done. }
  rewrite alen_cons in HL. pose proof (alen_nonneg ls). apply Forall_cons in Hu as [Hpu Hu].
  pose proof (Hp 0%nat p eq_refl) as Hw. rewrite Z.mul_0_r, Z.add_0_r in Hw.
  rewrite get2byte_w16 by (done || lia). cbn [mbind option_bind]. rewrite Hw.
  assert (H1 : exists d1, (if p.1 <? iFree then put2byte d a (p.1 + sz)
      else if p.1 <? iFree2 then put2byte d a (p.1 + sz2) else Some d) = Some d1 /\ changed d a 2 d1 /\
      w16 d1 a = moved iFree iFree2 sz sz2 p.1).
  { unfold moved in *. assert (HP : forall v, is_u16 v -> exists d1, put2byte d a v = Some d1 /\ changed d a 2 d1 /\ w16 d1 a = v).
    { intros v Hv. destruct (put2byte_ok d a v) as (d1 & E & C & W); [lia..|]. exists d1. split_and!; try done.
      rewrite W. by apply Z.mod_small. }
    destruct (p.1 <? iFree); [by apply HP|]. destruct (p.1 <? iFree2); [by apply HP|]. exists d. done. }
  destruct H1 as (d1 & -> & C1 & W1). cbn [mbind option_bind]. pose proof C1 as (L1 & U1 & F1).
  destruct (IH d1 (a + 2)) as (d2 & E & C2 & W2); [auto|lia|lia| |done|].
  { intros i q Hi. rewrite (changed_w16 _ _ _ _ _ C1) by lia. specialize (Hp (S i) q Hi).
    replace (a + 2 + 2 * Z.of_nat i) with (a + 2 * Z.of_nat (S i)) by lia. done. }
  exists d2. split; [done|]. pose proof C2 as (L2 & U2 & F2). split.
  - rewrite alen_cons. split_and!; [lia|auto|]. intros i Hi. rewrite F2, F1 by lia. done.
  - intros [|i] q Hi; cbn in Hi.
    + simplify_eq. rewrite Z.mul_0_r, Z.add_0_r. rewrite (changed_w16 _ _ _ _ _ C2) by lia. done.
    + specialize (W2 i q Hi). replace (a + 2 * Z.of_nat (S i)) with (a + 2 + 2 * Z.of_nat i) by lia. done.
Qed.

(** ** The moves *)

Section Moves.
Context (pBt : BtShared) (pPage : MemPage) (ls : list placed) (top frag : Z) (fbs : list region).
Context (Hpg : page_cells_at pBt pPage ls top frag fbs).
Context (f1 z1 f2 z2 : Z) (Hfew : few_blocks f1 z1 f2 z2 fbs).
Abbreviation us := (usableSize pBt).
Abbreviation hdr := (hdrOffset pPage).
Abbreviation off := (cellOffset pPage).
Abbreviation data := (aData pPage).
Abbreviation gap := (gap_of pPage).
Abbreviation sh := (moved f1 f2 (z1 + z2) z2).
Abbreviation mv := (move f1 z1 f2 z2).

(** The image after the moves: the cells are at their new places, the pointers are
    still the old ones. *)
Definition after_moves (d : list Z) : Prop :=
  Forall is_u8 d /\ alen d = alen data /\ (forall i, i < top -> fbyte d i = fbyte data i) /\
  (forall x k, x ∈ regs ls -> 0 <= k < x.2 -> fbyte d (sh x.1 + k) = fbyte data (x.1 + k)).

Lemma page_layout : layout us top frag (regs ls) fbs.
Proof. apply Hpg. Qed.

Lemma page_u8 : Forall is_u8 data.
Proof. apply Hpg. Qed.

Lemma few_bounds : top < f1 /\ 4 <= z1 /\ f1 + z1 <= us /\ 0 <= z2 /\ f1 + z1 + z2 <= us /\
  w16 data (f1 + 2) = z1 /\ w16 data f1 = f2 /\
  (f2 = 0 /\ z2 = 0 \/ f1 + z1 + 3 < f2 /\ 4 <= z2 /\ f2 + z2 <= us /\ w16 data f2 = 0 /\ w16 data (f2 + 2) = z2).
Proof.
  pose proof (la_asc _ _ _ _ _ page_layout) as Ha.
  pose proof (sp_free _ _ _ _ _ _ _ _ (pa_space _ _ _ _ _ _ Hpg)) as Hf.
  destruct Hfew as [(-> & -> & ->)| ->]; destruct Hf as [Hf Hf0]; cbn in *; lia.
Qed.

(** One freeblock. *)
Lemma moves_one : f2 = 0 -> exists d, memmove data (top + z1) top (f1 - top) = Some d /\ after_moves d.
Proof.
  intros E2. destruct (page_bounds _ _ _ _ _ _ Hpg) as (B1 & B2 & B3 & B4 & B5 & B6 & B7 & B8 & B9 & B10).
  destruct few_bounds as (C1 & C2 & C3 & C4 & C5 & C6 & C7 & C8). assert (z2 = 0) by lia.
  destruct (memmove_ok data (top + z1) top (f1 - top)) as (d & E & (L & U & F) & M); [apply page_u8|lia..|].
  exists d. split; [done|]. split_and!; [apply U, page_u8|lia|intros; apply F; lia|].
  intros x k Hx Hk. pose proof (moved_cases _ _ _ _ _ _ _ _ _ page_layout Hfew ltac:(lia) x Hx) as Hc.
  destruct Hc as (_ & ? & ? & _ & _ & _ & _ & [(? & -> & _)|[(? & ? & _)|(? & -> & _)]]); [|lia|rewrite F by lia; done].
  rewrite M by lia. f_equal. lia.
Qed.

(** Two freeblocks. *)
Lemma moves_two : f2 <> 0 -> exists d1 d, memmove data (f1 + z1 + z2) (f1 + z1) (f2 - (f1 + z1)) = Some d1 /\
  memmove d1 (top + (z1 + z2)) top (f1 - top) = Some d /\ after_moves d.
Proof.
  intros E2. destruct (page_bounds _ _ _ _ _ _ Hpg) as (B1 & B2 & B3 & B4 & B5 & B6 & B7 & B8 & B9 & B10).
  destruct few_bounds as (C1 & C2 & C3 & C4 & C5 & C6 & C7 & C8).
  destruct (memmove_ok data (f1 + z1 + z2) (f1 + z1) (f2 - (f1 + z1))) as (d1 & E1 & (L1 & U1 & F1) & M1); [apply page_u8|lia..|].
  destruct (memmove_ok d1 (top + (z1 + z2)) top (f1 - top)) as (d & E & (L & U & F) & M); [apply U1, page_u8|lia..|].
  exists d1, d. split_and!; try done. split_and!; [apply U, U1, page_u8|lia|intros; rewrite F, F1 by lia; done|].
  intros x k Hx Hk. pose proof (moved_cases _ _ _ _ _ _ _ _ _ page_layout Hfew ltac:(lia) x Hx) as Hc.
  destruct Hc as (_ & ? & ? & _ & _ & _ & _ & [(? & -> & _)|[(? & ? & -> & _)|(? & -> & ?)]]).
  - rewrite M, F1 by lia. f_equal. lia.
  - rewrite F, M1 by lia. f_equal. lia.
  - rewrite F, F1 by lia. done.
Qed.

(** The pointers, then the common end. *)
Lemma move_finish d : after_moves d ->
  exists d', (d1 ← shift_ptrs (Z.to_nat (nCell pPage)) d off f1 f2 (z1 + z2) z2;
              defragment_out pPage d1 (top + (z1 + z2)) gap) = Some (SQLITE_OK, set_aData pPage d') /\
    page_cells_at pBt (set_aData pPage d') (map mv ls) (top + (z1 + z2)) frag [] /\ hdr_kept pPage data d'.
Proof.
  intros (U & L & F & M). destruct (page_bounds _ _ _ _ _ _ Hpg) as (B1 & B2 & B3 & B4 & B5 & B6 & B7 & B8 & B9 & B10).
  destruct few_bounds as (C1 & C2 & C3 & C4 & C5 & _).
  pose proof (layout_moved _ _ _ _ _ _ _ _ _ page_layout Hfew ltac:(lia)) as HL.
  pose proof (pa_cells _ _ _ _ _ _ Hpg) as Hct.
  rewrite B9. unfold alen at 1. rewrite Nat2Z.id.
  destruct (shift_ptrs_ok f1 f2 (z1 + z2) z2 ls d off) as (d1 & -> & C & W); [done|lia|lia| | |].
  - intros i p Hi. destruct (Hct i p Hi) as [H1 _]. rewrite <- H1. pose proof (lookup_lt_Some _ _ _ Hi).
    apply w16_same. intros j Hj. apply F. unfold alen in *. lia.
  - apply Forall_forall. intros p Hp. pose proof (la_rs _ _ _ _ _ HL) as Hr. rewrite regs_move in Hr.
    rewrite Forall_map in Hr. rewrite Forall_forall in Hr. specialize (Hr (p.1, alen p.2)). cbn in Hr. unfold is_u16.
    assert (Hin : (p.1, alen p.2) ∈ regs ls) by (apply list_elem_of_fmap; eauto). specialize (Hr Hin). lia.
  - cbn [mbind option_bind]. destruct C as (L1 & U1 & F1).
    apply (defragment_out_ok _ _ _ _ _ _ Hpg); try lia; try done.
    + by rewrite map_map.
    + auto.
    + split; [lia|]. intros i Hi. rewrite F1, F by lia. done.
    + rewrite (w16_same data); [done|]. intros j Hj. rewrite F1, F by lia. done.
    + intros i q Hi. rewrite list_lookup_fmap in Hi. destruct (ls !! i) as [p|] eqn:Ei; [|done]. injection Hi as <-.
      split; [by apply W|]. destruct (Hct i p Ei) as [_ H2]. cbn [move fst snd]. rewrite <- H2 at 2.
      apply fread_shift; [apply alen_nonneg|]. intros k Hk. pose proof (regs_lookup _ _ _ Ei) as Hin.
      pose proof (la_rs _ _ _ _ _ HL) as Hr. rewrite regs_move, Forall_map, Forall_forall in Hr. specialize (Hr _ Hin). cbn in Hr.
      rewrite F1 by lia. apply (M (p.1, alen p.2) k Hin). cbn. lia.
    + rewrite F1, F by lia. apply (sp_frag _ _ _ _ _ _ _ _ (pa_space _ _ _ _ _ _ Hpg)).
Qed.

Lemma defragment_move_ok : exists d', defragment_move pBt pPage data f1 f2 gap = Some (SQLITE_OK, set_aData pPage d') /\
  page_cells_at pBt (set_aData pPage d') (map mv ls) (top + (z1 + z2)) frag [] /\ hdr_kept pPage data d'.
Proof.
  destruct (page_bounds _ _ _ _ _ _ Hpg) as (B1 & B2 & B3 & B4 & B5 & B6 & B7 & B8 & B9 & B10).
  destruct few_bounds as (C1 & C2 & C3 & C4 & C5 & C6 & C7 & C8). pose proof page_u8 as Hd.
  unfold defragment_move. rewrite (get2byte_w16 data (f1 + 2)), (get2byte_w16 data (hdr + 5)) by (done || lia).
  cbn [mbind option_bind]. rewrite C6, (sp_top _ _ _ _ _ _ _ _ (pa_space _ _ _ _ _ _ Hpg)).
  unfold u16. rewrite (Z.mod_small top) by lia. rewrite (proj2 (Z.leb_gt f1 top)) by lia.
  destruct (Z.eqb_spec f2 0) as [E2|E2]; cbn [negb].
  - assert (Ez : z2 = 0) by lia. rewrite (proj2 (Z.ltb_ge us (f1 + z1))) by lia.
    destruct (moves_one E2) as (d & -> & HM). cbn [mbind option_bind].
    pose proof (move_finish d HM) as HF. rewrite E2, Ez, Z.add_0_r in *. exact HF.
  - rewrite (proj2 (Z.ltb_ge f2 (f1 + z1))) by lia. rewrite get2byte_w16 by (done || lia). cbn [mbind option_bind].
    destruct C8 as [[? _]|(? & ? & ? & ? & ->)]; [lia|]. rewrite (proj2 (Z.ltb_ge us (f2 + z2))) by lia.
    destruct (moves_two E2) as (d1 & d & -> & E3 & HM). cbn [mbind option_bind]. rewrite E3. cbn [mbind option_bind].
    by apply move_finish.
Qed.
End Moves.

(** ** The whole function *)

(** A result that holds the same cells, has no freeblocks, and at most [nMaxFrag]
    fragment bytes, or none. *)
Definition defragmented (pBt : BtShared) (pPage : MemPage) (ls : list placed) (nMaxFrag : Z) (res : option (Z * MemPage)) : Prop :=
  exists d' ls' top' frag', res = Some (SQLITE_OK, set_aData pPage d') /\
    map snd ls' = map snd ls /\ page_cells_at pBt (set_aData pPage d') ls' top' frag' [] /\
    (frag' = 0 \/ frag' <= nMaxFrag) /\ hdr_kept pPage (aData pPage) d'.

Lemma defragmented_pack pBt pPage ls top frag fbs m : page_cells_at pBt pPage ls top frag fbs ->
  defragmented pBt pPage ls m (defragment_pack pBt pPage (aData pPage) (gap_of pPage)).
Proof.
  intros Hpg. destruct (defragment_pack_ok _ _ _ _ _ _ Hpg) as (d' & H1 & H2 & H3).
  exists d', (pack (usableSize pBt) (map snd ls)), (usableSize pBt - cells_size (map snd ls)), 0.
  split_and!; try done; [apply pack_snd|by left].
Qed.

Lemma defragmented_move pBt pPage ls top frag fbs m f1 z1 f2 z2 : page_cells_at pBt pPage ls top frag fbs ->
  few_blocks f1 z1 f2 z2 fbs -> frag <= m ->
  defragmented pBt pPage ls m (defragment_move pBt pPage (aData pPage) f1 f2 (gap_of pPage)).
Proof.
  intros Hpg Hfew Hm. destruct (defragment_move_ok _ _ _ _ _ _ Hpg _ _ _ _ Hfew) as (d' & H1 & H2 & H3).
  exists d', (map (move f1 z1 f2 z2) ls), (top + (z1 + z2)), frag. split_and!; try done; [by rewrite map_map|by right].
Qed.

Lemma defragmentPage_ok pBt pPage ls top frag fbs nMaxFrag : page_cells_at pBt pPage ls top frag fbs ->
  defragmented pBt pPage ls nMaxFrag (defragmentPage pBt pPage nMaxFrag).
Proof.
  intros Hpg. destruct (page_bounds _ _ _ _ _ _ Hpg) as (B1 & B2 & B3 & B4 & B5 & B6 & B7 & B8 & B9 & B10).
  pose proof (page_u8 _ _ _ _ _ _ Hpg) as Hd. pose proof (page_layout _ _ _ _ _ _ Hpg) as Hl.
  pose proof (sp_free _ _ _ _ _ _ _ _ (pa_space _ _ _ _ _ _ Hpg)) as Hf.
  pose proof (proj1 (sp_frag _ _ _ _ _ _ _ _ (pa_space _ _ _ _ _ _ Hpg))) as Hfr.
  pose proof (la_asc _ _ _ _ _ Hl) as Ha.
  pose proof (defragmented_pack _ _ _ _ _ _ nMaxFrag Hpg) as HP.
  pose proof (fun f1 z1 f2 z2 => defragmented_move _ _ _ _ _ _ nMaxFrag f1 z1 f2 z2 Hpg) as HM.
  unfold defragmentPage. change (cellOffset pPage + 2 * nCell pPage) with (gap_of pPage).
  rewrite aget_fbyte by lia. cbn [mbind option_bind]. rewrite Hfr.
  destruct (Z.leb_spec frag nMaxFrag) as [Hm|]; cbn [negb]; [|done].
  rewrite (get2byte_w16 _ (hdrOffset pPage + 1)), (freelist_head _ _ _ Hf) by (done || lia). cbn [mbind option_bind].
  destruct fbs as [|[f1 z1] fbs]; cbn [headp].
  { rewrite (proj2 (Z.ltb_ge _ _)) by lia. done. }
  destruct Ha as (A1 & A2 & A3 & A4). cbn in A1, A2, A3, A4. cbn [fst]. rewrite (proj2 (Z.ltb_ge _ f1)) by lia.
  rewrite (proj2 (Z.eqb_neq f1 0)) by lia. apply (freelist_app _ _ [(f1, z1)]) in Hf as [_ Hf]. cbn [lastp fst] in Hf.
  rewrite get2byte_w16, (freelist_head _ _ _ Hf) by (done || lia). cbn [mbind option_bind].
  destruct fbs as [|[f2 z2] fbs]; cbn [headp].
  { rewrite (proj2 (Z.ltb_ge _ 0)) by lia. cbn. apply (HM f1 z1 0 0); [by left|done]. }
  destruct A4 as (A5 & A6 & A7 & A8). cbn in A5, A6, A7, A8. cbn [fst]. rewrite (proj2 (Z.ltb_ge _ f2)) by lia.
  rewrite (proj2 (Z.eqb_neq f2 0)) by lia. rewrite !aget_fbyte by lia. cbn [mbind option_bind].
  apply (freelist_app _ _ [(f2, z2)]) in Hf as [_ Hf]. cbn [lastp fst] in Hf. apply freelist_head in Hf. unfold w16 in Hf.
  pose proof (fbyte_u8 (aData pPage) f2 Hd) as Hu1. pose proof (fbyte_u8 (aData pPage) (f2 + 1) Hd) as Hu2.
  unfold is_u8 in Hu1, Hu2. destruct fbs as [|[f3 z3] fbs]; cbn [headp fst] in Hf.
  - rewrite (proj2 (Z.eqb_eq (fbyte (aData pPage) f2) 0)), (proj2 (Z.eqb_eq (fbyte (aData pPage) (f2 + 1)) 0)) by lia.
    cbn [mbind option_bind]. apply (HM f1 z1 f2 z2); [by right|done].
  - destruct A8 as [? _]. cbn in H. destruct (Z.eqb_spec (fbyte (aData pPage) f2) 0); [|done].
    rewrite (proj2 (Z.eqb_neq (fbyte (aData pPage) (f2 + 1)) 0)) by lia. done.
Qed.
