(* ===== verification/BtSpec.v ===== *)
(** * Insertion and removal of cells

    [allocateSpace], [insertCell], [insertCellFast] and [dropCell] on a page that
    represents a list of cells, [btreeComputeFreeSpace] and the initialisation of pages;
    the theorems on the B-tree page as a whole. *)
From S2P Require Import Prelude Varint Bytes FileIO BtBase BtCell BtPage BtLayout BtSpace BtRep BtDefrag.

(** ** Allocation *)

Lemma set_aData_id pPage : set_aData pPage (aData pPage) = pPage.
Proof. by destruct pPage. Qed.

Lemma set_aData_twice pPage d d' : set_aData (set_aData pPage d) d' = set_aData pPage d'.
Proof. done. Qed.

(** The image [d] has room for one more pointer, and the region [(idx, n)] is
    allocated beside the cells. *)
Definition allocated (pBt : BtShared) (pPage : MemPage) (ls : list placed) (n idx : Z) (d : list Z) : Prop :=
  exists ls' top frag fbs, map snd ls' = map snd ls /\ contents d (cellOffset pPage) ls' /\
    space (usableSize pBt) (hdrOffset pPage) (gap_of pPage + 2) d top frag ((idx, n) :: regs ls') fbs /\
    w16 d (hdrOffset pPage + 3) = alen ls /\ hdr_kept pPage (aData pPage) d.

(** A region taken from the gap. *)
Lemma layout_gap us top frag rs fbs n : layout us top frag rs fbs -> 4 <= n -> top <= us ->
  layout us (top - n) frag ((top - n, n) :: rs) fbs.
Proof.
  intros [H1 H2 H3 H4 H5 H6] Hn Ht. split; try done.
  - eapply ascending_le; [|exact H1]. lia.
  - constructor; [cbn; lia|]. eapply Forall_impl; [exact H2|]. intros r (? & ? & ?). lia.
  - constructor; [|done]. eapply Forall_impl; [exact H2|]. intros r (? & ? & ?). unfold apart. cbn. lia.
  - intros r b [->|Hr]%elem_of_cons Hb; [|by apply H4]. pose proof (ascending_lb _ _ _ _ H1 Hb). unfold apart. cbn. lia.
  - change (total ((top - n, n) :: rs)) with (n + total rs). lia.
Qed.

Lemma space_gap us hdr gap gap' data top frag rs fbs : space us hdr gap data top frag rs fbs ->
  gap <= gap' <= top -> space us hdr gap' data top frag rs fbs.
Proof. intros [H1 H2 (H3 & H4 & H5) H6 H7 H8 H9] Hg. split; try done. lia. Qed.

(** The start of the content area as the code reads it. *)
Lemma space_top us hdr gap data top frag rs fbs : space us hdr gap data top frag rs fbs ->
  get2byteNotZero data (hdr + 5) = Some top.
Proof.
  intros [Hd [Hu Hu'] (Hh & Hgt & Ht) Htop _ _ _]. rewrite get2byteNotZero_w16 by (done || lia). rewrite Htop. unfold u16.
  destruct (decide (top = 65536)) as [->|]; [done|]. rewrite Z.mod_small by lia. rewrite (proj2 (Z.eqb_neq top 0)) by lia. done.
Qed.

Section Allocation.
Context (pBt : BtShared).

Lemma take_gap pPage ls top frag fbs n : page_cells_at pBt pPage ls top frag fbs -> 4 <= n -> gap_of pPage + 2 + n <= top ->
  exists d', put2byte (aData pPage) (hdrOffset pPage + 5) (top - n) = Some d' /\ allocated pBt pPage ls n (top - n) d'.
Proof.
  intros Hpg Hn Hg. destruct (page_bounds _ _ _ _ _ _ Hpg) as (B1 & B2 & B3 & B4 & B5 & B6 & B7 & B8 & B9 & B10).
  pose proof (pa_space _ _ _ _ _ _ Hpg) as Hsp. pose proof (space_rs_gap _ _ _ _ _ _ _ _ Hsp) as Hrg.
  destruct Hsp as [Hd [Hu Hu'] (Hh & Hgt & Ht) Htop Hf [Hfr Hf60] Hl].
  destruct (put2byte_ok (aData pPage) (hdrOffset pPage + 5) (top - n)) as (d & E & C & W); [lia..|]. pose proof C as (L & U & F).
  assert (K : bytes_kept (hdrOffset pPage) (gap_of pPage) (regs ls) (aData pPage) d) by (eapply kept_changed; [exact C|right; left; lia|lia|done]).
  exists d. split; [done|]. exists ls, (top - n), frag, fbs. split_and!; try done.
  - eapply contents_kept; [apply Hpg|exact K|lia|lia|done].
  - split; try done; [auto|lia|lia| |rewrite F by lia; done|by apply layout_gap].
    apply (freelist_move (aData pPage) d (hdrOffset pPage + 1)); [done| |].
    + rewrite (changed_w16 _ _ _ _ _ C) by lia. by apply freelist_head.
    + intros b i Hb Hi. pose proof (ascending_lb _ _ _ _ (la_asc _ _ _ _ _ Hl) Hb). apply F. lia.
  - rewrite (changed_w16 _ _ _ _ _ C) by lia. done.
  - eapply kept_hdr; [exact K|lia].
Qed.

Context (pPage : MemPage) (ls : list placed).
Abbreviation us := (usableSize pBt).
Abbreviation hdr := (hdrOffset pPage).
Abbreviation off := (cellOffset pPage).
Abbreviation gap := (gap_of pPage).

(** The end of the function, on a page with room for the cell and its pointer. *)
Lemma allocate_gap_ok top frag fbs n : page_cells_at pBt pPage ls top frag fbs -> 4 <= n -> n + 2 <= nFree pPage ->
  exists idx d', allocate_gap pBt pPage n gap top = Some (SQLITE_OK, idx, set_aData pPage d') /\
    allocated pBt pPage ls n idx d'.
Proof.
  intros Hpg Hn Hfree. unfold allocate_gap. destruct (Z.ltb_spec top (gap + 2 + n)) as [Hlt|Hge].
  - destruct (defragmentPage_ok _ _ _ _ _ _ (Z.min 4 (nFree pPage - (2 + n))) Hpg) as (d1 & ls1 & top1 & frag1 & -> & Hm & Hpg1 & Hf1 & Hk).
    cbn [mbind option_bind]. change (negb (SQLITE_OK =? SQLITE_OK)) with false. cbn match.
    pose proof (space_top _ _ _ _ _ _ _ _ (pa_space _ _ _ _ _ _ Hpg1)) as Etop.
    change (hdrOffset (set_aData pPage d1)) with hdr in Etop. rewrite Etop. cbn [mbind option_bind].
    change (negb (SQLITE_OK =? SQLITE_OK)) with false. cbn match.
    pose proof (page_free _ _ _ _ _ _ Hpg1) as HF. change (nFree (set_aData pPage d1)) with (nFree pPage) in HF.
    change (gap_of (set_aData pPage d1)) with gap in HF. change (total []) with 0 in HF.
    destruct (take_gap (set_aData pPage d1) ls1 _ _ _ n Hpg1 Hn) as (d' & E & HA).
    { change (gap_of (set_aData pPage d1)) with gap. lia. }
    change (hdrOffset (set_aData pPage d1)) with hdr in *. rewrite E. cbn [mbind option_bind].
    exists (top1 - n), d'. split; [done|]. destruct HA as (ls2 & t & f & fb & M2 & C2 & S2 & W2 & K2).
    exists ls2, t, f, fb. split_and!; [by rewrite M2|done|done| |by eapply hdr_kept_trans].
    transitivity (alen ls1); [exact W2|]. unfold alen. rewrite <- (length_map snd ls1), Hm, length_map. done.
  - cbn [mbind option_bind]. change (negb (SQLITE_OK =? SQLITE_OK)) with false. cbn match.
    destruct (take_gap _ _ _ _ _ n Hpg Hn Hge) as (d' & -> & HA). cbn [mbind option_bind]. eauto.
Qed.

Lemma allocateSpace_ok top frag fbs n : page_cells_at pBt pPage ls top frag fbs -> 4 <= n -> n + 2 <= nFree pPage ->
  exists idx d', allocateSpace pBt pPage n = Some (SQLITE_OK, idx, set_aData pPage d') /\
    allocated pBt pPage ls n idx d'.
Proof.
  intros Hpg Hn Hfree. destruct (page_bounds _ _ _ _ _ _ Hpg) as (B1 & B2 & B3 & B4 & B5 & B6 & B7 & B8 & B9 & B10).
  pose proof (pa_space _ _ _ _ _ _ Hpg) as Hsp. pose proof Hsp as [Hd _ _ Htop Hf _ Hl].
  pose proof (page_total _ _ _ _ _ _ Hpg) as [T1 T2]. pose proof (pa_free _ _ _ _ _ _ Hpg) as HF.
  pose proof (cells_size_nonneg (map snd ls)).
  unfold allocateSpace. change (cellOffset pPage + 2 * nCell pPage) with gap.
  rewrite get2byte_w16 by (done || lia). cbn [mbind option_bind]. rewrite Htop.
  assert (Hbad : (if u16 top <? gap then negb ((u16 top =? 0) && (us =? 65536)) else us <? u16 top) = false /\
    (if u16 top <? gap then 65536 else u16 top) = top).
  { destruct (decide (top = 65536)) as [->|Hne].
    - change (u16 65536) with 0. rewrite (proj2 (Z.ltb_lt 0 gap)), (proj2 (Z.eqb_eq us 65536)) by lia. done.
    - unfold u16. rewrite Z.mod_small by lia. rewrite (proj2 (Z.ltb_ge top gap)), (proj2 (Z.ltb_ge us top)) by lia. done. }
  destruct Hbad as [-> ->]. rewrite !aget_fbyte by lia. cbn [mbind option_bind].
  destruct ((negb (fbyte (aData pPage) (hdr + 2) =? 0) || negb (fbyte (aData pPage) (hdr + 1) =? 0)) && (gap + 2 <=? top)) eqn:Ec;
    [|by eapply allocate_gap_ok].
  apply andb_prop in Ec as [Ec Eg]. apply Z.leb_le in Eg.
  assert (Hne : fbs <> []).
  { intros ->. apply freelist_head in Hf. cbn in Hf. unfold w16 in Hf. replace (hdr + 1 + 1) with (hdr + 2) in Hf by lia.
    pose proof (fbyte_u8 (aData pPage) (hdr + 1) Hd). pose proof (fbyte_u8 (aData pPage) (hdr + 2) Hd). unfold is_u8 in *.
    destruct (Z.eqb_spec (fbyte (aData pPage) (hdr + 1)) 0), (Z.eqb_spec (fbyte (aData pPage) (hdr + 2)) 0); cbn in Ec; lia. }
  destruct (pageFindSlot_ok _ _ _ _ _ n _ _ Hsp Hne) as (res & -> & found & d & -> & HS); [lia|]. cbn [mbind option_bind].
  destruct found as [idx|].
  - destruct HS as (Hidx & K & frag' & fbs' & Hsp'). rewrite (proj2 (Z.leb_gt idx gap)) by lia.
    exists idx, d. split; [done|]. exists ls, top, frag', fbs'. split_and!; try done.
    + eapply contents_kept; [apply Hpg|exact K|lia|lia|done].
    + eapply space_gap; [exact Hsp'|lia].
    + rewrite <- B8. apply w16_same. intros j Hj. apply K. lia.
    + eapply kept_hdr; [exact K|lia].
  - rewrite HS, set_aData_id. change (negb (SQLITE_OK =? SQLITE_OK)) with false. cbn match.
    by eapply allocate_gap_ok.
Qed.
End Allocation.

(** ** Pointers *)

(** The invariant does not depend on pointers, on the cell count and on the bytes of
    the regions. *)
Lemma space_frame us hdr gap gap' data data' top frag rs fbs : space us hdr gap data top frag rs fbs ->
  Forall is_u8 data' -> alen data' = alen data -> hdr + 8 <= gap' <= top ->
  (forall i, hdr + 1 <= i < hdr + 3 \/ hdr + 5 <= i < hdr + 8 -> fbyte data' i = fbyte data i) ->
  (forall b i, b ∈ fbs -> in_region b i -> fbyte data' i = fbyte data i) ->
  space us hdr gap' data' top frag rs fbs.
Proof.
  intros [Hd [Hu Hu'] (Hh & Hgt & Ht) Htop Hf [Hfr Hf60] Hl] Hd' HL Hg HH HB. split; try done; [lia| | |].
  - rewrite <- Htop. apply w16_same. intros j Hj. apply HH. lia.
  - apply (freelist_move data data' (hdr + 1)); [done| |].
    + rewrite (w16_same data) by (intros; apply HH; lia). by apply freelist_head.
    + intros b i Hb Hi. pose proof (ascending_lb _ _ _ _ (la_asc _ _ _ _ _ Hl) Hb). apply (HB b); [done|].
      unfold in_region. lia.
  - rewrite HH by lia. done.
Qed.

Lemma contents_shift d d' a a' ls : contents d a ls ->
  (forall k, 0 <= k < 2 * alen ls -> fbyte d' (a' + k) = fbyte d (a + k)) ->
  (forall x i, x ∈ regs ls -> in_region x i -> fbyte d' i = fbyte d i) -> contents d' a' ls.
Proof.
  intros H Hp Hr i p Hi. destruct (H i p Hi) as [H1 H2]. pose proof (lookup_lt_Some _ _ _ Hi) as Hlt. split.
  - rewrite <- H1. unfold w16. unfold alen in Hp. rewrite <- !Z.add_assoc. rewrite !Hp by lia. done.
  - rewrite <- H2 at 2. apply fread_same. intros j Hj. eapply Hr; [by eapply regs_lookup|done].
Qed.

Lemma regs_app a b : regs (a ++ b) = regs a ++ regs b.
Proof. unfold regs. by rewrite map_app. Qed.

(** The increment of the cell count in the header. *)
Lemma count_ok d hdr n : Forall is_u8 d -> 0 <= hdr -> hdr + 5 <= alen d -> w16 d (hdr + 3) = n -> n + 1 < 65536 ->
  exists d1 d2, put1byte d (hdr + 4) (u8 (fbyte d (hdr + 4) + 1)) = Some d1 /\
    (if u8 (fbyte d (hdr + 4) + 1) =? 0 then hi ← aget d1 (hdr + 3); put1byte d1 (hdr + 3) (u8 (hi + 1)) else Some d1) = Some d2 /\
    changed d (hdr + 3) 2 d2 /\ w16 d2 (hdr + 3) = n + 1.
Proof.
  intros Hd Hh HL Hw Hn. pose proof (fbyte_u8 d (hdr + 4) Hd) as H4. pose proof (fbyte_u8 d (hdr + 3) Hd) as H3.
  unfold is_u8 in H3, H4. unfold w16 in Hw. replace (hdr + 3 + 1) with (hdr + 4) in Hw by lia.
  destruct (put1byte_ok d (hdr + 4) (u8 (fbyte d (hdr + 4) + 1))) as (d1 & E1 & (L1 & U1 & F1) & W1); [lia|lia|apply u8_range|].
  exists d1. destruct (Z.eqb_spec (u8 (fbyte d (hdr + 4) + 1)) 0) as [Hz|Hz].
  - rewrite aget_fbyte, F1 by lia. cbn [mbind option_bind]. unfold u8 in Hz.
    rewrite (u8_id (fbyte d (hdr + 3) + 1)) by (unfold is_u8; zdm).
    destruct (put1byte_ok d1 (hdr + 3) (fbyte d (hdr + 3) + 1)) as (d2 & E2 & (L2 & U2 & F2) & W2); [lia|lia|unfold is_u8; zdm|].
    exists d2. split_and!; try done.
    + split_and!; [lia|auto|]. intros i Hi. rewrite F2, F1 by lia. done.
    + unfold w16. replace (hdr + 3 + 1) with (hdr + 4) by lia. rewrite W2, F2, W1 by lia. unfold u8. zdm.
  - exists d1. split_and!; try done.
    + split_and!; [lia|auto|]. intros i Hi. apply F1. lia.
    + unfold w16. replace (hdr + 3 + 1) with (hdr + 4) by lia. rewrite W1, F1 by lia. unfold u8 in *. zdm.
Qed.

(** The pointer array with a pointer inserted at [i], on the image [d] that already
    holds the cell at [idx]. *)
Section InsertPointer.
Context (bo : byteorder) (ptrmapPut : Z -> Z -> Z -> Z) (aDataEnd cellAddr : Z).
Context (pBt : BtShared) (pPage : MemPage) (d pCell : list Z) (ls : list placed) (idx : Z) (c : list Z) (i : Z).
Context (top frag : Z) (fbs : list region).
Abbreviation hdr := (hdrOffset pPage).
Abbreviation off := (cellOffset pPage).
Abbreviation us := (usableSize pBt).
Context (Hhdr : 0 <= hdr <= 100 /\ off = hdr + 8 + childPtrSize pPage /\ 0 <= childPtrSize pPage <= 4).
Context (Hcount : nCell pPage = alen ls /\ w16 d (hdr + 3) = alen ls) (Hi : 0 <= i <= alen ls).
Context (Hct : contents d off ls) (Hok : Forall (fun p => cell_ok pBt pPage p.2) ls).
Context (Hsp : space us hdr (gap_of pPage + 2) d top frag ((idx, alen c) :: regs ls) fbs).
Context (Hfree : nFree pPage = us - gap_of pPage - total (regs ls)).
Context (Hc : cell_ok pBt pPage c) (Hcd : fread d idx (alen c) = c).

Definition ls_insert : list placed := take (Z.to_nat i) ls ++ (idx, c) :: drop (Z.to_nat i) ls.

Lemma ls_insert_perm : (idx, alen c) :: regs ls ≡ₚ regs ls_insert.
Proof.
  unfold ls_insert. rewrite regs_app. cbn [regs map fst snd]. rewrite <- (take_drop (Z.to_nat i) ls) at 1.
  rewrite regs_app. apply Permutation_middle.
Qed.

Lemma ls_insert_len : alen ls_insert = alen ls + 1.
Proof. unfold ls_insert. rewrite alen_app, alen_cons. unfold alen. rewrite length_take, length_drop. unfold alen in Hi. lia. Qed.

Lemma insert_bounds : 0 <= alen ls /\ off + 2 * alen ls + 2 = gap_of pPage + 2 /\ gap_of pPage + 2 <= top <= us /\
  us <= alen d /\ us <= 65536 /\ 4 <= alen c /\ idx + alen c <= us /\ top <= idx.
Proof.
  pose proof (alen_nonneg ls). destruct Hsp as [_ [? ?] (? & ? & ?) _ _ _ Hl]. destruct (layout_top_le _ _ _ _ _ _ _ Hl) as (? & ? & ?).
  unfold gap_of in *. lia.
Qed.

(** The moved pointers and the new one. *)
Lemma insert_ptr_ok : exists d1 d2,
  memmove d (off + i * 2 + 2) (off + i * 2) (2 * (nCell pPage - i)) = Some d1 /\
  put2byte d1 (off + i * 2) idx = Some d2 /\ changed d (off + i * 2) (2 * (alen ls - i) + 2) d2 /\
  contents d2 off ls_insert.
Proof.
  destruct insert_bounds as (B0 & B1 & B2 & B3 & B4 & B5 & B6 & B7). destruct Hcount as [Hn _]. rewrite Hn.
  pose proof (sp_u8 _ _ _ _ _ _ _ _ Hsp) as Hd. pose proof (space_rs_gap _ _ _ _ _ _ _ _ Hsp) as Hrg.
  destruct (memmove_ok d (off + i * 2 + 2) (off + i * 2) (2 * (alen ls - i))) as (d1 & E1 & (L1 & U1 & F1) & M1); [done|lia..|].
  destruct (put2byte_ok d1 (off + i * 2) idx) as (d2 & E2 & C2 & W2); [lia..|]. pose proof C2 as (L2 & U2 & F2).
  exists d1, d2. split_and!; try done. { split_and!; [lia|auto|]. intros j Hj. rewrite F2, F1 by lia. done. }
  assert (HR : forall x j, x ∈ (idx, alen c) :: regs ls -> in_region x j -> fbyte d2 j = fbyte d j).
  { intros x j Hx Hj. rewrite Forall_forall in Hrg. specialize (Hrg x Hx). unfold in_region in Hj. rewrite F2, F1 by lia. done. }
  rewrite <- (take_drop (Z.to_nat i) ls) in Hct. apply contents_app in Hct as [Hc1 Hc2]. rewrite alen_take in Hc2 by lia.
  assert (Hsub : forall x, x ∈ regs (take (Z.to_nat i) ls) \/ x ∈ regs (drop (Z.to_nat i) ls) -> x ∈ (idx, alen c) :: regs ls).
  { intros x Hx. apply elem_of_cons. right. rewrite <- (take_drop (Z.to_nat i) ls), regs_app. by apply elem_of_app. }
  unfold ls_insert. apply contents_app. rewrite alen_take by lia. split.
  - apply (contents_same d); [done| |eauto]. rewrite alen_take by lia. intros j Hj. rewrite F2, F1 by lia. done.
  - apply (contents_app _ _ [(idx, c)]). change (alen [(idx, c)]) with 1. split.
    + apply contents_one. split.
      * replace (off + 2 * i) with (off + i * 2) by lia. rewrite W2. cbn. unfold u16. apply Z.mod_small. lia.
      * cbn [fst snd]. rewrite <- Hcd at 2. apply fread_same. intros j Hj. apply (HR (idx, alen c)); [by constructor|done].
    + apply (contents_shift d d2 (off + 2 * i)); [done| |eauto].
      assert (HLd : alen (drop (Z.to_nat i) ls) = alen ls - i) by (unfold alen; rewrite length_drop; unfold alen in Hi; lia).
      intros k Hk. rewrite F2 by lia. rewrite M1 by lia. f_equal. lia.
Qed.

Lemma insert_pointer_ok : 2 + alen c <= nFree pPage ->
  autoVacuum pBt = false \/ ptrmapPutOvflPtr bo ptrmapPut aDataEnd cellAddr pBt pPage pCell SQLITE_OK = Some SQLITE_OK ->
  exists d', insert_pointer bo ptrmapPut aDataEnd cellAddr pBt pPage d i idx (alen c) pCell
      = Some (SQLITE_OK, set_page pPage d' (nFree pPage - (2 + alen c)) (nCell pPage + 1)) /\
    page_cells_at pBt (set_page pPage d' (nFree pPage - (2 + alen c)) (nCell pPage + 1)) ls_insert top frag fbs /\
    hdr_kept pPage d d'.
Proof.
  intros Hroom Hav. destruct insert_bounds as (B0 & B1 & B2 & B3 & B4 & B5 & B6 & B7). destruct Hcount as [Hn Hw3].
  pose proof (sp_u8 _ _ _ _ _ _ _ _ Hsp) as Hd. pose proof (la_asc _ _ _ _ _ (sp_layout _ _ _ _ _ _ _ _ Hsp)) as Ha.
  destruct insert_ptr_ok as (d1 & d2 & E1 & E2 & C2 & Hct2). pose proof C2 as (L2 & U2 & F2).
  destruct (count_ok d2 hdr (alen ls)) as (d3 & d4 & E3 & E4 & C4 & W4); [auto|lia|lia| |lia|].
  { rewrite <- Hw3. apply (changed_w16 _ _ _ _ _ C2). lia. }
  pose proof C4 as (L4 & U4 & F4).
  assert (E : insert_pointer bo ptrmapPut aDataEnd cellAddr pBt pPage d i idx (alen c) pCell
    = Some (SQLITE_OK, set_page pPage d4 (nFree pPage - (2 + alen c)) (nCell pPage + 1))).
  { unfold insert_pointer. rewrite E1. cbn [mbind option_bind]. rewrite E2. cbn [mbind option_bind].
    rewrite (aget_fbyte d2) by lia. cbn [mbind option_bind]. rewrite E3. cbn [mbind option_bind]. rewrite E4. cbn [mbind option_bind].
    unfold u16. rewrite !Z.mod_small by lia. destruct (autoVacuum pBt); [|done]. destruct Hav as [?|Hav]; [done|].
    change (ptrmapPutOvflPtr bo ptrmapPut aDataEnd cellAddr pBt (set_page pPage d4 (nFree pPage - (2 + alen c)) (nCell pPage + 1)) pCell SQLITE_OK)
      with (ptrmapPutOvflPtr bo ptrmapPut aDataEnd cellAddr pBt pPage pCell SQLITE_OK). by rewrite Hav. }
  exists d4. split; [done|].
  assert (HF : forall j, j < off + i * 2 \/ gap_of pPage + 2 <= j -> j < hdr + 3 \/ hdr + 5 <= j -> fbyte d4 j = fbyte d j).
  { intros j H1 H2. rewrite F4, F2 by lia. done. }
  split; [|split; [lia|]; intros j Hj; apply HF; lia].
  pose proof ls_insert_perm as HP. pose proof ls_insert_len as HLn. split; try done.
  - exact (proj1 Hhdr).
  - exact (proj2 Hhdr).
  - change (nCell pPage + 1 = alen ls_insert /\ w16 d4 (hdr + 3) = alen ls_insert). lia.
  - change (contents d4 off ls_insert). apply (contents_same d2); [done| |]; intros; apply F4; [lia|].
    right. match goal with H : _ ∈ regs ls_insert |- _ => rewrite <- HP in H end.
    pose proof (space_rs_gap _ _ _ _ _ _ _ _ Hsp) as Hrg. rewrite Forall_forall in Hrg.
    match goal with H : _ ∈ _ |- _ => specialize (Hrg _ H) end. unfold in_region in *. lia.
  - unfold ls_insert. apply Forall_app. rewrite <- (take_drop (Z.to_nat i) ls) in Hok. apply Forall_app in Hok as [? ?].
    split; [done|by constructor].
  - change (space us hdr (cellOffset pPage + 2 * (nCell pPage + 1)) d4 top frag (regs ls_insert) fbs).
    replace (cellOffset pPage + 2 * (nCell pPage + 1)) with (gap_of pPage + 2) by (unfold gap_of; lia).
    assert (Hsp' : space us hdr (gap_of pPage + 2) d4 top frag ((idx, alen c) :: regs ls) fbs).
    { apply (space_frame _ _ (gap_of pPage + 2) _ d); [done|auto|lia|lia| |]; [intros; apply HF; lia|].
      intros b j Hb Hj. pose proof (ascending_lb _ _ _ _ Ha Hb). unfold in_region in Hj. apply HF; lia. }
    destruct Hsp' as [S1 S2 S3 S4 S5 S6 S7]. split; try done. by eapply layout_perm.
  - change (nFree pPage - (2 + alen c) = us - (cellOffset pPage + 2 * (nCell pPage + 1)) - total (regs ls_insert)).
    rewrite <- (total_perm _ _ HP). change (total ((idx, alen c) :: regs ls)) with (alen c + total (regs ls)). unfold gap_of in Hfree. lia.
Qed.
End InsertPointer.

(** ** Insertion of cells *)

(** Stores into the allocated region keep everything else. *)
Lemma allocated_store pBt pPage ls n idx d d2 : allocated pBt pPage ls n idx d -> 0 <= hdrOffset pPage ->
  hdrOffset pPage + 8 <= cellOffset pPage -> cellOffset pPage + 2 * alen ls <= gap_of pPage ->
  Forall is_u8 d2 -> alen d2 = alen d -> (forall i, ~ idx <= i < idx + n -> fbyte d2 i = fbyte d i) ->
  allocated pBt pPage ls n idx d2.
Proof.
  intros (ls' & top & frag & fbs & Hm & Hct & Hsp & Hw & Hk) Hh Ho Hg Hd HL HF.
  assert (Hln : alen ls' = alen ls) by (unfold alen; rewrite <- (length_map snd ls'), Hm, length_map; done).
  pose proof (alen_nonneg ls). pose proof Hsp as [_ _ (_ & G & _) _ _ _ Hl]. destruct (layout_top_le _ _ _ _ _ _ _ Hl) as (T1 & T2 & T3).
  exists ls', top, frag, fbs. split_and!; try done.
  - apply (contents_same d); [done|intros; apply HF; lia|]. intros x i Hx Hi. apply HF.
    pose proof (la_pw _ _ _ _ _ Hl) as Hp. inversion Hp as [|? ? Ha _]; subst. rewrite Forall_forall in Ha.
    specialize (Ha x Hx). unfold apart, in_region in *. cbn in Ha. lia.
  - apply (space_frame _ _ (gap_of pPage + 2) _ d); [done..|lia| |]; [intros; apply HF; lia|].
    intros b i Hb Hi. pose proof (la_cross _ _ _ _ _ Hl (idx, n) b ltac:(by constructor) Hb) as Ha.
    apply HF. unfold apart, in_region in *. cbn in Ha. lia.
  - rewrite <- Hw. apply w16_same. intros; apply HF; lia.
  - destruct Hk as [K1 K2]. split; [lia|]. intros i Hi. rewrite HF by lia. by apply K2.
Qed.

(** A page and what became of it when its cells are now [cs]. *)
Definition page_now (pBt : BtShared) (pPage pPage' : MemPage) (cs : list (list Z)) (free : Z) : Prop :=
  page_rep pBt pPage' cs /\ nFree pPage' = free /\ hdr_kept pPage (aData pPage) (aData pPage') /\
  pPage' = set_page pPage (aData pPage') (nFree pPage') (nCell pPage').

Section InsertCell.
Context (bo : byteorder) (ptrmapPut : Z -> Z -> Z -> Z) (aDataEnd cellAddr : Z).
Context (pBt : BtShared) (pPage : MemPage) (i : Z) (c pCell : list Z).
Context (ls0 : list placed) (t0 f0 : Z) (fb0 : list region) (Hpg : page_cells_at pBt pPage ls0 t0 f0 fb0).
Context (Hi : 0 <= i <= alen ls0) (Hc : cell_ok pBt pPage c) (H4 : 4 <= alen c) (Hfree : alen c + 2 <= nFree pPage).
Context (Hav : autoVacuum pBt = false \/
  ptrmapPutOvflPtr bo ptrmapPut aDataEnd cellAddr pBt pPage pCell SQLITE_OK = Some SQLITE_OK).

Definition inserted (cs : list (list Z)) : list (list Z) := take (Z.to_nat i) cs ++ c :: drop (Z.to_nat i) cs.

Lemma insert_allocated idx d d1 : allocated pBt pPage ls0 (alen c) idx d -> fread d idx (alen c) = c ->
  exists pPage', insert_pointer bo ptrmapPut aDataEnd cellAddr pBt (set_aData pPage d1) d i idx (alen c) pCell
    = Some (SQLITE_OK, pPage') /\ page_now pBt pPage pPage' (inserted (map snd ls0)) (nFree pPage - (2 + alen c)).
Proof.
  intros (ls & top & frag & fbs & Hm & Hct & Hsp & Hw & Hk) Hcd.
  assert (Hln : alen ls0 = alen ls) by (unfold alen; rewrite <- (length_map snd ls0), <- (length_map snd ls), Hm; done).
  destruct (insert_pointer_ok bo ptrmapPut aDataEnd cellAddr pBt (set_aData pPage d1) d pCell ls idx c i top frag fbs)
    as (d' & E & Hpg' & Hk'); try done.
  - split; [apply Hpg|apply Hpg].
  - split; [rewrite <- Hln; apply Hpg|rewrite <- Hln; apply Hw].
  - lia.
  - change (Forall (fun p => cell_ok pBt pPage p.2) ls). pose proof (pa_ok _ _ _ _ _ _ Hpg) as H.
    rewrite <- (Forall_map snd (cell_ok pBt pPage)) in H |- *. by rewrite Hm.
  - change (nFree pPage = usableSize pBt - gap_of pPage - total (regs ls)). rewrite (pa_free _ _ _ _ _ _ Hpg), !total_regs, Hm. done.
  - change (2 + alen c <= nFree pPage). lia.
  - eexists. split; [exact E|]. split_and!; try done.
    + exists (ls_insert ls idx c i), top, frag, fbs. split; [|exact Hpg'].
      unfold ls_insert, inserted. rewrite map_app. cbn [map snd]. by rewrite <- !firstn_map, <- !skipn_map, Hm.
    + eapply hdr_kept_trans; [exact Hk|exact Hk'].
Qed.

(** Space is allocated, then any way to write the cell into it inserts it. *)
Lemma insert_written : exists idx d, allocateSpace pBt pPage (alen c) = Some (SQLITE_OK, idx, set_aData pPage d) /\
  0 <= idx /\ Forall is_u8 d /\ idx + alen c <= alen d /\
  forall d2, bytes_stored d idx c d2 -> exists pPage',
    insert_pointer bo ptrmapPut aDataEnd cellAddr pBt (set_aData pPage d) d2 i idx (alen c) pCell = Some (SQLITE_OK, pPage') /\
    page_now pBt pPage pPage' (inserted (map snd ls0)) (nFree pPage - (2 + alen c)).
Proof.
  destruct (page_bounds _ _ _ _ _ _ Hpg) as (B1 & B2 & B3 & B4 & B5 & B6 & B7 & B8 & B9 & B10).
  destruct (allocateSpace_ok pBt pPage ls0 _ _ _ (alen c) Hpg) as (idx & d & E & HA); [lia..|].
  pose proof HA as (ls' & t & f & fb & _ & _ & Hsp & _). pose proof Hsp as [Hd [Hu _] (_ & G & _) _ _ _ Hl].
  destruct (layout_top_le _ _ _ _ _ _ _ Hl) as (T1 & T2 & T3).
  exists idx, d. split_and!; [done|lia|done|lia|]. intros d2 S2.
  pose proof (stored_fread _ _ _ _ S2) as HR. destruct S2 as (L2 & U2 & _ & F2).
  apply (insert_allocated idx d2 d); [|done].
  apply (allocated_store _ _ _ _ _ d); [done|lia|lia|lia|apply U2; [done|apply Hc]|done|].
  intros j Hj. apply F2. lia.
Qed.
End InsertCell.

(** ** Removal of cells *)

(** A page without cells. *)
Lemma empty_page_at pBt pPage : 0 <= hdrOffset pPage <= 100 ->
  cellOffset pPage = hdrOffset pPage + 8 + childPtrSize pPage /\ 0 <= childPtrSize pPage <= 4 ->
  480 <= usableSize pBt <= 65536 -> usableSize pBt <= alen (aData pPage) -> Forall is_u8 (aData pPage) -> nCell pPage = 0 ->
  (forall i, hdrOffset pPage + 1 <= i < hdrOffset pPage + 5 -> fbyte (aData pPage) i = 0) ->
  fbyte (aData pPage) (hdrOffset pPage + 7) = 0 -> w16 (aData pPage) (hdrOffset pPage + 5) = u16 (usableSize pBt) ->
  nFree pPage = usableSize pBt - cellOffset pPage ->
  page_cells_at pBt pPage [] (usableSize pBt) 0 [].
Proof.
  intros Hh Ho Hu HL Hd Hn H0 H7 Hw HF. split; try done.
  - split; [done|]. unfold w16. rewrite !H0 by lia. done.
  - split; try done; [lia|unfold gap_of; lia| |].
    + split; [done|]. cbn [lastp]. unfold w16. rewrite !H0 by lia. done.
    + split; [done|constructor|constructor|by intros x b Hx%elem_of_nil|lia|cbn; lia].
  - rewrite HF. unfold gap_of. rewrite Hn. cbn. lia.
Qed.

Section DropCell.
Context (pBt : BtShared) (pPage : MemPage) (l r : list placed) (o : Z) (c : list Z) (top frag : Z) (fbs : list region).
Context (Hpg : page_cells_at pBt pPage (l ++ (o, c) :: r) top frag fbs).
Abbreviation hdr := (hdrOffset pPage).
Abbreviation off := (cellOffset pPage).
Abbreviation us := (usableSize pBt).
Abbreviation gap := (gap_of pPage).

Lemma drop_perm : regs (l ++ (o, c) :: r) ≡ₚ (o, alen c) :: regs (l ++ r).
Proof. rewrite !regs_app. symmetry. apply (Permutation_middle (regs l) (regs r) (o, alen c)). Qed.

Lemma drop_bounds : nCell pPage = alen l + alen r + 1 /\ 0 <= alen l /\ 0 <= alen r /\ 0 <= hdr /\ hdr + 8 <= off /\
  off + 2 * (alen l + alen r + 1) = gap /\ gap <= top <= us /\ us <= alen (aData pPage) /\ us <= 65536 /\
  top <= o /\ 4 <= alen c /\ o + alen c <= us.
Proof.
  destruct (page_bounds _ _ _ _ _ _ Hpg) as (B1 & B2 & B3 & B4 & B5 & B6 & B7 & B8 & B9 & B10).
  rewrite alen_app, alen_cons in *. pose proof (alen_nonneg l). pose proof (alen_nonneg r).
  pose proof (layout_perm _ _ _ _ _ _ drop_perm (sp_layout _ _ _ _ _ _ _ _ (pa_space _ _ _ _ _ _ Hpg))) as Hl.
  destruct (layout_top_le _ _ _ _ _ _ _ Hl). lia.
Qed.

(** After the release of the space: the other cells are where they were. *)
Lemma drop_free : exists d1 top1 frag1 fbs1,
  freeSpace pBt pPage o (alen c) = Some (SQLITE_OK, set_page pPage d1 (nFree pPage + alen c) (nCell pPage)) /\
  space us hdr gap d1 top1 frag1 (regs (l ++ r)) fbs1 /\ bytes_kept hdr gap (regs (l ++ r)) (aData pPage) d1 /\
  contents d1 off l /\ contents d1 (off + 2 * alen l + 2) r.
Proof.
  destruct drop_bounds as (B1 & B2 & B3 & B4 & B5 & B6 & B7 & B8 & B9 & B10 & B11 & B12).
  pose proof (pa_space _ _ _ _ _ _ Hpg) as [S1 S2 S3 S4 S5 S6 S7]. apply (layout_perm _ _ _ _ _ _ drop_perm) in S7.
  destruct (freeSpace_ok pBt pPage gap top frag o (alen c) (regs (l ++ r)) fbs) as (d1 & t1 & f1 & fb1 & E & Hsp & K); [by split|].
  exists d1, t1, f1, fb1. split_and!; try done.
  all: pose proof (pa_cells _ _ _ _ _ _ Hpg) as Hct; apply contents_app in Hct as [Hc1 Hc2];
    apply (contents_app _ _ [(o, c)]) in Hc2 as [_ Hc2]; change (alen [(o, c)]) with 1 in Hc2.
  - eapply contents_kept; [exact Hc1|exact K|lia|lia|]. intros x Hx. rewrite regs_app. apply elem_of_app. by left.
  - replace (off + 2 * alen l + 2) with (off + 2 * alen l + 2 * 1) by lia.
    eapply contents_kept; [exact Hc2|exact K|lia|lia|]. intros x Hx. rewrite regs_app. apply elem_of_app. by right.
Qed.

Lemma drop_ok_cells : Forall (fun p => cell_ok pBt pPage p.2) (l ++ r).
Proof.
  pose proof (pa_ok _ _ _ _ _ _ Hpg) as H. apply Forall_app in H as [H1 H2]. apply Forall_cons in H2 as [_ H2].
  apply Forall_app. done.
Qed.

Lemma drop_total : total (regs (l ++ (o, c) :: r)) = alen c + total (regs (l ++ r)).
Proof. rewrite (total_perm _ _ drop_perm). done. Qed.

(** The page with a pointer less. *)
Lemma drop_more d1 top1 frag1 fbs1 : 0 < alen l + alen r ->
  space us hdr gap d1 top1 frag1 (regs (l ++ r)) fbs1 -> bytes_kept hdr gap (regs (l ++ r)) (aData pPage) d1 ->
  contents d1 off l -> contents d1 (off + 2 * alen l + 2) r ->
  exists d2 d3, memmove d1 (off + 2 * alen l) (off + 2 * alen l + 2) (2 * alen r) = Some d2 /\
    put2byte d2 (hdr + 3) (alen l + alen r) = Some d3 /\
    page_cells_at pBt (set_page pPage d3 (nFree pPage + alen c + 2) (alen l + alen r)) (l ++ r) top1 frag1 fbs1 /\
    hdr_kept pPage (aData pPage) d3.
Proof.
  intros Hpos Hsp K Hc1 Hc2. destruct drop_bounds as (B1 & B2 & B3 & B4 & B5 & B6 & B7 & B8 & B9 & B10 & B11 & B12).
  pose proof K as [KL _]. pose proof (space_rs_gap _ _ _ _ _ _ _ _ Hsp) as Hrg. rewrite Forall_forall in Hrg.
  pose proof Hsp as [Hd _ (_ & G & _) _ _ _ Hl]. pose proof (la_asc _ _ _ _ _ Hl) as Ha.
  destruct (memmove_ok d1 (off + 2 * alen l) (off + 2 * alen l + 2) (2 * alen r)) as (d2 & E2 & C2 & M2); [done|lia..|].
  pose proof C2 as (L2 & U2 & F2).
  destruct (put2byte_ok d2 (hdr + 3) (alen l + alen r)) as (d3 & E3 & C3 & W3); [lia..|]. pose proof C3 as (L3 & U3 & F3).
  exists d2, d3. split_and!; try done.
  2: { eapply hdr_kept_trans; [eapply kept_hdr; [exact K|lia]|]. eapply hdr_kept_trans.
    - eapply hdr_kept_changed; [exact C2|lia|lia].
    - eapply hdr_kept_changed; [exact C3|lia|lia]. }
  assert (HR : forall x j, x ∈ regs (l ++ r) -> in_region x j -> fbyte d3 j = fbyte d1 j).
  { intros x j Hx Hj. specialize (Hrg x Hx). unfold in_region in Hj. rewrite F3, F2 by lia. done. }
  assert (Hin : forall x, x ∈ regs l \/ x ∈ regs r -> x ∈ regs (l ++ r)) by (intros x Hx; rewrite regs_app; by apply elem_of_app).
  pose proof (pa_free _ _ _ _ _ _ Hpg) as HF. rewrite drop_total in HF. split; try apply Hpg.
  - change (alen l + alen r = alen (l ++ r) /\ w16 d3 (hdr + 3) = alen (l ++ r)). rewrite alen_app, W3. unfold u16.
    rewrite Z.mod_small by lia. done.
  - change (contents d3 off (l ++ r)). apply contents_app. split.
    + apply (contents_same d1); [done|intros; rewrite F3, F2 by lia; done|eauto].
    + apply (contents_shift d1 d3 (off + 2 * alen l + 2)); [done| |eauto].
      intros k Hk. rewrite F3 by lia. rewrite M2 by lia. f_equal. lia.
  - exact drop_ok_cells.
  - change (space us hdr (off + 2 * (alen l + alen r)) d3 top1 frag1 (regs (l ++ r)) fbs1).
    apply (space_frame _ _ gap _ d1); [done|auto|lia|lia| |].
    + intros; rewrite F3, F2 by lia; done.
    + intros b i Hb Hi. pose proof (ascending_lb _ _ _ _ Ha Hb). unfold in_region in Hi. rewrite F3, F2 by lia. done.
  - change (nFree pPage + alen c + 2 = us - (off + 2 * (alen l + alen r)) - total (regs (l ++ r))). lia.
Qed.

(** The last cell of a page: the header is reset. *)
Lemma drop_last d1 : l = [] -> r = [] -> 480 <= us -> Forall is_u8 d1 -> bytes_kept hdr gap [] (aData pPage) d1 ->
  exists d2 d3 d4, memset d1 (hdr + 1) 0 4 = Some d2 /\ put1byte d2 (hdr + 7) 0 = Some d3 /\
    put2byte d3 (hdr + 5) us = Some d4 /\
    page_cells_at pBt (set_page pPage d4 (us - hdr - childPtrSize pPage - 8) 0) [] us 0 [] /\ hdr_kept pPage (aData pPage) d4.
Proof.
  intros El Er Hu Hd K. destruct drop_bounds as (B1 & B2 & B3 & B4 & B5 & B6 & B7 & B8 & B9 & B10 & B11 & B12). pose proof K as [KL _].
  assert (HM : exists d2, memset d1 (hdr + 1) 0 4 = Some d2 /\ changed d1 (hdr + 1) 4 d2 /\
    forall i, hdr + 1 <= i < hdr + 5 -> fbyte d2 i = 0).
  { change (memset d1 (hdr + 1) 0 4) with (mwrite d1 (hdr + 1) [0; 0; 0; 0]).
    destruct (mwrite_stored d1 (hdr + 1) [0; 0; 0; 0]) as (d2 & E & S); [lia|change (alen [0; 0; 0; 0]) with 4; lia|].
    exists d2. split_and!; [done|apply stored_changed in S; [done|repeat constructor; lia]|]. destruct S as (_ & _ & S & _).
    intros i Hi. rewrite S by (change (alen [0; 0; 0; 0]) with 4; lia).
    assert (Hc : i - (hdr + 1) = 0 \/ i - (hdr + 1) = 1 \/ i - (hdr + 1) = 2 \/ i - (hdr + 1) = 3) by lia.
    destruct Hc as [-> |[-> |[-> | ->]]]; done. }
  destruct HM as (d2 & E2 & C2 & Z2). pose proof C2 as (L2 & U2 & F2).
  destruct (put1byte_ok d2 (hdr + 7) 0) as (d3 & E3 & C3 & W3); [lia|lia|unfold is_u8; lia|]. pose proof C3 as (L3 & U3 & F3).
  destruct (put2byte_ok d3 (hdr + 5) us) as (d4 & E4 & C4 & W4); [lia..|]. pose proof C4 as (L4 & U4 & F4).
  exists d2, d3, d4. split_and!; try done.
  - pose proof (pa_hdr _ _ _ _ _ _ Hpg). pose proof (pa_off _ _ _ _ _ _ Hpg).
    apply empty_page_at; try done; [change (us <= alen d4); lia|auto| | |].
    + intros i Hi. change (fbyte d4 i = 0). change (hdr + 1 <= i < hdr + 5) in Hi. rewrite F4, F3 by lia. by apply Z2.
    + change (fbyte d4 (hdr + 7) = 0). rewrite F4 by lia. done.
    + change (us - hdr - childPtrSize pPage - 8 = us - off). lia.
  - eapply hdr_kept_trans; [eapply kept_hdr; [exact K|lia]|].
    eapply hdr_kept_trans; [eapply hdr_kept_changed; [exact C2|lia|lia]|].
    eapply hdr_kept_trans; [eapply hdr_kept_changed; [exact C3|lia|lia]|]. eapply hdr_kept_changed; [exact C4|lia|lia].
Qed.

Lemma dropCell_ok : 480 <= us ->
  exists pPage', dropCell pBt pPage (alen l) (alen c) SQLITE_OK = Some (SQLITE_OK, pPage') /\
    page_now pBt pPage pPage' (map snd (l ++ r)) (nFree pPage + alen c + 2).
Proof.
  intros H480. destruct drop_bounds as (B1 & B2 & B3 & B4 & B5 & B6 & B7 & B8 & B9 & B10 & B11 & B12).
  pose proof (sp_u8 _ _ _ _ _ _ _ _ (pa_space _ _ _ _ _ _ Hpg)) as Hd. unfold dropCell.
  change (negb (SQLITE_OK =? SQLITE_OK)) with false. cbn match. rewrite get2byte_w16 by (done || lia). cbn [mbind option_bind].
  assert (Hw : w16 (aData pPage) (off + 2 * alen l) = o).
  { pose proof (pa_cells _ _ _ _ _ _ Hpg) as Hct. apply contents_app in Hct as [_ Hct].
    by apply (contents_app _ _ [(o, c)]) in Hct as [[? _]%contents_one _]. }
  rewrite Hw, (u32_id (o + alen c)) by (unfold is_u32; lia). rewrite (proj2 (Z.ltb_ge _ _)) by lia.
  unfold u16. rewrite (Z.mod_small o), (Z.mod_small (alen c)) by lia.
  destruct drop_free as (d1 & t1 & f1 & fb1 & -> & Hsp & K & Hc1 & Hc2). cbn [mbind option_bind].
  change (negb (SQLITE_OK =? SQLITE_OK)) with false. cbn match. 
  change (nCell (set_page pPage d1 (nFree pPage + alen c) (nCell pPage))) with (nCell pPage).
  rewrite B1. replace (alen l + alen r + 1 - 1) with (alen l + alen r) by lia. rewrite (Z.mod_small (alen l + alen r)) by lia.
  change (aData (set_page pPage d1 (nFree pPage + alen c) (alen l + alen r + 1))) with d1.
  destruct (Z.eqb_spec (alen l + alen r) 0) as [E0|E0].
  - assert (l = [] /\ r = []) as [El Er] by (split; apply length_zero_iff_nil; unfold alen in *; lia).
    destruct (drop_last d1 El Er H480) as (d2 & d3 & d4 & E2 & E3 & E4 & Hpg' & Hk); [apply Hsp| |].
    { destruct K as [KL K]. split; [done|]. intros i Hi. apply K. destruct Hi as [?|[?|[?|(x & Hx%elem_of_nil & _)]]]; auto; done. }
    rewrite E2. cbn [mbind option_bind]. rewrite E3. cbn [mbind option_bind]. rewrite E4. cbn [mbind option_bind].
    change (childPtrSize (set_page pPage d1 (nFree pPage + alen c) (alen l + alen r + 1))) with (childPtrSize pPage).
    pose proof (pa_off _ _ _ _ _ _ Hpg). pose proof (pa_hdr _ _ _ _ _ _ Hpg).
    rewrite (u32_id (us - hdr - childPtrSize pPage - 8)), i32_id by (unfold is_u32; lia). rewrite E0.
    eexists. split; [reflexivity|]. split_and!; try done.
    + exists [], us, 0, []. split; [by rewrite El, Er|exact Hpg'].
    + change (us - hdr - childPtrSize pPage - 8 = nFree pPage + alen c + 2).
      pose proof (pa_free _ _ _ _ _ _ Hpg) as HF. rewrite drop_total, El, Er in HF. change (total (regs ([] ++ []))) with 0 in HF. lia.
  - replace (2 * (alen l + alen r - alen l)) with (2 * alen r) by lia.
    destruct (drop_more d1 t1 f1 fb1) as (d2 & d3 & E2 & E3 & Hpg' & Hk); [lia|done..|].
    rewrite E2. cbn [mbind option_bind]. rewrite E3. cbn [mbind option_bind].
    eexists. split; [reflexivity|]. split_and!; try done. exists (l ++ r), t1, f1, fb1. split; [done|exact Hpg'].
Qed.
End DropCell.

(** ** The free space *)

Lemma free_sum_ok us data : Forall is_u8 data -> us <= alen data -> us <= 65536 ->
  forall fuel fbs b acc p lo, freelist data p (b :: fbs) -> ascending us lo (b :: fbs) -> 0 <= lo -> us - b.1 < Z.of_nat fuel ->
  exists pc size, pc + size <= us /\ 0 <= pc /\ 0 <= size /\
    free_sum fuel data (us - 4) b.1 acc = Some (Some (pc, size, 0, acc + total (b :: fbs))).
Proof.
  intros Hd Hu Hu'. induction fuel as [|fuel IH]; intros fbs b acc p lo Hf Ha Hlo Hfu.
  { destruct Ha as (? & ? & ? & _). lia. }
  pose proof Hf as [(_ & Hw & _) _]. pose proof Hf as [_ Hf']%(freelist_app _ _ [b]). cbn [lastp] in Hf'.
  destruct Ha as (A1 & A2 & A3 & A4). cbn [free_sum]. rewrite (proj2 (Z.ltb_ge (us - 4) b.1)) by lia.
  rewrite (get2byte_w16 data b.1), (freelist_head _ _ _ Hf'), (get2byte_w16 data (b.1 + 2)), Hw by (done || lia).
  cbn [mbind option_bind]. rewrite (u32_id (b.1 + b.2 + 3)) by (unfold is_u32; lia).
  destruct fbs as [|c fbs]; cbn [headp].
  - rewrite (proj2 (Z.leb_le 0 _)) by lia. exists b.1, b.2. split_and!; try lia. do 3 f_equal. cbn. lia.
  - pose proof A4 as (A5 & _). rewrite (proj2 (Z.leb_gt c.1 _)) by lia.
    destruct (IH fbs c (acc + b.2) b.1 (b.1 + b.2 + 3)) as (pc & size & H1 & H2 & H3 & ->); [done|done|lia|lia|].
    exists pc, size. split_and!; try done. do 3 f_equal. cbn. lia.
Qed.

Lemma computeFreeSpace_ok pBt pPage ls top frag fbs free : page_cells_at pBt pPage ls top frag fbs ->
  btreeComputeFreeSpace pBt (set_nFree pPage free) = Some (SQLITE_OK, pPage).
Proof.
  intros Hpg. destruct (page_bounds _ _ _ _ _ _ Hpg) as (B1 & B2 & B3 & B4 & B5 & B6 & B7 & B8 & B9 & B10).
  pose proof (pa_space _ _ _ _ _ _ Hpg) as Hsp. pose proof Hsp as [Hd _ _ _ Hf [Hfr _] Hl]. pose proof (la_asc _ _ _ _ _ Hl) as Ha.
  pose proof (page_free _ _ _ _ _ _ Hpg) as HF. pose proof (page_total _ _ _ _ _ _ Hpg) as [T1 T2].
  pose proof (cells_size_nonneg (map snd ls)). pose proof (la_total _ _ _ _ _ Hl) as HT.
  unfold btreeComputeFreeSpace.
  change (hdrOffset (set_nFree pPage free)) with (hdrOffset pPage). change (aData (set_nFree pPage free)) with (aData pPage).
  change (childPtrSize (set_nFree pPage free)) with (childPtrSize pPage). change (nCell (set_nFree pPage free)) with (nCell pPage).
  rewrite (space_top _ _ _ _ _ _ _ _ Hsp). cbn [mbind option_bind].
  rewrite (get2byte_w16 _ (hdrOffset pPage + 1)), (freelist_head _ _ _ Hf), aget_fbyte, Hfr by (done || lia). cbn [mbind option_bind].
  assert (Hgap : hdrOffset pPage + 8 + childPtrSize pPage + 2 * nCell pPage = gap_of pPage).
  { unfold gap_of. destruct (pa_off _ _ _ _ _ _ Hpg) as [-> _]. lia. }
  rewrite Hgap.
  assert (HS : (if 0 <? headp fbs then
      if headp fbs <? top then Some None
      else r ← free_sum (S (Z.to_nat (usableSize pBt))) (aData pPage) (usableSize pBt - 4) (headp fbs) (frag + top);
           Some (match r with
                 | Some (pc, size, next, free) =>
                     if 0 <? next then None else if usableSize pBt <? u32 (pc + size) then None else Some free
                 | None => None end)
    else Some (Some (frag + top))) = Some (Some (frag + top + total fbs))).
  { destruct fbs as [|b fbs]; cbn [headp]; [cbn; do 2 f_equal; lia|]. pose proof Ha as (A1 & _).
    rewrite (proj2 (Z.ltb_lt 0 b.1)), (proj2 (Z.ltb_ge b.1 top)) by lia.
    destruct (free_sum_ok _ _ Hd B5 B6 (S (Z.to_nat (usableSize pBt))) fbs b (frag + top) _ _ Hf Ha) as (pc & size & H1 & H2 & H3 & ->); [lia|lia|].
    cbn [mbind option_bind]. rewrite Z.ltb_irrefl, u32_id by (unfold is_u32; lia). rewrite (proj2 (Z.ltb_ge _ (pc + size))) by lia. done. }
  rewrite HS. cbn [mbind option_bind]. rewrite (proj2 (Z.ltb_ge (usableSize pBt) _)), (proj2 (Z.ltb_ge _ (gap_of pPage))) by lia. cbn [orb].
  do 2 f_equal. unfold u16. rewrite Z.mod_small by lia. replace (frag + top + total fbs - gap_of pPage) with (nFree pPage) by lia.
  by destruct pPage.
Qed.
