(* ===== verification/BtRefine.v ===== *)
(** * B-tree pages refine lists of cells

    The specification of a page as a list of cells with a bound on its size, and the
    theorems: every run of insertions, removals and defragmentations on a page that
    [zeroPage] set up does to the page what it does to the list, and what
    [defragmentPage] makes of the free space. *)
From S2P Require Import Prelude Varint Bytes FileIO BtBase BtCell BtPage BtLayout BtSpace BtRep BtDefrag BtSpec.

(** ** Initialisation *)

(** What [zeroPage] needs of a page buffer. *)
Definition raw_page (pBt : BtShared) (pPage : MemPage) : Prop :=
  (hdrOffset pPage = 0 \/ hdrOffset pPage = 100) /\ 480 <= usableSize pBt <= 65536 /\
  usableSize pBt <= alen (aData pPage) /\ Forall is_u8 (aData pPage) /\
  length (aiOvfl pPage) = 4%nat /\ length (apOvfl pPage) = 4%nat.

Definition page_flags (flags : Z) : Prop := flags = 2 \/ flags = 5 \/ flags = 10 \/ flags = 13.

Lemma memset_zero p off n : 0 <= off -> 0 <= n -> off + n <= alen p ->
  exists q, memset p off 0 n = Some q /\ changed p off n q /\ forall i, off <= i < off + n -> fbyte q i = 0.
Proof.
  intros H1 H2 H3. unfold memset. rewrite (proj2 (Z.leb_le 0 n)) by lia.
  destruct (mwrite_stored p off (replicate (Z.to_nat n) 0) H1) as (q & -> & Hq); [rewrite alen_replicate; lia|].
  exists q. split; [done|]. pose proof Hq as (_ & _ & HF & _). rewrite alen_replicate, Z2Nat.id in HF by lia.
  apply stored_changed in Hq; [|by apply Forall_replicate; unfold is_u8]. rewrite alen_replicate, Z2Nat.id in Hq by lia.
  split; [done|]. intros i Hi. rewrite HF by lia. unfold fbyte. rewrite aget_replicate by lia. done.
Qed.

Lemma zeroPage_ok pBt pPage flags : raw_page pBt pPage -> page_flags flags ->
  exists pPage', zeroPage (set_local_bounds pBt) pPage flags = Some pPage' /\
    page_rep (set_local_bounds pBt) pPage' [] /\ kind_ok pPage' /\ local_ok (set_local_bounds pBt) pPage' /\
    nOverflow pPage' = 0 /\ nFree pPage' = usableSize pBt - cellOffset pPage' /\
    fbyte (aData pPage') (hdrOffset pPage') = flags /\ raw_page pBt pPage'.
Proof.
  intros (Hh & Hu & HL & Hd & Hai & Hap) Hfl. unfold zeroPage.
  change (btsFlags (set_local_bounds pBt)) with (btsFlags pBt). change (usableSize (set_local_bounds pBt)) with (usableSize pBt).
  assert (H0 : exists d, (if negb (btsFlags pBt .& BTS_FAST_SECURE =? 0) then memset (aData pPage) (hdrOffset pPage) 0 (usableSize pBt - hdrOffset pPage)
    else Some (aData pPage)) = Some d /\ alen d = alen (aData pPage) /\ Forall is_u8 d).
  { destruct (negb _); [|by eexists]. destruct (memset_ok (aData pPage) (hdrOffset pPage) (usableSize pBt - hdrOffset pPage)) as (d & -> & (? & ? & _)); [lia..|]. eauto. }
  destruct H0 as (d0 & -> & L0 & U0). cbn [mbind option_bind].
  assert (Hf8 : is_u8 flags) by (unfold is_u8; destruct Hfl as [->|[->|[->| ->]]]; lia). rewrite u8_id by done.
  destruct (put1byte_ok d0 (hdrOffset pPage) flags) as (d1 & -> & C1 & W1); [lia|lia|done|]. cbn [mbind option_bind]. pose proof C1 as (L1 & U1 & F1).
  destruct (memset_zero d1 (hdrOffset pPage + 1) 4) as (d2 & -> & C2 & Z2); [lia..|]. cbn [mbind option_bind]. pose proof C2 as (L2 & U2 & F2).
  destruct (put1byte_ok d2 (hdrOffset pPage + 7) 0) as (d3 & -> & C3 & W3); [lia|lia|unfold is_u8; lia|]. cbn [mbind option_bind]. pose proof C3 as (L3 & U3 & F3).
  destruct (put2byte_ok d3 (hdrOffset pPage + 5) (usableSize pBt)) as (d4 & -> & C4 & W4); [lia..|]. cbn [mbind option_bind]. pose proof C4 as (L4 & U4 & F4).
  assert (HK : exists pg, decodeFlags (set_local_bounds pBt) pPage flags = (SQLITE_OK, pg) /\ hdrOffset pg = hdrOffset pPage /\
    aiOvfl pg = aiOvfl pPage /\ apOvfl pg = apOvfl pPage /\
    u16 (hdrOffset pPage + (if flags .& PTF_LEAF =? 0 then 12 else 8)) = hdrOffset pPage + 8 + childPtrSize pg /\ 0 <= childPtrSize pg <= 4).
  { destruct Hfl as [->|[->|[->| ->]]]; (eexists; split; [reflexivity|]); (split_and!; try done);
      destruct Hh as [-> | ->]; done. }
  destruct HK as (pg & Ek & E1 & E2 & E3 & E4 & E5). rewrite Ek. rewrite E4. eexists. split; [reflexivity|].
  apply decodeFlags_kind in Ek as [Hk Hl]; [|done].
  assert (Hx : u16 (usableSize pBt - (hdrOffset pPage + 8 + childPtrSize pg)) = usableSize pBt - (hdrOffset pPage + 8 + childPtrSize pg))
    by (unfold u16; apply Z.mod_small; lia).
  rewrite Hx. assert (HU : Forall is_u8 d4) by auto. set (us := usableSize pBt) in *.
  split_and!; try done; unfold set_init; cbn [hdrOffset cellOffset nFree aData childPtrSize aiOvfl apOvfl]; rewrite ?E1, ?E2, ?E3; try done; try lia.
  - exists [], us, 0, []. split; [done|].
    apply empty_page_at; cbn [hdrOffset cellOffset nFree aData childPtrSize nCell]; rewrite ?E1; try done; try lia.
    + change (us <= alen d4). lia.
    + intros i Hi. rewrite F4, F3 by lia. apply Z2. lia.
    + rewrite F4 by lia. done.
  - rewrite F4, F3, F2 by lia. done.
  - unfold raw_page. cbn [hdrOffset aData aiOvfl apOvfl]. split_and!; try done; lia.
Qed.

(** ** Specification *)

(** Operations of the B-tree layer on one page.  [pCell] is the memory the cell is
    copied from, which may go on after its [sz] bytes. *)
Inductive pageop : Type :=
  | PInsertFast (i : Z) (pCell : list Z) (sz : Z)
  | PInsert (i : Z) (pCell : list Z) (sz iChild : Z)
  | PDrop (i : Z) (sz : Z)
  | PDefragment (nMaxFrag : Z)
  | PRecompute.

Section Spec.
Context (bo : byteorder) (ptrmapPut : Z -> Z -> Z -> Z) (aDataEnd cellAddr : Z) (pBt : BtShared).

Definition page_step (pPage : MemPage) (op : pageop) : option (Z * MemPage) :=
  match op with
  | PInsertFast i pCell sz => insertCellFast bo ptrmapPut SQLITE_OK aDataEnd cellAddr pBt pPage i pCell sz
  | PInsert i pCell sz iChild => insertCell bo ptrmapPut SQLITE_OK aDataEnd cellAddr pBt pPage i pCell sz true iChild
  | PDrop i sz => dropCell pBt pPage i sz SQLITE_OK
  | PDefragment m => defragmentPage pBt pPage m
  | PRecompute => btreeComputeFreeSpace pBt (set_nFree pPage (-1))
  end.

Fixpoint page_run (pPage : MemPage) (ops : list pageop) : option (Z * MemPage) :=
  match ops with
  | [] => Some (SQLITE_OK, pPage)
  | op :: ops =>
      '(rc, pPage) ← page_step pPage op;
      if rc =? SQLITE_OK then page_run pPage ops else Some (rc, pPage)
  end.

(** The cell that an insertion with a child pointer puts on the page. *)
Definition child_cell (pCell : list Z) (sz iChild : Z) : list Z :=
  sqlite3Put4byte bo iChild ++ drop 4 (take (Z.to_nat sz) pCell).

Definition insert_at (i : Z) (c : list Z) (cs : list (list Z)) : list (list Z) :=
  take (Z.to_nat i) cs ++ c :: drop (Z.to_nat i) cs.

Definition cells_step (cs : list (list Z)) (op : pageop) : list (list Z) :=
  match op with
  | PInsertFast i pCell sz => insert_at i (take (Z.to_nat sz) pCell) cs
  | PInsert i pCell sz iChild => insert_at i (child_cell pCell sz iChild) cs
  | PDrop i _ => take (Z.to_nat i) cs ++ drop (Z.to_nat i + 1) cs
  | _ => cs
  end.

(** The bytes that cells and their pointers take. *)
Definition used (cs : list (list Z)) : Z := cells_size cs + 2 * alen cs.

(** A cell at the start of [pCell], with room for it on a page that holds [cs]. *)
Definition insertable (pPage : MemPage) (cs : list (list Z)) (i : Z) (pCell : list Z) (sz : Z) : Prop :=
  0 <= i <= alen cs /\ 0 <= sz <= alen pCell /\ cell_ok pBt pPage (take (Z.to_nat sz) pCell) /\
  used cs + sz + 2 <= usableSize pBt - cellOffset pPage /\
  (autoVacuum pBt = false \/
   ptrmapPutOvflPtr bo ptrmapPut aDataEnd cellAddr pBt pPage pCell SQLITE_OK = Some SQLITE_OK).

Definition legal (pPage : MemPage) (cs : list (list Z)) (op : pageop) : Prop :=
  match op with
  | PInsertFast i pCell sz => insertable pPage cs i pCell sz
  | PInsert i pCell sz iChild => leaf pPage = 0 /\ is_u32 iChild /\ insertable pPage cs i pCell sz
  | PDrop i sz => exists c, aget cs i = Some c /\ sz = alen c
  | _ => True
  end.

Fixpoint legal_run (pPage : MemPage) (cs : list (list Z)) (ops : list pageop) : Prop :=
  match ops with
  | [] => True
  | op :: ops => legal pPage cs op /\ legal_run pPage (cells_step cs op) ops
  end.

Definition cells_run (cs : list (list Z)) (ops : list pageop) : list (list Z) := fold_left cells_step ops cs.
End Spec.

(** ** Cells with a child pointer *)

Lemma skip_loop_ext fuel : forall p q i e, (forall j, i <= j -> aget p j = aget q j) ->
  skip_loop fuel p i e = skip_loop fuel q i e.
Proof.
  induction fuel as [|fuel IH]; intros p q i e H; [done|]. rewrite !skip_loop_S, H by lia.
  destruct (aget q i); [|done]. cbn [mbind option_bind]. case_match; [|done]. apply IH. intros; apply H; lia.
Qed.

Lemma child_cellSize pBt pPage c ch : kind_ok pPage -> leaf pPage = 0 -> alen ch = 4 -> 4 <= alen c ->
  cellSize pBt pPage (ch ++ drop 4 c) = cellSize pBt pPage c.
Proof.
  intros Hk Hlf Hch Hc.
  assert (Hsp : c = take 4 c ++ drop 4 c) by by rewrite take_drop.
  assert (H4 : alen (take 4 c) = 4) by (apply (alen_take c 4); lia).
  unfold kind_ok in Hk. unfold cellSize.
  destruct (xCellSize pPage), (xParseCell pPage); try done; try (destruct Hk; lia).
  - unfold cellSizePtr. assert (E : mfrom (ch ++ drop 4 c) 4 = mfrom c 4); [|by rewrite E]. unfold mfrom. rewrite alen_app, Hch. pose proof (alen_nonneg (drop 4 c)).
    rewrite !(proj2 (Z.leb_le _ _)) by lia. cbn [andb]. f_equal. change (Z.to_nat 4) with 4%nat.
    rewrite drop_app_ge by (unfold alen in Hch; lia). replace (4 - length ch)%nat with 0%nat by (unfold alen in Hch; lia). done.
  - unfold cellSizePtrNoPayload. rewrite (skip_loop_ext 9 _ c); [done|]. intros j Hj. rewrite aget_app_r by lia.
    rewrite Hsp at 2. rewrite aget_app_r by lia. f_equal. lia.
Qed.

Lemma put4byte_len bo v : alen (sqlite3Put4byte bo v) = 4.
Proof. by destruct bo. Qed.

Lemma put4byte_u8 bo v : is_u32 v -> Forall is_u8 (sqlite3Put4byte bo v).
Proof. intros H. rewrite put4byte_be by done. apply store32_bytes. Qed.

(** The two stores of [insertCell] together. *)
Lemma stored_two d idx a b d1 d2 : bytes_stored d (idx + alen a) b d1 -> bytes_stored d1 idx a d2 -> bytes_stored d idx (a ++ b) d2.
Proof.
  intros (L1 & U1 & S1 & F1) (L2 & U2 & S2 & F2). pose proof (alen_nonneg a). pose proof (alen_nonneg b). split_and!.
  - lia.
  - intros Hd [Ha Hb]%Forall_app. auto.
  - rewrite alen_app. intros i Hi. destruct (Z.lt_ge_cases i (idx + alen a)).
    + rewrite S2, fbyte_app_l by lia. done.
    + rewrite F2, S1, fbyte_app_r by lia. f_equal. lia.
  - rewrite alen_app. intros i Hi. rewrite F2, F1 by lia. done.
Qed.

Lemma fread_take p n : 0 <= n <= alen p -> fread p 0 n = take (Z.to_nat n) p.
Proof.
  intros H. apply list_fbyte_eq; [rewrite alen_fread, alen_take by lia; done|]. rewrite alen_fread by lia.
  intros i Hi. rewrite fbyte_fread, fbyte_take by lia. done.
Qed.

Lemma fread_drop4 p n : 4 <= n <= alen p -> fread p 4 (n - 4) = drop 4 (take (Z.to_nat n) p).
Proof.
  intros H. assert (HL : alen (drop 4 (take (Z.to_nat n) p)) = n - 4).
  { pose proof (alen_take p n ltac:(lia)) as Ht. unfold alen in *. rewrite length_drop. lia. }
  apply list_fbyte_eq; [rewrite alen_fread, HL by lia; done|]. rewrite alen_fread by lia.
  intros i Hi. rewrite fbyte_fread by lia. change 4%nat with (Z.to_nat 4). rewrite fbyte_drop, fbyte_take by lia. done.
Qed.

(** ** One step *)

Lemma rep_free pBt pPage cs : page_rep pBt pPage cs ->
  nFree pPage = usableSize pBt - cellOffset pPage - used cs /\ nCell pPage = alen cs.
Proof.
  intros (ls & top & frag & fbs & <- & Hpg). rewrite (pa_free _ _ _ _ _ _ Hpg), total_regs.
  destruct (pa_count _ _ _ _ _ _ Hpg) as [Hc _]. unfold gap_of, used. rewrite Hc. unfold alen. rewrite length_map. lia.
Qed.

Section Steps.
Context (bo : byteorder) (ptrmapPut : Z -> Z -> Z -> Z) (aDataEnd cellAddr : Z) (pBt : BtShared).
Abbreviation insertable := (insertable bo ptrmapPut aDataEnd cellAddr pBt).

(** A page between operations: no cell is waiting for a place. *)
Definition page_ready (pPage : MemPage) (cs : list (list Z)) : Prop :=
  page_rep pBt pPage cs /\ kind_ok pPage /\ local_ok pBt pPage /\ nOverflow pPage = 0.

Lemma page_now_ready pPage pPage' cs cs' free : page_ready pPage cs -> page_now pBt pPage pPage' cs' free ->
  page_ready pPage' cs' /\ forall c, cell_ok pBt pPage' c <-> cell_ok pBt pPage c.
Proof. intros (_ & Hk & Hl & Hn) (Hr & _ & _ & E). split; [split_and!; [done|rewrite E; done..]|rewrite E; done]. Qed.

(** The common part of the two insertions, for a cell [c] that is written from [pCell]. *)
Lemma insert_ready pPage cs i pCell sz c : page_ready pPage cs -> insertable pPage cs i pCell sz -> cell_ok pBt pPage c -> alen c = sz ->
  exists idx d, allocateSpace pBt pPage sz = Some (SQLITE_OK, idx, set_aData pPage d) /\
    0 <= idx /\ Forall is_u8 d /\ idx + sz <= alen d /\ 4 <= sz /\
    forall d2, bytes_stored d idx c d2 -> exists pPage',
      insert_pointer bo ptrmapPut aDataEnd cellAddr pBt (set_aData pPage d) d2 i idx sz pCell = Some (SQLITE_OK, pPage') /\
      page_now pBt pPage pPage' (insert_at i c cs) (nFree pPage - (2 + sz)).
Proof.
  intros (Hrep & Hk & Hl & _) (Hi & Hsz & _ & Hroom & Hav) Hc <-. destruct (rep_free _ _ _ Hrep) as [HF _].
  destruct Hrep as (ls & top & frag & fbs & <- & Hpg). destruct Hc as [Hcu Hcs].
  pose proof (cellSize_range pBt pPage Hl c _ Hcu Hcs) as HR.
  destruct (insert_written bo ptrmapPut aDataEnd cellAddr pBt pPage i c pCell ls top frag fbs Hpg) as (idx & d & E & H1 & H2 & H3 & H4).
  - unfold alen in *. rewrite length_map in Hi. done.
  - done.
  - lia.
  - lia.
  - done.
  - exists idx, d. split_and!; try done. lia.
Qed.

Lemma fast_step pPage cs i pCell sz : page_ready pPage cs -> insertable pPage cs i pCell sz ->
  exists pPage', insertCellFast bo ptrmapPut SQLITE_OK aDataEnd cellAddr pBt pPage i pCell sz = Some (SQLITE_OK, pPage') /\
    page_now pBt pPage pPage' (insert_at i (take (Z.to_nat sz) pCell) cs) (nFree pPage - (2 + sz)).
Proof.
  intros Hr Hin. pose proof Hin as (Hi & Hsz & Hc & Hroom & _). pose proof Hr as (Hrep & _).
  destruct (rep_free _ _ _ Hrep) as [HF _].
  destruct (insert_ready pPage cs i pCell sz (take (Z.to_nat sz) pCell) Hr Hin Hc) as (idx & d & E & H1 & H2 & H3 & H4 & HW); [by apply alen_take|].
  unfold insertCellFast. rewrite (proj2 (Z.ltb_ge _ _)) by lia. change (negb (SQLITE_OK =? SQLITE_OK)) with false. cbn match.
  rewrite E. cbn [mbind option_bind]. change (negb (SQLITE_OK =? SQLITE_OK)) with false. cbn match.
  rewrite mread_ok, fread_take by lia. cbn [mbind option_bind]. change (aData (set_aData pPage d)) with d.
  destruct (mwrite_stored d idx (take (Z.to_nat sz) pCell)) as (d2 & -> & S2); [lia|rewrite alen_take; lia|]. cbn [mbind option_bind].
  by apply HW.
Qed.

Lemma child_step pPage cs i pCell sz iChild : page_ready pPage cs -> insertable pPage cs i pCell sz -> leaf pPage = 0 -> is_u32 iChild ->
  exists pPage', insertCell bo ptrmapPut SQLITE_OK aDataEnd cellAddr pBt pPage i pCell sz true iChild = Some (SQLITE_OK, pPage') /\
    page_now pBt pPage pPage' (insert_at i (child_cell bo pCell sz iChild) cs) (nFree pPage - (2 + sz)).
Proof.
  intros Hr Hin Hlf Hch. pose proof Hin as (Hi & Hsz & Hc & Hroom & _). pose proof Hr as (Hrep & Hk & Hl & Hov).
  destruct (rep_free _ _ _ Hrep) as [HF _]. pose proof (alen_take pCell sz Hsz) as Hln.
  pose proof (cellSize_range pBt pPage Hl _ _ (proj1 Hc) (proj2 Hc)) as HR. rewrite Hln in HR.
  pose proof (put4byte_len bo iChild) as H4. pose proof (put4byte_u8 bo iChild Hch) as Hu4.
  assert (HL : alen (child_cell bo pCell sz iChild) = sz).
  { unfold child_cell. rewrite alen_app, H4, <- fread_drop4, alen_fread by lia. lia. }
  assert (Hcc : cell_ok pBt pPage (child_cell bo pCell sz iChild)).
  { split; [unfold child_cell; apply Forall_app; split; [done|apply Forall_drop, Hc]|]. rewrite HL.
    unfold child_cell. rewrite child_cellSize by (done || lia). destruct Hc as [_ ->]. by rewrite Hln. }
  destruct (insert_ready pPage cs i pCell sz _ Hr Hin Hcc HL) as (idx & d & E & H1 & H2 & H3 & H5 & HW).
  unfold insertCell. rewrite Hov. change (negb (0 =? 0)) with false. cbn [orb]. rewrite (proj2 (Z.ltb_ge _ _)) by lia.
  change (negb (SQLITE_OK =? SQLITE_OK)) with false. cbn match.
  rewrite E. cbn [mbind option_bind]. change (negb (SQLITE_OK =? SQLITE_OK)) with false. cbn match.
  rewrite mread_ok, fread_drop4 by lia. cbn [mbind option_bind]. change (aData (set_aData pPage d)) with d.
  assert (HLd : alen (drop 4 (take (Z.to_nat sz) pCell)) = sz - 4) by (rewrite <- fread_drop4, alen_fread by lia; done).
  destruct (mwrite_stored d (idx + 4) (drop 4 (take (Z.to_nat sz) pCell))) as (d1 & -> & S1); [lia|lia|]. cbn [mbind option_bind].
  pose proof S1 as (L1 & _). destruct (mwrite_stored d1 idx (sqlite3Put4byte bo iChild)) as (d2 & -> & S2); [lia|lia|]. cbn [mbind option_bind].
  apply HW. unfold child_cell. eapply stored_two; [|exact S2]. by rewrite H4.
Qed.
End Steps.

Section Runs.
Context (bo : byteorder) (ptrmapPut : Z -> Z -> Z -> Z) (aDataEnd cellAddr : Z) (pBt : BtShared).
Abbreviation page_step := (page_step bo ptrmapPut aDataEnd cellAddr pBt).
Abbreviation page_run := (page_run bo ptrmapPut aDataEnd cellAddr pBt).
Abbreviation legal := (legal bo ptrmapPut aDataEnd cellAddr pBt).
Abbreviation legal_run := (legal_run bo ptrmapPut aDataEnd cellAddr pBt).
Abbreviation cells_step := (cells_step bo).
Abbreviation cells_run := (cells_run bo).

(** The page after a step, with its header as it was. *)
Definition page_after (pPage pPage' : MemPage) (cs : list (list Z)) : Prop :=
  page_ready pBt pPage' cs /\ hdr_kept pPage (aData pPage) (aData pPage') /\
  pPage' = set_page pPage (aData pPage') (nFree pPage') (nCell pPage').

Lemma drop_step pPage cs i sz c : page_ready pBt pPage cs -> aget cs i = Some c -> sz = alen c ->
  exists pPage', dropCell pBt pPage i sz SQLITE_OK = Some (SQLITE_OK, pPage') /\
    page_now pBt pPage pPage' (take (Z.to_nat i) cs ++ drop (Z.to_nat i + 1) cs) (nFree pPage + sz + 2).
Proof.
  intros ((ls & top & frag & fbs & <- & Hpg) & _ & (Hu & _) & _) Hc ->.
  pose proof (aget_range _ _ _ Hc) as Hr. unfold aget in Hc. rewrite (proj2 (Z.leb_le 0 i)) in Hc by lia.
  change (map snd ls) with (snd <$> ls) in *. rewrite list_lookup_fmap in Hc.
  destruct (ls !! Z.to_nat i) as [[o c']|] eqn:E; [|done]. cbn in Hc. injection Hc as ->.
  pose proof (take_drop_middle _ _ _ E) as Es. rewrite <- Es in Hpg.
  assert (Hl : alen (take (Z.to_nat i) ls) = i).
  { apply alen_take. unfold alen in *. rewrite length_fmap in Hr. lia. }
  destruct (dropCell_ok pBt pPage _ _ _ _ _ _ _ Hpg) as (pPage' & H1 & H2); [lia|]. rewrite Hl in H1.
  exists pPage'. split; [done|]. rewrite <- fmap_take, <- fmap_drop, <- fmap_app, Nat.add_1_r. done.
Qed.

Lemma step_now pPage cs op : page_ready pBt pPage cs -> legal pPage cs op ->
  exists pPage' free, page_step pPage op = Some (SQLITE_OK, pPage') /\ page_now pBt pPage pPage' (cells_step cs op) free.
Proof.
  intros Hr Hl. destruct op as [i pCell sz|i pCell sz iChild|i sz|m|]; cbn [BtRefine.legal BtRefine.page_step BtRefine.cells_step] in *.
  - destruct (fast_step _ _ _ _ _ _ _ _ _ _ Hr Hl) as (p & ? & ?). eauto.
  - destruct Hl as (Hlf & Hch & Hl). destruct (child_step _ _ _ _ _ _ _ _ _ _ iChild Hr Hl Hlf Hch) as (p & ? & ?). eauto.
  - destruct Hl as (c & Hc & Hsz). destruct (drop_step _ _ _ _ _ Hr Hc Hsz) as (p & ? & ?). eauto.
  - destruct Hr as ((ls & top & frag & fbs & <- & Hpg) & _).
    destruct (defragmentPage_ok _ _ _ _ _ _ m Hpg) as (d' & ls' & t' & f' & E & Hm & Hpg' & _ & Hk).
    exists (set_aData pPage d'), (nFree pPage). split; [done|]. split_and!; try done. by exists ls', t', f', [].
  - destruct Hr as ((ls & top & frag & fbs & <- & Hpg) & _). exists pPage, (nFree pPage).
    rewrite (computeFreeSpace_ok _ _ _ _ _ _ _ Hpg). split; [done|]. split_and!; [by exists ls, top, frag, fbs|done|done|by destruct pPage].
Qed.

Lemma legal_same pPage pPage' cs op d f n : pPage' = set_page pPage d f n -> legal pPage cs op <-> legal pPage' cs op.
Proof. intros ->. by destruct op. Qed.

Lemma legal_run_same pPage pPage' ops d f n : pPage' = set_page pPage d f n -> forall cs,
  legal_run pPage cs ops <-> legal_run pPage' cs ops.
Proof.
  intros E. induction ops as [|op ops IH]; intros cs; cbn [BtRefine.legal_run]; [done|].
  rewrite (legal_same _ _ _ _ _ _ _ E), IH. done.
Qed.

Lemma run_after pPage cs ops : page_ready pBt pPage cs -> legal_run pPage cs ops ->
  exists pPage', page_run pPage ops = Some (SQLITE_OK, pPage') /\ page_after pPage pPage' (cells_run cs ops).
Proof.
  revert pPage cs. induction ops as [|op ops IH]; intros pPage cs Hr Hl; cbn [BtRefine.page_run].
  - exists pPage. split; [done|]. split_and!; [done|done|by destruct pPage].
  - destruct Hl as [Hl1 Hl2]. destruct (step_now pPage cs op Hr Hl1) as (p1 & free & -> & Hnow). cbn [mbind option_bind].
    change (SQLITE_OK =? SQLITE_OK) with true. cbn match.
    destruct (page_now_ready _ _ _ _ _ _ Hr Hnow) as [Hr1 _]. destruct Hnow as (_ & _ & Hk1 & E1).
    destruct (IH p1 (cells_step cs op) Hr1) as (p2 & E2 & Hr2 & Hk2 & E3); [by apply (legal_run_same _ _ _ _ _ _ E1)|].
    exists p2. split; [done|]. split_and!; [done| |].
    + assert (hdrOffset p1 = hdrOffset pPage /\ cellOffset p1 = cellOffset pPage) as [Ea Eb] by (rewrite E1; done).
      destruct Hk1 as [L1 K1], Hk2 as [L2 K2]. split; [lia|]. intros i Hi. rewrite K2, K1 by (rewrite ?Ea, ?Eb; done). done.
    + rewrite E3, E1. done.
Qed.
End Runs.

(** ** Properties *)

(** C9. From any buffer that [zeroPage] sets up as a B-tree page of one of the four
    kinds, every sequence of insertions with and without a child pointer, removals,
    defragmentations and recomputations of the free space, in which every new cell
    fits, succeeds: the page then holds exactly the cells of the list on which the
    same operations were done, byte by byte and in order, its count of free bytes is
    exact, its flags are unchanged, and no step reads or writes outside of the page. *)
Theorem btreePage_refines_cells bo ptrmapPut aDataEnd cellAddr pBt pPage0 flags ops :
  raw_page pBt pPage0 -> page_flags flags ->
  exists pPage, zeroPage (set_local_bounds pBt) pPage0 flags = Some pPage /\
  (legal_run bo ptrmapPut aDataEnd cellAddr (set_local_bounds pBt) pPage [] ops ->
   exists pPage', page_run bo ptrmapPut aDataEnd cellAddr (set_local_bounds pBt) pPage ops = Some (SQLITE_OK, pPage') /\
     let cs := cells_run bo [] ops in
     nCell pPage' = alen cs /\
     nFree pPage' = usableSize pBt - cellOffset pPage' - used cs /\
     fbyte (aData pPage') (hdrOffset pPage') = flags /\
     forall i c, cs !! i = Some c ->
       let o := w16 (aData pPage') (cellOffset pPage' + 2 * Z.of_nat i) in
       cellOffset pPage' + 2 * alen cs <= o /\ o + alen c <= usableSize pBt /\ fread (aData pPage') o (alen c) = c).
Proof.
  intros Hraw Hfl. destruct (zeroPage_ok pBt pPage0 flags Hraw Hfl) as (pPage & E & Hrep & Hk & Hl & Hov & _ & Hflag & Hraw').
  exists pPage. split; [done|]. intros Hlr.
  destruct (run_after bo ptrmapPut aDataEnd cellAddr (set_local_bounds pBt) pPage [] ops) as (p & E' & (Hrep' & _) & [_ Hkept] & Ep); [by split_and!|done|].
  exists p. split; [done|]. set (cs := cells_run bo [] ops) in *. cbn zeta.
  assert (hdrOffset p = hdrOffset pPage) as Eh by (rewrite Ep; done).
  destruct (rep_free _ _ _ Hrep') as [HF Hn]. split_and!; [done|done|rewrite Eh, Hkept by lia; done|].
  intros i c Hi. destruct Hrep' as (ls & top & frag & fbs & Em & Hpg).
  change (map snd ls) with (snd <$> ls) in Em. rewrite <- Em, list_lookup_fmap in Hi.
  destruct (ls !! i) as [q|] eqn:Eq; [|done]. cbn in Hi. injection Hi as <-.
  destruct (pa_cells _ _ _ _ _ _ Hpg i q Eq) as [-> Hc].
  pose proof (page_cells _ _ _ _ _ _ Hpg) as Hcs. rewrite Forall_forall in Hcs.
  destruct (Hcs q ltac:(by eapply list_elem_of_lookup_2)) as (_ & ? & ? & Hle).
  destruct (page_bounds _ _ _ _ _ _ Hpg) as (B1 & B2 & B3 & B4 & _ & _ & _ & _ & B9 & _).
  change (usableSize (set_local_bounds pBt)) with (usableSize pBt) in *. rewrite <- Hn, B9. split_and!; [lia|lia|done].
Qed.

(** Two cells are inserted into a table leaf, the first one is removed, the page is
    defragmented. *)
Definition example_start : list pageop :=
  [PInsertFast 0 [3; 1; 10; 20; 30] 5; PInsertFast 1 [2; 2; 7; 8] 4; PDrop 0 5].
Definition example_ops : list pageop := example_start ++ [PDefragment 0].

Lemma example_legal pPage : zeroPage (set_local_bounds bt512) (fresh_page 2 (replicate 512 0)) 13 = Some pPage ->
  legal_run BO_4321 (fun _ _ _ => SQLITE_OK) 0 0 (set_local_bounds bt512) pPage [] example_start.
Proof.
  intros E. vm_compute in E. injection E as <-.
  split; [|split; [|split; [by eexists|done]]]; unfold legal, insertable;
    (split_and!; try (vm_compute; discriminate); try done; [|by left]);
    (split; [repeat constructor; unfold is_u8; lia|vm_compute; reflexivity]).
Qed.

Lemma example_raw : raw_page bt512 (fresh_page 2 (replicate 512 0)).
Proof. split_and!; try (vm_compute; discriminate); try done; [by left|]. apply Forall_replicate. unfold is_u8. lia. Qed.

Lemma btreePage_refines_cells_witness :
  exists pPage pPage', zeroPage (set_local_bounds bt512) (fresh_page 2 (replicate 512 0)) 13 = Some pPage /\
    page_run BO_4321 (fun _ _ _ => SQLITE_OK) 0 0 (set_local_bounds bt512) pPage example_ops = Some (SQLITE_OK, pPage') /\
    nCell pPage' = 1 /\ nFree pPage' = 512 - cellOffset pPage' - 6.
Proof.
  destruct (btreePage_refines_cells BO_4321 (fun _ _ _ => SQLITE_OK) 0 0 bt512 (fresh_page 2 (replicate 512 0)) 13 example_ops)
    as (pPage & E & H).
  - apply example_raw.
  - by right; right; right.
  - exists pPage. destruct H as (pPage' & H1 & H2 & H3 & _).
    + destruct (example_legal pPage E) as (La & Lb & Lc & _). exact (conj La (conj Lb (conj Lc (conj I I)))).
    + exists pPage'. split_and!; [done|exact H1|exact H2|exact H3].
Defined.

(** C13. On every well-formed page, [defragmentPage] succeeds and leaves the same cells in
    the same order; afterwards there is no freeblock, the number of fragmented bytes is
    zero or at most the bound that was given, and the gap between the cell pointers and
    the content area has all the other free bytes.  The count of free bytes, the bytes
    before the page header, the flags and the rightmost child are as they were. *)
Theorem defragmentPage_compacts pBt pPage cs nMaxFrag : page_rep pBt pPage cs ->
  exists pPage', defragmentPage pBt pPage nMaxFrag = Some (SQLITE_OK, pPage') /\ page_rep pBt pPage' cs /\
    w16 (aData pPage') (hdrOffset pPage + 1) = 0 /\
    (fbyte (aData pPage') (hdrOffset pPage + 7) = 0 \/ fbyte (aData pPage') (hdrOffset pPage + 7) <= nMaxFrag) /\
    (exists top, get2byteNotZero (aData pPage') (hdrOffset pPage + 5) = Some top /\
       top - (cellOffset pPage + 2 * nCell pPage) + fbyte (aData pPage') (hdrOffset pPage + 7) = nFree pPage) /\
    nFree pPage' = nFree pPage /\ hdr_kept pPage (aData pPage) (aData pPage').
Proof.
  intros (ls & top & frag & fbs & <- & Hpg).
  destruct (defragmentPage_ok _ _ _ _ _ _ nMaxFrag Hpg) as (d & ls' & top' & frag' & E & Hm & Hpg' & Hfr & Hk).
  pose proof (pa_space _ _ _ _ _ _ Hpg') as Hsp. destruct (sp_frag _ _ _ _ _ _ _ _ Hsp) as [Hf _].
  pose proof (page_free _ _ _ _ _ _ Hpg') as HF.
  change (hdrOffset (set_aData pPage d)) with (hdrOffset pPage) in *. change (aData (set_aData pPage d)) with d in *.
  exists (set_aData pPage d). change (aData (set_aData pPage d)) with d. rewrite Hf. split_and!; try done.
  - by exists ls', top', frag', [].
  - apply (freelist_head _ _ _ (sp_free _ _ _ _ _ _ _ _ Hsp)).
  - exists top'. split; [exact (space_top _ _ _ _ _ _ _ _ Hsp)|].
    change (nFree pPage = top' - (cellOffset pPage + 2 * nCell pPage) + 0 + frag') in HF. lia.
Qed.

(** The page of the example before the last step: two runs of free bytes, one of them
    a freeblock, become one gap. *)
Lemma defragmentPage_compacts_witness :
  exists pPage pPage', page_rep (set_local_bounds bt512) pPage [[2; 2; 7; 8]] /\
    defragmentPage (set_local_bounds bt512) pPage 0 = Some (SQLITE_OK, pPage') /\
    w16 (aData pPage') (hdrOffset pPage + 1) = 0 /\ page_rep (set_local_bounds bt512) pPage' [[2; 2; 7; 8]].
Proof.
  destruct (zeroPage_ok bt512 (fresh_page 2 (replicate 512 0)) 13 example_raw) as (p0 & E & Hrep & Hk & Hl & Hov & _);
    [by right; right; right|].
  destruct (run_after BO_4321 (fun _ _ _ => SQLITE_OK) 0 0 (set_local_bounds bt512) p0 [] example_start)
    as (pPage & _ & (Hr & _) & _); [by split_and!|by apply example_legal|].
  change (page_rep (set_local_bounds bt512) pPage [[2; 2; 7; 8]]) in Hr.
  destruct (defragmentPage_compacts (set_local_bounds bt512) pPage [[2; 2; 7; 8]] 0 Hr) as (p & H1 & H2 & H3 & _).
  exists pPage, p. split_and!; assumption.
Defined.
