(* ===== verification/BtSafe.v ===== *)
(** * Safety on page images that are not well formed

    A page read from a file can hold any bytes.  The routines that follow and change
    the list of freeblocks end and stay inside of the usable part of the page whatever
    the list looks like. *)
From S2P Require Import Prelude FileIO BtBase BtCell BtPage BtLayout BtSpace.

(** An image of the same size, with the reserved bytes at its end as they were. *)
Definition inside (us : Z) (d d' : list Z) : Prop :=
  alen d' = alen d /\ Forall is_u8 d' /\ forall i, us <= i -> fbyte d' i = fbyte d i.

Lemma inside_trans us a b c : inside us a b -> inside us b c -> inside us a c.
Proof. intros (L1 & U1 & F1) (L2 & U2 & F2). split_and!; [lia|done|]. intros i Hi. by rewrite F2, F1. Qed.

Lemma changed_inside us d off n d' : Forall is_u8 d -> changed d off n d' -> off + n <= us -> inside us d d'.
Proof. intros Hd (L & U & F) Hn. split_and!; [done|auto|]. intros i Hi. apply F. lia. Qed.

(** Return codes of these routines. *)
Definition ok_or_corrupt (rc : Z) : Prop := rc = SQLITE_OK \/ rc = SQLITE_CORRUPT.

Section Safety.
Context (pBt : BtShared) (pPage : MemPage).
Abbreviation us := (usableSize pBt).
Abbreviation hdr := (hdrOffset pPage).
Context (Hu : 480 <= us <= 65536) (Hh : hdr = 0 \/ hdr = 100).

Lemma put2_inside d i v : Forall is_u8 d -> us <= alen d -> 0 <= i -> i + 2 <= us ->
  exists d', put2byte d i v = Some d' /\ inside us d d'.
Proof.
  intros Hd HL H1 H2. destruct (put2byte_ok d i v) as (d' & E & C & _); [lia..|]. exists d'.
  split; [done|]. eapply changed_inside; [done|exact C|lia].
Qed.

Lemma put1_inside d i v : Forall is_u8 d -> us <= alen d -> 0 <= i < us -> is_u8 v ->
  exists d', put1byte d i v = Some d' /\ inside us d d'.
Proof.
  intros Hd HL H1 Hv. destruct (put1byte_ok d i v) as (d' & E & C & _); [lia..|done|]. exists d'.
  split; [done|]. eapply changed_inside; [done|exact C|lia].
Qed.

Lemma get2_range d i : Forall is_u8 d -> 0 <= i -> i + 2 <= alen d -> exists v, get2byte d i = Some v /\ 0 <= v < 65536.
Proof. intros Hd H1 H2. rewrite get2byte_w16 by done. eexists. split; [done|]. by apply w16_range. Qed.

(** The search for a place in the list. *)
Lemma free_search_safe d s : Forall is_u8 d -> us <= alen d -> 0 <= s <= us - 4 ->
  forall fuel p, 0 <= p -> p + 2 <= us -> s - p < Z.of_nat fuel -> (0 < fuel)%nat ->
  exists r, free_search fuel d s p = Some r /\
    match r with Some (q, f) => 0 <= q /\ (q = p \/ p < q < s) /\ 0 <= f < 65536 | None => True end.
Proof.
  intros Hd HL Hs. induction fuel as [|fuel IH]; intros p Hp Hp2 Hf Hf0; [lia|]. cbn [free_search].
  destruct (get2_range d p) as (f & -> & Hfr); [done|lia|lia|]. cbn [mbind option_bind].
  destruct (Z.ltb_spec f s); [|eexists; split; [done|]; cbn; lia].
  destruct (Z.leb_spec f p); [eexists; split; [done|]; destruct (f =? 0); cbn; [lia|done]|].
  destruct (IH f) as (r & -> & Hr); [lia..|]. exists r. split; [done|]. destruct r as [[q g]|]; [lia|done].
Qed.

Lemma coalesce_next_safe d s n e f : Forall is_u8 d -> us <= alen d -> 0 <= s -> 4 <= n -> s + n <= us -> e = s + n ->
  0 <= f <= us - 4 ->
  exists r, coalesce_next pBt d s n e f = Some r /\
    match r with Some (g, e', n', f') => is_u8 g /\ s <= e' <= us /\ 0 <= n' /\ s + n' <= us | None => True end.
Proof.
  intros Hd HL Hs Hn Hsn -> Hf. unfold coalesce_next. destruct (negb (f =? 0) && (f <=? u32 (s + n + 3))).
  - destruct (Z.ltb_spec f (s + n)); [by eexists|]. destruct (get2_range d (f + 2)) as (z & -> & Hz); [done|lia|lia|].
    cbn [mbind option_bind]. rewrite (u32_id (f + z)) by (unfold is_u32; lia). destruct (Z.ltb_spec us (f + z)); [by eexists|].
    destruct (get2_range d f) as (x & -> & Hx); [done|lia|lia|]. cbn [mbind option_bind]. eexists. split; [done|].
    pose proof (u16_range (f + z - s)). unfold is_u16 in *. split_and!; try lia; try apply u8_range.
    assert (u16 (f + z - s) <= f + z - s) by (unfold u16; apply Z.mod_le; lia). lia.
  - eexists. split; [done|]. split_and!; try lia; unfold is_u8; lia.
Qed.

Lemma coalesce_prev_safe d p s n e g : Forall is_u8 d -> us <= alen d -> 0 <= p -> p = hdr + 1 \/ p < s -> 0 <= s -> s + 4 <= us ->
  is_u8 g -> s <= e <= us -> 0 <= n -> s + n <= us -> 
  exists r, coalesce_prev hdr d p s n e g = Some r /\
    match r with Some (g', s', n') => is_u8 g' /\ (s' = s \/ s' = p) /\ 0 <= n' /\ s' + n' <= us | None => True end.
Proof.
  intros Hd HL Hp Hp4 Hs Hs4 Hg He Hn Hsn. unfold coalesce_prev. destruct (Z.ltb_spec (hdr + 1) p); [|eexists; split; [done|]; split_and!; auto].
  destruct (get2_range d (p + 2)) as (z & -> & Hz); [done|lia|lia|]. cbn [mbind option_bind].
  destruct (Z.leb_spec s (p + z + 3)); [|eexists; split; [done|]; split_and!; auto].
  destruct (Z.ltb_spec s (p + z)); [by eexists|]. eexists. split; [done|].
  split_and!; [apply u8_range|by right|apply u16_range|].
  assert (u16 (e - p) <= e - p) by (unfold u16; apply Z.mod_le; lia). lia.
Qed.

Lemma corrupt_inside d : inside us (aData pPage) d ->
  exists rc p, corrupt pPage d = Some (rc, p) /\ ok_or_corrupt rc /\ inside us (aData pPage) (aData p).
Proof. intros H. eexists _, _. split; [done|]. split; [by right|done]. Qed.

Lemma free_store_safe d s n e q f m : Forall is_u8 d -> us <= alen d -> inside us (aData pPage) d -> 0 <= s -> s + 4 <= us ->
  0 <= n -> s + n <= us -> 0 <= q -> q + 2 <= us ->
  exists rc p, free_store pBt pPage d s n e q f m = Some (rc, p) /\ ok_or_corrupt rc /\ inside us (aData pPage) (aData p).
Proof.
  intros Hd HL Hin Hs Hs4 Hn Hsn Hq Hq2. unfold free_store.
  destruct (get2_range d (hdr + 5)) as (x & -> & Hx); [done|lia|lia|]. cbn [mbind option_bind].
  destruct (secure_ok pBt d s n) as (d1 & -> & C1); [lia..|]. cbn [mbind option_bind].
  assert (H1 : inside us d d1) by (eapply changed_inside; [done|exact C1|lia]).
  pose proof (inside_trans _ _ _ _ Hin H1) as Hin1. pose proof H1 as (L1 & U1 & _).
  destruct (Z.leb_spec s x).
  - destruct (Z.ltb_spec s x); [by apply corrupt_inside|]. destruct (negb (q =? hdr + 1)); [by apply corrupt_inside|].
    destruct (put2_inside d1 (hdr + 1) f) as (d2 & -> & H2); [done|lia..|]. cbn [mbind option_bind]. pose proof H2 as (L2 & U2 & _).
    destruct (put2_inside d2 (hdr + 5) e) as (d3 & -> & H3); [done|lia..|]. cbn [mbind option_bind].
    eexists _, _. split; [done|]. split; [by left|]. eapply inside_trans; [exact Hin1|]. by eapply inside_trans.
  - destruct (put2_inside d1 q s) as (d2 & -> & H2); [done|lia..|]. cbn [mbind option_bind]. pose proof H2 as (L2 & U2 & _).
    destruct (put2_inside d2 s f) as (d3 & -> & H3); [done|lia..|]. cbn [mbind option_bind]. pose proof H3 as (L3 & U3 & _).
    destruct (put2_inside d3 (s + 2) n) as (d4 & -> & H4); [done|lia..|]. cbn [mbind option_bind].
    eexists _, _. split; [done|]. split; [by left|]. eapply inside_trans; [exact Hin1|].
    eapply inside_trans; [exact H2|]. by eapply inside_trans.
Qed.

Context (Hd : Forall is_u8 (aData pPage)) (HL : us <= alen (aData pPage)).

Lemma inside_refl : inside us (aData pPage) (aData pPage).
Proof. done. Qed.

Lemma freeSpace_safe s n : 0 <= s -> 4 <= n -> s + n <= us ->
  exists rc p, freeSpace pBt pPage s n = Some (rc, p) /\ ok_or_corrupt rc /\ inside us (aData pPage) (aData p).
Proof.
  intros Hs Hn Hsn. pose proof inside_refl as HR. unfold freeSpace. rewrite !aget_fbyte by lia. cbn [mbind option_bind].
  destruct (_ && _); [apply free_store_safe; try done; lia|].
  destruct (free_search_safe (aData pPage) s Hd HL ltac:(lia) (S (Z.to_nat s)) (hdr + 1)) as (r & -> & Hr); [lia..|].
  cbn [mbind option_bind]. destruct r as [[q f]|]; [|by apply corrupt_inside].
  destruct (Z.ltb_spec (us - 4) f); [by apply corrupt_inside|].
  destruct (coalesce_next_safe (aData pPage) s n (s + n) f) as (r & -> & Hr2); [done|lia..|]. cbn [mbind option_bind].
  destruct r as [[[[g e'] n'] f']|]; [|by apply corrupt_inside]. destruct Hr2 as (Hg & He & Hn' & Hsn').
  destruct (coalesce_prev_safe (aData pPage) q s n' e' g) as (r & -> & Hr3); [done|lia..|done|lia|lia|lia|]. cbn [mbind option_bind].
  destruct r as [[[g' s'] n2]|]; [|by apply corrupt_inside]. destruct Hr3 as (Hg' & Hs' & Hn2 & Hsn2).
  pose proof (fbyte_u8 (aData pPage) (hdr + 7) Hd) as H7. unfold is_u8 in H7, Hg'.
  destruct (Z.ltb_spec (fbyte (aData pPage) (hdr + 7)) g'); [by apply corrupt_inside|].
  destruct (put1_inside (aData pPage) (hdr + 7) (fbyte (aData pPage) (hdr + 7) - g')) as (d & -> & Hi); [done|lia..|unfold is_u8; lia|].
  cbn [mbind option_bind]. pose proof Hi as (L & U & _). apply free_store_safe; try done; lia.
Qed.

(** The sum over the list. *)
Lemma free_sum_safe fuel : forall pc acc, 0 <= pc -> us - pc < Z.of_nat fuel -> (0 < fuel)%nat ->
  exists r, free_sum fuel (aData pPage) (us - 4) pc acc = Some r /\
    match r with Some (pc', size, next, acc') => acc <= acc' | None => True end.
Proof.
  induction fuel as [|fuel IH]; intros pc acc Hp Hf Hf0; [lia|]. cbn [free_sum].
  destruct (Z.ltb_spec (us - 4) pc); [by eexists|].
  destruct (get2_range (aData pPage) pc) as (nx & -> & Hnx); [done|lia|lia|].
  destruct (get2_range (aData pPage) (pc + 2)) as (z & -> & Hz); [done|lia|lia|]. cbn [mbind option_bind].
  rewrite u32_id by (unfold is_u32; lia). destruct (Z.leb_spec nx (pc + z + 3)); [eexists; split; [done|]; cbn; lia|].
  destruct (IH nx (acc + z)) as (r & -> & Hr); [lia..|]. exists r. split; [done|]. destruct r as [[[[? ?] ?] ?]|]; [lia|done].
Qed.

Lemma computeFreeSpace_safe : 0 <= childPtrSize pPage <= 4 -> 0 <= nCell pPage ->
  exists rc p, btreeComputeFreeSpace pBt pPage = Some (rc, p) /\ ok_or_corrupt rc /\ aData p = aData pPage /\
    (rc = SQLITE_OK -> 0 <= nFree p <= us - (hdr + 8 + childPtrSize pPage + 2 * nCell pPage)).
Proof.
  intros Hc Hn. unfold btreeComputeFreeSpace. rewrite get2byteNotZero_w16 by (done || lia). cbn [mbind option_bind].
  set (top := if w16 (aData pPage) (hdr + 5) =? 0 then 65536 else w16 (aData pPage) (hdr + 5)).
  destruct (get2_range (aData pPage) (hdr + 1)) as (pc & -> & Hpc); [done|lia|lia|]. rewrite aget_fbyte by lia. cbn [mbind option_bind].
  assert (HC : exists rc p, corrupt pPage (aData pPage) = Some (rc, p) /\ ok_or_corrupt rc /\ aData p = aData pPage /\
    (rc = SQLITE_OK -> 0 <= nFree p <= us - (hdr + 8 + childPtrSize pPage + 2 * nCell pPage))).
  { eexists _, _. split; [done|]. split_and!; [by right|done|done]. }
  assert (HS : exists sum, (if 0 <? pc then if pc <? top then Some None else
      r ← free_sum (S (Z.to_nat us)) (aData pPage) (us - 4) pc (fbyte (aData pPage) (hdr + 7) + top);
      Some (match r with Some (pc, size, next, free) => if 0 <? next then None else if us <? u32 (pc + size) then None else Some free | None => None end)
    else Some (Some (fbyte (aData pPage) (hdr + 7) + top))) = Some sum).
  { destruct (0 <? pc); [|eauto]. destruct (pc <? top); [eauto|].
    destruct (free_sum_safe (S (Z.to_nat us)) pc (fbyte (aData pPage) (hdr + 7) + top)) as (r & -> & _); [lia..|]. cbn [mbind option_bind]. eauto. }
  destruct HS as [[free|] ->]; cbn [mbind option_bind]; [|done].
  destruct (Z.ltb_spec us free); [done|]. destruct (Z.ltb_spec free (hdr + 8 + childPtrSize pPage + 2 * nCell pPage)); [done|]. cbn [orb].
  eexists _, _. split; [done|]. split_and!; [by left|done|]. intros _. cbn [set_nFree set_page nFree]. unfold u16.
  rewrite Z.mod_small by lia. lia.
Qed.

(** The search for a slot: what it finds is inside of the page. *)
Lemma slot_loop_safe n : 4 <= n <= us -> forall fuel p pc, 0 <= p -> p + 2 <= us -> 0 <= pc -> us - pc < Z.of_nat fuel -> (0 < fuel)%nat ->
  exists r rc d, slot_loop fuel hdr n (us - n) (aData pPage) p pc = Some (r, rc, d) /\ ok_or_corrupt rc /\
    inside us (aData pPage) d /\ forall idx, r = Some idx -> 0 <= idx /\ idx + n <= us.
Proof.
  intros Hn. induction fuel as [|fuel IH]; intros p pc Hp Hp2 Hpc Hf Hf0; [lia|]. cbn [slot_loop]. pose proof inside_refl as HR.
  destruct (Z.leb_spec pc (us - n)); cbn [negb].
  2: { destruct (_ <? _); eexists None, _, _; (split; [done|]); split_and!; try done; unfold ok_or_corrupt; auto. }
  destruct (get2_range (aData pPage) (pc + 2)) as (z & -> & Hz); [done|lia|lia|]. cbn [mbind option_bind].
  destruct (Z.leb_spec 0 (z - n)).
  - destruct (Z.ltb_spec (z - n) 4).
    + rewrite aget_fbyte by lia. cbn [mbind option_bind]. destruct (57 <? _); [eexists None, _, _; split; [done|]; split_and!; [by left|done|done]|].
      rewrite mread_ok by lia. cbn [mbind option_bind].
      destruct (mwrite_stored (aData pPage) p (fread (aData pPage) pc 2)) as (d1 & -> & S1); [lia|rewrite alen_fread; lia|]. cbn [mbind option_bind].
      apply stored_changed in S1; [|by apply fread_u8]. rewrite alen_fread in S1 by lia.
      assert (I1 : inside us (aData pPage) d1) by (eapply changed_inside; [done|exact S1|lia]). pose proof I1 as (L1 & U1 & _).
      rewrite aget_fbyte by lia. cbn [mbind option_bind].
      destruct (put1_inside d1 (hdr + 7) (u8 (fbyte d1 (hdr + 7) + u8 (z - n)))) as (d2 & -> & I2); [done|lia|lia|apply u8_range|].
      cbn [mbind option_bind]. eexists _, _, _. split; [done|]. split_and!; [by left|by eapply inside_trans|intros ? [= <-]; lia].
    + destruct (Z.ltb_spec (us - n) (z - n + pc)); [eexists None, _, _; split; [done|]; split_and!; [by right|done|done]|].
      destruct (put2_inside (aData pPage) (pc + 2) (z - n)) as (d2 & -> & I2); [done|lia..|]. cbn [mbind option_bind].
      eexists _, _, _. split; [done|]. split_and!; [by left|done|intros ? [= <-]; lia].
  - destruct (get2_range (aData pPage) pc) as (nx & -> & Hnx); [done|lia|lia|]. cbn [mbind option_bind].
    destruct (Z.leb_spec nx pc); [|apply IH; lia].
    eexists None, _, _. split; [done|]. split_and!; try done. destruct (nx =? 0); [by left|by right].
Qed.
End Safety.

(** C11. The routines that follow or change the list of freeblocks are safe on any page
    image, also one that a damaged file supplies.  For a page of 480 to 65536 usable bytes
    whose bytes are arbitrary, [btreeComputeFreeSpace], [freeSpace] of any region of the
    usable part and [pageFindSlot] for any size all end within their bounds on the
    iterations, never access a byte outside of the page, report [SQLITE_OK] or
    [SQLITE_CORRUPT], and leave the reserved bytes after the usable part alone.  A free
    space that is computed fits between the cell pointers and the end of the page, and a
    slot that is found lies inside of the page. *)
Theorem freeblocks_safe pBt pPage :
  480 <= usableSize pBt <= 65536 -> hdrOffset pPage = 0 \/ hdrOffset pPage = 100 ->
  Forall is_u8 (aData pPage) -> usableSize pBt <= alen (aData pPage) ->
  (forall s n, 0 <= s -> 4 <= n -> s + n <= usableSize pBt ->
     exists rc p, freeSpace pBt pPage s n = Some (rc, p) /\ ok_or_corrupt rc /\
       inside (usableSize pBt) (aData pPage) (aData p)) /\
  (forall n, 4 <= n <= usableSize pBt ->
     exists r rc d, pageFindSlot pBt pPage n = Some (r, rc, d) /\ ok_or_corrupt rc /\
       inside (usableSize pBt) (aData pPage) d /\ forall idx, r = Some idx -> 0 <= idx /\ idx + n <= usableSize pBt) /\
  (0 <= childPtrSize pPage <= 4 -> 0 <= nCell pPage ->
     exists rc p, btreeComputeFreeSpace pBt pPage = Some (rc, p) /\ ok_or_corrupt rc /\ aData p = aData pPage /\
       (rc = SQLITE_OK ->
          0 <= nFree p <= usableSize pBt - (hdrOffset pPage + 8 + childPtrSize pPage + 2 * nCell pPage))).
Proof.
  intros Hu Hh Hd HL. split_and!.
  - by apply freeSpace_safe.
  - intros n Hn. unfold pageFindSlot.
    destruct (get2_range (aData pPage) (hdrOffset pPage + 1)) as (pc & -> & Hpc); [done|lia|lia|]. cbn [mbind option_bind].
    apply slot_loop_safe; try done; lia.
  - by apply computeFreeSpace_safe.
Qed.

(** A page with 255 in every byte. *)
Definition garbage_page : MemPage := fresh_page 2 (replicate 512 255).

Lemma freeblocks_safe_witness :
  freeSpace bt512 garbage_page 400 20 = Some (SQLITE_CORRUPT, garbage_page) /\
  exists rc p, freeSpace bt512 garbage_page 400 20 = Some (rc, p) /\ ok_or_corrupt rc /\
       inside 512 (aData garbage_page) (aData p).
Proof.
  split; [vm_compute; reflexivity|].
  refine (proj1 (freeblocks_safe bt512 garbage_page _ _ _ _) 400 20 _ _ _).
  - change (480 <= 512 <= 65536). lia.
  - left. reflexivity.
  - apply Forall_replicate. unfold is_u8. lia.
  - change (512 <= alen (replicate 512 255)). unfold alen. rewrite length_replicate. lia.
  - lia.
  - lia.
  - change (400 + 20 <= 512). lia.
Defined.
