(* ===== verification/MemJournal.v ===== *)
(** * Journals in memory ([src/memjournal.c])

    A rollback journal that is kept in memory as a list of chunks, and that is
    written to a file once it is longer than [nSpill] bytes.  Chunks live in a heap and are
    changed in place.  The model of the whole file; [MemJrnlRep.v] and [MemJrnlSpec.v] prove
    that a journal behaves as a file does, spilled or not. *)
From S2P Require Import Prelude FileIO.

(** ** Data *)

(** Pointers are addresses; 0 is the null pointer. *)
Record FileChunk : Type := MkChunk { cNext : Z; zChunk : list Z }.

Definition MEMJOURNAL_DFLT_FILECHUNKSIZE : Z := 1024.

(** [sizeof(FileChunk)] on a 64-bit host *)
Definition sizeof_chunk : Z := 16.
Definition fileChunkSize (nChunkSize : Z) : Z := sizeof_chunk + (nChunkSize - 8).

Record FilePoint : Type := MkPoint { iOffset : Z; ptChunk : Z }.

(** Without [pVfs] and [zJournal], which only [sqlite3OsOpen] gets. *)
Record MemJournal : Type := MkJournal {
  nChunkSize : Z;
  nSpill : Z;
  pFirst : Z;
  endpoint : FilePoint;
  readpoint : FilePoint;
  jFlags : Z
}.

Abbreviation chunks := (gmap Z FileChunk).

(** What the block of a [sqlite3_file] holds, by its [pMethods]: a journal in memory, a
    file of the VFS with its bytes, or nothing that is open. *)
Inductive sqlite3_file : Type := FMem (p : MemJournal) | FReal (f : file) | FNone.

Definition SQLITE_IOERR_NOMEM : Z := Eval cbv in SQLITE_IOERR .| (12 << 8).
Definition SQLITE_OPEN_MAIN_JOURNAL : Z := 0x00000800.

(** [sqlite3OsOpen] of the VFS; a file that is opened holds the bytes [disk]. *)
Definition os_open (io : list io_res) (disk : file) : Z * sqlite3_file * list io_res :=
  match io_next io with
  | (IoOk, io) => (SQLITE_OK, FReal disk, io)
  | (IoErr rc _, io) => (rc, FNone, io)
  end.

Definition set_chunk (h : chunks) (p : Z) (d : list Z) : option chunks :=
  c ← h !! p; Some (<[p := MkChunk (cNext c) d]> h).
Definition set_chunk_next (h : chunks) (p q : Z) : option chunks :=
  c ← h !! p; Some (<[p := MkChunk q (zChunk c)]> h).

(** ** Reading *)

(** The loop to the chunk with the offset [iOfst]: [for(pChunk=p->pFirst; ...)] *)
Fixpoint seek_loop (fuel : nat) (h : chunks) (nChunkSize iOfst iOff pChunk : Z) : option Z :=
  match fuel with
  | O => None
  | S fuel =>
      if negb (pChunk =? 0) && (iOff + nChunkSize <=? iOfst) then
        c ← h !! pChunk; seek_loop fuel h nChunkSize iOfst (iOff + nChunkSize) (cNext c)
      else Some pChunk
  end.

(** [do{ ... }while( nRead>=0 && (pChunk=pChunk->pNext)!=0 && nRead>0 )]: the bytes, and
    [pChunk] after the loop *)
Fixpoint copy_out (fuel : nat) (h : chunks) (nChunkSize pChunk iChunkOffset nRead : Z) (zOut : list Z)
  : option (list Z * Z) :=
  match fuel with
  | O => None
  | S fuel =>
      c ← h !! pChunk;
      let iSpace := nChunkSize - iChunkOffset in
      bs ← mread (zChunk c) iChunkOffset (Z.min nRead iSpace);
      let zOut := zOut ++ bs in
      let nRead := nRead - iSpace in
      if 0 <=? nRead then
        let pChunk := cNext c in
        if negb (pChunk =? 0) && (0 <? nRead) then copy_out fuel h nChunkSize pChunk 0 nRead zOut
        else Some (zOut, pChunk)
      else Some (zOut, pChunk)
  end.

(** The return code, the bytes that were read, and the journal. *)
Definition memjrnlRead (h : chunks) (p : MemJournal) (iAmt iOfst : Z) : option (Z * list Z * MemJournal) :=
  if iOffset (endpoint p) <? iAmt + iOfst then Some (SQLITE_IOERR_SHORT_READ, [], p) else
  pChunk ← (if negb (iOffset (readpoint p) =? iOfst) || (iOfst =? 0)
            then seek_loop (S (size h)) h (nChunkSize p) iOfst 0 (pFirst p)
            else Some (ptChunk (readpoint p)));
  '(zOut, pChunk) ← copy_out (S (size h)) h (nChunkSize p) pChunk (Z.rem iOfst (nChunkSize p)) iAmt [];
  let rd := MkPoint (if negb (pChunk =? 0) then iOfst + iAmt else 0) pChunk in
  Some (SQLITE_OK, zOut, MkJournal (nChunkSize p) (nSpill p) (pFirst p) (endpoint p) rd (jFlags p)).

(** ** Release and truncation *)

Fixpoint free_loop (fuel : nat) (h : chunks) (pIter : Z) : option chunks :=
  match fuel with
  | O => None
  | S fuel =>
      if pIter =? 0 then Some h
      else c ← h !! pIter; free_loop fuel (delete pIter h) (cNext c)
  end.

Definition memjrnlFreeChunks (h : chunks) (pFirst : Z) : option chunks := free_loop (S (size h)) h pFirst.

(** The loop to the last chunk that stays. *)
Fixpoint trunc_loop (fuel : nat) (h : chunks) (nChunkSize sz iOff pIter : Z) : option Z :=
  match fuel with
  | O => None
  | S fuel =>
      if negb (pIter =? 0) && (iOff <? sz) then
        c ← h !! pIter; trunc_loop fuel h nChunkSize sz (iOff + nChunkSize) (cNext c)
      else Some pIter
  end.

Definition memjrnlTruncate (h : chunks) (p : MemJournal) (sz : Z) : option (Z * MemJournal * chunks) :=
  if sz <? iOffset (endpoint p) then
    '(pIter, first, h) ←
      (if sz =? 0 then h ← memjrnlFreeChunks h (pFirst p); Some (0, 0, h)
       else
         pIter ← trunc_loop (S (size h)) h (nChunkSize p) sz (nChunkSize p) (pFirst p);
         if negb (pIter =? 0) then
           c ← h !! pIter;
           h ← memjrnlFreeChunks h (cNext c);
           h ← set_chunk_next h pIter 0;
           Some (pIter, pFirst p, h)
         else Some (pIter, pFirst p, h));
    Some (SQLITE_OK, MkJournal (nChunkSize p) (nSpill p) first (MkPoint sz pIter) (MkPoint 0 0) (jFlags p), h)
  else Some (SQLITE_OK, p, h).

Definition memjrnlClose (h : chunks) (p : MemJournal) : option (Z * chunks) :=
  h ← memjrnlFreeChunks h (pFirst p); Some (SQLITE_OK, h).

Definition memjrnlSync : Z := SQLITE_OK.

Definition memjrnlFileSize (p : MemJournal) : Z * Z := (SQLITE_OK, iOffset (endpoint p)).

(** ** Spilling *)

(** The loop that writes the chunks to the file. *)
Fixpoint spill_loop (fuel : nat) (h : chunks) (ending pIter nChunk iOff : Z) (f : file) (io : list io_res)
  : option (Z * file * list io_res) :=
  match fuel with
  | O => None
  | S fuel =>
      if pIter =? 0 then Some (SQLITE_OK, f, io)
      else
        let nChunk := if ending <? iOff + nChunk then ending - iOff else nChunk in
        c ← h !! pIter;
        d ← mread (zChunk c) 0 nChunk;
        let '(rc, f, io) := os_write io f iOff d in
        if negb (rc =? SQLITE_OK) then Some (rc, f, io)
        else spill_loop fuel h ending (cNext c) nChunk (iOff + nChunk) f io
  end.

(** The return code, the file handle, the chunks that are live and the outcomes left. *)
Definition memjrnlCreateFile (io : list io_res) (disk : file) (h : chunks) (p : MemJournal)
  : option (Z * sqlite3_file * chunks * list io_res) :=
  let '(rc, pReal, io) := os_open io disk in
  match pReal with
  | FReal f =>
      '(rc, f, io) ← spill_loop (S (size h)) h (iOffset (endpoint p)) (pFirst p) (nChunkSize p) 0 f io;
      if rc =? SQLITE_OK then
        h ← memjrnlFreeChunks h (pFirst p);
        Some (SQLITE_OK, FReal f, h, io)
      else Some (rc, FMem p, h, io)
  | _ => Some (rc, FMem p, h, io)
  end.

(** ** Writing *)

(** [while( nWrite>0 )]; [news] are the chunks that the allocator gives, with
    what they hold, or its failures. *)
Fixpoint append_loop (fuel : nat) (news : list (option (Z * list Z))) (h : chunks) (p : MemJournal)
    (zWrite : list Z) : option (Z * MemJournal * chunks) :=
  match fuel with
  | O => None
  | S fuel =>
      let nWrite := alen zWrite in
      if negb (0 <? nWrite) then Some (SQLITE_OK, p, h) else
      let pChunk := ptChunk (endpoint p) in
      let iChunkOffset := Z.rem (iOffset (endpoint p)) (nChunkSize p) in
      let iSpace := Z.min nWrite (nChunkSize p - iChunkOffset) in
      let store news h p pChunk :=
        c ← h !! pChunk;
        d ← mwrite (zChunk c) iChunkOffset (take (Z.to_nat iSpace) zWrite);
        h ← set_chunk h pChunk d;
        append_loop fuel news h
          (MkJournal (nChunkSize p) (nSpill p) (pFirst p) (MkPoint (iOffset (endpoint p) + iSpace) pChunk) (readpoint p) (jFlags p))
          (drop (Z.to_nat iSpace) zWrite) in
      if iChunkOffset =? 0 then
        match news with
        | Some (pNew, raw) :: news =>
            let h := <[pNew := MkChunk 0 raw]> h in
            if negb (pChunk =? 0) then h ← set_chunk_next h pChunk pNew; store news h p pNew
            else store news h (MkJournal (nChunkSize p) (nSpill p) pNew (endpoint p) (readpoint p) (jFlags p)) pNew
        | _ => Some (SQLITE_IOERR_NOMEM, p, h)
        end
      else store news h p pChunk
  end.

Definition memjrnlWrite (io : list io_res) (disk : file) (news : list (option (Z * list Z))) (h : chunks)
    (p : MemJournal) (zBuf : list Z) (iOfst : Z) : option (Z * sqlite3_file * chunks * list io_res) :=
  let iAmt := alen zBuf in
  if (0 <? nSpill p) && (nSpill p <? iAmt + iOfst) then
    '(rc, fd, h, io) ← memjrnlCreateFile io disk h p;
    match fd with
    | FReal f =>
        let '(rc, f, io) := os_write io f iOfst zBuf in Some (rc, FReal f, h, io)
    | _ => Some (rc, fd, h, io)
    end
  else
    '(p, h) ← (if (0 <? iOfst) && negb (iOfst =? iOffset (endpoint p))
               then '(_, p, h) ← memjrnlTruncate h p iOfst; Some (p, h)
               else Some (p, h));
    if (iOfst =? 0) && negb (pFirst p =? 0) then
      c ← h !! pFirst p;
      d ← mwrite (zChunk c) 0 zBuf;
      h ← set_chunk h (pFirst p) d;
      Some (SQLITE_OK, FMem p, h, io)
    else
      '(rc, p, h) ← append_loop (S (length zBuf)) news h p zBuf;
      Some (rc, FMem p, h, io).

(** ** Handles *)

Definition sqlite3JournalOpen (io : list io_res) (disk : file) (flags nSpill : Z)
  : Z * sqlite3_file * list io_res :=
  if nSpill =? 0 then os_open io disk
  else
    let nChunkSize := if 0 <? nSpill then nSpill else 8 + MEMJOURNAL_DFLT_FILECHUNKSIZE - sizeof_chunk in
    (SQLITE_OK, FMem (MkJournal nChunkSize nSpill 0 (MkPoint 0 0) (MkPoint 0 0) flags), io).

Definition sqlite3MemJournalOpen : sqlite3_file := snd (fst (sqlite3JournalOpen [] [] 0 (-1))).

Definition sqlite3JournalIsInMemory (fd : sqlite3_file) : bool :=
  match fd with FMem _ => true | _ => false end.

(** [batch] is the build option [SQLITE_ENABLE_BATCH_ATOMIC_WRITE]. *)
Definition sqlite3JournalCreate (batch : bool) (io : list io_res) (disk : file) (h : chunks) (fd : sqlite3_file)
  : option (Z * sqlite3_file * chunks * list io_res) :=
  match fd with
  | FMem p =>
      if (0 <? nSpill p) || (batch && negb (jFlags p .& SQLITE_OPEN_MAIN_JOURNAL =? 0))
      then memjrnlCreateFile io disk h p
      else Some (SQLITE_OK, fd, h, io)
  | _ => Some (SQLITE_OK, fd, h, io)
  end.

(** ** Calls through [pMethods] ([src/os.c]) *)

Definition sqlite3OsClose (h : chunks) (pId : sqlite3_file) : option (sqlite3_file * chunks) :=
  match pId with
  | FMem p => '(_, h) ← memjrnlClose h p; Some (FNone, h)
  | _ => Some (FNone, h)
  end.

Definition sqlite3OsRead (io : list io_res) (h : chunks) (id : sqlite3_file) (amt offset : Z)
  : option (Z * list Z * sqlite3_file * list io_res) :=
  match id with
  | FMem p => '(rc, bs, p) ← memjrnlRead h p amt offset; Some (rc, bs, FMem p, io)
  | FReal f => let '(rc, bs, io) := os_read io f offset amt in Some (rc, bs, id, io)
  | FNone => None
  end.

Definition sqlite3OsWrite (io : list io_res) (disk : file) (news : list (option (Z * list Z))) (h : chunks)
    (id : sqlite3_file) (pBuf : list Z) (offset : Z) : option (Z * sqlite3_file * chunks * list io_res) :=
  match id with
  | FMem p => memjrnlWrite io disk news h p pBuf offset
  | FReal f => let '(rc, f, io) := os_write io f offset pBuf in Some (rc, FReal f, h, io)
  | FNone => None
  end.

Definition sqlite3OsTruncate (io : list io_res) (h : chunks) (id : sqlite3_file) (sz : Z)
  : option (Z * sqlite3_file * chunks * list io_res) :=
  match id with
  | FMem p => '(rc, p, h) ← memjrnlTruncate h p sz; Some (rc, FMem p, h, io)
  | FReal f => let '(rc, f, io) := os_truncate io f sz in Some (rc, FReal f, h, io)
  | FNone => None
  end.

Definition sqlite3OsSync (io : list io_res) (id : sqlite3_file) (flags : Z) : option (Z * list io_res) :=
  if flags =? 0 then Some (SQLITE_OK, io)
  else
    match id with
    | FMem _ => Some (memjrnlSync, io)
    | FReal _ => Some (os_sync io)
    | FNone => None
    end.

Definition sqlite3OsFileSize (io : list io_res) (id : sqlite3_file) : option (Z * Z * list io_res) :=
  match id with
  | FMem p => let '(rc, n) := memjrnlFileSize p in Some (rc, n, io)
  | FReal f => Some (os_filesize io f)
  | FNone => None
  end.
