(* ===== verification/MemJrnlRep.v ===== *)
(** * Journals in memory: chunks and bytes

    The invariant of a journal in memory, and the effect of every operation of
    [MemJournal.v] on the bytes it stands for. *)
From S2P Require Import Prelude FileIO MemJournal.

(** ** Bytes *)

Lemma fread_take_drop f off n : 0 <= off -> 0 <= n -> off + n <= alen f -> fread f off n = take (Z.to_nat n) (drop (Z.to_nat off) f).
Proof.
  intros Ho Hn Hl. apply list_eq. intros k. change (fread f off n) with ((fun j => fbyte f j) <$> seqZ off n). rewrite list_lookup_fmap.
  destruct (decide (Z.of_nat k < n)) as [Hk|Hk].
  - rewrite lookup_seqZ_lt, lookup_take_lt, lookup_drop by lia. cbn.
    replace (Z.to_nat off + k)%nat with (Z.to_nat (off + Z.of_nat k)) by lia.
    pose proof (aget_fbyte f (off + Z.of_nat k) ltac:(lia)) as E. unfold aget in E. by rewrite (proj2 (Z.leb_le 0 _)) in E by lia.
  - rewrite lookup_seqZ_ge, lookup_take_ge by lia. done.
Qed.

Lemma fwrite_inside f off d : 0 <= off -> off + alen d <= alen f ->
  fwrite f off d = take (Z.to_nat off) f ++ d ++ drop (Z.to_nat (off + alen d)) f.
Proof.
  intros Ho Hl. unfold fwrite, fextend. pose proof (alen_nonneg d). replace (Z.to_nat (off - alen f)) with 0%nat by lia.
  cbn [replicate]. by rewrite app_nil_r.
Qed.

(** A write that goes up to the end at least. *)
Lemma fwrite_end f off d : 0 <= off <= alen f -> alen f <= off + alen d -> fwrite f off d = take (Z.to_nat off) f ++ d.
Proof.
  intros Ho Hl. unfold fwrite, fextend. replace (Z.to_nat (off - alen f)) with 0%nat by lia. cbn [replicate].
  rewrite app_nil_r, (drop_ge f) by (unfold alen in *; lia). by rewrite app_nil_r.
Qed.

Lemma ftruncate_inside f n : 0 <= n <= alen f -> ftruncate f n = take (Z.to_nat n) f.
Proof. intros H. unfold ftruncate, fextend. replace (Z.to_nat (n - alen f)) with 0%nat by lia. cbn [replicate]. by rewrite app_nil_r. Qed.

(** ** Chains of chunks *)

Abbreviation placed := (Z * list Z)%type.
Abbreviation addrs cs := (map (fst : placed -> Z) cs).

Fixpoint segment (h : chunks) (p : Z) (cs : list placed) (q : Z) : Prop :=
  match cs with
  | [] => p = q
  | (a, d) :: cs => p = a /\ a <> 0 /\ exists r, h !! a = Some (MkChunk r d) /\ segment h r cs q
  end.

Definition bytes (cs : list placed) : list Z := concat (map snd cs).
Definition full (n : Z) (cs : list placed) : Prop := Forall (fun x => alen x.2 = n) cs.
Definition head_of (cs : list placed) : Z := match cs with [] => 0 | (a, _) :: _ => a end.
Definition last_of (cs : list placed) : Z := default 0 (fst <$> last cs).

Lemma bytes_app a b : bytes (a ++ b) = bytes a ++ bytes b.
Proof. unfold bytes. by rewrite map_app, concat_app. Qed.

Lemma bytes_alen n cs : full n cs -> alen (bytes cs) = n * alen cs.
Proof.
  intros H. induction H as [|x cs Hx _ IH]; [unfold alen; cbn; lia|].
  change (bytes (x :: cs)) with (x.2 ++ bytes cs). rewrite alen_app, IH, Hx, alen_cons. lia.
Qed.

Lemma segment_app h a : forall p b q, segment h p (a ++ b) q <-> exists x, segment h p a x /\ segment h x b q.
Proof.
  induction a as [|[c d] a IH]; intros p b q; cbn [app segment]; [split; [by exists p|by intros (x & -> & H)]|]. split.
  - intros (-> & H0 & e & E & (x & Ha & Hb)%IH). exists x. split; [|done]. split_and!; try done. by exists e.
  - intros (x & (-> & H0 & e & E & Ha) & Hb). split_and!; try done. exists e. split; [done|]. apply IH. by exists x.
Qed.

Lemma segment_head h p cs : segment h p cs 0 -> p = head_of cs.
Proof. destruct cs as [|[a d] cs]; [done|]. by intros (-> & _). Qed.

Lemma segment_null h p cs : segment h p cs 0 -> (p =? 0) = bool_decide (cs = []).
Proof.
  destruct cs as [|[a d] cs]; cbn [segment]; [intros ->; by rewrite bool_decide_eq_true_2|]. intros (-> & H0 & _).
  rewrite bool_decide_eq_false_2 by done. by apply Z.eqb_neq.
Qed.

Lemma segment_frame h h' cs : (forall a, a ∈ addrs cs -> h' !! a = h !! a) -> forall p q, segment h p cs q -> segment h' p cs q.
Proof.
  induction cs as [|[a d] cs IH]; intros Hf p q; [done|]. cbn [segment]. intros (-> & H0 & r & E & Hs). split_and!; try done.
  exists r. split; [rewrite Hf; [done|set_solver +]|]. apply IH; [|done]. intros x Hx. apply Hf. set_solver + Hx.
Qed.

Lemma segment_live h cs : forall p q a, segment h p cs q -> a ∈ addrs cs -> a <> 0 /\ exists c, h !! a = Some c.
Proof.
  induction cs as [|[b d] cs IH]; intros p q a Hs Ha; [by apply not_elem_of_nil in Ha|]. destruct Hs as (-> & H0 & r & E & Hs).
  cbn [map fst] in Ha. apply elem_of_cons in Ha as [->|Ha]; [split; [done|by eexists]|by eapply IH].
Qed.

Lemma segment_size h p cs q : segment h p cs q -> NoDup (addrs cs) -> (length cs <= size h)%nat.
Proof.
  intros Hs Hnd. rewrite <- (length_map fst). apply live_size; [done|]. intros a Ha. by destruct (segment_live _ _ _ _ _ Hs Ha).
Qed.

(** ** Reading *)

Section Chunks.
Context (n : Z) (Hn : 0 < n).

Lemma seek_ok h iOfst cs : forall fuel iOff p, segment h p cs 0 -> 0 <= iOfst - iOff < n * alen cs -> (length cs < fuel)%nat ->
  exists cs1 a d cs2, cs = cs1 ++ (a, d) :: cs2 /\ n * alen cs1 <= iOfst - iOff < n * (alen cs1 + 1) /\ seek_loop fuel h n iOfst iOff p = Some a.
Proof.
  induction cs as [|[a d] cs IH]; intros fuel iOff p Hs Hr Hf; [unfold alen in Hr; cbn in Hr; lia|]. destruct fuel as [|fuel]; [cbn in Hf; lia|].
  destruct Hs as (-> & H0 & r & E & Hs). cbn [seek_loop]. rewrite (proj2 (Z.eqb_neq a 0)) by done. cbn [negb andb]. rewrite alen_cons in Hr.
  destruct (Z.leb_spec (iOff + n) iOfst).
  - rewrite E. cbn [mbind option_bind cNext]. destruct (IH fuel (iOff + n) r Hs) as (cs1 & b & e & cs2 & -> & Hi & Hr2); [lia|cbn in Hf; lia|].
    exists ((a, d) :: cs1), b, e, cs2. split_and!; [done|rewrite alen_cons; lia|rewrite alen_cons; lia|done].
  - exists [], a, d, cs. split_and!; [done|unfold alen; cbn; lia|unfold alen; cbn; lia|done].
Qed.

Lemma copy_out_ok h cs : forall fuel p off nRead zOut, segment h p cs 0 -> full n cs -> 0 <= off < n -> 0 < nRead -> off + nRead <= n * alen cs ->
  (length cs <= fuel)%nat ->
  copy_out fuel h n p off nRead zOut =
    Some (zOut ++ take (Z.to_nat nRead) (drop (Z.to_nat off) (bytes cs)), head_of (drop (Z.to_nat ((off + nRead) / n)) cs)).
Proof.
  induction cs as [|[a d] cs IH]; intros fuel p off nRead zOut Hs Hfull Ho Hr Hl Hf; [unfold alen in Hl; cbn in Hl; lia|].
  destruct fuel as [|fuel]; [cbn in Hf; lia|]. destruct Hs as (-> & H0 & r & E & Hs). apply Forall_cons in Hfull as [Hd Hfull]. cbn [snd] in Hd.
  cbn [copy_out]. rewrite E. cbn [mbind option_bind zChunk cNext]. rewrite mread_ok by lia. cbn [mbind option_bind].
  rewrite fread_take_drop by lia. change (bytes ((a, d) :: cs)) with (d ++ bytes cs). rewrite alen_cons in Hl.
  assert (Hld : length d = Z.to_nat n) by (unfold alen in Hd; lia).
  rewrite drop_app_le by lia. rewrite take_app. rewrite length_drop, Hld.
  destruct (Z.leb_spec 0 (nRead - (n - off))) as [Hge|Hlt].
  - rewrite Z.min_r by lia. rewrite !(take_ge (drop _ d)) by (rewrite length_drop, Hld; lia).
    destruct (Z.ltb_spec 0 (nRead - (n - off))) as [Hgt|].
    + rewrite (segment_null _ _ _ Hs). rewrite bool_decide_eq_false_2.
      2: { intros ->. unfold alen in Hl. cbn in Hl. lia. }
      cbn [negb andb]. rewrite (IH fuel r 0 (nRead - (n - off))) by (try done; cbn in Hf; lia). rewrite <- app_assoc. do 2 f_equal.
      * replace (Z.to_nat (nRead - (n - off))) with (Z.to_nat nRead - (Z.to_nat n - Z.to_nat off))%nat by lia. done.
      * replace (off + nRead) with (0 + (nRead - (n - off)) + 1 * n) by lia. rewrite Z.div_add by lia.
        pose proof (Z.div_pos (0 + (nRead - (n - off))) n ltac:(lia) Hn). rewrite Z2Nat.inj_add by lia. rewrite Nat.add_comm. done.
    + rewrite andb_false_r. replace (Z.to_nat nRead - (Z.to_nat n - Z.to_nat off))%nat with 0%nat by lia. rewrite take_0, app_nil_r.
      replace (off + nRead) with n by lia. rewrite Z.div_same by lia. by rewrite (segment_head _ _ _ Hs).
  - rewrite Z.min_l by lia. replace (Z.to_nat nRead - (Z.to_nat n - Z.to_nat off))%nat with 0%nat by lia. rewrite take_0, app_nil_r.
    rewrite Z.div_small by lia. done.
Qed.
End Chunks.

(** ** The invariant *)

Abbreviation jEnd p := (iOffset (endpoint p)).

(** [h0] is the heap without the chunks of the journal, [c] the bytes it stands for.
    The chunks are as many as these bytes need. *)
Record journal_ok (h0 h : chunks) (p : MemJournal) (cs : list placed) (c : list Z) : Prop := {
  jo_n : 0 < nChunkSize p;
  jo_seg : segment h (pFirst p) cs 0;
  jo_nodup : NoDup (addrs cs);
  jo_new : forall a, a ∈ addrs cs -> h0 !! a = None;
  jo_frame : forall a, a ∉ addrs cs -> h !! a = h0 !! a;
  jo_full : full (nChunkSize p) cs;
  jo_end : 0 <= jEnd p /\ jEnd p <= nChunkSize p * alen cs < jEnd p + nChunkSize p;
  jo_bytes : c = take (Z.to_nat (jEnd p)) (bytes cs);
  jo_last : ptChunk (endpoint p) = last_of cs;
  jo_read : iOffset (readpoint p) = 0 \/
    0 < iOffset (readpoint p) /\ addrs cs !! Z.to_nat (iOffset (readpoint p) / nChunkSize p) = Some (ptChunk (readpoint p))
}.

Section Journal.
Context (h0 h : chunks) (p : MemJournal) (cs : list placed) (c : list Z) (Hj : journal_ok h0 h p cs c).

Lemma journal_alen : alen c = jEnd p.
Proof.
  destruct Hj as [Hn _ _ _ _ Hf He -> _ _]. apply alen_take. rewrite (bytes_alen _ _ Hf). lia.
Qed.

Lemma journal_size : (length cs < S (size h))%nat.
Proof. destruct Hj. apply Nat.lt_succ_r. by eapply segment_size. Qed.

(** The place of an offset. *)
Lemma place_of cs1 a d cs2 off : cs = cs1 ++ (a, d) :: cs2 ->
  nChunkSize p * alen cs1 <= off < nChunkSize p * (alen cs1 + 1) ->
  alen cs1 = off / nChunkSize p /\ Z.rem off (nChunkSize p) = off - nChunkSize p * alen cs1.
Proof.
  intros _ Ho. pose proof (jo_n _ _ _ _ _ Hj). pose proof (alen_nonneg cs1).
  assert (E : alen cs1 = off / nChunkSize p) by (apply (Z.div_unique_pos off (nChunkSize p) _ (off - nChunkSize p * alen cs1)); lia).
  split; [done|]. rewrite Z.rem_mod_nonneg, Z.mod_eq by nia. rewrite E. lia.
Qed.

Lemma read_at cs1 a d cs2 off amt : cs = cs1 ++ (a, d) :: cs2 ->
  nChunkSize p * alen cs1 <= off < nChunkSize p * (alen cs1 + 1) -> 0 < amt -> off + amt <= alen c ->
  exists q, copy_out (S (size h)) h (nChunkSize p) a (Z.rem off (nChunkSize p)) amt [] = Some (fread c off amt, q) /\
    (q = 0 \/ addrs cs !! Z.to_nat ((off + amt) / nChunkSize p) = Some q).
Proof.
  intros Ecs Ho Hamt Hl. pose proof journal_alen as HL. pose proof journal_size as Hsz. destruct (place_of _ _ _ _ _ Ecs Ho) as [E1 ->].
  destruct Hj as [Hn Hs Hnd _ _ Hf He Hb _ _]. pose proof (bytes_alen _ _ Hf) as HB. pose proof (alen_nonneg cs1) as Hc1. rewrite Ecs in Hs, Hf.
  apply segment_app in Hs as (x & _ & Hs). pose proof Hs as (-> & _). apply Forall_app in Hf as [Hf1 Hf2].
  pose proof (bytes_alen _ _ Hf1) as HB1. rewrite Ecs in Hsz. rewrite length_app in Hsz.
  assert (Htl : nChunkSize p * alen cs = nChunkSize p * alen cs1 + nChunkSize p * alen ((a, d) :: cs2)) by (rewrite Ecs, alen_app; lia).
  rewrite (copy_out_ok _ Hn h ((a, d) :: cs2)); try done; try lia. eexists. split.
  - do 2 f_equal. rewrite app_nil_l, fread_take_drop by nia. rewrite Hb.
    rewrite Ecs, bytes_app. rewrite skipn_firstn_comm, firstn_firstn.
    rewrite drop_app_ge by (unfold alen in *; nia). f_equal; [lia|]. f_equal. unfold alen in *. nia.
  - set (k := Z.to_nat ((off - nChunkSize p * alen cs1 + amt) / nChunkSize p)).
    assert (Ek : Z.to_nat ((off + amt) / nChunkSize p) = (length cs1 + k)%nat).
    { subst k. replace (off + amt) with (off - nChunkSize p * alen cs1 + amt + alen cs1 * nChunkSize p) by lia. rewrite Z.div_add by lia.
      pose proof (Z.div_pos (off - nChunkSize p * alen cs1 + amt) (nChunkSize p) ltac:(lia) Hn). unfold alen in *. lia. }
    rewrite Ek, Ecs, map_app, lookup_app_r by (rewrite length_map; lia). rewrite length_map.
    replace (length cs1 + k - length cs1)%nat with k by lia.
    destruct (drop k ((a, d) :: cs2)) as [|[b e] r] eqn:E; [by left|right]. cbn [head_of].
    apply (f_equal (fun l => l !! 0%nat)) in E. rewrite lookup_drop, Nat.add_0_r in E. cbn [lookup list_lookup] in E.
    change (map fst ((a, d) :: cs2)) with (fst <$> (a, d) :: cs2). by rewrite list_lookup_fmap, E.
Qed.

Lemma memjrnlRead_short off amt : alen c < off + amt -> memjrnlRead h p amt off = Some (SQLITE_IOERR_SHORT_READ, [], p).
Proof. intros H. unfold memjrnlRead. rewrite <- journal_alen. by rewrite (proj2 (Z.ltb_lt _ _)) by lia. Qed.

Lemma memjrnlRead_ok off amt : 0 <= off -> 0 < amt -> off + amt <= alen c ->
  exists rd, memjrnlRead h p amt off = Some (SQLITE_OK, fread c off amt,
      MkJournal (nChunkSize p) (nSpill p) (pFirst p) (endpoint p) rd (jFlags p)) /\
    journal_ok h0 h (MkJournal (nChunkSize p) (nSpill p) (pFirst p) (endpoint p) rd (jFlags p)) cs c.
Proof.
  intros Ho Ha Hl. pose proof journal_alen as HL. pose proof journal_size as Hsz.
  unfold memjrnlRead. rewrite (proj2 (Z.ltb_ge _ _)) by lia.
  assert (HP : exists a cs1 d cs2, cs = cs1 ++ (a, d) :: cs2 /\ nChunkSize p * alen cs1 <= off < nChunkSize p * (alen cs1 + 1) /\
    (if negb (iOffset (readpoint p) =? off) || (off =? 0) then seek_loop (S (size h)) h (nChunkSize p) off 0 (pFirst p)
     else Some (ptChunk (readpoint p))) = Some a).
  { pose proof Hj as [Hn Hs Hnd _ _ Hf He Hb _ Hrd]. destruct (negb _ || _) eqn:Ec.
    - destruct (seek_ok (nChunkSize p) h off cs (S (size h)) 0 (pFirst p) Hs) as (cs1 & a & d & cs2 & -> & Hi & ->); [lia|done|].
      exists a, cs1, d, cs2. split_and!; [done|lia|lia|done].
    - apply orb_false_iff in Ec as [Ea%negb_false_iff%Z.eqb_eq Eb%Z.eqb_neq]. destruct Hrd as [?|[Hp Hx]]; [lia|]. rewrite Ea in Hx.
      change (addrs cs) with (fst <$> cs) in Hx. rewrite list_lookup_fmap in Hx. destruct (cs !! _) as [[a d]|] eqn:E; [|done].
      cbn in Hx. injection Hx as <-. pose proof (lookup_lt_Some _ _ _ E) as Hlt. apply list_elem_of_split_length in E as (cs1 & cs2 & -> & E).
      exists a, cs1, d, cs2. pose proof (Z.div_mod off (nChunkSize p) ltac:(lia)). pose proof (Z.mod_pos_bound off (nChunkSize p) Hn).
      pose proof (Z.div_pos off (nChunkSize p) Ho Hn). assert (alen cs1 = off / nChunkSize p) as -> by (unfold alen; lia). split_and!; [done|lia|lia|done]. }
  destruct HP as (a & cs1 & d & cs2 & Ecs & Hi & ->). cbn [mbind option_bind].
  destruct (read_at _ _ _ _ off amt Ecs Hi Ha Hl) as (q & -> & Hq). cbn [mbind option_bind]. eexists. split; [done|].
  destruct Hj as [Hn Hs Hnd Hnew Hfr Hf He Hb Hla Hrd]. constructor; try done. cbn [readpoint iOffset ptChunk nChunkSize].
  destruct Hq as [->|Hq]; [by left|]. destruct (q =? 0); [by left|right]. split; [cbn [negb]; lia|done].
Qed.
End Journal.

(** ** Release and truncation *)

Lemma free_loop_ok cs : forall fuel h p, segment h p cs 0 -> NoDup (addrs cs) -> (length cs < fuel)%nat ->
  exists h', free_loop fuel h p = Some h' /\ (forall a, a ∈ addrs cs -> h' !! a = None) /\ (forall a, a ∉ addrs cs -> h' !! a = h !! a).
Proof.
  induction cs as [|[b d] cs IH]; intros fuel h p Hs Hnd Hf; (destruct fuel as [|fuel]; [cbn in Hf; lia|]); cbn [free_loop].
  - cbn [segment] in Hs. subst p. eexists. split; [done|]. split; [set_solver +|done].
  - destruct Hs as (-> & H0 & r & E & Hs). rewrite (proj2 (Z.eqb_neq b 0)) by done. rewrite E. cbn [mbind option_bind cNext].
    cbn [map fst] in *. apply NoDup_cons in Hnd as [Hb Hnd].
    destruct (IH fuel (delete b h) r) as (h' & -> & H1 & H2); [|done|cbn in Hf; lia|].
    + apply (segment_frame h); [|done]. intros a Ha. apply lookup_delete_ne. intros ->. done.
    + exists h'. split; [done|]. split.
      * intros a [->|Ha]%elem_of_cons; [|by apply H1]. rewrite H2 by done. apply lookup_delete_eq.
      * intros a [Ha1 Ha2]%not_elem_of_cons. rewrite H2 by done. by apply lookup_delete_ne.
Qed.

Lemma memjrnlFreeChunks_ok h p cs : segment h p cs 0 -> NoDup (addrs cs) ->
  exists h', memjrnlFreeChunks h p = Some h' /\ (forall a, a ∈ addrs cs -> h' !! a = None) /\ (forall a, a ∉ addrs cs -> h' !! a = h !! a).
Proof. intros Hs Hnd. apply free_loop_ok; [done|done|]. apply Nat.lt_succ_r. by eapply segment_size. Qed.

Lemma trunc_loop_ok n h sz cs : forall fuel iOff p, segment h p cs 0 -> 0 < sz - (iOff - n) <= n * alen cs -> (length cs < fuel)%nat ->
  exists cs1 a d cs2, cs = cs1 ++ (a, d) :: cs2 /\ n * alen cs1 < sz - (iOff - n) <= n * (alen cs1 + 1) /\ trunc_loop fuel h n sz iOff p = Some a.
Proof.
  induction cs as [|[a d] cs IH]; intros fuel iOff p Hs Hr Hf; [unfold alen in Hr; cbn in Hr; lia|]. destruct fuel as [|fuel]; [cbn in Hf; lia|].
  destruct Hs as (-> & H0 & r & E & Hs). cbn [trunc_loop]. rewrite (proj2 (Z.eqb_neq a 0)) by done. cbn [negb andb]. rewrite alen_cons in Hr.
  destruct (Z.ltb_spec iOff sz).
  - rewrite E. cbn [mbind option_bind cNext]. destruct (IH fuel (iOff + n) r Hs) as (cs1 & b & e & cs2 & -> & Hi & Hr2); [lia|cbn in Hf; lia|].
    exists ((a, d) :: cs1), b, e, cs2. split_and!; [done|rewrite alen_cons; lia|rewrite alen_cons; lia|done].
  - exists [], a, d, cs. split_and!; [done|unfold alen; cbn; lia|unfold alen; cbn; lia|done].
Qed.

Definition same_config (p p' : MemJournal) : Prop := nChunkSize p' = nChunkSize p /\ nSpill p' = nSpill p /\ jFlags p' = jFlags p.

Lemma last_of_snoc cs a d : last_of (cs ++ [(a, d)]) = a.
Proof. unfold last_of. by rewrite last_snoc. Qed.

(** The heap and the chain after the chunks behind [a] are gone. *)
Lemma cut_after h0 h p cs1 a d cs2 c : journal_ok h0 h p (cs1 ++ (a, d) :: cs2) c ->
  exists q h1 h2, h !! a = Some (MkChunk q d) /\ memjrnlFreeChunks h q = Some h1 /\ set_chunk_next h1 a 0 = Some h2 /\
    segment h2 (pFirst p) (cs1 ++ [(a, d)]) 0 /\ (forall x, x ∉ addrs (cs1 ++ [(a, d)]) -> h2 !! x = h0 !! x).
Proof.
  intros [_ Hs Hnd Hnew Hfr _ _ _ _ _]. apply segment_app in Hs as (x & Hs1 & (-> & H0 & q & E & Hs2)).
  rewrite map_app in *. cbn [map fst] in *. apply NoDup_app in Hnd as (Hnd1 & Hdis & Hnd2). apply NoDup_cons in Hnd2 as [Ha Hnd2].
  destruct (memjrnlFreeChunks_ok h q cs2 Hs2 Hnd2) as (h1 & Ef & F1 & F2).
  exists q, h1, (<[a := MkChunk 0 d]> h1). split_and!; try done.
  - unfold set_chunk_next. by rewrite F2, E by done.
  - apply segment_app. exists a. split.
    + apply (segment_frame h); [|done]. intros y Hy. rewrite lookup_insert_ne; [apply F2|]; [|set_solver].
      intros Hy2. apply (Hdis y Hy). set_solver + Hy2.
    + split_and!; try done. exists 0. split; [apply lookup_insert_eq|done].
  - intros y Hy. cbn [map fst] in Hy. rewrite lookup_insert_ne by set_solver + Hy.
    destruct (decide (y ∈ addrs cs2)) as [Hy2|Hy2]; [rewrite F1 by done; symmetry; apply Hnew; set_solver + Hy2|].
    rewrite F2 by done. apply Hfr. set_solver + Hy Hy2.
Qed.

Lemma memjrnlTruncate_ok h0 h p cs c sz : journal_ok h0 h p cs c -> 0 <= sz <= alen c ->
  exists p' h' cs', memjrnlTruncate h p sz = Some (SQLITE_OK, p', h') /\ same_config p p' /\
    journal_ok h0 h' p' cs' (take (Z.to_nat sz) c) /\ addrs cs' ⊆ addrs cs.
Proof.
  intros Hj Hsz. pose proof (journal_alen _ _ _ _ _ Hj) as HL. pose proof (journal_size _ _ _ _ _ Hj) as Hsize. unfold memjrnlTruncate.
  destruct (Z.ltb_spec sz (jEnd p)) as [Hlt|Hge].
  2: { exists p, h, cs. split_and!; try done. rewrite take_ge by (unfold alen in *; lia). done. }
  pose proof Hj as [Hn Hs Hnd Hnew Hfr Hf He Hb Hla Hrd]. destruct (Z.eqb_spec sz 0) as [->|Hnz].
  - destruct (memjrnlFreeChunks_ok h _ cs Hs Hnd) as (h' & -> & F1 & F2). cbn [mbind option_bind].
    eexists _, _, []. split; [done|]. split; [done|]. split; [|set_solver +]. constructor; cbn [nChunkSize pFirst endpoint readpoint iOffset ptChunk]; try done.
    + constructor.
    + set_solver +.
    + intros a _. destruct (decide (a ∈ addrs cs)) as [Ha|Ha]; [rewrite F1, Hnew by done; done|]. by rewrite F2, Hfr.
    + constructor.
    + unfold alen. cbn. lia.
    + by left.
  - destruct (trunc_loop_ok (nChunkSize p) h sz cs (S (size h)) (nChunkSize p) (pFirst p) Hs) as (cs1 & a & d & cs2 & -> & Hi & ->); [lia|done|].
    cbn [mbind option_bind]. destruct (cut_after _ _ _ _ _ _ _ _ Hj) as (q & h1 & h2 & E & E1 & E2 & Hs2 & F2).
    pose proof Hs2 as (x & _ & (-> & H0 & _))%segment_app. rewrite (proj2 (Z.eqb_neq a 0)) by done. cbn [negb].
    rewrite E. cbn [mbind option_bind cNext]. rewrite E1. cbn [mbind option_bind]. rewrite E2. cbn [mbind option_bind].
    eexists _, _, (cs1 ++ [(a, d)]). split; [done|]. split; [done|]. split; [|rewrite !map_app; set_solver +].
    assert (Hf1 : full (nChunkSize p) (cs1 ++ [(a, d)])) by (apply Forall_app in Hf as [? [? _]%Forall_cons]; apply Forall_app; repeat constructor; done).
    replace (cs1 ++ (a, d) :: cs2) with ((cs1 ++ [(a, d)]) ++ cs2) in Hb, Hnew, Hnd by by rewrite <- app_assoc.
    constructor; cbn [nChunkSize pFirst endpoint readpoint iOffset ptChunk]; try done.
    + rewrite map_app in Hnd. by apply NoDup_app in Hnd as (? & _).
    + intros y Hy. apply Hnew. rewrite map_app. apply elem_of_app. by left.
    + rewrite alen_app. change (alen [(a, d)]) with 1. lia.
    + rewrite Hb, take_take, Nat.min_l, bytes_app by lia. apply take_app_le.
      pose proof (bytes_alen _ _ Hf1) as HB. rewrite alen_app in HB. change (alen [(a, d)]) with 1 in HB. unfold alen in *. lia.
    + by rewrite last_of_snoc.
    + by left.
Qed.

(** After [memjrnlClose] nothing of the journal is left in the heap. *)
Lemma memjrnlClose_ok h0 h p cs c : journal_ok h0 h p cs c -> memjrnlClose h p = Some (SQLITE_OK, h0).
Proof.
  intros [_ Hs Hnd Hnew Hfr _ _ _ _ _]. unfold memjrnlClose. destruct (memjrnlFreeChunks_ok h _ cs Hs Hnd) as (h' & -> & F1 & F2). cbn [mbind option_bind].
  do 2 f_equal. apply map_eq. intros a. destruct (decide (a ∈ addrs cs)) as [Ha|Ha]; [rewrite F1, Hnew by done; done|]. by rewrite F2, Hfr.
Qed.

(** ** Appending *)

(** What the allocator gives: blocks of the size that was asked for, at addresses where
    nothing is live. *)
Definition news_ok (h : chunks) (n : Z) (news : list (option placed)) : Prop :=
  Forall (fun x => x.1 <> 0 /\ h !! x.1 = None /\ 8 + alen x.2 = fileChunkSize n) (omap id news) /\ NoDup (addrs (omap id news)).

Lemma chunk_bytes n (d : list Z) : 8 + alen d = fileChunkSize n -> alen d = n.
Proof. unfold fileChunkSize, sizeof_chunk. lia. Qed.

Lemma news_tail h n a raw news h' : news_ok h n (Some (a, raw) :: news) -> (forall x, x <> a -> h !! x = None -> h' !! x = None) -> news_ok h' n news.
Proof.
  intros [HF Hnd] Hh. cbn in HF, Hnd. apply Forall_cons in HF as [_ HF]. apply NoDup_cons in Hnd as [Ha Hnd]. split; [|done].
  apply Forall_forall. intros [b d] Hb. rewrite Forall_forall in HF. destruct (HF _ Hb) as (H1 & H2 & H3). split_and!; try done.
  apply Hh; [|done]. cbn. intros ->. apply Ha. apply list_elem_of_fmap. by exists (a, d).
Qed.

(** The bytes after a store into the last chunk. *)
Lemma bytes_store n cs1 a d off bs : full n (cs1 ++ [(a, d)]) -> 0 <= off -> off + alen bs <= n ->
  take (Z.to_nat (n * alen cs1 + off + alen bs)) (bytes (cs1 ++ [(a, fwrite d off bs)])) =
  take (Z.to_nat (n * alen cs1 + off)) (bytes (cs1 ++ [(a, d)])) ++ bs.
Proof.
  intros Hf Ho Hl. apply Forall_app in Hf as [Hf [Hd _]%Forall_cons]. cbn in Hd. pose proof (bytes_alen _ _ Hf) as HB.
  rewrite !bytes_app. unfold bytes at 2 4. cbn [map snd concat]. rewrite !app_nil_r. pose proof (alen_nonneg bs) as Hbs.
  rewrite !take_app, !(take_ge (bytes cs1)) by (unfold alen in *; lia). rewrite <- app_assoc. f_equal.
  rewrite fwrite_inside by lia. replace (Z.to_nat (n * alen cs1 + off + alen bs) - length (bytes cs1))%nat with (Z.to_nat (off + alen bs)) by (unfold alen in *; lia).
  replace (Z.to_nat (n * alen cs1 + off) - length (bytes cs1))%nat with (Z.to_nat off) by (unfold alen in *; lia).
  rewrite app_assoc, take_app_le by (rewrite length_app, length_take; unfold alen in *; lia). apply take_ge. rewrite length_app, length_take. unfold alen in *. lia.
Qed.

Section Append.
Context (h0 : chunks).

(** A chain whose last chunk has room from [off] on. *)
Lemma store_ok h n spill first rd fl cs1 a d off bs c : 0 < n -> segment h first (cs1 ++ [(a, d)]) 0 -> NoDup (addrs (cs1 ++ [(a, d)])) ->
  (forall x, x ∈ addrs (cs1 ++ [(a, d)]) -> h0 !! x = None) -> (forall x, x ∉ addrs (cs1 ++ [(a, d)]) -> h !! x = h0 !! x) ->
  full n (cs1 ++ [(a, d)]) -> 0 <= off -> 0 < alen bs -> off + alen bs <= n ->
  c = take (Z.to_nat (n * alen cs1 + off)) (bytes (cs1 ++ [(a, d)])) ->
  (iOffset rd = 0 \/ 0 < iOffset rd /\ addrs (cs1 ++ [(a, d)]) !! Z.to_nat (iOffset rd / n) = Some (ptChunk rd)) ->
  exists h' q, h !! a = Some (MkChunk q d) /\ mwrite d off bs = Some (fwrite d off bs) /\ set_chunk h a (fwrite d off bs) = Some h' /\
    (forall x, h' !! x = None <-> h !! x = None) /\
    journal_ok h0 h' (MkJournal n spill first (MkPoint (n * alen cs1 + off + alen bs) a) rd fl) (cs1 ++ [(a, fwrite d off bs)]) (c ++ bs).
Proof.
  intros Hn Hs Hnd Hnew Hfr Hf Ho Hb Hl Hc Hrd. pose proof Hf as Hf'. apply Forall_app in Hf' as [Hf1 [Hd _]%Forall_cons]. cbn in Hd.
  apply segment_app in Hs as (x & Hs1 & (-> & H0 & q & E & Hq)).
  assert (Ead : addrs (cs1 ++ [(a, fwrite d off bs)]) = addrs (cs1 ++ [(a, d)])) by (rewrite !map_app; done).
  exists (<[a := MkChunk q (fwrite d off bs)]> h), q. split_and!.
  - done.
  - unfold mwrite. rewrite !(proj2 (Z.leb_le _ _)) by lia. done.
  - unfold set_chunk. rewrite E. done.
  - intros y. destruct (decide (y = a)) as [->|]; [rewrite lookup_insert_eq, E; done|by rewrite lookup_insert_ne].
  - pose proof (alen_nonneg cs1). constructor; cbn [nChunkSize nSpill pFirst endpoint readpoint iOffset ptChunk]; rewrite ?Ead; try done.
    + apply segment_app. exists a. split; [apply (segment_frame h); [|done]|].
      * intros y Hy. rewrite lookup_insert_ne; [done|]. intros ->. rewrite map_app in Hnd. apply NoDup_app in Hnd as (_ & Hn2 & _). apply (Hn2 y Hy). set_solver +.
      * cbn [segment]. split_and!; try done. exists q. split; [apply lookup_insert_eq|done].
    + intros y Hy. rewrite lookup_insert_ne; [by apply Hfr|]. intros ->. apply Hy. rewrite map_app. set_solver +.
    + apply Forall_app. split; [done|]. repeat constructor. cbn. rewrite alen_write by lia. lia.
    + rewrite alen_app. change (alen [(a, fwrite d off bs)]) with 1. nia.
    + rewrite bytes_store by done. by rewrite Hc.
    + by rewrite last_of_snoc.
Qed.

(** A new chunk is linked to the end of the chain. *)
Lemma chunk_link_ok h p cs c a raw : journal_ok h0 h p cs c -> a <> 0 -> h !! a = None -> alen raw = nChunkSize p ->
  exists h1, (if negb (last_of cs =? 0) then set_chunk_next (<[a := MkChunk 0 raw]> h) (last_of cs) a else Some (<[a := MkChunk 0 raw]> h)) = Some h1 /\
    segment h1 (if negb (last_of cs =? 0) then pFirst p else a) (cs ++ [(a, raw)]) 0 /\ NoDup (addrs (cs ++ [(a, raw)])) /\
    (forall x, x ∈ addrs (cs ++ [(a, raw)]) -> h0 !! x = None) /\ (forall x, x ∉ addrs (cs ++ [(a, raw)]) -> h1 !! x = h0 !! x) /\
    full (nChunkSize p) (cs ++ [(a, raw)]) /\ (forall x, x <> a -> h !! x = None -> h1 !! x = None).
Proof.
  intros [_ Hs Hnd Hnew Hfr Hf _ _ _ _] Ha Hfresh Hraw.
  assert (Hin : a ∉ addrs cs) by (intros Hx; destruct (segment_live _ _ _ _ _ Hs Hx) as [_ [? E]]; congruence).
  assert (Hh0 : h0 !! a = None) by (rewrite <- Hfr by done; done).
  assert (HND : NoDup (addrs (cs ++ [(a, raw)]))) by (rewrite map_app; cbn [map fst]; apply NoDup_app; split_and!; [done|set_solver + Hin|apply NoDup_singleton]).
  assert (HNEW : forall x, x ∈ addrs (cs ++ [(a, raw)]) -> h0 !! x = None).
  { intros x. rewrite map_app. cbn [map fst]. intros [?| ->%list_elem_of_singleton]%elem_of_app; [by apply Hnew|done]. }
  assert (HF : full (nChunkSize p) (cs ++ [(a, raw)])) by (apply Forall_app; split; [done|by repeat constructor]).
  destruct cs as [|[b d] cs1 _] using rev_ind.
  - exists (<[a := MkChunk 0 raw]> h). cbn [last_of]. change (last_of []) with 0. cbn [Z.eqb negb app]. split_and!; try done.
    + cbn [segment]. split_and!; try done. exists 0. split; [apply lookup_insert_eq|done].
    + intros x Hx. rewrite lookup_insert_ne by (set_solver + Hx). apply Hfr. set_solver +.
    + intros x Hx Hx2. by rewrite lookup_insert_ne.
  - rewrite last_of_snoc. apply segment_app in Hs as (x & Hs1 & (-> & H0 & q & E & ->)). rewrite (proj2 (Z.eqb_neq b 0)) by done. cbn [negb].
    assert (Hab : a <> b) by (intros ->; apply Hin; rewrite map_app; set_solver +). rewrite map_app in Hnd, Hin. cbn [map fst] in Hnd, Hin. apply NoDup_app in Hnd as (_ & Hb & _).
    exists (<[b := MkChunk a d]> (<[a := MkChunk 0 raw]> h)). split_and!; try done.
    + unfold set_chunk_next. rewrite lookup_insert_ne, E by done. done.
    + rewrite <- app_assoc. apply segment_app. exists b. split.
      * apply (segment_frame h); [|done]. intros y Hy. rewrite !lookup_insert_ne; [done| |]; [set_solver + Hin Hy|]. intros ->. apply (Hb y Hy). set_solver +.
      * cbn [segment app]. split_and!; try done. exists a. split; [apply lookup_insert_eq|]. split_and!; try done. exists 0. rewrite lookup_insert_ne, lookup_insert_eq by done. done.
    + intros y Hy. rewrite !map_app in Hy. cbn [map fst] in Hy. rewrite !lookup_insert_ne by set_solver + Hy. apply Hfr. rewrite map_app. set_solver + Hy.
    + intros y Hy Hy2. rewrite !lookup_insert_ne; [done|done|]. intros ->. congruence.
Qed.

(** Allocations that are enough for [bs]. *)
Definition plenty (n : Z) (bs : list Z) (news : list (option placed)) : Prop :=
  (None ∉ news) /\ alen bs <= n * alen news.

(** What became of the bytes [bs] that were to be appended: all of them are there, or
    those before an allocation that failed. *)
Definition appended (n rc : Z) (news : list (option placed)) (c bs c' : list Z) : Prop :=
  rc = SQLITE_OK /\ c' = c ++ bs \/ rc = SQLITE_IOERR_NOMEM /\ ~ plenty n bs news /\ exists k, c' = c ++ take k bs.

Lemma appended_more n rc news news' c bs m c' : appended n rc news' (c ++ take m bs) (drop m bs) c' ->
  (plenty n bs news -> plenty n (drop m bs) news') -> appended n rc news c bs c'.
Proof.
  intros [[-> ->]|(-> & Hp & j & ->)] Hpl; [left|right]; split; try done.
  - by rewrite <- app_assoc, take_drop.
  - split; [tauto|]. exists (m + j)%nat. by rewrite <- app_assoc, take_take_drop.
Qed.

Lemma alen_drop {A} (l : list A) m : 0 <= m <= alen l -> alen (drop (Z.to_nat m) l) = alen l - m.
Proof. unfold alen. rewrite length_drop. lia. Qed.

(** The place where the next byte goes. *)
Lemma end_place h p cs c : journal_ok h0 h p cs c ->
  let off := Z.rem (jEnd p) (nChunkSize p) in
  off = 0 /\ jEnd p = nChunkSize p * alen cs \/
  0 < off < nChunkSize p /\ exists cs1 d, cs = cs1 ++ [(last_of cs, d)] /\ jEnd p = nChunkSize p * alen cs1 + off.
Proof.
  intros [Hn _ _ _ _ _ He _ _ _]. cbn zeta. rewrite Z.rem_mod_nonneg by lia. pose proof (Z.mod_pos_bound (jEnd p) (nChunkSize p) Hn).
  pose proof (Z.div_mod (jEnd p) (nChunkSize p) ltac:(lia)) as E. set (k := jEnd p / nChunkSize p) in *.
  destruct (Z.eq_dec (jEnd p mod nChunkSize p) 0) as [Ez|Ez]; [left; split; [done|]|right; split; [lia|]].
  - assert (alen cs = k) by nia. nia.
  - destruct cs as [|[a d] cs1 _] using rev_ind; [change (alen []) with 0 in He; replace (jEnd p) with 0 in Ez by lia; done|]. exists cs1, d. rewrite last_of_snoc. split; [done|].
    rewrite alen_app in He. change (alen [(a, d)]) with 1 in He. assert (alen cs1 = k) as -> by nia. done.
Qed.

Lemma append_loop_ok : forall fuel news h p cs c zWrite, journal_ok h0 h p cs c -> news_ok h (nChunkSize p) news -> (length zWrite < fuel)%nat ->
  exists rc p' h' cs' c', append_loop fuel news h p zWrite = Some (rc, p', h') /\ same_config p p' /\ journal_ok h0 h' p' cs' c' /\ appended (nChunkSize p) rc news c zWrite c'.
Proof.
  induction fuel as [|fuel IH]; intros news h p cs c zWrite Hj Hnews Hf; [lia|]. cbn [append_loop].
  destruct (Z.ltb_spec 0 (alen zWrite)) as [Hpos|Hz]; cbn [negb].
  2: { exists SQLITE_OK, p, h, cs, c. split_and!; try done. left. destruct zWrite; [by rewrite app_nil_r|rewrite alen_cons in Hz; unfold alen in Hz; lia]. }
  pose proof Hj as [Hn Hs Hnd Hnew Hfr Hfull He Hb Hla Hrd]. pose proof (end_place _ _ _ _ Hj) as Hp. cbn zeta in Hp.
  set (off := Z.rem (jEnd p) (nChunkSize p)) in *. set (m := Z.min (alen zWrite) (nChunkSize p - off)).
  assert (Hoff : 0 <= off < nChunkSize p) by lia. assert (Hm : 0 < m <= alen zWrite) by lia.
  assert (Htk : alen (take (Z.to_nat m) zWrite) = m) by (apply alen_take; lia).
  assert (Hrest : (length (drop (Z.to_nat m) zWrite) < fuel)%nat) by (rewrite length_drop; unfold alen in *; lia).
  destruct Hp as [[Eo EE]|(Ho & cs1 & d & Ecs & EE)].
  - rewrite Eo. cbn [Z.eqb]. destruct news as [|[[a raw]|] news].
    1, 3: exists SQLITE_IOERR_NOMEM, p, h, cs, c; split_and!; try done; right; split; [done|]; (split; [|exists 0%nat; by rewrite take_0, app_nil_r]); intros [Hno Hlen].
    1: change (alen []) with 0 in Hlen; lia.
    1: apply Hno; set_solver +.
    pose proof (proj1 Hnews) as HF. cbn in HF. apply Forall_cons in HF as [(Ha & Hfresh & Hraw%chunk_bytes) _]. cbn [fst snd] in *.
    destruct (chunk_link_ok _ _ _ _ a raw Hj Ha Hfresh Hraw) as (h1 & E1 & S1 & N1 & W1 & F1 & L1 & Fr1).
    destruct (store_ok h1 (nChunkSize p) (nSpill p) _ (readpoint p) (jFlags p) cs a raw 0 (take (Z.to_nat m) zWrite) c Hn S1 N1 W1 F1 L1)
      as (h2 & q & Eq & Ew & Ec & Hdom & Hj2); try lia.
    { rewrite Z.add_0_r, Hb, EE, bytes_app. symmetry. apply take_app_le. pose proof (bytes_alen _ _ Hfull). unfold alen in *. lia. }
    { destruct Hrd as [?|[? Hx]]; [by left|right; split; [done|]]. rewrite map_app. by apply lookup_app_l_Some. }
    rewrite Htk, <- EE in Hj2. replace (jEnd p + 0 + m) with (jEnd p + m) in Hj2 by lia.
    destruct (IH news h2 _ _ _ (drop (Z.to_nat m) zWrite) Hj2) as (rc & p' & h' & cs' & c' & E & Hc & Hj' & Happ).
    { apply (news_tail _ _ _ _ _ _ Hnews). intros x Hx Hxn. by apply Hdom, Fr1. }
    { done. }
    exists rc, p', h', cs', c'. split_and!; [|exact Hc|done|].
    2: { apply (appended_more _ _ _ _ _ _ _ _ Happ). intros [Hno Hlen]. split; [set_solver + Hno|]. rewrite alen_drop by lia. rewrite alen_cons in Hlen. cbn [nChunkSize] in *.
      pose proof (Z.mul_nonneg_nonneg (nChunkSize p) (alen news) ltac:(lia) (alen_nonneg _)). lia. }
    rewrite Hla.
    destruct (negb (last_of cs =? 0)); cbn [nChunkSize nSpill pFirst endpoint readpoint jFlags iOffset ptChunk] in *.
    + rewrite E1. cbn [mbind option_bind]. rewrite Eq. cbn [mbind option_bind zChunk]. rewrite Ew. cbn [mbind option_bind]. rewrite Ec. cbn [mbind option_bind]. exact E.
    + injection E1 as <-. rewrite Eq. cbn [mbind option_bind zChunk]. rewrite Ew. cbn [mbind option_bind]. rewrite Ec. cbn [mbind option_bind]. exact E.
  - rewrite (proj2 (Z.eqb_neq off 0)) by lia. rewrite Ecs in Hs, Hnd, Hnew, Hfr, Hfull, Hb, Hrd.
    destruct (store_ok h (nChunkSize p) (nSpill p) _ (readpoint p) (jFlags p) cs1 _ d off (take (Z.to_nat m) zWrite) c Hn Hs Hnd Hnew Hfr Hfull)
      as (h2 & q & Eq & Ew & Ec & Hdom & Hj2); try lia; [by rewrite <- EE|done|].
    rewrite Htk, <- EE in Hj2.
    destruct (IH news h2 _ _ _ (drop (Z.to_nat m) zWrite) Hj2) as (rc & p' & h' & cs' & c' & E & Hc & Hj' & Happ).
    { destruct Hnews as [HF HN]. split; [|done]. eapply Forall_impl; [exact HF|]. intros x (?&?&?). split_and!; try done. by apply Hdom. }
    { done. }
    exists rc, p', h', cs', c'. split_and!; [|exact Hc|done|].
    2: { apply (appended_more _ _ _ _ _ _ _ _ Happ). intros [Hno Hlen]. split; [done|]. rewrite alen_drop by lia. cbn [nChunkSize] in *. lia. }
    rewrite Hla, Eq. cbn [mbind option_bind zChunk]. rewrite Ew. cbn [mbind option_bind]. rewrite Ec. cbn [mbind option_bind]. exact E.
Qed.
End Append.

(** ** Writing at the start *)

Lemma rewrite_first h0 h p cs c bs : journal_ok h0 h p cs c -> 0 < alen bs -> alen bs <= alen c -> alen bs <= nChunkSize p ->
  exists ch h' cs', h !! pFirst p = Some ch /\ pFirst p <> 0 /\ mwrite (zChunk ch) 0 bs = Some (fwrite (zChunk ch) 0 bs) /\
    set_chunk h (pFirst p) (fwrite (zChunk ch) 0 bs) = Some h' /\ journal_ok h0 h' p cs' (fwrite c 0 bs).
Proof.
  intros Hj Hpos Hl Hln. pose proof (journal_alen _ _ _ _ _ Hj) as HL. destruct Hj as [Hn Hs Hnd Hnew Hfr Hf He Hb Hla Hrd].
  destruct cs as [|[a d] cs]; [change (alen []) with 0 in He; lia|]. destruct Hs as (Ep & H0 & q & E & Hs). rewrite Ep. apply Forall_cons in Hf as [Hd Hf]. cbn in Hd.
  exists (MkChunk q d), (<[a := MkChunk q (fwrite d 0 bs)]> h), ((a, fwrite d 0 bs) :: cs). cbn [zChunk]. split_and!; try done.
  - unfold mwrite. rewrite !(proj2 (Z.leb_le _ _)) by lia. done.
  - unfold set_chunk. by rewrite E.
  - cbn [map fst] in *. apply NoDup_cons in Hnd as [Ha Hnd]. constructor; try done.
    + cbn [segment]. split_and!; try done. exists q. split; [apply lookup_insert_eq|]. apply (segment_frame h); [|done].
      intros y Hy. rewrite lookup_insert_ne; [done|]. by intros ->.
    + by apply NoDup_cons.
    + intros y Hy. rewrite lookup_insert_ne; [by apply Hfr|]. intros ->. apply Hy. set_solver +.
    + apply Forall_cons. split; [|done]. cbn. rewrite alen_write by lia. lia.
    + subst c. unfold bytes in *. cbn [map snd concat] in *. rewrite !fwrite_inside by lia. cbn [Z.to_nat take]. rewrite !app_nil_l.
      rewrite skipn_firstn_comm, drop_app_le by (unfold alen in *; lia). rewrite <- app_assoc. symmetry. rewrite take_app, (take_ge bs) by (unfold alen in *; lia).
      do 2 f_equal. unfold alen. lia.
    + rewrite Hla. unfold last_of. destruct cs; done.
Qed.

(** ** Spilling *)

Lemma spill_loop_ok h n E disk cs : 0 < n -> forall fuel p nChunk iOff pre io, segment h p cs 0 -> full n cs -> (nChunk = n \/ cs = []) ->
  0 <= iOff -> 0 <= E - iOff -> E - iOff <= n * alen cs < E - iOff + n -> alen pre = iOff -> io_ok io -> (length cs < fuel)%nat ->
  exists rc f' io', spill_loop fuel h E p nChunk iOff (fwrite disk 0 pre) io = Some (rc, f', io') /\ io_ok io' /\ io_clean io rc io' /\
    (rc = SQLITE_OK -> f' = fwrite disk 0 (pre ++ take (Z.to_nat (E - iOff)) (bytes cs))).
Proof.
  intros Hn. induction cs as [|[a d] cs IH]; intros fuel p nChunk iOff pre io Hs Hf Hnc Hi HE Hl Hpre Hio Hfu; (destruct fuel as [|fuel]; [cbn in Hfu; lia|]); cbn [spill_loop].
  - cbn [segment] in Hs. subst p. cbn [Z.eqb]. eexists _, _, _. split; [done|]. split_and!; [done|done|]. intros _.
    change (bytes []) with (@nil Z). rewrite take_nil, app_nil_r. done.
  - destruct Hs as (-> & H0 & q & Ea & Hs). rewrite (proj2 (Z.eqb_neq a 0)) by done. rewrite Ea. cbn [mbind option_bind zChunk cNext].
    destruct Hnc as [->|?]; [|done]. apply Forall_cons in Hf as [Hd Hf]. cbn in Hd. rewrite alen_cons in Hl.
    set (k := if E <? iOff + n then E - iOff else n).
    assert (Hk : k = Z.min n (E - iOff)) by (unfold k; destruct (Z.ltb_spec E (iOff + n)); lia). pose proof (alen_nonneg cs).
    assert (Hk0 : 0 < k <= n) by nia. rewrite mread_ok by lia. cbn [mbind option_bind]. rewrite fread_take_drop by lia. change (drop (Z.to_nat 0) d) with d.
    destruct (os_write io _ iOff _) as [[rc f'] io1] eqn:Ew. destruct (os_write_spec 0 _ _ _ _ _ _ _ Hio Hi ltac:(lia) Ew) as (Hio1 & _ & Hok & Hcl).
    destruct (Z.eqb_spec rc SQLITE_OK) as [->|Hrc]; cbn [negb].
    2: { eexists _, _, _. split; [done|]. split_and!; [done|done|]. by intros. }
    rewrite Hok by done. clear Hok. assert (Hlk : alen (take (Z.to_nat k) d) = k) by (apply alen_take; lia).
    assert (Hcat : forall x, fwrite (fwrite disk 0 pre) iOff x = fwrite disk 0 (pre ++ x)) by (intros x; rewrite <- fwrite_app by lia; f_equal; lia).
    rewrite Hcat.
    destruct (IH fuel q k (iOff + k) (pre ++ take (Z.to_nat k) d) io1 Hs Hf) as (rc & f2 & io2 & -> & Hio2 & Hcl2 & Hok2); [|lia|lia|nia|rewrite alen_app; lia|done|cbn in Hfu; lia|].
    { destruct (Z.ltb_spec E (iOff + n)); [right|left; done]. destruct cs as [|x cs]; [done|]. rewrite alen_cons in Hl. pose proof (alen_nonneg cs). nia. }
    eexists _, _, _. split; [done|]. split_and!; [done| |].
    + intros Hio0. destruct (Hcl Hio0) as [_ ->]. by apply Hcl2.
    + intros Hrc. rewrite Hok2 by done. f_equal. rewrite <- app_assoc. f_equal. change (bytes ((a, d) :: cs)) with (d ++ bytes cs).
      rewrite take_app. f_equal; [|f_equal; unfold alen in *; lia]. destruct (Z.min_spec n (E - iOff)) as [[? Em]|[? Em]]; rewrite Em in Hk.
      * rewrite !take_ge by (unfold alen in *; lia). done.
      * f_equal. lia.
Qed.

Lemma fwrite_over disk c : alen disk <= alen c -> fwrite disk 0 c = c.
Proof. intros H. rewrite fwrite_end by (pose proof (alen_nonneg disk); lia). done. Qed.

Lemma memjrnlCreateFile_ok h0 h p cs c io disk : journal_ok h0 h p cs c -> io_ok io -> alen disk <= alen c ->
  exists rc fd h' io', memjrnlCreateFile io disk h p = Some (rc, fd, h', io') /\ io_ok io' /\ io_clean io rc io' /\
    (rc = SQLITE_OK /\ fd = FReal c /\ h' = h0 \/ rc <> SQLITE_OK /\ fd = FMem p /\ h' = h).
Proof.
  intros Hj Hio Hd. pose proof (journal_alen _ _ _ _ _ Hj) as HL. pose proof (journal_size _ _ _ _ _ Hj) as Hsz.
  pose proof (memjrnlClose_ok _ _ _ _ _ Hj) as Hcl. destruct Hj as [Hn Hs Hnd Hnew Hfr Hf He Hb Hla Hrd].
  unfold memjrnlCreateFile, os_open. destruct (io_next io) as [r io1] eqn:En. destruct (io_next_ok _ _ _ Hio En) as [Hio1 Hr].
  destruct r as [|rc junk].
  2: { eexists _, _, _, _. split; [done|]. split_and!; [done| |right; done]. intros ->. cbn in En. by simplify_eq. }
  replace disk with (fwrite disk 0 []) by (unfold fwrite, fextend; cbn; by rewrite app_nil_r || (rewrite Z.sub_0_l; cbn; done)).
  destruct (spill_loop_ok h (nChunkSize p) (jEnd p) disk cs Hn (S (size h)) (pFirst p) (nChunkSize p) 0 [] io1 Hs Hf) as (rc & f' & io2 & -> & Hio2 & Hc2 & Hok);
    [by left|lia|lia|lia|done|done|done|]. cbn [mbind option_bind].
  assert (Hclean : io_clean io rc io2) by (intros ->; cbn in En; injection En as <-; by apply Hc2).
  destruct (Z.eqb_spec rc SQLITE_OK) as [->|Hrc].
  - rewrite Hok, app_nil_l, Z.sub_0_r, <- Hb, fwrite_over by done. unfold memjrnlClose in Hcl.
    destruct (memjrnlFreeChunks h (pFirst p)) as [h'|]; [|done]. cbn in Hcl. injection Hcl as ->. cbn [mbind option_bind].
    eexists _, _, _, _. split; [done|]. split_and!; [done|done|by left].
  - eexists _, _, _, _. split; [done|]. split_and!; [done|done|by right].
Qed.
