(* ===== verification/MemJrnlSpec.v ===== *)
(** * Journals in memory behave as files

    A handle stands for bytes, in chunks or in a file.  The refinement: whatever
    allocations and calls of the VFS fail, a journal is a file, whether its bytes are
    in memory or were spilled. *)
From S2P Require Import Prelude FileIO MemJournal MemJrnlRep.

(** ** Handles as files *)

(** A handle stands for the bytes [c]; [h0] is the heap apart from the journal. *)
Inductive stands_for (h0 h : chunks) : sqlite3_file -> list Z -> Prop :=
  | Stands_mem p cs c : journal_ok h0 h p cs c -> stands_for h0 h (FMem p) c
  | Stands_real f : h = h0 -> stands_for h0 h (FReal f) f.

Definition jsize (fd : sqlite3_file) : Z :=
  match fd with FMem p => jEnd p | FReal f => alen f | FNone => 0 end.

Lemma stands_size h0 h fd c : stands_for h0 h fd c -> jsize fd = alen c.
Proof. intros [p cs c' Hj|f _]; [|done]. symmetry. by eapply journal_alen. Qed.

(** Where a caller may write: at the end, over the end, or over the start of a journal
    whose first chunk has the room; [disk] is what a new file would hold. *)
Definition write_legal (fd : sqlite3_file) (h : chunks) (bs : list Z) (off : Z) (disk : file) (news : list (option placed)) : Prop :=
  0 < alen bs /\ alen disk <= jsize fd /\
  (off = 0 /\ jsize fd = 0 \/ 0 < off <= jsize fd /\ jsize fd <= off + alen bs \/
   off = 0 /\ alen bs <= jsize fd /\ match fd with FMem p => alen bs <= nChunkSize p | _ => True end) /\
  match fd with FMem p => news_ok h (nChunkSize p) news | _ => True end.

Definition short_of (fd : sqlite3_file) (bs : list Z) (news : list (option placed)) : Prop :=
  match fd with FMem p => ~ plenty (nChunkSize p) bs news | _ => False end.

(** A write either does what it does to a file, or it fails for a reason and leaves
    what was before the offset. *)
Definition written (fd : sqlite3_file) (io : list io_res) (news : list (option placed)) (c bs : list Z) (off rc : Z) (c' : list Z) : Prop :=
  rc = SQLITE_OK /\ c' = fwrite c off bs \/
  rc <> SQLITE_OK /\ (io <> [] \/ short_of fd bs news) /\ keeps off c c'.

Lemma keeps_prefix n (c x : list Z) : 0 <= n <= alen c -> keeps n c (take (Z.to_nat n) c ++ x).
Proof.
  intros Hn. assert (Hl : alen (take (Z.to_nat n) c) = n) by (apply alen_take; lia). split.
  - intros i Hi. rewrite fbyte_app_l by lia. apply fbyte_take. lia.
  - rewrite alen_app. pose proof (alen_nonneg x). lia.
Qed.

Lemma real_write h0 f io bs off : io_ok io -> 0 <= off -> forall fd news,
  exists rc f' io', os_write io f off bs = (rc, f', io') /\ io_ok io' /\ (io = [] -> io' = []) /\ stands_for h0 h0 (FReal f') f' /\ written fd io news f bs off rc f'.
Proof.
  intros Hio Ho fd news. destruct (os_write io f off bs) as [[rc f'] io'] eqn:E.
  destruct (os_write_spec off _ _ _ _ _ _ _ Hio Ho ltac:(lia) E) as (Hio' & Hk & Hok & Hcl).
  exists rc, f', io'. split_and!; [done|done|intros Hn; by apply Hcl|by constructor|].
  destruct (Z.eq_dec rc SQLITE_OK) as [->|Hrc]; [left; auto|right; split; [done|]]. split; [left; intros Hn; by destruct (Hcl Hn)|done].
Qed.

Lemma journal_dom h0 h h' p p' cs cs' c c' x : journal_ok h0 h p cs c -> journal_ok h0 h' p' cs' c' -> addrs cs' ⊆ addrs cs ->
  h !! x = None -> h' !! x = None.
Proof.
  intros Hj Hj' Hsub Hx. assert (x ∉ addrs cs) as Hin.
  { intros Hin. destruct (segment_live _ _ _ _ _ (jo_seg _ _ _ _ _ Hj) Hin) as [_ [? ?]]. congruence. }
  rewrite (jo_frame _ _ _ _ _ Hj') by set_solver + Hin Hsub. by rewrite <- (jo_frame _ _ _ _ _ Hj).
Qed.

Lemma news_shrink h h' n news : news_ok h n news -> (forall x, h !! x = None -> h' !! x = None) -> news_ok h' n news.
Proof. intros [HF HN] Hh. split; [|done]. eapply Forall_impl; [exact HF|]. intros x (? & ? & ?). auto. Qed.

(** The truncation before an append at [off]. *)
Lemma truncate_first h0 h p cs c off news : journal_ok h0 h p cs c -> news_ok h (nChunkSize p) news -> 0 <= off <= alen c ->
  (off = 0 -> alen c = 0) ->
  exists p1 h1 cs1, (if (0 <? off) && negb (off =? jEnd p) then '(_, p0, h1) ← memjrnlTruncate h p off; Some (p0, h1) else Some (p, h)) = Some (p1, h1) /\
    (off =? 0) && negb (pFirst p1 =? 0) = false /\
    same_config p p1 /\ journal_ok h0 h1 p1 cs1 (take (Z.to_nat off) c) /\ news_ok h1 (nChunkSize p1) news.
Proof.
  intros Hj Hnews Ho H0. pose proof (journal_alen _ _ _ _ _ Hj) as HL. rewrite <- HL.
  assert (Hsame : off = alen c -> exists p1 h1 cs1, Some (p, h) = Some (p1, h1) /\ (off =? 0) && negb (pFirst p1 =? 0) = false /\
    same_config p p1 /\ journal_ok h0 h1 p1 cs1 (take (Z.to_nat off) c) /\ news_ok h1 (nChunkSize p1) news).
  { intros ->. exists p, h, cs. rewrite take_ge by (unfold alen; lia). split_and!; try done.
    destruct (Z.eqb_spec (alen c) 0) as [Ez|]; [|done]. destruct Hj as [Hn Hs _ _ _ _ He _ _ _].
    rewrite (segment_null _ _ _ Hs), bool_decide_eq_true_2; [done|]. destruct cs; [done|]. rewrite alen_cons in He. pose proof (alen_nonneg cs). nia. }
  destruct (Z.ltb_spec 0 off); cbn [andb]; [|apply Hsame; lia].
  destruct (Z.eqb_spec off (alen c)) as [->|]; cbn [negb]; [by apply Hsame|].
  destruct (memjrnlTruncate_ok _ _ _ _ _ off Hj) as (p1 & h1 & cs1 & -> & Hc & Hj1 & Hsub); [lia|]. exists p1, h1, cs1.
  rewrite (proj2 (Z.eqb_neq off 0)) by lia. split_and!; try done. rewrite (proj1 Hc). eapply news_shrink; [done|]. intros x. by eapply journal_dom.
Qed.

Lemma memjrnlWrite_ok h0 h p cs c io bs off disk news : journal_ok h0 h p cs c -> io_ok io -> write_legal (FMem p) h bs off disk news ->
  exists rc fd' h' io' c', memjrnlWrite io disk news h p bs off = Some (rc, fd', h', io') /\ io_ok io' /\ (io = [] -> io' = []) /\
    stands_for h0 h' fd' c' /\ written (FMem p) io news c bs off rc c'.
Proof.
  intros Hj Hio (Hpos & Hdisk & Hoff & Hnews). pose proof (journal_alen _ _ _ _ _ Hj) as HL. cbn [jsize] in *. rewrite <- HL in Hdisk, Hoff.
  unfold memjrnlWrite. pose proof (alen_nonneg c) as Hc0. destruct ((0 <? nSpill p) && _).
  - destruct (memjrnlCreateFile_ok _ _ _ _ _ io disk Hj Hio Hdisk) as (rc & fd & h' & io1 & -> & Hio1 & Hcl & [(-> & -> & ->)|(Hrc & -> & ->)]); cbn [mbind option_bind].
    + destruct (real_write h0 c io1 bs off Hio1 ltac:(lia) (FMem p) news) as (rc & f' & io' & -> & Hio' & Hcl' & Hst & Hw).
      exists rc, (FReal f'), h0, io', f'. split_and!; try done; [intros Hn; apply Hcl'; by apply Hcl|].
      destruct Hw as [Hw|(H1 & [H2|H2] & H3)]; [by left|right|right]; (split; [done|]); (split; [|done]); [left|by right]. intros Hn. apply H2. by apply Hcl.
    + exists rc, (FMem p), h, io1, c. split_and!; try done; [intros Hn; by apply Hcl|by econstructor|right]. split; [done|].
      split; [left; intros Hn; by destruct (Hcl Hn)|apply keeps_refl].
  - assert (Hcase : (off = 0 /\ 0 < alen c /\ alen bs <= alen c /\ alen bs <= nChunkSize p) \/ 0 <= off <= alen c /\ (off = 0 -> alen c = 0) /\ alen c <= off + alen bs) by lia.
    destruct Hcase as [(-> & Hcp & Hl & Hln)|(Ho & H0 & He)].
    + destruct (rewrite_first _ _ _ _ _ _ Hj Hpos Hl Hln) as (ch & h' & cs' & E1 & E2 & E3 & E4 & Hj'). cbn [Z.ltb Z.compare andb mbind option_bind Z.eqb].
      rewrite (proj2 (Z.eqb_neq _ _) E2). cbn [negb]. rewrite E1. cbn [mbind option_bind]. rewrite E3. cbn [mbind option_bind]. rewrite E4. cbn [mbind option_bind].
      eexists _, _, _, _, _. split; [done|]. split_and!; [done|done|by econstructor|by left].
    + destruct (truncate_first _ _ _ _ _ off news Hj Hnews Ho H0) as (p1 & h1 & cs1 & -> & E1 & Hc & Hj1 & Hn1). cbn [mbind option_bind]. rewrite E1.
      destruct (append_loop_ok h0 (S (length bs)) news h1 p1 cs1 _ bs Hj1 Hn1) as (rc & p2 & h2 & cs2 & c' & -> & _ & Hj2 & Happ); [lia|]. cbn [mbind option_bind].
      eexists _, _, _, _, c'. split; [done|]. split_and!; [done|done|by econstructor|].
      destruct Happ as [[-> ->]|(-> & Hp & k & ->)]; [left|right].
      * split; [done|]. by rewrite fwrite_end by lia.
      * split; [done|]. split; [right; cbn; by rewrite <- (proj1 Hc)|]. by apply keeps_prefix.
Qed.

(** ** Runs *)

(** Operations of the pager on a journal, with what their calls of the allocator and of
    [sqlite3OsOpen] find. *)
Inductive jop : Type :=
  | JRead (amt off : Z)
  | JWrite (bs : list Z) (off : Z) (disk : file) (news : list (option placed))
  | JTruncate (sz : Z)
  | JFileSize
  | JSync (flags : Z)
  | JCreate (batch : bool) (disk : file).

(** The handle, the heap, and the outcomes of the calls of the VFS to come. *)
Abbreviation jstate := (sqlite3_file * chunks * list io_res)%type.

(** The return code and what was read. *)
Definition jstep (st : jstate) (o : jop) : option (Z * list Z * jstate) :=
  let '(fd, h, io) := st in
  match o with
  | JRead amt off => '(rc, bs, fd, io) ← sqlite3OsRead io h fd amt off; Some (rc, bs, (fd, h, io))
  | JWrite bs off disk news => '(rc, fd, h, io) ← sqlite3OsWrite io disk news h fd bs off; Some (rc, [], (fd, h, io))
  | JTruncate sz => '(rc, fd, h, io) ← sqlite3OsTruncate io h fd sz; Some (rc, [], (fd, h, io))
  | JFileSize => '(rc, n, io) ← sqlite3OsFileSize io fd; Some (rc, [n], (fd, h, io))
  | JSync flags => '(rc, io) ← sqlite3OsSync io fd flags; Some (rc, [], (fd, h, io))
  | JCreate batch disk => '(rc, fd, h, io) ← sqlite3JournalCreate batch io disk h fd; Some (rc, [], (fd, h, io))
  end.

Definition jlegal (st : jstate) (o : jop) : Prop :=
  let '(fd, h, _) := st in
  match o with
  | JRead amt off => 0 < amt /\ 0 <= off
  | JWrite bs off disk news => write_legal fd h bs off disk news
  | JTruncate sz => 0 <= sz <= jsize fd
  | JCreate _ disk => alen disk <= jsize fd
  | _ => True
  end.

(** What an operation does to a file of bytes [c]; [excuse] is a reason to fail. *)
Definition jdoes (excuse : Prop) (c : list Z) (o : jop) (rc : Z) (out c' : list Z) : Prop :=
  match o with
  | JRead amt off =>
      c' = c /\ (rc = SQLITE_OK /\ off + amt <= alen c /\ out = fread c off amt \/ rc <> SQLITE_OK /\ (excuse \/ alen c < off + amt))
  | JWrite bs off _ _ => rc = SQLITE_OK /\ c' = fwrite c off bs \/ rc <> SQLITE_OK /\ excuse /\ keeps off c c'
  | JTruncate sz => rc = SQLITE_OK /\ c' = ftruncate c sz \/ rc <> SQLITE_OK /\ excuse /\ c' = c
  | JFileSize => c' = c /\ (rc = SQLITE_OK /\ out = [alen c] \/ rc <> SQLITE_OK /\ excuse)
  | JSync _ | JCreate _ _ => c' = c /\ (rc = SQLITE_OK \/ rc <> SQLITE_OK /\ excuse)
  end.

(** A call of the VFS can fail, or a chunk is missing for a write in memory. *)
Definition jexcuse (st : jstate) (o : jop) : Prop :=
  let '(fd, _, io) := st in
  io <> [] \/ match o with JWrite bs _ _ news => short_of fd bs news | _ => False end.

Lemma os_read_does f io amt off rc out io' : io_ok io -> os_read io f off amt = (rc, out, io') ->
  io_ok io' /\ (rc = SQLITE_OK /\ off + amt <= alen f /\ out = fread f off amt \/ rc <> SQLITE_OK /\ (io <> [] \/ alen f < off + amt)).
Proof.
  intros Hio E. unfold os_read in E. destruct (io_next io) as [r io1] eqn:En. destruct (io_next_ok _ _ _ Hio En) as [Hio1 Hr].
  destruct r; simplify_eq; (split; [done|]).
  - destruct (Z.leb_spec (off + amt) (alen f)); [by left|right]. split; [done|by right].
  - right. split; [done|]. left. intros ->. by simplify_eq/=.
Qed.

Lemma io_next_fails io rc junk io' : io_next io = (IoErr rc junk, io') -> io <> [].
Proof. by intros E ->. Qed.

(** ** Operations on a handle *)

Section Steps.
Context (h0 h : chunks) (fd : sqlite3_file) (io : list io_res) (c : list Z) (Hst : stands_for h0 h fd c) (Hio : io_ok io).

Lemma read_does amt off : 0 < amt -> 0 <= off ->
  exists rc out fd' io', sqlite3OsRead io h fd amt off = Some (rc, out, fd', io') /\ io_ok io' /\ stands_for h0 h fd' c /\
    (rc = SQLITE_OK /\ off + amt <= alen c /\ out = fread c off amt \/ rc <> SQLITE_OK /\ (io <> [] \/ alen c < off + amt)).
Proof.
  intros Ha Ho. destruct Hst as [p cs c' Hj|f ->]; cbn [sqlite3OsRead].
  - destruct (Z.le_gt_cases (off + amt) (alen c')) as [Hl|Hl].
    + destruct (memjrnlRead_ok _ _ _ _ _ Hj off amt Ho Ha Hl) as (rd & -> & Hj'). cbn [mbind option_bind].
      eexists _, _, _, _. split; [done|]. split_and!; [done|by econstructor|]. by left.
    + rewrite (memjrnlRead_short _ _ _ _ _ Hj off amt) by lia. cbn [mbind option_bind].
      eexists _, _, _, _. split; [done|]. split_and!; [done|by econstructor|]. right. split; [done|by right].
  - destruct (os_read io f off amt) as [[rc out] io'] eqn:E. destruct (os_read_does _ _ _ _ _ _ _ Hio E) as [Hio' Hd].
    eexists _, _, _, _. split; [done|]. split_and!; [done|by constructor|done].
Qed.

Lemma write_does bs off disk news : write_legal fd h bs off disk news ->
  exists rc fd' h' io' c', sqlite3OsWrite io disk news h fd bs off = Some (rc, fd', h', io') /\ io_ok io' /\ stands_for h0 h' fd' c' /\
    written fd io news c bs off rc c'.
Proof.
  intros Hleg. destruct Hst as [p cs c' Hj|f ->]; cbn [sqlite3OsWrite].
  - destruct (memjrnlWrite_ok _ _ _ _ _ _ _ _ _ _ Hj Hio Hleg) as (rc & fd' & h' & io' & c1 & -> & Hio' & _ & Hst' & Hw). by eexists _, _, _, _, c1.
  - destruct Hleg as (_ & _ & Hl & _).
    destruct (real_write h0 f io bs off Hio ltac:(lia) (FReal f) news) as (rc & f' & io' & -> & Hio' & _ & Hst' & Hw). by eexists _, _, _, _, f'.
Qed.

Lemma truncate_does sz : 0 <= sz <= jsize fd ->
  exists rc fd' h' io' c', sqlite3OsTruncate io h fd sz = Some (rc, fd', h', io') /\ io_ok io' /\ stands_for h0 h' fd' c' /\
    (rc = SQLITE_OK /\ c' = ftruncate c sz \/ rc <> SQLITE_OK /\ io <> [] /\ c' = c).
Proof.
  intros Hsz. rewrite (stands_size _ _ _ _ Hst) in Hsz. destruct Hst as [p cs c' Hj|f ->]; cbn [sqlite3OsTruncate].
  - destruct (memjrnlTruncate_ok _ _ _ _ _ sz Hj Hsz) as (p' & h' & cs' & -> & _ & Hj' & _). cbn [mbind option_bind].
    eexists _, _, _, _, _. split; [done|]. split_and!; [done|by econstructor|left]. by rewrite ftruncate_inside.
  - unfold os_truncate. destruct (io_next io) as [r io1] eqn:En. destruct (io_next_ok _ _ _ Hio En) as [Hio1 Hr].
    destruct r as [|rc junk]; eexists _, _, _, _, _; (split; [done|]); (split; [done|]); (split; [by constructor|]); [by left|right].
    split_and!; [done|by eapply io_next_fails|done].
Qed.

Lemma size_does : exists rc n io', sqlite3OsFileSize io fd = Some (rc, n, io') /\ io_ok io' /\ (rc = SQLITE_OK /\ n = alen c \/ rc <> SQLITE_OK /\ io <> []).
Proof.
  destruct Hst as [p cs c' Hj|f ->]; cbn [sqlite3OsFileSize memjrnlFileSize].
  - eexists _, _, _. split; [done|]. split; [done|]. left. split; [done|]. symmetry. by eapply journal_alen.
  - unfold os_filesize. destruct (io_next io) as [r io1] eqn:En. destruct (io_next_ok _ _ _ Hio En) as [Hio1 Hr].
    destruct r; eexists _, _, _; (split; [done|]); (split; [done|]); [by left|right]. split; [done|by eapply io_next_fails].
Qed.

Lemma sync_does flags : exists rc io', sqlite3OsSync io fd flags = Some (rc, io') /\ io_ok io' /\ (rc = SQLITE_OK \/ rc <> SQLITE_OK /\ io <> []).
Proof.
  unfold sqlite3OsSync. destruct (flags =? 0); [eexists _, _; split; [done|]; split; [done|by left]|].
  destruct Hst as [p cs c' Hj|f ->]; [eexists _, _; split; [done|]; split; [done|by left]|].
  destruct (os_sync io) as [rc io'] eqn:E. destruct (os_sync_spec _ _ _ Hio E) as [Hio' Hcl]. eexists _, _. split; [done|]. split; [done|].
  destruct (Z.eq_dec rc SQLITE_OK) as [->|Hne]; [by left|right]. split; [done|]. intros ->. by destruct Hcl.
Qed.

Lemma create_does batch disk : alen disk <= jsize fd ->
  exists rc fd' h' io', sqlite3JournalCreate batch io disk h fd = Some (rc, fd', h', io') /\ io_ok io' /\ stands_for h0 h' fd' c /\
    (rc = SQLITE_OK \/ rc <> SQLITE_OK /\ io <> []).
Proof.
  intros Hd. rewrite (stands_size _ _ _ _ Hst) in Hd. destruct Hst as [p cs c' Hj|f ->]; cbn [sqlite3JournalCreate].
  - destruct (_ || _); [|eexists _, _, _, _; split; [done|]; split_and!; [done|by econstructor|by left]].
    destruct (memjrnlCreateFile_ok _ _ _ _ _ io disk Hj Hio Hd) as (rc & fd' & h' & io1 & -> & Hio1 & Hcl & Hr).
    eexists _, _, _, _. split; [done|]. split; [done|]. destruct Hr as [(-> & -> & ->)|(Hrc & -> & ->)].
    + split; [by constructor|by left].
    + split; [by econstructor|right]. split; [done|]. intros Hn. by destruct (Hcl Hn).
  - eexists _, _, _, _. split; [done|]. split_and!; [done|by constructor|by left].
Qed.

Lemma close_does : sqlite3OsClose h fd = Some (FNone, h0).
Proof. destruct Hst as [p cs c' Hj|f ->]; cbn [sqlite3OsClose]; [|done]. by rewrite (memjrnlClose_ok _ _ _ _ _ Hj). Qed.

(** Every legal operation returns and does what it does to a file. *)
Lemma jstep_ok o : jlegal (fd, h, io) o ->
  exists rc out fd' h' io' c', jstep (fd, h, io) o = Some (rc, out, (fd', h', io')) /\ io_ok io' /\ stands_for h0 h' fd' c' /\
    jdoes (jexcuse (fd, h, io) o) c o rc out c'.
Proof.
  intros Hleg. destruct o as [amt off|bs off disk news|sz| |flags|batch disk]; cbn [jlegal jstep jdoes jexcuse] in *.
  - destruct Hleg as [Ha Ho]. destruct (read_does amt off Ha Ho) as (rc & out & fd' & io' & -> & ? & ? & Hd). cbn [mbind option_bind].
    eexists _, _, _, _, _, c. split; [done|]. split_and!; [done|done|done|tauto].
  - destruct (write_does bs off disk news Hleg) as (rc & fd' & h' & io' & c' & -> & ? & ? & Hd). cbn [mbind option_bind].
    eexists _, _, _, _, _, c'. split; [done|]. split_and!; [done|done|exact Hd].
  - destruct (truncate_does sz Hleg) as (rc & fd' & h' & io' & c' & -> & ? & ? & Hd). cbn [mbind option_bind].
    eexists _, _, _, _, _, c'. split; [done|]. split_and!; [done|done|tauto].
  - destruct size_does as (rc & n & io' & -> & ? & Hd). cbn [mbind option_bind]. eexists _, _, _, _, _, c. split; [done|].
    split_and!; [done|done|done|]. destruct Hd as [[-> ->]|[? ?]]; [by left|right; tauto].
  - destruct (sync_does flags) as (rc & io' & -> & ? & Hd). cbn [mbind option_bind]. eexists _, _, _, _, _, c. split; [done|].
    split_and!; [done|done|done|tauto].
  - destruct (create_does batch disk Hleg) as (rc & fd' & h' & io' & -> & ? & ? & Hd). cbn [mbind option_bind].
    eexists _, _, _, _, _, c. split; [done|]. split_and!; [done|done|done|tauto].
Qed.
End Steps.

(** ** The refinement *)

#[export] Instance jexcuse_dec st o : Decision (jexcuse st o).
Proof.
  destruct st as [[fd h] io]. unfold jexcuse. apply or_dec; [destruct io; [right; by intros []|by left]|].
  destruct o; try apply _. destruct fd; unfold short_of, plenty; apply _.
Defined.

(** An operation, whether it had a reason to fail, its return code and what it gave. *)
Abbreviation jtrace := (list (jop * bool * Z * list Z)).

(** The runs of a journal from [sqlite3JournalOpen] on. *)
Inductive jruns (h0 : chunks) (io : list io_res) (disk : file) (flags spill : Z) : jtrace -> jstate -> Prop :=
  | jruns_open fd io' : sqlite3JournalOpen io disk flags spill = (SQLITE_OK, fd, io') -> jruns h0 io disk flags spill [] (fd, h0, io')
  | jruns_step tr st o rc out st' : jruns h0 io disk flags spill tr st -> jlegal st o -> jstep st o = Some (rc, out, st') ->
      jruns h0 io disk flags spill (tr ++ [(o, bool_decide (jexcuse st o), rc, out)]) st'.

(** The runs of a file that holds [c0] at first. *)
Inductive file_runs (c0 : list Z) : jtrace -> list Z -> Prop :=
  | file_open : file_runs c0 [] c0
  | file_step tr c o b rc out c' : file_runs c0 tr c -> jdoes (b = true) c o rc out c' -> file_runs c0 (tr ++ [(o, b, rc, out)]) c'.

Lemma jdoes_excuse (P Q : Prop) c o rc out c' : (P -> Q) -> jdoes P c o rc out c' -> jdoes Q c o rc out c'.
Proof. intros H. destruct o; cbn [jdoes]; tauto. Qed.

Lemma open_stands h0 io disk flags spill fd io' : io_ok io -> sqlite3JournalOpen io disk flags spill = (SQLITE_OK, fd, io') ->
  io_ok io' /\ stands_for h0 h0 fd (if spill =? 0 then disk else []).
Proof.
  unfold sqlite3JournalOpen, os_open. intros Hio E. destruct (Z.eqb_spec spill 0) as [->|Hs].
  - destruct (io_next io) as [r io1] eqn:En. destruct (io_next_ok _ _ _ Hio En) as [Hio1 Hr]. destruct r; simplify_eq. split; [done|by constructor].
  - simplify_eq. split; [done|]. apply (Stands_mem _ _ _ []). constructor; cbn [nChunkSize pFirst endpoint readpoint iOffset ptChunk]; try done.
    + unfold MEMJOURNAL_DFLT_FILECHUNKSIZE, sizeof_chunk. destruct (Z.ltb_spec 0 spill); lia.
    + constructor.
    + intros a Ha. by apply not_elem_of_nil in Ha.
    + constructor.
    + unfold MEMJOURNAL_DFLT_FILECHUNKSIZE, sizeof_chunk. change (alen []) with 0. destruct (Z.ltb_spec 0 spill); lia.
    + by left.
Qed.

Lemma jruns_file h0 io disk flags spill tr st : io_ok io -> jruns h0 io disk flags spill tr st ->
  exists c, file_runs (if spill =? 0 then disk else []) tr c /\ io_ok st.2 /\ stands_for h0 st.1.2 st.1.1 c.
Proof.
  intros Hio H. induction H as [fd io' E|tr [[fd h] io1] o rc out st' _ (c & Hc & Hio1 & Hst) Hleg E].
  - destruct (open_stands h0 _ _ _ _ _ _ Hio E) as [? ?]. eexists. split; [constructor|done].
  - cbn [fst snd] in *. destruct (jstep_ok _ _ _ _ _ Hst Hio1 o Hleg) as (rc' & out' & fd' & h' & io' & c' & E' & Hio' & Hst' & Hd).
    rewrite E' in E. injection E as <- <- <-. exists c'. split_and!; try done. eapply file_step; [done|]. eapply jdoes_excuse; [|exact Hd].
    intros Hx. by apply bool_decide_eq_true_2.
Qed.

(** C35. A journal is a file.  Whatever the limit at which it is spilled, and whatever
    allocations and calls of the VFS fail, in every run of legal operations from
    [sqlite3JournalOpen] on, every read gives the bytes that a file with the same
    operations holds, before and after the journal was spilled; every size and every
    truncation is that of the file; an operation fails only if a call of the VFS
    or an allocation can, or if a read is beyond the end; a write that fails keeps what
    is before its offset, a spill that fails keeps all.  Every next legal operation returns
    without touching anything but live chunks, and closing gives all chunks back. *)
Theorem sqlite3Journal_refines_file h0 io disk flags spill tr fd h io' :
  io_ok io -> jruns h0 io disk flags spill tr (fd, h, io') ->
  (exists c, file_runs (if spill =? 0 then disk else []) tr c /\ jsize fd = alen c) /\
  (forall o, jlegal (fd, h, io') o -> exists rc out st', jstep (fd, h, io') o = Some (rc, out, st')) /\
  sqlite3OsClose h fd = Some (FNone, h0).
Proof.
  intros Hio H. destruct (jruns_file _ _ _ _ _ _ _ Hio H) as (c & Hc & Hio' & Hst). cbn [fst snd] in *. split_and!.
  - exists c. split; [done|]. by eapply stands_size.
  - intros o Ho. destruct (jstep_ok _ _ _ _ _ Hst Hio' o Ho) as (rc & out & fd' & h' & io2 & c' & -> & _). eauto.
  - by eapply close_does.
Qed.

Lemma jruns_next h0 io disk flags spill tr st o b rc out st' : jruns h0 io disk flags spill tr st -> jlegal st o ->
  jstep st o = Some (rc, out, st') -> bool_decide (jexcuse st o) = b -> jruns h0 io disk flags spill (tr ++ [(o, b, rc, out)]) st'.
Proof. intros H1 H2 H3 <-. by apply (jruns_step _ _ _ _ _ _ _ _ _ _ _ H1 H2). Qed.

(** A journal of at most ten bytes in memory: the second write spills it. *)
Definition sample_w1 : jop := JWrite [1; 2; 3; 4; 5; 6] 0 [] [Some (1, replicate 10 0)].
Definition sample_w2 : jop := JWrite [7; 8; 9; 10; 11; 12] 6 [] [Some (2, replicate 10 0)].
Definition sample_bytes : list Z := [1; 2; 3; 4; 5; 6; 7; 8; 9; 10; 11; 12].
Definition journal_sample : jtrace :=
  [(sample_w1, false, SQLITE_OK, []); (sample_w2, false, SQLITE_OK, []); (JRead 12 0, false, SQLITE_OK, sample_bytes)].
Definition sample_0 : jstate := (FMem (MkJournal 10 10 0 (MkPoint 0 0) (MkPoint 0 0) 0), ∅, []).
Definition sample_1 : jstate :=
  (FMem (MkJournal 10 10 1 (MkPoint 6 1) (MkPoint 0 0) 0), {[1 := MkChunk 0 [1; 2; 3; 4; 5; 6; 0; 0; 0; 0]]}, []).

Lemma sqlite3Journal_refines_file_witness :
  jruns ∅ [] [] 0 10 journal_sample (FReal sample_bytes, ∅, []) /\ exists c, file_runs [] journal_sample c /\ 12 = alen c.
Proof.
  assert (H : jruns ∅ [] [] 0 10 journal_sample (FReal sample_bytes, ∅, [])).
  { apply (jruns_next _ _ _ _ _ [_; _] (FReal sample_bytes, ∅, [])); [|split; lia|vm_compute; reflexivity..].
    apply (jruns_next _ _ _ _ _ [_] sample_1); [apply (jruns_next _ _ _ _ _ [] sample_0)|..]; try (vm_compute; reflexivity); [by apply jruns_open|..].
    - hnf. split_and!; [done|done|by left|]. split; [repeat constructor; done|apply NoDup_singleton].
    - hnf. split_and!; [done|done|by right; left|]. split; [repeat constructor; done|apply NoDup_singleton]. }
  split; [exact H|].
  exact (proj1 (sqlite3Journal_refines_file ∅ [] [] 0 10 journal_sample _ _ _ ltac:(constructor) H)).
Defined.
