(* ===== verification/Mem5.v ===== *)
(** * The buddy allocator ([src/mem5.c])

    The memory allocator for a heap of fixed size.  A heap is divided into atoms; an
    allocation is a run of atoms whose length is a power of two, at an index that is a
    multiple of its length.  Free runs are on doubly linked lists, one for each length,
    whose links are stored in the free memory itself, in the byte order of the host.
    [Mem5Inv.v] and [Mem5Spec.v] prove it.  The statistics, which only test builds
    keep, and the mutex are left out. *)
From S2P Require Import Prelude Bytes FileIO.

Definition LOGMAX : Z := 30.
Definition CTRL_LOGSIZE : Z := 0x1f.
Definition CTRL_FREE : Z := 0x20.

(** [sizeof(Mem5Link)] and the offset of [prev] in it *)
Definition sizeof_link : Z := 8.
Definition link_prev : Z := 4.

(** [zPool] holds the bytes of the pool; pointers are offsets in it. *)
Record Mem5Global : Type := MkMem5 {
  szAtom : Z;
  nBlock : Z;
  zPool : list Z;
  aiFreelist : list Z;
  aCtrl : list Z
}.

Definition set_pool (m : Mem5Global) (z : list Z) : Mem5Global := MkMem5 (szAtom m) (nBlock m) z (aiFreelist m) (aCtrl m).
Definition set_list (m : Mem5Global) (k i : Z) : option Mem5Global :=
  fl ← aset (aiFreelist m) k i; Some (MkMem5 (szAtom m) (nBlock m) (zPool m) fl (aCtrl m)).
Definition set_ctrl (m : Mem5Global) (i c : Z) : option Mem5Global :=
  ct ← aset (aCtrl m) i c; Some (MkMem5 (szAtom m) (nBlock m) (zPool m) (aiFreelist m) ct).

Section Host.
(** Whether the host is big-endian. *)
Context (big : bool).

(** [MEM5LINK(idx)->next] for [field] 0 and [MEM5LINK(idx)->prev] for [field] 4 *)
Definition MEM5LINK (m : Mem5Global) (idx field : Z) : option Z :=
  bs ← mread (zPool m) (idx * szAtom m + field) 4; x ← load32 big bs; Some (i32 x).
Definition set_MEM5LINK (m : Mem5Global) (idx field v : Z) : option Mem5Global :=
  z ← mwrite (zPool m) (idx * szAtom m + field) (store32 big (u32 v)); Some (set_pool m z).

Definition memsys5Unlink (m : Mem5Global) (i iLogsize : Z) : option Mem5Global :=
  next ← MEM5LINK m i 0;
  prev ← MEM5LINK m i link_prev;
  m ← (if prev <? 0 then set_list m iLogsize next else set_MEM5LINK m prev 0 next);
  if 0 <=? next then set_MEM5LINK m next link_prev prev else Some m.

Definition memsys5Link (m : Mem5Global) (i iLogsize : Z) : option Mem5Global :=
  x ← aget (aiFreelist m) iLogsize;
  m ← set_MEM5LINK m i 0 x;
  m ← set_MEM5LINK m i link_prev (-1);
  m ← (if 0 <=? x then set_MEM5LINK m x link_prev i else Some m);
  set_list m iLogsize i.

Definition memsys5Size (m : Mem5Global) (p : Z) : option Z :=
  let i := Z.quot p (szAtom m) in
  c ← aget (aCtrl m) i;
  Some (szAtom m * (1 << (c .& CTRL_LOGSIZE))).

(** [for(iFullSz=mem5.szAtom,iLogsize=0; iFullSz<nByte; iFullSz*=2,iLogsize++)]: both variables
    after the loop *)
Fixpoint size_loop (fuel : nat) (nByte iFullSz iLogsize : Z) : option (Z * Z) :=
  match fuel with
  | O => None
  | S fuel => if iFullSz <? nByte then size_loop fuel nByte (iFullSz * 2) (iLogsize + 1) else Some (iFullSz, iLogsize)
  end.

(** [for(iBin=iLogsize; iBin<=LOGMAX && mem5.aiFreelist[iBin]<0; iBin++)] *)
Fixpoint bin_loop (fuel : nat) (m : Mem5Global) (iBin : Z) : option Z :=
  match fuel with
  | O => None
  | S fuel =>
      if iBin <=? LOGMAX then
        x ← aget (aiFreelist m) iBin;
        if x <? 0 then bin_loop fuel m (iBin + 1) else Some iBin
      else Some iBin
  end.

(** [while( iBin>iLogsize )] *)
Fixpoint split_loop (fuel : nat) (m : Mem5Global) (i iBin iLogsize : Z) : option Mem5Global :=
  match fuel with
  | O => None
  | S fuel =>
      if iLogsize <? iBin then
        let iBin := iBin - 1 in
        let newSize := 1 << iBin in
        m ← set_ctrl m (i + newSize) (CTRL_FREE .| iBin);
        m ← memsys5Link m (i + newSize) iBin;
        split_loop fuel m i iBin iLogsize
      else Some m
  end.

(** The pointer, if any. *)
Definition memsys5MallocUnsafe (m : Mem5Global) (nByte : Z) : option (option Z * Mem5Global) :=
  if 0x40000000 <? nByte then Some (None, m) else
  '(_, iLogsize) ← size_loop 31 nByte (szAtom m) 0;
  iBin ← bin_loop 32 m iLogsize;
  if LOGMAX <? iBin then Some (None, m) else
  i ← aget (aiFreelist m) iBin;
  m ← memsys5Unlink m i iBin;
  m ← split_loop 31 m i iBin iLogsize;
  m ← set_ctrl m i iLogsize;
  Some (Some (i * szAtom m), m).

(** [while( ALWAYS(iLogsize<LOGMAX) )]: [iBlock] and [iLogsize] after the loop *)
Fixpoint merge_buddies (fuel : nat) (m : Mem5Global) (iBlock iLogsize sz : Z) : option (Mem5Global * Z * Z) :=
  match fuel with
  | O => None
  | S fuel =>
      if negb (iLogsize <? LOGMAX) then Some (m, iBlock, iLogsize) else
      let odd := negb ((iBlock >> iLogsize) .& 1 =? 0) in
      let iBuddy := if odd then iBlock - sz else iBlock + sz in
      if negb odd && (nBlock m <=? iBuddy) then Some (m, iBlock, iLogsize) else
      c ← aget (aCtrl m) iBuddy;
      if negb (c =? CTRL_FREE .| iLogsize) then Some (m, iBlock, iLogsize) else
      m ← memsys5Unlink m iBuddy iLogsize;
      let iLogsize := iLogsize + 1 in
      if iBuddy <? iBlock then
        m ← set_ctrl m iBuddy (CTRL_FREE .| iLogsize);
        m ← set_ctrl m iBlock 0;
        merge_buddies fuel m iBuddy iLogsize (sz * 2)
      else
        m ← set_ctrl m iBlock (CTRL_FREE .| iLogsize);
        m ← set_ctrl m iBuddy 0;
        merge_buddies fuel m iBlock iLogsize (sz * 2)
  end.

Definition memsys5FreeUnsafe (m : Mem5Global) (pOld : Z) : option Mem5Global :=
  let iBlock := Z.quot pOld (szAtom m) in
  c ← aget (aCtrl m) iBlock;
  let iLogsize := c .& CTRL_LOGSIZE in
  let sz := 1 << iLogsize in
  m ← set_ctrl m iBlock (c .| CTRL_FREE);
  e ← aget (aCtrl m) (iBlock + sz - 1);
  m ← set_ctrl m (iBlock + sz - 1) (e .| CTRL_FREE);
  m ← set_ctrl m iBlock (CTRL_FREE .| iLogsize);
  '(m, iBlock, iLogsize) ← merge_buddies 31 m iBlock iLogsize sz;
  memsys5Link m iBlock iLogsize.

Definition memsys5Malloc (m : Mem5Global) (nBytes : Z) : option (option Z * Mem5Global) :=
  if 0 <? nBytes then memsys5MallocUnsafe m nBytes else Some (None, m).

Definition memsys5Free (m : Mem5Global) (pPrior : Z) : option Mem5Global := memsys5FreeUnsafe m pPrior.

Definition memsys5Realloc (m : Mem5Global) (pPrior nBytes : Z) : option (option Z * Mem5Global) :=
  if nBytes =? 0 then Some (None, m) else
  nOld ← memsys5Size m pPrior;
  if nBytes <=? nOld then Some (Some pPrior, m) else
  '(p, m) ← memsys5Malloc m nBytes;
  match p with
  | None => Some (None, m)
  | Some p =>
      bs ← mread (zPool m) pPrior nOld;
      z ← mwrite (zPool m) p bs;
      m ← memsys5Free (set_pool m z) pPrior;
      Some (Some p, m)
  end.

(** [for(iFullSz=mem5.szAtom*8; iFullSz<n; iFullSz *= 4)] *)
Fixpoint roundup_loop (fuel : nat) (n iFullSz : Z) : option Z :=
  match fuel with
  | O => None
  | S fuel => if iFullSz <? n then roundup_loop fuel n (iFullSz * 4) else Some iFullSz
  end.

Definition memsys5Roundup (m : Mem5Global) (n : Z) : option Z :=
  if n <=? szAtom m * 2 then Some (if n <=? szAtom m then szAtom m else szAtom m * 2) else
  if 0x10000000 <? n then
    Some (if 0x40000000 <? n then 0 else if 0x20000000 <? n then 0x40000000 else 0x20000000)
  else
    iFullSz ← roundup_loop 16 n (szAtom m * 8);
    Some (if n <=? Z.quot iFullSz 2 then Z.quot iFullSz 2 else iFullSz).

(** [for(iLog=0; (iLog<(int)((sizeof(int)*8)-1)) && (1<<iLog)<iValue; iLog++)] *)
Fixpoint log_loop (fuel : nat) (iValue iLog : Z) : option Z :=
  match fuel with
  | O => None
  | S fuel => if (iLog <? 31) && ((1 << iLog) <? iValue) then log_loop fuel iValue (iLog + 1) else Some iLog
  end.

Definition memsys5Log (iValue : Z) : option Z := log_loop 32 iValue 0.

(** [while( (int)sizeof(Mem5Link)>mem5.szAtom )] *)
Fixpoint atom_loop (fuel : nat) (sz : Z) : option Z :=
  match fuel with
  | O => None
  | S fuel => if sz <? sizeof_link then atom_loop fuel (sz << 1) else Some sz
  end.

(** [for(ii=LOGMAX; ii>=0; ii--)]; [n] is [ii + 1] *)
Fixpoint init_loop (n : nat) (m : Mem5Global) (iOffset : Z) : option Mem5Global :=
  match n with
  | O => Some m
  | S n =>
      let ii := Z.of_nat n in
      let nAlloc := 1 << ii in
      if iOffset + nAlloc <=? nBlock m then
        m ← set_ctrl m iOffset (ii .| CTRL_FREE);
        m ← memsys5Link m iOffset ii;
        init_loop n m (iOffset + nAlloc)
      else init_loop n m iOffset
  end.

(** [heap] holds the bytes of [sqlite3GlobalConfig.pHeap], [mnReq] is
    [sqlite3GlobalConfig.mnReq]. *)
Definition memsys5Init (heap : list Z) (mnReq : Z) : option Mem5Global :=
  let nByte := alen heap in
  nMinLog ← memsys5Log mnReq;
  sz ← atom_loop 4 (1 << nMinLog);
  let n := Z.quot nByte (sz + 1) in
  pool ← mread heap 0 (n * sz);
  ctrl ← mread heap (n * sz) n;
  init_loop (Z.to_nat (LOGMAX + 1)) (MkMem5 sz n pool (replicate (Z.to_nat (LOGMAX + 1)) (-1)) ctrl) 0.
End Host.
