(* ===== verification/Mem5Inv.v ===== *)
(** * The buddy allocator: links, lists and blocks

    The invariant of the allocator, and how the steps of its operations change it: links
    in the memory of the pool, lists of free blocks, and the division of the pool into
    blocks. *)
From S2P Require Import Prelude Bytes FileIO Mem5.

Section Links.
Context (big : bool).

(** ** Links *)

Definition field_ok (f : Z) : Prop := f = 0 \/ f = link_prev.

(** The sizes that all operations leave as they are. *)
Record pool_shape (m : Mem5Global) : Prop := {
  sh_atom : 8 <= szAtom m;
  sh_block : 0 <= nBlock m < 2 ^ 31;
  sh_pool : alen (zPool m) = nBlock m * szAtom m;
  sh_list : alen (aiFreelist m) = LOGMAX + 1;
  sh_ctrl : alen (aCtrl m) = nBlock m
}.

(** A store into the links of the block at [i]. *)
Definition link_store (i : Z) (m m' : Mem5Global) : Prop :=
  exists z, m' = set_pool m z /\ alen z = alen (zPool m) /\
    forall p, p < i * szAtom m \/ i * szAtom m + 8 <= p -> fbyte z p = fbyte (zPool m) p.

Lemma shape_store i m m' : pool_shape m -> link_store i m m' -> pool_shape m'.
Proof. intros [H1 H2 H3 H4 H5] (z & -> & Hl & _). constructor; cbn; congruence. Qed.

Lemma in_pool m i f : pool_shape m -> 0 <= i < nBlock m -> field_ok f -> 0 <= i * szAtom m + f /\ i * szAtom m + f + 4 <= alen (zPool m).
Proof. intros [H1 H2 H3 _ _] Hi [->| ->]; unfold link_prev; rewrite H3; nia. Qed.

Lemma MEM5LINK_ext m m' i f : pool_shape m -> 0 <= i < nBlock m -> field_ok f -> szAtom m' = szAtom m -> alen (zPool m') = alen (zPool m) ->
  (forall p, i * szAtom m + f <= p < i * szAtom m + f + 4 -> fbyte (zPool m') p = fbyte (zPool m) p) -> MEM5LINK big m' i f = MEM5LINK big m i f.
Proof.
  intros Hs Hi Hf Ha Hl Hb. destruct (in_pool _ _ _ Hs Hi Hf). unfold MEM5LINK. rewrite Ha, !mread_ok by lia. cbn [mbind option_bind].
  f_equal. f_equal. by apply fread_ext.
Qed.

Lemma store32_len v : alen (store32 big v) = 4.
Proof. unfold store32. by destruct big. Qed.

Lemma set_link_ok m i f v : pool_shape m -> 0 <= i < nBlock m -> field_ok f -> - 2 ^ 31 <= v < 2 ^ 31 ->
  exists m', set_MEM5LINK big m i f v = Some m' /\ link_store i m m' /\ MEM5LINK big m' i f = Some v /\
    (forall j g, 0 <= j < nBlock m -> field_ok g -> j <> i \/ g <> f -> MEM5LINK big m' j g = MEM5LINK big m j g).
Proof.
  intros Hs Hi Hf Hv. destruct (in_pool _ _ _ Hs Hi Hf) as [P1 P2]. unfold set_MEM5LINK, mwrite. rewrite store32_len.
  rewrite !(proj2 (Z.leb_le _ _)) by lia. cbn [andb mbind option_bind]. set (z := fwrite _ _ _).
  assert (Hl : alen z = alen (zPool m)) by (unfold z; rewrite alen_write, store32_len by lia; lia).
  assert (Hz : forall p, 0 <= p -> p < i * szAtom m + f \/ i * szAtom m + f + 4 <= p -> fbyte z p = fbyte (zPool m) p).
  { intros p Hp0 Hp. unfold z. rewrite fbyte_write, store32_len by lia. destruct (Z.leb_spec (i * szAtom m + f) p), (Z.ltb_spec p (i * szAtom m + f + 4)); done || lia. }
  eexists. split; [done|]. split_and!.
  - exists z. split_and!; [done|done|]. intros p Hp. destruct (Z.le_gt_cases 0 p); [|by rewrite !fbyte_out by lia].
    apply Hz; [done|]. unfold field_ok, link_prev in Hf. lia.
  - unfold MEM5LINK. cbn [set_pool zPool szAtom]. rewrite mread_ok by lia. cbn [mbind option_bind]. unfold z.
    replace 4 with (alen (store32 big (u32 v))) by apply store32_len. rewrite fread_write_same by lia.
    rewrite <- (app_nil_r (store32 big (u32 v))), load_store by apply u32_range. cbn [mbind option_bind]. f_equal.
    unfold u32, i32, swrap. change (32 - 1) with 31. rewrite Zplus_mod_idemp_l. rewrite Z.mod_small by lia. lia.
  - intros j g Hj Hg Hne. apply MEM5LINK_ext; try done. intros p Hp. destruct (in_pool _ _ _ Hs Hj Hg) as [Q1 Q2].
    apply Hz; [lia|]. unfold field_ok, link_prev in *. pose proof (sh_atom _ Hs).
    destruct (Z.lt_trichotomy j i) as [?|[->|?]]; [assert (j * szAtom m + szAtom m <= i * szAtom m) by nia; lia|lia|assert (i * szAtom m + szAtom m <= j * szAtom m) by nia; lia].
Qed.

(** ** Lists *)

(** From [first] on, whose [prev] is [prev], the blocks [l] are linked; [next] and [lp] are where
    the segment leads to and where it ends. *)
Fixpoint dlseg (m : Mem5Global) (first prev : Z) (l : list Z) (next lp : Z) : Prop :=
  match l with
  | [] => next = first /\ lp = prev
  | i :: l => first = i /\ 0 <= i < nBlock m /\ MEM5LINK big m i link_prev = Some prev /\
      exists q, MEM5LINK big m i 0 = Some q /\ dlseg m q i l next lp
  end.

Definition block_list (m : Mem5Global) (first : Z) (l : list Z) : Prop := exists lp, dlseg m first (-1) l (-1) lp.

Lemma dlseg_app m a : forall first prev b next lp,
  dlseg m first prev (a ++ b) next lp <-> exists q r, dlseg m first prev a q r /\ dlseg m q r b next lp.
Proof.
  induction a as [|i a IH]; intros first prev b next lp; cbn [app dlseg].
  - split; [intros H; by exists first, prev|by intros (q & r & [-> ->] & H)].
  - split.
    + intros (-> & Hi & Hp & x & Hx & (q & r & Ha & Hb)%IH). exists q, r. split; [|done]. do 3 (split; [done|]). by exists x.
    + intros (q & r & (-> & Hi & Hp & x & Hx & Ha) & Hb). do 3 (split; [done|]). exists x. split; [done|]. apply IH. eauto.
Qed.

Lemma dlseg_same m m' : nBlock m' = nBlock m -> forall l first prev next lp,
  (forall i, i ∈ l -> MEM5LINK big m' i 0 = MEM5LINK big m i 0 /\ MEM5LINK big m' i link_prev = MEM5LINK big m i link_prev) ->
  dlseg m first prev l next lp -> dlseg m' first prev l next lp.
Proof.
  intros Hn l. induction l as [|i l IH]; intros first prev next lp Hl; [done|]. cbn [dlseg]. intros (-> & Hi & Hp & q & Hq & Hs).
  destruct (Hl i ltac:(set_solver +)) as [E1 E2]. split_and!; [done|lia|lia|congruence|]. exists q. split; [congruence|].
  apply IH; [|done]. intros j Hj. apply Hl. set_solver + Hj.
Qed.

Lemma dlseg_range m l : forall first prev next lp i, dlseg m first prev l next lp -> i ∈ l -> 0 <= i < nBlock m.
Proof.
  induction l as [|j l IH]; intros first prev next lp i Hs Hi; [by apply not_elem_of_nil in Hi|]. destruct Hs as (-> & Hj & _ & q & _ & Hs).
  apply elem_of_cons in Hi as [->|Hi]; [done|by eapply IH].
Qed.

Lemma dlseg_first m l first prev next lp : dlseg m first prev l next lp -> first = match l with [] => next | i :: _ => i end.
Proof. destruct l; cbn [dlseg]; [by intros [-> _]|by intros (-> & _)]. Qed.

(** What the list operations change: links of the blocks [S] and the start of list [k]. *)
Record touched (k : Z) (S : list Z) (m m' : Mem5Global) : Prop := {
  to_atom : szAtom m' = szAtom m;
  to_block : nBlock m' = nBlock m;
  to_ctrl : aCtrl m' = aCtrl m;
  to_len : alen (zPool m') = alen (zPool m);
  to_pool : forall p, (forall i, i ∈ S -> p < i * szAtom m \/ i * szAtom m + 8 <= p) -> fbyte (zPool m') p = fbyte (zPool m) p;
  to_lists : alen (aiFreelist m') = alen (aiFreelist m);
  to_list : forall j, j <> k -> aget (aiFreelist m') j = aget (aiFreelist m) j
}.

Lemma touched_refl k S m : touched k S m m.
Proof. by constructor. Qed.

Lemma touched_store k S i m m' : link_store i m m' -> i ∈ S -> touched k S m m'.
Proof. intros (z & -> & Hl & Hz) Hi. constructor; try done. intros p Hp. apply Hz. by apply Hp. Qed.

Lemma touched_head k S m i m' : set_list m k i = Some m' -> touched k S m m'.
Proof.
  unfold set_list. destruct (aset _ k i) as [fl|] eqn:E; [|done]. cbn. intros [= <-]. constructor; try done; cbn.
  - by eapply aset_alen.
  - intros j Hj. by eapply aget_aset_ne.
Qed.

Lemma touched_trans k S a b c : touched k S a b -> touched k S b c -> touched k S a c.
Proof.
  intros [A1 A2 A3 A4 A5 A6 A7] [B1 B2 B3 B4 B5 B6 B7]. constructor; try congruence.
  - intros p Hp. rewrite B5, A5; [done|done|]. by rewrite A1.
  - intros j Hj. by rewrite B7, A7.
Qed.

Lemma touched_incl k S S' m m' : touched k S m m' -> S ⊆ S' -> touched k S' m m'.
Proof. intros [A1 A2 A3 A4 A5 A6 A7] Hs. constructor; try done. intros p Hp. apply A5. intros i Hi. apply Hp. by apply Hs. Qed.

Lemma shape_touched k S m m' : pool_shape m -> touched k S m m' -> pool_shape m'.
Proof. intros [H1 H2 H3 H4 H5] [A1 A2 A3 A4 A5 A6 A7]. constructor; congruence. Qed.

(** Links of other blocks. *)
Lemma touched_link k S m m' j g : pool_shape m -> touched k S m m' -> (forall i, i ∈ S -> 0 <= i) -> 0 <= j < nBlock m -> field_ok g -> j ∉ S ->
  MEM5LINK big m' j g = MEM5LINK big m j g.
Proof.
  intros Hs Ht HS Hj Hg Hn. apply MEM5LINK_ext; try done; [apply Ht|apply Ht|]. intros p Hp. apply (to_pool _ _ _ _ Ht). intros i Hi.
  assert (i <> j) by (intros ->; done). pose proof (sh_atom _ Hs). unfold field_ok, link_prev in Hg. specialize (HS i Hi).
  destruct (Z.lt_ge_cases i j); [assert (i * szAtom m + szAtom m <= j * szAtom m) by nia; lia|assert (j * szAtom m + szAtom m <= i * szAtom m) by nia; lia].
Qed.

Lemma set_list_ok m k i : pool_shape m -> 0 <= k <= LOGMAX -> exists m', set_list m k i = Some m' /\ aget (aiFreelist m') k = Some i /\ zPool m' = zPool m.
Proof.
  intros Hs Hk. unfold set_list. rewrite aset_in by (rewrite (sh_list _ Hs); lia). cbn. eexists. split; [done|]. split; [|done]. cbn.
  eapply aget_aset_eq. apply aset_in. rewrite (sh_list _ Hs). lia.
Qed.

Lemma link_pool m m' i f : zPool m' = zPool m -> szAtom m' = szAtom m -> MEM5LINK big m' i f = MEM5LINK big m i f.
Proof. intros E1 E2. unfold MEM5LINK. by rewrite E1, E2. Qed.

(** The block in front of a segment now leads to [q]; if there is none, list [k] does. *)
Lemma relink_next m k l first q r v : pool_shape m -> 0 <= k <= LOGMAX -> aget (aiFreelist m) k = Some first -> NoDup l ->
  dlseg m first (-1) l q r -> - 2 ^ 31 <= v < 2 ^ 31 ->
  exists m' first', (if r <? 0 then set_list m k v else set_MEM5LINK big m r 0 v) = Some m' /\ pool_shape m' /\ touched k l m m' /\
    aget (aiFreelist m') k = Some first' /\ dlseg m' first' (-1) l v r /\
    (forall j g, 0 <= j < nBlock m -> field_ok g -> j ∉ l -> MEM5LINK big m' j g = MEM5LINK big m j g).
Proof.
  intros Hs Hk Hh Hnd Hl Hv. destruct l as [|p l _] using rev_ind.
  - destruct Hl as [-> ->]. cbn [Z.ltb Z.compare]. destruct (set_list_ok m k v Hs Hk) as (m' & E & Hg & Hz). exists m', v. pose proof (touched_head k [] m v m' E) as Ht.
    split_and!; try done; [by eapply shape_touched|]. intros j g _ _ _. apply link_pool; [done|apply Ht].
  - apply dlseg_app in Hl as (x & y & Hl & (-> & Hp & Hpp & nx & Hx & [-> ->])). rewrite (proj2 (Z.ltb_ge p 0)) by lia.
    destruct (set_link_ok m p 0 v Hs Hp ltac:(by left) Hv) as (m' & E & Hst & Hg & Ho). exists m', first.
    pose proof (touched_store k (l ++ [p]) _ _ _ Hst ltac:(set_solver +)) as Ht. apply NoDup_app in Hnd as (Hnd & Hdis & _).
    split_and!; try done; [by eapply shape_touched|destruct Hst as (z & -> & _); done| |].
    + apply dlseg_app. exists p, y. split.
      * apply (dlseg_same m m'); [apply Ht| |done]. intros i Hi. pose proof (dlseg_range _ _ _ _ _ _ _ Hl Hi).
        split; apply Ho; try done; [by left|left; intros ->; apply (Hdis p Hi); set_solver +|by right|right; done].
      * cbn [dlseg]. rewrite (to_block _ _ _ _ Ht). split; [done|]. split; [done|]. split; [rewrite Ho; [done|done|by right|right; done]|]. by exists v.
    + intros j g Hj Hf Hn. apply Ho; try done. left. intros ->. set_solver + Hn.
Qed.

Lemma unlink_list m k first l1 i l2 : pool_shape m -> 0 <= k <= LOGMAX -> aget (aiFreelist m) k = Some first -> NoDup (l1 ++ i :: l2) ->
  block_list m first (l1 ++ i :: l2) ->
  exists m' first', memsys5Unlink big m i k = Some m' /\ pool_shape m' /\ touched k (l1 ++ i :: l2) m m' /\
    aget (aiFreelist m') k = Some first' /\ block_list m' first' (l1 ++ l2).
Proof.
  intros Hs Hk Hh Hnd [lp (x & pr & H1 & (-> & Hi & Hpr & nx & Hnx & H2))%dlseg_app]. unfold memsys5Unlink. rewrite Hnx, Hpr. cbn [mbind option_bind].
  apply NoDup_app in Hnd as (Hnd1 & Hdis & Hnd2). apply NoDup_cons in Hnd2 as [Hil2 Hnd2].
  assert (Hnr : - 2 ^ 31 <= nx < 2 ^ 31 /\ (0 <= nx -> 0 <= nx < nBlock m)).
  { pose proof (dlseg_first _ _ _ _ _ _ H2) as ->. pose proof (sh_block _ Hs). destruct l2 as [|n l2]; [lia|].
    pose proof (dlseg_range _ _ _ _ _ _ n H2 ltac:(set_solver +)). lia. }
  destruct (relink_next m k l1 first i pr nx Hs Hk Hh Hnd1 H1 ltac:(lia)) as (m1 & f1 & -> & Hs1 & Ht1 & Hh1 & Hl1 & Ho1). cbn [mbind option_bind].
  assert (H2' : dlseg m1 nx i l2 (-1) lp).
  { apply (dlseg_same m m1); [apply Ht1| |done]. intros j Hj. pose proof (dlseg_range _ _ _ _ _ _ _ H2 Hj).
    split; apply Ho1; try done; [by left|intros Hx; apply (Hdis j Hx); set_solver + Hj|by right|intros Hx; apply (Hdis j Hx); set_solver + Hj]. }
  apply (touched_incl _ _ (l1 ++ i :: l2)) in Ht1; [|set_solver +].
  destruct l2 as [|n l2].
  - destruct H2' as [<- ->]. cbn [Z.leb Z.compare]. exists m1, f1. split_and!; try done. rewrite app_nil_r. by exists pr.
  - destruct H2' as (-> & Hn & _ & q & Hq & H2'). rewrite (proj2 (Z.leb_le 0 n)) by lia. apply NoDup_cons in Hnd2 as [Hn2 Hnd2].
    assert (Hprr : - 2 ^ 31 <= pr < 2 ^ 31).
    { pose proof (sh_block _ Hs). destruct l1 as [|p l1 _] using rev_ind; [destruct H1 as [_ ->]; lia|].
      apply dlseg_app in H1 as (? & ? & _ & (_ & ? & _ & ? & _ & [_ ->])). lia. }
    destruct (set_link_ok m1 n link_prev pr Hs1 Hn ltac:(by right) Hprr) as (m2 & -> & Hst & Hg & Ho).
    pose proof (touched_store k (l1 ++ i :: n :: l2) _ _ _ Hst ltac:(set_solver +)) as Ht2.
    exists m2, f1. split_and!; [done|by eapply shape_touched|by eapply touched_trans| |].
    + destruct Hst as (z & -> & _). done.
    + exists lp. apply dlseg_app. exists n, pr. split.
      * apply (dlseg_same m1 m2); [apply Ht2| |done]. intros j Hj. pose proof (dlseg_range _ _ _ _ _ _ _ Hl1 Hj).
        assert (j <> n) by (intros ->; apply (Hdis n Hj); set_solver +). split; apply Ho; try done; [by left|by left|by right|by left].
      * cbn [dlseg]. rewrite (to_block _ _ _ _ Ht2). do 3 (split; [done|]). exists q. split; [rewrite Ho; [done|done|by left|right; done]|].
        apply (dlseg_same m1 m2); [apply Ht2| |done]. intros j Hj. pose proof (dlseg_range _ _ _ _ _ _ _ H2' Hj).
        assert (j <> n) by (intros ->; done). split; apply Ho; try done; [by left|by left|by right|by left].
Qed.

Lemma link_list m k first l i : pool_shape m -> 0 <= k <= LOGMAX -> aget (aiFreelist m) k = Some first -> 0 <= i < nBlock m -> NoDup (i :: l) ->
  block_list m first l ->
  exists m', memsys5Link big m i k = Some m' /\ pool_shape m' /\ touched k (i :: l) m m' /\ aget (aiFreelist m') k = Some i /\ block_list m' i (i :: l).
Proof.
  intros Hs Hk Hh Hi [Hnl Hnd]%NoDup_cons [lp Hl]. unfold memsys5Link. rewrite Hh. cbn [mbind option_bind]. pose proof (sh_block _ Hs) as Hb.
  assert (Hfr : - 2 ^ 31 <= first < 2 ^ 31 /\ (0 <= first -> 0 <= first < nBlock m)).
  { pose proof (dlseg_first _ _ _ _ _ _ Hl) as ->. destruct l as [|n l]; [lia|]. pose proof (dlseg_range _ _ _ _ _ _ n Hl ltac:(set_solver +)). lia. }
  destruct (set_link_ok m i 0 first Hs Hi ltac:(by left) ltac:(lia)) as (m1 & -> & St1 & G1 & O1). cbn [mbind option_bind].
  pose proof (touched_store k (i :: l) _ _ _ St1 ltac:(set_solver +)) as T1. pose proof (shape_touched _ _ _ _ Hs T1) as Hs1. rewrite <- (to_block _ _ _ _ T1) in Hi, Hb, Hfr.
  destruct (set_link_ok m1 i link_prev (-1) Hs1 Hi ltac:(by right) ltac:(lia)) as (m2 & -> & St2 & G2 & O2). cbn [mbind option_bind].
  pose proof (touched_store k (i :: l) _ _ _ St2 ltac:(set_solver +)) as T2. pose proof (shape_touched _ _ _ _ Hs1 T2) as Hs2. rewrite <- (to_block _ _ _ _ T2) in Hi, Hb, Hfr.
  assert (G1' : MEM5LINK big m2 i 0 = Some first) by (rewrite O2; [done|by rewrite <- (to_block _ _ _ _ T2)|by left|right; done]).
  assert (Hl2 : dlseg m2 first (-1) l (-1) lp).
  { apply (dlseg_same m m2); [rewrite (to_block _ _ _ _ T2); apply T1| |done]. intros j Hj. pose proof (dlseg_range _ _ _ _ _ _ _ Hl Hj).
    assert (j <> i) by (intros ->; done). pose proof (to_block _ _ _ _ T1). split; (rewrite O2; [apply O1|..]); try done; try lia; (by left) || (by right). }
  assert (HM : exists m3, (if 0 <=? first then set_MEM5LINK big m2 first link_prev i else Some m2) = Some m3 /\ pool_shape m3 /\ touched k (i :: l) m2 m3 /\
    dlseg m3 i (-1) (i :: l) (-1) (match l with [] => i | _ => lp end)).
  { pose proof (dlseg_first _ _ _ _ _ _ Hl2) as Ef. destruct l as [|n l].
    - subst first. cbn [Z.leb Z.compare]. exists m2. do 2 (split; [done|]). split; [apply touched_refl|]. cbn [dlseg]. do 3 (split; [done|]). by exists (-1).
    - destruct Hl2 as (-> & Hn & _ & q & Hq & Hl2). rewrite (proj2 (Z.leb_le 0 n)) by lia.
      destruct (set_link_ok m2 n link_prev i Hs2 Hn ltac:(by right) ltac:(lia)) as (m3 & -> & St3 & G3 & O3).
      pose proof (touched_store k (i :: n :: l) _ _ _ St3 ltac:(set_solver +)) as T3. exists m3.
      assert (Hin : i <> n) by (intros ->; apply Hnl; set_solver +). split; [done|]. split; [by eapply shape_touched|]. split; [done|].
      cbn [dlseg]. rewrite (to_block _ _ _ _ T3). do 2 (split; [done|]). split; [rewrite O3; [done|done|by right|by left]|]. exists n.
      split; [rewrite O3; [done|done|by left|by left]|]. do 3 (split; [done|]). exists q. split; [rewrite O3; [done|done|by left|right; done]|].
      apply (dlseg_same m2 m3); [apply T3| |done]. intros j Hj. pose proof (dlseg_range _ _ _ _ _ _ _ Hl2 Hj).
      apply NoDup_cons in Hnd as [Hnn _]. assert (j <> n) by (intros ->; done). split; apply O3; try done; [by left|by left|by right|by left]. }
  destruct HM as (m3 & -> & Hs3 & T3 & Hl3). cbn [mbind option_bind].
  destruct (set_list_ok m3 k i Hs3 Hk) as (m4 & E4 & G4 & Z4). rewrite E4. pose proof (touched_head k (i :: l) _ _ _ E4) as T4.
  exists m4. split_and!; [done|by eapply shape_touched| |done|].
  - eapply touched_trans; [exact T1|]. eapply touched_trans; [exact T2|]. by eapply touched_trans.
  - eexists. apply (dlseg_same m3 m4); [apply T4| |exact Hl3]. intros j _. split; apply link_pool; try done; apply T4.
Qed.
End Links.

(** ** Blocks *)

(** The blocks of the pool: the index of the first atom, the logarithm of the
    number of atoms, and whether it is on a list of free blocks. *)
Abbreviation blocks := (gmap Z (Z * bool)).

(** ** Multiples of powers of two *)

Lemma pow2_pos k : 0 <= k -> 0 < 2 ^ k.
Proof. intros. by apply Z.pow_pos_nonneg. Qed.

Lemma pow2_succ k : 0 <= k -> 2 ^ (k + 1) = 2 * 2 ^ k.
Proof. intros. rewrite Z.pow_add_r by lia. lia. Qed.

Lemma pow2_divide j k : 0 <= j <= k -> (2 ^ j | 2 ^ k).
Proof. intros H. exists (2 ^ (k - j)). rewrite <- Z.pow_add_r by lia. f_equal. lia. Qed.

Lemma mult_le d a c : 0 < d -> (d | a) -> (d | c) -> a < c + d -> a <= c.
Proof. intros Hd [x ->] [y ->] H. apply Z.mul_le_mono_nonneg_r; [lia|]. apply Z.lt_succ_r, (Z.mul_lt_mono_pos_r d); lia. Qed.

(** The block next to a block with which it can be merged. *)
Definition buddy (o k : Z) : Z := if Z.odd (o / 2 ^ k) then o - 2 ^ k else o + 2 ^ k.

Lemma buddy_cases o k : 0 <= k -> (2 ^ k | o) ->
  exists p, (2 ^ (k + 1) | p) /\ (o = p /\ buddy o k = p + 2 ^ k \/ o = p + 2 ^ k /\ buddy o k = p).
Proof.
  intros Hk [q ->]. unfold buddy. pose proof (pow2_pos k Hk). rewrite Z.div_mul by lia. rewrite pow2_succ by done. destruct (Z.odd q) eqn:E.
  - apply Z.odd_spec in E as [r ->]. exists (r * (2 * 2 ^ k)). split; [by exists r|]. right. lia.
  - assert (Z.even q = true) as [r ->]%Z.even_spec by (rewrite <- Z.negb_odd, E; done). exists (r * (2 * 2 ^ k)). split; [by exists r|]. left. lia.
Qed.

Lemma buddy_invol o k : 0 <= k -> (2 ^ k | o) -> (2 ^ k | buddy o k) /\ buddy (buddy o k) k = o.
Proof.
  intros Hk Hd. destruct (buddy_cases o k Hk Hd) as (p & [r Hp] & [[-> ->]|[-> ->]]); rewrite pow2_succ in Hp by done; pose proof (pow2_pos k Hk); unfold buddy.
  - split; [exists (2 * r + 1); lia|]. replace ((p + 2 ^ k) / 2 ^ k) with (2 * r + 1) by (rewrite Hp; apply Z.div_unique_exact; lia).
    replace (Z.odd (2 * r + 1)) with true by (rewrite Z.add_comm, Z.odd_add_mul_2; done). lia.
  - split; [exists (2 * r); lia|]. replace (p / 2 ^ k) with (0 + 2 * r) by (rewrite Hp; apply Z.div_unique_exact; lia).
    rewrite Z.odd_add_mul_2. cbn [Z.odd]. lia.
Qed.

Section Blocks.
Context (big : bool).

Definition list_ok (m : Mem5Global) (B : blocks) (k : Z) : Prop :=
  exists first l, aget (aiFreelist m) k = Some first /\ block_list big m first l /\ NoDup l /\ forall o, o ∈ l <-> B !! o = Some (k, true).

(** The atoms below [lim] are divided into blocks at multiples of their sizes; free blocks are
    on the list of their size, and [aCtrl] says what each block is.  Blocks of [X] are in
    the hands of the allocator: they are on no list and their [aCtrl] is not settled. *)
Record pool_inv (m : Mem5Global) (B : blocks) (X : gset Z) (lim : Z) : Prop := {
  iv_shape : pool_shape m;
  iv_lim : 0 <= lim <= nBlock m;
  iv_block : forall (o k : Z) (f : bool), B !! o = Some (k, f) -> 0 <= k <= LOGMAX /\ 0 <= o /\ o + 2 ^ k <= lim /\ (2 ^ k | o);
  iv_disj : forall (o k : Z) (f : bool) (o' k' : Z) (f' : bool), B !! o = Some (k, f) -> B !! o' = Some (k', f') -> o < o' -> o + 2 ^ k <= o';
  iv_cover : forall i, 0 <= i < lim -> exists (o k : Z) (f : bool), B !! o = Some (k, f) /\ o <= i < o + 2 ^ k;
  iv_ctrl : forall (o k : Z) (f : bool), B !! o = Some (k, f) -> (o ∉ X) -> aget (aCtrl m) o = Some (k + if f then 32 else 0);
  iv_lists : forall k, 0 <= k <= LOGMAX -> list_ok m B k;
  iv_hand : forall o, o ∈ X -> exists k : Z, B !! o = Some (k, false)
}.

(** The memory of the blocks that are handed out is as it was. *)
Definition user_kept (B : blocks) (X : gset Z) (m m' : Mem5Global) : Prop :=
  szAtom m' = szAtom m /\ nBlock m' = nBlock m /\
  forall o k p : Z, B !! o = Some (k, false) -> (o ∉ X) -> o * szAtom m <= p < (o + 2 ^ k) * szAtom m -> fbyte (zPool m') p = fbyte (zPool m) p.

Lemma inv_atom m B X lim o k f : pool_inv m B X lim -> B !! o = Some (k, f) -> 0 <= o < nBlock m.
Proof.
  intros Hi Ho. destruct (iv_block _ _ _ _ Hi _ _ _ Ho) as (Hk & H0 & Hl & _). pose proof (iv_lim _ _ _ _ Hi).
  pose proof (Z.pow_pos_nonneg 2 k). lia.
Qed.

(** A list operation on blocks that are free or in the hands of the allocator. *)
Lemma touched_user m m' B X lim k S : pool_inv m B X lim -> touched k S m m' -> (forall i, i ∈ S -> exists j f, B !! i = Some (j, f) /\ (f = false -> i ∈ X)) ->
  user_kept B X m m'.
Proof.
  intros Hi Ht HS. split_and!; [apply Ht|apply Ht|]. intros o j p Ho Hx Hp. apply (to_pool _ _ _ _ Ht). intros i Hin. destruct (HS i Hin) as (ki & fi & Hb & Hf).
  assert (Hne : i <> o) by (intros ->; rewrite Ho in Hb; injection Hb as <- <-; by apply Hx, Hf). pose proof (sh_atom _ (iv_shape _ _ _ _ Hi)).
  destruct (iv_block _ _ _ _ Hi _ _ _ Hb) as (? & _). pose proof (Z.pow_pos_nonneg 2 ki).
  destruct (Z.lt_ge_cases i o).
  - pose proof (iv_disj _ _ _ _ Hi _ _ _ _ _ _ Hb Ho ltac:(done)). right. nia.
  - pose proof (iv_disj _ _ _ _ Hi _ _ _ _ _ _ Ho Hb ltac:(lia)). left. nia.
Qed.

Lemma user_kept_refl B X m : user_kept B X m m.
Proof. done. Qed.

(** The other lists after an operation on list [k]. *)
Lemma list_ok_other m m' B B' k j S : pool_shape m -> touched k S m m' -> (forall i, i ∈ S -> 0 <= i /\ B !! i <> Some (j, true)) ->
  (forall o, B' !! o = Some (j, true) <-> B !! o = Some (j, true)) -> j <> k -> list_ok m B j -> list_ok m' B' j.
Proof.
  intros Hs Ht HS HB Hj (first & l & Hh & [lp Hl] & Hnd & Hin). exists first, l. split_and!; try done.
  - by rewrite (to_list _ _ _ _ Ht).
  - exists lp. apply (dlseg_same big m m'); [apply Ht| |done]. intros i Hi. pose proof (dlseg_range _ _ _ _ _ _ _ _ Hl Hi).
    assert (i ∉ S) by (intros Hx; apply (HS i Hx), Hin; done).
    split; (eapply touched_link; [done|done|intros x Hx; by apply HS|done|..]; try done); [by left|by right].
  - intros o. by rewrite HB, Hin.
Qed.

Lemma unlink_inv m B X lim o k : pool_inv m B X lim -> B !! o = Some (k, true) ->
  exists m', memsys5Unlink big m o k = Some m' /\ pool_inv m' (<[o := (k, false)]> B) ({[o]} ∪ X) lim /\ user_kept B X m m' /\ aCtrl m' = aCtrl m.
Proof.
  intros Hi Ho. pose proof (iv_shape _ _ _ _ Hi) as Hs. destruct (iv_block _ _ _ _ Hi _ _ _ Ho) as (Hk & _).
  destruct (iv_lists _ _ _ _ Hi k Hk) as (first & l & Hh & Hl & Hnd & Hin). pose proof (proj2 (Hin o) Ho) as Hol.
  apply list_elem_of_split in Hol as (l1 & l2 & ->). destruct (unlink_list big m k first l1 o l2 Hs Hk Hh Hnd Hl) as (m' & first' & E & Hs' & Ht & Hh' & Hl').
  assert (HS : forall i, i ∈ l1 ++ o :: l2 -> B !! i = Some (k, true)) by (intros i Hx; by apply Hin).
  assert (HB : forall x j, <[o := (k, false)]> B !! x = Some (j, true) <-> x <> o /\ B !! x = Some (j, true)).
  { intros x j. destruct (decide (x = o)) as [->|]; [rewrite lookup_insert_eq; naive_solver|rewrite lookup_insert_ne by done; naive_solver]. }
  assert (HB' : forall x j f, <[o := (k, false)]> B !! x = Some (j, f) -> exists f', B !! x = Some (j, f')).
  { intros x j f. destruct (decide (x = o)) as [->|]; [rewrite lookup_insert_eq; intros [= <- <-]; eauto|rewrite lookup_insert_ne by done; eauto]. }
  exists m'. split_and!; [done| |eapply touched_user; try done; intros i Hx; exists k, true; by rewrite (HS i Hx)|apply Ht].
  destruct Hi as [_ Hlim Hblk Hdj Hcov Hct Hls Hhd]. constructor; try done.
  - rewrite (to_block _ _ _ _ Ht). done.
  - intros x j f (f' & Hx)%HB'. by eapply Hblk.
  - intros x j f y j' f' (f1 & Hx)%HB' (f2 & Hy)%HB'. by eapply Hdj.
  - intros i Hx. destruct (Hcov i Hx) as (x & j & f & Hb & Hr). destruct (decide (x = o)) as [->|].
    + rewrite Ho in Hb. injection Hb as <- <-. exists o, k, false. by rewrite lookup_insert_eq.
    + exists x, j, f. by rewrite lookup_insert_ne.
  - intros x j f Hx Hn. rewrite (to_ctrl _ _ _ _ Ht). rewrite lookup_insert_ne in Hx by set_solver + Hn. apply Hct; [done|set_solver + Hn].
  - intros j Hj. destruct (decide (j = k)) as [->|Hjk].
    + exists first', (l1 ++ l2). split_and!; [done|done|apply NoDup_app in Hnd as (?&?&[? ?]%NoDup_cons); apply NoDup_app; set_solver|].
      intros x. rewrite HB, <- Hin. apply NoDup_app in Hnd as (Hn1 & Hn2 & [Hn3 Hn4]%NoDup_cons). specialize (Hn2 o). set_solver.
    + apply (list_ok_other m m' B _ k j _ Hs Ht); try done; [|intros x; rewrite HB; split; [by intros [_ ?]|intros Hx; split; [intros ->; congruence|done]]|by apply Hls].
      intros i Hx%HS. split; [by destruct (Hblk _ _ _ Hx) as (_ & ? & _)|]. congruence.
  - intros x [->%elem_of_singleton|Hx]%elem_of_union; [exists k; apply lookup_insert_eq|]. destruct (Hhd x Hx) as [j Hb]. exists j.
    rewrite lookup_insert_ne; [done|]. intros ->. congruence.
Qed.

Lemma link_inv m B X lim o k : pool_inv m B X lim -> o ∈ X -> B !! o = Some (k, false) -> aget (aCtrl m) o = Some (k + 32) ->
  exists m', memsys5Link big m o k = Some m' /\ pool_inv m' (<[o := (k, true)]> B) (X ∖ {[o]}) lim /\ user_kept B X m m' /\ aCtrl m' = aCtrl m.
Proof.
  intros Hi Hox Ho Hc. pose proof (iv_shape _ _ _ _ Hi) as Hs. destruct (iv_block _ _ _ _ Hi _ _ _ Ho) as (Hk & _).
  destruct (iv_lists _ _ _ _ Hi k Hk) as (first & l & Hh & Hl & Hnd & Hin).
  assert (Hol : o ∉ l) by (intros Hx%Hin; congruence).
  destruct (link_list big m k first l o Hs Hk Hh (inv_atom _ _ _ _ _ _ _ Hi Ho) ltac:(by apply NoDup_cons) Hl) as (m' & E & Hs' & Ht & Hh' & Hl').
  assert (HB : forall x j, <[o := (k, true)]> B !! x = Some (j, true) <-> x = o /\ j = k \/ x <> o /\ B !! x = Some (j, true)).
  { intros x j. destruct (decide (x = o)) as [->|]; [rewrite lookup_insert_eq; naive_solver|rewrite lookup_insert_ne by done; naive_solver]. }
  assert (HB' : forall x j f, <[o := (k, true)]> B !! x = Some (j, f) -> exists f', B !! x = Some (j, f')).
  { intros x j f. destruct (decide (x = o)) as [->|]; [rewrite lookup_insert_eq; intros [= <- <-]; eauto|rewrite lookup_insert_ne by done; eauto]. }
  assert (HS : forall i, i ∈ o :: l -> exists f, B !! i = Some (k, f) /\ (f = false -> i ∈ X)).
  { intros i [->|Hx%Hin]%elem_of_cons; [by exists false|exists true; by split]. }
  exists m'. split_and!; [done| |eapply touched_user; try done; intros i (f & Hx & Hf)%HS; by exists k, f|apply Ht].
  destruct Hi as [_ Hlim Hblk Hdj Hcov Hct Hls Hhd]. constructor; try done.
  - rewrite (to_block _ _ _ _ Ht). done.
  - intros x j f (f' & Hx)%HB'. by eapply Hblk.
  - intros x j f y j' f' (f1 & Hx)%HB' (f2 & Hy)%HB'. by eapply Hdj.
  - intros i Hx. destruct (Hcov i Hx) as (x & j & f & Hb & Hr). destruct (decide (x = o)) as [->|].
    + rewrite Ho in Hb. injection Hb as <- <-. exists o, k, true. by rewrite lookup_insert_eq.
    + exists x, j, f. by rewrite lookup_insert_ne.
  - intros x j f Hx Hn. rewrite (to_ctrl _ _ _ _ Ht). destruct (decide (x = o)) as [->|Hne]; [rewrite lookup_insert_eq in Hx; injection Hx as <- <-; done|].
    rewrite lookup_insert_ne in Hx by done. apply Hct; [done|set_solver + Hn Hne].
  - intros j Hj. destruct (decide (j = k)) as [->|Hjk].
    + exists o, (o :: l). split_and!; [done|done|by apply NoDup_cons|].
      intros x. rewrite elem_of_cons, HB, Hin. split; [intros [->|Hx]; [by left|right; split; [intros ->; congruence|done]]|intros [[-> _]|[_ ?]]; auto].
    + apply (list_ok_other m m' B _ k j _ Hs Ht); try done; [|intros x; rewrite HB; split; [naive_solver|intros Hx; right; split; [intros ->; congruence|done]]|by apply Hls].
      intros i (f & Hx & _)%HS. split; [by destruct (Hblk _ _ _ Hx) as (_ & ? & _)|]. congruence.
  - intros x [Hx Hn]%elem_of_difference. destruct (Hhd x Hx) as [j Hb]. exists j. rewrite lookup_insert_ne; [done|set_solver + Hn].
Qed.

(** A change of [aCtrl] where it is not settled. *)
Lemma set_ctrl_inv m B X lim i c : pool_inv m B X lim -> 0 <= i < nBlock m -> (forall j f, B !! i = Some (j, f) -> i ∈ X) ->
  exists m', set_ctrl m i c = Some m' /\ pool_inv m' B X lim /\ user_kept B X m m' /\ aget (aCtrl m') i = Some c /\
    (forall j, j <> i -> aget (aCtrl m') j = aget (aCtrl m) j).
Proof.
  intros Hi Hr Hx. unfold set_ctrl. pose proof (sh_ctrl _ (iv_shape _ _ _ _ Hi)) as Hlc. destruct (aset (aCtrl m) i c) as [ct|] eqn:E.
  2: { rewrite aset_in in E by lia. done. }
  eexists. split; [done|]. split_and!; [|done|by eapply aget_aset_eq|intros j Hj; by eapply aget_aset_ne].
  destruct Hi as [[H1 H2 H3 H4 H5] Hlim Hblk Hdj Hcov Hct Hls Hhd]. constructor; try done.
  - constructor; try done. cbn. rewrite (aset_alen _ _ _ _ E). done.
  - intros o k f Ho Hn. cbn. rewrite (aget_aset_ne _ _ _ _ _ E); [by apply Hct|]. intros ->. by apply Hn, (Hx k f).
  - intros k Hk. destruct (Hls k Hk) as (first & l & Hh & [lp Hl] & Hin). exists first, l. split; [done|]. split; [exists lp|done].
    eapply dlseg_same; [| |exact Hl]; done.
Qed.

(** [aCtrl] of a block that is handed out is settled. *)
Lemma settle_inv m B X lim o k : pool_inv m B X lim -> B !! o = Some (k, false) -> aget (aCtrl m) o = Some k -> pool_inv m B (X ∖ {[o]}) lim.
Proof.
  intros Hi Ho Hc. destruct Hi as [Hs Hlim Hblk Hdj Hcov Hct Hls Hhd]. constructor; try done.
  - intros x j f Hx Hn. destruct (decide (x = o)) as [->|Hne]; [rewrite Ho in Hx; injection Hx as <- <-; rewrite Hc; f_equal; lia|].
    apply Hct; [done|set_solver + Hn Hne].
  - intros x Hx. apply Hhd. set_solver + Hx.
Qed.

(** A block that is handed out comes back into the hands of the allocator. *)
Lemma seize_inv m B X lim o k : pool_inv m B X lim -> B !! o = Some (k, false) -> pool_inv m B ({[o]} ∪ X) lim.
Proof.
  intros [Hs Hlim Hblk Hdj Hcov Hct Hls Hhd] Ho. constructor; try done.
  - intros x j f Hx Hn. apply Hct; [done|set_solver + Hn].
  - intros x [->%elem_of_singleton|Hx]%elem_of_union; [eauto|by apply Hhd].
Qed.

Lemma list_ok_blocks m B B' j : (forall o, B' !! o = Some (j, true) <-> B !! o = Some (j, true)) -> list_ok m B j -> list_ok m B' j.
Proof. intros HB (first & l & H1 & H2 & H3 & H4). exists first, l. split_and!; try done. intros o. by rewrite HB, H4. Qed.

(** No block starts inside of another one. *)
Lemma inside_none m B X lim o k f x : pool_inv m B X lim -> B !! o = Some (k, f) -> o < x < o + 2 ^ k -> B !! x = None.
Proof.
  intros Hi Ho Hx. destruct (B !! x) as [[j g]|] eqn:E; [|done]. pose proof (iv_disj _ _ _ _ Hi _ _ _ _ _ _ Ho E). lia.
Qed.

(** A block in the hands of the allocator is divided into two. *)
Lemma split_inv m B X lim i k : pool_inv m B X lim -> i ∈ X -> 0 <= k -> B !! i = Some (k + 1, false) ->
  pool_inv m (<[i + 2 ^ k := (k, false)]> (<[i := (k, false)]> B)) ({[i + 2 ^ k]} ∪ X) lim.
Proof.
  intros Hi Hix Hk Ho. pose proof (pow2_pos k Hk) as Hp. pose proof (pow2_succ k Hk) as Hp2.
  assert (Hnone : forall x, i < x < i + 2 ^ (k + 1) -> B !! x = None) by (intros x; by apply (inside_none _ _ _ _ _ _ _ _ Hi Ho)).
  pose proof Hi as [Hs Hlim Hblk Hdj Hcov Hct Hls Hhd]. destruct (Hblk _ _ _ Ho) as (Hk1 & H0 & Hl & Hd).
  assert (HB : forall x j f, <[i + 2 ^ k := (k, false)]> (<[i := (k, false)]> B) !! x = Some (j, f) ->
    (x = i \/ x = i + 2 ^ k) /\ j = k /\ f = false \/ x <> i /\ B !! x = Some (j, f)).
  { intros x j f. destruct (decide (x = i + 2 ^ k)) as [->|]; [rewrite lookup_insert_eq; naive_solver|rewrite lookup_insert_ne by done].
    destruct (decide (x = i)) as [->|]; [rewrite lookup_insert_eq; naive_solver|rewrite lookup_insert_ne by done; by right]. }
  constructor; try done.
  - intros x j f [([->| ->] & -> & ->)|[_ Hx]]%HB; [| |by eapply Hblk]; split_and!; try lia.
    + eapply Z.divide_trans; [apply (pow2_divide k (k + 1)); lia|done].
    + apply Z.divide_add_r; [|done]. eapply Z.divide_trans; [apply (pow2_divide k (k + 1)); lia|done].
  - intros x j f y j' f' [([->| ->] & -> & ->)|[Hnx Hx]]%HB [([->| ->] & -> & ->)|[Hny Hy]]%HB Hlt; try lia.
    + pose proof (Hdj _ _ _ _ _ _ Ho Hy Hlt). lia.
    + destruct (Z.lt_ge_cases y (i + 2 ^ (k + 1))); [rewrite (Hnone y) in Hy by lia; done|lia].
    + eapply Hdj; eauto.
    + destruct (Z.lt_ge_cases x i); [pose proof (Hdj _ _ _ _ _ _ Hx Ho ltac:(done)); lia|]. rewrite (Hnone x) in Hx by lia. done.
    + by eapply Hdj.
  - intros y Hy. destruct (Hcov y Hy) as (x & j & f & Hb & Hr). destruct (decide (x = i)) as [->|Hne].
    + rewrite Ho in Hb. injection Hb as <- <-. destruct (Z.lt_ge_cases y (i + 2 ^ k)).
      * exists i, k, false. rewrite lookup_insert_ne, lookup_insert_eq by lia. split; [done|lia].
      * exists (i + 2 ^ k), k, false. rewrite lookup_insert_eq. split; [done|lia].
    + exists x, j, f. rewrite !lookup_insert_ne; [done|done|]. intros <-. rewrite Hnone in Hb by lia. done.
  - intros x j f [([->| ->] & -> & ->)|[Hnx Hx]]%HB Hn; [set_solver + Hn Hix|set_solver + Hn|apply Hct; [done|set_solver + Hn]].
  - intros j Hj. apply (list_ok_blocks m B); [|by apply Hls]. intros x. split; [intros [(_ & _ & ?)|[_ ?]]%HB; done|].
    intros Hx. rewrite !lookup_insert_ne; [done| |]; [intros <-; congruence|intros <-; rewrite Hnone in Hx by lia; done].
  - intros x [->%elem_of_singleton|Hx]%elem_of_union; [exists k; apply lookup_insert_eq|]. destruct (decide (x = i + 2 ^ k)) as [->|]; [exists k; apply lookup_insert_eq|].
    destruct (decide (x = i)) as [->|]; [exists k; by rewrite lookup_insert_ne, lookup_insert_eq|]. rewrite !lookup_insert_ne by done. by apply Hhd.
Qed.
End Blocks.

Section Merging.
Context (big : bool).

(** Two blocks in the hands of the allocator become one. *)
Lemma merge_inv m B X lim o k : pool_inv big m B X lim -> o ∈ X -> o + 2 ^ k ∈ X -> B !! o = Some (k, false) -> B !! (o + 2 ^ k) = Some (k, false) ->
  (2 ^ (k + 1) | o) -> k < LOGMAX -> pool_inv big m (<[o := (k + 1, false)]> (delete (o + 2 ^ k) B)) (X ∖ {[o + 2 ^ k]}) lim.
Proof.
  intros Hi Hox Hbx Ho Hb Hd Hk. pose proof Hi as [Hs Hlim Hblk Hdj Hcov Hct Hls Hhd]. destruct (Hblk _ _ _ Ho) as (Hk1 & H0 & Hl & _).
  destruct (Hblk _ _ _ Hb) as (_ & _ & Hlb & _). pose proof (pow2_pos k ltac:(lia)) as Hp. pose proof (pow2_succ k ltac:(lia)) as Hp2.
  assert (HB : forall x j f, <[o := (k + 1, false)]> (delete (o + 2 ^ k) B) !! x = Some (j, f) ->
    x = o /\ j = k + 1 /\ f = false \/ x <> o /\ x <> o + 2 ^ k /\ B !! x = Some (j, f)).
  { intros x j f. destruct (decide (x = o)) as [->|]; [rewrite lookup_insert_eq; naive_solver|rewrite lookup_insert_ne by done].
    intros [? ?]%lookup_delete_Some. right. auto. }
  assert (HB' : forall x, x <> o -> x <> o + 2 ^ k -> <[o := (k + 1, false)]> (delete (o + 2 ^ k) B) !! x = B !! x).
  { intros x H1 H2. by rewrite lookup_insert_ne, lookup_delete_ne by done. }
  constructor; try done.
  - intros x j f [(-> & -> & ->)|(_ & _ & Hx)]%HB; [|by eapply Hblk]. split_and!; try lia. done.
  - intros x j f y j' f' [(-> & -> & ->)|(Hn1 & Hn2 & Hx)]%HB [(-> & -> & ->)|(Hn3 & Hn4 & Hy)]%HB Hlt; try lia.
    + pose proof (Hdj _ _ _ _ _ _ Ho Hy Hlt). destruct (Z.lt_ge_cases (o + 2 ^ k) y) as [Hl2|Hl2]; [pose proof (Hdj _ _ _ _ _ _ Hb Hy Hl2); lia|]. lia.
    + by eapply Hdj.
    + by eapply Hdj.
  - intros y Hy. destruct (Hcov y Hy) as (x & j & f & Hx & Hr).
    destruct (decide (x = o)) as [->|]; [rewrite Ho in Hx; injection Hx as <- <-; exists o, (k + 1), false; rewrite lookup_insert_eq; split; [done|lia]|].
    destruct (decide (x = o + 2 ^ k)) as [->|]; [rewrite Hb in Hx; injection Hx as <- <-; exists o, (k + 1), false; rewrite lookup_insert_eq; split; [done|lia]|].
    exists x, j, f. by rewrite HB'.
  - intros x j f [(-> & -> & ->)|(Hn1 & Hn2 & Hx)]%HB Hn.
    + exfalso. apply Hn. apply elem_of_difference. split; [done|]. intros E%elem_of_singleton. lia.
    + apply Hct; [done|]. intros Hin. apply Hn, elem_of_difference. split; [done|]. by intros ?%elem_of_singleton.
  - intros j Hj. apply (list_ok_blocks _ m B); [|by apply Hls]. intros x. split; [intros [(_ & _ & ?)|(_ & _ & ?)]%HB; done|].
    intros Hx. rewrite HB'; [done| |]; intros ->; congruence.
  - intros x [Hx Hn]%elem_of_difference. destruct (decide (x = o)) as [->|]; [exists (k + 1); apply lookup_insert_eq|].
    rewrite HB'; [by apply Hhd|done|]. intros ->. apply Hn. by apply elem_of_singleton.
Qed.

(** A block after the last one. *)
Lemma extend_inv m B X lim k : pool_inv big m B X lim -> 0 <= k <= LOGMAX -> (2 ^ k | lim) -> lim + 2 ^ k <= nBlock m ->
  pool_inv big m (<[lim := (k, false)]> B) ({[lim]} ∪ X) (lim + 2 ^ k).
Proof.
  intros [Hs Hlim Hblk Hdj Hcov Hct Hls Hhd] Hk Hd Hl. pose proof (pow2_pos k ltac:(lia)) as Hp.
  assert (Hnone : forall x, lim <= x -> B !! x = None).
  { intros x Hx. destruct (B !! x) as [[j f]|] eqn:E; [|done]. destruct (Hblk _ _ _ E) as (? & _ & ? & _). pose proof (pow2_pos j). lia. }
  assert (HB : forall x j f, <[lim := (k, false)]> B !! x = Some (j, f) -> x = lim /\ j = k /\ f = false \/ x <> lim /\ B !! x = Some (j, f)).
  { intros x j f. destruct (decide (x = lim)) as [->|]; [rewrite lookup_insert_eq; naive_solver|rewrite lookup_insert_ne by done; by right]. }
  constructor; try done; try lia.
  - intros x j f [(-> & -> & ->)|(_ & Hx)]%HB; [split_and!; try lia; done|]. destruct (Hblk _ _ _ Hx) as (? & ? & ? & ?). split_and!; try lia. done.
  - intros x j f y j' f' [(-> & -> & ->)|(Hn1 & Hx)]%HB [(-> & -> & ->)|(Hn3 & Hy)]%HB Hlt; try lia.
    + rewrite Hnone in Hy by lia. done.
    + destruct (Hblk _ _ _ Hx) as (? & ? & ? & ?). lia.
    + by eapply Hdj.
  - intros y Hy. destruct (Z.lt_ge_cases y lim) as [Hlt|Hge].
    + destruct (Hcov y ltac:(lia)) as (x & j & f & Hx & Hr). exists x, j, f. rewrite lookup_insert_ne; [done|]. intros <-. rewrite Hnone in Hx by lia. done.
    + exists lim, k, false. rewrite lookup_insert_eq. split; [done|lia].
  - intros x j f [(-> & -> & ->)|(_ & Hx)]%HB Hn; [set_solver + Hn|apply Hct; [done|set_solver + Hn]].
  - intros j Hj. apply (list_ok_blocks _ m B); [|by apply Hls]. intros x. split; [intros [(_ & _ & ?)|(_ & ?)]%HB; done|].
    intros Hx. rewrite lookup_insert_ne; [done|]. intros <-. rewrite Hnone in Hx by lia. done.
  - intros x [->%elem_of_singleton|Hx]%elem_of_union; [exists k; apply lookup_insert_eq|]. destruct (Hhd x Hx) as [j Hj]. exists j.
    rewrite lookup_insert_ne; [done|]. intros <-. rewrite Hnone in Hj by lia. done.
Qed.

(** At the place of a buddy a block starts that is not larger. *)
Lemma buddy_head m B X o k f : pool_inv big m B X (nBlock m) -> B !! o = Some (k, f) -> 0 <= buddy o k < nBlock m ->
  exists k' f', B !! buddy o k = Some (k', f') /\ k' <= k.
Proof.
  intros Hi Ho Hr. pose proof Hi as [Hs Hlim Hblk Hdj Hcov Hct Hls Hhd]. destruct (Hblk _ _ _ Ho) as (Hk & H0 & Hl & Hd).
  destruct (Hcov _ Hr) as (o' & k' & f' & Ho' & Hin). destruct (Hblk _ _ _ Ho') as (Hk' & _ & _ & Hd'). pose proof (pow2_pos k ltac:(lia)) as Hp.
  destruct (buddy_invol o k ltac:(lia) Hd) as [Hdb _]. destruct (Z.le_gt_cases k' k) as [Hle|Hgt].
  - assert (o' = buddy o k) as <-; [|eauto]. assert (buddy o k <= o'); [|lia]. apply (mult_le (2 ^ k')); [apply pow2_pos; lia| |done|lia].
    eapply Z.divide_trans; [|exact Hdb]. apply pow2_divide. lia.
  - exfalso. destruct (buddy_cases o k ltac:(lia) Hd) as (p & Hdp & Hc). pose proof (pow2_succ k ltac:(lia)) as Hp2.
    assert (Hdo : (2 ^ (k + 1) | o')) by (eapply Z.divide_trans; [apply pow2_divide|exact Hd']; lia).
    assert (Hde : (2 ^ (k + 1) | o' + 2 ^ k')) by (apply Z.divide_add_r; [done|apply pow2_divide; lia]).
    assert (o' <= p) by (apply (mult_le (2 ^ (k + 1))); [apply pow2_pos; lia|done|done|lia]).
    assert (p + 2 ^ (k + 1) <= o' + 2 ^ k').
    { apply (mult_le (2 ^ (k + 1))); [apply pow2_pos; lia|apply Z.divide_add_r; [done|apply Z.divide_refl]|done|lia]. }
    destruct (Z.lt_trichotomy o o') as [?|[->|Hlt]]; [lia| |pose proof (Hdj _ _ _ _ _ _ Ho' Ho Hlt); lia].
    rewrite Ho in Ho'. injection Ho' as -> _. lia.
Qed.
End Merging.
