(* ===== verification/Mem5Spec.v ===== *)
(** * The buddy allocator gives disjoint blocks

    The effect of [memsys5Malloc], [memsys5Free], [memsys5Realloc] and [memsys5Init] of
    [Mem5.v] on the blocks of the pool, and the refinement: the allocator behaves as a heap
    of disjoint blocks whose contents nobody else changes, and it fails only if there
    is no room. *)
From S2P Require Import Prelude Bytes FileIO Mem5 Mem5Inv.

Section Operations.
Context (big : bool).

(** ** Allocation *)

(** No two free blocks could be one. *)
Definition coalesced (B : blocks) : Prop := forall o k, B !! o = Some (k, true) -> B !! buddy o k <> Some (k, true).

(** The logarithm of the number of atoms for [n] bytes. *)
Definition level_for (sz n k : Z) : Prop := 0 <= k /\ n <= sz * 2 ^ k /\ (k = 0 \/ sz * 2 ^ (k - 1) < n).

Lemma size_loop_ok sz n : 8 <= sz -> n <= 2 ^ 30 -> forall fuel k, 0 <= k -> 27 - k < Z.of_nat fuel -> (k = 0 \/ sz * 2 ^ (k - 1) < n) ->
  exists k', size_loop fuel n (sz * 2 ^ k) k = Some (sz * 2 ^ k', k') /\ level_for sz n k' /\ k' <= 28.
Proof.
  intros Hsz Hn. induction fuel as [|fuel IH]; intros k Hk Hf Hm; cbn [size_loop].
  - exfalso. assert (2 ^ 27 <= 2 ^ (k - 1)) by (apply Z.pow_le_mono_r; lia). change (2 ^ 27) with 134217728 in *. change (2 ^ 30) with 1073741824 in *. destruct Hm; [lia|nia].
  - destruct (Z.ltb_spec (sz * 2 ^ k) n).
    + replace (sz * 2 ^ k * 2) with (sz * 2 ^ (k + 1)) by (rewrite pow2_succ by done; lia). apply IH; [lia|lia|]. right. by rewrite Z.add_simpl_r.
    + exists k. split; [done|]. split; [split; [done|]; split; [lia|done]|]. destruct Hm as [->|Hm]; [lia|]. destruct (Z.le_gt_cases k 28); [done|exfalso].
      assert (2 ^ 28 <= 2 ^ (k - 1)) by (apply Z.pow_le_mono_r; lia). change (2 ^ 28) with 268435456 in *. change (2 ^ 30) with 1073741824 in *. nia.
Qed.

Lemma list_head m B X lim k : pool_inv big m B X lim -> 0 <= k <= LOGMAX ->
  exists x, aget (aiFreelist m) k = Some x /\ (x < 0 /\ (forall o, B !! o <> Some (k, true)) \/ 0 <= x /\ B !! x = Some (k, true)).
Proof.
  intros Hi Hk. destruct (iv_lists _ _ _ _ _ Hi k Hk) as (first & l & Hh & [lp Hl] & _ & Hin). exists first. split; [done|].
  pose proof (dlseg_first _ _ _ _ _ _ _ Hl) as ->. destruct l as [|i l].
  - left. split; [lia|]. intros o Ho%Hin. by apply not_elem_of_nil in Ho.
  - right. assert (Hi' : i ∈ i :: l) by set_solver +. split; [|by apply Hin]. pose proof (dlseg_range _ _ _ _ _ _ _ _ Hl Hi'). lia.
Qed.

Lemma bin_loop_ok m B X lim : pool_inv big m B X lim -> forall fuel k, 0 <= k <= LOGMAX + 1 -> LOGMAX + 1 - k < Z.of_nat fuel ->
  exists b, bin_loop fuel m k = Some b /\ k <= b /\ (forall o j, k <= j < b -> B !! o <> Some (j, true)) /\
    (b = LOGMAX + 1 \/ b <= LOGMAX /\ exists i, aget (aiFreelist m) b = Some i /\ B !! i = Some (b, true)).
Proof.
  intros Hi. induction fuel as [|fuel IH]; intros k Hk Hf; [lia|]. cbn [bin_loop]. destruct (Z.leb_spec k LOGMAX).
  - destruct (list_head _ _ _ _ k Hi ltac:(lia)) as (x & Ex & Hx). rewrite Ex. cbn [mbind option_bind]. destruct (Z.ltb_spec x 0).
    + destruct Hx as [[_ Hno]|?]; [|lia]. destruct (IH (k + 1) ltac:(lia) ltac:(lia)) as (b & -> & Hb & Hn & Hr). exists b. split; [done|]. split; [lia|]. split; [|done].
      intros o j Hj. destruct (Z.eq_dec j k) as [->|]; [apply Hno|apply Hn; lia].
    + destruct Hx as [?|[_ Hx]]; [lia|]. exists k. split; [done|]. split; [lia|]. split; [intros o j ?; lia|]. right. split; [done|]. eauto.
  - exists k. split; [done|]. split; [lia|]. split; [intros o j ?; lia|]. left. lia.
Qed.

Lemma ctrl_free k : 0 <= k <= LOGMAX -> CTRL_FREE .| k = k + 32.
Proof. intros Hk. unfold LOGMAX in Hk. change CTRL_FREE with (1 * 2 ^ 5). rewrite lor_add_low by lia. lia. Qed.

Lemma user_kept_weaken B X B' X' m m' : user_kept B' X' m m' ->
  (forall o k, B !! o = Some (k, false) -> o ∉ X -> B' !! o = Some (k, false) /\ o ∉ X') -> user_kept B X m m'.
Proof.
  intros (H1 & H2 & H3) Hsub. split_and!; try done. intros o k p Ho Hx Hp. destruct (Hsub o k Ho Hx) as [Ho' Hx']. by apply (H3 o k).
Qed.

Lemma user_kept_trans B X a b c : user_kept B X a b -> user_kept B X b c -> user_kept B X a c.
Proof.
  intros (A1 & A2 & A3) (B1 & B2 & B3). split_and!; [congruence..|]. intros o k p Ho Hx Hp. rewrite (B3 o k), (A3 o k); try done. by rewrite A1.
Qed.

(** The blocks that are handed out, apart from [i]. *)
Definition same_users (i : Z) (B B' : blocks) : Prop := forall o k, o <> i -> B' !! o = Some (k, false) <-> B !! o = Some (k, false).

(** The upper half of the block [i] goes to the list of its size. *)
Definition half_freed (B : blocks) (i b : Z) : blocks := <[i + 2 ^ b := (b, true)]> (<[i := (b, false)]> B).

Lemma half_freed_coalesced m B X lim i b : pool_inv big m B X lim -> B !! i = Some (b + 1, false) -> 0 <= b -> coalesced B -> coalesced (half_freed B i b).
Proof.
  intros Hi Ho Hb Hco. destruct (iv_block _ _ _ _ _ Hi _ _ _ Ho) as (Hk & _ & _ & [r Hr]). pose proof (pow2_pos b Hb) as Hp. rewrite pow2_succ in Hr by done.
  assert (HBi : half_freed B i b !! i = Some (b, false)) by (unfold half_freed; rewrite lookup_insert_ne, lookup_insert_eq by lia; done).
  assert (Hbud : buddy (i + 2 ^ b) b = i).
  { unfold buddy. replace ((i + 2 ^ b) / 2 ^ b) with (1 + 2 * r) by (rewrite Hr; apply Z.div_unique_exact; lia). rewrite Z.odd_add_mul_2. cbn [Z.odd]. lia. }
  intros o k Hok Hbk. unfold half_freed in Hok. destruct (decide (o = i + 2 ^ b)) as [->|Hoh].
  - rewrite lookup_insert_eq in Hok. injection Hok as <-. rewrite Hbud, HBi in Hbk. done.
  - rewrite lookup_insert_ne in Hok by done. destruct (decide (o = i)) as [->|Hoi]; [rewrite lookup_insert_eq in Hok; done|]. rewrite lookup_insert_ne in Hok by done.
    unfold half_freed in Hbk. destruct (decide (buddy o k = i + 2 ^ b)) as [E|].
    + rewrite E, lookup_insert_eq in Hbk. injection Hbk as <-. destruct (iv_block _ _ _ _ _ Hi _ _ _ Hok) as (? & _ & _ & Hd).
      destruct (buddy_invol o b ltac:(lia) Hd) as [_ E2]. rewrite E, Hbud in E2. congruence.
    + rewrite lookup_insert_ne in Hbk by done. destruct (decide (buddy o k = i)) as [E|]; [rewrite E, lookup_insert_eq in Hbk; done|].
      rewrite lookup_insert_ne in Hbk by done. by apply (Hco o k).
Qed.

Lemma split_step m B i b : pool_inv big m B {[i]} (nBlock m) -> 0 <= b -> B !! i = Some (b + 1, false) ->
  exists m1 m2, set_ctrl m (i + 2 ^ b) (CTRL_FREE .| b) = Some m1 /\ memsys5Link big m1 (i + 2 ^ b) b = Some m2 /\
    pool_inv big m2 (half_freed B i b) {[i]} (nBlock m2) /\ user_kept B {[i]} m m2 /\ same_users i B (half_freed B i b).
Proof.
  intros Hi Hb Ho. destruct (iv_block _ _ _ _ _ Hi _ _ _ Ho) as (Hk & H0 & Hl & _). pose proof (pow2_pos b Hb) as Hp. pose proof (pow2_succ b Hb) as Hp2.
  pose proof (split_inv big m B {[i]} _ i b Hi ltac:(by apply elem_of_singleton) Hb Ho) as Hi1. set (h := i + 2 ^ b) in *. set (B1 := <[h := (b, false)]> (<[i := (b, false)]> B)) in *.
  destruct (set_ctrl_inv _ m B1 _ _ h (CTRL_FREE .| b) Hi1 ltac:(lia)) as (m1 & E1 & Hi2 & K1 & C1 & _); [intros; set_solver +|].
  rewrite ctrl_free in C1 by lia. pose proof (proj1 (proj2 K1)) as N1. rewrite <- N1 in Hi2.
  destruct (link_inv _ m1 B1 _ _ h b Hi2 ltac:(set_solver +) ltac:(apply lookup_insert_eq) C1) as (m2 & E2 & Hi3 & K2 & _).
  assert (Hhi : h <> i) by lia. assert (Hnone : B !! h = None) by (apply (inside_none _ _ _ _ _ _ _ _ h Hi Ho); lia).
  assert (HE : <[h := (b, true)]> B1 = half_freed B i b) by (unfold B1, half_freed; by rewrite insert_insert_eq).
  exists m1, m2. split_and!; [done|done| | |].
  - rewrite <- HE, (proj1 (proj2 K2)). replace ({[i]} : gset Z) with (({[h]} ∪ {[i]}) ∖ {[h]} : gset Z) by set_solver + Hhi. done.
  - assert (Hsub : forall o k, B !! o = Some (k, false) -> o ∉ ({[i]} : gset Z) -> B1 !! o = Some (k, false) /\ o ∉ ({[h]} ∪ {[i]} : gset Z)).
    { intros o k Hok Hx. assert (o <> h) by (intros ->; congruence). split; [|set_solver]. unfold B1. rewrite !lookup_insert_ne; [done|set_solver + Hx|done]. }
    eapply user_kept_trans; (eapply user_kept_weaken; [eassumption|exact Hsub]).
  - intros o k Hoi. unfold half_freed. fold h. destruct (decide (o = h)) as [->|]; [rewrite lookup_insert_eq, Hnone; done|]. by rewrite !lookup_insert_ne.
Qed.

Lemma split_loop_ok i L : 0 <= L -> forall fuel m B iBin, pool_inv big m B {[i]} (nBlock m) -> B !! i = Some (iBin, false) -> L <= iBin -> coalesced B -> iBin - L < Z.of_nat fuel ->
  exists m' B', split_loop big fuel m i iBin L = Some m' /\ pool_inv big m' B' {[i]} (nBlock m') /\ B' !! i = Some (L, false) /\ coalesced B' /\
    user_kept B {[i]} m m' /\ same_users i B B'.
Proof.
  intros HL. induction fuel as [|fuel IH]; intros m B iBin Hi Ho Hle Hco Hf; [lia|]. cbn [split_loop]. destruct (Z.ltb_spec L iBin).
  2: { assert (iBin = L) as -> by lia. exists m, B. split_and!; try done. }
  set (b := iBin - 1). assert (Hb : 0 <= b) by lia. replace iBin with (b + 1) in Ho by lia. rewrite Z.shiftl_1_l.
  destruct (split_step m B i b Hi Hb Ho) as (m1 & m2 & E1 & E2 & Hi2 & K & Hsu). rewrite E1. cbn [mbind option_bind]. rewrite E2. cbn [mbind option_bind].
  pose proof (half_freed_coalesced _ _ _ _ _ _ Hi Ho Hb Hco) as Hco2. pose proof (pow2_pos b Hb).
  assert (HBi : half_freed B i b !! i = Some (b, false)) by (unfold half_freed; rewrite lookup_insert_ne, lookup_insert_eq by lia; done).
  destruct (IH m2 _ b Hi2 HBi ltac:(lia) Hco2 ltac:(lia)) as (m' & B' & -> & Hi' & HB' & Hco' & K' & Hsu'). exists m', B'. split_and!; try done.
  - eapply user_kept_trans; [exact K|]. eapply user_kept_weaken; [exact K'|]. intros o k Hok Hx. split; [|done]. apply Hsu; [set_solver + Hx|done].
  - intros o k Hoi. by rewrite (Hsu' o k Hoi), (Hsu o k Hoi).
Qed.

(** A free block of the right size or larger is handed out, or there is none. *)
Lemma malloc_ok m B n : pool_inv big m B ∅ (nBlock m) -> coalesced B -> 0 < n ->
  exists r m', memsys5Malloc big m n = Some (r, m') /\
    match r with
    | None => m' = m /\ (0x40000000 < n \/ exists L, level_for (szAtom m) n L /\ forall o k, L <= k -> B !! o <> Some (k, true))
    | Some p => exists i L B', p = i * szAtom m /\ level_for (szAtom m) n L /\ pool_inv big m' B' ∅ (nBlock m') /\ coalesced B' /\ user_kept B ∅ m m' /\
        B' !! i = Some (L, false) /\ (exists k, B !! i = Some (k, true)) /\ same_users i B B'
    end.
Proof.
  intros Hi Hco Hn. unfold memsys5Malloc, memsys5MallocUnsafe. rewrite (proj2 (Z.ltb_lt 0 n)) by done.
  destruct (Z.ltb_spec 0x40000000 n); [exists None, m; split; [done|]; split; [done|by left]|].
  destruct (size_loop_ok (szAtom m) n (sh_atom _ (iv_shape _ _ _ _ _ Hi)) ltac:(lia) 31 0 ltac:(lia) ltac:(lia) ltac:(by left)) as (L & E & HL & HL8).
  rewrite Z.pow_0_r, Z.mul_1_r in E. rewrite E. cbn [mbind option_bind]. pose proof (proj1 HL) as HL0.
  destruct (bin_loop_ok m B ∅ _ Hi 32 L) as (b & -> & Hb & Hno & Hr); [unfold LOGMAX; lia|unfold LOGMAX; lia|]. cbn [mbind option_bind].
  destruct Hr as [->|(Hb2 & i & Eh & Hbi)].
  { rewrite (proj2 (Z.ltb_lt LOGMAX _)) by lia. exists None, m. split; [done|]. split; [done|right]. exists L. split; [done|]. intros o k Hk Ho.
    destruct (iv_block _ _ _ _ _ Hi _ _ _ Ho) as (? & _). by apply (Hno o k ltac:(lia)). }
  rewrite (proj2 (Z.ltb_ge LOGMAX b)) by lia. rewrite Eh. cbn [mbind option_bind].
  destruct (unlink_inv _ _ _ _ _ _ _ Hi Hbi) as (m1 & -> & Hi1 & K1 & _). cbn [mbind option_bind]. rewrite (right_id_L ∅ (∪)) in Hi1.
  pose proof (proj1 (proj2 K1)) as N1. rewrite <- N1 in Hi1. set (B1 := <[i := (b, false)]> B) in *.
  assert (Hco1 : coalesced B1).
  { intros o k Ho Hbk. unfold B1 in *. destruct (decide (o = i)) as [->|]; [rewrite lookup_insert_eq in Ho; done|]. rewrite lookup_insert_ne in Ho by done.
    destruct (decide (buddy o k = i)) as [E0|]; [rewrite E0, lookup_insert_eq in Hbk; done|]. rewrite lookup_insert_ne in Hbk by done. by apply (Hco o k). }
  destruct (split_loop_ok i L HL0 31 m1 B1 b Hi1 ltac:(apply lookup_insert_eq) Hb Hco1) as (m2 & B2 & -> & Hi2 & HB2 & Hco2 & K2 & Hsu); [unfold LOGMAX in *; lia|]. cbn [mbind option_bind].
  destruct (set_ctrl_inv _ m2 B2 _ _ i L Hi2 (inv_atom _ _ _ _ _ _ _ _ Hi2 HB2)) as (m3 & -> & Hi3 & K3 & C3 & _); [intros; by apply elem_of_singleton|]. cbn [mbind option_bind].
  pose proof (settle_inv _ _ _ _ _ _ _ Hi3 HB2 C3) as Hi4. replace ({[i]} ∖ {[i]} : gset Z) with (∅ : gset Z) in Hi4 by set_solver +.
  assert (HS : same_users i B B2) by (intros o k Hoi; rewrite (Hsu o k Hoi); unfold B1; by rewrite lookup_insert_ne).
  assert (Ha : szAtom m3 = szAtom m) by (rewrite (proj1 K3), (proj1 K2); apply K1). exists (Some (i * szAtom m3)), m3. split; [done|]. exists i, L, B2. rewrite Ha.
  split_and!; try done; [by rewrite (proj1 (proj2 K3))| |by exists b].
  assert (Hsub : forall o k, B !! o = Some (k, false) -> o <> i) by (intros o k Ho ->; congruence).
  eapply user_kept_trans; [exact K1|eapply user_kept_trans; eapply user_kept_weaken; [exact K2| |exact K3|]]; intros o k Ho _; pose proof (Hsub o k Ho).
  - unfold B1. rewrite lookup_insert_ne by done. split; [done|by apply not_elem_of_singleton].
  - split; [by apply HS|by apply not_elem_of_singleton].
Qed.
End Operations.

Section Release.
Context (big : bool).

(** ** Release *)

Lemma buddy_code o k : 0 <= k -> (if negb ((o >> k) .& 1 =? 0) then o - 2 ^ k else o + 2 ^ k) = buddy o k /\ negb ((o >> k) .& 1 =? 0) = Z.odd (o / 2 ^ k).
Proof.
  intros Hk. assert (E : negb ((o >> k) .& 1 =? 0) = Z.odd (o / 2 ^ k)).
  { rewrite Z.shiftr_div_pow2 by done. change 1 with (1 << 0) at 1. rewrite bit_test by lia. apply Z.bit0_odd. }
  by rewrite E.
Qed.

(** A free buddy of the same size joins the block [o]. *)
Definition joined (B : blocks) (o k : Z) : blocks :=
  <[Z.min o (buddy o k) := (k + 1, false)]> (delete (Z.max o (buddy o k)) (<[buddy o k := (k, false)]> B)).

Lemma join_step m B o k : pool_inv big m B {[o]} (nBlock m) -> B !! o = Some (k, false) -> B !! buddy o k = Some (k, true) -> k < LOGMAX ->
  exists m1 m2 m3, memsys5Unlink big m (buddy o k) k = Some m1 /\
    set_ctrl m1 (Z.min o (buddy o k)) (CTRL_FREE .| (k + 1)) = Some m2 /\ set_ctrl m2 (Z.max o (buddy o k)) 0 = Some m3 /\
    pool_inv big m3 (joined B o k) {[Z.min o (buddy o k)]} (nBlock m3) /\ aget (aCtrl m3) (Z.min o (buddy o k)) = Some (k + 1 + 32) /\
    user_kept B {[o]} m m3.
Proof.
  intros Hi Ho Hb Hk. destruct (iv_block _ _ _ _ _ Hi _ _ _ Ho) as (Hk0 & H0 & Hl & Hd). pose proof (pow2_pos k ltac:(lia)) as Hp.
  destruct (unlink_inv _ _ _ _ _ _ _ Hi Hb) as (m1 & E1 & Hi1 & K1 & _). destruct (buddy_cases o k ltac:(lia) Hd) as (p & Hdp & Hc).
  set (b := buddy o k) in *. set (lo := Z.min o b). set (hi := Z.max o b).
  assert (Hlh : lo = p /\ hi = p + 2 ^ k /\ (o = lo /\ b = hi \/ o = hi /\ b = lo)) by (unfold lo, hi; lia). destruct Hlh as (El & Eh & Hlh).
  set (B1 := <[b := (k, false)]> B) in *. assert (Hob : o <> b) by lia.
  assert (Ho1 : B1 !! o = Some (k, false)) by (unfold B1; by rewrite lookup_insert_ne). assert (Hb1 : B1 !! b = Some (k, false)) by apply lookup_insert_eq.
  assert (HX : lo ∈ ({[b]} ∪ {[o]} : gset Z) /\ hi ∈ ({[b]} ∪ {[o]} : gset Z) /\ B1 !! lo = Some (k, false) /\ B1 !! hi = Some (k, false)).
  { destruct Hlh as [[E2 E3]|[E2 E3]]; rewrite <- E2, <- E3; split_and!; try done; set_solver +. }
  destruct HX as (X1 & X2 & L1 & L2). pose proof (proj1 (proj2 K1)) as N1. rewrite <- N1 in Hi1.
  destruct (set_ctrl_inv _ m1 B1 _ _ lo (CTRL_FREE .| (k + 1)) Hi1 (inv_atom _ _ _ _ _ _ _ _ Hi1 L1)) as (m2 & E2 & Hi2 & K2 & C2 & _); [done|].
  pose proof (proj1 (proj2 K2)) as N2. rewrite <- N2 in Hi2.
  destruct (set_ctrl_inv _ m2 B1 _ _ hi 0 Hi2 (inv_atom _ _ _ _ _ _ _ _ Hi2 L2)) as (m3 & E3 & Hi3 & K3 & _ & C3); [done|].
  exists m1, m2, m3. split_and!; try done.
  - rewrite (proj1 (proj2 K3)). replace hi with (lo + 2 ^ k) in X2, L2 by lia.
    pose proof (merge_inv _ _ _ _ _ _ _ Hi3 X1 X2 L1 L2 ltac:(by rewrite El) Hk) as Hm. unfold joined. fold b lo hi B1. replace hi with (lo + 2 ^ k) by lia.
    replace ({[lo]} : gset Z) with (({[b]} ∪ {[o]}) ∖ {[lo + 2 ^ k]} : gset Z); [done|].
    apply set_eq. intros x. rewrite elem_of_difference, elem_of_union, !elem_of_singleton. lia.
  - rewrite C3 by lia. rewrite C2, ctrl_free by lia. done.
  - assert (Hsub : forall x j, B !! x = Some (j, false) -> x ∉ ({[o]} : gset Z) -> B1 !! x = Some (j, false) /\ x ∉ ({[b]} ∪ {[o]} : gset Z)).
    { intros x j Hx Hn. assert (x <> b) by (intros ->; congruence). unfold B1. rewrite lookup_insert_ne by done. split; [done|set_solver]. }
    eapply user_kept_trans; [exact K1|]. eapply user_kept_trans; (eapply user_kept_weaken; [eassumption|exact Hsub]).
Qed.

Lemma joined_lookup B o k x : o <> buddy o k -> x <> o -> x <> buddy o k -> joined B o k !! x = B !! x.
Proof. intros Hne H1 H2. unfold joined. rewrite lookup_insert_ne, lookup_delete_ne, lookup_insert_ne by lia. done. Qed.

Lemma joined_low B o k : joined B o k !! Z.min o (buddy o k) = Some (k + 1, false).
Proof. apply lookup_insert_eq. Qed.

Lemma joined_high B o k : o <> buddy o k -> joined B o k !! Z.max o (buddy o k) = None.
Proof. intros H. unfold joined. rewrite lookup_insert_ne by lia. apply lookup_delete_eq. Qed.

Lemma joined_cases B o k x : o <> buddy o k -> x = Z.min o (buddy o k) \/ x = Z.max o (buddy o k) \/ joined B o k !! x = B !! x /\ x <> o /\ x <> buddy o k.
Proof. intros H. destruct (Z.eq_dec x o); [lia|]. destruct (Z.eq_dec x (buddy o k)); [lia|]. right. right. split; [by apply joined_lookup|done]. Qed.

Lemma joined_coalesced B o k : o <> buddy o k -> coalesced B -> coalesced (joined B o k).
Proof.
  intros Hne Hco x j Hx Hb. assert (H : forall y, joined B o k !! y = Some (j, true) -> B !! y = Some (j, true)).
  { intros y Hy. destruct (joined_cases B o k y Hne) as [->|[->|(E & _)]]; [rewrite joined_low in Hy; done|rewrite joined_high in Hy by done; done|congruence]. }
  by apply (Hco x j); apply H.
Qed.

(** The blocks that are handed out apart from [o'] are those apart from [o]. *)
Definition others_same (o : Z) (B : blocks) (o' : Z) (B' : blocks) : Prop :=
  forall x j, B' !! x = Some (j, false) /\ x <> o' <-> B !! x = Some (j, false) /\ x <> o.

Lemma joined_others m B X lim o k : pool_inv big m B X lim -> B !! o = Some (k, false) -> B !! buddy o k = Some (k, true) -> others_same o B (Z.min o (buddy o k)) (joined B o k).
Proof.
  intros Hi Ho Hb. assert (Hne : o <> buddy o k) by congruence. intros x j. split.
  - intros [Hx Hn]. destruct (joined_cases B o k x Hne) as [?|[->|(E & H1 & H2)]]; [done|rewrite joined_high in Hx by done; done|]. split; [congruence|done].
  - intros [Hx Hn]. assert (x <> buddy o k) by congruence. rewrite joined_lookup by done. split; [done|lia].
Qed.

Lemma buddy_range m B X o k f : pool_inv big m B X (nBlock m) -> B !! o = Some (k, f) -> o <> buddy o k /\ 0 <= buddy o k /\ (Z.odd (o / 2 ^ k) = true -> buddy o k < nBlock m).
Proof.
  intros Hi Ho. destruct (iv_block _ _ _ _ _ Hi _ _ _ Ho) as (Hk & H0 & Hl & Hd). pose proof (pow2_pos k ltac:(lia)). destruct (buddy_cases o k ltac:(lia) Hd) as (p & Hdp & Hc).
  assert (0 <= p). { apply (mult_le (2 ^ (k + 1))); [apply pow2_pos; lia|apply Z.divide_0_r|done|]. rewrite pow2_succ by lia. lia. }
  split_and!; [lia|lia|]. intros E. unfold buddy. rewrite E. lia.
Qed.

Lemma merge_buddies_ok : forall fuel m B o k, pool_inv big m B {[o]} (nBlock m) -> B !! o = Some (k, false) -> aget (aCtrl m) o = Some (k + 32) -> coalesced B -> LOGMAX - k < Z.of_nat fuel ->
  exists m' o' k' B', merge_buddies big fuel m o k (2 ^ k) = Some (m', o', k') /\ pool_inv big m' B' {[o']} (nBlock m') /\ B' !! o' = Some (k', false) /\
    aget (aCtrl m') o' = Some (k' + 32) /\ coalesced B' /\ B' !! buddy o' k' <> Some (k', true) /\ user_kept B {[o]} m m' /\ others_same o B o' B'.
Proof.
  induction fuel as [|fuel IH]; intros m B o k Hi Ho Hc Hco Hf.
  { exfalso. destruct (iv_block _ _ _ _ _ Hi _ _ _ Ho). lia. }
  cbn [merge_buddies]. destruct (iv_block _ _ _ _ _ Hi _ _ _ Ho) as (Hk & H0 & Hl & Hd). destruct (buddy_range _ _ _ _ _ _ Hi Ho) as (Hne & Hb0 & Hbn).
  assert (Hstop : B !! buddy o k <> Some (k, true) -> exists m' o' k' B', Some (m, o, k) = Some (m', o', k') /\ pool_inv big m' B' {[o']} (nBlock m') /\ B' !! o' = Some (k', false) /\
    aget (aCtrl m') o' = Some (k' + 32) /\ coalesced B' /\ B' !! buddy o' k' <> Some (k', true) /\ user_kept B {[o]} m m' /\ others_same o B o' B').
  { intros Hn. exists m, o, k, B. split_and!; try done. }
  destruct (Z.ltb_spec k LOGMAX); cbn [negb].
  2: { apply Hstop. intros Hb. assert (k = LOGMAX) as -> by lia. destruct (iv_block _ _ _ _ _ Hi _ _ _ Hb) as (_ & _ & Hlb & _). pose proof (sh_block _ (iv_shape _ _ _ _ _ Hi)).
       destruct (buddy_cases o LOGMAX ltac:(unfold LOGMAX; lia) Hd) as (p & _ & Hcs). change (2 ^ 31) with (2 ^ LOGMAX + 2 ^ LOGMAX) in *. lia. }
  destruct (buddy_code o k ltac:(lia)) as [-> ->].
  replace (negb (Z.odd (o / 2 ^ k)) && (nBlock m <=? buddy o k)) with (nBlock m <=? buddy o k).
  2: { destruct (Z.odd (o / 2 ^ k)); [|done]. cbn. apply Z.leb_gt. by apply Hbn. }
  destruct (Z.leb_spec (nBlock m) (buddy o k)); [apply Hstop; intros Hb; pose proof (inv_atom _ _ _ _ _ _ _ _ Hi Hb); lia|].
  destruct (buddy_head _ _ _ _ _ _ _ Hi Ho ltac:(lia)) as (k' & f' & Hb & Hk'). destruct (iv_block _ _ _ _ _ Hi _ _ _ Hb) as (Hk0 & _).
  rewrite (iv_ctrl _ _ _ _ _ Hi _ _ _ Hb) by (intros ?%elem_of_singleton; done). cbn [mbind option_bind]. rewrite ctrl_free by lia.
  destruct (Z.eqb_spec (k' + (if f' then 32 else 0)) (k + 32)) as [Ek|Ek]; cbn [negb].
  2: { apply Hstop. rewrite Hb. intros [= -> ->]. lia. }
  destruct f'; [|unfold LOGMAX in *; lia]. assert (k' = k) as -> by lia.
  destruct (join_step m B o k Hi Ho Hb ltac:(lia)) as (m1 & m2 & m3 & E1 & E2 & E3 & Hi3 & C3 & K3). rewrite E1. cbn [mbind option_bind].
  destruct (IH m3 (joined B o k) (Z.min o (buddy o k)) (k + 1) Hi3 (joined_low _ _ _) C3 (joined_coalesced _ _ _ Hne Hco) ltac:(lia))
    as (m' & o' & k' & B' & E & Hi' & Ho' & Hc' & Hco' & Hb' & K' & Hs').
  pose proof (joined_others _ _ _ _ _ _ Hi Ho Hb) as Hs. exists m', o', k', B'.
  assert (HK : user_kept B {[o]} m m').
  { eapply user_kept_trans; [exact K3|]. eapply user_kept_weaken; [exact K'|]. intros x j Hx Hn. destruct (proj2 (Hs x j)) as [? ?]; [split; [done|]; by intros ->; apply Hn, elem_of_singleton|].
    split; [done|by apply not_elem_of_singleton]. }
  assert (HO : others_same o B o' B') by (intros x j; by rewrite (Hs' x j), (Hs x j)).
  rewrite pow2_succ in E by lia. replace (2 ^ k * 2) with (2 * 2 ^ k) by lia. split; [|by split_and!].
  destruct (Z.ltb_spec (buddy o k) o); [rewrite Z.min_r, Z.max_l in * by lia|rewrite Z.min_l, Z.max_r in * by lia];
    rewrite E2; cbn [mbind option_bind]; rewrite E3; cbn [mbind option_bind]; exact E.
Qed.

Lemma ctrl_logsize k : 0 <= k <= LOGMAX -> k .& CTRL_LOGSIZE = k.
Proof. intros Hk. unfold LOGMAX in Hk. rewrite (land_ones_mod _ 5) by (lia || done). apply Z.mod_small. lia. Qed.

(** [memsys5FreeUnsafe] up to its loop. *)
Lemma free_mark m B i k : pool_inv big m B ∅ (nBlock m) -> B !! i = Some (k, false) ->
  exists m3, memsys5Free big m (i * szAtom m) = ('(m, iBlock, iLogsize) ← merge_buddies big 31 m3 i k (2 ^ k); memsys5Link big m iBlock iLogsize) /\
    pool_inv big m3 B {[i]} (nBlock m3) /\ aget (aCtrl m3) i = Some (k + 32) /\ user_kept B {[i]} m m3.
Proof.
  intros Hi Ho. pose proof (sh_atom _ (iv_shape _ _ _ _ _ Hi)) as Hsz. pose proof (inv_atom _ _ _ _ _ _ _ _ Hi Ho) as Hr.
  destruct (iv_block _ _ _ _ _ Hi _ _ _ Ho) as (Hk & H0 & Hl & Hd). pose proof (pow2_pos k ltac:(lia)) as Hp.
  pose proof (seize_inv _ _ _ _ _ _ _ Hi Ho) as Hi0. rewrite (right_id_L ∅ (∪)) in Hi0.
  assert (Hin : forall x, i <= x < i + 2 ^ k -> forall j f, B !! x = Some (j, f) -> x ∈ ({[i]} : gset Z)).
  { intros x Hx j f Hb. destruct (Z.eq_dec x i) as [->|]; [by apply elem_of_singleton|]. rewrite (inside_none _ _ _ _ _ _ _ _ x Hi Ho) in Hb by lia. done. }
  destruct (set_ctrl_inv _ m B _ _ i (k .| CTRL_FREE) Hi0 Hr) as (m1 & E1 & Hi1 & K1 & _); [apply Hin; lia|]. pose proof (proj1 (proj2 K1)) as N1. rewrite <- N1 in Hi1, Hr, Hl.
  assert (Hlast : exists e, aget (aCtrl m1) (i + 2 ^ k - 1) = Some e).
  { destruct (aget_is_Some (aCtrl m1) (i + 2 ^ k - 1)) as [e E]; [rewrite (sh_ctrl _ (iv_shape _ _ _ _ _ Hi1)); lia|eauto]. }
  destruct Hlast as [e Ee].
  destruct (set_ctrl_inv _ m1 B _ _ (i + 2 ^ k - 1) (e .| CTRL_FREE) Hi1 ltac:(lia)) as (m2 & E2 & Hi2 & K2 & _); [apply Hin; lia|]. pose proof (proj1 (proj2 K2)) as N2. rewrite <- N2 in Hi2, Hr, Hl.
  destruct (set_ctrl_inv _ m2 B _ _ i (CTRL_FREE .| k) Hi2 Hr) as (m3 & E3 & Hi3 & K3 & C3 & _); [apply Hin; lia|]. rewrite ctrl_free in C3 by done.
  exists m3. split_and!; [|by rewrite (proj1 (proj2 K3))|done|do 2 (eapply user_kept_trans; [eassumption|]); done].
  unfold memsys5Free, memsys5FreeUnsafe. cbv zeta. rewrite Z.quot_mul by lia.
  pose proof (iv_ctrl _ _ _ _ _ Hi _ _ _ Ho ltac:(set_solver +)) as Ec. rewrite Z.add_0_r in Ec. rewrite (bind_eq _ _ _ Ec), ctrl_logsize, Z.shiftl_1_l by done.
  by rewrite (bind_eq _ _ _ E1), (bind_eq _ _ _ Ee), (bind_eq _ _ _ E2), (bind_eq _ _ _ E3).
Qed.

(** A block that was handed out becomes free, and others that it can be merged with. *)
Lemma free_ok m B i k : pool_inv big m B ∅ (nBlock m) -> coalesced B -> B !! i = Some (k, false) ->
  exists m' B', memsys5Free big m (i * szAtom m) = Some m' /\ pool_inv big m' B' ∅ (nBlock m') /\ coalesced B' /\ user_kept B {[i]} m m' /\
    (forall x j, B' !! x = Some (j, false) <-> B !! x = Some (j, false) /\ x <> i).
Proof.
  intros Hi Hco Ho. destruct (free_mark _ _ _ _ Hi Ho) as (m3 & -> & Hi3 & C3 & K3). destruct (iv_block _ _ _ _ _ Hi _ _ _ Ho) as (Hk & _).
  destruct (merge_buddies_ok 31 m3 B i k Hi3 Ho C3 Hco ltac:(unfold LOGMAX; lia)) as (m4 & o' & k' & B' & -> & Hi4 & Ho' & C4 & Hco' & Hb' & K4 & Hs). cbn [mbind option_bind].
  destruct (link_inv _ m4 B' _ _ o' k' Hi4 ltac:(by apply elem_of_singleton) Ho' C4) as (m5 & -> & Hi5 & K5 & _).
  replace ({[o']} ∖ {[o']} : gset Z) with (∅ : gset Z) in Hi5 by set_solver +. exists m5, (<[o' := (k', true)]> B'). split_and!; try done.
  - by rewrite (proj1 (proj2 K5)).
  - intros x j Hx Hbx. destruct (iv_block _ _ _ _ _ Hi5 _ _ _ Hx) as (? & _ & _ & Hdx). destruct (decide (x = o')) as [->|Hne].
    + rewrite lookup_insert_eq in Hx. injection Hx as <-. rewrite lookup_insert_ne in Hbx; [done|]. destruct (buddy_range _ _ _ _ _ _ Hi4 Ho') as (? & _). done.
    + rewrite lookup_insert_ne in Hx by done. destruct (decide (buddy x j = o')) as [E|]; [|rewrite lookup_insert_ne in Hbx by done; by apply (Hco' x j)].
      rewrite E, lookup_insert_eq in Hbx. injection Hbx as <-. destruct (buddy_invol x k' ltac:(lia) Hdx) as [_ E2]. rewrite E in E2. congruence.
  - eapply user_kept_trans; [exact K3|]. eapply user_kept_trans; [exact K4|]. eapply user_kept_weaken; [exact K5|]. intros x j Hx Hn.
    destruct (proj2 (Hs x j)) as [? ?]; [split; [done|]; by intros ->; apply Hn, elem_of_singleton|]. split; [done|by apply not_elem_of_singleton].
  - intros x j. rewrite <- (Hs x j). destruct (decide (x = o')) as [->|]; [rewrite lookup_insert_eq; naive_solver|]. rewrite lookup_insert_ne by done. naive_solver.
Qed.
End Release.

Section Room.
Context (big : bool).

(** ** Room *)

(** If all blocks of a run of [2 ^ L] atoms are free, none of them is smaller. *)
Lemma run_levels m B r L : pool_inv big m B ∅ (nBlock m) -> coalesced B -> 0 <= L -> (2 ^ L | r) -> 0 <= r -> r + 2 ^ L <= nBlock m ->
  (forall o k f, B !! o = Some (k, f) -> o < r + 2 ^ L -> r < o + 2 ^ k -> f = true) ->
  forall k, 0 <= k -> k < L -> forall o f, B !! o = Some (k, f) -> r <= o < r + 2 ^ L -> False.
Proof.
  intros Hi Hco HL Hd Hr Hl Hfree. refine (Zlt_0_ind _ _). intros k IH Hk0 Hk o f Ho Hor. pose proof (pow2_pos k Hk0) as Hp. pose proof (pow2_succ k Hk0) as Hp2.
  destruct (iv_block _ _ _ _ _ Hi _ _ _ Ho) as (_ & _ & _ & Hdo). assert (f = true) as -> by (apply (Hfree o k f); [done|lia|lia]).
  destruct (buddy_cases o k Hk0 Hdo) as (p & Hdp & Hc).
  assert (Hd1 : (2 ^ (k + 1) | r)) by (eapply Z.divide_trans; [apply pow2_divide|exact Hd]; lia).
  assert (Hd2 : (2 ^ (k + 1) | r + 2 ^ L)) by (apply Z.divide_add_r; [done|apply pow2_divide; lia]).
  assert (r <= p) by (apply (mult_le (2 ^ (k + 1))); [lia|done|done|lia]).
  assert (p + 2 ^ (k + 1) <= r + 2 ^ L) by (apply (mult_le (2 ^ (k + 1))); [lia|apply Z.divide_add_r; [done|apply Z.divide_refl]|done|lia]).
  destruct (buddy_head _ _ _ _ _ _ _ Hi Ho ltac:(lia)) as (k' & f' & Hb & Hk'). destruct (iv_block _ _ _ _ _ Hi _ _ _ Hb) as (Hk1 & _).
  pose proof (pow2_pos k' ltac:(lia)). assert (f' = true) as -> by (apply (Hfree (buddy o k) k' f'); [done|lia|lia]).
  destruct (Z.eq_dec k' k) as [->|]; [by apply (Hco o k)|]. apply (IH k' ltac:(lia) ltac:(lia) (buddy o k) true Hb). lia.
Qed.

Lemma room_ok m B r L : pool_inv big m B ∅ (nBlock m) -> coalesced B -> 0 <= L -> (2 ^ L | r) -> 0 <= r -> r + 2 ^ L <= nBlock m ->
  (forall o k, L <= k -> B !! o <> Some (k, true)) -> exists o k, B !! o = Some (k, false) /\ o < r + 2 ^ L /\ r < o + 2 ^ k.
Proof.
  intros Hi Hco HL Hd Hr Hl Hno. pose (P := fun (o : Z) (kf : Z * bool) => kf.2 = true \/ r + 2 ^ L <= o \/ o + 2 ^ kf.1 <= r).
  assert (Hdec : forall o kf, Decision (P o kf)) by (intros; unfold P; apply _).
  destruct (decide (map_Forall P B)) as [Hall|Hnot].
  - exfalso. pose proof (pow2_pos L HL) as Hp. assert (Hfree : forall o k f, B !! o = Some (k, f) -> o < r + 2 ^ L -> r < o + 2 ^ k -> f = true).
    { intros o k f Ho H1 H2. destruct (Hall o (k, f) Ho) as [?|[?|?]]; cbn in *; [done|lia|lia]. }
    destruct (iv_cover _ _ _ _ _ Hi r ltac:(lia)) as (o & k & f & Ho & Hin). destruct (iv_block _ _ _ _ _ Hi _ _ _ Ho) as (Hk & H0 & _ & Hdo).
    assert (f = true) as -> by (apply (Hfree o k f); [done|lia|lia]). destruct (Z.le_gt_cases L k); [by apply (Hno o k)|].
    apply (run_levels m B r L Hi Hco HL Hd Hr Hl Hfree k ltac:(lia) ltac:(lia) o true Ho).
    assert (r <= o); [|lia]. apply (mult_le (2 ^ k)); [apply pow2_pos; lia|eapply Z.divide_trans; [apply pow2_divide|exact Hd]; lia|done|lia].
  - apply map_not_Forall in Hnot as (o & [k f] & Ho & Hn); [|apply _]. unfold P in Hn. cbn in Hn. destruct f; [exfalso; apply Hn; by left|].
    exists o, k. split; [done|]. split; apply Z.nle_gt; intros ?; apply Hn; auto.
Qed.

(** ** Initialisation *)

Lemma log_loop_ok v : 1 <= v <= 2 ^ 12 -> forall fuel k, 0 <= k -> 12 - k < Z.of_nat fuel -> (0 < fuel)%nat -> (k <= 12) ->
  exists k', log_loop fuel v k = Some k' /\ 0 <= k' <= 12 /\ v <= 2 ^ k'.
Proof.
  intros Hv. induction fuel as [|fuel IH]; intros k Hk Hf H0 Hk2; [lia|]. cbn [log_loop]. rewrite (proj2 (Z.ltb_lt k 31)) by lia. cbn [andb]. rewrite Z.shiftl_1_l.
  destruct (Z.ltb_spec (2 ^ k) v); [|exists k; done]. assert (k <> 12) by (intros ->; lia). apply IH; lia.
Qed.

Lemma atom_loop_ok : forall fuel k, 0 <= k -> 3 - k < Z.of_nat fuel -> (0 < fuel)%nat -> exists k', atom_loop fuel (2 ^ k) = Some (2 ^ k') /\ k' = Z.max 3 k.
Proof.
  induction fuel as [|fuel IH]; intros k Hk Hf H0; [lia|]. cbn [atom_loop]. unfold sizeof_link. change 8 with (2 ^ 3). destruct (Z.ltb_spec (2 ^ k) (2 ^ 3)) as [Hlt|Hge].
  - apply Z.pow_lt_mono_r_iff in Hlt; [|lia|lia]. rewrite Z.shiftl_mul_pow2, <- Z.pow_add_r by lia. destruct (IH (k + 1)) as (k' & -> & ->); [lia..|]. eexists. split; [done|lia].
  - exists k. split; [done|]. assert (3 <= k); [|lia]. apply (Z.pow_le_mono_r_iff 2); lia.
Qed.

(** All blocks are free, and of different sizes. *)
Definition fresh_blocks (n : Z) (B : blocks) : Prop :=
  (forall o k f, B !! o = Some (k, f) -> n <= k /\ f = true) /\ (forall o o' k f f', B !! o = Some (k, f) -> B !! o' = Some (k, f') -> o = o').

Lemma init_loop_ok : forall (n : nat) m B lim, pool_inv big m B ∅ lim -> Z.of_nat n <= LOGMAX + 1 -> (2 ^ Z.of_nat n | lim) -> nBlock m - lim < 2 ^ Z.of_nat n -> fresh_blocks (Z.of_nat n) B ->
  exists m' B', init_loop big n m lim = Some m' /\ pool_inv big m' B' ∅ (nBlock m') /\ fresh_blocks 0 B' /\ szAtom m' = szAtom m /\ nBlock m' = nBlock m.
Proof.
  induction n as [|n IH]; intros m B lim Hi Hn Hd Hlt [HF HD].
  { exists m, B. cbn [init_loop]. pose proof (iv_lim _ _ _ _ _ Hi). assert (lim = nBlock m) as <- by (cbn in Hlt; lia). done. }
  cbn [init_loop]. rewrite Z.shiftl_1_l. set (k := Z.of_nat n) in *. replace (Z.of_nat (S n)) with (k + 1) in * by lia. pose proof (pow2_pos k ltac:(lia)) as Hp.
  pose proof (pow2_succ k ltac:(lia)) as Hp2. assert (Hdk : (2 ^ k | lim)) by (eapply Z.divide_trans; [apply (pow2_divide k (k + 1)); lia|exact Hd]).
  destruct (Z.leb_spec (lim + 2 ^ k) (nBlock m)).
  2: { destruct (IH m B lim Hi ltac:(lia) Hdk ltac:(lia)) as (m' & B' & E & H'); [|eauto]. split; [|done]. intros o j f Ho. destruct (HF o j f Ho). split; [lia|done]. }
  pose proof (extend_inv _ _ _ _ _ k Hi ltac:(lia) Hdk ltac:(lia)) as Hi1. rewrite (right_id_L ∅ (∪)) in Hi1. set (B1 := <[lim := (k, false)]> B) in *.
  assert (HB1 : B1 !! lim = Some (k, false)) by apply lookup_insert_eq.
  destruct (set_ctrl_inv _ m B1 _ _ lim (k .| CTRL_FREE) Hi1 (inv_atom _ _ _ _ _ _ _ _ Hi1 HB1)) as (m1 & -> & Hi2 & K1 & C1 & _); [intros; by apply elem_of_singleton|]. cbn [mbind option_bind].
  rewrite Z.lor_comm, ctrl_free in C1 by lia.
  destruct (link_inv _ m1 B1 _ _ lim k Hi2 ltac:(by apply elem_of_singleton) HB1 C1) as (m2 & -> & Hi3 & K2 & _). cbn [mbind option_bind].
  replace ({[lim]} ∖ {[lim]} : gset Z) with (∅ : gset Z) in Hi3 by set_solver +.
  assert (Hnone : forall o j f, B !! o = Some (j, f) -> o <> lim).
  { intros o j f Ho ->. destruct (iv_block _ _ _ _ _ Hi _ _ _ Ho) as (? & _ & ? & _). pose proof (pow2_pos j). lia. }
  assert (N2 : nBlock m2 = nBlock m) by (rewrite (proj1 (proj2 K2)); apply (proj1 (proj2 K1))).
  destruct (IH m2 _ (lim + 2 ^ k) Hi3) as (m' & B' & E & Hi' & HF' & Ha' & Hb'); [lia|apply Z.divide_add_r; [done|apply Z.divide_refl]|lia| |].
  - unfold B1. rewrite insert_insert_eq. split.
    + intros o j f. destruct (decide (o = lim)) as [->|]; [rewrite lookup_insert_eq; intros [= <- <-]; split; [lia|done]|]. rewrite lookup_insert_ne by done.
      intros Ho. destruct (HF o j f Ho). split; [lia|done].
    + intros o o' j f f'. destruct (decide (o = lim)) as [->|], (decide (o' = lim)) as [->|]; rewrite ?lookup_insert_eq, ?lookup_insert_ne by done; intros H1 H2; simplify_eq; try done.
      * destruct (HF _ _ _ H2). lia.
      * destruct (HF _ _ _ H1). lia.
      * by eapply HD.
  - exists m', B'. split_and!; [done|done|apply HF'|rewrite Ha', (proj1 K2); apply K1|congruence].
Qed.

Lemma fresh_coalesced m B X lim : pool_inv big m B X lim -> fresh_blocks 0 B -> coalesced B.
Proof.
  intros Hi [_ HD] o k Ho Hb. destruct (iv_block _ _ _ _ _ Hi _ _ _ Ho) as (Hk & _ & _ & Hd). pose proof (pow2_pos k ltac:(lia)).
  destruct (buddy_cases o k ltac:(lia) Hd) as (p & _ & Hc). pose proof (HD _ _ _ _ _ Ho Hb). lia.
Qed.
End Room.

Section InitSize.
Context (big : bool).

Lemma memsys5Init_ok heap mnReq : 1 <= mnReq <= 2 ^ 12 -> alen heap < 2 ^ 31 ->
  exists m a B, memsys5Init big heap mnReq = Some m /\ 3 <= a <= 12 /\ mnReq <= 2 ^ a /\ szAtom m = 2 ^ a /\ nBlock m = alen heap / (2 ^ a + 1) /\
    pool_inv big m B ∅ (nBlock m) /\ fresh_blocks 0 B.
Proof.
  intros Hr Hh. unfold memsys5Init. cbv zeta. destruct (log_loop_ok mnReq Hr 32 0 ltac:(lia) ltac:(lia) ltac:(lia) ltac:(lia)) as (k & Ek & Hk & Hmk).
  rewrite (bind_eq _ _ _ Ek), Z.shiftl_1_l. destruct (atom_loop_ok 4 k ltac:(lia) ltac:(lia) ltac:(lia)) as (a & Ea & Ha). rewrite (bind_eq _ _ _ Ea).
  pose proof (alen_nonneg heap) as Hh0. pose proof (pow2_pos a ltac:(lia)) as Hp. assert (8 <= 2 ^ a) by (change 8 with (2 ^ 3); apply Z.pow_le_mono_r; lia).
  rewrite Z.quot_div_nonneg by lia. set (n := alen heap / (2 ^ a + 1)). pose proof (Z.div_mod (alen heap) (2 ^ a + 1) ltac:(lia)) as Hdm. fold n in Hdm.
  pose proof (Z.mod_pos_bound (alen heap) (2 ^ a + 1) ltac:(lia)). assert (0 <= n) by (apply Z.div_pos; lia). assert (n * 2 ^ a + n <= alen heap) by lia.
  rewrite (bind_eq _ _ _ (mread_ok heap 0 (n * 2 ^ a) ltac:(lia) ltac:(nia) ltac:(nia))), (bind_eq _ _ _ (mread_ok heap (n * 2 ^ a) n ltac:(nia) ltac:(lia) ltac:(nia))).
  set (m0 := MkMem5 _ _ _ _ _).
  assert (Hs : pool_shape m0).
  { constructor; cbn [m0 szAtom nBlock zPool aiFreelist aCtrl]; [lia|nia|rewrite alen_fread; nia|unfold alen; by rewrite length_replicate|rewrite alen_fread; lia]. }
  assert (Hi : pool_inv big m0 ∅ ∅ 0).
  { constructor; try done; cbn [m0 nBlock]; try lia; try (intros *; rewrite lookup_empty; done).
    intros j Hj. exists (-1), []. split_and!; [unfold m0; cbn [aiFreelist]; apply aget_replicate; unfold LOGMAX in *; lia|exists (-1); done|constructor|].
    intros o. rewrite lookup_empty. split; [by intros ?%not_elem_of_nil|done]. }
  destruct (init_loop_ok big (Z.to_nat (LOGMAX + 1)) m0 ∅ 0 Hi) as (m & B & E & Hi' & HF & Hsz & Hnb).
  - unfold LOGMAX. lia.
  - apply Z.divide_0_r.
  - replace (Z.of_nat (Z.to_nat (LOGMAX + 1))) with 31 by (unfold LOGMAX; lia). cbn [m0 nBlock]. nia.
  - split; intros *; rewrite lookup_empty; done.
  - exists m, a, B. split_and!; try done; try lia. transitivity (2 ^ k); [lia|apply Z.pow_le_mono_r; lia].
Qed.

Lemma memsys5Size_ok m B o k : pool_inv big m B ∅ (nBlock m) -> B !! o = Some (k, false) -> memsys5Size m (o * szAtom m) = Some (szAtom m * 2 ^ k).
Proof.
  intros Hi Ho. pose proof (sh_atom _ (iv_shape _ _ _ _ _ Hi)). destruct (iv_block _ _ _ _ _ Hi _ _ _ Ho) as (Hk & _). unfold memsys5Size. rewrite Z.quot_mul by lia.
  rewrite (iv_ctrl _ _ _ _ _ Hi _ _ _ Ho), Z.add_0_r by set_solver +. cbn [mbind option_bind]. by rewrite ctrl_logsize, Z.shiftl_1_l.
Qed.

(** ** Writes of the users *)

(** A store into a block that is handed out. *)
Lemma store_inv m B o k q bs : pool_inv big m B ∅ (nBlock m) -> B !! o = Some (k, false) -> o * szAtom m <= q -> q + alen bs <= (o + 2 ^ k) * szAtom m ->
  mwrite (zPool m) q bs = Some (fwrite (zPool m) q bs) /\ pool_inv big (set_pool m (fwrite (zPool m) q bs)) B ∅ (nBlock m).
Proof.
  intros Hi Ho Hq1 Hq2. pose proof Hi as [Hs Hlim Hblk Hdj Hcov Hct Hls Hhd]. destruct (Hblk _ _ _ Ho) as (Hk & H0 & Hl & _). pose proof (sh_atom _ Hs) as Hsz.
  pose proof (alen_nonneg bs) as Hb0. assert (Hqe : q + alen bs <= alen (zPool m)) by (rewrite (sh_pool _ Hs); nia). assert (0 <= q) by nia.
  assert (Hlen : alen (fwrite (zPool m) q bs) = alen (zPool m)) by (rewrite alen_write by done; lia).
  split; [unfold mwrite; rewrite !(proj2 (Z.leb_le _ _)) by lia; done|]. constructor; try done.
  - destruct Hs. constructor; try done. cbn. congruence.
  - intros j Hj. destruct (Hls j Hj) as (first & l & Hh & [lp Hd] & Hnd & Hin). exists first, l. split_and!; try done. exists lp.
    apply (dlseg_same big m); [done| |done]. intros i Hx%Hin. destruct (Hblk _ _ _ Hx) as (Hj2 & Hi0 & Hil & _). pose proof (pow2_pos j ltac:(lia)).
    assert (Hdis : i + 2 ^ j <= o \/ o + 2 ^ k <= i).
    { destruct (Z.lt_trichotomy i o) as [?|[->|?]]; [left; by eapply Hdj|congruence|right; by eapply Hdj]. }
    assert (Hfar : forall p, i * szAtom m <= p < i * szAtom m + 8 -> fbyte (fwrite (zPool m) q bs) p = fbyte (zPool m) p).
    { intros p Hp. rewrite fbyte_write by nia. destruct (Z.leb_spec q p), (Z.ltb_spec p (q + alen bs)); try done. exfalso. destruct Hdis; nia. }
    split; apply MEM5LINK_ext; try done; try lia; try (by left); try (by right); intros p Hp; apply Hfar; unfold link_prev in *; lia.
Qed.
End InitSize.
