(* ===== verification/Mem5Heap.v ===== *)
(** * The buddy allocator refines a heap

    The specification: a heap is a map from pointers to the bytes of disjoint blocks.
    Every run of allocations, releases, resizings and stores of the users does to the pool
    what it does to the heap, and an allocation fails only if every place for it
    overlaps a block. *)
From S2P Require Import Prelude Bytes FileIO Mem5 Mem5Inv Mem5Spec.

(** ** The specification *)

Abbreviation heap := (gmap Z (list Z)).

(** The range of [s] bytes at [p] overlaps no block. *)
Definition clear (A : heap) (p s : Z) : Prop := forall q bs, A !! q = Some bs -> q + alen bs <= p \/ p + s <= q.

(** The size of a block for [n] bytes: the least power of two times an atom. *)
Definition block_size (sz n s : Z) : Prop := exists k, level_for sz n k /\ s = sz * 2 ^ k.

(** The places for a block of [s] bytes in a pool. *)
Definition place (pool p s : Z) : Prop := 0 <= p /\ p + s <= pool /\ (s | p).

Definition malloc_does (sz pool : Z) (A : heap) (n : Z) (r : option Z) (A' : heap) : Prop :=
  match r with
  | None => A' = A /\ (n <= 0 \/ 0x40000000 < n \/ exists s, block_size sz n s /\ forall p, place pool p s -> ~ clear A p s)
  | Some p => 0 < n /\ exists s bs, block_size sz n s /\ place pool p s /\ clear A p s /\ alen bs = s /\ A' = <[p := bs]> A
  end.

(** [MStore] is a store of a user into a block, at an offset in it. *)
Inductive mop : Type := MMalloc (n : Z) | MFree (p : Z) | MRealloc (p n : Z) | MSize (p : Z) | MStore (p off : Z) (bs : list Z).

(** What the users may do, by the sizes of their blocks: [L] has the number of bytes
    they asked for, or were told of by [MSize]. *)
Abbreviation ledger := (gmap Z Z).

Definition may (L : ledger) (o : mop) : Prop :=
  match o with
  | MMalloc n => True
  | MFree p | MSize p => is_Some (L !! p)
  | MRealloc p n => is_Some (L !! p) /\ 0 <= n
  | MStore p off bs => exists n, L !! p = Some n /\ 0 <= off /\ off + alen bs <= n
  end.

Definition note (L : ledger) (o : mop) (r : option Z) : ledger :=
  match o, r with
  | MMalloc n, Some p => <[p := n]> L
  | MFree p, _ => delete p L
  | MRealloc p n, Some q => <[q := n]> (delete p L)
  | MSize p, Some s => <[p := s]> L
  | _, _ => L
  end.

Abbreviation mtrace := (list (mop * option Z)).

Definition ledger_of (tr : mtrace) : ledger := foldl (fun L s => note L s.1 s.2) ∅ tr.

Definition mlegal (A : heap) (o : mop) : Prop :=
  match o with
  | MMalloc n => True
  | MFree p | MSize p => is_Some (A !! p)
  | MRealloc p n => is_Some (A !! p) /\ 0 <= n
  | MStore p off bs => exists old, A !! p = Some old /\ 0 <= off /\ off + alen bs <= alen old
  end.

Definition mdoes (sz pool : Z) (A : heap) (o : mop) (r : option Z) (A' : heap) : Prop :=
  match o with
  | MMalloc n => malloc_does sz pool A n r A'
  | MFree p => r = None /\ A' = delete p A
  | MSize p => exists old, A !! p = Some old /\ r = Some (alen old) /\ A' = A
  | MRealloc p n => exists old, A !! p = Some old /\
      if n =? 0 then r = None /\ A' = A
      else if n <=? alen old then r = Some p /\ A' = A
      else exists A1, malloc_does sz pool A n r A1 /\
        match r with
        | None => A' = A
        | Some q => exists bs, A1 !! q = Some bs /\ A' = delete p (<[q := fwrite bs 0 old]> A1)
        end
  | MStore p off bs => exists old, A !! p = Some old /\ r = None /\ A' = <[p := fwrite old off bs]> A
  end.

Inductive heap_runs (sz pool : Z) : mtrace -> heap -> Prop :=
  | heap_init : heap_runs sz pool [] ∅
  | heap_step tr A o r A' : heap_runs sz pool tr A -> mdoes sz pool A o r A' -> heap_runs sz pool (tr ++ [(o, r)]) A'.

(** ** The ledger is of the blocks of the heap *)

Definition ledger_ok (L : ledger) (A : heap) : Prop :=
  forall p, match L !! p, A !! p with Some n, Some bs => n <= alen bs /\ 0 < alen bs | None, None => True | _, _ => False end.

Lemma ledger_insert L A p n bs : ledger_ok L A -> n <= alen bs -> 0 < alen bs -> ledger_ok (<[p := n]> L) (<[p := bs]> A).
Proof. intros H Hn Hs q. destruct (decide (q = p)) as [->|]; [by rewrite !lookup_insert_eq|]. rewrite !lookup_insert_ne by done. apply H. Qed.

Lemma ledger_delete L A p : ledger_ok L A -> ledger_ok (delete p L) (delete p A).
Proof. intros H q. destruct (decide (q = p)) as [->|]; [by rewrite !lookup_delete_eq|]. rewrite !lookup_delete_ne by done. apply H. Qed.

Lemma ledger_some L A p n : ledger_ok L A -> L !! p = Some n -> exists bs, A !! p = Some bs /\ n <= alen bs /\ 0 < alen bs.
Proof. intros H Hp. specialize (H p). rewrite Hp in H. destruct (A !! p) as [bs|]; [by exists bs|done]. Qed.

Lemma may_legal L A o : ledger_ok L A -> may L o -> mlegal A o.
Proof.
  intros H Ho. destruct o as [n|p|p n|p|p off bs]; cbn [may mlegal] in *; [done|..].
  - destruct Ho as [x Hx]. by destruct (ledger_some _ _ _ _ H Hx) as (bs & -> & _).
  - destruct Ho as [[x Hx] ?]. by destruct (ledger_some _ _ _ _ H Hx) as (bs & -> & _).
  - destruct Ho as [x Hx]. by destruct (ledger_some _ _ _ _ H Hx) as (bs & -> & _).
  - destruct Ho as (x & Hx & ? & ?). destruct (ledger_some _ _ _ _ H Hx) as (old & ? & ? & ?). exists old. split_and!; [done|done|lia].
Qed.

Lemma block_size_le sz n s : block_size sz n s -> n <= s.
Proof. by intros (k & (_ & ? & _) & ->). Qed.

Lemma ledger_old L A p old : ledger_ok L A -> A !! p = Some old -> 0 < alen old.
Proof. intros H Hp. specialize (H p). rewrite Hp in H. destruct (L !! p); [apply H|done]. Qed.

Lemma note_ok sz pool L A o r A' : ledger_ok L A -> mlegal A o -> mdoes sz pool A o r A' -> ledger_ok (note L o r) A'.
Proof.
  intros H Hleg Hd. destruct o as [n|p|p n|p|p off bs]; cbn [mlegal mdoes note] in *.
  - destruct r as [p|]; cbn [malloc_does] in Hd; [|by destruct Hd as [-> _]]. destruct Hd as (Hn & s & bs & Hs%block_size_le & _ & _ & Hl & ->). apply ledger_insert; [done|lia..].
  - destruct Hd as [-> ->]. by apply ledger_delete.
  - destruct Hd as (old & Hold & Hd). pose proof (ledger_old _ _ _ _ H Hold) as Hpos. destruct (n =? 0); [by destruct Hd as [-> ->]|]. destruct (Z.leb_spec n (alen old)).
    { destruct Hd as [-> ->]. rewrite insert_delete_eq, <- (insert_id A p old) by done. by apply ledger_insert. }
    destruct Hd as (A1 & Hm & Hr). destruct r as [q|]; [|by rewrite Hr]. destruct Hr as (bs & Hq & ->), Hm as (Hn & s & bs' & Hs%block_size_le & _ & Hc & Hl & ->).
    rewrite lookup_insert_eq in Hq. injection Hq as ->. rewrite insert_insert_eq. assert (Hpq : p <> q) by (intros ->; destruct (Hc q old Hold); lia).
    rewrite delete_insert_ne by done. apply ledger_insert; [by apply ledger_delete|rewrite alen_write; lia..].
  - destruct Hd as (old & Hold & -> & ->). rewrite <- (insert_id A p old) by done. apply ledger_insert; [done|done|by eapply ledger_old].
  - destruct Hd as (old & Hold & -> & ->), Hleg as (? & ? & ? & ?). intros q. specialize (H q). destruct (decide (q = p)) as [->|]; [|by rewrite lookup_insert_ne].
    rewrite lookup_insert_eq. rewrite Hold in H. destruct (L !! p); [|done]. rewrite alen_write by lia. lia.
Qed.

Section Heap.
Context (big : bool).

Definition mstep (m : Mem5Global) (o : mop) : option (option Z * Mem5Global) :=
  match o with
  | MMalloc n => memsys5Malloc big m n
  | MFree p => m ← memsys5Free big m p; Some (None, m)
  | MRealloc p n => memsys5Realloc big m p n
  | MSize p => s ← memsys5Size m p; Some (Some s, m)
  | MStore p off bs => z ← mwrite (zPool m) (p + off) bs; Some (None, set_pool m z)
  end.

(** ** The pool stands for a heap *)

Definition block_bytes (m : Mem5Global) (o k : Z) : list Z := fread (zPool m) (o * szAtom m) (szAtom m * 2 ^ k).

(** The map of the blocks that are handed out. *)
Definition represents_heap (m : Mem5Global) (B : blocks) (A : heap) : Prop :=
  forall p bs, A !! p = Some bs <-> exists o k, p = o * szAtom m /\ B !! o = Some (k, false) /\ bs = block_bytes m o k.

Definition pool_heap (m : Mem5Global) (A : heap) : Prop :=
  exists B, pool_inv big m B ∅ (nBlock m) /\ coalesced B /\ represents_heap m B A.

Section Blocks.
Context (m : Mem5Global) (B : blocks) (A : heap) (Hi : pool_inv big m B ∅ (nBlock m)) (Hrep : represents_heap m B A).

Lemma rep_block o k : B !! o = Some (k, false) -> A !! (o * szAtom m) = Some (block_bytes m o k) /\ alen (block_bytes m o k) = szAtom m * 2 ^ k.
Proof.
  intros Ho. destruct (iv_block _ _ _ _ _ Hi _ _ _ Ho) as (Hk & _). pose proof (pow2_pos k ltac:(lia)). pose proof (sh_atom _ (iv_shape _ _ _ _ _ Hi)).
  split; [apply Hrep; eauto|]. apply alen_fread. nia.
Qed.

Lemma rep_inj o o' : o * szAtom m = o' * szAtom m -> o = o'.
Proof. pose proof (sh_atom _ (iv_shape _ _ _ _ _ Hi)). nia. Qed.

Lemma rep_lookup p old : A !! p = Some old -> exists o k, p = o * szAtom m /\ B !! o = Some (k, false) /\ old = block_bytes m o k /\ alen old = szAtom m * 2 ^ k.
Proof. intros (o & k & -> & Ho & ->)%Hrep. exists o, k. split_and!; try done. by apply rep_block. Qed.

(** Blocks whose memory is as it was have their contents. *)
Lemma bytes_kept_user X m' o k : user_kept B X m m' -> B !! o = Some (k, false) -> o ∉ X -> block_bytes m' o k = block_bytes m o k.
Proof.
  intros (E1 & _ & H) Ho Hx. unfold block_bytes. rewrite E1. apply fread_ext. intros p Hp. apply (H o k); try done. lia.
Qed.

(** An aligned range that is clear holds no block that is handed out. *)
Lemma clear_run r L : clear A (r * szAtom m) (szAtom m * 2 ^ L) -> forall o k, B !! o = Some (k, false) -> o < r + 2 ^ L -> r < o + 2 ^ k -> False.
Proof.
  intros Hc o k Ho H1 H2. destruct (rep_block o k Ho) as [HA Hl]. pose proof (Hc _ _ HA) as Hd. rewrite Hl in Hd. pose proof (sh_atom _ (iv_shape _ _ _ _ _ Hi)). destruct Hd; nia.
Qed.

(** Another block is clear of all that are handed out. *)
Lemma run_clear i L : (forall o k, B !! o = Some (k, false) -> o + 2 ^ k <= i \/ i + 2 ^ L <= o) -> clear A (i * szAtom m) (szAtom m * 2 ^ L).
Proof.
  intros Hd q bs Hq. destruct (rep_lookup q bs Hq) as (o & k & -> & Ho & -> & Hl). rewrite Hl. pose proof (sh_atom _ (iv_shape _ _ _ _ _ Hi)). destruct (Hd o k Ho); [left|right]; nia.
Qed.
End Blocks.

Lemma malloc_step m A n : pool_heap m A ->
  exists r m' A', memsys5Malloc big m n = Some (r, m') /\ pool_heap m' A' /\ szAtom m' = szAtom m /\ nBlock m' = nBlock m /\
    malloc_does (szAtom m) (nBlock m * szAtom m) A n r A'.
Proof.
  intros (B & Hi & Hco & Hrep). destruct (Z.le_gt_cases n 0) as [Hn|Hn].
  { exists None, m, A. unfold memsys5Malloc. rewrite (proj2 (Z.ltb_ge 0 n)) by lia. split; [done|]. split; [by exists B|]. do 3 (split; [done|]). by left. }
  pose proof (sh_atom _ (iv_shape _ _ _ _ _ Hi)) as Hsz. destruct (malloc_ok big m B n Hi Hco Hn) as (r & m' & E & Hr). destruct r as [p|].
  - destruct Hr as (i & L & B' & -> & HL & Hi' & Hco' & K & HB' & [k Hk] & Hsu). pose proof (proj1 K) as Ea. pose proof (proj1 (proj2 K)) as En.
    destruct (iv_block _ _ _ _ _ Hi' _ _ _ HB') as (HL0 & Hi0 & Hil & Hd). pose proof (pow2_pos L ltac:(lia)) as Hp.
    exists (Some (i * szAtom m)), m', (<[i * szAtom m := block_bytes m' i L]> A). split; [done|]. split; [|split; [done|split; [done|]]].
    + exists B'. split_and!; try done. intros p bs. rewrite Ea. destruct (decide (p = i * szAtom m)) as [->|Hne].
      * rewrite lookup_insert_eq. split; [intros [= <-]; eauto|]. intros (o & j & Eo & Ho & ->). apply (rep_inj m B Hi) in Eo as <-. congruence.
      * rewrite lookup_insert_ne by done. rewrite (Hrep p bs). split; intros (o & j & -> & Ho & ->); (assert (o <> i) by congruence); exists o, j.
        -- split_and!; [done|by apply Hsu|]. symmetry. by apply (bytes_kept_user m B ∅).
        -- apply Hsu in Ho; [|done]. split_and!; [done|done|]. by apply (bytes_kept_user m B ∅).
    + split; [lia|]. exists (szAtom m * 2 ^ L), (block_bytes m' i L). split; [by exists L|]. split; [|split; [|split; [|done]]].
      * destruct Hd as [t ->]. split_and!; [nia|rewrite <- En; nia|exists t; lia].
      * apply (run_clear m B A Hi Hrep). intros o j Ho. assert (Hne : o <> i) by congruence. apply Hsu in Ho; [|done].
        destruct (Z.lt_ge_cases o i); [left; eapply (iv_disj _ _ _ _ _ Hi'); eauto|right; eapply (iv_disj _ _ _ _ _ Hi'); eauto; lia].
      * rewrite <- Ea. unfold block_bytes. rewrite alen_fread; [done|]. nia.
  - destruct Hr as [-> Hr]. exists None, m, A. split; [done|]. split; [by exists B|]. do 3 (split; [done|]). right. destruct Hr as [?|(L & HL & Hno)]; [by left|right].
    exists (szAtom m * 2 ^ L). split; [by exists L|]. intros p (Hp0 & Hp1 & [t ->]) Hcl. destruct HL as (HL0 & _). pose proof (pow2_pos L HL0).
    replace (t * (szAtom m * 2 ^ L)) with (t * 2 ^ L * szAtom m) in * by lia.
    destruct (room_ok big m B (t * 2 ^ L) L Hi Hco HL0 ltac:(by exists t) ltac:(nia) ltac:(nia) Hno) as (o & k & Ho & H1 & H2).
    by apply (clear_run m B A Hi Hrep _ _ Hcl o k).
Qed.

Lemma free_step m A p : pool_heap m A -> is_Some (A !! p) ->
  exists m', memsys5Free big m p = Some m' /\ pool_heap m' (delete p A) /\ szAtom m' = szAtom m /\ nBlock m' = nBlock m.
Proof.
  intros (B & Hi & Hco & Hrep) [old Hold]. destruct (rep_lookup m B A Hi Hrep p old Hold) as (i & k & -> & Ho & -> & _).
  destruct (free_ok big m B i k Hi Hco Ho) as (m' & B' & E & Hi' & Hco' & K & Hs). pose proof (proj1 K) as Ea. exists m'. split; [done|]. split; [|split; [done|apply K]].
  exists B'. split_and!; try done. intros p bs. rewrite Ea, lookup_delete_Some, (Hrep p bs). split.
  - intros [Hne (o & j & -> & Hoj & ->)]. assert (o <> i) by (intros ->; done). exists o, j. split_and!; [done|by apply Hs|]. symmetry.
    apply (bytes_kept_user m B {[i]}); [done|done|by apply not_elem_of_singleton].
  - intros (o & j & -> & [Hoj Hne]%Hs & ->). split; [intros Eo; apply (rep_inj m B Hi) in Eo; done|]. exists o, j. split_and!; [done|done|].
    apply (bytes_kept_user m B {[i]}); [done|done|by apply not_elem_of_singleton].
Qed.

Lemma fread_fwrite_inside z p n off bs : 0 <= p -> 0 <= off -> off + alen bs <= n -> fread (fwrite z (p + off) bs) p n = fwrite (fread z p n) off bs.
Proof.
  intros Hp Ho Hl. pose proof (alen_nonneg bs). apply list_fbyte_eq; [rewrite alen_write, !alen_fread; lia|]. rewrite alen_fread by lia. intros i Hi.
  rewrite fbyte_fread, !fbyte_write, fbyte_fread by lia. destruct (Z.leb_spec (p + off) (p + i)), (Z.leb_spec off i), (Z.ltb_spec (p + i) (p + off + alen bs)), (Z.ltb_spec i (off + alen bs)); cbn [andb]; try lia; try done.
  f_equal. lia.
Qed.

Lemma store_step m A p off bs old : pool_heap m A -> A !! p = Some old -> 0 <= off -> off + alen bs <= alen old ->
  exists z, mwrite (zPool m) (p + off) bs = Some z /\ pool_heap (set_pool m z) (<[p := fwrite old off bs]> A).
Proof.
  intros (B & Hi & Hco & Hrep) Hold Hoff Hl. destruct (rep_lookup m B A Hi Hrep p old Hold) as (i & k & -> & Ho & -> & Ek). rewrite Ek in Hl.
  pose proof (sh_atom _ (iv_shape _ _ _ _ _ Hi)) as Hsz. destruct (iv_block _ _ _ _ _ Hi _ _ _ Ho) as (Hk & Hi0 & _). pose proof (alen_nonneg bs).
  destruct (store_inv big m B i k (i * szAtom m + off) bs Hi Ho ltac:(lia) ltac:(lia)) as [E Hi']. eexists. split; [exact E|].
  exists B. split_and!; try done. intros p x. cbn [set_pool szAtom]. destruct (decide (p = i * szAtom m)) as [->|Hne].
  - rewrite lookup_insert_eq. assert (Eb : fwrite (block_bytes m i k) off bs = block_bytes (set_pool m (fwrite (zPool m) (i * szAtom m + off) bs)) i k).
    { unfold block_bytes. cbn [set_pool zPool szAtom]. symmetry. apply fread_fwrite_inside; nia. }
    split; [intros [= <-]; exists i, k; by rewrite Eb|]. intros (o & j & Eo & Hoj & ->). apply (rep_inj m B Hi) in Eo as <-. rewrite Ho in Hoj. injection Hoj as <-. by rewrite Eb.
  - rewrite lookup_insert_ne by done. rewrite (Hrep p x).
    assert (Heq : forall o j, o <> i -> B !! o = Some (j, false) -> block_bytes (set_pool m (fwrite (zPool m) (i * szAtom m + off) bs)) o j = block_bytes m o j).
    { intros o j Hoi Hoj. unfold block_bytes. cbn [set_pool zPool szAtom]. destruct (iv_block _ _ _ _ _ Hi _ _ _ Hoj) as (Hj & Ho0 & _). apply fread_write_other; [nia|nia|].
      destruct (Z.lt_ge_cases o i); [left; pose proof (iv_disj _ _ _ _ _ Hi _ _ _ _ _ _ Hoj Ho ltac:(done)); nia|right; pose proof (iv_disj _ _ _ _ _ Hi _ _ _ _ _ _ Ho Hoj ltac:(lia)); nia]. }
    split; intros (o & j & -> & Hoj & ->); exists o, j; (assert (o <> i) by (intros ->; done)); (split_and!; [done|done|]); [by rewrite Heq|by apply Heq].
Qed.

Lemma size_step m A p old : pool_heap m A -> A !! p = Some old -> memsys5Size m p = Some (alen old).
Proof.
  intros (B & Hi & Hco & Hrep) Hold. destruct (rep_lookup m B A Hi Hrep p old Hold) as (i & k & -> & Ho & -> & ->). by apply (memsys5Size_ok big m B).
Qed.

Lemma block_pos m A p old : pool_heap m A -> A !! p = Some old -> 0 < alen old.
Proof.
  intros (B & Hi & Hco & Hrep) Hold. destruct (rep_lookup m B A Hi Hrep p old Hold) as (i & k & -> & Ho & _ & ->). destruct (iv_block _ _ _ _ _ Hi _ _ _ Ho) as (Hk & _).
  pose proof (pow2_pos k ltac:(lia)). pose proof (sh_atom _ (iv_shape _ _ _ _ _ Hi)). nia.
Qed.

Lemma realloc_step m A p n old : pool_heap m A -> A !! p = Some old -> 0 <= n ->
  exists r m' A', memsys5Realloc big m p n = Some (r, m') /\ pool_heap m' A' /\ szAtom m' = szAtom m /\ nBlock m' = nBlock m /\
    mdoes (szAtom m) (nBlock m * szAtom m) A (MRealloc p n) r A'.
Proof.
  intros Hh Hold Hn. unfold memsys5Realloc, mdoes. destruct (Z.eqb_spec n 0); [exists None, m, A; split; [done|]; split; [done|]; do 2 (split; [done|]); exists old; done|].
  rewrite (bind_eq _ _ _ (size_step _ _ _ _ Hh Hold)). destruct (n <=? alen old) eqn:Hle.
  { exists (Some p), m, A. split; [done|]. split; [done|]. do 2 (split; [done|]). exists old. by rewrite Hle. }
  apply Z.leb_gt in Hle as Hlt.
  destruct (malloc_step m A n Hh) as (r & m1 & A1 & E & Hh1 & Ea & En & Hd). rewrite (bind_eq _ _ _ E). destruct r as [q|].
  2: { exists None, m1, A. destruct Hd as [-> Hd]. split; [done|]. split; [done|]. do 2 (split; [done|]). exists old. split; [done|]. rewrite Hle. exists A. done. }
  destruct Hd as (Hn0 & s & bs & Hs & Hp & Hc & Hl & ->). assert (Hpq : p <> q).
  { intros ->. pose proof (block_pos _ _ _ _ Hh Hold). destruct (Hc q old Hold) as [?|?]; [lia|]. destruct Hs as (k & (Hk0 & Hk & _) & ->). lia. }
  assert (Hold1 : <[q := bs]> A !! p = Some old) by by rewrite lookup_insert_ne.
  assert (Hrd : mread (zPool m1) p (alen old) = Some old).
  { destruct Hh1 as (B1 & Hi1 & _ & Hrep1). destruct (rep_lookup m1 B1 _ Hi1 Hrep1 p old Hold1) as (o & k & -> & Ho & Eb & Ek). pose proof (sh_atom _ (iv_shape _ _ _ _ _ Hi1)).
    destruct (iv_block _ _ _ _ _ Hi1 _ _ _ Ho) as (_ & ? & ? & _). rewrite Ek, mread_ok; [by rewrite Eb at 1|nia|rewrite <- Ek; apply alen_nonneg|]. rewrite (sh_pool _ (iv_shape _ _ _ _ _ Hi1)). nia. }
  rewrite (bind_eq _ _ _ Hrd). assert (alen old <= alen bs) by (destruct Hs as (k & (_ & Hk & _) & ->); lia).
  destruct (store_step m1 _ q 0 old bs Hh1 ltac:(apply lookup_insert_eq) ltac:(lia) ltac:(lia)) as (z & Ez & Hh2). rewrite Z.add_0_r in Ez. rewrite (bind_eq _ _ _ Ez).
  destruct (free_step _ _ p Hh2) as (m' & E' & Hh' & Ea' & En'); [rewrite !lookup_insert_ne by done; by exists old|]. rewrite (bind_eq _ _ _ E').
  exists (Some q), m', (delete p (<[q := fwrite bs 0 old]> (<[q := bs]> A))). split; [done|]. split; [done|]. cbn in Ea', En'. split; [congruence|]. split; [congruence|].
  exists old. split; [done|]. rewrite Hle. exists (<[q := bs]> A). split; [split; [done|]; exists s, bs; done|]. exists bs. split; [apply lookup_insert_eq|done].
Qed.

(** Every legal operation returns, and does to the heap what it should. *)
Lemma mstep_ok m A o : pool_heap m A -> mlegal A o ->
  exists r m' A', mstep m o = Some (r, m') /\ pool_heap m' A' /\ szAtom m' = szAtom m /\ nBlock m' = nBlock m /\ mdoes (szAtom m) (nBlock m * szAtom m) A o r A'.
Proof.
  intros Hh Hl. destruct o as [n|p|p n|p|p off bs]; cbn [mstep mlegal] in *.
  - by apply malloc_step.
  - destruct (free_step _ _ _ Hh Hl) as (m' & -> & H1 & H2 & H3). cbn [mbind option_bind]. by exists None, m', (delete p A).
  - destruct Hl as [[old Hold] Hn]. by eapply realloc_step.
  - destruct Hl as [old Hold]. rewrite (size_step _ _ _ _ Hh Hold). cbn [mbind option_bind]. exists (Some (alen old)), m, A. split; [done|]. split; [done|]. do 2 (split; [done|]). by exists old.
  - destruct Hl as (old & Hold & H1 & H2). destruct (store_step _ _ _ _ _ _ Hh Hold H1 H2) as (z & -> & Hh'). cbn [mbind option_bind].
    eexists None, (set_pool m z), _. split; [done|]. split; [exact Hh'|]. do 2 (split; [done|]). by exists old.
Qed.

(** ** Runs *)

Inductive pool_runs (m0 : Mem5Global) : mtrace -> Mem5Global -> Prop :=
  | pool_init : pool_runs m0 [] m0
  | pool_step tr m o r m' : pool_runs m0 tr m -> may (ledger_of tr) o -> mstep m o = Some (r, m') -> pool_runs m0 (tr ++ [(o, r)]) m'.

(** The blocks of the heap lie apart in the pool, which has their bytes. *)
Definition heap_in_pool (m : Mem5Global) (A : heap) : Prop :=
  (forall p bs, A !! p = Some bs -> 0 <= p /\ p + alen bs <= nBlock m * szAtom m /\ fread (zPool m) p (alen bs) = bs) /\
  (forall p q bs bs', A !! p = Some bs -> A !! q = Some bs' -> p < q -> p + alen bs <= q).

Lemma pool_heap_in m A : pool_heap m A -> heap_in_pool m A.
Proof.
  intros (B & Hi & _ & Hrep). pose proof (sh_atom _ (iv_shape _ _ _ _ _ Hi)) as Hsz. split.
  - intros p bs (o & k & -> & Ho & Eb & ->)%(rep_lookup m B A Hi Hrep). destruct (iv_block _ _ _ _ _ Hi _ _ _ Ho) as (_ & ? & ? & _). split_and!; [nia|nia|done].
  - intros p q bs bs' (o & k & -> & Ho & _ & ->)%(rep_lookup m B A Hi Hrep) (o' & k' & -> & Ho' & _ & _)%(rep_lookup m B A Hi Hrep) Hlt.
    pose proof (iv_disj _ _ _ _ _ Hi _ _ _ _ _ _ Ho Ho' ltac:(nia)). nia.
Qed.

Lemma pool_runs_ok m0 tr m : pool_heap m0 ∅ -> pool_runs m0 tr m ->
  szAtom m = szAtom m0 /\ nBlock m = nBlock m0 /\
  exists A, heap_runs (szAtom m0) (nBlock m0 * szAtom m0) tr A /\ ledger_ok (ledger_of tr) A /\ pool_heap m A.
Proof.
  intros H0 H. induction H as [|tr m o r m' _ (Ea & En & A & Hr & HL & Hh) Hmay E].
  { do 2 (split; [done|]). exists ∅. split; [constructor|]. split; [|done]. intros p. by rewrite !lookup_empty. }
  pose proof (may_legal _ _ _ HL Hmay) as Hleg. destruct (mstep_ok _ _ _ Hh Hleg) as (r1 & m1 & A' & E1 & Hh' & Ea' & En' & Hd). rewrite E1 in E. injection E as -> ->.
  split; [congruence|]. split; [congruence|]. rewrite Ea, En in Hd. exists A'. split; [by eapply heap_step|]. split; [|done].
  unfold ledger_of. rewrite foldl_app. cbn [foldl fst snd]. by apply (note_ok _ _ _ _ _ _ _ HL Hleg Hd).
Qed.

Lemma init_heap heap mnReq : 1 <= mnReq <= 2 ^ 12 -> alen heap < 2 ^ 31 ->
  exists m0 a, memsys5Init big heap mnReq = Some m0 /\ 3 <= a <= 12 /\ mnReq <= 2 ^ a /\ szAtom m0 = 2 ^ a /\ nBlock m0 = alen heap / (2 ^ a + 1) /\ pool_heap m0 ∅.
Proof.
  intros Hr Hl. destruct (memsys5Init_ok big heap mnReq Hr Hl) as (m & a & B & E & Ha & Hq & Es & En & Hi & Hf). exists m, a. do 5 (split; [done|]). exists B.
  split; [done|]. split; [by eapply fresh_coalesced|]. intros p bs. rewrite lookup_empty. split; [done|]. intros (o & k & _ & Ho & _). by destruct (proj1 Hf _ _ _ Ho) as [_ ?].
Qed.
End Heap.

(** C36. The allocator is a heap.  Whatever memory of less than 2^31 bytes it is given and
    whatever the least request is, [memsys5Init] sets up a pool of atoms, a power of two
    between 8 and 4096, and in every run of allocations, releases, resizings and stores of
    users that keep to the sizes they asked for, every result is one that a heap of
    disjoint blocks gives: a block has the least power of two of atoms for its request, is
    aligned to its size and overlaps no other, keeps what its user wrote until it is
    released, and moves with its contents when it grows; an allocation fails only if
    the request is not positive or exceeds 2^30 bytes, or if every aligned place for it
    overlaps a block in use, so that buddies that were released are always joined again.
    Every next operation of such users returns, the pool and its control bytes being
    accessed inside their bounds only. *)
Theorem memsys5_refines_heap big heap mnReq : 1 <= mnReq <= 2 ^ 12 -> alen heap < 2 ^ 31 ->
  exists m0 a, memsys5Init big heap mnReq = Some m0 /\ 3 <= a <= 12 /\ mnReq <= 2 ^ a /\ szAtom m0 = 2 ^ a /\ nBlock m0 = alen heap / (2 ^ a + 1) /\
  forall tr m, pool_runs big m0 tr m ->
    (exists A, heap_runs (2 ^ a) (nBlock m0 * 2 ^ a) tr A /\ heap_in_pool m A) /\
    (forall o, may (ledger_of tr) o -> exists r m', mstep big m o = Some (r, m')).
Proof.
  intros Hr Hl. destruct (init_heap big heap mnReq Hr Hl) as (m0 & a & E & Ha & Hq & Es & En & Hh). exists m0, a. do 5 (split; [done|]). intros tr m H.
  destruct (pool_runs_ok _ _ _ _ Hh H) as (_ & _ & A & Hrun & HL & HhA). rewrite Es in Hrun. split; [exists A; split; [done|by eapply pool_heap_in]|].
  intros o Ho. destruct (mstep_ok _ _ _ _ HhA (may_legal _ _ _ HL Ho)) as (r & m' & _ & -> & _). by eexists _, _.
Qed.

(** A heap of 45 bytes: five atoms of 8 bytes. *)
Definition sample_pool : Mem5Global := default (MkMem5 0 0 [] [] []) (memsys5Init false (replicate 45 0) 8).
Definition pool_sample : mtrace := [(MMalloc 10, Some 0); (MStore 0 2 [7; 8], None); (MRealloc 0 20, None); (MFree 0, None); (MMalloc 20, Some 0)].

Lemma pool_sample_runs : exists m, pool_runs false sample_pool pool_sample m.
Proof.
  eexists. eapply (pool_step _ _ [_; _; _; _]); [eapply (pool_step _ _ [_; _; _]); [eapply (pool_step _ _ [_; _]); [eapply (pool_step _ _ [_]); [eapply (pool_step _ _ []); [apply pool_init|..]|..]|..]|..]|..];
    try (vm_compute; reflexivity); [by exists 10|split; [by exists 10|lia]|by exists 10].
Qed.

Lemma memsys5_refines_heap_witness : exists m0 a m A, memsys5Init false (replicate 45 0) 8 = Some m0 /\ pool_runs false m0 pool_sample m /\
  heap_runs (2 ^ a) (nBlock m0 * 2 ^ a) pool_sample A.
Proof.
  destruct (memsys5_refines_heap false (replicate 45 0) 8 ltac:(lia) ltac:(vm_compute; done)) as (m0 & a & E & _ & _ & _ & _ & H).
  assert (m0 = sample_pool) as -> by (unfold sample_pool; by rewrite E). destruct pool_sample_runs as [m R]. destruct (proj1 (H _ _ R)) as [A [HA _]].
  exists sample_pool, a, m, A. split; [exact E|]. split; [exact R|exact HA].
Defined.

(** ** Sizes *)

Lemma roundup_loop_ok n : n <= 2 ^ 28 -> forall fuel k, 0 <= k -> 30 - k < 2 * Z.of_nat fuel -> 2 ^ (k - 2) < n ->
  exists k', roundup_loop fuel n (2 ^ k) = Some (2 ^ k') /\ k <= k' /\ 2 ^ (k' - 2) < n <= 2 ^ k'.
Proof.
  intros Hn. induction fuel as [|fuel IH]; intros k Hk Hf Hlt.
  { exfalso. assert (2 ^ 28 <= 2 ^ (k - 2) \/ k - 2 < 28) as [?|?] by (destruct (Z.lt_ge_cases (k - 2) 28); [by right|left; apply Z.pow_le_mono_r; lia]); lia. }
  cbn [roundup_loop]. destruct (Z.ltb_spec (2 ^ k) n); [|exists k; done].
  replace (2 ^ k * 4) with (2 ^ (k + 2)) by (rewrite Z.pow_add_r by lia; lia).
  destruct (IH (k + 2) ltac:(lia) ltac:(lia) ltac:(replace (k + 2 - 2) with k by lia; done)) as (k' & ? & ? & ?). exists k'. split_and!; [done|lia|lia|lia].
Qed.

(** The size that is promised for a request is that of the block it will be given. *)
Lemma memsys5Roundup_block m a n : szAtom m = 2 ^ a -> 3 <= a <= 12 -> n <= 0x40000000 ->
  exists s, memsys5Roundup m n = Some s /\ block_size (szAtom m) n s.
Proof.
  intros Es Ha Hn. unfold memsys5Roundup, block_size, level_for. rewrite Es.
  assert (Hlv : forall k, a < k -> 2 ^ (k - 1) < n <= 2 ^ k -> exists k', (0 <= k' /\ n <= 2 ^ a * 2 ^ k' /\ (k' = 0 \/ 2 ^ a * 2 ^ (k' - 1) < n)) /\ 2 ^ k = 2 ^ a * 2 ^ k').
  { intros k Hk H. exists (k - a). rewrite <- !Z.pow_add_r by lia. replace (a + (k - a)) with k by lia. replace (a + (k - a - 1)) with (k - 1) by lia. split_and!; [lia|lia|right; lia|done]. }
  assert (H2 : 2 ^ a * 2 = 2 ^ (a + 1)) by (rewrite Z.pow_add_r by lia; done).
  destruct (Z.leb_spec n (2 ^ a * 2)).
  { eexists. split; [done|]. destruct (Z.leb_spec n (2 ^ a)); [exists 0; rewrite Z.mul_1_r; split_and!; [lia|lia|by left|done]|].
    rewrite H2. apply Hlv; [lia|]. replace (a + 1 - 1) with a by lia. lia. }
  destruct (Z.ltb_spec 0x10000000 n).
  { eexists. split; [done|]. rewrite (proj2 (Z.ltb_ge 0x40000000 n)) by lia. destruct (Z.ltb_spec 0x20000000 n); [apply (Hlv 30)|apply (Hlv 29)]; lia. }
  replace (2 ^ a * 8) with (2 ^ (a + 3)) by (rewrite Z.pow_add_r by lia; done).
  destruct (roundup_loop_ok n ltac:(lia) 16 (a + 3) ltac:(lia) ltac:(lia) ltac:(replace (a + 3 - 2) with (a + 1) by lia; lia)) as (k & Ek & Hk & Hb).
  rewrite (bind_eq _ _ _ Ek). eexists. split; [done|].
  assert (Eq : Z.quot (2 ^ k) 2 = 2 ^ (k - 1)) by (rewrite Z.quot_div_nonneg by lia; replace k with (k - 1 + 1) at 1 by lia; rewrite Z.pow_add_r by lia; apply Z.div_mul; lia).
  rewrite Eq. destruct (Z.leb_spec n (2 ^ (k - 1))); apply Hlv; try lia. replace (k - 1 - 1) with (k - 2) by lia. lia.
Qed.
