(* ===== verification/ShmLock.v ===== *)
(** * Locks on the wal-index ([src/os_unix.c])

    The eight locks that connections take on the shared memory of the log
    ([unixShmLock]).  The connections of one process share a node with a count for every
    lock; processes exclude each other by advisory locks of the operating
    system on the bytes of a file.  The operating system is a parameter, the class
    [PosixLocks], with what POSIX says of [fcntl(F_SETLK)] as its laws. *)
From S2P Require Import Prelude FileIO WalBase.

Definition SQLITE_SHM_UNLOCK : Z := 1.
Definition SQLITE_SHM_LOCK : Z := 2.
Definition SQLITE_SHM_SHARED : Z := 4.
Definition SQLITE_SHM_EXCLUSIVE : Z := 8.
Definition UNIX_SHM_BASE : Z := (22 + SQLITE_SHM_NLOCK) * 4.
Definition SQLITE_IOERR_SHMLOCK : Z := Eval cbv in 10 .| (20 << 8).

(** ** Advisory locks *)

Inductive flock_type : Type := F_RDLCK | F_WRLCK | F_UNLCK.

#[export] Instance flock_type_eq_dec : EqDecision flock_type.
Proof. solve_decision. Defined.

(** The outcome of [fcntl(F_SETLK)]: the lock is set, another process has a lock in
    the way, or the call fails for a reason of its own. *)
Inductive fcntl_res : Type := Granted | Conflict | Trouble.

(** A lock [t] of one process is in the way of [want] of another. *)
Definition in_the_way (want t : flock_type) : bool :=
  match want, t with
  | F_WRLCK, F_RDLCK | F_WRLCK, F_WRLCK | F_RDLCK, F_WRLCK => true
  | _, _ => false
  end.

(** [setlk k pid t start len] sets the locks of process [pid] on [len] bytes;
    [getlk k pid b] is the lock that process [pid] has on byte [b]. *)
Class PosixLocks (K : Type) : Type := {
  setlk : K -> Z -> flock_type -> Z -> Z -> fcntl_res * K;
  getlk : K -> Z -> Z -> flock_type
}.

Class PosixLaws (K : Type) `{PosixLocks K} : Prop := {
  setlk_granted k pid t start len k' : setlk k pid t start len = (Granted, k') ->
    (forall q b, getlk k' q b = if bool_decide (q = pid) && (start <=? b) && (b <? start + len) then t else getlk k q b) /\
    (forall q b, q <> pid -> start <= b < start + len -> in_the_way t (getlk k q b) = false);
  setlk_conflict k pid t start len k' : setlk k pid t start len = (Conflict, k') ->
    (forall q b, getlk k' q b = getlk k q b) /\ exists q b, q <> pid /\ start <= b < start + len /\ in_the_way t (getlk k q b) = true;
  setlk_trouble k pid t start len k' : setlk k pid t start len = (Trouble, k') -> forall q b, getlk k' q b = getlk k q b
}.

(** ** Structures *)

Record unixShm : Type := MkShm {
  sharedMask : Z;
  exclMask : Z
}.

(** [pFirst] has the connections of the list in its order. *)
Record unixShmNode : Type := MkNode {
  hShm : Z;
  pFirst : list unixShm;
  aLock : list Z
}.

Definition set_shm (i : nat) (c : unixShm) (l : list Z) (d : unixShmNode) : unixShmNode :=
  MkNode (hShm d) (<[i := c]> (pFirst d)) l.

(** [for(i=0; i<SQLITE_SHM_NLOCK; i++)] of [assertLockingArrayOk], with the indices left *)
Fixpoint count_locks (pX : unixShm) (arr : list Z) (ix : list Z) : option (list Z) :=
  match ix with
  | [] => Some arr
  | i :: ix =>
      if negb (exclMask pX .& (1 << i) =? 0) then
        a ← aget arr i;
        if a =? 0 then arr ← aset arr i (-1); count_locks pX arr ix else None
      else if negb (sharedMask pX .& (1 << i) =? 0) then
        a ← aget arr i;
        if 0 <=? a then arr ← aset arr i (a + 1); count_locks pX arr ix else None
      else count_locks pX arr ix
  end.

Definition slots : list Z := [0; 1; 2; 3; 4; 5; 6; 7].

(** [for(pX=pShmNode->pFirst; pX; pX=pX->pNext)] *)
Fixpoint count_all (l : list unixShm) (arr : list Z) : option (list Z) :=
  match l with
  | [] => Some arr
  | pX :: l => arr ← count_locks pX arr slots; count_all l arr
  end.

(** [None] when an assertion fails *)
Definition assertLockingArrayOk (d : unixShmNode) : option bool :=
  arr ← count_all (pFirst d) (replicate 8 0);
  Some (bool_decide (aLock d = arr)).

(** ** Locking *)

(** [for(ii=ofst; ii<ofst+n; ii++) if( aLock[ii] )] *)
Fixpoint any_locked (n : nat) (l : list Z) (ii : Z) : option bool :=
  match n with
  | O => Some false
  | S n => a ← aget l ii; if a =? 0 then any_locked n l (ii + 1) else Some true
  end.

(** [for(ii=ofst; ii<ofst+n; ii++) aLock[ii] = v] *)
Fixpoint fill_locks (n : nat) (l : list Z) (ii v : Z) : option (list Z) :=
  match n with
  | O => Some l
  | S n => l ← aset l ii v; fill_locks n l (ii + 1) v
  end.

Section Locks.
Context {K : Type} `{PosixLocks K}.

Definition unixShmSystemLock (k : K) (pid : Z) (d : unixShmNode) (lockType : flock_type) (ofst n : Z) : Z * K :=
  if 0 <=? hShm d then
    let '(res, k) := setlk k pid lockType ofst n in
    (match res with Granted => SQLITE_OK | _ => SQLITE_BUSY end, k)
  else (SQLITE_OK, k).

(** Case (a) *)
Definition shm_unlock (k : K) (pid : Z) (d : unixShmNode) (i : nat) (p : unixShm) (mask ofst n flags : Z) : option (Z * unixShmNode * K) :=
  a ← aget (aLock d) ofst;
  if negb (flags .& SQLITE_SHM_SHARED =? 0) && (a >? 1) then
    l ← aset (aLock d) ofst (a - 1);
    Some (SQLITE_OK, set_shm i (MkShm (sharedMask p .& Z.lnot mask) (exclMask p)) l d, k)
  else
    let '(rc, k) := unixShmSystemLock k pid d F_UNLCK (ofst + UNIX_SHM_BASE) n in
    if rc =? SQLITE_OK then
      l ← fill_locks (Z.to_nat n) (aLock d) ofst 0;
      Some (rc, set_shm i (MkShm (sharedMask p .& Z.lnot mask) (exclMask p .& Z.lnot mask)) l d, k)
    else Some (rc, d, k).

(** Case (b) *)
Definition shm_shared (k : K) (pid : Z) (d : unixShmNode) (i : nat) (p : unixShm) (mask ofst n : Z) : option (Z * unixShmNode * K) :=
  a ← aget (aLock d) ofst;
  let '(rc, k) :=
    if a <? 0 then (SQLITE_BUSY, k)
    else if a =? 0 then unixShmSystemLock k pid d F_RDLCK (ofst + UNIX_SHM_BASE) n
    else (SQLITE_OK, k) in
  if rc =? SQLITE_OK then
    l ← aset (aLock d) ofst (a + 1);
    Some (rc, set_shm i (MkShm (sharedMask p .| mask) (exclMask p)) l d, k)
  else Some (rc, d, k).

(** Case (c) *)
Definition shm_exclusive (k : K) (pid : Z) (d : unixShmNode) (i : nat) (p : unixShm) (mask ofst n : Z) : option (Z * unixShmNode * K) :=
  busy ← any_locked (Z.to_nat n) (aLock d) ofst;
  if (busy : bool) then Some (SQLITE_BUSY, d, k)
  else
    let '(rc, k) := unixShmSystemLock k pid d F_WRLCK (ofst + UNIX_SHM_BASE) n in
    if rc =? SQLITE_OK then
      l ← fill_locks (Z.to_nat n) (aLock d) ofst (-1);
      Some (rc, set_shm i (MkShm (sharedMask p) (exclMask p .| mask)) l d, k)
    else Some (rc, d, k).

(** [pShm] is the place of the connection of [fd] in the list of the node, if it
    has shared memory. *)
Definition unixShmLock (k : K) (pid : Z) (d : unixShmNode) (pShm : option nat) (ofst n flags : Z) : option (Z * unixShmNode * K) :=
  match pShm with
  | None => Some (SQLITE_IOERR_SHMLOCK, d, k)
  | Some i =>
      p ← pFirst d !! i;
      let mask := u16 ((1 << (ofst + n)) - (1 << ofst)) in
      let unlock := negb (flags .& SQLITE_SHM_UNLOCK =? 0) in
      if (unlock && negb ((exclMask p .| sharedMask p) .& mask =? 0))
         || ((flags =? SQLITE_SHM_SHARED .| SQLITE_SHM_LOCK) && (sharedMask p .& mask =? 0))
         || (flags =? SQLITE_SHM_EXCLUSIVE .| SQLITE_SHM_LOCK)
      then
        if unlock then shm_unlock k pid d i p mask ofst n flags
        else if negb (flags .& SQLITE_SHM_SHARED =? 0) then shm_shared k pid d i p mask ofst n
        else shm_exclusive k pid d i p mask ofst n
      else Some (SQLITE_OK, d, k)
  end.
End Locks.
