(* ===== verification/ShmSpec.v ===== *)
(** * The wal-index locks refine readers-writer locks

    The specification is one table of modes for all connections of all processes: any
    number of connections have a lock in shared mode, or one in exclusive mode.
    The two levels of the code, the counts of a process and the advisory locks
    between processes, implement it, and the debugging check of the code on the
    counts ([assertLockingArrayOk]) never fails. *)
From S2P Require Import Prelude FileIO WalBase ShmLock.

(** ** The specification *)

Inductive lmode : Type := LNone | LShared | LExcl.

#[export] Instance lmode_eq_dec : EqDecision lmode.
Proof. solve_decision. Defined.

(** A connection: its process and its place in the list of the process. *)
Abbreviation holder := (Z * nat)%type.

Abbreviation modes := (holder -> Z -> lmode).

Inductive lop : Type := LockS (b : Z) | LockX (b n : Z) | UnlockS (b : Z) | UnlockX (b n : Z).

Definition op_ofst (o : lop) : Z := match o with LockS b | LockX b _ | UnlockS b | UnlockX b _ => b end.
Definition op_n (o : lop) : Z := match o with LockS _ | UnlockS _ => 1 | LockX _ n | UnlockX _ n => n end.
Definition op_flags (o : lop) : Z :=
  match o with
  | LockS _ => SQLITE_SHM_LOCK .| SQLITE_SHM_SHARED
  | LockX _ _ => SQLITE_SHM_LOCK .| SQLITE_SHM_EXCLUSIVE
  | UnlockS _ => SQLITE_SHM_UNLOCK .| SQLITE_SHM_SHARED
  | UnlockX _ _ => SQLITE_SHM_UNLOCK .| SQLITE_SHM_EXCLUSIVE
  end.
Definition op_type (o : lop) : flock_type := match o with LockS _ => F_RDLCK | LockX _ _ => F_WRLCK | _ => F_UNLCK end.

Definition in_op (o : lop) (b : Z) : Prop := op_ofst o <= b < op_ofst o + op_n o.

(** What the core asks for: never shared while it has the lock exclusively or the
    other way round, and only locks that it has are given back. *)
Definition lop_ok (M : modes) (c : holder) (o : lop) : Prop :=
  0 <= op_ofst o /\ 1 <= op_n o /\ op_ofst o + op_n o <= SQLITE_SHM_NLOCK /\
  match o with
  | LockS b => M c b <> LExcl
  | LockX _ _ => forall b, in_op o b -> M c b = LNone
  | UnlockS b => M c b <> LExcl
  | UnlockX _ _ => (forall b, in_op o b -> M c b = LExcl) \/ (forall b, in_op o b -> M c b = LNone)
  end.

Definition op_mode (o : lop) : lmode := match o with LockS _ => LShared | LockX _ _ => LExcl | _ => LNone end.

(** Another connection has a lock that excludes the operation. *)
Definition excluded (M : modes) (c : holder) (o : lop) : Prop :=
  exists c' b, c' <> c /\ in_op o b /\
  match o with LockS _ => M c' b = LExcl | LockX _ _ => M c' b <> LNone | _ => False end.

Definition set_mode (M : modes) (c : holder) (o : lop) : modes :=
  fun c' b => if bool_decide (c' = c) && (op_ofst o <=? b) && (b <? op_ofst o + op_n o) then op_mode o else M c' b.

(** An operation takes effect unless another connection excludes it; [trouble] stands for an
    error of the operating system. *)
Definition rw_does (M : modes) (c : holder) (o : lop) (trouble : bool) (rc : Z) (M' : modes) : Prop :=
  (rc = SQLITE_OK /\ ~ excluded M c o /\ forall c' b, 0 <= b < SQLITE_SHM_NLOCK -> M' c' b = set_mode M c o c' b) \/
  (rc = SQLITE_BUSY /\ (excluded M c o \/ trouble = true) /\ forall c' b, 0 <= b < SQLITE_SHM_NLOCK -> M' c' b = M c' b).

(** No two connections have a lock if one has it exclusively. *)
Definition exclusive (M : modes) : Prop :=
  forall c c' b, 0 <= b < SQLITE_SHM_NLOCK -> c <> c' -> M c b = LExcl -> M c' b = LNone.

(** ** Bit masks *)

Definition mode_of (p : unixShm) (b : Z) : lmode :=
  if Z.testbit (exclMask p) b then LExcl else if Z.testbit (sharedMask p) b then LShared else LNone.

Lemma mask_testbit ofst n b : 0 <= ofst -> 1 <= n -> ofst + n <= 8 -> 0 <= b ->
  Z.testbit (u16 ((1 << (ofst + n)) - (1 << ofst))) b = (ofst <=? b) && (b <? ofst + n).
Proof.
  intros Ho Hn Hl Hb. assert (E : (1 << (ofst + n)) - (1 << ofst) = Z.shiftl (Z.ones n) ofst).
  { rewrite !Z.shiftl_1_l, Z.shiftl_mul_pow2, Z.ones_equiv, Z.pow_add_r by lia. lia. }
  unfold u16. rewrite E, Z.testbit_mod_pow2, Z.shiftl_spec, Z.testbit_ones by lia.
  destruct (Z.leb_spec ofst b), (Z.ltb_spec b (ofst + n)), (Z.leb_spec 0 (b - ofst)), (Z.ltb_spec (b - ofst) n), (Z.ltb_spec b 16); cbn [andb]; lia || done.
Qed.

Section Mask.
Context (ofst n : Z) (Ho : 0 <= ofst) (Hn : 1 <= n) (Hl : ofst + n <= 8).
Abbreviation mask := (u16 ((1 << (ofst + n)) - (1 << ofst))).

Lemma land_mask s : (s .& mask =? 0) = true <-> forall b, ofst <= b < ofst + n -> Z.testbit s b = false.
Proof.
  rewrite Z.eqb_eq. split.
  - intros E b Hb. assert (H : Z.testbit (s .& mask) b = false) by (rewrite E; apply Z.testbit_0_l).
    rewrite Z.land_spec, mask_testbit in H by lia. rewrite (proj2 (Z.leb_le ofst b)), (proj2 (Z.ltb_lt b (ofst + n))), !andb_true_r in H by lia. done.
  - intros H. apply Z.bits_inj_0. intros b. destruct (Z.neg_nonneg_cases b); [by apply Z.testbit_neg_r|]. rewrite Z.land_spec, mask_testbit by lia.
    destruct (Z.leb_spec ofst b), (Z.ltb_spec b (ofst + n)); cbn [andb]; rewrite ?andb_false_r; try done. by rewrite H.
Qed.

Lemma clear_mask s b : 0 <= b -> Z.testbit (s .& Z.lnot mask) b = Z.testbit s b && negb ((ofst <=? b) && (b <? ofst + n)).
Proof. intros Hb. by rewrite Z.land_spec, Z.lnot_spec, mask_testbit. Qed.

Lemma set_mask s b : 0 <= b -> Z.testbit (s .| mask) b = Z.testbit s b || ((ofst <=? b) && (b <? ofst + n)).
Proof. intros Hb. by rewrite Z.lor_spec, mask_testbit. Qed.
End Mask.

(** ** Counting the holders of a process *)

Definition count (m : lmode) (b : Z) (l : list unixShm) : Z := alen (filter (fun p => mode_of p b = m) l).

Definition bump (x m : lmode) : Z := if decide (x = m) then 1 else 0.

Lemma count_cons m b p l : count m b (p :: l) = bump (mode_of p b) m + count m b l.
Proof. unfold count, bump. rewrite filter_cons. repeat case_decide; rewrite ?alen_cons; done || lia. Qed.

Lemma count_nonneg m b l : 0 <= count m b l.
Proof. apply alen_nonneg. Qed.

Lemma count_update m b l i p q : l !! i = Some p -> count m b (<[i := q]> l) = count m b l - bump (mode_of p b) m + bump (mode_of q b) m.
Proof.
  revert i. induction l as [|x l IH]; intros [|i] Hi; [done|done|..]; cbn in Hi.
  - injection Hi as ->. change (<[0%nat := q]> (p :: l)) with (q :: l). rewrite !count_cons. lia.
  - change (<[S i := q]> (x :: l)) with (x :: <[i := q]> l). rewrite !count_cons, (IH i Hi). lia.
Qed.

Lemma count_at m b l i p : l !! i = Some p -> bump (mode_of p b) m <= count m b l.
Proof.
  revert i. induction l as [|x l IH]; intros [|i] Hi; [done|done|..]; cbn in Hi; rewrite count_cons.
  - injection Hi as ->. pose proof (count_nonneg m b l). lia.
  - specialize (IH i Hi). unfold bump at 2. destruct (decide _); lia.
Qed.

Lemma count_two m b l i j p q : m <> LNone -> l !! i = Some p -> l !! j = Some q -> i <> j -> mode_of p b = m -> mode_of q b = m -> 2 <= count m b l.
Proof.
  intros Hm Hi Hj Hne Hp Hq. pose proof (count_update m b l i p (MkShm 0 0) Hi) as E.
  pose proof (count_at m b (<[i := MkShm 0 0]> l) j q ltac:(by rewrite list_lookup_insert_ne)) as Hc.
  replace (mode_of (MkShm 0 0) b) with LNone in E by (unfold mode_of; cbn [exclMask sharedMask]; by rewrite !Z.testbit_0_l).
  unfold bump in *. rewrite decide_True in Hc by done. rewrite decide_True, (decide_False (P := LNone = m)) in E by done. lia.
Qed.

Lemma count_pos m b l : 0 < count m b l -> exists i p, l !! i = Some p /\ mode_of p b = m.
Proof.
  induction l as [|x l IH]; [change (count m b []) with 0; lia|]. rewrite count_cons. unfold bump. destruct (decide (mode_of x b = m)); [intros _; by exists 0%nat, x|].
  intros H. destruct IH as (i & p & ? & ?); [lia|]. by exists (S i), p.
Qed.

(** ** The counts of a process *)

(** The value of a lock by the holders: -1 for one exclusive holder, else the number of shared ones. *)
Definition slot_ok (l : list unixShm) (b a : Z) : Prop :=
  (count LExcl b l = 0 /\ a = count LShared b l) \/ (count LExcl b l = 1 /\ count LShared b l = 0 /\ a = -1).

Record shm_node_ok (d : unixShmNode) : Prop := {
  nd_len : alen (aLock d) = SQLITE_SHM_NLOCK;
  nd_slot : forall b a, aget (aLock d) b = Some a -> slot_ok (pFirst d) b a
}.

Lemma land_bit x i : 0 <= i -> (x .& (1 << i) =? 0) = negb (Z.testbit x i).
Proof.
  intros Hi. rewrite Z.shiftl_1_l. apply Bool.eq_true_iff_eq. rewrite Z.eqb_eq, negb_true_iff. split.
  - intros E. assert (H : Z.testbit (x .& 2 ^ i) i = false) by (rewrite E; apply Z.testbit_0_l). by rewrite Z.land_spec, Z.pow2_bits_true, andb_true_r in H.
  - intros H. apply Z.bits_inj_0. intros j. rewrite Z.land_spec. destruct (decide (i = j)) as [<-|Hne]; [by rewrite H|]. by rewrite Z.pow2_bits_false, andb_false_r.
Qed.

(** The value of a lock with one more connection. *)
Definition grow (m : lmode) (a : Z) : Z := match m with LNone => a | LShared => a + 1 | LExcl => -1 end.
Definition may_grow (m : lmode) (a : Z) : Prop := match m with LNone => True | LShared => 0 <= a | LExcl => a = 0 end.

Lemma count_locks_ok p : forall ix arr, NoDup ix -> (forall i, i ∈ ix -> 0 <= i < alen arr) ->
  (forall i a, i ∈ ix -> aget arr i = Some a -> may_grow (mode_of p i) a) ->
  exists arr', count_locks p arr ix = Some arr' /\ alen arr' = alen arr /\
    forall i a, aget arr i = Some a -> aget arr' i = Some (if bool_decide (i ∈ ix) then grow (mode_of p i) a else a).
Proof.
  induction ix as [|i ix IH]; intros arr Hnd Hr Hg; [exists arr; split_and!; [done..|]; intros j a; by rewrite bool_decide_eq_false_2 by apply not_elem_of_nil|].
  apply NoDup_cons in Hnd as [Hni Hnd]. assert (Hi : 0 <= i < alen arr) by (apply Hr; left). destruct (aget_is_Some arr i Hi) as [a Ha]. pose proof (Hg i a ltac:(left) Ha) as Hm.
  assert (exists arr1, count_locks p arr (i :: ix) = count_locks p arr1 ix /\ alen arr1 = alen arr /\
    forall j, aget arr1 j = if decide (j = i) then Some (grow (mode_of p i) a) else aget arr j) as (arr1 & E1 & L1 & H1).
  { cbn [count_locks]. rewrite !land_bit, !negb_involutive, Ha by lia. cbn [mbind option_bind]. revert Hm. unfold mode_of.
    destruct (Z.testbit (exclMask p) i); [|destruct (Z.testbit (sharedMask p) i)]; cbn [may_grow grow]; intros Hm.
    - rewrite Hm, Z.eqb_refl. pose proof (aset_in arr i (-1) Hi) as E. rewrite E. eexists. split; [reflexivity|]. split; [by eapply aset_alen|intros j; by apply aget_aset].
    - rewrite (proj2 (Z.leb_le 0 a)) by done. pose proof (aset_in arr i (a + 1) Hi) as E. rewrite E. eexists. split; [reflexivity|]. split; [by eapply aset_alen|intros j; by apply aget_aset].
    - exists arr. split_and!; [done..|]. intros j. case_decide; by subst. }
  rewrite E1. destruct (IH arr1 Hnd) as (arr' & -> & L' & H').
  { intros j Hj. rewrite L1. apply Hr. by right. }
  { intros j c Hj. rewrite H1. destruct (decide (j = i)) as [->|]; [done|]. apply Hg. by right. }
  exists arr'. split_and!; [done|lia|]. intros j c Hc. specialize (H1 j). destruct (decide (j = i)) as [->|Hne].
  - rewrite (H' _ _ H1), bool_decide_eq_false_2, bool_decide_eq_true_2 by (done || left). congruence.
  - rewrite Hc in H1. rewrite (H' _ _ H1). f_equal. destruct (decide (j ∈ ix)); [rewrite !bool_decide_eq_true_2; [done|by right|done]|].
    rewrite !bool_decide_eq_false_2; [done|by apply not_elem_of_cons|done].
Qed.

Lemma slots_elem i : i ∈ slots <-> 0 <= i < SQLITE_SHM_NLOCK.
Proof.
  unfold slots, SQLITE_SHM_NLOCK. split; [intros H; repeat (apply elem_of_cons in H as [->|H]; [lia|]); by apply not_elem_of_nil in H|].
  intros H. assert (i = 0 \/ i = 1 \/ i = 2 \/ i = 3 \/ i = 4 \/ i = 5 \/ i = 6 \/ i = 7) as Hc by lia. rewrite !elem_of_cons. tauto.
Qed.

(** [pre] are the connections that were counted. *)
Lemma count_all_ok : forall l pre arr, alen arr = SQLITE_SHM_NLOCK -> (forall b a, aget arr b = Some a -> slot_ok pre b a) ->
  (forall b, 0 <= b < SQLITE_SHM_NLOCK -> exists a, slot_ok (pre ++ l) b a) ->
  exists arr', count_all l arr = Some arr' /\ alen arr' = SQLITE_SHM_NLOCK /\ forall b a, aget arr' b = Some a -> slot_ok (pre ++ l) b a.
Proof.
  induction l as [|p l IH]; intros pre arr Hlen Hpre Hall; [exists arr; by rewrite app_nil_r|].
  assert (Hcnt : forall m b k, count m b (pre ++ p :: k) = count m b pre + bump (mode_of p b) m + count m b k).
  { intros m b k. unfold count. rewrite filter_app, alen_app. fold (count m b (p :: k)). rewrite count_cons. unfold count. lia. }
  assert (Hone : forall b a, aget arr b = Some a -> may_grow (mode_of p b) a /\ slot_ok (pre ++ [p]) b (grow (mode_of p b) a)).
  { intros b a Ha. pose proof (aget_range _ _ _ Ha) as Hb. rewrite Hlen in Hb. destruct (Hall b Hb) as [t Ht]. specialize (Hpre b a Ha). unfold slot_ok in *. rewrite !Hcnt in *.
    pose proof (count_nonneg LShared b l). pose proof (count_nonneg LExcl b l). pose proof (count_nonneg LShared b pre). change (count LExcl b []) with 0. change (count LShared b []) with 0.
    unfold bump in *. destruct (mode_of p b); cbn [may_grow grow] in *; repeat case_decide; try done; lia. }
  destruct (count_locks_ok p slots arr) as (arr1 & E1 & L1 & H1).
  { apply (bool_decide_unpack _). by vm_compute. }
  { intros i Hi%slots_elem. by rewrite Hlen. }
  { intros i a _ Ha. by apply Hone. }
  destruct (IH (pre ++ [p]) arr1) as (arr' & E' & L' & H'); [by rewrite L1| |by rewrite <- app_assoc|].
  { intros b a Ha. pose proof (aget_range _ _ _ Ha) as Hb. rewrite L1 in Hb. destruct (aget_is_Some arr b Hb) as [c Hc]. rewrite (H1 _ _ Hc), bool_decide_eq_true_2 in Ha by (apply slots_elem; lia).
    injection Ha as <-. by apply Hone. }
  exists arr'. cbn [count_all]. rewrite E1. cbn [mbind option_bind]. split_and!; [done|done|]. by rewrite <- app_assoc in H'.
Qed.

Lemma slot_ok_fun l b a a' : slot_ok l b a -> slot_ok l b a' -> a = a'.
Proof. unfold slot_ok. lia. Qed.

(** The check of the code on its counts succeeds. *)
Lemma node_assert d : shm_node_ok d -> assertLockingArrayOk d = Some true.
Proof.
  intros [Hlen Hs]. unfold assertLockingArrayOk. destruct (count_all_ok (pFirst d) [] (replicate 8 0)) as (arr & -> & Hl & Ha).
  { done. }
  { intros b a Hb. left. pose proof (aget_range _ _ _ Hb) as Hr. rewrite (aget_replicate 8) in Hb by exact Hr. split; [done|]. by injection Hb as <-. }
  { intros b Hb. rewrite <- Hlen in Hb. destruct (aget_is_Some _ _ Hb) as [a Hba]. exists a. by apply Hs. }
  cbn [mbind option_bind]. f_equal. apply bool_decide_eq_true_2. apply list_eq_same_length with (n := length arr); [done|unfold alen in *; lia|].
  intros i x y _ Hx Hy. rewrite <- aget_of_nat in Hx, Hy. apply (slot_ok_fun (pFirst d) (Z.of_nat i)); [by apply Hs|by apply (Ha (Z.of_nat i))].
Qed.

(** ** Loops over locks *)

Lemma any_locked_ok l : forall n ii, 0 <= ii -> ii + Z.of_nat n <= alen l ->
  exists r, any_locked n l ii = Some r /\
    if r then exists b a, ii <= b < ii + Z.of_nat n /\ aget l b = Some a /\ a <> 0 else forall b, ii <= b < ii + Z.of_nat n -> aget l b = Some 0.
Proof.
  induction n as [|n IH]; intros ii Hii Hn; [exists false; split; [done|lia]|]. cbn [any_locked]. destruct (aget_is_Some l ii ltac:(lia)) as [a Ha]. rewrite Ha. cbn [mbind option_bind].
  destruct (Z.eqb_spec a 0) as [->|]; [|exists true; split; [done|]; exists ii, a; split; [lia|done]].
  destruct (IH (ii + 1) ltac:(lia) ltac:(lia)) as ([|] & -> & H); eexists; (split; [done|]).
  - destruct H as (b & a & ? & ? & ?). exists b, a. split; [lia|done].
  - intros b Hb. destruct (decide (b = ii)) as [->|]; [done|]. apply H. lia.
Qed.

Lemma fill_locks_ok v : forall n l ii, 0 <= ii -> ii + Z.of_nat n <= alen l ->
  exists l', fill_locks n l ii v = Some l' /\ alen l' = alen l /\ forall b, aget l' b = if (ii <=? b) && (b <? ii + Z.of_nat n) then Some v else aget l b.
Proof.
  induction n as [|n IH]; intros l ii Hii Hn; [exists l; split_and!; [done..|]; intros b; destruct (Z.leb_spec ii b), (Z.ltb_spec b (ii + Z.of_nat 0)); lia || done|].
  cbn [fill_locks]. pose proof (aset_in l ii v ltac:(lia)) as E. set (l1 := <[Z.to_nat ii := v]> l) in E. rewrite E. cbn [mbind option_bind]. pose proof (aset_alen _ _ _ _ E) as L1.
  destruct (IH l1 (ii + 1) ltac:(lia) ltac:(lia)) as (l' & -> & L' & H'). exists l'. split_and!; [done|lia|]. intros b. rewrite H', (aget_aset _ _ _ _ _ E).
  destruct (Z.leb_spec (ii + 1) b), (Z.ltb_spec b (ii + 1 + Z.of_nat n)), (Z.leb_spec ii b), (Z.ltb_spec b (ii + Z.of_nat (S n))), (decide (b = ii)); cbn [andb]; lia || done.
Qed.

(** ** All processes *)

Section World.
Context {K : Type} `{PosixLaws K}.

Record World : Type := MkWorld {
  w_nodes : gmap Z unixShmNode;
  w_k : K
}.

Definition mode_at (w : World) (c : holder) (b : Z) : lmode :=
  match w_nodes w !! c.1 with
  | Some d => match pFirst d !! c.2 with Some p => mode_of p b | None => LNone end
  | None => LNone
  end.

Definition shm_step (w : World) (c : holder) (o : lop) : option (Z * World) :=
  d ← w_nodes w !! c.1;
  '(rc, d, k) ← unixShmLock (w_k w) c.1 d (Some c.2) (op_ofst o) (op_n o) (op_flags o);
  Some (rc, MkWorld (<[c.1 := d]> (w_nodes w)) k).

(** The operating system fails for a reason of its own. *)
Definition troubled (w : World) (c : holder) (o : lop) : bool :=
  match (setlk (w_k w) c.1 (op_type o) (op_ofst o + UNIX_SHM_BASE) (op_n o)).1 with Trouble => true | _ => false end.

(** The advisory lock that stands for a count. *)
Definition klock (a : Z) : flock_type := if a <? 0 then F_WRLCK else if a =? 0 then F_UNLCK else F_RDLCK.

Definition slot (b : Z) : Prop := 0 <= b < SQLITE_SHM_NLOCK.

(** A node without a file is that of the only process. *)
Record winv (w : World) : Prop := {
  wi_node : forall pid d, w_nodes w !! pid = Some d -> shm_node_ok d;
  wi_kern : forall pid d b a, w_nodes w !! pid = Some d -> 0 <= hShm d -> aget (aLock d) b = Some a -> getlk (w_k w) pid (b + UNIX_SHM_BASE) = klock a;
  wi_out : forall pid b, w_nodes w !! pid = None -> slot b -> getlk (w_k w) pid (b + UNIX_SHM_BASE) = F_UNLCK;
  wi_sole : forall pid d q, w_nodes w !! pid = Some d -> hShm d < 0 -> q <> pid -> w_nodes w !! q = None;
  wi_excl : forall pid q b, slot b -> pid <> q -> in_the_way (getlk (w_k w) pid (b + UNIX_SHM_BASE)) (getlk (w_k w) q (b + UNIX_SHM_BASE)) = false
}.

Lemma mode_some w c b : mode_at w c b <> LNone -> exists d p, w_nodes w !! c.1 = Some d /\ pFirst d !! c.2 = Some p /\ mode_at w c b = mode_of p b.
Proof. unfold mode_at. destruct (w_nodes w !! c.1) as [d|]; [|done]. destruct (pFirst d !! c.2) as [p|] eqn:Ep; [|done]. intros _. by exists d, p. Qed.

Lemma slot_value d b : shm_node_ok d -> slot b -> exists a, aget (aLock d) b = Some a /\ slot_ok (pFirst d) b a.
Proof. intros Hd Hb. unfold slot in Hb. rewrite <- (nd_len d Hd) in Hb. destruct (aget_is_Some _ _ Hb) as [a Ha]. exists a. split; [done|by apply nd_slot]. Qed.

Lemma excl_value l b a i p : slot_ok l b a -> l !! i = Some p -> mode_of p b = LExcl -> a = -1.
Proof. intros Hs Hi Hm. pose proof (count_at LExcl b l i p Hi) as Hc. unfold bump in Hc. rewrite decide_True in Hc by done. destruct Hs; lia. Qed.

Lemma shared_value l b a i p : slot_ok l b a -> l !! i = Some p -> mode_of p b = LShared -> 0 < a.
Proof. intros Hs Hi Hm. pose proof (count_at LShared b l i p Hi) as Hc. unfold bump in Hc. rewrite decide_True in Hc by done. destruct Hs; lia. Qed.

(** The lock of a process that stands for the mode of a connection of it. *)
Definition mode_lock (m : lmode) : flock_type := match m with LNone => F_UNLCK | LShared => F_RDLCK | LExcl => F_WRLCK end.

Section Inv.
Context (w : World) (Hw : winv w).

(** A connection of another process has a lock only with its process. *)
Lemma mode_kernel c b : slot b -> mode_at w c b <> LNone -> (forall d, w_nodes w !! c.1 = Some d -> 0 <= hShm d) ->
  getlk (w_k w) c.1 (b + UNIX_SHM_BASE) = mode_lock (mode_at w c b).
Proof.
  intros Hb Hm Hh. destruct (mode_some _ _ _ Hm) as (d & p & Hd & Hp & E). rewrite E in *. destruct (slot_value d b (wi_node _ Hw _ _ Hd) Hb) as (a & Ha & Hs).
  rewrite (wi_kern _ Hw _ _ _ _ Hd (Hh _ Hd) Ha). unfold klock. destruct (mode_of p b) eqn:Em; [done|..]; cbn [mode_lock].
  - pose proof (shared_value _ _ _ _ _ Hs Hp Em). rewrite (proj2 (Z.ltb_ge a 0)), (proj2 (Z.eqb_neq a 0)) by lia. done.
  - by rewrite (excl_value _ _ _ _ _ Hs Hp Em).
Qed.

(** A lock of a process belongs to a connection. *)
Lemma kernel_mode q b : slot b -> getlk (w_k w) q (b + UNIX_SHM_BASE) <> F_UNLCK -> (forall d, w_nodes w !! q = Some d -> 0 <= hShm d) ->
  exists j, mode_lock (mode_at w (q, j) b) = getlk (w_k w) q (b + UNIX_SHM_BASE).
Proof.
  intros Hb Hk Hh. destruct (w_nodes w !! q) as [d|] eqn:Hd; [|by rewrite (wi_out _ Hw _ _ Hd Hb) in Hk].
  destruct (slot_value d b (wi_node _ Hw _ _ Hd) Hb) as (a & Ha & Hs). rewrite (wi_kern _ Hw _ _ _ _ Hd (Hh _ eq_refl) Ha) in *. unfold klock in *.
  assert (Hone : forall m, 0 < count m b (pFirst d) -> exists j, mode_at w (q, j) b = m).
  { intros m Hc. destruct (count_pos m b (pFirst d) Hc) as (j & p & Hj & Hm). exists j. unfold mode_at. cbn [fst snd]. by rewrite Hd, Hj. }
  destruct (Z.ltb_spec a 0); [|destruct (Z.eqb_spec a 0); [done|]].
  - destruct (Hone LExcl) as [j Hj]; [pose proof (count_nonneg LShared b (pFirst d)); destruct Hs; lia|]. exists j. by rewrite Hj.
  - destruct (Hone LShared) as [j Hj]; [destruct Hs; lia|]. exists j. by rewrite Hj.
Qed.

Lemma has_file (c c' : holder) d : c.1 <> c'.1 -> w_nodes w !! c.1 = Some d -> is_Some (w_nodes w !! c'.1) -> 0 <= hShm d.
Proof. intros Hne Hd [d' Hd']. destruct (Z.lt_ge_cases (hShm d) 0) as [Hlt|]; [|lia]. by rewrite (wi_sole _ Hw _ _ c'.1 Hd Hlt) in Hd'. Qed.

Lemma winv_exclusive : exclusive (mode_at w).
Proof.
  intros c c' b Hb Hne Hx. destruct (decide (mode_at w c' b = LNone)) as [|Hm]; [done|exfalso].
  destruct (mode_some w c b) as (d & p & Hd & Hp & E); [by rewrite Hx|]. destruct (mode_some w c' b Hm) as (d' & p' & Hd' & Hp' & E').
  destruct (decide (c.1 = c'.1)) as [E1|Hpid].
  - rewrite E1 in Hd. rewrite Hd' in Hd. injection Hd as <-. destruct (slot_value d' b (wi_node _ Hw _ _ Hd') Hb) as (a & Ha & Hs). rewrite Hx in E. symmetry in E.
    pose proof (excl_value _ _ _ _ _ Hs Hp E) as Ea. assert (Hij : c.2 <> c'.2) by (intros ?; apply Hne; by apply injective_projections).
    rewrite E' in Hm. destruct (mode_of p' b) eqn:Em; [done|pose proof (shared_value _ _ _ _ _ Hs Hp' Em); lia|].
    pose proof (count_two LExcl b _ _ _ _ _ ltac:(done) Hp Hp' Hij E Em). destruct Hs; lia.
  - pose proof (wi_excl _ Hw _ _ b Hb Hpid) as Hk. rewrite (mode_kernel c b Hb), Hx, (mode_kernel c' b Hb Hm) in Hk.
    + by destruct (mode_at w c' b).
    + intros x Hx'. apply (has_file c' c); [congruence|done|by exists d].
    + by rewrite Hx.
    + intros x Hx'. apply (has_file c c'); [done|done|by exists d'].
Qed.
End Inv.
End World.

(** ** Steps *)

Section Step.
Context {K : Type} `{PosixLaws K} (w : World (K := K)) (Hw : winv w).

Lemma in_the_way_sym t u : in_the_way t u = in_the_way u t.
Proof. by destruct t, u. Qed.

(** How the value of a lock follows the mode of one connection. *)
Definition change_ok (m m' : lmode) (a a' : Z) : Prop :=
  match m, m' with
  | LNone, LShared => 0 <= a /\ a' = a + 1
  | LShared, LNone => a' = a - 1
  | LNone, LExcl => a = 0 /\ a' = -1
  | LExcl, LNone => a' = 0
  | LNone, LNone | LShared, LShared | LExcl, LExcl => a' = a
  | _, _ => False
  end.

Lemma node_update d i p p' l : shm_node_ok d -> pFirst d !! i = Some p -> alen l = SQLITE_SHM_NLOCK ->
  (forall b a a', aget (aLock d) b = Some a -> aget l b = Some a' -> change_ok (mode_of p b) (mode_of p' b) a a') -> shm_node_ok (set_shm i p' l d).
Proof.
  intros [Hlen Hs] Hp Hl Hc. split; [done|]. cbn [set_shm aLock pFirst]. intros b a' Ha'. pose proof (aget_range _ _ _ Ha') as Hr. rewrite Hl, <- Hlen in Hr.
  destruct (aget_is_Some _ _ Hr) as [a Ha]. specialize (Hc _ _ _ Ha Ha'). specialize (Hs _ _ Ha). unfold slot_ok in *. rewrite !(count_update _ _ _ _ _ _ Hp).
  pose proof (count_at LExcl b _ _ _ Hp). pose proof (count_at LShared b _ _ _ Hp). unfold bump, change_ok in *. destruct (mode_of p b), (mode_of p' b); repeat case_decide; try done; lia.
Qed.

Context (c : holder) (d : unixShmNode) (p : unixShm) (Hd : w_nodes w !! c.1 = Some d) (Hp : pFirst d !! c.2 = Some p).

Definition after (p' : unixShm) (l : list Z) (k : K) : World := MkWorld (<[c.1 := set_shm c.2 p' l d]> (w_nodes w)) k.

Lemma mode_after p' l k c' b : mode_at (after p' l k) c' b = if decide (c' = c) then mode_of p' b else mode_at w c' b.
Proof.
  unfold mode_at, after. cbn [w_nodes]. destruct (decide (c'.1 = c.1)) as [E|Hne].
  - rewrite E, lookup_insert_eq. cbn [set_shm pFirst]. destruct (decide (c'.2 = c.2)) as [E2|Hne2].
    + rewrite E2, list_lookup_insert_eq by (by eapply lookup_lt_Some). by rewrite decide_True by (by apply injective_projections).
    + rewrite list_lookup_insert_ne by done. rewrite decide_False by (by intros ->). by rewrite Hd.
  - rewrite lookup_insert_ne by done. by rewrite decide_False by (by intros ->).
Qed.

Lemma mode_here b : mode_at w c b = mode_of p b.
Proof. unfold mode_at. by rewrite Hd, Hp. Qed.

(** A change of one connection and of the locks of its process. *)
Lemma winv_after p' l k : alen l = SQLITE_SHM_NLOCK ->
  (forall b a a', aget (aLock d) b = Some a -> aget l b = Some a' -> change_ok (mode_of p b) (mode_of p' b) a a') ->
  (forall q b, q <> c.1 -> getlk k q b = getlk (w_k w) q b) ->
  (forall b a, aget l b = Some a -> 0 <= hShm d -> getlk k c.1 (b + UNIX_SHM_BASE) = klock a) ->
  (forall q b, slot b -> q <> c.1 -> in_the_way (getlk k c.1 (b + UNIX_SHM_BASE)) (getlk (w_k w) q (b + UNIX_SHM_BASE)) = false) ->
  winv (after p' l k).
Proof.
  intros Hl Hc Hq Hk Hx. pose proof Hw as [W1 W2 W3 W4 W5]. split; unfold after; cbn [w_nodes w_k].
  - intros pid x [[<- <-]|[_ Hx']]%lookup_insert_Some; [|by eapply W1]. by eapply node_update; [eapply W1|..].
  - intros pid x b a [[<- <-]|[Hne Hx']]%lookup_insert_Some Hh Ha; [by apply Hk|]. rewrite Hq by done. by eapply W2.
  - intros pid b [Hx' Hne]%lookup_insert_None Hb. rewrite Hq by done. by apply W3.
  - intros pid x q [[<- <-]|[Hne Hx']]%lookup_insert_Some Hh Hpq; [rewrite lookup_insert_ne by done; by apply (W4 _ _ _ Hd)|].
    pose proof (W4 _ _ c.1 Hx' Hh ltac:(done)). congruence.
  - intros pid q b Hb Hne. destruct (decide (pid = c.1)) as [->|]; [rewrite (Hq q) by done; by apply Hx|]. destruct (decide (q = c.1)) as [->|]; [rewrite (Hq pid), in_the_way_sym by done; by apply Hx|].
    rewrite !Hq by done. by apply W5.
Qed.

(** The locks of the process as they were. *)
Lemma winv_same k : (forall q b, getlk k q b = getlk (w_k w) q b) -> winv (MkWorld (<[c.1 := d]> (w_nodes w)) k).
Proof.
  intros Hk. rewrite insert_id by done. destruct Hw as [W1 W2 W3 W4 W5]. split; cbn [w_nodes w_k]; intros; rewrite ?Hk; eauto.
Qed.

Section Sys.
Context (o : lop) (Hr : 0 <= op_ofst o /\ 1 <= op_n o /\ op_ofst o + op_n o <= SQLITE_SHM_NLOCK).

Lemma sys_ok k : unixShmSystemLock (w_k w) c.1 d (op_type o) (op_ofst o + UNIX_SHM_BASE) (op_n o) = (SQLITE_OK, k) ->
  (forall q b, q <> c.1 -> getlk k q b = getlk (w_k w) q b) /\
  (forall b, 0 <= hShm d -> getlk k c.1 (b + UNIX_SHM_BASE) = if (op_ofst o <=? b) && (b <? op_ofst o + op_n o) then op_type o else getlk (w_k w) c.1 (b + UNIX_SHM_BASE)) /\
  (forall q b, slot b -> q <> c.1 -> in_the_way (getlk k c.1 (b + UNIX_SHM_BASE)) (getlk (w_k w) q (b + UNIX_SHM_BASE)) = false).
Proof.
  unfold unixShmSystemLock. destruct (Z.leb_spec 0 (hShm d)) as [Hh|Hh].
  2: { intros [= <-]. split_and!; [done|lia|]. intros q b Hb Hne. by apply (wi_excl _ Hw). }
  destruct (setlk (w_k w) c.1 (op_type o) (op_ofst o + UNIX_SHM_BASE) (op_n o)) as [[] k1] eqn:E; intros [= <-].
  destruct (setlk_granted _ _ _ _ _ _ E) as [E1 E2].
  assert (E3 : forall b, getlk k1 c.1 (b + UNIX_SHM_BASE) = if (op_ofst o <=? b) && (b <? op_ofst o + op_n o) then op_type o else getlk (w_k w) c.1 (b + UNIX_SHM_BASE)).
  { intros b. rewrite E1, bool_decide_eq_true_2 by done. cbn [andb].
    destruct (Z.leb_spec (op_ofst o + UNIX_SHM_BASE) (b + UNIX_SHM_BASE)), (Z.leb_spec (op_ofst o) b), (Z.ltb_spec (b + UNIX_SHM_BASE) (op_ofst o + UNIX_SHM_BASE + op_n o)), (Z.ltb_spec b (op_ofst o + op_n o)); cbn [andb]; lia || done. }
  split_and!.
  - intros q b Hne. by rewrite E1, bool_decide_eq_false_2.
  - intros b _. apply E3.
  - intros q b Hb Hne. rewrite E3. destruct (Z.leb_spec (op_ofst o) b), (Z.ltb_spec b (op_ofst o + op_n o)); cbn [andb]; [apply E2; [done|lia]|by apply (wi_excl _ Hw)..].
Qed.

Lemma sys_busy rc k : unixShmSystemLock (w_k w) c.1 d (op_type o) (op_ofst o + UNIX_SHM_BASE) (op_n o) = (rc, k) -> rc <> SQLITE_OK ->
  rc = SQLITE_BUSY /\ (forall q b, getlk k q b = getlk (w_k w) q b) /\
  (troubled w c o = true \/ exists q b, q <> c.1 /\ slot b /\ in_op o b /\ in_the_way (op_type o) (getlk (w_k w) q (b + UNIX_SHM_BASE)) = true).
Proof.
  unfold unixShmSystemLock, troubled. destruct (Z.leb_spec 0 (hShm d)); [|by intros [= <- <-]].
  destruct (setlk (w_k w) c.1 (op_type o) (op_ofst o + UNIX_SHM_BASE) (op_n o)) as [[] k1] eqn:E; intros [= <- <-] Hrc; [done|..].
  - destruct (setlk_conflict _ _ _ _ _ _ E) as [E1 (q & b & Hq & Hb & Hi)]. split_and!; [done..|]. right. exists q, (b - UNIX_SHM_BASE). unfold slot, in_op.
    replace (b - UNIX_SHM_BASE + UNIX_SHM_BASE) with b by lia. split_and!; [done|lia..|done].
  - split_and!; [done|by eapply setlk_trouble|by left].
Qed.

(** A lock of another process that is in the way is one of a connection. *)
Lemma way_excluded q b : q <> c.1 -> slot b -> in_op o b -> in_the_way (op_type o) (getlk (w_k w) q (b + UNIX_SHM_BASE)) = true -> excluded (mode_at w) c o.
Proof.
  intros Hq Hb Ho Hi. destruct (kernel_mode w Hw q b Hb) as [j Hj].
  - intros E. rewrite E in Hi. by destruct (op_type o).
  - intros x Hx. eapply (has_file w Hw (q, 0%nat) c); [done|done|by exists d].
  - exists (q, j), b. rewrite <- Hj in Hi. split_and!; [by intros <-|done|]. destruct o; cbn in Hi |- *; destruct (mode_at w (q, j) b); done.
Qed.
End Sys.

Section Cases.
Context (o : lop) (Hlop : lop_ok (mode_at w) c o).
Abbreviation ofst := (op_ofst o).
Abbreviation n := (op_n o).
Abbreviation mask := (u16 ((1 << (ofst + n)) - (1 << ofst))).
Abbreviation ranged b := ((ofst <=? b) && (b <? ofst + n)).

Lemma lop_range : 0 <= ofst /\ 1 <= n /\ ofst + n <= SQLITE_SHM_NLOCK.
Proof. destruct Hlop as (? & ? & ? & _). done. Qed.

Lemma in_op_ranged b : in_op o b <-> ranged b = true.
Proof. unfold in_op. rewrite andb_true_iff, Z.leb_le, Z.ltb_lt. done. Qed.

Lemma in_op_slot b : in_op o b -> slot b.
Proof. pose proof lop_range. unfold in_op, slot. lia. Qed.

(** The operation took effect. *)
Lemma ok_does p' l k : winv (after p' l k) -> (forall b, slot b -> mode_of p' b = if ranged b then op_mode o else mode_of p b) ->
  rw_does (mode_at w) c o (troubled w c o) SQLITE_OK (mode_at (after p' l k)).
Proof.
  intros Hw' Hm. left. split_and!; [done|..].
  - intros (c' & b & Hne & Hb & Hx). pose proof (in_op_slot b Hb) as Hs. pose proof (winv_exclusive _ Hw') as He.
    assert (Ec : mode_at (after p' l k) c b = op_mode o) by (rewrite mode_after, decide_True, Hm by done; by rewrite (proj1 (in_op_ranged b) Hb)).
    assert (Ec' : mode_at (after p' l k) c' b = mode_at w c' b) by by rewrite mode_after, decide_False by done.
    destruct o; cbn [op_mode] in *; try done.
    + pose proof (He c' c b Hs Hne ltac:(congruence)). congruence.
    + pose proof (He c c' b Hs ltac:(done) Ec). congruence.
  - intros c' b Hb. rewrite mode_after by done. unfold set_mode. destruct (decide (c' = c)) as [->|Hne]; [|by rewrite bool_decide_eq_false_2].
    rewrite bool_decide_eq_true_2 by done. cbn [andb]. rewrite Hm by done. by rewrite mode_here.
Qed.

Lemma same_mode (k : K) c' b : mode_at (MkWorld (<[c.1 := d]> (w_nodes w)) k) c' b = mode_at w c' b.
Proof. unfold mode_at. cbn [w_nodes]. by rewrite insert_id. Qed.

Lemma busy_does (k : K) : excluded (mode_at w) c o \/ troubled w c o = true ->
  rw_does (mode_at w) c o (troubled w c o) SQLITE_BUSY (mode_at (MkWorld (<[c.1 := d]> (w_nodes w)) k)).
Proof. intros Hx. right. split_and!; [done|done|]. intros. apply same_mode. Qed.

(** The mode as it should be already. *)
Lemma noop_does : (forall b, in_op o b -> mode_of p b = op_mode o) -> rw_does (mode_at w) c o (troubled w c o) SQLITE_OK (mode_at (MkWorld (<[c.1 := d]> (w_nodes w)) (w_k w))).
Proof.
  intros Hm. pose proof (winv_exclusive _ Hw) as He. left. split_and!; [done|..].
  - intros (c' & b & Hne & Hb & Hx). pose proof (in_op_slot b Hb) as Hs. specialize (Hm b Hb). rewrite <- mode_here in Hm. destruct o; cbn [op_mode] in *; try done.
    + pose proof (He c' c b Hs Hne Hx). congruence.
    + pose proof (He c c' b Hs ltac:(done) Hm). congruence.
  - intros c' b Hb. rewrite same_mode. unfold set_mode. destruct (decide (c' = c)) as [->|Hne]; [|by rewrite bool_decide_eq_false_2].
    rewrite bool_decide_eq_true_2 by done. cbn [andb]. rewrite mode_here. destruct (ranged b) eqn:Er; [|done]. apply Hm. by apply in_op_ranged.
Qed.

Lemma mode_shared b : slot b -> (in_op o b -> mode_of p b <> LExcl) -> mode_of (MkShm (sharedMask p .| mask) (exclMask p)) b = if ranged b then LShared else mode_of p b.
Proof.
  intros [Hb _] Hx. destruct lop_range as (? & ? & ?). unfold mode_of in *. cbn [sharedMask exclMask]. rewrite set_mask by done. pose proof (proj2 (in_op_ranged b)).
  destruct (ranged b), (Z.testbit (exclMask p) b), (Z.testbit (sharedMask p) b); try done; exfalso; by apply Hx; auto.
Qed.

Lemma mode_excl b : slot b -> mode_of (MkShm (sharedMask p) (exclMask p .| mask)) b = if ranged b then LExcl else mode_of p b.
Proof.
  intros [Hb _]. destruct lop_range as (? & ? & ?). unfold mode_of. cbn [sharedMask exclMask]. rewrite set_mask by done.
  by destruct (ranged b), (Z.testbit (exclMask p) b).
Qed.

Lemma mode_clear b : slot b -> mode_of (MkShm (sharedMask p .& Z.lnot mask) (exclMask p .& Z.lnot mask)) b = if ranged b then LNone else mode_of p b.
Proof.
  intros [Hb _]. destruct lop_range as (? & ? & ?). unfold mode_of. cbn [sharedMask exclMask]. rewrite !clear_mask by done.
  by destruct (ranged b), (Z.testbit (exclMask p) b), (Z.testbit (sharedMask p) b).
Qed.

Lemma mode_clear_shared b : slot b -> (in_op o b -> mode_of p b <> LExcl) -> mode_of (MkShm (sharedMask p .& Z.lnot mask) (exclMask p)) b = if ranged b then LNone else mode_of p b.
Proof.
  intros [Hb _] Hx. destruct lop_range as (? & ? & ?). unfold mode_of in *. cbn [sharedMask exclMask]. rewrite clear_mask by done. pose proof (proj2 (in_op_ranged b)).
  destruct (ranged b), (Z.testbit (exclMask p) b), (Z.testbit (sharedMask p) b); try done; exfalso; by apply Hx; auto.
Qed.

Definition outcome (r : option (Z * unixShmNode * K)) : Prop :=
  exists rc d' k, r = Some (rc, d', k) /\ winv (MkWorld (<[c.1 := d']> (w_nodes w)) k) /\
    rw_does (mode_at w) c o (troubled w c o) rc (mode_at (MkWorld (<[c.1 := d']> (w_nodes w)) k)).

(** The operation takes effect: the locks of its range have the value [v]. *)
Lemma outcome_ok p' l k v : alen l = SQLITE_SHM_NLOCK ->
  (forall b, aget l b = if ranged b then Some v else aget (aLock d) b) ->
  (forall b a, ranged b = true -> aget (aLock d) b = Some a -> change_ok (mode_of p b) (op_mode o) a v) ->
  (forall b, slot b -> mode_of p' b = if ranged b then op_mode o else mode_of p b) ->
  (forall q b, q <> c.1 -> getlk k q b = getlk (w_k w) q b) ->
  (forall b, slot b -> 0 <= hShm d -> getlk k c.1 (b + UNIX_SHM_BASE) = if ranged b then klock v else getlk (w_k w) c.1 (b + UNIX_SHM_BASE)) ->
  (forall q b, slot b -> q <> c.1 -> in_the_way (getlk k c.1 (b + UNIX_SHM_BASE)) (getlk (w_k w) q (b + UNIX_SHM_BASE)) = false) ->
  outcome (Some (SQLITE_OK, set_shm c.2 p' l d, k)).
Proof.
  intros Hl Hv Hc Hm Hq Hk Hx. assert (Hsl : forall b a, aget (aLock d) b = Some a -> slot b).
  { intros b a Ha. pose proof (aget_range _ _ _ Ha) as Hr. by rewrite (nd_len d (wi_node _ Hw _ _ Hd)) in Hr. }
  assert (Hw' : winv (after p' l k)).
  { apply winv_after; try done.
    - intros b a a' Ha Ha'. rewrite Hv in Ha'. rewrite Hm by (by eapply Hsl). destruct (ranged b) eqn:Er; [injection Ha' as <-; by apply Hc|].
      rewrite Ha in Ha'. injection Ha' as <-. by destruct (mode_of p b).
    - intros b a Ha Hh. pose proof (aget_range _ _ _ Ha) as Hr. rewrite Hl in Hr. rewrite Hk by done. rewrite Hv in Ha. destruct (ranged b); [by injection Ha as <-|]. by apply (wi_kern _ Hw _ _ _ _ Hd Hh). }
  eexists _, _, _. split; [reflexivity|]. split; [exact Hw'|]. by apply ok_does.
Qed.

Lemma outcome_busy rc k : rc = SQLITE_BUSY -> (forall q b, getlk k q b = getlk (w_k w) q b) -> excluded (mode_at w) c o \/ troubled w c o = true -> outcome (Some (rc, d, k)).
Proof. intros -> Hk Hx. eexists _, _, _. split; [reflexivity|]. split; [by apply winv_same|by apply busy_does]. Qed.

Lemma outcome_noop : (forall b, in_op o b -> mode_of p b = op_mode o) -> outcome (Some (SQLITE_OK, d, w_k w)).
Proof. intros Hm. eexists _, _, _. split; [reflexivity|]. split; [by apply winv_same|by apply noop_does]. Qed.

(** The call of the operating system, and what follows if it succeeds. *)
Lemma outcome_sys (f : Z * K -> option (Z * unixShmNode * K)) :
  (forall rc k, rc <> SQLITE_OK -> f (rc, k) = Some (rc, d, k)) ->
  (forall k, unixShmSystemLock (w_k w) c.1 d (op_type o) (ofst + UNIX_SHM_BASE) n = (SQLITE_OK, k) -> outcome (f (SQLITE_OK, k))) ->
  outcome (f (unixShmSystemLock (w_k w) c.1 d (op_type o) (ofst + UNIX_SHM_BASE) n)).
Proof.
  intros Hf Hok. destruct (unixShmSystemLock _ _ _ _ _ _) as [rc k] eqn:E. destruct (decide (rc = SQLITE_OK)) as [->|Hne]; [by apply Hok|].
  rewrite Hf by done. destruct (sys_busy o lop_range rc k E Hne) as (-> & Hk & Hx). apply outcome_busy; [done|done|]. destruct Hx as [?|(q & b & ? & ? & ? & ?)]; [by right|left].
  by apply (way_excluded o lop_range q b).
Qed.

(** The lock where a range of one starts. *)
Lemma first_value : exists a, aget (aLock d) ofst = Some a /\ slot_ok (pFirst d) ofst a.
Proof. destruct lop_range as (? & ? & ?). apply slot_value; [by eapply wi_node|]. unfold slot. lia. Qed.

Lemma ranged_one b : n = 1 -> ranged b = true -> b = ofst.
Proof. intros E [?%Z.leb_le ?%Z.ltb_lt]%andb_true_iff. lia. Qed.

Lemma aset_ranged l v : n = 1 -> aset (aLock d) ofst v = Some l -> forall b, aget l b = if ranged b then Some v else aget (aLock d) b.
Proof.
  intros En E b. rewrite (aget_aset _ _ _ _ _ E). rewrite En. destruct (Z.leb_spec ofst b), (Z.ltb_spec b (ofst + 1)), (decide (b = ofst)); cbn [andb]; lia || done.
Qed.

Lemma aset_first v : exists l, aset (aLock d) ofst v = Some l /\ alen l = SQLITE_SHM_NLOCK.
Proof.
  destruct lop_range as (? & ? & ?). pose proof (nd_len d (wi_node _ Hw _ _ Hd)) as Hlen. eexists. pose proof (aset_in (aLock d) ofst v ltac:(lia)) as E. split; [exact E|]. by rewrite (aset_alen _ _ _ _ E).
Qed.

(** The process keeps its advisory lock. *)
Lemma keep_kernel a v : n = 1 -> aget (aLock d) ofst = Some a -> klock v = klock a -> forall b, slot b -> 0 <= hShm d ->
  getlk (w_k w) c.1 (b + UNIX_SHM_BASE) = if ranged b then klock v else getlk (w_k w) c.1 (b + UNIX_SHM_BASE).
Proof.
  intros En Ha Ek b Hb Hh. destruct (ranged b) eqn:Er; [|done]. rewrite (ranged_one b En Er), Ek. by apply (wi_kern _ Hw _ _ _ _ Hd Hh).
Qed.

Lemma other_kernel q b : slot b -> q <> c.1 -> in_the_way (getlk (w_k w) c.1 (b + UNIX_SHM_BASE)) (getlk (w_k w) q (b + UNIX_SHM_BASE)) = false.
Proof. intros Hb Hne. by apply (wi_excl _ Hw). Qed.

Lemma shared_case b0 : o = LockS b0 -> mode_of p ofst = LNone -> outcome (shm_shared (w_k w) c.1 d c.2 p mask ofst n).
Proof.
  intros Eo Hm. assert (En : n = 1) by by rewrite Eo. destruct first_value as (a & Ha & Hs). unfold shm_shared. rewrite (bind_eq _ _ _ Ha). cbv zeta.
  destruct (aset_first (a + 1)) as (l & El & Hl).
  assert (Hmodes : forall b, slot b -> mode_of (MkShm (sharedMask p .| mask) (exclMask p)) b = if ranged b then op_mode o else mode_of p b).
  { intros b Hb. rewrite mode_shared; [by rewrite Eo|done|]. intros Hi%in_op_ranged. rewrite (ranged_one b En Hi), Hm. done. }
  assert (Hchg : 0 <= a -> forall b x, ranged b = true -> aget (aLock d) b = Some x -> change_ok (mode_of p b) (op_mode o) x (a + 1)).
  { intros Ha0 b x Hb Hx. rewrite (ranged_one b En Hb) in *. rewrite Ha in Hx. injection Hx as <-. rewrite Hm, Eo. done. }
  destruct (Z.ltb_spec a 0) as [Hneg|Hpos]; [|destruct (Z.eqb_spec a 0) as [->|Hne]].
  - cbn [Z.eqb SQLITE_BUSY SQLITE_OK]. apply outcome_busy; [done|done|left].
    destruct (count_pos LExcl ofst (pFirst d)) as (j & x & Hj & Hx); [pose proof (count_nonneg LShared ofst (pFirst d)); destruct Hs; lia|].
    exists (c.1, j), ofst. split_and!; [intros E%(f_equal snd); cbn [snd] in E; congruence|unfold in_op; lia|]. rewrite Eo. unfold mode_at. cbn [fst snd]. rewrite Hd, Hj. by rewrite Eo in Hx.
  - replace F_RDLCK with (op_type o) by by rewrite Eo.
    apply (outcome_sys (fun '(rc, k) => if rc =? SQLITE_OK then l ← aset (aLock d) ofst (0 + 1); Some (rc, set_shm c.2 (MkShm (sharedMask p .| mask) (exclMask p)) l d, k) else Some (rc, d, k))).
    + intros rc k Hrc. by rewrite (proj2 (Z.eqb_neq _ _)).
    + intros k E. rewrite Z.eqb_refl, (bind_eq _ _ _ El). destruct (sys_ok o lop_range k E) as (K1 & K2 & K3).
      apply (outcome_ok _ _ _ (0 + 1)); [done|by apply aset_ranged|by apply Hchg|done|done| |done]. intros b _ Hh. rewrite K2 by done. by rewrite Eo.
  - rewrite Z.eqb_refl, (bind_eq _ _ _ El).
    apply (outcome_ok _ _ _ (a + 1)); [done|by apply aset_ranged|by apply Hchg|done|done| |apply other_kernel].
    apply (keep_kernel a); [done|done|]. unfold klock. rewrite (proj2 (Z.ltb_ge (a + 1) 0)), (proj2 (Z.ltb_ge a 0)), (proj2 (Z.eqb_neq (a + 1) 0)), (proj2 (Z.eqb_neq a 0)) by lia. done.
Qed.

Lemma fill_first v : exists l, fill_locks (Z.to_nat n) (aLock d) ofst v = Some l /\ alen l = SQLITE_SHM_NLOCK /\ forall b, aget l b = if ranged b then Some v else aget (aLock d) b.
Proof.
  destruct lop_range as (? & ? & ?). pose proof (nd_len d (wi_node _ Hw _ _ Hd)) as Hlen. destruct (fill_locks_ok v (Z.to_nat n) (aLock d) ofst ltac:(lia) ltac:(lia)) as (l & E & Hl & Hv).
  exists l. rewrite Z2Nat.id in Hv by lia. split_and!; [done|congruence|done].
Qed.

Lemma exclusive_case b0 n0 : o = LockX b0 n0 -> (forall b, in_op o b -> mode_of p b = LNone) -> outcome (shm_exclusive (w_k w) c.1 d c.2 p mask ofst n).
Proof.
  intros Eo Hm. destruct lop_range as (? & ? & ?). pose proof (nd_len d (wi_node _ Hw _ _ Hd)) as Hlen. unfold shm_exclusive.
  destruct (any_locked_ok (aLock d) (Z.to_nat n) ofst ltac:(lia) ltac:(lia)) as (r & Er & Hr). rewrite (bind_eq _ _ _ Er). rewrite Z2Nat.id in Hr by lia. destruct r.
  - apply outcome_busy; [done|done|left]. destruct Hr as (b & a & Hb & Ha & Hne). assert (Hin : in_op o b) by exact Hb. pose proof (nd_slot d (wi_node _ Hw _ _ Hd) _ _ Ha) as Hs.
    assert (exists m j x, m <> LNone /\ pFirst d !! j = Some x /\ mode_of x b = m) as (m & j & x & Hmn & Hj & Hx).
    { pose proof (count_nonneg LShared b (pFirst d)). destruct (decide (0 < count LExcl b (pFirst d))) as [Hc|Hc].
      - destruct (count_pos LExcl b _ Hc) as (j & x & ? & ?). by exists LExcl, j, x.
      - destruct (count_pos LShared b (pFirst d)) as (j & x & ? & ?); [destruct Hs; lia|]. by exists LShared, j, x. }
    exists (c.1, j), b. split_and!; [intros E%(f_equal snd); cbn [snd] in E; specialize (Hm b Hin); congruence|done|]. rewrite Eo. unfold mode_at. cbn [fst snd]. by rewrite Hd, Hj, Hx.
  - destruct (fill_first (-1)) as (l & El & Hl & Hv). replace F_WRLCK with (op_type o) by by rewrite Eo.
    apply (outcome_sys (fun '(rc, k) => if rc =? SQLITE_OK then l ← fill_locks (Z.to_nat n) (aLock d) ofst (-1); Some (rc, set_shm c.2 (MkShm (sharedMask p) (exclMask p .| mask)) l d, k) else Some (rc, d, k))).
    + intros rc k Hrc. by rewrite (proj2 (Z.eqb_neq _ _)).
    + intros k E. rewrite Z.eqb_refl, (bind_eq _ _ _ El). destruct (sys_ok o lop_range k E) as (K1 & K2 & K3).
      apply (outcome_ok _ _ _ (-1)); [done|done| | |done| |done].
      * intros b a Hb Ha. rewrite Hm by by apply in_op_ranged. rewrite Eo. cbn [op_mode change_ok]. split; [|done]. rewrite Hr in Ha; [congruence|]. by apply in_op_ranged.
      * intros b Hb. rewrite mode_excl by done. by rewrite Eo.
      * intros b _ Hh. rewrite K2 by done. by rewrite Eo.
Qed.

(** The connection has its lock in mode [m]. *)
Lemma unlock_case m : op_mode o = LNone -> op_type o = F_UNLCK -> (forall b, in_op o b -> mode_of p b = m) -> m = LExcl /\ op_flags o .& SQLITE_SHM_SHARED = 0 \/ m = LShared /\ n = 1 /\ op_flags o .& SQLITE_SHM_SHARED <> 0 ->
  outcome (shm_unlock (w_k w) c.1 d c.2 p mask ofst n (op_flags o)).
Proof.
  intros Eo Et Hm Hcase. destruct lop_range as (? & ? & ?). unfold shm_unlock. destruct first_value as (a & Ha & Hs). rewrite (bind_eq _ _ _ Ha).
  assert (Hmf : mode_of p ofst = m) by (apply Hm; unfold in_op; lia).
  destruct (negb (op_flags o .& SQLITE_SHM_SHARED =? 0) && (a >? 1)) eqn:Eb.
  - apply andb_true_iff in Eb as [Ef Ea]. rewrite Z.gtb_lt in Ea. destruct Hcase as [[_ E]|(-> & En & _)]; [by rewrite E in Ef|]. destruct (aset_first (a - 1)) as (l & El & Hl). rewrite (bind_eq _ _ _ El).
    apply (outcome_ok _ _ _ (a - 1)); [done|by apply aset_ranged| | |done| |apply other_kernel].
    + intros b x Hb Hx. rewrite (ranged_one b En Hb) in *. rewrite Ha in Hx. injection Hx as <-. rewrite Hmf, Eo. done.
    + intros b Hb. rewrite mode_clear_shared; [by rewrite Eo|done|]. intros Hi. by rewrite Hm.
    + apply (keep_kernel a); [done|done|]. unfold klock. rewrite (proj2 (Z.ltb_ge (a - 1) 0)), (proj2 (Z.ltb_ge a 0)), (proj2 (Z.eqb_neq (a - 1) 0)), (proj2 (Z.eqb_neq a 0)) by lia. done.
  - destruct (fill_first 0) as (l & El & Hl & Hv). rewrite <- Et.
    apply (outcome_sys (fun '(rc, k) => if rc =? SQLITE_OK then l ← fill_locks (Z.to_nat n) (aLock d) ofst 0; Some (rc, set_shm c.2 (MkShm (sharedMask p .& Z.lnot mask) (exclMask p .& Z.lnot mask)) l d, k) else Some (rc, d, k))).
    + intros rc k Hrc. by rewrite (proj2 (Z.eqb_neq _ _)).
    + intros k E. rewrite Z.eqb_refl, (bind_eq _ _ _ El). destruct (sys_ok o lop_range k E) as (K1 & K2 & K3).
      apply (outcome_ok _ _ _ 0); [done|done| | |done| |done].
      * intros b x Hb Hx. rewrite Hm, Eo by by apply in_op_ranged. destruct Hcase as [[-> _]|(-> & En & Ef)]; [done|]. rewrite (ranged_one b En Hb), Ha in *. injection Hx as <-. cbn [change_ok].
        pose proof (shared_value _ _ _ _ _ Hs Hp Hmf).
        rewrite (proj2 (Z.eqb_neq _ _) Ef) in Eb. cbn [negb andb] in Eb. rewrite Z.gtb_ltb, Z.ltb_ge in Eb. lia.
      * intros b Hb. rewrite mode_clear by done. by rewrite Eo.
      * intros b _ Hh. rewrite K2 by done. by rewrite Et.
Qed.

Lemma bits_none b : mode_of p b = LNone <-> Z.testbit (exclMask p .| sharedMask p) b = false.
Proof. unfold mode_of. rewrite Z.lor_spec. by destruct (Z.testbit (exclMask p) b), (Z.testbit (sharedMask p) b). Qed.

(** A release of locks that the connection does not have. *)
Lemma held_none : ((exclMask p .| sharedMask p) .& mask =? 0) = true <-> forall b, in_op o b -> mode_of p b = LNone.
Proof. destruct lop_range as (? & ? & ?). rewrite land_mask by done. split; intros Hb b Hi; by apply bits_none, Hb. Qed.

Lemma bit_excl b : mode_of p b <> LExcl <-> Z.testbit (exclMask p) b = false.
Proof. unfold mode_of. by destruct (Z.testbit (exclMask p) b), (Z.testbit (sharedMask p) b). Qed.

Lemma lockS_case b0 : o = LockS b0 -> outcome (unixShmLock (w_k w) c.1 d (Some c.2) ofst n (op_flags o)).
Proof.
  intros Eo. destruct lop_range as (? & ? & ?). assert (Hok : mode_of p ofst <> LExcl) by (rewrite <- mode_here; destruct Hlop as (_ & _ & _ & Hok); by rewrite Eo in *).
  assert (En : n = 1) by by rewrite Eo. unfold unixShmLock. rewrite (bind_eq _ _ _ Hp). cbv zeta. replace (op_flags o) with 6 by by rewrite Eo.
  change (negb (6 .& SQLITE_SHM_UNLOCK =? 0)) with false. change (6 =? SQLITE_SHM_SHARED .| SQLITE_SHM_LOCK) with true. change (6 =? SQLITE_SHM_EXCLUSIVE .| SQLITE_SHM_LOCK) with false.
  change (negb (6 .& SQLITE_SHM_SHARED =? 0)) with true. rewrite orb_false_r. cbn [andb orb]. apply bit_excl in Hok as Hx. destruct (sharedMask p .& mask =? 0) eqn:Es.
  - apply (shared_case b0 Eo). rewrite land_mask in Es by done. unfold mode_of. rewrite Hx, Es; [done|lia].
  - apply outcome_noop. intros b Hb. rewrite (ranged_one b En) by by apply in_op_ranged. replace (op_mode o) with LShared by by rewrite Eo. unfold mode_of. rewrite Hx. destruct (Z.testbit (sharedMask p) ofst) eqn:Et; [done|].
    exfalso. apply (eq_true_false_abs _ (proj2 (land_mask ofst n ltac:(done) ltac:(done) ltac:(done) (sharedMask p)) ltac:(intros x ?; by replace x with ofst by lia)) Es).
Qed.

Lemma lockX_case b0 n0 : o = LockX b0 n0 -> outcome (unixShmLock (w_k w) c.1 d (Some c.2) ofst n (op_flags o)).
Proof.
  intros Eo. assert (Hok : forall b, in_op o b -> mode_of p b = LNone) by (intros b Hb; rewrite <- mode_here; destruct Hlop as (_ & _ & _ & Hok); rewrite Eo in *; by apply Hok).
  unfold unixShmLock. rewrite (bind_eq _ _ _ Hp). cbv zeta. replace (op_flags o) with 10 by by rewrite Eo.
  change (negb (10 .& SQLITE_SHM_UNLOCK =? 0)) with false. change (10 =? SQLITE_SHM_EXCLUSIVE .| SQLITE_SHM_LOCK) with true.
  change (negb (10 .& SQLITE_SHM_SHARED =? 0)) with false. rewrite orb_true_r. by apply (exclusive_case b0 n0).
Qed.

Lemma unlockS_case b0 : o = UnlockS b0 -> outcome (unixShmLock (w_k w) c.1 d (Some c.2) ofst n (op_flags o)).
Proof.
  intros Eo. assert (Hok : mode_of p ofst <> LExcl) by (rewrite <- mode_here; destruct Hlop as (_ & _ & _ & Hok); by rewrite Eo in *).
  assert (En : n = 1) by by rewrite Eo. assert (Ef : op_flags o = 5) by by rewrite Eo. unfold unixShmLock. rewrite (bind_eq _ _ _ Hp). cbv zeta. rewrite Ef.
  change (negb (5 .& SQLITE_SHM_UNLOCK =? 0)) with true. change (5 =? SQLITE_SHM_SHARED .| SQLITE_SHM_LOCK) with false. change (5 =? SQLITE_SHM_EXCLUSIVE .| SQLITE_SHM_LOCK) with false.
  rewrite !orb_false_r. cbn [andb]. destruct ((exclMask p .| sharedMask p) .& mask =? 0) eqn:Eh; cbn [negb].
  - apply outcome_noop. replace (op_mode o) with LNone by by rewrite Eo. by apply held_none.
  - rewrite <- Ef. apply (unlock_case LShared); [by rewrite Eo|by rewrite Eo| |right; by rewrite Ef]. intros b Hb. rewrite (ranged_one b En) by by apply in_op_ranged.
    destruct (mode_of p ofst) eqn:Em; [|done|done]. exfalso. apply (eq_true_false_abs _ (proj2 held_none ltac:(intros x Hx; rewrite (ranged_one x En); [done|by apply in_op_ranged])) Eh).
Qed.

Lemma unlockX_case b0 n0 : o = UnlockX b0 n0 -> outcome (unixShmLock (w_k w) c.1 d (Some c.2) ofst n (op_flags o)).
Proof.
  intros Eo. assert (Hok : (forall b, in_op o b -> mode_of p b = LExcl) \/ (forall b, in_op o b -> mode_of p b = LNone)).
  { destruct Hlop as (_ & _ & _ & Hok). rewrite Eo in *. destruct Hok as [Hok|Hok]; [left|right]; intros b Hb; rewrite <- mode_here; by apply Hok. }
  assert (Ef : op_flags o = 9) by by rewrite Eo. destruct lop_range as (? & ? & ?). unfold unixShmLock. rewrite (bind_eq _ _ _ Hp). cbv zeta. rewrite Ef.
  change (negb (9 .& SQLITE_SHM_UNLOCK =? 0)) with true. change (9 =? SQLITE_SHM_SHARED .| SQLITE_SHM_LOCK) with false. change (9 =? SQLITE_SHM_EXCLUSIVE .| SQLITE_SHM_LOCK) with false.
  rewrite !orb_false_r. cbn [andb]. destruct ((exclMask p .| sharedMask p) .& mask =? 0) eqn:Eh; cbn [negb].
  - apply outcome_noop. replace (op_mode o) with LNone by by rewrite Eo. by apply held_none.
  - destruct Hok as [Hok|Hok]; [|exfalso; apply (eq_true_false_abs _ (proj2 held_none Hok) Eh)].
    rewrite <- Ef. apply (unlock_case LExcl); [by rewrite Eo|by rewrite Eo|done|left; by rewrite Ef].
Qed.

Lemma lock_case : outcome (unixShmLock (w_k w) c.1 d (Some c.2) ofst n (op_flags o)).
Proof.
  assert ((exists b, o = LockS b) \/ (exists b m, o = LockX b m) \/ (exists b, o = UnlockS b) \/ exists b m, o = UnlockX b m) as [[b E]|[(b & m & E)|[[b E]|(b & m & E)]]].
  { clear. destruct o; eauto 10. }
  - by apply (lockS_case b).
  - by apply (lockX_case b m).
  - by apply (unlockS_case b).
  - by apply (unlockX_case b m).
Qed.
End Cases.
End Step.

(** ** Runs *)

Section Runs.
Context {K : Type} `{PosixLaws K}.

(** A trace: the connection, its operation, whether the operating system failed, and the result. *)
Abbreviation ltrace := (list (holder * lop * bool * Z)).

Definition connected (w : World (K := K)) (c : holder) : Prop := exists d, w_nodes w !! c.1 = Some d /\ is_Some (pFirst d !! c.2).

Inductive shm_runs (w0 : World) : ltrace -> World -> Prop :=
  | shm_start : shm_runs w0 [] w0
  | shm_next tr w c o rc w' : shm_runs w0 tr w -> connected w c -> lop_ok (mode_at w) c o -> shm_step w c o = Some (rc, w') ->
      shm_runs w0 (tr ++ [(c, o, troubled w c o, rc)]) w'.

(** The runs of the specification, from no locks on. *)
Inductive rw_runs : ltrace -> modes -> Prop :=
  | rw_start M : (forall c b, slot b -> M c b = LNone) -> rw_runs [] M
  | rw_next tr M c o t rc M' : rw_runs tr M -> lop_ok M c o -> rw_does M c o t rc M' -> rw_runs (tr ++ [(c, o, t, rc)]) M'.

(** Processes whose connections have no locks: each has a file for its advisory locks, or is
    alone. *)
Definition unlocked (w : World (K := K)) : Prop :=
  (forall pid d, w_nodes w !! pid = Some d -> aLock d = replicate 8 0 /\ Forall (fun p => p = MkShm 0 0) (pFirst d)) /\
  (forall pid d q, w_nodes w !! pid = Some d -> hShm d < 0 -> q <> pid -> w_nodes w !! q = None) /\
  (forall pid b, getlk (w_k w) pid b = F_UNLCK).

Lemma mode_zero b : mode_of (MkShm 0 0) b = LNone.
Proof. unfold mode_of. cbn [exclMask sharedMask]. by rewrite !Z.testbit_0_l. Qed.

Lemma count_zero m b l : m <> LNone -> Forall (fun p => p = MkShm 0 0) l -> count m b l = 0.
Proof.
  intros Hm. induction 1 as [|x l -> _ IH]; [done|]. rewrite count_cons, IH, mode_zero. unfold bump. rewrite decide_False by done. done.
Qed.

Lemma unlocked_inv w : unlocked w -> winv w /\ forall c b, mode_at w c b = LNone.
Proof.
  intros (H1 & H2 & H3). split; [split|].
  - intros pid d Hd. destruct (H1 _ _ Hd) as [E Hz]. split; [by rewrite E|]. intros b a Ha. rewrite E in Ha. pose proof (aget_range _ _ _ Ha) as Hr.
    rewrite aget_replicate in Ha by exact Hr. injection Ha as <-. left. by rewrite !count_zero.
  - intros pid d b a Hd _ Ha. destruct (H1 _ _ Hd) as [E _]. rewrite E in Ha. pose proof (aget_range _ _ _ Ha) as Hr. rewrite aget_replicate in Ha by exact Hr. injection Ha as <-. apply H3.
  - intros. apply H3.
  - done.
  - intros. by rewrite !H3.
  - intros c b. unfold mode_at. destruct (w_nodes w !! c.1) as [d|] eqn:Hd; [|done]. destruct (pFirst d !! c.2) as [p|] eqn:Hp; [|done]. destruct (H1 _ _ Hd) as [_ Hz].
    rewrite Forall_lookup in Hz. rewrite (Hz _ _ Hp). apply mode_zero.
Qed.

Lemma shm_step_ok w c o : winv w -> connected w c -> lop_ok (mode_at w) c o ->
  exists rc w', shm_step w c o = Some (rc, w') /\ winv w' /\ rw_does (mode_at w) c o (troubled w c o) rc (mode_at w').
Proof.
  intros Hw (d & Hd & [p Hp]) Ho. destruct (lock_case w Hw c d p Hd Hp o Ho) as (rc & d' & k & E & Hw' & Hdo). unfold shm_step. rewrite (bind_eq _ _ _ Hd), (bind_eq _ _ _ E). by eexists _, _.
Qed.

Lemma shm_runs_ok w0 tr w : unlocked w0 -> shm_runs w0 tr w -> winv w /\ rw_runs tr (mode_at w).
Proof.
  intros Hu Hr. induction Hr as [|tr w c o rc w' _ [Hw IH] Hc Ho E].
  - destruct (unlocked_inv _ Hu) as [? Hm]. split; [done|]. constructor. intros. apply Hm.
  - destruct (shm_step_ok w c o Hw Hc Ho) as (rc' & w1 & E' & Hw' & Hd). rewrite E' in E. injection E as <- <-. split; [done|]. by eapply rw_next.
Qed.
End Runs.

(** C27. The two levels of locks are one readers-writer lock for each of the eight slots.
    Whatever connections of whatever processes ask for, in every run from no locks on, an
    operation takes effect, or is refused with nothing changed because a connection, in
    this or another process, has a lock that excludes it, or because the
    operating system fails; no connection has a lock while another has it exclusively; the
    counts of every process pass the check [assertLockingArrayOk], whose assertions never
    fail; and every next operation returns. *)
Theorem unixShmLock_refines_rwlock (K : Type) `{PosixLaws K} (w0 w : World (K := K)) tr : unlocked w0 -> shm_runs w0 tr w ->
  rw_runs tr (mode_at w) /\ exclusive (mode_at w) /\
  (forall pid d, w_nodes w !! pid = Some d -> assertLockingArrayOk d = Some true) /\
  (forall c o, connected w c -> lop_ok (mode_at w) c o -> exists rc w', shm_step w c o = Some (rc, w')).
Proof.
  intros Hu Hr. destruct (shm_runs_ok _ _ _ Hu Hr) as [Hw Hrw]. split_and!; [done|by apply winv_exclusive|intros pid d Hd; apply node_assert; by eapply wi_node|].
  intros c o Hc Ho. destruct (shm_step_ok w c o Hw Hc Ho) as (rc & w' & E & _). by eexists _, _.
Qed.

(** ** An operating system *)

(** The locks by process and byte, every call being granted or in conflict. *)
Abbreviation kernel := (gmap (Z * Z) flock_type).

Definition kget (k : kernel) (pid b : Z) : flock_type := default F_UNLCK (k !! (pid, b)).

Definition kblocked (k : kernel) (pid : Z) (t : flock_type) (start len : Z) : bool :=
  existsb (fun e => negb (bool_decide (e.1.1 = pid)) && (start <=? e.1.2) && (e.1.2 <? start + len) && in_the_way t e.2) (map_to_list k).

Fixpoint kset (k : kernel) (pid : Z) (t : flock_type) (start : Z) (n : nat) : kernel :=
  match n with O => k | S n => <[(pid, start) := t]> (kset k pid t (start + 1) n) end.

#[export] Instance kernel_locks : PosixLocks kernel := {
  setlk k pid t start len := if kblocked k pid t start len then (Conflict, k) else (Granted, kset k pid t start (Z.to_nat len));
  getlk := kget
}.

Lemma kset_get pid t : forall n k start q b, kget (kset k pid t start n) q b = if bool_decide (q = pid) && (start <=? b) && (b <? start + Z.of_nat n) then t else kget k q b.
Proof.
  induction n as [|n IH]; intros k start q b; cbn [kset].
  - destruct (bool_decide (q = pid)), (Z.leb_spec start b), (Z.ltb_spec b (start + Z.of_nat 0)); cbn [andb]; lia || done.
  - unfold kget at 1. destruct (decide ((pid, start) = (q, b))) as [[= <- <-]|Hne].
    + rewrite lookup_insert_eq, bool_decide_eq_true_2, (proj2 (Z.leb_le _ _)), (proj2 (Z.ltb_lt _ _)) by lia. done.
    + rewrite lookup_insert_ne by done. change (default F_UNLCK (kset k pid t (start + 1) n !! (q, b))) with (kget (kset k pid t (start + 1) n) q b). rewrite IH.
      destruct (bool_decide_reflect (q = pid)) as [->|]; [|done]. assert (start <> b) by (intros ->; done).
      destruct (Z.leb_spec (start + 1) b), (Z.leb_spec start b), (Z.ltb_spec b (start + 1 + Z.of_nat n)), (Z.ltb_spec b (start + Z.of_nat (S n))); cbn [andb]; lia || done.
Qed.

Lemma kblocked_spec k pid t start len : kblocked k pid t start len = true <-> exists q b, q <> pid /\ start <= b < start + len /\ in_the_way t (kget k q b) = true.
Proof.
  unfold kblocked. rewrite existsb_exists. split.
  - intros ([[q b] u] & Hin & E). cbn [fst snd] in E. rewrite !andb_true_iff, negb_true_iff, bool_decide_eq_false, Z.leb_le, Z.ltb_lt in E. destruct E as [[[? ?] ?] ?].
    apply list_elem_of_In, elem_of_map_to_list in Hin. exists q, b. split_and!; [done|lia|lia|]. unfold kget. by rewrite Hin.
  - intros (q & b & Hq & Hb & Hi). unfold kget in Hi. destruct (k !! (q, b)) as [u|] eqn:E; cbn [default from_option id] in Hi; [|by destruct t]. exists ((q, b), u). split; [by apply list_elem_of_In, elem_of_map_to_list|].
    cbn [fst snd]. rewrite bool_decide_eq_false_2, (proj2 (Z.leb_le _ _)), (proj2 (Z.ltb_lt _ _)), Hi by (done || lia). done.
Qed.

#[export] Instance kernel_laws : PosixLaws kernel.
Proof.
  split; cbn [setlk getlk kernel_locks]; intros k pid t start len k'; destruct (kblocked k pid t start len) eqn:E; intros [= <-].
  - split.
    + intros q b. rewrite kset_get. destruct (bool_decide (q = pid)), (Z.leb_spec start b), (Z.ltb_spec b (start + Z.of_nat (Z.to_nat len))), (Z.ltb_spec b (start + len)); cbn [andb]; lia || done.
    + intros q b Hq Hb. destruct (in_the_way t (kget k q b)) eqn:Ei; [|done]. exfalso. apply (eq_true_false_abs _ (proj2 (kblocked_spec k pid t start len) ltac:(eauto 10)) E).
  - split; [done|]. by apply kblocked_spec.
Qed.

(** Two processes, with two connections and one: two readers, a writer of the other process that is
    refused, the end of both readers, and the writer again. *)
Definition sample_world : World (K := kernel) :=
  MkWorld {[1 := MkNode 5 [MkShm 0 0; MkShm 0 0] (replicate 8 0); 2 := MkNode 6 [MkShm 0 0] (replicate 8 0)]} ∅.
Definition lock_sample : list (holder * lop) :=
  [((1, 0%nat), LockS 4); ((1, 1%nat), LockS 4); ((2, 0%nat), LockX 4 4); ((1, 0%nat), UnlockS 4); ((1, 1%nat), UnlockS 4); ((2, 0%nat), LockX 4 4)].
Definition lock_results : list (holder * lop * bool * Z) :=
  zip_with (fun s rc => (s, false, rc)) lock_sample [SQLITE_OK; SQLITE_OK; SQLITE_BUSY; SQLITE_OK; SQLITE_OK; SQLITE_OK].

(** Legality, decided. *)
Definition lop_okb (M : modes) (c : holder) (o : lop) : bool :=
  let ranged b := (op_ofst o <=? b) && (b <? op_ofst o + op_n o) in
  (0 <=? op_ofst o) && (1 <=? op_n o) && (op_ofst o + op_n o <=? SQLITE_SHM_NLOCK) &&
  match o with
  | LockS b | UnlockS b => negb (bool_decide (M c b = LExcl))
  | LockX _ _ => forallb (fun b => negb (ranged b) || bool_decide (M c b = LNone)) slots
  | UnlockX _ _ => forallb (fun b => negb (ranged b) || bool_decide (M c b = LExcl)) slots
  end.

Lemma lop_okb_ok M c o : lop_okb M c o = true -> lop_ok M c o.
Proof.
  unfold lop_okb, lop_ok. rewrite !andb_true_iff, !Z.leb_le. intros [[[? ?] ?] Ho]. do 3 (split; [done|]).
  assert (Hall : forall m, forallb (fun b => negb ((op_ofst o <=? b) && (b <? op_ofst o + op_n o)) || bool_decide (M c b = m)) slots = true -> forall b, in_op o b -> M c b = m).
  { intros m Hf b Hb. unfold in_op in Hb. rewrite forallb_forall in Hf. specialize (Hf b ltac:(apply list_elem_of_In, slots_elem; lia)).
    rewrite (proj2 (Z.leb_le _ _)), (proj2 (Z.ltb_lt _ _)) in Hf by lia. by apply bool_decide_eq_true in Hf. }
  destruct o; [by apply negb_true_iff, bool_decide_eq_false in Ho|by apply Hall|by apply negb_true_iff, bool_decide_eq_false in Ho|left; by apply Hall].
Qed.

(** A run of legal operations, executed. *)
Fixpoint lock_run (w : World (K := kernel)) (l : list (holder * lop)) : option (list (holder * lop * bool * Z) * World) :=
  match l with
  | [] => Some ([], w)
  | (c, o) :: l =>
      d ← w_nodes w !! c.1;
      _ ← pFirst d !! c.2;
      if lop_okb (mode_at w) c o then
        '(rc, w') ← shm_step w c o;
        '(tr, w'') ← lock_run w' l;
        Some ((c, o, troubled w c o, rc) :: tr, w'')
      else None
  end.

Lemma lock_run_ok w0 : forall l pre w tr w', shm_runs w0 pre w -> lock_run w l = Some (tr, w') -> shm_runs w0 (pre ++ tr) w'.
Proof.
  induction l as [|[c o] l IH]; intros pre w tr w' Hr E; cbn [lock_run] in E; [injection E as <- <-; by rewrite app_nil_r|].
  apply bind_Some in E as (d & Hd & E). apply bind_Some in E as (p & Hp & E). destruct (lop_okb (mode_at w) c o) eqn:Eo; [|done].
  apply bind_Some in E as ([rc w1] & E1 & E). apply bind_Some in E as ([tr1 w2] & E2 & E). injection E as <- <-.
  change (pre ++ (c, o, troubled w c o, rc) :: tr1) with (pre ++ [(c, o, troubled w c o, rc)] ++ tr1). rewrite app_assoc. eapply IH; [|exact E2].
  eapply shm_next; [done|exists d; by rewrite Hp|by apply lop_okb_ok|done].
Qed.

Lemma unixShmLock_refines_rwlock_witness : exists w M, shm_runs sample_world lock_results w /\ rw_runs lock_results M /\ exclusive M.
Proof.
  assert (Hu : unlocked sample_world).
  { split_and!; cbn [w_nodes w_k sample_world].
    - intros pid d [[<- <-]|[_ [<- <-]%lookup_singleton_Some]]%lookup_insert_Some; (split; [done|]); repeat constructor.
    - intros pid d q [[<- <-]|[_ [<- <-]%lookup_singleton_Some]]%lookup_insert_Some; cbn [hShm]; lia.
    - done. }
  assert (Hr : exists w, shm_runs sample_world lock_results w).
  { assert (E : (lock_run sample_world lock_sample ≫= fun r => Some r.1) = Some lock_results) by (vm_compute; reflexivity).
    apply bind_Some in E as ([tr w] & E & [= <-]). exists w. exact (lock_run_ok sample_world lock_sample [] _ _ _ (shm_start _) E). }
  destruct Hr as [w Hr]. destruct (unixShmLock_refines_rwlock kernel sample_world w lock_results Hu Hr) as (H1 & H2 & _). by exists w, (mode_at w).
Defined.
