(* ===== verification/WalLive.v ===== *)
(** * Write-ahead log: checkpoints that wait ([src/wal.c])

    [sqlite3WalCheckpoint], the call of the interface: it takes the locks, reads the
    header, runs the checkpoint and gives the locks back.  In the modes FULL, RESTART
    and TRUNCATE it waits for readers: for those of a read mark before the end of
    the log, for those of the database file alone, and, but in mode FULL, for all
    those of the log.  That it is not kept waiting for ever rests on the readers:
    while it waits for a lock, no reader that starts takes that lock, so that only
    those that had started before are waited for. *)
From S2P Require Import Prelude Bytes FileIO WalBase WalFrame WalIndex WalIter WalHdr WalCkpt WalRecover WalRead ShmLock ShmSpec.

(** ** The interface *)

Record CkptCall : Type := MkCkptCall {
  cc_readOnly : bool;
  cc_nBuf : Z;
  cc_lockCkpt : Z;             (** the lock on the checkpoint byte *)
  cc_lockWrite : attempts;     (** the lock on the writer byte *)
  cc_hdr : HdrEnv;             (** what the header is read from *)
  cc_env : CkptEnv             (** mode, busy handler and the locks on read marks *)
}.

Definition set_mode2 (mode : Z) (xBusy : bool) (e : CkptEnv) : CkptEnv :=
  MkEnv mode xBusy (e_locks e) (e_salt1 e) (e_only_full e).

Record ckpt_result : Type := MkCkptResult {
  cr_rc : Z;
  cr_out : option (Z * Z);     (** [*pnLog] and [*pnCkpt], when they are set *)
  cr_conn : Conn;
  cr_index : Recover;          (** the wal-index after the header was read *)
  cr_ckpt : Ckpt
}.

Section Host.
Context (bo : byteorder) (host_big : bool) (shmMap : Z -> Z).

(** The state of the checkpoint proper: files and interrupts of [s], the wal-index [v] and
    the header of the connection. *)
Definition ckpt_state (c : Conn) (v : Recover) (s : Ckpt) : Ckpt :=
  MkCk (rv_io v) (ck_intr s) (ck_cb s) (ck_calls s) (ck_db s) (ck_wal s) (rv_info v) (cn_hdr c) (rv_shm v) (rv_nCkpt v).

(** The lock on the writer byte: result code, mode and busy handler for the checkpoint, and
    whether the lock is held. *)
Definition ckpt_writer (e : CkptCall) : Z * Z * bool * bool :=
  let eMode := e_mode (cc_env e) in
  let xBusy := e_xBusy (cc_env e) in
  if eMode =? SQLITE_CHECKPOINT_PASSIVE then (SQLITE_OK, eMode, xBusy, false)
  else
    let rc := walBusyLock xBusy (cc_lockWrite e) in
    if rc =? SQLITE_OK then (rc, eMode, xBusy, true)
    else if rc =? SQLITE_BUSY then (SQLITE_OK, SQLITE_CHECKPOINT_PASSIVE, false, false)
    else (rc, eMode, xBusy, false).

(** The header is read and the checkpoint runs: result code, changed flag and output
    variables. *)
Definition ckpt_locked (e : CkptCall) (eMode2 : Z) (xBusy2 : bool) (al : alloc) (c : Conn) (v : Recover) (s : Ckpt)
    : option (Z * bool * option (Z * Z) * Conn * Recover * Ckpt) :=
  '(rc, isChanged, c, v) ← walIndexReadHdr bo host_big shmMap (cc_hdr e) false c v;
  if negb (rc =? SQLITE_OK) then Some (rc, isChanged, None, c, v, s) else
  let s := ckpt_state c v s in
  '(rc, s) ←
    (if negb (mxFrame (cn_hdr c) =? 0) && negb (hdr_pagesize (hdr_szPage (cn_hdr c)) =? cc_nBuf e) then Some (SQLITE_CORRUPT, s)
     else walCheckpoint bo host_big shmMap (set_mode2 eMode2 xBusy2 (cc_env e)) (rv_pages v) (cn_minFrame c) al s
     : option (Z * Ckpt));
  let out := if (rc =? SQLITE_OK) || (rc =? SQLITE_BUSY) then Some (i32 (mxFrame (ck_hdr s)), i32 (nBackfill (ck_info s))) else None in
  Some (rc, isChanged, out, cn_set_hdr (ck_hdr s) (cn_szPage c) c, v, s).

(** The connection holds no write lock before.  All locks are given back at the end. *)
Definition sqlite3WalCheckpoint (e : CkptCall) (al : alloc) (c : Conn) (v : Recover) (s : Ckpt) : option ckpt_result :=
  if cc_readOnly e then Some (MkCkptResult SQLITE_READONLY None c v s) else
  if negb (cc_lockCkpt e =? SQLITE_OK) then Some (MkCkptResult (cc_lockCkpt e) None (sqlite3WalEndWriteTransaction c) v s) else
  let '(rc, eMode2, xBusy2, writeLock) := ckpt_writer e in
  let c := cn_set_write writeLock c in
  '(rc, isChanged, out, c, v, s) ←
    (if rc =? SQLITE_OK then ckpt_locked e eMode2 xBusy2 al c v s else Some (rc, false, None, c, v, s)
     : option (Z * bool * option (Z * Z) * Conn * Recover * Ckpt));
  let c := if (isChanged : bool) then cn_set_hdr zero_hdr (cn_szPage c) c else c in
  Some (MkCkptResult (if (rc =? SQLITE_OK) && negb (e_mode (cc_env e) =? eMode2) then SQLITE_BUSY else rc)
          out (sqlite3WalEndWriteTransaction c) v s).
End Host.

(** ** Readers while a checkpoint waits *)

Section Wait.
Context (bo : byteorder) (host_big : bool) (shmMap : Z -> Z) (H : WalIndexHdr) (info : WalCkptInfo) (mode slot : Z).

(** What a reader finds that starts while a checkpoint waits for [w]: the published header [H], and
    - for a read mark or for the database file, a log that is back-filled as far as it was when the checkpoint
      started, and the marks of [slot] and of the read mark in question as they were then;
    - for all readers of the log, a log that is wholly back-filled, and read lock 0, which nobody has
      exclusively. *)
Definition reader_finds (w : wait) (e : ReadEnv) : Prop :=
  he_page0 (re_hdr e) = (SQLITE_OK, true) /\ he_try1 (re_hdr e) = (hdr_bytes host_big H, hdr_bytes host_big H) /\
  match w with
  | WLog => re_nBackfill0 e = mxFrame H /\ re_lock0 e <> SQLITE_BUSY
  | WDb => re_nBackfill0 e = nBackfill info /\ alen (re_marks e) = WAL_NREADER /\ aget (re_marks e) slot = aget (aReadMark info) slot
  | WMark i => re_nBackfill0 e = nBackfill info /\ alen (re_marks e) = WAL_NREADER /\ aget (re_marks e) slot = aget (aReadMark info) slot
                 /\ aget (re_marks e) i = aget (aReadMark info) i
  end.

(** A checkpoint that waits for [w] waits for the readers with read lock [l]. *)
Definition waits_for (w : wait) (l : Z) : Prop :=
  fst (wait_lock w) <= WAL_READ_LOCK l < fst (wait_lock w) + snd (wait_lock w).

(** The mark of [slot] is the end of the log. *)
Definition end_marked : Prop := nBackfill info < mxFrame H -> 1 <= slot <= 4 /\ aget (aReadMark info) slot = Some (mxFrame H).

(** A connection whose wal-index is in shared memory. *)
Definition conn_ok (c : Conn) : Prop := cn_bShmUnreliable c = false /\ hdr_wf (cn_hdr c).

(** The header is read without locks. *)
Lemma read_published he changed c v : published host_big H -> he_page0 he = (SQLITE_OK, true) -> he_try1 he = (hdr_bytes host_big H, hdr_bytes host_big H) -> conn_ok c ->
  exists changed' sz, walIndexReadHdr bo host_big shmMap he changed c v = Some (SQLITE_OK, changed', cn_set_hdr H sz c, v).
Proof.
  intros Hp E0 E1 [Hu Hwf]. unfold walIndexReadHdr. rewrite E0, E1. cbn [negb andb fst snd].
  change (SQLITE_OK =? SQLITE_READONLY_CANTINIT) with false. change (SQLITE_OK =? SQLITE_OK) with true. cbn [negb andb].
  rewrite (try_published host_big (cn_hdr c) (cn_szPage c) changed H Hp Hwf). cbn [mbind option_bind].
  set (t := if bool_decide (cn_hdr c = H) then _ else _). assert (th_rc t = 0 /\ th_hdr t = H) as [-> ->] by (unfold t; by case_bool_decide).
  change (0 =? 0) with true. cbn [negb mbind option_bind andb cn_set_hdr cn_bShmUnreliable cn_hdr]. rewrite Hu, (pub_version _ _ Hp), Z.eqb_refl. by eexists _, _.
Qed.

(** A mark at the end of the log is the best one. *)
Lemma best_mark_end marks mx j : alen marks = WAL_NREADER -> aget marks j = Some mx -> forall ix m i, m <= mx ->
  j ∈ ix \/ m = mx /\ 1 <= i <= 4 /\ aget marks i = Some mx -> Forall (fun k => 1 <= k <= 4) ix ->
  exists k, best_mark marks mx m i ix = Some (mx, k) /\ 1 <= k <= 4 /\ aget marks k = Some mx.
Proof.
  intros Hl Hj. induction ix as [|k ix IH]; intros m i Hm Hin HF; cbn [best_mark].
  { destruct Hin as [Hin|(-> & Hi & Ei)]; [by apply elem_of_nil in Hin|eauto]. }
  apply Forall_cons in HF as [Hk HF]. destruct (aget_is_Some marks k) as [t Et]; [rewrite Hl; unfold WAL_NREADER; lia|]. rewrite Et. cbn [mbind option_bind].
  destruct (Z.leb_spec m t), (Z.leb_spec t mx); cbn [andb]; apply IH; try done; try lia.
  all: destruct Hin as [[->|Hin]%elem_of_cons|(-> & Hi & Ei)]; [|by left|].
  all: try (right; split_and!; try done; congruence || (assert (t = mx) as -> by (congruence || lia); done) || lia).
  all: exfalso; assert (t = mx) by congruence; lia.
Qed.

(** A reader that starts with the mark of the end of the log has that mark or none. *)
Lemma begin_end e c : alen (re_marks e) = WAL_NREADER -> 1 <= slot <= 4 -> aget (re_marks e) slot = Some (mxFrame (cn_hdr c)) -> 0 <= mxFrame (cn_hdr c) ->
  exists rc c', begin_wal e c = Some (rc, c', None) /\ cn_hdr c' = cn_hdr c /\
    (cn_readLock c' = cn_readLock c \/ 1 <= cn_readLock c' <= 4 /\ aget (re_marks e) (cn_readLock c') = Some (mxFrame (cn_hdr c))).
Proof.
  intros Hl Hs Hm H0. unfold begin_wal. destruct (best_mark_end (re_marks e) (mxFrame (cn_hdr c)) slot Hl Hm [1; 2; 3; 4] 0 0 H0) as (k & -> & Hk & Ek).
  { left. assert (slot = 1 \/ slot = 2 \/ slot = 3 \/ slot = 4) as Hx by lia. set_solver. }
  { apply slots_ok. }
  cbn [mbind option_bind]. rewrite Z.ltb_irrefl, (proj2 (Z.eqb_neq k 0)) by lia. cbn [orb]. rewrite andb_false_r. unfold lock_mark.
  destruct (negb _); [eexists _, _; split; [done|]; by split; [|left]|].
  destruct (_ || _); eexists _, _; (split; [done|]); (split; [done|]); cbn [cn_set_lock cn_set_minFrame cn_readLock]; [by left|by right].
Qed.

(** No reader that starts gets a lock that is waited for. *)
Lemma begin_elsewhere w e changed cnt c v : published host_big H -> end_marked -> w ∈ waits -> asked mode (mxFrame H) info w = true ->
  reader_finds w e -> conn_ok c -> cn_readLock c < 0 ->
  exists r, walTryBeginRead bo host_big shmMap e changed false cnt c v = Some r /\ conn_ok (rr_conn r) /\ ~ waits_for w (cn_readLock (rr_conn r)).
Proof.
  intros Hp He Hw Ha (E0 & E1 & Hf) Hc Hl. assert (Hneg : forall l, l < 0 -> ~ waits_for w l).
  { intros l Hl' Hx. unfold waits_for, WAL_READ_LOCK in Hx. repeat (apply elem_of_cons in Hw as [->|Hw]; [cbn in Hx; unfold WAL_READ_LOCK in Hx; lia|]). by apply elem_of_nil in Hw. }
  unfold walTryBeginRead. destruct (_ && _); [eexists; split; [done|]; split; [done|by apply Hneg]|]. unfold begin_hdr. rewrite (proj1 Hc).
  destruct (read_published (re_hdr e) changed c v Hp E0 E1 Hc) as (ch & sz & ->). cbn [mbind option_bind]. change (SQLITE_OK =? SQLITE_BUSY) with false.
  cbv iota zeta. change (SQLITE_OK =? SQLITE_OK) with true. cbn [negb]. set (c1 := cn_set_hdr H sz c). assert (Hc1 : conn_ok c1) by (split; [apply Hc|apply Hp]).
  rewrite (proj1 Hc1). cbn [mbind option_bind]. pose proof (wf_mxFrame _ (pub_wf _ _ Hp)) as H0. unfold is_u32 in H0.
  assert (Hend : nBackfill info < mxFrame H -> re_nBackfill0 e = nBackfill info -> alen (re_marks e) = WAL_NREADER ->
    aget (re_marks e) slot = aget (aReadMark info) slot ->
    begin_db e false c1 = None /\ exists rc c', begin_wal e c1 = Some (rc, c', None) /\ conn_ok c' /\
      (cn_readLock c' < 0 \/ 1 <= cn_readLock c' <= 4 /\ aget (re_marks e) (cn_readLock c') = Some (mxFrame H))).
  { intros Hlt En Hl5 Es. destruct (He Hlt) as [Hs Em]. rewrite <- Es in Em. split.
    - unfold begin_db. rewrite En. change (cn_hdr c1) with H. rewrite (proj2 (Z.eqb_neq _ _)) by lia. done.
    - destruct (begin_end e c1 Hl5 Hs Em) as (rc & c' & E & Eh & Hx); [cbn; lia|]. exists rc, c'. split; [exact E|].
      split; [split; [rewrite (begin_wal_flag _ _ _ _ _ E); apply Hc1|rewrite Eh; apply Hc1]|]. destruct Hx as [->|Hx]; [by left|by right]. }
  destruct w as [i| |]; cbn [asked] in Ha.
  - apply andb_true_iff in Ha as [Hlt%Z.ltb_lt Hy]. destruct Hf as (F1 & F2 & F3 & F4). destruct (Hend Hlt F1 F2 F3) as (-> & rc & c' & -> & Hok & Hx). cbn [mbind option_bind].
    eexists. split; [done|]. split; [done|]. cbn [rr_conn]. destruct Hx as [Hx|[Hx Em]]; [by apply Hneg|]. unfold waits_for. cbn [wait_lock fst snd]. unfold WAL_READ_LOCK. intros Hb.
    replace (cn_readLock c') with i in Em by lia. rewrite <- F4, Em in Hy. apply Z.ltb_lt in Hy. lia.
  - apply Z.ltb_lt in Ha. destruct Hf as (F1 & F2 & F3). destruct (Hend Ha F1 F2 F3) as (-> & rc & c' & -> & Hok & Hx). cbn [mbind option_bind].
    eexists. split; [done|]. split; [done|]. cbn [rr_conn]. destruct Hx as [Hx|[Hx _]]; [by apply Hneg|]. unfold waits_for. cbn [wait_lock fst snd]. unfold WAL_READ_LOCK. lia.
  - destruct Hf as [En Hb]. unfold begin_db. rewrite En. change (cn_hdr c1) with H. rewrite Z.eqb_refl. cbn [negb andb]. unfold waits_for. cbn [wait_lock fst snd]. unfold WAL_READ_LOCK.
    destruct (re_lock0 e =? SQLITE_OK).
    + destruct (negb (bool_decide (re_shm0 e = H))); eexists; (split; [reflexivity|]); cbn [rr_conn]; (split; [done|]); cbn [c1 cn_set_hdr cn_set_lock cn_readLock]; lia.
    + destruct (Z.eqb_spec (re_lock0 e) SQLITE_BUSY); [done|]. eexists. split; [reflexivity|]. split; [done|]. cbn [rr_conn c1 cn_set_hdr cn_readLock]. lia.
Qed.

Lemma end_read c : conn_ok c -> conn_ok (sqlite3WalEndReadTransaction c) /\ cn_readLock (sqlite3WalEndReadTransaction c) < 0.
Proof.
  intros Hc. unfold sqlite3WalEndReadTransaction, sqlite3WalEndWriteTransaction. cbn [cn_set_write cn_readLock].
  destruct (Z.leb_spec 0 (cn_readLock c)); split; try apply Hc; cbn [cn_set_lock cn_readLock cn_set_write]; lia.
Qed.

(** What the readers do: an attempt of a connection without a transaction to start one, and the
    end of one. *)
Inductive ract : Type := RBegin (i : nat) (e : ReadEnv) (changed : bool) (cnt : Z) (v : Recover) | REnd (i : nat) | RIdle.

Definition ract_ok (w : wait) (a : ract) : Prop := match a with RBegin _ e _ _ _ => reader_finds w e | _ => True end.

Definition rstep (cs : list Conn) (a : ract) : option (list Conn) :=
  match a with
  | RBegin i e changed cnt v =>
      c ← cs !! i;
      if cn_readLock c <? 0 then
        r ← walTryBeginRead bo host_big shmMap e changed false cnt c v;
        Some (<[i := rr_conn r]> cs)
      else None
  | REnd i => c ← cs !! i; Some (<[i := sqlite3WalEndReadTransaction c]> cs)
  | RIdle => Some cs
  end.

(** The wait for a lock, were it without end: the connections at each time, what they do, and the
    times and results of the attempts of the checkpoint at the lock. *)
Record phase : Type := MkPhase {
  ph_run : nat -> list Conn;
  ph_acts : nat -> ract;
  ph_time : nat -> nat;
  ph_rc : nat -> Z
}.

Definition rruns (w : wait) (ph : phase) : Prop :=
  Forall conn_ok (ph_run ph 0%nat) /\ forall t, ract_ok w (ph_acts ph t) /\ rstep (ph_run ph t) (ph_acts ph t) = Some (ph_run ph (S t)).

(** Every reader that is waited for ends its transaction. *)
Definition readers_end (w : wait) (ph : phase) : Prop :=
  forall t i c, ph_run ph t !! i = Some c -> waits_for w (cn_readLock c) -> exists t', (t <= t')%nat /\ ph_acts ph t' = REnd i.

Section Run.
Context (w : wait) (ph : phase) (Hpub : published host_big H) (Hmark : end_marked).
Context (Hin : w ∈ waits) (Hasked : asked mode (mxFrame H) info w = true) (Hrun : rruns w ph).
Abbreviation run := (ph_run ph).
Abbreviation clear c := (~ waits_for w (cn_readLock c)).

Lemma neg_clear c : cn_readLock c < 0 -> clear c.
Proof.
  intros Hl Hx. unfold waits_for in Hx. clear -Hin Hl Hx. unfold waits in Hin.
  repeat (apply elem_of_cons in Hin as [->|Hin]; [cbn in Hx; unfold WAL_READ_LOCK in Hx; lia|]). by apply elem_of_nil in Hin.
Qed.

Lemma run_step t : Forall conn_ok (run t) ->
  Forall conn_ok (run (S t)) /\ length (run (S t)) = length (run t) /\
  forall i c c', run t !! i = Some c -> run (S t) !! i = Some c' -> (clear c -> clear c') /\ (ph_acts ph t = REnd i -> clear c').
Proof.
  intros Hf. destruct (proj2 Hrun t) as [Ha E]. unfold rstep in E. destruct (ph_acts ph t) as [i e ch cnt v|i|].
  - apply bind_Some in E as (c & Hc & E). destruct (Z.ltb_spec (cn_readLock c) 0) as [Hlt|]; [|done]. apply bind_Some in E as (r & Er & [= <-]).
    pose proof (proj1 (Forall_lookup _ _) Hf _ _ Hc) as Hok. destruct (begin_elsewhere w e ch cnt c v Hpub Hmark Hin Hasked Ha Hok Hlt) as (r' & Er' & Hok' & Hl'). rewrite Er in Er'. injection Er' as <-.
    split; [by apply Forall_insert|]. split; [apply length_insert|]. intros j x y Hx Hy. destruct (decide (i = j)) as [<-|Hne].
    + rewrite list_lookup_insert_eq in Hy by (by eapply lookup_lt_Some). injection Hy as <-. done.
    + rewrite list_lookup_insert_ne in Hy by done. rewrite Hx in Hy. injection Hy as <-. done.
  - apply bind_Some in E as (c & Hc & [= <-]). pose proof (proj1 (Forall_lookup _ _) Hf _ _ Hc) as Hok. destruct (end_read c Hok) as [Hok' Hl'%neg_clear].
    split; [by apply Forall_insert|]. split; [apply length_insert|]. intros j x y Hx Hy. destruct (decide (i = j)) as [<-|Hne].
    + rewrite list_lookup_insert_eq in Hy by (by eapply lookup_lt_Some). injection Hy as <-. done.
    + rewrite list_lookup_insert_ne in Hy by done. rewrite Hx in Hy. injection Hy as <-. split; [done|]. congruence.
  - injection E as <-. split; [done|]. split; [done|]. intros j x y Hx Hy. rewrite Hx in Hy. injection Hy as <-. done.
Qed.

Lemma run_ok t : Forall conn_ok (run t) /\ length (run t) = length (run 0%nat).
Proof. induction t as [|t [IH1 IH2]]; [split; [apply Hrun|done]|]. destruct (run_step t IH1) as (? & ? & _). split; [done|congruence]. Qed.

Lemma run_lookup t t' i : is_Some (run t !! i) -> is_Some (run t' !! i).
Proof. rewrite !lookup_lt_is_Some, (proj2 (run_ok t)), (proj2 (run_ok t')). done. Qed.

(** A connection that is not waited for never is again. *)
Lemma drained_stays i t : (forall c, run t !! i = Some c -> clear c) -> forall t' c, (t <= t')%nat -> run t' !! i = Some c -> clear c.
Proof.
  intros Ht t' c Hle. revert c. induction Hle as [|t' _ IH]; intros c Hc; [by apply Ht|]. destruct (run_lookup (S t') t' i ltac:(by exists c)) as [x Hx].
  destruct (run_step t' (proj1 (run_ok t'))) as (_ & _ & Hs). apply (proj1 (Hs i x c Hx Hc)). by apply IH.
Qed.

Lemma drained_one (Hend : readers_end w ph) i : exists T, forall t c, (T <= t)%nat -> run t !! i = Some c -> clear c.
Proof.
  destruct (run 0%nat !! i) as [c0|] eqn:H0.
  2: { exists 0%nat. intros t c _ Hc. destruct (run_lookup t 0 i ltac:(by exists c)) as [x Hx]. congruence. }
  assert (Hd : clear c0 \/ waits_for w (cn_readLock c0)) by (unfold waits_for; lia). destruct Hd as [Hlt|Hge].
  { exists 0%nat. apply drained_stays. intros c Hc. rewrite H0 in Hc. by injection Hc as <-. }
  destruct (Hend 0%nat i c0 H0 Hge) as (t & _ & Et). exists (S t). apply drained_stays. intros c Hc. destruct (run_lookup (S t) t i ltac:(by exists c)) as [x Hx].
  destruct (run_step t (proj1 (run_ok t))) as (_ & _ & Hs). by apply (proj2 (Hs i x c Hx Hc)).
Qed.

(** From some time on nobody is waited for. *)
Lemma drained (Hend : readers_end w ph) : exists T, forall t i c, (T <= t)%nat -> run t !! i = Some c -> clear c.
Proof.
  assert (Hn : forall n, exists T, forall t i c, (i < n)%nat -> (T <= t)%nat -> run t !! i = Some c -> clear c).
  { induction n as [|n [T IH]]; [exists 0%nat; lia|]. destruct (drained_one Hend n) as [T' H']. exists (T `max` T')%nat. intros t i c Hi Ht Hc.
    destruct (decide (i = n)) as [->|]; [apply (H' t c); [lia|done]|apply (IH t i c); [lia|lia|done]]. }
  destruct (Hn (length (run 0%nat))) as [T HT]. exists T. intros t i c Ht Hc. apply (HT t i c); [|done|done]. rewrite <- (proj2 (run_ok t)). by eapply lookup_lt_Some.
Qed.
End Run.

(** ** Attempts at the lock *)

(** The table of locks goes with the readers: a lock on a read mark of another connection than [ck] is one
    of a reader. *)
Definition locks_of_readers (M : modes) (ck : holder) (cs : list Conn) : Prop :=
  forall h b, h <> ck -> WAL_READ_LOCK 0 <= b < WAL_READ_LOCK WAL_NREADER -> M h b <> LNone -> exists i c, cs !! i = Some c /\ WAL_READ_LOCK (cn_readLock c) = b.

(** [ph_rc ph j] is the result of the attempt of [ck], at time [ph_time ph j], at the lock. *)
Definition polls (w : wait) (ck : holder) (ph : phase) : Prop :=
  forall j, (j <= ph_time ph j)%nat /\ exists M M', locks_of_readers M ck (ph_run ph (ph_time ph j)) /\
    rw_does M ck (LockX (fst (wait_lock w)) (snd (wait_lock w))) false (ph_rc ph j) M'.

(** The attempts of a busy handler that asks [k] times for another. *)
Definition poll_attempts (rc : nat -> Z) (k : nat) : attempts := (rc 0%nat, rc <$> seq 1 k).

Lemma poll_busy rc : (forall j, rc j = SQLITE_OK \/ rc j = SQLITE_BUSY) -> forall k s, (exists j, (s <= j <= s + k)%nat /\ rc j = SQLITE_OK) ->
  busy_loop true (rc s) (rc <$> seq (S s) k) = SQLITE_OK.
Proof.
  intros Hrc. induction k as [|k IH]; intros s (j & Hj & Ej); cbn [seq fmap list_fmap busy_loop]; [by replace s with j by lia|].
  destruct (Hrc s) as [E|E]; rewrite E; cbn [andb]; [done|]. change (SQLITE_BUSY =? SQLITE_BUSY) with true. cbv iota. apply IH.
  exists j. split; [|done]. destruct (decide (j = s)) as [->|]; [by rewrite E in Ej|lia].
Qed.

(** The readers and the checkpoint during a wait. *)
Definition phase_ok (ck : holder) (w : wait) (ph : phase) : Prop := rruns w ph /\ readers_end w ph /\ polls w ck ph.

(** The lock is granted in the end. *)
Lemma polls_granted w ph ck : published host_big H -> end_marked -> w ∈ waits -> asked mode (mxFrame H) info w = true -> phase_ok ck w ph ->
  exists n, forall k, (n <= k)%nat -> walBusyLock true (poll_attempts (ph_rc ph) k) = SQLITE_OK.
Proof.
  intros Hpub Hm Hin Ha (Hrun & Hend & Hp). destruct (drained w ph Hpub Hm Hin Ha Hrun Hend) as [T HT]. exists T. intros k Hk. unfold walBusyLock, poll_attempts. cbn [fst snd].
  apply poll_busy; [intros j; destruct (Hp j) as (_ & M & M' & _ & [(-> & _)|(-> & _)]); [by left|by right]|]. exists T. split; [lia|].
  destruct (Hp T) as (Hle & M & M' & Ht & [(-> & _)|(_ & Hx & _)]); [done|]. destruct Hx as [(h & b & Hne & Hb & Hb')|]; [|done].
  unfold in_op in Hb. cbn [op_ofst op_n] in Hb. destruct (Ht h b Hne) as (i & c & Hc & Eb); [|done|].
  - clear -Hin Hb. unfold waits in Hin. repeat (apply elem_of_cons in Hin as [->|Hin]; [cbn in Hb; unfold WAL_READ_LOCK, WAL_NREADER in *; lia|]). by apply elem_of_nil in Hin.
  - destruct (HT _ _ _ Hle Hc). unfold waits_for. rewrite Eb. exact Hb.
Qed.

(** So are all that are asked for. *)
Lemma all_granted ck ph : published host_big H -> end_marked -> (forall w, w ∈ waits -> asked mode (mxFrame H) info w = true -> phase_ok ck w (ph w)) ->
  exists n, forall k w, (n <= k)%nat -> w ∈ waits -> asked mode (mxFrame H) info w = true -> walBusyLock true (poll_attempts (ph_rc (ph w)) k) = SQLITE_OK.
Proof.
  intros Hpub Hm Hph. assert (G : forall l, l ⊆ waits -> exists n, forall k w, (n <= k)%nat -> w ∈ l -> asked mode (mxFrame H) info w = true ->
    walBusyLock true (poll_attempts (ph_rc (ph w)) k) = SQLITE_OK).
  { induction l as [|w l IH]; intros Hl; [exists 0%nat; intros k w _ Hw; by apply elem_of_nil in Hw|]. destruct IH as [n Hn]; [set_solver|].
    assert (Hw : w ∈ waits) by set_solver. destruct (asked mode (mxFrame H) info w) eqn:Ea.
    - destruct (polls_granted w (ph w) ck Hpub Hm Hw Ea (Hph w Hw Ea)) as [n' Hn']. exists (n `max` n')%nat.
      intros k x Hk [->|Hx]%elem_of_cons Hax; [apply Hn'; lia|apply Hn; [lia|done|done]].
    - exists n. intros k x Hk [->|Hx]%elem_of_cons Hax; [congruence|by apply Hn]. }
  by apply G.
Qed.
End Wait.

(** ** Checkpoints that wait *)

(** The wait of a lock. *)
Definition lock_wait (b n : Z) : wait :=
  if (b =? WAL_READ_LOCK 1) && (n =? WAL_NREADER - 1) then WLog else if b =? WAL_READ_LOCK 0 then WDb else WMark (b - WAL_READ_LOCK 0).

Lemma lock_wait_lock w : w ∈ waits -> lock_wait (fst (wait_lock w)) (snd (wait_lock w)) = w.
Proof. intros Hw. unfold waits in Hw. repeat (apply elem_of_cons in Hw as [->|Hw]; [reflexivity|]). by apply elem_of_nil in Hw. Qed.

(** The call with a busy handler that asks [k] times for another attempt at each of the locks of the
    readers; the results are those of [ph]. *)
Definition patient (e : CkptCall) (ph : wait -> phase) (k : nat) : CkptCall :=
  MkCkptCall (cc_readOnly e) (cc_nBuf e) (cc_lockCkpt e) (cc_lockWrite e) (cc_hdr e)
    (MkEnv (e_mode (cc_env e)) true (fun b n => poll_attempts (ph_rc (ph (lock_wait b n))) k) (e_salt1 (cc_env e)) (e_only_full (cc_env e))).

(** A call in mode FULL, RESTART or TRUNCATE that only the readers can hinder: [H] is the header and the log has
    the pages [ps]. *)
Record only_readers (host_big : bool) (H : WalIndexHdr) (ps : list Z) (slot : Z) (e : CkptCall) (al : alloc) (c : Conn) (v : Recover) (s : Ckpt) : Prop := {
  or_mode : SQLITE_CHECKPOINT_FULL <= e_mode (cc_env e);
  or_write : cc_readOnly e = false;
  or_ckpt : cc_lockCkpt e = SQLITE_OK;
  or_writer : walBusyLock true (cc_lockWrite e) = SQLITE_OK;
  or_mark : end_marked H (rv_info v) slot;
  or_page0 : he_page0 (cc_hdr e) = (SQLITE_OK, true);
  or_copies : he_try1 (cc_hdr e) = (hdr_bytes host_big H, hdr_bytes host_big H);
  or_hdr : published host_big H;
  or_shm : rv_shm v = H;
  or_conn : conn_ok c;
  or_nBuf : hdr_pagesize (hdr_szPage H) = cc_nBuf e;
  or_pre : forall c', cn_hdr c' = H -> ckpt_pre (cc_env e) (rv_pages v) ps (cn_minFrame c) (ckpt_state c' v s);
  or_memory : never_fails al;
  or_clean : rv_io v = [] /\ ck_intr s = [] /\ match ck_cb s with None => True | Some l => Forall (fun rc => rc = SQLITE_OK) l end;
  or_full : match e_only_full (cc_env e) with Some mx => mx = mxFrame H | None => True end;
  or_log : walFrameOffset (mxFrame H + 1) (hdr_pagesize (hdr_szPage H)) <= alen (ck_wal s);
  or_size : nPage H * hdr_pagesize (hdr_szPage H) <= alen (ck_db s) + 65536 + mxFrame H * hdr_pagesize (hdr_szPage H)
}.

Lemma patient_completes bo host_big shmMap H ps slot e al c v s ph k p : only_readers host_big H ps slot e al c v s ->
  (forall w, w ∈ waits -> asked (e_mode (cc_env e)) (mxFrame H) (rv_info v) w = true -> walBusyLock true (poll_attempts (ph_rc (ph w)) k) = SQLITE_OK) ->
  1 <= p <= nPage H ->
  exists r, sqlite3WalCheckpoint bo host_big shmMap (patient e ph k) al c v s = Some r /\ cr_rc r = SQLITE_OK /\ cn_writeLock (cr_conn r) = false /\
    page_data (ck_db (cr_ckpt r)) (hdr_pagesize (hdr_szPage H)) p = view ps (hdr_pagesize (hdr_szPage H)) (ck_wal s) (ck_db s) (nBackfill (rv_info v) + 1) (mxFrame H) p /\
    (if e_mode (cc_env e) =? SQLITE_CHECKPOINT_TRUNCATE then ck_wal (cr_ckpt r) = [] /\ mxFrame (ck_shm (cr_ckpt r)) = 0 else nBackfill (ck_info (cr_ckpt r)) = mxFrame H).
Proof.
  intros [] Hpoll Hp. unfold sqlite3WalCheckpoint, ckpt_writer, ckpt_locked. cbn [patient cc_readOnly cc_lockCkpt cc_lockWrite cc_hdr cc_env cc_nBuf e_mode e_xBusy].
  rewrite or_write0, or_ckpt0. change (SQLITE_OK =? SQLITE_OK) with true. cbn [negb]. rewrite (proj2 (Z.eqb_neq (e_mode (cc_env e)) SQLITE_CHECKPOINT_PASSIVE)) by (unfold SQLITE_CHECKPOINT_FULL, SQLITE_CHECKPOINT_PASSIVE in *; lia).
  rewrite or_writer0. cbv zeta. change (SQLITE_OK =? SQLITE_OK) with true. cbv iota beta. set (c0 := cn_set_write true c).
  destruct (read_published bo host_big shmMap H (cc_hdr e) false c0 v or_hdr0 or_page1 or_copies0 or_conn0) as (ch & sz & ->). cbn [mbind option_bind].
  change (SQLITE_OK =? SQLITE_OK) with true. cbn [negb]. set (c1 := cn_set_hdr H sz c0). change (cn_hdr c1) with H. rewrite or_nBuf0, (Z.eqb_refl (cc_nBuf e)). cbn [negb]. rewrite andb_false_r.
  set (env := set_mode2 _ _ _). set (S := ckpt_state c1 v s).
  destruct (checkpoint_completes bo host_big shmMap env (rv_pages v) ps (cn_minFrame c1) al S p) as (s' & -> & Hpage & Hend).
  - exact (or_pre0 c1 eq_refl).
  - intros w Hw Ha. cbn [env set_mode2 e_xBusy e_locks patient cc_env]. rewrite lock_wait_lock by done. by apply Hpoll.
  - do 3 (split; [done|]). split; [cbn; by rewrite or_shm0|done].
  - done.
  - cbn [mbind option_bind]. change (SQLITE_OK =? SQLITE_OK) with true. cbn [orb andb]. rewrite Z.eqb_refl. cbn [negb]. eexists. split; [reflexivity|]. cbn [cr_rc cr_conn cr_ckpt].
    split; [done|]. split; [by destruct ch|]. split; [|].
    { unfold new_view in Hpage. change (ck_szPage S) with (hdr_pagesize (hdr_szPage H)) in Hpage. cbn [S ckpt_state ck_wal ck_db ck_info ck_shm] in Hpage. by rewrite or_shm0, or_nBuf0 in Hpage. }
    cbn [env set_mode2 e_mode patient cc_env] in Hend. destruct (e_mode (cc_env e) =? SQLITE_CHECKPOINT_TRUNCATE); [by destruct Hend as (? & ? & _)|done].
Qed.

(** C4. A checkpoint in mode FULL, RESTART or TRUNCATE completes in the end.  It waits for up to six locks of readers:
    those of the read marks before the end of the log, that of the readers of the database file, and all those
    of the readers of the log.  During each wait let readers start and end transactions in any order.  If every
    reader that holds a lock that is waited for ends its transaction, then a busy handler that is patient
    enough makes [sqlite3WalCheckpoint] return SQLITE_OK, however many readers keep starting: the database file
    has every page as readers saw it, the log is wholly back-filled and, in mode TRUNCATE, empty, and the
    write lock is given back.  Assumed are: the checkpoint and writer locks are granted, so that the header
    stays the same; files, memory and callbacks do not fail and there is no interrupt; locks on read marks are
    held by readers only; and, unless the log is back-filled already, one of the read marks stands at the end of
    the log, so that readers that start need not move another one. *)
Theorem sqlite3WalCheckpoint_live bo host_big shmMap H ps slot e al c v s ck ph p :
  only_readers host_big H ps slot e al c v s ->
  (forall w, w ∈ waits -> asked (e_mode (cc_env e)) (mxFrame H) (rv_info v) w = true -> phase_ok bo host_big shmMap H (rv_info v) slot ck w (ph w)) ->
  1 <= p <= nPage H ->
  exists n, forall k, (n <= k)%nat ->
  exists r, sqlite3WalCheckpoint bo host_big shmMap (patient e ph k) al c v s = Some r /\ cr_rc r = SQLITE_OK /\ cn_writeLock (cr_conn r) = false /\
    page_data (ck_db (cr_ckpt r)) (hdr_pagesize (hdr_szPage H)) p = view ps (hdr_pagesize (hdr_szPage H)) (ck_wal s) (ck_db s) (nBackfill (rv_info v) + 1) (mxFrame H) p /\
    (if e_mode (cc_env e) =? SQLITE_CHECKPOINT_TRUNCATE then ck_wal (cr_ckpt r) = [] /\ mxFrame (ck_shm (cr_ckpt r)) = 0 else nBackfill (ck_info (cr_ckpt r)) = mxFrame H).
Proof.
  intros Ho Hph Hp. destruct (all_granted bo host_big shmMap H (rv_info v) (e_mode (cc_env e)) slot ck ph) as [n Hn]; [apply Ho|apply Ho|done|].
  exists n. intros k Hk. eapply patient_completes; [done| |done]. intros w Hw Ha. by apply Hn.
Qed.

(** Sample: the log has three frames, read mark 1 is at frame 2 and read mark 2 at the end.  During each wait a
    connection that is waited for ends its transaction after the first attempt, and starts another. *)
Definition live_hdr : WalIndexHdr := Eval vm_compute in default zero_hdr (walIndexWriteHdr false ckpt_hdr).
Definition live_marks : list Z := [0; 2; 3; READMARK_NOT_USED; READMARK_NOT_USED].
Definition live_conn (lock : Z) : Conn := MkConn live_hdr 512 lock 1 false false false false.
Definition live_look : HdrEnv :=
  MkHdrEnv (SQLITE_OK, true) (hdr_bytes false live_hdr, hdr_bytes false live_hdr) SQLITE_OK SQLITE_OK SQLITE_OK ([], []) SQLITE_OK (fun _ => SQLITE_OK) [] (MkPrivate [] []) [].
Definition live_read (w : wait) : ReadEnv :=
  MkReadEnv live_look quiet_unreliable true SQLITE_OK (match w with WLog => 3 | _ => 0 end) SQLITE_OK live_hdr live_marks
    (fun _ => SQLITE_BUSY) (fun _ => SQLITE_OK) 0 (fun i => default 0 (aget live_marks i)) live_hdr.
Definition live_old (w : wait) : Z := match w with WMark i => i | WDb => 0 | WLog => 2 end.
Definition live_new (w : wait) : Z := match w with WLog => 0 | _ => 2 end.
Definition live_phase (w : wait) : phase :=
  MkPhase (fun t => [live_conn (match t with 0%nat => live_old w | 1%nat => -1 | _ => live_new w end)])
    (fun t => match t with 0%nat => REnd 0 | 1%nat => RBegin 0 (live_read w) false 0 quiet_index | _ => RIdle end) id
    (fun j => match j with O => SQLITE_BUSY | S _ => SQLITE_OK end).
Definition live_call : CkptCall :=
  MkCkptCall false 512 SQLITE_OK (SQLITE_OK, []) live_look (MkEnv SQLITE_CHECKPOINT_TRUNCATE true (fun _ _ => (SQLITE_BUSY, [])) [1; 2; 3; 4] None).
Definition live_index (w : WiData) : Recover := MkRecover 512 0 live_hdr live_hdr (MkCkpt 0 live_marks 0) w [].
Definition live_files : Ckpt := ckpt_start [] live_marks.

Lemma live_published : published false live_hdr.
Proof.
  assert (Hwf : hdr_wf ckpt_hdr).
  { split; try done; cbn; unfold is_u32, is_u16; try (cbn; lia). split; [done|]. apply (bool_decide_unpack _). vm_compute. exact I. }
  destruct (write_publishes false ckpt_hdr Hwf) as (h & E & Hp & _). assert (E' : walIndexWriteHdr false ckpt_hdr = Some live_hdr) by (vm_compute; reflexivity). congruence.
Qed.

Lemma live_phase_ok w x : x ∈ [WMark 1; WDb; WLog] -> phase_ok BO_1234 false (fun _ => SQLITE_OK) live_hdr (rv_info (live_index w)) 2 (2, 0%nat) x (live_phase x).
Proof.
  intros Hx. assert (Hc : x = WMark 1 \/ x = WDb \/ x = WLog) by set_solver. clear Hx. split_and!.
  - split; [repeat constructor; apply (pub_wf _ _ live_published)|]. intros [|[|t]]; cbn [live_phase ph_acts ph_run]; [| |by split].
    + split; [done|]. by destruct Hc as [->|[->| ->]].
    + destruct Hc as [->|[->| ->]]; (split; [by split_and!|vm_compute; reflexivity]).
  - intros [|[|t]] i c Hi Hl; apply list_lookup_singleton_Some in Hi as [-> <-]; [by exists 0%nat| |]; destruct Hc as [->|[->| ->]]; vm_compute in Hl; destruct Hl as [A B]; first [discriminate B|by destruct A].
  - intros [|j]; (split; [done|]).
    + set (M := (fun h b => if bool_decide (h = (1, 0%nat)) && (b =? WAL_READ_LOCK (live_old x)) then LShared else LNone) : modes). exists M, M. split.
      * intros h b _ _ Hm. unfold M in Hm. exists 0%nat, (live_conn (live_old x)). split; [done|]. cbn [live_conn cn_readLock].
        destruct (bool_decide (h = (1, 0%nat))), (Z.eqb_spec b (WAL_READ_LOCK (live_old x))) as [E|]; by try rewrite E.
      * right. split_and!; [done| |done]. left. exists (1, 0%nat), (WAL_READ_LOCK (live_old x)). unfold in_op. cbn [op_ofst op_n].
        split_and!; [done|destruct Hc as [->|[->| ->]]; cbn; unfold WAL_READ_LOCK, WAL_NREADER; lia..|]. unfold M. rewrite Z.eqb_refl. done.
    + eexists (fun _ _ => LNone), _. split; [intros h b _ _ Hm; by destruct Hm|]. left. split_and!; [done| |done]. intros (h & b & _ & _ & Hm). by destruct Hm.
Qed.

Lemma live_only w : index_ok w ckpt_pages -> only_readers false live_hdr ckpt_pages 2 live_call [] (live_conn (-1)) (live_index w) live_files.
Proof.
  intros Hw. split; try done; try (apply live_published).
  - split; [done|apply (pub_wf _ _ live_published)].
  - intros c' Ec. destruct (ckpt_start_pre (cc_env live_call) w [] live_marks Hw ltac:(constructor) eq_refl ltac:(repeat constructor; unfold READMARK_NOT_USED; lia) eq_refl) as (H1 & H2 & H3 & H4 & H5 & H6 & H7 & H8).
    split_and!; try done; [|cbn; rewrite Ec; apply (pub_wf _ _ live_published)|cbn; by rewrite Ec]. destruct H4. split; cbn in *; by rewrite ?Ec.
  - constructor.
  - by split_and!; [| |constructor].
Qed.

Lemma sqlite3WalCheckpoint_live_witness : exists w, index_frames (fun _ => SQLITE_OK) ∅ 0 0 ckpt_pages = Some (SQLITE_OK, w) /\
  filter (fun x => asked SQLITE_CHECKPOINT_TRUNCATE 3 (rv_info (live_index w)) x = true) waits = [WMark 1; WDb; WLog] /\
  exists n, forall k, (n <= k)%nat -> exists r, sqlite3WalCheckpoint BO_1234 false (fun _ => SQLITE_OK) (patient live_call live_phase k) [] (live_conn (-1)) (live_index w) live_files = Some r /\
    cr_rc r = SQLITE_OK /\ ck_wal (cr_ckpt r) = [].
Proof.
  destruct ckpt_index as (w & E & Hw). exists w. split; [exact E|]. split; [reflexivity|].
  destruct (sqlite3WalCheckpoint_live BO_1234 false (fun _ => SQLITE_OK) live_hdr ckpt_pages 2 live_call [] (live_conn (-1)) (live_index w) live_files (2, 0%nat) live_phase 1) as [n Hn].
  - exact (live_only w Hw).
  - intros x Hx Ha. apply live_phase_ok. unfold waits in Hx. repeat (apply elem_of_cons in Hx as [->|Hx]; [first [discriminate Ha|clear; set_solver]|]). destruct (proj1 (elem_of_nil x) Hx).
  - cbn. lia.
  - exists n. intros k Hk. destruct (Hn k Hk) as (r & H1 & H2 & _ & _ & H3 & _). exists r. split; [exact H1|]. split; [exact H2|exact H3].
Defined.
