(* ===== verification/BtFree.v ===== *)
(** * Free pages and pointer maps ([src/btree.c])

    The pages of a database that no B-tree uses are on a list: trunk pages, which are
    linked, hold the numbers of leaf pages; page 1 has the first trunk and the
    number of all.  In databases with auto-vacuum, pointer-map pages have an entry of
    five bytes for each page.  The operations run on the state of the pager that they
    use, in a state monad: contents, references and [isInit] flags of the pages.  The
    results of the pager's own work (memory, reads and journalling) are inputs. *)
From S2P Require Import Prelude Bytes FileIO Ints BtBase.

Definition BTALLOC_ANY : Z := 0.
Definition BTALLOC_EXACT : Z := 1.
Definition BTALLOC_LE : Z := 2.
Definition PTRMAP_FREEPAGE : Z := 2.
Definition PENDING_BYTE : Z := 0x40000000.
Definition BTS_SECURE_DELETE : Z := 0x0004.
Definition SQLITE_FULL : Z := 13.

(** [st_hasContent] is the bit vector [pHasContent] by its size and set; [st_io] has the result codes of
    the calls to come of pager and allocator, and SQLITE_OK after its end. *)
Record BtState : Type := MkBtState {
  st_data : gmap Z (list Z);
  st_refs : list Z;
  st_isInit : gset Z;
  st_hasContent : option (Z * gset Z);
  st_nPage : Z;
  st_io : list Z
}.

Definition BtM (A : Type) : Type := BtState -> option (A * BtState).

#[export] Instance BtM_ret : MRet BtM := fun A x s => Some (x, s).
#[export] Instance BtM_bind : MBind BtM := fun A B f m s => match m s with Some (x, s) => f x s | None => None end.

Definition st_get {A} (f : BtState -> A) : BtM A := fun s => Some (f s, s).
Definition st_upd (f : BtState -> BtState) : BtM () := fun s => Some ((), f s).

Definition with_data (d : gmap Z (list Z)) (s : BtState) : BtState := MkBtState d (st_refs s) (st_isInit s) (st_hasContent s) (st_nPage s) (st_io s).
Definition with_refs (l : list Z) (s : BtState) : BtState := MkBtState (st_data s) l (st_isInit s) (st_hasContent s) (st_nPage s) (st_io s).
Definition with_isInit (i : gset Z) (s : BtState) : BtState := MkBtState (st_data s) (st_refs s) i (st_hasContent s) (st_nPage s) (st_io s).
Definition with_hasContent (h : option (Z * gset Z)) (s : BtState) : BtState := MkBtState (st_data s) (st_refs s) (st_isInit s) h (st_nPage s) (st_io s).
Definition with_nPage (n : Z) (s : BtState) : BtState := MkBtState (st_data s) (st_refs s) (st_isInit s) (st_hasContent s) n (st_io s).
Definition with_io (io : list Z) (s : BtState) : BtState := MkBtState (st_data s) (st_refs s) (st_isInit s) (st_hasContent s) (st_nPage s) io.

(** The result of the next call. *)
Definition next_io : BtM Z := fun s => Some (default SQLITE_OK (head (st_io s)), with_io (tail (st_io s)) s).

(** ** Accesses to page images *)

Definition get4byte_at (pgno off : Z) : BtM Z := fun s =>
  d ← st_data s !! pgno; bs ← mread d off 4; v ← load32 true bs; Some (v, s).

Definition memcpy_to (pgno off : Z) (bs : list Z) : BtM () := fun s =>
  d ← st_data s !! pgno; d ← mwrite d off bs; Some ((), with_data (<[pgno := d]> (st_data s)) s).

Definition bytes_at (pgno off n : Z) : BtM (list Z) := fun s =>
  d ← st_data s !! pgno; bs ← mread d off n; Some (bs, s).

Definition put4byte_at (pgno off v : Z) : BtM () := memcpy_to pgno off (store32 true v).

(** [memcpy(&dst->aData[doff], &src->aData[soff], n)]: the two must not overlap. *)
Definition memcpy_pages (dst doff src soff n : Z) : BtM () :=
  if (dst =? src) && (doff <? soff + n) && (soff <? doff + n) then fun _ => None
  else bs ← bytes_at src soff n; memcpy_to dst doff bs.

(** ** The pager *)

Fixpoint unref (p : Z) (l : list Z) : list Z :=
  match l with
  | [] => []
  | q :: l => if q =? p then l else q :: unref p l
  end.

Definition refcount (p : Z) (l : list Z) : Z := alen (filter (fun q => q = p) l).

Definition sqlite3PagerRef (pgno : Z) : BtM () := st_upd (fun s => with_refs (pgno :: st_refs s) s).
Definition releasePage (pgno : Z) : BtM () := st_upd (fun s => with_refs (unref pgno (st_refs s)) s).
Definition releasePageOpt (p : option Z) : BtM () := match p with Some pgno => releasePage pgno | None => mret () end.
Definition set_isInit0 (pgno : Z) : BtM () := st_upd (fun s => with_isInit (st_isInit s ∖ {[pgno]}) s).
Definition sqlite3PagerWrite (pgno : Z) : BtM Z := next_io.

(** The content in the cache stays; it need not be written to the file. *)
Definition sqlite3PagerDontWrite (pgno : Z) : BtM () := mret ().

Section Btree.
Context (bt : BtShared) (mxPgno : Z) (bDoTruncate : bool).

Definition PENDING_BYTE_PAGE : Z := PENDING_BYTE / pageSize bt + 1.

(** The contract of [sqlite3PagerGet]: a page beyond the end of the database, or one whose content is
    not wanted, is zeroed. *)
Definition sqlite3PagerGet (pgno : Z) (noContent : bool) : BtM Z :=
  if pgno =? 0 then mret SQLITE_CORRUPT else
  rc ← next_io;
  if negb (rc =? SQLITE_OK) then mret rc else
  if pgno =? PENDING_BYTE_PAGE then mret SQLITE_CORRUPT else
  old ← st_get (fun s => st_data s !! pgno);
  let fresh := noContent || bool_decide (old = None) in
  if fresh && (pgno >? mxPgno) then mret SQLITE_FULL else
  _ ← st_upd (fun s => with_refs (pgno :: st_refs s) (if fresh then with_data (<[pgno := replicate (Z.to_nat (pageSize bt)) 0]> (st_data s)) s else s));
  mret SQLITE_OK.

Definition btreeGetPage (pgno : Z) (noContent : bool) : BtM Z := sqlite3PagerGet pgno noContent.

Definition btreeGetUnusedPage (pgno : Z) (noContent : bool) : BtM Z :=
  rc ← btreeGetPage pgno noContent;
  if rc =? SQLITE_OK then
    refs ← st_get st_refs;
    if refcount pgno refs >? 1 then _ ← releasePage pgno; mret SQLITE_CORRUPT
    else _ ← set_isInit0 pgno; mret SQLITE_OK
  else mret rc.

Definition btreePagecount : BtM Z := st_get st_nPage.

(** ** Content flags *)

(** [sqlite3BitvecCreate] and [sqlite3BitvecSet] by their contract. *)
Definition btreeSetHasContent (pgno : Z) : BtM Z :=
  nPage ← st_get st_nPage;
  h ← st_get st_hasContent;
  rc ← (match h with
        | Some _ => mret SQLITE_OK
        | None =>
            rc ← next_io;
            if rc =? SQLITE_OK then _ ← st_upd (with_hasContent (Some (nPage, ∅))); mret SQLITE_OK else mret SQLITE_NOMEM
        end : BtM Z);
  h ← st_get st_hasContent;
  match h with
  | Some (sz, X) =>
      if (rc =? SQLITE_OK) && (pgno <=? sz) then
        rc ← next_io;
        if rc =? SQLITE_OK then _ ← st_upd (with_hasContent (Some (sz, {[pgno]} ∪ X))); mret SQLITE_OK else mret rc
      else mret rc
  | None => mret rc
  end.

Definition btreeGetHasContent (pgno : Z) : BtM bool :=
  h ← st_get st_hasContent;
  mret (match h with Some (sz, X) => (pgno >? sz) || bool_decide (pgno ∈ X) | None => false end).

(** ** Pointer maps *)

Definition ptrmapPageno (pgno : Z) : Z :=
  if pgno <? 2 then 0 else
  let nPagesPerMapPage := usableSize bt / 5 + 1 in
  let iPtrMap := (pgno - 2) / nPagesPerMapPage in
  let ret := iPtrMap * nPagesPerMapPage + 2 in
  if ret =? PENDING_BYTE_PAGE then ret + 1 else ret.

Definition PTRMAP_ISPAGE (pgno : Z) : bool := ptrmapPageno pgno =? pgno.
Definition PTRMAP_PTROFFSET (pgptrmap pgno : Z) : Z := i32 (5 * (pgno - pgptrmap - 1)).

(** The result is [*pRC], which is SQLITE_OK on entry. *)
Definition ptrmapPut (key eType parent : Z) : BtM Z :=
  if key =? 0 then mret SQLITE_CORRUPT else
  let iPtrmap := ptrmapPageno key in
  rc ← sqlite3PagerGet iPtrmap false;
  if negb (rc =? SQLITE_OK) then mret rc else
  isInit ← st_get (fun s => bool_decide (iPtrmap ∈ st_isInit s));
  let offset := PTRMAP_PTROFFSET iPtrmap key in
  rc ← (if (isInit : bool) then mret SQLITE_CORRUPT
        else if offset <? 0 then mret SQLITE_CORRUPT
        else
          t ← bytes_at iPtrmap offset 1;
          v ← get4byte_at iPtrmap (offset + 1);
          if negb (bool_decide (t = [eType])) || negb (v =? parent) then
            rc ← sqlite3PagerWrite iPtrmap;
            if rc =? SQLITE_OK then
              _ ← memcpy_to iPtrmap offset [eType];
              _ ← put4byte_at iPtrmap (offset + 1) parent;
              mret rc
            else mret rc
          else mret SQLITE_OK : BtM Z);
  _ ← releasePage iPtrmap;
  mret rc.

(** Result code, type and parent *)
Definition ptrmapGet (key : Z) : BtM (Z * Z * Z) :=
  let iPtrmap := ptrmapPageno key in
  rc ← sqlite3PagerGet iPtrmap false;
  if negb (rc =? SQLITE_OK) then mret (rc, 0, 0) else
  let offset := PTRMAP_PTROFFSET iPtrmap key in
  if offset <? 0 then _ ← releasePage iPtrmap; mret (SQLITE_CORRUPT, 0, 0) else
  t ← bytes_at iPtrmap offset 1;
  v ← get4byte_at iPtrmap (offset + 1);
  _ ← releasePage iPtrmap;
  let eType := default 0 (head t) in
  mret (if (eType <? 1) || (eType >? 5) then SQLITE_CORRUPT else SQLITE_OK, eType, v).

(** ** Giving a page back *)

(** After [freepage_out]: result code, whether [pPage] is set, and [pTrunk]. *)
Definition free_out : Type := Z * bool * option Z.

(** The page becomes the first trunk. *)
Definition free_as_trunk (pPage : bool) (iPage iTrunk : Z) (pTrunk : option Z) : BtM free_out :=
  rc ← (if pPage then mret SQLITE_OK else btreeGetPage iPage false);
  if negb (rc =? SQLITE_OK) then mret (rc, pPage, pTrunk) else
  rc ← sqlite3PagerWrite iPage;
  if negb (rc =? SQLITE_OK) then mret (rc, true, pTrunk) else
  _ ← put4byte_at iPage 0 iTrunk;
  _ ← put4byte_at iPage 4 0;
  _ ← put4byte_at 1 32 iPage;
  mret (SQLITE_OK, true, pTrunk).

(** The page becomes a leaf of the first trunk, if that has room. *)
Definition free_to_trunk (pPage : bool) (iPage nFree : Z) : BtM free_out :=
  if nFree =? 0 then free_as_trunk pPage iPage 0 None else
  iTrunk ← get4byte_at 1 32;
  nPage ← btreePagecount;
  if iTrunk >? nPage then mret (SQLITE_CORRUPT, pPage, None) else
  rc ← btreeGetPage iTrunk false;
  if negb (rc =? SQLITE_OK) then mret (rc, pPage, None) else
  nLeaf ← get4byte_at iTrunk 4;
  if nLeaf >? usableSize bt / 4 - 2 then mret (SQLITE_CORRUPT, pPage, Some iTrunk) else
  if nLeaf <? usableSize bt / 4 - 8 then
    rc ← sqlite3PagerWrite iTrunk;
    if rc =? SQLITE_OK then
      _ ← put4byte_at iTrunk 4 (nLeaf + 1);
      _ ← put4byte_at iTrunk (8 + nLeaf * 4) iPage;
      _ ← (if pPage && (btsFlags bt .& BTS_SECURE_DELETE =? 0) then sqlite3PagerDontWrite iPage else mret ());
      rc ← btreeSetHasContent iPage;
      mret (rc, pPage, Some iTrunk)
    else mret (rc, pPage, Some iTrunk)
  else free_as_trunk pPage iPage iTrunk (Some iTrunk).

Definition free_body (pPage : bool) (iPage : Z) : BtM free_out :=
  rc ← sqlite3PagerWrite 1;
  if negb (rc =? SQLITE_OK) then mret (rc, pPage, None) else
  nFree ← get4byte_at 1 36;
  _ ← put4byte_at 1 36 (u32 (nFree + 1));
  '(rc, pPage) ←
    (if negb (btsFlags bt .& BTS_SECURE_DELETE =? 0) then
       rc ← (if pPage then mret SQLITE_OK else btreeGetPage iPage false);
       if negb (rc =? SQLITE_OK) then mret (rc, pPage) else
       rc ← sqlite3PagerWrite iPage;
       if negb (rc =? SQLITE_OK) then mret (rc, true) else
       _ ← memcpy_to iPage 0 (replicate (Z.to_nat (pageSize bt)) 0);
       mret (SQLITE_OK, true)
     else mret (SQLITE_OK, pPage) : BtM (Z * bool));
  if negb (rc =? SQLITE_OK) then mret (rc, pPage, None) else
  rc ← (if autoVacuum bt then ptrmapPut iPage PTRMAP_FREEPAGE 0 else mret SQLITE_OK);
  if negb (rc =? SQLITE_OK) then mret (rc, pPage, None) else
  free_to_trunk pPage iPage nFree.

(** [pPage]: the caller has the page, or it is in the cache of the pager. *)
Definition freePage2 (pPage : bool) (iPage : Z) : BtM Z :=
  nPage ← st_get st_nPage;
  if (iPage <? 2) || (iPage >? nPage) then mret SQLITE_CORRUPT else
  _ ← (if pPage then sqlite3PagerRef iPage else mret ());
  '(rc, pPage, pTrunk) ← free_body pPage iPage;
  _ ← (if (pPage : bool) then _ ← set_isInit0 iPage; releasePage iPage else mret ());
  _ ← releasePageOpt pTrunk;
  mret rc.

(** The result is [*pRC]. *)
Definition freePage (iPage rc : Z) : BtM Z := if rc =? SQLITE_OK then freePage2 true iPage else mret rc.

(** ** Taking a page *)

(** After [end_allocate_page]: result code, [*pPgno], and [pTrunk] and [pPrevTrunk] to release. *)
Definition alloc_out : Type := Z * Z * option Z * option Z.

(** The next trunk takes the place of the one with number [iTrunk]. *)
Definition unlink_trunk (pPrevTrunk : option Z) (iTrunk : Z) : BtM Z :=
  match pPrevTrunk with
  | None => _ ← memcpy_pages 1 32 iTrunk 0 4; mret SQLITE_OK
  | Some pPrev =>
      rc ← sqlite3PagerWrite pPrev;
      if rc =? SQLITE_OK then _ ← memcpy_pages pPrev 0 iTrunk 0 4; mret SQLITE_OK else mret rc
  end.

(** The first leaf of the trunk takes its place. *)
Definition promote_leaf (pPrevTrunk : option Z) (mxPage iTrunk k : Z) : BtM Z :=
  iNewTrunk ← get4byte_at iTrunk 8;
  if iNewTrunk >? mxPage then mret SQLITE_CORRUPT else
  rc ← btreeGetUnusedPage iNewTrunk false;
  if negb (rc =? SQLITE_OK) then mret rc else
  rc ← sqlite3PagerWrite iNewTrunk;
  if negb (rc =? SQLITE_OK) then _ ← releasePage iNewTrunk; mret rc else
  _ ← memcpy_pages iNewTrunk 0 iTrunk 0 4;
  _ ← put4byte_at iNewTrunk 4 (k - 1);
  _ ← memcpy_pages iNewTrunk 8 iTrunk 12 ((k - 1) * 4);
  _ ← releasePage iNewTrunk;
  match pPrevTrunk with
  | None => _ ← put4byte_at 1 32 iNewTrunk; mret SQLITE_OK
  | Some pPrev =>
      rc ← sqlite3PagerWrite pPrev;
      if rc =? SQLITE_OK then _ ← put4byte_at pPrev 0 iNewTrunk; mret SQLITE_OK else mret rc
  end.

(** [for(i=0; i<k; i++) if( iPage<=nearby )]: [fuel] is the number of leaves left *)
Fixpoint first_le (fuel : nat) (iTrunk nearby i : Z) : BtM Z :=
  match fuel with
  | O => mret 0
  | S fuel => iPage ← get4byte_at iTrunk (8 + i * 4); if iPage <=? nearby then mret i else first_le fuel iTrunk nearby (i + 1)
  end.

(** [for(i=1; i<k; i++) if( d2<dist )] *)
Fixpoint nearest (fuel : nat) (iTrunk nearby i closest dist : Z) : BtM Z :=
  match fuel with
  | O => mret closest
  | S fuel =>
      v ← get4byte_at iTrunk (8 + i * 4);
      let d2 := sqlite3AbsInt32 (i32 (v - nearby)) in
      if d2 <? dist then nearest fuel iTrunk nearby (i + 1) i d2 else nearest fuel iTrunk nearby (i + 1) closest dist
  end.

Definition closest_leaf (iTrunk k nearby eMode : Z) : BtM Z :=
  if nearby >? 0 then
    if eMode =? BTALLOC_LE then first_le (Z.to_nat k) iTrunk nearby 0
    else v ← get4byte_at iTrunk 8; nearest (Z.to_nat (k - 1)) iTrunk nearby 1 0 (sqlite3AbsInt32 (i32 (v - nearby)))
  else mret 0.

(** Leaf [closest] with number [iPage] is taken from the trunk. *)
Definition take_leaf (iTrunk k closest iPage : Z) : BtM Z :=
  rc ← sqlite3PagerWrite iTrunk;
  if negb (rc =? SQLITE_OK) then mret rc else
  _ ← (if closest <? k - 1 then memcpy_pages iTrunk (8 + closest * 4) iTrunk (4 + k * 4) 4 else mret ());
  _ ← put4byte_at iTrunk 4 (k - 1);
  has ← btreeGetHasContent iPage;
  rc ← btreeGetUnusedPage iPage (negb has);
  if rc =? SQLITE_OK then
    rc ← sqlite3PagerWrite iPage;
    if rc =? SQLITE_OK then mret rc else _ ← releasePage iPage; mret rc
  else mret rc.

(** [do { ... } while( searchList )]; [n] is the number of free pages *)
Fixpoint alloc_loop (fuel : nat) (n mxPage nearby eMode : Z) (searchList : bool) (nSearch : Z) (pTrunk : option Z) : BtM alloc_out :=
  match fuel with
  | O => fun _ => None
  | S fuel =>
      let pPrevTrunk := pTrunk in
      iTrunk ← (match pPrevTrunk with Some p => get4byte_at p 0 | None => get4byte_at 1 32 end : BtM Z);
      rc ← (if (iTrunk >? mxPage) || (nSearch >? n) then mret SQLITE_CORRUPT else btreeGetUnusedPage iTrunk false : BtM Z);
      if negb (rc =? SQLITE_OK) then mret (rc, 0, None, pPrevTrunk) else
      k ← get4byte_at iTrunk 4;
      if (k =? 0) && negb searchList then
        rc ← sqlite3PagerWrite iTrunk;
        if negb (rc =? SQLITE_OK) then mret (rc, 0, Some iTrunk, pPrevTrunk) else
        _ ← memcpy_pages 1 32 iTrunk 0 4;
        mret (SQLITE_OK, iTrunk, None, pPrevTrunk)
      else if k >? usableSize bt / 4 - 2 then mret (SQLITE_CORRUPT, 0, Some iTrunk, pPrevTrunk)
      else if searchList && ((nearby =? iTrunk) || (iTrunk <? nearby) && (eMode =? BTALLOC_LE)) then
        rc ← sqlite3PagerWrite iTrunk;
        if negb (rc =? SQLITE_OK) then mret (rc, 0, Some iTrunk, pPrevTrunk) else
        rc ← (if k =? 0 then unlink_trunk pPrevTrunk iTrunk else promote_leaf pPrevTrunk mxPage iTrunk k);
        if negb (rc =? SQLITE_OK) then mret (rc, 0, Some iTrunk, pPrevTrunk) else
        mret (SQLITE_OK, iTrunk, None, pPrevTrunk)
      else if k >? 0 then
        closest ← closest_leaf iTrunk k nearby eMode;
        iPage ← get4byte_at iTrunk (8 + closest * 4);
        if (iPage >? mxPage) || (iPage <? 2) then mret (SQLITE_CORRUPT, 0, Some iTrunk, pPrevTrunk)
        else if negb searchList || (iPage =? nearby) || (iPage <? nearby) && (eMode =? BTALLOC_LE) then
          rc ← take_leaf iTrunk k closest iPage;
          mret (rc, iPage, Some iTrunk, pPrevTrunk)
        else
          _ ← releasePageOpt pPrevTrunk;
          alloc_loop fuel n mxPage nearby eMode searchList (nSearch + 1) (Some iTrunk)
      else
        _ ← releasePageOpt pPrevTrunk;
        alloc_loop fuel n mxPage nearby eMode searchList (nSearch + 1) (Some iTrunk)
  end.

(** Whether the list is to be searched for [nearby] *)
Definition alloc_search (mxPage nearby eMode : Z) : BtM (Z * bool) :=
  if eMode =? BTALLOC_EXACT then
    if nearby <=? mxPage then
      '(rc, eType, _) ← ptrmapGet nearby;
      if negb (rc =? SQLITE_OK) then mret (rc, false) else mret (SQLITE_OK, eType =? PTRMAP_FREEPAGE)
    else mret (SQLITE_OK, false)
  else mret (SQLITE_OK, eMode =? BTALLOC_LE).

Definition alloc_free (n mxPage nearby eMode : Z) : BtM (Z * Z) :=
  '(rc, searchList) ← alloc_search mxPage nearby eMode;
  if negb (rc =? SQLITE_OK) then mret (rc, 0) else
  rc ← sqlite3PagerWrite 1;
  if negb (rc =? SQLITE_OK) then mret (rc, 0) else
  _ ← put4byte_at 1 36 (n - 1);
  '(rc, pgno, pTrunk, pPrevTrunk) ← alloc_loop (Z.to_nat (n + 2)) n mxPage nearby eMode searchList 0 None;
  _ ← releasePageOpt pTrunk;
  _ ← releasePageOpt pPrevTrunk;
  mret (rc, pgno).

(** [pBt->nPage++; if( pBt->nPage==PENDING_BYTE_PAGE(pBt) ) pBt->nPage++] *)
Definition bump_nPage : BtM Z := fun s =>
  let n := u32 (st_nPage s + 1) in
  let n := if n =? PENDING_BYTE_PAGE then u32 (n + 1) else n in
  Some (n, with_nPage n s).

(** The page [pgno] with a reference, to be written *)
Definition get_to_write (pgno : Z) (noContent : bool) : BtM Z :=
  rc ← btreeGetUnusedPage pgno noContent;
  if negb (rc =? SQLITE_OK) then mret rc else
  rc ← sqlite3PagerWrite pgno;
  if rc =? SQLITE_OK then mret rc else _ ← releasePage pgno; mret rc.

Definition alloc_append : BtM (Z * Z) :=
  let bNoContent := negb bDoTruncate in
  rc ← sqlite3PagerWrite 1;
  if negb (rc =? SQLITE_OK) then mret (rc, 0) else
  nPage ← bump_nPage;
  '(rc, nPage) ←
    (if autoVacuum bt && PTRMAP_ISPAGE nPage then
       rc ← get_to_write nPage bNoContent;
       if negb (rc =? SQLITE_OK) then mret (rc, nPage) else
       _ ← releasePage nPage;
       nPage ← bump_nPage;
       mret (SQLITE_OK, nPage)
     else mret (SQLITE_OK, nPage) : BtM (Z * Z));
  if negb (rc =? SQLITE_OK) then mret (rc, 0) else
  _ ← put4byte_at 1 28 nPage;
  rc ← get_to_write nPage bNoContent;
  mret (rc, nPage).

(** Result code and [*pPgno]; with SQLITE_OK the caller has a reference to the page. *)
Definition allocateBtreePage (nearby eMode : Z) : BtM (Z * Z) :=
  mxPage ← btreePagecount;
  n ← get4byte_at 1 36;
  if n >=? mxPage then mret (SQLITE_CORRUPT, 0)
  else if n >? 0 then alloc_free n mxPage nearby eMode
  else alloc_append.
End Btree.
