(* ===== verification/BtFreeWp.v ===== *)
(** * Free pages: rules for the operations, and corrupt lists

    Total correctness of programs of the monad: [wp m Q s] says that [m] returns from [s], without an
    access outside of a page, in a state and with a result of [Q].  With its rules it is
    shown that whatever bytes the pages have, all operations of [BtFree.v] return, keep the
    shape of the store and give all references back. *)
From S2P Require Import Prelude Bytes FileIO Ints BtBase BtFree.

(** ** Weakest preconditions *)

Definition wp {A} (m : BtM A) (Q : A -> BtState -> Prop) (s : BtState) : Prop := exists x s', m s = Some (x, s') /\ Q x s'.

Lemma wp_ret {A} (x : A) Q s : Q x s -> wp (mret x) Q s.
Proof. intros H. by exists x, s. Qed.

Lemma wp_bind {A B} (m : BtM A) (f : A -> BtM B) Q s : wp m (fun x s' => wp (f x) Q s') s -> wp (m ≫= f) Q s.
Proof. intros (x & s1 & E & y & s2 & E' & H). exists y, s2. split; [|done]. unfold mbind, BtM_bind. by rewrite E. Qed.

Lemma wp_mono {A} (m : BtM A) (P Q : A -> BtState -> Prop) s : wp m P s -> (forall x s', P x s' -> Q x s') -> wp m Q s.
Proof. intros (x & s1 & E & H) HPQ. exists x, s1. auto. Qed.

Lemma wp_get {A} (f : BtState -> A) Q s : Q (f s) s -> wp (st_get f) Q s.
Proof. intros H. by eexists _, _. Qed.

Lemma wp_upd f Q s : Q () (f s) -> wp (st_upd f) Q s.
Proof. intros H. by eexists _, _. Qed.

Lemma wp_io Q s : (forall rc io, st_io s = rc :: io \/ rc = SQLITE_OK /\ io = [] /\ st_io s = [] -> Q rc (with_io io s)) -> wp next_io Q s.
Proof. intros H. eexists _, _. split; [reflexivity|]. apply H. destruct (st_io s); [by right|by left]. Qed.

(** The next operation of a sequence, by its rule. *)
Ltac wp_step H := apply wp_bind; eapply wp_mono; [apply H|cbv beta].
Ltac wp_last H := eapply wp_mono; [apply H|cbv beta].

(** ** Words of a page *)

Definition word (d : list Z) (off : Z) : Z := ((fbyte d off * 256 + fbyte d (off + 1)) * 256 + fbyte d (off + 2)) * 256 + fbyte d (off + 3).

Lemma load_word d off : load32 true (fread d off 4) = Some (word d off).
Proof.
  assert (E : seqZ off 4 = [off; off + 1; off + 2; off + 3]) by (unfold seqZ; cbn; repeat (apply (f_equal2 cons); [lia|]); done). unfold fread. rewrite E. reflexivity.
Qed.

Lemma word_u32 d off : Forall is_u8 d -> is_u32 (word d off).
Proof.
  intros H. unfold word, is_u32. pose proof (fbyte_u8 d off H). pose proof (fbyte_u8 d (off + 1) H). pose proof (fbyte_u8 d (off + 2) H). pose proof (fbyte_u8 d (off + 3) H).
  unfold is_u8 in *. lia.
Qed.

Lemma alen_store32 v : alen (store32 true v) = 4.
Proof. done. Qed.

Lemma word_put_same d off v : 0 <= off -> is_u32 v -> word (fwrite d off (store32 true v)) off = v.
Proof.
  intros Ho Hv. assert (E : load32 true (fread (fwrite d off (store32 true v)) off 4) = Some v).
  { rewrite <- (alen_store32 v), fread_write_same by done. rewrite <- (app_nil_r (store32 true v)). by apply load_store. }
  rewrite load_word in E. by injection E.
Qed.

Lemma word_write_other d off bs off' : 0 <= off -> 0 <= off' -> off' + 4 <= off \/ off + alen bs <= off' -> word (fwrite d off bs) off' = word d off'.
Proof.
  intros Ho Ho' Hd. pose proof (load_word (fwrite d off bs) off') as E. rewrite fread_write_other, load_word in E by done. by injection E.
Qed.

(** A copy of whole words. *)
Lemma word_copy d off e off' n i : 0 <= off -> 0 <= off' -> 0 <= i -> i + 4 <= n -> word (fwrite d off (fread e off' n)) (off + i) = word e (off' + i).
Proof.
  intros Ho Ho' Hi Hn. unfold word. assert (E : forall j, i <= j < i + 4 -> fbyte (fwrite d off (fread e off' n)) (off + j) = fbyte e (off' + j)).
  { intros j Hj. rewrite fbyte_write, alen_fread by lia. rewrite (proj2 (Z.leb_le off (off + j))), (proj2 (Z.ltb_lt (off + j) (off + n))) by lia. cbn [andb]. rewrite fbyte_fread by lia. f_equal. lia. }
  rewrite (E i), <- !Z.add_assoc, (E (i + 1)), (E (i + 2)), (E (i + 3)) by lia. by rewrite !Z.add_assoc.
Qed.

(** ** Accesses *)

Lemma wp_get4 p off d Q s : st_data s !! p = Some d -> 0 <= off -> off + 4 <= alen d -> Q (word d off) s -> wp (get4byte_at p off) Q s.
Proof. intros Hd Ho Hl H. exists (word d off), s. split; [|done]. unfold get4byte_at. rewrite Hd. cbn [mbind option_bind]. rewrite mread_ok by lia. cbn [mbind option_bind]. by rewrite load_word. Qed.

Lemma wp_bytes p off n d Q s : st_data s !! p = Some d -> 0 <= off -> 0 <= n -> off + n <= alen d -> Q (fread d off n) s -> wp (bytes_at p off n) Q s.
Proof. intros Hd Ho Hn Hl H. eexists _, s. split; [|exact H]. unfold bytes_at. rewrite Hd. cbn [mbind option_bind]. by rewrite mread_ok by lia. Qed.

Definition put_page (p : Z) (d : list Z) (s : BtState) : BtState := with_data (<[p := d]> (st_data s)) s.

Lemma wp_memcpy p off bs d Q s : st_data s !! p = Some d -> 0 <= off -> off + alen bs <= alen d -> Q () (put_page p (fwrite d off bs) s) -> wp (memcpy_to p off bs) Q s.
Proof.
  intros Hd Ho Hl H. eexists _, _. split; [|exact H]. unfold memcpy_to. rewrite Hd. cbn [mbind option_bind]. unfold mwrite. rewrite (proj2 (Z.leb_le 0 off)), (proj2 (Z.leb_le (off + alen bs) (alen d))) by lia. done.
Qed.

Lemma wp_put4 p off v d Q s : st_data s !! p = Some d -> 0 <= off -> off + 4 <= alen d -> Q () (put_page p (fwrite d off (store32 true v)) s) -> wp (put4byte_at p off v) Q s.
Proof. intros Hd Ho Hl H. by eapply wp_memcpy; [exact Hd|done|rewrite alen_store32; lia|]. Qed.

Definition cp_apart (dst doff src soff n : Z) : Prop := dst <> src \/ soff + n <= doff \/ doff + n <= soff.

Lemma memcpy_apart dst doff src soff n : cp_apart dst doff src soff n -> memcpy_pages dst doff src soff n = bs ← bytes_at src soff n; memcpy_to dst doff bs.
Proof. intros H. unfold memcpy_pages. destruct (Z.eqb_spec dst src), (Z.ltb_spec doff (soff + n)), (Z.ltb_spec soff (doff + n)); cbn [andb]; try done. unfold cp_apart in H. lia. Qed.

Lemma wp_copy dst doff src soff n d e Q s : cp_apart dst doff src soff n -> st_data s !! dst = Some d -> st_data s !! src = Some e -> 0 <= doff -> 0 <= soff -> 0 <= n -> doff + n <= alen d -> soff + n <= alen e ->
  Q () (put_page dst (fwrite d doff (fread e soff n)) s) -> wp (memcpy_pages dst doff src soff n) Q s.
Proof. intros Ha Hd He H1 H2 H3 H4 H5 H. rewrite memcpy_apart by done. apply wp_bind. eapply wp_bytes; [exact He|done..|]. eapply wp_memcpy; [exact Hd|done|rewrite alen_fread; lia|done]. Qed.

(** ** The shape of the store *)

Section Safe.
Context (bt : BtShared) (mxPgno : Z) (bDoTruncate : bool).

Record conf_ok : Prop := {
  cf_page : 512 <= pageSize bt <= 65536;
  cf_usable : 480 <= usableSize bt <= pageSize bt
}.

Record pages_ok (s : BtState) : Prop := {
  so_page1 : is_Some (st_data s !! 1);
  so_ref1 : 1 ∈ st_refs s;
  so_size : forall p d, st_data s !! p = Some d -> alen d = pageSize bt /\ Forall is_u8 d;
  so_refd : forall p, p ∈ st_refs s -> is_Some (st_data s !! p);
  so_nPage : is_u32 (st_nPage s)
}.

(** From [s0] on the references [l] were added. *)
Record refs_added (s0 : BtState) (l : list Z) (s : BtState) : Prop := {
  ad_ok : pages_ok s;
  ad_refs : st_refs s ≡ₚ l ++ st_refs s0
}.

Context (Hcf : conf_ok) (s0 : BtState).

Lemma unref_perm p l k : l ≡ₚ p :: k -> unref p l ≡ₚ k.
Proof.
  revert k. induction l as [|q l IH]; intros k E; cbn [unref]; [by apply Permutation_nil_cons in E|]. destruct (Z.eqb_spec q p) as [->|Hne]; [by apply Permutation_cons_inv in E|].
  assert (Hp : p ∈ l). { assert (p ∈ q :: l) as [?|?]%elem_of_cons by (rewrite E; left); done. }
  apply elem_of_Permutation in Hp as [k' Hk']. rewrite Hk' in E. assert (Ek : q :: k' ≡ₚ k) by (apply (Permutation_cons_inv (a := p)); rewrite <- E; constructor).
  rewrite (IH k' Hk'). done.
Qed.

Lemma refcount_elem p l : 0 < refcount p l <-> p ∈ l.
Proof.
  unfold refcount. split.
  - intros H. destruct (filter (fun q => q = p) l) as [|x k] eqn:E; [done|]. assert (Hx : x ∈ filter (fun q => q = p) l) by (rewrite E; left). apply list_elem_of_filter in Hx as [-> ?]. done.
  - intros Hp. assert (Hx : p ∈ filter (fun q => q = p) l) by by apply list_elem_of_filter. destruct (filter _ l); [by apply not_elem_of_nil in Hx|]. rewrite alen_cons. pose proof (alen_nonneg l0). lia.
Qed.

Lemma refcount_cons p q l : refcount p (q :: l) = (if q =? p then 1 else 0) + refcount p l.
Proof. unfold refcount. rewrite filter_cons. destruct (Z.eqb_spec q p); [rewrite decide_True by done; rewrite alen_cons; lia|by rewrite decide_False by done]. Qed.

#[export] Instance refcount_proper p : Proper (Permutation ==> eq) (refcount p).
Proof. intros l k H. induction H; rewrite ?refcount_cons; lia. Qed.

Definition held_page (l : list Z) (p : Z) : Prop := p = 1 \/ p ∈ l.

Section Rules.
Context (l : list Z) (s : BtState) (HA : refs_added s0 l s) (H1 : 1 ∈ st_refs s0).

Lemma held_data p : held_page l p -> exists d, st_data s !! p = Some d /\ alen d = pageSize bt /\ Forall is_u8 d.
Proof.
  intros Hp. assert (is_Some (st_data s !! p)) as [d Hd].
  { destruct Hp as [->|Hp]; [apply HA|]. apply (so_refd _ (ad_ok _ _ _ HA)). rewrite (ad_refs _ _ _ HA). apply elem_of_app. by left. }
  exists d. split; [done|]. by apply (so_size _ (ad_ok _ _ _ HA) p).
Qed.

Lemma added_same s' : st_data s' = st_data s -> st_refs s' = st_refs s -> st_nPage s' = st_nPage s -> refs_added s0 l s'.
Proof. intros E1 E2 E3. destruct HA as [[] ?]. split; [split|]; rewrite ?E1, ?E2, ?E3; done. Qed.

Lemma safe_io : wp next_io (fun rc s' => refs_added s0 l s') s.
Proof. apply wp_io. intros rc io _. by apply added_same. Qed.

Lemma safe_get4 p off : held_page l p -> 0 <= off -> off + 4 <= pageSize bt -> wp (get4byte_at p off) (fun v s' => is_u32 v /\ refs_added s0 l s') s.
Proof. intros Hp Ho Hl. destruct (held_data p Hp) as (d & Hd & Ed & Hu). eapply wp_get4; [exact Hd|done|lia|]. split; [by apply word_u32|done]. Qed.

Lemma added_page p d : held_page l p -> alen d = pageSize bt -> Forall is_u8 d -> refs_added s0 l (put_page p d s).
Proof.
  intros Hp Hl Hu. destruct HA as [[P1 P2 P3 P4 P5] Hr]. split; [|done]. assert (Hs : forall q, is_Some (st_data s !! q) -> is_Some (<[p := d]> (st_data s) !! q)).
  { intros q Hq. destruct (decide (q = p)) as [->|]; [by rewrite lookup_insert_eq|]. by rewrite lookup_insert_ne. }
  split; cbn [put_page with_data st_data st_refs st_nPage]; auto.
  intros q x [[<- <-]|[_ Hx]]%lookup_insert_Some; [done|]. by eapply P3.
Qed.

Lemma safe_memcpy p off bs : held_page l p -> 0 <= off -> off + alen bs <= pageSize bt -> Forall is_u8 bs -> wp (memcpy_to p off bs) (fun _ s' => refs_added s0 l s') s.
Proof.
  intros Hp Ho Hl Hb. destruct (held_data p Hp) as (d & Hd & Ed & Hu). eapply wp_memcpy; [exact Hd|done|lia|]. apply added_page; [done|rewrite alen_write; lia|by apply fwrite_u8].
Qed.

Lemma safe_put4 p off v : held_page l p -> 0 <= off -> off + 4 <= pageSize bt -> wp (put4byte_at p off v) (fun _ s' => refs_added s0 l s') s.
Proof. intros. apply safe_memcpy; [done|done|done|apply store32_bytes]. Qed.

Lemma safe_bytes p off n : held_page l p -> 0 <= off -> 0 <= n -> off + n <= pageSize bt -> wp (bytes_at p off n) (fun bs s' => alen bs = n /\ Forall is_u8 bs /\ refs_added s0 l s') s.
Proof. intros Hp Ho Hn Hl. destruct (held_data p Hp) as (d & Hd & Ed & Hu). eapply wp_bytes; [exact Hd|done|done|lia|]. split; [by apply alen_fread|]. split; [by apply fread_u8|done]. Qed.
End Rules.

Lemma safe_copy l s dst doff src soff n : refs_added s0 l s -> cp_apart dst doff src soff n -> held_page l dst -> held_page l src -> 0 <= doff -> 0 <= soff -> 0 <= n -> doff + n <= pageSize bt -> soff + n <= pageSize bt ->
  wp (memcpy_pages dst doff src soff n) (fun _ s' => refs_added s0 l s') s.
Proof. intros. rewrite memcpy_apart by done. apply wp_bind. eapply wp_mono; [by apply (safe_bytes l)|]. intros bs s' (Hb & Hu & HA'). apply (safe_memcpy l); [done|done|done|lia|done]. Qed.

Lemma safe_release l l' s p : refs_added s0 l s -> l ≡ₚ p :: l' -> 1 ∈ st_refs s0 -> wp (releasePage p) (fun _ s' => refs_added s0 l' s') s.
Proof.
  intros [[P1 P2 P3 P4 P5] Hr] Hl H1. apply wp_upd. assert (E : unref p (st_refs s) ≡ₚ l' ++ st_refs s0) by (apply unref_perm; by rewrite Hr, Hl).
  split; [|done]. split; cbn [with_refs st_data st_refs st_nPage]; try done.
  - rewrite E. apply elem_of_app. by right.
  - intros q Hq. apply P4. rewrite E in Hq. rewrite Hr, Hl. by right.
Qed.

Lemma safe_isInit l s p : refs_added s0 l s -> wp (set_isInit0 p) (fun _ s' => refs_added s0 l s') s.
Proof. intros HA. apply wp_upd. by apply (added_same l s). Qed.

Lemma added_cons l s s' p : refs_added s0 l s -> (forall q, is_Some (st_data s !! q) -> is_Some (st_data s' !! q)) -> is_Some (st_data s' !! p) ->
  (forall q d, st_data s' !! q = Some d -> alen d = pageSize bt /\ Forall is_u8 d) -> st_refs s' = p :: st_refs s -> st_nPage s' = st_nPage s -> refs_added s0 (p :: l) s'.
Proof.
  intros [[P1 P2 P3 P4 P5] Hr] Hs Hp Hz Er En. split; [split|]; rewrite ?Er, ?En.
  - by apply Hs.
  - by right.
  - exact Hz.
  - intros q [->|Hq]%elem_of_cons; [done|by apply Hs, P4].
  - done.
  - by rewrite Hr.
Qed.

Lemma safe_ref l s p : refs_added s0 l s -> is_Some (st_data s !! p) -> wp (sqlite3PagerRef p) (fun _ s' => refs_added s0 (p :: l) s') s.
Proof. intros HA Hp. apply wp_upd. apply (added_cons l s); [done|done|done|apply HA|done|done]. Qed.

Lemma replicate_u8 n : Forall is_u8 (replicate n 0).
Proof. apply Forall_replicate. by unfold is_u8. Qed.

Lemma alen_zero_page : alen (replicate (Z.to_nat (pageSize bt)) 0) = pageSize bt.
Proof. destruct Hcf as [? _]. unfold alen. rewrite length_replicate. lia. Qed.

Lemma safe_get l s p nc : refs_added s0 l s -> wp (btreeGetPage bt mxPgno p nc) (fun rc s' => refs_added s0 (if rc =? SQLITE_OK then p :: l else l) s') s.
Proof.
  intros HA. unfold btreeGetPage, sqlite3PagerGet. destruct (Z.eqb_spec p 0); [by apply wp_ret|]. apply wp_bind. eapply wp_mono; [by apply (safe_io l)|]. intros rc s1 HA1.
  destruct (rc =? SQLITE_OK) eqn:Erc; cbn [negb]; [|apply wp_ret; by rewrite Erc]. destruct (p =? PENDING_BYTE_PAGE bt); [by apply wp_ret|]. apply wp_bind, wp_get.
  destruct (_ && _); [by apply wp_ret|]. apply wp_bind, wp_upd, wp_ret. change (SQLITE_OK =? SQLITE_OK) with true. cbv iota.
  apply (added_cons l s1); [done|..]; destruct (nc || bool_decide (st_data s1 !! p = None)) eqn:Ef; try done; cbn [with_refs with_data st_data].
  - intros q Hq. destruct (decide (q = p)) as [->|]; [by rewrite lookup_insert_eq|by rewrite lookup_insert_ne].
  - by rewrite lookup_insert_eq.
  - apply orb_false_iff in Ef as [_ Ef%bool_decide_eq_false]. by apply not_eq_None_Some.
  - intros q x [[<- <-]|[_ Hx]]%lookup_insert_Some; [split; [apply alen_zero_page|apply replicate_u8]|by eapply HA1].
  - apply HA1.
Qed.

Lemma safe_unused l s p nc : refs_added s0 l s -> 1 ∈ st_refs s0 -> wp (btreeGetUnusedPage bt mxPgno p nc) (fun rc s' => refs_added s0 (if rc =? SQLITE_OK then p :: l else l) s' /\ (rc = SQLITE_OK -> p ∉ l ++ st_refs s0)) s.
Proof.
  intros HA H1. unfold btreeGetUnusedPage. apply wp_bind. eapply wp_mono; [by apply (safe_get l)|]. intros rc s1. cbv beta. destruct (rc =? SQLITE_OK) eqn:Erc; intros HA1; [|apply wp_ret; rewrite Erc; split; [exact HA1|]; intros ->; discriminate Erc].
  apply wp_bind, wp_get. destruct (refcount p (st_refs s1) >? 1) eqn:Ec.
  - apply wp_bind. eapply wp_mono; [by apply (safe_release (p :: l) l)|]. intros [] s2 HA2. by apply wp_ret.
  - apply wp_bind. eapply wp_mono; [by apply (safe_isInit (p :: l))|]. intros [] s2 HA2. apply wp_ret. split; [done|]. intros _ Hp. rewrite Z.gtb_ltb, Z.ltb_ge in Ec. apply refcount_elem in Hp.
    assert (E : refcount p (st_refs s1) = 1 + refcount p (l ++ st_refs s0)); [|lia]. rewrite (ad_refs _ _ _ HA1). cbn [app]. rewrite refcount_cons, Z.eqb_refl. done.
Qed.

(** ** Pointer maps and giving pages back, with any content *)

Context (H1 : 1 ∈ st_refs s0).

Lemma ptrmap_offset key : 2 <= key < 2 ^ 32 -> let off := PTRMAP_PTROFFSET (ptrmapPageno bt key) key in -10 <= off <= pageSize bt - 5.
Proof.
  intros Hk. destruct Hcf as [Hp Hu]. unfold ptrmapPageno. rewrite (proj2 (Z.ltb_ge key 2)) by lia. cbv zeta. set (N := usableSize bt / 5 + 1). set (q := (key - 2) / N). set (r := q * N + 2).
  assert (HN : 5 * (N - 1) <= usableSize bt) by (subst N; pose proof (Z.mul_div_le (usableSize bt) 5); lia). assert (0 < N) by (subst N; pose proof (Z.div_pos (usableSize bt) 5); lia).
  assert (Hr : r <= key < r + N). { subst r q. pose proof (Z.mul_div_le (key - 2) N). pose proof (Z.mul_succ_div_gt (key - 2) N). lia. }
  assert (G : forall x, r <= x <= r + 1 -> -10 <= PTRMAP_PTROFFSET x key <= pageSize bt - 5); [|destruct (r =? PENDING_BYTE_PAGE bt); apply G; lia].
  intros x Hx. unfold PTRMAP_PTROFFSET. rewrite i32_id; lia.
Qed.

Lemma ptrmapPageno_low key : key < 2 -> ptrmapPageno bt key = 0.
Proof. intros H. unfold ptrmapPageno. by rewrite (proj2 (Z.ltb_lt key 2)). Qed.

Lemma safe_get0 {A} (f : Z -> BtM A) Q s : wp (f SQLITE_CORRUPT) Q s -> wp (sqlite3PagerGet bt mxPgno 0 false ≫= f) Q s.
Proof. intros H. by apply wp_bind, wp_ret. Qed.

Lemma safe_ptrmapPut l s key eType parent : refs_added s0 l s -> is_u32 key -> is_u8 eType -> wp (ptrmapPut bt mxPgno key eType parent) (fun _ s' => refs_added s0 l s') s.
Proof.
  intros HA Hk Ht. unfold ptrmapPut. destruct (key =? 0); [by apply wp_ret|]. cbv zeta. destruct (Z.ltb_spec key 2) as [Hlt|Hge]; [rewrite ptrmapPageno_low by done; apply safe_get0; by apply wp_ret|].
  pose proof (ptrmap_offset key) as Hoff. cbv zeta in Hoff. set (pm := ptrmapPageno bt key) in *. unfold is_u32 in Hk. wp_step (safe_get l); [done|]. intros rc s1.
  destruct (rc =? SQLITE_OK) eqn:Erc; cbn [negb]; intros HA1; [|by apply wp_ret]. apply wp_bind, wp_get. apply wp_bind.
  eapply (wp_mono _ (fun _ s' => refs_added s0 (pm :: l) s')); [|intros rc' s2 HA2; cbv beta; wp_step (safe_release (pm :: l) l); [done|done|done|]; intros [] s3 HA3; by apply wp_ret].
  destruct (bool_decide _); [by apply wp_ret|]. destruct (Z.ltb_spec (PTRMAP_PTROFFSET pm key) 0); [by apply wp_ret|]. assert (Hh : held_page (pm :: l) pm) by (right; left).
  wp_step (safe_bytes (pm :: l)); [done|done|done|lia|lia|]. intros t s2 (_ & _ & HA2). wp_step (safe_get4 (pm :: l)); [done|done|lia|lia|]. intros v s3 [_ HA3].
  destruct (_ || _); [|by apply wp_ret]. wp_step (safe_io (pm :: l)); [done|]. intros rc' s4 HA4. destruct (rc' =? SQLITE_OK); [|by apply wp_ret].
  wp_step (safe_memcpy (pm :: l)); [done|done|lia|change (alen [eType]) with 1; lia|by constructor|]. intros [] s5 HA5. wp_step (safe_put4 (pm :: l)); [done|done|lia|lia|]. intros [] s6 HA6. by apply wp_ret.
Qed.

Lemma safe_ptrmapGet l s key : refs_added s0 l s -> is_u32 key -> wp (ptrmapGet bt mxPgno key) (fun _ s' => refs_added s0 l s') s.
Proof.
  intros HA Hk. unfold ptrmapGet. cbv zeta. destruct (Z.ltb_spec key 2) as [Hlt|Hge]; [rewrite ptrmapPageno_low by done; apply safe_get0; by apply wp_ret|].
  pose proof (ptrmap_offset key) as Hoff. cbv zeta in Hoff. set (pm := ptrmapPageno bt key) in *. unfold is_u32 in Hk. wp_step (safe_get l); [done|]. intros rc s1.
  destruct (rc =? SQLITE_OK) eqn:Erc; cbn [negb]; intros HA1; [|by apply wp_ret]. assert (Hh : held_page (pm :: l) pm) by (right; left).
  assert (Hrel : forall r s', refs_added s0 (pm :: l) s' -> wp (_ ← releasePage pm; mret r) (fun (_ : Z * Z * Z) s'' => refs_added s0 l s'') s').
  { intros r s' HA'. wp_step (safe_release (pm :: l) l); [done|done|done|]. intros [] s3 HA3. by apply wp_ret. }
  destruct (Z.ltb_spec (PTRMAP_PTROFFSET pm key) 0); [by apply Hrel|].
  wp_step (safe_bytes (pm :: l)); [done|done|done|lia|lia|]. intros t s2 (_ & _ & HA2). wp_step (safe_get4 (pm :: l)); [done|done|lia|lia|]. intros v s3 [_ HA3]. by apply Hrel.
Qed.

Lemma safe_setHasContent l s p : refs_added s0 l s -> wp (btreeSetHasContent p) (fun _ s' => refs_added s0 l s') s.
Proof.
  intros HA. unfold btreeSetHasContent. apply wp_bind, wp_get, wp_bind, wp_get, wp_bind. eapply (wp_mono _ (fun _ s' => refs_added s0 l s')).
  - destruct (st_hasContent s); [by apply wp_ret|]. wp_step (safe_io l); [done|]. intros rc s1 HA1. destruct (rc =? SQLITE_OK); [|by apply wp_ret]. apply wp_bind, wp_upd, wp_ret. by apply (added_same l s1).
  - intros rc s1 HA1. cbv beta. apply wp_bind, wp_get. destruct (st_hasContent s1) as [[sz X]|]; [|by apply wp_ret]. destruct (_ && _); [|by apply wp_ret]. wp_step (safe_io l); [done|]. intros rc' s2 HA2.
    destruct (rc' =? SQLITE_OK); [|by apply wp_ret]. apply wp_bind, wp_upd, wp_ret. by apply (added_same l s2).
Qed.

(** The references of [freePage2]. *)
Definition free_refs (pPage : bool) (iPage : Z) (pTrunk : option Z) : list Z := (if pPage then [iPage] else []) ++ option_list pTrunk.
Definition free_added (iPage : Z) (r : free_out) (s : BtState) : Prop := refs_added s0 (free_refs r.1.2 iPage r.2) s.

Lemma free_held p t : held_page (free_refs true p t) p.
Proof. right. left. Qed.

Lemma trunk_held b p t : held_page (free_refs b p (Some t)) t.
Proof. right. apply elem_of_app. right. left. Qed.

(** The page is in hand after it has been got when it was not. *)
Lemma safe_have (b : bool) p t s : refs_added s0 (free_refs b p t) s ->
  wp (if b then mret SQLITE_OK else btreeGetPage bt mxPgno p false) (fun rc s' => refs_added s0 (free_refs (if rc =? SQLITE_OK then true else b) p t) s') s.
Proof. intros HA. destruct b; [by apply wp_ret|]. wp_last (safe_get (free_refs false p t)); [done|]. intros rc s'. by destruct (rc =? SQLITE_OK). Qed.

Lemma safe_free_as_trunk b p it t s : refs_added s0 (free_refs b p t) s -> wp (free_as_trunk bt mxPgno b p it t) (free_added p) s.
Proof.
  intros HA. destruct Hcf as [Hp _]. unfold free_as_trunk. wp_step safe_have; [done|]. intros rc s1. destruct (rc =? SQLITE_OK); cbn [negb]; intros HA1; [|by apply wp_ret].
  wp_step (safe_io (free_refs true p t)); [done|]. intros rc' s2 HA2. destruct (rc' =? SQLITE_OK); cbn [negb]; [|by apply wp_ret]. pose proof (free_held p t) as Hh.
  wp_step (safe_put4 (free_refs true p t)); [done|done|lia|lia|]. intros [] s3 HA3. wp_step (safe_put4 (free_refs true p t)); [done|done|lia|lia|]. intros [] s4 HA4.
  wp_step (safe_put4 (free_refs true p t)); [done|by left|lia|lia|]. intros [] s5 HA5. by apply wp_ret.
Qed.

Lemma dont_write_ret b c p : (if b && c then sqlite3PagerDontWrite p else mret ()) = mret ().
Proof. by destruct (b && c). Qed.

Lemma safe_free_to_trunk b p n s : refs_added s0 (free_refs b p None) s -> wp (free_to_trunk bt mxPgno b p n) (free_added p) s.
Proof.
  intros HA. destruct Hcf as [Hp Hu]. unfold free_to_trunk. destruct (n =? 0); [by apply safe_free_as_trunk|]. wp_step (safe_get4 (free_refs b p None)); [done|by left|lia|lia|]. intros it s1 [_ HA1].
  apply wp_bind, wp_get. destruct (it >? st_nPage s1); [by apply wp_ret|]. wp_step (safe_get (free_refs b p None)); [done|]. intros rc s2. destruct (rc =? SQLITE_OK); cbn [negb]; intros HA2; [|by apply wp_ret].
  assert (HA2' : refs_added s0 (free_refs b p (Some it)) s2). { destruct HA2 as [? Hr]. split; [done|]. rewrite Hr. unfold free_refs. cbn [option_list]. by rewrite app_nil_r, <- (Permutation_cons_append _ it). }
  clear HA2. pose proof (trunk_held b p it) as Hh. wp_step (safe_get4 (free_refs b p (Some it))); [done|done|lia|lia|]. intros k s3 [Hk HA3]. unfold is_u32 in Hk. pose proof (Z.mul_div_le (usableSize bt) 4).
  destruct (k >? usableSize bt / 4 - 2); [by apply wp_ret|]. destruct (Z.ltb_spec k (usableSize bt / 4 - 8)); [|by apply safe_free_as_trunk]. wp_step (safe_io (free_refs b p (Some it))); [done|]. intros rc' s4 HA4.
  destruct (rc' =? SQLITE_OK); [|by apply wp_ret]. wp_step (safe_put4 (free_refs b p (Some it))); [done|done|lia|lia|]. intros [] s5 HA5. wp_step (safe_put4 (free_refs b p (Some it))); [done|done|lia|lia|]. intros [] s6 HA6. rewrite dont_write_ret. apply wp_bind, wp_ret.
  wp_step (safe_setHasContent (free_refs b p (Some it))); [done|]. intros rc2 s7 HA7. by apply wp_ret.
Qed.

Lemma safe_free_body b p s : refs_added s0 (free_refs b p None) s -> is_u32 p -> wp (free_body bt mxPgno b p) (free_added p) s.
Proof.
  intros HA Hu. destruct Hcf as [Hp _]. unfold free_body. wp_step (safe_io (free_refs b p None)); [done|]. intros rc s1 HA1. destruct (rc =? SQLITE_OK); cbn [negb]; [|by apply wp_ret].
  wp_step (safe_get4 (free_refs b p None)); [done|by left|lia|lia|]. intros n s2 [_ HA2]. wp_step (safe_put4 (free_refs b p None)); [done|by left|lia|lia|]. intros [] s3 HA3.
  apply wp_bind. eapply (wp_mono _ (fun r s' => refs_added s0 (free_refs r.2 p None) s')).
  - destruct (negb _); [|by apply wp_ret]. wp_step safe_have; [done|]. intros rc' s4. destruct (rc' =? SQLITE_OK); cbn [negb]; intros HA4; [|by apply wp_ret].
    wp_step (safe_io (free_refs true p None)); [done|]. intros rc2 s5 HA5. destruct (rc2 =? SQLITE_OK); cbn [negb]; [|by apply wp_ret].
    wp_step (safe_memcpy (free_refs true p None)); [done|apply free_held|done|rewrite alen_zero_page; lia|apply replicate_u8|]. intros [] s6 HA6. by apply wp_ret.
  - intros [rc' b'] s4 HA4. cbv beta. destruct (rc' =? SQLITE_OK); cbn [negb]; [|by apply wp_ret]. apply wp_bind. eapply (wp_mono _ (fun _ s' => refs_added s0 (free_refs b' p None) s')).
    + destruct (autoVacuum bt); [by apply (safe_ptrmapPut (free_refs b' p None))|by apply wp_ret].
    + intros rc2 s5 HA5. cbv beta. destruct (rc2 =? SQLITE_OK); cbn [negb]; [by apply safe_free_to_trunk|by apply wp_ret].
Qed.

Lemma safe_release_opt l o s : refs_added s0 (option_list o ++ l) s -> wp (releasePageOpt o) (fun _ s' => refs_added s0 l s') s.
Proof. intros HA. destruct o as [p|]; [by eapply safe_release|by apply wp_ret]. Qed.

Lemma safe_freePage2 (b : bool) p : pages_ok s0 -> (b = true -> is_Some (st_data s0 !! p)) -> wp (freePage2 bt mxPgno b p) (fun _ s' => refs_added s0 [] s') s0.
Proof.
  intros Hs Hb. assert (HA : refs_added s0 [] s0) by by split. unfold freePage2. apply wp_bind, wp_get. destruct (Z.ltb_spec p 2) as [|Hge]; [by apply wp_ret|].
  cbn [orb]. destruct (Z.gtb_spec p (st_nPage s0)) as [|Hle]; [by apply wp_ret|]. assert (Hu : is_u32 p) by (pose proof (so_nPage _ Hs); unfold is_u32 in *; lia).
  apply wp_bind. eapply (wp_mono _ (fun _ s' => refs_added s0 (free_refs b p None) s')); [destruct b; [by apply (safe_ref []); auto|by apply wp_ret]|]. intros [] s1 HA1. cbv beta.
  wp_step safe_free_body; [done|done|]. intros [[rc b'] t] s2 HA2. unfold free_added in HA2. cbn [fst snd] in HA2. apply wp_bind. eapply (wp_mono _ (fun _ s' => refs_added s0 (option_list t) s')).
  - destruct b'; [|by apply wp_ret]. wp_step (safe_isInit (free_refs true p t)); [done|]. intros [] s3 HA3. by eapply safe_release.
  - intros [] s3 HA3. cbv beta. wp_step (safe_release_opt [] t); [by rewrite app_nil_r|]. intros [] s4 HA4. by apply wp_ret.
Qed.

(** ** Taking a page, with any content *)

Definition got (rc pgno : Z) : list Z := if rc =? SQLITE_OK then [pgno] else [].

Lemma safe_unlink prev t s : refs_added s0 (t :: option_list prev) s -> t <> 1 -> prev <> Some t -> wp (unlink_trunk prev t) (fun _ s' => refs_added s0 (t :: option_list prev) s') s.
Proof.
  intros HA Ht Hp. destruct Hcf as [Hsz _]. unfold unlink_trunk. assert (Hh : held_page (t :: option_list prev) t) by (right; left). destruct prev as [pv|].
  - wp_step (safe_io (t :: option_list (Some pv))); [done|]. intros rc s1 HA1. destruct (rc =? SQLITE_OK); [|by apply wp_ret]. wp_step (safe_copy (t :: option_list (Some pv))); [done|left; congruence|right; right; left|done|lia..|]. intros [] s2 HA2. by apply wp_ret.
  - wp_step (safe_copy (t :: option_list None)); [done|left; congruence|by left|done|lia..|]. intros [] s2 HA2. by apply wp_ret.
Qed.

(** A page taken is in no other hands. *)
Definition taken (l : list Z) (rc p : Z) (s : BtState) : Prop := refs_added s0 (got rc p ++ l) s /\ (rc = SQLITE_OK -> p ∉ st_refs s0).

Lemma taken_ok l p s : refs_added s0 (p :: l) s -> p ∉ l ++ st_refs s0 -> taken l SQLITE_OK p s.
Proof. intros HA Hp. split; [done|]. intros _ Hi. apply Hp, elem_of_app. by right. Qed.

Lemma taken_err l rc p s : refs_added s0 l s -> rc <> SQLITE_OK -> taken l rc p s.
Proof. intros HA Hr. split; [|done]. unfold got. by rewrite (proj2 (Z.eqb_neq _ _) Hr). Qed.

Lemma safe_get_unused_write l p nc s : refs_added s0 l s -> wp (get_to_write bt mxPgno p nc) (fun rc s' => taken l rc p s') s.
Proof.
  intros HA. unfold get_to_write. wp_step (safe_unused l); [done|done|]. intros rc s1. destruct (Z.eqb_spec rc SQLITE_OK) as [->|]; cbn [negb]; intros [HA1 Hn]; [|apply wp_ret; by apply taken_err]. specialize (Hn eq_refl).
  wp_step (safe_io (p :: l)); [done|]. intros rc' s2 HA2. destruct (Z.eqb_spec rc' SQLITE_OK) as [->|]; [apply wp_ret; by apply taken_ok|]. wp_step (safe_release (p :: l) l); [done|done|done|]. intros [] s3 HA3. apply wp_ret. by apply taken_err.
Qed.

Lemma safe_promote prev mx t k s : refs_added s0 (t :: option_list prev) s -> 1 <= k <= usableSize bt / 4 - 2 -> wp (promote_leaf bt mxPgno prev mx t k) (fun _ s' => refs_added s0 (t :: option_list prev) s') s.
Proof.
  intros HA Hk. destruct Hcf as [Hsz Hus]. pose proof (Z.mul_div_le (usableSize bt) 4). set (L := t :: option_list prev) in *. assert (Hh : held_page L t) by (right; left).
  unfold promote_leaf. wp_step (safe_get4 L); [done|done|lia|lia|]. intros q s1 [_ HA1]. destruct (q >? mx); [by apply wp_ret|]. wp_step (safe_unused L); [done|done|]. intros rc s2.
  destruct (Z.eqb_spec rc SQLITE_OK) as [Erc|]; cbn [negb]; intros [HA2 Hn]; [|by apply wp_ret]. specialize (Hn Erc). assert (Hqt : q <> t) by (intros ->; apply Hn; left). wp_step (safe_io (q :: L)); [done|]. intros rc' s3 HA3.
  destruct (rc' =? SQLITE_OK); cbn [negb]; [|wp_step (safe_release (q :: L) L); [done|done|done|]; intros [] s4 HA4; by apply wp_ret].
  assert (Hq : held_page (q :: L) q) by (right; left). assert (Ht : held_page (q :: L) t) by (right; right; left).
  wp_step (safe_copy (q :: L)); [done|by left|done|done|lia..|]. intros [] s4 HA4. wp_step (safe_put4 (q :: L)); [done|done|lia|lia|]. intros [] s5 HA5.
  wp_step (safe_copy (q :: L)); [done|by left|done|done|lia..|]. intros [] s6 HA6. wp_step (safe_release (q :: L) L); [done|done|done|]. intros [] s7 HA7. destruct prev as [pv|].
  - wp_step (safe_io L); [done|]. intros rc2 s8 HA8. destruct (rc2 =? SQLITE_OK); [|by apply wp_ret]. wp_step (safe_put4 L); [done|right; right; left|lia|lia|]. intros [] s9 HA9. by apply wp_ret.
  - wp_step (safe_put4 L); [done|by left|lia|lia|]. intros [] s9 HA9. by apply wp_ret.
Qed.

Lemma safe_first_le l t nb k fuel i s : refs_added s0 l s -> held_page l t -> 0 <= i -> i + Z.of_nat fuel = k -> 1 <= k <= usableSize bt / 4 - 2 -> wp (first_le fuel t nb i) (fun c s' => 0 <= c < k /\ refs_added s0 l s') s.
Proof.
  intros HA Hh Hi Hf Hk. destruct Hcf as [Hsz Hus]. pose proof (Z.mul_div_le (usableSize bt) 4). revert i s HA Hi Hf. induction fuel as [|fuel IH]; intros i s HA Hi Hf; cbn [first_le]; [apply wp_ret; split; [lia|done]|].
  wp_step (safe_get4 l); [done|done|lia|lia|]. intros v s1 [_ HA1]. destruct (v <=? nb); [apply wp_ret; split; [lia|done]|]. apply IH; [done|lia|lia].
Qed.

Lemma safe_nearest l t nb k fuel i c d s : refs_added s0 l s -> held_page l t -> 0 <= i -> i + Z.of_nat fuel = k -> 1 <= k <= usableSize bt / 4 - 2 -> 0 <= c < k -> wp (nearest fuel t nb i c d) (fun c s' => 0 <= c < k /\ refs_added s0 l s') s.
Proof.
  intros HA Hh Hi Hf Hk. destruct Hcf as [Hsz Hus]. pose proof (Z.mul_div_le (usableSize bt) 4). revert i c d s HA Hi Hf. induction fuel as [|fuel IH]; intros i c d s HA Hi Hf Hc; cbn [nearest]; [by apply wp_ret|].
  wp_step (safe_get4 l); [done|done|lia|lia|]. intros v s1 [_ HA1]. cbv zeta. destruct (_ <? d); apply IH; (done || lia).
Qed.

Lemma safe_closest l t nb e k s : refs_added s0 l s -> held_page l t -> 1 <= k <= usableSize bt / 4 - 2 -> wp (closest_leaf t k nb e) (fun c s' => 0 <= c < k /\ refs_added s0 l s') s.
Proof.
  intros HA Hh Hk. destruct Hcf as [Hsz Hus]. pose proof (Z.mul_div_le (usableSize bt) 4). unfold closest_leaf. destruct (nb >? 0); [|apply wp_ret; split; [lia|done]]. destruct (e =? BTALLOC_LE); [apply safe_first_le; (done || lia)|].
  wp_step (safe_get4 l); [done|done|lia|lia|]. intros v s1 [_ HA1]. apply safe_nearest; (done || lia).
Qed.

Lemma safe_take_leaf l t k c p s : refs_added s0 l s -> held_page l t -> 0 <= c < k -> k <= usableSize bt / 4 - 2 -> wp (take_leaf bt mxPgno t k c p) (fun rc s' => taken l rc p s') s.
Proof.
  intros HA Hh Hc Hk. destruct Hcf as [Hsz Hus]. pose proof (Z.mul_div_le (usableSize bt) 4). unfold take_leaf. wp_step (safe_io l); [done|]. intros rc s1 HA1. destruct (Z.eqb_spec rc SQLITE_OK); cbn [negb]; [|apply wp_ret; by apply taken_err].
  apply wp_bind. eapply (wp_mono _ (fun _ s' => refs_added s0 l s')); [destruct (Z.ltb_spec c (k - 1)); [apply (safe_copy l); [done|unfold cp_apart; lia|done|done|lia..]|by apply wp_ret]|]. intros [] s2 HA2. cbv beta.
  wp_step (safe_put4 l); [done|done|lia|lia|]. intros [] s3 HA3. apply wp_bind. unfold btreeGetHasContent. apply wp_bind, wp_get, wp_ret.
  wp_step (safe_unused l); [done|done|]. intros rc' s4. destruct (Z.eqb_spec rc' SQLITE_OK) as [->|]; intros [HA4 Hn]; [|apply wp_ret; by apply taken_err]. specialize (Hn eq_refl).
  wp_step (safe_io (p :: l)); [done|]. intros rc2 s5 HA5. destruct (Z.eqb_spec rc2 SQLITE_OK) as [->|]; [apply wp_ret; by apply taken_ok|]. wp_step (safe_release (p :: l) l); [done|done|done|]. intros [] s6 HA6. apply wp_ret. by apply taken_err.
Qed.

Definition alloc_added (r : alloc_out) (s : BtState) : Prop := taken (option_list r.1.2 ++ option_list r.2) r.1.1.1 r.1.1.2 s.

Lemma safe_alloc_loop n mx nb e srch fuel ns tr s : refs_added s0 (option_list tr) s -> 0 <= ns <= n + 1 -> n + 2 <= ns + Z.of_nat fuel -> wp (alloc_loop bt mxPgno fuel n mx nb e srch ns tr) alloc_added s.
Proof.
  destruct Hcf as [Hsz Hus]. pose proof (Z.mul_div_le (usableSize bt) 4). revert ns tr s. induction fuel as [|fuel IH]; intros ns tr s HA Hn Hf; [lia|]. cbn [alloc_loop]. cbv zeta. set (L := option_list tr) in *.
  apply wp_bind. eapply (wp_mono _ (fun _ s' => refs_added s0 L s')). { destruct tr as [p|]; (wp_last (safe_get4 L); [done|(by left) || (right; left)|lia|lia|]; by intros ? ? [_ ?]). }
  intros t s1 HA1. cbv beta. destruct (Z.gtb_spec ns n) as [|Hns]; [rewrite orb_true_r; apply wp_bind, wp_ret, wp_ret; by apply taken_err|]. rewrite orb_false_r. destruct (t >? mx); [apply wp_bind, wp_ret, wp_ret; by apply taken_err|].
  wp_step (safe_unused L); [done|done|]. intros rc s2. destruct (Z.eqb_spec rc SQLITE_OK) as [->|Hrc]; cbn [negb]; intros [HA2 Hnh]; [|apply wp_ret; by apply taken_err].
  specialize (Hnh eq_refl). assert (Hh : held_page (t :: L) t) by (right; left). assert (Ht1 : t <> 1) by (intros ->; apply Hnh, elem_of_app; by right). assert (Htp : tr <> Some t) by (intros ->; apply Hnh; left).
  wp_step (safe_get4 (t :: L)); [done|done|lia|lia|]. intros k s3 [Hk HA3]. unfold is_u32 in Hk.
  assert (Hok : forall s', refs_added s0 (t :: L) s' -> wp (mret (SQLITE_OK, t, None, tr)) alloc_added s') by (intros s' HA'; apply wp_ret; by apply taken_ok).
  assert (Hbad : forall r s', r <> SQLITE_OK -> refs_added s0 (t :: L) s' -> wp (mret (r, 0, Some t, tr)) alloc_added s') by (intros r s' Hr HA'; apply wp_ret; by apply taken_err).
  assert (Hgo : forall s', refs_added s0 (t :: L) s' -> wp (_ ← releasePageOpt tr; alloc_loop bt mxPgno fuel n mx nb e srch (ns + 1) (Some t)) alloc_added s').
  { intros s' HA'. wp_step (safe_release_opt [t] tr); [destruct HA' as [? E]; split; [done|]; by rewrite E, (Permutation_cons_append L t)|]. intros [] s4 HA4. apply IH; [done|lia|lia]. }
  destruct ((k =? 0) && negb srch).
  { wp_step (safe_io (t :: L)); [done|]. intros rc s4 HA4. destruct (Z.eqb_spec rc SQLITE_OK); cbn [negb]; [|by apply Hbad]. wp_step (safe_copy (t :: L)); [done|left; congruence|by left|done|lia..|]. intros [] s5 HA5. by apply Hok. }
  destruct (Z.gtb_spec k (usableSize bt / 4 - 2)); [by apply Hbad|]. destruct (srch && _).
  { wp_step (safe_io (t :: L)); [done|]. intros rc s4 HA4. destruct (Z.eqb_spec rc SQLITE_OK); cbn [negb]; [|by apply Hbad]. apply wp_bind. eapply (wp_mono _ (fun _ s' => refs_added s0 (t :: L) s')).
    - destruct (Z.eqb_spec k 0); [by apply safe_unlink|apply safe_promote; (done || lia)].
    - intros rc' s5 HA5. cbv beta. destruct (Z.eqb_spec rc' SQLITE_OK); cbn [negb]; [by apply Hok|by apply Hbad]. }
  destruct (Z.gtb_spec k 0); [|by apply Hgo]. wp_step (safe_closest (t :: L)); [done|done|lia|]. intros c s4 [Hc HA4]. wp_step (safe_get4 (t :: L)); [done|done|lia|lia|]. intros p s5 [_ HA5].
  destruct (_ || _); [by apply Hbad|]. destruct (_ || _); [|by apply Hgo]. wp_step (safe_take_leaf (t :: L)); [done|done|lia|lia|]. intros rc s6 HA6. by apply wp_ret.
Qed.

(** The result of [allocateBtreePage]. *)
Definition alloc_result (r : Z * Z) (s : BtState) : Prop := taken [] r.1 r.2 s.

Lemma safe_alloc_free n mx nb e s : refs_added s0 [] s -> 0 < n -> is_u32 nb -> wp (alloc_free bt mxPgno n mx nb e) alloc_result s.
Proof.
  intros HA Hn Hu. destruct Hcf as [Hsz _]. unfold alloc_free. assert (Hbad : forall r s', r <> SQLITE_OK -> refs_added s0 [] s' -> wp (mret (r, 0)) alloc_result s') by (intros r s' Hr HA'; apply wp_ret; by apply taken_err).
  apply wp_bind. eapply (wp_mono _ (fun _ s' => refs_added s0 [] s')).
  { unfold alloc_search. destruct (e =? BTALLOC_EXACT); [|by apply wp_ret]. destruct (nb <=? mx); [|by apply wp_ret]. wp_step (safe_ptrmapGet []); [done|done|]. intros [[rc ty] v] s1 HA1. destruct (negb _); by apply wp_ret. }
  intros [rc srch] s1 HA1. cbv beta. destruct (Z.eqb_spec rc SQLITE_OK); cbn [negb]; [|by apply Hbad]. wp_step (safe_io []); [done|]. intros rc' s2 HA2. destruct (Z.eqb_spec rc' SQLITE_OK); cbn [negb]; [|by apply Hbad].
  wp_step (safe_put4 []); [done|by left|lia|lia|]. intros [] s3 HA3. wp_step (safe_alloc_loop n mx nb e srch (Z.to_nat (n + 2)) 0 None); [done|lia|lia|]. intros [[[r g] t] pv] s4 [HA4 Hg]. cbn [fst snd] in HA4, Hg.
  wp_step (safe_release_opt (option_list pv ++ got r g) t); [destruct HA4 as [? E]; split; [done|]; rewrite E; solve_Permutation|]. intros [] s5 HA5. wp_step (safe_release_opt (got r g) pv); [done|]. intros [] s6 HA6. apply wp_ret. split; [by rewrite app_nil_r|done].
Qed.

Lemma safe_bump l s : refs_added s0 l s -> wp (bump_nPage bt) (fun _ s' => refs_added s0 l s') s.
Proof.
  intros [[P1 P2 P3 P4 P5] Hr]. eexists _, _. split; [reflexivity|]. split; [|done]. split; [done|done|done|done|]. cbn [with_nPage st_nPage]. destruct (_ =? _); apply u32_range.
Qed.

Lemma safe_alloc_append s : refs_added s0 [] s -> wp (alloc_append bt mxPgno bDoTruncate) alloc_result s.
Proof.
  intros HA. destruct Hcf as [Hsz _]. unfold alloc_append. cbv zeta. assert (Hbad : forall r s', r <> SQLITE_OK -> refs_added s0 [] s' -> wp (mret (r, 0)) alloc_result s') by (intros r s' Hr HA'; apply wp_ret; by apply taken_err).
  wp_step (safe_io []); [done|]. intros rc s1 HA1. destruct (Z.eqb_spec rc SQLITE_OK); cbn [negb]; [|by apply Hbad]. wp_step (safe_bump []); [done|]. intros n s2 HA2.
  apply wp_bind. eapply (wp_mono _ (fun _ s' => refs_added s0 [] s')).
  - destruct (_ && _); [|by apply wp_ret]. wp_step (safe_get_unused_write []); [done|]. intros rc' s3 [HA3 _]. unfold got in HA3. revert HA3. destruct (rc' =? SQLITE_OK); cbn [negb]; intros HA3; [|by apply wp_ret].
    wp_step (safe_release [n] []); [done|done|done|]. intros [] s4 HA4. wp_step (safe_bump []); [done|]. intros m s5 HA5. by apply wp_ret.
  - intros [rc' m] s3 HA3. cbv beta. destruct (Z.eqb_spec rc' SQLITE_OK); cbn [negb]; [|by apply Hbad]. wp_step (safe_put4 []); [done|by left|lia|lia|]. intros [] s4 HA4.
    wp_step (safe_get_unused_write []); [done|]. intros rc2 s5 HA5. by apply wp_ret.
Qed.

Lemma safe_allocate nb e : pages_ok s0 -> is_u32 nb -> wp (allocateBtreePage bt mxPgno bDoTruncate nb e) alloc_result s0.
Proof.
  intros Hs Hu. assert (HA : refs_added s0 [] s0) by by split. destruct Hcf as [Hsz _]. unfold allocateBtreePage. apply wp_bind, wp_get. wp_step (safe_get4 []); [done|by left|lia|lia|]. intros n s1 [_ HA1].
  destruct (n >=? st_nPage s0); [apply wp_ret; by apply taken_err|]. destruct (Z.gtb_spec n 0); [by apply safe_alloc_free|by apply safe_alloc_append].
Qed.
End Safe.

(** C12. Free lists and pointer maps of any content are safe.  The bytes of all pages are arbitrary, and
    each call of the pager may fail.  Then [allocateBtreePage], [freePage2], [ptrmapPut] and [ptrmapGet] all
    return: the search of the list ends also when trunks form a cycle, no byte outside of a page is read or
    written and no [memcpy] overlaps.  All pages keep their size, and every reference taken is given
    back, apart from the one for the caller of an allocation that succeeds; the page that it gets is in
    nobody's hands before, so a corrupt list cannot make a page that is in use be used twice. *)
Theorem freelist_safe bt mxPgno bDoTruncate s : conf_ok bt -> pages_ok bt s ->
  (forall nearby eMode, is_u32 nearby -> exists rc pgno s', allocateBtreePage bt mxPgno bDoTruncate nearby eMode s = Some (rc, pgno, s') /\ pages_ok bt s' /\
     st_refs s' ≡ₚ (if rc =? SQLITE_OK then [pgno] else []) ++ st_refs s /\ (rc = SQLITE_OK -> pgno ∉ st_refs s)) /\
  (forall (pPage : bool) iPage, (pPage = true -> is_Some (st_data s !! iPage)) -> exists rc s', freePage2 bt mxPgno pPage iPage s = Some (rc, s') /\ pages_ok bt s' /\ st_refs s' ≡ₚ st_refs s) /\
  (forall key eType parent, is_u32 key -> is_u8 eType -> exists rc s', ptrmapPut bt mxPgno key eType parent s = Some (rc, s') /\ pages_ok bt s' /\ st_refs s' ≡ₚ st_refs s) /\
  (forall key, is_u32 key -> exists r s', ptrmapGet bt mxPgno key s = Some (r, s') /\ pages_ok bt s' /\ st_refs s' ≡ₚ st_refs s).
Proof.
  intros Hcf Hs. pose proof (so_ref1 _ _ Hs) as H1. assert (HA : refs_added bt s [] s) by by split. repeat split.
  - intros nb e Hu. destruct (safe_allocate bt mxPgno bDoTruncate Hcf s H1 nb e Hs Hu) as ([rc pgno] & s' & E & [HA' Hn]). exists rc, pgno, s'. rewrite app_nil_r in HA'. split; [done|]. split; [apply HA'|]. split; [apply HA'|done].
  - intros b p Hb. destruct (safe_freePage2 bt mxPgno Hcf s H1 b p Hs Hb) as (rc & s' & E & HA'). exists rc, s'. split; [done|]. split; apply HA'.
  - intros key ty pa Hk Ht. destruct (safe_ptrmapPut bt mxPgno Hcf s H1 [] s key ty pa HA Hk Ht) as (rc & s' & E & HA'). exists rc, s'. split; [done|]. split; apply HA'.
  - intros key Hk. destruct (safe_ptrmapGet bt mxPgno Hcf s H1 [] s key HA Hk) as (r & s' & E & HA'). exists r, s'. split; [done|]. split; apply HA'.
Qed.

(** Trunks 2 and 3 that follow each other, in a cycle. *)
Definition bt_small (av : bool) : BtShared :=
  {| pageSize := 512; usableSize := 512; bt_maxLocal := 0; bt_minLocal := 0; maxLeaf := 0; minLeaf := 0; bt_max1bytePayload := 0; btsFlags := 0; autoVacuum := av; cellSizeCk := false |}.

Definition page_of_words (ws : list (Z * Z)) : list Z := foldr (fun w d => fwrite d w.1 (store32 true w.2)) (replicate 512 0) ws.

Definition cyclic_trunks : BtState :=
  MkBtState {[1 := page_of_words [(32, 2); (36, 5)]; 2 := page_of_words [(0, 3)]; 3 := page_of_words [(0, 2)]]} [1] ∅ None 9 [].

Lemma page_of_words_ok ws : Forall (fun w => 0 <= w.1 <= 508) ws -> alen (page_of_words ws) = 512 /\ Forall is_u8 (page_of_words ws).
Proof.
  induction 1 as [|w ws Hw _ [IHl IHu]]; [split; [done|apply replicate_u8]|]. split; [|apply fwrite_u8; [done|apply store32_bytes]]. change (alen (fwrite (page_of_words ws) w.1 (store32 true w.2)) = 512). rewrite alen_write; rewrite ?alen_store32; lia.
Qed.

Lemma freelist_safe_witness : exists s', allocateBtreePage (bt_small false) 100 true 1 BTALLOC_LE cyclic_trunks = Some (SQLITE_CORRUPT, 0, s') /\ st_refs s' ≡ₚ [1].
Proof.
  assert (Hs : pages_ok (bt_small false) cyclic_trunks).
  { split; [done|left| |intros p [->|?%not_elem_of_nil]%elem_of_cons; done|by unfold is_u32]. intros p d H. cbn [cyclic_trunks st_data] in H.
    apply lookup_insert_Some in H as [[_ <-]|[_ H]]; [|apply lookup_insert_Some in H as [[_ <-]|[_ H]]; [|apply lookup_singleton_Some in H as [_ <-]]]; apply page_of_words_ok; repeat constructor; cbn; lia. }
  assert (Hu : is_u32 1) by done. destruct (freelist_safe (bt_small false) 100 true cyclic_trunks ltac:(split; cbn; lia) Hs) as [Ha _]. destruct (Ha 1 BTALLOC_LE Hu) as (rc & pgno & s' & E & _ & Hr & _).
  assert (Ec : (fun r => fst r) <$> allocateBtreePage (bt_small false) 100 true 1 BTALLOC_LE cyclic_trunks = Some (SQLITE_CORRUPT, 0)) by (vm_compute; reflexivity).
  rewrite E in Ec. cbn in Ec. injection Ec as -> ->. exists s'. split; [exact E|exact Hr].
Defined.
