(* ===== verification/BtFreeList.v ===== *)
(** * Free pages: lists of trunks and leaves

    The list of free pages as the database has it: a chain of trunk pages from page 1 on, each
    with the numbers of its leaves.  Its changes by allocation and freeing are shown on the contents
    of the pages; [BtFreeOps.v] shows that the operations make these changes. *)
From S2P Require Import Prelude Bytes FileIO Ints BtBase BtFree BtFreeWp.

(** ** Chains of trunks *)

(** [d'] is [d] with [y] as the word at [off]. *)
Definition set_word (d : list Z) (off y : Z) (d' : list Z) : Prop :=
  word d' off = y /\ forall off', 0 <= off' -> off' + 4 <= off \/ off + 4 <= off' -> word d' off' = word d off'.

Lemma set_word_put d off y : 0 <= off -> is_u32 y -> set_word d off y (fwrite d off (store32 true y)).
Proof. intros Ho Hy. split; [by apply word_put_same|]. intros off' Ho' Hd. by apply word_write_other. Qed.

Lemma set_word_copy d off e off' : 0 <= off -> 0 <= off' -> set_word d off (word e off') (fwrite d off (fread e off' 4)).
Proof.
  intros Ho Ho'. split; [|intros o Hp Hd; apply word_write_other; rewrite ?alen_fread by lia; lia]. rewrite <- (Z.add_0_r off) at 2. rewrite word_copy by lia. by rewrite Z.add_0_r.
Qed.

Section Chain.
Context (bt : BtShared).

Definition trunk_page (d ls : list Z) : Prop :=
  alen ls <= usableSize bt / 4 - 2 /\ word d 4 = alen ls /\ forall i x, ls !! i = Some x -> word d (8 + Z.of_nat i * 4) = x.

(** The trunks [ts], with their leaves, are in a chain from [p] to [q]. *)
Fixpoint tseg (D : gmap Z (list Z)) (p : Z) (ts : list (Z * list Z)) (q : Z) : Prop :=
  match ts with
  | [] => p = q
  | (t, ls) :: ts => p = t /\ exists d, D !! t = Some d /\ trunk_page d ls /\ tseg D (word d 0) ts q
  end.

(** The chain of page 1, where the number of free pages is [c]. *)
Definition tchain (D : gmap Z (list Z)) (ts : list (Z * list Z)) (q c : Z) : Prop :=
  exists d, D !! 1 = Some d /\ word d 36 = c /\ tseg D (word d 32) ts q.

Definition free_of (ts : list (Z * list Z)) : list Z := concat (map (fun t => t.1 :: t.2) ts).

Lemma free_of_app a b : free_of (a ++ b) = free_of a ++ free_of b.
Proof. unfold free_of. by rewrite map_app, concat_app. Qed.

Lemma trunks_free t ts : t ∈ ts.*1 -> t ∈ free_of ts.
Proof.
  induction ts as [|[u ls] ts IH]; [done|]. change (free_of ((u, ls) :: ts)) with ((u :: ls) ++ free_of ts). intros [->|Ht]%elem_of_cons; [left|]. apply elem_of_app. right. by apply IH.
Qed.

Lemma free_NoDup_trunks ts : NoDup (free_of ts) -> NoDup (ts.*1).
Proof.
  induction ts as [|[t ls] ts IH]; [constructor|]. change (free_of ((t, ls) :: ts)) with ((t :: ls) ++ free_of ts). intros (H1 & H2 & H3)%NoDup_app. cbn [fmap list_fmap fst]. constructor; [|by apply IH].
  intros Ht%trunks_free. by apply (H2 t); [left|].
Qed.

Lemma tseg_app D p a b q : tseg D p (a ++ b) q <-> exists m, tseg D p a m /\ tseg D m b q.
Proof.
  revert p. induction a as [|[t ls] a IH]; intros p; cbn [app tseg]; [split; [intros H; by exists p|intros (m & -> & H); done]|]. split.
  - intros (-> & d & Hd & Ht & (m & Ha & Hb)%IH). exists m. split; [|done]. split; [done|]. by exists d.
  - intros (m & (-> & d & Hd & Ht & Ha) & Hb). split; [done|]. exists d. split; [done|]. split; [done|]. apply IH. by exists m.
Qed.

Lemma tchain_app D a b q c : tchain D (a ++ b) q c <-> exists m, tchain D a m c /\ tseg D m b q.
Proof.
  split; [intros (d & Hd & Hc & (m & Ha & Hb)%tseg_app); exists m; split; [|done]; by exists d|]. intros (m & (d & Hd & Hc & Ha) & Hb). exists d. split; [done|]. split; [done|]. apply tseg_app. by exists m.
Qed.

Lemma tseg_frame D D' p a q : (forall t, t ∈ a.*1 -> D' !! t = D !! t) -> tseg D p a q -> tseg D' p a q.
Proof.
  revert p. induction a as [|[t ls] a IH]; intros p Hf; [done|]. cbn [tseg]. intros (-> & d & Hd & Ht & Ha). split; [done|]. exists d. rewrite (Hf t) by left. split; [done|]. split; [done|]. apply IH; [|done]. intros u Hu. apply Hf. by right.
Qed.

Lemma tchain_frame D D' a q c : (forall t, t ∈ 1 :: a.*1 -> D' !! t = D !! t) -> tchain D a q c -> tchain D' a q c.
Proof.
  intros Hf (d & Hd & Hc & Ha). exists d. rewrite (Hf 1) by left. split; [done|]. split; [done|]. eapply tseg_frame; [|exact Ha]. intros t Ht. apply Hf. by right.
Qed.

Lemma trunk_page_link d y d' ls : set_word d 0 y d' -> trunk_page d ls -> trunk_page d' ls.
Proof. intros [_ Hs] (H1 & H2 & H3). split; [done|]. split; [rewrite Hs by lia; done|]. intros i x Hx. rewrite Hs by lia. by apply H3. Qed.

(** Where the number of the trunk after [a] is kept. *)
Definition link_at (a : list (Z * list Z)) : Z * Z := match last a with Some (t, _) => (t, 0) | None => (1, 32) end.

Lemma tchain_relink D D' a q c d d' y : D !! (link_at a).1 = Some d -> D' !! (link_at a).1 = Some d' -> set_word d (link_at a).2 y d' ->
  (forall t, t ∈ 1 :: a.*1 -> t <> (link_at a).1 -> D' !! t = D !! t) -> NoDup (1 :: a.*1) -> tchain D a q c -> tchain D' a y c.
Proof.
  intros Hd Hd' Hw Hf Hnd (d1 & H1 & Hc & Ha). destruct a as [|[t ls] b _] using rev_ind.
  - cbn in Hd, Hd', Hw, Ha |- *. rewrite H1 in Hd. injection Hd as ->. exists d'. destruct Hw as [Hw1 Hw2]. split; [done|]. split; [by rewrite Hw2 by lia|]. done.
  - unfold link_at in *. rewrite last_snoc in *. cbn [fst snd] in *. rewrite fmap_app in Hnd, Hf. cbn [fmap list_fmap fst] in Hnd, Hf. apply NoDup_cons in Hnd as [Hn1 Hnd]. apply NoDup_app in Hnd as (_ & Hnt & _).
    assert (Ht1 : t <> 1) by (intros ->; apply Hn1, elem_of_app; right; left). assert (Htb : t ∉ b.*1) by (intros Hi; apply (Hnt t Hi); left).
    apply tseg_app in Ha as (m & Ha & -> & e & He & Hp & _). rewrite Hd in He. injection He as <-. exists d1. split; [rewrite Hf; [done|left|done]|]. split; [done|]. apply tseg_app. exists t. split.
    + eapply tseg_frame; [|exact Ha]. intros u Hu. apply Hf; [right; apply elem_of_app; by left|]. intros ->. done.
    + split; [done|]. exists d'. split; [done|]. split; [by eapply trunk_page_link|]. cbn [tseg]. apply Hw.
Qed.

Lemma tchain_set_leaves D D' a t ls ls' b q c d d' : D !! t = Some d -> D' !! t = Some d' -> trunk_page d' ls' -> word d' 0 = word d 0 ->
  (forall u, u ∈ 1 :: (a ++ (t, ls) :: b).*1 -> u <> t -> D' !! u = D !! u) -> NoDup (1 :: (a ++ (t, ls) :: b).*1) -> tchain D (a ++ (t, ls) :: b) q c -> tchain D' (a ++ (t, ls') :: b) q c.
Proof.
  intros Hd Hd' Hp Hw Hf Hnd Hc. rewrite fmap_app, fmap_cons in Hnd, Hf. cbn [fst] in Hnd, Hf. change (1 :: a.*1 ++ t :: b.*1) with ((1 :: a.*1) ++ t :: b.*1) in Hnd, Hf. apply NoDup_app in Hnd as (_ & Hna & Hnb). apply NoDup_cons in Hnb as [Hnb _].
  apply tchain_app in Hc as (m & Hc & -> & e & He & _ & Hs). rewrite Hd in He. injection He as <-. apply tchain_app. exists t. split.
  - eapply tchain_frame; [|exact Hc]. intros u Hu. apply Hf; [apply elem_of_app; by left|]. intros ->. apply (Hna t Hu). left.
  - split; [done|]. exists d'. split; [done|]. split; [done|]. rewrite Hw. eapply tseg_frame; [|exact Hs]. intros u Hu. apply Hf; [apply elem_of_app; right; by right|]. intros ->. done.
Qed.

(** ** Changes of a trunk page *)

(** The last one takes the place of the one removed. *)
Definition swap_remove (i : nat) (ls : list Z) : list Z :=
  match last ls with
  | Some z => if decide (i = length ls - 1)%nat then removelast ls else <[i := z]> (removelast ls)
  | None => []
  end.

Lemma swap_remove_snoc i l z : swap_remove i (l ++ [z]) = if decide (i = length l) then l else <[i := z]> l.
Proof. unfold swap_remove. rewrite last_snoc, removelast_last, length_app. cbn [length]. replace (length l + 1 - 1)%nat with (length l) by lia. done. Qed.

Lemma swap_remove_perm i ls x : ls !! i = Some x -> x :: swap_remove i ls ≡ₚ ls.
Proof.
  destruct ls as [|z l _] using rev_ind; [done|]. intros Hx. rewrite swap_remove_snoc. destruct (decide (i = length l)) as [->|Hne].
  - rewrite list_lookup_middle in Hx by done. injection Hx as ->. by rewrite <- Permutation_cons_append.
  - assert (Hi : (i < length l)%nat) by (apply lookup_lt_Some in Hx; rewrite length_app in Hx; cbn in Hx; lia). rewrite lookup_app_l in Hx by done.
    rewrite <- (take_drop_middle l i x Hx) at 2. rewrite insert_take_drop by done. rewrite <- !app_assoc. cbn [app]. rewrite <- (Permutation_cons_append _ z). solve_Permutation.
Qed.

Lemma alen_swap_remove i ls x : ls !! i = Some x -> alen (swap_remove i ls) = alen ls - 1.
Proof. intros Hx%swap_remove_perm. unfold alen. rewrite <- (Permutation_length Hx). cbn [length]. lia. Qed.

Definition take_page (d : list Z) (k c : Z) : list Z :=
  fwrite (if c <? k - 1 then fwrite d (8 + c * 4) (fread d (4 + k * 4) 4) else d) 4 (store32 true (k - 1)).

Lemma take_page_trunk d ls i x : is_u32 (alen ls) -> trunk_page d ls -> ls !! i = Some x -> trunk_page (take_page d (alen ls) (Z.of_nat i)) (swap_remove i ls) /\ word (take_page d (alen ls) (Z.of_nat i)) 0 = word d 0.
Proof.
  intros Hu (H1 & H2 & H3) Hx. assert (Hk : is_u32 (alen ls - 1)) by (apply lookup_lt_Some in Hx; unfold is_u32, alen in *; lia). assert (Hal := alen_swap_remove i ls x Hx). unfold take_page.
  set (d1 := if Z.of_nat i <? alen ls - 1 then _ else d). destruct (set_word_put d1 4 (alen ls - 1) ltac:(lia) Hk) as [W1 W2].
  assert (Hs1 : forall o, 0 <= o -> o + 4 <= 8 + Z.of_nat i * 4 \/ 8 + Z.of_nat i * 4 + 4 <= o -> word d1 o = word d o).
  { intros o Ho Hd. unfold d1. destruct (_ <? _); [|done]. destruct (set_word_copy d (8 + Z.of_nat i * 4) d (4 + alen ls * 4)) as [_ S]; [lia|pose proof (alen_nonneg ls); lia|]. by apply S. }
  split; [|rewrite W2, Hs1 by lia; done]. split; [lia|]. split; [by rewrite W1|]. intros j y Hj. rewrite W2 by lia.
  destruct ls as [|z l _] using rev_ind; [done|]. rewrite swap_remove_snoc in Hj. rewrite alen_app in *. change (alen [z]) with 1 in *. destruct (decide (i = length l)) as [Hi|Hi].
  - rewrite Hs1; [apply H3; by apply lookup_app_l_Some|lia|]. apply lookup_lt_Some in Hj. lia.
  - assert (Hi' : (i < length l)%nat) by (apply lookup_lt_Some in Hx; rewrite length_app in Hx; cbn in Hx; lia). destruct (decide (j = i)) as [->|Hji].
    + rewrite list_lookup_insert_eq in Hj by done. injection Hj as <-. unfold d1. rewrite ?alen_app. change (alen [z]) with 1. rewrite (proj2 (Z.ltb_lt (Z.of_nat i) (alen l + 1 - 1))) by (unfold alen; lia). destruct (set_word_copy d (8 + Z.of_nat i * 4) d (4 + (alen l + 1) * 4)) as [S _]; [lia|unfold alen; lia|].
      rewrite S. rewrite <- (H3 (length l) z) by by apply list_lookup_middle. f_equal. unfold alen. lia.
    + rewrite list_lookup_insert_ne in Hj by done. rewrite Hs1 by lia. apply H3. by apply lookup_app_l_Some.
Qed.

Definition promote_page (d e : list Z) (k : Z) : list Z :=
  fwrite (fwrite (fwrite d 0 (fread e 0 4)) 4 (store32 true (k - 1))) 8 (fread e 12 ((k - 1) * 4)).

Lemma promote_page_trunk d e q ls : is_u32 (alen (q :: ls)) -> trunk_page e (q :: ls) -> trunk_page (promote_page d e (alen (q :: ls))) ls /\ word (promote_page d e (alen (q :: ls))) 0 = word e 0.
Proof.
  rewrite alen_cons. intros Hu (H1 & H2 & H3). rewrite alen_cons in H1. pose proof (alen_nonneg ls) as Hn. unfold promote_page. replace (alen ls + 1 - 1) with (alen ls) by lia.
  destruct (set_word_copy d 0 e 0 ltac:(lia) ltac:(lia)) as [A1 A2]. set (d1 := fwrite d 0 _) in *. assert (Hk : is_u32 (alen ls)) by (unfold is_u32 in *; lia). destruct (set_word_put d1 4 (alen ls) ltac:(lia) Hk) as [B1 B2]. set (d2 := fwrite d1 4 _) in *.
  assert (C : forall o, 0 <= o -> o + 4 <= 8 -> word (fwrite d2 8 (fread e 12 (alen ls * 4))) o = word d2 o) by (intros o Ho Hd; apply word_write_other; lia).
  split; [|rewrite C, B2, A1 by lia; done]. split; [lia|]. split; [by rewrite C, B1 by lia|]. intros i x Hx. assert (Hi : Z.of_nat i < alen ls) by (apply lookup_lt_Some in Hx; unfold alen; lia).
  rewrite word_copy by lia. rewrite <- (H3 (S i) x) by done. f_equal. lia.
Qed.

Definition push_page (d : list Z) (k p : Z) : list Z := fwrite (fwrite d 4 (store32 true (k + 1))) (8 + k * 4) (store32 true p).

Lemma push_page_trunk d ls p : alen ls < usableSize bt / 4 - 2 -> usableSize bt <= 65536 -> is_u32 p -> trunk_page d ls -> trunk_page (push_page d (alen ls) p) (ls ++ [p]) /\ word (push_page d (alen ls) p) 0 = word d 0.
Proof.
  intros Hl Hus Hp (H1 & H2 & H3). pose proof (alen_nonneg ls) as Hn. assert (Hu : usableSize bt / 4 <= 16384) by (apply (Z.div_le_mono _ 65536 4); lia). unfold push_page.
  assert (Hk : is_u32 (alen ls + 1)) by (unfold is_u32; lia). destruct (set_word_put d 4 (alen ls + 1) ltac:(lia) Hk) as [A1 A2]. set (d1 := fwrite d 4 _) in *. destruct (set_word_put d1 (8 + alen ls * 4) p ltac:(lia) Hp) as [B1 B2].
  split; [|rewrite B2, A2 by lia; done]. split; [rewrite alen_app; change (alen [p]) with 1; lia|]. split; [rewrite B2, A1, alen_app by lia; done|]. intros i x [Hx|[Hi Hx]]%lookup_app_Some.
  - assert (Hi : Z.of_nat i < alen ls) by (apply lookup_lt_Some in Hx; unfold alen; lia). rewrite B2, A2 by lia. by apply H3.
  - apply list_lookup_singleton_Some in Hx as [Hx <-]. replace (8 + Z.of_nat i * 4) with (8 + alen ls * 4) by (unfold alen; lia). done.
Qed.

Lemma new_trunk_page d it : 0 <= usableSize bt / 4 - 2 -> is_u32 it -> trunk_page (fwrite (fwrite d 0 (store32 true it)) 4 (store32 true 0)) [] /\ word (fwrite (fwrite d 0 (store32 true it)) 4 (store32 true 0)) 0 = it.
Proof.
  intros Hu Hi. destruct (set_word_put d 0 it ltac:(lia) Hi) as [A1 A2]. set (d1 := fwrite d 0 _) in *. destruct (set_word_put d1 4 0 ltac:(lia) ltac:(done)) as [B1 B2]. split; [|by rewrite B2 by lia]. split; [done|]. split; [done|]. done.
Qed.
End Chain.
