(* ===== verification/BtFreeOps.v ===== *)
(** * Free pages: what the operations do to the list

    Partial correctness of programs of the monad (that they return is in [BtFreeWp.v]): a result
    SQLITE_OK comes with the change of the list, another result only after a failure of the
    pager.  The state is followed by its contents, references and number of pages. *)
From S2P Require Import Prelude Bytes FileIO Ints BtBase BtFree BtFreeWp BtFreeList.

Definition wlp {A} (m : BtM A) (Q : A -> BtState -> Prop) (s : BtState) : Prop := forall x s', m s = Some (x, s') -> Q x s'.

Lemma wlp_ret {A} (x : A) Q s : Q x s -> wlp (mret x) Q s.
Proof. intros H y s' E. by injection E as <- <-. Qed.

Lemma wlp_bind {A B} (m : BtM A) (f : A -> BtM B) Q s : wlp m (fun x s' => wlp (f x) Q s') s -> wlp (m ≫= f) Q s.
Proof. intros H y s2. unfold mbind, BtM_bind. destruct (m s) as [[x s1]|] eqn:E; [|done]. by apply H. Qed.

Lemma wlp_mono {A} (m : BtM A) (P Q : A -> BtState -> Prop) s : wlp m P s -> (forall x s', P x s' -> Q x s') -> wlp m Q s.
Proof. intros H HPQ x s' E. by apply HPQ, H. Qed.

Lemma wlp_any {A} (m : BtM A) (Q : A -> BtState -> Prop) s : (forall x s', Q x s') -> wlp m Q s.
Proof. intros H x s' _. apply H. Qed.

Lemma wlp_get {A} (f : BtState -> A) (Q : A -> BtState -> Prop) s : Q (f s) s -> wlp (st_get f) Q s.
Proof. intros H x s' E. by injection E as <- <-. Qed.

Lemma wlp_upd f Q s : Q () (f s) -> wlp (st_upd f) Q s.
Proof. intros H x s' E. by injection E as <- <-. Qed.

Lemma wp_wlp {A} (m : BtM A) (P Q : A -> BtState -> Prop) s : wp m P s -> wlp m Q s -> wp m (fun x s' => P x s' /\ Q x s') s.
Proof. intros (x & s' & E & H) HQ. exists x, s'. auto. Qed.

(** ** Views of the state *)

Section Ops.
Context (bt : BtShared) (mxPgno : Z) (bDoTruncate : bool) (io0 : list Z).

(** A call of the pager has failed or can fail. *)
Definition fails : Prop := ~ Forall (fun e => e = SQLITE_OK) io0.

Record st_view (D : gmap Z (list Z)) (R : list Z) (N : Z) (s : BtState) : Prop := {
  v_data : st_data s = D;
  v_refs : st_refs s ≡ₚ R;
  v_nPage : st_nPage s = N;
  v_io : Forall (fun e => e = SQLITE_OK) io0 -> Forall (fun e => e = SQLITE_OK) (st_io s);
  v_init : autoVacuum bt = true -> forall p, p ∈ st_isInit s -> PTRMAP_ISPAGE bt p = false
}.

(** With SQLITE_OK comes [P]. *)
Definition ok_or (P : BtState -> Prop) (rc : Z) (s : BtState) : Prop := rc = SQLITE_OK /\ P s \/ rc <> SQLITE_OK /\ fails.

Lemma l_io D R N Q s : st_view D R N s -> (forall s', st_view D R N s' -> Q SQLITE_OK s') -> (forall rc s', rc <> SQLITE_OK -> fails -> Q rc s') -> wlp next_io Q s.
Proof.
  intros [V1 V2 V3 V4 V5] Hok Herr x s' E. injection E as Ex Es'. subst s'. destruct (st_io s) as [|e io] eqn:Eio; cbn in Ex; subst x.
  - apply Hok. by split.
  - destruct (decide (e = SQLITE_OK)) as [->|Hne]; [|apply Herr; [done|]; intros H; apply V4 in H; by inversion H]. apply Hok. split; try done. intros H. apply V4 in H. by inversion H.
Qed.

Lemma l_get4 D R N p off d Q s : st_view D R N s -> D !! p = Some d -> Q (word d off) s -> wlp (get4byte_at p off) Q s.
Proof.
  intros [<- _ _ _ _] Hd HQ x s'. unfold get4byte_at. rewrite Hd. cbn [mbind option_bind]. destruct (mread d off 4) as [bs|] eqn:Em; [|done]. cbn [mbind option_bind]. unfold mread in Em. destruct (_ && _); [|done]. injection Em as <-. rewrite load_word. cbn [mbind option_bind]. intros E. by injection E as <- <-.
Qed.

Lemma l_bytes D R N p off n d Q s : st_view D R N s -> D !! p = Some d -> Q (fread d off n) s -> wlp (bytes_at p off n) Q s.
Proof.
  intros [<- _ _ _ _] Hd HQ x s'. unfold bytes_at. rewrite Hd. cbn [mbind option_bind]. destruct (mread d off n) as [bs|] eqn:Em; [|done]. cbn [mbind option_bind]. unfold mread in Em. destruct (_ && _); [|done]. injection Em as <-. intros E. by injection E as <- <-.
Qed.

Lemma l_memcpy D R N p off bs d Q s : st_view D R N s -> D !! p = Some d -> (forall s', st_view (<[p := fwrite d off bs]> D) R N s' -> Q () s') -> wlp (memcpy_to p off bs) Q s.
Proof.
  intros [<- V2 V3 V4 V5] Hd HQ x s'. unfold memcpy_to. rewrite Hd. cbn [mbind option_bind]. destruct (mwrite d off bs) as [d'|] eqn:Em; [|done]. cbn [mbind option_bind]. unfold mwrite in Em. destruct (_ && _); [|done]. injection Em as <-. intros E. injection E as <- <-. apply HQ. by split.
Qed.

Lemma l_put4 D R N p off v d Q s : st_view D R N s -> D !! p = Some d -> (forall s', st_view (<[p := fwrite d off (store32 true v)]> D) R N s' -> Q () s') -> wlp (put4byte_at p off v) Q s.
Proof. apply l_memcpy. Qed.

Lemma l_copy D R N dst doff src soff n d e Q s : st_view D R N s -> D !! dst = Some d -> D !! src = Some e -> (forall s', st_view (<[dst := fwrite d doff (fread e soff n)]> D) R N s' -> Q () s') -> wlp (memcpy_pages dst doff src soff n) Q s.
Proof. intros V Hd He HQ. unfold memcpy_pages. destruct (_ && _); [done|]. apply wlp_bind. eapply l_bytes; [done|done|]. by eapply l_memcpy. Qed.

Lemma l_release D R R' N p Q s : st_view D R N s -> R ≡ₚ p :: R' -> (forall s', st_view D R' N s' -> Q () s') -> wlp (releasePage p) Q s.
Proof. intros [V1 V2 V3 V4 V5] HR HQ. apply wlp_upd, HQ. split; try done. apply unref_perm. by rewrite V2. Qed.

Lemma l_release_opt D R R' N o Q s : st_view D R N s -> R ≡ₚ option_list o ++ R' -> (forall s', st_view D R' N s' -> Q () s') -> wlp (releasePageOpt o) Q s.
Proof. intros V HR HQ. destruct o as [p|]; [eapply l_release; [exact V|exact HR|exact HQ]|]. apply wlp_ret, HQ. destruct V. split; try done. by rewrite v_refs0. Qed.

Lemma l_ref D R N p Q s : st_view D R N s -> (forall s', st_view D (p :: R) N s' -> Q () s') -> wlp (sqlite3PagerRef p) Q s.
Proof. intros [V1 V2 V3 V4 V5] HQ. apply wlp_upd, HQ. split; try done. cbn [with_refs st_refs]. by rewrite V2. Qed.

Lemma l_isInit D R N p Q s : st_view D R N s -> (forall s', st_view D R N s' -> Q () s') -> wlp (set_isInit0 p) Q s.
Proof. intros [V1 V2 V3 V4 V5] HQ. apply wlp_upd, HQ. split; try done. cbn [with_isInit st_isInit]. intros Ha q Hq. apply V5; [done|]. set_solver. Qed.

(** Contents after a page has been got. *)
Definition got_page (D : gmap Z (list Z)) (p : Z) (nc : bool) (D' : gmap Z (list Z)) : Prop :=
  is_Some (D' !! p) /\ (forall q, q <> p -> D' !! q = D !! q) /\ (nc = false -> is_Some (D !! p) -> D' = D).

Lemma l_get D R N p nc Q s : st_view D R N s -> p <> 0 -> p <> PENDING_BYTE_PAGE bt -> p <= mxPgno -> (forall D' s', got_page D p nc D' -> st_view D' (p :: R) N s' -> Q SQLITE_OK s') ->
  (forall rc s', rc <> SQLITE_OK -> fails -> Q rc s') -> wlp (btreeGetPage bt mxPgno p nc) Q s.
Proof.
  intros V H0 Hp Hm Hok Herr. unfold btreeGetPage, sqlite3PagerGet. rewrite (proj2 (Z.eqb_neq _ _) H0). apply wlp_bind. eapply l_io; [exact V| |intros rc s' Hr Hf; rewrite (proj2 (Z.eqb_neq _ _) Hr); apply wlp_ret; by apply Herr].
  clear s V. intros s [V1 V2 V3 V4 V5]. change (SQLITE_OK =? SQLITE_OK) with true. cbn [negb]. rewrite (proj2 (Z.eqb_neq _ _) Hp). apply wlp_bind, wlp_get. assert (Eg : (p >? mxPgno) = false) by (rewrite Z.gtb_ltb; by apply Z.ltb_ge). rewrite Eg, andb_false_r.
  apply wlp_bind, wlp_upd, wlp_ret. rewrite V1. destruct (nc || bool_decide (D !! p = None)) eqn:Ef.
  - apply (Hok (<[p := replicate (Z.to_nat (pageSize bt)) 0]> D)).
    + split; [by rewrite lookup_insert_eq|]. split; [intros q Hq; by rewrite lookup_insert_ne|]. intros ->. cbn [orb] in Ef. apply bool_decide_eq_true in Ef. rewrite Ef. by intros [? ?].
    + split; try done; cbn [with_refs with_data st_data st_refs]; by rewrite V2.
  - apply orb_false_iff in Ef as [-> Ef%bool_decide_eq_false]. apply (Hok D); [|split; try done; cbn [with_refs st_refs]; by rewrite V2]. split; [by apply not_eq_None_Some|]. by split.
Qed.

Lemma l_unused D R N p nc Q s : st_view D R N s -> p ∉ R -> p <> 0 -> p <> PENDING_BYTE_PAGE bt -> p <= mxPgno -> (forall D' s', got_page D p nc D' -> st_view D' (p :: R) N s' -> Q SQLITE_OK s') ->
  (forall rc s', rc <> SQLITE_OK -> fails -> Q rc s') -> wlp (btreeGetUnusedPage bt mxPgno p nc) Q s.
Proof.
  intros V Hn H0 Hp Hm Hok Herr. unfold btreeGetUnusedPage. apply wlp_bind. eapply l_get; [done..| |intros rc s' Hr Hf; rewrite (proj2 (Z.eqb_neq _ _) Hr); apply wlp_ret; by apply Herr].
  intros D' s' HD V'. change (SQLITE_OK =? SQLITE_OK) with true. cbv iota. apply wlp_bind, wlp_get. assert (E : (refcount p (st_refs s') >? 1) = false).
  { rewrite Z.gtb_ltb, Z.ltb_ge, (v_refs _ _ _ _ V'), refcount_cons, Z.eqb_refl. pose proof (refcount_elem p R). pose proof (alen_nonneg (filter (fun q => q = p) R)). unfold refcount in *. destruct (Z.ltb_spec 0 (alen (filter (fun q => q = p) R))); [|lia]. exfalso. tauto. }
  rewrite E. apply wlp_bind. eapply l_isInit; [done|]. intros s2 V2. apply wlp_ret. by eapply Hok.
Qed.

(** ** Pointer maps *)

Context (Hcf : conf_ok bt).

(** Pages for data: not page 1, nor that of the locks, nor a pointer-map page. *)
Definition data_page (p : Z) : Prop := 2 <= p < 2 ^ 32 /\ p <> PENDING_BYTE_PAGE bt /\ (autoVacuum bt = true -> PTRMAP_ISPAGE bt p = false).

Definition pm_ofs (p : Z) : Z := 5 * (p - ptrmapPageno bt p - 1).

Lemma ptrmapPageno_spec p : 2 <= p -> exists q r N, N = usableSize bt / 5 + 1 /\ 97 <= N /\ 0 <= q /\ r = q * N + 2 /\ r <= p < r + N /\ ptrmapPageno bt p = if r =? PENDING_BYTE_PAGE bt then r + 1 else r.
Proof.
  intros Hp. destruct Hcf as [_ Hu]. set (N := usableSize bt / 5 + 1). assert (HN : 97 <= N) by (unfold N; assert (480 / 5 <= usableSize bt / 5) by (apply Z.div_le_mono; lia); change (480 / 5) with 96 in *; lia). exists ((p - 2) / N), ((p - 2) / N * N + 2), N.
  split; [done|]. split; [done|]. split; [apply Z.div_pos; lia|]. split; [done|]. split; [|unfold ptrmapPageno; by rewrite (proj2 (Z.ltb_ge p 2)) by lia]. pose proof (Z.mul_div_le (p - 2) N ltac:(lia)). pose proof (Z.mul_succ_div_gt (p - 2) N ltac:(lia)). generalize dependent ((p - 2) / N). intros. nia.
Qed.

(** Pages between two multiples have the same map. *)
Lemma ptrmapPageno_at q N p : N = usableSize bt / 5 + 1 -> 97 <= N -> 0 <= q -> q * N + 2 <= p < q * N + 2 + N -> ptrmapPageno bt p = if q * N + 2 =? PENDING_BYTE_PAGE bt then q * N + 2 + 1 else q * N + 2.
Proof.
  intros EN HN Hq Hp. assert (0 <= q * N) by (apply Z.mul_nonneg_nonneg; lia). unfold ptrmapPageno. rewrite (proj2 (Z.ltb_ge p 2)) by lia. rewrite <- EN. replace ((p - 2) / N) with q; [done|]. apply (Z.div_unique _ _ _ (p - 2 - q * N)); lia.
Qed.

Lemma ptrmapPageno_page p : 2 <= p -> 2 <= ptrmapPageno bt p /\ ptrmapPageno bt p <> PENDING_BYTE_PAGE bt /\ PTRMAP_ISPAGE bt (ptrmapPageno bt p) = true.
Proof.
  intros Hp. destruct (ptrmapPageno_spec p Hp) as (q & r & N & EN & HN & Hq & Er & Hr & Ep). assert (0 <= q * N) by (apply Z.mul_nonneg_nonneg; lia). rewrite Ep. unfold PTRMAP_ISPAGE. split; [destruct (_ =? _); lia|].
  split; [destruct (Z.eqb_spec r (PENDING_BYTE_PAGE bt)); lia|]. apply Z.eqb_eq. rewrite (ptrmapPageno_at q N) by (try done; destruct (r =? _); lia). by rewrite <- Er.
Qed.

Lemma data_page_ofs p : data_page p -> autoVacuum bt = true -> 0 <= pm_ofs p /\ PTRMAP_PTROFFSET (ptrmapPageno bt p) p = pm_ofs p.
Proof.
  intros (Hp & Hpe & Hpm) Ha. specialize (Hpm Ha). unfold PTRMAP_ISPAGE in Hpm. apply Z.eqb_neq in Hpm. destruct (ptrmapPageno_spec p ltac:(lia)) as (q & r & N & EN & HN & Hq & Er & Hr & Ep). unfold PTRMAP_PTROFFSET, pm_ofs.
  assert (Hlt : ptrmapPageno bt p < p <= ptrmapPageno bt p + N) by (rewrite Ep in *; destruct (Z.eqb_spec r (PENDING_BYTE_PAGE bt)); lia). split; [lia|]. apply i32_id. destruct Hcf as [? ?]. pose proof (Z.mul_div_le (usableSize bt) 5). lia.
Qed.

Lemma ofs_inj p q : ptrmapPageno bt p = ptrmapPageno bt q -> p <> q -> pm_ofs q + 5 <= pm_ofs p \/ pm_ofs p + 5 <= pm_ofs q.
Proof. unfold pm_ofs. lia. Qed.

Section Maps.
Context (D : gmap Z (list Z)) (R : list Z) (N key : Z) (d : list Z) (s : BtState).
Context (V : st_view D R N s) (Hk : data_page key) (Ha : autoVacuum bt = true) (Hd : D !! ptrmapPageno bt key = Some d) (Hm : ptrmapPageno bt key <= mxPgno).

Lemma l_ptrmapGet Q : (forall s', st_view D R N s' -> Q (if (fbyte d (pm_ofs key) <? 1) || (fbyte d (pm_ofs key) >? 5) then SQLITE_CORRUPT else SQLITE_OK, fbyte d (pm_ofs key), word d (pm_ofs key + 1)) s') ->
  (forall rc s', rc <> SQLITE_OK -> fails -> Q (rc, 0, 0) s') -> wlp (ptrmapGet bt mxPgno key) Q s.
Proof.
  intros Hok Herr. unfold ptrmapGet. cbv zeta. destruct (data_page_ofs key Hk Ha) as [Ho Eo]. rewrite Eo. destruct (ptrmapPageno_page key) as (P1 & P2 & _); [apply Hk|]. apply wlp_bind. eapply l_get; [exact V|lia|done|done| |].
  - intros D' s1 (_ & _ & HD) V1. rewrite HD in V1 by done. change (SQLITE_OK =? SQLITE_OK) with true. cbn [negb]. rewrite (proj2 (Z.ltb_ge (pm_ofs key) 0)) by done. apply wlp_bind. eapply l_bytes; [exact V1|exact Hd|]. apply wlp_bind. eapply l_get4; [exact V1|exact Hd|].
    apply wlp_bind. eapply l_release; [exact V1|done|]. intros s2 V2. apply wlp_ret. assert (E : default 0 (head (fread d (pm_ofs key) 1)) = fbyte d (pm_ofs key)) by (unfold fread, seqZ; cbn; f_equal; lia). rewrite E. by apply Hok.
  - intros rc s1 Hr Hf. rewrite (proj2 (Z.eqb_neq _ _) Hr). apply wlp_ret. by apply Herr.
Qed.

(** The entry is set, and no other one. *)
Definition entry_set (eType : Z) (d' : list Z) : Prop := fbyte d' (pm_ofs key) = eType /\ forall o, 0 <= o -> o < pm_ofs key \/ pm_ofs key + 5 <= o -> fbyte d' o = fbyte d o.

Lemma l_ptrmapPut eType parent Q : (forall d' s', entry_set eType d' -> st_view (<[ptrmapPageno bt key := d']> D) R N s' -> Q SQLITE_OK s') -> (forall rc s', rc <> SQLITE_OK -> fails -> Q rc s') -> wlp (ptrmapPut bt mxPgno key eType parent) Q s.
Proof.
  intros Hok Herr. unfold ptrmapPut. rewrite (proj2 (Z.eqb_neq key 0)) by (destruct Hk; lia). cbv zeta. destruct (data_page_ofs key Hk Ha) as [Ho Eo]. rewrite Eo. destruct (ptrmapPageno_page key) as (P1 & P2 & P3); [apply Hk|]. set (pm := ptrmapPageno bt key) in *.
  apply wlp_bind. eapply l_get; [exact V|lia|done|done| |]; [|intros rc s1 Hr Hf; rewrite (proj2 (Z.eqb_neq _ _) Hr); apply wlp_ret; by apply Herr].
  intros D' s1 (_ & _ & HD) V1. rewrite HD in V1 by done. change (SQLITE_OK =? SQLITE_OK) with true. cbn [negb]. apply wlp_bind, wlp_get. rewrite bool_decide_eq_false_2 by (intros Hi; apply (v_init _ _ _ _ V1 Ha) in Hi; congruence). rewrite (proj2 (Z.ltb_ge (pm_ofs key) 0)) by done.
  apply wlp_bind. eapply (wlp_mono _ (fun rc s' => ok_or (fun s' => exists d', entry_set eType d' /\ st_view (<[pm := d']> D) (pm :: R) N s') rc s')).
  - apply wlp_bind. eapply l_bytes; [exact V1|exact Hd|]. apply wlp_bind. eapply l_get4; [exact V1|exact Hd|]. assert (E : fread d (pm_ofs key) 1 = [fbyte d (pm_ofs key)]) by (unfold fread, seqZ; cbn; do 2 f_equal; lia). rewrite E.
    destruct (_ || _) eqn:Ec.
    + apply wlp_bind. eapply l_io; [exact V1| |intros rc s2 Hr Hf; rewrite (proj2 (Z.eqb_neq _ _) Hr); apply wlp_ret; by right]. intros s2 V2. change (SQLITE_OK =? SQLITE_OK) with true. cbv iota. apply wlp_bind. eapply l_memcpy; [exact V2|exact Hd|]. intros s3 V3.
      apply wlp_bind. eapply l_put4; [exact V3|apply lookup_insert_eq|]. intros s4 V4. rewrite insert_insert_eq in V4. apply wlp_ret. left. split; [done|]. eexists. split; [|exact V4].
      assert (W : forall o, 0 <= o -> o < pm_ofs key + 1 \/ pm_ofs key + 5 <= o -> fbyte (fwrite (fwrite d (pm_ofs key) [eType]) (pm_ofs key + 1) (store32 true parent)) o = fbyte (fwrite d (pm_ofs key) [eType]) o).
      { intros o Hoo Hd'. rewrite fbyte_write, alen_store32 by lia. destruct (Z.leb_spec (pm_ofs key + 1) o), (Z.ltb_spec o (pm_ofs key + 1 + 4)); cbn [andb]; try done. lia. }
      split; [rewrite W, fbyte_write by lia; change (alen [eType]) with 1; rewrite (proj2 (Z.leb_le _ _)), (proj2 (Z.ltb_lt (pm_ofs key) (pm_ofs key + 1))) by lia; cbn [andb]; by rewrite Z.sub_diag|].
      intros o Hoo Hd'. rewrite W, fbyte_write by lia. change (alen [eType]) with 1. destruct (Z.leb_spec (pm_ofs key) o), (Z.ltb_spec o (pm_ofs key + 1)); cbn [andb]; try done. lia.
    + apply orb_false_iff in Ec as [Ec%negb_false_iff%bool_decide_eq_true _]. injection Ec as Ec. apply wlp_ret. left. split; [done|]. exists d. split; [by split|]. by rewrite insert_id.
  - intros rc s2 [[-> (d' & He & V2)]|[Hr Hf]]; cbv beta; [|apply wlp_bind, wlp_any; intros [] s3; apply wlp_ret; by apply Herr]. apply wlp_bind. eapply l_release; [exact V2|done|]. intros s3 V3. apply wlp_ret. by eapply Hok.
Qed.
End Maps.

(** ** Giving a page back *)

(** The branch for a result code that is not SQLITE_OK. *)
Ltac l_err := let rc := fresh "rc" in let Hr := fresh "Hr" in let Hf := fresh "Hf" in
  intros rc ? Hr Hf; cbv beta; rewrite ?(proj2 (Z.eqb_neq _ _) Hr); cbn [negb]; repeat (apply wlp_bind, wlp_any; intros ? ?); apply wlp_ret; right; done.
Ltac l_ok := change (SQLITE_OK =? SQLITE_OK) with true; cbn [negb]; cbv iota.

(** [p] is on the list now, and [A] are the pages written. *)
Definition pushed (D : gmap Z (list Z)) (ts : list (Z * list Z)) (p c : Z) (D' : gmap Z (list Z)) (ts' : list (Z * list Z)) : Prop :=
  tchain bt D' ts' 0 c /\ free_of ts' ≡ₚ p :: free_of ts /\ forall q, q <> 1 -> q <> p -> q ∉ free_of ts -> D' !! q = D !! q.

Definition first_trunk (ts : list (Z * list Z)) : Z := match ts with [] => 0 | (t, _) :: _ => t end.

Lemma trunks_nodup ts N : NoDup (free_of ts) -> (forall q, q ∈ free_of ts -> data_page q /\ q <= N) -> NoDup (1 :: ts.*1).
Proof. intros Hnd Hfd. constructor; [|by apply free_NoDup_trunks]. intros Hi%trunks_free%Hfd. destruct Hi as [[? _] _]. lia. Qed.

Lemma p_not_trunk ts p : data_page p -> p ∉ free_of ts -> p ∉ 1 :: ts.*1.
Proof. intros Hp Hpf [->|Hi%trunks_free]%elem_of_cons; [destruct Hp; lia|done]. Qed.

Lemma tchain_head D ts c : tchain bt D ts 0 c -> exists d, D !! 1 = Some d /\ word d 36 = c /\ word d 32 = first_trunk ts.
Proof. intros (d & Hd & Hc & Hs). exists d. split; [done|]. split; [done|]. destruct ts as [|[t ls] b]; [done|]. by destruct Hs. Qed.

Section Free.
Context (D : gmap Z (list Z)) (ts : list (Z * list Z)) (R0 : list Z) (N p c : Z).
Context (Hch : tchain bt D ts 0 c) (Hnd : NoDup (free_of ts)) (Hfd : forall q, q ∈ free_of ts -> data_page q /\ q <= N) (Hp : data_page p) (HpN : p <= N) (Hpf : p ∉ free_of ts) (HN : N <= mxPgno).

Lemma l_free_as_trunk (b : bool) t s : (b = true -> is_Some (D !! p)) -> st_view D (free_refs b p t ++ R0) N s ->
  wlp (free_as_trunk bt mxPgno b p (first_trunk ts) t) (fun r => ok_or (fun s' => exists D' ts', st_view D' (free_refs r.1.2 p r.2 ++ R0) N s' /\ pushed D ts p c D' ts') r.1.1) s.
Proof.
  intros Hb V. unfold free_as_trunk. set (it := first_trunk ts). apply wlp_bind.
  eapply (wlp_mono _ (fun rc s' => ok_or (fun s' => exists D', is_Some (D' !! p) /\ (forall q, q <> p -> D' !! q = D !! q) /\ st_view D' (free_refs true p t ++ R0) N s') rc s')).
  { destruct b; [apply wlp_ret; left; split; [done|]; exists D; auto|]. destruct Hp as (? & ? & _). eapply l_get; [exact V|lia|done|lia| |]; [|intros rc s' Hr Hf; by right]. intros D' s' (G1 & G2 & _) V'. left. split; [done|]. by exists D'. }
  intros rc s1 [[-> (D1 & [d Hd] & HD & V1)]|[Hr Hf]]; [|revert rc s1 Hr Hf; l_err]. cbv beta. l_ok. apply wlp_bind. eapply l_io; [exact V1| |l_err]. clear s1 V1. intros s1 V1. l_ok.
  destruct (tchain_head D ts c Hch) as (d1 & H1 & Hc & Hw). pose proof (p_not_trunk ts p Hp Hpf) as Hnt. assert (H1p : 1 <> p) by (intros E; apply Hnt; rewrite <- E; left). assert (H11 : D1 !! 1 = Some d1) by by rewrite HD.
  apply wlp_bind. eapply l_put4; [exact V1|exact Hd|]. intros s2 V2. apply wlp_bind. eapply l_put4; [exact V2|apply lookup_insert_eq|]. intros s3 V3. rewrite insert_insert_eq in V3. apply wlp_bind. eapply l_put4; [exact V3|rewrite lookup_insert_ne by done; exact H11|]. intros s4 V4.
  apply wlp_ret. left. split; [done|]. eexists _, ((p, []) :: ts). split; [exact V4|]. split; [|split; [done|]; intros q Hq1 Hqp _; rewrite !lookup_insert_ne by done; by apply HD].
  assert (Hit : is_u32 it). { subst it. unfold is_u32, first_trunk. destruct ts as [|[u ls] ts']; [lia|]. destruct (Hfd u) as [[? _] _]; [left|lia]. } assert (Hpu : is_u32 p) by (unfold is_u32; destruct Hp; lia).
  destruct (new_trunk_page bt d it) as [T1 T2]; [destruct Hcf as [_ ?]; pose proof (Z.div_le_mono 480 (usableSize bt) 4); change (480 / 4) with 120 in *; lia|done|]. destruct (set_word_put d1 32 p ltac:(lia) Hpu) as [W1 W2].
  eexists. split; [apply lookup_insert_eq|]. split; [rewrite W2 by lia; exact Hc|]. split; [done|]. eexists. split; [rewrite lookup_insert_ne by done; apply lookup_insert_eq|]. split; [done|]. rewrite T2.
  destruct Hch as (d1' & H1' & _ & Hs). rewrite H1 in H1'. injection H1' as <-. rewrite Hw in Hs. fold it in Hs. eapply tseg_frame; [|exact Hs]. intros u Hu. assert (u <> p) by (intros ->; apply Hnt; by right).
  assert (u <> 1) by (intros ->; by pose proof (trunks_nodup ts N Hnd Hfd) as [? _]%NoDup_cons). rewrite !lookup_insert_ne by done. by apply HD.
Qed.

Lemma ts_cases : ts = [] \/ exists t ls b, ts = (t, ls) :: b.
Proof. destruct ts as [|[t ls] b]; [by left|right]. by exists t, ls, b. Qed.

Lemma l_setHasContent D' R s : st_view D' R N s -> wlp (btreeSetHasContent p) (ok_or (st_view D' R N)) s.
Proof.
  intros V. unfold btreeSetHasContent. apply wlp_bind, wlp_get, wlp_bind, wlp_get, wlp_bind. eapply (wlp_mono _ (ok_or (st_view D' R N))).
  - destruct (st_hasContent s); [apply wlp_ret; by left|]. apply wlp_bind. eapply l_io; [exact V| |]; [|intros rc s' Hr Hf; rewrite (proj2 (Z.eqb_neq _ _) Hr); apply wlp_ret; by right]. intros s1 V1. l_ok. apply wlp_bind, wlp_upd, wlp_ret. left. split; [done|]. by destruct V1.
  - intros rc s1 [[-> V1]|[Hr Hf]]; cbv beta; apply wlp_bind, wlp_get; destruct (st_hasContent s1) as [[sz X]|]; [| |rewrite (proj2 (Z.eqb_neq _ _) Hr); apply wlp_ret; by right|apply wlp_ret; by right]; [|apply wlp_ret; by left].
    l_ok. cbn [andb]. destruct (p <=? sz); [|apply wlp_ret; by left]. apply wlp_bind. eapply l_io; [exact V1| |l_err]. intros s2 V2. l_ok. apply wlp_bind, wlp_upd, wlp_ret. left. split; [done|]. by destruct V2.
Qed.

Lemma l_free_to_trunk (b : bool) n s : (b = true -> is_Some (D !! p)) -> n = alen (free_of ts) -> st_view D (free_refs b p None ++ R0) N s ->
  wlp (free_to_trunk bt mxPgno b p n) (fun r => ok_or (fun s' => exists D' ts', st_view D' (free_refs r.1.2 p r.2 ++ R0) N s' /\ pushed D ts p c D' ts') r.1.1) s.
Proof.
  intros Hb Hn V. unfold free_to_trunk. destruct (tchain_head D ts c Hch) as (d1 & H1 & Hc & Hw). destruct ts_cases as [Ets|(t & ls & ts' & Ets)].
  { assert (E0 : n = 0) by (rewrite Hn, Ets; done). rewrite E0, Z.eqb_refl. pose proof (l_free_as_trunk b None s Hb V) as L. replace (first_trunk ts) with 0 in L by by rewrite Ets. exact L. }
  rewrite (proj2 (Z.eqb_neq n 0)) by (rewrite Hn, Ets; unfold free_of, alen; cbn; lia). assert (Eft : first_trunk ts = t) by by rewrite Ets. rewrite Eft in Hw.
  assert (Ht : data_page t /\ t <= N) by (apply Hfd; rewrite Ets; left). destruct Ht as [(Ht2 & Htp & _) HtN].
  apply wlp_bind. eapply l_get4; [exact V|exact H1|]. rewrite Hw. apply wlp_bind, wlp_get. rewrite (v_nPage _ _ _ _ V). rewrite Z.gtb_ltb, (proj2 (Z.ltb_ge N t)) by done.
  pose proof Hch as Hs. destruct Hs as (d1' & H1' & _ & Hs). rewrite H1 in H1'. injection H1' as <-. rewrite Hw, Ets in Hs. destruct Hs as (_ & e & He & Htr & Hs).
  apply wlp_bind. eapply l_get; [exact V|lia|done|lia| |l_err]. intros D' s1 (_ & _ & HD) V1. rewrite HD in V1 by done. l_ok.
  assert (V1' : st_view D (free_refs b p (Some t) ++ R0) N s1). { destruct V1. split; try done. rewrite v_refs0. unfold free_refs. cbn [option_list]. rewrite app_nil_r, <- app_assoc. cbn [app]. by rewrite Permutation_middle. }
  pose proof Htr as (T1 & T2 & T3). apply wlp_bind. eapply l_get4; [exact V1'|exact He|]. rewrite T2, Z.gtb_ltb, (proj2 (Z.ltb_ge _ (alen ls))) by done. destruct (Z.ltb_spec (alen ls) (usableSize bt / 4 - 8)) as [Hl|Hl].
  - apply wlp_bind. eapply l_io; [exact V1'| |l_err]. intros s2 V2. l_ok. apply wlp_bind. eapply l_put4; [exact V2|exact He|]. intros s3 V3. apply wlp_bind. eapply l_put4; [exact V3|apply lookup_insert_eq|]. intros s4 V4. rewrite insert_insert_eq in V4.
    rewrite dont_write_ret. apply wlp_bind, wlp_ret, wlp_bind. eapply wlp_mono; [by apply l_setHasContent|]. intros rc s5 [[-> V5]|[Hr Hf]]; apply wlp_ret; [left|by right]. split; [done|]. eexists _, ((t, ls ++ [p]) :: ts'). split; [exact V5|]. change (fwrite (fwrite e 4 _) _ _) with (push_page e (alen ls) p).
    destruct (push_page_trunk bt e ls p) as [P1 P2]; [lia|destruct Hcf as [? ?]; lia|unfold is_u32; destruct Hp; lia|done|]. split; [|split].
    + apply (tchain_set_leaves bt D _ [] t ls _ ts' 0 c e (push_page e (alen ls) p)); try done; [apply lookup_insert_eq|intros u _ Hu; by rewrite lookup_insert_ne|cbn [app]; rewrite <- Ets; by apply (trunks_nodup ts N)|cbn [app]; by rewrite <- Ets].
    + rewrite Ets. unfold free_of. cbn [map concat fst snd app]. rewrite <- app_assoc. cbn [app]. rewrite <- Permutation_middle. apply Permutation_swap.
    + intros q Hq1 Hqp Hqf. rewrite lookup_insert_ne; [done|]. intros <-. apply Hqf. rewrite Ets. left.
  - pose proof (l_free_as_trunk b (Some t) s1 Hb V1') as L. rewrite Eft in L. exact L.
Qed.
End Free.

Lemma tchain_count D ts q c c' d d' : D !! 1 = Some d -> set_word d 36 c' d' -> 1 ∉ ts.*1 -> tchain bt D ts q c -> tchain bt (<[1 := d']> D) ts q c'.
Proof.
  intros Hd [W1 W2] Hn (e & He & _ & Hs). rewrite Hd in He. injection He as <-. exists d'. split; [apply lookup_insert_eq|]. split; [done|]. rewrite W2 by lia. eapply tseg_frame; [|exact Hs]. intros t Ht. rewrite lookup_insert_ne; [done|]. intros E. by rewrite <- E in Ht.
Qed.

(** The type of a page in the pointer map *)
Definition pm_entry (D : gmap Z (list Z)) (p : Z) : option Z := (fun d => fbyte d (pm_ofs p)) <$> D !! ptrmapPageno bt p.

Definition freed (D : gmap Z (list Z)) (ts : list (Z * list Z)) (p : Z) (D' : gmap Z (list Z)) (ts' : list (Z * list Z)) : Prop :=
  tchain bt D' ts' 0 (alen (free_of ts')) /\ free_of ts' ≡ₚ p :: free_of ts /\
  (forall q, q <> 1 -> q <> p -> (autoVacuum bt = true -> q <> ptrmapPageno bt p) -> q ∉ free_of ts -> D' !! q = D !! q) /\
  (autoVacuum bt = true -> pm_entry D' p = Some PTRMAP_FREEPAGE /\ forall q, data_page q -> q <> p -> pm_entry D' q = pm_entry D q).

Section FreePage.
Context (D : gmap Z (list Z)) (ts : list (Z * list Z)) (R0 : list Z) (N p : Z).
Context (Hch : tchain bt D ts 0 (alen (free_of ts))) (Hnd : NoDup (free_of ts)) (Hfd : forall q, q ∈ free_of ts -> data_page q /\ q <= N) (Hp : data_page p) (HpN : p <= N) (Hpf : p ∉ free_of ts) (HN : N <= mxPgno).
Context (Hlen : alen (free_of ts) < 2 ^ 32 - 1) (Hpm : autoVacuum bt = true -> is_Some (D !! ptrmapPageno bt p)).

Lemma map_not_data q r : autoVacuum bt = true -> data_page q -> 2 <= r -> ptrmapPageno bt r <> q.
Proof. intros Ha (_ & _ & H) Hr <-. specialize (H Ha). destruct (ptrmapPageno_page r Hr) as (_ & _ & H'). congruence. Qed.

(** Contents before the list is changed: the count and the pointer map are. *)
Definition free_prepared (D' : gmap Z (list Z)) : Prop :=
  tchain bt D' ts 0 (alen (free_of ts) + 1) /\ (forall q, q <> 1 -> q <> p -> (autoVacuum bt = true -> q <> ptrmapPageno bt p) -> D' !! q = D !! q) /\
  (autoVacuum bt = true -> pm_entry D' p = Some PTRMAP_FREEPAGE /\ forall q, data_page q -> q <> p -> pm_entry D' q = pm_entry D q).

Lemma pushed_freed D' D'' ts' : free_prepared D' -> pushed D' ts p (alen (free_of ts) + 1) D'' ts' -> freed D ts p D'' ts'.
Proof.
  intros (_ & P2 & P3) (Q1 & Q2 & Q3). assert (Hent : autoVacuum bt = true -> forall q, data_page q -> pm_entry D'' q = pm_entry D' q).
  { intros Ha q Hq. unfold pm_entry. pose proof (proj1 Hq) as [Hq2 _]. rewrite Q3; [done|..].
    - destruct (ptrmapPageno_page q Hq2) as (? & _). lia.
    - by apply map_not_data.
    - intros [Hd _]%Hfd. by apply (map_not_data _ q Ha Hd). }
  split; [|split; [done|split]].
  - replace (alen (free_of ts')) with (alen (free_of ts) + 1); [done|]. rewrite <- (alen_cons p). unfold alen. by rewrite (Permutation_length Q2).
  - intros q H1 H2 H3 H4. rewrite Q3 by done. by apply P2.
  - intros Ha. destruct (P3 Ha) as [E1 E2]. rewrite Hent by done. split; [done|]. intros q Hq Hne. rewrite Hent by done. by apply E2.
Qed.

Lemma l_free_map D2 R s : st_view D2 R N s -> tchain bt D2 ts 0 (alen (free_of ts) + 1) -> (forall q, q <> 1 -> q <> p -> D2 !! q = D !! q) ->
  wlp (if autoVacuum bt then ptrmapPut bt mxPgno p PTRMAP_FREEPAGE 0 else mret SQLITE_OK) (ok_or (fun s' => exists D3, st_view D3 R N s' /\ (is_Some (D2 !! p) -> is_Some (D3 !! p)) /\ free_prepared D3)) s.
Proof.
  intros V2 C2 F2. destruct (autoVacuum bt) eqn:Ha; [|apply wlp_ret; left; split; [done|]; exists D2; split; [done|]; split; [done|]; split; [done|]; split; [by intros; apply F2|intros; congruence]].
  pose proof (proj1 Hp) as [Hp2 _]. destruct (ptrmapPageno_page p Hp2) as (M1 & M2 & M3). destruct (data_page_ofs p Hp Ha) as [Ho _]. destruct (Hpm eq_refl) as [d Hd]. assert (Hmp : ptrmapPageno bt p <> p) by by apply map_not_data.
  assert (Hd2 : D2 !! ptrmapPageno bt p = Some d) by (rewrite F2 by lia; done). eapply (l_ptrmapPut D2 R N p d s V2 Hp Ha Hd2); [unfold pm_ofs in Ho; lia| |intros rc s' Hr Hf; by right].
  intros d' s' [E1 E2] V3. left. split; [done|]. eexists. split; [exact V3|]. split; [intros ?; by rewrite lookup_insert_ne|]. split; [|split; [intros q Q1 Q2 Q3; rewrite lookup_insert_ne by (intros E; by apply Q3); by apply F2|]].
  - eapply tchain_frame; [|exact C2]. intros u Hu. rewrite lookup_insert_ne; [done|]. intros <-. apply elem_of_cons in Hu as [?|[Hu _]%trunks_free%Hfd]; [lia|]. by apply (map_not_data _ p Ha Hu).
  - intros _. unfold pm_entry. rewrite lookup_insert_eq. cbn. split; [by rewrite E1|]. intros q Hq Hne. pose proof (proj1 Hq) as [Hq2 _]. destruct (decide (ptrmapPageno bt q = ptrmapPageno bt p)) as [Em|Em].
    + rewrite Em, lookup_insert_eq, Hd. cbn. f_equal. apply E2; [by apply data_page_ofs|]. pose proof (ofs_inj p q). lia.
    + rewrite lookup_insert_ne by done. destruct (ptrmapPageno_page q Hq2) as (? & _). rewrite F2; [done|lia|]. by apply map_not_data.
Qed.

Lemma l_free_body (b : bool) s : (b = true -> is_Some (D !! p)) -> st_view D (free_refs b p None ++ R0) N s ->
  wlp (free_body bt mxPgno b p) (fun r => ok_or (fun s' => exists D' ts', st_view D' (free_refs r.1.2 p r.2 ++ R0) N s' /\ freed D ts p D' ts') r.1.1) s.
Proof.
  intros Hb V. unfold free_body. destruct (tchain_head D ts _ Hch) as (d1 & H1 & Hc & _). pose proof (trunks_nodup ts N Hnd Hfd) as Hnt. pose proof (p_not_trunk ts p Hp Hpf) as Hpt.
  assert (H1p : 1 <> p) by (intros E; apply Hpt; rewrite <- E; left). apply wlp_bind. eapply l_io; [exact V| |l_err]. clear s V. intros s V. l_ok. apply wlp_bind. eapply l_get4; [exact V|exact H1|]. rewrite Hc. set (n := alen (free_of ts)) in *.
  apply wlp_bind. eapply l_put4; [exact V|exact H1|]. clear s V. intros s V. pose proof (alen_nonneg (free_of ts)) as Hn0. fold n in Hn0. assert (Hn : is_u32 (n + 1)) by (unfold is_u32; lia). rewrite (u32_id _ Hn) in V. set (D1 := <[1 := _]> D) in *.
  assert (C1 : tchain bt D1 ts 0 (n + 1)). { eapply tchain_count; [exact H1|by apply set_word_put|by apply NoDup_cons in Hnt as []|exact Hch]. }
  assert (F1 : forall q, q <> 1 -> D1 !! q = D !! q) by (intros q Hq; unfold D1; by rewrite lookup_insert_ne).
  apply wlp_bind. eapply (wlp_mono _ (fun r => ok_or (fun s' => exists D2, st_view D2 (free_refs r.2 p None ++ R0) N s' /\ (r.2 = true -> is_Some (D2 !! p)) /\ forall q, q <> p -> D2 !! q = D1 !! q) r.1)).
  { destruct (negb _); [|apply wlp_ret; left; split; [done|]; exists D1; split; [done|]; split; [|done]; intros Eb; rewrite F1; auto].
    apply wlp_bind. eapply (wlp_mono _ (ok_or (fun s' => exists D2, st_view D2 (free_refs true p None ++ R0) N s' /\ is_Some (D2 !! p) /\ forall q, q <> p -> D2 !! q = D1 !! q))).
    - destruct b; [apply wlp_ret; left; split; [done|]; exists D1; split; [done|]; split; [rewrite F1; auto|done]|]. destruct Hp as (? & ? & _). eapply l_get; [exact V|lia|done|lia| |]; [|intros rc s' Hr Hf; by right]. intros D' s' (G1 & G2 & _) V'. left. split; [done|]. by exists D'.
    - intros rc s1 [[-> (D2 & V2 & [d Hd] & F2)]|[Hr Hf]]; [|revert rc s1 Hr Hf; l_err]. cbv beta. l_ok. apply wlp_bind. eapply l_io; [exact V2| |l_err]. intros s2 V3. l_ok. apply wlp_bind. eapply l_memcpy; [exact V3|exact Hd|]. intros s3 V4. apply wlp_ret. left. split; [done|].
      eexists. split; [exact V4|]. split; [intros _; by rewrite lookup_insert_eq|]. intros q Hq. rewrite lookup_insert_ne by done. by apply F2. }
  intros [rc b'] s1 [[Erc (D2 & V2 & Hb2 & F2)]|[Hr Hf]]; [|cbn [fst snd] in *; revert Hr Hf; generalize rc s1; l_err]. cbn [fst snd] in *. subst rc. l_ok.
  assert (C2 : tchain bt D2 ts 0 (n + 1)) by (eapply tchain_frame; [|exact C1]; intros u Hu; apply F2; intros ->; done).
  apply wlp_bind. eapply (wlp_mono _ (ok_or (fun s' => exists D3, st_view D3 (free_refs b' p None ++ R0) N s' /\ (b' = true -> is_Some (D3 !! p)) /\ free_prepared D3))).
  { eapply wlp_mono; [apply (l_free_map D2 _ s1 V2 C2)|]; [intros q Q1 Q2; by rewrite F2, F1|]. intros rc s2 [[-> (D3 & V3 & Hs & HF)]|Hr]; [left|by right]. split; [done|]. exists D3. auto. }
  intros rc s2 [[-> (D3 & V3 & Hb3 & HF)]|[Hr Hf]]; [|revert rc s2 Hr Hf; l_err]. cbv beta. l_ok. eapply wlp_mono; [eapply l_free_to_trunk; [apply HF|exact Hnd|exact Hfd|exact Hp|exact HpN|exact Hpf|exact HN|exact Hb3|done|exact V3]|].
  intros r s3 [[Er (D4 & ts' & V4 & HP)]|Hr]; [left|by right]. split; [done|]. exists D4, ts'. split; [done|]. by eapply pushed_freed.
Qed.

Lemma l_freePage2 (b : bool) s : (b = true -> is_Some (D !! p)) -> st_view D R0 N s -> wlp (freePage2 bt mxPgno b p) (ok_or (fun s' => exists D' ts', st_view D' R0 N s' /\ freed D ts p D' ts')) s.
Proof.
  intros Hb V. unfold freePage2. apply wlp_bind, wlp_get. rewrite (v_nPage _ _ _ _ V). rewrite (proj2 (Z.ltb_ge p 2)) by (destruct Hp; lia). rewrite Z.gtb_ltb, (proj2 (Z.ltb_ge N p)) by done. cbn [orb].
  apply wlp_bind. eapply (wlp_mono _ (fun _ => st_view D (free_refs b p None ++ R0) N)); [destruct b; [eapply l_ref; [exact V|done]|by apply wlp_ret]|]. intros [] s1 V1. cbv beta. apply wlp_bind. eapply wlp_mono; [by apply (l_free_body b)|].
  intros [[rc b'] t] s2 [[Er (D' & ts' & V2 & HF)]|[Hr Hf]]; cbn [fst snd] in *; [|apply wlp_bind, wlp_any; intros ? ?; apply wlp_bind, wlp_any; intros ? ?; apply wlp_ret; by right].
  apply wlp_bind. eapply (wlp_mono _ (fun _ => st_view D' (option_list t ++ R0) N)).
  - destruct b'; [|by apply wlp_ret]. apply wlp_bind. eapply l_isInit; [exact V2|]. intros s3 V3. eapply (l_release _ _ (option_list t ++ R0)); [exact V3|done|auto].
  - intros [] s3 V3. cbv beta. apply wlp_bind. eapply l_release_opt; [exact V3|done|]. intros s4 V4. apply wlp_ret. left. split; [done|]. by exists D', ts'.
Qed.
End FreePage.

(** ** Taking a page *)

(** The pages a search is for. *)
Definition wanted (nearby eMode x : Z) : Prop := x = nearby \/ x < nearby /\ eMode = BTALLOC_LE.
#[local] Instance wanted_dec nearby eMode x : Decision (wanted nearby eMode x).
Proof. unfold wanted. apply _. Defined.

Lemma wanted_bool nearby eMode x : (nearby =? x) || (x <? nearby) && (eMode =? BTALLOC_LE) = bool_decide (wanted nearby eMode x).
Proof.
  symmetry. unfold wanted. destruct (Z.eqb_spec nearby x) as [->|]; [by apply bool_decide_eq_true; left|]. destruct (Z.ltb_spec x nearby), (Z.eqb_spec eMode BTALLOC_LE); cbn [andb orb]; [by apply bool_decide_eq_true; right|..]; apply bool_decide_eq_false; lia.
Qed.

Section Leaves.
Context (D : gmap Z (list Z)) (R : list Z) (N t : Z) (d ls : list Z) (s : BtState).
Context (V : st_view D R N s) (Hd : D !! t = Some d) (Htr : trunk_page bt d ls).

Lemma l_leaf i x Q : ls !! i = Some x -> Q x s -> wlp (get4byte_at t (8 + Z.of_nat i * 4)) Q s.
Proof. intros Hx HQ. eapply l_get4; [exact V|exact Hd|]. destruct Htr as (_ & _ & T). by rewrite (T i x Hx). Qed.

Lemma l_first_le nearby fuel i : (i + fuel = length ls)%nat -> ls <> [] -> (forall j x, (j < i)%nat -> ls !! j = Some x -> nearby < x) ->
  wlp (first_le fuel t nearby (Z.of_nat i)) (fun c s' => s' = s /\ exists j x, c = Z.of_nat j /\ ls !! j = Some x /\ (forall y, y ∈ ls -> y <= nearby -> x <= nearby)) s.
Proof.
  revert i. induction fuel as [|fuel IH]; intros i Hi Hne Hlt; cbn [first_le].
  - apply wlp_ret. split; [done|]. destruct ls as [|z l] eqn:Els; [done|]. exists 0%nat, z. split; [done|]. split; [done|]. intros y [j Hj]%list_elem_of_lookup Hy. pose proof (lookup_lt_Some _ _ _ Hj). specialize (Hlt j y ltac:(lia) Hj). lia.
  - destruct (lookup_lt_is_Some_2 ls i) as [x Hx]; [lia|]. apply wlp_bind. eapply l_leaf; [exact Hx|]. destruct (Z.leb_spec x nearby) as [Hle|Hgt].
    + apply wlp_ret. split; [done|]. by exists i, x.
    + replace (Z.of_nat i + 1) with (Z.of_nat (S i)) by lia. apply IH; [lia|done|]. intros j y Hj Hy. destruct (decide (j = i)) as [->|]; [congruence|]. apply (Hlt j); [lia|done].
Qed.

(** The distance of two page numbers *)
Definition pg_dist (x nearby : Z) : Z := sqlite3AbsInt32 (i32 (x - nearby)).

Lemma pg_dist_zero x nearby : is_u32 x -> is_u32 nearby -> 0 <= pg_dist x nearby /\ (pg_dist x nearby = 0 <-> x = nearby).
Proof.
  intros Hx Hn. unfold is_u32 in *. unfold pg_dist, sqlite3AbsInt32. change (i32 0x80000000) with (- 2 ^ 31). unfold i32, swrap. change (2 ^ (32 - 1)) with (2 ^ 31). pose proof (Z.mod_pos_bound (x - nearby + 2 ^ 31) (2 ^ 32)) as Hm.
  assert (E : (x - nearby + 2 ^ 31) mod 2 ^ 32 = 2 ^ 31 <-> x = nearby).
  { pose proof (Z.div_mod (x - nearby + 2 ^ 31) (2 ^ 32)). split; [lia|]. intros ->. replace (nearby - nearby + 2 ^ 31) with (2 ^ 31) by lia. done. }
  set (m := (x - nearby + 2 ^ 31) mod 2 ^ 32) in *. rewrite Z.geb_leb. destruct (Z.leb_spec 0 (m - 2 ^ 31)); [lia|]. destruct (Z.eqb_spec (m - 2 ^ 31) (- 2 ^ 31)); lia.
Qed.

Lemma l_nearest nearby fuel i j x : (i + fuel = length ls)%nat -> ls !! j = Some x -> (forall j' y, (j' < i)%nat -> ls !! j' = Some y -> pg_dist x nearby <= pg_dist y nearby) ->
  wlp (nearest fuel t nearby (Z.of_nat i) (Z.of_nat j) (pg_dist x nearby)) (fun c s' => s' = s /\ exists j x, c = Z.of_nat j /\ ls !! j = Some x /\ forall y, y ∈ ls -> pg_dist x nearby <= pg_dist y nearby) s.
Proof.
  revert i j x. induction fuel as [|fuel IH]; intros i j x Hi Hx Hmin; cbn [nearest].
  - apply wlp_ret. split; [done|]. exists j, x. split; [done|]. split; [done|]. intros y [j' Hj]%list_elem_of_lookup. apply (Hmin j'); [|done]. apply lookup_lt_Some in Hj. lia.
  - destruct (lookup_lt_is_Some_2 ls i) as [z Hz]; [lia|]. apply wlp_bind. eapply l_leaf; [exact Hz|]. cbv zeta. fold (pg_dist z nearby). replace (Z.of_nat i + 1) with (Z.of_nat (S i)) by lia.
    destruct (Z.ltb_spec (pg_dist z nearby) (pg_dist x nearby)); (apply IH; [lia|done|]; intros j' y Hj Hy; destruct (decide (j' = i)) as [->|]; [assert (y = z) as -> by congruence; lia|]; specialize (Hmin j' y ltac:(lia) Hy); lia).
Qed.

Lemma l_closest nearby eMode : ls <> [] -> is_u32 nearby -> (forall x, x ∈ ls -> is_u32 x) ->
  wlp (closest_leaf t (alen ls) nearby eMode) (fun c s' => s' = s /\ exists j x, c = Z.of_nat j /\ ls !! j = Some x /\ (0 < nearby -> forall y, y ∈ ls -> wanted nearby eMode y -> wanted nearby eMode x)) s.
Proof.
  intros Hne Hnb Hu. unfold closest_leaf. destruct (lookup_lt_is_Some_2 ls 0) as [z Hz]; [destruct ls; [done|cbn; lia]|]. rewrite Z.gtb_ltb. destruct (Z.ltb_spec 0 nearby); [|apply wlp_ret; split; [done|]; exists 0%nat, z; split; [done|]; split; [done|lia]].
  unfold wanted. destruct (Z.eqb_spec eMode BTALLOC_LE) as [->|HeM].
  - eapply wlp_mono; [apply (l_first_le nearby (Z.to_nat (alen ls)) 0); [unfold alen; lia|done|lia]|]. intros c s' [-> (j & x & -> & Hx & Hle)]. split; [done|]. exists j, x. split; [done|]. split; [done|]. intros _ y Hy Hw. specialize (Hle y Hy). lia.
  - apply wlp_bind. change 8 with (8 + Z.of_nat 0 * 4) at 1. eapply l_leaf; [exact Hz|]. fold (pg_dist z nearby). eapply wlp_mono; [apply (l_nearest nearby (Z.to_nat (alen ls - 1)) 1 0 z)|].
    + destruct ls; [done|]. rewrite alen_cons. unfold alen. cbn [length]. lia.
    + done.
    + intros j' y Hj Hy. assert (j' = 0%nat) as -> by lia. assert (y = z) as -> by congruence. lia.
    + intros c s' [-> (j & x & -> & Hx & Hmin)]. split; [done|]. exists j, x. split; [done|]. split; [done|]. intros _ y Hy [->|[_ ?]]; [|done]. left. specialize (Hmin nearby Hy). destruct (pg_dist_zero nearby nearby Hnb Hnb) as [_ [_ E]]. rewrite (E eq_refl) in Hmin.
      destruct (pg_dist_zero x nearby (Hu x ltac:(by eapply list_elem_of_lookup_2)) Hnb) as [P1 [P2 _]]. apply P2. lia.
Qed.
End Leaves.

Lemma l_take_leaf D R N t d k j x s : st_view D R N s -> D !! t = Some d -> data_page x -> x <= mxPgno -> x ∉ R -> x <> t ->
  wlp (take_leaf bt mxPgno t k j x) (ok_or (fun s' => exists D', st_view D' (x :: R) N s' /\ D' !! t = Some (take_page d k j) /\ forall q, q <> t -> q <> x -> D' !! q = D !! q)) s.
Proof.
  intros V Hd (Hx2 & Hxp & _) Hxm HxR Hxt. unfold take_leaf. apply wlp_bind. eapply l_io; [exact V| |l_err]. clear s V. intros s V. l_ok. set (d1 := if j <? k - 1 then fwrite d (8 + j * 4) (fread d (4 + k * 4) 4) else d).
  apply wlp_bind. eapply (wlp_mono _ (fun _ s' => st_view (<[t := d1]> D) R N s')). { unfold d1. destruct (j <? k - 1); [eapply l_copy; [exact V|exact Hd|exact Hd|auto]|]. apply wlp_ret. by rewrite insert_id. }
  intros [] s1 V1. cbv beta. apply wlp_bind. eapply l_put4; [exact V1|apply lookup_insert_eq|]. intros s2 V2. rewrite insert_insert_eq in V2. apply wlp_bind. unfold btreeGetHasContent. apply wlp_bind, wlp_get, wlp_ret. set (nc := negb _).
  apply wlp_bind. eapply l_unused; [exact V2|done|lia|done|done| |l_err]. intros D' s3 (_ & HD & _) V3. l_ok. apply wlp_bind. eapply l_io; [exact V3| |l_err]. intros s4 V4. l_ok. apply wlp_ret. left. split; [done|]. exists D'. split; [done|]. split.
  - rewrite HD by done. apply lookup_insert_eq.
  - intros q Hqt Hqx. rewrite HD by done. by rewrite lookup_insert_ne.
Qed.

(** The link after [a] is now to [y]. *)
Definition relinked_to (D : gmap Z (list Z)) (a : list (Z * list Z)) (y : Z) (D' : gmap Z (list Z)) : Prop :=
  exists d d', D !! (link_at a).1 = Some d /\ D' !! (link_at a).1 = Some d' /\ set_word d (link_at a).2 y d' /\ forall q, q <> (link_at a).1 -> D' !! q = D !! q.

Lemma tchain_link D a m c : tchain bt D a m c -> exists d, D !! (link_at a).1 = Some d /\ word d (link_at a).2 = m.
Proof.
  intros (d & Hd & _ & Hs). destruct a as [|[t ls] b _] using rev_ind; [by exists d|]. unfold link_at. rewrite last_snoc. apply tseg_app in Hs as (m' & _ & _ & e & He & _ & E). exists e. by split.
Qed.

Lemma l_unlink D R N a t d c s : st_view D R N s -> D !! t = Some d -> tchain bt D a t c -> wlp (unlink_trunk (fst <$> last a) t) (ok_or (fun s' => exists D', st_view D' R N s' /\ relinked_to D a (word d 0) D')) s.
Proof.
  intros V Hd Hc. destruct (tchain_link _ _ _ _ Hc) as (e & He & _). assert (Hre : forall s1, st_view D R N s1 -> wlp (_ ← memcpy_pages (link_at a).1 (link_at a).2 t 0 4; mret SQLITE_OK) (ok_or (fun s' => exists D', st_view D' R N s' /\ relinked_to D a (word d 0) D')) s1).
  { intros s1 V1. apply wlp_bind. eapply l_copy; [exact V1|exact He|exact Hd|]. intros s2 V2. apply wlp_ret. left. split; [done|]. eexists. split; [exact V2|]. eexists _, _. split; [exact He|]. split; [apply lookup_insert_eq|].
    split; [apply set_word_copy; [unfold link_at; destruct (last a) as [[? ?]|]; done|done]|]. intros q Hq. by rewrite lookup_insert_ne. }
  unfold unlink_trunk. revert Hre. unfold link_at. destruct (last a) as [[p ls]|]; cbn [fmap option_fmap option_map fst snd]; intros Hre; [|by apply Hre]. apply wlp_bind. eapply l_io; [exact V| |l_err]. intros s1 V1. l_ok. by apply Hre.
Qed.

Lemma l_promote D R N a t d q ls c s : st_view D R N s -> D !! t = Some d -> trunk_page bt d (q :: ls) -> tchain bt D a t c -> data_page q -> q <= N -> N <= mxPgno -> q ∉ R -> q <> (link_at a).1 -> q <> t ->
  wlp (promote_leaf bt mxPgno (fst <$> last a) N t (alen (q :: ls))) (ok_or (fun s' => exists D1 D' e, st_view D' R N s' /\ D1 !! q = Some (promote_page e d (alen (q :: ls))) /\ (forall u, u <> q -> D1 !! u = D !! u) /\ relinked_to D1 a q D')) s.
Proof.
  intros V Hd Htr Hc (Hq2 & Hqp & _) HqN HN HqR Hql Hqt. destruct (tchain_link _ _ _ _ Hc) as (f & Hf & _). unfold promote_leaf. apply wlp_bind. change 8 with (8 + Z.of_nat 0 * 4) at 1. eapply l_leaf; [exact V|exact Hd|exact Htr|done|]. rewrite Z.gtb_ltb, (proj2 (Z.ltb_ge N q)) by done.
  apply wlp_bind. eapply l_unused; [exact V|done|lia|done|lia| |l_err]. intros D1 s1 ([e He] & HD & _) V1. l_ok. apply wlp_bind. eapply l_io; [exact V1| |l_err]. intros s2 V2. l_ok.
  assert (Hd1 : D1 !! t = Some d) by by rewrite HD. apply wlp_bind. eapply l_copy; [exact V2|exact He|exact Hd1|]. intros s3 V3. apply wlp_bind. eapply l_put4; [exact V3|apply lookup_insert_eq|]. intros s4 V4. rewrite insert_insert_eq in V4.
  apply wlp_bind. eapply l_copy; [exact V4|apply lookup_insert_eq|by rewrite lookup_insert_ne|]. intros s5 V5. rewrite insert_insert_eq in V5. apply wlp_bind. eapply l_release; [exact V5|done|]. intros s6 V6.
  change (fwrite (fwrite (fwrite e _ _) _ _) _ _) with (promote_page e d (alen (q :: ls))) in V6. set (D2 := <[q := promote_page e d (alen (q :: ls))]> D1) in *.
  assert (Hre : forall s1, st_view D2 R N s1 -> wlp (_ ← put4byte_at (link_at a).1 (link_at a).2 q; mret SQLITE_OK) (ok_or (fun s' => exists D1 D' e, st_view D' R N s' /\ D1 !! q = Some (promote_page e d (alen (q :: ls))) /\ (forall u, u <> q -> D1 !! u = D !! u) /\ relinked_to D1 a q D')) s1).
  { intros s7 V7. assert (Hf2 : D2 !! (link_at a).1 = Some f) by (unfold D2; rewrite lookup_insert_ne by done; by rewrite HD). apply wlp_bind. eapply l_put4; [exact V7|exact Hf2|]. intros s8 V8. apply wlp_ret. left. split; [done|]. eexists D2, _, e. split; [exact V8|].
    split; [apply lookup_insert_eq|]. split; [intros u Hu; unfold D2; rewrite lookup_insert_ne by done; by apply HD|]. eexists _, _. split; [exact Hf2|]. split; [apply lookup_insert_eq|].
    split; [apply set_word_put; [unfold link_at; destruct (last a) as [[? ?]|]; done|unfold is_u32; lia]|]. intros u Hu. by rewrite lookup_insert_ne. }
  revert Hre. unfold link_at. destruct (last a) as [[p l]|]; cbn [fmap option_fmap option_map fst snd]; intros Hre; [|by apply Hre]. apply wlp_bind. eapply l_io; [exact V6| |l_err]. intros s7 V7. l_ok. by apply Hre.
Qed.

(** [p] has been taken from the list. *)
Definition popped (D : gmap Z (list Z)) (ts : list (Z * list Z)) (c p : Z) (D' : gmap Z (list Z)) : Prop :=
  exists ts', tchain bt D' ts' 0 c /\ p :: free_of ts' ≡ₚ free_of ts /\ forall q, q <> 1 -> q ∉ free_of ts -> D' !! q = D !! q.

Section Pop.
Context (D : gmap Z (list Z)) (a : list (Z * list Z)) (t : Z) (ls : list Z) (b : list (Z * list Z)) (N c : Z) (d : list Z).
Context (Hch : tchain bt D (a ++ (t, ls) :: b) 0 c) (Hnd : NoDup (free_of (a ++ (t, ls) :: b))) (Hfd : forall q, q ∈ free_of (a ++ (t, ls) :: b) -> data_page q /\ q <= N) (Hd : D !! t = Some d).

Lemma free_of_mid : free_of (a ++ (t, ls) :: b) = free_of a ++ (t :: ls) ++ free_of b.
Proof. by rewrite free_of_app. Qed.

Lemma mid_free q : q ∈ t :: ls -> q ∈ free_of (a ++ (t, ls) :: b).
Proof. intros H. rewrite free_of_mid. apply elem_of_app. right. apply elem_of_app. by left. Qed.

Lemma mid_parts : tchain bt D a t c /\ trunk_page bt d ls /\ tseg bt D (word d 0) b 0.
Proof. apply tchain_app in Hch as (m & Ha & -> & e & He & Hp & Hs). rewrite Hd in He. by injection He as <-. Qed.

Lemma mid_trunks : NoDup (1 :: a.*1) /\ NoDup (1 :: (a ++ (t, ls) :: b).*1) /\ (forall q, q ∈ t :: ls -> (q ∉ 1 :: a.*1) /\ (q ∉ b.*1)) /\ (forall q, q ∈ b.*1 -> q ∉ 1 :: a.*1) /\ t ∉ ls.
Proof.
  pose proof (trunks_nodup _ N Hnd Hfd) as Hn. split; [|split; [done|]]. { rewrite fmap_app in Hn. change (1 :: a.*1 ++ ((t, ls) :: b).*1) with ((1 :: a.*1) ++ ((t, ls) :: b).*1) in Hn. by apply NoDup_app in Hn as []. }
  rewrite free_of_mid in Hnd. apply NoDup_app in Hnd as (_ & HA & HB). apply NoDup_app in HB as (HL & HM & _). split; [|split; [|by apply NoDup_cons in HL as []]].
  - intros q Hq. split; [|intros Hb%trunks_free; by apply (HM q)]. intros [->|Ha%trunks_free]%elem_of_cons; [destruct (Hfd 1 (mid_free 1 Hq)) as [[? _] _]; lia|]. apply (HA q Ha), elem_of_app. by left.
  - intros q Hq [->|Ha%trunks_free]%elem_of_cons; [destruct (Hfd 1) as [[? _] _]; [|lia]; rewrite free_of_mid; apply elem_of_app; right; apply elem_of_app; right; by apply trunks_free|]. apply (HA q Ha), elem_of_app. right. by apply trunks_free.
Qed.

Lemma link_in : (link_at a).1 ∈ 1 :: a.*1.
Proof. unfold link_at. destruct (last a) as [[p l]|] eqn:E; [|left]. right. apply (list_elem_of_fmap_2 fst a (p, l)). by apply last_Some_elem_of. Qed.

Lemma link_free q : q <> 1 -> q ∉ free_of (a ++ (t, ls) :: b) -> q <> (link_at a).1.
Proof. intros H1 Hf ->. pose proof link_in as [?|Hi%trunks_free]%elem_of_cons; [done|]. apply Hf. rewrite free_of_mid. apply elem_of_app. by left. Qed.

Lemma pop_unlink D' : ls = [] -> relinked_to D a (word d 0) D' -> popped D (a ++ (t, ls) :: b) c t D'.
Proof.
  intros El (e & e' & He & He' & Hw & HD). destruct mid_parts as (Hc & _ & Hs). destruct mid_trunks as (M1 & _ & M3 & M4 & _). exists (a ++ b). split; [|split].
  - apply tchain_app. exists (word d 0). split; [eapply tchain_relink; [exact He|exact He'|exact Hw| |exact M1|exact Hc]; intros u _ Hu; by apply HD|]. eapply tseg_frame; [|exact Hs]. intros u Hu. apply HD. intros ->. apply (M4 _ Hu), link_in.
  - rewrite free_of_mid, El, free_of_app. cbn [app]. by rewrite Permutation_middle.
  - intros q Q1 Q2. by apply HD, link_free.
Qed.

Lemma pop_promote D1 D' q ls' e : ls = q :: ls' -> is_u32 (alen ls) -> D1 !! q = Some (promote_page e d (alen ls)) -> (forall u, u <> q -> D1 !! u = D !! u) -> relinked_to D1 a q D' -> popped D (a ++ (t, ls) :: b) c t D'.
Proof.
  intros El Hu Hq H1 (f & f' & Hf & Hf' & Hw & HD). destruct mid_parts as (Hc & Htr & Hs). destruct mid_trunks as (M1 & _ & M3 & M4 & _). rewrite El in Hu, Htr, Hq. destruct (promote_page_trunk bt e d q ls' Hu Htr) as [P1 P2].
  assert (Hqin : q ∈ t :: ls) by (rewrite El; right; left). destruct (M3 q Hqin) as [Qa Qb]. assert (Hql : q <> (link_at a).1) by (intros ->; apply Qa, link_in). exists (a ++ (q, ls') :: b). split; [|split].
  - apply tchain_app. exists q. split.
    + eapply tchain_relink; [exact Hf|exact Hf'|exact Hw|intros u _ Hu'; by apply HD|exact M1|]. eapply tchain_frame; [|exact Hc]. intros u Hu'. apply H1. by intros ->.
    + split; [done|]. eexists. split; [rewrite HD by done; exact Hq|]. split; [done|]. rewrite P2. eapply tseg_frame; [|exact Hs]. intros u Hu'. rewrite HD, H1; [done|by intros ->|]. intros ->. apply (M4 _ Hu'), link_in.
  - rewrite !free_of_mid, El, free_of_app. cbn [app]. change (free_of ((q, ls') :: b)) with (q :: ls' ++ free_of b). solve_Permutation.
  - intros u Q1 Q2. rewrite HD by by apply link_free. apply H1. intros ->. apply Q2, mid_free. done.
Qed.

Lemma pop_leaf D' j x : ls !! j = Some x -> is_u32 (alen ls) -> D' !! t = Some (take_page d (alen ls) (Z.of_nat j)) -> (forall q, q <> t -> q <> x -> D' !! q = D !! q) -> popped D (a ++ (t, ls) :: b) c x D'.
Proof.
  intros Hx Hu Ht HD. destruct mid_parts as (Hc & Htr & Hs). destruct mid_trunks as (M1 & M2 & M3 & M4 & M5). destruct (take_page_trunk bt d ls j x Hu Htr Hx) as [P1 P2]. assert (Hxin : x ∈ ls) by by eapply list_elem_of_lookup_2.
  exists (a ++ (t, swap_remove j ls) :: b). split; [|split].
  - eapply (tchain_set_leaves bt D D' a t ls); [exact Hd|exact Ht|exact P1|exact P2| |exact M2|exact Hch]. intros u Hu' Hne. apply HD; [done|]. intros ->. destruct (M3 x) as [X1 X2]; [by right|]. rewrite fmap_app, fmap_cons in Hu'. cbn [fst] in Hu'.
    change (1 :: a.*1 ++ t :: b.*1) with ((1 :: a.*1) ++ t :: b.*1) in Hu'. apply elem_of_app in Hu' as [?|[?|?]%elem_of_cons]; done.
  - rewrite free_of_mid, free_of_app. change (free_of ((t, swap_remove j ls) :: b)) with (t :: swap_remove j ls ++ free_of b). rewrite <- (swap_remove_perm j ls x Hx) at 2. cbn [app]. solve_Permutation.
  - intros q Q1 Q2. apply HD; intros ->; apply Q2, mid_free; [left|by right].
Qed.
End Pop.

Lemma trunks_le ts : Z.of_nat (length ts) <= alen (free_of ts).
Proof. induction ts as [|[t ls] ts IH]; [done|]. change (free_of ((t, ls) :: ts)) with (t :: ls ++ free_of ts). rewrite alen_cons, alen_app. pose proof (alen_nonneg ls). cbn [length]. lia. Qed.

Lemma free_nil ts : free_of ts = [] -> ts = [].
Proof. by destruct ts as [|[t ls] ts]. Qed.

Section Loop.
Context (D : gmap Z (list Z)) (ts : list (Z * list Z)) (R0 : list Z) (N c n nearby eMode : Z) (srch : bool).
Context (Hch : tchain bt D ts 0 c) (Hnd : NoDup (free_of ts)) (Hfd : forall q, q ∈ free_of ts -> data_page q /\ q <= N) (HN : N <= mxPgno) (HR0 : forall q, q ∈ free_of ts -> q ∉ R0).
Context (Hnb : is_u32 nearby) (Hsrch : srch = true -> 0 < nearby) (Hn : n = alen (free_of ts)).

Definition popped_ok (r : alloc_out) (s' : BtState) : Prop :=
  ok_or (fun s' => exists D', st_view D' (r.1.1.2 :: option_list r.1.2 ++ option_list r.2 ++ R0) N s' /\ popped D ts c r.1.1.2 D' /\ (srch = true -> wanted nearby eMode r.1.1.2)) r.1.1.1 s'.

Lemma l_alloc_loop fuel a b s : ts = a ++ b -> (srch = true -> exists x, x ∈ free_of b /\ wanted nearby eMode x) -> (srch = false -> a = [] /\ b <> []) ->
  st_view D (option_list (fst <$> last a) ++ R0) N s -> wlp (alloc_loop bt mxPgno fuel n N nearby eMode srch (Z.of_nat (length a)) (fst <$> last a)) popped_ok s.
Proof.
  revert a b s. induction fuel as [|fuel IH]; intros a b s Ets Hw Hns V; [done|]. destruct b as [|[t ls] b].
  { exfalso. destruct srch; [destruct (Hw eq_refl) as (x & Hx%not_elem_of_nil & _); done|]. by destruct (Hns eq_refl) as [_ ?]. }
  cbn [alloc_loop]. cbv zeta. set (prev := fst <$> last a) in *. pose proof (eq_ind _ (fun ts => tchain bt D ts 0 c) Hch _ Ets) as Hc'. pose proof (eq_ind _ (fun ts => NoDup (free_of ts)) Hnd _ Ets) as Hnd'.
  assert (Hfd' : forall q, q ∈ free_of (a ++ (t, ls) :: b) -> data_page q /\ q <= N) by (rewrite <- Ets; done). assert (Hmid : forall q, q ∈ t :: ls -> q ∈ free_of ts) by (intros q Hq; rewrite Ets; by apply mid_free).
  assert (exists d, D !! t = Some d) as [d Hd] by (pose proof Hc' as (m & _ & _ & d & Hd & _)%tchain_app; by exists d). destruct (mid_parts D a t ls b c d Hc' Hd) as (Hca & Htr & Hsb). destruct (mid_trunks a t ls b N Hnd' Hfd') as (M1 & M2 & M3 & M4 & M5).
  destruct (tchain_link D a t c Hca) as (f & Hf & Ef). apply wlp_bind. eapply (wlp_mono _ (fun x s' => x = t /\ s' = s)).
  { clear - V Hf Ef. unfold link_at, prev in *. revert Hf Ef. destruct (last a) as [[p l]|]; cbn [fmap option_fmap option_map fst snd]; intros Hf Ef; (eapply l_get4; [exact V|exact Hf|by rewrite Ef]). }
  intros ? ? [-> ->]. destruct (Hfd t) as [Ht HtN]; [apply Hmid; left|]. pose proof Ht as (Ht2 & Htp & _). assert (Hlen : Z.of_nat (length a) <= n) by (pose proof (trunks_le a); rewrite Hn, Ets, free_of_app, alen_app; pose proof (alen_nonneg (free_of ((t, ls) :: b))); lia).
  rewrite !Z.gtb_ltb, (proj2 (Z.ltb_ge N t)), (proj2 (Z.ltb_ge n _)) by done. cbn [orb].
  assert (HtR : forall q, q ∈ t :: ls -> q ∉ option_list prev ++ R0).
  { intros q Hq [Hp|Hr]%elem_of_app; [|by apply (HR0 q); [apply Hmid|]]. destruct (M3 q Hq) as [Hqa _]. apply Hqa. pose proof (link_in a) as Hl. unfold link_at, prev in *. destruct (last a) as [[p l]|]; [|by apply not_elem_of_nil in Hp]. apply list_elem_of_singleton in Hp as ->. done. }
  apply wlp_bind. eapply l_unused; [exact V|apply HtR; left|lia|done|lia| |l_err]. intros D' s1 (_ & _ & HD) V1. rewrite HD in V1 by done. clear HD D'. l_ok. set (R := t :: option_list prev ++ R0) in *.
  apply wlp_bind. eapply l_get4; [exact V1|exact Hd|]. pose proof Htr as (T1 & T2 & _). rewrite T2. assert (Hk : is_u32 (alen ls)) by (destruct Hcf as [? ?]; pose proof (alen_nonneg ls); pose proof (Z.mul_div_le (usableSize bt) 4); unfold is_u32; lia).
  assert (Hgo : forall s', st_view D R N s' -> (srch = true -> forall x, x ∈ t :: ls -> ~ wanted nearby eMode x) -> (srch = false -> False) -> wlp (_ ← releasePageOpt prev; alloc_loop bt mxPgno fuel n N nearby eMode srch (Z.of_nat (length a) + 1) (Some t)) popped_ok s').
  { intros s' V' Hnw Hsf. apply wlp_bind. eapply (l_release_opt D R (t :: R0)); [exact V'|unfold R; by rewrite Permutation_middle|]. intros s2 V2. specialize (IH (a ++ [(t, ls)]) b s2). rewrite last_snoc, length_app, Nat2Z.inj_add in IH. apply IH; [by rewrite <- app_assoc| |done|done].
    intros Es. destruct (Hw Es) as (x & Hx & Hwx). change (free_of ((t, ls) :: b)) with ((t :: ls) ++ free_of b) in Hx. apply elem_of_app in Hx as [Hx|Hx]; [by destruct (Hnw Es x Hx)|by exists x]. }
  assert (Hun : forall s', ls = [] -> (srch = true -> wanted nearby eMode t) -> (exists D', st_view D' R N s' /\ relinked_to D a (word d 0) D') -> popped_ok (SQLITE_OK, t, None, prev) s').
  { intros s' El Hwt (D' & V' & HD'). left. split; [done|]. exists D'. split; [done|]. split; [|done]. rewrite Ets. by eapply pop_unlink. }
  assert (Hnil : alen ls = 0 -> ls = []) by (intros E0; destruct ls; [done|]; rewrite alen_cons in E0; pose proof (alen_nonneg ls); lia). destruct ((alen ls =? 0) && negb srch) eqn:Ecase.
  { apply andb_true_iff in Ecase as [E0%Z.eqb_eq Esr%negb_true_iff]. destruct (Hns Esr) as [-> _]. apply wlp_bind. eapply l_io; [exact V1| |l_err]. intros s2 V2. l_ok. apply wlp_bind. eapply l_copy; [exact V2|exact Hf|exact Hd|]. intros s3 V3. apply wlp_ret, Hun; [by apply Hnil|congruence|].
    eexists. split; [exact V3|]. eexists _, _. split; [exact Hf|]. split; [apply lookup_insert_eq|]. split; [by apply set_word_copy|]. intros q Hq. by rewrite lookup_insert_ne. }
  rewrite Z.gtb_ltb, (proj2 (Z.ltb_ge _ (alen ls))) by done. rewrite wanted_bool. destruct (srch && bool_decide (wanted nearby eMode t)) eqn:Ew.
  { apply andb_true_iff in Ew as [_ Ew%bool_decide_eq_true]. apply wlp_bind. eapply l_io; [exact V1| |l_err]. intros s2 V2. l_ok. apply wlp_bind. eapply (wlp_mono _ (fun rc s' => ok_or (fun s' => popped_ok (SQLITE_OK, t, None, prev) s') rc s')).
    - destruct (Z.eqb_spec (alen ls) 0) as [E0|Hne0]; [eapply wlp_mono; [by eapply l_unlink|]; intros rc s3 [[-> Hr]|?]; [left; split; [done|]; apply Hun; auto|by right]|]. destruct ls as [|q ls']; [done|].
      destruct (Hfd q) as [Hq HqN]; [apply Hmid; right; left|]. eapply wlp_mono; [eapply (l_promote D R N a t d q ls' c s2 V2 Hd Htr Hca Hq HqN HN)|].
      + intros [->|Hi]%elem_of_cons; [apply M5; left|]. revert Hi. apply HtR. right. left.
      + intros ->. destruct (M3 (link_at a).1) as [Hl _]; [right; left|]. apply Hl, link_in.
      + intros ->. apply M5. left.
      + intros rc s3 [[-> (D1 & D' & e & V' & P1 & P2 & P3)]|?]; [|by right]. left. split; [done|]. left. split; [done|]. exists D'. split; [done|]. split; [|done]. rewrite Ets. by eapply pop_promote.
    - intros rc s3 [[-> HP]|[Hr Hf']]; [|revert rc s3 Hr Hf'; l_err]. cbv beta. l_ok. by apply wlp_ret. }
  assert (Hwt : srch = true -> ~ wanted nearby eMode t) by (intros Es; rewrite Es in Ew; by apply bool_decide_eq_false in Ew). rewrite Z.gtb_ltb. destruct (Z.ltb_spec 0 (alen ls)) as [Hpos|Hz].
  2: { assert (El : ls = []) by (apply Hnil; pose proof (alen_nonneg ls); lia). apply Hgo; [done|intros Es x; rewrite El; intros Hx%list_elem_of_singleton; rewrite Hx; auto|]. intros Es. rewrite Es, El in Ecase. done. }
  apply wlp_bind. eapply wlp_mono; [eapply (l_closest D R N t d ls s1 V1 Hd Htr nearby eMode)|]; [intros ->; done|done|intros x Hx; destruct (Hfd x) as [[? _] _]; [apply Hmid; by right|unfold is_u32; lia]|]. intros j' s' [-> (j & x & -> & Hx & Hbest)]. cbv beta.
  assert (Hxin : x ∈ ls) by by eapply list_elem_of_lookup_2. destruct (Hfd x) as [Hxd HxN]; [apply Hmid; by right|]. pose proof Hxd as (Hx2 & Hxp & _). apply wlp_bind. eapply l_leaf; [exact V1|exact Hd|exact Htr|exact Hx|].
  rewrite Z.gtb_ltb, (proj2 (Z.ltb_ge N x)), (proj2 (Z.ltb_ge x 2)) by lia. cbn [orb]. rewrite <- orb_assoc, (Z.eqb_sym x nearby), wanted_bool. destruct (negb srch || bool_decide (wanted nearby eMode x)) eqn:Et.
  - apply wlp_bind. eapply wlp_mono; [eapply (l_take_leaf D R N t d (alen ls) (Z.of_nat j) x s1 V1 Hd Hxd); [lia| |intros ->; done]|].
    + intros [->|Hi]%elem_of_cons; [done|]. revert Hi. apply HtR. by right.
    + intros rc s3 [[-> (D' & V' & P1 & P2)]|?]; apply wlp_ret; [left|by right]. split; [done|]. exists D'. split; [done|]. split; [rewrite Ets; by eapply pop_leaf|]. intros Es. cbn [fst snd]. rewrite Es in Et. by apply bool_decide_eq_true in Et.
  - apply orb_false_iff in Et as [Es%negb_false_iff Hnx%bool_decide_eq_false]. apply Hgo; [done| |congruence]. intros _ y [->|Hy]%elem_of_cons; [by apply Hwt|]. intros Hwy. apply Hnx. by apply (Hbest (Hsrch Es) y).
Qed.
End Loop.

(** ** The invariant, and whole calls *)

Record free_inv (D : gmap Z (list Z)) (R : list Z) (N : Z) (ts : list (Z * list Z)) : Prop := {
  fi_chain : tchain bt D ts 0 (alen (free_of ts));
  fi_nodup : NoDup (free_of ts);
  fi_data : forall p, p ∈ free_of ts -> data_page p /\ p <= N;
  fi_refs : forall p, p ∈ R -> 1 <= p <= N /\ p ∉ free_of ts;
  fi_maps : autoVacuum bt = true -> forall p, 2 <= p <= N -> PTRMAP_ISPAGE bt p = true -> is_Some (D !! p);
  fi_types : autoVacuum bt = true -> forall p, p ∈ free_of ts -> pm_entry D p = Some PTRMAP_FREEPAGE;
  fi_N : 1 <= N <= mxPgno;
  fi_mx : mxPgno < 2 ^ 32
}.

(** What a caller has to observe: [nearby] is a page with an entry when that page is wanted, and a page
    that is not too high is free when one is wanted. *)
Definition alloc_pre (D : gmap Z (list Z)) (N : Z) (F : list Z) (nearby eMode : Z) : Prop :=
  is_u32 nearby /\ (F <> [] -> eMode = BTALLOC_EXACT -> autoVacuum bt = true /\ (nearby <= N -> data_page nearby /\ (nearby ∈ F \/ exists ty, pm_entry D nearby = Some ty /\ 1 <= ty <= 5 /\ ty <> PTRMAP_FREEPAGE))) /\
  (F <> [] -> eMode = BTALLOC_LE -> exists x, x ∈ F /\ x <= nearby).

Definition alloc_choice (F : list Z) (nearby eMode p : Z) : Prop := (eMode = BTALLOC_EXACT -> nearby ∈ F -> p = nearby) /\ (eMode = BTALLOC_LE -> p <= nearby).

Lemma map_le p : data_page p -> autoVacuum bt = true -> ptrmapPageno bt p < p.
Proof. intros Hp Ha. destruct (data_page_ofs p Hp Ha) as [Ho _]. unfold pm_ofs in Ho. lia. Qed.

Section Alloc.
Context (D : gmap Z (list Z)) (R : list Z) (N : Z) (ts : list (Z * list Z)) (nearby eMode : Z).
Context (HI : free_inv D R N ts) (Hpre : alloc_pre D N (free_of ts) nearby eMode).

Lemma free_len : alen (free_of ts) < N.
Proof.
  destruct HI. assert (Hs : free_of ts ⊆+ seqZ 2 (N - 1)).
  { apply NoDup_submseteq; [done|]. intros p Hp. apply elem_of_seqZ. destruct (fi_data0 p Hp) as [[? _] ?]. lia. }
  apply submseteq_length in Hs. rewrite length_seqZ in Hs. unfold alen. lia.
Qed.

Lemma l_alloc_search s : st_view D R N s -> free_of ts <> [] ->
  wlp (alloc_search bt mxPgno N nearby eMode) (fun r => ok_or (fun s' => st_view D R N s' /\ (r.2 = true -> 0 < nearby /\ exists x, x ∈ free_of ts /\ wanted nearby eMode x) /\ (r.2 = false -> eMode <> BTALLOC_LE /\ (eMode = BTALLOC_EXACT -> nearby ∉ free_of ts))) r.1) s.
Proof.
  intros V Hne. destruct Hpre as (Hnb & Hex & Hle). destruct HI. unfold alloc_search. destruct (Z.eqb_spec eMode BTALLOC_EXACT) as [Ee|Ee].
  - destruct (Hex Hne Ee) as [Ha Hn]. destruct (Z.leb_spec nearby N) as [HnN|HnN].
    + destruct (Hn HnN) as [Hd Hty]. pose proof (map_le nearby Hd Ha) as Hml. pose proof (proj1 Hd) as [Hn2 _]. destruct (ptrmapPageno_page nearby Hn2) as (M1 & _ & M3). destruct (fi_maps0 Ha (ptrmapPageno bt nearby) ltac:(lia) M3) as [d Hdm].
      assert (Hent : pm_entry D nearby = Some (fbyte d (pm_ofs nearby))) by (unfold pm_entry; by rewrite Hdm). apply wlp_bind. eapply (l_ptrmapGet D R N nearby d s V Hd Ha Hdm); [lia| |l_err]. intros s1 V1. cbv beta iota. set (ty := fbyte d (pm_ofs nearby)) in *.
      assert (Hok : (ty <? 1) || (ty >? 5) = false). { apply orb_false_iff. rewrite Z.gtb_ltb, !Z.ltb_ge. destruct Hty as [Hf|(ty' & E & ? & _)]; [rewrite fi_types0 in Hent by done; injection Hent as <-; unfold PTRMAP_FREEPAGE; lia|]. rewrite E in Hent. injection Hent as <-. lia. }
      rewrite Hok. l_ok. apply wlp_ret. left. split; [done|]. cbn [snd]. split; [done|]. split.
      * intros Et%Z.eqb_eq. split; [lia|]. destruct Hty as [Hf|(ty' & E & _ & Hnf)]; [exists nearby; split; [done|by left]|]. rewrite E in Hent. injection Hent as Et'. congruence.
      * intros Et%Z.eqb_neq. split; [rewrite Ee; done|]. intros _ Hf. rewrite fi_types0 in Hent by done. injection Hent as Et'. by apply Et.
    + apply wlp_ret. left. split; [done|]. split; [done|]. split; [done|]. intros _. split; [rewrite Ee; done|]. intros _ [_ ?]%fi_data0. lia.
  - apply wlp_ret. left. split; [done|]. split; [done|]. cbn [snd]. split; [|intros El%Z.eqb_neq; split; [done|intros ?; done]]. intros El%Z.eqb_eq. destruct (Hle Hne El) as (x & Hx & Hxn). pose proof (fi_data0 x Hx) as [[? _] _]. split; [lia|]. exists x. split; [done|]. unfold wanted. lia.
Qed.

Lemma l_alloc_free s : st_view D R N s -> free_of ts <> [] ->
  wlp (alloc_free bt mxPgno (alen (free_of ts)) N nearby eMode) (fun r => ok_or (fun s' => exists D', st_view D' (r.2 :: R) N s' /\ popped D ts (alen (free_of ts) - 1) r.2 D' /\ alloc_choice (free_of ts) nearby eMode r.2) r.1) s.
Proof.
  intros V Hne. destruct Hpre as (Hnb & _). unfold alloc_free. apply wlp_bind. eapply wlp_mono; [by apply l_alloc_search|]. destruct HI. intros [rc srch] s1 [[Erc (V1 & Hw & Hnw)]|[Hr Hf]]; cbn [fst snd] in *; [|revert Hr Hf; generalize rc s1; l_err]. subst rc. l_ok.
  apply wlp_bind. eapply l_io; [exact V1| |l_err]. intros s2 V2. l_ok. destruct (tchain_head _ _ _ fi_chain0) as (d1 & H1 & _). apply wlp_bind. eapply l_put4; [exact V2|exact H1|]. intros s3 V3. set (n := alen (free_of ts)) in *.
  assert (Hpos : 0 < n) by (unfold n; destruct (free_of ts) as [|x l]; [done|]; rewrite alen_cons; pose proof (alen_nonneg l); lia). assert (Hn : is_u32 (n - 1)) by (pose proof free_len as Hl; fold n in Hl; unfold is_u32; lia).
  pose proof (trunks_nodup _ _ fi_nodup0 fi_data0) as [Hn1 _]%NoDup_cons. assert (Hc : tchain bt (<[1 := fwrite d1 36 (store32 true (n - 1))]> D) ts 0 (n - 1)) by (eapply tchain_count; [exact H1|by apply set_word_put|exact Hn1|exact fi_chain0]).
  apply wlp_bind. eapply wlp_mono; [eapply (l_alloc_loop _ ts R N (n - 1) n nearby eMode srch Hc fi_nodup0 fi_data0) with (a := []) (b := ts)|].
  - lia.
  - intros q Hq Hr. by destruct (fi_refs0 q Hr) as [_ ?].
  - done.
  - intros Es. by apply Hw.
  - done.
  - done.
  - intros Es. by apply Hw.
  - intros _. split; [done|]. by intros ->.
  - exact V3.
  - intros [[[rc p] pT] pP] s4 [[Erc (D' & V4 & HP & Hwp)]|[Hr Hf]]; cbn [fst snd] in *; [|apply wlp_bind, wlp_any; intros ? ?; apply wlp_bind, wlp_any; intros ? ?; apply wlp_ret; by right]. subst rc. apply wlp_bind. eapply (l_release_opt D' _ (p :: option_list pP ++ R)); [exact V4|solve_Permutation|]. intros s5 V5.
    apply wlp_bind. eapply (l_release_opt D' _ (p :: R)); [exact V5|solve_Permutation|]. intros s6 V6. apply wlp_ret. left. split; [done|]. exists D'. split; [done|]. cbn [snd]. destruct HP as (ts' & P1 & P2 & P3). split.
    + exists ts'. split; [done|]. split; [done|]. intros q Q1 Q2. rewrite P3 by done. by rewrite lookup_insert_ne.
    + destruct srch; [|destruct (Hnw eq_refl) as [N1 N2]; split; [intros Ee Hi; by destruct (N2 Ee)|done]]. specialize (Hwp eq_refl). unfold wanted in Hwp. split; [intros Ee _; rewrite Ee in Hwp; by destruct Hwp as [?|[_ ?]]|lia].
Qed.

(** ** At the end of the file *)

Definition next_page (n : Z) : Z := if n + 1 =? PENDING_BYTE_PAGE bt then n + 2 else n + 1.
Definition new_page (n : Z) : Z := if autoVacuum bt && PTRMAP_ISPAGE bt (next_page n) then next_page (next_page n) else next_page n.

Lemma l_bump D' R' M Q s : st_view D' R' M s -> 0 <= M -> M + 2 < 2 ^ 32 -> (forall s', st_view D' R' (next_page M) s' -> Q (next_page M) s') -> wlp (bump_nPage bt) Q s.
Proof.
  intros [V1 V2 V3 V4 V5] H0 HM HQ x s' E. injection E as <- <-. rewrite V3. rewrite u32_id by (unfold is_u32; lia). unfold next_page in HQ. destruct (M + 1 =? PENDING_BYTE_PAGE bt).
  - rewrite u32_id by (unfold is_u32; lia). replace (M + 1 + 1) with (M + 2) by lia. apply HQ. by split.
  - apply HQ. by split.
Qed.

Lemma new_page_data n : 1 <= n -> n + 4 < 2 ^ 32 -> data_page (new_page n) /\ n < new_page n <= n + 4 /\ (forall q, n < q < new_page n -> ~ data_page q) /\ (autoVacuum bt = true -> PTRMAP_ISPAGE bt (next_page n) = true -> ptrmapPageno bt (new_page n) = next_page n).
Proof.
  intros H1 H2. unfold new_page. assert (Hn : forall m, n <= m <= n + 2 -> next_page m <> PENDING_BYTE_PAGE bt /\ m < next_page m <= m + 2 /\ forall q, m < q < next_page m -> q = PENDING_BYTE_PAGE bt) by (intros m Hm; unfold next_page; destruct (Z.eqb_spec (m + 1) (PENDING_BYTE_PAGE bt)); split_and!; try lia; intros; lia).
  destruct (Hn n ltac:(lia)) as (A1 & A2 & A3). destruct (autoVacuum bt && PTRMAP_ISPAGE bt (next_page n)) eqn:Em.
  - apply andb_true_iff in Em as [Ha Em]. destruct (Hn (next_page n) ltac:(lia)) as (B1 & B2 & B3). set (m := next_page n) in *. pose proof Em as Em'. apply Z.eqb_eq in Em'. destruct (ptrmapPageno_spec m ltac:(lia)) as (q & r & K & EK & HK & Hq & Er & Hr & Ep).
    assert (E2 : ptrmapPageno bt (next_page m) = m). { rewrite (ptrmapPageno_at q K), <- Er, <- Ep; [done|done|done|done|]. rewrite Ep in Em'. destruct (r =? PENDING_BYTE_PAGE bt); lia. }
    split; [|split; [lia|split; [|done]]].
    + split; [lia|]. split; [done|]. intros _. unfold PTRMAP_ISPAGE. rewrite E2. apply Z.eqb_neq. lia.
    + intros x Hx (_ & X1 & X2). destruct (Z.lt_trichotomy x m) as [Hlt|[->|Hgt]]; [apply X1, A3; lia| |apply X1, B3; lia]. specialize (X2 Ha). congruence.
  - split; [|split; [lia|split; [|intros Ha Hm; rewrite Ha, Hm in Em; done]]].
    + split; [lia|]. split; [done|]. intros Ha. rewrite Ha in Em. done.
    + intros x Hx (_ & X1 & _). by apply X1, A3.
Qed.

Lemma l_get_write D' R' M p nc s : st_view D' R' M s -> p ∉ R' -> p <> 0 -> p <> PENDING_BYTE_PAGE bt -> p <= mxPgno -> wlp (get_to_write bt mxPgno p nc) (ok_or (fun s' => exists D2, got_page D' p nc D2 /\ st_view D2 (p :: R') M s')) s.
Proof.
  intros V Hn H0 Hp Hm. unfold get_to_write. apply wlp_bind. eapply l_unused; [exact V|done|done|done|done| |l_err]. intros D2 s1 HD V1. l_ok. apply wlp_bind. eapply l_io; [exact V1| |l_err]. intros s2 V2. l_ok. apply wlp_ret. left. split; [done|]. by exists D2.
Qed.

Lemma l_alloc_append s : st_view D R N s -> free_of ts = [] -> N + 4 <= mxPgno ->
  wlp (alloc_append bt mxPgno bDoTruncate) (fun r => ok_or (fun s' => exists D', r.2 = new_page N /\ st_view D' (r.2 :: R) r.2 s' /\ tchain bt D' ts 0 0 /\ (forall q, q <> 1 -> q <= N -> D' !! q = D !! q) /\ (autoVacuum bt = true -> PTRMAP_ISPAGE bt (next_page N) = true -> is_Some (D' !! next_page N))) r.1) s.
Proof.
  intros V Hf HNm. pose proof (fi_N _ _ _ _ HI) as HN. pose proof (fi_mx _ _ _ _ HI) as Hmx. assert (HR : forall q, N < q -> q ∉ R) by (intros q Hq Hr; destruct (fi_refs _ _ _ _ HI q Hr); lia).
  destruct (new_page_data N ltac:(lia) ltac:(lia)) as ((P1 & P2 & _) & P3 & _ & _). assert (Hnx : N < next_page N <= N + 2 /\ next_page N <> PENDING_BYTE_PAGE bt) by (unfold next_page; destruct (Z.eqb_spec (N + 1) (PENDING_BYTE_PAGE bt)); lia).
  unfold alloc_append. cbv zeta. apply wlp_bind. eapply l_io; [exact V| |l_err]. clear s V. intros s V. l_ok. apply wlp_bind. eapply l_bump; [exact V|lia|lia|]. clear s V. intros s V.
  apply wlp_bind. eapply (wlp_mono _ (fun r => ok_or (fun s' => exists D1, r.2 = new_page N /\ st_view D1 R (new_page N) s' /\ (forall q, q <= N -> D1 !! q = D !! q) /\ (autoVacuum bt = true -> PTRMAP_ISPAGE bt (next_page N) = true -> is_Some (D1 !! next_page N) /\ new_page N <> next_page N)) r.1)).
  - unfold new_page in *. destruct (autoVacuum bt && PTRMAP_ISPAGE bt (next_page N)) eqn:Em; [|apply wlp_ret; left; split; [done|]; exists D; split_and!; try done; intros Ha Hm; rewrite Ha, Hm in Em; done].
    apply wlp_bind. eapply wlp_mono; [eapply (l_get_write D R (next_page N) (next_page N) _ s V); [apply HR; lia|lia|apply Hnx|lia]|]. intros rc s1 [[-> (D1 & (G1 & G2 & _) & V1)]|[Hr Hfl]]; [|revert rc s1 Hr Hfl; l_err]. cbv beta. l_ok.
    apply wlp_bind. eapply l_release; [exact V1|done|]. intros s2 V2. apply wlp_bind. eapply l_bump; [exact V2|lia|lia|]. intros s3 V3. apply wlp_ret. left. split; [done|]. exists D1. split; [done|]. split; [done|]. split; [intros q Hq; apply G2; lia|]. intros _ _. split; [done|]. unfold next_page at 1. destruct (_ =? _); lia.
  - intros [rc p] s1 [[Erc (D1 & Ep & V1 & F1 & M1)]|[Hr Hfl]]; cbn [fst snd] in *; [|revert Hr Hfl; generalize rc s1; l_err]. subst rc p. l_ok. destruct (tchain_head _ _ _ (fi_chain _ _ _ _ HI)) as (d1 & H1 & Hc & Hw).
    assert (H11 : D1 !! 1 = Some d1) by (rewrite F1 by lia; done). apply wlp_bind. eapply l_put4; [exact V1|exact H11|]. intros s2 V2. apply wlp_bind. eapply wlp_mono; [eapply (l_get_write _ R _ (new_page N) _ s2 V2); [apply HR; lia|lia|done|lia]|].
    intros rc s3 [[-> (D2 & (_ & G2 & _) & V3)]|[Hr Hfl]]; apply wlp_ret; [left|by right]. split; [done|]. exists D2. split; [done|]. split; [done|]. cbn [snd]. split; [|split].
    + pose proof (free_nil ts Hf) as Hts. pose proof (fi_chain _ _ _ _ HI) as (d & Hd & Hcc & Hs). rewrite H1 in Hd. injection Hd as <-. rewrite Hts in *. cbn [tseg] in Hs.
      destruct (set_word_put d1 28 (new_page N) ltac:(lia) ltac:(unfold is_u32; lia)) as [_ W]. eexists. split; [rewrite G2 by lia; apply lookup_insert_eq|]. split; [rewrite W by lia; done|]. cbn [tseg]. by rewrite W by lia.
    + intros q Q1 Q2. rewrite G2, lookup_insert_ne by lia. by apply F1.
    + intros Ha Hm. destruct (M1 Ha Hm) as [E1 E2]. rewrite G2 by congruence. rewrite lookup_insert_ne by lia. done.
Qed.

Definition alloc_done (p : Z) (D' : gmap Z (list Z)) (N' : Z) (ts' : list (Z * list Z)) : Prop :=
  free_inv D' (p :: R) N' ts' /\ (forall q, q <> 1 -> q <= N -> q ∉ free_of ts -> D' !! q = D !! q) /\
  (free_of ts <> [] /\ p :: free_of ts' ≡ₚ free_of ts /\ N' = N /\ alloc_choice (free_of ts) nearby eMode p \/ free_of ts = [] /\ free_of ts' = [] /\ N' = p /\ p = new_page N).

Lemma popped_inv p D' : popped D ts (alen (free_of ts) - 1) p D' -> alloc_choice (free_of ts) nearby eMode p -> free_of ts <> [] -> exists ts', alloc_done p D' N ts'.
Proof.
  intros (ts' & C & P & F) Hch Hne. exists ts'. assert (Hin : forall q, q ∈ free_of ts' -> q ∈ free_of ts) by (intros q Hq; rewrite <- P; by right). assert (Hp : p ∈ free_of ts) by (rewrite <- P; left). destruct HI.
  assert (Hnd : NoDup (p :: free_of ts')) by by rewrite P. apply NoDup_cons in Hnd as [Hnp Hnd]. assert (Hmap : autoVacuum bt = true -> forall q, PTRMAP_ISPAGE bt q = true -> q ∉ free_of ts) by (intros Ha q Hm [(_ & _ & Hq) _]%fi_data0; specialize (Hq Ha); congruence).
  split; [split|split].
  - replace (alen (free_of ts')) with (alen (free_of ts) - 1); [done|]. unfold alen. rewrite <- (Permutation_length P). cbn [length]. lia.
  - done.
  - auto.
  - intros q [->|Hq]%elem_of_cons; [split; [|done]; destruct (fi_data0 p Hp) as [[? _] ?]; lia|]. destruct (fi_refs0 q Hq) as [? Hn]. split; [done|]. intros Hi. by apply Hn, Hin.
  - intros Ha q Hq Hm. rewrite F; [by apply fi_maps0|lia|by apply Hmap].
  - intros Ha q Hq. unfold pm_entry. destruct (fi_data0 q (Hin q Hq)) as [[? _] _]. destruct (ptrmapPageno_page q) as (M1 & _ & M3); [lia|]. rewrite F; [apply fi_types0; auto|lia|by apply Hmap].
  - done.
  - done.
  - intros q Q1 _ Q2. by apply F.
  - left. done.
Qed.

Lemma l_allocate s : st_view D R N s -> (free_of ts = [] -> N + 4 <= mxPgno) -> wlp (allocateBtreePage bt mxPgno bDoTruncate nearby eMode) (fun r => ok_or (fun s' => exists D' N' ts', st_view D' (r.2 :: R) N' s' /\ alloc_done r.2 D' N' ts') r.1) s.
Proof.
  intros V Hmx. unfold allocateBtreePage. apply wlp_bind, wlp_get. rewrite (v_nPage _ _ _ _ V). destruct (tchain_head _ _ _ (fi_chain _ _ _ _ HI)) as (d1 & H1 & Hc & _). apply wlp_bind. eapply l_get4; [exact V|exact H1|]. rewrite Hc. pose proof free_len as Hl.
  rewrite Z.geb_leb, (proj2 (Z.leb_gt N _)) by done. rewrite Z.gtb_ltb. destruct (Z.ltb_spec 0 (alen (free_of ts))) as [Hpos|Hz].
  - assert (Hne : free_of ts <> []) by (intros E; rewrite E in Hpos; done). eapply wlp_mono; [by apply l_alloc_free|]. intros [rc p] s1 [[Erc (D' & V1 & HP & Hch)]|?]; [left|by right]. split; [done|]. destruct (popped_inv _ _ HP Hch Hne) as (ts' & HA). by exists D', N, ts'.
  - assert (Hnil : free_of ts = []) by (destruct (free_of ts) as [|x l]; [done|]; rewrite alen_cons in Hz; pose proof (alen_nonneg l); lia). eapply wlp_mono; [by apply l_alloc_append; auto|].
    intros [rc p] s1 [[Erc (D' & Ep & V1 & C & F & M)]|?]; [left|by right]. split; [done|]. cbn [fst snd] in *. exists D', p, ts. split; [done|]. pose proof (Hmx Hnil). destruct HI. destruct (new_page_data N ltac:(lia) ltac:(lia)) as (P1 & P2 & P3 & P4). subst p.
    split; [split|split]; rewrite ?Hnil; try done; [..|by right].
    + constructor.
    + intros q Hq%not_elem_of_nil. done.
    + intros q [->|Hq]%elem_of_cons; [split; [lia|apply not_elem_of_nil]|]. destruct (fi_refs0 q Hq). split; [lia|apply not_elem_of_nil].
    + intros Ha q Hq Hm. destruct (Z.le_gt_cases q N) as [Hle|Hgt]; [rewrite F by lia; apply fi_maps0; (done || lia)|]. destruct (decide (q = next_page N)) as [->|Hne]; [by apply M|]. exfalso. unfold new_page in *. rewrite Ha in *. cbn [andb] in *.
      assert (Hq2 : q <> PENDING_BYTE_PAGE bt). { intros ->. destruct (ptrmapPageno_page (PENDING_BYTE_PAGE bt) ltac:(lia)) as (_ & Hp & _). apply Z.eqb_eq in Hm. congruence. }
      assert (Hb : forall m, m < q < next_page m -> False) by (intros m Hm'; unfold next_page in Hm'; destruct (Z.eqb_spec (m + 1) (PENDING_BYTE_PAGE bt)); lia). destruct (PTRMAP_ISPAGE bt (next_page N)) eqn:Em.
      * destruct (decide (q = next_page (next_page N))) as [->|Hne2]; [destruct P1 as (_ & _ & P1); specialize (P1 Ha); congruence|]. destruct (Z.lt_trichotomy q (next_page N)) as [?|[?|?]]; [apply (Hb N)|done|apply (Hb (next_page N))]; lia.
      * apply (Hb N). lia.
    + intros Ha q Hq%not_elem_of_nil. done.
    + lia.
    + intros q Q1 Q2 _. by apply F.
Qed.
End Alloc.

Lemma freed_inv D R N ts p D' ts' : free_inv D R N ts -> data_page p -> p <= N -> p ∉ free_of ts -> p ∉ R -> freed D ts p D' ts' -> free_inv D' R N ts'.
Proof.
  intros HI Hp HpN Hpf HpR (C & P & F & E). destruct HI. assert (Hin : forall q, q ∈ free_of ts' <-> q = p \/ q ∈ free_of ts) by (intros q; rewrite P; apply elem_of_cons). split; try done.
  - rewrite P. by constructor.
  - intros q [->|Hq]%Hin; [done|by apply fi_data0].
  - intros q Hq. destruct (fi_refs0 q Hq) as [? Hn]. split; [done|]. intros [->|?]%Hin; done.
  - intros Ha q Hq Hm. destruct (decide (q = ptrmapPageno bt p)) as [->|Hne]; [destruct (E Ha) as [E1 _]; unfold pm_entry in E1; destruct (D' !! ptrmapPageno bt p); done|]. rewrite F; [by apply fi_maps0|lia|..|done|].
    + intros ->. destruct Hp as (_ & _ & Hp). specialize (Hp Ha). congruence.
    + intros [(_ & _ & Hd) _]%fi_data0. specialize (Hd Ha). congruence.
  - intros Ha q [->|Hq]%Hin; [by apply E|]. destruct (E Ha) as [_ E2]. rewrite E2; [by apply fi_types0|by apply fi_data0|]. intros ->. done.
Qed.
End Ops.
