(* ===== verification/BtFreeSpec.v ===== *)
(** * Free pages: a set of pages to take from and to give back to

    The contract of [allocateBtreePage] and [freePage2]: of the pages of a database a set is free.
    Giving a page back adds it, and an allocation takes one out, of the number asked for, or makes the file
    longer when there is none; all other pages keep their contents.  Shown for all sequences of calls
    and of accesses of their callers. *)
From S2P Require Import Prelude Bytes FileIO Ints BtBase BtFree BtFreeWp BtFreeList BtFreeOps.

(** ** Specification *)

(** Number of pages, free pages, and contents of the pages in use *)
Record fspec : Type := MkFspec { fs_n : Z; fs_free : gset Z; fs_data : gmap Z (list Z) }.

(** Calls, and what callers do with the pages: [held] if a caller has a reference to the page that it frees. *)
Inductive fl_op : Type :=
  | OpAlloc (nearby eMode : Z)
  | OpFree (held cached : bool) (p : Z)
  | OpGet (p : Z)
  | OpRelease (p : Z)
  | OpWrite (p off : Z) (bs : list Z)
  | OpPtrmap (p eType parent : Z).

Section Spec.
Context (bt : BtShared) (mxPgno : Z) (bDoTruncate : bool).

Inductive fs_step : fl_op -> Z -> fspec -> fspec -> Prop :=
  | fs_pop nearby eMode p n F X d :
      p ∈ F -> (eMode = BTALLOC_EXACT -> nearby ∈ F -> p = nearby) -> (eMode = BTALLOC_LE -> p <= nearby) ->
      fs_step (OpAlloc nearby eMode) p (MkFspec n F X) (MkFspec n (F ∖ {[p]}) (<[p := d]> X))
  | fs_append nearby eMode p n X d :
      data_page bt p -> n < p -> (forall q, n < q < p -> ~ data_page bt q) ->
      fs_step (OpAlloc nearby eMode) p (MkFspec n ∅ X) (MkFspec p ∅ (<[p := d]> X))
  | fs_push held cached p n F X : p ∉ F -> fs_step (OpFree held cached p) p (MkFspec n F X) (MkFspec n ({[p]} ∪ F) X)
  | fs_get p n F X d : (forall d0, X !! p = Some d0 -> d = d0) -> fs_step (OpGet p) p (MkFspec n F X) (MkFspec n F (<[p := d]> X))
  | fs_release p A : fs_step (OpRelease p) p A A
  | fs_write p off bs n F X d : X !! p = Some d -> fs_step (OpWrite p off bs) p (MkFspec n F X) (MkFspec n F (<[p := fwrite d off bs]> X))
  | fs_ptrmap p eType parent A : fs_step (OpPtrmap p eType parent) p A A.

Inductive fs_run : list fl_op -> list Z -> fspec -> fspec -> Prop :=
  | fs_nil A : fs_run [] [] A A
  | fs_cons op p ops ps A A' A'' : fs_step op p A A' -> fs_run ops ps A' A'' -> fs_run (op :: ops) (p :: ps) A A''.

(** ** Implementation *)

(** Result code and page *)
Definition exec (op : fl_op) : BtM (Z * Z) :=
  match op with
  | OpAlloc nearby eMode => allocateBtreePage bt mxPgno bDoTruncate nearby eMode
  | OpFree held cached p => rc ← freePage2 bt mxPgno (held || cached) p; _ ← (if held then releasePage p else mret ()); mret (rc, p)
  | OpGet p => rc ← btreeGetPage bt mxPgno p false; mret (rc, p)
  | OpRelease p => _ ← releasePage p; mret (SQLITE_OK, p)
  | OpWrite p off bs => rc ← sqlite3PagerWrite p; if rc =? SQLITE_OK then _ ← memcpy_to p off bs; mret (rc, p) else mret (rc, p)
  | OpPtrmap p eType parent => rc ← ptrmapPut bt mxPgno p eType parent; mret (rc, p)
  end.

(** A sequence ends at the first error: the transaction is to be rolled back. *)
Fixpoint exec_all (ops : list fl_op) : BtM (Z * list Z) :=
  match ops with
  | [] => mret (SQLITE_OK, [])
  | op :: ops =>
      '(rc, p) ← exec op;
      if rc =? SQLITE_OK then '(rc, ps) ← exec_all ops; mret (rc, p :: ps) else mret (rc, [])
  end.

(** What callers have to observe. *)
Definition fl_op_ok (s : BtState) (A : fspec) (op : fl_op) : Prop :=
  let used p := data_page bt p /\ p <= fs_n A /\ p ∉ fs_free A in
  match op with
  | OpAlloc nearby eMode =>
      is_u32 nearby /\ (fs_free A = ∅ -> fs_n A + 4 <= mxPgno) /\
      (fs_free A <> ∅ -> eMode = BTALLOC_EXACT -> autoVacuum bt = true /\
         (nearby <= fs_n A -> data_page bt nearby /\ (nearby ∈ fs_free A \/ exists ty, pm_entry bt (st_data s) nearby = Some ty /\ 1 <= ty <= 5 /\ ty <> PTRMAP_FREEPAGE))) /\
      (fs_free A <> ∅ -> eMode = BTALLOC_LE -> exists x, x ∈ fs_free A /\ x <= nearby)
  | OpFree held cached p => used p /\ refcount p (st_refs s) = (if held then 1 else 0) /\ (cached = true -> is_Some (st_data s !! p))
  | OpGet p => used p
  | OpRelease p => p ∈ st_refs s /\ p <> 1
  | OpWrite p off bs => used p /\ p ∈ st_refs s /\ Forall is_u8 bs /\ 0 <= off /\ off + alen bs <= pageSize bt
  | OpPtrmap p eType parent => used p /\ autoVacuum bt = true /\ is_u8 eType
  end.

Fixpoint fl_ops_ok (ops : list fl_op) (s : BtState) (A : fspec) : Prop :=
  match ops with
  | [] => True
  | op :: ops => fl_op_ok s A op /\ forall p s' A', exec op s = Some (SQLITE_OK, p, s') -> fs_step op p A A' -> fl_ops_ok ops s' A'
  end.

(** The database [s] implements [A]. *)
Record db_represents (s : BtState) (A : fspec) : Prop := {
  rp_store : pages_ok bt s;
  rp_inv : exists ts, free_inv bt mxPgno (st_data s) (st_refs s) (st_nPage s) ts /\ fs_free A = list_to_set (free_of ts);
  rp_n : fs_n A = st_nPage s;
  rp_data : forall p, data_page bt p -> p <= fs_n A -> p ∉ fs_free A -> fs_data A !! p = st_data s !! p;
  rp_init : autoVacuum bt = true -> forall p, p ∈ st_isInit s -> PTRMAP_ISPAGE bt p = false
}.

(** The result of one operation *)
Definition step_result (s : BtState) (A : fspec) (op : fl_op) (r : Z * Z) (s' : BtState) : Prop :=
  r.1 = SQLITE_OK /\ (exists A', fs_step op r.2 A A' /\ db_represents s' A') /\ (Forall (fun e => e = SQLITE_OK) (st_io s) -> Forall (fun e => e = SQLITE_OK) (st_io s')) \/
  r.1 <> SQLITE_OK /\ exists e, e ∈ st_io s /\ e <> SQLITE_OK.

Context (Hcf : conf_ok bt).

Lemma fails_elem io : fails io -> exists e, e ∈ io /\ e <> SQLITE_OK.
Proof. intros H%not_Forall_Exists; [|intros e; apply _]. apply Exists_exists in H. exact H. Qed.

Lemma view_of s A : db_represents s A -> st_view bt (st_io s) (st_data s) (st_refs s) (st_nPage s) s.
Proof. intros []. by split. Qed.

Lemma free_inv_perm D R R' N ts : R ≡ₚ R' -> free_inv bt mxPgno D R N ts -> free_inv bt mxPgno D R' N ts.
Proof. intros HR []. split; try done. intros p Hp. apply fi_refs. by rewrite HR. Qed.

Lemma to_set_free (F : gset Z) ts : F = list_to_set (free_of ts) -> forall p, p ∈ F <-> p ∈ free_of ts.
Proof. intros -> p. by rewrite elem_of_list_to_set. Qed.

(** ** One operation *)

Section Step.
Context (s : BtState) (A : fspec) (HR : db_represents s A).

(** Termination, from [BtFreeWp.v], with the effects, from [BtFreeOps.v]. *)
Lemma step_alloc nearby eMode : fl_op_ok s A (OpAlloc nearby eMode) -> wp (exec (OpAlloc nearby eMode)) (step_result s A (OpAlloc nearby eMode)) s.
Proof.
  intros (Hu & Hmx & Hex & Hle). pose proof (view_of s A HR) as V. destruct HR as [Hst (ts & HI & EF) En Hdat Hini]. pose proof (to_set_free _ _ EF) as HF.
  assert (Hemp : fs_free A <> ∅ <-> free_of ts <> []). { rewrite EF. split; [intros H E; apply H; by rewrite E|]. intros H E. apply H. destruct (free_of ts) as [|x l]; [done|]. exfalso. apply (not_elem_of_empty (C := gset Z) x). rewrite <- E. apply elem_of_list_to_set. left. }
  assert (Hpre : alloc_pre bt (st_data s) (st_nPage s) (free_of ts) nearby eMode).
  { split; [done|]. rewrite <- En. split; intros Hne%Hemp He; [destruct (Hex Hne He) as [? Hn]; split; [done|]; intros Hn'; destruct (Hn Hn') as [? Ho]; split; [done|]; by rewrite <- HF|]. destruct (Hle Hne He) as (x & Hx & ?). exists x. by rewrite <- HF. }
  eapply wp_mono; [apply wp_wlp; [apply (safe_allocate bt mxPgno bDoTruncate Hcf s (so_ref1 _ _ Hst) nearby eMode Hst Hu)|eapply (l_allocate bt mxPgno bDoTruncate (st_io s) Hcf _ _ _ ts nearby eMode HI Hpre s V)]|].
  { intros E. rewrite <- En. apply Hmx. by rewrite EF, E. }
  intros [rc p] s' [[HA _] [[Erc (D' & N' & ts' & V' & HI' & Hfr & Hcase)]|[Hr Hf]]]; cbn [fst snd] in *; [left|right; split; [done|by apply fails_elem]]. split; [done|]. cbn [fst snd]. split; [|apply V'].
  destruct V' as [<- Vr <- _ Vi]. assert (Hp : is_Some (st_data s' !! p)) by (apply (so_refd _ _ (ad_ok _ _ _ _ HA)); rewrite Vr; left). destruct Hp as [d Hd]. apply (free_inv_perm _ _ (st_refs s')) in HI'; [|by rewrite Vr].
  destruct A as [n F X]. cbn [fs_n fs_free fs_data] in *. destruct Hcase as [(Hne & HP & EN & Hc1 & Hc2)|(Hnil & Hnil' & EN & Ep)].
  - exists (MkFspec n (F ∖ {[p]}) (<[p := d]> X)). assert (Hpf : p ∈ free_of ts) by (rewrite <- HP; left). assert (Hnp : p ∉ free_of ts') by (pose proof (fi_nodup _ _ _ _ _ _ HI) as Hnd; rewrite <- HP in Hnd; by apply NoDup_cons in Hnd as []).
    split; [apply fs_pop; [by apply HF|intros He Hn; apply Hc1; [done|by apply HF]|done]|]. split; [apply HA| |cbn; congruence| |done]; cbn [fs_n fs_free fs_data].
    + exists ts'. split; [done|]. rewrite EF. apply set_eq. intros q. rewrite elem_of_difference, elem_of_singleton, !elem_of_list_to_set, <- HP, elem_of_cons. split; [intros [[?|?] ?]; done|]. intros Hq. split; [by right|]. by intros ->.
    + intros q Hq Hqn Hqf. destruct (decide (q = p)) as [->|Hqp]; [by rewrite lookup_insert_eq|]. rewrite lookup_insert_ne by done. assert (Hq' : q ∉ F) by (intros Hi; apply Hqf, elem_of_difference; split; [done|]; by rewrite elem_of_singleton). rewrite Hdat by done. symmetry. apply Hfr; [destruct Hq; lia|lia|]. by rewrite <- HF.
  - exists (MkFspec p ∅ (<[p := d]> X)). assert (EF0 : F = ∅) by (rewrite EF, Hnil; done). clear EF. subst F. pose proof (fi_N _ _ _ _ _ _ HI). pose proof (fi_mx _ _ _ _ _ _ HI). specialize (Hmx eq_refl). destruct (new_page_data bt Hcf (st_nPage s) ltac:(lia) ltac:(lia)) as (P1 & P2 & P3 & _). rewrite <- Ep in *.
    split; [rewrite En; apply fs_append; [done|lia|done]|]. split; [apply HA| |cbn; congruence| |done]; cbn [fs_n fs_free fs_data].
    + exists ts'. split; [done|]. by rewrite Hnil'.
    + intros q Hq Hqn Hqf. destruct (decide (q = p)) as [->|Hqp]; [by rewrite lookup_insert_eq|]. rewrite lookup_insert_ne by done. destruct (Z.le_gt_cases q (st_nPage s)) as [Hle'|Hgt]; [|by destruct (P3 q); [lia|]]. rewrite Hdat; [|done|lia|done]. symmetry. apply Hfr; [destruct Hq; lia|lia|]. rewrite Hnil. apply not_elem_of_nil.
Qed.

Lemma refcount_one p l : refcount p l = 1 -> exists k, l ≡ₚ p :: k /\ p ∉ k.
Proof.
  intros H. assert (Hp : p ∈ l) by (apply refcount_elem; lia). apply elem_of_Permutation in Hp as [k Hk]. exists k. split; [done|]. rewrite Hk, refcount_cons, Z.eqb_refl in H. intros Hi%refcount_elem. lia.
Qed.

Lemma store_release s' p : pages_ok bt s' -> p <> 1 -> p ∈ st_refs s' -> pages_ok bt (with_refs (unref p (st_refs s')) s').
Proof.
  intros [P1 P2 P3 P4 P5] Hp Hi. apply elem_of_Permutation in Hi as [k Hk]. pose proof (unref_perm p _ k Hk) as Hu. split; try done; cbn [with_refs st_refs st_data].
  - rewrite Hu. rewrite Hk in P2. by apply elem_of_cons in P2 as [?|?].
  - intros q Hq. apply P4. rewrite Hk. right. by rewrite <- Hu.
Qed.

Lemma step_free held cached p : fl_op_ok s A (OpFree held cached p) -> wp (exec (OpFree held cached p)) (step_result s A (OpFree held cached p)) s.
Proof.
  intros ((Hp & HpN & HpF) & Hrc & Hca). pose proof (view_of s A HR) as V. destruct HR as [Hst (ts & HI & EF) En Hdat Hini]. pose proof (to_set_free _ _ EF) as HF. rewrite En in HpN. rewrite HF in HpF.
  assert (exists R, st_refs s ≡ₚ (if held then [p] else []) ++ R /\ p ∉ R) as (R & HRp & HpR). { destruct held; [by apply refcount_one|]. exists (st_refs s). split; [done|]. intros Hi%refcount_elem. lia. }
  assert (Hb : held || cached = true -> is_Some (st_data s !! p)). { intros [->|Hc]%orb_true_iff; [|by apply Hca]. apply (so_refd _ _ Hst). rewrite HRp. left. }
  assert (HIR : free_inv bt mxPgno (st_data s) R (st_nPage s) ts) by (destruct HI; split; try done; intros q Hq; apply fi_refs; rewrite HRp; apply elem_of_app; by right).
  pose proof (fi_N _ _ _ _ _ _ HI) as HN. pose proof (fi_mx _ _ _ _ _ _ HI) as Hmx. pose proof (free_len bt mxPgno _ _ _ _ HI) as Hlen. pose proof (proj1 Hp) as [Hp2 _].
  apply wp_bind. eapply wp_mono; [apply wp_wlp; [apply (safe_freePage2 bt mxPgno Hcf s (so_ref1 _ _ Hst) (held || cached) p Hst Hb)|]|].
  { eapply (l_freePage2 bt mxPgno (st_io s) Hcf (st_data s) ts (st_refs s) (st_nPage s) p); [apply HI|apply HI|apply HI|done|done|done|lia|lia| |exact Hb|exact V]. intros Ha. pose proof (map_le bt Hcf p Hp Ha). destruct (ptrmapPageno_page bt Hcf p Hp2) as (? & _ & ?). apply (fi_maps _ _ _ _ _ _ HI Ha); [lia|done]. }
  intros rc s1 [HA HQ]. cbv beta. assert (Hrest : wp (_ ← (if held then releasePage p else mret ()); mret (rc, p)) (fun r s' => r = (rc, p) /\ pages_ok bt s' /\ st_data s' = st_data s1 /\ st_refs s' ≡ₚ R /\ st_nPage s' = st_nPage s1 /\ st_isInit s' = st_isInit s1 /\ st_io s' = st_io s1) s1).
  { pose proof (ad_refs _ _ _ _ HA) as Hr1. cbn [app] in Hr1. apply wp_bind. destruct held; [apply wp_upd|apply wp_ret]; apply wp_ret; (split; [done|]); [|split; [apply HA|]; split; [done|]; split; [by rewrite Hr1, HRp|done]].
    split; [apply store_release; [apply HA|lia|rewrite Hr1, HRp; left]|]. split; [done|]. split; [|done]. cbn [with_refs st_refs]. apply unref_perm. by rewrite Hr1, HRp. }
  eapply wp_mono; [exact Hrest|]. intros r s' (-> & Hst' & Ed & Er & EN & Ei & Eio). destruct HQ as [[-> (D' & ts' & V' & HF')]|[Hr Hf]]; [left|right; split; [done|by apply fails_elem]]. split; [done|]. cbn [snd]. split; [|rewrite Eio; apply V'].
  destruct V' as [Vd _ Vn _ Vi]. pose proof (freed_inv bt mxPgno _ _ _ _ _ _ _ HIR Hp HpN HpF HpR HF') as HI'. destruct HF' as (_ & HP & Hfr & _). destruct A as [n F X]. cbn [fs_n fs_free fs_data] in *. exists (MkFspec n ({[p]} ∪ F) X).
  split; [apply fs_push; by rewrite HF|]. split; [done| |cbn; congruence| |intros Ha q; rewrite Ei; by apply Vi]; cbn [fs_n fs_free fs_data].
  - exists ts'. rewrite Ed, Vd, EN, Vn. split; [eapply free_inv_perm; [|exact HI']; by rewrite Er|]. rewrite EF. apply set_eq. intros q. rewrite elem_of_union, elem_of_singleton, !elem_of_list_to_set, HP, elem_of_cons. done.
  - intros q Hq Hqn Hqf. apply not_elem_of_union in Hqf as [Hqp%not_elem_of_singleton Hqf]. rewrite Ed, Vd, Hdat by done. symmetry. apply Hfr; [destruct Hq; lia|done| |by rewrite <- HF]. intros Ha ->. by apply (map_not_data bt Hcf _ p Ha Hq Hp2).
Qed.

(** The list is not touched. *)
Lemma represents_same s' X : pages_ok bt s' -> st_nPage s' = st_nPage s -> (forall p, p ∈ st_refs s' -> p ∈ st_refs s \/ data_page bt p /\ p <= fs_n A /\ p ∉ fs_free A) ->
  (forall q, ~ (data_page bt q /\ q <= fs_n A /\ q ∉ fs_free A) -> st_data s' !! q = st_data s !! q) -> (forall q, data_page bt q -> q <= fs_n A -> q ∉ fs_free A -> X !! q = st_data s' !! q) ->
  (autoVacuum bt = true -> forall p, p ∈ st_isInit s' -> PTRMAP_ISPAGE bt p = false) -> db_represents s' (MkFspec (fs_n A) (fs_free A) X).
Proof.
  intros Hst' EN Hrf Hda HX Hi. destruct HR as [Hst (ts & HI & EF) En Hdat Hini]. pose proof (to_set_free _ _ EF) as HF. split; cbn [fs_n fs_free fs_data]; [done| |congruence|done|done].
  exists ts. rewrite EN. split; [|done]. destruct HI. assert (Hfree : forall q, q ∈ 1 :: free_of ts -> st_data s' !! q = st_data s !! q) by (intros q Hq; apply Hda; intros ((? & _) & _ & Hn); apply elem_of_cons in Hq as [->|Hq]; [lia|]; by apply Hn, HF).
  assert (Hmaps : autoVacuum bt = true -> forall q, PTRMAP_ISPAGE bt q = true -> st_data s' !! q = st_data s !! q) by (intros Ha q Hm; apply Hda; intros ((_ & _ & Hq) & _); specialize (Hq Ha); congruence). split; try done.
  - eapply tchain_frame; [|exact fi_chain]. intros t [->|Ht]%elem_of_cons; apply Hfree; [left|right; by apply trunks_free].
  - intros q [Hq|((? & _) & ? & Hn)]%Hrf; [by apply fi_refs|]. split; [lia|]. by rewrite <- HF.
  - intros Ha q Hq Hm. rewrite Hmaps by done. by apply fi_maps.
  - intros Ha q Hq. unfold pm_entry. destruct (fi_data q Hq) as [[? _] _]. rewrite Hmaps; [by apply fi_types|done|]. apply ptrmapPageno_page; [done|lia].
Qed.

Lemma step_get p : fl_op_ok s A (OpGet p) -> wp (exec (OpGet p)) (step_result s A (OpGet p)) s.
Proof.
  intros Hused. pose proof Hused as (Hp & HpN & HpF). pose proof (view_of s A HR) as V. pose proof HR as [Hst (ts & HI & EF) En Hdat Hini]. pose proof (fi_N _ _ _ _ _ _ HI) as HN. pose proof Hp as (Hp2 & Hpp & _). assert (HA0 : refs_added bt s [] s) by by split.
  apply wp_bind. eapply wp_mono; [apply wp_wlp; [by apply (safe_get bt mxPgno Hcf s [])|eapply (l_get bt mxPgno (st_io s) _ _ _ p false (fun rc s' => ok_or (st_io s) (fun s' => exists D', got_page (st_data s) p false D' /\ st_view bt (st_io s) D' (p :: st_refs s) (st_nPage s) s') rc s')); [exact V|lia|done|lia| |]]|].
  - intros D' s' HD V'. left. split; [done|]. by exists D'.
  - intros rc s' Hr Hf. by right.
  - intros rc s' [HA [[-> (D' & ([d Hd] & G2 & G3) & V')]|[Hr Hf]]]; apply wp_ret; [left|right; split; [done|by apply fails_elem]]. split; [done|]. split; [|apply V']. destruct V' as [<- Vr Vn _ Vi]. exists (MkFspec (fs_n A) (fs_free A) (<[p := d]> (fs_data A))). cbn [snd]. split.
    + destruct A as [n F X]. apply fs_get. intros d0 Hd0. cbn [fs_n fs_free fs_data] in *. rewrite Hdat in Hd0 by done. rewrite G3 in Hd; [congruence|done|by exists d0].
    + apply represents_same; [apply HA|done| | | |done].
      * intros q. rewrite Vr. intros [->|?]%elem_of_cons; [by right|by left].
      * intros q Hq. apply G2. intros ->. by apply Hq.
      * intros q Hq HqN HqF. destruct (decide (q = p)) as [->|Hne]; [by rewrite lookup_insert_eq|]. rewrite lookup_insert_ne, G2 by done. by apply Hdat.
Qed.

Lemma step_release p : fl_op_ok s A (OpRelease p) -> wp (exec (OpRelease p)) (step_result s A (OpRelease p)) s.
Proof.
  intros [Hp Hp1]. pose proof HR as [Hst _ _ Hdat Hini]. apply wp_bind, wp_upd, wp_ret. left. split; [done|]. split; [|done]. exists A. split; [constructor|]. assert (EA : A = MkFspec (fs_n A) (fs_free A) (fs_data A)) by by destruct A. rewrite EA. apply represents_same; try done; [by apply store_release|]. cbn [with_refs st_refs]. intros q Hq. left.
  apply elem_of_Permutation in Hp as [k Hk]. rewrite (unref_perm p _ k Hk) in Hq. rewrite Hk. by right.
Qed.

Lemma step_write p off bs : fl_op_ok s A (OpWrite p off bs) -> wp (exec (OpWrite p off bs)) (step_result s A (OpWrite p off bs)) s.
Proof.
  intros (Hused & Hr & Hbs & Ho & Hl). pose proof Hused as (Hp & HpN & HpF). pose proof HR as [Hst _ _ Hdat Hini]. pose proof Hst as [P1 P2 P3 P4 P5]. destruct (P4 p Hr) as [d Hd]. destruct (P3 p d Hd) as [Hsz Hu8].
  apply wp_bind, wp_io. intros rc io Hio. destruct (Z.eqb_spec rc SQLITE_OK) as [->|Hne]; [|apply wp_ret; right; split; [done|]; exists rc; destruct Hio as [Hio|[? _]]; [rewrite Hio; split; [left|done]|done]].
  apply wp_bind. eapply wp_memcpy; [exact Hd|done|lia|]. apply wp_ret. left. split; [done|]. cbn [snd]. split; [|cbn; destruct Hio as [->|(_ & -> & ->)]; [by intros [_ ?]%Forall_cons|done]]. exists (MkFspec (fs_n A) (fs_free A) (<[p := fwrite d off bs]> (fs_data A))). split; [destruct A as [n F X]; apply fs_write; cbn [fs_n fs_free fs_data] in *; by rewrite Hdat|].
  apply represents_same; try done; cbn [put_page with_data with_io st_data st_refs].
  - split; cbn [put_page with_data with_io st_data st_refs st_nPage]; try done; [| |].
    + destruct (decide (p = 1)) as [->|]; [by rewrite lookup_insert_eq|by rewrite lookup_insert_ne].
    + intros q x [[<- <-]|[_ Hx]]%lookup_insert_Some; [split; [rewrite alen_write; lia|by apply fwrite_u8]|by eapply P3].
    + intros q Hq. destruct (decide (q = p)) as [->|]; [by rewrite lookup_insert_eq|rewrite lookup_insert_ne by done; by apply P4].
  - intros q Hq. by left.
  - intros q Hq. rewrite lookup_insert_ne; [done|]. intros <-. by apply Hq.
  - intros q Hq HqN HqF. destruct (decide (q = p)) as [->|Hne]; [by rewrite !lookup_insert_eq|]. rewrite !lookup_insert_ne by done. by apply Hdat.
Qed.

Lemma step_ptrmap p eType parent : fl_op_ok s A (OpPtrmap p eType parent) -> wp (exec (OpPtrmap p eType parent)) (step_result s A (OpPtrmap p eType parent)) s.
Proof.
  intros ((Hp & HpN & HpF) & Ha & Ht). pose proof (view_of s A HR) as V. destruct HR as [Hst (ts & HI & EF) En Hdat Hini]. pose proof (to_set_free _ _ EF) as HF. pose proof (fi_N _ _ _ _ _ _ HI) as HN. pose proof (proj1 Hp) as [Hp2 Hp3]. assert (HA0 : refs_added bt s [] s) by by split.
  pose proof (map_le bt Hcf p Hp Ha) as Hml. destruct (ptrmapPageno_page bt Hcf p Hp2) as (M1 & M2 & M3). destruct (fi_maps _ _ _ _ _ _ HI Ha (ptrmapPageno bt p) ltac:(lia) M3) as [d Hd]. set (pm := ptrmapPageno bt p) in *.
  apply wp_bind. eapply wp_mono; [apply wp_wlp; [apply (safe_ptrmapPut bt mxPgno Hcf s (so_ref1 _ _ Hst) [] s p eType parent HA0); [unfold is_u32; lia|done]|eapply (l_ptrmapPut bt mxPgno (st_io s) Hcf (st_data s) (st_refs s) (st_nPage s) p d s V Hp Ha Hd ltac:(fold pm; lia) eType parent (fun rc s' => ok_or (st_io s) (fun s' => exists d', entry_set bt p d eType d' /\ st_view bt (st_io s) (<[pm := d']> (st_data s)) (st_refs s) (st_nPage s) s') rc s'))]|].
  - intros d' s' He V'. left. split; [done|]. by exists d'.
  - intros rc s' Hr Hf. by right.
  - intros rc s' [HA [[-> (d' & [_ He] & [Vd Vr Vn Vio Vi])]|[Hr Hf]]]; apply wp_ret; [left|right; split; [done|by apply fails_elem]]. split; [done|]. split; [|done]. exists A. split; [constructor|]. split; [apply HA| |congruence| |done].
    + exists ts. split; [|done]. rewrite Vd, Vn. assert (Hne : forall q, q ∈ free_of ts -> q <> pm) by (intros q Hq ->; destruct (fi_data _ _ _ _ _ _ HI pm Hq) as [(_ & _ & Hq') _]; specialize (Hq' Ha); congruence). destruct HI. split; try done.
      * eapply tchain_frame; [|exact fi_chain]. intros t [->|Ht']%elem_of_cons; rewrite lookup_insert_ne; try done; [lia|]. intros E. by apply (Hne t); [apply trunks_free|].
      * intros q Hq. apply fi_refs. by rewrite <- Vr.
      * intros _ q Hq Hm. destruct (decide (q = pm)) as [->|]; [by rewrite lookup_insert_eq|rewrite lookup_insert_ne by done; by apply fi_maps].
      * intros _ q Hq. rewrite <- (fi_types Ha q Hq). unfold pm_entry. destruct (decide (ptrmapPageno bt q = pm)) as [E|E]; [|by rewrite lookup_insert_ne]. rewrite E, lookup_insert_eq, Hd. cbn. f_equal. destruct (fi_data q Hq) as [Hqd _].
        apply He; [by apply (data_page_ofs bt Hcf)|]. assert (q <> p) by (intros ->; by apply HpF, HF). pose proof (ofs_inj bt p q). lia.
    + intros q Hq HqN HqF. rewrite Vd, lookup_insert_ne; [by apply Hdat|]. intros <-. destruct Hq as (_ & _ & Hq). specialize (Hq Ha). congruence.
Qed.
End Step.

(** ** All sequences *)

Lemma exec_step op s A : db_represents s A -> fl_op_ok s A op -> wp (exec op) (step_result s A op) s.
Proof. intros HR Hok. destruct op; [by apply step_alloc|by apply step_free|by apply step_get|by apply step_release|by apply step_write|by apply step_ptrmap]. Qed.

Lemma exec_all_run ops s A : db_represents s A -> fl_ops_ok ops s A ->
  wp (exec_all ops) (fun r s' => r.1 = SQLITE_OK /\ (exists A', fs_run ops r.2 A A' /\ db_represents s' A') \/ r.1 <> SQLITE_OK /\ exists e, e ∈ st_io s /\ e <> SQLITE_OK) s.
Proof.
  revert s A. induction ops as [|op ops IH]; intros s A HR Hok; cbn [exec_all]; [apply wp_ret; left; split; [done|]; exists A; by split; [constructor|]|]. destruct Hok as [Hop Hok]. destruct (exec_step op s A HR Hop) as ([rc p] & s1 & E & HS). apply wp_bind. exists (rc, p), s1. split; [done|].
  destruct HS as [(Erc & (A1 & Hst & HR1) & Hio)|[Hne Hf]]; cbn [fst snd] in *; [|rewrite (proj2 (Z.eqb_neq _ _) Hne); apply wp_ret; by right]. subst rc. change (SQLITE_OK =? SQLITE_OK) with true. cbv iota.
  apply wp_bind. eapply wp_mono; [apply (IH s1 A1 HR1 (Hok p s1 A1 E Hst))|]. intros [rc ps] s2 HQ. apply wp_ret. cbn [fst snd] in *. destruct HQ as [[Erc (A2 & Hrun & HR2)]|[Hne (e & He & Hbad)]].
  - left. split; [done|]. exists A2. split; [by econstructor|done].
  - right. split; [done|]. apply fails_elem. intros Hall%Hio. rewrite Forall_forall in Hall. by apply Hbad, Hall.
Qed.
End Spec.

(** C10. Free lists refine a set of free pages.  The database represents a number of pages, a set of free ones and
    the contents of those in use.  Pages are taken, given back, read, written and released in any order, with
    results of the pager that are arbitrary.  Then the sequence ends at the first failure of the pager, or all
    calls return SQLITE_OK and do what the set does: [freePage2] adds the page, and
    [allocateBtreePage] takes one that was free, the page [nearby] itself if that is asked for and free, one not above
    [nearby] with BTALLOC_LE; when none is free it takes the first page after the end of the file that is
    neither that of the locks nor for a pointer map.  The pages in use have at any time the contents their users
    wrote, so no page is given to two users. *)
Theorem btreeFreelist_refines_set bt mxPgno bDoTruncate ops s A : conf_ok bt -> db_represents bt mxPgno s A -> fl_ops_ok bt mxPgno bDoTruncate ops s A ->
  exists rc ps s', exec_all bt mxPgno bDoTruncate ops s = Some (rc, ps, s') /\
    (rc = SQLITE_OK /\ (exists A', fs_run bt ops ps A A' /\ db_represents bt mxPgno s' A') \/ rc <> SQLITE_OK /\ exists e, e ∈ st_io s /\ e <> SQLITE_OK).
Proof. intros Hcf HR Hok. destruct (exec_all_run bt mxPgno bDoTruncate Hcf ops s A HR Hok) as ([rc ps] & s' & E & HQ). by exists rc, ps, s'. Qed.

(** Page 2 is a pointer map, 3 a trunk with leaf 4, and 5 is in use: page 4 is asked for, and given back. *)
Definition small_map : list Z := fwrite (fwrite (fwrite (replicate 512 0) 0 [2]) 5 [2]) 10 [5].
Definition small_db : BtState :=
  MkBtState {[1 := page_of_words [(32, 3); (36, 2)]; 2 := small_map; 3 := page_of_words [(4, 1); (8, 4)]; 5 := page_of_words []]} [1] ∅ None 5 [].
Definition small_set : fspec := MkFspec 5 {[3; 4]} {[5 := page_of_words []]}.
Definition small_ops : list fl_op := [OpAlloc 4 BTALLOC_EXACT; OpFree true false 4].

Lemma small_lookup p d : st_data small_db !! p = Some d -> p = 1 /\ d = page_of_words [(32, 3); (36, 2)] \/ p = 2 /\ d = small_map \/ p = 3 /\ d = page_of_words [(4, 1); (8, 4)] \/ p = 5 /\ d = page_of_words [].
Proof.
  unfold small_db. cbn [st_data]. intros H. apply lookup_insert_Some in H as [[<- <-]|[_ H]]; [by left|right]. apply lookup_insert_Some in H as [[<- <-]|[_ H]]; [by left|right]. apply lookup_insert_Some in H as [[<- <-]|[_ H]]; [by left|right]. by apply lookup_singleton_Some in H as [<- <-].
Qed.

Lemma small_pages p : data_page (bt_small true) p -> p <= 5 -> p = 3 \/ p = 4 \/ p = 5.
Proof. intros (H1 & _ & H2) H. specialize (H2 eq_refl). assert (p = 2 \/ p = 3 \/ p = 4 \/ p = 5) as [->|?] by lia; [discriminate H2|done]. Qed.

Lemma small_data_page p : 3 <= p <= 5 -> data_page (bt_small true) p.
Proof. intros H. assert (p = 3 \/ p = 4 \/ p = 5) as [->|[->| ->]] by lia; (split; [lia|]; split; [by intros ?|]; intros _; vm_compute; reflexivity). Qed.

Lemma small_store : pages_ok (bt_small true) small_db.
Proof.
  split; [done|left| |intros p [->|?%not_elem_of_nil]%elem_of_cons; done|by unfold is_u32]. intros p d [[_ ->]|[[_ ->]|[[_ ->]|[_ ->]]]]%small_lookup; try (apply page_of_words_ok; repeat constructor; cbn; lia).
  unfold small_map. split; [rewrite !alen_write by (rewrite ?alen_write; vm_compute; done); done|]. repeat (apply fwrite_u8; [|by repeat constructor]). apply replicate_u8.
Qed.

Lemma small_represents : db_represents (bt_small true) 1000 small_db small_set.
Proof.
  split; [apply small_store| |done| |by intros ? ? ?%not_elem_of_empty].
  - exists [(3, [4])]. split; [|reflexivity]. split.
    + eexists. split; [reflexivity|]. split; [reflexivity|]. split; [reflexivity|]. eexists. split; [reflexivity|]. split; [|reflexivity]. split; [done|]. split; [reflexivity|]. intros [|[|i]] x; [|done|done]. intros [= <-]. reflexivity.
    + change (free_of [(3, [4])]) with [3; 4]. constructor; [by rewrite list_elem_of_singleton|apply NoDup_singleton].
    + intros p Hp. change (free_of [(3, [4])]) with [3; 4] in Hp. apply elem_of_cons in Hp as [->|Hp%list_elem_of_singleton]; [|subst p]; (split; [apply small_data_page; lia|done]).
    + intros p [->|?%not_elem_of_nil]%elem_of_cons; [|done]. split; [done|]. by intros [?|?%list_elem_of_singleton]%elem_of_cons.
    + intros _ p Hp Hm. cbn in Hp. assert (p = 2 \/ p = 3 \/ p = 4 \/ p = 5) as [->|[->|[->| ->]]] by lia; [by eexists|discriminate Hm..].
    + intros _ p Hp. change (free_of [(3, [4])]) with [3; 4] in Hp. apply elem_of_cons in Hp as [->|Hp%list_elem_of_singleton]; [|subst p]; vm_compute; reflexivity.
    + done.
    + done.
  - intros p Hp Hn Hf. destruct (small_pages p Hp Hn) as [->|[->| ->]]; [by destruct Hf; set_solver|by destruct Hf; set_solver|reflexivity].
Qed.

Lemma btreeFreelist_refines_set_witness : exists s', exec_all (bt_small true) 1000 false small_ops small_db = Some (SQLITE_OK, [4; 4], s') /\
  exists A', fs_run (bt_small true) small_ops [4; 4] small_set A' /\ db_represents (bt_small true) 1000 s' A'.
Proof.
  assert (Hok : fl_ops_ok (bt_small true) 1000 false small_ops small_db small_set).
  { split; [split; [by unfold is_u32|]; split; [intros H; exfalso; apply (not_elem_of_empty (C := gset Z) 3); rewrite <- H; cbn; set_solver|]; split; [intros _ _; split; [done|]; intros _; split; [by apply small_data_page|left; cbn; set_solver]|done]|].
    intros p s' A' E HS. split; [|done]. assert (Ec : (fun r => (r.1.2, refcount 4 (st_refs r.2))) <$> exec (bt_small true) 1000 false (OpAlloc 4 BTALLOC_EXACT) small_db = Some (4, 1)) by (vm_compute; reflexivity). rewrite E in Ec. injection Ec as -> Hrc. clear E.
    inversion HS; subst. split; [|split; [exact Hrc|intros H; discriminate H]]. split; [apply small_data_page; lia|]. split; [cbn; lia|]. intros [_ Hn]%elem_of_difference. by apply Hn, elem_of_singleton. }
  destruct (btreeFreelist_refines_set (bt_small true) 1000 false small_ops small_db small_set ltac:(split; cbn; lia) small_represents Hok) as (rc & ps & s' & E & HQ).
  assert (Ec : (fun r => r.1) <$> exec_all (bt_small true) 1000 false small_ops small_db = Some (SQLITE_OK, [4; 4])) by (vm_compute; reflexivity). rewrite E in Ec. injection Ec as -> ->. exists s'. split; [exact E|]. destruct HQ as [[_ H]|[H _]]; [exact H|by destruct H].
Defined.
