(* ===== verification/Double.v ===== *)
(** * Floating point numbers (the parts of C that comparisons need)

    A [double] is its 64 bits.  Its value is kept times 2^1074, as an integer: so
    comparisons of doubles, conversions to and from 64-bit integers, and
    [sqlite3IntFloatCompare] of [vdbeaux.c] are exact integer arithmetic. *)
From S2P Require Import Prelude.

(** ** Values *)

Definition EXP754 : Z := 0x7ff << 52.
Definition MAN754 : Z := (1 << 52) - 1.
Definition IsNaN (x : Z) : bool := (x .& EXP754 =? EXP754) && negb (x .& MAN754 =? 0).
Definition sqlite3IsNaN (x : Z) : bool := IsNaN x.

Definition dexp (x : Z) : Z := (x >> 52) .& 0x7ff.
Definition dman (x : Z) : Z := x .& MAN754.
Definition dneg (x : Z) : bool := Z.testbit x 63.

(** 2^1074, the scale of all values *)
Definition dscale : Z := 2 ^ 1074.

Definition dmag (x : Z) : Z := if dexp x =? 0 then dman x else (2 ^ 52 + dman x) * 2 ^ (dexp x - 1).
Definition dval (x : Z) : Z := if dneg x then - dmag x else dmag x.

(** [a<b], false for NaN *)
Definition dlt (a b : Z) : bool := negb (IsNaN a) && negb (IsNaN b) && (dval a <? dval b).
Definition dge (a b : Z) : bool := negb (IsNaN a) && negb (IsNaN b) && (dval b <=? dval a).

(** [(i64)r], for [r] in range: the fraction is dropped. *)
Definition i64_of_double (r : Z) : Z := Z.quot (dval r) dscale.

(** The bits of [(double)n] for [n>0]: the nearest value, of two the even one *)
Definition double_mag (n : Z) : Z :=
  let L := Z.log2 n in
  if L <=? 52 then ((1023 + L) << 52) + ((n << (52 - L)) - 2 ^ 52)
  else
    let sh := L - 52 in
    let q := n >> sh in
    let r := n mod 2 ^ sh in
    let q := if (2 * r >? 2 ^ sh) || (2 * r =? 2 ^ sh) && Z.odd q then q + 1 else q in
    ((1023 + L) << 52) + (q - 2 ^ 52).

(** [(double)i] *)
Definition double_of_i64 (i : Z) : Z :=
  if i =? 0 then 0 else if i <? 0 then double_mag (- i) + 2 ^ 63 else double_mag i.

(** -9223372036854775808.0 and 9223372036854775808.0 *)
Definition dbl_min_i64 : Z := 0xc3e0000000000000.
Definition dbl_max_i64 : Z := 0x43e0000000000000.

(** ** Comparison with integers ([vdbeaux.c]) *)

Definition sqlite3IntFloatCompare (i r : Z) : Z :=
  if sqlite3IsNaN r then 1 else
  if dlt r dbl_min_i64 then 1 else
  if dge r dbl_max_i64 then -1 else
  let y := i64_of_double r in
  if i <? y then -1 else
  if i >? y then 1 else
  if dlt (double_of_i64 i) r then -1 else if dlt r (double_of_i64 i) then 1 else 0.

(** ** Fields of the bits *)

Lemma dman_mod x : dman x = x mod 2 ^ 52.
Proof. unfold dman, MAN754. change ((1 << 52) - 1) with (Z.ones 52). by apply Z.land_ones. Qed.

Lemma dexp_mod x : dexp x = x / 2 ^ 52 mod 2 ^ 11.
Proof. unfold dexp. change 0x7ff with (Z.ones 11). rewrite Z.land_ones, Z.shiftr_div_pow2 by lia. done. Qed.

Lemma land_exp x : x .& EXP754 = dexp x * 2 ^ 52.
Proof.
  rewrite dexp_mod. change EXP754 with (2047 * 2 ^ 52 + 0). rewrite (Z.div_mod x (2 ^ 52)) at 1 by lia. rewrite (Z.mul_comm (2 ^ 52)). pose proof (Z.mod_pos_bound x (2 ^ 52)). rewrite land_split by lia. rewrite Z.land_0_r. change 2047 with (Z.ones 11). rewrite Z.land_ones by lia. lia.
Qed.

Lemma IsNaN_fields x : IsNaN x = (dexp x =? 2047) && negb (dman x =? 0).
Proof. unfold IsNaN. rewrite land_exp. fold (dman x). f_equal. change EXP754 with (2047 * 2 ^ 52). destruct (Z.eqb_spec (dexp x) 2047) as [->|]; [done|]. apply Z.eqb_neq. lia. Qed.

(** Bits from their fields: [e] and [m] of a number that is not negative *)
Lemma bits_fields e m : 0 <= e < 2048 -> 0 <= m < 2 ^ 52 -> dexp ((e << 52) + m) = e /\ dman ((e << 52) + m) = m /\ dneg ((e << 52) + m) = false.
Proof.
  intros He Hm. rewrite dexp_mod, dman_mod, Z.shiftl_mul_pow2 by lia. rewrite Z.div_add_l, (Z.div_small m) by lia. rewrite Z.add_0_r, (Z.mod_small e) by lia. rewrite Z.add_comm, Z.mod_add, Z.mod_small by lia. split; [done|]. split; [done|].
  unfold dneg. apply Z.testbit_false; [lia|]. rewrite Z.div_small by lia. done.
Qed.

Lemma bits_neg x : 0 <= x < 2 ^ 63 -> dexp (x + 2 ^ 63) = dexp x /\ dman (x + 2 ^ 63) = dman x /\ dneg (x + 2 ^ 63) = true /\ dneg x = false.
Proof.
  intros Hx. rewrite !dexp_mod, !dman_mod. unfold dneg. split; [|split; [|split]].
  - replace (x + 2 ^ 63) with (x + 2 ^ 11 * 2 ^ 52) by lia. rewrite Z.div_add by lia. replace (x / 2 ^ 52 + 2 ^ 11) with (x / 2 ^ 52 + 1 * 2 ^ 11) by lia. by rewrite Z.mod_add.
  - replace (x + 2 ^ 63) with (x + 2 ^ 11 * 2 ^ 52) by lia. by rewrite Z.mod_add.
  - apply Z.testbit_true; [lia|]. replace (x + 2 ^ 63) with (x + 1 * 2 ^ 63) by lia. rewrite Z.div_add, Z.div_small by lia. done.
  - apply Z.testbit_false; [lia|]. by rewrite Z.div_small.
Qed.

Lemma dmag_fields e m : 1 <= e < 2048 -> 0 <= m < 2 ^ 52 -> dmag ((e << 52) + m) = (2 ^ 52 + m) * 2 ^ (e - 1).
Proof. intros He Hm. destruct (bits_fields e m) as (E1 & E2 & _); [lia|done|]. unfold dmag. rewrite E1, E2. by rewrite (proj2 (Z.eqb_neq e 0)) by lia. Qed.

Lemma dmag_nonneg x : 0 <= dmag x.
Proof. unfold dmag. rewrite dman_mod. pose proof (Z.mod_pos_bound x (2 ^ 52)). destruct (_ =? 0); [lia|]. apply Z.mul_nonneg_nonneg; [lia|]. apply Z.pow_nonneg. lia. Qed.

(** ** Conversion of integers *)

Lemma double_mag_fields n : 1 <= n <= 2 ^ 63 -> exists e m, double_mag n = (e << 52) + m /\ 0 <= m < 2 ^ 52 /\ 1023 <= e <= 1087.
Proof.
  intros Hn. destruct (Z.log2_spec n) as [L1 L2]; [lia|]. assert (HL : 0 <= Z.log2 n <= 63) by (pose proof (Z.log2_nonneg n); pose proof (Z.log2_le_mono n (2 ^ 63)) as Hl; change (Z.log2 (2 ^ 63)) with 63 in Hl; lia). unfold double_mag. set (L := Z.log2 n) in *. cbv zeta. destruct (Z.leb_spec L 52) as [H|H].
  - exists (1023 + L), ((n << (52 - L)) - 2 ^ 52). split; [done|]. split; [|lia]. rewrite Z.shiftl_mul_pow2 by lia. assert (E : 2 ^ L * 2 ^ (52 - L) = 2 ^ 52) by (rewrite <- Z.pow_add_r by lia; f_equal; lia). rewrite Z.pow_succ_r in L2 by lia. assert (0 < 2 ^ (52 - L)) by (apply Z.pow_pos_nonneg; lia). nia.
  - assert (E : 2 ^ L = 2 ^ 52 * 2 ^ (L - 52)) by (rewrite <- Z.pow_add_r by lia; f_equal; lia). assert (Hs : 0 < 2 ^ (L - 52)) by (apply Z.pow_pos_nonneg; lia). rewrite Z.pow_succ_r, E in L2 by lia.
    assert (Hq : 2 ^ 52 <= n >> (L - 52) < 2 ^ 53). { rewrite Z.shiftr_div_pow2 by lia. split; [apply Z.div_le_lower_bound; lia|apply Z.div_lt_upper_bound; lia]. } set (q := n >> (L - 52)) in *. destruct (_ || _).
    + destruct (Z.eqb_spec (q + 1) (2 ^ 53)) as [Eq|Hne]; [exists (1024 + L), 0|exists (1023 + L), (q + 1 - 2 ^ 52)]; rewrite ?Z.shiftl_mul_pow2 by lia; lia.
    + exists (1023 + L), (q - 2 ^ 52). lia.
Qed.

Lemma double_bits i : - 2 ^ 63 <= i < 2 ^ 63 -> i <> 0 -> 0 <= double_mag (Z.abs i) < 2 ^ 63 /\ IsNaN (double_of_i64 i) = false /\ dval (double_of_i64 i) = Z.sgn i * dmag (double_mag (Z.abs i)).
Proof.
  intros Hi Hne. destruct (double_mag_fields (Z.abs i)) as (e & m & E & Hm & He); [lia|]. destruct (bits_fields e m) as (F1 & F2 & F3); [lia|done|]. assert (Hr : 0 <= double_mag (Z.abs i) < 2 ^ 63) by (rewrite E, Z.shiftl_mul_pow2; lia). split; [done|].
  unfold double_of_i64. rewrite (proj2 (Z.eqb_neq i 0)) by done. rewrite IsNaN_fields. destruct (Z.ltb_spec i 0) as [Hneg|Hpos].
  - rewrite <- (Z.abs_neq i) by lia. destruct (bits_neg (double_mag (Z.abs i)) Hr) as (B1 & B2 & B3 & _). rewrite B1, E, F1. split; [by rewrite (proj2 (Z.eqb_neq e 2047)) by lia|]. unfold dval. rewrite <- E, B3, (Z.sgn_neg i) by lia. unfold dmag. rewrite B1, B2. lia.
  - rewrite <- (Z.abs_eq i) at 1 2 3 by lia. rewrite E, F1. split; [by rewrite (proj2 (Z.eqb_neq e 2047)) by lia|]. unfold dval. rewrite F3, (Z.sgn_pos i) by lia. lia.
Qed.

Lemma double_not_nan i : - 2 ^ 63 <= i < 2 ^ 63 -> IsNaN (double_of_i64 i) = false.
Proof. intros Hi. destruct (decide (i = 0)) as [->|Hne]; [done|]. by apply double_bits. Qed.

(** Numbers with at most 53 digits are not rounded. *)
Lemma double_mag_exact n m k : n = m * 2 ^ k -> 1 <= n <= 2 ^ 63 -> 0 <= k -> 0 < m < 2 ^ 53 -> dmag (double_mag n) = n * dscale.
Proof.
  intros En Hn Hk Hm. destruct (Z.log2_spec n) as [L1 L2]; [lia|]. assert (HL : 0 <= Z.log2 n <= 63) by (pose proof (Z.log2_nonneg n); pose proof (Z.log2_le_mono n (2 ^ 63)) as Hl; change (Z.log2 (2 ^ 63)) with 63 in Hl; lia). unfold double_mag. set (L := Z.log2 n) in *. cbv zeta. destruct (Z.leb_spec L 52) as [H|H].
  - assert (E : 2 ^ L * 2 ^ (52 - L) = 2 ^ 52) by (rewrite <- Z.pow_add_r by lia; f_equal; lia). assert (0 < 2 ^ (52 - L)) by (apply Z.pow_pos_nonneg; lia). rewrite Z.pow_succ_r in L2 by lia. rewrite (Z.shiftl_mul_pow2 n) by lia. rewrite dmag_fields; [|lia|nia].
    replace (2 ^ 52 + (n * 2 ^ (52 - L) - 2 ^ 52)) with (n * 2 ^ (52 - L)) by lia. rewrite <- Z.mul_assoc, <- Z.pow_add_r by lia. unfold dscale. f_equal. f_equal. lia.
  - assert (E : 2 ^ L = 2 ^ 52 * 2 ^ (L - 52)) by (rewrite <- Z.pow_add_r by lia; f_equal; lia). assert (Hs : 0 < 2 ^ (L - 52)) by (apply Z.pow_pos_nonneg; lia). rewrite Z.pow_succ_r, E in L2 by lia.
    assert (HkL : L - 52 <= k). { destruct (Z.le_gt_cases (L - 52) k) as [|Hlt]; [done|exfalso]. assert (2 ^ (k + 1) <= 2 ^ (L - 52)) by (apply Z.pow_le_mono_r; lia). rewrite Z.pow_add_r in H0 by lia. change (2 ^ 1) with 2 in H0. assert (0 < 2 ^ k) by (apply Z.pow_pos_nonneg; lia). nia. }
    assert (En' : n = m * 2 ^ (k - (L - 52)) * 2 ^ (L - 52)) by (rewrite <- Z.mul_assoc, <- Z.pow_add_r by lia; rewrite En; do 2 f_equal; lia). set (q := m * 2 ^ (k - (L - 52))) in *.
    rewrite Z.shiftr_div_pow2 by lia. rewrite En', Z.mod_mul, Z.div_mul by lia. rewrite Z.mul_0_r. rewrite Z.gtb_ltb, (proj2 (Z.ltb_ge (2 ^ (L - 52)) 0)), (proj2 (Z.eqb_neq 0 (2 ^ (L - 52)))) by lia. cbn [orb andb].
    rewrite dmag_fields; [|lia|nia]. replace (2 ^ 52 + (q - 2 ^ 52)) with q by lia. rewrite <- Z.mul_assoc. unfold dscale. rewrite <- Z.pow_add_r by lia. do 2 f_equal. lia.
Qed.

Lemma double_exact i m k : Z.abs i = m * 2 ^ k -> - 2 ^ 63 <= i < 2 ^ 63 -> 0 <= k -> 0 <= m < 2 ^ 53 -> dval (double_of_i64 i) = i * dscale.
Proof.
  intros E Hi Hk Hm. destruct (decide (i = 0)) as [->|Hne]; [done|]. destruct (double_bits i Hi Hne) as (_ & _ & ->). assert (m <> 0) by (intros ->; lia). rewrite (double_mag_exact (Z.abs i) m k) by (done || lia). by rewrite Z.mul_assoc, (Z.mul_comm (Z.sgn i)), Z.abs_sgn.
Qed.

(** ** [sqlite3IntFloatCompare] is exact *)

(** A value that does not fit is no fraction. *)
Lemma dmag_large x : 2 ^ 52 * dscale <= dmag x -> exists m k, dmag x = m * 2 ^ k * dscale /\ 0 < m < 2 ^ 53 /\ 0 <= k.
Proof.
  unfold dmag. rewrite dman_mod, dexp_mod. pose proof (Z.mod_pos_bound x (2 ^ 52) ltac:(lia)) as Hm. pose proof (Z.mod_pos_bound (x / 2 ^ 52) (2 ^ 11) ltac:(lia)) as He. set (m := x mod 2 ^ 52) in *. set (e := x / 2 ^ 52 mod 2 ^ 11) in *. destruct (Z.eqb_spec e 0) as [E|E]; intros H.
  - exfalso. assert (1 < dscale) by done. nia.
  - assert (Hk : 1075 <= e). { destruct (Z.le_gt_cases 1075 e) as [|Hlt]; [done|exfalso]. assert (2 ^ (e - 1) <= 2 ^ 1073) by (apply Z.pow_le_mono_r; lia). assert (dscale = 2 * 2 ^ 1073) by done. nia. }
    exists (2 ^ 52 + m), (e - 1 - 1074). split; [|lia]. unfold dscale. rewrite <- Z.mul_assoc, <- Z.pow_add_r by lia. do 2 f_equal. lia.
Qed.

Lemma trunc_exact i r : i = i64_of_double r -> - 2 ^ 63 <= i < 2 ^ 63 -> dval (double_of_i64 i) = i * dscale.
Proof.
  intros Ei Hi. assert (HS : 0 < dscale) by done. assert (Ea : Z.abs i = dmag r / dscale).
  { rewrite Ei. unfold i64_of_double. rewrite <- Z.quot_abs by lia. rewrite (Z.abs_eq dscale) by lia. pose proof (dmag_nonneg r). rewrite Z.quot_div_nonneg; [|unfold dval; destruct (dneg r); lia|done]. f_equal. unfold dval. destruct (dneg r); lia. }
  destruct (Z.le_gt_cases (2 ^ 52 * dscale) (dmag r)) as [Hl|Hs].
  - destruct (dmag_large r Hl) as (m & k & Em & Hm & Hk). rewrite Em, Z.div_mul in Ea by lia. apply (double_exact i m k); (done || lia).
  - apply (double_exact i (Z.abs i) 0); [lia|done|done|]. rewrite Ea. split; [apply Z.div_pos; [apply dmag_nonneg|done]|]. apply Z.div_lt_upper_bound; lia.
Qed.

(** The comparison of the values. *)
Lemma int_float_compare i r : - 2 ^ 63 <= i < 2 ^ 63 -> IsNaN r = false -> sqlite3IntFloatCompare i r = Z.sgn (i * dscale - dval r).
Proof.
  intros Hi Hr. assert (HS : 0 < dscale) by done. unfold sqlite3IntFloatCompare, sqlite3IsNaN, dlt, dge. rewrite Hr. change (IsNaN dbl_min_i64) with false. change (IsNaN dbl_max_i64) with false. cbn [negb andb].
  change (dval dbl_min_i64) with (- 2 ^ 63 * dscale). change (dval dbl_max_i64) with (2 ^ 63 * dscale). destruct (Z.ltb_spec (dval r) (- 2 ^ 63 * dscale)) as [H1|H1]; [rewrite Z.sgn_pos by nia; done|].
  destruct (Z.leb_spec (2 ^ 63 * dscale) (dval r)) as [H2|H2]; [rewrite Z.sgn_neg by nia; done|]. cbv zeta. pose proof (Z.quot_rem (dval r) dscale ltac:(lia)) as Hq. fold (i64_of_double r) in Hq.
  pose proof (Z.rem_bound_abs (dval r) dscale ltac:(lia)) as Hb. rewrite (Z.abs_eq dscale) in Hb by lia. pose proof (Z.rem_sign_nz (dval r) dscale) as Hsg. set (y := i64_of_double r) in *. set (m := Z.rem (dval r) dscale) in *.
  assert (Hy : 0 <= dval r /\ 0 <= m \/ dval r <= 0 /\ m <= 0). { unfold m. destruct (Z.le_gt_cases 0 (dval r)); [left; split; [done|apply Z.rem_nonneg; lia]|right; split; [lia|apply Z.rem_nonpos; lia]]. } clear Hsg.
  assert (Hyb : - 2 ^ 63 <= y < 2 ^ 63) by nia. destruct (Z.ltb_spec i y) as [L|L]; [rewrite Z.sgn_neg; [done|nia]|]. rewrite Z.gtb_ltb. destruct (Z.ltb_spec y i) as [L'|L']; [rewrite Z.sgn_pos; [done|nia]|]. assert (Eiy : i = y) by lia.
  rewrite (double_not_nan i Hi), (trunc_exact i r) by done. cbn [negb andb]. destruct (Z.ltb_spec (i * dscale) (dval r)); [rewrite Z.sgn_neg by lia; done|]. destruct (Z.ltb_spec (dval r) (i * dscale)); [rewrite Z.sgn_pos by lia; done|]. rewrite (proj2 (Z.sgn_null_iff _)); [done|lia].
Qed.
