(* ===== verification/VdbeMem.v ===== *)
(** * Values and their comparison ([src/vdbeaux.c], [src/vdbeInt.h])

    The cells [Mem] of the virtual machine hold values of all types; [sqlite3MemCompare]
    orders them: NULL, numbers, text by a collating sequence, blobs.  Collating
    sequences and the conversion of text encodings are parameters.  Shown here: the
    comparison is that of the values, integers and floating point numbers together
    exactly, and it is a total order when the collating sequence is one. *)
From S2P Require Import Prelude Double.

(** ** Cells *)

Definition MEM_Null : Z := 0x0001.
Definition MEM_Str : Z := 0x0002.
Definition MEM_Int : Z := 0x0004.
Definition MEM_Real : Z := 0x0008.
Definition MEM_Blob : Z := 0x0010.
Definition MEM_IntReal : Z := 0x0020.
Definition MEM_Term : Z := 0x0200.
Definition MEM_Zero : Z := 0x0400.
Definition MEM_Ephem : Z := 0x4000.

(** The union [MemValue]; a member that is not there is not read. *)
Inductive MemValue : Type := U_i (i : Z) | U_r (r : Z) | U_nZero (nZero : Z).

(** [mem_z] is the memory that [z] points to, from there on. *)
Record Mem : Type := MkMem { mem_u : MemValue; mem_z : list Z; mem_n : Z; mem_flags : Z; mem_enc : Z }.

Definition u_i (m : Mem) : option Z := match mem_u m with U_i i => Some i | _ => None end.
Definition u_r (m : Mem) : option Z := match mem_u m with U_r r => Some r | _ => None end.
Definition u_nZero (m : Mem) : option Z := match mem_u m with U_nZero n => Some n | _ => None end.

(** [flags & mask] is not 0. *)
Definition has (flags mask : Z) : bool := negb (flags .& mask =? 0).

Record CollSeq : Type := MkCollSeq { coll_enc : Z; xCmp : list Z -> list Z -> Z }.

(** ** Bytes *)

(** The sign of the first difference of [n] bytes. *)
Fixpoint memcmp_loop (n : nat) (a b : list Z) : Z :=
  match n, a, b with
  | S n, x :: a, y :: b => if x =? y then memcmp_loop n a b else if x <? y then -1 else 1
  | _, _, _ => 0
  end.

Definition memcmp (a b : list Z) (n : Z) : option Z :=
  if (0 <=? n) && (n <=? alen a) && (n <=? alen b) then Some (memcmp_loop (Z.to_nat n) a b) else None.

Fixpoint isAllZero_loop (n : nat) (z : list Z) : option bool :=
  match n with
  | O => Some true
  | S n => match z with [] => None | b :: z => if negb (b =? 0) then Some false else isAllZero_loop n z end
  end.

Definition isAllZero (z : list Z) (n : Z) : option bool := isAllZero_loop (Z.to_nat n) z.

Definition sqlite3BlobCompare (pB1 pB2 : Mem) : option Z :=
  let n1 := mem_n pB1 in
  let n2 := mem_n pB2 in
  if has (mem_flags pB1 .| mem_flags pB2) MEM_Zero then
    if has (mem_flags pB1 .& mem_flags pB2) MEM_Zero then
      z1 ← u_nZero pB1; z2 ← u_nZero pB2; Some (z1 - z2)
    else if has (mem_flags pB1) MEM_Zero then
      b ← isAllZero (mem_z pB2) n2;
      if negb b then Some (-1) else z1 ← u_nZero pB1; Some (z1 - n2)
    else
      b ← isAllZero (mem_z pB1) n1;
      if negb b then Some 1 else z2 ← u_nZero pB2; Some (n1 - z2)
  else
    c ← memcmp (mem_z pB1) (mem_z pB2) (if n1 >? n2 then n2 else n1);
    if negb (c =? 0) then Some c else Some (n1 - n2).

(** ** Comparison of cells *)

Section Compare.
(** [sqlite3ValueText] of a copy of a cell: from an encoding to another; [None] when memory is out. *)
Context (sqlite3ValueText : Z -> Z -> list Z -> option (list Z)).

Definition mem_text (m : Mem) : list Z := take (Z.to_nat (mem_n m)) (mem_z m).

(** The result, and whether [*prcErr] is set to SQLITE_NOMEM *)
Definition vdbeCompareMemString (pMem1 pMem2 : Mem) (pColl : CollSeq) : Z * bool :=
  if mem_enc pMem1 =? coll_enc pColl then
    (xCmp pColl (mem_text pMem1) (mem_text pMem2), false)
  else
    match sqlite3ValueText (mem_enc pMem1) (coll_enc pColl) (mem_text pMem1), sqlite3ValueText (mem_enc pMem2) (coll_enc pColl) (mem_text pMem2) with
    | Some v1, Some v2 => (xCmp pColl v1 v2, false)
    | _, _ => (0, true)
    end.

Definition sqlite3MemCompare (pMem1 pMem2 : Mem) (pColl : option CollSeq) : option Z :=
  let f1 := mem_flags pMem1 in
  let f2 := mem_flags pMem2 in
  let combined_flags := f1 .| f2 in
  let ints := i1 ← u_i pMem1; i2 ← u_i pMem2; Some (if i1 <? i2 then -1 else if i1 >? i2 then 1 else 0) in
  if has combined_flags MEM_Null then Some ((f2 .& MEM_Null) - (f1 .& MEM_Null)) else
  if has combined_flags (MEM_Int .| MEM_Real .| MEM_IntReal) then
    if has (f1 .& f2) (MEM_Int .| MEM_IntReal) then ints else
    if has (f1 .& f2) MEM_Real then
      r1 ← u_r pMem1; r2 ← u_r pMem2; Some (if dlt r1 r2 then -1 else if dlt r2 r1 then 1 else 0)
    else if has f1 (MEM_Int .| MEM_IntReal) then
      if has f2 MEM_Real then i1 ← u_i pMem1; r2 ← u_r pMem2; Some (sqlite3IntFloatCompare i1 r2)
      else if has f2 (MEM_Int .| MEM_IntReal) then ints
      else Some (-1)
    else if has f1 MEM_Real then
      if has f2 (MEM_Int .| MEM_IntReal) then i2 ← u_i pMem2; r1 ← u_r pMem1; Some (- sqlite3IntFloatCompare i2 r1)
      else Some (-1)
    else Some 1
  else
    let blobs := sqlite3BlobCompare pMem1 pMem2 in
    if has combined_flags MEM_Str then
      if negb (has f1 MEM_Str) then Some 1 else
      if negb (has f2 MEM_Str) then Some (-1) else
      match pColl with Some pColl => Some (vdbeCompareMemString pMem1 pMem2 pColl).1 | None => blobs end
    else blobs.
End Compare.

(** ** Values *)

Inductive value : Type := VNull | VInt (i : Z) | VReal (r : Z) | VText (s : list Z) | VBlob (s : list Z).

(** Text and blobs: [n] bytes, or zeros. *)
Definition mem_bytes (m : Mem) (s : list Z) : Prop := mem_n m = alen s /\ Forall is_u8 s /\ exists rest, mem_z m = s ++ rest.

Definition blob_is (m : Mem) (s : list Z) : Prop :=
  has (mem_flags m) MEM_Zero = false /\ mem_bytes m s \/ has (mem_flags m) MEM_Zero = true /\ mem_n m = 0 /\ exists k, mem_u m = U_nZero (Z.of_nat k) /\ s = replicate k 0.

Definition mem_is (m : Mem) (v : value) : Prop :=
  let f := mem_flags m in
  match v with
  | VNull => has f MEM_Null = true
  | VInt i => has f MEM_Null = false /\ has f (MEM_Int .| MEM_IntReal) = true /\ has f MEM_Real = false /\ mem_u m = U_i i /\ is_i64 i
  | VReal r => has f MEM_Null = false /\ has f (MEM_Int .| MEM_IntReal) = false /\ has f MEM_Real = true /\ mem_u m = U_r r /\ IsNaN r = false
  | VText s => has f MEM_Null = false /\ has f (MEM_Int .| MEM_Real .| MEM_IntReal) = false /\ has f MEM_Str = true /\ has f MEM_Zero = false /\ mem_bytes m s
  | VBlob s => has f MEM_Null = false /\ has f (MEM_Int .| MEM_Real .| MEM_IntReal) = false /\ has f MEM_Str = false /\ blob_is m s
  end.

(** The order of bytes: the first difference, or the length *)
Fixpoint lex (a b : list Z) : Z :=
  match a, b with
  | [], [] => 0
  | [], _ :: _ => -1
  | _ :: _, [] => 1
  | x :: a, y :: b => if x <? y then -1 else if y <? x then 1 else lex a b
  end.

(** Ranks: NULL, numbers, text, blobs *)
Definition value_rank (v : value) : Z := match v with VNull => 0 | VInt _ | VReal _ => 1 | VText _ => 2 | VBlob _ => 3 end.

(** Numbers, times 2^1074 *)
Definition value_num (v : value) : Z := match v with VInt i => i * dscale | VReal r => dval r | _ => 0 end.

(** The order of values, for a comparison of texts *)
Definition value_cmp (text_cmp : list Z -> list Z -> Z) (v w : value) : Z :=
  if negb (value_rank v =? value_rank w) then Z.sgn (value_rank v - value_rank w) else
  match v, w with
  | VText a, VText b => Z.sgn (text_cmp a b)
  | VBlob a, VBlob b => lex a b
  | _, _ => Z.sgn (value_num v - value_num w)
  end.

(** ** Flags and bytes *)

Lemma has_lor f g m : has (f .| g) m = has f m || has g m.
Proof. unfold has. rewrite Z.land_lor_distr_l. destruct (Z.eqb_spec (f .& m) 0) as [->|H1], (Z.eqb_spec (g .& m) 0) as [->|H2]; cbn [negb orb]; [done|..]; apply negb_true_iff, Z.eqb_neq; rewrite Z.lor_eq_0_iff; tauto. Qed.

Lemma has_mask f m n : has f (m .| n) = has f m || has f n.
Proof. unfold has. rewrite Z.land_lor_distr_r. destruct (Z.eqb_spec (f .& m) 0) as [->|H1], (Z.eqb_spec (f .& n) 0) as [->|H2]; cbn [negb orb]; [done|..]; apply negb_true_iff, Z.eqb_neq; rewrite Z.lor_eq_0_iff; tauto. Qed.

Lemma has_land f g m : has (f .& g) m = true -> has f m = true /\ has g m = true.
Proof.
  unfold has. rewrite !negb_true_iff, !Z.eqb_neq. intros H. split; intros E; apply H; [rewrite <- Z.land_assoc, (Z.land_comm g), Z.land_assoc, E; apply Z.land_0_l|by rewrite <- Z.land_assoc, E, Z.land_0_r].
Qed.

Lemma has_bit f k : 0 <= k -> has f (2 ^ k) = Z.testbit f k.
Proof.
  intros Hk. unfold has. destruct (Z.testbit f k) eqn:E; [apply negb_true_iff, Z.eqb_neq|apply negb_false_iff, Z.eqb_eq].
  - intros H. assert (Z.testbit (f .& 2 ^ k) k = true) by (rewrite Z.land_spec, E, Z.pow2_bits_true by done; done). rewrite H, Z.bits_0 in H0. done.
  - apply Z.bits_inj'. intros n Hn. rewrite Z.land_spec, Z.bits_0. destruct (Z.eqb_spec k n) as [->|]; [by rewrite E|]. rewrite Z.pow2_bits_false by done. apply andb_false_r.
Qed.

Lemma has_land_bit f g k : 0 <= k -> has (f .& g) (2 ^ k) = has f (2 ^ k) && has g (2 ^ k).
Proof. intros Hk. rewrite !has_bit by done. apply Z.land_spec. Qed.

Lemma null_bit f : f .& MEM_Null = if has f MEM_Null then 1 else 0.
Proof.
  unfold has, MEM_Null. rewrite (land_ones_mod f 1) by done. pose proof (Z.mod_pos_bound f (2 ^ 1)). change (2 ^ 1) with 2 in *. destruct (Z.eqb_spec (f mod 2) 0); cbn [negb]; lia.
Qed.

Lemma mem_text_bytes m s : mem_bytes m s -> mem_text m = s.
Proof. intros (Hn & _ & rest & Hz). unfold mem_text. rewrite Hn, Hz. unfold alen. rewrite Nat2Z.id. by rewrite take_app_length. Qed.

Lemma lex_range a b : lex a b = -1 \/ lex a b = 0 \/ lex a b = 1.
Proof. revert b. induction a as [|x a IH]; intros [|y b]; cbn [lex]; auto. destruct (x <? y); [auto|]. destruct (y <? x); auto. Qed.

Lemma memcmp_lex a b ra rb : let c := memcmp_loop (Nat.min (length a) (length b)) (a ++ ra) (b ++ rb) in Z.sgn (if negb (c =? 0) then c else alen a - alen b) = lex a b.
Proof.
  cbv zeta. revert b. induction a as [|x a IH]; intros [|y b]; cbn [length Nat.min memcmp_loop app lex]; try done.
  destruct (Z.eqb_spec x y) as [->|Hne].
  - rewrite Z.ltb_irrefl. rewrite <- IH. rewrite !alen_cons. destruct (negb _); [done|]. f_equal. lia.
  - destruct (Z.ltb_spec x y) as [Hl|Hl]; [done|]. rewrite (proj2 (Z.ltb_lt y x)) by lia. done.
Qed.

Lemma isAllZero_spec s rest : isAllZero (s ++ rest) (alen s) = Some (bool_decide (s = replicate (length s) 0)).
Proof.
  unfold isAllZero, alen. rewrite Nat2Z.id. induction s as [|b s IH]; cbn [length isAllZero_loop app replicate]; [done|]. destruct (Z.eqb_spec b 0) as [->|Hne]; cbn [negb].
  - rewrite IH. f_equal. apply bool_decide_ext. split; [by intros <-|by intros [=]].
  - symmetry. f_equal. apply bool_decide_eq_false. by intros [=].
Qed.

(** Against zeros only the length counts, when the other is zero too. *)
Lemma lex_zeros k n : lex (replicate k 0) (replicate n 0) = Z.sgn (Z.of_nat k - Z.of_nat n).
Proof.
  revert n. induction k as [|k IH]; intros [|n]; cbn [replicate lex]; [done|rewrite Z.sgn_neg by lia; done|rewrite Z.sgn_pos by lia; done|]. rewrite Z.ltb_irrefl, IH. f_equal. lia.
Qed.

Lemma lex_not_zero s n : Forall is_u8 s -> s <> replicate (length s) 0 -> lex s (replicate n 0) = 1 /\ lex (replicate n 0) s = -1.
Proof.
  intros Hs. revert n. induction Hs as [|b s Hb Hs IH]; intros n Hne; [done|]. destruct n as [|n]; cbn [replicate lex]; [done|]. unfold is_u8 in Hb. destruct (Z.eqb_spec b 0) as [->|Hb0].
  - rewrite Z.ltb_irrefl. apply IH. intros E. apply Hne. cbn [length replicate]. by rewrite <- E.
  - rewrite (proj2 (Z.ltb_ge b 0)), (proj2 (Z.ltb_lt 0 b)) by lia. done.
Qed.

Lemma memcmp_ok s1 s2 r1 r2 : memcmp (s1 ++ r1) (s2 ++ r2) (if alen s1 >? alen s2 then alen s2 else alen s1) = Some (memcmp_loop (Nat.min (length s1) (length s2)) (s1 ++ r1) (s2 ++ r2)).
Proof.
  unfold memcmp. rewrite !alen_app. pose proof (alen_nonneg r1). pose proof (alen_nonneg r2). pose proof (alen_nonneg s1). pose proof (alen_nonneg s2). rewrite Z.gtb_ltb. set (n := if alen s2 <? alen s1 then alen s2 else alen s1).
  assert (Hn : n = Z.of_nat (Nat.min (length s1) (length s2))) by (unfold n, alen; destruct (Z.ltb_spec (Z.of_nat (length s2)) (Z.of_nat (length s1))); lia). unfold alen in *.
  rewrite (proj2 (Z.leb_le 0 n)), (proj2 (Z.leb_le n (Z.of_nat (length s1) + Z.of_nat (length r1)))), (proj2 (Z.leb_le n (Z.of_nat (length s2) + Z.of_nat (length r2)))) by lia. cbn [andb]. by rewrite Hn, Nat2Z.id.
Qed.

Lemma blob_compare m1 m2 s1 s2 : blob_is m1 s1 -> blob_is m2 s2 -> exists c, sqlite3BlobCompare m1 m2 = Some c /\ Z.sgn c = lex s1 s2.
Proof.
  unfold sqlite3BlobCompare. cbv zeta. rewrite has_lor. change MEM_Zero with (2 ^ 10). rewrite has_land_bit by lia. change (2 ^ 10) with MEM_Zero. unfold u_nZero.
  intros [(Z1 & B1 & U1 & r1 & E1)|(Z1 & B1 & k1 & E1 & ->)] [(Z2 & B2 & U2 & r2 & E2)|(Z2 & B2 & k2 & E2 & ->)]; rewrite Z1, Z2; cbn [orb andb].
  - rewrite B1, B2, E1, E2, memcmp_ok. cbn [mbind option_bind]. pose proof (memcmp_lex s1 s2 r1 r2) as L. cbv zeta in L. set (c := memcmp_loop _ _ _) in *. destruct (negb (c =? 0)); eexists; (split; [reflexivity|exact L]).
  - rewrite E1, B1, isAllZero_spec. cbn [mbind option_bind]. case_bool_decide as Hz; cbn [negb]; rewrite ?E2; cbn [mbind option_bind]; eexists; (split; [reflexivity|]).
    + rewrite Hz, lex_zeros. unfold alen. by rewrite length_replicate.
    + by destruct (lex_not_zero s1 k2 U1 Hz) as [-> _].
  - rewrite E2, B2, isAllZero_spec. cbn [mbind option_bind]. case_bool_decide as Hz; cbn [negb]; rewrite ?E1; cbn [mbind option_bind]; eexists; (split; [reflexivity|]).
    + rewrite Hz, lex_zeros. unfold alen. by rewrite length_replicate.
    + by destruct (lex_not_zero s2 k1 U2 Hz) as [_ ->].
  - rewrite E1, E2. cbn [mbind option_bind]. eexists. split; [reflexivity|]. by rewrite lex_zeros.
Qed.

(** ** Comparison of cells is that of values *)

Section Order.
Context (sqlite3ValueText : Z -> Z -> list Z -> option (list Z)).

Definition text_cmp (pColl : option CollSeq) (enc : Z) (a b : list Z) : Z :=
  match pColl with
  | None => lex a b
  | Some c =>
      if enc =? coll_enc c then xCmp c a b
      else match sqlite3ValueText enc (coll_enc c) a, sqlite3ValueText enc (coll_enc c) b with Some a, Some b => xCmp c a b | _, _ => 0 end
  end.

Lemma compare_mem_string m1 m2 a b c : mem_bytes m1 a -> mem_bytes m2 b -> mem_enc m1 = mem_enc m2 -> (vdbeCompareMemString sqlite3ValueText m1 m2 c).1 = text_cmp (Some c) (mem_enc m1) a b.
Proof.
  intros H1 H2 He. unfold vdbeCompareMemString, text_cmp. rewrite (mem_text_bytes m1 a H1), (mem_text_bytes m2 b H2), <- He. destruct (mem_enc m1 =? coll_enc c); [done|]. destruct (sqlite3ValueText (mem_enc m1) (coll_enc c) a), (sqlite3ValueText (mem_enc m1) (coll_enc c) b); done.
Qed.

Lemma is_i64_bounds i : is_i64 i -> - 2 ^ 63 <= i < 2 ^ 63.
Proof. done. Qed.

Lemma sgn_cmp a b : (if a <? b then -1 else if a >? b then 1 else 0) = Z.sgn (a - b).
Proof. rewrite Z.gtb_ltb. destruct (Z.ltb_spec a b); [rewrite Z.sgn_neg by lia; done|]. destruct (Z.ltb_spec b a); [rewrite Z.sgn_pos by lia; done|]. by replace (a - b) with 0 by lia. Qed.

Lemma sgn_scale a b : Z.sgn (a * dscale - b * dscale) = Z.sgn (a - b).
Proof. rewrite <- Z.mul_sub_distr_r, Z.sgn_mul. change (Z.sgn dscale) with 1. lia. Qed.

Lemma sgn_sgn x : Z.sgn (Z.sgn x) = Z.sgn x.
Proof. by destruct x. Qed.

Lemma dlt_sgn a b : IsNaN a = false -> IsNaN b = false -> (if dlt a b then -1 else if dlt b a then 1 else 0) = Z.sgn (dval a - dval b).
Proof. intros Ha Hb. unfold dlt. rewrite Ha, Hb. cbn [negb andb]. rewrite <- sgn_cmp, Z.gtb_ltb. done. Qed.


Lemma int_real_mask f : has f (MEM_Int .| MEM_Real .| MEM_IntReal) = has f (MEM_Int .| MEM_IntReal) || has f MEM_Real.
Proof. rewrite !has_mask. destruct (has f MEM_Int), (has f MEM_Real), (has f MEM_IntReal); done. Qed.

(** The flags of a value, in the order in which the code looks at them *)
Lemma mem_flags_of m v : mem_is m v ->
  has (mem_flags m) MEM_Null = bool_decide (value_rank v = 0) /\ (value_rank v <> 0 -> has (mem_flags m) (MEM_Int .| MEM_Real .| MEM_IntReal) = bool_decide (value_rank v = 1)).
Proof.
  destruct v as [|i|r|s|s]; cbn [mem_is value_rank].
  - intros H. by rewrite H.
  - intros (H1 & H2 & _). rewrite H1. split; [done|]. intros _. by rewrite int_real_mask, H2.
  - intros (H1 & H2 & H3 & _). rewrite H1. split; [done|]. intros _. by rewrite int_real_mask, H3, orb_true_r.
  - intros (H1 & H2 & _). by rewrite H1, H2.
  - intros (H1 & H2 & _). by rewrite H1, H2.
Qed.

Lemma mem_compare_numbers m1 m2 v w pColl : mem_is m1 v -> mem_is m2 w -> value_rank v = 1 -> value_rank w = 1 -> exists c, sqlite3MemCompare sqlite3ValueText m1 m2 pColl = Some c /\ Z.sgn c = Z.sgn (value_num v - value_num w).
Proof.
  intros H1 H2 R1 R2. destruct (mem_flags_of m1 v H1) as [N1 I1]. destruct (mem_flags_of m2 w H2) as [N2 I2]. specialize (I1 ltac:(lia)). specialize (I2 ltac:(lia)). rewrite R1 in N1, I1. rewrite R2 in N2, I2.
  unfold sqlite3MemCompare. cbv zeta. rewrite !has_lor, N1, N2, I1, I2. cbn [orb bool_decide]. change (bool_decide (1 = 0)) with false. change (bool_decide (1 = 1)) with true. cbn [orb]. clear N1 N2 I1 I2. change MEM_Real with (2 ^ 3). rewrite has_land_bit by lia. change (2 ^ 3) with MEM_Real. unfold u_i, u_r.
  assert (Hands : forall f g, has f (MEM_Int .| MEM_IntReal) = false \/ has g (MEM_Int .| MEM_IntReal) = false -> has (f .& g) (MEM_Int .| MEM_IntReal) = false) by (intros f g Hf; apply not_true_iff_false; intros [? ?]%has_land; destruct Hf; congruence).
  destruct v as [|i|r|s|s], w as [|j|q|s'|s']; try done; cbn [mem_is value_num] in *.
  - destruct H1 as (_ & A1 & F1 & -> & _), H2 as (_ & A2 & F2 & -> & _). rewrite A1, A2, F1, F2. cbn [andb mbind option_bind]. rewrite sgn_cmp. exists (Z.sgn (i - j)). rewrite sgn_scale, sgn_sgn. split; [|done]. by destruct (has (mem_flags m1 .& mem_flags m2) _).
  - destruct H1 as (_ & A1 & F1 & -> & Hi), H2 as (_ & A2 & F2 & -> & Hn). rewrite Hands by auto. rewrite A1, F1, F2. cbn [andb mbind option_bind]. rewrite int_float_compare by done. eexists. split; [done|]. apply sgn_sgn.
  - destruct H1 as (_ & A1 & F1 & -> & Hn), H2 as (_ & A2 & F2 & -> & Hi). rewrite Hands by auto. rewrite A1, A2, F1, F2. cbn [andb mbind option_bind]. rewrite int_float_compare by done. eexists. split; [done|]. rewrite Z.sgn_opp, sgn_sgn, <- Z.sgn_opp. f_equal. lia.
  - destruct H1 as (_ & A1 & F1 & -> & Hn), H2 as (_ & A2 & F2 & -> & Hm). rewrite Hands by auto. rewrite F1, F2. cbn [andb mbind option_bind]. rewrite dlt_sgn by done. eexists. split; [done|]. apply sgn_sgn.
Qed.

Lemma mem_compare m1 m2 v w pColl : mem_is m1 v -> mem_is m2 w -> mem_enc m1 = mem_enc m2 -> exists c, sqlite3MemCompare sqlite3ValueText m1 m2 pColl = Some c /\ Z.sgn c = value_cmp (text_cmp pColl (mem_enc m1)) v w.
Proof.
  intros H1 H2 He. destruct (decide (value_rank v = 1 /\ value_rank w = 1)) as [[R1 R2]|HR].
  { destruct (mem_compare_numbers m1 m2 v w pColl H1 H2 R1 R2) as (c & E & Hc). exists c. split; [done|]. rewrite Hc. unfold value_cmp. rewrite R1, R2. cbn [negb Z.eqb Pos.eqb]. by destruct v, w. }
  destruct (mem_flags_of m1 v H1) as [N1 I1]. destruct (mem_flags_of m2 w H2) as [N2 I2]. unfold sqlite3MemCompare. cbv zeta. rewrite !has_lor, !null_bit, N1, N2.
  assert (Hands : forall mask, has (mem_flags m1) mask = false \/ has (mem_flags m2) mask = false -> has (mem_flags m1 .& mem_flags m2) mask = false) by (intros mask Hf; apply not_true_iff_false; intros [? ?]%has_land; destruct Hf; congruence).
  assert (Hno : forall f, has f (MEM_Int .| MEM_Real .| MEM_IntReal) = false -> has f (MEM_Int .| MEM_IntReal) = false /\ has f MEM_Real = false) by (intros f Hf; rewrite int_real_mask in Hf; by apply orb_false_iff in Hf).
  unfold value_cmp. destruct (bool_decide_reflect (value_rank v = 0)) as [C1|C1], (bool_decide_reflect (value_rank w = 0)) as [C2|C2]; cbn [orb].
  - eexists. split; [reflexivity|]. rewrite C1, C2. by destruct v, w.
  - eexists. split; [reflexivity|]. by destruct v, w.
  - eexists. split; [reflexivity|]. by destruct v, w.
  - rewrite (I1 C1), (I2 C2). destruct (bool_decide_reflect (value_rank v = 1)) as [D1|D1], (bool_decide_reflect (value_rank w = 1)) as [D2|D2]; [by destruct HR|..]; cbn [orb].
    + destruct (Hno _ (I2 C2)) as [X1 X2]. rewrite !Hands, X1, X2 by auto. specialize (I1 C1). rewrite int_real_mask in I1. apply orb_true_iff in I1. exists (-1). split; [|by destruct v, w]. destruct (has (mem_flags m1) (MEM_Int .| MEM_IntReal)); [done|]. destruct I1 as [?|I1]; [done|]. by rewrite I1.
    + destruct (Hno _ (I1 C1)) as [X1 X2]. rewrite !Hands, X1, X2 by auto. exists 1. split; [done|]. by destruct v, w.
    + destruct v as [|i|r|s|s]; try done; destruct w as [|j|q|s'|s']; try done; cbn [value_rank] in *; destruct H1 as (_ & _ & F1 & H1), H2 as (_ & _ & F2 & H2); rewrite F1, F2; cbn [orb negb]; try (eexists; split; done).
      * destruct H1 as [Z1 H1], H2 as [Z2 H2]. destruct pColl as [c|]; [eexists; split; [done|]; by rewrite (compare_mem_string m1 m2 s s' c H1 H2 He)|]. destruct (blob_compare m1 m2 s s') as (c & E & Hc); [by left|by left|]. exists c. split; [done|]. cbn [text_cmp Z.eqb Pos.eqb negb]. rewrite Hc. by destruct (lex_range s s') as [->|[->| ->]].
      * destruct (blob_compare m1 m2 s s' H1 H2) as (c & E & Hc). by exists c.
Qed.
End Order.

(** ** A total order *)

(** What [sqlite3_create_collation] demands of a collating sequence. *)
Class CollLaws (cmp : list Z -> list Z -> Z) : Prop := {
  coll_antisym a b : Z.sgn (cmp a b) = - Z.sgn (cmp b a);
  coll_trans a b c : cmp a b <= 0 -> cmp b c <= 0 -> cmp a c <= 0
}.

#[export] Instance lex_laws : CollLaws lex.
Proof.
  split.
  - intros a. induction a as [|x a IH]; intros [|y b]; cbn [lex]; try done. destruct (Z.ltb_spec x y); [by rewrite (proj2 (Z.ltb_ge y x)) by lia|]. destruct (Z.ltb_spec y x); [done|]. apply IH.
  - intros a. induction a as [|x a IH]; intros [|y b] [|z c]; cbn [lex]; try done. destruct (Z.ltb_spec x y), (Z.ltb_spec y z), (Z.ltb_spec x z); try lia; destruct (Z.ltb_spec y x), (Z.ltb_spec z y), (Z.ltb_spec z x); try lia. apply IH.
Qed.

Section Total.
Context (cmp : list Z -> list Z -> Z) {HC : CollLaws cmp}.

Lemma value_antisym v w : Z.sgn (value_cmp cmp v w) = - Z.sgn (value_cmp cmp w v).
Proof.
  unfold value_cmp. rewrite (Z.eqb_sym (value_rank w)). destruct (Z.eqb_spec (value_rank v) (value_rank w)) as [E|E]; cbn [negb]; rewrite <- ?Z.sgn_opp; [|rewrite !sgn_sgn; f_equal; lia].
  assert (Hn : Z.sgn (Z.sgn (value_num v - value_num w)) = Z.sgn (- Z.sgn (value_num w - value_num v))) by (rewrite Z.sgn_opp, !sgn_sgn, <- Z.sgn_opp; f_equal; lia).
  destruct v, w; try done; rewrite Z.sgn_opp; [rewrite !sgn_sgn; apply coll_antisym|apply (coll_antisym (cmp := lex))].
Qed.

Lemma sgn_le x : Z.sgn x <= 0 <-> x <= 0.
Proof. destruct x; cbn; lia. Qed.

Lemma value_trans u v w : value_cmp cmp u v <= 0 -> value_cmp cmp v w <= 0 -> value_cmp cmp u w <= 0.
Proof.
  unfold value_cmp. destruct (Z.eqb_spec (value_rank u) (value_rank v)) as [E1|E1], (Z.eqb_spec (value_rank v) (value_rank w)) as [E2|E2], (Z.eqb_spec (value_rank u) (value_rank w)) as [E3|E3]; cbn [negb]; try lia; try (rewrite !sgn_le; lia).
  assert (Hn : Z.sgn (value_num u - value_num v) <= 0 -> Z.sgn (value_num v - value_num w) <= 0 -> Z.sgn (value_num u - value_num w) <= 0) by (rewrite !sgn_le; lia).
  destruct u, v, w; try done; [rewrite !sgn_le; apply coll_trans|apply (coll_trans (cmp := lex))].
Qed.
End Total.

(** C22. [sqlite3MemCompare] is a total order on values.  NULL is less than numbers, these than text, and text than blobs.
    Numbers are compared by their exact values, also an integer with a floating point number, although the conversion of
    one to the type of the other rounds.  Text is compared by the collating sequence, in its encoding, or by bytes;
    blobs by bytes, zeros at their end that are not stored included.  The results are antisymmetric and transitive when
    those of the collating sequence are, and no member of a cell is read that was not written. *)
Theorem sqlite3MemCompare_orders toText pColl enc m1 m2 m3 v1 v2 v3 : CollLaws (text_cmp toText pColl enc) ->
  mem_is m1 v1 -> mem_is m2 v2 -> mem_is m3 v3 -> mem_enc m1 = enc -> mem_enc m2 = enc -> mem_enc m3 = enc -> exists c12 c21 c23 c13,
  sqlite3MemCompare toText m1 m2 pColl = Some c12 /\ sqlite3MemCompare toText m2 m1 pColl = Some c21 /\ sqlite3MemCompare toText m2 m3 pColl = Some c23 /\ sqlite3MemCompare toText m1 m3 pColl = Some c13 /\
  Z.sgn c12 = value_cmp (text_cmp toText pColl enc) v1 v2 /\ Z.sgn c12 = - Z.sgn c21 /\ (c12 <= 0 -> c23 <= 0 -> c13 <= 0).
Proof.
  intros HC H1 H2 H3 E1 E2 E3. destruct (mem_compare toText m1 m2 v1 v2 pColl H1 H2 ltac:(congruence)) as (c12 & C12 & S12). destruct (mem_compare toText m2 m1 v2 v1 pColl H2 H1 ltac:(congruence)) as (c21 & C21 & S21).
  destruct (mem_compare toText m2 m3 v2 v3 pColl H2 H3 ltac:(congruence)) as (c23 & C23 & S23). destruct (mem_compare toText m1 m3 v1 v3 pColl H1 H3 ltac:(congruence)) as (c13 & C13 & S13). rewrite E1 in S12, S13. rewrite E2 in S21, S23.
  exists c12, c21, c23, c13. split; [done|]. split; [done|]. split; [done|]. split; [done|]. split; [done|]. split; [rewrite <- (sgn_sgn c12), <- (sgn_sgn c21), S12, S21; by apply value_antisym|]. rewrite <- (sgn_le c12), <- (sgn_le c23), <- (sgn_le c13), S12, S23, S13. by apply value_trans.
Qed.

(** 2^53 + 1, the double of 2^53, and 2^53: as doubles all three would be equal. *)
Lemma sqlite3MemCompare_orders_witness :
  let m1 := MkMem (U_i (2 ^ 53)) [] 0 MEM_Int 1 in let m2 := MkMem (U_r 0x4340000000000000) [] 0 MEM_Real 1 in let m3 := MkMem (U_i (2 ^ 53 + 1)) [] 0 MEM_Int 1 in
  sqlite3MemCompare (fun _ _ s => Some s) m1 m2 None = Some 0 /\ sqlite3MemCompare (fun _ _ s => Some s) m2 m3 None = Some (-1) /\ sqlite3MemCompare (fun _ _ s => Some s) m1 m3 None = Some (-1).
Proof.
  destruct (sqlite3MemCompare_orders (fun _ _ s => Some s) None 1 (MkMem (U_i (2 ^ 53)) [] 0 MEM_Int 1) (MkMem (U_r 0x4340000000000000) [] 0 MEM_Real 1) (MkMem (U_i (2 ^ 53 + 1)) [] 0 MEM_Int 1) (VInt (2 ^ 53)) (VReal 0x4340000000000000) (VInt (2 ^ 53 + 1)))
    as (c12 & c21 & c23 & c13 & E12 & E21 & E23 & E13 & _); [exact lex_laws|repeat split; cbn; lia|repeat split|repeat split; cbn; lia|reflexivity|reflexivity|reflexivity|].
  split; [vm_compute; reflexivity|]. split; vm_compute; reflexivity.
Defined.
