(* ===== verification/VdbeRec.v ===== *)
(** * Records ([src/vdbeaux.c] and OP_MakeRecord of [src/vdbe.c])

    Rows and index keys are cell_stores as records: the size of the header and the serial type of each
    field, as varints, and then the contents of the fields.  OP_MakeRecord makes a record from
    cells, [sqlite3VdbeSerialGet] and [sqlite3VdbeRecordUnpack] read it. *)
From S2P Require Import Prelude Varint Bytes FileIO Ints Double VdbeMem.

(** ** Serial types *)

Definition sqlite3SmallTypeSizes : list Z :=
  [0;  1;  2;  3;  4;  6;  8;  8;  0;  0;
   0;  0;  0;  0;  1;  1;  2;  2;  3;  3;
   4;  4;  5;  5;  6;  6;  7;  7;  8;  8;
   9;  9; 10; 10; 11; 11; 12; 12; 13; 13;
  14; 14; 15; 15; 16; 16; 17; 17; 18; 18;
  19; 19; 20; 20; 21; 21; 22; 22; 23; 23;
  24; 24; 25; 25; 26; 26; 27; 27; 28; 28;
  29; 29; 30; 30; 31; 31; 32; 32; 33; 33;
  34; 34; 35; 35; 36; 36; 37; 37; 38; 38;
  39; 39; 40; 40; 41; 41; 42; 42; 43; 43;
  44; 44; 45; 45; 46; 46; 47; 47; 48; 48;
  49; 49; 50; 50; 51; 51; 52; 52; 53; 53;
  54; 54; 55; 55; 56; 56; 57; 57].

Definition sqlite3VdbeSerialTypeLen (serial_type : Z) : option Z :=
  if serial_type >=? 128 then Some ((serial_type - 12) / 2) else aget sqlite3SmallTypeSizes serial_type.

Definition sqlite3VdbeOneByteSerialTypeLen (serial_type : Z) : option Z := aget sqlite3SmallTypeSizes serial_type.

(** [getVarint32(A,B)]: value and number of bytes *)
Definition getVarint32 (p : list Z) : option (Z * Z) :=
  p0 ← aget p 0;
  if p0 <? 0x80 then Some (p0, 1) else sqlite3GetVarint32 p.

(** ** Reading of fields *)

Definition i8 (x : Z) : Z := swrap 8 x.

Definition ONE_BYTE_INT (x : list Z) : option Z := x0 ← aget x 0; Some (i8 x0).
Definition TWO_BYTE_INT (x : list Z) : option Z := x0 ← aget x 0; x1 ← aget x 1; Some ((256 * i8 x0) .| x1).
Definition THREE_BYTE_INT (x : list Z) : option Z :=
  x0 ← aget x 0; x1 ← aget x 1; x2 ← aget x 2; Some ((65536 * i8 x0) .| (x1 << 8) .| x2).
Definition FOUR_BYTE_UINT (x : list Z) : option Z :=
  x0 ← aget x 0; x1 ← aget x 1; x2 ← aget x 2; x3 ← aget x 3; Some ((x0 << 24) .| (x1 << 16) .| (x2 << 8) .| x3).
Definition FOUR_BYTE_INT (x : list Z) : option Z :=
  x0 ← aget x 0; x1 ← aget x 1; x2 ← aget x 2; x3 ← aget x 3; Some ((16777216 * i8 x0) .| (x1 << 16) .| (x2 << 8) .| x3).

(** The eight bytes that [serialGet] and [serialGet7] start with *)
Definition eight_bytes (buf : list Z) : option Z :=
  x ← FOUR_BYTE_UINT buf;
  y ← FOUR_BYTE_UINT (drop 4 buf);
  Some (u64 (x << 32) + y).

Definition set_u (u : MemValue) (flags : Z) (m : Mem) : Mem := MkMem u (mem_z m) (mem_n m) flags (mem_enc m).

Definition serialGet (buf : list Z) (serial_type : Z) (pMem : Mem) : option Mem :=
  x ← eight_bytes buf;
  Some (if serial_type =? 6 then set_u (U_i (i64 x)) MEM_Int pMem
        else set_u (U_r x) (if IsNaN x then MEM_Null else MEM_Real) pMem).

(** Whether it is a NaN, and the cell *)
Definition serialGet7 (buf : list Z) (pMem : Mem) : option (bool * Mem) :=
  x ← eight_bytes buf;
  Some (if IsNaN x then (true, set_u (U_r x) MEM_Null pMem) else (false, set_u (U_r x) MEM_Real pMem)).

Definition sqlite3VdbeSerialGet (buf : list Z) (serial_type : Z) (pMem : Mem) : option Mem :=
  let int (x : option Z) := i ← x; Some (set_u (U_i i) MEM_Int pMem) in
  match serial_type with
  | 10 => Some (MkMem (U_nZero 0) (mem_z pMem) 0 (MEM_Null .| MEM_Zero) (mem_enc pMem))
  | 11 | 0 => Some (MkMem (mem_u pMem) (mem_z pMem) (mem_n pMem) MEM_Null (mem_enc pMem))
  | 1 => int (ONE_BYTE_INT buf)
  | 2 => int (TWO_BYTE_INT buf)
  | 3 => int (THREE_BYTE_INT buf)
  | 4 => int (FOUR_BYTE_INT buf)
  | 5 => int (y ← FOUR_BYTE_UINT (drop 2 buf); x ← TWO_BYTE_INT buf; Some (y + (1 << 32) * x))
  | 6 | 7 => serialGet buf serial_type pMem
  | 8 | 9 => Some (set_u (U_i (serial_type - 8)) MEM_Int pMem)
  | _ =>
      Some (MkMem (mem_u pMem) buf ((serial_type - 12) / 2) (if serial_type .& 1 =? 0 then MEM_Blob .| MEM_Ephem else MEM_Str .| MEM_Ephem) (mem_enc pMem))
  end.

(** [sqlite3VdbeMemSetNull] of a cell without allocation *)
Definition sqlite3VdbeMemSetNull (m : Mem) : Mem := MkMem (mem_u m) (mem_z m) (mem_n m) MEM_Null (mem_enc m).

(** The cells of [p->aMem] are overwritten: [mem0] has the encoding of [pKeyInfo]. *)
Fixpoint unpack_loop (nField : nat) (aKey : list Z) (nKey szHdr idx d : Z) (mem0 : Mem) : option (list Mem * Z) :=
  match nField with
  | O => Some ([], d)
  | S nField =>
      if (idx <? szHdr) && (d <=? nKey) then
        '(serial_type, n) ← getVarint32 (drop (Z.to_nat idx) aKey);
        m ← sqlite3VdbeSerialGet (drop (Z.to_nat d) aKey) serial_type mem0;
        len ← sqlite3VdbeSerialTypeLen serial_type;
        '(ms, d) ← unpack_loop nField aKey nKey szHdr (u32 (idx + n)) (u32 (d + len)) mem0;
        Some (m :: ms, d)
      else Some ([], d)
  end.

(** The cells read: [p->nField] becomes their number. The first field is read before [nField] is tested. *)
Definition sqlite3VdbeRecordUnpack (enc nKey : Z) (aKey : list Z) (nField : nat) : option (list Mem) :=
  '(szHdr, idx) ← getVarint32 aKey;
  '(ms, d) ← unpack_loop (Nat.max 1 nField) aKey nKey szHdr idx szHdr (MkMem (U_i 0) [] 0 0 enc);
  Some (if (d >? nKey) && negb (bool_decide (ms = [])) then removelast ms ++ (sqlite3VdbeMemSetNull <$> option_list (last ms)) else ms).

(** ** OP_MakeRecord *)

(** Out of memory, too big, or the cells and the record *)
Inductive made : Type := no_mem | too_big | Made (ms : list Mem) (pOut : Mem).

(** The result of [sqlite3VdbeMemGrow] is the next of [al]; [None] in the result is SQLITE_NOMEM. *)
Definition sqlite3VdbeMemExpandBlob (al : alloc) (pMem : Mem) : option (option Mem * alloc) :=
  nZero ← u_nZero pMem;
  let nByte := mem_n pMem + nZero in
  if (nByte <=? 0) && negb (has (mem_flags pMem) MEM_Blob) then Some (Some pMem, al) else
  let '(ok, al) := malloc al in
  if ok then
    Some (Some (MkMem (U_nZero nZero) (take (Z.to_nat (mem_n pMem)) (mem_z pMem) ++ replicate (Z.to_nat nZero) 0) (mem_n pMem + nZero)
                      (mem_flags pMem .& Z.lnot (MEM_Zero .| MEM_Term)) (mem_enc pMem)), al)
  else Some (None, al).

(** Sizes so far, from the last field on *)
Record Sizes : Type := MkSizes { nHdr : Z; nData : Z; nZero : Z }.

(** The serial type of an integer of 64 bits, and how many bytes it takes *)
Definition int_serial_type (minWriteFileFormat i : Z) (intReal : bool) : Z * Z :=
  let uu := if i <? 0 then u64 (Z.lnot i) else i in
  if uu <=? 127 then if (i .& 1 =? i) && (minWriteFileFormat >=? 4) then (8 + uu, 0) else (1, 1)
  else if uu <=? 32767 then (2, 2)
  else if uu <=? 8388607 then (3, 3)
  else if uu <=? 2147483647 then (4, 4)
  else if uu <=? 140737488355327 then (5, 6)
  else (if intReal then 7 else 6, 8).

(** The cell, with its [uTemp], and the sizes; [None] in the result is no_mem. *)
Definition size_of_field (minWriteFileFormat : Z) (al : alloc) (pRec : Mem) (sz : Sizes) : option (option (Mem * Z * Sizes) * alloc) :=
  let f := mem_flags pRec in
  if has f MEM_Null then
    Some (Some (pRec, if has f MEM_Zero then 10 else 0, MkSizes (nHdr sz + 1) (nData sz) (nZero sz)), al)
  else if has f (MEM_Int .| MEM_IntReal) then
    i ← u_i pRec;
    let '(t, len) := int_serial_type minWriteFileFormat i (has f MEM_IntReal) in
    let pRec := if t =? 7 then MkMem (U_r (double_of_i64 i)) (mem_z pRec) (mem_n pRec) ((f .& Z.lnot MEM_IntReal) .| MEM_Real) (mem_enc pRec) else pRec in
    Some (Some (pRec, t, MkSizes (nHdr sz + 1) (nData sz + len) (nZero sz)), al)
  else if has f MEM_Real then
    Some (Some (pRec, 7, MkSizes (nHdr sz + 1) (nData sz + 8) (nZero sz)), al)
  else
    let len := mem_n pRec in
    let serial_type := u32 (len * 2 + 12 + (if has f MEM_Str then 1 else 0)) in
    if has f MEM_Zero then
      z ← u_nZero pRec;
      let serial_type := u32 (serial_type + z * 2) in
      let h := nHdr sz + sqlite3VarintLen serial_type in
      if negb (nData sz =? 0) then
        '(r, al) ← sqlite3VdbeMemExpandBlob al pRec;
        match r with
        | Some pRec => Some (Some (pRec, serial_type, MkSizes h (nData sz + (len + z)) (nZero sz)), al)
        | None => Some (None, al)
        end
      else Some (Some (pRec, serial_type, MkSizes h (nData sz + len) (nZero sz + z)), al)
    else Some (Some (pRec, serial_type, MkSizes (nHdr sz + sqlite3VarintLen serial_type) (nData sz + len) (nZero sz)), al).

(** [do{ ... pRec--; }while(1)]: the last field comes first. *)
Fixpoint size_fields (minWriteFileFormat : Z) (al : alloc) (ms : list Mem) : option (option (list (Mem * Z) * Sizes) * alloc) :=
  match ms with
  | [] => Some (Some ([], MkSizes 0 0 0), al)
  | pRec :: ms =>
      '(r, al) ← size_fields minWriteFileFormat al ms;
      match r with
      | None => Some (None, al)
      | Some (ts, sz) =>
          '(r, al) ← size_of_field minWriteFileFormat al pRec sz;
          match r with
          | None => Some (None, al)
          | Some (pRec, t, sz) => Some (Some ((pRec, t) :: ts, sz), al)
          end
      end
  end.

(** [nHdr] with the size of the header itself *)
Definition header_size (nHdr : Z) : Z :=
  if nHdr <=? 126 then nHdr + 1
  else
    let nVarint := sqlite3VarintLen nHdr in
    let nHdr := nHdr + nVarint in
    if nVarint <? sqlite3VarintLen nHdr then nHdr + 1 else nHdr.

(** The [switch( len )]: the [len] low bytes of [v] *)
Definition be_bytes (len v : Z) : list Z := (fun j => (v >> (8 * (len - 1 - j))) .& 0xff) <$> seqZ 0 len.

(** [memcpy(zPayload, pRec->z, pRec->n)] *)
Definition write_bytes (z : list Z) (zPayload : Z) (pRec : Mem) : option (list Z) :=
  bs ← mread (mem_z pRec) 0 (mem_n pRec); mwrite z zPayload bs.

(** Buffer, [zHdr] and [zPayload] *)
Definition write_field (w : list Z * Z * Z) (f : Mem * Z) : option (list Z * Z * Z) :=
  let '(z, zHdr, zPayload) := w in
  let '(pRec, serial_type) := f in
  if serial_type <=? 7 then
    z ← mwrite z zHdr [serial_type];
    if serial_type =? 0 then Some (z, zHdr + 1, zPayload) else
    v ← (if serial_type =? 7 then u_r pRec else i ← u_i pRec; Some (u64 i));
    len ← aget sqlite3SmallTypeSizes serial_type;
    z ← mwrite z zPayload (be_bytes len v);
    Some (z, zHdr + 1, zPayload + len)
  else if serial_type <? 0x80 then
    z ← mwrite z zHdr [serial_type];
    if (serial_type >=? 14) && (mem_n pRec >? 0) then
      z ← write_bytes z zPayload pRec; Some (z, zHdr + 1, zPayload + mem_n pRec)
    else Some (z, zHdr + 1, zPayload)
  else
    let '(n, bs) := sqlite3PutVarint serial_type in
    z ← mwrite z zHdr bs;
    if negb (mem_n pRec =? 0) then
      z ← write_bytes z zPayload pRec; Some (z, zHdr + n, zPayload + mem_n pRec)
    else Some (z, zHdr + n, zPayload).

Fixpoint write_fields (w : list Z * Z * Z) (fs : list (Mem * Z)) : option (list Z * Z * Z) :=
  match fs with
  | [] => Some w
  | f :: fs => w ← write_field w f; write_fields w fs
  end.

(** The size of the header *)
Definition write_szHdr (z : list Z) (h : Z) : option (list Z * Z) :=
  if h <? 0x80 then z ← mwrite z 0 [h]; Some (z, 1)
  else let '(n, bs) := sqlite3PutVarint h in z ← mwrite z 0 bs; Some (z, n).

(** The fields [ms] become the record [pOut]; its buffer [zMalloc] is used when it has room, else it
    is allocated.  [limit] is SQLITE_LIMIT_LENGTH. *)
Definition OP_MakeRecord (minWriteFileFormat limit : Z) (al : alloc) (ms : list Mem) (pOut : Mem) (zMalloc : list Z) : option made :=
  '(r, al) ← size_fields minWriteFileFormat al ms;
  match r with
  | None => Some no_mem
  | Some (fs, sz) =>
      let h := header_size (nHdr sz) in
      let nByte := h + nData sz in
      let fits := nByte + nZero sz <=? alen zMalloc in
      if negb fits && (nByte + nZero sz >? limit) then Some too_big else
      if negb fits && negb (fst (malloc al)) then Some no_mem else
      let z := if fits then zMalloc else replicate (Z.to_nat nByte) 0 in
      '(z, zHdr) ← write_szHdr z h;
      '(z, _, _) ← write_fields (z, zHdr, h) fs;
      Some (Made (fst <$> fs) (MkMem (if nZero sz =? 0 then mem_u pOut else U_nZero (nZero sz)) z nByte
                                     (if nZero sz =? 0 then MEM_Blob else MEM_Blob .| MEM_Zero) (mem_enc pOut)))
  end.
