(* ===== verification/RecSpec.v ===== *)
(** * The format of records

    A record is the encoding of a list of values; here are the encoding, by the ranges of the
    integers and the lengths of text and blobs, and the proof that [sqlite3VdbeSerialGet] and
    [sqlite3VdbeRecordUnpack] decode it. *)
From S2P Require Import Prelude Varint Bytes FileIO Ints Double VdbeMem VdbeRec.

(** ** The format *)

Definition vput (t : Z) : list Z := snd (sqlite3PutVarint t).

Section Format.
Context (fmt : Z).

(** An integer is within [w] bits. *)
Definition in_bits (w i : Z) : bool := (- 2 ^ (w - 1) <=? i) && (i <? 2 ^ (w - 1)).

(** The serial type of an integer and its bytes: the shortest of 1, 2, 3, 4, 6 and 8, and none for 0 and 1 from file format 4 on *)
Definition int_format (i : Z) : Z * Z :=
  if ((i =? 0) || (i =? 1)) && (fmt >=? 4) then (8 + i, 0)
  else if in_bits 8 i then (1, 1) else if in_bits 16 i then (2, 2) else if in_bits 24 i then (3, 3)
  else if in_bits 32 i then (4, 4) else if in_bits 48 i then (5, 6) else (6, 8).

Definition vtype (v : value) : Z :=
  match v with
  | VNull => 0
  | VInt i => (int_format i).1
  | VReal _ => 7
  | VText s => 2 * alen s + 13
  | VBlob s => 2 * alen s + 12
  end.

Definition vdata (v : value) : list Z :=
  match v with
  | VNull => []
  | VInt i => be_bytes (int_format i).2 (u64 i)
  | VReal r => be_bytes 8 r
  | VText s | VBlob s => s
  end.

Definition vtypes (vs : list value) : list Z := concat (map (fun v => vput (vtype v)) vs).
Definition vdatas (vs : list value) : list Z := concat (map vdata vs).

Definition record_header (vs : list value) : list Z := vput (header_size (alen (vtypes vs))) ++ vtypes vs.
Definition record_bytes (vs : list value) : list Z := record_header vs ++ vdatas vs.

(** Values that a record can have *)
Definition value_ok (v : value) : Prop :=
  match v with
  | VNull => True
  | VInt i => is_i64 i
  | VReal r => is_u64 r /\ IsNaN r = false
  | VText s | VBlob s => Forall is_u8 s /\ alen s < 2 ^ 31 - 7
  end.

(** ** Strings *)

Lemma serial_len_str t n : 12 <= t -> n = (t - 12) / 2 -> sqlite3VdbeSerialTypeLen t = Some n.
Proof.
  intros Ht ->. unfold sqlite3VdbeSerialTypeLen. destruct (Z.geb_spec t 128) as [|Hlt]; [done|].
  assert (H : forallb (fun t => bool_decide (aget sqlite3SmallTypeSizes t = Some ((t - 12) / 2))) (seqZ 12 116) = true) by (vm_compute; done).
  rewrite forallb_forall in H. specialize (H t). rewrite bool_decide_eq_true in H. apply H. apply list_elem_of_In, elem_of_seqZ. lia.
Qed.

Lemma serialGet_str buf t m : 12 <= t -> sqlite3VdbeSerialGet buf t m = Some (MkMem (mem_u m) buf ((t - 12) / 2) (if t .& 1 =? 0 then MEM_Blob .| MEM_Ephem else MEM_Str .| MEM_Ephem) (mem_enc m)).
Proof. intros Ht. unfold sqlite3VdbeSerialGet. destruct t as [|t|t]; [done| |done]. do 4 (destruct t as [t|t|]; try lia; try done). Qed.

(** ** Varints *)

Lemma vput_len t : is_u32 t -> alen (vput t) = sqlite3VarintLen t /\ 1 <= alen (vput t) <= 5 /\ Forall is_u8 (vput t) /\ (alen (vput t) = 1 <-> t < 128) /\ (t < 128 -> vput t = [t]).
Proof.
  intros Ht. assert (Hu : is_u64 t) by (unfold is_u32, is_u64 in *; lia). destruct (put_bytes t Hu) as [Hb Hl]. unfold is_u32 in Ht. unfold vput. rewrite sqlite3VarintLen_exact by exact Hu. rewrite (proj2 (Z.ltb_lt t (2 ^ 63))) by lia. change (alen (sqlite3PutVarint t).2) with (Z.of_nat (length (sqlite3PutVarint t).2)). rewrite Hl. split; [done|].
  destruct (put_shape t Hu) as [(m & Hm & Hlt & Hge & E)|[Hge E]]; [|lia]. rewrite E in *. cbn [fst snd] in *. assert (Hm4 : (m <= 4)%nat).
  { destruct Hge as [->|Hge]; [lia|]. apply Nat.nlt_ge. intros Hm5. pose proof (Z.pow_le_mono_r 128 5 (Z.of_nat m)). lia. }
  split; [lia|]. split; [done|]. split.
  - split; [intros ?; assert (m = 0%nat) as -> by lia; change (128 ^ Z.of_nat 1) with 128 in Hlt; lia|]. intros Hs. destruct Hge as [->|Hge]; [done|]. destruct m as [|m]; [done|]. pose proof (Z.pow_le_mono_r 128 1 (Z.of_nat (S m))). lia.
  - intros Hs. destruct m as [|m]; [|destruct Hge as [?|Hge]; [done|]; pose proof (Z.pow_le_mono_r 128 1 (Z.of_nat (S m))); lia]. unfold short_form. cbn [be cont map app]. by rewrite Z.mod_small by lia.
Qed.

Lemma vput_cont t : is_u32 t -> 128 <= t -> exists b l, vput t = b :: l /\ 128 <= b.
Proof.
  intros Ht Hs. assert (Hu : is_u64 t) by (unfold is_u32, is_u64 in *; lia). destruct (put_shape t Hu) as [(m & Hm & Hlt & Hge & Ep)|[Hge Ep]]; [|unfold is_u32 in Ht; lia]. unfold vput. rewrite Ep. cbn [snd]. unfold short_form. destruct m as [|m]; [change (128 ^ Z.of_nat 1) with 128 in Hlt; lia|].
  pose proof (be_digits (S m) (t / 128)) as Hd. pose proof (be_length (S m) (t / 128)) as Hbl. destruct (be (S m) (t / 128)) as [|x xs]; [done|]. eexists _, _. split; [reflexivity|]. inversion Hd as [|? ? Hx _]; subst. unfold digit in Hx. lia.
Qed.

(** The macro [getVarint32] reads what was put. *)
Lemma get_vput t rest : is_u32 t -> Forall is_u8 rest -> getVarint32 (vput t ++ rest) = Some (t, alen (vput t)).
Proof.
  intros Ht Hr. destruct (vput_len t Ht) as (_ & Hl & Hb & H1 & Hone). assert (Hu : is_u64 t) by (unfold is_u32, is_u64 in *; lia). unfold getVarint32. destruct (Z.ltb_spec t 128) as [Hs|Hs].
  - rewrite (Hone Hs). change (aget ([t] ++ rest) 0) with (Some t). cbn [mbind option_bind]. by rewrite (proj2 (Z.ltb_lt t 128) Hs).
  - destruct (vput_cont t Ht Hs) as (b & l & E & Hb128). rewrite E in *.
    cbn [app]. change (aget (b :: l ++ rest) 0) with (Some b). cbn [mbind option_bind]. rewrite (proj2 (Z.ltb_ge b 128)) by done.
    rewrite sqlite3GetVarint32_saturates; [|change (b :: l ++ rest) with ((b :: l) ++ rest); apply Forall_app; by split|by exists b, (l ++ rest)]. rewrite getvarint_is_spec by (change (b :: l ++ rest) with ((b :: l) ++ rest); apply Forall_app; by split).
    change (b :: l ++ rest) with ((b :: l) ++ rest). rewrite <- E. unfold vput. rewrite put_decodes by done. cbn [mbind option_bind]. destruct (put_bytes t Hu) as [_ Hlen]. rewrite <- Hlen. unfold is_u32 in Ht. rewrite Z.min_l by lia. done.
Qed.

(** ** Numbers *)

Lemma be_bytes_len len v : 0 <= len -> alen (be_bytes len v) = len /\ Forall is_u8 (be_bytes len v).
Proof.
  intros Hl. unfold be_bytes. split; [unfold alen; rewrite length_fmap, length_seqZ; lia|]. apply Forall_fmap, Forall_forall. intros j _. unfold is_u8; cbn. rewrite (land_ones_mod _ 8) by lia. apply Z.mod_pos_bound. lia.
Qed.

Lemma be_byte v k : 0 <= k -> (v >> (8 * k)) .& 0xff = (v / 256 ^ k) mod 256.
Proof.
  intros Hk. rewrite (land_ones_mod _ 8) by lia. change (2 ^ 8) with 256. rewrite Z.shiftr_div_pow2 by lia. do 2 f_equal. change 256 with (2 ^ 8). by rewrite <- Z.pow_mul_r by lia.
Qed.

(** The bytes of a word of 64 bits are those of the integer. *)
Lemma byte_u64 i k : 0 <= k < 8 -> (u64 i / 256 ^ k) mod 256 = (i / 256 ^ k) mod 256.
Proof.
  intros Hk. unfold u64. rewrite (Z.div_mod i (2 ^ 64)) at 2 by lia. assert (E : 2 ^ 64 = 256 ^ (7 - k) * 256 * 256 ^ k) by (rewrite <- (Z.pow_1_r 256) at 2; rewrite <- !Z.pow_add_r by lia; replace (7 - k + 1 + k) with 8 by lia; done).
  assert (Hp : 256 ^ k <> 0) by (pose proof (Z.pow_pos_nonneg 256 k); lia). replace (2 ^ 64 * (i / 2 ^ 64)) with ((i / 2 ^ 64 * 256 ^ (7 - k) * 256) * 256 ^ k) by (rewrite E at 2; ring).
  by rewrite Z.div_add_l, Z.add_comm, Z_mod_plus_full.
Qed.

Lemma byte_at_u64 i k : 0 <= k < 8 -> (u64 i >> (8 * k)) .& 0xff = (i / 256 ^ k) mod 256.
Proof. intros Hk. rewrite be_byte, byte_u64; lia. Qed.

(** The sizes and the ranges *)
Inductive int_type (i : Z) : Z -> Z -> Prop :=
| it_const : i = 0 \/ i = 1 -> int_type i (8 + i) 0
| it_1 : -2 ^ 7 <= i < 2 ^ 7 -> int_type i 1 1
| it_2 : -2 ^ 15 <= i < 2 ^ 15 -> int_type i 2 2
| it_3 : -2 ^ 23 <= i < 2 ^ 23 -> int_type i 3 3
| it_4 : -2 ^ 31 <= i < 2 ^ 31 -> int_type i 4 4
| it_6 : -2 ^ 47 <= i < 2 ^ 47 -> int_type i 5 6
| it_8 : int_type i 6 8.

Lemma in_bits_spec w i : in_bits w i = true -> - 2 ^ (w - 1) <= i < 2 ^ (w - 1).
Proof. unfold in_bits. lia. Qed.

Lemma int_format_cases i : int_type i (int_format i).1 (int_format i).2.
Proof.
  unfold int_format. destruct (_ && _) eqn:E; [apply it_const; lia|]. clear E.
  repeat match goal with |- context [in_bits ?w i] => destruct (in_bits w i) eqn:E; [apply in_bits_spec in E; constructor; lia|clear E] end. constructor.
Qed.

(** The code finds the format by the bits of the integer, complemented when it is negative. *)
Lemma int_serial_type_format i : is_i64 i -> int_serial_type fmt i false = int_format i.
Proof.
  unfold is_i64. intros Hi. unfold int_serial_type. set (uu := if i <? 0 then u64 (Z.lnot i) else i).
  assert (Hu : uu = if i <? 0 then - i - 1 else i). { subst uu. destruct (Z.ltb_spec i 0); [|done]. unfold u64. rewrite Z.mod_small; unfold Z.lnot; lia. }
  assert (Hw : forall w k, 0 < w -> k = 2 ^ (w - 1) - 1 -> (uu <=? k) = in_bits w i) by (intros w k Hw ->; rewrite Hu; unfold in_bits; destruct (Z.ltb_spec i 0); lia).
  rewrite (Hw 8), (Hw 16), (Hw 24), (Hw 32), (Hw 48) by lia. assert (E01 : (i .& 1 =? i) = (i =? 0) || (i =? 1)).
  { rewrite (land_ones_mod _ 1) by lia. change (2 ^ 1) with 2. pose proof (Z.mod_pos_bound i 2). destruct (Z.eqb_spec i 0) as [->|]; [done|]. destruct (Z.eqb_spec i 1) as [->|]; [done|]. cbn [orb]. apply Z.eqb_neq. lia. }
  rewrite E01. unfold int_format. destruct ((i =? 0) || (i =? 1)) eqn:E; cbn [andb]; [|done]. assert (Hi01 : i = 0 \/ i = 1) by lia. assert (uu = i) as -> by (rewrite Hu, (proj2 (Z.ltb_ge i 0)); lia).
  by destruct Hi01 as [-> | ->], (fmt >=? 4).
Qed.

(** Bytes as digits *)
Lemma or_bytes k x y : 0 <= k -> 0 <= y < 2 ^ k -> (2 ^ k * x) .| y = 2 ^ k * x + y.
Proof. intros Hk Hy. rewrite (Z.mul_comm _ x). by apply lor_add_low. Qed.

Lemma div_step i k : 0 <= k -> i / 256 ^ k = 256 * (i / 256 ^ (k + 1)) + (i / 256 ^ k) mod 256.
Proof. intros Hk. rewrite Z.pow_add_r, <- Z.div_div by lia. change (256 ^ 1) with 256. apply Z.div_mod. lia. Qed.

Lemma i8_top i k : 0 <= k -> - 128 * 256 ^ k <= i < 128 * 256 ^ k -> i8 ((i / 256 ^ k) mod 256) = i / 256 ^ k.
Proof.
  intros Hk Hi. assert (Hq : -128 <= i / 256 ^ k < 128). { pose proof (Z.pow_pos_nonneg 256 k). split; [apply Z.div_le_lower_bound; lia|apply Z.div_lt_upper_bound; lia]. }
  unfold i8, swrap. change (2 ^ (8 - 1)) with 128. change (2 ^ 8) with 256. generalize dependent (i / 256 ^ k). intros q Hq. zdm.
Qed.
Lemma or2 s x : is_u8 x -> (256 * s) .| x = 256 * s + x.
Proof. intros Hx. by apply (or_bytes 8). Qed.

Lemma or3 s x y : is_u8 x -> is_u8 y -> (65536 * s) .| (x << 8) .| y = 65536 * s + 256 * x + y.
Proof.
  unfold is_u8. intros Hx Hy. rewrite Z.shiftl_mul_pow2, (or_bytes 16) by lia. replace (2 ^ 16 * s + x * 2 ^ 8) with (256 * (256 * s + x)) by lia. rewrite or2 by done. lia.
Qed.

Lemma or4 s x y z : is_u8 x -> is_u8 y -> is_u8 z -> (16777216 * s) .| (x << 16) .| (y << 8) .| z = 16777216 * s + 65536 * x + 256 * y + z.
Proof.
  unfold is_u8. intros Hx Hy Hz. rewrite Z.shiftl_mul_pow2, (or_bytes 24) by lia. replace (2 ^ 24 * s + x * 2 ^ 16) with (65536 * (256 * s + x)) by lia. rewrite or3 by done. lia.
Qed.

Lemma ONE_BYTE_INT_val x0 rest : ONE_BYTE_INT (x0 :: rest) = Some (i8 x0).
Proof. done. Qed.

Lemma TWO_BYTE_INT_val x0 x1 rest : is_u8 x1 -> TWO_BYTE_INT (x0 :: x1 :: rest) = Some (256 * i8 x0 + x1).
Proof. intros H. transitivity (Some ((256 * i8 x0) .| x1)); [done|]. by rewrite or2. Qed.

Lemma THREE_BYTE_INT_val x0 x1 x2 rest : is_u8 x1 -> is_u8 x2 -> THREE_BYTE_INT (x0 :: x1 :: x2 :: rest) = Some (65536 * i8 x0 + 256 * x1 + x2).
Proof. intros H1 H2. transitivity (Some ((65536 * i8 x0) .| (x1 << 8) .| x2)); [done|]. by rewrite or3. Qed.

Lemma FOUR_BYTE_INT_val x0 x1 x2 x3 rest : is_u8 x1 -> is_u8 x2 -> is_u8 x3 -> FOUR_BYTE_INT (x0 :: x1 :: x2 :: x3 :: rest) = Some (16777216 * i8 x0 + 65536 * x1 + 256 * x2 + x3).
Proof. intros H1 H2 H3. transitivity (Some ((16777216 * i8 x0) .| (x1 << 16) .| (x2 << 8) .| x3)); [done|]. by rewrite or4. Qed.

Lemma FOUR_BYTE_UINT_val x0 x1 x2 x3 rest : is_u8 x1 -> is_u8 x2 -> is_u8 x3 -> FOUR_BYTE_UINT (x0 :: x1 :: x2 :: x3 :: rest) = Some (16777216 * x0 + 65536 * x1 + 256 * x2 + x3).
Proof. intros H1 H2 H3. transitivity (Some ((x0 << 24) .| (x1 << 16) .| (x2 << 8) .| x3)); [done|]. rewrite (Z.shiftl_mul_pow2 x0), (Z.mul_comm x0) by lia. by rewrite (or4 x0). Qed.

(** The byte of weight [256 ^ k] *)
Definition byte (i k : Z) : Z := (i / 256 ^ k) mod 256.

Lemma byte_u8 i k : is_u8 (byte i k).
Proof. apply Z.mod_pos_bound. lia. Qed.

Lemma i8_byte i k : 0 <= k -> - 128 * 256 ^ k <= i < 128 * 256 ^ k -> i8 (byte i k) = i / 256 ^ k.
Proof. apply i8_top. Qed.

Lemma byte_sum i n : 0 <= n -> i / 256 ^ n = 256 * (i / 256 ^ (n + 1)) + byte i n.
Proof. apply div_step. Qed.

Lemma byte_sum0 i : i = 256 * (i / 256 ^ 1) + byte i 0.
Proof. pose proof (div_step i 0) as E. rewrite Z.div_1_r in E at 1. apply E. lia. Qed.

Lemma byte_sums i :
  i / 256 ^ 1 = 256 * (i / 256 ^ 2) + byte i 1 /\ i / 256 ^ 2 = 256 * (i / 256 ^ 3) + byte i 2 /\ i / 256 ^ 3 = 256 * (i / 256 ^ 4) + byte i 3 /\ i / 256 ^ 4 = 256 * (i / 256 ^ 5) + byte i 4 /\
  i / 256 ^ 5 = 256 * (i / 256 ^ 6) + byte i 5 /\ i / 256 ^ 6 = 256 * (i / 256 ^ 7) + byte i 6 /\ i / 256 ^ 7 = 256 * (i / 256 ^ 8) + byte i 7.
Proof. split_and!; by apply (byte_sum i). Qed.

Lemma be_bytes_list len i : len <= 8 -> be_bytes len (u64 i) = (fun j => byte i (len - 1 - j)) <$> seqZ 0 len.
Proof.
  intros Hl. unfold be_bytes. apply list_fmap_ext. intros n j Hj. apply lookup_seqZ in Hj as [-> ?]. apply byte_at_u64. lia.
Qed.

Lemma eight_bytes_put i rest : eight_bytes (be_bytes 8 (u64 i) ++ rest) = Some (u64 i).
Proof.
  replace (be_bytes 8 (u64 i)) with [byte i 7; byte i 6; byte i 5; byte i 4; byte i 3; byte i 2; byte i 1; byte i 0] by (symmetry; by apply be_bytes_list). cbn [app]. unfold eight_bytes. rewrite FOUR_BYTE_UINT_val by apply byte_u8. cbn [drop mbind option_bind]. rewrite FOUR_BYTE_UINT_val by apply byte_u8. cbn [mbind option_bind]. f_equal.
  rewrite Z.shiftl_mul_pow2 by lia. unfold u64.
  pose proof (byte_sum0 i). pose proof (byte_sums i).
  assert (Hb : forall k, 0 <= byte i k < 256) by (intros k; apply byte_u8).
  pose proof (Hb 0). pose proof (Hb 1). pose proof (Hb 2). pose proof (Hb 3). pose proof (Hb 4). pose proof (Hb 5). pose proof (Hb 6). pose proof (Hb 7).
  rewrite (Z.mod_small (_ * 2 ^ 32)) by lia. apply (Z.mod_unique_pos _ _ (i / 256 ^ 8)); lia.
Qed.
Lemma serialGet_int i rest m : is_i64 i ->
  sqlite3VdbeSerialGet (vdata (VInt i) ++ rest) (vtype (VInt i)) m = Some (set_u (U_i i) MEM_Int m).
Proof.
  intros Hi. unfold vdata, vtype. pose proof (byte_sum0 i) as S0. pose proof (byte_sums i) as (S1 & S2 & S3 & S4 & _).
  destruct (int_format_cases i) as [[-> | ->]|H|H|H|H|H|]; [done|done|..].
  - replace (be_bytes 1 (u64 i)) with [byte i 0] by (symmetry; by apply be_bytes_list). unfold sqlite3VdbeSerialGet. cbn [app]. rewrite ONE_BYTE_INT_val. cbn [mbind option_bind]. rewrite (i8_byte i 0) by lia. by rewrite Z.div_1_r.
  - replace (be_bytes 2 (u64 i)) with [byte i 1; byte i 0] by (symmetry; by apply be_bytes_list). unfold sqlite3VdbeSerialGet. cbn [app]. rewrite TWO_BYTE_INT_val by apply byte_u8. cbn [mbind option_bind]. rewrite (i8_byte i 1) by lia. do 3 f_equal. lia.
  - replace (be_bytes 3 (u64 i)) with [byte i 2; byte i 1; byte i 0] by (symmetry; by apply be_bytes_list). unfold sqlite3VdbeSerialGet. cbn [app]. rewrite THREE_BYTE_INT_val by apply byte_u8. cbn [mbind option_bind]. rewrite (i8_byte i 2) by lia. do 3 f_equal. lia.
  - replace (be_bytes 4 (u64 i)) with [byte i 3; byte i 2; byte i 1; byte i 0] by (symmetry; by apply be_bytes_list). unfold sqlite3VdbeSerialGet. cbn [app]. rewrite FOUR_BYTE_INT_val by apply byte_u8. cbn [mbind option_bind]. rewrite (i8_byte i 3) by lia. do 3 f_equal. lia.
  - replace (be_bytes 6 (u64 i)) with [byte i 5; byte i 4; byte i 3; byte i 2; byte i 1; byte i 0] by (symmetry; by apply be_bytes_list). unfold sqlite3VdbeSerialGet. cbn [app drop]. rewrite FOUR_BYTE_UINT_val by apply byte_u8. cbn [mbind option_bind]. rewrite TWO_BYTE_INT_val by apply byte_u8. cbn [mbind option_bind]. rewrite (i8_byte i 5) by lia. change (1 << 32) with (2 ^ 32). do 3 f_equal. lia.
  - unfold sqlite3VdbeSerialGet, serialGet. rewrite eight_bytes_put. cbn [mbind option_bind]. change (6 =? 6) with true. cbv iota. do 3 f_equal. unfold i64, swrap, u64, is_i64 in *. zdm.
Qed.
(** ** Fields *)

Lemma vdata_bytes v : value_ok v -> Forall is_u8 (vdata v).
Proof.
  destruct v as [|i|r|t|t]; cbn [value_ok vdata]; [done| | |tauto|tauto]; intros H; apply be_bytes_len; [|done]. destruct (int_format_cases i); lia.
Qed.

Lemma vtype_u32 v : value_ok v -> is_u32 (vtype v).
Proof.
  unfold is_u32. destruct v as [|i|r|t|t]; cbn [value_ok vtype]; intros H; [lia| |lia| |]; [destruct (int_format_cases i); lia|destruct H as [_ H]; pose proof (alen_nonneg t); lia..].
Qed.

(** The length of the data is that of the type. *)
Lemma vtype_len v : value_ok v -> sqlite3VdbeSerialTypeLen (vtype v) = Some (alen (vdata v)).
Proof.
  destruct v as [|i|r|t|t]; cbn [value_ok vtype vdata]; intros H; [done| |done| |].
  - destruct (int_format_cases i) as [[-> | ->]|?|?|?|?|?|]; [done|done|..]; unfold sqlite3VdbeSerialTypeLen; cbn -[be_bytes alen]; f_equal; symmetry; apply be_bytes_len; lia.
  - pose proof (alen_nonneg t). apply serial_len_str; zdm.
  - pose proof (alen_nonneg t). apply serial_len_str; zdm.
Qed.

Lemma field_get v rest m : value_ok v -> exists m', sqlite3VdbeSerialGet (vdata v ++ rest) (vtype v) m = Some m' /\ mem_is m' v /\ mem_enc m' = mem_enc m.
Proof.
  intros H. destruct v as [|i|r|t|t].
  - eexists. split; [done|]. done.
  - rewrite serialGet_int by done. eexists. split; [done|]. by split.
  - destruct H as [Hu Hn]. change (vtype (VReal r)) with 7. unfold sqlite3VdbeSerialGet, serialGet, vdata. pose proof (eight_bytes_put r rest) as E. unfold u64 in E. rewrite Z.mod_small in E by done. rewrite E. cbn [mbind option_bind]. change (7 =? 6) with false. cbv iota. rewrite Hn. eexists. split; [done|]. by split.
  - destruct H as [Hb Hl]. cbn [vtype vdata]. rewrite serialGet_str by (pose proof (alen_nonneg t); lia). eexists. split; [done|]. replace ((2 * alen t + 13) .& 1) with 1 by (rewrite (land_ones_mod _ 1) by lia; change (2 ^ 1) with 2; zdm). split; [|done]. split_and!; try done. split_and!; [cbn [mem_n]; zdm|done|by exists rest].
  - destruct H as [Hb Hl]. cbn [vtype vdata]. rewrite serialGet_str by (pose proof (alen_nonneg t); lia). eexists. split; [done|]. replace ((2 * alen t + 12) .& 1) with 0 by (rewrite (land_ones_mod _ 1) by lia; change (2 ^ 1) with 2; zdm). split; [|done]. split_and!; try done. left. split; [done|]. split_and!; [cbn [mem_n]; zdm|done|by exists rest].
Qed.
Lemma vtypes_cons v vs : vtypes (v :: vs) = vput (vtype v) ++ vtypes vs.
Proof. done. Qed.

Lemma vdatas_cons v vs : vdatas (v :: vs) = vdata v ++ vdatas vs.
Proof. done. Qed.

Lemma vtypes_bytes vs : Forall value_ok vs -> Forall is_u8 (vtypes vs).
Proof.
  induction 1 as [|v vs Hv _ IH]; [done|]. rewrite vtypes_cons. apply Forall_app. split; [|done]. by apply vput_len, vtype_u32.
Qed.

Lemma vdatas_bytes vs : Forall value_ok vs -> Forall is_u8 (vdatas vs).
Proof.
  induction 1 as [|v vs Hv _ IH]; [done|]. rewrite vdatas_cons. apply Forall_app. split; [|done]. by apply vdata_bytes.
Qed.

Definition cell_of (enc : Z) (m : Mem) (v : value) : Prop := mem_is m v /\ mem_enc m = enc.

Lemma unpack_fields aKey nKey szHdr m0 : 0 <= szHdr < 2 ^ 32 -> nKey < 2 ^ 32 ->
  forall vs n idx d B B', Forall value_ok vs -> (n <= length vs)%nat -> 0 <= idx -> 0 <= d ->
  drop (Z.to_nat idx) aKey = vtypes vs ++ B -> Forall is_u8 B -> drop (Z.to_nat d) aKey = vdatas vs ++ B' ->
  idx + alen (vtypes vs) <= szHdr -> d + alen (vdatas vs) <= nKey ->
  exists ms d', unpack_loop n aKey nKey szHdr idx d m0 = Some (ms, d') /\ Forall2 (cell_of (mem_enc m0)) ms (take n vs) /\ d' <= nKey.
Proof.
  intros Hs Hk vs. induction vs as [|v vs IH]; intros [|n] idx d B B' Hok Hn Hi Hd Ei HB Ed Li Ld.
  - cbn in Hn. exists [], d. split_and!; [done|constructor|]. change (alen (vdatas [])) with 0 in Ld. lia.
  - cbn in Hn. lia.
  - exists [], d. split_and!; [done|constructor|]. pose proof (alen_nonneg (vdatas (v :: vs))). lia.
  - apply Forall_cons in Hok as [Hv Hok]. rewrite vtypes_cons, <- app_assoc in Ei. rewrite vdatas_cons, <- app_assoc in Ed. rewrite vtypes_cons, alen_app in Li. rewrite vdatas_cons, alen_app in Ld.
    pose proof (vtype_u32 v Hv) as Ht. destruct (vput_len _ Ht) as (_ & Hl & _). pose proof (alen_nonneg (vtypes vs)). pose proof (alen_nonneg (vdatas vs)). pose proof (alen_nonneg (vdata v)).
    cbn [unpack_loop]. rewrite (proj2 (Z.ltb_lt idx szHdr)), (proj2 (Z.leb_le d nKey)) by lia. cbn [andb]. rewrite Ei, get_vput by (done || (apply Forall_app; split; [by apply vtypes_bytes|done])). cbn [mbind option_bind].
    rewrite Ed. destruct (field_get v (vdatas vs ++ B') m0 Hv) as (m & -> & Hm & He). cbn [mbind option_bind]. rewrite vtype_len by done. cbn [mbind option_bind]. unfold u32. rewrite !Z.mod_small by lia.
    destruct (IH n (idx + alen (vput (vtype v))) (d + alen (vdata v)) B B') as (ms & d' & E & HF & Hd'); [done|cbn in Hn; lia|lia|lia| |done| |lia|lia|].
    + rewrite Z2Nat.inj_add, <- drop_drop, Ei by lia. unfold alen. by rewrite Nat2Z.id, drop_app_length.
    + rewrite Z2Nat.inj_add, <- drop_drop, Ed by lia. unfold alen. by rewrite Nat2Z.id, drop_app_length.
    + rewrite E. cbn [mbind option_bind]. exists (m :: ms), d'. split_and!; [done| |done]. cbn [take]. constructor; [|done]. by split.
Qed.
(** ** Headers *)

Lemma varint_len_cases t : is_u32 t ->
  sqlite3VarintLen t = if t <? 2 ^ 7 then 1 else if t <? 2 ^ 14 then 2 else if t <? 2 ^ 21 then 3 else if t <? 2 ^ 28 then 4 else 5.
Proof.
  intros Ht. assert (Hu : is_u64 t) by (unfold is_u32, is_u64 in *; lia). unfold is_u32 in Ht. rewrite sqlite3VarintLen_exact by done. rewrite (proj2 (Z.ltb_lt t (2 ^ 63))) by lia.
  destruct (put_shape t Hu) as [(m & Hm & Hlt & Hge & ->)|[? _]]; [|lia]. cbn [fst].
  assert (Hge' : m = 0%nat \/ 128 ^ Z.of_nat m <= t) by done. clear Hge.
  do 5 (destruct m as [|m]; [change (128 ^ Z.of_nat _) with (128 ^ 1) in Hlt || idtac; repeat match goal with |- context [t <? ?k] => destruct (Z.ltb_spec t k) end; lia|]).
  destruct Hge' as [?|Hge]; [done|]. pose proof (Z.pow_le_mono_r 128 5 (Z.of_nat (S (S (S (S (S m))))))). lia.
Qed.

Lemma header_size_ok n : 0 <= n < 2 ^ 31 -> sqlite3VarintLen (header_size n) = header_size n - n /\ n < header_size n <= n + 5.
Proof.
  intros Hn. unfold header_size. destruct (Z.leb_spec n 126).
  - rewrite varint_len_cases by (unfold is_u32; lia). rewrite (proj2 (Z.ltb_lt (n + 1) (2 ^ 7))); lia.
  - rewrite (varint_len_cases n) by (unfold is_u32; lia). cbv zeta.
    destruct (Z.ltb_spec n (2 ^ 7)); [|destruct (Z.ltb_spec n (2 ^ 14)); [|destruct (Z.ltb_spec n (2 ^ 21)); [|destruct (Z.ltb_spec n (2 ^ 28))]]].
    all: rewrite (varint_len_cases (n + _)) by (unfold is_u32; lia).
    all: match goal with |- context [if ?a <? ?b then ?m + 1 else ?m] => destruct (Z.ltb_spec a b) end.
    all: rewrite ?(varint_len_cases (n + _ + 1)), ?(varint_len_cases (n + _)) by (unfold is_u32; lia).
    all: repeat match goal with |- context [?t <? ?k] => destruct (Z.ltb_spec t k) | H : context [?t <? ?k] |- _ => destruct (Z.ltb_spec t k) end; lia.
Qed.

Lemma record_header_len vs : Forall value_ok vs -> alen (vtypes vs) < 2 ^ 31 ->
  alen (vput (header_size (alen (vtypes vs)))) + alen (vtypes vs) = header_size (alen (vtypes vs)) /\ is_u32 (header_size (alen (vtypes vs))).
Proof.
  intros Hok Hl. pose proof (alen_nonneg (vtypes vs)). destruct (header_size_ok (alen (vtypes vs))) as [E H']; [lia|]. assert (Hu : is_u32 (header_size (alen (vtypes vs)))) by (unfold is_u32; lia). split; [|done]. rewrite (proj1 (vput_len _ Hu)). lia.
Qed.

(** A record, followed by any bytes, is read back. *)
Lemma unpack_record enc vs n pad : Forall value_ok vs -> (1 <= n <= length vs)%nat -> alen (record_bytes vs) < 2 ^ 31 -> Forall is_u8 pad ->
  exists ms, sqlite3VdbeRecordUnpack enc (alen (record_bytes vs)) (record_bytes vs ++ pad) n = Some ms /\ Forall2 (cell_of enc) ms (take n vs).
Proof.
  intros Hok Hn Hl Hpad. assert (Hlen : alen (record_bytes vs) = alen (vput (header_size (alen (vtypes vs)))) + alen (vtypes vs) + alen (vdatas vs)) by (unfold record_bytes, record_header; rewrite !alen_app; lia).
  pose proof (alen_nonneg (vdatas vs)). pose proof (alen_nonneg (vput (header_size (alen (vtypes vs))))). destruct (record_header_len vs Hok) as [Eh Hu]; [lia|]. set (h := header_size (alen (vtypes vs))) in *.
  assert (Hb : Forall is_u8 (vdatas vs ++ pad)) by (apply Forall_app; split; [by apply vdatas_bytes|done]).
  assert (Er : record_bytes vs ++ pad = vput h ++ vtypes vs ++ vdatas vs ++ pad) by (unfold record_bytes, record_header; by rewrite <- !app_assoc).
  unfold sqlite3VdbeRecordUnpack. rewrite Er, get_vput by (done || (apply Forall_app; split; [by apply vtypes_bytes|done])). cbn [mbind option_bind].
  destruct (unpack_fields (vput h ++ vtypes vs ++ vdatas vs ++ pad) (alen (record_bytes vs)) h (MkMem (U_i 0) [] 0 0 enc) ltac:(unfold is_u32 in Hu; lia) ltac:(lia) vs (Nat.max 1 n) (alen (vput h)) h (vdatas vs ++ pad) pad) as (ms & d & E & HF & Hd).
  all: try done; try lia.
  - unfold is_u32 in Hu; lia.
  - unfold alen. by rewrite Nat2Z.id, drop_app_length.
  - rewrite app_assoc. assert (Z.to_nat h = length (vput h ++ vtypes vs)) as -> by (rewrite length_app; unfold alen in Eh; lia). by rewrite drop_app_length.
  - rewrite E. cbn [mbind option_bind]. rewrite (Nat.max_r 1 n) in HF by lia. exists ms. split; [|done]. destruct (Z.gtb_spec d (alen (record_bytes vs))); [lia|]. done.
Qed.
End Format.
