(* ===== verification/RecMake.v ===== *)
(** * Records: made and read back

    OP_MakeRecord makes the record of the values of its cells, or is out of memory or too big;
    [sqlite3VdbeRecordUnpack] reads the values back. *)
From S2P Require Import Prelude Varint Bytes FileIO Ints Double VdbeMem VdbeRec RecSpec.

(** ** Buffers *)

Lemma write_mid A X bs C : alen X = alen bs -> mwrite (A ++ X ++ C) (alen A) bs = Some (A ++ bs ++ C).
Proof.
  intros E. unfold mwrite. pose proof (alen_nonneg A). pose proof (alen_nonneg C). rewrite (proj2 (Z.leb_le 0 _)), (proj2 (Z.leb_le _ _)) by (rewrite ?alen_app; lia). cbn [andb]. f_equal. unfold fwrite, fextend.
  rewrite !alen_app. replace (Z.to_nat (alen A - _)) with 0%nat by (pose proof (alen_nonneg X); lia). cbn [replicate]. rewrite app_nil_r. f_equal.
  - unfold alen. by rewrite Nat2Z.id, take_app_length.
  - f_equal. rewrite <- E, app_assoc, <- alen_app. unfold alen. by rewrite Nat2Z.id, drop_app_length.
Qed.

Lemma read_front s rest : mread (s ++ rest) 0 (alen s) = Some s.
Proof.
  rewrite mread_ok by (rewrite ?alen_app; pose proof (alen_nonneg s); pose proof (alen_nonneg rest); lia). f_equal. apply list_fbyte_eq; [by rewrite alen_fread by apply alen_nonneg|].
  rewrite alen_fread by apply alen_nonneg. intros i Hi. rewrite fbyte_fread by lia. unfold fbyte. rewrite Z.add_0_l. by rewrite aget_app_l by lia.
Qed.

Lemma split_at_len (X a b : list Z) : alen X = alen a + alen b -> exists X1 X2 : list Z, X = X1 ++ X2 /\ alen X1 = alen a /\ alen X2 = alen b.
Proof.
  intros E. exists (take (length a) X), (drop (length a) X). rewrite take_drop. unfold alen in *. rewrite length_take, length_drop. split_and!; [done|lia|lia].
Qed.

(** ** What a field writes *)

(** The cell and its serial type write the varint of the type and the bytes [bs]. *)
Definition field_writes (f : Mem * Z) (bs : list Z) : Prop :=
  forall A X B Y C, alen X = alen (vput f.2) -> alen Y = alen bs ->
  write_field (A ++ X ++ B ++ Y ++ C, alen A, alen (A ++ X ++ B)) f =
    Some (A ++ vput f.2 ++ B ++ bs ++ C, alen A + alen (vput f.2), alen (A ++ X ++ B) + alen bs).

Lemma write_bytes_at z A Y C m s rest : mem_z m = s ++ rest -> mem_n m = alen s -> alen Y = alen s -> z = A ++ Y ++ C ->
  write_bytes z (alen A) m = Some (A ++ s ++ C).
Proof. intros Ez En EY ->. unfold write_bytes. rewrite Ez, En, read_front. cbn [mbind option_bind]. by apply write_mid. Qed.

Lemma str_writes m t s rest : is_u32 t -> 12 <= t -> (s = [] \/ 14 <= t) -> mem_z m = s ++ rest -> mem_n m = alen s -> field_writes (m, t) s.
Proof.
  intros Ht H12 Hs Ez En A X B Y C EX EY. cbn [snd] in *. pose proof (alen_nonneg s). destruct (vput_len t Ht) as (_ & Hl & _ & H1 & Hone). unfold write_field. rewrite (proj2 (Z.leb_gt t 7)) by lia.
  assert (Hh : mwrite (A ++ X ++ B ++ Y ++ C) (alen A) (vput t) = Some (A ++ vput t ++ B ++ Y ++ C)) by (by apply write_mid).
  assert (Hp : write_bytes (A ++ vput t ++ B ++ Y ++ C) (alen (A ++ X ++ B)) m = Some (A ++ vput t ++ B ++ s ++ C)).
  { replace (alen (A ++ X ++ B)) with (alen (A ++ vput t ++ B)) by (rewrite !alen_app; lia). rewrite (write_bytes_at _ _ Y C m s rest) by (done || by rewrite <- !app_assoc). by rewrite <- !app_assoc. }
  assert (Hnil : mem_n m = 0 -> A ++ vput t ++ B ++ Y ++ C = A ++ vput t ++ B ++ s ++ C).
  { intros E0. rewrite E0 in En. destruct s; [|rewrite alen_cons in En; pose proof (alen_nonneg s); lia]. destruct Y; [done|rewrite alen_cons in EY; pose proof (alen_nonneg Y); change (alen []) with 0 in EY; lia]. }
  destruct (Z.ltb_spec t 128) as [Hlt|Hge].
  - rewrite <- (Hone Hlt), Hh. cbn [mbind option_bind]. rewrite (proj2 H1 Hlt). destruct (Z.gtb_spec (mem_n m) 0).
    + rewrite (proj2 (Z.geb_le t 14)) by (destruct Hs as [->|?]; [change (alen []) with 0 in En; lia|lia]). cbn [andb]. rewrite Hp. cbn [mbind option_bind]. by rewrite En.
    + rewrite andb_false_r. rewrite Hnil by lia. do 2 f_equal. lia.
  - pose proof (proj2 (put_bytes t ltac:(unfold is_u32, is_u64 in *; lia))) as E'. destruct (sqlite3PutVarint t) as [n bs] eqn:E. unfold vput in *. rewrite E in *. cbn [fst snd] in *. change (Z.of_nat (length bs)) with (alen bs) in E'. subst n. rewrite Hh. cbn [mbind option_bind].
    destruct (Z.eqb_spec (mem_n m) 0) as [E0|]; cbn [negb].
    + rewrite Hnil by done. do 2 f_equal. lia.
    + rewrite Hp. cbn [mbind option_bind]. by rewrite En.
Qed.

Lemma short_writes m t bs (k : list Z -> Z -> option (list Z)) : 0 <= t < 128 ->
  (forall z zHdr zPayload, write_field (z, zHdr, zPayload) (m, t) = z ← mwrite z zHdr [t]; z ← k z zPayload; Some (z, zHdr + 1, zPayload + alen bs)) ->
  (forall A Y C, alen Y = alen bs -> k (A ++ Y ++ C) (alen A) = Some (A ++ bs ++ C)) -> field_writes (m, t) bs.
Proof.
  intros Ht E Hk A X B Y C EX EY. cbn [snd] in *. assert (Hu : is_u32 t) by (unfold is_u32; lia). destruct (vput_len t Hu) as (_ & Hl & _ & H1 & Hone). rewrite (Hone (proj2 Ht)) in *.
  rewrite E, write_mid by done. cbn [mbind option_bind]. specialize (Hk (A ++ [t] ++ B) Y C EY). replace (alen (A ++ X ++ B)) with (alen (A ++ [t] ++ B)) by (rewrite !alen_app; lia).
  rewrite <- !app_assoc in Hk. rewrite Hk. done.
Qed.

Lemma empty_writes m t : (t = 0 \/ 8 <= t < 14) -> field_writes (m, t) [].
Proof.
  intros Ht. apply (short_writes m t [] (fun z _ => Some z)); [lia| |].
  - intros z zHdr zPayload. unfold write_field. change (alen []) with 0. rewrite Z.add_0_r. destruct Ht as [->|Ht]; [done|]. rewrite (proj2 (Z.leb_gt t 7)), (proj2 (Z.ltb_lt t 128)) by lia.
    destruct (Z.geb_spec t 14); [lia|]. cbn [andb]. done.
  - intros A Y C EY. destruct Y; [done|]. rewrite alen_cons in EY. pose proof (alen_nonneg Y). change (alen []) with 0 in EY. lia.
Qed.

Lemma num_writes m t len v : 1 <= t <= 7 -> aget sqlite3SmallTypeSizes t = Some len -> 0 <= len ->
  (if t =? 7 then u_r m else i ← u_i m; Some (u64 i)) = Some v -> field_writes (m, t) (be_bytes len v).
Proof.
  intros Ht El Hl Ev. destruct (be_bytes_len len v Hl) as [Eb _]. apply (short_writes m t (be_bytes len v) (fun z p => mwrite z p (be_bytes len v))); [lia| |].
  - intros z zHdr zPayload. unfold write_field. rewrite (proj2 (Z.leb_le t 7)), (proj2 (Z.eqb_neq t 0)) by lia. rewrite Ev, El, Eb. done.
  - intros A Y C EY. by apply write_mid.
Qed.

(** ** Sizes *)

Section Make.
Context (fmt : Z).

(** The value that is stored: integers of type REAL that take 8 bytes become floating point numbers. *)
Definition as_stored (f : Z) (v : value) : value :=
  match v with
  | VInt i => if has f MEM_IntReal && ((int_format fmt i).1 =? 6) then VReal (double_of_i64 i) else v
  | _ => v
  end.

(** No cell is a column that does not change. *)
Definition cell_stores (m : Mem) (v : value) : Prop :=
  (has (mem_flags m) MEM_Null = true -> has (mem_flags m) MEM_Zero = false) /\ exists w, mem_is m w /\ v = as_stored (mem_flags m) w.

(** An integer of type REAL that would take 8 bytes *)
Lemma int_serial_type_real i b : is_i64 i -> int_serial_type fmt i b = if b && ((int_format fmt i).1 =? 6) then (7, 8) else int_format fmt i.
Proof.
  intros Hi. rewrite <- int_serial_type_format by done. unfold int_serial_type. set (uu := if i <? 0 then _ else _). assert (Hn : 0 <= uu).
  { subst uu. destruct (Z.ltb_spec i 0); [|done]. apply Z.mod_pos_bound. lia. }
  destruct (uu <=? 127); [destruct (_ && _); cbn [fst]; [rewrite (proj2 (Z.eqb_neq (8 + uu) 6)) by lia|]; by rewrite andb_false_r|].
  repeat match goal with |- context [uu <=? ?k] => destruct (uu <=? k); [by destruct b|] end. by destruct b.
Qed.

(** A field is sized: its cell writes [bs], and [k] zeros are left out. *)
Definition sized (sz sz' : Sizes) (v : value) (f : Mem * Z) (bs : list Z) (k : Z) : Prop :=
  f.2 = vtype fmt v /\ field_writes f bs /\ vdata fmt v = bs ++ replicate (Z.to_nat k) 0 /\ 0 <= k /\ (nData sz = 0 \/ k = 0) /\
  sz' = MkSizes (nHdr sz + alen (vput (vtype fmt v))) (nData sz + alen bs) (nZero sz + k).

Definition sized_or (al al' : alloc) (sz : Sizes) (v : value) (r : option (Mem * Z * Sizes)) : Prop :=
  (false ∈ al' -> false ∈ al) /\
  match r with None => false ∈ al | Some (m, t, sz') => exists bs k, sized sz sz' v (m, t) bs k end.

Lemma size_int m sz al i : mem_is m (VInt i) -> value_ok (as_stored (mem_flags m) (VInt i)) ->
  exists r al', size_of_field fmt al m sz = Some (r, al') /\ sized_or al al' sz (as_stored (mem_flags m) (VInt i)) r.
Proof.
  intros (Hn & Hi & _ & Hu & Hr) Hok. unfold size_of_field. rewrite Hn, Hi. unfold u_i. rewrite Hu. cbn [mbind option_bind]. unfold as_stored in *.
  rewrite int_serial_type_real by done. destruct (has (mem_flags m) MEM_IntReal && ((int_format fmt i).1 =? 6)).
  - do 2 eexists. split; [done|]. split; [done|]. exists (be_bytes 8 (double_of_i64 i)), 0. split_and!; [done| |by rewrite app_nil_r|lia|by right|].
    + by apply num_writes.
    + cbn [vtype]. destruct (be_bytes_len 8 (double_of_i64 i)) as [-> _]; [lia|]. change (alen (vput 7)) with 1. by rewrite Z.add_0_r.
  - pose proof (vtype_u32 fmt (VInt i) Hr) as Ht. pose proof (int_format_cases fmt i) as Hc. cbn [vtype] in Ht. destruct (int_format fmt i) as [t len] eqn:Ei. cbn [fst snd] in *. rewrite (proj2 (Z.eqb_neq t 7)) by (destruct Hc; lia).
    do 2 eexists. split; [done|]. split; [done|]. exists (be_bytes len (u64 i)), 0. assert (Hl : 0 <= len) by (destruct Hc; lia). assert (Hv : alen (vput t) = 1) by (apply vput_len; [done|destruct Hc; lia]).
    split_and!; cbn [vtype vdata fst snd]; rewrite ?Ei; cbn [fst snd]; [done| |by rewrite app_nil_r|lia|by right|by rewrite (proj1 (be_bytes_len len _ Hl)), Hv, Z.add_0_r].
    clear Ei. destruct Hc as [Hi01|?|?|?|?|?|]; [apply empty_writes; lia|..]; apply num_writes; try done; try lia; cbn; unfold u_i; by rewrite Hu.
Qed.
Lemma size_str m sz al s rest (str : bool) : let v := if str then VText s else VBlob s in
  value_ok v -> has (mem_flags m) MEM_Null = false -> has (mem_flags m) (MEM_Int .| MEM_Real .| MEM_IntReal) = false -> has (mem_flags m) MEM_Str = str -> has (mem_flags m) MEM_Zero = false ->
  mem_n m = alen s -> mem_z m = s ++ rest ->
  exists r al', size_of_field fmt al m sz = Some (r, al') /\ sized_or al al' sz v r.
Proof.
  intros v Hok Hn Hnum Hs Hz En Ez. pose proof (alen_nonneg s). rewrite !has_mask in Hnum. apply orb_false_iff in Hnum as [Hnum H3]. apply orb_false_iff in Hnum as [H1 H2].
  assert (Hb : alen s < 2 ^ 31 - 7) by (subst v; destruct str; apply Hok). assert (Et : u32 (mem_n m * 2 + 12 + (if has (mem_flags m) MEM_Str then 1 else 0)) = vtype fmt v) by (rewrite Hs, En; unfold u32; subst v; rewrite Z.mod_small by (destruct str; lia); destruct str; cbn [vtype]; lia).
  pose proof (vtype_u32 fmt v Hok) as Hu. unfold size_of_field. rewrite Hn, has_mask, H1, H3, H2, Hz, Et. cbn [orb]. do 2 eexists. split; [done|]. split; [done|]. exists s, 0. split_and!.
  - done.
  - eapply str_writes; [done|subst v; destruct str; cbn [vtype]; lia| |done|done]. destruct s as [|x s']; [by left|]. right. rewrite alen_cons in *. pose proof (alen_nonneg s'). subst v; destruct str; cbn [vtype]; rewrite alen_cons; lia.
  - cbn [Z.to_nat replicate]. rewrite app_nil_r. subst v. by destruct str.
  - lia.
  - by right.
  - rewrite (proj1 (vput_len _ Hu)), En, Z.add_0_r. done.
Qed.

Lemma size_zeros m sz al k : value_ok (VBlob (replicate k 0)) -> has (mem_flags m) MEM_Null = false -> has (mem_flags m) (MEM_Int .| MEM_Real .| MEM_IntReal) = false -> has (mem_flags m) MEM_Str = false -> has (mem_flags m) MEM_Zero = true ->
  mem_n m = 0 -> mem_u m = U_nZero (Z.of_nat k) ->
  exists r al', size_of_field fmt al m sz = Some (r, al') /\ sized_or al al' sz (VBlob (replicate k 0)) r.
Proof.
  intros Hok Hn Hnum Hs Hz En Eu. rewrite !has_mask in Hnum. apply orb_false_iff in Hnum as [Hnum H3]. apply orb_false_iff in Hnum as [H1 H2].
  assert (Ek : alen (replicate k 0) = Z.of_nat k) by (unfold alen; by rewrite length_replicate). assert (Hb : Z.of_nat k < 2 ^ 31 - 7) by (rewrite <- Ek; apply Hok).
  pose proof (vtype_u32 fmt _ Hok) as Hu. set (t := vtype fmt (VBlob (replicate k 0))) in *. assert (Et : u32 (u32 (0 * 2 + 12 + 0) + Z.of_nat k * 2) = t) by (subst t; cbn [vtype]; rewrite Ek; unfold u32; rewrite (Z.mod_small (0 * 2 + 12 + 0)), Z.mod_small by lia; lia).
  assert (H12 : 12 <= t) by (subst t; cbn [vtype]; lia).
  assert (Hk14 : replicate k 0 = [] \/ 14 <= t) by (destruct k; [by left|right; subst t; cbn [vtype]; lia]).
  unfold size_of_field. rewrite Hn, has_mask, H1, H3, H2, Hz, Hs, En. unfold u_nZero at 1. rewrite Eu. cbn [orb mbind option_bind]. rewrite Et.
  destruct (Z.eqb_spec (nData sz) 0) as [E0|Hne]; cbn [negb].
  { do 2 eexists. split; [done|]. split; [done|]. exists [], (Z.of_nat k). split_and!; [done|by eapply (str_writes _ _ [] (mem_z m)); [done|done|left| |]|by rewrite Nat2Z.id|lia|by left|]. fold t; by rewrite (proj1 (vput_len _ Hu)). }
  unfold sqlite3VdbeMemExpandBlob, u_nZero. rewrite Eu, En. cbn [mbind option_bind]. rewrite Z.add_0_l. change (Z.to_nat 0) with 0%nat. cbn [take app].
  assert (Hw : forall m', mem_z m' = replicate k 0 ++ drop k (mem_z m') -> mem_n m' = Z.of_nat k -> sized_or al al sz (VBlob (replicate k 0)) (Some (m', t, MkSizes (nHdr sz + sqlite3VarintLen t) (nData sz + Z.of_nat k) (nZero sz)))).
  { intros m' Ez' En'. split; [done|]. exists (replicate k 0), 0. split_and!; [done| |by rewrite app_nil_r|lia|by right|fold t; by rewrite (proj1 (vput_len _ Hu)), Ek, Z.add_0_r]. eapply str_writes; [done|done|done|exact Ez'|by rewrite Ek]. }
  destruct (_ && _) eqn:E.
  { apply andb_true_iff in E as [E _]. apply Z.leb_le in E. assert (k = 0%nat) as -> by lia. do 2 eexists. split; [done|]. by apply Hw. }
  destruct (malloc al) as [[] al'] eqn:Em; cbn [mbind option_bind]; do 2 eexists; (split; [done|]).
  - rewrite Nat2Z.id. destruct (Hw (MkMem (U_nZero (Z.of_nat k)) (replicate k 0) (Z.of_nat k) (mem_flags m .& Z.lnot (MEM_Zero .| MEM_Term)) (mem_enc m))) as [_ HX]; [cbn [mem_z]; by rewrite drop_replicate, Nat.sub_diag, app_nil_r|done|]. split; [|done].
    destruct al; cbn in Em; simplify_eq; [done|]. intros ?. by right.
  - destruct al; cbn in Em; simplify_eq. split; [by right|by left].
Qed.
Lemma size_field_ok m sz al v : cell_stores m v -> value_ok v -> exists r al', size_of_field fmt al m sz = Some (r, al') /\ sized_or al al' sz v r.
Proof.
  intros [Hz (w & Hw & ->)] Hok. destruct w as [|i|r|t|t].
  - cbn in Hw. unfold size_of_field. rewrite Hw, (Hz Hw). do 2 eexists. split; [done|]. split; [done|]. exists [], 0. split_and!; [done|apply empty_writes; by left|done|lia|by right|]. change (alen (vput (vtype fmt _))) with 1. change (alen []) with 0. by rewrite !Z.add_0_r.
  - by apply size_int.
  - destruct Hw as (Hn & Hi & Hr & Hu & _). unfold size_of_field. rewrite Hn, Hi, Hr. do 2 eexists. split; [done|]. split; [done|]. exists (be_bytes 8 r), 0. split_and!; [done| |by rewrite app_nil_r|lia|by right|].
    + apply num_writes; [lia|done|lia|]. cbn. unfold u_r. by rewrite Hu.
    + cbn [vtype as_stored]. destruct (be_bytes_len 8 r) as [-> _]; [lia|]. change (alen (vput 7)) with 1. by rewrite Z.add_0_r.
  - destruct Hw as (Hn & Hnum & Hs & Hz' & En & _ & rest & Ez). by eapply (size_str m sz al t rest true).
  - destruct Hw as (Hn & Hnum & Hs & [[Hz' (En & _ & rest & Ez)]|[Hz' (En & k & Eu & ->)]]); [by eapply (size_str m sz al t rest false)|by apply size_zeros].
Qed.

(** All the fields: they write [bss], and the zeros left out are at the end. *)
Definition all_sized (vs : list value) (fs : list (Mem * Z)) (sz : Sizes) : Prop :=
  exists bss, Forall2 field_writes fs bss /\ snd <$> fs = vtype fmt <$> vs /\ 0 <= nZero sz /\
    vdatas fmt vs = concat bss ++ replicate (Z.to_nat (nZero sz)) 0 /\ nHdr sz = alen (vtypes fmt vs) /\ nData sz = alen (concat bss).

Lemma all_sized_cons v vs f fs sz sz' bs k : all_sized vs fs sz -> sized sz sz' v f bs k -> all_sized (v :: vs) (f :: fs) sz'.
Proof.
  intros (bss & HF & Et & Hz & Ed & Eh & En) (Ef & Hw & Ev & Hk & H0 & ->). exists (bs :: bss). cbn [nZero nHdr nData]. split_and!.
  - by constructor.
  - rewrite !fmap_cons. by rewrite Ef, Et.
  - lia.
  - rewrite vdatas_cons, Ev, Ed. cbn [concat]. rewrite Z2Nat.inj_add, replicate_add, <- !app_assoc by lia. f_equal. destruct H0 as [H0|H0].
    + rewrite H0 in En. destruct (concat bss) as [|x l]; [|rewrite alen_cons in En; pose proof (alen_nonneg l); lia]. cbn [app]. rewrite <- !replicate_add. f_equal. lia.
    + subst k. cbn [Z.to_nat replicate app]. by rewrite app_nil_r.
  - rewrite vtypes_cons, alen_app, Eh. lia.
  - cbn [concat]. rewrite alen_app, En. lia.
Qed.

Lemma size_fields_ok ms vs : Forall2 cell_stores ms vs -> Forall value_ok vs -> forall al, exists r al', size_fields fmt al ms = Some (r, al') /\ (false ∈ al' -> false ∈ al) /\
  match r with None => false ∈ al | Some (fs, sz) => all_sized vs fs sz end.
Proof.
  induction 1 as [|m v ms vs Hm _ IH]; intros Hok al.
  - exists (Some ([], MkSizes 0 0 0)), al. split_and!; [done|done|]. exists []. by split_and!.
  - apply Forall_cons in Hok as [Hv Hok]. destruct (IH Hok al) as (r & al1 & E & Hal & Hr). cbn [size_fields]. rewrite E. cbn [mbind option_bind]. destruct r as [[fs sz]|]; [|by exists None, al1].
    destruct (size_field_ok m sz al1 v Hm Hv) as (r & al2 & E2 & Hal2 & Hr2). rewrite E2. cbn [mbind option_bind]. destruct r as [[[m' t] sz']|]; [|exists None, al2; split_and!; [done|tauto|tauto]]. destruct Hr2 as (bs & k & Hs).
    do 2 eexists. split; [done|]. split; [tauto|]. by eapply all_sized_cons.
Qed.

Lemma write_fields_ok fs bss : Forall2 field_writes fs bss -> forall A X B Y C, alen X = alen (concat (map vput (snd <$> fs))) -> alen Y = alen (concat bss) ->
  exists p q, write_fields (A ++ X ++ B ++ Y ++ C, alen A, alen (A ++ X ++ B)) fs = Some (A ++ concat (map vput (snd <$> fs)) ++ B ++ concat bss ++ C, p, q).
Proof.
  induction 1 as [|f bs fs bss Hf _ IH]; intros A X B Y C EX EY.
  - assert (nil : forall l : list Z, alen l = 0 -> l = []) by (intros [|x l]; [done|rewrite alen_cons; pose proof (alen_nonneg l); lia]). rewrite (nil X EX), (nil Y EY). do 2 eexists. done.
  - cbn [fmap list_fmap map concat] in *. rewrite alen_app in EX, EY. destruct (split_at_len X _ _ EX) as (X1 & X2 & -> & EX1 & EX2). destruct (split_at_len Y _ _ EY) as (Y1 & Y2 & -> & EY1 & EY2).
    cbn [write_fields]. rewrite <- !app_assoc. specialize (Hf A X1 (X2 ++ B) Y1 (Y2 ++ C) EX1 EY1). rewrite <- !app_assoc in Hf. rewrite Hf. cbn [mbind option_bind].
    destruct (IH (A ++ vput f.2) X2 (B ++ bs) Y2 C EX2 EY2) as (p & q & E). rewrite <- !app_assoc in E. exists p, q. rewrite <- E. f_equal. f_equal; [f_equal; by rewrite alen_app|]. rewrite !alen_app. lia.
Qed.
(** A cell that holds the bytes of a record: zeros at its end may be left out. *)
Definition holds_record (p : Mem) (bs : list Z) : Prop :=
  exists s k rest, mem_z p = s ++ rest /\ mem_n p = alen s /\ bs = s ++ replicate k 0 /\
    if decide (k = 0%nat) then mem_flags p = MEM_Blob else mem_flags p = MEM_Blob .| MEM_Zero /\ mem_u p = U_nZero (Z.of_nat k).

Lemma put_header z h H : is_u32 h -> alen H = alen (vput h) ->
  write_szHdr (H ++ z) h = Some (vput h ++ z, alen (vput h)).
Proof.
  intros Hh EH. destruct (vput_len h Hh) as (_ & _ & _ & H1 & Hone). pose proof (write_mid [] H (vput h) z EH) as E. cbn [app] in E. change (alen []) with 0 in E. unfold write_szHdr. destruct (Z.ltb_spec h 128) as [Hlt|Hge].
  - rewrite (Hone Hlt) in *. rewrite E. done.
  - pose proof (proj2 (put_bytes h ltac:(unfold is_u32, is_u64 in *; lia))) as E'. unfold vput in *. destruct (sqlite3PutVarint h) as [n bs]. cbn [fst snd] in *. rewrite E. cbn [mbind option_bind]. by rewrite <- E'.
Qed.

Lemma write_record fs bss vs h z : Forall2 field_writes fs bss -> snd <$> fs = vtype fmt <$> vs -> is_u32 h -> h = alen (vput h) + alen (vtypes fmt vs) -> h + alen (concat bss) <= alen z ->
  exists rest p q, ('(z, zHdr) ← write_szHdr z h; write_fields (z, zHdr, h) fs) = Some (vput h ++ vtypes fmt vs ++ concat bss ++ rest, p, q).
Proof.
  intros HF Et Hh Eh Hz. pose proof (alen_nonneg (concat bss)).
  set (w := vput h ++ vtypes fmt vs ++ concat bss). assert (Ez : alen z = alen w + alen (drop (length w) z)) by (subst w; rewrite !alen_app; unfold alen in *; rewrite length_drop, !length_app; lia).
  destruct (split_at_len z _ _ Ez) as (z1 & C & -> & E1 & _). subst w. rewrite alen_app in E1. destruct (split_at_len z1 (vput h) (vtypes fmt vs ++ concat bss) E1) as (Hd & z2 & -> & EH & E2). rewrite alen_app in E2. destruct (split_at_len z2 _ _ E2) as (X & Y & -> & EX & EY).
  rewrite <- !app_assoc. rewrite put_header by done. cbn [mbind option_bind]. assert (Ev : concat (map vput (snd <$> fs)) = vtypes fmt vs) by (rewrite Et; unfold vtypes; change (vtype fmt <$> vs) with (map (vtype fmt) vs); by rewrite map_map).
  destruct (write_fields_ok fs bss HF (vput h) X [] Y C) as (p & q & E); [by rewrite Ev|done|]. exists C, p, q. rewrite Ev in E. cbn [app] in E. rewrite app_nil_r, alen_app, EX, <- Eh in E. exact E.
Qed.

(** C18. OP_MakeRecord and [sqlite3VdbeRecordUnpack] agree on records.  For cells that hold the values [vs] (NULL, integers, floating point numbers, text, blobs and blobs of zeros), OP_MakeRecord always
    ends: out of memory only when an allocation fails, too big only when the record is longer than the limit, and else with a cell that holds the record of [vs]: the size of the header, which counts
    itself, the serial types and the data, each as small as the format has it, where zeros at the end are only counted.  [sqlite3VdbeRecordUnpack] of that record, whatever bytes follow it, gives for
    each number of fields cells with the first of these values. *)
Theorem OP_MakeRecord_roundtrip limit al ms vs pOut zMalloc enc :
  Forall2 cell_stores ms vs -> Forall value_ok vs -> alen (record_bytes fmt vs) < 2 ^ 31 ->
  exists r, OP_MakeRecord fmt limit al ms pOut zMalloc = Some r /\
  match r with
  | no_mem => false ∈ al
  | too_big => limit < alen (record_bytes fmt vs)
  | Made _ p =>
      holds_record p (record_bytes fmt vs) /\ header_size (alen (vtypes fmt vs)) = alen (record_header fmt vs) /\
      forall n pad, (1 <= n <= length vs)%nat -> Forall is_u8 pad ->
      exists ms', sqlite3VdbeRecordUnpack enc (alen (record_bytes fmt vs)) (record_bytes fmt vs ++ pad) n = Some ms' /\ Forall2 (cell_of enc) ms' (take n vs)
  end.
Proof.
  intros Hst Hok Hlen. destruct (size_fields_ok ms vs Hst Hok al) as (r & al' & E & Hal & Hr). unfold OP_MakeRecord. rewrite E. cbn [mbind option_bind]. destruct r as [[fs sz]|]; [|by eexists].
  destruct Hr as (bss & HF & Et & Hz0 & Ed & Eh & En). rewrite Eh, En. pose proof (alen_nonneg (concat bss)).
  assert (Hrec : record_bytes fmt vs = vput (header_size (alen (vtypes fmt vs))) ++ vtypes fmt vs ++ concat bss ++ replicate (Z.to_nat (nZero sz)) 0) by (unfold record_bytes, record_header; by rewrite <- app_assoc, Ed).
  assert (Hrl : alen (record_bytes fmt vs) = alen (vput (header_size (alen (vtypes fmt vs)))) + alen (vtypes fmt vs) + alen (concat bss) + nZero sz) by (rewrite Hrec, !alen_app; replace (alen (replicate _ 0)) with (nZero sz) by (unfold alen; rewrite length_replicate; lia); lia).
  pose proof (alen_nonneg (vput (header_size (alen (vtypes fmt vs))))). destruct (record_header_len fmt vs Hok) as [Ehs Hu]; [lia|]. set (h := header_size (alen (vtypes fmt vs))) in *.
  set (fits := h + alen (concat bss) + nZero sz <=? alen zMalloc). destruct (negb fits && _) eqn:E1.
  { eexists. split; [done|]. cbv beta iota. apply andb_true_iff in E1 as [_ E1]. rewrite Z.gtb_lt in E1. lia. }
  destruct (negb fits && negb (malloc al').1) eqn:E2.
  { eexists. split; [done|]. cbv beta iota. apply Hal. apply andb_true_iff in E2 as [_ E2]. destruct al' as [|[] al']; try done. by left. }
  destruct (write_record fs bss vs h (if fits then zMalloc else replicate (Z.to_nat (h + alen (concat bss))) 0) HF Et Hu (eq_sym Ehs)) as (rest & p & q & Ew).
  { subst fits. destruct (Z.leb_spec (h + alen (concat bss) + nZero sz) (alen zMalloc)); [lia|]. replace (alen (replicate _ 0)) with (h + alen (concat bss)); [lia|]. unfold alen. rewrite length_replicate. unfold is_u32, alen in *. lia. }
  apply bind_Some in Ew as ([z zHdr] & -> & Ew). cbn [mbind option_bind]. rewrite Ew. cbn [mbind option_bind]. eexists. split; [done|]. cbv beta iota. split; [|split; [unfold record_header; fold h; rewrite alen_app; lia|intros n pad Hn Hpad; by apply unpack_record]].
  exists (vput h ++ vtypes fmt vs ++ concat bss), (Z.to_nat (nZero sz)), rest. cbn [mem_z mem_n mem_flags mem_u]. split_and!; [by rewrite <- !app_assoc|rewrite !alen_app; lia|by rewrite Hrec, <- !app_assoc|].
  destruct (decide _) as [E0|Hne]; [by rewrite (proj2 (Z.eqb_eq (nZero sz) 0)) by lia|]. rewrite (proj2 (Z.eqb_neq (nZero sz) 0)), Z2Nat.id by lia. done.
Qed.
End Make.

Lemma OP_MakeRecord_roundtrip_witness :
  let ms := [MkMem (U_i 0) [] 0 MEM_Null 1; MkMem (U_i 1) [] 0 MEM_Int 1; MkMem (U_i (-129)) [] 0 MEM_Int 1; MkMem (U_i 0) [97; 98; 0] 2 MEM_Str 1; MkMem (U_nZero 3) [] 0 (MEM_Blob .| MEM_Zero) 1] in
  let vs := [VNull; VInt 1; VInt (-129); VText [97; 98]; VBlob [0; 0; 0]] in
  exists r, OP_MakeRecord 4 1000 [] ms (MkMem (U_i 0) [] 0 0 1) [] = Some r /\
  match r with
  | no_mem => false ∈ []
  | too_big => 1000 < alen (record_bytes 4 vs)
  | Made _ p =>
      holds_record p (record_bytes 4 vs) /\ header_size (alen (vtypes 4 vs)) = alen (record_header 4 vs) /\
      forall n pad, (1 <= n <= length vs)%nat -> Forall is_u8 pad ->
      exists ms', sqlite3VdbeRecordUnpack 1 (alen (record_bytes 4 vs)) (record_bytes 4 vs ++ pad) n = Some ms' /\ Forall2 (cell_of 1) ms' (take n vs)
  end.
Proof.
  intros ms vs. apply (OP_MakeRecord_roundtrip 4 1000 [] ms vs (MkMem (U_i 0) [] 0 0 1) [] 1).
  - unfold ms, vs. constructor; [split; [done|by exists VNull]|]. constructor; [split; [done|exists (VInt 1); split; [|done]; by split_and!]|]. constructor; [split; [done|exists (VInt (-129)); split; [|done]; by split_and!]|].
    constructor; [split; [done|exists (VText [97; 98]); split; [|done]; split_and!; try done; split_and!; [done|repeat constructor; by vm_compute|by exists [0]]]|].
    constructor; [split; [done|exists (VBlob [0; 0; 0]); split; [|done]; split_and!; try done; right; split_and!; [done|done|by exists 3%nat]]|]. constructor.
  - unfold vs. repeat constructor; unfold is_i64; lia.
  - vm_compute. reflexivity.
Defined.
