(* ===== verification/VdbeCmp.v ===== *)
(** * Comparison of records ([src/vdbeaux.c])

    Searches in indexes compare the records of a B-tree with an unpacked key:
    [sqlite3VdbeRecordCompareWithSkip], and the faster [vdbeRecordCompareInt] and
    [vdbeRecordCompareString] that [sqlite3VdbeFindCompare] chooses by the first field
    of the key. *)
From S2P Require Import Prelude Varint Bytes FileIO Ints Double VdbeMem VdbeRec.

(** ** Keys *)

Definition KEYINFO_ORDER_DESC : Z := 0x01.
Definition KEYINFO_ORDER_BIGNULL : Z := 0x02.

(** [src/sqliteLimit.h] *)
Definition SQLITE_MAX_LENGTH : Z := 1000000000.

Record KeyInfo : Type := MkKeyInfo { ki_enc : Z; ki_nAllField : Z; ki_aSortFlags : list Z; ki_aColl : list (option CollSeq) }.

(** The union [u]: [z] or [i] of the first cell *)
Inductive up_cache : Type := cache_z (z : list Z) | cache_i (i : Z).

Record UnpackedRecord : Type := MkUnpacked {
  up_pKeyInfo : KeyInfo;
  up_aMem : list Mem;
  up_u : up_cache;
  up_n : Z;
  up_nField : Z;
  up_default_rc : Z;
  up_errCode : Z;
  up_r1 : Z;
  up_r2 : Z;
  up_eqSeen : bool
}.

Definition set_errCode (e : Z) (p : UnpackedRecord) : UnpackedRecord :=
  MkUnpacked (up_pKeyInfo p) (up_aMem p) (up_u p) (up_n p) (up_nField p) (up_default_rc p) e (up_r1 p) (up_r2 p) (up_eqSeen p).
Definition set_eqSeen (p : UnpackedRecord) : UnpackedRecord :=
  MkUnpacked (up_pKeyInfo p) (up_aMem p) (up_u p) (up_n p) (up_nField p) (up_default_rc p) (up_errCode p) (up_r1 p) (up_r2 p) true.
Definition set_r1r2 (r1 r2 : Z) (p : UnpackedRecord) : UnpackedRecord :=
  MkUnpacked (up_pKeyInfo p) (up_aMem p) (up_u p) (up_n p) (up_nField p) (up_default_rc p) (up_errCode p) r1 r2 (up_eqSeen p).
Definition set_cache (u : up_cache) (n : Z) (p : UnpackedRecord) : UnpackedRecord :=
  MkUnpacked (up_pKeyInfo p) (up_aMem p) u n (up_nField p) (up_default_rc p) (up_errCode p) (up_r1 p) (up_r2 p) (up_eqSeen p).

(** The bytes from an offset on *)
Definition at_off (p : list Z) (off : Z) : list Z := drop (Z.to_nat off) p.

Definition vdbeRecordDecodeInt (serial_type : Z) (aKey : list Z) : option Z :=
  match serial_type with
  | 0 | 1 => ONE_BYTE_INT aKey
  | 2 => TWO_BYTE_INT aKey
  | 3 => THREE_BYTE_INT aKey
  | 4 => y ← FOUR_BYTE_UINT aKey; Some (i32 y)
  | 5 => y ← FOUR_BYTE_UINT (drop 2 aKey); x ← TWO_BYTE_INT aKey; Some (y + (1 << 32) * x)
  | 6 => x ← FOUR_BYTE_UINT aKey; y ← FOUR_BYTE_UINT (drop 4 aKey); Some (i64 (u64 (x << 32) .| y))
  | _ => Some (serial_type - 8)
  end.

(** ** One field *)

Section Compare.
Context (sqlite3ValueText : Z -> Z -> list Z -> option (list Z)).

(** [mem1], before anything is written to it *)
Definition mem1 : Mem := MkMem (U_i 0) [] 0 0 0.

(** A return with SQLITE_CORRUPT, or [rc], the serial type and [errCode] *)
Inductive field_cmp : Type := field_corrupt | field_rc (rc serial_type errCode : Z).

Definition cmp3 (a b : Z) : Z := if a <? b then -1 else if a >? b then 1 else 0.

(** [memcmp] and then the lengths *)
Definition cmp_bytes (a b : list Z) (nA nB : Z) : option Z :=
  rc ← memcmp a b (Z.min nA nB);
  Some (if rc =? 0 then nA - nB else rc).

Definition compare_int (serial_type : Z) (data : list Z) (pRhs : Mem) : option Z :=
  if serial_type >=? 10 then Some (if serial_type =? 10 then -1 else 1)
  else if serial_type =? 0 then Some (-1)
  else if serial_type =? 7 then
    '(_, m) ← serialGet7 data mem1;
    r ← u_r m; i ← u_i pRhs; Some (- sqlite3IntFloatCompare i r)
  else lhs ← vdbeRecordDecodeInt serial_type data; rhs ← u_i pRhs; Some (cmp3 lhs rhs).

Definition compare_real (serial_type : Z) (data : list Z) (pRhs : Mem) : option Z :=
  if serial_type >=? 10 then Some (if serial_type =? 10 then -1 else 1)
  else if serial_type =? 0 then Some (-1)
  else if serial_type =? 7 then
    '(nan, m) ← serialGet7 data mem1;
    if (nan : bool) then Some (-1) else r ← u_r m; q ← u_r pRhs; Some (if dlt r q then -1 else if dlt q r then 1 else 0)
  else m ← sqlite3VdbeSerialGet data serial_type mem1; i ← u_i m; q ← u_r pRhs; Some (sqlite3IntFloatCompare i q).

(** The five branches of the loop, by the flags of [pRhs], which is field [i] *)
Definition compare_field (nKey1 : Z) (aKey1 : list Z) (idx1 d1 : Z) (p : UnpackedRecord) (i : Z) (pRhs : Mem) : option field_cmp :=
  let f := mem_flags pRhs in
  let data := at_off aKey1 d1 in
  let err := up_errCode p in
  let pKeyInfo := up_pKeyInfo p in
  if has f (MEM_Int .| MEM_IntReal) then
    serial_type ← aget aKey1 idx1; rc ← compare_int serial_type data pRhs; Some (field_rc rc serial_type err)
  else if has f MEM_Real then
    serial_type ← aget aKey1 idx1; rc ← compare_real serial_type data pRhs; Some (field_rc rc serial_type err)
  else if has f MEM_Str then
    '(serial_type, _) ← getVarint32 (at_off aKey1 idx1);
    if serial_type <? 12 then Some (field_rc (-1) serial_type err)
    else if serial_type .& 0x01 =? 0 then Some (field_rc 1 serial_type err)
    else
      let n := (serial_type - 12) / 2 in
      if (u32 (d1 + n) >? nKey1) || (ki_nAllField pKeyInfo <=? i) then Some field_corrupt else
      coll ← aget (ki_aColl pKeyInfo) i;
      match coll with
      | Some pColl =>
          let '(rc, nomem) := vdbeCompareMemString sqlite3ValueText (MkMem (U_i 0) data n MEM_Str (ki_enc pKeyInfo)) pRhs pColl in
          Some (field_rc rc serial_type (if nomem then SQLITE_NOMEM else err))
      | None => rc ← cmp_bytes data (mem_z pRhs) n (mem_n pRhs); Some (field_rc rc serial_type err)
      end
  else if has f MEM_Blob then
    '(serial_type, _) ← getVarint32 (at_off aKey1 idx1);
    if (serial_type <? 12) || negb (serial_type .& 0x01 =? 0) then Some (field_rc (-1) serial_type err)
    else
      let nStr := (serial_type - 12) / 2 in
      if u32 (d1 + nStr) >? nKey1 then Some field_corrupt else
      if has f MEM_Zero then
        z ← isAllZero data nStr;
        if negb z then Some (field_rc 1 serial_type err) else nZero ← u_nZero pRhs; Some (field_rc (nStr - nZero) serial_type err)
      else rc ← cmp_bytes data (mem_z pRhs) nStr (mem_n pRhs); Some (field_rc rc serial_type err)
  else
    serial_type ← aget aKey1 idx1;
    null ← (if (serial_type =? 0) || (serial_type =? 10) then Some true
            else if serial_type =? 7 then '(nan, _) ← serialGet7 data mem1; Some (nan : bool) else Some false);
    Some (field_rc (if null : bool then 0 else 1) serial_type err).

(** [rc] in the order of the column *)
Definition sort_rc (sortFlags rc serial_type : Z) (pRhs : Mem) : Z :=
  if negb (sortFlags =? 0)
     && ((sortFlags .& KEYINFO_ORDER_BIGNULL =? 0)
         || negb (Bool.eqb (has sortFlags KEYINFO_ORDER_DESC) ((serial_type =? 0) || has (mem_flags pRhs) MEM_Null)))
  then - rc else rc.

(** ** The loop over fields *)

(** Each turn reads a cell of [aMem]; [fuel] is more than their number. *)
Fixpoint compare_loop (fuel : nat) (nKey1 : Z) (aKey1 : list Z) (szHdr1 idx1 d1 i : Z) (p : UnpackedRecord) : option (Z * UnpackedRecord) :=
  match fuel with
  | O => None
  | S fuel =>
      pRhs ← aget (up_aMem p) i;
      c ← compare_field nKey1 aKey1 idx1 d1 p i pRhs;
      match c with
      | field_corrupt => Some (0, set_errCode SQLITE_CORRUPT p)
      | field_rc rc serial_type err =>
          let p := set_errCode err p in
          if negb (rc =? 0) then
            sortFlags ← aget (ki_aSortFlags (up_pKeyInfo p)) i; Some (sort_rc sortFlags rc serial_type pRhs, p)
          else
          let i := i + 1 in
          if i =? up_nField p then Some (up_default_rc p, set_eqSeen p) else
          len ← sqlite3VdbeSerialTypeLen serial_type;
          let d1 := u32 (d1 + len) in
          if d1 >? nKey1 then Some (up_default_rc p, set_eqSeen p) else
          let idx1 := u32 (idx1 + sqlite3VarintLen serial_type) in
          if idx1 >=? szHdr1 then Some (0, set_errCode SQLITE_CORRUPT p) else
          compare_loop fuel nKey1 aKey1 szHdr1 idx1 d1 i p
      end
  end.

(** The result and the key: [errCode] and [eqSeen] may change. *)
Definition sqlite3VdbeRecordCompareWithSkip (nKey1 : Z) (aKey1 : list Z) (pPKey2 : UnpackedRecord) (bSkip : bool) : option (Z * UnpackedRecord) :=
  '(szHdr1, idx1, d1, i) ← (if bSkip then
      s1 ← aget aKey1 1;
      '(s1, idx1) ← (if s1 <? 0x80 then Some (s1, 2) else '(s1, n) ← sqlite3GetVarint32 (at_off aKey1 1); Some (s1, 1 + n));
      szHdr1 ← aget aKey1 0;
      len ← sqlite3VdbeSerialTypeLen s1;
      Some (szHdr1, idx1, u32 (szHdr1 + len), 1)
    else '(szHdr1, idx1) ← getVarint32 aKey1; Some (szHdr1, idx1, szHdr1, 0));
  if d1 >? nKey1 then Some (0, set_errCode SQLITE_CORRUPT pPKey2)
  else compare_loop (S (length (up_aMem pPKey2))) nKey1 aKey1 szHdr1 idx1 d1 i pPKey2.

Definition sqlite3VdbeRecordCompare (nKey1 : Z) (aKey1 : list Z) (pPKey2 : UnpackedRecord) : option (Z * UnpackedRecord) :=
  sqlite3VdbeRecordCompareWithSkip nKey1 aKey1 pPKey2 false.

(** ** The comparison of assertions *)

(** [do{ ... }while( idx1<szHdr1 && i<pPKey2->nField )]: [rc] in the end.  Each turn reads a cell of [aMem]. *)
Fixpoint debug_loop (fuel : nat) (nKey1 : Z) (aKey1 : list Z) (szHdr1 idx1 d1 i : Z) (p : UnpackedRecord) : option Z :=
  match fuel with
  | O => None
  | S fuel =>
      let pKeyInfo := up_pKeyInfo p in
      '(serial_type1, n) ← getVarint32 (at_off aKey1 idx1);
      let idx1 := u32 (idx1 + n) in
      len ← sqlite3VdbeSerialTypeLen serial_type1;
      if (d1 + serial_type1 + 2 >? nKey1) && (d1 + len >? nKey1) then Some (up_default_rc p) else
      m ← sqlite3VdbeSerialGet (at_off aKey1 d1) serial_type1 (MkMem (U_i 0) [] 0 0 (ki_enc pKeyInfo));
      let d1 := u32 (d1 + len) in
      pRhs ← aget (up_aMem p) i;
      coll ← (if ki_nAllField pKeyInfo >? i then aget (ki_aColl pKeyInfo) i else Some None);
      rc ← sqlite3MemCompare sqlite3ValueText m pRhs coll;
      if negb (rc =? 0) then
        fl ← aget (ki_aSortFlags pKeyInfo) i;
        let rc := if has fl KEYINFO_ORDER_BIGNULL && (has (mem_flags m) MEM_Null || has (mem_flags pRhs) MEM_Null) then - rc else rc in
        Some (if has fl KEYINFO_ORDER_DESC then - rc else rc)
      else
      let i := i + 1 in
      if (idx1 <? szHdr1) && (i <? up_nField p) then debug_loop fuel nKey1 aKey1 szHdr1 idx1 d1 i p else Some (up_default_rc p)
  end.

(** Of a connection whose database is not corrupt (CORRUPT_DB is false) and that has memory *)
Definition vdbeRecordCompareDebug (nKey1 : Z) (aKey1 : list Z) (pPKey2 : UnpackedRecord) (desiredResult : Z) : option bool :=
  '(szHdr1, idx1) ← getVarint32 aKey1;
  if szHdr1 >? 98307 then Some true else
  rc ← debug_loop (S (length (up_aMem pPKey2))) nKey1 aKey1 szHdr1 idx1 szHdr1 0 pPKey2;
  Some ((desiredResult =? 0) && (rc =? 0) || (desiredResult <? 0) && (rc <? 0) || (desiredResult >? 0) && (rc >? 0)).

(** ** The faster comparisons *)

Definition vdbeRecordCompareInt (nKey1 : Z) (pKey1 : list Z) (pPKey2 : UnpackedRecord) : option (Z * UnpackedRecord) :=
  b0 ← aget pKey1 0;
  serial_type ← aget pKey1 1;
  let aKey := at_off pKey1 (b0 .& 0x3F) in
  let with_lhs (x : option Z) :=
    lhs ← x;
    v ← (match up_u pPKey2 with cache_i v => Some v | cache_z _ => None end);
    if v >? lhs then Some (up_r1 pPKey2, pPKey2)
    else if v <? lhs then Some (up_r2 pPKey2, pPKey2)
    else if up_nField pPKey2 >? 1 then sqlite3VdbeRecordCompareWithSkip nKey1 pKey1 pPKey2 true
    else Some (up_default_rc pPKey2, set_eqSeen pPKey2) in
  match serial_type with
  | 1 => with_lhs (ONE_BYTE_INT aKey)
  | 2 => with_lhs (TWO_BYTE_INT aKey)
  | 3 => with_lhs (THREE_BYTE_INT aKey)
  | 4 => with_lhs (y ← FOUR_BYTE_UINT aKey; Some (i32 y))
  | 5 => with_lhs (y ← FOUR_BYTE_UINT (drop 2 aKey); x ← TWO_BYTE_INT aKey; Some (y + (1 << 32) * x))
  | 6 => with_lhs (x ← FOUR_BYTE_UINT aKey; y ← FOUR_BYTE_UINT (drop 4 aKey); Some (i64 (u64 (x << 32) .| y)))
  | 8 => with_lhs (Some 0)
  | 9 => with_lhs (Some 1)
  | _ => sqlite3VdbeRecordCompare nKey1 pKey1 pPKey2
  end.

Definition vdbeRecordCompareString (nKey1 : Z) (aKey1 : list Z) (pPKey2 : UnpackedRecord) : option (Z * UnpackedRecord) :=
  b1 ← aget aKey1 1;
  serial_type ← (if i8 b1 <? 0 then '(t, _) ← sqlite3GetVarint32 (at_off aKey1 1); Some (i32 t) else Some (i8 b1));
  if serial_type <? 12 then Some (up_r1 pPKey2, pPKey2)
  else if serial_type .& 0x01 =? 0 then Some (up_r2 pPKey2, pPKey2)
  else
    szHdr ← aget aKey1 0;
    let nStr := (serial_type - 12) / 2 in
    if szHdr + nStr >? nKey1 then Some (0, set_errCode SQLITE_CORRUPT pPKey2) else
    z ← (match up_u pPKey2 with cache_z z => Some z | cache_i _ => None end);
    res ← memcmp (at_off aKey1 szHdr) z (Z.min (up_n pPKey2) nStr);
    if res >? 0 then Some (up_r2 pPKey2, pPKey2)
    else if res <? 0 then Some (up_r1 pPKey2, pPKey2)
    else
      let res := nStr - up_n pPKey2 in
      if res =? 0 then
        if up_nField pPKey2 >? 1 then sqlite3VdbeRecordCompareWithSkip nKey1 aKey1 pPKey2 true
        else Some (up_default_rc pPKey2, set_eqSeen pPKey2)
      else if res >? 0 then Some (up_r2 pPKey2, pPKey2)
      else Some (up_r1 pPKey2, pPKey2).

Inductive RecordCompare : Type := cmp_general | cmp_Int | cmp_String.

Definition xRecordCompare (c : RecordCompare) : Z -> list Z -> UnpackedRecord -> option (Z * UnpackedRecord) :=
  match c with
  | cmp_general => sqlite3VdbeRecordCompare
  | cmp_Int => vdbeRecordCompareInt
  | cmp_String => vdbeRecordCompareString
  end.

(** The function to compare with, and the key with what it caches for it *)
Definition sqlite3VdbeFindCompare (p : UnpackedRecord) : option (RecordCompare * UnpackedRecord) :=
  if ki_nAllField (up_pKeyInfo p) <=? 13 then
    m0 ← aget (up_aMem p) 0;
    let flags := mem_flags m0 in
    s0 ← aget (ki_aSortFlags (up_pKeyInfo p)) 0;
    if negb (s0 =? 0) && has s0 KEYINFO_ORDER_BIGNULL then Some (cmp_general, p) else
    let p := if negb (s0 =? 0) then set_r1r2 1 (-1) p else set_r1r2 (-1) 1 p in
    if has flags MEM_Int then i ← u_i m0; Some (cmp_Int, set_cache (cache_i i) (up_n p) p) else
    if negb (has flags (MEM_Real .| MEM_IntReal .| MEM_Null .| MEM_Blob)) then
      c0 ← aget (ki_aColl (up_pKeyInfo p)) 0;
      match c0 with
      | None => Some (cmp_String, set_cache (cache_z (mem_z m0)) (mem_n m0) p)
      | Some _ => Some (cmp_general, p)
      end
    else Some (cmp_general, p)
  else Some (cmp_general, p).
End Compare.
