(* ===== verification/RecCmp.v ===== *)
(** * Comparison of records is that of values

    The order that [sqlite3VdbeRecordCompare] gives is that of the values of the columns, with the
    sort order and the collating sequence of each; the comparison that
    [sqlite3VdbeFindCompare] chooses gives the same. *)
From S2P Require Import Prelude Varint Bytes FileIO Ints Double VdbeMem VdbeRec RecSpec VdbeCmp.

(** ** The order of keys *)

Definition is_null (v : value) : bool := match v with VNull => true | _ => false end.

Section Spec.
Context (fmt : Z) (toText : Z -> Z -> list Z -> option (list Z)).

(** The order of a column: its collating sequence, NULL as the least value or the greatest, ascending or descending *)
Definition column_cmp (enc fl : Z) (coll : option CollSeq) (v w : value) : Z :=
  let c := value_cmp (text_cmp toText coll enc) v w in
  let c := if has fl KEYINFO_ORDER_BIGNULL && (is_null v || is_null w) then - c else c in
  if has fl KEYINFO_ORDER_DESC then - c else c.

(** The first field that differs, from column [i] on *)
Fixpoint key_cmp (ki : KeyInfo) (i : Z) (vs ws : list value) : Z :=
  match vs, ws with
  | v :: vs, w :: ws =>
      let c := column_cmp (ki_enc ki) (default 0 (aget (ki_aSortFlags ki) i)) (default None (aget (ki_aColl ki) i)) v w in
      if c =? 0 then key_cmp ki (i + 1) vs ws else c
  | _, _ => 0
  end.

(** A cell of a key *)
Definition key_cell (enc : Z) (m : Mem) (w : value) : Prop :=
  mem_is m w /\ mem_enc m = enc /\
  match w with
  | VNull => has (mem_flags m) (MEM_Int .| MEM_Real .| MEM_IntReal) = false /\ has (mem_flags m) MEM_Str = false /\ has (mem_flags m) MEM_Blob = false
  | VBlob _ => has (mem_flags m) MEM_Blob = true
  | _ => True
  end.

(** Text is in the encoding of the collating sequence, or can be converted to it. *)
Definition coll_ok (enc : Z) (coll : option CollSeq) : Prop :=
  match coll with Some c => enc = coll_enc c \/ forall s, is_Some (toText enc (coll_enc c) s) | None => True end.

(** The fields of a key from [i] on have the values [ws]. *)
Fixpoint key_at (p : UnpackedRecord) (i : Z) (ws : list value) : Prop :=
  match ws with
  | [] => True
  | w :: ws =>
      (exists m fl coll, aget (up_aMem p) i = Some m /\ key_cell (ki_enc (up_pKeyInfo p)) m w /\
        aget (ki_aSortFlags (up_pKeyInfo p)) i = Some fl /\ 0 <= fl < 4 /\ aget (ki_aColl (up_pKeyInfo p)) i = Some coll /\ coll_ok (ki_enc (up_pKeyInfo p)) coll) /\
      i < ki_nAllField (up_pKeyInfo p) /\ key_at p (i + 1) ws
  end.

(** ** Integers *)

Lemma u64_high x : u64 (x << 32) = (x mod 2 ^ 32) * 2 ^ 32.
Proof. unfold u64. rewrite Z.shiftl_mul_pow2 by lia. change (2 ^ 64) with (2 ^ 32 * 2 ^ 32). by rewrite Z.mul_mod_distr_r by lia. Qed.

Lemma decode_int i rest : is_i64 i -> vdbeRecordDecodeInt (vtype fmt (VInt i)) (vdata fmt (VInt i) ++ rest) = Some i.
Proof.
  intros Hi. unfold vdata, vtype. pose proof (byte_sum0 i) as S0. pose proof (byte_sums i) as (S1 & S2 & S3 & S4 & _). pose proof (serialGet_int fmt i rest (MkMem (U_i 0) [] 0 0 0) Hi) as G. unfold vdata, vtype in G.
  destruct (int_format_cases fmt i) as [[-> | ->]|H|H|H|H|H|]; [done|done|..]; unfold sqlite3VdbeSerialGet in G; unfold vdbeRecordDecodeInt.
  - by destruct (ONE_BYTE_INT _); simplify_eq/=.
  - by destruct (TWO_BYTE_INT _); simplify_eq/=.
  - by destruct (THREE_BYTE_INT _); simplify_eq/=.
  - replace (be_bytes 4 (u64 i)) with [byte i 3; byte i 2; byte i 1; byte i 0] by (symmetry; by apply be_bytes_list). cbn [app]. rewrite FOUR_BYTE_UINT_val by apply byte_u8. cbn [mbind option_bind]. f_equal. pose proof (byte_u8 i 0) as B0. pose proof (byte_u8 i 1) as B1. pose proof (byte_u8 i 2) as B2. pose proof (byte_u8 i 3) as B3. unfold is_u8 in *. unfold i32, swrap. zdm.
  - destruct (FOUR_BYTE_UINT _); [|done]. cbn [mbind option_bind] in *. by destruct (TWO_BYTE_INT _); simplify_eq/=.
  - pose proof (eight_bytes_put i rest) as E. unfold eight_bytes in E. replace (be_bytes 8 (u64 i)) with [byte i 7; byte i 6; byte i 5; byte i 4; byte i 3; byte i 2; byte i 1; byte i 0] in * by (symmetry; by apply be_bytes_list). cbn [app] in *.
    rewrite FOUR_BYTE_UINT_val in * by apply byte_u8. cbn [drop mbind option_bind] in *. rewrite FOUR_BYTE_UINT_val in * by apply byte_u8. cbn [mbind option_bind] in *. f_equal. injection E as E.
    pose proof (byte_u8 i 0) as B0. pose proof (byte_u8 i 1) as B1. pose proof (byte_u8 i 2) as B2. pose proof (byte_u8 i 3) as B3. unfold is_u8 in *. rewrite u64_high, lor_add_low, <- u64_high, E by lia. unfold i64, swrap, u64, is_i64 in *. zdm.
Qed.
(** ** A field *)

Lemma aget_at_off (p : list Z) off : 0 <= off -> aget p off = aget (at_off p off) 0.
Proof.
  intros H. unfold aget, at_off. rewrite (proj2 (Z.leb_le 0 off)) by done. change (0 <=? 0) with true. cbv iota. rewrite lookup_drop. f_equal. lia.
Qed.

(** The first byte of a serial type *)
Lemma type_byte aKey idx v B : 0 <= idx -> value_ok v -> at_off aKey idx = vput (vtype fmt v) ++ B ->
  exists t, aget aKey idx = Some t /\ (vtype fmt v < 128 -> t = vtype fmt v) /\ (128 <= vtype fmt v -> 128 <= t).
Proof.
  intros Hi Hv E. rewrite aget_at_off, E by done. pose proof (vtype_u32 fmt v Hv) as Ht. destruct (vput_len _ Ht) as (_ & Hl & _ & _ & Hone). destruct (Z.ltb_spec (vtype fmt v) 128) as [Hs|Hs].
  - rewrite (Hone Hs). exists (vtype fmt v). split_and!; [done|done|lia].
  - destruct (vput_cont (vtype fmt v) Ht Hs) as (b & l & -> & Hb). exists b. split_and!; [done|lia|done].
Qed.

(** Where the serial types of values are *)
Lemma vtype_class v : value_ok v ->
  match v with
  | VNull => vtype fmt v = 0
  | VInt _ => 1 <= vtype fmt v < 10 /\ vtype fmt v <> 7
  | VReal _ => vtype fmt v = 7
  | VText _ => 13 <= vtype fmt v /\ (vtype fmt v .& 1 =? 0) = false
  | VBlob _ => 12 <= vtype fmt v /\ (vtype fmt v .& 1 =? 0) = true
  end.
Proof.
  destruct v as [|i|r|s|s]; cbn [vtype]; try done.
  - intros Hi. destruct (int_format_cases fmt i); lia.
  - intros _. pose proof (alen_nonneg s). rewrite (land_ones_mod _ 1) by lia. change (2 ^ 1) with 2. split; [lia|]. apply Z.eqb_neq. zdm.
  - intros _. pose proof (alen_nonneg s). rewrite (land_ones_mod _ 1) by lia. change (2 ^ 1) with 2. split; [lia|]. apply Z.eqb_eq. zdm.
Qed.

Lemma get7_put r rest m : value_ok (VReal r) -> serialGet7 (vdata fmt (VReal r) ++ rest) m = Some (false, set_u (U_r r) MEM_Real m).
Proof.
  intros [Hu Hn]. unfold serialGet7, vdata. pose proof (eight_bytes_put r rest) as E. unfold u64 in E. rewrite Z.mod_small in E by done. rewrite E. cbn [mbind option_bind]. by rewrite Hn.
Qed.

Lemma compare_int_ok v j t pRhs rest : value_ok v -> is_i64 j -> mem_u pRhs = U_i j -> (vtype fmt v < 128 -> t = vtype fmt v) -> (128 <= vtype fmt v -> 128 <= t) ->
  exists rc, compare_int t (vdata fmt v ++ rest) pRhs = Some rc /\ forall tc, Z.sgn rc = value_cmp tc v (VInt j).
Proof.
  intros Hv Hj Eu H1 H2. pose proof (vtype_class v Hv) as Hc. unfold compare_int, u_i. rewrite Eu. cbn [mbind option_bind].
  destruct v as [|i|r|s|s].
  - rewrite H1, Hc by lia. eexists. split; done.
  - assert (vtype fmt (VInt i) < 128) by lia. rewrite H1 by done. rewrite Z.geb_leb, (proj2 (Z.leb_gt 10 _)), (proj2 (Z.eqb_neq _ 0)), (proj2 (Z.eqb_neq _ 7)) by lia. rewrite decode_int by done. cbn [mbind option_bind]. eexists. split; [done|]. intros tc. unfold cmp3. rewrite sgn_cmp, sgn_sgn. unfold value_cmp. cbn. by rewrite sgn_scale.
  - rewrite H1, Hc by lia. change (7 >=? 10) with false. change (7 =? 0) with false. change (7 =? 7) with true. cbv iota. rewrite get7_put by done. cbn [mbind option_bind set_u mem_u u_r]. eexists. split; [done|]. intros tc. rewrite int_float_compare by (done || apply Hv). rewrite Z.sgn_opp, sgn_sgn, <- Z.sgn_opp. unfold value_cmp. cbn. f_equal. lia.
  - assert (Ht : 11 <= t) by (destruct (Z.ltb_spec (vtype fmt (VText s)) 128); [rewrite H1 by done|]; lia). rewrite Z.geb_leb, (proj2 (Z.leb_le 10 t)), (proj2 (Z.eqb_neq t 10)) by lia. by eexists.
  - assert (Ht : 11 <= t) by (destruct (Z.ltb_spec (vtype fmt (VBlob s)) 128); [rewrite H1 by done|]; lia). rewrite Z.geb_leb, (proj2 (Z.leb_le 10 t)), (proj2 (Z.eqb_neq t 10)) by lia. by eexists.
Qed.

Lemma compare_real_ok v q t pRhs rest : value_ok v -> IsNaN q = false -> mem_u pRhs = U_r q -> (vtype fmt v < 128 -> t = vtype fmt v) -> (128 <= vtype fmt v -> 128 <= t) ->
  exists rc, compare_real t (vdata fmt v ++ rest) pRhs = Some rc /\ forall tc, Z.sgn rc = value_cmp tc v (VReal q).
Proof.
  intros Hv Hq Eu H1 H2. pose proof (vtype_class v Hv) as Hc. unfold compare_real. assert (Eq : u_r pRhs = Some q) by (unfold u_r; by rewrite Eu).
  destruct v as [|i|r|s|s].
  - rewrite H1, Hc by lia. eexists. split; done.
  - assert (vtype fmt (VInt i) < 128) by lia. rewrite H1 by done. rewrite Z.geb_leb, (proj2 (Z.leb_gt 10 _)), (proj2 (Z.eqb_neq _ 0)), (proj2 (Z.eqb_neq _ 7)) by lia. rewrite serialGet_int by done. cbn [mbind option_bind set_u mem_u u_i]. rewrite Eq. eexists. split; [done|]. intros tc. rewrite int_float_compare by done. rewrite sgn_sgn. done.
  - rewrite H1, Hc by lia. change (7 >=? 10) with false. change (7 =? 0) with false. change (7 =? 7) with true. cbv iota. rewrite get7_put by done. cbn [mbind option_bind]. change (u_r (set_u (U_r r) MEM_Real mem1)) with (Some r). cbn [mbind option_bind]. rewrite Eq. eexists. split; [done|]. intros tc. rewrite dlt_sgn by (done || apply Hv). rewrite sgn_sgn. done.
  - assert (Ht : 11 <= t) by (destruct (Z.ltb_spec (vtype fmt (VText s)) 128); [rewrite H1 by done|]; lia). rewrite Z.geb_leb, (proj2 (Z.leb_le 10 t)), (proj2 (Z.eqb_neq t 10)) by lia. by eexists.
  - assert (Ht : 11 <= t) by (destruct (Z.ltb_spec (vtype fmt (VBlob s)) 128); [rewrite H1 by done|]; lia). rewrite Z.geb_leb, (proj2 (Z.leb_le 10 t)), (proj2 (Z.eqb_neq t 10)) by lia. by eexists.
Qed.
Lemma cmp_bytes_ok a b ra rb : exists c, cmp_bytes (a ++ ra) (b ++ rb) (alen a) (alen b) = Some c /\ Z.sgn c = lex a b.
Proof.
  unfold cmp_bytes. replace (Z.min (alen a) (alen b)) with (if alen a >? alen b then alen b else alen a) by (rewrite Z.gtb_ltb; destruct (Z.ltb_spec (alen b) (alen a)); lia).
  rewrite memcmp_ok. cbn [mbind option_bind]. eexists. split; [done|]. rewrite <- (memcmp_lex a b ra rb). cbv zeta. by destruct (_ =? 0).
Qed.

(** Serial types of text and blobs *)
Lemma vtype_bytes v s : v = VText s \/ v = VBlob s -> (vtype fmt v - 12) / 2 = alen s.
Proof. intros [-> | ->]; cbn [vtype]; zdm. Qed.

(** What the loop knows of the field it is at *)
Record field_at (nKey1 : Z) (aKey1 : list Z) (idx1 d1 : Z) (v : value) (B B' : list Z) : Prop := {
  fa_idx : 0 <= idx1;
  fa_d : 0 <= d1 /\ d1 + alen (vdata fmt v) <= nKey1 < 2 ^ 31;
  fa_ok : value_ok v;
  fa_type : at_off aKey1 idx1 = vput (vtype fmt v) ++ B;
  fa_u8 : Forall is_u8 B;
  fa_data : at_off aKey1 d1 = vdata fmt v ++ B'
}.

(** [rc] is the order of the values, and the serial type is that of [v] as far as it is used. *)
Definition field_result (p : UnpackedRecord) (v w : value) (coll : option CollSeq) (c : option field_cmp) : Prop :=
  exists rc t, c = Some (field_rc rc t (up_errCode p)) /\ Z.sgn rc = value_cmp (text_cmp toText coll (ki_enc (up_pKeyInfo p))) v w /\ (rc = 0 -> t = vtype fmt v) /\ (t =? 0) = is_null v.

(** When the values are equal, numbers or NULL, the type is one byte. *)
Lemma byte_type tc v w t : value_ok v -> (vtype fmt v < 128 -> t = vtype fmt v) -> (128 <= vtype fmt v -> 128 <= t) -> value_rank w < 2 ->
  (value_cmp tc v w = 0 -> t = vtype fmt v) /\ (t =? 0) = is_null v.
Proof.
  intros Hv H1 H2 Hw. pose proof (vtype_class v Hv) as Hc. split.
  - intros E. apply H1. unfold value_cmp in E. destruct (Z.eqb_spec (value_rank v) (value_rank w)) as [Er|Er]; cbn [negb] in E; [|apply Z.sgn_null_iff in E; lia]. destruct v; cbn [value_rank] in Er; lia.
  - destruct (Z.ltb_spec (vtype fmt v) 128) as [Hs|Hs]; [rewrite H1 by done|specialize (H2 Hs)]; destruct v; cbn [is_null]; try lia; apply Z.eqb_neq; lia.
Qed.

Lemma field_str nKey1 aKey1 idx1 d1 v B B' p i m s coll : field_at nKey1 aKey1 idx1 d1 v B B' -> key_cell (ki_enc (up_pKeyInfo p)) m (VText s) ->
  i < ki_nAllField (up_pKeyInfo p) -> aget (ki_aColl (up_pKeyInfo p)) i = Some coll -> coll_ok (ki_enc (up_pKeyInfo p)) coll ->
  field_result p v (VText s) coll (compare_field toText nKey1 aKey1 idx1 d1 p i m).
Proof.
  intros [Hi Hd Hv Et HB Ed] ((Hn & Hnum & Hs & Hz & Hb) & He & _) Hall Hcoll Hok. unfold compare_field. rewrite !has_mask in Hnum. apply orb_false_iff in Hnum as [Hnum F3]. apply orb_false_iff in Hnum as [F1 F2]. rewrite has_mask, F1, F2, F3, Hs. cbn [orb].
  rewrite Et, get_vput by (done || by apply vtype_u32). cbn [mbind option_bind]. pose proof (vtype_class v Hv) as Hc.
  destruct v as [|j|r|u|u].
  1-3: rewrite (proj2 (Z.ltb_lt (vtype fmt _) 12)) by lia; eexists _, _; split_and!; [done|done|done|]; cbn [is_null]; rewrite ?Hc; try done; apply Z.eqb_neq; lia.
  - rewrite (proj2 (Z.ltb_ge (vtype fmt _) 12)) by lia. destruct Hc as [Hc ->]. rewrite (vtype_bytes _ u) by auto. cbn [vdata] in *. pose proof (alen_nonneg u). unfold u32. rewrite Z.mod_small by lia. rewrite Z.gtb_ltb, (proj2 (Z.ltb_ge nKey1 _)), (proj2 (Z.leb_gt _ i)) by lia. cbn [orb]. rewrite Hcoll. cbn [mbind option_bind].
    assert (Hnull : (vtype fmt (VText u) =? 0) = false) by (apply Z.eqb_neq; lia). destruct coll as [c|].
    + pose proof (compare_mem_string toText (MkMem (U_i 0) (at_off aKey1 d1) (alen u) MEM_Str (ki_enc (up_pKeyInfo p))) m u s c) as HC. destruct (vdbeCompareMemString toText _ m c) as [rc nomem] eqn:Ec. cbn [fst] in HC.
      assert (nomem = false) as ->. { unfold vdbeCompareMemString in Ec. cbn [mem_enc] in Ec. cbn [coll_ok] in Hok. destruct (Z.eqb_spec (ki_enc (up_pKeyInfo p)) (coll_enc c)); [by simplify_eq|]. destruct Hok as [?|Hok]; [done|]. rewrite He in Ec. repeat match goal with |- context [toText ?a ?b ?c] => destruct (Hok c) as [? Hx]; rewrite Hx in * | H : context [toText ?a ?b ?c] |- _ => destruct (Hok c) as [? Hx]; rewrite Hx in H; clear Hx end. by simplify_eq. }
      eexists _, _. split_and!; [done| |done|done]. rewrite HC; [done| |done|done]. split_and!; [done|apply Hv|]. exists B'. by cbn [mem_z].
    + destruct Hb as (-> & _ & rest & ->). rewrite Ed. destruct (cmp_bytes_ok u s B' rest) as (rc & -> & Hrc). cbn [mbind option_bind]. eexists _, _. split_and!; [done| |done|done]. unfold value_cmp. cbn. rewrite <- Hrc. by rewrite sgn_sgn.
  - rewrite (proj2 (Z.ltb_ge (vtype fmt _) 12)) by lia. destruct Hc as [Hc ->]. eexists _, _. split_and!; [done|done|done|]. apply Z.eqb_neq. lia.
Qed.
Lemma field_blob nKey1 aKey1 idx1 d1 v B B' p i m s coll : field_at nKey1 aKey1 idx1 d1 v B B' -> key_cell (ki_enc (up_pKeyInfo p)) m (VBlob s) ->
  field_result p v (VBlob s) coll (compare_field toText nKey1 aKey1 idx1 d1 p i m).
Proof.
  intros [Hi Hd Hv Et HB Ed] ((Hn & Hnum & Hs & Hb) & He & Hbl). unfold compare_field. rewrite !has_mask in Hnum. apply orb_false_iff in Hnum as [Hnum F3]. apply orb_false_iff in Hnum as [F1 F2]. rewrite has_mask, F1, F2, F3, Hs, Hbl. cbn [orb].
  rewrite Et, get_vput by (done || by apply vtype_u32). cbn [mbind option_bind]. pose proof (vtype_class v Hv) as Hc.
  destruct v as [|j|r|u|u].
  1-3: rewrite (proj2 (Z.ltb_lt (vtype fmt _) 12)) by lia; eexists _, _; split_and!; [done|done|done|]; cbn [is_null]; rewrite ?Hc; try done; apply Z.eqb_neq; lia.
  - destruct Hc as [Hc ->]. rewrite orb_true_r. eexists _, _. split_and!; [done|done|done|]. apply Z.eqb_neq. lia.
  - rewrite (proj2 (Z.ltb_ge (vtype fmt _) 12)) by lia. destruct Hc as [Hc ->]. cbn [orb negb]. rewrite (vtype_bytes _ u) by auto. cbn [vdata] in *. pose proof (alen_nonneg u). unfold u32. rewrite Z.mod_small by lia. rewrite Z.gtb_ltb, (proj2 (Z.ltb_ge nKey1 _)) by lia.
    assert (Hnull : (vtype fmt (VBlob u) =? 0) = false) by (apply Z.eqb_neq; lia). rewrite Ed. destruct Hb as [[-> (-> & _ & rest & ->)]|[-> (_ & k & Eu & ->)]].
    + destruct (cmp_bytes_ok u s B' rest) as (rc & -> & Hrc). cbn [mbind option_bind]. by eexists _, _.
    + rewrite isAllZero_spec. cbn [mbind option_bind]. unfold u_nZero. rewrite Eu. destruct (bool_decide_reflect (u = replicate (length u) 0)) as [E0|E0]; cbn [negb mbind option_bind]; eexists _, _; (split; [done|]); (split; [|done]); unfold value_cmp; cbn.
      * rewrite E0, lex_zeros. unfold alen. by rewrite length_replicate.
      * destruct (lex_not_zero u k) as [-> _]; [apply Hv|done|done].
Qed.

Lemma field_null nKey1 aKey1 idx1 d1 v B B' p i m coll : field_at nKey1 aKey1 idx1 d1 v B B' -> key_cell (ki_enc (up_pKeyInfo p)) m VNull ->
  field_result p v VNull coll (compare_field toText nKey1 aKey1 idx1 d1 p i m).
Proof.
  intros [Hi Hd Hv Et HB Ed] (Hn & He & Hnum & Hs & Hbl). unfold compare_field. rewrite !has_mask in Hnum. apply orb_false_iff in Hnum as [Hnum F3]. apply orb_false_iff in Hnum as [F1 F2]. rewrite has_mask, F1, F2, F3, Hs, Hbl. cbn [orb].
  destruct (type_byte aKey1 idx1 v B Hi Hv Et) as (t & -> & H1 & H2). cbn [mbind option_bind]. pose proof (vtype_class v Hv) as Hc. destruct (byte_type (text_cmp toText coll (ki_enc (up_pKeyInfo p))) v VNull t Hv H1 H2) as [Hz Hnull]; [done|].
  assert (Ht : (t =? 10) = false) by (apply Z.eqb_neq; destruct (Z.ltb_spec (vtype fmt v) 128); [rewrite H1 by done|]; destruct v; lia).
  unfold field_result. rewrite Hnull, Ht. destruct v as [|j|r|u|u]; cbn [is_null orb].
  - by eexists _, _.
  - rewrite (proj2 (Z.eqb_neq t 7)) by (rewrite H1; lia). by eexists _, _.
  - rewrite H1, Hc by lia. rewrite Ed, Z.eqb_refl, get7_put by done. by eexists _, _.
  - rewrite (proj2 (Z.eqb_neq t 7)) by (destruct (Z.ltb_spec (vtype fmt (VText u)) 128); [rewrite H1 by done|]; lia). by eexists _, _.
  - rewrite (proj2 (Z.eqb_neq t 7)) by (destruct (Z.ltb_spec (vtype fmt (VBlob u)) 128); [rewrite H1 by done|]; lia). by eexists _, _.
Qed.

Lemma field_any nKey1 aKey1 idx1 d1 v B B' p i m w coll : field_at nKey1 aKey1 idx1 d1 v B B' -> key_cell (ki_enc (up_pKeyInfo p)) m w ->
  i < ki_nAllField (up_pKeyInfo p) -> aget (ki_aColl (up_pKeyInfo p)) i = Some coll -> coll_ok (ki_enc (up_pKeyInfo p)) coll ->
  field_result p v w coll (compare_field toText nKey1 aKey1 idx1 d1 p i m).
Proof.
  intros Hf Hk Hall Hcoll Hok. destruct w as [|j|q|s|s]; [by eapply field_null| | |by eapply field_str|by eapply field_blob].
  - destruct Hf as [Hi Hd Hv Et HB Ed]. destruct Hk as ((Hn & Hint & _ & Eu & Hj) & _). unfold compare_field. rewrite Hint. destruct (type_byte aKey1 idx1 v B Hi Hv Et) as (t & -> & H1 & H2). cbn [mbind option_bind]. rewrite Ed.
    destruct (compare_int_ok v j t m B' Hv Hj Eu H1 H2) as (rc & -> & Hrc). cbn [mbind option_bind]. exists rc, t. destruct (byte_type (text_cmp toText coll (ki_enc (up_pKeyInfo p))) v (VInt j) t Hv H1 H2) as [Hz Hnull]; [done|]. split_and!; [done|done| |done]. intros ->. apply Hz. by rewrite <- Hrc.
  - destruct Hf as [Hi Hd Hv Et HB Ed]. destruct Hk as ((Hn & Hint & Hr & Eu & Hj) & _). unfold compare_field. rewrite Hint, Hr. destruct (type_byte aKey1 idx1 v B Hi Hv Et) as (t & -> & H1 & H2). cbn [mbind option_bind]. rewrite Ed.
    destruct (compare_real_ok v q t m B' Hv Hj Eu H1 H2) as (rc & -> & Hrc). cbn [mbind option_bind]. exists rc, t. destruct (byte_type (text_cmp toText coll (ki_enc (up_pKeyInfo p))) v (VReal q) t Hv H1 H2) as [Hz Hnull]; [done|]. split_and!; [done|done| |done]. intros ->. apply Hz. by rewrite <- Hrc.
Qed.
(** ** The loop *)

Lemma value_cmp_sgn tc v w : Z.sgn (value_cmp tc v w) = value_cmp tc v w.
Proof. unfold value_cmp. destruct (negb _); [apply sgn_sgn|]. destruct v, w; try apply sgn_sgn. by destruct (lex_range s s0) as [-> | [-> | ->]]. Qed.

Lemma column_sgn enc fl coll v w : Z.sgn (column_cmp enc fl coll v w) = column_cmp enc fl coll v w.
Proof. unfold column_cmp. destruct (has fl KEYINFO_ORDER_BIGNULL), (has fl KEYINFO_ORDER_DESC), (is_null v || is_null w); cbn [andb]; rewrite ?Z.sgn_opp, ?value_cmp_sgn; done. Qed.

Lemma column_zero enc fl coll v w : column_cmp enc fl coll v w = 0 <-> value_cmp (text_cmp toText coll enc) v w = 0.
Proof. unfold column_cmp. destruct (has fl KEYINFO_ORDER_BIGNULL), (has fl KEYINFO_ORDER_DESC), (is_null v || is_null w); cbn [andb]; lia. Qed.

Lemma mem_null m w : mem_is m w -> has (mem_flags m) MEM_Null = is_null w.
Proof. intros H. destruct w; cbn in H; cbn [is_null]; tauto. Qed.

Lemma cell_null enc m w : key_cell enc m w -> has (mem_flags m) MEM_Null = is_null w.
Proof. intros [H _]. by apply mem_null. Qed.

Lemma sort_rc_ok enc fl coll v w rc t m : 0 <= fl < 4 -> key_cell enc m w -> (t =? 0) = is_null v -> Z.sgn rc = value_cmp (text_cmp toText coll enc) v w ->
  Z.sgn (sort_rc fl rc t m) = column_cmp enc fl coll v w.
Proof.
  intros Hfl Hm Ht Hrc. unfold sort_rc, column_cmp. rewrite (cell_null _ _ _ Hm), Ht, <- Hrc. set (n := is_null v || is_null w).
  assert (fl = 0 \/ fl = 1 \/ fl = 2 \/ fl = 3) as [-> | [-> | [-> | ->]]] by lia; destruct n;
    repeat match goal with |- context [has ?f ?k] => let b := eval vm_compute in (has f k) in change (has f k) with b | |- context [?f .& KEYINFO_ORDER_BIGNULL =? 0] => let b := eval vm_compute in (f .& KEYINFO_ORDER_BIGNULL =? 0) in change (f .& KEYINFO_ORDER_BIGNULL =? 0) with b end; cbn -[Z.sgn Z.opp]; rewrite ?Z.sgn_opp; lia.
Qed.

Lemma set_errCode_same p : set_errCode (up_errCode p) p = p.
Proof. by destruct p. Qed.

(** The result is the order of the fields; when they are equal the default, or SQLITE_CORRUPT when the record has fewer fields than the key. *)
Definition cmp_outcome (p : UnpackedRecord) (i : Z) (vs ws : list value) (r : option (Z * UnpackedRecord)) : Prop :=
  let c := key_cmp (up_pKeyInfo p) i vs ws in
  exists res p', r = Some (res, p') /\
    if negb (c =? 0) then Z.sgn res = c /\ p' = p
    else if (length ws <=? length vs)%nat then res = up_default_rc p /\ p' = set_eqSeen p
    else res = 0 /\ p' = set_errCode SQLITE_CORRUPT p.

(** Where the loop is in a record: at the fields [vs] *)
Record fields_at (nKey1 : Z) (aKey1 : list Z) (szHdr1 idx1 d1 : Z) (vs : list value) (B B' : list Z) : Prop := {
  fs_idx : 0 <= idx1 /\ idx1 + alen (vtypes fmt vs) = szHdr1 /\ szHdr1 < 2 ^ 31;
  fs_d : 0 <= d1 /\ d1 + alen (vdatas fmt vs) <= nKey1 < 2 ^ 31;
  fs_ok : Forall value_ok vs;
  fs_type : at_off aKey1 idx1 = vtypes fmt vs ++ B;
  fs_u8 : Forall is_u8 B;
  fs_data : at_off aKey1 d1 = vdatas fmt vs ++ B'
}.

Lemma at_off_app p off a b : 0 <= off -> at_off p off = a ++ b -> at_off p (off + alen a) = b.
Proof. intros H E. unfold at_off in *. rewrite Z2Nat.inj_add, <- drop_drop, E by (done || apply alen_nonneg). unfold alen. by rewrite Nat2Z.id, drop_app_length. Qed.

Lemma fields_at_cons nKey1 aKey1 szHdr1 idx1 d1 v vs B B' : fields_at nKey1 aKey1 szHdr1 idx1 d1 (v :: vs) B B' ->
  field_at nKey1 aKey1 idx1 d1 v (vtypes fmt vs ++ B) (vdatas fmt vs ++ B') /\
  fields_at nKey1 aKey1 szHdr1 (idx1 + alen (vput (vtype fmt v))) (d1 + alen (vdata fmt v)) vs B B' /\
  sqlite3VdbeSerialTypeLen (vtype fmt v) = Some (alen (vdata fmt v)) /\ sqlite3VarintLen (vtype fmt v) = alen (vput (vtype fmt v)) /\
  u32 (d1 + alen (vdata fmt v)) = d1 + alen (vdata fmt v) /\ u32 (idx1 + alen (vput (vtype fmt v))) = idx1 + alen (vput (vtype fmt v)).
Proof.
  intros [[Hi Hs] [Hd Hk] Hok Et HB Ed]. apply Forall_cons in Hok as [Hv Hok]. rewrite vtypes_cons in *. rewrite vdatas_cons in *. rewrite alen_app in *. rewrite <- app_assoc in *.
  pose proof (alen_nonneg (vdatas fmt vs)). pose proof (alen_nonneg (vtypes fmt vs)). pose proof (alen_nonneg (vdata fmt v)). pose proof (alen_nonneg (vput (vtype fmt v))). pose proof (vtype_u32 fmt v Hv) as Ht.
  split_and!; [split|split|by apply vtype_len|symmetry; by apply vput_len|unfold u32; apply Z.mod_small; lia|unfold u32; apply Z.mod_small; lia]; try done; try lia.
  - apply Forall_app. split; [by apply vtypes_bytes|done].
  - by apply at_off_app.
  - by apply at_off_app.
Qed.

Lemma loop_ok nKey1 aKey1 szHdr1 p : forall ws vs fuel i idx1 d1 B B', ws <> [] -> vs <> [] -> (length ws <= fuel)%nat -> key_at p i ws -> up_nField p = i + alen ws ->
  fields_at nKey1 aKey1 szHdr1 idx1 d1 vs B B' -> cmp_outcome p i vs ws (compare_loop toText fuel nKey1 aKey1 szHdr1 idx1 d1 i p).
Proof.
  intros ws. induction ws as [|w ws IH]; intros [|v vs] fuel i idx1 d1 B B' Hne Hne' Hfuel Hkey Hn Hf; [done..|].
  destruct fuel as [|fuel]; [cbn in Hfuel; lia|]. apply fields_at_cons in Hf as (Hf & Hf' & El & Ev & Ed & Ei). destruct Hkey as [(m & fl & coll & Em & Hm & Efl & Hfl & Ecoll & Hcoll) [Hall Hkey]]. unfold cmp_outcome. cbn [compare_loop key_cmp]. rewrite Em, Efl, Ecoll. cbn [mbind option_bind default].
  destruct (field_any nKey1 aKey1 idx1 d1 v _ _ p i m w coll Hf Hm Hall Ecoll Hcoll) as (rc & t & -> & Hrc & Ht & Hnull). cbn [mbind option_bind]. cbv zeta. rewrite set_errCode_same. change (id coll) with coll. change (id fl) with fl.
  pose proof (sort_rc_ok _ fl coll v w rc t m Hfl Hm Hnull Hrc) as Hsort. destruct (Z.eqb_spec rc 0) as [->|Hrc0]; cbn [negb].
  - rewrite (Ht eq_refl). assert (E0 : column_cmp (ki_enc (up_pKeyInfo p)) fl coll v w = 0) by (apply column_zero; by rewrite <- Hrc). rewrite E0, Z.eqb_refl. rewrite alen_cons in Hn. destruct ws as [|w' ws].
    { change (alen []) with 0 in Hn. rewrite (proj2 (Z.eqb_eq (i + 1) (up_nField p))) by lia. eexists _, _. split; [done|]. by destruct vs. }
    pose proof Hn as Hn'. rewrite alen_cons in Hn'. pose proof (alen_nonneg ws). rewrite (proj2 (Z.eqb_neq (i + 1) (up_nField p))), El by lia. cbn [mbind option_bind]. rewrite Ed, Ev, Ei. destruct (fs_d _ _ _ _ _ _ _ _ Hf') as [_ Hd2]. pose proof (alen_nonneg (vdatas fmt vs)). rewrite Z.gtb_ltb, (proj2 (Z.ltb_ge nKey1 _)) by lia.
    destruct (fs_idx _ _ _ _ _ _ _ _ Hf') as (_ & Hi2 & _). rewrite Z.geb_leb. destruct vs as [|v' vs].
    { change (alen (vtypes fmt [])) with 0 in Hi2. rewrite (proj2 (Z.leb_le szHdr1 _)) by lia. by eexists _, _. }
    rewrite vtypes_cons, alen_app in Hi2. pose proof (alen_nonneg (vtypes fmt vs)). assert (1 <= alen (vput (vtype fmt v'))) by (apply vput_len, vtype_u32; pose proof (fs_ok _ _ _ _ _ _ _ _ Hf') as Hok; by apply Forall_cons in Hok as [? _]).
    rewrite (proj2 (Z.leb_gt szHdr1 _)) by lia. apply (IH (v' :: vs) fuel (i + 1) _ _ B B'); [done|done|cbn in *; lia|done|lia|done].
  - rewrite Efl. cbn [mbind option_bind]. eexists _, _. split; [done|]. destruct (Z.eqb_spec (column_cmp (ki_enc (up_pKeyInfo p)) fl coll v w) 0) as [E0|E0].
    + apply column_zero in E0. rewrite <- Hrc in E0. exfalso. apply Hrc0. by apply Z.sgn_null_iff.
    + by rewrite (proj2 (Z.eqb_neq _ 0) E0).
Qed.
(** ** Records *)

(** A key with the values [ws] *)
Definition key_is (p : UnpackedRecord) (ws : list value) : Prop := ws <> [] /\ key_at p 0 ws /\ up_nField p = alen ws.

Lemma key_at_len p ws : forall i, 0 <= i -> key_at p i ws -> ws <> [] -> i + alen ws <= alen (up_aMem p).
Proof.
  induction ws as [|w ws IH]; intros i Hi Hk Hne; [done|]. destruct Hk as [(m & _ & _ & Em & _) [_ Hk]]. rewrite alen_cons. destruct ws as [|w' ws].
  - change (alen []) with 0. apply aget_range in Em. lia.
  - specialize (IH (i + 1) ltac:(lia) Hk ltac:(done)). lia.
Qed.

(** A record, followed by any bytes *)
Definition record_at (nKey : Z) (aKey : list Z) (vs : list value) : Prop :=
  Forall value_ok vs /\ vs <> [] /\ nKey = alen (record_bytes fmt vs) /\ nKey < 2 ^ 31 /\ exists pad, Forall is_u8 pad /\ aKey = record_bytes fmt vs ++ pad.

Lemma record_start nKey aKey vs : record_at nKey aKey vs ->
  let h := header_size (alen (vtypes fmt vs)) in
  getVarint32 aKey = Some (h, alen (vput h)) /\ h <= nKey /\ is_u32 h /\ (exists rest, aKey = vput h ++ rest) /\
  exists B B', fields_at nKey aKey h (alen (vput h)) h vs B B'.
Proof.
  intros (Hok & _ & -> & Hl & pad & Hpad & ->) h. assert (Hlen : alen (record_bytes fmt vs) = alen (vput h) + alen (vtypes fmt vs) + alen (vdatas fmt vs)) by (unfold record_bytes, record_header; fold h; rewrite !alen_app; lia).
  pose proof (alen_nonneg (vdatas fmt vs)). pose proof (alen_nonneg (vtypes fmt vs)). pose proof (alen_nonneg (vput h)). destruct (record_header_len fmt vs Hok) as [Eh Hu]; [lia|]. fold h in Eh, Hu.
  assert (Er : record_bytes fmt vs ++ pad = vput h ++ vtypes fmt vs ++ vdatas fmt vs ++ pad) by (unfold record_bytes, record_header; by rewrite <- !app_assoc).
  assert (Hb : Forall is_u8 (vdatas fmt vs ++ pad)) by (apply Forall_app; split; [by apply vdatas_bytes|done]).
  split_and!; [|lia|done|by eexists|].
  - rewrite Er. apply get_vput; [done|]. apply Forall_app. split; [by apply vtypes_bytes|done].
  - exists (vdatas fmt vs ++ pad), pad. split; try done; try lia.
    + rewrite Er. apply (at_off_app _ 0); [lia|done].
    + rewrite Er. replace h with (0 + alen (vput h ++ vtypes fmt vs)) at 2 by (rewrite alen_app; lia). apply at_off_app; [lia|]. by rewrite <- app_assoc.
Qed.

Lemma compare_general nKey aKey vs ws p : record_at nKey aKey vs -> key_is p ws -> cmp_outcome p 0 vs ws (sqlite3VdbeRecordCompare toText nKey aKey p).
Proof.
  intros Hr (Hne & Hk & Hn). pose proof Hr as (_ & Hvs & _). destruct (record_start nKey aKey vs Hr) as (E & Hh & Hu & _ & B & B' & Hf). unfold sqlite3VdbeRecordCompare, sqlite3VdbeRecordCompareWithSkip. rewrite E. cbn [mbind option_bind]. rewrite Z.gtb_ltb, (proj2 (Z.ltb_ge nKey _)) by done.
  pose proof (key_at_len p ws 0 ltac:(lia) Hk Hne). apply (loop_ok _ _ _ p ws vs _ 0 _ _ B B'); [done|done|unfold alen in *; lia|done|lia|done].
Qed.

(** [getVarint32] when the first byte is known *)
Lemma get_after1 q b : aget q 0 = Some b -> (if b <? 0x80 then Some (b, 2) else '(s1, n) ← sqlite3GetVarint32 q; Some (s1, 1 + n)) = '(s1, n) ← getVarint32 q; Some (s1, 1 + n).
Proof. intros E. unfold getVarint32. rewrite E. cbn [mbind option_bind]. by destruct (b <? 128). Qed.

Lemma header_byte nKey aKey v vs : record_at nKey aKey (v :: vs) -> header_size (alen (vtypes fmt (v :: vs))) < 128 ->
  let h := header_size (alen (vtypes fmt (v :: vs))) in
  aget aKey 0 = Some h /\ alen (vput h) = 1 /\ exists B B', fields_at nKey aKey h 1 h (v :: vs) B B'.
Proof.
  intros Hr Hh h. destruct (record_start _ _ _ Hr) as (_ & Hle & Hu & [rest Ea] & B & B' & Hf). fold h in Hle, Hu, Hf, Ea. destruct (vput_len h Hu) as (_ & _ & _ & H1 & Hone). rewrite (proj2 H1 Hh) in *. rewrite (Hone Hh) in Ea. split_and!; [by rewrite Ea|done|by exists B, B'].
Qed.

(** The first field is skipped. *)
Lemma compare_skip nKey aKey v vs w ws p : record_at nKey aKey (v :: vs) -> header_size (alen (vtypes fmt (v :: vs))) < 128 -> key_is p (w :: ws) -> ws <> [] -> vs <> [] ->
  cmp_outcome p 1 vs ws (sqlite3VdbeRecordCompareWithSkip toText nKey aKey p true).
Proof.
  intros Hr Hh (_ & Hk & Hn) Hws Hvs. destruct (header_byte _ _ _ _ Hr Hh) as (E0 & _ & B & B' & Hf). set (h := header_size (alen (vtypes fmt (v :: vs)))) in *. pose proof Hf as Hf0. apply fields_at_cons in Hf as (Hfa & Hf & El & _ & Ed & _). destruct Hfa as [_ Hd Hv Et HB _].
  unfold sqlite3VdbeRecordCompareWithSkip. destruct (type_byte aKey 1 v _ ltac:(lia) Hv Et) as (b & Eb & _). rewrite Eb. cbn [mbind option_bind]. rewrite get_after1 by (by rewrite <- aget_at_off). rewrite Et, get_vput by (done || by apply vtype_u32). cbn [mbind option_bind]. rewrite E0. cbn [mbind option_bind]. rewrite El. cbn [mbind option_bind]. rewrite Ed, Z.gtb_ltb, (proj2 (Z.ltb_ge nKey _)) by lia.
  pose proof (key_at_len p (w :: ws) 0 ltac:(lia) Hk ltac:(done)) as Hlen. rewrite alen_cons in Hlen, Hn. destruct Hk as [_ [_ Hk]]. apply (loop_ok _ _ _ p ws vs _ 1 _ _ B B'); [done|done|unfold alen in *; lia|done|lia|done].
Qed.
(** ** The faster comparisons *)

Lemma vtypes_le vs : Forall value_ok vs -> alen (vtypes fmt vs) <= 5 * alen vs.
Proof.
  induction 1 as [|v vs Hv _ IH]; [done|]. rewrite vtypes_cons, alen_app, alen_cons. destruct (vput_len _ (vtype_u32 fmt v Hv)) as (_ & Hl & _). lia.
Qed.

Lemma small_header vs : Forall value_ok vs -> alen vs <= 13 -> header_size (alen (vtypes fmt vs)) < 128.
Proof.
  intros Hok Hl. pose proof (vtypes_le vs Hok). unfold header_size. rewrite (proj2 (Z.leb_le _ 126)); lia.
Qed.

Lemma int_header i vs : Forall value_ok (VInt i :: vs) -> alen (VInt i :: vs) <= 13 -> header_size (alen (vtypes fmt (VInt i :: vs))) .& 0x3F = header_size (alen (vtypes fmt (VInt i :: vs))).
Proof.
  intros Hok Hl. apply Forall_cons in Hok as [Hv Hok]. pose proof (vtypes_le vs Hok). destruct (vtype_class (VInt i) Hv) as [Hc _]. rewrite alen_cons in Hl. rewrite vtypes_cons, alen_app. replace (alen (vput (vtype fmt (VInt i)))) with 1 by (symmetry; apply vput_len; [by apply vtype_u32|lia]).
  pose proof (alen_nonneg (vtypes fmt vs)). unfold header_size. rewrite (proj2 (Z.leb_le _ 126)) by lia. rewrite (land_ones_mod _ 6) by lia. apply Z.mod_small. lia.
Qed.

Lemma outcome_first p v vs w ws fl coll res : aget (ki_aSortFlags (up_pKeyInfo p)) 0 = Some fl -> aget (ki_aColl (up_pKeyInfo p)) 0 = Some coll ->
  column_cmp (ki_enc (up_pKeyInfo p)) fl coll v w <> 0 -> Z.sgn res = column_cmp (ki_enc (up_pKeyInfo p)) fl coll v w -> cmp_outcome p 0 (v :: vs) (w :: ws) (Some (res, p)).
Proof.
  intros Ef Ec Hne Hres. unfold cmp_outcome. cbn [key_cmp]. rewrite Ef, Ec. change (default 0 (Some fl)) with fl. change (default None (Some coll)) with coll. eexists _, _. split; [done|]. rewrite (proj2 (Z.eqb_neq _ 0) Hne). by rewrite (proj2 (Z.eqb_neq _ 0) Hne).
Qed.

Lemma outcome_rest p v vs w ws fl coll r : aget (ki_aSortFlags (up_pKeyInfo p)) 0 = Some fl -> aget (ki_aColl (up_pKeyInfo p)) 0 = Some coll ->
  column_cmp (ki_enc (up_pKeyInfo p)) fl coll v w = 0 -> cmp_outcome p 1 vs ws r -> cmp_outcome p 0 (v :: vs) (w :: ws) r.
Proof.
  intros Ef Ec E0 H. unfold cmp_outcome. cbn [key_cmp length Nat.leb]. rewrite Ef, Ec. change (default 0 (Some fl)) with fl. change (default None (Some coll)) with coll. by rewrite E0, Z.eqb_refl.
Qed.

Lemma outcome_end p i vs : cmp_outcome p i vs [] (Some (up_default_rc p, set_eqSeen p)).
Proof. eexists _, _. split; [done|]. by destruct vs. Qed.

(** What [sqlite3VdbeFindCompare] sets [r1] and [r2] to *)
Definition fast_sign (p : UnpackedRecord) : Prop :=
  exists fl, aget (ki_aSortFlags (up_pKeyInfo p)) 0 = Some fl /\ (fl = 0 /\ up_r1 p = -1 /\ up_r2 p = 1 \/ fl = 1 /\ up_r1 p = 1 /\ up_r2 p = -1).

(** The result of the first field, and else the rest *)
Lemma fast_outcome nKey aKey v vs w ws p coll : record_at nKey aKey (v :: vs) -> alen (v :: vs) <= 13 -> key_is p (w :: ws) -> (length ws <= length vs)%nat -> fast_sign p -> aget (ki_aColl (up_pKeyInfo p)) 0 = Some coll ->
  let c := value_cmp (text_cmp toText coll (ki_enc (up_pKeyInfo p))) v w in
  forall r, r = (if c <? 0 then Some (up_r1 p, p) else if c >? 0 then Some (up_r2 p, p) else if up_nField p >? 1 then sqlite3VdbeRecordCompareWithSkip toText nKey aKey p true else Some (up_default_rc p, set_eqSeen p)) ->
  cmp_outcome p 0 (v :: vs) (w :: ws) r.
Proof.
  intros Hr Hl Hk Hlen (fl & Ef & Hfl) Ec c r ->. assert (Hcol : column_cmp (ki_enc (up_pKeyInfo p)) fl coll v w = if fl =? 0 then c else - c) by (destruct Hfl as [(-> & _) | (-> & _)]; done).
  pose proof (value_cmp_sgn (text_cmp toText coll (ki_enc (up_pKeyInfo p))) v w) as Hs. fold c in Hs. rewrite Z.gtb_ltb. destruct (Z.ltb_spec c 0) as [Hc|Hc]; [|destruct (Z.ltb_spec 0 c) as [Hc'|Hc']].
  - apply (outcome_first p v vs w ws fl coll); [done|done|rewrite Hcol; destruct (fl =? 0); lia|]. rewrite Hcol. destruct Hfl as [(-> & -> & _) | (-> & -> & _)]; cbn; rewrite Z.sgn_neg in Hs by done; lia.
  - apply (outcome_first p v vs w ws fl coll); [done|done|rewrite Hcol; destruct (fl =? 0); lia|]. rewrite Hcol. destruct Hfl as [(-> & _ & ->) | (-> & _ & ->)]; cbn; rewrite Z.sgn_pos in Hs by done; lia.
  - apply (outcome_rest p v vs w ws fl coll); [done|done|rewrite Hcol; destruct (fl =? 0); lia|]. destruct Hk as (_ & Hk & Hn). rewrite alen_cons in Hn. destruct ws as [|w' ws].
    + change (alen []) with 0 in Hn. rewrite Z.gtb_ltb, (proj2 (Z.ltb_ge 1 _)) by lia. apply outcome_end.
    + rewrite alen_cons in Hn. pose proof (alen_nonneg ws). rewrite Z.gtb_ltb, (proj2 (Z.ltb_lt 1 _)) by lia. apply (compare_skip _ _ v vs w (w' :: ws)); [done|by apply small_header; [apply Hr|]|split_and!; [done|done|rewrite !alen_cons; lia]|done|]. intros ->. cbn in Hlen. lia.
Qed.
Lemma compare_Int_ok nKey aKey vs j ws p : record_at nKey aKey vs -> alen vs <= 13 -> key_is p (VInt j :: ws) -> (length ws < length vs)%nat -> fast_sign p -> up_u p = cache_i j ->
  cmp_outcome p 0 vs (VInt j :: ws) (vdbeRecordCompareInt toText nKey aKey p).
Proof.
  intros Hr Hl Hk Hlen Hs Hc. destruct vs as [|v vs]; [cbn in Hlen; lia|]. pose proof Hr as (Hok & _). pose proof (compare_general nKey aKey _ _ p Hr Hk) as HG. destruct (header_byte _ _ _ _ Hr (small_header _ Hok Hl)) as (E0 & _ & B & B' & Hf). pose proof Hf as Hf0. apply fields_at_cons in Hf0 as ([_ Hd Hv Et HB Edata] & _).
  destruct (type_byte aKey 1 v _ ltac:(lia) Hv Et) as (t & Eb & H1 & H2). unfold vdbeRecordCompareInt. rewrite E0, Eb. cbn [mbind option_bind]. rewrite Hc. pose proof (vtype_class v Hv) as Hcl.
  assert (Ht : 2 <= value_rank v -> 12 <= t) by (intros; destruct (Z.ltb_spec (vtype fmt v) 128) as [Hx|Hx]; [rewrite (H1 Hx)|specialize (H2 Hx)]; destruct v; cbn [value_rank] in *; lia).
  destruct v as [|i|r|s|s]; [rewrite H1, Hcl by lia; exact HG| |rewrite H1, Hcl by lia; exact HG|..].
  2-3: specialize (Ht ltac:(done)); clear - HG Ht; destruct t as [|t|t]; [lia| |lia]; do 4 (destruct t as [t|t|]; try lia; try exact HG).
  rewrite int_header, Edata by done. pose proof (decode_int i (vdatas fmt vs ++ B') Hv) as Hdec. rewrite (H1 ltac:(lia)). pose proof Hk as (_ & [(m & fl & coll & _ & _ & _ & _ & Ecoll & _) _] & _).
  apply (fast_outcome nKey aKey (VInt i) vs (VInt j) ws p coll); [done|done|done|cbn in Hlen; lia|done|done|].
  assert (Ec : value_cmp (text_cmp toText coll (ki_enc (up_pKeyInfo p))) (VInt i) (VInt j) = Z.sgn (i - j)) by apply sgn_scale. rewrite Ec. set (skip := if up_nField p >? 1 then _ else _).
  assert (HX : forall X, X = Some i -> (lhs ← X; (if j >? lhs then Some (up_r1 p, p) else if j <? lhs then Some (up_r2 p, p) else skip)) = if Z.sgn (i - j) <? 0 then Some (up_r1 p, p) else if Z.sgn (i - j) >? 0 then Some (up_r2 p, p) else skip).
  { intros X ->. cbn [mbind option_bind]. rewrite !Z.gtb_ltb. destruct (Z.ltb_spec i j); [rewrite Z.sgn_neg by lia; done|]. destruct (Z.ltb_spec j i); [rewrite Z.sgn_pos by lia; done|]. by replace (i - j) with 0 by lia. }
  clearbody skip. clear - HX Hdec. unfold vtype, vdata in *. destruct (int_format_cases fmt i) as [[-> | ->]|?|?|?|?|?|]; [exact (HX (Some 0) eq_refl)|exact (HX (Some 1) eq_refl)|exact (HX _ Hdec)..].
Qed.
(** The serial type, as [vdbeRecordCompareString] reads it *)
Lemma string_type aKey v B : value_ok v -> vtype fmt v < 2 ^ 31 -> Forall is_u8 B -> at_off aKey 1 = vput (vtype fmt v) ++ B ->
  exists b, aget aKey 1 = Some b /\ (if i8 b <? 0 then '(t, _) ← sqlite3GetVarint32 (at_off aKey 1); Some (i32 t) else Some (i8 b)) = Some (vtype fmt v).
Proof.
  intros Hv Hlt HB E. pose proof (vtype_u32 fmt v Hv) as Ht. pose proof (get_vput (vtype fmt v) B Ht HB) as G. destruct (vput_len _ Ht) as (_ & _ & Hb & _ & Hone). rewrite aget_at_off, E by lia. unfold getVarint32 in G. destruct (vput (vtype fmt v)) as [|b l] eqn:Ep.
  { cbn [app] in G. pose proof (vput_len _ Ht) as (_ & Hl & _). rewrite Ep in Hl. change (alen []) with 0 in Hl. lia. }
  apply Forall_cons in Hb as [Hb _]. cbn [app] in *. change (aget (b :: l ++ B) 0) with (Some b) in *. cbn [mbind option_bind] in G. exists b. split; [done|]. unfold is_u8 in Hb. unfold is_u32 in Ht. assert (Hi : i8 b = if b <? 128 then b else b - 256) by (unfold i8, swrap; destruct (Z.ltb_spec b 128); zdm).
  rewrite Hi. destruct (Z.ltb_spec b 128) as [Hs|Hs].
  - rewrite (proj2 (Z.ltb_ge b 0)) by lia. by simplify_eq.
  - rewrite (proj2 (Z.ltb_lt (b - 256) 0)), G by lia. cbn [mbind option_bind]. f_equal. unfold i32, swrap. zdm.
Qed.

Lemma compare_String_ok nKey aKey vs s ws p m0 : record_at nKey aKey vs -> alen vs <= 13 -> nKey <= 1000000000 -> key_is p (VText s :: ws) -> (length ws < length vs)%nat -> fast_sign p ->
  aget (up_aMem p) 0 = Some m0 -> up_u p = cache_z (mem_z m0) -> up_n p = mem_n m0 -> aget (ki_aColl (up_pKeyInfo p)) 0 = Some None ->
  cmp_outcome p 0 vs (VText s :: ws) (vdbeRecordCompareString toText nKey aKey p).
Proof.
  intros Hr Hl Hmax Hk Hlen Hs Em Hu Hn Ecoll. destruct vs as [|v vs]; [cbn in Hlen; lia|]. pose proof Hr as (Hok & _). destruct (header_byte _ _ _ _ Hr (small_header _ Hok Hl)) as (E0 & _ & B & B' & Hf). apply fields_at_cons in Hf as ([_ Hd Hv Et HB Edata] & _). set (h := header_size (alen (vtypes fmt (v :: vs)))) in *.
  pose proof (vtype_class v Hv) as Hcl. assert (Hlt : vtype fmt v < 2 ^ 31) by (destruct v as [| | |u|u]; cbn [vdata] in Hd; try lia; cbn [vtype]; lia). destruct (string_type aKey v _ Hv Hlt HB Et) as (b & Eb & Ety).
  assert (Hcell : mem_n m0 = alen s /\ exists rest, mem_z m0 = s ++ rest). { destruct Hk as (_ & [(m & _ & _ & Em' & ((_ & _ & _ & _ & Hb) & _) & _) _] & _). rewrite Em in Em'. simplify_eq. split; apply Hb. }
  apply (fast_outcome nKey aKey v vs (VText s) ws p None); [done|done|done|cbn in Hlen; lia|done|done|]. unfold vdbeRecordCompareString. rewrite Eb. cbn [mbind option_bind]. rewrite Ety. cbn [mbind option_bind]. rewrite Hu, Hn, E0. cbn [mbind option_bind]. set (skip := if up_nField p >? 1 then _ else _). clearbody skip.
  destruct v as [|i|r|u|u].
  1-3: rewrite (proj2 (Z.ltb_lt (vtype fmt _) 12)) by lia; done.
  - rewrite (proj2 (Z.ltb_ge (vtype fmt _) 12)) by lia. destruct Hcl as [Hcl ->]. rewrite (vtype_bytes _ u) by auto. cbn [vdata] in *. rewrite Z.gtb_ltb, (proj2 (Z.ltb_ge nKey _)) by lia. destruct Hcell as [-> [rest ->]]. rewrite Edata.
    replace (Z.min (alen s) (alen u)) with (if alen u >? alen s then alen s else alen u) by (rewrite Z.gtb_ltb; destruct (Z.ltb_spec (alen s) (alen u)); lia). rewrite memcmp_ok. cbn [mbind option_bind]. pose proof (memcmp_lex u s (vdatas fmt vs ++ B') rest) as L. cbv zeta in L. set (c := memcmp_loop _ _ _) in *.
    assert (Ev : value_cmp (text_cmp toText None (ki_enc (up_pKeyInfo p))) (VText u) (VText s) = Z.sgn (lex u s)) by done. rewrite Ev, <- L, sgn_sgn. clear - Hv. rewrite !Z.gtb_ltb. destruct (Z.eqb_spec c 0) as [->|Hc]; cbn [negb].
    + change (0 <? 0) with false. cbv iota. set (d := alen u - alen s). destruct (Z.eqb_spec d 0) as [->|Hd]; [done|]. destruct (Z.ltb_spec 0 d); [rewrite Z.sgn_pos by lia; done|rewrite Z.sgn_neg by lia; done].
    + destruct (Z.ltb_spec 0 c); [rewrite Z.sgn_pos by lia; done|]. rewrite (proj2 (Z.ltb_lt c 0)) by lia. rewrite Z.sgn_neg by lia. done.
  - rewrite (proj2 (Z.ltb_ge (vtype fmt _) 12)) by lia. destruct Hcl as [Hcl ->]. done.
Qed.
(** ** The comparison of assertions *)

Lemma debug_loop_ok nKey1 aKey1 szHdr1 p : forall ws vs fuel i idx1 d1 B B', ws <> [] -> (length ws <= length vs)%nat -> (length ws <= fuel)%nat -> key_at p i ws -> up_nField p = i + alen ws ->
  fields_at nKey1 aKey1 szHdr1 idx1 d1 vs B B' ->
  exists rc, debug_loop toText fuel nKey1 aKey1 szHdr1 idx1 d1 i p = Some rc /\ let c := key_cmp (up_pKeyInfo p) i vs ws in if c =? 0 then rc = up_default_rc p else Z.sgn rc = c.
Proof.
  intros ws. induction ws as [|w ws IH]; intros [|v vs] fuel i idx1 d1 B B' Hne Hl Hfuel Hkey Hn Hf; [done|done|cbn in Hl; lia|].
  destruct fuel as [|fuel]; [cbn in Hfuel; lia|]. apply fields_at_cons in Hf as ([_ Hd Hv Et HB Edata] & Hf' & El & Ev & Ed & Ei). destruct Hkey as [(m & fl & coll & Em & Hm & Efl & Hfl & Ecoll & Hcoll) [Hall Hkey]]. cbn [debug_loop key_cmp].
  rewrite Et, get_vput by (done || by apply vtype_u32). cbn [mbind option_bind]. rewrite El. cbn [mbind option_bind]. rewrite !Z.gtb_ltb, (proj2 (Z.ltb_ge nKey1 (d1 + alen (vdata fmt v)))), andb_false_r, Edata by lia.
  destruct (field_get fmt v (vdatas fmt vs ++ B') (MkMem (U_i 0) [] 0 0 (ki_enc (up_pKeyInfo p))) Hv) as (m' & -> & Hm' & He'). cbn [mbind option_bind]. rewrite Em. cbn [mbind option_bind]. rewrite (proj2 (Z.ltb_lt i _)), Ecoll by done. cbn [mbind option_bind].
  cbn [mem_enc] in He'. destruct Hm as (Hmw & He & Hmk). destruct (mem_compare toText m' m v w coll Hm' Hmw) as (c & -> & Hc); [congruence|]. cbn [mbind option_bind]. rewrite He' in Hc. rewrite Efl. change (default 0 (Some fl)) with fl. change (default None (Some coll)) with coll.
  destruct (Z.eqb_spec c 0) as [->|Hc0]; cbn [negb].
  - assert (E0 : column_cmp (ki_enc (up_pKeyInfo p)) fl coll v w = 0) by (apply column_zero; by rewrite <- Hc). rewrite E0, Z.eqb_refl, Ei, Ed. rewrite alen_cons in Hn. destruct ws as [|w' ws].
    { change (alen []) with 0 in Hn. rewrite (proj2 (Z.ltb_ge (i + 1) _)), andb_false_r by lia. eexists. split; [done|]. by destruct vs. }
    destruct vs as [|v' vs]; [cbn in Hl; lia|]. pose proof Hn as Hn'. rewrite alen_cons in Hn'. pose proof (alen_nonneg ws). destruct (fs_idx _ _ _ _ _ _ _ _ Hf') as (_ & Hi2 & _). rewrite vtypes_cons, alen_app in Hi2. pose proof (alen_nonneg (vtypes fmt vs)).
    assert (1 <= alen (vput (vtype fmt v'))) by (apply vput_len, vtype_u32; pose proof (fs_ok _ _ _ _ _ _ _ _ Hf') as Hok; by apply Forall_cons in Hok as [? _]). rewrite (proj2 (Z.ltb_lt _ szHdr1)), (proj2 (Z.ltb_lt (i + 1) _)) by lia. cbn [andb]. apply (IH (v' :: vs) fuel (i + 1) _ _ B B'); [done|cbn in *; lia|cbn in *; lia|done|lia|done].
  - cbn [mbind option_bind]. eexists. split; [done|]. assert (Hcol : Z.sgn (if has fl KEYINFO_ORDER_DESC then - (if has fl KEYINFO_ORDER_BIGNULL && (has (mem_flags m') MEM_Null || has (mem_flags m) MEM_Null) then - c else c) else if has fl KEYINFO_ORDER_BIGNULL && (has (mem_flags m') MEM_Null || has (mem_flags m) MEM_Null) then - c else c) = column_cmp (ki_enc (up_pKeyInfo p)) fl coll v w).
    { unfold column_cmp. rewrite <- Hc. rewrite (mem_null m' v Hm'), (mem_null m w Hmw). destruct (has fl KEYINFO_ORDER_DESC), (has fl KEYINFO_ORDER_BIGNULL), (is_null v || is_null w); cbn [andb]; rewrite ?Z.sgn_opp; done. }
    destruct (Z.eqb_spec (column_cmp (ki_enc (up_pKeyInfo p)) fl coll v w) 0) as [E0|E0]; [|by rewrite (proj2 (Z.eqb_neq _ 0) E0)]. apply column_zero in E0. rewrite <- Hc in E0. exfalso. apply Hc0. by apply Z.sgn_null_iff.
Qed.
Lemma debug_true nKey aKey vs ws p res p' : record_at nKey aKey vs -> key_is p ws -> (length ws <= length vs)%nat -> cmp_outcome p 0 vs ws (Some (res, p')) -> vdbeRecordCompareDebug toText nKey aKey p res = Some true.
Proof.
  intros Hr (Hne & Hk & Hn) Hl (res' & q & [= <- <-] & Hout). rewrite (proj2 (Nat.leb_le _ _) Hl) in Hout. destruct (record_start nKey aKey vs Hr) as (E & Hh & Hu & _ & B & B' & Hf). unfold vdbeRecordCompareDebug. rewrite E. cbn [mbind option_bind]. destruct (_ >? 98307); [done|].
  pose proof (key_at_len p ws 0 ltac:(lia) Hk Hne). set (h := header_size (alen (vtypes fmt vs))) in *. destruct (debug_loop_ok nKey aKey h p ws vs (S (length (up_aMem p))) 0 (alen (vput h)) h B B' Hne Hl) as (rc & -> & Hrc); [unfold alen in *; lia|done|lia|done|]. cbn [mbind option_bind]. cbv zeta in *. f_equal.
  assert (Hs : Z.sgn res = Z.sgn rc) by (destruct (Z.eqb_spec (key_cmp (up_pKeyInfo p) 0 vs ws) 0); cbn [negb] in Hout; destruct Hout as [Hout _]; congruence). destruct res, rc; done.
Qed.

(** ** The choice of the comparison *)

Lemma key_at_ext p q ws : up_pKeyInfo q = up_pKeyInfo p -> up_aMem q = up_aMem p -> forall i, key_at p i ws -> key_at q i ws.
Proof. intros E1 E2. induction ws as [|w ws IH]; intros i; [done|]. cbn [key_at]. rewrite E1, E2. intros (H1 & H2 & H3). auto. Qed.

Lemma key_is_ext p q ws : up_pKeyInfo q = up_pKeyInfo p -> up_aMem q = up_aMem p -> up_nField q = up_nField p -> key_is p ws -> key_is q ws.
Proof. intros E1 E2 E3 (H1 & H2 & H3). split_and!; [done|by eapply key_at_ext|by rewrite E3]. Qed.

(** The key that the chosen comparison gets: only [r1], [r2], [u] and [n] are changed. *)
Definition same_key (p q : UnpackedRecord) : Prop :=
  up_pKeyInfo q = up_pKeyInfo p /\ up_aMem q = up_aMem p /\ up_nField q = up_nField p /\ up_default_rc q = up_default_rc p /\ up_errCode q = up_errCode p /\ up_eqSeen q = up_eqSeen p.

(** What is chosen, and what is cached for it *)
Inductive chosen (p q : UnpackedRecord) (ws : list value) : RecordCompare -> Prop :=
| ch_general : chosen p q ws cmp_general
| ch_Int j ws' : ws = VInt j :: ws' -> ki_nAllField (up_pKeyInfo p) <= 13 -> fast_sign q -> up_u q = cache_i j -> chosen p q ws cmp_Int
| ch_String s ws' m0 : ws = VText s :: ws' -> ki_nAllField (up_pKeyInfo p) <= 13 -> fast_sign q -> aget (up_aMem q) 0 = Some m0 -> up_u q = cache_z (mem_z m0) -> up_n q = mem_n m0 ->
    aget (ki_aColl (up_pKeyInfo q)) 0 = Some None -> chosen p q ws cmp_String.

Lemma find_cases p ws : key_is p ws -> exists c q, sqlite3VdbeFindCompare p = Some (c, q) /\ same_key p q /\ chosen p q ws c.
Proof.
  intros Hk. unfold sqlite3VdbeFindCompare. destruct (Z.leb_spec (ki_nAllField (up_pKeyInfo p)) 13) as [H13|]; [|exists cmp_general, p; by split_and!; [..|constructor]].
  destruct ws as [|w ws]; [by destruct Hk|]. pose proof Hk as (_ & [(m & fl & coll & Em & Hm & Efl & Hfl & Ecoll & Hcoll) _] & _). rewrite Em, Efl. cbn [mbind option_bind]. cbv zeta.
  destruct (negb (fl =? 0) && has fl KEYINFO_ORDER_BIGNULL) eqn:Eb; [exists cmp_general, p; by split_and!; [..|constructor]|].
  set (q := if negb (fl =? 0) then set_r1r2 1 (-1) p else set_r1r2 (-1) 1 p). assert (Hq : same_key p q) by (subst q; by destruct (negb _)). assert (Ek : up_pKeyInfo q = up_pKeyInfo p) by apply Hq. rewrite Ek, Ecoll. cbn [mbind option_bind].
  assert (Hsign : forall u n, fast_sign (set_cache u n q)). { intros u n. exists fl. cbn. rewrite Ek. split; [done|]. assert (fl = 0 \/ fl = 1 \/ fl = 2 \/ fl = 3) as [-> | [-> | [-> | ->]]] by lia; [left|right|done|done]; done. }
  destruct (has (mem_flags m) MEM_Int) eqn:Ei.
  - destruct w as [|j|r|s|s]; [destruct Hm as (_ & _ & Hx & _)| |destruct Hm as ((_ & Hx & _) & _)..]; [by rewrite !has_mask, Ei in Hx| |by rewrite !has_mask, Ei in Hx..].
    destruct Hm as ((_ & _ & _ & Eu & _) & _). unfold u_i. rewrite Eu. cbn [mbind option_bind]. exists cmp_Int, (set_cache (cache_i j) (up_n q) q). split; [done|]. split; [exact Hq|]. by eapply ch_Int.
  - destruct (has (mem_flags m) (MEM_Real .| MEM_IntReal .| MEM_Null .| MEM_Blob)) eqn:Er; cbn [negb]; [exists cmp_general, q; by split_and!; [..|constructor]|].
    destruct coll as [coll|]; [exists cmp_general, q; by split_and!; [..|constructor]|]. exists cmp_String, (set_cache (cache_z (mem_z m)) (mem_n m) q). split; [done|]. split; [exact Hq|].
    rewrite !has_mask in Er. apply orb_false_iff in Er as [Er E4]. apply orb_false_iff in Er as [Er E3]. apply orb_false_iff in Er as [E1 E2]. destruct w as [|j|r|s|s].
    + destruct Hm as [Hx _]. cbn in Hx. congruence.
    + destruct Hm as [(_ & Hx & _) _]. by rewrite has_mask, Ei, E2 in Hx.
    + destruct Hm as [(_ & _ & Hx & _) _]. congruence.
    + destruct Hq as (_ & Eq & _). apply (ch_String _ _ _ s ws m); try done; [by cbn; rewrite Eq|by cbn; rewrite Ek].
    + destruct Hm as (_ & _ & Hx). congruence.
Qed.

Lemma find_compare nKey aKey vs ws p : record_at nKey aKey vs -> nKey <= 1000000000 -> key_is p ws -> (length ws <= length vs)%nat -> alen vs <= ki_nAllField (up_pKeyInfo p) ->
  exists c q, sqlite3VdbeFindCompare p = Some (c, q) /\ same_key p q /\ cmp_outcome q 0 vs ws (xRecordCompare toText c nKey aKey q).
Proof.
  intros Hr Hmax Hk Hl Hall. destruct (find_cases p ws Hk) as (c & q & Ec & Hq & Hc). exists c, q. split; [done|]. split; [done|]. assert (Hkq : key_is q ws) by (destruct Hq as (E1 & E2 & E3 & _); by eapply key_is_ext).
  destruct Hc as [|j ws' -> H13 Hs Hu|s ws' m0 -> H13 Hs Em Hu Hn Ecoll]; [by apply compare_general| |].
  - apply compare_Int_ok; try done; lia.
  - apply (compare_String_ok nKey aKey vs s ws' q m0); try done; lia.
Qed.

(** C19. [sqlite3VdbeRecordCompare] orders records.  For a record of the values [vs], followed by any bytes, and a key with the values [ws], the comparison reads nothing outside of the buffer and its result has the sign of
    the first field that differs, in the order of its column: by the exact value of numbers, the collating sequence of the column for text or bytes, with NULL as the least value or as the greatest (BIGNULL), ascending or
    descending (DESC).  The key is then unchanged.  When no field differs, [default_rc] is returned and [eqSeen] is set, also when the record has more fields than the key; a record with fewer fields is SQLITE_CORRUPT. *)
Theorem sqlite3VdbeRecordCompare_orders nKey1 aKey1 vs ws p :
  record_at nKey1 aKey1 vs -> key_is p ws ->
  let c := key_cmp (up_pKeyInfo p) 0 vs ws in
  exists res p', sqlite3VdbeRecordCompare toText nKey1 aKey1 p = Some (res, p') /\
    if negb (c =? 0) then Z.sgn res = c /\ p' = p
    else if (length ws <=? length vs)%nat then res = up_default_rc p /\ p' = set_eqSeen p
    else res = 0 /\ p' = set_errCode SQLITE_CORRUPT p.
Proof. intros Hr Hk. by apply compare_general. Qed.

(** C20. The comparison that [sqlite3VdbeFindCompare] chooses is equivalent to [sqlite3VdbeRecordCompare]: [vdbeRecordCompareInt] and [vdbeRecordCompareString], which decode the first field themselves and take its
    place, the size of the header from one byte and the results from [r1] and [r2], give for every record of at most [nAllField] fields that has all the fields of the key a result of the same sign, and the same [errCode] and
    [eqSeen].  The comparison with which debug builds check these results, [vdbeRecordCompareDebug], which unpacks each field and uses [sqlite3MemCompare], agrees with both: its assertions hold. *)
Theorem sqlite3VdbeFindCompare_equiv nKey1 aKey1 vs ws p :
  record_at nKey1 aKey1 vs -> nKey1 <= SQLITE_MAX_LENGTH -> key_is p ws -> (length ws <= length vs)%nat -> alen vs <= ki_nAllField (up_pKeyInfo p) ->
  exists c q res q' res0 p',
    sqlite3VdbeFindCompare p = Some (c, q) /\ xRecordCompare toText c nKey1 aKey1 q = Some (res, q') /\ sqlite3VdbeRecordCompare toText nKey1 aKey1 p = Some (res0, p') /\
    Z.sgn res = Z.sgn res0 /\ up_errCode q' = up_errCode p' /\ up_eqSeen q' = up_eqSeen p' /\
    vdbeRecordCompareDebug toText nKey1 aKey1 q res = Some true /\ vdbeRecordCompareDebug toText nKey1 aKey1 p res0 = Some true.
Proof.
  intros Hr Hmax Hk Hl Hall. destruct (find_compare nKey1 aKey1 vs ws p Hr Hmax Hk Hl Hall) as (c & q & Ec & Hq & Hout). pose proof (compare_general nKey1 aKey1 vs ws p Hr Hk) as Hout0.
  pose proof Hq as (E1 & E2 & E3 & E4 & E5 & E6). assert (Hkq : key_is q ws) by (by eapply key_is_ext). pose proof Hout as (res & q' & Er & Ho). pose proof Hout0 as (res0 & p' & Er0 & Ho0). exists c, q, res, q', res0, p'.
  rewrite Er in Hout. rewrite Er0 in Hout0. split_and!; [done|done|done| | | |by apply (debug_true _ _ vs ws q res q')|by apply (debug_true _ _ vs ws p res0 p')].
  all: rewrite E1, (proj2 (Nat.leb_le _ _) Hl), ?E4 in Ho; rewrite (proj2 (Nat.leb_le _ _) Hl) in Ho0; destruct (negb _); destruct Ho as [H1 H2], Ho0 as [H3 H4]; subst; cbn; congruence.
Qed.
End Spec.

(** An index on two columns, the second descending and with NULL as the greatest value *)
Definition demo_keyinfo : KeyInfo := MkKeyInfo 1 3 [0; 3; 0] [None; Some (MkCollSeq 1 lex); None].
Definition demo_key : UnpackedRecord :=
  MkUnpacked demo_keyinfo [MkMem (U_i 300) [] 0 MEM_Int 1; MkMem (U_i 0) [98; 0] 1 (MEM_Str .| MEM_Term) 1] (cache_i 0) 0 2 1 0 0 0 false.

Definition demo_record : list Z := record_bytes 4 [VInt 300; VText [97]; VInt 7].

Lemma demo_record_at : record_at 4 8 (demo_record ++ [255]) [VInt 300; VText [97]; VInt 7].
Proof.
  split_and!; [|done|vm_compute; reflexivity|lia|exists [255]; split; [by repeat constructor|done]]. repeat constructor; unfold is_i64; lia.
Qed.

Lemma demo_key_is : key_is (fun _ _ s => Some s) demo_key [VInt 300; VText [98]].
Proof.
  split_and!; [done| |done]. split; [|split; [done|split; [|split; [done|done]]]].
  - eexists _, _, _. split; [reflexivity|]. split; [split_and!; try done; unfold is_i64; lia|]. split; [reflexivity|]. split; [lia|]. by split.
  - eexists _, _, _. split; [reflexivity|]. split; [|split; [reflexivity|]; split; [lia|]; split; [reflexivity|by left]]. split; [|by split]. split; [done|]. split; [done|]. split; [done|]. split; [done|]. split; [done|]. split; [repeat constructor; by vm_compute|by exists [0]].
Qed.

Lemma sqlite3VdbeRecordCompare_orders_witness : exists res p', sqlite3VdbeRecordCompare (fun _ _ s => Some s) 8 (demo_record ++ [255]) demo_key = Some (res, p') /\ Z.sgn res = 1 /\ p' = demo_key.
Proof.
  destruct (sqlite3VdbeRecordCompare_orders 4 (fun _ _ s => Some s) 8 (demo_record ++ [255]) [VInt 300; VText [97]; VInt 7] [VInt 300; VText [98]] demo_key demo_record_at demo_key_is) as (res & p' & E & H). exists res, p'. split; [exact E|]. exact H.
Defined.

Lemma sqlite3VdbeFindCompare_equiv_witness : exists c q res q' res0 p',
    sqlite3VdbeFindCompare demo_key = Some (c, q) /\ xRecordCompare (fun _ _ s => Some s) c 8 (demo_record ++ [255]) q = Some (res, q') /\ sqlite3VdbeRecordCompare (fun _ _ s => Some s) 8 (demo_record ++ [255]) demo_key = Some (res0, p') /\
    Z.sgn res = Z.sgn res0 /\ up_errCode q' = up_errCode p' /\ up_eqSeen q' = up_eqSeen p' /\
    vdbeRecordCompareDebug (fun _ _ s => Some s) 8 (demo_record ++ [255]) q res = Some true /\ vdbeRecordCompareDebug (fun _ _ s => Some s) 8 (demo_record ++ [255]) demo_key res0 = Some true.
Proof.
  apply (sqlite3VdbeFindCompare_equiv 4 (fun _ _ s => Some s) 8 (demo_record ++ [255]) [VInt 300; VText [97]; VInt 7] [VInt 300; VText [98]] demo_key demo_record_at); [unfold SQLITE_MAX_LENGTH; lia|exact demo_key_is|cbn; lia|vm_compute; discriminate].
Defined.
