(* ===== verification/RecSafe.v ===== *)
(** * Records of a corrupt database

    Whatever the bytes of a record are, reading it and comparing it stays in its buffer, which has 74 bytes
    more than the record. *)
From S2P Require Import Prelude Varint Bytes FileIO Ints Double VdbeMem VdbeRec RecSpec VdbeCmp RecCmp.

(** ** Buffers *)

(** [nKey] bytes of a record, in a buffer with room *)
Definition padded (nKey : Z) (aKey : list Z) : Prop := 0 <= nKey < 2 ^ 31 /\ Forall is_u8 aKey /\ nKey + 74 <= alen aKey.

Lemma at_off_len (p : list Z) off : 0 <= off <= alen p -> alen (at_off p off) = alen p - off.
Proof. intros H. unfold at_off, alen in *. rewrite length_drop. lia. Qed.

Lemma at_off_u8 p off : Forall is_u8 p -> Forall is_u8 (at_off p off).
Proof. apply Forall_drop. Qed.

Lemma ref_total k : forall n acc p, (k < length p)%nat -> exists v n', varint_ref k n acc p = Some (v, n') /\ n < n' <= n + Z.of_nat k + 1.
Proof.
  induction k as [|k IH]; intros n acc [|b p] Hl; cbn [length] in Hl; try lia; cbn [varint_ref].
  - eexists _, _. split; [done|]. lia.
  - destruct (b <? 128); [eexists _, _; split; [done|]; lia|]. destruct (IH (n + 1) (acc * 128 + (b - 128)) p ltac:(lia)) as (v & n' & -> & Hn). eexists _, _. split; [done|]. lia.
Qed.

Lemma get_total p : Forall is_u8 p -> 9 <= alen p -> exists t n, getVarint32 p = Some (t, n) /\ is_u32 t /\ 1 <= n <= 9.
Proof.
  intros Hp Hl. destruct p as [|b p]; [change (alen []) with 0 in Hl; lia|]. unfold getVarint32. change (aget (b :: p) 0) with (Some b). cbn [mbind option_bind]. pose proof Hp as [Hb _]%Forall_cons. unfold is_u8 in Hb. destruct (Z.ltb_spec b 128) as [Hs|Hs].
  - eexists _, _. split; [done|]. unfold is_u32. lia.
  - rewrite sqlite3GetVarint32_saturates by (done || by exists b, p). rewrite getvarint_is_spec by done. unfold varint_spec. destruct (ref_total 8 0 0 (b :: p) ltac:(unfold alen in Hl; lia)) as (v & n & E & Hn). rewrite E. cbn [mbind option_bind]. eexists _, _. split; [done|]. split; [|lia].
    pose proof (ref_nonneg _ _ _ _ _ _ Hp E ltac:(lia)). unfold is_u32. lia.
Qed.

Lemma typelen_total t : is_u32 t -> exists len, sqlite3VdbeSerialTypeLen t = Some len /\ 0 <= len < 2 ^ 31.
Proof.
  unfold is_u32. intros Ht. unfold sqlite3VdbeSerialTypeLen. destruct (Z.geb_spec t 128) as [Hs|Hs]; [eexists; split; [done|]; zdm|].
  assert (H : forallb (fun t => match aget sqlite3SmallTypeSizes t with Some n => (0 <=? n) && (n <? 2 ^ 31) | None => false end) (seqZ 0 128) = true) by (vm_compute; done).
  rewrite forallb_forall in H. specialize (H t ltac:(apply list_elem_of_In, elem_of_seqZ; lia)). destruct (aget sqlite3SmallTypeSizes t) as [n|]; [|done]. exists n. split; [done|]. lia.
Qed.

Lemma varint_len_range t : is_u32 t -> 1 <= sqlite3VarintLen t <= 5.
Proof. intros Ht. rewrite varint_len_cases by done. repeat destruct (_ <? _); lia. Qed.

(** ** Fields *)

Lemma first_eight p : 8 <= alen p -> Forall is_u8 p -> exists x0 x1 x2 x3 x4 x5 x6 x7 r, p = x0 :: x1 :: x2 :: x3 :: x4 :: x5 :: x6 :: x7 :: r /\
  is_u8 x0 /\ is_u8 x1 /\ is_u8 x2 /\ is_u8 x3 /\ is_u8 x4 /\ is_u8 x5 /\ is_u8 x6 /\ is_u8 x7.
Proof.
  intros Hl Hp. unfold alen in Hl. do 8 (destruct p as [|? p]; [cbn in Hl; lia|]). eexists _, _, _, _, _, _, _, _, p. split; [reflexivity|]. repeat (apply Forall_cons in Hp as [? Hp]). by split_and!.
Qed.

Lemma i8_range x : - 128 <= i8 x < 128.
Proof. unfold i8, swrap. zdm. Qed.

Lemma i64_in_range x : is_i64 (i64 x).
Proof. unfold is_i64, i64, swrap. zdm. Qed.

(** Serial types by what is read *)
Inductive type_class (t : Z) : Prop :=
| tc_null : t = 0 \/ t = 10 \/ t = 11 -> type_class t
| tc_int : 1 <= t <= 6 -> type_class t
| tc_real : t = 7 -> type_class t
| tc_const : t = 8 \/ t = 9 -> type_class t
| tc_bytes : 12 <= t -> type_class t.

Lemma type_classes t : 0 <= t -> type_class t.
Proof.
  intros Ht. destruct (Z.leb_spec 12 t); [by apply tc_bytes|]. destruct (Z.eqb_spec t 0); [apply tc_null; lia|]. destruct (Z.leb_spec t 6); [apply tc_int; lia|].
  destruct (Z.eqb_spec t 7); [by apply tc_real|]. destruct (Z.leb_spec t 9); [apply tc_const; lia|apply tc_null; lia].
Qed.

Lemma get_int_total p t m : 1 <= t <= 6 -> 8 <= alen p -> Forall is_u8 p -> exists i, sqlite3VdbeSerialGet p t m = Some (set_u (U_i i) MEM_Int m) /\ is_i64 i.
Proof.
  intros Ht Hl Hp. destruct (first_eight p Hl Hp) as (x0 & x1 & x2 & x3 & x4 & x5 & x6 & x7 & r & -> & H0 & H1 & H2 & H3 & H4 & H5 & H6 & H7). pose proof (i8_range x0) as R.
  assert (t = 1 \/ t = 2 \/ t = 3 \/ t = 4 \/ t = 5 \/ t = 6) as [-> | [-> | [-> | [-> | [-> | ->]]]]] by lia; unfold sqlite3VdbeSerialGet.
  - rewrite ONE_BYTE_INT_val. eexists. split; [done|]. unfold is_i64. lia.
  - rewrite TWO_BYTE_INT_val by done. eexists. split; [done|]. unfold is_i64, is_u8 in *. lia.
  - rewrite THREE_BYTE_INT_val by done. eexists. split; [done|]. unfold is_i64, is_u8 in *. lia.
  - rewrite FOUR_BYTE_INT_val by done. eexists. split; [done|]. unfold is_i64, is_u8 in *. lia.
  - cbn [drop]. rewrite FOUR_BYTE_UINT_val by done. cbn [mbind option_bind]. rewrite TWO_BYTE_INT_val by done. eexists. split; [done|]. change (1 << 32) with (2 ^ 32). unfold is_i64, is_u8 in *. lia.
  - unfold serialGet, eight_bytes. rewrite FOUR_BYTE_UINT_val by done. cbn [drop mbind option_bind]. rewrite FOUR_BYTE_UINT_val by done. eexists. split; [done|]. apply i64_in_range.
Qed.

Lemma get7_total p m : 8 <= alen p -> Forall is_u8 p -> exists x, eight_bytes p = Some x /\ serialGet7 p m = Some (IsNaN x, set_u (U_r x) (if IsNaN x then MEM_Null else MEM_Real) m).
Proof.
  intros Hl Hp. destruct (first_eight p Hl Hp) as (x0 & x1 & x2 & x3 & x4 & x5 & x6 & x7 & r & -> & H0 & H1 & H2 & H3 & H4 & H5 & H6 & H7). unfold serialGet7. unfold eight_bytes. rewrite FOUR_BYTE_UINT_val by done. cbn [drop mbind option_bind]. rewrite FOUR_BYTE_UINT_val by done. cbn [mbind option_bind]. eexists. split; [done|]. by destruct (IsNaN _).
Qed.

(** A field that is in the buffer is read as a cell with a value. *)
Lemma get_cell p t m : 0 <= t -> 8 <= alen p -> Forall is_u8 p -> exists m', sqlite3VdbeSerialGet p t m = Some m' /\ mem_enc m' = mem_enc m /\ ((t < 12 \/ (t - 12) / 2 <= alen p) -> exists v, key_cell (mem_enc m) m' v).
Proof.
  intros Ht Hl Hp. destruct (type_classes t Ht) as [H|H|H|H|H].
  - destruct H as [-> | [-> | ->]]; eexists; (split; [done|]); (split; [done|]); intros _; by exists VNull.
  - destruct (get_int_total p t m H Hl Hp) as (i & -> & Hi). eexists. split; [done|]. split; [done|]. intros _. exists (VInt i). by split_and!.
  - subst t. destruct (get7_total p m Hl Hp) as (x & E & _). unfold sqlite3VdbeSerialGet, serialGet. rewrite E. cbn [mbind option_bind]. change (7 =? 6) with false. cbv iota. eexists. split; [done|]. split; [done|]. intros _. destruct (IsNaN x) eqn:En; [by exists VNull|]. exists (VReal x). by split_and!.
  - destruct H as [-> | ->]; eexists; (split; [done|]); (split; [done|]); intros _; [exists (VInt 0)|exists (VInt 1)]; by split_and!.
  - rewrite serialGet_str by done. eexists. split; [done|]. split; [done|]. intros [?|Hn]; [lia|]. assert (Hn0 : 0 <= (t - 12) / 2) by (apply Z.div_pos; lia). set (n := (t - 12) / 2) in *.
    assert (Hb : forall f, mem_bytes (MkMem (mem_u m) p n f (mem_enc m)) (take (Z.to_nat n) p)) by (intros f; split_and!; [unfold alen in *; rewrite length_take; cbn [mem_n]; lia|by apply Forall_take|exists (drop (Z.to_nat n) p); cbn [mem_z]; by rewrite take_drop]).
    destruct (t .& 1 =? 0); [exists (VBlob (take (Z.to_nat n) p))|exists (VText (take (Z.to_nat n) p))]; (split; [|done]); repeat (split; [done|]); [left; split; [done|]|]; apply Hb.
Qed.

(** ** Unpacking *)

Definition some_cell (enc : Z) (m : Mem) : Prop := exists v, key_cell enc m v.

Lemma unpack_total nKey aKey szHdr m0 : padded nKey aKey -> szHdr <= nKey -> forall n idx d, 0 <= idx -> 0 <= d < 2 ^ 32 ->
  exists ms d', unpack_loop n aKey nKey szHdr idx d m0 = Some (ms, d') /\ (length ms <= n)%nat /\ Forall (fun m => mem_enc m = mem_enc m0) ms /\ Forall (some_cell (mem_enc m0)) (if d' >? nKey then removelast ms else ms) /\ (ms = [] -> d' = d).
Proof.
  intros (Hk & Hu & Hpad) Hsz n. induction n as [|n IH]; intros idx d Hi Hd; cbn [unpack_loop]; [exists [], d; split_and!; try done; by destruct (_ >? _)|].
  destruct (Z.ltb_spec idx szHdr) as [Hlt|]; [|exists [], d; cbn [andb]; split_and!; try done; [cbn; lia|by destruct (_ >? _)]]. destruct (Z.leb_spec d nKey) as [Hle|]; [|exists [], d; cbn [andb]; split_and!; try done; [cbn; lia|by destruct (_ >? _)]]. cbn [andb].
  destruct (get_total (at_off aKey idx)) as (t & k & E & Ht & Hkk); [by apply at_off_u8|rewrite at_off_len; lia|]. unfold at_off in E. rewrite E. cbn [mbind option_bind]. unfold is_u32 in Ht.
  assert (Hoff : alen (at_off aKey d) = alen aKey - d) by (apply at_off_len; lia). destruct (get_cell (at_off aKey d) t m0) as (m & Em & He & Hcell); [lia|lia|by apply at_off_u8|]. unfold at_off in Em. rewrite Em. cbn [mbind option_bind].
  destruct (typelen_total t) as (len & El & Hlen); [done|]. rewrite El. cbn [mbind option_bind]. unfold u32. rewrite (Z.mod_small (d + len)), (Z.mod_small (idx + k)) by lia.
  destruct (IH (idx + k) (d + len)) as (ms & d' & Er & Hms & Hen & HF & Hnil); [lia|lia|]. rewrite Er. cbn [mbind option_bind]. exists (m :: ms), d'. split_and!; [done|cbn; lia|by constructor| |done].
  assert (Hc : d + len <= nKey -> some_cell (mem_enc m0) m). { intros Hin. apply Hcell. destruct (Z.leb_spec 12 t); [right|left; lia]. rewrite (serial_len_str t _ ltac:(lia) eq_refl) in El. simplify_eq. lia. }
  assert (Hd' : nKey < d + len -> ms = [] /\ d' = d + len). { intros Hout. destruct n as [|n]; cbn [unpack_loop] in Er; [by simplify_eq|]. rewrite (proj2 (Z.leb_gt (d + len) nKey)), andb_false_r in Er by lia. by simplify_eq. }
  rewrite Z.gtb_ltb in *. destruct (Z.leb_spec (d + len) nKey) as [Hin|Hout].
  - specialize (Hc Hin). destruct (nKey <? d') eqn:Ed; [|by constructor]. destruct ms as [|m' ms]; [rewrite Hnil in Ed by done; apply Z.ltb_lt in Ed; lia|]. cbn [removelast]. by constructor.
  - destruct (Hd' Hout) as [-> ->]. rewrite (proj2 (Z.ltb_lt _ _)) by lia. done.
Qed.

Lemma set_null_cell enc m : mem_enc m = enc -> some_cell enc (sqlite3VdbeMemSetNull m).
Proof. intros He. exists VNull. by split_and!. Qed.

Lemma unpack_safe enc nKey aKey n : padded nKey aKey -> exists ms, sqlite3VdbeRecordUnpack enc nKey aKey n = Some ms /\ (length ms <= Nat.max 1 n)%nat /\ Forall (some_cell enc) ms.
Proof.
  intros Hp. pose proof Hp as (Hk & Hu & Hpad). unfold sqlite3VdbeRecordUnpack. destruct (get_total aKey Hu) as (sz & k & -> & Hsz & Hkk); [lia|]. cbn [mbind option_bind]. unfold is_u32 in Hsz. set (m0 := MkMem (U_i 0) [] 0 0 enc). destruct (Z.leb_spec sz nKey) as [Hle|Hgt].
  - destruct (unpack_total nKey aKey sz m0 Hp Hle (Nat.max 1 n) k sz) as (ms & d & -> & Hl & Hen & HF & _); [lia|lia|]. cbn [mbind option_bind]. eexists. split; [done|]. destruct (_ >? _); cbn [andb]; [|done]. destruct (bool_decide_reflect (ms = [])) as [->|Hne]; cbn [negb]; [done|].
    destruct (exists_last Hne) as (ini & x & ->). rewrite removelast_last in *. rewrite last_snoc. change (sqlite3VdbeMemSetNull <$> option_list (Some x)) with [sqlite3VdbeMemSetNull x]. split; [rewrite length_app in *; cbn [length] in *; lia|]. apply Forall_app. split; [done|]. constructor; [|done]. apply set_null_cell. apply Forall_app in Hen as [_ Hen]. by apply Forall_cons in Hen as [? _].
  - destruct (Nat.max 1 n) as [|n'] eqn:En; [lia|]. cbn [unpack_loop]. rewrite (proj2 (Z.leb_gt sz nKey)), andb_false_r by lia. cbn [mbind option_bind]. rewrite bool_decide_true by done. cbn [negb]. rewrite andb_false_r. eexists. split; [done|]. split; [cbn; lia|done].
Qed.

(** ** Comparison *)

Section Safe.
Context (toText : Z -> Z -> list Z -> option (list Z)).

Lemma decode_int_total p t : 1 <= t <= 9 -> 8 <= alen p -> Forall is_u8 p -> is_Some (vdbeRecordDecodeInt t p).
Proof.
  intros Ht Hl Hp. destruct (first_eight p Hl Hp) as (x0 & x1 & x2 & x3 & x4 & x5 & x6 & x7 & r & -> & _).
  assert (t = 1 \/ t = 2 \/ t = 3 \/ t = 4 \/ t = 5 \/ t = 6 \/ t = 7 \/ t = 8 \/ t = 9) as Hc by lia. repeat (destruct Hc as [-> | Hc]; [by eexists|]). subst t. by eexists.
Qed.

Lemma compare_int_total t p m j : is_u8 t -> 8 <= alen p -> Forall is_u8 p -> mem_u m = U_i j -> is_Some (compare_int t p m).
Proof.
  unfold is_u8. intros Ht Hl Hp Eu. unfold compare_int. destruct (Z.geb_spec t 10); [by eexists|]. destruct (Z.eqb_spec t 0); [by eexists|]. unfold u_i. rewrite Eu. destruct (Z.eqb_spec t 7).
  - destruct (get7_total p mem1 Hl Hp) as (x & _ & ->). by eexists.
  - destruct (decode_int_total p t) as [i ->]; [lia|done|done|]. by eexists.
Qed.

Lemma compare_real_total t p m q : is_u8 t -> 8 <= alen p -> Forall is_u8 p -> mem_u m = U_r q -> is_Some (compare_real t p m).
Proof.
  unfold is_u8. intros Ht Hl Hp Eu. assert (Eq : u_r m = Some q) by (unfold u_r; by rewrite Eu). unfold compare_real. destruct (Z.geb_spec t 10); [by eexists|]. destruct (Z.eqb_spec t 0); [by eexists|]. destruct (Z.eqb_spec t 7).
  - destruct (get7_total p mem1 Hl Hp) as (x & _ & ->). cbn [mbind option_bind]. destruct (IsNaN x); [by eexists|]. change (u_r (set_u (U_r x) MEM_Real mem1)) with (Some x). cbn [mbind option_bind]. rewrite Eq. by eexists.
  - destruct (Z.leb_spec t 6).
    + destruct (get_int_total p t mem1 ltac:(lia) Hl Hp) as (i & -> & _). cbn [mbind option_bind]. change (u_i (set_u (U_i i) MEM_Int mem1)) with (Some i). cbn [mbind option_bind]. rewrite Eq. by eexists.
    + assert (t = 8 \/ t = 9) as [-> | ->] by lia; cbn; rewrite Eq; by eexists.
Qed.

Lemma split_bytes (p : list Z) n : 0 <= n <= alen p -> p = take (Z.to_nat n) p ++ drop (Z.to_nat n) p /\ alen (take (Z.to_nat n) p) = n.
Proof. intros H. unfold alen in *. rewrite take_drop, length_take. split; [done|lia]. Qed.

Lemma cmp_bytes_total p n m s : 0 <= n <= alen p -> mem_bytes m s -> is_Some (cmp_bytes p (mem_z m) n (mem_n m)).
Proof.
  intros Hn (-> & _ & rest & ->). destruct (split_bytes p n Hn) as [E El]. destruct (cmp_bytes_ok (take (Z.to_nat n) p) s (drop (Z.to_nat n) p) rest) as (c & Ec & _). rewrite El in Ec. rewrite <- E in *. by exists c.
Qed.

Lemma zero_total p n : 0 <= n <= alen p -> is_Some (isAllZero p n).
Proof. intros Hn. destruct (split_bytes p n Hn) as [E El]. pose proof (isAllZero_spec (take (Z.to_nat n) p) (drop (Z.to_nat n) p)) as H. rewrite <- E, El in H. rewrite H. by eexists. Qed.

(** A field is compared, or is SQLITE_CORRUPT. *)
Definition field_done (c : option field_cmp) : Prop := c = Some field_corrupt \/ exists rc t e, c = Some (field_rc rc t e) /\ is_u32 t.

Lemma field_safe nKey aKey idx1 d1 p i m w coll : padded nKey aKey -> 0 <= idx1 <= nKey + 60 -> 0 <= d1 <= nKey -> key_cell (ki_enc (up_pKeyInfo p)) m w -> aget (ki_aColl (up_pKeyInfo p)) i = Some coll ->
  field_done (compare_field toText nKey aKey idx1 d1 p i m).
Proof.
  intros (Hk & Hu & Hpad) Hi Hd Hm Ecoll. assert (Hlen : alen (at_off aKey d1) = alen aKey - d1) by (apply at_off_len; lia). assert (H8 : 8 <= alen (at_off aKey d1)) by lia. assert (Hdu : Forall is_u8 (at_off aKey d1)) by (by apply at_off_u8).
  destruct (aget_is_Some aKey idx1 ltac:(lia)) as [t Et]. assert (Ht : is_u8 t) by (eapply Forall_forall; [exact Hu|]; apply aget_elem; by exists idx1). assert (Ht32 : is_u32 t) by (unfold is_u8, is_u32 in *; lia).
  destruct (get_total (at_off aKey idx1)) as (t' & k & Eg & Ht' & _); [by apply at_off_u8|rewrite at_off_len; lia|]. unfold is_u32 in Ht'. unfold compare_field. rewrite Et, Eg. cbn [mbind option_bind]. rewrite Ecoll.
  destruct w as [|j|q|s|s].
  - destruct Hm as (_ & _ & Hnum & Hs & Hb). rewrite !has_mask in Hnum. apply orb_false_iff in Hnum as [Hnum F3]. apply orb_false_iff in Hnum as [F1 F2]. rewrite has_mask, F1, F2, F3, Hs, Hb. cbn [orb]. right. destruct (_ || _); [by eexists _, _, _|]. destruct (t =? 7); [|by eexists _, _, _]. destruct (get7_total (at_off aKey d1) mem1 H8 Hdu) as (x & _ & ->). by eexists _, _, _.
  - destruct Hm as ((_ & Hint & _ & Eu & _) & _). rewrite Hint. destruct (compare_int_total t (at_off aKey d1) m j Ht H8 Hdu Eu) as [rc ->]. right. by eexists _, _, _.
  - destruct Hm as ((_ & Hint & Hr & Eu & _) & _). rewrite Hint, Hr. destruct (compare_real_total t (at_off aKey d1) m q Ht H8 Hdu Eu) as [rc ->]. right. by eexists _, _, _.
  - destruct Hm as ((_ & Hnum & Hs & _ & Hb) & _). rewrite !has_mask in Hnum. apply orb_false_iff in Hnum as [Hnum F3]. apply orb_false_iff in Hnum as [F1 F2]. rewrite has_mask, F1, F2, F3, Hs. cbn [orb mbind option_bind]. destruct (Z.ltb_spec t' 12); [right; by eexists _, _, _|]. destruct (t' .& 1 =? 0); [right; by eexists _, _, _|].
    set (n := (t' - 12) / 2). assert (Hn : 0 <= n < 2 ^ 31) by (subst n; zdm). unfold u32. rewrite Z.mod_small, Z.gtb_ltb by lia. destruct (Z.ltb_spec nKey (d1 + n)); [by left|]. cbn [orb]. destruct (_ <=? i); [by left|]. right. destruct coll as [c|].
    + destruct (vdbeCompareMemString toText _ m c) as [rc nomem]. by eexists _, _, _.
    + destruct (cmp_bytes_total (at_off aKey d1) n m s ltac:(lia) Hb) as [rc ->]. by eexists _, _, _.
  - destruct Hm as ((_ & Hnum & Hs & Hb) & _ & Hbl). rewrite !has_mask in Hnum. apply orb_false_iff in Hnum as [Hnum F3]. apply orb_false_iff in Hnum as [F1 F2]. rewrite has_mask, F1, F2, F3, Hs, Hbl. cbn [orb]. destruct (Z.ltb_spec t' 12); [right; by eexists _, _, _|]. cbn [orb]. destruct (negb _); [right; by eexists _, _, _|].
    set (n := (t' - 12) / 2). assert (Hn : 0 <= n < 2 ^ 31) by (subst n; zdm). unfold u32. rewrite Z.mod_small, Z.gtb_ltb by lia. destruct (Z.ltb_spec nKey (d1 + n)); [by left|]. right. destruct Hb as [[-> Hb]|[-> (_ & z & Eu & _)]].
    + destruct (cmp_bytes_total (at_off aKey d1) n m s ltac:(lia) Hb) as [rc ->]. by eexists _, _, _.
    + destruct (zero_total (at_off aKey d1) n ltac:(lia)) as [[] ->]; cbn [mbind option_bind negb]; [|by eexists _, _, _]. unfold u_nZero. rewrite Eu. by eexists _, _, _.
Qed.
Lemma loop_safe nKey aKey szHdr1 : padded nKey aKey -> szHdr1 <= nKey -> forall ws p fuel i idx1 d1, ws <> [] -> (length ws <= fuel)%nat -> key_at toText p i ws -> up_nField p = i + alen ws -> 0 <= idx1 <= nKey + 60 -> 0 <= d1 <= nKey ->
  is_Some (compare_loop toText fuel nKey aKey szHdr1 idx1 d1 i p).
Proof.
  intros Hp Hsz ws. pose proof Hp as (Hk & _). induction ws as [|w ws IH]; intros p [|fuel] i idx1 d1 Hne Hfuel Hkey Hn Hi Hd; [done|done|cbn in Hfuel; lia|]. pose proof Hkey as [(m & fl & coll & Em & Hm & Efl & Hfl & Ecoll & Hcoll) [Hall Hkey']]. cbn [compare_loop]. rewrite Em. cbn [mbind option_bind].
  destruct (field_safe nKey aKey idx1 d1 p i m w coll Hp Hi Hd Hm Ecoll) as [-> | (rc & t & e & -> & Ht)]; cbn [mbind option_bind]; [by eexists|]. cbn [up_pKeyInfo set_errCode up_nField]. destruct (negb (rc =? 0)); [rewrite Efl; by eexists|]. rewrite alen_cons in Hn. destruct (Z.eqb_spec (i + 1) (up_nField p)) as [E|E]; [by eexists|].
  destruct (typelen_total t Ht) as (len & -> & Hlen). cbn [mbind option_bind]. pose proof (varint_len_range t Ht). unfold u32. rewrite (Z.mod_small (d1 + len)), (Z.mod_small (idx1 + _)) by lia. rewrite Z.gtb_ltb, Z.geb_leb. destruct (Z.ltb_spec nKey (d1 + len)); [by eexists|]. destruct (Z.leb_spec szHdr1 (idx1 + sqlite3VarintLen t)); [by eexists|].
  destruct ws as [|w' ws]; [change (alen []) with 0 in Hn; lia|]. apply IH; [done|cbn in *; lia|by eapply key_at_ext; [..|exact Hkey']|cbn [up_nField set_errCode]; lia|lia|lia].
Qed.

Lemma general_safe nKey aKey ws p : padded nKey aKey -> key_is toText p ws -> is_Some (sqlite3VdbeRecordCompare toText nKey aKey p).
Proof.
  intros Hp (Hne & Hk & Hn). pose proof Hp as (Hkk & Hu & Hpad). unfold sqlite3VdbeRecordCompare, sqlite3VdbeRecordCompareWithSkip. destruct (get_total aKey Hu) as (sz & k & -> & Hsz & Hr); [lia|]. cbn [mbind option_bind]. unfold is_u32 in Hsz. rewrite Z.gtb_ltb. destruct (Z.ltb_spec nKey sz); [by eexists|].
  pose proof (key_at_len toText p ws 0 ltac:(lia) Hk Hne). apply (loop_safe nKey aKey sz Hp ltac:(lia) ws); [done|unfold alen in *; lia|done|lia|lia|lia].
Qed.

Lemma skip_safe nKey aKey w ws p : padded nKey aKey -> key_is toText p (w :: ws) -> up_nField p > 1 -> is_Some (sqlite3VdbeRecordCompareWithSkip toText nKey aKey p true).
Proof.
  intros Hp (Hne & Hk & Hn) H1. pose proof Hp as (Hkk & Hu & Hpad). unfold sqlite3VdbeRecordCompareWithSkip. destruct (aget_is_Some aKey 0 ltac:(lia)) as [b0 E0]. destruct (aget_is_Some aKey 1 ltac:(lia)) as [b1 E1]. assert (Hb0 : is_u8 b0) by (eapply Forall_forall; [exact Hu|]; apply aget_elem; by exists 0). unfold is_u8 in Hb0.
  rewrite E1. cbn [mbind option_bind]. rewrite get_after1 by (by rewrite <- aget_at_off). destruct (get_total (at_off aKey 1)) as (t & k & -> & Ht & Hr); [by apply at_off_u8|rewrite at_off_len; lia|]. cbn [mbind option_bind]. rewrite E0. cbn [mbind option_bind]. destruct (typelen_total t Ht) as (len & -> & Hlen). cbn [mbind option_bind]. unfold u32. rewrite Z.mod_small, Z.gtb_ltb by lia. destruct (Z.ltb_spec nKey (b0 + len)); [by eexists|].
  pose proof (key_at_len toText p (w :: ws) 0 ltac:(lia) Hk Hne) as Hlen'. rewrite alen_cons in Hlen', Hn. destruct Hk as [_ [_ Hk]]. apply (loop_safe nKey aKey b0 Hp ltac:(lia) ws); [|unfold alen in *; lia|done|lia|lia|lia]. intros ->. change (alen []) with 0 in Hn. lia.
Qed.

Lemma Int_safe nKey aKey j ws p : padded nKey aKey -> key_is toText p (VInt j :: ws) -> up_u p = cache_i j -> is_Some (vdbeRecordCompareInt toText nKey aKey p).
Proof.
  intros Hp Hkey Eu. pose proof Hp as (Hkk & Hu & Hpad). pose proof (general_safe nKey aKey _ p Hp Hkey) as HG. unfold vdbeRecordCompareInt. destruct (aget_is_Some aKey 0 ltac:(lia)) as [b0 E0]. destruct (aget_is_Some aKey 1 ltac:(lia)) as [t E1]. rewrite E0, E1. cbn [mbind option_bind]. rewrite Eu, (land_ones_mod _ 6) by lia.
  pose proof (Z.mod_pos_bound b0 (2 ^ 6) ltac:(lia)). set (q := at_off aKey (b0 mod 2 ^ 6)). assert (Hq : 8 <= alen q) by (subst q; rewrite at_off_len; lia). assert (Hqu : Forall is_u8 q) by (by apply at_off_u8).
  assert (HX : forall X : option Z, is_Some X -> is_Some (lhs ← X; v ← Some j; if v >? lhs then Some (up_r1 p, p) else if v <? lhs then Some (up_r2 p, p) else if up_nField p >? 1 then sqlite3VdbeRecordCompareWithSkip toText nKey aKey p true else Some (up_default_rc p, set_eqSeen p))).
  { intros X [x ->]. cbn [mbind option_bind]. destruct (_ >? x); [by eexists|]. destruct (_ <? x); [by eexists|]. destruct (Z.gtb_spec (up_nField p) 1); [|by eexists]. eapply skip_safe; [done|done|lia]. }
  assert (HD : 1 <= t <= 9 -> is_Some (vdbeRecordDecodeInt t q)) by (intros; by apply decode_int_total).
  destruct t as [|t|t]; [exact HG| |exact HG]. do 4 (destruct t as [t|t|]; try exact HG; try (apply HX; apply HD; lia)).
  - apply (HX (Some 1)). by eexists.
  - apply (HX (Some 0)). by eexists.
Qed.

Lemma String_safe nKey aKey s ws p m0 : padded nKey aKey -> key_is toText p (VText s :: ws) -> aget (up_aMem p) 0 = Some m0 -> up_u p = cache_z (mem_z m0) -> up_n p = mem_n m0 -> is_Some (vdbeRecordCompareString toText nKey aKey p).
Proof.
  intros Hp Hkey Em Eu En. pose proof Hp as (Hkk & Hu & Hpad). unfold vdbeRecordCompareString. destruct (aget_is_Some aKey 0 ltac:(lia)) as [b0 E0]. assert (Hb0 : is_u8 b0) by (eapply Forall_forall; [exact Hu|]; apply aget_elem; by exists 0). unfold is_u8 in Hb0.
  assert (Hcell : mem_bytes m0 s). { destruct Hkey as (_ & [(m & _ & _ & Em' & ((_ & _ & _ & _ & Hb) & _) & _) _] & _). rewrite Em in Em'. by simplify_eq. }
  destruct (aget_is_Some aKey 1 ltac:(lia)) as [b1 E1]. assert (Hb1 : is_u8 b1) by (eapply Forall_forall; [exact Hu|]; apply aget_elem; by exists 1). unfold is_u8 in Hb1. destruct (get_total (at_off aKey 1)) as (t & k & Eg & Ht & _); [by apply at_off_u8|rewrite at_off_len; lia|].
  rewrite E1. cbn [mbind option_bind]. assert (Hty : exists ty, (if i8 b1 <? 0 then '(t, _) ← sqlite3GetVarint32 (at_off aKey 1); Some (i32 t) else Some (i8 b1)) = Some ty /\ ty < 2 ^ 31).
  { destruct (Z.ltb_spec (i8 b1) 0) as [Hneg|]; [|exists (i8 b1); split; [done|]; pose proof (i8_range b1); lia]. unfold getVarint32 in Eg. rewrite <- aget_at_off, E1 in Eg by lia. cbn [mbind option_bind] in Eg. destruct (Z.ltb_spec b1 128) as [Hs|Hs]; [exfalso; unfold i8, swrap in Hneg; zdm|]. rewrite Eg. eexists. split; [done|]. unfold i32, swrap. zdm. }
  destruct Hty as (ty & -> & Hty). cbn [mbind option_bind]. destruct (Z.ltb_spec ty 12); [by eexists|]. destruct (ty .& 1 =? 0); [by eexists|]. rewrite E0. cbn [mbind option_bind]. set (n := (ty - 12) / 2). assert (Hn : 0 <= n) by (apply Z.div_pos; lia). rewrite (Z.gtb_ltb (b0 + n)). destruct (Z.ltb_spec nKey (b0 + n)); [by eexists|]. rewrite Eu, En. cbn [mbind option_bind].
  assert (Hcmp : is_Some (memcmp (at_off aKey b0) (mem_z m0) (Z.min (mem_n m0) n))). { destruct (cmp_bytes_total (at_off aKey b0) n m0 s ltac:(rewrite at_off_len; lia) Hcell) as [c Hc]. unfold cmp_bytes in Hc. rewrite Z.min_comm. destruct (memcmp _ _ _); [by eexists|done]. }
  destruct Hcmp as [c ->]. cbn [mbind option_bind]. destruct (c >? 0); [by eexists|]. destruct (c <? 0); [by eexists|]. destruct (_ =? 0); [|by destruct (_ >? 0); eexists]. destruct (Z.gtb_spec (up_nField p) 1); [|by eexists]. eapply skip_safe; [done|done|lia].
Qed.

Lemma find_safe nKey aKey ws p : padded nKey aKey -> key_is toText p ws -> exists c q, sqlite3VdbeFindCompare p = Some (c, q) /\ is_Some (xRecordCompare toText c nKey aKey q).
Proof.
  intros Hp Hk. destruct (find_cases toText p ws Hk) as (c & q & Ec & Hq & Hc). exists c, q. split; [done|]. assert (Hkq : key_is toText q ws) by (destruct Hq as (E1 & E2 & E3 & _); by eapply key_is_ext).
  destruct Hc as [|j ws' -> H13 Hs Hu|s ws' m0 -> H13 Hs Em Hu Hn Ecoll]; [by eapply general_safe|by eapply Int_safe|by eapply String_safe].
Qed.
End Safe.

(** C21. Reading and comparing records is safe for all bytes.  For every buffer of bytes that is at least 74 longer than the record in it, [sqlite3VdbeRecordUnpack] ends without reading outside of the buffer, whatever number of
    fields is asked for, and gives at most that many cells (at least one may be read), each of which holds a value whose bytes are in the buffer: a field that would not end in the record becomes NULL.
    The general comparison, and the one that [sqlite3VdbeFindCompare] chooses for the key, end with a result for each key, too. *)
Theorem sqlite3VdbeRecord_safe toText enc nKey aKey nField p ws :
  padded nKey aKey -> key_is toText p ws ->
  (exists ms, sqlite3VdbeRecordUnpack enc nKey aKey nField = Some ms /\ (length ms <= Nat.max 1 nField)%nat /\ Forall (some_cell enc) ms) /\
  is_Some (sqlite3VdbeRecordCompare toText nKey aKey p) /\
  exists c q, sqlite3VdbeFindCompare p = Some (c, q) /\ is_Some (xRecordCompare toText c nKey aKey q).
Proof. intros Hp Hk. split; [by apply unpack_safe|]. split; [by eapply general_safe|by eapply find_safe]. Qed.

(** A header that says 200 bytes, in a record of 3 *)
Definition demo_corrupt : list Z := [0x81; 0x48; 0x0f] ++ replicate 74 0xff.

Lemma sqlite3VdbeRecord_safe_witness :
  (exists ms, sqlite3VdbeRecordUnpack 1 3 demo_corrupt 4 = Some ms /\ (length ms <= Nat.max 1 4)%nat /\ Forall (some_cell 1) ms) /\
  is_Some (sqlite3VdbeRecordCompare (fun _ _ s => Some s) 3 demo_corrupt demo_key) /\
  exists c q, sqlite3VdbeFindCompare demo_key = Some (c, q) /\ is_Some (xRecordCompare (fun _ _ s => Some s) c 3 demo_corrupt q).
Proof.
  apply (sqlite3VdbeRecord_safe (fun _ _ s => Some s) 1 3 demo_corrupt 4 demo_key [VInt 300; VText [98]]); [|exact demo_key_is].
  split; [lia|]. split; [|vm_compute; discriminate]. unfold demo_corrupt. apply Forall_app. split; [repeat constructor; by vm_compute|]. apply Forall_replicate. by vm_compute.
Defined.
